(* ===== verification/_CoqProject ===== *)
-Q . S2P
Prelude.v
Mantissa.v
Timer.v
Avl.v
AvlSpec.v
IpAddr.v
KeyTree.v
DupSet.v
Monad.v
Lsdb.v
State.v
MidLookup.v
Interfaces.v
NeighTable.v
NeighProofs.v
HelloTwoHop.v
NeighSpec.v
Mpr.v
MprProofs.v
MprSpec.v
Packet.v
LsdbOps.v
Lq.v
Hysteresis.v
RouteTable.v
TcSet.v
LinkSet.v
LsdbProofs.v
LinkProofs.v
LinkBest.v
VertexProofs.v
TcSpec.v
LinkSpec.v
RouteSpec.v
Rib.v
RibSpec.v
KernelSpec.v
Spf.v
SpfSpec.v
RouteCalc.v
CalcProofs.v
LqFpm.v
LqFf.v
NatThresh.v
CalcSpec.v
MprSel.v
Hello.v
HelloRead.v
HelloSpec.v
LqMpr.v
LqMprSpec.v
MidSet.v
MidSpec.v
Changes.v
HelloTap.v
Node.v
NetOlsr.v
Hna.v
HnaProofs.v
HnaSpec.v
TcInput.v
TcInputSpec.v
NetSpec.v
BuildMsg.v
BuildProofs.v
BuildSpec.v
HelloBuild.v
GenMsg.v
GenSpec.v
AnnounceSpec.v
LqPacket.v
LqParts.v
LqCreate.v
LqPacketSpec.v
Forward.v
ForwardSpec.v
Parser.v
ParserSpec.v
TimerWheel.v
CList.v
