(* ===== verification/Prelude.v ===== *)
(** * olsrd: a verification development of the OLSR routing daemon

    The daemon (src/src/) keeps link sensing and topology tables up to date from
    the HELLO and TC messages it receives, selects multipoint relays, and computes
    routes. This library models its tables and algorithms as executable Rocq
    definitions, with the same names as the C functions, and proves what they
    guarantee.

    ** How the model reads

    - Integers are [Z]; an assignment that can leave the range of its C type goes
      through [u8], [u16], [u32], [s8], [s16] or [s32] (this file). Floats of
      hysteresis.c and lq_plugin are binary32 numbers (SpecFloat).
    - An operation on global tables is a computation of the state monad of Monad.v:
      [M S A] maps a state to a result and a new state, or to [None] for an access
      to memory that is not allocated (a dangling or null pointer), for a loop
      bound that was too small and for [olsr_exit], which ends the program. [wp m Q st] says that [m] ends from [st] in [Q], so
      theorems of that form are memory safety and termination theorems too; [wlp m Q
      st] says the same of the runs that end.
    - Objects live in heaps ([gmap] from addresses); a C hash table is a list of
      buckets, a circular list the list of its elements, an AVL tree embedded in
      the objects an [avl_tree] labelled with their addresses.
    - [malloc] takes a fresh address; it does not fail ([olsr_malloc] exits).
    - Configuration is the class [olsrd_config] (the fields of [olsr_cnf] that the
      code reads), the link metric the class [lq_handler] (struct lq_handler, laws
      included where a theorem needs them), the exchangeable functions that add and
      delete kernel routes the class [kernel_routes]; theorems hold for every
      instance. [olsr_validate_address] and functions that plugins register are
      arguments.
    - Code under [#ifdef __linux__] (gateway tunnels, policy routing) is left out: the
      model is of the build without it.

    ** Parts

    - Prelude, Monad: integers, lists, the monad and its [wp] rules.
    - Mantissa (mantissa.c): the 8-bit time format; accuracy, saturation, round trip.
    - Timer (scheduler.c): the millisecond clock across its wrap-around, jitter, the
      handle of a timer as its owner sees it.
    - Avl, AvlSpec (common/avl.c): trees with parent paths and the
      in-order list; insertion, deletion, search, height. KeyTree states what the
      tables rely on as a class with laws and discharges it with these trees.
    - IpAddr (olsr_types.h, ipcalc.c, hashing.c): addresses, masks, the hash.
    - DupSet (duplicate_set.c): the duplicate message set.
    - State: the records of the global tables and of the heap. MidLookup
      (mid_set.c): main address lookups. Interfaces (interfaces.c): lookups.
    - NeighTable, HelloTwoHop (neighbor_table.c, two_hop_neighbor_table.c,
      process_package.c), NeighProofs, NeighSpec: one-hop and two-hop neighbours
      that point to each other; the invariant [nbr_wf].
    - Mpr, MprProofs, MprSpec (mpr.c): the relay selection by reachability.
      LqMpr, LqMprSpec (lq_mpr.c): the selection by link quality.
      MprSel (mpr_selector_set.c): the nodes that chose this one.
    - Packet (lq_packet.h): the fields of messages, read off a list of bytes.
    - Lq (lq_plugin.c): the calls of the active link metric. LqFpm
      (lq_plugin_default_fpm.c, lq_plugin_default_float.c): the metrics etx_fpm and
      etx_float; LqFf (fpm.c, lq_plugin_default_ff.c, lq_plugin_default_ffeth.c): the
      metrics etx_ff and etx_ffeth. All but etx_float are instances of [lq_handler].
      Hysteresis (hysteresis.c).
    - LinkSet (link_set.c): links, their timers and status, the best link to a
      neighbour. LinkProofs: the invariant [net_wf] (links, neighbours and two-hop
      neighbours agree); LinkBest: the search for the best link; LinkSpec.
    - Lsdb, LsdbOps, RouteTable, TcSet (tc_set.c, routing_table.c): the topology
      graph, the prefixes its vertices announce and the routes; LsdbProofs,
      VertexProofs: the invariant [lsdb_wf]; TcSpec, RouteSpec: the theorems.
    - MidSet, MidSpec (mid_set.c, rebuild_packet.c): the alias addresses;
      the abstract view is the relation [registered].
    - Spf, SpfSpec (olsr_spf.c): Dijkstra on the topology graph, refined
      to least-cost paths. Rib, RibSpec, KernelSpec (process_routes.c): routes, the
      queues of kernel changes and the kernel table. RouteCalc,
      CalcProofs, CalcSpec (olsr_spf.c): the calculation of the routing table from
      end to end. NatThresh: the arithmetic of the NAT threshold.
    - Hello, HelloRead, HelloSpec (process_package.c): reading a HELLO
      message and what its neighbours change. Changes (olsr.c): what is recalculated
      when a table has changed. HelloTap (process_package.c): a HELLO from its bytes
      to the recalculation, composed of all of these.
    - Node: the whole node, that is the tables of State with the duplicate set, the
      networks, the output side of the interfaces and the packets sent; a computation
      on the tables is [lift]ed to it.
    - Hna, HnaProofs, HnaSpec (hna_set.c): the networks of other nodes; the abstract
      view is the relation [announced].
    - TcInput, TcInputSpec (tc_set.c): a TC message, from its bytes to
      the topology set.
    - NetOlsr, NetSpec (net_olsr.c): refused addresses; the output buffers, which
      refine a queue of bytes.
    - BuildMsg, BuildProofs, BuildSpec, HelloBuild (build_msg.c): messages are written,
      in parts if there is no room. The stream of an interface is what was sent and
      what is queued; [emitted] says which messages were added to it. GenMsg, GenSpec,
      AnnounceSpec (packet.c, generate_msg.c): what the messages of this node say.
    - LqPacket, LqParts, LqCreate, LqPacketSpec (lq_packet.c):
      HELLO and TC messages with link quality, and the border flags of the parts of a
      TC message.
    - Forward, ForwardSpec (olsr.c): which messages go on to other nodes, over which
      interfaces; message numbers, the willingness, the start of the tables. Parser,
      ParserSpec (parser.c): a packet that arrives is taken apart into messages, each of
      which reaches the function for its type.
    - TimerWheel (scheduler.c): the wheel of timers that the handles of Timer
      stand for. Callbacks are arguments that may work on their own data and start, stop
      or change timers ([client_step]); a walk ends and leaves no timer overdue.
    - CList (common/list.c): circular doubly linked lists on a heap of nodes; [ring]
      relates them to sequences.

    ** What is shown

    Each operation of the tables keeps their invariant (no dangling pointer, both
    directions of a link agree, reference counts count), and does what its name
    says on every branch. The calculations (relays, shortest paths, best routes,
    kernel routes) are related to specifications that do not mention the algorithm.
    Messages are read as they were written, and what is read is well typed. Where the
    code does not keep what it promises, a theorem shows the run that breaks it.

    Loops that the C code runs until a condition holds have fuel; the fuel is the
    length of the list they consume (plus one), the number of bytes of the packet for
    a read loop, the number of vertices for Dijkstra, or 4 for the mutual recursion of
    [olsr_insert_routing_table] and [olsr_add_tc_entry]; the [wp] theorems show that it
    is enough.

    ** Not modelled

    Sockets, the kernel route interface, the main loop that waits for them and signal
    handling (I/O);
    the configuration parser and its generated scanner; the plugins under lib/;
    the gateway tunnels (gateway.c and friends) and what they add to HNA messages; the
    reports of duplicate addresses, except the one on the originator of a message (Parser);
    debug output and the conversion of addresses to text; the Windows, BSD and Android
    ports. PROJECT.json lists each of these parts with its reason. *)

From Stdlib Require Export ZArith Lia SpecFloat.
From stdpp Require Export base tactics sorting gmap numbers option list strings.
Export stdpp.list_basics.list.

Declare Scope olsr_scope.
Delimit Scope olsr_scope with olsr.
#[global] Open Scope Z_scope.

(** ** Machine integers

    A C integer is a [Z]; every assignment that may leave the range of its type
    goes through the wrap-around of that type. *)

(** Conversion to [uint8_t], [uint16_t], [uint32_t]. *)
Definition u8 (x : Z) : Z := x mod 256.
Definition u16 (x : Z) : Z := x mod 65536.
Definition u32 (x : Z) : Z := x mod 4294967296.

(** Conversion to [int8_t], [int16_t], [int32_t] (two's complement). *)
Definition s8 (x : Z) : Z := (x + 128) mod 256 - 128.
Definition s16 (x : Z) : Z := (x + 32768) mod 65536 - 32768.
Definition s32 (x : Z) : Z := (x + 2147483648) mod 4294967296 - 2147483648.

(** The ranges, as predicates. *)
Definition is_u8 (x : Z) : Prop := 0 <= x < 256.
Definition is_u16 (x : Z) : Prop := 0 <= x < 65536.
Definition is_u32 (x : Z) : Prop := 0 <= x < 4294967296.
Definition is_s16 (x : Z) : Prop := -32768 <= x < 32768.
Definition is_s32 (x : Z) : Prop := -2147483648 <= x < 2147483648.

(** [1U << n], [x << n] and [x >> n] on [unsigned int]. *)
Definition shl32 (x n : Z) : Z := u32 (Z.shiftl x n).
Definition shr32 (x n : Z) : Z := Z.shiftr x n.

Create HintDb olsr discriminated.
Create Rewrite HintDb wrap.

Lemma u8_range x : is_u8 (u8 x).
Proof. unfold is_u8, u8. apply Z.mod_pos_bound. lia. Qed.

Lemma u16_range x : is_u16 (u16 x).
Proof. unfold is_u16, u16. apply Z.mod_pos_bound. lia. Qed.

Lemma u32_range x : is_u32 (u32 x).
Proof. unfold is_u32, u32. apply Z.mod_pos_bound. lia. Qed.

Lemma u8_id x : is_u8 x -> u8 x = x.
Proof. unfold is_u8, u8. intros. apply Z.mod_small. lia. Qed.

Lemma u16_id x : is_u16 x -> u16 x = x.
Proof. unfold is_u16, u16. intros. apply Z.mod_small. lia. Qed.

Lemma u32_id x : is_u32 x -> u32 x = x.
Proof. unfold is_u32, u32. intros. apply Z.mod_small. lia. Qed.

Lemma s16_id x : is_s16 x -> s16 x = x.
Proof. unfold is_s16, s16. intros. rewrite Z.mod_small; lia. Qed.

Lemma s32_id x : is_s32 x -> s32 x = x.
Proof. unfold is_s32, s32. intros. rewrite Z.mod_small; lia. Qed.

#[export] Hint Resolve u8_range u16_range u32_range : olsr.
#[export] Hint Rewrite u8_id u16_id u32_id s16_id s32_id using (unfold is_u8, is_u16, is_u32, is_s16, is_s32; lia) : wrap.

(** ** Automation *)

(** Turns the boolean tests of the code ([=?], [<?], [&&], ...) that occur as
    hypotheses into propositions. *)
Ltac bool_hyps :=
  repeat match goal with
  | H : _ && _ = true |- _ => apply andb_prop in H; destruct H
  | H : _ || _ = false |- _ => apply orb_false_elim in H; destruct H
  | H : _ || _ = true |- _ => apply orb_prop in H
  | H : _ && _ = false |- _ => apply andb_false_iff in H
  | H : negb _ = true |- _ => apply negb_true_iff in H
  | H : negb _ = false |- _ => apply negb_false_iff in H
  | H : (_ =? _) = true |- _ => apply Z.eqb_eq in H
  | H : (_ =? _) = false |- _ => apply Z.eqb_neq in H
  | H : (_ <? _) = true |- _ => apply Z.ltb_lt in H
  | H : (_ <? _) = false |- _ => apply Z.ltb_ge in H
  | H : (_ <=? _) = true |- _ => apply Z.leb_le in H
  | H : (_ <=? _) = false |- _ => apply Z.leb_gt in H
  | H : (_ >? _) = true |- _ => rewrite Z.gtb_ltb in H; apply Z.ltb_lt in H
  | H : (_ >? _) = false |- _ => rewrite Z.gtb_ltb in H; apply Z.ltb_ge in H
  | H : (_ >=? _) = true |- _ => rewrite Z.geb_leb in H; apply Z.leb_le in H
  | H : (_ >=? _) = false |- _ => rewrite Z.geb_leb in H; apply Z.leb_gt in H
  end.

(** Case analysis on the outermost boolean test or option of the goal. *)
Ltac case_test :=
  match goal with
  | |- context [if ?b then _ else _] => destruct b eqn:?; bool_hyps
  end.

Ltac case_tests := repeat (case_test; try done; try lia).

(** [lia] with quotients and remainders by constants. *)
Ltac olia :=
  unfold u8, u16, u32, s8, s16, s32, is_u8, is_u16, is_u32, is_s16, is_s32 in *;
  Z.to_euclidean_division_equations; lia.

(** Shifts by non-negative amounts, as products and quotients. *)
Lemma shl32_pow x n : 0 <= n -> is_u32 (x * 2 ^ n) -> shl32 x n = x * 2 ^ n.
Proof. intros Hn Hr. unfold shl32. rewrite Z.shiftl_mul_pow2 by done. by apply u32_id. Qed.

(** ** Lists, options and heaps *)

(** A loop whose body may fail. *)
Fixpoint foldlM {A B : Type} (f : B -> A -> option B) (b : B) (l : list A) : option B :=
  match l with
  | [] => Some b
  | x :: l => b ← f b x; foldlM f b l
  end.

(** The loop rule: an invariant on the values and the elements still to come. *)
Lemma foldlM_inv {A B} (f : B -> A -> option B) (I : list A -> B -> Prop) l b :
  I l b -> (forall x l b, I (x :: l) b -> exists b', f b x = Some b' /\ I l b') ->
  exists b', foldlM f b l = Some b' /\ I [] b'.
Proof.
  intros Hb Hstep. revert b Hb. induction l as [|x l IH]; intros b Hb; simpl; [by exists b|].
  destruct (Hstep _ _ _ Hb) as (b' & -> & Hb'). simpl. by apply IH.
Qed.

Lemma filter_all {A} (P : A -> Prop) `{forall x, Decision (P x)} (l : list A) :
  (forall x, x ∈ l -> P x) -> filter P l = l.
Proof.
  induction l as [|x l IH]; intros Hl; [done|]. rewrite filter_cons, decide_True by (apply Hl; left).
  f_equal. apply IH. intros y Hy. apply Hl. by right.
Qed.

Lemma filter_ext_in {A} (P Q : A -> Prop) `{!forall x, Decision (P x), !forall x, Decision (Q x)} (l : list A) :
  (forall x, x ∈ l -> P x <-> Q x) -> filter P l = filter Q l.
Proof.
  induction l as [|x l IH]; intros HPQ; [done|]. rewrite !filter_cons. rewrite IH by (intros y Hy; apply HPQ; by right).
  assert (P x <-> Q x) as E by (apply HPQ; left). destruct (decide (P x)), (decide (Q x)); tauto.
Qed.

(** The groups of a list by a key, one for each key that occurs: together they are the list. *)
Lemma groups_other {A K} (key : A -> K) (P : K -> A -> Prop) `{!forall k x, Decision (P k x)} x l ks :
  (forall k x, P k x <-> key x = k) -> key x ∉ ks -> map (fun k => filter (P k) (x :: l)) ks = map (fun k => filter (P k) l) ks.
Proof.
  intros HP Hx. apply map_ext_in. intros k Hk. rewrite filter_cons_False; [done|]. rewrite HP. intros <-. by apply Hx, list_elem_of_In.
Qed.

Lemma groups_perm {A K} (key : A -> K) (P : K -> A -> Prop) `{!forall k x, Decision (P k x)} ks l :
  (forall k x, P k x <-> key x = k) -> NoDup ks -> (forall x, x ∈ l -> key x ∈ ks) -> concat (map (fun k => filter (P k) l) ks) ≡ₚ l.
Proof.
  intros HP Hnd. induction l as [|x l IH]; intros Hall.
  - clear. by induction ks.
  - assert (concat (map (fun k => filter (P k) l) ks) ≡ₚ l) as <- by (apply IH; intros y Hy; apply Hall; by right).
    destruct (list_elem_of_split ks (key x)) as (k1 & k2 & ->); [apply Hall; left|].
    apply NoDup_app in Hnd as (_ & H1 & H2). apply NoDup_cons in H2 as [H2 _].
    rewrite !map_app. cbn [map]. rewrite !(groups_other key) by (done || (intros Hk; by apply (H1 _ Hk), elem_of_cons; left)).
    rewrite filter_cons_True by by apply HP. rewrite !concat_app. cbn [concat app]. by rewrite <- Permutation_middle.
Qed.

Lemma length_filter_neq {A} (f : A -> positive) p (l : list A) :
  NoDup (map f l) -> p ∈ map f l -> S (length (filter (fun x => f x <> p) l)) = length l.
Proof.
  induction l as [|x l IH]; simpl; [by intros _ ?%not_elem_of_nil|].
  intros [Hn Hl]%NoDup_cons Hp. rewrite filter_cons. apply elem_of_cons in Hp as [->|Hp].
  - rewrite decide_False by tauto. f_equal. f_equal. apply filter_all. intros y Hy Hfy.
    apply Hn. rewrite <- Hfy. by apply (list_elem_of_fmap_2 f).
  - rewrite decide_True by (intros E; apply Hn; by rewrite E). simpl. by rewrite IH.
Qed.

Lemma map_filter_neq {A} (f : A -> positive) p (l : list A) :
  map f (filter (fun x => f x <> p) l) = filter (fun x => x <> p) (map f l).
Proof.
  induction l as [|x l IH]; simpl; [done|]. rewrite !filter_cons.
  destruct (decide (f x <> p)); simpl; by rewrite IH.
Qed.

(** Distinct addresses of allocated objects are at most as many as the objects. *)
Lemma nodup_length_size {A} (h : gmap positive A) (l : list positive) :
  NoDup l -> (forall p, p ∈ l -> is_Some (h !! p)) -> (length l <= size h)%nat.
Proof.
  intros Hnd Hl. rewrite <- size_dom, <- (size_list_to_set (C := gset positive) l Hnd).
  apply subseteq_size. intros p Hp. apply elem_of_dom, Hl. by apply elem_of_list_to_set in Hp.
Qed.

(** The address [malloc] returns: one that is not allocated. *)
Definition alloc {A : Type} (h : gmap positive A) : positive :=
  Pos.succ (map_fold (fun k _ m => Pos.max k m) 1%positive h).

Lemma alloc_above {A} (h : gmap positive A) p x : h !! p = Some x -> (p < alloc h)%positive.
Proof.
  unfold alloc. rewrite Pos.lt_succ_r. revert p x.
  apply (map_fold_weak_ind (fun m h => forall p x, h !! p = Some x -> (p <= m)%positive)).
  - intros p x. by rewrite lookup_empty.
  - intros k y m r _ IH p x. rewrite lookup_insert_Some. intros [[-> _]|[_ H]]; [lia|].
    specialize (IH _ _ H). lia.
Qed.

Lemma alloc_fresh {A} (h : gmap positive A) : h !! alloc h = None.
Proof. destruct (h !! alloc h) eqn:E; [|done]. apply alloc_above in E. lia. Qed.

(** ** Exhaustive checks over a small range, for facts on bytes and nibbles *)
Fixpoint all_from (lo : Z) (n : nat) (P : Z -> bool) : bool :=
  match n with O => true | S n => P lo && all_from (lo + 1) n P end.

Lemma all_from_spec lo n P :
  all_from lo n P = true -> forall x, lo <= x < lo + Z.of_nat n -> P x = true.
Proof.
  revert lo. induction n as [|n IH]; simpl; intros lo H x Hx; [lia|].
  apply andb_prop in H as [H1 H2].
  destruct (Z.eq_dec x lo) as [->|]; [done|]. apply (IH (lo + 1)); [done|lia].
Qed.

(** Proves [P x] for a boolean [P], from [lo <= x < hi], by evaluating [P] on the
    whole range. *)
Ltac by_range x lo n :=
  pattern x; match goal with
  | |- ?Q x => let H := fresh in
      assert (H : forall y, lo <= y < lo + Z.of_nat n -> Q y);
      [ intros ? ?; eapply (all_from_spec lo n (fun y => bool_decide (Q y)));
        [vm_compute; reflexivity | eassumption] | apply H; lia ]
  end.

Lemma all_from2_spec lo1 n1 lo2 n2 (P : Z -> Z -> bool) :
  all_from lo1 n1 (fun x => all_from lo2 n2 (P x)) = true ->
  forall x y, lo1 <= x < lo1 + Z.of_nat n1 -> lo2 <= y < lo2 + Z.of_nat n2 -> P x y = true.
Proof.
  intros H x y Hx Hy. pose proof (all_from_spec _ _ _ H x Hx) as H1; cbv beta in H1.
  by apply (all_from_spec _ _ _ H1 y).
Qed.

(** Facts on all objects of a sample heap, by evaluation. *)
Lemma heap_forall {A} (P : positive -> A -> bool) (m : gmap positive A) :
  forallb (fun x => P (fst x) (snd x)) (map_to_list m) = true -> forall p x, m !! p = Some x -> P p x = true.
Proof.
  intros H p x Hp%elem_of_map_to_list. rewrite forallb_forall in H. apply (H (p, x)). by apply list_elem_of_In.
Qed.

(** Evaluates the closed shifts and powers of the goal and the hypotheses. *)
Ltac is_closed_Z t :=
  match t with
  | Z0 => idtac | Zpos _ => idtac | Zneg _ => idtac
  | ?a + ?b => is_closed_Z a; is_closed_Z b
  | ?a - ?b => is_closed_Z a; is_closed_Z b
  | ?a * ?b => is_closed_Z a; is_closed_Z b
  end.

Ltac eval_pow :=
  repeat match goal with
  | |- context [Z.shiftl ?a ?b] => is_closed_Z a; is_closed_Z b;
      let r := eval vm_compute in (Z.shiftl a b) in change (Z.shiftl a b) with r
  | |- context [2 ^ ?b] => is_closed_Z b;
      let r := eval vm_compute in (2 ^ b) in change (2 ^ b) with r
  | H : context [2 ^ ?b] |- _ => is_closed_Z b;
      let r := eval vm_compute in (2 ^ b) in change (2 ^ b) with r in H
  end.
