(* ===== verification/Mantissa.v ===== *)
(** * mantissa.c: the 8-bit mantissa/exponent encoding of times (RFC 3626, 18.3) *)

From S2P Require Import Prelude.

(** ** Operations *)

(** The loop [while (unscaled_interval >= (1U << b)) b++;]. [fuel] bounds the
    iterations; [unscaled_interval] is below [2^27], so 32 are enough
    (lemma [me_exponent_exit]). *)
Fixpoint me_exponent (fuel : nat) (unscaled_interval b : Z) : Z :=
  match fuel with
  | O => b
  | S fuel' =>
      if unscaled_interval >=? shl32 1 b
      then me_exponent fuel' unscaled_interval (u8 (b + 1))
      else b
  end.

Definition reltime_to_me (interval : Z) : Z :=
  let unscaled_interval := u32 (interval / 125 * 2) in
  let b := me_exponent 32 unscaled_interval 0 in
  let '(a, b) :=
    if b =? 0 then (1, 0)
    else
      let b := u8 (b - 1) in
      if b >? 15 then (15, 15)
      else
        let a :=
          if b >=? 5
          then u8 (u32 (interval - shl32 125 (b - 1)) / shl32 125 (b - 5))
          else u8 (u32 (u32 (interval - shl32 125 (b - 1)) * shl32 1 (5 - b)) / 125) in
        let b := u8 (b + Z.shiftr a 4) in
        (Z.land a 15, b) in
  u8 (Z.lor (Z.shiftl a 4) (Z.land b 15)).

Definition me_to_reltime (me : Z) : Z :=
  let a := Z.shiftr me 4 in
  let b := Z.land me 15 in
  if b >=? 8
  then u32 (Z.shiftl (16 + a) (b - 8) * 1000)
  else u32 (Z.shiftr ((16 + a) * 1000) (8 - b)).

(** [reltime_minimum_interval], with the static cache [minimum_interval] it
    fills: the result and the new value of the cache. *)
Definition reltime_minimum_interval (minimum_interval : Z) : Z * Z :=
  let m := if minimum_interval =? 4294967295
           then me_to_reltime (reltime_to_me 0) else minimum_interval in
  (m, m).

(** ** Helper lemmas *)

(** The loop leaves with the bit length of its argument. *)
Lemma me_exponent_spec fuel u b :
  0 <= b -> b + Z.of_nat fuel <= 32 -> 0 <= u < 2 ^ (b + Z.of_nat fuel) ->
  (b = 0 \/ 2 ^ (b - 1) <= u) ->
  let r := me_exponent fuel u b in
  b <= r <= b + Z.of_nat fuel /\ u < 2 ^ r /\ (r = 0 \/ 2 ^ (r - 1) <= u).
Proof.
  revert b. induction fuel as [|fuel IH]; intros b Hb Hle Hu Hlo; simpl.
  - rewrite Z.add_0_r in *. lia.
  - assert (Hpow : shl32 1 b = 2 ^ b).
    { unfold shl32. rewrite Z.shiftl_1_l. apply u32_id. unfold is_u32.
      assert (2 ^ b <= 2 ^ 31) by (apply Z.pow_le_mono_r; lia).
      assert (0 < 2 ^ b) by (apply Z.pow_pos_nonneg; lia). lia. }
    rewrite Hpow. destruct (u >=? 2 ^ b) eqn:E; bool_hyps; [|lia].
    rewrite u8_id by (unfold is_u8; lia).
    destruct (IH (b + 1)) as (? & ? & ?); [lia|lia| |right|lia].
    + replace (b + 1 + Z.of_nat fuel) with (b + Z.of_nat (S fuel)) by lia. lia.
    + by replace (b + 1 - 1) with b by lia.
Qed.

(** The exponent byte of an interval of at least 125 ms: the [b] with
    [125 * 2^(b-1) <= interval < 125 * 2^b] (before the loop's decrement it is [b+1]). *)
Lemma me_exponent_interval i :
  is_u32 i -> 125 <= i ->
  exists b, 1 <= b <= 27 /\ me_exponent 32 (u32 (i / 125 * 2)) 0 = b + 1 /\
    125 * 2 ^ (b - 1) <= i < 125 * 2 ^ b.
Proof.
  intros Hi Hlo. unfold is_u32 in Hi.
  rewrite u32_id by olia.
  destruct (me_exponent_spec 32 (i / 125 * 2) 0) as (Hr & Hlt & Hge).
  { lia. } { lia. } { simpl Z.add. change (2 ^ 32) with 4294967296. olia. } { by left. }
  set (r := me_exponent 32 (i / 125 * 2) 0) in *.
  assert (1 <= i / 125 < 2 ^ 26) as Hq by (change (2 ^ 26) with 67108864; olia).
  assert (2 <= r <= 27) as Hr'.
  { split.
    - destruct (Z_lt_le_dec r 2); [|done]. assert (2 ^ r <= 2 ^ 1) by (apply Z.pow_le_mono_r; lia). lia.
    - destruct (Z_lt_le_dec 27 r) as [Hgt|]; [|done].
      assert (2 ^ 27 <= 2 ^ (r - 1)) by (apply Z.pow_le_mono_r; lia). lia. }
  exists (r - 1). split_and!; try lia.
  - destruct Hge as [|Hge]; [lia|].
    replace (r - 1) with (r - 2 + 1) in Hge by lia. rewrite Z.pow_add_r in Hge by lia.
    replace (r - 1 - 1) with (r - 2) by lia. olia.
  - replace r with (r - 1 + 1) in Hlt by lia. rewrite Z.pow_add_r in Hlt by lia. olia.
Qed.


(** Packing of the two nibbles; a mantissa below 16 carries nothing over. *)
Lemma nibbles_pack a b :
  0 <= a <= 15 -> 0 <= b <= 15 ->
  u8 (Z.lor (Z.shiftl (Z.land a 15) 4) (Z.land (u8 (b + Z.shiftr a 4)) 15)) = 16 * a + b.
Proof.
  intros Ha Hb.
  apply Z.eqb_eq.
  apply (all_from2_spec 0 16 0 16 (fun a b =>
    u8 (Z.lor (Z.shiftl (Z.land a 15) 4) (Z.land (u8 (b + Z.shiftr a 4)) 15)) =? 16 * a + b));
    [by vm_compute|lia|lia].
Qed.

Lemma nibbles_unpack a b :
  0 <= a <= 15 -> 0 <= b <= 15 -> Z.shiftr (16 * a + b) 4 = a /\ Z.land (16 * a + b) 15 = b.
Proof.
  intros. change 15 with (Z.ones 4). rewrite Z.land_ones, Z.shiftr_div_pow2 by lia.
  change (2 ^ 4) with 16. olia.
Qed.

(** Splits an integer known to lie in a small range into its values. *)
Ltac enum_Z x lo :=
  match goal with
  | H : lo <= x <= ?hi |- _ =>
      tryif (assert (hi < lo) by lia) then lia else
      (destruct (Z.eq_dec x lo) as [->|]; [clear H|
         let lo' := eval compute in (lo + 1) in
         assert (lo' <= x <= hi) by lia; clear H; try lia; enum_Z x lo'])
  end.

(** In the range the format covers, the code computes the mantissa and exponent
    of the documented formula; both shift counts are non-negative and below 32. *)
Lemma reltime_to_me_decompose i :
  125 <= i < 4096000 ->
  exists a b, 0 <= a <= 15 /\ 1 <= b <= 15 /\ reltime_to_me i = 16 * a + b /\
    125 * 2 ^ (b - 1) <= i < 125 * 2 ^ b /\
    a = (i - 125 * 2 ^ (b - 1)) * 32 / (125 * 2 ^ b).
Proof.
  intros Hi. destruct (me_exponent_interval i) as (b & Hb & Hexp & Hlo); [unfold is_u32; lia|lia|].
  assert (b <= 15) as Hb15.
  { destruct (Z_lt_le_dec 15 b); [|done].
    assert (2 ^ 15 <= 2 ^ (b - 1)) as Hp by (apply Z.pow_le_mono_r; lia).
    change (2 ^ 15) with 32768 in Hp. lia. }
  exists ((i - 125 * 2 ^ (b - 1)) * 32 / (125 * 2 ^ b)), b.
  unfold reltime_to_me. rewrite Hexp. clear Hexp.
  replace (b + 1 =? 0) with false by lia. replace (u8 (b + 1 - 1)) with b by (unfold u8; rewrite Z.mod_small; lia).
  replace (b >? 15) with false by lia. cbv zeta.
  set (a := if b >=? 5 then _ else _).
  enough (a = (i - 125 * 2 ^ (b - 1)) * 32 / (125 * 2 ^ b) /\ 0 <= a <= 15) as [<- Ha].
  { rewrite nibbles_pack by lia. lia. }
  subst a. assert (1 <= b <= 15) as Hb' by lia. clear Hb Hb15 Hi.
  enum_Z b 1.
  all: cbn -[Z.mul Z.div Z.modulo Z.pow Z.shiftl Z.sub u8 u32 shl32] in *; unfold shl32; eval_pow.
  all: rewrite ?(u32_id (_ - _)), ?(u32_id _), ?(u8_id _) by olia; olia.
Qed.

(** ** Properties *)

(** C29: the encoding of a time between 125 ms and the end of the format's range
    decodes to a time that is not larger and at most a sixteenth smaller. *)
Theorem reltime_me_accuracy i :
  125 <= i < 4096000 ->
  let d := me_to_reltime (reltime_to_me i) in d <= i /\ 16 * (i - d) <= i.
Proof.
  intros Hi. destruct (reltime_to_me_decompose i Hi) as (a & b & Ha & Hb & -> & Hlo & Hdef).
  unfold me_to_reltime. destruct (nibbles_unpack a b) as [-> ->]; [lia|lia|].
  enum_Z b 1.
  all: cbn -[Z.mul Z.div Z.modulo Z.pow Z.shiftl Z.shiftr Z.sub Z.add u8 u32 shl32] in *.
  all: rewrite ?Z.shiftl_mul_pow2, ?Z.shiftr_div_pow2 by lia; eval_pow.
  all: rewrite ?(u32_id _) by olia; olia.
Qed.

Lemma reltime_me_accuracy_witness :
  125 <= 5100 < 4096000 /\
  (let d := me_to_reltime (reltime_to_me 5100) in d <= 5100 /\ 16 * (5100 - d) <= 5100).
Proof.
  assert (125 <= 5100 < 4096000) as H by lia.
  split; [exact H|exact (reltime_me_accuracy 5100 H)].
Defined.

(** outside that range the encoding saturates: times below 125 ms become the
    byte 0x10 (66 ms), times from 4096 s on become 0xff (3968 s). *)
Theorem reltime_to_me_saturates i :
  is_u32 i ->
  (i < 125 -> reltime_to_me i = 16) /\ (4096000 <= i -> reltime_to_me i = 255).
Proof.
  intros Hi. split; intros H.
  - unfold is_u32 in Hi. unfold reltime_to_me. rewrite Z.div_small by lia. vm_compute. reflexivity.
  - destruct (me_exponent_interval i) as (b & Hb & Hexp & Hlo); [done|lia|].
    unfold reltime_to_me. rewrite Hexp.
    assert (16 <= b) as Hb16.
    { destruct (Z_lt_le_dec b 16); [|done].
      assert (2 ^ b <= 2 ^ 15) as Hp by (apply Z.pow_le_mono_r; lia).
      change (2 ^ 15) with 32768 in Hp. lia. }
    replace (b + 1 =? 0) with false by lia.
    replace (u8 (b + 1 - 1)) with b by olia.
    replace (b >? 15) with true by lia. reflexivity.
Qed.

Lemma reltime_to_me_saturates_witness :
  is_u32 70 /\ reltime_to_me 70 = 16 /\ me_to_reltime 16 = 66.
Proof.
  assert (is_u32 70) as H by (unfold is_u32; lia).
  split; [exact H|split; [apply (reltime_to_me_saturates 70 H); lia|vm_compute; reflexivity]].
Defined.

(** A byte whose time is a whole number of milliseconds, not below 125 ms. *)
Definition me_exact (me : Z) : bool :=
  (125 <=? me_to_reltime me) &&
  ((8 <=? Z.land me 15) ||
   (((16 + Z.shiftr me 4) * 1000) mod 2 ^ (8 - Z.land me 15) =? 0)).

(** every byte that denotes a whole number of milliseconds survives decoding
    and re-encoding. *)
Theorem me_roundtrip me :
  is_u8 me -> me_exact me = true -> reltime_to_me (me_to_reltime me) = me.
Proof.
  intros Hr He. apply Z.eqb_eq.
  pose proof (all_from_spec 0 256
    (fun me => implb (me_exact me) (reltime_to_me (me_to_reltime me) =? me))
    ltac:(vm_compute; reflexivity) me) as H.
  cbv beta in H. rewrite He in H. apply H. unfold is_u8 in Hr; lia.
Qed.

Lemma me_roundtrip_witness : is_u8 134 /\ me_exact 134 = true /\ reltime_to_me (me_to_reltime 134) = 134.
Proof.
  assert (is_u8 134) as H by (unfold is_u8; lia).
  assert (me_exact 134 = true) as H' by (vm_compute; reflexivity).
  split; [exact H|split; [exact H'|exact (me_roundtrip 134 H H')]].
Defined.
