(* ===== verification/Timer.v ===== *)
(** * scheduler.c: the millisecond clock and its comparisons *)

From S2P Require Import Prelude.

(** The clock is the global [now_times], a free-running [uint32_t] in
    milliseconds; every function that reads it takes it as an argument. *)

Definition OLSR_TIMER_ONESHOT : bool := false.
Definition OLSR_TIMER_PERIODIC : bool := true.
Definition MSEC_PER_SEC : Z := 1000.

Definition olsr_getTimestamp (now_times s : Z) : Z := u32 (now_times + s).

Definition olsr_getTimeDue (now_times s : Z) : Z :=
  if s >? now_times then
    let diff := u32 (s - now_times) in
    if diff >? shl32 1 31 then - s32 (4294967295 - diff) else s32 diff
  else
    let diff := u32 (now_times - s) in
    if diff >? shl32 1 31 then s32 (4294967295 - diff) else s32 (- s32 diff).

Definition olsr_isTimedOut (now_times s : Z) : bool :=
  if s >? now_times then u32 (s - now_times) >? shl32 1 31
  else u32 (now_times - s) <=? shl32 1 31.

(** A running timer; the list node it hangs in and the callback are left out. *)
Record timer_entry := {
  timer_clock : Z;
  timer_period : Z;
  timer_jitter_pct : Z;
  timer_random : Z;
}.

(** [calc_jitter]: [OLSR_RANDOM_MAX] is the bound of the platform's generator. *)
Definition calc_jitter (OLSR_RANDOM_MAX now_times rel_time jitter_pct random_val : Z) : Z :=
  if (jitter_pct =? 0) || (jitter_pct >? 99) || (rel_time >? shl32 1 24)
  then olsr_getTimestamp now_times rel_time
  else
    let jitter_time := u32 (jitter_pct * rel_time) / 100 in
    let jitter_time := random_val / u32 (1 + OLSR_RANDOM_MAX / u32 (jitter_time + 1)) in
    olsr_getTimestamp now_times (u32 (rel_time - jitter_time)).

(** ** Lemmas *)

(** The signed distance from [now] to [s] on the 2^32 circle. *)
Definition clock_dist (now_times s : Z) : Z := s32 (s - now_times).

Lemma shl32_1_31 : shl32 1 31 = 2147483648.
Proof. reflexivity. Qed.

Lemma timed_out_after now d e :
  is_u32 now -> 0 <= d < 2147483648 -> 0 <= e < 2147483648 ->
  olsr_isTimedOut (u32 (now + e)) (olsr_getTimestamp now d) = bool_decide (d <= e).
Proof.
  intros Hn Hd He. unfold olsr_isTimedOut, olsr_getTimestamp. rewrite shl32_1_31.
  case_bool_decide; case_test; olia.
Qed.

(** The time left until a moment at least two milliseconds ahead is not zero. *)
Lemma time_due_ahead now d :
  is_u32 now -> 2 <= d < 2147483648 -> u32 (olsr_getTimeDue now (olsr_getTimestamp now d)) <> 0.
Proof.
  intros Hn Hd. unfold olsr_getTimeDue, olsr_getTimestamp. rewrite shl32_1_31.
  case_test; case_test; olia.
Qed.

(** a timestamp taken [d] milliseconds ahead is timed out exactly when the
    clock has advanced by [d] or more, across any wrap-around of the counter, as
    long as the clock has advanced by less than 2^31 past the moment it was taken. *)
Theorem olsr_isTimedOut_after now d e :
  is_u32 now -> 0 <= d < 2147483648 -> 0 <= e < 2147483648 ->
  olsr_isTimedOut (u32 (now + e)) (olsr_getTimestamp now d) = bool_decide (d <= e).
Proof. apply timed_out_after. Qed.

Lemma olsr_isTimedOut_after_witness :
  (is_u32 4294967290 /\ 0 <= 10 < 2147483648 /\ 0 <= 10 < 2147483648) /\
  olsr_isTimedOut (u32 (4294967290 + 10)) (olsr_getTimestamp 4294967290 10) = true.
Proof.
  assert (is_u32 4294967290) as H1 by (unfold is_u32; lia).
  assert (0 <= 10 < 2147483648) as H2 by lia.
  split; [done|]. exact (olsr_isTimedOut_after 4294967290 10 10 H1 H2 H2).
Defined.

(** [olsr_getTimeDue] is the signed distance on the 2^32 circle while no
    wrap-around lies between the two clock values; across the wrap-around the
    magnitude is one millisecond short. *)
Theorem olsr_getTimeDue_dist now s :
  is_u32 now -> is_u32 s -> Z.abs (s - now) <> 2147483648 ->
  olsr_getTimeDue now s =
    (if Z.abs (s - now) <=? 2147483648 then clock_dist now s
     else clock_dist now s - Z.sgn (clock_dist now s)).
Proof.
  intros Hn Hs Hne. unfold olsr_getTimeDue, clock_dist. rewrite shl32_1_31.
  case_test; case_test; case_test; olia.
Qed.

Lemma olsr_getTimeDue_dist_witness :
  (is_u32 4294967290 /\ is_u32 4) /\ olsr_getTimeDue 4294967290 4 = 9.
Proof.
  assert (is_u32 4294967290) as H1 by (unfold is_u32; lia).
  assert (is_u32 4) as H2 by (unfold is_u32; lia).
  split; [done|]. rewrite (olsr_getTimeDue_dist 4294967290 4 H1 H2 ltac:(lia)). reflexivity.
Defined.

(** the jittered firing time is never later than the requested interval and
    never earlier than the interval reduced by the jitter percentage. *)
Theorem calc_jitter_bounds rmax now rel pct rnd :
  is_u32 now -> is_u32 rel -> 0 <= pct < 256 -> 0 <= rnd <= rmax -> 0 < rmax < 4294967295 ->
  exists j, calc_jitter rmax now rel pct rnd = olsr_getTimestamp now (rel - j) /\
    0 <= j <= rel * pct / 100.
Proof.
  intros Hn Hr Hp Hrnd Hrm. unfold calc_jitter. change (shl32 1 24) with 16777216.
  destruct (_ || _) eqn:E.
  - exists 0. rewrite Z.sub_0_r. split; [done|]. unfold is_u32 in *.
    split; [done|]. apply Z.div_pos; nia.
  - bool_hyps.
    unfold is_u32 in *.
    rewrite (u32_id (pct * rel)) by (unfold is_u32; nia).
    set (jt := pct * rel / 100).
    assert (0 <= jt <= rel) as Hjt by (unfold jt; split; [apply Z.div_pos; nia | apply Z.div_le_upper_bound; nia]).
    rewrite (u32_id (jt + 1)) by (unfold is_u32; lia).
    assert (0 <= rmax / (jt + 1)) by (apply Z.div_pos; lia).
    assert (rmax / (jt + 1) <= rmax) by (apply Z.div_le_upper_bound; nia).
    rewrite (u32_id (1 + _)) by (unfold is_u32; lia).
    set (q := rmax / (jt + 1)) in *.
    assert (0 <= rnd / (1 + q) <= jt) as Hj.
    { split; [apply Z.div_pos; lia|].
      assert (rnd / (1 + q) < jt + 1); [|lia]. apply Z.div_lt_upper_bound; [lia|].
      pose proof (Z.mod_pos_bound rmax (jt + 1) ltac:(lia)).
      pose proof (Z.div_mod rmax (jt + 1) ltac:(lia)) as Hdm. fold q in Hdm. nia. }
    exists (rnd / (1 + q)). rewrite (u32_id (rel - _)) by (unfold is_u32; lia).
    split; [done|]. replace (rel * pct) with (pct * rel) by lia. done.
Qed.

Lemma calc_jitter_bounds_witness :
  exists j, calc_jitter 2147483647 100 2000 5 2147483647 = olsr_getTimestamp 100 (2000 - j) /\
    0 <= j <= 2000 * 5 / 100.
Proof.
  apply (calc_jitter_bounds 2147483647 100 2000 5 2147483647); unfold is_u32; lia.
Defined.
