(* ===== verification/Avl.v ===== *)
(** * common/avl.c: AVL trees with parent pointers and an in-order list

    A node of the C tree carries [parent]/[left]/[right] links, [prev]/[next]
    links that thread all nodes in key order, a [balance] byte and a [leader]
    flag.  Only one node per key is linked into the tree, the leader; further
    nodes with an equal key follow it in the list.

    The links of the tree are modelled by the inductive [subtree] and, for the
    [parent] chain of a node, by a path of [frame]s from that node to the root;
    [prev]/[next] are the list [nodes].  A node's identity is its label, a
    pointer together with the key it was inserted under. *)

From S2P Require Import Prelude.

(** Comparators, as passed to [avl_init]: only the sign of the result counts. *)
Class TotalComp {K : Type} (comp : K -> K -> Z) : Prop := {
  comp_refl : forall x, comp x x = 0;
  comp_sym : forall x y, comp x y < 0 <-> 0 < comp y x;
  comp_trans : forall x y z, comp x y <= 0 -> comp y z <= 0 -> comp x z <= 0;
}.

Section avl.
Context {K : Type} (comp : K -> K -> Z).

(** ** Data *)

Record avl_node := { an_ptr : positive; an_key : K }.

Inductive subtree :=
| NULL
| Node (left : subtree) (node : avl_node) (balance : Z) (right : subtree).

(** One step of the [parent] chain: the parent's label and balance and its other
    child. [InLeft] when the node is [parent->left]. *)
Inductive frame :=
| InLeft (node : avl_node) (balance : Z) (right : subtree)
| InRight (left : subtree) (node : avl_node) (balance : Z).

Record avl_tree := {
  root : subtree;
  nodes : list (avl_node * bool);   (* first ... last, with the leader flags *)
  count : Z;
}.

Definition avl_init : avl_tree := {| root := NULL; nodes := []; count := 0 |}.

Definition balance (t : subtree) : Z :=
  match t with NULL => 0 | Node _ _ b _ => b end.

(** The whole tree, given a subtree and the way up to the root. *)
Fixpoint plug (t : subtree) (path : list frame) : subtree :=
  match path with
  | [] => t
  | InLeft n b r :: rest => plug (Node t n b r) rest
  | InRight l n b :: rest => plug (Node l n b t) rest
  end.

(** ** Search *)

(** The node the search ends at, with its way up; [None] for the empty tree only. *)
Fixpoint avl_find_rec (t : subtree) (key : K) (path : list frame)
  : option (subtree * avl_node * Z * subtree * list frame) :=
  match t with
  | NULL => None
  | Node l n b r =>
      let diff := comp key (an_key n) in
      if diff <? 0 then
        match l with
        | NULL => Some (l, n, b, r, path)
        | _ => avl_find_rec l key (InLeft n b r :: path)
        end
      else if diff >? 0 then
        match r with
        | NULL => Some (l, n, b, r, path)
        | _ => avl_find_rec r key (InRight l n b :: path)
        end
      else Some (l, n, b, r, path)
  end.

Definition avl_find (tree : avl_tree) (key : K) : option avl_node :=
  match avl_find_rec (root tree) key [] with
  | None => None
  | Some (_, n, _, _, _) => if comp (an_key n) key =? 0 then Some n else None
  end.

(** ** Rotations; the child rotated upwards is never NULL at the call sites
    (the code dereferences it). *)

Definition avl_rotate_right (t : subtree) : subtree :=
  match t with
  | Node (Node ll ln lb lr) n b r =>
      let b := b + (1 - Z.min lb 0) in
      let lb := lb + (1 + Z.max b 0) in
      Node ll ln lb (Node lr n b r)
  | _ => t
  end.

Definition avl_rotate_left (t : subtree) : subtree :=
  match t with
  | Node l n b (Node rl rn rb rr) =>
      let b := b - (1 + Z.max rb 0) in
      let rb := rb - (1 - Z.min b 0) in
      Node (Node l n b rl) rn rb rr
  | _ => t
  end.

(** ** Insertion *)

Fixpoint post_insert (node : subtree) (path : list frame) : subtree :=
  match path with
  | [] => node
  | InLeft pn pb pr :: rest =>
      let pb := pb - 1 in
      if pb =? 0 then plug (Node node pn pb pr) rest
      else if pb =? -1 then post_insert (Node node pn pb pr) rest
      else if balance node =? -1 then plug (avl_rotate_right (Node node pn pb pr)) rest
      else plug (avl_rotate_right (Node (avl_rotate_left node) pn pb pr)) rest
  | InRight pl pn pb :: rest =>
      let pb := pb + 1 in
      if pb =? 0 then plug (Node pl pn pb node) rest
      else if pb =? 1 then post_insert (Node pl pn pb node) rest
      else if balance node =? 1 then plug (avl_rotate_left (Node pl pn pb node)) rest
      else plug (avl_rotate_left (Node pl pn pb (avl_rotate_right node))) rest
  end.

(** Node identity is pointer identity. *)
Definition same_node (m n : avl_node) : bool := bool_decide (an_ptr m = an_ptr n).

Fixpoint list_insert_before (pos : avl_node) (x : avl_node * bool) (l : list (avl_node * bool)) :=
  match l with
  | [] => []
  | y :: l => if same_node (fst y) pos then x :: y :: l else y :: list_insert_before pos x l
  end.

Fixpoint list_insert_after (pos : avl_node) (x : avl_node * bool) (l : list (avl_node * bool)) :=
  match l with
  | [] => []
  | y :: l => if same_node (fst y) pos then y :: x :: l else y :: list_insert_after pos x l
  end.

Definition avl_insert_before (tree : avl_tree) (pos new : avl_node) (leader : bool) : avl_tree :=
  {| root := root tree; nodes := list_insert_before pos (new, leader) (nodes tree);
     count := u32 (count tree + 1) |}.

Definition avl_insert_after (tree : avl_tree) (pos new : avl_node) (leader : bool) : avl_tree :=
  {| root := root tree; nodes := list_insert_after pos (new, leader) (nodes tree);
     count := u32 (count tree + 1) |}.

Definition set_root (t : subtree) (tree : avl_tree) : avl_tree :=
  {| root := t; nodes := nodes tree; count := count tree |}.

(** [last = node; while (last->next != NULL && last->next->leader == 0) last = last->next;]
    on the part of the list that follows the node. *)
Fixpoint skip_followers (last : avl_node) (l : list (avl_node * bool)) : avl_node :=
  match l with
  | (m, false) :: l => skip_followers m l
  | _ => last
  end.

Fixpoint nodes_after (pos : avl_node) (l : list (avl_node * bool)) : list (avl_node * bool) :=
  match l with
  | [] => []
  | y :: l => if same_node (fst y) pos then l else nodes_after pos l
  end.

Definition last_equal (node : avl_node) (l : list (avl_node * bool)) : avl_node :=
  skip_followers node (nodes_after node l).

Definition avl_insert (tree : avl_tree) (new : avl_node) (allow_duplicates : bool) : Z * avl_tree :=
  let fresh := Node NULL new 0 NULL in
  match avl_find_rec (root tree) (an_key new) [] with
  | None => (0, {| root := fresh; nodes := [(new, true)]; count := 1 |})
  | Some (l, node, b, r, path) =>
      let last := last_equal node (nodes tree) in
      let diff := comp (an_key new) (an_key node) in
      if diff =? 0 then
        if negb allow_duplicates then (-1, tree)
        else (0, avl_insert_after tree last new false)
      else if b =? 1 then
        (0, set_root (plug (Node fresh node 0 r) path) (avl_insert_before tree node new true))
      else if b =? -1 then
        (0, set_root (plug (Node l node 0 fresh) path) (avl_insert_after tree last new true))
      else if diff <? 0 then
        (0, set_root (post_insert (Node fresh node (-1) r) path) (avl_insert_before tree node new true))
      else
        (0, set_root (post_insert (Node l node 1 fresh) path) (avl_insert_after tree last new true))
  end.

(** ** Deletion *)

Fixpoint avl_post_delete (node : subtree) (path : list frame) : subtree :=
  match path with
  | [] => node
  | InLeft pn pb pr :: rest =>
      let pb := pb + 1 in
      let parent := Node node pn pb pr in
      if pb =? 0 then avl_post_delete parent rest
      else if pb =? 1 then plug parent rest
      else if balance pr =? 0 then plug (avl_rotate_left parent) rest
      else if balance pr =? 1 then avl_post_delete (avl_rotate_left parent) rest
      else avl_post_delete (avl_rotate_left (Node node pn pb (avl_rotate_right pr))) rest
  | InRight pl pn pb :: rest =>
      let pb := pb - 1 in
      let parent := Node pl pn pb node in
      if pb =? 0 then avl_post_delete parent rest
      else if pb =? -1 then plug parent rest
      else if balance pl =? 0 then plug (avl_rotate_right parent) rest
      else if balance pl =? -1 then avl_post_delete (avl_rotate_right parent) rest
      else avl_post_delete (avl_rotate_right (Node (avl_rotate_left pl) pn pb node)) rest
  end.

(** [avl_local_min(t)] with the way up from it; [t] is the node (l, n, b, r). *)
Fixpoint avl_local_min (l : subtree) (n : avl_node) (b : Z) (r : subtree) (path : list frame)
  : avl_node * Z * subtree * list frame :=
  match l with
  | NULL => (n, b, r, path)
  | Node ll ln lb lr => avl_local_min ll ln lb lr (InLeft n b r :: path)
  end.

(** [m] takes over the links and the balance of [n]. *)
Fixpoint relabel (n m : avl_node) (t : subtree) : subtree :=
  match t with
  | NULL => NULL
  | Node l x b r => Node (relabel n m l) (if same_node x n then m else x) b (relabel n m r)
  end.

(** [avl_delete_worker] on a leaf: the rebalancing step of [avl_post_delete] is
    repeated inline there. *)
Definition avl_delete_leaf (path : list frame) : subtree :=
  match path with
  | [] => NULL
  | InLeft pn pb pr :: rest =>
      let pb := pb + 1 in
      let parent := Node NULL pn pb pr in
      if pb =? 1 then plug parent rest
      else if pb =? 0 then avl_post_delete parent rest
      else if balance pr =? 0 then plug (avl_rotate_left parent) rest
      else if balance pr =? 1 then avl_post_delete (avl_rotate_left parent) rest
      else avl_post_delete (avl_rotate_left (Node NULL pn pb (avl_rotate_right pr))) rest
  | InRight pl pn pb :: rest =>
      let pb := pb - 1 in
      let parent := Node pl pn pb NULL in
      if pb =? -1 then plug parent rest
      else if pb =? 0 then avl_post_delete parent rest
      else if balance pl =? 0 then plug (avl_rotate_right parent) rest
      else if balance pl =? -1 then avl_post_delete (avl_rotate_right parent) rest
      else avl_post_delete (avl_rotate_right (Node (avl_rotate_left pl) pn pb NULL)) rest
  end.

(** [avl_delete_worker] on a node that lacks a child: its first three cases. *)
Definition avl_delete_simple (l r : subtree) (path : list frame) : subtree :=
  match l, r with
  | NULL, NULL => avl_delete_leaf path
  | NULL, _ => match path with [] => r | _ => avl_post_delete r path end
  | _, _ => match path with [] => l | _ => avl_post_delete l path end
  end.

(** [avl_delete_worker(tree, node)]; the result is the new root. The recursive
    call is on the leftmost node of the right subtree, which has no left child,
    so it is one of the three simple cases. *)
Definition avl_delete_worker (l : subtree) (node : avl_node) (b : Z) (r : subtree) (path : list frame)
  : subtree :=
  match l, r with
  | Node _ _ _ _, Node rl rn rb rr =>
      let '(min, _, minr, minpath) := avl_local_min rl rn rb rr (InRight l node b :: path) in
      relabel node min (avl_delete_simple NULL minr minpath)
  | _, _ => avl_delete_simple l r path
  end.

(** The position of a node in the tree, from its pointer. *)
Fixpoint locate (n : avl_node) (t : subtree) (path : list frame)
  : option (subtree * avl_node * Z * subtree * list frame) :=
  match t with
  | NULL => None
  | Node l x b r =>
      if same_node x n then Some (l, x, b, r, path)
      else match locate n l (InLeft x b r :: path) with
           | Some z => Some z
           | None => locate n r (InRight l x b :: path)
           end
  end.

Fixpoint list_remove (n : avl_node) (l : list (avl_node * bool)) : list (avl_node * bool) :=
  match l with
  | [] => []
  | y :: l => if same_node (fst y) n then l else y :: list_remove n l
  end.

Definition avl_remove (tree : avl_tree) (n : avl_node) : avl_tree :=
  {| root := root tree; nodes := list_remove n (nodes tree); count := u32 (count tree - 1) |}.

(** [next->leader = 1] *)
Fixpoint promote (n : avl_node) (l : list (avl_node * bool)) : list (avl_node * bool) :=
  match l with
  | [] => []
  | y :: l => if same_node (fst y) n then (fst y, true) :: l else y :: promote n l
  end.

Fixpoint is_leader (n : avl_node) (l : list (avl_node * bool)) : bool :=
  match l with
  | [] => false
  | y :: l => if same_node (fst y) n then snd y else is_leader n l
  end.

Definition avl_delete (tree : avl_tree) (node : avl_node) : avl_tree :=
  let tree :=
    if is_leader node (nodes tree) then
      match nodes_after node (nodes tree) with
      | (next, false) :: _ =>
          {| root := relabel node next (root tree);
             nodes := promote next (nodes tree); count := count tree |}
      | _ =>
          match locate node (root tree) [] with
          | Some (l, n, b, r, path) => set_root (avl_delete_worker l n b r path) tree
          | None => tree
          end
      end
    else tree in
  avl_remove tree node.

(** [avl_walk_first], [avl_walk_next], ...: the walk visits [nodes] in order. *)
Definition avl_walk (tree : avl_tree) : list avl_node := map fst (nodes tree).

End avl.

Arguments avl_node : clear implicits.
Arguments subtree : clear implicits.
Arguments frame : clear implicits.
Arguments avl_tree : clear implicits.
