(* ===== verification/AvlSpec.v ===== *)
(** * Correctness of the AVL trees of common/avl.c

    The invariant of a tree, and what search, insertion, deletion and the
    in-order walk do on it. *)

From S2P Require Import Prelude Avl.

(** ** Order facts *)
Section order.
Context {K : Type} (comp : K -> K -> Z) `{!TotalComp comp}.

Lemma comp_eq_sym x y : comp x y = 0 -> comp y x = 0.
Proof. pose proof (comp_sym x y). pose proof (comp_sym y x). lia. Qed.

Lemma comp_lt_gt x y : comp x y < 0 <-> 0 < comp y x.
Proof. apply comp_sym. Qed.

Lemma comp_le_lt x y z : comp x y <= 0 -> comp y z < 0 -> comp x z < 0.
Proof.
  intros H1 H2. assert (comp x z <= 0) by (apply (comp_trans x y z); lia).
  destruct (Z.eq_dec (comp x z) 0) as [E|]; [|lia].
  apply comp_eq_sym in E. assert (comp z y <= 0) by (apply (comp_trans z x y); lia).
  rewrite (comp_lt_gt y z) in H2. lia.
Qed.

Lemma comp_lt_le x y z : comp x y < 0 -> comp y z <= 0 -> comp x z < 0.
Proof.
  intros H1 H2. assert (comp x z <= 0) by (apply (comp_trans x y z); lia).
  destruct (Z.eq_dec (comp x z) 0) as [E|]; [|lia].
  apply comp_eq_sym in E. assert (comp y x <= 0) by (apply (comp_trans y z x); lia).
  rewrite (comp_lt_gt x y) in H1. lia.
Qed.

Lemma comp_lt_trans x y z : comp x y < 0 -> comp y z < 0 -> comp x z < 0.
Proof. intros H1 H2. apply (comp_le_lt x y z); [lia|done]. Qed.

Lemma comp_eq_l x y z : comp x y = 0 -> comp y z < 0 -> comp x z < 0.
Proof. intros H1 H2. apply (comp_le_lt x y z); lia. Qed.

End order.

(** ** In-order traversal *)
Section inorder.
Context {K : Type}.
Abbreviation tree := (subtree K).

Fixpoint inorder (t : tree) : list (avl_node K) :=
  match t with NULL => [] | Node l n _ r => inorder l ++ n :: inorder r end.

Fixpoint left_ctx (p : list (frame K)) : list (avl_node K) :=
  match p with
  | [] => []
  | InLeft _ _ _ :: p => left_ctx p
  | InRight l n _ :: p => left_ctx p ++ inorder l ++ [n]
  end.

Fixpoint right_ctx (p : list (frame K)) : list (avl_node K) :=
  match p with
  | [] => []
  | InLeft n _ r :: p => n :: inorder r ++ right_ctx p
  | InRight _ _ _ :: p => right_ctx p
  end.

Lemma inorder_plug t p : inorder (plug t p) = left_ctx p ++ inorder t ++ right_ctx p.
Proof.
  revert t. induction p as [|[n b r|l n b] p IH]; intros t; simpl.
  - by rewrite app_nil_r.
  - rewrite IH. simpl. by rewrite <- !app_assoc.
  - rewrite IH. simpl. by rewrite <- !app_assoc.
Qed.

Lemma inorder_rotate_right t : inorder (avl_rotate_right t) = inorder t.
Proof. destruct t as [|[|ll ln lb lr] n b r]; simpl; [done..|]. by rewrite <- app_assoc. Qed.

Lemma inorder_rotate_left t : inorder (avl_rotate_left t) = inorder t.
Proof. destruct t as [|l n b [|rl rn rb rr]]; simpl; [done..|]. by rewrite <- app_assoc. Qed.

Ltac inorder_solve IH :=
  repeat case_match;
  repeat first [rewrite inorder_plug | rewrite IH | rewrite inorder_rotate_right
               | rewrite inorder_rotate_left | progress simpl];
  rewrite <- ?app_assoc; done.

Lemma inorder_post_insert t p :
  inorder (post_insert t p) = left_ctx p ++ inorder t ++ right_ctx p.
Proof.
  revert t. induction p as [|[n b r|l n b] p IH]; intros t; cbn [post_insert left_ctx right_ctx].
  - by rewrite app_nil_r.
  - inorder_solve IH.
  - inorder_solve IH.
Qed.

Lemma inorder_post_delete t p :
  inorder (avl_post_delete t p) = left_ctx p ++ inorder t ++ right_ctx p.
Proof.
  revert t. induction p as [|[n b r|l n b] p IH]; intros t; cbn [avl_post_delete left_ctx right_ctx].
  - by rewrite app_nil_r.
  - inorder_solve IH.
  - inorder_solve IH.
Qed.

(** The inlined rebalancing of the leaf case is [avl_post_delete] with an empty
    subtree. *)
Lemma avl_delete_leaf_post_delete p :
  avl_delete_leaf (K := K) p = avl_post_delete NULL p.
Proof.
  destruct p as [|[n b r|l n b] p]; simpl; [done| |].
  - destruct (b + 1 =? 1) eqn:E1, (b + 1 =? 0) eqn:E0; bool_hyps; done || lia.
  - destruct (b - 1 =? -1) eqn:E1, (b - 1 =? 0) eqn:E0; bool_hyps; done || lia.
Qed.

Lemma avl_delete_simple_post_delete l r p :
  l = NULL \/ r = NULL ->
  avl_delete_simple (K := K) l r p = avl_post_delete (match l with NULL => r | _ => l end) p.
Proof.
  intros [-> | ->]; unfold avl_delete_simple.
  - destruct r; [apply avl_delete_leaf_post_delete|by destruct p].
  - destruct l; [apply avl_delete_leaf_post_delete|by destruct p].
Qed.

Lemma avl_local_min_spec l n b r p min mb mr mp :
  avl_local_min (K := K) l n b r p = (min, mb, mr, mp) ->
  plug (Node NULL min mb mr) mp = plug (Node l n b r) p /\
  left_ctx mp = left_ctx p.
Proof.
  revert n b r p. induction l as [|ll IH ln lb lr _]; intros n b r p; simpl; intros H.
  - by simplify_eq.
  - apply IH in H as [-> ->]. done.
Qed.

(** ** Locating nodes *)

Lemma locate_spec n t p l x b r q :
  locate (K := K) n t p = Some (l, x, b, r, q) ->
  same_node x n = true /\ plug (Node l x b r) q = plug t p.
Proof.
  revert p. induction t as [|tl IHl y c tr IHr]; intros p; simpl; [done|].
  destruct (same_node y n) eqn:E; [intros; by simplify_eq|].
  destruct (locate n tl _) as [z|] eqn:El.
  - intros Hz. simplify_eq. by apply IHl in El as [? ?].
  - intros H. by apply IHr in H as [? ?].
Qed.

Lemma locate_complete n t p :
  n ∈ inorder t -> is_Some (locate (K := K) n t p).
Proof.
  revert p. induction t as [|tl IHl y c tr IHr]; intros p; simpl; [set_solver|].
  intros H. destruct (same_node y n) eqn:E; [eauto|].
  destruct (locate n tl _) as [z|] eqn:El; [eauto|].
  apply elem_of_app in H as [H|H].
  - apply (IHl (InLeft y c tr :: p)) in H as [? H]. congruence.
  - apply elem_of_cons in H as [->|H]; [|by apply IHr].
    unfold same_node in E. by rewrite bool_decide_eq_true_2 in E.
Qed.

Lemma inorder_relabel n m t :
  inorder (relabel n m t) = map (fun x => if same_node x n then m else x) (inorder t).
Proof.
  induction t as [|tl IHl y c tr IHr]; simpl; [done|].
  by rewrite map_app, IHl, IHr.
Qed.

End inorder.

(** ** Balance *)
Section balance.
Context {K : Type}.
Abbreviation tree := (subtree K).

Fixpoint height (t : tree) : Z :=
  match t with NULL => 0 | Node l _ _ r => 1 + Z.max (height l) (height r) end.

(** The AVL condition, together with what the [balance] bytes record. *)
Fixpoint balanced (t : tree) : Prop :=
  match t with
  | NULL => True
  | Node l _ b r => balanced l /\ balanced r /\ b = height r - height l /\ -1 <= b <= 1
  end.

(** A path into which a subtree of height [h] fits. *)
Fixpoint ctx_ok (p : list (frame K)) (h : Z) : Prop :=
  match p with
  | [] => True
  | InLeft _ b r :: p =>
      balanced r /\ b = height r - h /\ -1 <= b <= 1 /\ ctx_ok p (1 + Z.max h (height r))
  | InRight l _ b :: p =>
      balanced l /\ b = h - height l /\ -1 <= b <= 1 /\ ctx_ok p (1 + Z.max (height l) h)
  end.

Lemma height_nonneg t : 0 <= height t.
Proof. induction t; simpl; lia. Qed.

Lemma plug_balanced t p : balanced (plug t p) <-> balanced t /\ ctx_ok p (height t).
Proof.
  revert t. induction p as [|[n b r|l n b] p IH]; intros t; simpl; [tauto| |];
    rewrite IH; simpl; tauto.
Qed.

Lemma ctx_ok_eq p h h' : h = h' -> ctx_ok p h -> ctx_ok p h'.
Proof. by intros ->. Qed.

Ltac heights :=
  repeat match goal with
  | t : subtree K |- _ =>
      lazymatch goal with H : 0 <= height t |- _ => fail | _ => pose proof (height_nonneg t) end
  end.

Ltac bal_solve :=
  rewrite ?plug_balanced; simpl in *; repeat split; heights; try lia; try tauto;
  try (eapply ctx_ok_eq; [|eassumption]; simpl in *; lia).

Lemma post_insert_balanced node p h :
  balanced node -> height node = h + 1 -> balance node <> 0 -> ctx_ok p h ->
  balanced (post_insert node p).
Proof.
  revert node h. induction p as [|[n b r|l n b] p IH]; intros node h Hb Hh Hnz Hc; simpl; [done| |].
  - simpl in Hc. destruct Hc as (Hr & Hbv & Hb1 & Hc).
    destruct (b - 1 =? 0) eqn:E0; bool_hyps; [bal_solve|].
    destruct (b - 1 =? -1) eqn:E1; bool_hyps.
    { apply (IH _ (1 + Z.max h (height r))); simpl; [bal_solve|heights; lia|lia|done]. }
    destruct node as [|nl nn nb nr]; [done|]. simpl in Hnz.
    destruct (balance _ =? -1) eqn:E2; bool_hyps; simpl in E2.
    + bal_solve.
    + simpl in Hb, Hh. destruct Hb as (Hbl & Hbr & Hnb & Hnb1).
      destruct nr as [|rl rn rb rr]; [simpl in *; heights; lia|].
      bal_solve.
  - simpl in Hc. destruct Hc as (Hr & Hbv & Hb1 & Hc).
    destruct (b + 1 =? 0) eqn:E0; bool_hyps; [bal_solve|].
    destruct (b + 1 =? 1) eqn:E1; bool_hyps.
    { apply (IH _ (1 + Z.max (height l) h)); simpl; [bal_solve|heights; lia|lia|done]. }
    destruct node as [|nl nn nb nr]; [done|]. simpl in Hnz.
    destruct (balance _ =? 1) eqn:E2; bool_hyps; simpl in E2.
    + bal_solve.
    + simpl in Hb, Hh. destruct Hb as (Hbl & Hbr & Hnb & Hnb1).
      destruct nl as [|ll ln lb lr]; [simpl in *; heights; lia|].
      bal_solve.
Qed.

Lemma post_delete_balanced node p h :
  balanced node -> height node = h - 1 -> ctx_ok p h -> balanced (avl_post_delete node p).
Proof.
  revert node h. induction p as [|[n b r|l n b] p IH]; intros node h Hb Hh Hc; simpl; [done| |].
  - simpl in Hc. destruct Hc as (Hr & Hbv & Hb1 & Hc).
    destruct (b + 1 =? 0) eqn:E0; bool_hyps.
    { apply (IH _ (1 + Z.max h (height r))); [bal_solve|simpl; heights; lia|done]. }
    destruct (b + 1 =? 1) eqn:E1; bool_hyps; [bal_solve|].
    destruct r as [|rl rn rb rr]; [simpl in *; heights; lia|]. simpl in Hr.
    destruct Hr as (Hrl & Hrr & Hrb & Hrb1).
    destruct (balance _ =? 0) eqn:E2; bool_hyps; simpl in E2; [bal_solve|].
    destruct (balance _ =? 1) eqn:E3; bool_hyps; simpl in E3.
    { apply (IH _ (1 + Z.max h (height (Node rl rn rb rr)))); [bal_solve|simpl in *; heights; lia|done]. }
    destruct rl as [|rll rln rlb rlr]; [simpl in *; heights; lia|]. simpl in Hrl.
    apply (IH _ (1 + Z.max h (height (Node (Node rll rln rlb rlr) rn rb rr)))); [bal_solve|simpl in *; heights; lia|done].
  - simpl in Hc. destruct Hc as (Hl & Hbv & Hb1 & Hc).
    destruct (b - 1 =? 0) eqn:E0; bool_hyps.
    { apply (IH _ (1 + Z.max (height l) h)); [bal_solve|simpl; heights; lia|done]. }
    destruct (b - 1 =? -1) eqn:E1; bool_hyps; [bal_solve|].
    destruct l as [|ll ln lb lr]; [simpl in *; heights; lia|]. simpl in Hl.
    destruct Hl as (Hll & Hlr & Hlb & Hlb1).
    destruct (balance _ =? 0) eqn:E2; bool_hyps; simpl in E2; [bal_solve|].
    destruct (balance _ =? -1) eqn:E3; bool_hyps; simpl in E3.
    { apply (IH _ (1 + Z.max (height (Node ll ln lb lr)) h)); [bal_solve|simpl in *; heights; lia|done]. }
    destruct lr as [|lrl lrn lrb lrr]; [simpl in *; heights; lia|]. simpl in Hlr.
    apply (IH _ (1 + Z.max (height (Node ll ln lb (Node lrl lrn lrb lrr))) h)); [bal_solve|simpl in *; heights; lia|done].
Qed.

Lemma height_relabel n m (t : tree) : height (relabel n m t) = height t.
Proof. induction t; simpl; congruence. Qed.

Lemma balanced_relabel n m (t : tree) : balanced t -> balanced (relabel n m t).
Proof.
  induction t as [|l IHl x b r IHr]; simpl; [done|]. rewrite !height_relabel. tauto.
Qed.

(** A balanced tree of height [h] has at least [2^(h/2) - 1] nodes. *)
Lemma balanced_size t :
  balanced t -> 2 ^ (height t / 2) <= 1 + Z.of_nat (length (inorder t)).
Proof.
  induction t as [|l IHl n b r IHr]; [by vm_compute|]. intros Hb. pose proof Hb as (Hl & Hr & Hbv & Hb1).
  specialize (IHl Hl). specialize (IHr Hr). cbn [inorder]. rewrite length_app. cbn [length].
  pose proof (height_nonneg l). pose proof (height_nonneg r).
  set (h := height (Node l n b r)). assert (h = 1 + Z.max (height l) (height r)) as Hdef by done.
  clearbody h. assert (height l >= h - 2 /\ height r >= h - 2) as [H1 H2] by lia.
  destruct (Z_lt_le_dec h 2) as [Hh|Hh].
  { assert (h = 1) as -> by lia. change (2 ^ (1 / 2)) with 1. lia. }
  replace (h / 2) with (1 + (h - 2) / 2) by olia. rewrite Z.pow_add_r by (try apply Z.div_pos; lia).
  assert (2 ^ ((h - 2) / 2) <= 2 ^ (height l / 2)) by (apply Z.pow_le_mono_r; [lia|apply Z.div_le_mono; lia]).
  assert (2 ^ ((h - 2) / 2) <= 2 ^ (height r / 2)) by (apply Z.pow_le_mono_r; [lia|apply Z.div_le_mono; lia]).
  lia.
Qed.

End balance.

(** Brings nested appends to right-associated form. *)
Ltac app_norm := do 3 (simpl; rewrite ?map_app; rewrite <- ?app_assoc).

(** ** The node list as groups of a leader and its followers *)
Section groups.
Context {K : Type}.
Implicit Types (n m x pos : avl_node K).

Definition follower (f : avl_node K) : avl_node K * bool := (f, false).

Definition flatten (gs : list (avl_node K * list (avl_node K))) : list (avl_node K * bool) :=
  flat_map (fun g => (fst g, true) :: map follower (snd g)) gs.

Definition ptrs (l : list (avl_node K * bool)) : list positive := map (fun y => an_ptr (fst y)) l.

Lemma flatten_app gs1 gs2 : flatten (gs1 ++ gs2) = flatten gs1 ++ flatten gs2.
Proof. apply flat_map_app. Qed.

Lemma same_node_refl n : same_node n n = true.
Proof. unfold same_node. by apply bool_decide_eq_true_2. Qed.

Lemma same_node_not n m l : an_ptr m ∉ ptrs l -> forall y, y ∈ l -> same_node (fst y) m = false.
Proof.
  intros H y Hy. unfold same_node. apply bool_decide_eq_false_2. intros E. apply H.
  unfold ptrs. apply list_elem_of_fmap. by exists y.
Qed.

(** Each list operation acts at the position of its argument. *)
Ltac at_position l1 :=
  induction l1 as [|y l1 IH]; intros Hn; cbn;
  [by rewrite same_node_refl|
   unfold ptrs in Hn; cbn in Hn; apply not_elem_of_cons in Hn as [? Hn];
   replace (same_node (fst y) _) with false
     by (symmetry; apply bool_decide_eq_false_2; congruence);
   by rewrite IH].

Lemma insert_before_at pos x b c l1 l2 :
  an_ptr pos ∉ ptrs l1 ->
  list_insert_before pos (x, c) (l1 ++ (pos, b) :: l2) = l1 ++ (x, c) :: (pos, b) :: l2.
Proof. at_position l1. Qed.

Lemma insert_after_at pos x b c l1 l2 :
  an_ptr pos ∉ ptrs l1 ->
  list_insert_after pos (x, c) (l1 ++ (pos, b) :: l2) = l1 ++ (pos, b) :: (x, c) :: l2.
Proof. at_position l1. Qed.

Lemma nodes_after_at pos b l1 l2 :
  an_ptr pos ∉ ptrs l1 -> nodes_after pos (l1 ++ (pos, b) :: l2) = l2.
Proof. at_position l1. Qed.

Lemma list_remove_at pos b l1 l2 :
  an_ptr pos ∉ ptrs l1 -> list_remove pos (l1 ++ (pos, b) :: l2) = l1 ++ l2.
Proof. at_position l1. Qed.

Lemma promote_at pos b l1 l2 :
  an_ptr pos ∉ ptrs l1 -> promote pos (l1 ++ (pos, b) :: l2) = l1 ++ (pos, true) :: l2.
Proof. at_position l1. Qed.

Lemma is_leader_at pos b l1 l2 :
  an_ptr pos ∉ ptrs l1 -> is_leader pos (l1 ++ (pos, b) :: l2) = b.
Proof. at_position l1. Qed.

(** Skipping the followers of a group ends at its last node. *)
Lemma skip_followers_group n fs gs :
  skip_followers n (map follower fs ++ flatten gs) = default n (last fs).
Proof.
  revert n. induction fs as [|f fs IH]; intros n; simpl.
  - destruct gs as [|[m ms] gs]; done.
  - rewrite IH, last_cons. by destruct (last fs).
Qed.

Lemma ptrs_app l1 l2 : ptrs (l1 ++ l2) = ptrs l1 ++ ptrs l2.
Proof. apply map_app. Qed.

(** In a list without repeated pointers the pointer of an element does not occur
    before it. *)
Lemma nodup_before l1 y l2 : NoDup (ptrs (l1 ++ y :: l2)) -> an_ptr (fst y) ∉ ptrs l1.
Proof.
  rewrite ptrs_app. cbn. intros [_ [H _]]%NoDup_app Hin.
  apply (H _ Hin). by left.
Qed.

(** Splitting the groups where the sequence of leaders is split. *)
Lemma groups_split (gs : list (avl_node K * list (avl_node K))) l1 n l2 :
  map fst gs = l1 ++ n :: l2 ->
  exists gs1 fs gs2, gs = gs1 ++ (n, fs) :: gs2 /\ l1 = map fst gs1 /\ l2 = map fst gs2.
Proof.
  intros H. apply fmap_app_inv in H as (gs1 & gs' & -> & H & ->).
  symmetry in H. apply fmap_cons_inv in H as ([m fs] & gs2 & -> & -> & ->). eauto 10.
Qed.

(** The followers of a group up to its last one. *)
Lemma group_last n fs :
  exists l, (n, true) :: map follower fs = l ++ [(default n (last fs), bool_decide (fs = []))].
Proof.
  destruct fs as [|f fs] using rev_ind; [by exists []|].
  exists ((n, true) :: map follower fs). rewrite last_snoc, map_app. simpl.
  by rewrite bool_decide_eq_false_2 by (by destruct fs).
Qed.

End groups.

(** ** The invariant *)
Section spec.
Context {K : Type} (comp : K -> K -> Z) `{!TotalComp comp}.

Definition key_lt (x y : avl_node K) : Prop := comp (an_key x) (an_key y) < 0.

Record avl_wf (t : avl_tree K) (gs : list (avl_node K * list (avl_node K))) : Prop := {
  wf_nodes : nodes t = flatten gs;
  wf_ptrs : NoDup (ptrs (nodes t));
  wf_tree : inorder (root t) = map fst gs;
  wf_sorted : StronglySorted key_lt (inorder (root t));
  wf_follow : Forall (fun g => Forall (fun f => comp (an_key f) (an_key (fst g)) = 0) (snd g)) gs;
  wf_balanced : balanced (root t);
  wf_count : count t = u32 (Z.of_nat (length (nodes t)));
}.

(** A well-formed tree: tree links, list and balance bytes agree. *)
Definition wf (t : avl_tree K) : Prop := exists gs, avl_wf t gs.

Lemma wf_init : wf avl_init.
Proof. exists []. split; simpl; try done; constructor. Qed.

Lemma sorted_mid l1 n l2 :
  StronglySorted key_lt (l1 ++ n :: l2) ->
  Forall (fun x => key_lt x n) l1 /\ Forall (key_lt n) l2.
Proof.
  induction l1 as [|y l1 IH]; simpl; intros [Hs Hf]%StronglySorted_inv; [done|].
  apply IH in Hs as [? ?]. split; [|done]. constructor; [|done].
  rewrite Forall_forall in Hf. apply Hf. set_solver.
Qed.

Lemma sorted_insert l1 n l2 :
  StronglySorted key_lt (l1 ++ l2) -> Forall (fun x => key_lt x n) l1 -> Forall (key_lt n) l2 ->
  StronglySorted key_lt (l1 ++ n :: l2).
Proof.
  induction l1 as [|y l1 IH]; simpl; intros H H1 H2; [by constructor|].
  apply StronglySorted_inv in H as [Hs Hf]. apply Forall_cons_1 in H1 as [Hy H1].
  constructor; [by apply IH|]. rewrite Forall_app in *. destruct Hf.
  split; [done|]. by constructor.
Qed.

(** ** Search *)

(** Where the search for [k] ends: all nodes before and after the end point are
    smaller and larger, and the end point has the key or lacks the child that
    would hold it. *)
Lemma avl_find_rec_spec t k p l n b r q :
  avl_find_rec comp t k p = Some (l, n, b, r, q) ->
  StronglySorted key_lt (inorder (plug t p)) ->
  Forall (fun x => comp (an_key x) k < 0) (left_ctx p) ->
  Forall (fun x => comp k (an_key x) < 0) (right_ctx p) ->
  plug (Node l n b r) q = plug t p /\
  Forall (fun x => comp (an_key x) k < 0) (left_ctx q) /\
  Forall (fun x => comp k (an_key x) < 0) (right_ctx q) /\
  (comp k (an_key n) = 0 \/ (comp k (an_key n) < 0 /\ l = NULL) \/
   (0 < comp k (an_key n) /\ r = NULL)).
Proof.
  revert p. induction t as [|tl IHl x c tr IHr]; intros p; [done|].
  cbn [avl_find_rec]. intros H Hs Hl Hr.
  assert (Forall (fun y => key_lt y x) (left_ctx p ++ inorder tl) /\
          Forall (key_lt x) (inorder tr ++ right_ctx p)) as [[_ Hlx]%Forall_app [Hrx _]%Forall_app].
  { apply sorted_mid. rewrite inorder_plug in Hs. simpl in Hs. by rewrite <- !app_assoc in *. }
  destruct (comp k (an_key x) <? 0) eqn:E1; bool_hyps.
  { destruct tl as [|tll tln tlb tlr]; [simplify_eq; split_and!; auto|].
    apply IHl in H; [done..|]. simpl. constructor; [done|]. apply Forall_app; split; [|done].
    eapply Forall_impl; [exact Hrx|]. intros y Hy. exact (comp_lt_trans comp k (an_key x) _ E1 Hy). }
  destruct (comp k (an_key x) >? 0) eqn:E2; bool_hyps.
  { assert (comp (an_key x) k < 0) as E2' by (by apply (comp_lt_gt comp)).
    destruct tr as [|trl trn trb trr]; [simplify_eq; split_and!; auto|].
    apply IHr in H; [done..| |done]. simpl. rewrite !Forall_app; split_and!; [done| |by constructor].
    eapply Forall_impl; [exact Hlx|]. intros y Hy. exact (comp_lt_trans comp _ (an_key x) k Hy E2'). }
  simplify_eq. split_and!; auto. left. lia.
Qed.

Lemma avl_find_rec_None t k p : avl_find_rec comp t k p = None <-> t = NULL.
Proof.
  split; [|by intros ->]. revert p.
  induction t as [|tl IHl x c tr IHr]; intros p; [done|]. cbn [avl_find_rec].
  repeat case_match; subst; try done; intros Hn; [apply IHl in Hn|apply IHr in Hn]; done.
Qed.

(** The outcome of a search from the root, on the in-order sequence. *)
Lemma search_root t k l n b r q :
  StronglySorted key_lt (inorder t) ->
  avl_find_rec comp t k [] = Some (l, n, b, r, q) ->
  plug (Node l n b r) q = t /\
  ((comp k (an_key n) = 0) \/
   (comp k (an_key n) < 0 /\ l = NULL /\
      Forall (fun x => comp (an_key x) k < 0) (left_ctx q) /\
      Forall (fun x => comp k (an_key x) < 0) (n :: inorder r ++ right_ctx q)) \/
   (0 < comp k (an_key n) /\ r = NULL /\
      Forall (fun x => comp (an_key x) k < 0) (left_ctx q ++ inorder l ++ [n]) /\
      Forall (fun x => comp k (an_key x) < 0) (right_ctx q))).
Proof.
  intros Hs H. apply avl_find_rec_spec in H as (Hp & Hl & Hr & Hc); [|done|done|done].
  simpl in Hp. split; [done|].
  rewrite <- Hp, inorder_plug in Hs. simpl in Hs.
  assert (Forall (fun y => key_lt y n) (left_ctx q ++ inorder l) /\
          Forall (key_lt n) (inorder r ++ right_ctx q)) as [[_ Hln]%Forall_app [Hrn _]%Forall_app].
  { apply sorted_mid. by rewrite <- !app_assoc in *. }
  destruct Hc as [Hc|[[Hc ->]|[Hc ->]]]; [by left|right; left|right; right]; split_and!; try done.
  - constructor; [done|]. apply Forall_app; split; [|done].
    eapply Forall_impl; [exact Hrn|]. intros y Hy. exact (comp_lt_trans comp k (an_key n) _ Hc Hy).
  - apply (comp_lt_gt comp) in Hc. rewrite !Forall_app; split_and!; [done| |by constructor].
    eapply Forall_impl; [exact Hln|]. intros y Hy. exact (comp_lt_trans comp _ (an_key n) k Hy Hc).
Qed.

(** ** Keys of the whole list *)

Definition walk_keys (P : K -> Prop) (l : list (avl_node K)) : Prop := Forall (fun x => P (an_key x)) l.

Lemma walk_flatten gs (P : K -> Prop) :
  (forall x y, comp y x = 0 -> P x -> P y) ->
  Forall (fun g => Forall (fun f => comp (an_key f) (an_key (fst g)) = 0) (snd g)) gs ->
  walk_keys P (map fst gs) -> walk_keys P (map fst (flatten gs)).
Proof.
  intros HP Hf. induction gs as [|[n fs] gs IH]; simpl; [done|].
  apply Forall_cons in Hf as [Hfs Hf]. simpl in Hfs.
  intros [Hn Hgs]%Forall_cons. constructor; [done|]. unfold walk_keys. rewrite map_app, Forall_app.
  split; [|by apply IH].
  rewrite Forall_forall in Hfs. apply Forall_forall. intros x Hx.
  rewrite map_map in Hx. apply list_elem_of_fmap in Hx as (f & -> & Hin).
  simpl. eapply HP; [by apply Hfs|done].
Qed.

Lemma key_neq_eq k x y : comp y x = 0 -> comp x k <> 0 -> comp y k <> 0.
Proof.
  intros H Hn E. apply Hn. apply (comp_eq_sym comp) in H.
  assert (comp x k <= 0) by (apply (comp_trans x y k); lia).
  apply (comp_eq_sym comp) in E. apply (comp_eq_sym comp) in H.
  assert (comp k x <= 0) by (apply (comp_trans k y x); lia).
  pose proof (comp_sym x k). lia.
Qed.

Lemma u32_succ n : u32 (u32 (Z.of_nat n) + 1) = u32 (Z.of_nat (S n)).
Proof. unfold u32. rewrite Zplus_mod_idemp_l. f_equal. lia. Qed.

(** Adding a leader between two groups. *)
Lemma wf_add t gs1 gs2 new t' :
  avl_wf t (gs1 ++ gs2) -> an_ptr new ∉ ptrs (nodes t) ->
  nodes t' = flatten (gs1 ++ (new, []) :: gs2) ->
  inorder (root t') = map fst (gs1 ++ (new, []) :: gs2) ->
  Forall (fun x => key_lt x new) (map fst gs1) -> Forall (key_lt new) (map fst gs2) ->
  balanced (root t') -> count t' = u32 (count t + 1) ->
  avl_wf t' (gs1 ++ (new, []) :: gs2).
Proof.
  intros [Hn Hp Ht Hs Hf Hb Hc] Hnew Hn' Ht' H1 H2 Hb' Hc'.
  rewrite Hn, flatten_app in Hp, Hnew. rewrite flatten_app in Hn'. simpl in Hn'.
  split; [by rewrite Hn', flatten_app| |done| | |done|].
  - rewrite Hn'. rewrite ptrs_app in Hp, Hnew |- *. apply NoDup_app in Hp as (Hp1 & Hp2 & Hp3).
    apply NoDup_app. split_and!; [done| |].
    + intros x Hx. cbn. intros [->|Hx']%elem_of_cons; [|by apply (Hp2 x)].
      apply Hnew, elem_of_app. by left.
    + cbn. constructor; [|done]. intros Hx. apply Hnew, elem_of_app. by right.
  - rewrite Ht'. rewrite Ht, map_app in Hs. rewrite map_app. by apply sorted_insert.
  - rewrite Forall_app in *. destruct Hf. split; [done|]. constructor; [constructor|done].
  - rewrite Hc', Hc, Hn', Hn, flatten_app, u32_succ, !length_app. simpl. f_equal. lia.
Qed.

(** ** Insertion *)

Lemma insert_before_wf t gs1 n fs gs2 new root' :
  avl_wf t (gs1 ++ (n, fs) :: gs2) -> an_ptr new ∉ ptrs (nodes t) ->
  inorder root' = map fst gs1 ++ new :: n :: map fst gs2 ->
  Forall (fun x => key_lt x new) (map fst gs1) -> Forall (key_lt new) (n :: map fst gs2) ->
  balanced root' ->
  avl_wf (set_root root' (avl_insert_before t n new true)) (gs1 ++ (new, []) :: (n, fs) :: gs2).
Proof.
  intros Hwf Hnew Hio H1 H2 Hb. eapply wf_add; try done.
  - simpl. destruct Hwf as [-> Hp _ _ _ _ _]. rewrite !flatten_app. simpl.
    apply insert_before_at. rewrite flatten_app in Hp. exact (nodup_before _ _ _ Hp).
  - simpl. by rewrite map_app.
Qed.

Lemma insert_after_at_last t gs1 n fs gs2 new c :
  avl_wf t (gs1 ++ (n, fs) :: gs2) ->
  nodes (avl_insert_after t (last_equal n (nodes t)) new c) =
    flatten gs1 ++ ((n, true) :: map follower fs) ++ (new, c) :: flatten gs2.
Proof.
  intros [Hn Hp _ _ _ _ _]. simpl. rewrite flatten_app in Hn. simpl in Hn.
  unfold last_equal. rewrite Hn in Hp |- *.
  rewrite nodes_after_at by exact (nodup_before _ _ _ Hp).
  rewrite skip_followers_group. destruct (group_last n fs) as [l Hl].
  rewrite app_comm_cons, Hl in Hp |- *.
  rewrite <- !app_assoc in *. rewrite (app_assoc (flatten gs1)) in Hp |- *. simpl in *.
  rewrite insert_after_at by exact (nodup_before _ _ _ Hp).
  by rewrite (app_comm_cons (map follower fs)), Hl, <- !app_assoc.
Qed.

Lemma insert_after_wf t gs1 n fs gs2 new root' :
  avl_wf t (gs1 ++ (n, fs) :: gs2) -> an_ptr new ∉ ptrs (nodes t) ->
  inorder root' = (map fst gs1 ++ [n]) ++ new :: map fst gs2 ->
  Forall (fun x => key_lt x new) (map fst gs1 ++ [n]) -> Forall (key_lt new) (map fst gs2) ->
  balanced root' ->
  avl_wf (set_root root' (avl_insert_after t (last_equal n (nodes t)) new true))
    ((gs1 ++ [(n, fs)]) ++ (new, []) :: gs2).
Proof.
  intros Hwf Hnew Hio H1 H2 Hb. eapply (wf_add t); try done.
  - by rewrite <- app_assoc.
  - cbn [nodes set_root]. rewrite (insert_after_at_last _ _ _ _ _ _ _ Hwf).
    rewrite !flatten_app. simpl. by rewrite app_nil_r, <- !app_assoc.
  - simpl. by rewrite !map_app in *.
  - by rewrite map_app.
Qed.

(** Rebalancing after a leaf was hung below a node whose other side is empty. *)
Lemma hang_left_balanced (n : avl_node K) r q new :
  balanced (plug (Node NULL n (height r) r) q) ->
  balanced (if height r =? 1 then plug (Node (Node NULL new 0 NULL) n 0 r) q
            else post_insert (Node (Node NULL new 0 NULL) n (-1) r) q).
Proof.
  rewrite plug_balanced. simpl. pose proof (height_nonneg r). intros [(_ & Hr & _ & Hb) Hc].
  destruct (height r =? 1) eqn:E; bool_hyps.
  - apply plug_balanced. simpl. rewrite E in *. split; [split_and!; try done; lia|].
    eapply ctx_ok_eq; [|exact Hc]. lia.
  - apply (post_insert_balanced _ _ 1); simpl; [|lia|lia|eapply ctx_ok_eq; [|exact Hc]; lia].
    split_and!; try done; lia.
Qed.

Lemma hang_right_balanced l (n : avl_node K) q new :
  balanced (plug (Node l n (- height l) NULL) q) ->
  balanced (if height l =? 1 then plug (Node l n 0 (Node NULL new 0 NULL)) q
            else post_insert (Node l n 1 (Node NULL new 0 NULL)) q).
Proof.
  rewrite plug_balanced. simpl. pose proof (height_nonneg l). intros [(Hl & _ & _ & Hb) Hc].
  destruct (height l =? 1) eqn:E; bool_hyps.
  - apply plug_balanced. simpl. rewrite E in *. split; [split_and!; try done; lia|].
    eapply ctx_ok_eq; [|exact Hc]. lia.
  - apply (post_insert_balanced _ _ 1); simpl; [|lia|lia|eapply ctx_ok_eq; [|exact Hc]; lia].
    split_and!; try done; lia.
Qed.

(** Hanging a follower behind the last node of its group. *)
Lemma add_follower_wf t gs1 n fs gs2 new :
  avl_wf t (gs1 ++ (n, fs) :: gs2) -> an_ptr new ∉ ptrs (nodes t) ->
  comp (an_key new) (an_key n) = 0 ->
  avl_wf (avl_insert_after t (last_equal n (nodes t)) new false) (gs1 ++ (n, fs ++ [new]) :: gs2).
Proof.
  intros Hwf Hnew Heq. pose proof (insert_after_at_last _ _ _ _ _ new false Hwf) as Hnodes.
  destruct Hwf as [Hn Hp Ht Hs Hf Hb Hc].
  assert (nodes t = (flatten gs1 ++ (n, true) :: map follower fs) ++ flatten gs2) as Hn'.
  { rewrite Hn, flatten_app. simpl. by rewrite <- app_assoc. }
  rewrite app_assoc in Hnodes.
  split.
  - rewrite Hnodes, flatten_app. simpl. rewrite map_app. simpl. by rewrite <- !app_assoc.
  - rewrite Hnodes. rewrite Hn' in Hp, Hnew. rewrite ptrs_app in *. apply NoDup_app in Hp as (Hp1 & Hp2 & Hp3).
    apply NoDup_app. split_and!; [done| |].
    + intros x Hx. cbn. intros [->|Hx']%elem_of_cons; [|by apply (Hp2 x)].
      apply Hnew, elem_of_app. by left.
    + cbn. constructor; [|done]. intros Hx. apply Hnew, elem_of_app. by right.
  - simpl. rewrite Ht, !map_app. done.
  - done.
  - rewrite Forall_app, Forall_cons in *. destruct Hf as (? & ? & ?). simpl in *.
    rewrite Forall_app. split_and!; try done. by repeat constructor.
  - done.
  - replace (count _) with (u32 (count t + 1)) by done.
    rewrite Hc, Hnodes, Hn', u32_succ, !length_app. simpl. f_equal. lia.
Qed.

Lemma walk_groups t gs : avl_wf t gs -> avl_walk t = map fst (flatten gs).
Proof. intros [Hn _ _ _ _ _ _]. unfold avl_walk. by rewrite Hn. Qed.

Lemma ne_of_lt k l :
  Forall (fun x : avl_node K => comp (an_key x) k < 0) l -> walk_keys (fun x => comp x k <> 0) l.
Proof. intros H. eapply Forall_impl; [exact H|]. intros x Hx. simpl in *. lia. Qed.

Lemma ne_of_gt k l :
  Forall (fun x : avl_node K => comp k (an_key x) < 0) l -> walk_keys (fun x => comp x k <> 0) l.
Proof.
  intros H. eapply Forall_impl; [exact H|]. intros x Hx E. simpl in *. apply (comp_eq_sym comp) in E. lia.
Qed.

Lemma walk_le k gs :
  Forall (fun g => Forall (fun f => comp (an_key f) (an_key (fst g)) = 0) (snd g)) gs ->
  Forall (fun x : avl_node K => comp (an_key x) k < 0) (map fst gs) ->
  Forall (fun x => comp (an_key x) k < 0) (map fst (flatten gs)).
Proof.
  intros Hf. apply (walk_flatten gs (fun x => comp x k < 0)); [|done].
  intros x y He Hx. exact (comp_eq_l comp y x k He Hx).
Qed.

Lemma walk_ge k gs :
  Forall (fun g => Forall (fun f => comp (an_key f) (an_key (fst g)) = 0) (snd g)) gs ->
  Forall (fun x : avl_node K => comp k (an_key x) < 0) (map fst gs) ->
  Forall (fun x => comp k (an_key x) < 0) (map fst (flatten gs)).
Proof.
  intros Hf. apply (walk_flatten gs (fun x => comp k x < 0)); [|done].
  intros x y He Hx. apply (comp_lt_le comp k x y); [done|].
  apply (comp_eq_sym comp) in He. lia.
Qed.

(** ** Search *)

Lemma avl_find_wf t k :
  wf t ->
  match avl_find comp t k with
  | Some n => n ∈ avl_walk t /\ comp (an_key n) k = 0
  | None => walk_keys (fun x => comp x k <> 0) (avl_walk t)
  end.
Proof.
  intros [gs Hwf]. rewrite (walk_groups _ _ Hwf). unfold avl_find.
  destruct (avl_find_rec comp (root t) k []) as [[[[[l n] b] r] q]|] eqn:E.
  - pose proof (search_root _ _ _ _ _ _ _ (wf_sorted _ _ Hwf) E) as [Hp Hc].
    pose proof (wf_tree _ _ Hwf) as Ht.
    rewrite <- Hp, inorder_plug in Ht. simpl in Ht.
    destruct (comp (an_key n) k =? 0) eqn:E0; bool_hyps.
    + split; [|done].
      assert (n ∈ map fst gs) as Hin by (rewrite <- Ht; set_solver).
      apply list_elem_of_fmap in Hin as ([m fs] & -> & (g1 & g2 & ->)%list_elem_of_split).
      rewrite flatten_app, map_app. simpl. set_solver.
    + apply walk_flatten; [intros x y He; by apply key_neq_eq|by destruct Hwf|].
      rewrite <- Ht. unfold walk_keys.
      destruct Hc as [Hc|[(Hc & -> & Hl & Hr)|(Hc & -> & Hl & Hr)]].
      * apply (comp_eq_sym comp) in Hc. lia.
      * apply Forall_app; split; [by apply ne_of_lt|by apply ne_of_gt].
      * simpl. rewrite <- app_assoc. simpl. rewrite cons_middle, !app_assoc.
        rewrite <- (app_assoc (left_ctx q)). apply Forall_app; split; [by apply ne_of_lt|by apply ne_of_gt].
  - apply avl_find_rec_None in E. pose proof (wf_tree _ _ Hwf) as Ht. rewrite E in Ht.
    destruct gs; [|done]. constructor.
Qed.

(** ** Insertion *)

(** The list [l] with [new] put in key order, behind the nodes of equal key. *)
Definition inserted (new : avl_node K) (l l' : list (avl_node K)) : Prop :=
  exists l1 l2, l = l1 ++ l2 /\ l' = l1 ++ new :: l2 /\
    Forall (fun x => comp (an_key x) (an_key new) <= 0) l1 /\
    Forall (fun x => comp (an_key new) (an_key x) < 0) l2.

Lemma inserted_groups t t' new gs1 gs2 gs1' gs2' :
  avl_wf t (gs1 ++ gs2) -> avl_wf t' (gs1' ++ gs2') ->
  map fst (flatten gs1') ++ map fst (flatten gs2') =
    map fst (flatten gs1) ++ new :: map fst (flatten gs2) ->
  Forall (fun x => key_lt x new) (map fst gs1) -> Forall (key_lt new) (map fst gs2) ->
  inserted new (avl_walk t) (avl_walk t').
Proof.
  intros Hwf Hwf' He H1 H2. rewrite (walk_groups _ _ Hwf), (walk_groups _ _ Hwf'), !flatten_app, !map_app.
  exists (map fst (flatten gs1)), (map fst (flatten gs2)). rewrite He. split_and!; try done.
  - eapply Forall_impl; [apply walk_le|]; [|exact H1|simpl; lia].
    destruct Hwf as [_ _ _ _ [Hf _]%Forall_app _ _]. done.
  - apply walk_ge; [|exact H2]. destruct Hwf as [_ _ _ _ [_ Hf]%Forall_app _ _]. done.
Qed.

(** The new node goes to the left of the end point of the search. *)
Lemma insert_left t gs new n b r q :
  avl_wf t gs -> an_ptr new ∉ ptrs (nodes t) -> plug (Node NULL n b r) q = root t ->
  Forall (fun x => comp (an_key x) (an_key new) < 0) (left_ctx q) ->
  Forall (fun x => comp (an_key new) (an_key x) < 0) (n :: inorder r ++ right_ctx q) ->
  let t' := set_root (if b =? 1 then plug (Node (Node NULL new 0 NULL) n 0 r) q
                      else post_insert (Node (Node NULL new 0 NULL) n (-1) r) q)
              (avl_insert_before t n new true) in
  wf t' /\ inserted new (avl_walk t) (avl_walk t') /\
  walk_keys (fun x => comp x (an_key new) <> 0) (avl_walk t).
Proof.
  intros Hwf Hnew Hp Hl Hr t'. pose proof (wf_tree _ _ Hwf) as Ht.
  rewrite <- Hp, inorder_plug in Ht. simpl in Ht.
  destruct (groups_split gs (left_ctx q) n (inorder r ++ right_ctx q) (eq_sym Ht))
    as (gs1 & fs & gs2 & -> & Hg1 & Hg2).
  pose proof (wf_balanced _ _ Hwf) as Hb. rewrite <- Hp in Hb.
  assert (b = height r) as ->. { apply plug_balanced in Hb as [Hb _]. simpl in Hb. lia. }
  assert (avl_wf t' (gs1 ++ (new, []) :: (n, fs) :: gs2)) as Hwf'.
  { apply insert_before_wf; try done.
    - rewrite <- Hg1, <- Hg2. case_match; rewrite ?inorder_plug, ?inorder_post_insert; done.
    - by rewrite <- Hg1.
    - by rewrite <- Hg2.
    - by apply hang_left_balanced. }
  split; [by eexists|]. split.
  - eapply (inserted_groups t t' new gs1 _ gs1 _ Hwf Hwf'); [done|by rewrite <- Hg1|].
    simpl. by rewrite <- Hg2.
  - rewrite (walk_groups _ _ Hwf). apply walk_flatten; [intros x y He; by apply key_neq_eq|by destruct Hwf|].
    rewrite map_app. simpl. rewrite <- Hg1, <- Hg2.
    apply Forall_app; split; [by apply ne_of_lt|by apply ne_of_gt].
Qed.

(** The new node goes to the right of the end point of the search. *)
Lemma insert_right t gs new l n b q :
  avl_wf t gs -> an_ptr new ∉ ptrs (nodes t) -> plug (Node l n b NULL) q = root t ->
  Forall (fun x => comp (an_key x) (an_key new) < 0) (left_ctx q ++ inorder l ++ [n]) ->
  Forall (fun x => comp (an_key new) (an_key x) < 0) (right_ctx q) ->
  let t' := set_root (if b =? -1 then plug (Node l n 0 (Node NULL new 0 NULL)) q
                      else post_insert (Node l n 1 (Node NULL new 0 NULL)) q)
              (avl_insert_after t (last_equal n (nodes t)) new true) in
  wf t' /\ inserted new (avl_walk t) (avl_walk t') /\
  walk_keys (fun x => comp x (an_key new) <> 0) (avl_walk t).
Proof.
  intros Hwf Hnew Hp Hl Hr t'. pose proof (wf_tree _ _ Hwf) as Ht.
  rewrite <- Hp, inorder_plug in Ht. simpl in Ht. rewrite <- app_assoc, app_assoc in Ht. simpl in Ht.
  destruct (groups_split gs (left_ctx q ++ inorder l) n (right_ctx q) (eq_sym Ht))
    as (gs1 & fs & gs2 & -> & Hg1 & Hg2).
  pose proof (wf_balanced _ _ Hwf) as Hb. rewrite <- Hp in Hb.
  assert (b = - height l) as ->. { apply plug_balanced in Hb as [Hb _]. simpl in Hb. lia. }
  assert (avl_wf t' ((gs1 ++ [(n, fs)]) ++ (new, []) :: gs2)) as Hwf'.
  { apply insert_after_wf; try done.
    - rewrite <- Hg1, <- Hg2. case_match; rewrite ?inorder_plug, ?inorder_post_insert; simpl;
        rewrite <- !app_assoc; done.
    - by rewrite <- Hg1, <- app_assoc.
    - by rewrite <- Hg2.
    - replace (- height l =? -1) with (height l =? 1) by lia. by apply hang_right_balanced. }
  split; [by eexists|].
  assert (avl_wf t ((gs1 ++ [(n, fs)]) ++ gs2)) as Hwf2 by (by rewrite <- app_assoc).
  split.
  - eapply (inserted_groups t t' new _ _ _ _ Hwf2 Hwf'); [done| |by rewrite <- Hg2].
    rewrite map_app. simpl. by rewrite <- Hg1, <- app_assoc.
  - rewrite (walk_groups _ _ Hwf). apply walk_flatten; [intros x y He; by apply key_neq_eq|by destruct Hwf|].
    rewrite map_app. simpl. rewrite <- Hg1, <- Hg2, cons_middle, app_assoc.
    rewrite app_assoc in Hl.
    apply Forall_app; split; [by apply ne_of_lt|by apply ne_of_gt].
Qed.

(** The new node joins the group of a node with its key. *)
Lemma insert_follower t gs1 n fs gs2 new :
  avl_wf t (gs1 ++ (n, fs) :: gs2) -> an_ptr new ∉ ptrs (nodes t) ->
  comp (an_key new) (an_key n) = 0 ->
  inserted new (avl_walk t) (avl_walk (avl_insert_after t (last_equal n (nodes t)) new false)).
Proof.
  intros Hwf Hnew E0. pose proof (add_follower_wf _ _ _ _ _ _ Hwf Hnew E0) as Hwf'.
  pose proof (wf_sorted _ _ Hwf) as Hs. rewrite (wf_tree _ _ Hwf), map_app in Hs.
  apply sorted_mid in Hs as [Hs1 Hs2].
  rewrite (walk_groups _ _ Hwf), (walk_groups _ _ Hwf'), !flatten_app, !map_app.
  exists (map fst (flatten gs1) ++ n :: fs), (map fst (flatten gs2)).
  assert (forall l : list (avl_node K), map fst (map follower l) = l) as Hid.
  { intros k. rewrite map_map. apply map_id. }
  simpl. rewrite !map_app, !Hid, <- !app_assoc. simpl. rewrite <- ?app_assoc. split_and!; try done.
  - destruct Hwf as [_ _ _ _ [Hf1 [Hf2 _]%Forall_cons]%Forall_app _ _]. simpl in Hf2.
    rewrite Forall_app, Forall_cons. apply (comp_eq_sym comp) in E0 as E0'. split_and!; [|lia|].
    + eapply (Forall_impl (fun x => comp (an_key x) (an_key new) < 0)); [apply walk_le|simpl; lia]; [done|].
      eapply Forall_impl; [exact Hs1|]. intros x Hx. simpl.
      apply (comp_lt_le comp _ (an_key n)); [done|lia].
    + eapply Forall_impl; [exact Hf2|]. intros x Hx. simpl in *.
      apply (comp_trans _ (an_key n)); lia.
  - apply walk_ge; [by destruct Hwf as [_ _ _ _ [_ [_ ?]%Forall_cons]%Forall_app _ _]|].
    eapply Forall_impl; [exact Hs2|]. intros x Hx. exact (comp_eq_l comp _ _ _ E0 Hx).
Qed.

(** What [avl_insert] returns and does, for both values of [allow_duplicates]. *)
Lemma avl_insert_wf t new dup :
  wf t -> an_ptr new ∉ ptrs (nodes t) ->
  let '(ret, t') := avl_insert comp t new dup in
  wf t' /\
  ((ret = -1 /\ t' = t /\ dup = false /\
      Exists (fun x => comp (an_key x) (an_key new) = 0) (avl_walk t)) \/
   (ret = 0 /\ inserted new (avl_walk t) (avl_walk t') /\
      (dup = false -> walk_keys (fun x => comp x (an_key new) <> 0) (avl_walk t)))).
Proof.
  intros [gs Hwf] Hnew. unfold avl_insert.
  destruct (avl_find_rec comp (root t) (an_key new) []) as [[[[[l n] b] r] q]|] eqn:E.
  - destruct (search_root _ _ _ _ _ _ _ (wf_sorted _ _ Hwf) E) as [Hp Hc].
    destruct (comp (an_key new) (an_key n) =? 0) eqn:E0; bool_hyps.
    + pose proof (wf_tree _ _ Hwf) as Ht. rewrite <- Hp, inorder_plug in Ht. simpl in Ht.
      rewrite <- app_assoc, app_assoc in Ht. simpl in Ht.
      destruct (groups_split gs _ n _ (eq_sym Ht)) as (gs1 & fs & gs2 & -> & Hg1 & Hg2).
      destruct dup; cbn [negb].
      * split; [eexists; exact (add_follower_wf _ _ _ _ _ _ Hwf Hnew E0)|].
        right. split_and!; [done| |done]. exact (insert_follower _ _ _ _ _ _ Hwf Hnew E0).
      * split; [by eexists|]. left. split_and!; try done.
        rewrite (walk_groups _ _ Hwf), flatten_app, map_app. apply Exists_app. right.
        simpl. left. by apply (comp_eq_sym comp).
    + pose proof (wf_balanced _ _ Hwf) as Hb. rewrite <- Hp in Hb. apply plug_balanced in Hb as [Hb _].
      simpl in Hb. pose proof (height_nonneg l). pose proof (height_nonneg r).
      destruct Hc as [Hc|[(Hc & -> & Hl & Hr)|(Hc & -> & Hl & Hr)]]; [done| |].
      * pose proof (insert_left _ _ _ _ _ _ _ Hwf Hnew Hp Hl Hr) as (Hwf' & Hi & Hk).
        simpl in Hb. replace (b =? -1) with false by lia.
        replace (comp (an_key new) (an_key n) <? 0) with true by lia.
        destruct (b =? 1); (split; [done|right; split_and!; done]).
      * pose proof (insert_right _ _ _ _ _ _ _ Hwf Hnew Hp Hl Hr) as (Hwf' & Hi & Hk).
        simpl in Hb. replace (b =? 1) with false by lia.
        replace (comp (an_key new) (an_key n) <? 0) with false by lia.
        destruct (b =? -1); (split; [done|right; split_and!; done]).
  - apply avl_find_rec_None in E. pose proof (wf_tree _ _ Hwf) as Ht. rewrite E in Ht.
    destruct gs; [|done]. rewrite (walk_groups _ _ Hwf). split.
    + exists [(new, [])]. split; simpl; try done; repeat constructor; try lia; set_solver.
    + right. split_and!; [done| |constructor]. exists [], []. repeat split; constructor.
Qed.

(** ** Deletion *)

Lemma nodup_ptr_inj {A} (f : A -> positive) (l : list A) x y :
  NoDup (map f l) -> x ∈ l -> y ∈ l -> f x = f y -> x = y.
Proof.
  intros Hn Hx Hy E. apply list_elem_of_split in Hx as (l1 & l2 & ->).
  rewrite map_app in Hn. simpl in Hn. apply NoDup_app in Hn as (_ & Hd & Hn2).
  apply NoDup_cons in Hn2 as [Hni _].
  apply elem_of_app in Hy as [Hy|[Hy|Hy]%elem_of_cons]; [|done|].
  - destruct (Hd (f y)); [by apply list_elem_of_fmap_2|rewrite E; by left].
  - destruct Hni. rewrite E. by apply list_elem_of_fmap_2.
Qed.

Lemma leaders_sublist gs : sublist (map fst gs) (map fst (flatten (K := K) gs)).
Proof.
  induction gs as [|[n fs] gs IH]; simpl; [done|]. constructor. rewrite map_app.
  by apply sublist_inserts_l.
Qed.

Lemma leaders_nodup t gs : avl_wf t gs -> NoDup (map an_ptr (inorder (root t))).
Proof.
  intros [Hn Hp Ht _ _ _ _]. rewrite Ht. rewrite Hn in Hp. unfold ptrs in Hp.
  rewrite <- map_map in Hp. eapply sublist_NoDup; [exact Hp|].
  apply fmap_sublist, leaders_sublist.
Qed.

(** Relabelling touches one node. *)
Lemma relabel_at (n m : avl_node K) l1 l2 :
  NoDup (map an_ptr (l1 ++ n :: l2)) ->
  map (fun x => if same_node x n then m else x) (l1 ++ n :: l2) = l1 ++ m :: l2.
Proof.
  intros Hn. rewrite map_app in *. simpl in *. rewrite same_node_refl.
  apply NoDup_app in Hn as (_ & Hd & [Hni _]%NoDup_cons).
  assert (forall l, an_ptr n ∉ map an_ptr l ->
    map (fun x => if same_node x n then m else x) l = l) as Hid.
  { induction l as [|y l IH]; simpl; [done|]. intros [Hy Hl]%not_elem_of_cons.
    unfold same_node at 1. rewrite bool_decide_eq_false_2 by congruence. by rewrite IH. }
  rewrite !Hid; [done|done|]. intros Hin. apply (Hd _ Hin). by left.
Qed.

Lemma delete_worker_inorder l (n : avl_node K) b r q :
  NoDup (map an_ptr (inorder (plug (Node l n b r) q))) ->
  inorder (avl_delete_worker l n b r q) = left_ctx q ++ (inorder l ++ inorder r) ++ right_ctx q.
Proof.
  intros Hn. unfold avl_delete_worker.
  assert (l = NULL \/ r = NULL ->
    inorder (avl_delete_simple l r q) = left_ctx q ++ (inorder l ++ inorder r) ++ right_ctx q) as Hs.
  { intros H. rewrite avl_delete_simple_post_delete, inorder_post_delete by done.
    destruct H as [-> | ->]; [done|]. destruct l; simpl; by rewrite ?app_nil_r. }
  destruct l as [|ll ln lb lr]; [by apply Hs; left|].
  destruct r as [|rl rn rb rr]; [by apply Hs; right|]. clear Hs.
  set (l := Node ll ln lb lr) in *. clearbody l.
  destruct (avl_local_min _ _ _ _ _) as [[[min mb] mr] mp] eqn:E.
  apply avl_local_min_spec in E as [Hp Hl]. set (r := Node rl rn rb rr) in *. clearbody r.
  assert (inorder (plug (Node NULL min mb mr) mp) = inorder (plug (Node l n b r) q)) as Hio by (by rewrite Hp).
  rewrite <- Hio in Hn. rewrite !inorder_plug in Hio. rewrite inorder_plug in Hn.
  rewrite inorder_relabel, avl_delete_simple_post_delete, inorder_post_delete by auto.
  rewrite Hl in *. simpl left_ctx in *.
  cbn [inorder app] in Hio, Hn |- *. rewrite <- !app_assoc in *. simpl in *.
  apply app_inv_head, app_inv_head in Hio. injection Hio as Hr.
  rewrite app_assoc, relabel_at.
  - rewrite <- app_assoc. f_equal. f_equal. exact Hr.
  - rewrite app_assoc, !map_app in Hn. simpl in Hn. rewrite !map_app. simpl.
    apply NoDup_app in Hn as (H1 & H2 & [Hn1 [Hn2 Hn3]%NoDup_cons]%NoDup_cons).
    rewrite map_app in *. apply NoDup_app. split_and!; [done|set_solver|].
    constructor; [|done]. set_solver.
Qed.

Lemma delete_worker_balanced l (n : avl_node K) b r q :
  balanced (plug (Node l n b r) q) -> balanced (avl_delete_worker l n b r q).
Proof.
  intros Hb. unfold avl_delete_worker.
  assert (forall l (n : avl_node K) b r q, l = NULL \/ r = NULL -> balanced (plug (Node l n b r) q) ->
    balanced (avl_delete_simple l r q)) as Hs.
  { clear. intros l n b r q H Hb. rewrite avl_delete_simple_post_delete by done.
    apply plug_balanced in Hb as [Hb Hc]. simpl in Hb, Hc.
    pose proof (height_nonneg l). pose proof (height_nonneg r).
    eapply post_delete_balanced; [| |exact Hc].
    - destruct l; tauto.
    - destruct H as [-> | ->]; [simpl in *; lia|]. destruct l; simpl in *; lia. }
  destruct l as [|ll ln lb lr]; [by apply (Hs NULL n b r q); [left|]|].
  destruct r as [|rl rn rb rr]; [by apply (Hs _ n b NULL q); [right|]|].
  destruct (avl_local_min _ _ _ _ _) as [[[min mb] mr] mp] eqn:E.
  apply avl_local_min_spec in E as [Hp _]. apply balanced_relabel.
  apply (Hs NULL min mb mr mp); [by left|]. rewrite Hp. exact Hb.
Qed.

Lemma comp_eq_trans x y z : comp x y = 0 -> comp y z = 0 -> comp x z = 0.
Proof.
  intros H1 H2. assert (comp x z <= 0) by (apply (comp_trans x y z); lia).
  apply (comp_eq_sym comp) in H1, H2.
  assert (comp z x <= 0) by (apply (comp_trans z y x); lia).
  pose proof (comp_sym x z). lia.
Qed.

Lemma u32_pred n : u32 (u32 (Z.of_nat (S n)) - 1) = u32 (Z.of_nat n).
Proof. unfold u32. rewrite Zminus_mod_idemp_l. f_equal. lia. Qed.

Lemma in_walk gs n :
  n ∈ map fst (flatten (K := K) gs) ->
  exists gs1 m fs gs2, gs = gs1 ++ (m, fs) :: gs2 /\
    (n = m \/ exists f1 f2, fs = f1 ++ n :: f2).
Proof.
  intros H. induction gs as [|[m fs] gs IH]; [set_solver|].
  simpl in H. rewrite map_app, map_map in H. simpl in H. rewrite map_id in H.
  apply elem_of_cons in H as [->|[H|H]%elem_of_app].
  - exists [], m, fs, gs. auto.
  - apply list_elem_of_split in H as (f1 & f2 & ->). exists [], m, (f1 ++ n :: f2), gs. eauto.
  - destruct (IH H) as (gs1 & m' & fs' & gs2 & -> & Hc). exists ((m, fs) :: gs1), m', fs', gs2. auto.
Qed.

(** Removing one entry from the list. *)
Lemma removed_nodes l1 (n : avl_node K) b l2 t t' :
  nodes t = l1 ++ (n, b) :: l2 -> NoDup (ptrs (nodes t)) ->
  count t = u32 (Z.of_nat (length (nodes t))) ->
  nodes t' = l1 ++ l2 -> count t' = u32 (count t - 1) ->
  NoDup (ptrs (nodes t')) /\ count t' = u32 (Z.of_nat (length (nodes t'))) /\
  avl_walk t = map fst l1 ++ n :: map fst l2 /\ avl_walk t' = map fst l1 ++ map fst l2.
Proof.
  intros Hn Hp Hc Hn' Hc'. unfold avl_walk. rewrite Hn in *. rewrite Hn'.
  split_and!; [| |by rewrite map_app|by rewrite map_app].
  - eapply sublist_NoDup; [exact Hp|]. apply fmap_sublist, sublist_app; [done|by apply sublist_cons].
  - rewrite Hc', Hc, !length_app. simpl. by rewrite Nat.add_succ_r, u32_pred.
Qed.

(** The three situations of [avl_delete]: a follower, a leader whose first
    follower takes its place, and a leader that leaves the tree. *)
Lemma delete_follower t gs1 m f1 n f2 gs2 :
  avl_wf t (gs1 ++ (m, f1 ++ n :: f2) :: gs2) ->
  avl_wf (avl_delete t n) (gs1 ++ (m, f1 ++ f2) :: gs2) /\
  exists l1 l2, avl_walk t = l1 ++ n :: l2 /\ avl_walk (avl_delete t n) = l1 ++ l2.
Proof.
  intros [Hn Hp Ht Hs Hf Hb Hc].
  set (l1 := flatten gs1 ++ (m, true) :: map follower f1). set (l2 := map follower f2 ++ flatten gs2).
  assert (nodes t = l1 ++ (n, false) :: l2) as Hn1.
  { rewrite Hn, flatten_app. unfold l1, l2. by app_norm. }
  assert (an_ptr n ∉ ptrs l1) as Hni. { rewrite Hn1 in Hp. exact (nodup_before _ _ _ Hp). }
  assert (avl_delete t n = avl_remove t n) as ->.
  { unfold avl_delete. by rewrite Hn1, is_leader_at. }
  assert (nodes (avl_remove t n) = l1 ++ l2) as Hn2. { simpl. by rewrite Hn1, list_remove_at. }
  destruct (removed_nodes l1 n false l2 t (avl_remove t n)) as (H1 & H2 & H3 & H4); [done..|].
  split; [|eauto]. split; try done.
  - rewrite Hn2, flatten_app. unfold l1, l2. by app_norm.
  - simpl. rewrite Ht, !map_app. done.
  - rewrite Forall_app, Forall_cons in *. destruct Hf as (? & Hf & ?). simpl in *.
    rewrite Forall_app, ?Forall_cons in *. tauto.
Qed.

Lemma delete_promote t gs1 n f fs gs2 :
  avl_wf t (gs1 ++ (n, f :: fs) :: gs2) ->
  avl_wf (avl_delete t n) (gs1 ++ (f, fs) :: gs2) /\
  exists l1 l2, avl_walk t = l1 ++ n :: l2 /\ avl_walk (avl_delete t n) = l1 ++ l2.
Proof.
  intros Hwf. pose proof (leaders_nodup _ _ Hwf) as Hnd. destruct Hwf as [Hn Hp Ht Hs Hf Hb Hc].
  set (l2 := map follower fs ++ flatten gs2).
  assert (nodes t = flatten gs1 ++ (n, true) :: (f, false) :: l2) as Hn1.
  { rewrite Hn, flatten_app. done. }
  rewrite Hn1 in Hp. pose proof (nodup_before _ _ _ Hp) as Hni.
  assert (an_ptr f ∉ ptrs (flatten gs1 ++ [(n, true)])) as Hnf.
  { rewrite cons_middle, app_assoc in Hp. exact (nodup_before _ _ _ Hp). }
  pose (t1 := {| root := relabel n f (root t); nodes := flatten gs1 ++ (n, true) :: (f, true) :: l2;
                 count := count t |}).
  assert (avl_delete t n = avl_remove t1 n) as ->.
  { unfold avl_delete. rewrite Hn1, is_leader_at, nodes_after_at by done. simpl.
    rewrite (cons_middle (n, true)), (app_assoc (flatten gs1)), promote_at by done.
    by rewrite <- app_assoc. }
  assert (nodes (avl_remove t1 n) = flatten gs1 ++ (f, true) :: l2) as Hn2.
  { simpl. by rewrite list_remove_at. }
  assert (ptrs (nodes t1) = ptrs (nodes t)) as Hpt. { rewrite Hn1. simpl. by rewrite !ptrs_app. }
  destruct (removed_nodes (flatten gs1) n true ((f, true) :: l2) t1 (avl_remove t1 n))
    as (H1 & H2 & H3 & H4); [done|by rewrite Hpt, Hn1| |done|done|].
  { simpl. rewrite Hc, Hn1, !length_app. done. }
  apply Forall_app in Hf as [Hf1 [Hf2 Hf3]%Forall_cons]. simpl in Hf2. apply Forall_cons in Hf2 as [Hf2 Hf4].
  split; [|exists (map fst (flatten gs1)), (map fst ((f, true) :: l2)); split; [|done];
    unfold avl_walk; by rewrite Hn1, map_app].
  rewrite Ht, map_app in Hs, Hnd. simpl in Hs, Hnd. apply sorted_mid in Hs as Hm. destruct Hm as [Hm1 Hm2].
  assert (inorder (root (avl_remove t1 n)) = map fst (gs1 ++ (f, fs) :: gs2)) as Hio.
  { cbn [root avl_remove t1]. rewrite inorder_relabel, Ht, (map_app fst), (map_app fst).
    cbn [map fst]. by rewrite relabel_at. }
  split; try done.
  - rewrite Hn2, flatten_app. done.
  - rewrite Hio, map_app. simpl. apply sorted_insert.
    + clear -Hs. induction (map fst gs1) as [|y l IH]; simpl in *; apply StronglySorted_inv in Hs as [Hs Hf]; [done|].
      constructor; [by apply IH|]. rewrite Forall_app, Forall_cons in *. tauto.
    + eapply Forall_impl; [exact Hm1|]. intros x Hx. apply (comp_eq_sym comp) in Hf2.
      apply (comp_lt_le comp _ (an_key n)); [done|lia].
    + eapply Forall_impl; [exact Hm2|]. intros x Hx. exact (comp_eq_l comp _ _ _ Hf2 Hx).
  - apply Forall_app; split; [done|]. constructor; [|done]. simpl.
    eapply Forall_impl; [exact Hf4|]. intros x Hx. simpl in *.
    apply (comp_eq_trans _ (an_key n)); [done|]. by apply (comp_eq_sym comp).
  - simpl. by apply balanced_relabel.
Qed.

Lemma split_unique {A} (f : A -> positive) a n b c d :
  NoDup (map f (c ++ n :: d)) -> a ++ n :: b = c ++ n :: d -> a = c /\ b = d.
Proof.
  assert (forall l1 l2, f n ∈ map f (l1 ++ n :: l2)) as Hin.
  { intros l1 l2. apply list_elem_of_fmap_2. set_solver. }
  revert c. induction a as [|y a IH]; intros [|z c] Hn E; simplify_list_eq; [done| | |].
  - exfalso. apply NoDup_cons in Hn as [Hn _]. by apply Hn.
  - exfalso. apply NoDup_cons in Hn as [Hn _]. by apply Hn.
  - apply NoDup_cons in Hn as [_ Hn]. destruct (IH c Hn) as [-> ->]; done.
Qed.

Lemma delete_leader t gs1 n gs2 :
  avl_wf t (gs1 ++ (n, []) :: gs2) ->
  avl_wf (avl_delete t n) (gs1 ++ gs2) /\
  exists l1 l2, avl_walk t = l1 ++ n :: l2 /\ avl_walk (avl_delete t n) = l1 ++ l2.
Proof.
  intros Hwf. pose proof (leaders_nodup _ _ Hwf) as Hnd. destruct Hwf as [Hn Hp Ht Hs Hf Hb Hc].
  assert (nodes t = flatten gs1 ++ (n, true) :: flatten gs2) as Hn1.
  { rewrite Hn, flatten_app. done. }
  rewrite Hn1 in Hp. pose proof (nodup_before _ _ _ Hp) as Hni.
  rewrite map_app in Ht. simpl in Ht.
  destruct (locate_complete n (root t) []) as [[[[[l x] b] r] q] Hloc]; [rewrite Ht; set_solver|].
  destruct (locate_spec _ _ _ _ _ _ _ _ Hloc) as [Hx Hpl]. simpl in Hpl.
  assert (x = n) as ->.
  { apply (nodup_ptr_inj an_ptr (inorder (root t))); [done| |rewrite Ht; set_solver|].
    - rewrite <- Hpl, inorder_plug. simpl. set_solver.
    - unfold same_node in Hx. by apply bool_decide_eq_true in Hx. }
  pose (t1 := set_root (avl_delete_worker l n b r q) t).
  assert (avl_delete t n = avl_remove t1 n) as ->.
  { unfold avl_delete. rewrite Hn1, is_leader_at, nodes_after_at, Hloc by done.
    destruct gs2 as [|[m ms] gs2]; done. }
  assert (nodes (avl_remove t1 n) = flatten gs1 ++ flatten gs2) as Hn2.
  { simpl. by rewrite Hn1, list_remove_at. }
  destruct (removed_nodes (flatten gs1) n true (flatten gs2) t1 (avl_remove t1 n))
    as (H1 & H2 & H3 & H4); try done; [simpl; by rewrite Hn1|].
  split; [|exists (map fst (flatten gs1)), (map fst (flatten gs2)); done].
  assert (inorder (root (avl_remove t1 n)) = map fst (gs1 ++ gs2)) as Hio.
  { cbn [root avl_remove t1 set_root]. rewrite delete_worker_inorder by (by rewrite Hpl).
    rewrite <- Hpl, inorder_plug in Ht, Hnd. simpl in Ht, Hnd.
    rewrite map_app.
    assert (left_ctx q ++ inorder l = map fst gs1 /\ inorder r ++ right_ctx q = map fst gs2) as [E1 E2].
    { rewrite <- !app_assoc in Ht, Hnd. rewrite app_assoc in Ht, Hnd. simpl in Ht, Hnd.
      rewrite Ht in Hnd. by apply (split_unique an_ptr _ n). }
    rewrite <- E1, <- E2. by rewrite <- !app_assoc. }
  apply Forall_app in Hf as [Hf1 [_ Hf3]%Forall_cons].
  split; try done.
  - by rewrite Hn2, flatten_app.
  - rewrite Hio, map_app. rewrite Ht in Hs. revert Hs. clear.
    induction (map fst gs1) as [|y l IH]; simpl; intros Hs; apply StronglySorted_inv in Hs as [Hs Hf]; [done|].
    constructor; [by apply IH|]. rewrite Forall_app, Forall_cons in *. tauto.
  - by apply Forall_app.
  - cbn [root avl_remove t1 set_root]. apply delete_worker_balanced. by rewrite Hpl.
Qed.

Lemma avl_delete_wf t n :
  wf t -> n ∈ avl_walk t ->
  wf (avl_delete t n) /\
  exists l1 l2, avl_walk t = l1 ++ n :: l2 /\ avl_walk (avl_delete t n) = l1 ++ l2.
Proof.
  intros [gs Hwf] Hin. rewrite (walk_groups _ _ Hwf) in Hin.
  apply in_walk in Hin as (gs1 & m & fs & gs2 & -> & [<-|(f1 & f2 & ->)]).
  - destruct fs as [|f fs].
    + destruct (delete_leader _ _ _ _ Hwf) as [? ?]. split; [by eexists|done].
    + destruct (delete_promote _ _ _ _ _ _ Hwf) as [? ?]. split; [by eexists|done].
  - destruct (delete_follower _ _ _ _ _ _ _ Hwf) as [? ?]. split; [by eexists|done].
Qed.

(** C27: [avl_insert] keeps the tree well formed (key order, AVL balance, balance
    bytes, list threading, node count). With [AVL_DUP_NO] it returns -1 and
    changes nothing exactly when the key is present; otherwise it returns 0 and
    the new node is at its place in the in-order walk, behind equal keys. *)
Theorem avl_insert_correct t new dup :
  wf t -> an_ptr new ∉ ptrs (nodes t) ->
  let '(ret, t') := avl_insert comp t new dup in
  wf t' /\
  ((ret = -1 /\ t' = t /\ dup = false /\
      Exists (fun x => comp (an_key x) (an_key new) = 0) (avl_walk t)) \/
   (ret = 0 /\ inserted new (avl_walk t) (avl_walk t') /\
      (dup = false -> walk_keys (fun x => comp x (an_key new) <> 0) (avl_walk t)))).
Proof. apply avl_insert_wf. Qed.

(** [avl_find] returns a node with the key when the tree has one and NULL
    only when no node, leader or follower, has it. *)
Theorem avl_find_correct t k :
  wf t ->
  match avl_find comp t k with
  | Some n => n ∈ avl_walk t /\ comp (an_key n) k = 0
  | None => walk_keys (fun x => comp x k <> 0) (avl_walk t)
  end.
Proof. apply avl_find_wf. Qed.

(** C28: [avl_delete] of a node of the tree keeps the tree well formed and removes
    exactly that node from the walk, whether it is a follower, a leader with
    followers, or a leader that has to leave the tree. *)
Theorem avl_delete_correct t n :
  wf t -> n ∈ avl_walk t ->
  wf (avl_delete t n) /\
  exists l1 l2, avl_walk t = l1 ++ n :: l2 /\ avl_walk (avl_delete t n) = l1 ++ l2.
Proof. apply avl_delete_wf. Qed.

(** the height of a tree, which bounds the recursion of [avl_find_rec], is
    logarithmic in the number of its nodes. *)
Theorem avl_height_log t :
  wf t -> height (root t) <= 2 * Z.log2 (1 + Z.of_nat (length (nodes t))) + 1.
Proof.
  intros [gs Hwf]. pose proof (balanced_size _ (wf_balanced _ _ Hwf)) as Hs.
  assert (length (inorder (root t)) <= length (nodes t))%nat as Hl.
  { rewrite (wf_tree _ _ Hwf), (wf_nodes _ _ Hwf).
    etrans; [apply sublist_length, leaders_sublist|]. by rewrite length_map. }
  pose proof (height_nonneg (root t)) as Hh.
  assert (height (root t) / 2 <= Z.log2 (1 + Z.of_nat (length (nodes t)))); [|olia].
  apply Z.log2_le_pow2; lia.
Qed.

End spec.

(** ** Witnesses: integer keys, trees built by the code itself *)

#[export] Instance Zsub_comp : TotalComp Z.sub.
Proof. split; intros; lia. Qed.

Definition node_of (k : Z) : avl_node Z := {| an_ptr := Z.to_pos k; an_key := k |}.

(** Inserting a list of keys into the empty tree. *)
Definition build (ks : list Z) : avl_tree Z :=
  fold_left (fun t k => snd (avl_insert Z.sub t (node_of k) false)) ks avl_init.

Lemma sample_wf : wf Z.sub (build [5; 2; 8; 1; 9; 3]).
Proof.
  assert (forall t k, wf Z.sub t -> bool_decide (an_ptr (node_of k) ∉ ptrs (nodes t)) = true ->
    wf Z.sub (snd (avl_insert Z.sub t (node_of k) false))) as Hstep.
  { intros t k Hwf Hn. apply bool_decide_eq_true in Hn.
    pose proof (avl_insert_wf Z.sub t (node_of k) false Hwf Hn) as H.
    destruct (avl_insert _ _ _ _). apply H. }
  unfold build. cbn [fold_left].
  repeat (apply Hstep; [|vm_compute; reflexivity]). apply wf_init.
Qed.

Lemma avl_insert_correct_witness :
  wf Z.sub (snd (avl_insert Z.sub (build [5; 2; 8; 1; 9; 3]) (node_of 4) false)) /\
  map an_key (avl_walk (snd (avl_insert Z.sub (build [5; 2; 8; 1; 9; 3]) (node_of 4) false)))
    = [1; 2; 3; 4; 5; 8; 9].
Proof.
  assert (an_ptr (node_of 4) ∉ ptrs (nodes (build [5; 2; 8; 1; 9; 3]))) as Hn.
  { apply (bool_decide_eq_true_1 _). vm_compute. reflexivity. }
  pose proof (avl_insert_correct Z.sub (build [5; 2; 8; 1; 9; 3]) (node_of 4) false sample_wf Hn) as H.
  destruct (avl_insert Z.sub (build [5; 2; 8; 1; 9; 3]) (node_of 4) false) as [ret t'] eqn:E.
  split; [apply H|]. replace t' with (snd (ret, t')) by reflexivity. rewrite <- E. vm_compute. reflexivity.
Defined.

Lemma avl_find_correct_witness :
  exists n, avl_find Z.sub (build [5; 2; 8; 1; 9; 3]) 8 = Some n /\ an_key n - 8 = 0.
Proof.
  pose proof (avl_find_correct Z.sub (build [5; 2; 8; 1; 9; 3]) 8 sample_wf) as H.
  destruct (avl_find Z.sub (build [5; 2; 8; 1; 9; 3]) 8) as [n|] eqn:E.
  - exists n. split; [reflexivity|apply H].
  - exfalso. vm_compute in E. discriminate E.
Defined.

Lemma avl_delete_correct_witness :
  wf Z.sub (avl_delete (build [5; 2; 8; 1; 9; 3]) (node_of 5)) /\
  map an_key (avl_walk (avl_delete (build [5; 2; 8; 1; 9; 3]) (node_of 5))) = [1; 2; 3; 8; 9].
Proof.
  assert (node_of 5 ∈ avl_walk (build [5; 2; 8; 1; 9; 3])) as Hn.
  { apply list_elem_of_In. vm_compute. tauto. }
  pose proof (avl_delete_correct Z.sub (build [5; 2; 8; 1; 9; 3]) (node_of 5) sample_wf Hn) as H.
  split; [apply H|vm_compute; reflexivity].
Defined.

Lemma avl_height_log_witness :
  height (root (build [5; 2; 8; 1; 9; 3])) <= 2 * Z.log2 (1 + 6) + 1.
Proof. exact (avl_height_log Z.sub (build [5; 2; 8; 1; 9; 3]) sample_wf). Defined.
