(* ===== verification/IpAddr.v ===== *)
(** * olsr_types.h, ipcalc.h, ipcalc.c, hashing.c: addresses, prefixes and the hash *)

From S2P Require Import Prelude.

(** ** Addresses

    A [union olsr_ip_addr] is modelled by the integer whose little-endian bytes
    are the bytes of the union that are meaningful under [olsr_cnf->ip_version]:
    4 for IPv4, where the integer is [v4.s_addr] as a little-endian host reads it,
    and 16 for IPv6, where byte [i] is [v6.s6_addr[i]]. *)
Definition ip_addr := Z.
#[global] Typeclasses Transparent ip_addr.

Inductive ip_family := AF_INET | AF_INET6.

#[export] Instance ip_family_eq_dec : EqDecision ip_family.
Proof. solve_decision. Defined.

Record olsr_ip_prefix := { prefix : ip_addr; prefix_len : Z }.

Definition ip_byte (a : ip_addr) (i : Z) : Z := Z.land (Z.shiftr a (8 * i)) 255.
Definition ip_word (a : ip_addr) (i : Z) : Z := Z.land (Z.shiftr a (32 * i)) 4294967295.
Definition ip_bytes (n : nat) (a : ip_addr) : list Z :=
  map (fun i => ip_byte a (Z.of_nat i)) (seq 0 n).

Definition ipsize (v : ip_family) : nat := match v with AF_INET => 4 | AF_INET6 => 16 end.

Definition ip4cmp (a b : ip_addr) : Z := if a >? b then 1 else if a <? b then -1 else 0.
Definition ip4equal (a b : ip_addr) : bool := a =? b.

(** [memcmp]: only its sign is specified; the byte difference is one such value. *)
Fixpoint memcmp (l1 l2 : list Z) : Z :=
  match l1, l2 with
  | x :: l1, y :: l2 => if x =? y then memcmp l1 l2 else x - y
  | _, _ => 0
  end.

Definition ip6cmp (a b : ip_addr) : Z := memcmp (ip_bytes 16 a) (ip_bytes 16 b).

(** [ip6cmp(a, b) == 0]: all sixteen bytes agree, that is, the integers do
    (lemma [ip6cmp_equal]). *)
Definition ip6equal (a b : ip_addr) : bool := a =? b.

Definition ipequal (v : ip_family) (a b : ip_addr) : bool :=
  match v with AF_INET => ip4equal a b | AF_INET6 => ip6equal a b end.

Definition avl_comp_ipv4 : ip_addr -> ip_addr -> Z := ip4cmp.
Definition avl_comp_ipv6 : ip_addr -> ip_addr -> Z := ip6cmp.

(** ** Prefixes and netmasks (ipcalc.c) *)

Fixpoint netmask_bytes (len : nat) (p : Z) : list Z * bool :=
  match len with
  | O => ([], false)
  | S len' =>
      if p >? 8 then let '(l, ok) := netmask_bytes len' (p - 8) in (255 :: l, ok)
      else (u8 (Z.shiftl 255 (8 - p)) :: repeat 0 len', true)
  end.

(** The [len] bytes at [a] afterwards, with the return value. *)
Definition prefix_to_netmask (len : nat) (prefixlen : Z) : list Z * bool :=
  netmask_bytes len prefixlen.

Definition netmask_last_byte (b : Z) : option Z :=
  if b =? 0 then Some 0 else if b =? 128 then Some 1 else if b =? 192 then Some 2
  else if b =? 224 then Some 3 else if b =? 240 then Some 4 else if b =? 248 then Some 5
  else if b =? 252 then Some 6 else if b =? 254 then Some 7 else if b =? 255 then Some 8
  else None.

Fixpoint netmask_prefix (adr : list Z) (prefix : Z) : Z :=
  match adr with
  | [] => prefix
  | a :: adr =>
      if a =? 255 then netmask_prefix adr (u16 (prefix + 8))
      else match netmask_last_byte a with
           | Some k => u16 (prefix + k)
           | None => 255
           end
  end.

Definition netmask_to_prefix (adr : list Z) : Z := u8 (netmask_prefix adr 0).

(** [htonl] on a little-endian host. *)
Definition htonl (x : Z) : Z :=
  Z.lor (Z.shiftl (ip_byte x 0) 24) (Z.lor (Z.shiftl (ip_byte x 1) 16)
    (Z.lor (Z.shiftl (ip_byte x 2) 8) (ip_byte x 3))).

Definition prefix_to_netmask4 (prefixlen : Z) : Z :=
  if prefixlen =? 0 then 0 else shl32 4294967295 (32 - prefixlen).

(** The IPv6 loop over whole words; a prefix length is at most 255, so at most
    seven words are skipped. *)
Fixpoint ip6_in_net (fuel : nat) (i : Z) (ipaddr net : ip_addr) (prefix_len : Z) : bool :=
  match fuel with
  | S fuel =>
      if prefix_len >? 32 then
        if negb (ip_word ipaddr i =? ip_word net i) then false
        else ip6_in_net fuel (i + 1) ipaddr net (prefix_len - 32)
      else
        let netmask := htonl (prefix_to_netmask4 prefix_len) in
        Z.land (ip_word ipaddr i) netmask =? Z.land (ip_word net i) netmask
  | O => false
  end.

Definition ip_in_net (v : ip_family) (ipaddr : ip_addr) (net : olsr_ip_prefix) : bool :=
  match v with
  | AF_INET =>
      let netmask := htonl (prefix_to_netmask4 (prefix_len net)) in
      Z.land (ip_word ipaddr 0) netmask =? Z.land (ip_word (prefix net) 0) netmask
  | AF_INET6 => ip6_in_net 8 0 ipaddr (prefix net) (prefix_len net)
  end.

(** ** Hashing (hashing.c) *)

Definition HASHSIZE : Z := 128.
Definition HASHMASK : Z := HASHSIZE - 1.

Definition mix1 (x y z s : Z) : Z := Z.lxor (u32 (u32 (x - y) - z)) s.

Definition jhash_mix (a b c : Z) : Z * Z * Z :=
  let a := mix1 a b c (shr32 c 13) in
  let b := mix1 b c a (shl32 a 8) in
  let c := mix1 c a b (shr32 b 13) in
  let a := mix1 a b c (shr32 c 12) in
  let b := mix1 b c a (shl32 a 16) in
  let c := mix1 c a b (shr32 b 5) in
  let a := mix1 a b c (shr32 c 3) in
  let b := mix1 b c a (shl32 a 10) in
  let c := mix1 c a b (shr32 b 15) in
  (a, b, c).

(** [k[0] + (k[1] << 8) + (k[2] << 16) + (k[3] << 24)] *)
Definition le_word (k : list Z) (i : nat) : Z :=
  u32 (nth i k 0 + shl32 (nth (i + 1) k 0) 8 + shl32 (nth (i + 2) k 0) 16 + shl32 (nth (i + 3) k 0) 24).

(** The [switch (len)] adds the bytes of the tail; [fallthrough] makes case [n]
    add bytes [n-1] down to 0. *)
Definition jhash_tail (k : list Z) (a b c : Z) : Z * Z * Z :=
  let byte (i : nat) (s : Z) := if (i <? length k)%nat then shl32 (nth i k 0) s else 0 in
  let c := u32 (c + byte 10%nat 24 + byte 9%nat 16 + byte 8%nat 8) in
  let b := u32 (b + byte 7%nat 24 + byte 6%nat 16 + byte 5%nat 8 + byte 4%nat 0) in
  let a := u32 (a + byte 3%nat 24 + byte 2%nat 16 + byte 1%nat 8 + byte 0%nat 0) in
  (a, b, c).

Fixpoint jenkins_loop (fuel : nat) (k : list Z) (a b c : Z) (length_ : Z) : Z :=
  match fuel with
  | S fuel =>
      if (12 <=? length k)%nat then
        let a := u32 (a + le_word k 0) in
        let b := u32 (b + le_word k 4) in
        let c := u32 (c + le_word k 8) in
        let '(a, b, c) := jhash_mix a b c in
        jenkins_loop fuel (drop 12 k) a b c length_
      else
        let c := u32 (c + length_) in
        let '(a, b, c) := jhash_tail k a b c in
        let '(_, _, c) := jhash_mix a b c in c
  | O => c
  end.

(** The fuel, one more than the number of bytes, exceeds the iterations. *)
Definition jenkins_hash (k : list Z) : Z :=
  jenkins_loop (S (length k)) k 2654435769 2654435769 0 (Z.of_nat (length k)).

Definition olsr_ip_hashing (v : ip_family) (address : ip_addr) : Z :=
  let hash := jenkins_hash (ip_bytes (ipsize v) address) in
  Z.land hash HASHMASK.

(** ** Lemmas *)

Lemma ipequal_eq v a b : ipequal v a b = true <-> a = b.
Proof. destruct v; apply Z.eqb_eq. Qed.

Lemma ipequal_neq v a b : ipequal v a b = false <-> a <> b.
Proof. destruct v; apply Z.eqb_neq. Qed.

Lemma ipequal_refl v a : ipequal v a a = true.
Proof. by apply ipequal_eq. Qed.

#[export] Hint Resolve ipequal_refl : olsr.

Lemma ip_byte_range a i : is_u8 (ip_byte a i).
Proof.
  unfold ip_byte, is_u8. change 255 with (Z.ones 8). rewrite Z.land_ones by lia.
  apply Z.mod_pos_bound. lia.
Qed.

Lemma ip_byte_testbit a i k :
  0 <= i -> 0 <= k -> Z.testbit (ip_byte a i) k = (k <? 8) && Z.testbit a (8 * i + k).
Proof.
  intros Hi Hk. unfold ip_byte. change 255 with (Z.ones 8).
  rewrite Z.land_spec, Z.shiftr_spec, Z.testbit_ones_nonneg by lia.
  rewrite andb_comm. f_equal. f_equal. lia.
Qed.

Lemma ip_word_testbit a i k :
  0 <= i -> 0 <= k -> Z.testbit (ip_word a i) k = (k <? 32) && Z.testbit a (32 * i + k).
Proof.
  intros Hi Hk. unfold ip_word. change 4294967295 with (Z.ones 32).
  rewrite Z.land_spec, Z.shiftr_spec, Z.testbit_ones_nonneg by lia.
  rewrite andb_comm. f_equal. f_equal. lia.
Qed.

(** The claim behind [ip6equal]. *)
Lemma memcmp_eq l1 l2 : length l1 = length l2 -> memcmp l1 l2 = 0 <-> l1 = l2.
Proof.
  revert l2. induction l1 as [|x l1 IH]; intros [|y l2] Hl; simpl in *; try done.
  destruct (x =? y) eqn:E; bool_hyps.
  - rewrite IH by lia. subst. split; [by intros ->|]. by intros [= ->].
  - split; [lia|]. by intros [= -> ->].
Qed.

Lemma ip6cmp_equal a b :
  0 <= a < 2 ^ 128 -> 0 <= b < 2 ^ 128 -> (ip6cmp a b =? 0) = ip6equal a b.
Proof.
  intros Ha Hb. apply eq_bool_prop_intro. unfold ip6cmp, ip6equal.
  rewrite !Is_true_true, !Z.eqb_eq, memcmp_eq by done.
  split; [|by intros ->]. intros H. apply Z.bits_inj'. intros n Hn.
  destruct (Z_lt_le_dec n 128) as [Hlt|Hge].
  - assert (ip_byte a (n / 8) = ip_byte b (n / 8)) as Hbyte.
    { assert (0 <= n / 8 < 16) as Hr by olia.
      replace (n / 8) with (Z.of_nat (Z.to_nat (n / 8))) by lia.
      apply (f_equal (lookup (Z.to_nat (n / 8)))) in H. unfold ip_bytes in H.
      rewrite !list_lookup_fmap, lookup_seq_lt in H by lia. by injection H. }
    apply (f_equal (fun x => Z.testbit x (n mod 8))) in Hbyte.
    rewrite !ip_byte_testbit in Hbyte by olia.
    replace (n mod 8 <? 8) with true in Hbyte by olia.
    replace (8 * (n / 8) + n mod 8) with n in Hbyte by olia. done.
  - rewrite <- (Z.mod_small a (2 ^ 128)), <- (Z.mod_small b (2 ^ 128)) by lia.
    by rewrite !Z.mod_pow2_bits_high by lia.
Qed.


(** ** The hash *)

(** [olsr_ip_hashing] always returns an index of the [HASHSIZE] buckets. *)
Theorem olsr_ip_hashing_range v a : 0 <= olsr_ip_hashing v a < HASHSIZE.
Proof.
  unfold olsr_ip_hashing, HASHMASK, HASHSIZE. change (128 - 1) with (Z.ones 7).
  rewrite Z.land_ones by lia. apply Z.mod_pos_bound. lia.
Qed.

(** ** Netmasks *)

Lemma netmask_prefix_zeros n acc : is_u16 acc -> netmask_prefix (repeat 0 n) acc = acc.
Proof. intros H. destruct n as [|n]; simpl; [done|]. by rewrite Z.add_0_r, u16_id. Qed.

Lemma netmask_partial_byte p n acc :
  0 <= p <= 8 -> is_u16 acc -> is_u16 (acc + p) ->
  netmask_prefix (u8 (Z.shiftl 255 (8 - p)) :: repeat 0 n) acc = acc + p.
Proof.
  intros Hp Ha Hap.
  assert (p = 0 \/ p = 1 \/ p = 2 \/ p = 3 \/ p = 4 \/ p = 5 \/ p = 6 \/ p = 7 \/ p = 8) as Hc by lia.
  destruct Hc as [->|[->|[->|[->|[->|[->|[->|[->| ->]]]]]]]]; simpl; rewrite u16_id by done; try done.
  by apply netmask_prefix_zeros.
Qed.

Lemma netmask_bytes_prefix len p acc :
  0 <= p <= 8 * Z.of_nat len -> is_u16 acc -> is_u16 (acc + p) ->
  netmask_prefix (fst (netmask_bytes len p)) acc = acc + p.
Proof.
  revert p acc. induction len as [|len IH]; intros p acc Hp Ha Hap; [simpl; lia|].
  cbn [netmask_bytes]. destruct (p >? 8) eqn:E; bool_hyps.
  - specialize (IH (p - 8) (acc + 8)). destruct (netmask_bytes len (p - 8)) as [l ok]. simpl in *.
    unfold is_u16 in *. rewrite u16_id by (unfold is_u16; lia). rewrite IH; lia.
  - simpl fst. by apply netmask_partial_byte; [lia|..].
Qed.

(** [netmask_to_prefix] reads back the length [prefix_to_netmask] wrote, for
    every prefix length that fits the address (IPv4 and IPv6 alike). *)
Theorem netmask_roundtrip len p :
  (len <= 31)%nat -> 0 <= p <= 8 * Z.of_nat len ->
  netmask_to_prefix (fst (prefix_to_netmask len p)) = p.
Proof.
  intros Hl Hp. unfold netmask_to_prefix, prefix_to_netmask.
  rewrite netmask_bytes_prefix by (unfold is_u16; lia). apply u8_id. unfold is_u8. lia.
Qed.

Lemma netmask_roundtrip_witness :
  prefix_to_netmask 4 26 = ([255; 255; 255; 192], true) /\
  netmask_to_prefix (fst (prefix_to_netmask 4 26)) = 26.
Proof. split; [reflexivity|]. apply (netmask_roundtrip 4 26); lia. Defined.

(** ** Prefix membership *)

(** Bit [k] of an address in network order, bit 0 the first one. *)
Definition net_bit (a : ip_addr) (k : Z) : bool := Z.testbit a (8 * (k / 8) + (7 - k mod 8)).

Definition mask_ok (p : Z) : bool :=
  all_from 0 32 (fun k => Bool.eqb (net_bit (htonl (prefix_to_netmask4 p)) k) (k <? p)).

Lemma mask_bits p k : 0 <= p <= 32 -> 0 <= k < 32 -> net_bit (htonl (prefix_to_netmask4 p)) k = (k <? p).
Proof.
  intros Hp Hk. assert (mask_ok p = true) as Hm.
  { apply (all_from_spec 0 33); [vm_compute; reflexivity|lia]. }
  by apply eqb_prop, (all_from_spec 0 32 _ Hm).
Qed.

Lemma mask_high p j : 0 <= p <= 32 -> 32 <= j -> Z.testbit (htonl (prefix_to_netmask4 p)) j = false.
Proof.
  intros Hp Hj. assert (0 <= htonl (prefix_to_netmask4 p) < 2 ^ 32) as Hr.
  { assert ((0 <=? htonl (prefix_to_netmask4 p)) && (htonl (prefix_to_netmask4 p) <? 2 ^ 32) = true);
      [|bool_hyps; lia].
    apply (all_from_spec 0 33 (fun p => (0 <=? htonl (prefix_to_netmask4 p)) &&
      (htonl (prefix_to_netmask4 p) <? 2 ^ 32))); [vm_compute; reflexivity|lia]. }
  rewrite <- (Z.mod_small _ _ Hr). apply Z.mod_pow2_bits_high. lia.
Qed.

(** The position of an in-memory bit in network order. *)
Lemma net_bit_index j : 0 <= j -> exists k, 0 <= k /\ 8 * (k / 8) + (7 - k mod 8) = j /\ k / 32 = j / 32.
Proof.
  intros Hj. exists (8 * (j / 8) + (7 - j mod 8)). split; [olia|]. split; olia.
Qed.

Lemma masked_word_eq a b i p :
  0 <= i -> 0 <= p <= 32 ->
  let m := htonl (prefix_to_netmask4 p) in
  Z.land (ip_word a i) m = Z.land (ip_word b i) m <->
  forall k, 0 <= k < p -> net_bit a (32 * i + k) = net_bit b (32 * i + k).
Proof.
  intros Hi Hp m. split.
  - intros H k Hk. apply (f_equal (fun x => net_bit x k)) in H. unfold net_bit in H.
    rewrite !Z.land_spec, !ip_word_testbit in H by olia.
    fold (net_bit m k) in H. unfold m in H. rewrite mask_bits in H by lia.
    replace (k <? p) with true in H by lia.
    replace (8 * (k / 8) + (7 - k mod 8) <? 32) with true in H by olia.
    rewrite !andb_true_r in H. simpl in H. unfold net_bit.
    replace (8 * ((32 * i + k) / 8) + (7 - (32 * i + k) mod 8)) with
      (32 * i + (8 * (k / 8) + (7 - k mod 8))) by olia. done.
  - intros H. apply Z.bits_inj'. intros j Hj. rewrite !Z.land_spec, !ip_word_testbit by lia.
    destruct (Z_lt_le_dec j 32) as [Hlt|Hge].
    2: { unfold m. rewrite mask_high by lia. by rewrite !andb_false_r. }
    destruct (net_bit_index j Hj) as (k & Hk & <- & Hkj). fold (net_bit m k).
    unfold m. rewrite mask_bits by olia.
    destruct (k <? p) eqn:E; bool_hyps; [|by rewrite !andb_false_r].
    specialize (H k). unfold net_bit in H.
    replace (8 * ((32 * i + k) / 8) + (7 - (32 * i + k) mod 8)) with
      (32 * i + (8 * (k / 8) + (7 - k mod 8))) in H by olia.
    rewrite H by lia. done.
Qed.

Lemma word_eq a b i :
  0 <= i ->
  ip_word a i = ip_word b i <-> forall k, 0 <= k < 32 -> net_bit a (32 * i + k) = net_bit b (32 * i + k).
Proof.
  intros Hi. rewrite <- (masked_word_eq a b i 32) by lia.
  change (htonl (prefix_to_netmask4 32)) with (Z.ones 32). unfold ip_word.
  change 4294967295 with (Z.ones 32). by rewrite <- !Z.land_assoc, Z.land_diag.
Qed.

Lemma ip6_in_net_bits fuel i a b p :
  0 <= i -> 0 <= p -> p / 32 < Z.of_nat fuel ->
  ip6_in_net fuel i a b p = true <->
  forall k, 0 <= k < p -> net_bit a (32 * i + k) = net_bit b (32 * i + k).
Proof.
  revert i p. induction fuel as [|fuel IH]; intros i p Hi Hp Hf; [olia|].
  cbn [ip6_in_net]. destruct (p >? 32) eqn:E; bool_hyps.
  - destruct (ip_word a i =? ip_word b i) eqn:Ew; bool_hyps; simpl negb; cbv iota.
    + rewrite word_eq in Ew by lia. rewrite IH by olia. split.
      * intros H k Hk. destruct (Z_lt_le_dec k 32); [by apply Ew; lia|].
        specialize (H (k - 32)). replace (32 * (i + 1) + (k - 32)) with (32 * i + k) in H by lia.
        apply H. lia.
      * intros H k Hk. specialize (H (k + 32)).
        replace (32 * (i + 1) + k) with (32 * i + (k + 32)) by lia. apply H. lia.
    + split; [done|]. intros H. exfalso. apply Ew. rewrite word_eq by lia. intros k Hk. apply H. lia.
  - rewrite Z.eqb_eq. apply masked_word_eq; lia.
Qed.

(** [ip_in_net] is membership in the prefix: the first [prefix_len] bits, in
    network order, agree. *)
Theorem ip_in_net_correct v a net :
  0 <= prefix_len net <= 8 * Z.of_nat (ipsize v) ->
  ip_in_net v a net = true <->
  forall k, 0 <= k < prefix_len net -> net_bit a k = net_bit (prefix net) k.
Proof.
  intros Hp. destruct v; simpl in Hp; unfold ip_in_net.
  - rewrite Z.eqb_eq. apply (masked_word_eq a (prefix net) 0); lia.
  - apply (ip6_in_net_bits 8 0); simpl; olia.
Qed.

(** 192.168.7.9 is in 192.168.0.0/21 and not in 192.168.0.0/22. *)
Lemma ip_in_net_correct_witness :
  (forall k, 0 <= k < 21 -> net_bit 151496896 k = net_bit 43200 k) /\
  ip_in_net AF_INET 151496896 {| prefix := 43200; prefix_len := 22 |} = false.
Proof.
  split; [|reflexivity].
  apply (ip_in_net_correct AF_INET 151496896 {| prefix := 43200; prefix_len := 21 |});
    [simpl; lia|reflexivity].
Defined.
