(* ===== verification/KeyTree.v ===== *)
(** * The contract between the AVL trees and the tables kept in them

    The tables of the daemon embed an [avl_node] in their entries and look entries
    up by key. [KeyTree] states what they rely on; the tables' theorems are proved
    against it, and [avl_key_tree] discharges it with the trees of avl.c. *)

From S2P Require Import Prelude Avl AvlSpec IpAddr.

(** ** The interface *)

(** Operations on a tree of type [T] whose keys are compared by [keq]; a node is
    the address of the entry it is embedded in. *)
Class KeyTree (K T : Type) := {
  kt_init : T;
  kt_find : T -> K -> option positive;
  kt_insert : T -> positive -> K -> T;      (* avl_insert(tree, node, AVL_DUP_NO) *)
  kt_delete : T -> positive -> K -> T;
  kt_walk : T -> list (positive * K);       (* in the order of avl_walk_next *)
}.

Class KeyTreeLaws {K T : Type} (keq : K -> K -> Prop) (kt_wf : T -> Prop) `{!KeyTree K T} : Prop := {
  kt_keq : Equivalence keq;
  kt_wf_init : kt_wf kt_init;
  kt_walk_init : kt_walk kt_init = [];
  kt_wf_nodup t : kt_wf t -> NoDup (map fst (kt_walk t));
  kt_wf_keys t p q k k' : kt_wf t -> (p, k) ∈ kt_walk t -> (q, k') ∈ kt_walk t -> keq k k' -> p = q;
  kt_find_Some t k p : kt_wf t -> kt_find t k = Some p <-> exists k', keq k' k /\ (p, k') ∈ kt_walk t;
  kt_insert_wf t p k : kt_wf t -> kt_find t k = None -> p ∉ map fst (kt_walk t) ->
    kt_wf (kt_insert t p k) /\ kt_walk (kt_insert t p k) ≡ₚ (p, k) :: kt_walk t;
  kt_delete_wf t p k : kt_wf t -> (p, k) ∈ kt_walk t ->
    kt_wf (kt_delete t p k) /\ kt_walk t ≡ₚ (p, k) :: kt_walk (kt_delete t p k);
}.

Section consequences.
Context {K T} {keq : K -> K -> Prop} {kt_wf : T -> Prop} `{!KeyTree K T, L : !KeyTreeLaws keq kt_wf}.

#[local] Existing Instance kt_keq.

Lemma kt_find_init k : kt_find kt_init k = None.
Proof.
  destruct (kt_find kt_init k) as [p|] eqn:E; [|done].
  apply (kt_find_Some (keq := keq)) in E as (k' & _ & H); [|by apply kt_wf_init].
  rewrite (kt_walk_init (keq := keq) (kt_wf := kt_wf)) in H. by apply not_elem_of_nil in H.
Qed.

Lemma kt_find_None t k : kt_wf t -> kt_find t k = None <-> forall p k', (p, k') ∈ kt_walk t -> ~ keq k' k.
Proof.
  intros Hwf. destruct (kt_find t k) as [p|] eqn:E.
  - apply (kt_find_Some (keq := keq)) in E as (k' & Hk & Hp); [|done].
    split; [done|]. intros H. by destruct (H _ _ Hp).
  - split; [|done]. intros _ p k' Hp Hk.
    assert (kt_find t k = Some p) as E'; [|congruence].
    apply (kt_find_Some (keq := keq)); [done|]. by exists k'.
Qed.

(** Looking up equal keys gives the same node. *)
Lemma kt_find_keq t k k' : kt_wf t -> keq k k' -> kt_find t k = kt_find t k'.
Proof.
  intros Hwf Hk. apply option_eq. intros p. rewrite !(kt_find_Some (keq := keq)) by done.
  split; intros (k0 & Hk0 & Hp); exists k0; (split; [|done]); by rewrite ?Hk, <- ?Hk, Hk0.
Qed.

Lemma kt_find_insert_eq t p k k' :
  kt_wf t -> kt_find t k = None -> p ∉ map fst (kt_walk t) -> keq k k' ->
  kt_find (kt_insert t p k) k' = Some p.
Proof.
  intros Hwf Hf Hp Hk. destruct (kt_insert_wf t p k Hwf Hf Hp) as [Hwf' Hw].
  apply (kt_find_Some (keq := keq)); [done|]. exists k. split; [done|]. rewrite Hw. left.
Qed.

Lemma kt_find_insert_ne t p k k' :
  kt_wf t -> kt_find t k = None -> p ∉ map fst (kt_walk t) -> ~ keq k k' ->
  kt_find (kt_insert t p k) k' = kt_find t k'.
Proof.
  intros Hwf Hf Hp Hk. destruct (kt_insert_wf t p k Hwf Hf Hp) as [Hwf' Hw].
  apply option_eq. intros q. rewrite !(kt_find_Some (keq := keq)) by done. setoid_rewrite Hw.
  setoid_rewrite elem_of_cons. split; intros (k0 & Hk0 & H); exists k0; split; auto.
  destruct H as [[= -> ->]|]; [|done]. by destruct Hk.
Qed.

Lemma kt_find_delete_ne t p k k' :
  kt_wf t -> (p, k) ∈ kt_walk t -> ~ keq k k' -> kt_find (kt_delete t p k) k' = kt_find t k'.
Proof.
  intros Hwf Hp Hk. destruct (kt_delete_wf t p k Hwf Hp) as [Hwf' Hw].
  apply option_eq. intros q. rewrite !(kt_find_Some (keq := keq)) by done. setoid_rewrite Hw.
  setoid_rewrite elem_of_cons. split; intros (k0 & Hk0 & H); exists k0; split; auto.
  destruct H as [[= -> ->]|]; [|done]. by destruct Hk.
Qed.

Lemma kt_find_delete_eq t p k k' :
  kt_wf t -> (p, k) ∈ kt_walk t -> keq k k' -> kt_find (kt_delete t p k) k' = None.
Proof.
  intros Hwf Hp Hk. destruct (kt_delete_wf t p k Hwf Hp) as [Hwf' Hw].
  apply kt_find_None; [done|]. intros q k0 Hq Hk0.
  pose proof (kt_wf_nodup t Hwf) as Hnd. rewrite Hw in Hnd. apply NoDup_cons in Hnd as [Hn _].
  apply Hn. assert (q = p) as <-.
  { apply (kt_wf_keys t q p k0 k Hwf); rewrite ?Hw; [by right|by left|]. by rewrite Hk, Hk0. }
  by apply (list_elem_of_fmap_2 fst) in Hq.
Qed.

End consequences.

(** ** The trees of avl.c implement it *)
Section avl.
Context {K : Type} (comp : K -> K -> Z) `{!TotalComp comp}.

Definition node_pair (n : avl_node K) : positive * K := (an_ptr n, an_key n).

Definition mk_node (p : positive) (k : K) : avl_node K := {| an_ptr := p; an_key := k |}.

#[local] Instance avl_key_tree : KeyTree K (avl_tree K) := {|
  kt_init := avl_init;
  kt_find t k := an_ptr <$> avl_find comp t k;
  kt_insert t p k := snd (avl_insert comp t (mk_node p k) false);
  kt_delete t p k := avl_delete t (mk_node p k);
  kt_walk t := map node_pair (avl_walk t);
|}.

Definition comp_eq (x y : K) : Prop := comp x y = 0.

#[export] Instance comp_eq_equiv : Equivalence comp_eq.
Proof.
  split; unfold comp_eq.
  - intros x. apply comp_refl.
  - intros x y. apply comp_eq_sym. exact _.
  - intros x y z. apply comp_eq_trans. exact _.
Qed.

(** A tree filled with [AVL_DUP_NO] only. *)
Definition unique_wf (t : avl_tree K) : Prop :=
  wf comp t /\ forall x y, x ∈ avl_walk t -> y ∈ avl_walk t -> comp (an_key x) (an_key y) = 0 -> x = y.

Lemma node_pair_elem p k (l : list (avl_node K)) : (p, k) ∈ map node_pair l <-> mk_node p k ∈ l.
Proof.
  rewrite list_elem_of_fmap. split.
  - by intros ([? ?] & [= -> ->] & ?).
  - intros H. by exists (mk_node p k).
Qed.

Lemma walk_nodup t : wf comp t -> NoDup (map an_ptr (avl_walk t)).
Proof.
  intros [gs Hwf]. pose proof (wf_ptrs _ _ _ Hwf) as H.
  unfold avl_walk. rewrite map_map. exact H.
Qed.

Lemma walk_ptrs t : map fst (map node_pair (avl_walk t)) = ptrs (nodes t).
Proof. unfold avl_walk, ptrs. by rewrite !map_map. Qed.

Lemma uniq_insert t p k :
  unique_wf t -> kt_find t k = None -> p ∉ map fst (kt_walk t) ->
  unique_wf (kt_insert t p k) /\ kt_walk (kt_insert t p k) ≡ₚ (p, k) :: kt_walk t.
Proof.
  intros [Hwf Hu] Hf Hp. simpl in *. rewrite walk_ptrs in Hp.
  apply fmap_None in Hf. pose proof (avl_find_wf comp t k Hwf) as Hfind. rewrite Hf in Hfind.
  pose proof (avl_insert_wf comp t (mk_node p k) false Hwf Hp) as H.
  destruct (avl_insert comp t (mk_node p k) false) as [ret t']. simpl.
  destruct H as [Hwf' [(_ & _ & _ & Hex)|(_ & (l1 & l2 & E1 & E2 & _ & _) & _)]].
  - exfalso. apply Exists_exists in Hex as (x & Hx & Hc).
    unfold walk_keys in Hfind. rewrite Forall_forall in Hfind. by apply (Hfind x Hx).
  - assert (avl_walk t' ≡ₚ mk_node p k :: avl_walk t) as Hw.
    { rewrite E1, E2. by rewrite Permutation_middle. }
    split; [|by rewrite Hw]. split; [done|].
    unfold walk_keys in Hfind. rewrite Forall_forall in Hfind.
    intros x y Hx Hy Hc. rewrite Hw in Hx, Hy. apply elem_of_cons in Hx, Hy.
    destruct Hx as [->|Hx], Hy as [->|Hy]; [done|..|by apply Hu].
    + destruct (Hfind y Hy). by apply comp_eq_sym.
    + by destruct (Hfind x Hx).
Qed.

Lemma uniq_delete t p k :
  unique_wf t -> (p, k) ∈ kt_walk t ->
  unique_wf (kt_delete t p k) /\ kt_walk t ≡ₚ (p, k) :: kt_walk (kt_delete t p k).
Proof.
  intros [Hwf Hu] Hp. simpl in *. apply node_pair_elem in Hp.
  destruct (avl_delete_wf comp t (mk_node p k) Hwf Hp) as (Hwf' & l1 & l2 & E1 & E2).
  assert (avl_walk t ≡ₚ mk_node p k :: avl_walk (avl_delete t (mk_node p k))) as Hw.
  { rewrite E1, E2. by rewrite Permutation_middle. }
  split; [|by rewrite Hw at 1]. split; [done|].
  intros x y Hx Hy. apply Hu; rewrite Hw; by right.
Qed.

Lemma uniq_find t k p :
  unique_wf t -> kt_find t k = Some p <-> exists k', comp_eq k' k /\ (p, k') ∈ kt_walk t.
Proof.
  intros [Hwf Hu]. simpl. pose proof (avl_find_wf comp t k Hwf) as Hf.
  setoid_rewrite node_pair_elem. split.
  - destruct (avl_find comp t k) as [[q k']|]; [|done]. intros [= <-]. exists k'. by destruct Hf.
  - intros (k' & Hk & Hin). destruct (avl_find comp t k) as [n|]; simpl.
    + destruct Hf as [Hn Hc]. f_equal.
      rewrite (Hu n (mk_node p k')); [done..|].
      by apply (comp_eq_trans comp _ k); [|apply comp_eq_sym].
    + unfold walk_keys in Hf. rewrite Forall_forall in Hf. by destruct (Hf _ Hin).
Qed.

#[local] Instance avl_key_tree_laws : KeyTreeLaws comp_eq unique_wf.
Proof.
  split.
  - exact _.
  - split; [apply wf_init|]. by intros ? ? ?%not_elem_of_nil.
  - done.
  - intros t [Hwf _]. simpl. rewrite map_map. apply (walk_nodup t Hwf).
  - intros t p q k k' [_ Hu] Hp Hq Hk. simpl in *. apply node_pair_elem in Hp, Hq.
    by assert (mk_node p k = mk_node q k') as [= -> _] by (by apply Hu).
  - apply uniq_find.
  - apply uniq_insert.
  - apply uniq_delete.
Qed.

End avl.

(** ** The walk is in key order *)
Section walk_order.
Context {K : Type} (comp : K -> K -> Z) `{!TotalComp comp}.
Definition key_le (x y : K) : Prop := comp x y <= 0.

Lemma flatten_sorted (gs : list (avl_node K * list (avl_node K))) :
  StronglySorted (key_lt comp) (map fst gs) ->
  Forall (fun g => Forall (fun f => comp (an_key f) (an_key (fst g)) = 0) (snd g)) gs ->
  StronglySorted key_le (map (fun n => an_key n) (map fst (flatten gs))).
Proof.
  induction gs as [|[n fs] gs IH]; simpl; [constructor|].
  intros [Hs Hn]%StronglySorted_inv [Hf Hfs]%Forall_cons. simpl in Hf.
  assert (forall k, comp (an_key n) k = 0 -> Forall (key_le k) (map (fun n => an_key n) (map fst (flatten gs)))) as Hle.
  { intros k Hk. apply Forall_map, Forall_map. clear IH Hs Hf. induction gs as [|[m ms] gs IH]; simpl; [constructor|].
    apply Forall_cons in Hn as [Hm Hn], Hfs as [Hms Hfs]. simpl in *.
    assert (comp k (an_key m) < 0) as Hkm by (eapply (comp_eq_l comp _ (an_key n)); [by apply (comp_eq_sym comp)|exact Hm]).
    constructor; [unfold key_le; simpl; lia|]. apply Forall_app. split; [|by apply IH].
    apply Forall_map. eapply Forall_impl; [exact Hms|]. intros f Hf. unfold key_le. simpl.
    apply comp_trans with (an_key m); [lia|]. apply (comp_eq_sym comp) in Hf. lia. }
  constructor.
  - rewrite map_app, map_app. specialize (IH Hs Hfs). induction fs as [|f fs IHf]; simpl; [by rewrite map_map in IH |- *|]. apply Forall_cons in Hf as [Hf Hf'].
    constructor; [by apply IHf|]. apply Forall_app. split.
    + rewrite map_map. apply Forall_map. simpl. apply Forall_map. eapply Forall_impl; [exact Hf'|]. intros f' Hf2. unfold key_le.
      simpl. apply comp_trans with (an_key n); [lia|]. apply (comp_eq_sym comp) in Hf2. lia.
    + apply Hle. by apply (comp_eq_sym comp).
  - rewrite map_app, map_app. apply Forall_app. split; [|apply Hle, (comp_refl (comp := comp))].
    rewrite map_map. apply Forall_map. apply Forall_map. eapply Forall_impl; [exact Hf|]. intros f Hf'. unfold key_le. simpl.
    apply (comp_eq_sym comp) in Hf'. lia.
Qed.

Lemma walk_sorted t : unique_wf comp t ->
  StronglySorted key_le (map snd (kt_walk (KeyTree := avl_key_tree comp) t)).
Proof.
  intros [[gs Hwf] _]. pose proof (wf_sorted _ _ _ Hwf) as Hs. rewrite (wf_tree _ _ _ Hwf) in Hs.
  pose proof (flatten_sorted gs Hs (wf_follow _ _ _ Hwf)) as H.
  rewrite <- (walk_groups _ _ _ Hwf) in H. simpl. rewrite map_map. exact H.
Qed.
End walk_order.

(** ** Address keys: [avl_comp_ipv4] and [avl_comp_ipv6] *)

#[export] Instance ip4cmp_comp : TotalComp avl_comp_ipv4.
Proof.
  split; unfold avl_comp_ipv4, ip4cmp; intros;
    repeat match goal with
    | H : context [if ?b then _ else _] |- _ => destruct b eqn:?; bool_hyps
    | |- context [if ?b then _ else _] => destruct b eqn:?; bool_hyps
    end; lia.
Qed.

Lemma memcmp_refl l : memcmp l l = 0.
Proof. induction l as [|x l IH]; simpl; [done|]. by rewrite Z.eqb_refl. Qed.

Lemma memcmp_sym l1 l2 : memcmp l1 l2 = - memcmp l2 l1.
Proof.
  revert l2. induction l1 as [|x l1 IH]; intros [|y l2]; simpl; try done.
  rewrite (Z.eqb_sym y x). destruct (x =? y) eqn:E; [apply IH|lia].
Qed.

Lemma memcmp_trans l1 l2 l3 :
  length l1 = length l2 -> length l2 = length l3 ->
  memcmp l1 l2 <= 0 -> memcmp l2 l3 <= 0 -> memcmp l1 l3 <= 0.
Proof.
  revert l2 l3. induction l1 as [|x l1 IH]; intros [|y l2] [|z l3]; simpl; try done; intros H1 H2.
  destruct (x =? y) eqn:E1, (y =? z) eqn:E2, (x =? z) eqn:E3; bool_hyps; try lia.
  apply IH; lia.
Qed.

#[export] Instance ip6cmp_comp : TotalComp avl_comp_ipv6.
Proof.
  split; unfold avl_comp_ipv6, ip6cmp.
  - intros x. apply memcmp_refl.
  - intros x y. rewrite (memcmp_sym (ip_bytes 16 x)). lia.
  - intros x y z. by apply memcmp_trans.
Qed.

(** [avl_init(&tree, olsr_cnf->ip_version == AF_INET ? &avl_comp_ipv4 : &avl_comp_ipv6)] *)
Definition avl_comp_default (v : ip_family) : ip_addr -> ip_addr -> Z :=
  match v with AF_INET => avl_comp_ipv4 | AF_INET6 => avl_comp_ipv6 end.

#[export] Instance avl_comp_default_comp v : TotalComp (avl_comp_default v).
Proof. destruct v; exact _. Qed.

#[export] Instance ip_key_tree (v : ip_family) : KeyTree ip_addr (avl_tree ip_addr) :=
  avl_key_tree (avl_comp_default v).

#[export] Instance ip_key_tree_laws (v : ip_family) :
  KeyTreeLaws (KeyTree0 := ip_key_tree v) (comp_eq (avl_comp_default v)) (unique_wf (avl_comp_default v)) :=
  avl_key_tree_laws (avl_comp_default v).

Lemma comp_eq_ip4 x y : comp_eq (avl_comp_default AF_INET) x y <-> x = y.
Proof. unfold comp_eq; simpl; unfold avl_comp_ipv4, ip4cmp. split; [|intros ->]; case_tests. Qed.
