(* ===== verification/DupSet.v ===== *)
(** * duplicate_set.c: which messages have been processed already

    The set is a tree keyed by originator address; it is used through the
    interface [KeyTree], the entries live in a heap [dup_heap]. *)

From S2P Require Import Prelude Timer Avl IpAddr KeyTree.

Definition DUPLICATE_CLEANUP_INTERVAL : Z := 15000.
Definition DUPLICATE_CLEANUP_JITTER : Z := 25.
Definition DUPLICATE_VTIME : Z := 120000.
Definition DUP_MAX_TOO_LOW : Z := 16.

Record dup_entry := {
  dup_ip : ip_addr;
  dup_seqnr : Z;              (* uint16_t *)
  dup_too_low_counter : Z;    (* uint16_t *)
  dup_array : Z;              (* uint32_t *)
  dup_valid_until : Z;        (* uint32_t *)
}.

(** The fields of [union olsr_message] the set reads, in host order. *)
Record dup_msg := { msg_originator : ip_addr; msg_seqno : Z }.

Definition olsr_seqno_diff (seqno1 seqno2 : Z) : Z :=
  let diff := seqno1 - seqno2 in
  if diff >? Z.shiftl 1 15 then diff - Z.shiftl 1 16
  else if diff <? - Z.shiftl 1 15 then diff + Z.shiftl 1 16
  else diff.

(** What [olsr_message_is_duplicate] does to the entry it finds: the part from
    [diff = ...] on. The main address looked up there only goes to the log. *)
Definition dup_entry_seen (e : dup_entry) (seqnr : Z) : bool * dup_entry :=
  let set seq low arr :=
    {| dup_ip := dup_ip e; dup_seqnr := seq; dup_too_low_counter := low; dup_array := arr;
       dup_valid_until := dup_valid_until e |} in
  let diff := olsr_seqno_diff seqnr (dup_seqnr e) in
  if diff <? -31 then
    let low := u16 (dup_too_low_counter e + 1) in
    if low >? DUP_MAX_TOO_LOW then (false, set seqnr 0 1)
    else (true, set (dup_seqnr e) low (dup_array e))
  else if diff <=? 0 then
    let bitmask := shl32 1 (- diff) in
    if negb (Z.land (dup_array e) bitmask =? 0) then (true, set (dup_seqnr e) 0 (dup_array e))
    else (false, set (dup_seqnr e) 0 (Z.lor (dup_array e) bitmask))
  else if diff <? 32 then (false, set seqnr 0 (Z.lor (shl32 (dup_array e) diff) 1))
  else (false, set seqnr 0 (Z.lor 0 1)).

Definition dup_refresh (valid_until : Z) (e : dup_entry) : dup_entry :=
  {| dup_ip := dup_ip e; dup_seqnr := dup_seqnr e; dup_too_low_counter := dup_too_low_counter e;
     dup_array := dup_array e;
     dup_valid_until := if valid_until >? dup_valid_until e then valid_until else dup_valid_until e |}.

Section dup_set.
Context {T : Type} `{!KeyTree ip_addr T}.

Record dup_state := {
  duplicate_set : T;
  dup_heap : gmap positive dup_entry;
}.

Definition olsr_init_duplicate_set : dup_state := {| duplicate_set := kt_init; dup_heap := ∅ |}.

Definition olsr_create_duplicate_entry (ip : ip_addr) (seqnr : Z) : dup_entry :=
  {| dup_ip := ip; dup_seqnr := seqnr; dup_too_low_counter := 0; dup_array := 0;
     dup_valid_until := 0 |}.

Definition set_valid_until (t : Z) (e : dup_entry) : dup_entry :=
  {| dup_ip := dup_ip e; dup_seqnr := dup_seqnr e; dup_too_low_counter := dup_too_low_counter e;
     dup_array := dup_array e; dup_valid_until := t |}.

(** [None]: the tree holds a node that is not allocated. *)
Definition olsr_message_is_duplicate (now : Z) (st : dup_state) (m : dup_msg)
  : option (bool * dup_state) :=
  let valid_until := olsr_getTimestamp now DUPLICATE_VTIME in
  match kt_find (duplicate_set st) (msg_originator m) with
  | None =>
      let p := alloc (dup_heap st) in
      let entry := olsr_create_duplicate_entry (msg_originator m) (msg_seqno m) in
      Some (false,
        {| duplicate_set := kt_insert (duplicate_set st) p (dup_ip entry);
           dup_heap := <[p := set_valid_until valid_until entry]> (dup_heap st) |})
  | Some p =>
      entry ← dup_heap st !! p;
      let '(dup, entry) := dup_entry_seen (dup_refresh valid_until entry) (msg_seqno m) in
      Some (dup, {| duplicate_set := duplicate_set st; dup_heap := <[p := entry]> (dup_heap st) |})
  end.

Definition olsr_cleanup_duplicates (st : dup_state) (orig : ip_addr) : dup_state :=
  match kt_find (duplicate_set st) orig with
  | Some p =>
      {| duplicate_set := duplicate_set st;
         dup_heap := alter (fun e =>
           {| dup_ip := dup_ip e; dup_seqnr := dup_seqnr e; dup_too_low_counter := DUP_MAX_TOO_LOW - 2;
              dup_array := dup_array e; dup_valid_until := dup_valid_until e |}) p (dup_heap st) |}
  | None => st
  end.

(** The body of [OLSR_FOR_ALL_DUP_ENTRIES]; the macro fetches the next node
    before the body runs, so the loop visits the nodes of the initial walk. *)
Definition cleanup_one (now : Z) (st : dup_state) (n : positive * ip_addr) : option dup_state :=
  entry ← dup_heap st !! fst n;
  if olsr_isTimedOut now (dup_valid_until entry) then
    Some {| duplicate_set := kt_delete (duplicate_set st) (fst n) (snd n);
            dup_heap := delete (fst n) (dup_heap st) |}
  else Some st.

Definition olsr_cleanup_duplicate_entry (now : Z) (st : dup_state) : option dup_state :=
  foldlM (cleanup_one now) st (kt_walk (duplicate_set st)).

End dup_set.

Arguments dup_state : clear implicits.

(** ** Sequence numbers *)

(** [olsr_seqno_diff] is the signed distance on the 2^16 circle: antisymmetric,
    congruent to the difference, between -32768 and 32768. *)
Theorem olsr_seqno_diff_correct a b :
  is_u16 a -> is_u16 b ->
  olsr_seqno_diff a b = - olsr_seqno_diff b a /\
  u16 (b + olsr_seqno_diff a b) = a /\
  -32768 <= olsr_seqno_diff a b <= 32768.
Proof.
  intros Ha Hb. unfold olsr_seqno_diff. eval_pow. unfold is_u16, u16 in *.
  repeat match goal with |- context [if ?b then _ else _] => destruct b eqn:?; bool_hyps end;
    split_and!; olia.
Qed.

Lemma olsr_seqno_diff_correct_witness :
  olsr_seqno_diff 3 65530 = 9 /\ olsr_seqno_diff 3 65530 = - olsr_seqno_diff 65530 3.
Proof.
  split; [reflexivity|].
  assert (is_u16 3) as H1 by (unfold is_u16; lia). assert (is_u16 65530) as H2 by (unfold is_u16; lia).
  exact (proj1 (olsr_seqno_diff_correct 3 65530 H1 H2)).
Defined.

(** ** One originator *)

Definition entry_ok (e : dup_entry) : Prop :=
  is_u16 (dup_seqnr e) /\ is_u32 (dup_array e) /\ 0 <= dup_too_low_counter e <= DUP_MAX_TOO_LOW.

(** The entry knows that [s], [d] behind the newest number, has been processed;
    beyond the 32 recorded numbers everything counts as processed. *)
Definition remembers (e : dup_entry) (s d : Z) : Prop :=
  u16 (dup_seqnr e - s) = d /\ d <= 32767 /\ (d <= 31 -> Z.testbit (dup_array e) d = true).

(** The entry takes [s] for the first message of a restarted node. *)
Definition restarts (e : dup_entry) (s : Z) : bool :=
  (olsr_seqno_diff s (dup_seqnr e) <? -31) && (DUP_MAX_TOO_LOW <=? dup_too_low_counter e).

Definition advance (e : dup_entry) (s : Z) : Z := Z.max 0 (olsr_seqno_diff s (dup_seqnr e)).

Lemma seqno_diff_range a b :
  is_u16 a -> is_u16 b ->
  -32768 <= olsr_seqno_diff a b <= 32768 /\
  exists k, olsr_seqno_diff a b = a - b + 65536 * k /\ -1 <= k <= 1.
Proof.
  intros Ha Hb. unfold olsr_seqno_diff. eval_pow. unfold is_u16 in *.
  repeat match goal with |- context [if ?b then _ else _] => destruct b eqn:?; bool_hyps end;
    (split; [lia|]); [exists (-1)|exists 1|exists 0]; lia.
Qed.

Lemma shl32_testbit x n d :
  0 <= n -> 0 <= d -> Z.testbit (shl32 x n) d = (d <? 32) && (if d <? n then false else Z.testbit x (d - n)).
Proof.
  intros Hn Hd. unfold shl32, u32. change 4294967296 with (2 ^ 32).
  destruct (d <? 32) eqn:E; bool_hyps.
  - rewrite Z.mod_pow2_bits_low by lia. rewrite Z.shiftl_spec by lia.
    case_test; [by rewrite Z.testbit_neg_r by lia|done].
  - by rewrite Z.mod_pow2_bits_high by lia.
Qed.

Lemma land_bit_zero x d : 0 <= d -> d <= 31 -> (Z.land x (shl32 1 d) =? 0) = negb (Z.testbit x d).
Proof.
  intros Hd Hd'. assert (shl32 1 d = 2 ^ d) as ->.
  { rewrite shl32_pow; [lia|done|]. unfold is_u32. change 4294967296 with (2 ^ 32).
    pose proof (Z.pow_pos_nonneg 2 d). pose proof (Z.pow_lt_mono_r 2 d 32). lia. }
  destruct (Z.testbit x d) eqn:E; simpl; apply eq_true_iff_eq; rewrite Z.eqb_eq.
  - split; [|done]. intros H. apply (f_equal (fun y => Z.testbit y d)) in H.
    rewrite Z.land_spec, E, Z.pow2_bits_true, Z.bits_0 in H by lia. done.
  - split; [done|]. intros _. apply Z.bits_inj'. intros k Hk. rewrite Z.land_spec, Z.bits_0.
    destruct (Z.eq_dec k d) as [->|Hn]; [by rewrite E|]. by rewrite Z.pow2_bits_false, andb_false_r by lia.
Qed.

Lemma u32_lor x y : is_u32 x -> is_u32 y -> is_u32 (Z.lor x y).
Proof.
  unfold is_u32. change 4294967296 with (2 ^ 32). intros Hx Hy.
  split; [apply Z.lor_nonneg; lia|].
  destruct (Z.eq_dec (Z.lor x y) 0) as [->|Hz]; [lia|].
  assert (0 <= Z.lor x y) by (apply Z.lor_nonneg; lia).
  apply Z.log2_lt_pow2; [lia|]. rewrite Z.log2_lor by lia.
  assert (forall z, 0 <= z < 2 ^ 32 -> Z.log2 z < 32) as Hl.
  { intros z Hz'. destruct (Z.eq_dec z 0) as [->|]; [simpl; lia|]. apply Z.log2_lt_pow2; lia. }
  pose proof (Hl x Hx). pose proof (Hl y Hy). lia.
Qed.

(** Case analysis on the branches of [dup_entry_seen]. *)
Ltac seen_cases :=
  unfold dup_entry_seen; cbv zeta;
  repeat match goal with
  | |- context [if ?b then _ else _] => destruct b eqn:?; bool_hyps
  end; simpl.

Lemma seen_ok e s : entry_ok e -> is_u16 s -> entry_ok (snd (dup_entry_seen e s)).
Proof.
  intros (H1 & H2 & H3) Hs. unfold DUP_MAX_TOO_LOW in *.
  seen_cases; split_and!; simpl; try done; unfold DUP_MAX_TOO_LOW in *; try lia; try apply u32_lor;
    try apply u32_range; try done; try (unfold is_u32; lia); olia.
Qed.

(** One more message: what was remembered stays remembered. *)
Lemma remembers_step e s d m :
  entry_ok e -> is_u16 s -> is_u16 m -> restarts e m = false ->
  remembers e s d -> d + advance e m <= 32767 ->
  remembers (snd (dup_entry_seen e m)) s (d + advance e m).
Proof.
  intros (H1 & H2 & H3) Hs Hm Hr (Hd & Hd' & Hb) Ha. unfold restarts, advance in *.
  destruct (seqno_diff_range m (dup_seqnr e) Hm H1) as (Hdr & k & Hk & Hk').
  set (diff := olsr_seqno_diff m (dup_seqnr e)) in *.
  assert (0 <= d) as Hd0 by olia.
  unfold dup_entry_seen. cbv zeta. fold diff. unfold DUP_MAX_TOO_LOW in *.
  destruct (diff <? -31) eqn:E1; bool_hyps.
  - destruct (u16 (dup_too_low_counter e + 1) >? 16) eqn:E2; bool_hyps; [exfalso; destruct Hr; bool_hyps; olia|].
    simpl. rewrite Z.max_l, Z.add_0_r by lia. done.
  - destruct (diff <=? 0) eqn:E2; bool_hyps.
    + rewrite Z.max_l, Z.add_0_r by lia.
      destruct (negb _); simpl; split_and!; simpl; try done.
      intros Hl. by rewrite Z.lor_spec, Hb.
    + rewrite Z.max_r in * by lia. destruct (diff <? 32) eqn:E3; bool_hyps; simpl; split_and!; simpl; try olia.
      intros Hl. rewrite Z.lor_spec, shl32_testbit by lia.
      replace (d + diff <? 32) with true by lia. replace (d + diff <? diff) with false by lia.
      simpl. replace (d + diff - diff) with d by lia. by rewrite Hb by lia.
Qed.

Lemma remembers_seen e s d :
  entry_ok e -> is_u16 s -> remembers e s d -> restarts e s = false ->
  fst (dup_entry_seen e s) = true.
Proof.
  intros (H1 & H2 & H3) Hs (Hd & Hd' & Hb) Hr. unfold restarts in Hr.
  destruct (seqno_diff_range s (dup_seqnr e) Hs H1) as (Hdr & k & Hk & Hk').
  set (diff := olsr_seqno_diff s (dup_seqnr e)) in *.
  assert (diff = - d) as Hdiff by olia.
  unfold dup_entry_seen. cbv zeta. fold diff. unfold DUP_MAX_TOO_LOW in *.
  destruct (diff <? -31) eqn:E1; bool_hyps.
  - destruct (u16 (dup_too_low_counter e + 1) >? 16) eqn:E2; bool_hyps; [exfalso; destruct Hr; bool_hyps; olia|done].
  - destruct (diff <=? 0) eqn:E2; bool_hyps; [|olia].
    rewrite land_bit_zero by olia. replace (- diff) with d by lia. by rewrite Hb by lia.
Qed.

(** An accepted message is remembered at once. *)
Lemma accepted_remembered e s :
  entry_ok e -> is_u16 s -> fst (dup_entry_seen e s) = false ->
  exists d, d <= 31 /\ remembers (snd (dup_entry_seen e s)) s d.
Proof.
  intros (H1 & H2 & H3) Hs.
  destruct (seqno_diff_range s (dup_seqnr e) Hs H1) as (Hdr & k & Hk & Hk').
  unfold dup_entry_seen. cbv zeta.
  set (diff := olsr_seqno_diff s (dup_seqnr e)) in *.
  destruct (diff <? -31) eqn:E1; bool_hyps; [destruct (_ >? _) eqn:E2; bool_hyps; [|done]|].
  - intros _. exists 0. split; [lia|]. split_and!; simpl; [olia|lia|done].
  - destruct (diff <=? 0) eqn:E2; bool_hyps; [destruct (negb _); [done|]|destruct (diff <? 32) eqn:E3; bool_hyps]; simpl; intros _.
    + exists (- diff). split; [lia|]. split_and!; simpl; [olia|lia|]. intros _.
      rewrite Z.lor_spec, shl32_testbit by lia. replace (- diff <? 32) with true by lia.
      rewrite Z.ltb_irrefl, Z.sub_diag. by rewrite orb_true_r.
    + exists 0. split; [lia|]. split_and!; simpl; [olia|lia|]. intros _.
      by rewrite <- Z.bit0_odd, Z.lor_spec, orb_true_r.
    + exists 0. split; [lia|]. split_and!; simpl; [olia|lia|done].
Qed.

(** The entry after a sequence of messages, and by how much its newest number has
    advanced; [None] when one of them is taken for a restart. *)
Fixpoint history (e : dup_entry) (ms : list Z) : option (dup_entry * Z) :=
  match ms with
  | [] => Some (e, 0)
  | m :: ms =>
      if restarts e m then None
      else '(e', a) ← history (snd (dup_entry_seen e m)) ms; Some (e', advance e m + a)
  end.

Lemma history_nonneg ms e e' a : history e ms = Some (e', a) -> 0 <= a.
Proof.
  revert e e' a. induction ms as [|m ms IH]; simpl; intros e e' a E; [by injection E as _ <-|].
  destruct (restarts e m); [done|]. destruct (history _ ms) as [[e2 a2]|] eqn:E2; simpl in E; [|done].
  injection E as _ <-. specialize (IH _ _ _ E2). unfold advance. lia.
Qed.

Lemma history_remembers ms e s d e' a :
  entry_ok e -> is_u16 s -> Forall is_u16 ms -> remembers e s d ->
  history e ms = Some (e', a) -> d + a <= 32767 -> entry_ok e' /\ 0 <= a /\ remembers e' s (d + a).
Proof.
  revert e d a. induction ms as [|m ms IH]; simpl; intros e d a He Hs Hms Hr Hh Ha.
  - injection Hh as <- <-. by rewrite Z.add_0_r.
  - apply Forall_cons in Hms as [Hm Hms].
    destruct (restarts e m) eqn:Er; [done|].
    destruct (history (snd (dup_entry_seen e m)) ms) as [[e1 a1]|] eqn:E1; simpl in Hh; [|done].
    injection Hh as <- <-.
    assert (0 <= a1) as Ha1.
    { by eapply history_nonneg. }
    assert (0 <= advance e m) by (unfold advance; lia).
    destruct (IH (snd (dup_entry_seen e m)) (d + advance e m) a1) as (H1 & H2 & H3); try done.
    + by apply seen_ok.
    + apply remembers_step; try done. lia.
    + lia.
    + split; [done|]. split; [lia|]. by rewrite Z.add_assoc.
Qed.

(** C30: no message is processed twice. Once [s] has been accepted from an
    originator that has an entry, every later copy of [s] is a duplicate, whatever
    other messages came in between, as long as none was taken for a restart and the
    newest sequence number has not moved on by half the sequence space. *)
Theorem dup_no_double_processing e s ms e' a :
  entry_ok e -> is_u16 s -> Forall is_u16 ms ->
  fst (dup_entry_seen e s) = false ->
  history (snd (dup_entry_seen e s)) ms = Some (e', a) -> a <= 32736 ->
  restarts e' s = false ->
  fst (dup_entry_seen e' s) = true.
Proof.
  intros He Hs Hms Hacc Hh Ha Hr.
  destruct (accepted_remembered e s He Hs Hacc) as (d & Hd & Hrem).
  destruct (history_remembers ms _ s d e' a (seen_ok _ _ He Hs) Hs Hms Hrem Hh) as (H1 & H2 & H3); [lia|].
  by eapply remembers_seen.
Qed.

Definition sample_entry : dup_entry :=
  {| dup_ip := 1; dup_seqnr := 65530; dup_too_low_counter := 0; dup_array := 1; dup_valid_until := 0 |}.

Lemma sample_entry_ok : entry_ok sample_entry.
Proof. unfold entry_ok, is_u16, is_u32, DUP_MAX_TOO_LOW; simpl. lia. Qed.

(** 65533 accepted, then 2 and 40 (across the wrap-around), then 65533 again. *)
Lemma dup_no_double_processing_witness :
  fst (dup_entry_seen sample_entry 65533) = false /\
  exists e', history (snd (dup_entry_seen sample_entry 65533)) [2; 40] = Some (e', 43) /\
    fst (dup_entry_seen e' 65533) = true.
Proof.
  split; [reflexivity|]. eexists. split; [reflexivity|].
  eapply (dup_no_double_processing sample_entry 65533 [2; 40] _ 43).
  - apply sample_entry_ok.
  - unfold is_u16; lia.
  - repeat constructor; unfold is_u16; lia.
  - reflexivity.
  - reflexivity.
  - lia.
  - reflexivity.
Defined.

(** ** The whole set *)
Section dup_set_spec.
Context {T : Type} {keq : ip_addr -> ip_addr -> Prop} {kt_wf : T -> Prop}.
Context `{!KeyTree ip_addr T, L : !KeyTreeLaws keq kt_wf}.

#[local] Existing Instance kt_keq.

(** Tree and heap agree. *)
Record dup_wf (st : dup_state T) : Prop := {
  dup_tree_wf : kt_wf (duplicate_set st);
  dup_alloc p : p ∈ map fst (kt_walk (duplicate_set st)) <-> is_Some (dup_heap st !! p);
  dup_entry_ok p e : dup_heap st !! p = Some e -> entry_ok e;
}.

(** The entry of an originator. *)
Definition dup_lookup (st : dup_state T) (orig : ip_addr) : option dup_entry :=
  p ← kt_find (duplicate_set st) orig; dup_heap st !! p.

Lemma dup_wf_init : dup_wf olsr_init_duplicate_set.
Proof.
  split; simpl.
  - apply (kt_wf_init (keq := keq)).
  - intros p. rewrite (kt_walk_init (keq := keq) (kt_wf := kt_wf)). simpl.
    split; [by intros ?%not_elem_of_nil|]. intros [x Hx]. by rewrite lookup_empty in Hx.
  - intros p e. by rewrite lookup_empty.
Qed.

Lemma dup_found st k p :
  dup_wf st -> kt_find (duplicate_set st) k = Some p -> is_Some (dup_heap st !! p).
Proof.
  intros Hwf Hf. apply (dup_alloc st Hwf).
  apply (kt_find_Some (keq := keq)) in Hf as (k' & _ & H); [|apply Hwf].
  by apply (list_elem_of_fmap_2 fst) in H.
Qed.

Lemma dup_insert_fresh st :
  dup_wf st -> alloc (dup_heap st) ∉ map fst (kt_walk (duplicate_set st)).
Proof. intros Hwf H. apply (dup_alloc st Hwf) in H as [e He]. by rewrite alloc_fresh in He. Qed.

Lemma dup_step st p e' :
  dup_wf st -> is_Some (dup_heap st !! p) -> entry_ok e' ->
  dup_wf {| duplicate_set := duplicate_set st; dup_heap := <[p := e']> (dup_heap st) |}.
Proof.
  intros [H1 H2 H3] [e He] Hok. split; simpl; [done|..].
  - intros q. rewrite H2. destruct (decide (p = q)) as [->|Hn].
    + rewrite lookup_insert_eq. split; [by eexists|]. intros _. by eexists.
    + by rewrite lookup_insert_ne.
  - intros q e0. rewrite lookup_insert_Some. intros [[_ <-]|[_ H]]; [done|]. by eapply H3.
Qed.

(** Finding the same node means having the same key. *)
Lemma dup_find_inj st k k' p :
  dup_wf st -> kt_find (duplicate_set st) k = Some p -> kt_find (duplicate_set st) k' = Some p -> keq k k'.
Proof.
  intros Hwf Hk Hk'. pose proof (dup_tree_wf st Hwf) as Ht.
  apply (kt_find_Some (keq := keq)) in Hk as (k1 & H1 & E1); [|done].
  apply (kt_find_Some (keq := keq)) in Hk' as (k2 & H2 & E2); [|done].
  assert (k1 = k2) as ->; [|by rewrite <- H1].
  pose proof (kt_wf_nodup (keq := keq) _ Ht) as Hnd.
  apply list_elem_of_lookup in E1 as [i Hi], E2 as [j Hj].
  assert (i = j) as ->; [|congruence].
  eapply (NoDup_lookup _ _ _ p Hnd); rewrite list_lookup_fmap; [by rewrite Hi|by rewrite Hj].
Qed.

(** What a message does to the set. *)
Lemma is_duplicate_step now st m :
  dup_wf st -> is_u16 (msg_seqno m) ->
  exists dup st', olsr_message_is_duplicate now st m = Some (dup, st') /\ dup_wf st' /\
    match dup_lookup st (msg_originator m) with
    | Some e =>
        let r := dup_entry_seen (dup_refresh (olsr_getTimestamp now DUPLICATE_VTIME) e) (msg_seqno m) in
        dup = fst r /\ dup_lookup st' (msg_originator m) = Some (snd r)
    | None =>
        dup = false /\ exists e, dup_lookup st' (msg_originator m) = Some e /\
          dup_seqnr e = msg_seqno m /\ dup_array e = 0
    end /\
    forall k, ~ keq (msg_originator m) k -> dup_lookup st' k = dup_lookup st k.
Proof.
  intros Hwf Hs. pose proof Hwf as [Ht Ha He]. unfold olsr_message_is_duplicate, dup_lookup.
  destruct (kt_find (duplicate_set st) (msg_originator m)) as [p|] eqn:Ef; simpl.
  - destruct (dup_found st _ p Hwf Ef) as [e Hp]. rewrite Hp. simpl.
    pose proof (He _ _ Hp) as Hok.
    destruct (dup_entry_seen (dup_refresh _ e) (msg_seqno m)) as [dup e'] eqn:Eseen.
    eexists _, _. split; [done|]. split; [|split; [|]]; simpl.
    + apply dup_step; [done|by eexists|]. change e' with (snd (dup, e')). rewrite <- Eseen.
      by apply seen_ok.
    + rewrite Ef. simpl. by rewrite lookup_insert_eq.
    + intros k Hk. destruct (kt_find (duplicate_set st) k) as [q|] eqn:Eq; simpl; [|done].
      rewrite lookup_insert_ne; [done|]. intros ->. apply Hk. by eapply dup_find_inj.
  - eexists _, _. split; [done|]. pose proof (dup_insert_fresh st Hwf) as Hfr.
    destruct (kt_insert_wf (keq := keq) _ _ _ Ht Ef Hfr) as [Hwf' Hw].
    split; [split; simpl; [done|..]|split; [split; [done|]|]]; simpl.
    + intros q. rewrite Hw. simpl. rewrite elem_of_cons, Ha.
      destruct (decide (q = alloc (dup_heap st))) as [->|Hn].
      * rewrite lookup_insert_eq. split; [by eexists|by left].
      * rewrite lookup_insert_ne by done. tauto.
    + intros q e. rewrite lookup_insert_Some. intros [[_ <-]|[_ H]]; [|by eapply He].
      unfold entry_ok, DUP_MAX_TOO_LOW, is_u32; simpl. split; [done|]. lia.
    + rewrite (kt_find_insert_eq (keq := keq) _ _ _ _ Ht Ef Hfr); [|by reflexivity].
      simpl. rewrite lookup_insert_eq. by eexists.
    + intros k Hk. rewrite (kt_find_insert_ne (keq := keq) _ _ _ _ Ht Ef Hfr Hk).
      destruct (kt_find (duplicate_set st) k) as [q|] eqn:Eq; simpl; [|done].
      destruct (dup_found st _ q Hwf Eq) as [e Hq]. rewrite lookup_insert_ne; [done|].
      intros <-. by rewrite alloc_fresh in Hq.
Qed.

(** [olsr_message_is_duplicate] never touches unallocated memory, keeps the set
    consistent, answers for the originator's entry as [dup_entry_seen] does, and
    leaves the entries of all other originators alone. *)
Theorem olsr_message_is_duplicate_correct now st m :
  dup_wf st -> is_u16 (msg_seqno m) ->
  exists dup st', olsr_message_is_duplicate now st m = Some (dup, st') /\ dup_wf st' /\
    match dup_lookup st (msg_originator m) with
    | Some e =>
        let r := dup_entry_seen (dup_refresh (olsr_getTimestamp now DUPLICATE_VTIME) e) (msg_seqno m) in
        dup = fst r /\ dup_lookup st' (msg_originator m) = Some (snd r)
    | None =>
        dup = false /\ exists e, dup_lookup st' (msg_originator m) = Some e /\
          dup_seqnr e = msg_seqno m /\ dup_array e = 0
    end /\
    forall k, ~ keq (msg_originator m) k -> dup_lookup st' k = dup_lookup st k.
Proof. apply is_duplicate_step. Qed.

(** the first message of a new originator is accepted twice: the entry is
    created with an empty bit array, so the copy of it that arrives over another
    neighbour finds its own bit unset. Only the third copy is a duplicate. *)
Theorem dup_first_message_twice now st m :
  dup_wf st -> is_u16 (msg_seqno m) -> dup_lookup st (msg_originator m) = None ->
  exists st1 st2 st3,
    olsr_message_is_duplicate now st m = Some (false, st1) /\
    olsr_message_is_duplicate now st1 m = Some (false, st2) /\
    olsr_message_is_duplicate now st2 m = Some (true, st3).
Proof.
  intros Hwf Hs Hn.
  destruct (is_duplicate_step now st m Hwf Hs) as (d1 & st1 & E1 & Hwf1 & H1 & _).
  rewrite Hn in H1. destruct H1 as (-> & e1 & Hl1 & Hseq & Harr).
  destruct (is_duplicate_step now st1 m Hwf1 Hs) as (d2 & st2 & E2 & Hwf2 & H2 & _).
  rewrite Hl1 in H2. cbv zeta in H2.
  assert (forall e, dup_seqnr e = msg_seqno m -> dup_entry_seen e (msg_seqno m) =
    (Z.testbit (dup_array e) 0,
     {| dup_ip := dup_ip e; dup_seqnr := dup_seqnr e; dup_too_low_counter := 0;
        dup_array := if Z.testbit (dup_array e) 0 then dup_array e else Z.lor (dup_array e) 1;
        dup_valid_until := dup_valid_until e |})) as Hsame.
  { intros e <-. unfold dup_entry_seen.
    assert (olsr_seqno_diff (dup_seqnr e) (dup_seqnr e) = 0) as ->
      by (unfold olsr_seqno_diff; by rewrite Z.sub_diag).
    change (- 0) with 0. cbv zeta. rewrite (land_bit_zero (dup_array e) 0) by lia.
    rewrite negb_involutive. simpl.
    by destruct (Z.odd (dup_array e)). }
  rewrite Hsame in H2 by done. simpl in H2. rewrite Harr in H2. simpl in H2. destruct H2 as [-> Hl2].
  destruct (is_duplicate_step now st2 m Hwf2 Hs) as (d3 & st3 & E3 & _ & H3 & _).
  rewrite Hl2 in H3. cbv zeta in H3. rewrite Hsame in H3 by done. simpl in H3. destruct H3 as [-> _].
  by exists st1, st2, st3.
Qed.

(** One step of the cleanup: only the timed out entry under the cursor goes. *)
Lemma cleanup_one_correct now st p k :
  dup_wf st -> (p, k) ∈ kt_walk (duplicate_set st) ->
  exists e st', dup_heap st !! p = Some e /\ cleanup_one now st (p, k) = Some st' /\ dup_wf st' /\
    (forall q x, q <> p -> (q, x) ∈ kt_walk (duplicate_set st) -> (q, x) ∈ kt_walk (duplicate_set st')) /\
    (forall k', let gone := bool_decide (kt_find (duplicate_set st) k' = Some p) &&
         olsr_isTimedOut now (dup_valid_until e) in
       kt_find (duplicate_set st') k' = (if gone then None else kt_find (duplicate_set st) k') /\
       (gone = false -> dup_lookup st' k' = dup_lookup st k')).
Proof.
  intros Hwf Hin. pose proof Hwf as [Ht Ha He].
  assert (is_Some (dup_heap st !! p)) as [e Hp].
  { apply Ha. by apply (list_elem_of_fmap_2 fst) in Hin. }
  exists e. unfold cleanup_one. simpl. rewrite Hp. simpl.
  destruct (olsr_isTimedOut now (dup_valid_until e)).
  - eexists. split; [done|]. split; [done|].
    destruct (kt_delete_wf (keq := keq) _ _ _ Ht Hin) as [Ht' Hw].
    pose proof (kt_wf_nodup (keq := keq) _ Ht) as Hnd. rewrite Hw in Hnd. simpl in Hnd.
    apply NoDup_cons in Hnd as [Hnp _].
    split; [split; simpl; [done|..]|split]; simpl.
    + intros q. specialize (Ha q). rewrite Hw in Ha. simpl in Ha. rewrite elem_of_cons in Ha.
      destruct (decide (q = p)) as [->|Hn].
      * rewrite lookup_delete_eq. split; [done|]. by intros [? ?].
      * rewrite lookup_delete_ne by done. rewrite <- Ha. naive_solver.
    + intros q e'. rewrite lookup_delete_Some. intros [_ H]. by eapply He.
    + intros q x Hq. rewrite Hw. intros [[= -> ->]|?]%elem_of_cons; done.
    + intros k'. unfold dup_lookup. simpl. rewrite andb_true_r.
      assert (kt_find (duplicate_set st) k = Some p) as Hk.
      { apply (kt_find_Some (keq := keq)); [done|]. by exists k. }
      case_bool_decide as E.
      * rewrite (kt_find_delete_eq (keq := keq) (kt_wf := kt_wf)); [done|done|done|].
        by eapply dup_find_inj.
      * rewrite (kt_find_delete_ne (keq := keq) (kt_wf := kt_wf) _ _ _ _ Ht Hin).
        -- split; [done|]. intros _. destruct (kt_find (duplicate_set st) k') as [q|]; simpl; [|done].
           rewrite lookup_delete_ne; [done|]. congruence.
        -- intros Hkk. apply E. by rewrite <- (kt_find_keq (keq := keq) _ _ _ Ht Hkk).
  - eexists. split; [done|]. split; [done|]. split; [done|]. split; [done|].
    intros k'. rewrite andb_false_r. done.
Qed.

(** the cleanup timer removes exactly the timed out entries, keeps the others,
    and never touches unallocated memory although it deletes while it walks. *)
Theorem olsr_cleanup_duplicate_entry_correct now st :
  dup_wf st ->
  exists st', olsr_cleanup_duplicate_entry now st = Some st' /\ dup_wf st' /\
    forall k, dup_lookup st' k =
      e ← dup_lookup st k; if olsr_isTimedOut now (dup_valid_until e) then None else Some e.
Proof.
  intros Hwf. unfold olsr_cleanup_duplicate_entry.
  pose (I := fun (l : list (positive * ip_addr)) (s : dup_state T) =>
    dup_wf s /\ NoDup (map fst l) /\ (forall q x, (q, x) ∈ l -> (q, x) ∈ kt_walk (duplicate_set s)) /\
    forall k, match kt_find (duplicate_set s) k with
      | Some p => dup_lookup st k = dup_lookup s k /\
          (p ∈ map fst l \/ exists e, dup_lookup s k = Some e /\ olsr_isTimedOut now (dup_valid_until e) = false)
      | None => dup_lookup st k = None \/ exists e, dup_lookup st k = Some e /\ olsr_isTimedOut now (dup_valid_until e) = true
      end).
  destruct (foldlM_inv (cleanup_one now) I (kt_walk (duplicate_set st)) st) as (st' & Hrun & Hwf' & _ & _ & Hl).
  - split; [done|]. split; [apply (kt_wf_nodup (keq := keq)), Hwf|]. split; [done|].
    intros k. destruct (kt_find (duplicate_set st) k) as [p|] eqn:E; [|left; unfold dup_lookup; by rewrite E].
    split; [done|]. left. apply (dup_alloc st Hwf). by eapply dup_found.
  - intros [p x] l s (Hs & Hnd & Hin & Hk). simpl in Hnd. apply NoDup_cons in Hnd as [Hnp Hnd].
    destruct (cleanup_one_correct now s p x Hs) as (e & s' & Hp & Hc & Hs' & Hkeep & Hlook); [apply Hin; left|].
    exists s'. split; [done|]. split; [done|]. split; [done|]. split.
    + intros q y Hq. apply Hkeep; [|apply Hin; by right]. intros ->. apply Hnp.
      by apply (list_elem_of_fmap_2 fst) in Hq.
    + intros k. specialize (Hk k). specialize (Hlook k).
      destruct (kt_find (duplicate_set s) k) as [q|] eqn:Eq.
      2: { rewrite bool_decide_eq_false_2 in Hlook by done. simpl in Hlook. destruct Hlook as [-> _]. done. }
      destruct Hk as [Hst Hq]. case_bool_decide as E; simpl in Hlook.
      * injection E as ->. assert (dup_lookup s k = Some e) as Hse.
        { unfold dup_lookup. rewrite Eq. done. }
        destruct (olsr_isTimedOut now (dup_valid_until e)) eqn:Et; destruct Hlook as [-> Hl].
        -- right. exists e. by rewrite Hst.
        -- rewrite Hl by done. split; [done|]. right. by exists e.
      * destruct Hlook as [-> Hl]. rewrite Hl by done. split; [done|].
        destruct Hq as [Hq|?]; [|by right]. apply elem_of_cons in Hq as [->|?]; [done|by left].
  - exists st'. split; [done|]. split; [done|]. intros k. specialize (Hl k).
    destruct (kt_find (duplicate_set st') k) as [p|] eqn:E.
    + destruct Hl as [-> [H|(e & He & Ht)]]; [by apply not_elem_of_nil in H|]. rewrite He. simpl. by rewrite Ht.
    + assert (dup_lookup st' k = None) as -> by (unfold dup_lookup; by rewrite E).
      destruct Hl as [->|(e & -> & Ht)]; simpl; [done|]. by rewrite Ht.
Qed.

End dup_set_spec.

(** ** Witnesses: the set over the trees of avl.c, IPv4 *)

#[local] Existing Instance ip_key_tree.

Definition dup_msg_of (orig seq : Z) : dup_msg := {| msg_originator := orig; msg_seqno := seq |}.

Definition empty_set : dup_state (avl_tree ip_addr) :=
  olsr_init_duplicate_set (KeyTree0 := ip_key_tree AF_INET).

Lemma empty_set_wf : dup_wf (KeyTree0 := ip_key_tree AF_INET) (kt_wf := unique_wf (avl_comp_default AF_INET)) empty_set.
Proof. apply (dup_wf_init (L := ip_key_tree_laws AF_INET)). Qed.

Lemma u16_7 : is_u16 (msg_seqno (dup_msg_of 9 7)).
Proof. unfold is_u16; simpl; lia. Qed.

Lemma olsr_message_is_duplicate_correct_witness :
  exists st', olsr_message_is_duplicate (KeyTree0 := ip_key_tree AF_INET) 100 empty_set (dup_msg_of 9 7)
    = Some (false, st').
Proof.
  destruct (olsr_message_is_duplicate_correct (L := ip_key_tree_laws AF_INET) 100 empty_set
    (dup_msg_of 9 7) empty_set_wf u16_7) as (d & st' & E & _ & H & _).
  exists st'. rewrite E. f_equal. f_equal. exact (proj1 H).
Defined.

Lemma dup_first_message_twice_witness :
  exists st1 st2, olsr_message_is_duplicate (KeyTree0 := ip_key_tree AF_INET) 100 empty_set (dup_msg_of 9 7)
      = Some (false, st1) /\
    olsr_message_is_duplicate (KeyTree0 := ip_key_tree AF_INET) 100 st1 (dup_msg_of 9 7) = Some (false, st2).
Proof.
  destruct (dup_first_message_twice (L := ip_key_tree_laws AF_INET) 100 empty_set (dup_msg_of 9 7)
    empty_set_wf u16_7 eq_refl) as (st1 & st2 & st3 & E1 & E2 & _).
  exists st1, st2. split; [exact E1|exact E2].
Defined.

(** The set after one message of node 9 at time 100. *)
Definition sample_set : dup_state (avl_tree ip_addr) :=
  match olsr_message_is_duplicate (KeyTree0 := ip_key_tree AF_INET) 100 empty_set (dup_msg_of 9 7) with
  | Some (_, st) => st
  | None => empty_set
  end.

Lemma sample_set_wf : dup_wf (KeyTree0 := ip_key_tree AF_INET) (kt_wf := unique_wf (avl_comp_default AF_INET)) sample_set.
Proof.
  destruct (is_duplicate_step (L := ip_key_tree_laws AF_INET) 100 empty_set (dup_msg_of 9 7)
    empty_set_wf u16_7) as (d & st' & E & Hwf & _).
  unfold sample_set. by rewrite E.
Qed.

(** Kept at 120099, removed at 120100. *)
Lemma olsr_cleanup_duplicate_entry_correct_witness :
  (exists st', olsr_cleanup_duplicate_entry (KeyTree0 := ip_key_tree AF_INET) 120099 sample_set = Some st' /\
    is_Some (dup_lookup (KeyTree0 := ip_key_tree AF_INET) st' 9)) /\
  (exists st', olsr_cleanup_duplicate_entry (KeyTree0 := ip_key_tree AF_INET) 120100 sample_set = Some st' /\
    dup_lookup (KeyTree0 := ip_key_tree AF_INET) st' 9 = None).
Proof.
  split.
  - destruct (olsr_cleanup_duplicate_entry_correct (L := ip_key_tree_laws AF_INET) 120099 sample_set
      sample_set_wf) as (st' & E & _ & H).
    exists st'. split; [exact E|]. rewrite (H 9). vm_compute. by eexists.
  - destruct (olsr_cleanup_duplicate_entry_correct (L := ip_key_tree_laws AF_INET) 120100 sample_set
      sample_set_wf) as (st' & E & _ & H).
    exists st'. split; [exact E|]. rewrite (H 9). vm_compute. reflexivity.
Defined.
