(* ===== verification/Monad.v ===== *)
(** * The state monad of the stateful components

    C code that works on global tables and on heap objects is a function from the
    state to a result and a new state. [None] is an access to memory that is not
    allocated (or a loop bound that was too small): [wp m Q st] says that [m]
    terminates from [st] without such an access and ends in [Q], so that every
    theorem stated with it is a memory safety and a termination theorem too. *)

From S2P Require Import Prelude.

Definition M (S A : Type) : Type := S -> option (A * S).

Section monad.
Context {S : Type}.

Definition ret {A} (a : A) : M S A := fun st => Some (a, st).
Definition bind {A B} (m : M S A) (k : A -> M S B) : M S B := fun st =>
  match m st with Some (a, st') => k a st' | None => None end.
Definition gets {A} (f : S -> A) : M S A := fun st => Some (f st, st).
Definition gets_opt {A} (f : S -> option A) : M S A := fun st =>
  match f st with Some a => Some (a, st) | None => None end.
Definition modify (f : S -> S) : M S unit := fun st => Some (tt, f st).
Definition crash {A} : M S A := fun _ => None.
Definition unless (b : bool) (m : M S unit) : M S unit := if b then ret tt else m.
Definition when (b : bool) (m : M S unit) : M S unit := if b then m else ret tt.

Fixpoint forM_ {A} (l : list A) (body : A -> M S unit) : M S unit :=
  match l with
  | [] => ret tt
  | x :: l => bind (body x) (fun _ => forM_ l body)
  end.

(** Loops that carry local variables. *)
Fixpoint foldM {A B} (l : list A) (b : B) (body : B -> A -> M S B) : M S B :=
  match l with
  | [] => ret b
  | x :: l => bind (body b x) (fun b => foldM l b body)
  end.

(** Loops that rewrite the elements of a list. *)
Fixpoint collectM {A B} (l : list A) (body : A -> M S B) : M S (list B) :=
  match l with
  | [] => ret []
  | x :: l => bind (body x) (fun y => bind (collectM l body) (fun r => ret (y :: r)))
  end.

(** ** Total correctness *)

Definition wp {A} (m : M S A) (Q : A -> S -> Prop) (st : S) : Prop :=
  match m st with Some (a, st') => Q a st' | None => False end.

Lemma wp_ret {A} (a : A) Q st : Q a st -> wp (ret a) Q st.
Proof. done. Qed.

Lemma wp_bind {A B} (m : M S A) (k : A -> M S B) Q st :
  wp m (fun a => wp (k a) Q) st -> wp (bind m k) Q st.
Proof. unfold wp, bind. by destruct (m st) as [[a st']|]. Qed.

Lemma wp_gets {A} (f : S -> A) Q st : Q (f st) st -> wp (gets f) Q st.
Proof. done. Qed.

Lemma wp_gets_opt {A} (f : S -> option A) a (Q : A -> S -> Prop) st :
  f st = Some a -> Q a st -> wp (gets_opt f) Q st.
Proof. unfold wp, gets_opt. by intros ->. Qed.

Lemma wp_modify f (Q : unit -> S -> Prop) st : Q tt (f st) -> wp (modify f) Q st.
Proof. done. Qed.

Lemma wp_mono {A} (m : M S A) (Q Q' : A -> S -> Prop) st :
  wp m Q st -> (forall a st', Q a st' -> Q' a st') -> wp m Q' st.
Proof. unfold wp. destruct (m st) as [[a st']|]; auto. Qed.

Lemma wp_when b m (Q : unit -> S -> Prop) st :
  (b = true -> wp m Q st) -> (b = false -> Q tt st) -> wp (when b m) Q st.
Proof. destruct b; [auto|]. intros _ H. by apply wp_ret, H. Qed.

(** The loop rule: [I] holds of the elements still to be visited. *)
Lemma wp_forM {A} (l : list A) (body : A -> M S unit) (I : list A -> S -> Prop) (Q : unit -> S -> Prop) st :
  I l st ->
  (forall x l st, I (x :: l) st -> wp (body x) (fun _ => I l) st) ->
  (forall st, I [] st -> Q tt st) ->
  wp (forM_ l body) Q st.
Proof.
  intros HI Hstep HQ. revert st HI. induction l as [|x l IH]; intros st HI; simpl.
  - by apply wp_ret, HQ.
  - apply wp_bind. eapply wp_mono; [by apply Hstep|]. intros ? st' HI'. by apply IH.
Qed.

Lemma wp_foldM {A B} (l : list A) (b : B) (body : B -> A -> M S B) (I : list A -> B -> S -> Prop)
    (Q : B -> S -> Prop) st :
  I l b st ->
  (forall x l b st, I (x :: l) b st -> wp (body b x) (I l) st) ->
  (forall b st, I [] b st -> Q b st) ->
  wp (foldM l b body) Q st.
Proof.
  intros HI Hstep HQ. revert b st HI. induction l as [|x l IH]; intros b st HI; simpl.
  - by apply wp_ret, HQ.
  - apply wp_bind. eapply wp_mono; [by apply Hstep|]. intros b' st' HI'. by apply IH.
Qed.

Lemma wp_collectM {A B} (l : list A) (body : A -> M S B) (I : list A -> list B -> S -> Prop)
    (Q : list B -> S -> Prop) st :
  I l [] st ->
  (forall x l r st, I (x :: l) r st -> wp (body x) (fun y => I l (r ++ [y])) st) ->
  (forall r st, I [] r st -> Q r st) ->
  wp (collectM l body) Q st.
Proof.
  intros HI Hstep HQ. enough (forall acc, I l acc st -> wp (collectM l body) (fun r => Q (acc ++ r)) st) as H by apply (H []), HI.
  clear HI. revert st. induction l as [|x l IH]; intros st acc HI; simpl.
  - apply wp_ret. rewrite app_nil_r. by apply HQ.
  - apply wp_bind. eapply wp_mono; [by apply Hstep|]. intros y st' HI'.
    apply wp_bind. eapply wp_mono; [apply IH, HI'|]. intros r st2 HQ2. apply wp_ret. cbv beta in *. by rewrite <- app_assoc in HQ2.
Qed.

(** A run and its [wp]. *)
Lemma wp_run {A} (m : M S A) Q st : wp m Q st <-> exists a st', m st = Some (a, st') /\ Q a st'.
Proof.
  unfold wp. destruct (m st) as [[a st']|]; split; try done.
  - intros H. by exists a, st'.
  - by intros (? & ? & [= <- <-] & ?).
  - by intros (? & ? & ? & ?).
Qed.

(** ** Partial correctness: the same without safety and termination *)

Definition wlp {A} (m : M S A) (Q : A -> S -> Prop) (st : S) : Prop :=
  match m st with Some (a, st') => Q a st' | None => True end.

Lemma wp_wlp {A} (m : M S A) (Q Q' : A -> S -> Prop) st :
  wp m Q st -> wlp m Q' st -> wp m (fun a st' => Q a st' /\ Q' a st') st.
Proof. unfold wp, wlp. destruct (m st) as [[a st']|]; auto. Qed.

Lemma wlp_mono {A} (m : M S A) (Q Q' : A -> S -> Prop) st :
  wlp m Q st -> (forall a st', Q a st' -> Q' a st') -> wlp m Q' st.
Proof. unfold wlp. destruct (m st) as [[a st']|]; auto. Qed.

Lemma wlp_ret {A} (a : A) (Q : A -> S -> Prop) st : Q a st -> wlp (ret a) Q st.
Proof. done. Qed.

Lemma wlp_bind {A B} (m : M S A) (k : A -> M S B) Q st :
  wlp m (fun a => wlp (k a) Q) st -> wlp (bind m k) Q st.
Proof. unfold wlp, bind. by destruct (m st) as [[a st']|]. Qed.

Lemma wlp_gets {A} (f : S -> A) (Q : A -> S -> Prop) st : Q (f st) st -> wlp (gets f) Q st.
Proof. done. Qed.

Lemma wlp_gets_opt {A} (f : S -> option A) (Q : A -> S -> Prop) st :
  (forall a, f st = Some a -> Q a st) -> wlp (gets_opt f) Q st.
Proof. unfold wlp, gets_opt. destruct (f st) as [a|]; auto. Qed.

Lemma wlp_modify f (Q : unit -> S -> Prop) st : Q tt (f st) -> wlp (modify f) Q st.
Proof. done. Qed.

Lemma wlp_crash {A} (Q : A -> S -> Prop) st : wlp crash Q st.
Proof. done. Qed.

Lemma wlp_when b m (Q : unit -> S -> Prop) st :
  (b = true -> wlp m Q st) -> (b = false -> Q tt st) -> wlp (when b m) Q st.
Proof. destruct b; [auto|]. intros _ H. by apply wlp_ret, H. Qed.

(** A loop whose body keeps an invariant keeps it. *)
Lemma wlp_forM {A} (l : list A) (body : A -> M S unit) (I : S -> Prop) st :
  I st -> (forall x st, x ∈ l -> I st -> wlp (body x) (fun _ => I) st) -> wlp (forM_ l body) (fun _ => I) st.
Proof.
  revert st. induction l as [|x l IH]; intros st HI Hbody; simpl; [done|].
  apply wlp_bind. eapply wlp_mono; [apply Hbody; [left|done]|]. intros u st' HI'. apply IH; [done|].
  intros y st2 Hy. apply Hbody. by right.
Qed.

End monad.

Notation "'let*' x ':=' m 'in' k" := (bind m (fun x => k))
  (at level 200, x name, m at level 100, k at level 200, right associativity) : olsr_scope.
Notation "'do*' m 'in' k" := (bind m (fun _ : unit => k))
  (at level 200, m at level 100, k at level 200, right associativity) : olsr_scope.
#[global] Open Scope olsr_scope.

(** Walks through the monadic code of a goal. *)
Ltac wp_step :=
  match goal with
  | |- wp (bind _ _) _ _ => apply wp_bind
  | |- wp (ret _) _ _ => apply wp_ret
  | |- wp (gets _) _ _ => apply wp_gets
  | |- wp (modify _) _ _ => apply wp_modify
  | |- wp (when ?b _) _ _ => apply wp_when; intros ?
  | |- wp (if ?b then _ else _) _ _ => match type of b with bool => destruct b eqn:? end
  end.

Ltac wp_steps := repeat (wp_step; cbv beta).

Ltac wlp_step :=
  match goal with
  | |- wlp (bind _ _) _ _ => apply wlp_bind
  | |- wlp (ret _) _ _ => apply wlp_ret
  | |- wlp (gets _) _ _ => apply wlp_gets
  | |- wlp (modify _) _ _ => apply wlp_modify
  | |- wlp crash _ _ => apply wlp_crash
  | |- wlp (when ?b _) _ _ => apply wlp_when; intros ?
  | |- wlp (if ?b then _ else _) _ _ => match type of b with bool => destruct b eqn:? end
  | |- wlp (match ?o with Some _ => _ | None => _ end) _ _ => destruct o eqn:?
  end.

(** ** Searches that read memory *)

Fixpoint findM {A} (P : A -> option bool) (l : list A) : option (option A) :=
  match l with
  | [] => Some None
  | x :: l => b ← P x; if (b : bool) then Some (Some x) else findM P l
  end.

(** When every read succeeds, the search returns the first hit. *)
Lemma findM_spec {A} (P : A -> option bool) l :
  (forall x, x ∈ l -> is_Some (P x)) ->
  exists r, findM P l = Some r /\
    match r with
    | Some x => exists l1 l2, l = l1 ++ x :: l2 /\ P x = Some true /\ (forall y, y ∈ l1 -> P y = Some false)
    | None => forall y, y ∈ l -> P y = Some false
    end.
Proof.
  induction l as [|x l IH]; intros H; simpl.
  - exists None. split; [done|]. by intros y ?%not_elem_of_nil.
  - destruct (H x) as [b Hx]; [left|]. rewrite Hx. simpl. destruct b.
    + exists (Some x). split; [done|]. exists [], l. split; [done|]. split; [done|].
      by intros y ?%not_elem_of_nil.
    + destruct IH as (r & -> & Hr); [intros y Hy; apply H; by right|].
      exists r. split; [done|]. destruct r as [y|].
      * destruct Hr as (l1 & l2 & -> & Hy & Hl). exists (x :: l1), l2. split; [done|]. split; [done|].
        intros z [->|Hz]%elem_of_cons; auto.
      * intros y [->|Hy]%elem_of_cons; auto.
Qed.

Lemma findM_ext {A} (P Q : A -> option bool) l :
  (forall x, x ∈ l -> P x = Q x) -> findM P l = findM Q l.
Proof.
  induction l as [|x l IH]; intros H; simpl; [done|].
  rewrite <- H by left. destruct (P x) as [[]|]; simpl; [done| |done].
  apply IH. intros y Hy. apply H. by right.
Qed.
