(* ===== verification/Lsdb.v ===== *)
(** * tc_set.h, routing_table.h: the link state database and the routing table

    Vertices ([tc_entry]), edges ([tc_edge_entry]), the prefixes a vertex
    originates ([rt_path]) and the routes to a prefix ([rt_entry]). Objects live in
    heaps; the AVL nodes embedded in them are the nodes of the trees of avl.c,
    labelled with the address of the object and its key. *)

From S2P Require Import Prelude Timer Avl IpAddr KeyTree.

(** ** Keys of the prefix trees *)

(** [ntohl] on a little-endian host is the same swap as [htonl]. *)
Definition avl_comp_ipv4_prefix (p1 p2 : olsr_ip_prefix) : Z :=
  let addr1 := htonl (prefix p1) in
  let addr2 := htonl (prefix p2) in
  if addr1 <? addr2 then -1
  else if addr1 >? addr2 then 1
  else if prefix_len p1 <? prefix_len p2 then -1
  else if prefix_len p1 >? prefix_len p2 then 1
  else 0.

Definition avl_comp_ipv6_prefix (p1 p2 : olsr_ip_prefix) : Z :=
  let res := memcmp (ip_bytes 16 (prefix p1)) (ip_bytes 16 (prefix p2)) in
  if negb (res =? 0) then res
  else if prefix_len p1 <? prefix_len p2 then -1
  else if prefix_len p1 >? prefix_len p2 then 1
  else 0.

Definition avl_comp_prefix_default (v : ip_family) : olsr_ip_prefix -> olsr_ip_prefix -> Z :=
  match v with AF_INET => avl_comp_ipv4_prefix | AF_INET6 => avl_comp_ipv6_prefix end.

#[export] Instance avl_comp_ipv4_prefix_comp : TotalComp avl_comp_ipv4_prefix.
Proof.
  split; unfold avl_comp_ipv4_prefix; intros;
    repeat match goal with
    | H : context [if ?b then _ else _] |- _ => destruct b eqn:?; bool_hyps
    | |- context [if ?b then _ else _] => destruct b eqn:?; bool_hyps
    end; lia.
Qed.

#[export] Instance avl_comp_ipv6_prefix_comp : TotalComp avl_comp_ipv6_prefix.
Proof.
  split; unfold avl_comp_ipv6_prefix.
  - intros x. rewrite memcmp_refl. simpl. case_tests; lia.
  - intros x y. rewrite (memcmp_sym (ip_bytes 16 (prefix y))).
    set (r := memcmp _ _). destruct (r =? 0) eqn:E; bool_hyps; case_tests; lia.
  - intros x y z Hxy Hyz.
    pose proof (memcmp_trans (ip_bytes 16 (prefix x)) (ip_bytes 16 (prefix y)) (ip_bytes 16 (prefix z)) eq_refl eq_refl) as T1.
    pose proof (memcmp_trans (ip_bytes 16 (prefix z)) (ip_bytes 16 (prefix x)) (ip_bytes 16 (prefix y)) eq_refl eq_refl) as T2.
    pose proof (memcmp_trans (ip_bytes 16 (prefix y)) (ip_bytes 16 (prefix z)) (ip_bytes 16 (prefix x)) eq_refl eq_refl) as T3.
    rewrite (memcmp_sym (ip_bytes 16 (prefix z)) (ip_bytes 16 (prefix x))) in T2, T3.
    rewrite (memcmp_sym (ip_bytes 16 (prefix z)) (ip_bytes 16 (prefix y))) in T2.
    rewrite (memcmp_sym (ip_bytes 16 (prefix y)) (ip_bytes 16 (prefix x))) in T3.
    revert Hxy Hyz T1 T2 T3. set (a := memcmp _ _). set (b := memcmp _ _). set (c := memcmp _ _).
    case_tests; lia.
Qed.

#[export] Instance avl_comp_prefix_default_comp v : TotalComp (avl_comp_prefix_default v).
Proof. destruct v; exact _. Qed.

#[export] Instance prefix_key_tree (v : ip_family) : KeyTree olsr_ip_prefix (avl_tree olsr_ip_prefix) :=
  avl_key_tree (avl_comp_prefix_default v).

#[export] Instance prefix_key_tree_laws (v : ip_family) :
  KeyTreeLaws (KeyTree0 := prefix_key_tree v) (comp_eq (avl_comp_prefix_default v))
    (unique_wf (avl_comp_prefix_default v)) :=
  avl_key_tree_laws (avl_comp_prefix_default v).

(** ** Data *)

Definition ROUTE_COST_BROKEN : Z := 4294967295.

Record nexthop := {
  gateway : ip_addr;
  iif_index : Z;
}.

Record metric := {
  metric_cost : Z;
  metric_hops : Z;
}.

Record tc_edge_entry := {
  T_dest_addr : ip_addr;
  edge_inv : option positive;
  edge_tc : positive;
  edge_cost : Z;
  edge_ansn : Z;
  edge_linkquality : list Z;
}.

(** [cand_tree_node] and [path_list_node] belong to the shortest path run. *)
Record tc_entry := {
  tc_addr : ip_addr;
  path_cost : Z;
  edge_tree : avl_tree ip_addr;
  prefix_tree : avl_tree olsr_ip_prefix;
  next_hop : option positive;
  edge_gc_timer : option timer_entry;
  validity_timer : option timer_entry;
  refcount : Z;               (* uint32_t *)
  tc_msg_seq : Z;
  tc_msg_hops : Z;
  tc_hops : Z;
  tc_ansn : Z;
  ignored : Z;
  err_seq : Z;
  err_seq_valid : bool;
}.

Record rt_path := {
  rtp_rt : option positive;
  rtp_tc : option positive;
  rtp_nexthop : nexthop;
  rtp_metric : metric;
  rtp_originator : ip_addr;
  rtp_dst : olsr_ip_prefix;
  rtp_version : Z;
  rtp_origin : Z;
}.

Record rt_entry := {
  rt_dst : olsr_ip_prefix;
  rt_best : option positive;
  rt_nexthop : nexthop;
  rt_metric : metric;
  rt_path_tree : avl_tree ip_addr;
}.

(** The routes handed to the kernel, with the metric. *)
Inductive kernel_op :=
| AddRoute (dst : olsr_ip_prefix) (nh : nexthop) (m : metric)
| DelRoute (dst : olsr_ip_prefix) (nh : nexthop) (m : metric).

Record lsdb := {
  tcs : gmap positive tc_entry;
  edges : gmap positive tc_edge_entry;
  rtps : gmap positive rt_path;
  rts : gmap positive rt_entry;
  tc_tree : avl_tree ip_addr;
  tc_myself : option positive;
  routingtree : avl_tree olsr_ip_prefix;
  routingtree_version : Z;
  current_inetgw : option positive;
  chg_kernel_list : list positive;           (* the routes on it, from the head *)
  kernel_log : list (kernel_op * Z);         (* the calls made, newest first, with their results *)
}.

(** ** Field updates *)

Definition set_edge_inv (x : option positive) (s : tc_edge_entry) : tc_edge_entry :=
  {| T_dest_addr := T_dest_addr s; edge_inv := x; edge_tc := edge_tc s;
     edge_cost := edge_cost s; edge_ansn := edge_ansn s;
     edge_linkquality := edge_linkquality s |}.

Definition set_edge_cost (x : Z) (s : tc_edge_entry) : tc_edge_entry :=
  {| T_dest_addr := T_dest_addr s; edge_inv := edge_inv s; edge_tc := edge_tc s;
     edge_cost := x; edge_ansn := edge_ansn s; edge_linkquality := edge_linkquality s |}.

Definition set_edge_ansn (x : Z) (s : tc_edge_entry) : tc_edge_entry :=
  {| T_dest_addr := T_dest_addr s; edge_inv := edge_inv s; edge_tc := edge_tc s;
     edge_cost := edge_cost s; edge_ansn := x; edge_linkquality := edge_linkquality s |}.

Definition set_edge_linkquality (x : list Z) (s : tc_edge_entry) : tc_edge_entry :=
  {| T_dest_addr := T_dest_addr s; edge_inv := edge_inv s; edge_tc := edge_tc s;
     edge_cost := edge_cost s; edge_ansn := edge_ansn s; edge_linkquality := x |}.

Definition set_path_cost (x : Z) (s : tc_entry) : tc_entry :=
  {| tc_addr := tc_addr s; path_cost := x; edge_tree := edge_tree s;
     prefix_tree := prefix_tree s; next_hop := next_hop s; edge_gc_timer := edge_gc_timer s;
     validity_timer := validity_timer s; refcount := refcount s; tc_msg_seq := tc_msg_seq s;
     tc_msg_hops := tc_msg_hops s; tc_hops := tc_hops s; tc_ansn := tc_ansn s;
     ignored := ignored s; err_seq := err_seq s; err_seq_valid := err_seq_valid s |}.

Definition set_edge_tree (x : avl_tree ip_addr) (s : tc_entry) : tc_entry :=
  {| tc_addr := tc_addr s; path_cost := path_cost s; edge_tree := x;
     prefix_tree := prefix_tree s; next_hop := next_hop s; edge_gc_timer := edge_gc_timer s;
     validity_timer := validity_timer s; refcount := refcount s; tc_msg_seq := tc_msg_seq s;
     tc_msg_hops := tc_msg_hops s; tc_hops := tc_hops s; tc_ansn := tc_ansn s;
     ignored := ignored s; err_seq := err_seq s; err_seq_valid := err_seq_valid s |}.

Definition set_prefix_tree (x : avl_tree olsr_ip_prefix) (s : tc_entry) : tc_entry :=
  {| tc_addr := tc_addr s; path_cost := path_cost s; edge_tree := edge_tree s;
     prefix_tree := x; next_hop := next_hop s; edge_gc_timer := edge_gc_timer s;
     validity_timer := validity_timer s; refcount := refcount s; tc_msg_seq := tc_msg_seq s;
     tc_msg_hops := tc_msg_hops s; tc_hops := tc_hops s; tc_ansn := tc_ansn s;
     ignored := ignored s; err_seq := err_seq s; err_seq_valid := err_seq_valid s |}.

Definition set_next_hop (x : option positive) (s : tc_entry) : tc_entry :=
  {| tc_addr := tc_addr s; path_cost := path_cost s; edge_tree := edge_tree s;
     prefix_tree := prefix_tree s; next_hop := x; edge_gc_timer := edge_gc_timer s;
     validity_timer := validity_timer s; refcount := refcount s; tc_msg_seq := tc_msg_seq s;
     tc_msg_hops := tc_msg_hops s; tc_hops := tc_hops s; tc_ansn := tc_ansn s;
     ignored := ignored s; err_seq := err_seq s; err_seq_valid := err_seq_valid s |}.

Definition set_edge_gc_timer (x : option timer_entry) (s : tc_entry) : tc_entry :=
  {| tc_addr := tc_addr s; path_cost := path_cost s; edge_tree := edge_tree s;
     prefix_tree := prefix_tree s; next_hop := next_hop s; edge_gc_timer := x;
     validity_timer := validity_timer s; refcount := refcount s; tc_msg_seq := tc_msg_seq s;
     tc_msg_hops := tc_msg_hops s; tc_hops := tc_hops s; tc_ansn := tc_ansn s;
     ignored := ignored s; err_seq := err_seq s; err_seq_valid := err_seq_valid s |}.

Definition set_validity_timer (x : option timer_entry) (s : tc_entry) : tc_entry :=
  {| tc_addr := tc_addr s; path_cost := path_cost s; edge_tree := edge_tree s;
     prefix_tree := prefix_tree s; next_hop := next_hop s; edge_gc_timer := edge_gc_timer s;
     validity_timer := x; refcount := refcount s; tc_msg_seq := tc_msg_seq s;
     tc_msg_hops := tc_msg_hops s; tc_hops := tc_hops s; tc_ansn := tc_ansn s;
     ignored := ignored s; err_seq := err_seq s; err_seq_valid := err_seq_valid s |}.

Definition set_refcount (x : Z) (s : tc_entry) : tc_entry :=
  {| tc_addr := tc_addr s; path_cost := path_cost s; edge_tree := edge_tree s;
     prefix_tree := prefix_tree s; next_hop := next_hop s; edge_gc_timer := edge_gc_timer s;
     validity_timer := validity_timer s; refcount := x; tc_msg_seq := tc_msg_seq s;
     tc_msg_hops := tc_msg_hops s; tc_hops := tc_hops s; tc_ansn := tc_ansn s;
     ignored := ignored s; err_seq := err_seq s; err_seq_valid := err_seq_valid s |}.

Definition set_tc_msg_seq (x : Z) (s : tc_entry) : tc_entry :=
  {| tc_addr := tc_addr s; path_cost := path_cost s; edge_tree := edge_tree s;
     prefix_tree := prefix_tree s; next_hop := next_hop s; edge_gc_timer := edge_gc_timer s;
     validity_timer := validity_timer s; refcount := refcount s; tc_msg_seq := x;
     tc_msg_hops := tc_msg_hops s; tc_hops := tc_hops s; tc_ansn := tc_ansn s;
     ignored := ignored s; err_seq := err_seq s; err_seq_valid := err_seq_valid s |}.

Definition set_tc_msg_hops (x : Z) (s : tc_entry) : tc_entry :=
  {| tc_addr := tc_addr s; path_cost := path_cost s; edge_tree := edge_tree s;
     prefix_tree := prefix_tree s; next_hop := next_hop s; edge_gc_timer := edge_gc_timer s;
     validity_timer := validity_timer s; refcount := refcount s; tc_msg_seq := tc_msg_seq s;
     tc_msg_hops := x; tc_hops := tc_hops s; tc_ansn := tc_ansn s; ignored := ignored s;
     err_seq := err_seq s; err_seq_valid := err_seq_valid s |}.

Definition set_tc_hops (x : Z) (s : tc_entry) : tc_entry :=
  {| tc_addr := tc_addr s; path_cost := path_cost s; edge_tree := edge_tree s;
     prefix_tree := prefix_tree s; next_hop := next_hop s; edge_gc_timer := edge_gc_timer s;
     validity_timer := validity_timer s; refcount := refcount s; tc_msg_seq := tc_msg_seq s;
     tc_msg_hops := tc_msg_hops s; tc_hops := x; tc_ansn := tc_ansn s; ignored := ignored s;
     err_seq := err_seq s; err_seq_valid := err_seq_valid s |}.

Definition set_tc_ansn (x : Z) (s : tc_entry) : tc_entry :=
  {| tc_addr := tc_addr s; path_cost := path_cost s; edge_tree := edge_tree s;
     prefix_tree := prefix_tree s; next_hop := next_hop s; edge_gc_timer := edge_gc_timer s;
     validity_timer := validity_timer s; refcount := refcount s; tc_msg_seq := tc_msg_seq s;
     tc_msg_hops := tc_msg_hops s; tc_hops := tc_hops s; tc_ansn := x; ignored := ignored s;
     err_seq := err_seq s; err_seq_valid := err_seq_valid s |}.

Definition set_ignored (x : Z) (s : tc_entry) : tc_entry :=
  {| tc_addr := tc_addr s; path_cost := path_cost s; edge_tree := edge_tree s;
     prefix_tree := prefix_tree s; next_hop := next_hop s; edge_gc_timer := edge_gc_timer s;
     validity_timer := validity_timer s; refcount := refcount s; tc_msg_seq := tc_msg_seq s;
     tc_msg_hops := tc_msg_hops s; tc_hops := tc_hops s; tc_ansn := tc_ansn s; ignored := x;
     err_seq := err_seq s; err_seq_valid := err_seq_valid s |}.

Definition set_err_seq (x : Z) (s : tc_entry) : tc_entry :=
  {| tc_addr := tc_addr s; path_cost := path_cost s; edge_tree := edge_tree s;
     prefix_tree := prefix_tree s; next_hop := next_hop s; edge_gc_timer := edge_gc_timer s;
     validity_timer := validity_timer s; refcount := refcount s; tc_msg_seq := tc_msg_seq s;
     tc_msg_hops := tc_msg_hops s; tc_hops := tc_hops s; tc_ansn := tc_ansn s;
     ignored := ignored s; err_seq := x; err_seq_valid := err_seq_valid s |}.

Definition set_err_seq_valid (x : bool) (s : tc_entry) : tc_entry :=
  {| tc_addr := tc_addr s; path_cost := path_cost s; edge_tree := edge_tree s;
     prefix_tree := prefix_tree s; next_hop := next_hop s; edge_gc_timer := edge_gc_timer s;
     validity_timer := validity_timer s; refcount := refcount s; tc_msg_seq := tc_msg_seq s;
     tc_msg_hops := tc_msg_hops s; tc_hops := tc_hops s; tc_ansn := tc_ansn s;
     ignored := ignored s; err_seq := err_seq s; err_seq_valid := x |}.

Definition set_rtp_rt (x : option positive) (s : rt_path) : rt_path :=
  {| rtp_rt := x; rtp_tc := rtp_tc s; rtp_nexthop := rtp_nexthop s;
     rtp_metric := rtp_metric s; rtp_originator := rtp_originator s; rtp_dst := rtp_dst s;
     rtp_version := rtp_version s; rtp_origin := rtp_origin s |}.

Definition set_rtp_tc (x : option positive) (s : rt_path) : rt_path :=
  {| rtp_rt := rtp_rt s; rtp_tc := x; rtp_nexthop := rtp_nexthop s;
     rtp_metric := rtp_metric s; rtp_originator := rtp_originator s; rtp_dst := rtp_dst s;
     rtp_version := rtp_version s; rtp_origin := rtp_origin s |}.

Definition set_rtp_nexthop (x : nexthop) (s : rt_path) : rt_path :=
  {| rtp_rt := rtp_rt s; rtp_tc := rtp_tc s; rtp_nexthop := x; rtp_metric := rtp_metric s;
     rtp_originator := rtp_originator s; rtp_dst := rtp_dst s; rtp_version := rtp_version s;
     rtp_origin := rtp_origin s |}.

Definition set_rtp_metric (x : metric) (s : rt_path) : rt_path :=
  {| rtp_rt := rtp_rt s; rtp_tc := rtp_tc s; rtp_nexthop := rtp_nexthop s; rtp_metric := x;
     rtp_originator := rtp_originator s; rtp_dst := rtp_dst s; rtp_version := rtp_version s;
     rtp_origin := rtp_origin s |}.

Definition set_rtp_originator (x : ip_addr) (s : rt_path) : rt_path :=
  {| rtp_rt := rtp_rt s; rtp_tc := rtp_tc s; rtp_nexthop := rtp_nexthop s;
     rtp_metric := rtp_metric s; rtp_originator := x; rtp_dst := rtp_dst s;
     rtp_version := rtp_version s; rtp_origin := rtp_origin s |}.

Definition set_rtp_version (x : Z) (s : rt_path) : rt_path :=
  {| rtp_rt := rtp_rt s; rtp_tc := rtp_tc s; rtp_nexthop := rtp_nexthop s;
     rtp_metric := rtp_metric s; rtp_originator := rtp_originator s; rtp_dst := rtp_dst s;
     rtp_version := x; rtp_origin := rtp_origin s |}.

Definition set_rtp_origin (x : Z) (s : rt_path) : rt_path :=
  {| rtp_rt := rtp_rt s; rtp_tc := rtp_tc s; rtp_nexthop := rtp_nexthop s;
     rtp_metric := rtp_metric s; rtp_originator := rtp_originator s; rtp_dst := rtp_dst s;
     rtp_version := rtp_version s; rtp_origin := x |}.

Definition set_rt_best (x : option positive) (s : rt_entry) : rt_entry :=
  {| rt_dst := rt_dst s; rt_best := x; rt_nexthop := rt_nexthop s; rt_metric := rt_metric s;
     rt_path_tree := rt_path_tree s |}.

Definition set_rt_nexthop (x : nexthop) (s : rt_entry) : rt_entry :=
  {| rt_dst := rt_dst s; rt_best := rt_best s; rt_nexthop := x; rt_metric := rt_metric s;
     rt_path_tree := rt_path_tree s |}.

Definition set_rt_metric (x : metric) (s : rt_entry) : rt_entry :=
  {| rt_dst := rt_dst s; rt_best := rt_best s; rt_nexthop := rt_nexthop s; rt_metric := x;
     rt_path_tree := rt_path_tree s |}.

Definition set_rt_path_tree (x : avl_tree ip_addr) (s : rt_entry) : rt_entry :=
  {| rt_dst := rt_dst s; rt_best := rt_best s; rt_nexthop := rt_nexthop s;
     rt_metric := rt_metric s; rt_path_tree := x |}.

Definition set_tcs (x : gmap positive tc_entry) (s : lsdb) : lsdb :=
  {| tcs := x; edges := edges s; rtps := rtps s; rts := rts s; tc_tree := tc_tree s;
     tc_myself := tc_myself s; routingtree := routingtree s;
     routingtree_version := routingtree_version s; current_inetgw := current_inetgw s;
     chg_kernel_list := chg_kernel_list s; kernel_log := kernel_log s |}.

Definition set_edges (x : gmap positive tc_edge_entry) (s : lsdb) : lsdb :=
  {| tcs := tcs s; edges := x; rtps := rtps s; rts := rts s; tc_tree := tc_tree s;
     tc_myself := tc_myself s; routingtree := routingtree s;
     routingtree_version := routingtree_version s; current_inetgw := current_inetgw s;
     chg_kernel_list := chg_kernel_list s; kernel_log := kernel_log s |}.

Definition set_rtps (x : gmap positive rt_path) (s : lsdb) : lsdb :=
  {| tcs := tcs s; edges := edges s; rtps := x; rts := rts s; tc_tree := tc_tree s;
     tc_myself := tc_myself s; routingtree := routingtree s;
     routingtree_version := routingtree_version s; current_inetgw := current_inetgw s;
     chg_kernel_list := chg_kernel_list s; kernel_log := kernel_log s |}.

Definition set_rts (x : gmap positive rt_entry) (s : lsdb) : lsdb :=
  {| tcs := tcs s; edges := edges s; rtps := rtps s; rts := x; tc_tree := tc_tree s;
     tc_myself := tc_myself s; routingtree := routingtree s;
     routingtree_version := routingtree_version s; current_inetgw := current_inetgw s;
     chg_kernel_list := chg_kernel_list s; kernel_log := kernel_log s |}.

Definition set_tc_tree (x : avl_tree ip_addr) (s : lsdb) : lsdb :=
  {| tcs := tcs s; edges := edges s; rtps := rtps s; rts := rts s; tc_tree := x;
     tc_myself := tc_myself s; routingtree := routingtree s;
     routingtree_version := routingtree_version s; current_inetgw := current_inetgw s;
     chg_kernel_list := chg_kernel_list s; kernel_log := kernel_log s |}.

Definition set_tc_myself (x : option positive) (s : lsdb) : lsdb :=
  {| tcs := tcs s; edges := edges s; rtps := rtps s; rts := rts s; tc_tree := tc_tree s;
     tc_myself := x; routingtree := routingtree s;
     routingtree_version := routingtree_version s; current_inetgw := current_inetgw s;
     chg_kernel_list := chg_kernel_list s; kernel_log := kernel_log s |}.

Definition set_routingtree (x : avl_tree olsr_ip_prefix) (s : lsdb) : lsdb :=
  {| tcs := tcs s; edges := edges s; rtps := rtps s; rts := rts s; tc_tree := tc_tree s;
     tc_myself := tc_myself s; routingtree := x; routingtree_version := routingtree_version s;
     current_inetgw := current_inetgw s; chg_kernel_list := chg_kernel_list s;
     kernel_log := kernel_log s |}.

Definition set_routingtree_version (x : Z) (s : lsdb) : lsdb :=
  {| tcs := tcs s; edges := edges s; rtps := rtps s; rts := rts s; tc_tree := tc_tree s;
     tc_myself := tc_myself s; routingtree := routingtree s; routingtree_version := x;
     current_inetgw := current_inetgw s; chg_kernel_list := chg_kernel_list s;
     kernel_log := kernel_log s |}.

Definition set_current_inetgw (x : option positive) (s : lsdb) : lsdb :=
  {| tcs := tcs s; edges := edges s; rtps := rtps s; rts := rts s; tc_tree := tc_tree s;
     tc_myself := tc_myself s; routingtree := routingtree s;
     routingtree_version := routingtree_version s; current_inetgw := x;
     chg_kernel_list := chg_kernel_list s; kernel_log := kernel_log s |}.

Definition set_chg_kernel_list (x : list positive) (s : lsdb) : lsdb :=
  {| tcs := tcs s; edges := edges s; rtps := rtps s; rts := rts s; tc_tree := tc_tree s;
     tc_myself := tc_myself s; routingtree := routingtree s;
     routingtree_version := routingtree_version s; current_inetgw := current_inetgw s;
     chg_kernel_list := x; kernel_log := kernel_log s |}.

Definition set_kernel_log (x : list (kernel_op * Z)) (s : lsdb) : lsdb :=
  {| tcs := tcs s; edges := edges s; rtps := rtps s; rts := rts s; tc_tree := tc_tree s;
     tc_myself := tc_myself s; routingtree := routingtree s;
     routingtree_version := routingtree_version s; current_inetgw := current_inetgw s;
     chg_kernel_list := chg_kernel_list s; kernel_log := x |}.

(** ** Heaps and lists *)

Definition empty_lsdb : lsdb :=
  {| tcs := ∅; edges := ∅; rtps := ∅; rts := ∅; tc_tree := avl_init; tc_myself := None;
     routingtree := avl_init; routingtree_version := 0; current_inetgw := None;
     chg_kernel_list := []; kernel_log := [] |}.

Definition new_nexthop : nexthop := {| gateway := 0; iif_index := 0 |}.
Definition new_metric : metric := {| metric_cost := 0; metric_hops := 0 |}.
