(* ===== verification/State.v ===== *)
(** * The global tables of the daemon

    The state of link sensing and neighbour detection: neighbor_table.h,
    two_hop_neighbor_table.h, mid_set.h, link_set.h, mpr_selector_set.h, with the
    change flags of olsr.c. Objects live in heaps indexed by address; a C hash
    table is a list of buckets, a circular list the list of its elements from
    [head.next] on (so [QUEUE_ELEM] conses). *)

From S2P Require Import Prelude Timer IpAddr.
From S2P Require Export Lsdb.
From S2P Require Export Monad.

(** ** Configuration and environment *)

(** The fields of [struct olsrd_config] the modelled code reads, and the platform's
    random number generator (its n-th value and its bound). *)
Class olsrd_config := {
  ip_version : ip_family;
  mpr_coverage : Z;
  tc_redundancy : Z;
  lq_level : Z;
  use_hysteresis : bool;
  lq_nat_thresh : spec_float;
  olsr_random : Z -> Z;
  OLSR_RANDOM_MAX : Z;
  hscaling : spec_float;        (* olsr_cnf->hysteresis_param, [float]s *)
  hhigh : spec_float;
  hlow : spec_float;
}.

(** ** Constants of olsr_protocol.h and lq_plugin.h *)

Definition UNSPEC_LINK : Z := 0.
Definition ASYM_LINK : Z := 1.
Definition SYM_LINK : Z := 2.
Definition LOST_LINK : Z := 3.
Definition HIDE_LINK : Z := 4.
Definition NOT_NEIGH : Z := 0.
Definition SYM_NEIGH : Z := 1.
Definition MPR_NEIGH : Z := 2.
Definition NOT_SYM : Z := 0.
Definition SYM : Z := 1.
Definition WILL_NEVER : Z := 0.
Definition WILL_DEFAULT : Z := 3.
Definition WILL_ALWAYS : Z := 7.
Definition REFRESH_INTERVAL : Z := 2.
Definition LINK_COST_BROKEN : Z := 4194304.
Definition NEIGHB_HOLD_TIME : Z := 10 * REFRESH_INTERVAL.

(** ** Data *)

(** An element of a neighbour's list of two-hop neighbours. Its list is embedded in
    the neighbour entry; an element is identified by its two ends. *)
Record neighbor_2_list_entry := {
  nbr2_nbr : positive;
  neighbor_2 : positive;
  nbr2_list_timer : option timer_entry;
}.

Record neighbor_entry := {
  neighbor_main_addr : ip_addr;
  status : Z;
  willingness : Z;
  is_mpr : bool;
  was_mpr : bool;
  skip : bool;
  neighbor_2_nocov : Z;
  linkcount : Z;
  neighbor_2_list : list neighbor_2_list_entry;
}.

Record neighbor_list_entry := {
  neighbor : positive;
  second_hop_linkcost : Z;
  path_linkcost : Z;
  saved_path_linkcost : Z;
}.

Record neighbor_2_entry := {
  neighbor_2_addr : ip_addr;
  mpr_covered_count : Z;      (* uint8_t *)
  processed : Z;
  neighbor_2_pointer : Z;     (* int16_t *)
  neighbor_2_nblist : list neighbor_list_entry;
}.

Record mid_address := {
  alias : ip_addr;
  main_entry : positive;
  mid_vtime : Z;
}.

(** [aliases] is the chain of [next_alias] pointers. *)
Record mid_entry := {
  mid_main_addr : ip_addr;
  aliases : list positive;
  mid_timer : option timer_entry;
}.

Record mpr_selector := {
  MS_main_addr : ip_addr;
  MS_timer : option timer_entry;
}.

Record interface_olsr := {
  if_ip_addr : ip_addr;
  int_name : option string;
  int_metric : Z;
  if_index : Z;
}.

(** The part of [struct olsr_if], a configured interface, that link sensing reads:
    the interface it runs on and the loss multipliers (an address and a value). *)
Record olsr_if := {
  interf : option interface_olsr;
  lq_mult : list (ip_addr * Z);
}.

(** A link to an interface of a neighbour. [inter] points to the local interface,
    whose modelled fields do not change after its creation; [L_link_quality] is a
    [float] (binary32); [linkquality] is the private data of the metric plugin. *)
Record link_entry := {
  local_iface_addr : ip_addr;
  neighbor_iface_addr : ip_addr;
  inter : option interface_olsr;
  if_name : option string;
  link_timer : option timer_entry;
  link_sym_timer : option timer_entry;
  ASYM_time : Z;
  link_vtime : Z;
  link_neighbor : positive;
  prev_status : Z;
  L_link_quality : spec_float;
  L_link_pending : Z;
  L_LOST_LINK_time : Z;
  link_hello_timer : option timer_entry;
  last_htime : Z;
  olsr_seqno_valid : bool;
  olsr_seqno : Z;
  loss_helloint : Z;
  link_loss_timer : option timer_entry;
  loss_link_multiplier : Z;
  linkcost : Z;
  linkquality : list Z;
}.

(** packet.h: one neighbour announced in a HELLO message, and the message. *)
Record hello_neighbor := {
  hn_status : Z;
  hn_link : Z;
  hn_address : ip_addr;
  hn_cost : Z;
  hn_linkquality : list Z;
}.

Record hello_message := {
  hello_vtime : Z;
  hello_htime : Z;
  hello_source_addr : ip_addr;
  hello_packet_seq_number : Z;
  hello_hop_count : Z;
  hello_ttl : Z;
  hello_willingness : Z;
  hello_neighbors : list hello_neighbor;
}.

Record olsr_state := {
  now_times : Z;
  random_count : Z;
  changes_neighborhood : bool;
  changes_topology : bool;
  link_changes : bool;
  nbrs : gmap positive neighbor_entry;
  neighbortable : list (list positive);
  nbr2s : gmap positive neighbor_2_entry;
  two_hop_neighbortable : list (list positive);
  mid_entries : gmap positive mid_entry;
  mid_set : list (list positive);
  mid_addresses : gmap positive mid_address;
  reverse_mid_set : list (list positive);
  ifnet : list interface_olsr;
  links : gmap positive link_entry;
  link_entry_head : list positive;
  mprs_list : list (positive * mpr_selector);
  ansn : Z;
  main_addr : ip_addr;        (* olsr_cnf->main_addr, which may change at run time *)
  changes_hna : bool;
  interfaces : list olsr_if;  (* olsr_cnf->interfaces *)
  spf_backoff_timer : option timer_entry;
  db : lsdb;
}.

(** ** Field updates *)

Definition set_nbr2_list_timer (x : option timer_entry) (s : neighbor_2_list_entry) : neighbor_2_list_entry :=
  {| nbr2_nbr := nbr2_nbr s; neighbor_2 := neighbor_2 s; nbr2_list_timer := x |}.

Definition set_neighbor_main_addr (x : ip_addr) (s : neighbor_entry) : neighbor_entry :=
  {| neighbor_main_addr := x; status := status s; willingness := willingness s;
     is_mpr := is_mpr s; was_mpr := was_mpr s; skip := skip s;
     neighbor_2_nocov := neighbor_2_nocov s; linkcount := linkcount s;
     neighbor_2_list := neighbor_2_list s |}.

Definition set_status (x : Z) (s : neighbor_entry) : neighbor_entry :=
  {| neighbor_main_addr := neighbor_main_addr s; status := x; willingness := willingness s;
     is_mpr := is_mpr s; was_mpr := was_mpr s; skip := skip s;
     neighbor_2_nocov := neighbor_2_nocov s; linkcount := linkcount s;
     neighbor_2_list := neighbor_2_list s |}.

Definition set_willingness (x : Z) (s : neighbor_entry) : neighbor_entry :=
  {| neighbor_main_addr := neighbor_main_addr s; status := status s; willingness := x;
     is_mpr := is_mpr s; was_mpr := was_mpr s; skip := skip s;
     neighbor_2_nocov := neighbor_2_nocov s; linkcount := linkcount s;
     neighbor_2_list := neighbor_2_list s |}.

Definition set_is_mpr (x : bool) (s : neighbor_entry) : neighbor_entry :=
  {| neighbor_main_addr := neighbor_main_addr s; status := status s;
     willingness := willingness s; is_mpr := x; was_mpr := was_mpr s; skip := skip s;
     neighbor_2_nocov := neighbor_2_nocov s; linkcount := linkcount s;
     neighbor_2_list := neighbor_2_list s |}.

Definition set_was_mpr (x : bool) (s : neighbor_entry) : neighbor_entry :=
  {| neighbor_main_addr := neighbor_main_addr s; status := status s;
     willingness := willingness s; is_mpr := is_mpr s; was_mpr := x; skip := skip s;
     neighbor_2_nocov := neighbor_2_nocov s; linkcount := linkcount s;
     neighbor_2_list := neighbor_2_list s |}.

Definition set_skip (x : bool) (s : neighbor_entry) : neighbor_entry :=
  {| neighbor_main_addr := neighbor_main_addr s; status := status s;
     willingness := willingness s; is_mpr := is_mpr s; was_mpr := was_mpr s; skip := x;
     neighbor_2_nocov := neighbor_2_nocov s; linkcount := linkcount s;
     neighbor_2_list := neighbor_2_list s |}.

Definition set_neighbor_2_nocov (x : Z) (s : neighbor_entry) : neighbor_entry :=
  {| neighbor_main_addr := neighbor_main_addr s; status := status s;
     willingness := willingness s; is_mpr := is_mpr s; was_mpr := was_mpr s; skip := skip s;
     neighbor_2_nocov := x; linkcount := linkcount s; neighbor_2_list := neighbor_2_list s |}.

Definition set_linkcount (x : Z) (s : neighbor_entry) : neighbor_entry :=
  {| neighbor_main_addr := neighbor_main_addr s; status := status s;
     willingness := willingness s; is_mpr := is_mpr s; was_mpr := was_mpr s; skip := skip s;
     neighbor_2_nocov := neighbor_2_nocov s; linkcount := x;
     neighbor_2_list := neighbor_2_list s |}.

Definition set_neighbor_2_list (x : list neighbor_2_list_entry) (s : neighbor_entry) : neighbor_entry :=
  {| neighbor_main_addr := neighbor_main_addr s; status := status s;
     willingness := willingness s; is_mpr := is_mpr s; was_mpr := was_mpr s; skip := skip s;
     neighbor_2_nocov := neighbor_2_nocov s; linkcount := linkcount s; neighbor_2_list := x |}.

Definition set_neighbor (x : positive) (s : neighbor_list_entry) : neighbor_list_entry :=
  {| neighbor := x; second_hop_linkcost := second_hop_linkcost s;
     path_linkcost := path_linkcost s; saved_path_linkcost := saved_path_linkcost s |}.

Definition set_second_hop_linkcost (x : Z) (s : neighbor_list_entry) : neighbor_list_entry :=
  {| neighbor := neighbor s; second_hop_linkcost := x; path_linkcost := path_linkcost s;
     saved_path_linkcost := saved_path_linkcost s |}.

Definition set_path_linkcost (x : Z) (s : neighbor_list_entry) : neighbor_list_entry :=
  {| neighbor := neighbor s; second_hop_linkcost := second_hop_linkcost s; path_linkcost := x;
     saved_path_linkcost := saved_path_linkcost s |}.

Definition set_saved_path_linkcost (x : Z) (s : neighbor_list_entry) : neighbor_list_entry :=
  {| neighbor := neighbor s; second_hop_linkcost := second_hop_linkcost s;
     path_linkcost := path_linkcost s; saved_path_linkcost := x |}.

Definition set_mpr_covered_count (x : Z) (s : neighbor_2_entry) : neighbor_2_entry :=
  {| neighbor_2_addr := neighbor_2_addr s; mpr_covered_count := x; processed := processed s;
     neighbor_2_pointer := neighbor_2_pointer s; neighbor_2_nblist := neighbor_2_nblist s |}.

Definition set_processed (x : Z) (s : neighbor_2_entry) : neighbor_2_entry :=
  {| neighbor_2_addr := neighbor_2_addr s; mpr_covered_count := mpr_covered_count s;
     processed := x; neighbor_2_pointer := neighbor_2_pointer s;
     neighbor_2_nblist := neighbor_2_nblist s |}.

Definition set_neighbor_2_pointer (x : Z) (s : neighbor_2_entry) : neighbor_2_entry :=
  {| neighbor_2_addr := neighbor_2_addr s; mpr_covered_count := mpr_covered_count s;
     processed := processed s; neighbor_2_pointer := x;
     neighbor_2_nblist := neighbor_2_nblist s |}.

Definition set_neighbor_2_nblist (x : list neighbor_list_entry) (s : neighbor_2_entry) : neighbor_2_entry :=
  {| neighbor_2_addr := neighbor_2_addr s; mpr_covered_count := mpr_covered_count s;
     processed := processed s; neighbor_2_pointer := neighbor_2_pointer s;
     neighbor_2_nblist := x |}.

Definition set_mid_vtime (x : Z) (s : mid_address) : mid_address :=
  {| alias := alias s; main_entry := main_entry s; mid_vtime := x |}.

Definition set_aliases (x : list positive) (s : mid_entry) : mid_entry :=
  {| mid_main_addr := mid_main_addr s; aliases := x; mid_timer := mid_timer s |}.

Definition set_mid_timer (x : option timer_entry) (s : mid_entry) : mid_entry :=
  {| mid_main_addr := mid_main_addr s; aliases := aliases s; mid_timer := x |}.

Definition set_MS_timer (x : option timer_entry) (s : mpr_selector) : mpr_selector :=
  {| MS_main_addr := MS_main_addr s; MS_timer := x |}.

Definition set_inter (x : option interface_olsr) (s : link_entry) : link_entry :=
  {| local_iface_addr := local_iface_addr s; neighbor_iface_addr := neighbor_iface_addr s;
     inter := x; if_name := if_name s; link_timer := link_timer s;
     link_sym_timer := link_sym_timer s; ASYM_time := ASYM_time s; link_vtime := link_vtime s;
     link_neighbor := link_neighbor s; prev_status := prev_status s;
     L_link_quality := L_link_quality s; L_link_pending := L_link_pending s;
     L_LOST_LINK_time := L_LOST_LINK_time s; link_hello_timer := link_hello_timer s;
     last_htime := last_htime s; olsr_seqno_valid := olsr_seqno_valid s;
     olsr_seqno := olsr_seqno s; loss_helloint := loss_helloint s;
     link_loss_timer := link_loss_timer s; loss_link_multiplier := loss_link_multiplier s;
     linkcost := linkcost s; linkquality := linkquality s |}.

Definition set_link_timer (x : option timer_entry) (s : link_entry) : link_entry :=
  {| local_iface_addr := local_iface_addr s; neighbor_iface_addr := neighbor_iface_addr s;
     inter := inter s; if_name := if_name s; link_timer := x;
     link_sym_timer := link_sym_timer s; ASYM_time := ASYM_time s; link_vtime := link_vtime s;
     link_neighbor := link_neighbor s; prev_status := prev_status s;
     L_link_quality := L_link_quality s; L_link_pending := L_link_pending s;
     L_LOST_LINK_time := L_LOST_LINK_time s; link_hello_timer := link_hello_timer s;
     last_htime := last_htime s; olsr_seqno_valid := olsr_seqno_valid s;
     olsr_seqno := olsr_seqno s; loss_helloint := loss_helloint s;
     link_loss_timer := link_loss_timer s; loss_link_multiplier := loss_link_multiplier s;
     linkcost := linkcost s; linkquality := linkquality s |}.

Definition set_link_sym_timer (x : option timer_entry) (s : link_entry) : link_entry :=
  {| local_iface_addr := local_iface_addr s; neighbor_iface_addr := neighbor_iface_addr s;
     inter := inter s; if_name := if_name s; link_timer := link_timer s; link_sym_timer := x;
     ASYM_time := ASYM_time s; link_vtime := link_vtime s; link_neighbor := link_neighbor s;
     prev_status := prev_status s; L_link_quality := L_link_quality s;
     L_link_pending := L_link_pending s; L_LOST_LINK_time := L_LOST_LINK_time s;
     link_hello_timer := link_hello_timer s; last_htime := last_htime s;
     olsr_seqno_valid := olsr_seqno_valid s; olsr_seqno := olsr_seqno s;
     loss_helloint := loss_helloint s; link_loss_timer := link_loss_timer s;
     loss_link_multiplier := loss_link_multiplier s; linkcost := linkcost s;
     linkquality := linkquality s |}.

Definition set_ASYM_time (x : Z) (s : link_entry) : link_entry :=
  {| local_iface_addr := local_iface_addr s; neighbor_iface_addr := neighbor_iface_addr s;
     inter := inter s; if_name := if_name s; link_timer := link_timer s;
     link_sym_timer := link_sym_timer s; ASYM_time := x; link_vtime := link_vtime s;
     link_neighbor := link_neighbor s; prev_status := prev_status s;
     L_link_quality := L_link_quality s; L_link_pending := L_link_pending s;
     L_LOST_LINK_time := L_LOST_LINK_time s; link_hello_timer := link_hello_timer s;
     last_htime := last_htime s; olsr_seqno_valid := olsr_seqno_valid s;
     olsr_seqno := olsr_seqno s; loss_helloint := loss_helloint s;
     link_loss_timer := link_loss_timer s; loss_link_multiplier := loss_link_multiplier s;
     linkcost := linkcost s; linkquality := linkquality s |}.

Definition set_link_vtime (x : Z) (s : link_entry) : link_entry :=
  {| local_iface_addr := local_iface_addr s; neighbor_iface_addr := neighbor_iface_addr s;
     inter := inter s; if_name := if_name s; link_timer := link_timer s;
     link_sym_timer := link_sym_timer s; ASYM_time := ASYM_time s; link_vtime := x;
     link_neighbor := link_neighbor s; prev_status := prev_status s;
     L_link_quality := L_link_quality s; L_link_pending := L_link_pending s;
     L_LOST_LINK_time := L_LOST_LINK_time s; link_hello_timer := link_hello_timer s;
     last_htime := last_htime s; olsr_seqno_valid := olsr_seqno_valid s;
     olsr_seqno := olsr_seqno s; loss_helloint := loss_helloint s;
     link_loss_timer := link_loss_timer s; loss_link_multiplier := loss_link_multiplier s;
     linkcost := linkcost s; linkquality := linkquality s |}.

Definition set_link_neighbor (x : positive) (s : link_entry) : link_entry :=
  {| local_iface_addr := local_iface_addr s; neighbor_iface_addr := neighbor_iface_addr s;
     inter := inter s; if_name := if_name s; link_timer := link_timer s;
     link_sym_timer := link_sym_timer s; ASYM_time := ASYM_time s; link_vtime := link_vtime s;
     link_neighbor := x; prev_status := prev_status s; L_link_quality := L_link_quality s;
     L_link_pending := L_link_pending s; L_LOST_LINK_time := L_LOST_LINK_time s;
     link_hello_timer := link_hello_timer s; last_htime := last_htime s;
     olsr_seqno_valid := olsr_seqno_valid s; olsr_seqno := olsr_seqno s;
     loss_helloint := loss_helloint s; link_loss_timer := link_loss_timer s;
     loss_link_multiplier := loss_link_multiplier s; linkcost := linkcost s;
     linkquality := linkquality s |}.

Definition set_prev_status (x : Z) (s : link_entry) : link_entry :=
  {| local_iface_addr := local_iface_addr s; neighbor_iface_addr := neighbor_iface_addr s;
     inter := inter s; if_name := if_name s; link_timer := link_timer s;
     link_sym_timer := link_sym_timer s; ASYM_time := ASYM_time s; link_vtime := link_vtime s;
     link_neighbor := link_neighbor s; prev_status := x; L_link_quality := L_link_quality s;
     L_link_pending := L_link_pending s; L_LOST_LINK_time := L_LOST_LINK_time s;
     link_hello_timer := link_hello_timer s; last_htime := last_htime s;
     olsr_seqno_valid := olsr_seqno_valid s; olsr_seqno := olsr_seqno s;
     loss_helloint := loss_helloint s; link_loss_timer := link_loss_timer s;
     loss_link_multiplier := loss_link_multiplier s; linkcost := linkcost s;
     linkquality := linkquality s |}.

Definition set_L_link_quality (x : spec_float) (s : link_entry) : link_entry :=
  {| local_iface_addr := local_iface_addr s; neighbor_iface_addr := neighbor_iface_addr s;
     inter := inter s; if_name := if_name s; link_timer := link_timer s;
     link_sym_timer := link_sym_timer s; ASYM_time := ASYM_time s; link_vtime := link_vtime s;
     link_neighbor := link_neighbor s; prev_status := prev_status s; L_link_quality := x;
     L_link_pending := L_link_pending s; L_LOST_LINK_time := L_LOST_LINK_time s;
     link_hello_timer := link_hello_timer s; last_htime := last_htime s;
     olsr_seqno_valid := olsr_seqno_valid s; olsr_seqno := olsr_seqno s;
     loss_helloint := loss_helloint s; link_loss_timer := link_loss_timer s;
     loss_link_multiplier := loss_link_multiplier s; linkcost := linkcost s;
     linkquality := linkquality s |}.

Definition set_L_link_pending (x : Z) (s : link_entry) : link_entry :=
  {| local_iface_addr := local_iface_addr s; neighbor_iface_addr := neighbor_iface_addr s;
     inter := inter s; if_name := if_name s; link_timer := link_timer s;
     link_sym_timer := link_sym_timer s; ASYM_time := ASYM_time s; link_vtime := link_vtime s;
     link_neighbor := link_neighbor s; prev_status := prev_status s;
     L_link_quality := L_link_quality s; L_link_pending := x;
     L_LOST_LINK_time := L_LOST_LINK_time s; link_hello_timer := link_hello_timer s;
     last_htime := last_htime s; olsr_seqno_valid := olsr_seqno_valid s;
     olsr_seqno := olsr_seqno s; loss_helloint := loss_helloint s;
     link_loss_timer := link_loss_timer s; loss_link_multiplier := loss_link_multiplier s;
     linkcost := linkcost s; linkquality := linkquality s |}.

Definition set_L_LOST_LINK_time (x : Z) (s : link_entry) : link_entry :=
  {| local_iface_addr := local_iface_addr s; neighbor_iface_addr := neighbor_iface_addr s;
     inter := inter s; if_name := if_name s; link_timer := link_timer s;
     link_sym_timer := link_sym_timer s; ASYM_time := ASYM_time s; link_vtime := link_vtime s;
     link_neighbor := link_neighbor s; prev_status := prev_status s;
     L_link_quality := L_link_quality s; L_link_pending := L_link_pending s;
     L_LOST_LINK_time := x; link_hello_timer := link_hello_timer s;
     last_htime := last_htime s; olsr_seqno_valid := olsr_seqno_valid s;
     olsr_seqno := olsr_seqno s; loss_helloint := loss_helloint s;
     link_loss_timer := link_loss_timer s; loss_link_multiplier := loss_link_multiplier s;
     linkcost := linkcost s; linkquality := linkquality s |}.

Definition set_link_hello_timer (x : option timer_entry) (s : link_entry) : link_entry :=
  {| local_iface_addr := local_iface_addr s; neighbor_iface_addr := neighbor_iface_addr s;
     inter := inter s; if_name := if_name s; link_timer := link_timer s;
     link_sym_timer := link_sym_timer s; ASYM_time := ASYM_time s; link_vtime := link_vtime s;
     link_neighbor := link_neighbor s; prev_status := prev_status s;
     L_link_quality := L_link_quality s; L_link_pending := L_link_pending s;
     L_LOST_LINK_time := L_LOST_LINK_time s; link_hello_timer := x;
     last_htime := last_htime s; olsr_seqno_valid := olsr_seqno_valid s;
     olsr_seqno := olsr_seqno s; loss_helloint := loss_helloint s;
     link_loss_timer := link_loss_timer s; loss_link_multiplier := loss_link_multiplier s;
     linkcost := linkcost s; linkquality := linkquality s |}.

Definition set_last_htime (x : Z) (s : link_entry) : link_entry :=
  {| local_iface_addr := local_iface_addr s; neighbor_iface_addr := neighbor_iface_addr s;
     inter := inter s; if_name := if_name s; link_timer := link_timer s;
     link_sym_timer := link_sym_timer s; ASYM_time := ASYM_time s; link_vtime := link_vtime s;
     link_neighbor := link_neighbor s; prev_status := prev_status s;
     L_link_quality := L_link_quality s; L_link_pending := L_link_pending s;
     L_LOST_LINK_time := L_LOST_LINK_time s; link_hello_timer := link_hello_timer s;
     last_htime := x; olsr_seqno_valid := olsr_seqno_valid s; olsr_seqno := olsr_seqno s;
     loss_helloint := loss_helloint s; link_loss_timer := link_loss_timer s;
     loss_link_multiplier := loss_link_multiplier s; linkcost := linkcost s;
     linkquality := linkquality s |}.

Definition set_olsr_seqno_valid (x : bool) (s : link_entry) : link_entry :=
  {| local_iface_addr := local_iface_addr s; neighbor_iface_addr := neighbor_iface_addr s;
     inter := inter s; if_name := if_name s; link_timer := link_timer s;
     link_sym_timer := link_sym_timer s; ASYM_time := ASYM_time s; link_vtime := link_vtime s;
     link_neighbor := link_neighbor s; prev_status := prev_status s;
     L_link_quality := L_link_quality s; L_link_pending := L_link_pending s;
     L_LOST_LINK_time := L_LOST_LINK_time s; link_hello_timer := link_hello_timer s;
     last_htime := last_htime s; olsr_seqno_valid := x; olsr_seqno := olsr_seqno s;
     loss_helloint := loss_helloint s; link_loss_timer := link_loss_timer s;
     loss_link_multiplier := loss_link_multiplier s; linkcost := linkcost s;
     linkquality := linkquality s |}.

Definition set_olsr_seqno (x : Z) (s : link_entry) : link_entry :=
  {| local_iface_addr := local_iface_addr s; neighbor_iface_addr := neighbor_iface_addr s;
     inter := inter s; if_name := if_name s; link_timer := link_timer s;
     link_sym_timer := link_sym_timer s; ASYM_time := ASYM_time s; link_vtime := link_vtime s;
     link_neighbor := link_neighbor s; prev_status := prev_status s;
     L_link_quality := L_link_quality s; L_link_pending := L_link_pending s;
     L_LOST_LINK_time := L_LOST_LINK_time s; link_hello_timer := link_hello_timer s;
     last_htime := last_htime s; olsr_seqno_valid := olsr_seqno_valid s; olsr_seqno := x;
     loss_helloint := loss_helloint s; link_loss_timer := link_loss_timer s;
     loss_link_multiplier := loss_link_multiplier s; linkcost := linkcost s;
     linkquality := linkquality s |}.

Definition set_loss_helloint (x : Z) (s : link_entry) : link_entry :=
  {| local_iface_addr := local_iface_addr s; neighbor_iface_addr := neighbor_iface_addr s;
     inter := inter s; if_name := if_name s; link_timer := link_timer s;
     link_sym_timer := link_sym_timer s; ASYM_time := ASYM_time s; link_vtime := link_vtime s;
     link_neighbor := link_neighbor s; prev_status := prev_status s;
     L_link_quality := L_link_quality s; L_link_pending := L_link_pending s;
     L_LOST_LINK_time := L_LOST_LINK_time s; link_hello_timer := link_hello_timer s;
     last_htime := last_htime s; olsr_seqno_valid := olsr_seqno_valid s;
     olsr_seqno := olsr_seqno s; loss_helloint := x; link_loss_timer := link_loss_timer s;
     loss_link_multiplier := loss_link_multiplier s; linkcost := linkcost s;
     linkquality := linkquality s |}.

Definition set_link_loss_timer (x : option timer_entry) (s : link_entry) : link_entry :=
  {| local_iface_addr := local_iface_addr s; neighbor_iface_addr := neighbor_iface_addr s;
     inter := inter s; if_name := if_name s; link_timer := link_timer s;
     link_sym_timer := link_sym_timer s; ASYM_time := ASYM_time s; link_vtime := link_vtime s;
     link_neighbor := link_neighbor s; prev_status := prev_status s;
     L_link_quality := L_link_quality s; L_link_pending := L_link_pending s;
     L_LOST_LINK_time := L_LOST_LINK_time s; link_hello_timer := link_hello_timer s;
     last_htime := last_htime s; olsr_seqno_valid := olsr_seqno_valid s;
     olsr_seqno := olsr_seqno s; loss_helloint := loss_helloint s; link_loss_timer := x;
     loss_link_multiplier := loss_link_multiplier s; linkcost := linkcost s;
     linkquality := linkquality s |}.

Definition set_link_loss_multiplier (x : Z) (s : link_entry) : link_entry :=
  {| local_iface_addr := local_iface_addr s; neighbor_iface_addr := neighbor_iface_addr s;
     inter := inter s; if_name := if_name s; link_timer := link_timer s;
     link_sym_timer := link_sym_timer s; ASYM_time := ASYM_time s; link_vtime := link_vtime s;
     link_neighbor := link_neighbor s; prev_status := prev_status s;
     L_link_quality := L_link_quality s; L_link_pending := L_link_pending s;
     L_LOST_LINK_time := L_LOST_LINK_time s; link_hello_timer := link_hello_timer s;
     last_htime := last_htime s; olsr_seqno_valid := olsr_seqno_valid s;
     olsr_seqno := olsr_seqno s; loss_helloint := loss_helloint s;
     link_loss_timer := link_loss_timer s; loss_link_multiplier := x; linkcost := linkcost s;
     linkquality := linkquality s |}.

Definition set_linkcost (x : Z) (s : link_entry) : link_entry :=
  {| local_iface_addr := local_iface_addr s; neighbor_iface_addr := neighbor_iface_addr s;
     inter := inter s; if_name := if_name s; link_timer := link_timer s;
     link_sym_timer := link_sym_timer s; ASYM_time := ASYM_time s; link_vtime := link_vtime s;
     link_neighbor := link_neighbor s; prev_status := prev_status s;
     L_link_quality := L_link_quality s; L_link_pending := L_link_pending s;
     L_LOST_LINK_time := L_LOST_LINK_time s; link_hello_timer := link_hello_timer s;
     last_htime := last_htime s; olsr_seqno_valid := olsr_seqno_valid s;
     olsr_seqno := olsr_seqno s; loss_helloint := loss_helloint s;
     link_loss_timer := link_loss_timer s; loss_link_multiplier := loss_link_multiplier s;
     linkcost := x; linkquality := linkquality s |}.

Definition set_linkquality (x : list Z) (s : link_entry) : link_entry :=
  {| local_iface_addr := local_iface_addr s; neighbor_iface_addr := neighbor_iface_addr s;
     inter := inter s; if_name := if_name s; link_timer := link_timer s;
     link_sym_timer := link_sym_timer s; ASYM_time := ASYM_time s; link_vtime := link_vtime s;
     link_neighbor := link_neighbor s; prev_status := prev_status s;
     L_link_quality := L_link_quality s; L_link_pending := L_link_pending s;
     L_LOST_LINK_time := L_LOST_LINK_time s; link_hello_timer := link_hello_timer s;
     last_htime := last_htime s; olsr_seqno_valid := olsr_seqno_valid s;
     olsr_seqno := olsr_seqno s; loss_helloint := loss_helloint s;
     link_loss_timer := link_loss_timer s; loss_link_multiplier := loss_link_multiplier s;
     linkcost := linkcost s; linkquality := x |}.

Definition set_now_times (x : Z) (s : olsr_state) : olsr_state :=
  {| now_times := x; random_count := random_count s;
     changes_neighborhood := changes_neighborhood s; changes_topology := changes_topology s;
     link_changes := link_changes s; nbrs := nbrs s; neighbortable := neighbortable s;
     nbr2s := nbr2s s; two_hop_neighbortable := two_hop_neighbortable s;
     mid_entries := mid_entries s; mid_set := mid_set s; mid_addresses := mid_addresses s;
     reverse_mid_set := reverse_mid_set s; ifnet := ifnet s; links := links s;
     link_entry_head := link_entry_head s; mprs_list := mprs_list s; ansn := ansn s;
     main_addr := main_addr s; changes_hna := changes_hna s; interfaces := interfaces s;
     spf_backoff_timer := spf_backoff_timer s; db := db s |}.

Definition set_random_count (x : Z) (s : olsr_state) : olsr_state :=
  {| now_times := now_times s; random_count := x;
     changes_neighborhood := changes_neighborhood s; changes_topology := changes_topology s;
     link_changes := link_changes s; nbrs := nbrs s; neighbortable := neighbortable s;
     nbr2s := nbr2s s; two_hop_neighbortable := two_hop_neighbortable s;
     mid_entries := mid_entries s; mid_set := mid_set s; mid_addresses := mid_addresses s;
     reverse_mid_set := reverse_mid_set s; ifnet := ifnet s; links := links s;
     link_entry_head := link_entry_head s; mprs_list := mprs_list s; ansn := ansn s;
     main_addr := main_addr s; changes_hna := changes_hna s; interfaces := interfaces s;
     spf_backoff_timer := spf_backoff_timer s; db := db s |}.

Definition set_changes_neighborhood (x : bool) (s : olsr_state) : olsr_state :=
  {| now_times := now_times s; random_count := random_count s; changes_neighborhood := x;
     changes_topology := changes_topology s; link_changes := link_changes s; nbrs := nbrs s;
     neighbortable := neighbortable s; nbr2s := nbr2s s;
     two_hop_neighbortable := two_hop_neighbortable s; mid_entries := mid_entries s;
     mid_set := mid_set s; mid_addresses := mid_addresses s;
     reverse_mid_set := reverse_mid_set s; ifnet := ifnet s; links := links s;
     link_entry_head := link_entry_head s; mprs_list := mprs_list s; ansn := ansn s;
     main_addr := main_addr s; changes_hna := changes_hna s; interfaces := interfaces s;
     spf_backoff_timer := spf_backoff_timer s; db := db s |}.

Definition set_changes_topology (x : bool) (s : olsr_state) : olsr_state :=
  {| now_times := now_times s; random_count := random_count s;
     changes_neighborhood := changes_neighborhood s; changes_topology := x;
     link_changes := link_changes s; nbrs := nbrs s; neighbortable := neighbortable s;
     nbr2s := nbr2s s; two_hop_neighbortable := two_hop_neighbortable s;
     mid_entries := mid_entries s; mid_set := mid_set s; mid_addresses := mid_addresses s;
     reverse_mid_set := reverse_mid_set s; ifnet := ifnet s; links := links s;
     link_entry_head := link_entry_head s; mprs_list := mprs_list s; ansn := ansn s;
     main_addr := main_addr s; changes_hna := changes_hna s; interfaces := interfaces s;
     spf_backoff_timer := spf_backoff_timer s; db := db s |}.

Definition set_link_changes (x : bool) (s : olsr_state) : olsr_state :=
  {| now_times := now_times s; random_count := random_count s;
     changes_neighborhood := changes_neighborhood s; changes_topology := changes_topology s;
     link_changes := x; nbrs := nbrs s; neighbortable := neighbortable s; nbr2s := nbr2s s;
     two_hop_neighbortable := two_hop_neighbortable s; mid_entries := mid_entries s;
     mid_set := mid_set s; mid_addresses := mid_addresses s;
     reverse_mid_set := reverse_mid_set s; ifnet := ifnet s; links := links s;
     link_entry_head := link_entry_head s; mprs_list := mprs_list s; ansn := ansn s;
     main_addr := main_addr s; changes_hna := changes_hna s; interfaces := interfaces s;
     spf_backoff_timer := spf_backoff_timer s; db := db s |}.

Definition set_nbrs (x : gmap positive neighbor_entry) (s : olsr_state) : olsr_state :=
  {| now_times := now_times s; random_count := random_count s;
     changes_neighborhood := changes_neighborhood s; changes_topology := changes_topology s;
     link_changes := link_changes s; nbrs := x; neighbortable := neighbortable s;
     nbr2s := nbr2s s; two_hop_neighbortable := two_hop_neighbortable s;
     mid_entries := mid_entries s; mid_set := mid_set s; mid_addresses := mid_addresses s;
     reverse_mid_set := reverse_mid_set s; ifnet := ifnet s; links := links s;
     link_entry_head := link_entry_head s; mprs_list := mprs_list s; ansn := ansn s;
     main_addr := main_addr s; changes_hna := changes_hna s; interfaces := interfaces s;
     spf_backoff_timer := spf_backoff_timer s; db := db s |}.

Definition set_neighbortable (x : list (list positive)) (s : olsr_state) : olsr_state :=
  {| now_times := now_times s; random_count := random_count s;
     changes_neighborhood := changes_neighborhood s; changes_topology := changes_topology s;
     link_changes := link_changes s; nbrs := nbrs s; neighbortable := x; nbr2s := nbr2s s;
     two_hop_neighbortable := two_hop_neighbortable s; mid_entries := mid_entries s;
     mid_set := mid_set s; mid_addresses := mid_addresses s;
     reverse_mid_set := reverse_mid_set s; ifnet := ifnet s; links := links s;
     link_entry_head := link_entry_head s; mprs_list := mprs_list s; ansn := ansn s;
     main_addr := main_addr s; changes_hna := changes_hna s; interfaces := interfaces s;
     spf_backoff_timer := spf_backoff_timer s; db := db s |}.

Definition set_nbr2s (x : gmap positive neighbor_2_entry) (s : olsr_state) : olsr_state :=
  {| now_times := now_times s; random_count := random_count s;
     changes_neighborhood := changes_neighborhood s; changes_topology := changes_topology s;
     link_changes := link_changes s; nbrs := nbrs s; neighbortable := neighbortable s;
     nbr2s := x; two_hop_neighbortable := two_hop_neighbortable s;
     mid_entries := mid_entries s; mid_set := mid_set s; mid_addresses := mid_addresses s;
     reverse_mid_set := reverse_mid_set s; ifnet := ifnet s; links := links s;
     link_entry_head := link_entry_head s; mprs_list := mprs_list s; ansn := ansn s;
     main_addr := main_addr s; changes_hna := changes_hna s; interfaces := interfaces s;
     spf_backoff_timer := spf_backoff_timer s; db := db s |}.

Definition set_two_hop_neighbortable (x : list (list positive)) (s : olsr_state) : olsr_state :=
  {| now_times := now_times s; random_count := random_count s;
     changes_neighborhood := changes_neighborhood s; changes_topology := changes_topology s;
     link_changes := link_changes s; nbrs := nbrs s; neighbortable := neighbortable s;
     nbr2s := nbr2s s; two_hop_neighbortable := x; mid_entries := mid_entries s;
     mid_set := mid_set s; mid_addresses := mid_addresses s;
     reverse_mid_set := reverse_mid_set s; ifnet := ifnet s; links := links s;
     link_entry_head := link_entry_head s; mprs_list := mprs_list s; ansn := ansn s;
     main_addr := main_addr s; changes_hna := changes_hna s; interfaces := interfaces s;
     spf_backoff_timer := spf_backoff_timer s; db := db s |}.

Definition set_mid_entries (x : gmap positive mid_entry) (s : olsr_state) : olsr_state :=
  {| now_times := now_times s; random_count := random_count s;
     changes_neighborhood := changes_neighborhood s; changes_topology := changes_topology s;
     link_changes := link_changes s; nbrs := nbrs s; neighbortable := neighbortable s;
     nbr2s := nbr2s s; two_hop_neighbortable := two_hop_neighbortable s; mid_entries := x;
     mid_set := mid_set s; mid_addresses := mid_addresses s;
     reverse_mid_set := reverse_mid_set s; ifnet := ifnet s; links := links s;
     link_entry_head := link_entry_head s; mprs_list := mprs_list s; ansn := ansn s;
     main_addr := main_addr s; changes_hna := changes_hna s; interfaces := interfaces s;
     spf_backoff_timer := spf_backoff_timer s; db := db s |}.

Definition set_mid_set (x : list (list positive)) (s : olsr_state) : olsr_state :=
  {| now_times := now_times s; random_count := random_count s;
     changes_neighborhood := changes_neighborhood s; changes_topology := changes_topology s;
     link_changes := link_changes s; nbrs := nbrs s; neighbortable := neighbortable s;
     nbr2s := nbr2s s; two_hop_neighbortable := two_hop_neighbortable s;
     mid_entries := mid_entries s; mid_set := x; mid_addresses := mid_addresses s;
     reverse_mid_set := reverse_mid_set s; ifnet := ifnet s; links := links s;
     link_entry_head := link_entry_head s; mprs_list := mprs_list s; ansn := ansn s;
     main_addr := main_addr s; changes_hna := changes_hna s; interfaces := interfaces s;
     spf_backoff_timer := spf_backoff_timer s; db := db s |}.

Definition set_mid_addresses (x : gmap positive mid_address) (s : olsr_state) : olsr_state :=
  {| now_times := now_times s; random_count := random_count s;
     changes_neighborhood := changes_neighborhood s; changes_topology := changes_topology s;
     link_changes := link_changes s; nbrs := nbrs s; neighbortable := neighbortable s;
     nbr2s := nbr2s s; two_hop_neighbortable := two_hop_neighbortable s;
     mid_entries := mid_entries s; mid_set := mid_set s; mid_addresses := x;
     reverse_mid_set := reverse_mid_set s; ifnet := ifnet s; links := links s;
     link_entry_head := link_entry_head s; mprs_list := mprs_list s; ansn := ansn s;
     main_addr := main_addr s; changes_hna := changes_hna s; interfaces := interfaces s;
     spf_backoff_timer := spf_backoff_timer s; db := db s |}.

Definition set_reverse_mid_set (x : list (list positive)) (s : olsr_state) : olsr_state :=
  {| now_times := now_times s; random_count := random_count s;
     changes_neighborhood := changes_neighborhood s; changes_topology := changes_topology s;
     link_changes := link_changes s; nbrs := nbrs s; neighbortable := neighbortable s;
     nbr2s := nbr2s s; two_hop_neighbortable := two_hop_neighbortable s;
     mid_entries := mid_entries s; mid_set := mid_set s; mid_addresses := mid_addresses s;
     reverse_mid_set := x; ifnet := ifnet s; links := links s;
     link_entry_head := link_entry_head s; mprs_list := mprs_list s; ansn := ansn s;
     main_addr := main_addr s; changes_hna := changes_hna s; interfaces := interfaces s;
     spf_backoff_timer := spf_backoff_timer s; db := db s |}.

Definition set_ifnet (x : list interface_olsr) (s : olsr_state) : olsr_state :=
  {| now_times := now_times s; random_count := random_count s;
     changes_neighborhood := changes_neighborhood s; changes_topology := changes_topology s;
     link_changes := link_changes s; nbrs := nbrs s; neighbortable := neighbortable s;
     nbr2s := nbr2s s; two_hop_neighbortable := two_hop_neighbortable s;
     mid_entries := mid_entries s; mid_set := mid_set s; mid_addresses := mid_addresses s;
     reverse_mid_set := reverse_mid_set s; ifnet := x; links := links s;
     link_entry_head := link_entry_head s; mprs_list := mprs_list s; ansn := ansn s;
     main_addr := main_addr s; changes_hna := changes_hna s; interfaces := interfaces s;
     spf_backoff_timer := spf_backoff_timer s; db := db s |}.

Definition set_links (x : gmap positive link_entry) (s : olsr_state) : olsr_state :=
  {| now_times := now_times s; random_count := random_count s;
     changes_neighborhood := changes_neighborhood s; changes_topology := changes_topology s;
     link_changes := link_changes s; nbrs := nbrs s; neighbortable := neighbortable s;
     nbr2s := nbr2s s; two_hop_neighbortable := two_hop_neighbortable s;
     mid_entries := mid_entries s; mid_set := mid_set s; mid_addresses := mid_addresses s;
     reverse_mid_set := reverse_mid_set s; ifnet := ifnet s; links := x;
     link_entry_head := link_entry_head s; mprs_list := mprs_list s; ansn := ansn s;
     main_addr := main_addr s; changes_hna := changes_hna s; interfaces := interfaces s;
     spf_backoff_timer := spf_backoff_timer s; db := db s |}.

Definition set_link_entry_head (x : list positive) (s : olsr_state) : olsr_state :=
  {| now_times := now_times s; random_count := random_count s;
     changes_neighborhood := changes_neighborhood s; changes_topology := changes_topology s;
     link_changes := link_changes s; nbrs := nbrs s; neighbortable := neighbortable s;
     nbr2s := nbr2s s; two_hop_neighbortable := two_hop_neighbortable s;
     mid_entries := mid_entries s; mid_set := mid_set s; mid_addresses := mid_addresses s;
     reverse_mid_set := reverse_mid_set s; ifnet := ifnet s; links := links s;
     link_entry_head := x; mprs_list := mprs_list s; ansn := ansn s; main_addr := main_addr s;
     changes_hna := changes_hna s; interfaces := interfaces s;
     spf_backoff_timer := spf_backoff_timer s; db := db s |}.

Definition set_mprs_list (x : list (positive * mpr_selector)) (s : olsr_state) : olsr_state :=
  {| now_times := now_times s; random_count := random_count s;
     changes_neighborhood := changes_neighborhood s; changes_topology := changes_topology s;
     link_changes := link_changes s; nbrs := nbrs s; neighbortable := neighbortable s;
     nbr2s := nbr2s s; two_hop_neighbortable := two_hop_neighbortable s;
     mid_entries := mid_entries s; mid_set := mid_set s; mid_addresses := mid_addresses s;
     reverse_mid_set := reverse_mid_set s; ifnet := ifnet s; links := links s;
     link_entry_head := link_entry_head s; mprs_list := x; ansn := ansn s;
     main_addr := main_addr s; changes_hna := changes_hna s; interfaces := interfaces s;
     spf_backoff_timer := spf_backoff_timer s; db := db s |}.

Definition set_ansn (x : Z) (s : olsr_state) : olsr_state :=
  {| now_times := now_times s; random_count := random_count s;
     changes_neighborhood := changes_neighborhood s; changes_topology := changes_topology s;
     link_changes := link_changes s; nbrs := nbrs s; neighbortable := neighbortable s;
     nbr2s := nbr2s s; two_hop_neighbortable := two_hop_neighbortable s;
     mid_entries := mid_entries s; mid_set := mid_set s; mid_addresses := mid_addresses s;
     reverse_mid_set := reverse_mid_set s; ifnet := ifnet s; links := links s;
     link_entry_head := link_entry_head s; mprs_list := mprs_list s; ansn := x;
     main_addr := main_addr s; changes_hna := changes_hna s; interfaces := interfaces s;
     spf_backoff_timer := spf_backoff_timer s; db := db s |}.

Definition set_main_addr (x : ip_addr) (s : olsr_state) : olsr_state :=
  {| now_times := now_times s; random_count := random_count s;
     changes_neighborhood := changes_neighborhood s; changes_topology := changes_topology s;
     link_changes := link_changes s; nbrs := nbrs s; neighbortable := neighbortable s;
     nbr2s := nbr2s s; two_hop_neighbortable := two_hop_neighbortable s;
     mid_entries := mid_entries s; mid_set := mid_set s; mid_addresses := mid_addresses s;
     reverse_mid_set := reverse_mid_set s; ifnet := ifnet s; links := links s;
     link_entry_head := link_entry_head s; mprs_list := mprs_list s; ansn := ansn s;
     main_addr := x; changes_hna := changes_hna s; interfaces := interfaces s;
     spf_backoff_timer := spf_backoff_timer s; db := db s |}.

Definition set_changes_hna (x : bool) (s : olsr_state) : olsr_state :=
  {| now_times := now_times s; random_count := random_count s;
     changes_neighborhood := changes_neighborhood s; changes_topology := changes_topology s;
     link_changes := link_changes s; nbrs := nbrs s; neighbortable := neighbortable s;
     nbr2s := nbr2s s; two_hop_neighbortable := two_hop_neighbortable s;
     mid_entries := mid_entries s; mid_set := mid_set s; mid_addresses := mid_addresses s;
     reverse_mid_set := reverse_mid_set s; ifnet := ifnet s; links := links s;
     link_entry_head := link_entry_head s; mprs_list := mprs_list s; ansn := ansn s;
     main_addr := main_addr s; changes_hna := x; interfaces := interfaces s;
     spf_backoff_timer := spf_backoff_timer s; db := db s |}.

Definition set_interfaces (x : list olsr_if) (s : olsr_state) : olsr_state :=
  {| now_times := now_times s; random_count := random_count s;
     changes_neighborhood := changes_neighborhood s; changes_topology := changes_topology s;
     link_changes := link_changes s; nbrs := nbrs s; neighbortable := neighbortable s;
     nbr2s := nbr2s s; two_hop_neighbortable := two_hop_neighbortable s;
     mid_entries := mid_entries s; mid_set := mid_set s; mid_addresses := mid_addresses s;
     reverse_mid_set := reverse_mid_set s; ifnet := ifnet s; links := links s;
     link_entry_head := link_entry_head s; mprs_list := mprs_list s; ansn := ansn s;
     main_addr := main_addr s; changes_hna := changes_hna s; interfaces := x;
     spf_backoff_timer := spf_backoff_timer s; db := db s |}.

Definition set_spf_backoff_timer (x : option timer_entry) (s : olsr_state) : olsr_state :=
  {| now_times := now_times s; random_count := random_count s;
     changes_neighborhood := changes_neighborhood s; changes_topology := changes_topology s;
     link_changes := link_changes s; nbrs := nbrs s; neighbortable := neighbortable s;
     nbr2s := nbr2s s; two_hop_neighbortable := two_hop_neighbortable s;
     mid_entries := mid_entries s; mid_set := mid_set s; mid_addresses := mid_addresses s;
     reverse_mid_set := reverse_mid_set s; ifnet := ifnet s; links := links s;
     link_entry_head := link_entry_head s; mprs_list := mprs_list s; ansn := ansn s;
     main_addr := main_addr s; changes_hna := changes_hna s; interfaces := interfaces s;
     spf_backoff_timer := x; db := db s |}.

Definition set_db (x : lsdb) (s : olsr_state) : olsr_state :=
  {| now_times := now_times s; random_count := random_count s;
     changes_neighborhood := changes_neighborhood s; changes_topology := changes_topology s;
     link_changes := link_changes s; nbrs := nbrs s; neighbortable := neighbortable s;
     nbr2s := nbr2s s; two_hop_neighbortable := two_hop_neighbortable s;
     mid_entries := mid_entries s; mid_set := mid_set s; mid_addresses := mid_addresses s;
     reverse_mid_set := reverse_mid_set s; ifnet := ifnet s; links := links s;
     link_entry_head := link_entry_head s; mprs_list := mprs_list s; ansn := ansn s;
     main_addr := main_addr s; changes_hna := changes_hna s; interfaces := interfaces s;
     spf_backoff_timer := spf_backoff_timer s; db := x |}.

(** ** Heaps and lists *)

Definition OM (A : Type) : Type := M olsr_state A.

Definition bucket (table : list (list positive)) (hash : Z) : list positive :=
  default [] (table !! Z.to_nat hash).

(** [QUEUE_ELEM(table[hash], p)]: behind the head. *)
Definition QUEUE_ELEM (hash : Z) (p : positive) (table : list (list positive)) : list (list positive) :=
  alter (cons p) (Z.to_nat hash) table.

(** [DEQUEUE_ELEM(p)]: an element is in at most one list. *)
Definition DEQUEUE_ELEM (p : positive) (table : list (list positive)) : list (list positive) :=
  map (filter (fun q => q <> p)) table.

(** The order of [OLSR_FOR_ALL_NBR_ENTRIES] and of the loops over all buckets. *)
Definition all_elems (table : list (list positive)) : list positive := concat table.

Definition empty_table : list (list positive) := replicate (Z.to_nat HASHSIZE) [].

Definition get_nbr (p : positive) : OM neighbor_entry := gets_opt (fun st => nbrs st !! p).
Definition get_nbr2 (p : positive) : OM neighbor_2_entry := gets_opt (fun st => nbr2s st !! p).

(** A write through a pointer; the object must be allocated. *)
Definition upd_nbr (p : positive) (f : neighbor_entry -> neighbor_entry) : OM unit :=
  let* n := get_nbr p in modify (fun st => set_nbrs (<[p := f n]> (nbrs st)) st).
Definition upd_nbr2 (p : positive) (f : neighbor_2_entry -> neighbor_2_entry) : OM unit :=
  let* n := get_nbr2 p in modify (fun st => set_nbr2s (<[p := f n]> (nbr2s st)) st).

Definition free_nbr (p : positive) : OM unit := 
  let* _ := get_nbr p in modify (fun st => set_nbrs (delete p (nbrs st)) st).
Definition free_nbr2 (p : positive) : OM unit :=
  let* _ := get_nbr2 p in modify (fun st => set_nbr2s (delete p (nbr2s st)) st).

Definition signal_link_changes (val : bool) : OM unit := modify (set_link_changes val).

(** Splits a state and its database into their fields. *)
Ltac destruct_state st := destruct st as [? ? ? ? ? ? ? ? ? ? ? ? ? ? ? ? ? ? ? ? ? ? []].

(** [wp_steps] with the primitive operations of this file. *)
Ltac wp_prims :=
  repeat first [progress wp_steps | progress unfold signal_link_changes].

(** ** Timers (scheduler.c) as seen by their owners: the pointer and the clock *)
Section timers.
Context {cnf : olsrd_config}.

Definition olsr_change_timer (t : option timer_entry) (rel_time jitter_pct : Z) (periodical : bool)
  : OM (option timer_entry) :=
  match t with
  | None => ret None
  | Some t =>
      let* now := gets now_times in
      ret (Some {| timer_clock := calc_jitter OLSR_RANDOM_MAX now rel_time jitter_pct (timer_random t);
                   timer_period := if periodical then rel_time else 0;
                   timer_jitter_pct := jitter_pct; timer_random := timer_random t |})
  end.

Definition olsr_start_timer (rel_time jitter_pct : Z) (periodical : bool) : OM timer_entry :=
  let* now := gets now_times in
  let* n := gets random_count in
  do* modify (set_random_count (n + 1)) in
  ret {| timer_clock := calc_jitter OLSR_RANDOM_MAX now rel_time jitter_pct (olsr_random n);
         timer_period := if periodical then rel_time else 0;
         timer_jitter_pct := jitter_pct; timer_random := olsr_random n |}.

(** The new value of the timer pointer. *)
Definition olsr_set_timer (t : option timer_entry) (rel_time jitter_pct : Z) (periodical : bool)
  : OM (option timer_entry) :=
  if rel_time =? 0 then ret None
  else match t with
  | None => let* t := olsr_start_timer rel_time jitter_pct periodical in ret (Some t)
  | Some _ => olsr_change_timer t rel_time jitter_pct periodical
  end.

(** The timer runs afterwards unless the time is zero. *)
Lemma wp_set_timer t rel j b (Q : option timer_entry -> olsr_state -> Prop) st :
  (forall t' k, (rel = 0 -> t' = None) -> (rel <> 0 -> is_Some t') -> Q t' (set_random_count k st)) ->
  wp (olsr_set_timer t rel j b) Q st.
Proof.
  intros HQ. assert (set_random_count (random_count st) st = st) as Hid by (by destruct st).
  unfold olsr_set_timer, olsr_start_timer, olsr_change_timer. destruct (rel =? 0) eqn:E.
  - apply Z.eqb_eq in E. apply wp_ret. rewrite <- Hid. by apply HQ.
  - apply Z.eqb_neq in E. destruct t; wp_steps; [rewrite <- Hid|]; apply HQ; try done; intros _; by eexists.
Qed.

Lemma wp_change_timer t rel j b (Q : option timer_entry -> olsr_state -> Prop) st :
  (forall t', (is_Some t' <-> is_Some t) -> Q t' st) -> wp (olsr_change_timer t rel j b) Q st.
Proof.
  intros HQ. unfold olsr_change_timer. destruct t; wp_steps; apply HQ; [|done]. split; intros _; by eexists.
Qed.

End timers.
