(* ===== verification/MidLookup.v ===== *)
(** * mid_set.c: the lookups the other tables make *)

From S2P Require Import Prelude IpAddr State.

Section mid_lookup.
Context {cnf : olsrd_config}.

(** The main address registered for an alias; reads [alias] of each element of the
    bucket and [main_entry->main_addr] of the hit. *)
Definition find_main_addr (st : olsr_state) (adr : ip_addr) : option (option ip_addr) :=
  hit ← findM (fun p => a ← mid_addresses st !! p; Some (ipequal ip_version (alias a) adr))
          (bucket (reverse_mid_set st) (olsr_ip_hashing ip_version adr));
  match hit with
  | None => Some None
  | Some p =>
      a ← mid_addresses st !! p;
      e ← mid_entries st !! main_entry a;
      Some (Some (mid_main_addr e))
  end.

Definition mid_lookup_main_addr (adr : ip_addr) : OM (option ip_addr) :=
  gets_opt (fun st => find_main_addr st adr).

Definition find_entry_bymain (st : olsr_state) (adr : ip_addr) : option (option positive) :=
  findM (fun p => e ← mid_entries st !! p; Some (ipequal ip_version (mid_main_addr e) adr))
    (bucket (mid_set st) (olsr_ip_hashing ip_version adr)).

Definition mid_lookup_entry_bymain (adr : ip_addr) : OM (option positive) :=
  gets_opt (fun st => find_entry_bymain st adr).

(** The chain of aliases of a main address, [NULL] as the empty list. *)
Definition find_aliases (st : olsr_state) (adr : ip_addr) : option (list positive) :=
  hit ← find_entry_bymain st adr;
  match hit with
  | None => Some []
  | Some p => e ← mid_entries st !! p; Some (aliases e)
  end.

Definition mid_lookup_aliases (adr : ip_addr) : OM (list positive) :=
  gets_opt (fun st => find_aliases st adr).

(** ** What makes the lookups safe *)

Record mid_ok (st : olsr_state) : Prop := {
  mid_set_alloc h p : p ∈ bucket (mid_set st) h -> is_Some (mid_entries st !! p);
  reverse_alloc h p : p ∈ bucket (reverse_mid_set st) h ->
    exists a, mid_addresses st !! p = Some a /\ is_Some (mid_entries st !! main_entry a);
  aliases_alloc p e q : mid_entries st !! p = Some e -> q ∈ aliases e -> is_Some (mid_addresses st !! q);
}.

Lemma find_main_addr_safe st adr : mid_ok st -> is_Some (find_main_addr st adr).
Proof.
  intros Hok. unfold find_main_addr.
  destruct (findM_spec (fun p => a ← mid_addresses st !! p; Some (ipequal ip_version (alias a) adr))
    (bucket (reverse_mid_set st) (olsr_ip_hashing ip_version adr))) as (r & -> & Hr).
  - intros p Hp. destruct (reverse_alloc _ Hok _ _ Hp) as (a & -> & _). by eexists.
  - simpl. destruct r as [p|]; [|by eexists]. destruct Hr as (l1 & l2 & El & Hp & _).
    assert (p ∈ bucket (reverse_mid_set st) (olsr_ip_hashing ip_version adr)) as Hin.
    { rewrite El. apply elem_of_app. right. left. }
    destruct (reverse_alloc _ Hok _ _ Hin) as (a & -> & e & He). simpl. rewrite He. by eexists.
Qed.

Lemma find_entry_bymain_safe st adr : mid_ok st ->
  exists r, find_entry_bymain st adr = Some r /\
    match r with Some p => is_Some (mid_entries st !! p) | None => True end.
Proof.
  intros Hok. unfold find_entry_bymain.
  destruct (findM_spec (fun p => e ← mid_entries st !! p; Some (ipequal ip_version (mid_main_addr e) adr))
    (bucket (mid_set st) (olsr_ip_hashing ip_version adr))) as (r & -> & Hr).
  - intros p Hp. destruct (mid_set_alloc _ Hok _ _ Hp) as (a & ->). by eexists.
  - exists r. split; [done|]. destruct r as [p|]; [|done]. destruct Hr as (l1 & l2 & El & Hp & _).
    destruct (mid_entries st !! p); [by eexists|done].
Qed.

Lemma find_aliases_safe st adr : mid_ok st ->
  exists l, find_aliases st adr = Some l /\ forall q, q ∈ l -> is_Some (mid_addresses st !! q).
Proof.
  intros Hok. unfold find_aliases.
  destruct (find_entry_bymain_safe st adr Hok) as (r & -> & Hr). simpl.
  destruct r as [p|].
  - destruct Hr as [e He]. rewrite He. simpl. exists (aliases e). split; [done|].
    intros q Hq. by eapply aliases_alloc.
  - exists []. split; [done|]. by intros q ?%not_elem_of_nil.
Qed.

(** The lookups depend on the MID tables only. *)
Definition mid_same (st st' : olsr_state) : Prop :=
  mid_entries st' = mid_entries st /\ mid_set st' = mid_set st /\
  mid_addresses st' = mid_addresses st /\ reverse_mid_set st' = reverse_mid_set st.

#[export] Instance mid_same_preorder : PreOrder mid_same.
Proof. unfold mid_same. split; red; [by auto|]. intros; naive_solver congruence. Qed.

Lemma mid_same_ok st st' : mid_same st st' -> mid_ok st -> mid_ok st'.
Proof. intros (E1 & E2 & E3 & E4) [H1 H2 H3]. split; rewrite ?E1, ?E2, ?E3, ?E4; done. Qed.

Lemma mid_same_main st st' adr : mid_same st st' -> find_main_addr st' adr = find_main_addr st adr.
Proof. intros (E1 & E2 & E3 & E4). unfold find_main_addr. by rewrite E1, E3, E4. Qed.

Lemma mid_same_aliases st st' adr : mid_same st st' -> find_aliases st' adr = find_aliases st adr.
Proof. intros (E1 & E2 & E3 & E4). unfold find_aliases, find_entry_bymain. by rewrite E1, E2. Qed.

End mid_lookup.
