(* ===== verification/Interfaces.v ===== *)
(** * interfaces.c: finding an interface

    [ifnet] is the list of the running interfaces. *)

From S2P Require Import Prelude IpAddr State.

Section interfaces.
Context {cnf : olsrd_config}.

Definition MAX_IF_METRIC : Z := 100.

Definition if_ifwithaddr (ifs : list interface_olsr) (addr : ip_addr) : option interface_olsr :=
  find (fun ifp => ipequal ip_version (if_ip_addr ifp) addr) ifs.

(** [strcmp(ifp->int_name, if_name)] reads the name of every interface passed. *)
Definition if_ifwithname (ifs : list interface_olsr) (if_name : string) : option (option interface_olsr) :=
  findM (fun ifp => name ← int_name ifp; Some (bool_decide (name = if_name))) ifs.

Definition if_ifwithindex (ifs : list interface_olsr) (index : Z) : option interface_olsr :=
  find (fun ifp => if_index ifp =? index) ifs.

End interfaces.
