(* ===== verification/NeighTable.v ===== *)
(** * neighbor_table.c and two_hop_neighbor_table.c *)

From S2P Require Import Prelude IpAddr State MidLookup.

Section neighbor_table.
Context {cnf : olsrd_config}.

Definition hashing (a : ip_addr) : Z := olsr_ip_hashing ip_version a.

(** ** two_hop_neighbor_table.c *)

Definition olsr_init_two_hop_table : OM unit := modify (set_two_hop_neighbortable empty_table).

(** Removes every element for [neigh] from the one-hop list of [two_hop_entry]. *)
Definition olsr_delete_neighbor_pointer (two_hop_entry neigh : positive) : OM unit :=
  upd_nbr2 two_hop_entry (fun m =>
    set_neighbor_2_nblist (filter (fun l => neighbor l <> neigh) (neighbor_2_nblist m)) m).

Definition olsr_insert_two_hop_neighbor_table (p : positive) : OM unit :=
  let* m := get_nbr2 p in
  modify (fun st => set_two_hop_neighbortable
    (QUEUE_ELEM (hashing (neighbor_2_addr m)) p (two_hop_neighbortable st)) st).

(** The test of one element: its address, then each of its aliases. *)
Definition two_hop_matches (st : olsr_state) (dest : ip_addr) (p : positive) : option bool :=
  m ← nbr2s st !! p;
  if ipequal ip_version (neighbor_2_addr m) dest then Some true
  else
    adrs ← find_aliases st (neighbor_2_addr m);
    hit ← findM (fun q => a ← mid_addresses st !! q; Some (ipequal ip_version (alias a) dest)) adrs;
    Some (match hit with Some _ => true | None => false end).

Definition olsr_lookup_two_hop_neighbor_table (dest : ip_addr) : OM (option positive) :=
  gets_opt (fun st => findM (two_hop_matches st dest) (bucket (two_hop_neighbortable st) (hashing dest))).

Definition olsr_lookup_two_hop_neighbor_table_mid (dest : ip_addr) : OM (option positive) :=
  gets_opt (fun st => findM (fun p => m ← nbr2s st !! p; Some (ipequal ip_version (neighbor_2_addr m) dest))
    (bucket (two_hop_neighbortable st) (hashing dest))).

(** ** neighbor_table.c *)

Definition olsr_init_neighbor_table : OM unit := modify (set_neighbortable empty_table).

(** [DEQUEUE_ELEM(nbr2_list); free(nbr2_list)] on the embedded list. *)
Fixpoint remove_nbr2 (q : positive) (l : list neighbor_2_list_entry) : list neighbor_2_list_entry :=
  match l with
  | [] => []
  | e :: l => if decide (neighbor_2 e = q) then l else e :: remove_nbr2 q l
  end.

(** The list element of neighbour [p] for two-hop neighbour [q]. Its timer is
    stopped by dropping the pointer. *)
Definition olsr_del_nbr2_list (p q : positive) : OM unit :=
  let* nbr2 := get_nbr2 q in
  do* when (neighbor_2_pointer nbr2 <? 1)
    (do* modify (fun st => set_two_hop_neighbortable (DEQUEUE_ELEM q (two_hop_neighbortable st)) st) in
     free_nbr2 q) in
  do* upd_nbr p (fun n => set_neighbor_2_list (remove_nbr2 q (neighbor_2_list n)) n) in
  do* modify (set_changes_neighborhood true) in
  modify (set_changes_topology true).

Definition olsr_delete_neighbor_2_pointer (neighbor neigh2 : positive) : OM bool :=
  let* n := get_nbr neighbor in
  if existsb (fun e => bool_decide (neighbor_2 e = neigh2)) (neighbor_2_list n)
  then do* olsr_del_nbr2_list neighbor neigh2 in ret true
  else ret false.

Definition olsr_delete_two_hop_neighbor_table (q : positive) : OM unit :=
  let* m := get_nbr2 q in
  do* forM_ (neighbor_2_nblist m) (fun l =>
    let* _ := olsr_delete_neighbor_2_pointer (neighbor l) q in ret tt) in
  do* modify (fun st => set_two_hop_neighbortable (DEQUEUE_ELEM q (two_hop_neighbortable st)) st) in
  free_nbr2 q.

(** The element of the neighbour's list with that address. *)
Definition olsr_lookup_my_neighbors (neighbor : positive) (addr : ip_addr)
  : OM (option neighbor_2_list_entry) :=
  let* n := get_nbr neighbor in
  gets_opt (fun st => findM (fun e => m ← nbr2s st !! neighbor_2 e;
    Some (ipequal ip_version (neighbor_2_addr m) addr)) (neighbor_2_list n)).

Definition olsr_update_neighbor_main_addr (entry : positive) (new_main_addr : ip_addr) : OM unit :=
  do* modify (fun st => set_neighbortable (DEQUEUE_ELEM entry (neighbortable st)) st) in
  do* upd_nbr entry (set_neighbor_main_addr new_main_addr) in
  modify (fun st => set_neighbortable
    (QUEUE_ELEM (hashing new_main_addr) entry (neighbortable st)) st).

Definition nbr_has_addr (st : olsr_state) (dst : ip_addr) (p : positive) : option bool :=
  n ← nbrs st !! p; Some (ipequal ip_version (neighbor_main_addr n) dst).

Definition find_nbr (st : olsr_state) (dst : ip_addr) : option (option positive) :=
  findM (nbr_has_addr st dst) (bucket (neighbortable st) (hashing dst)).

Definition olsr_lookup_neighbor_table_alias (dst : ip_addr) : OM (option positive) :=
  gets_opt (fun st => find_nbr st dst).

Definition olsr_lookup_neighbor_table (dst : ip_addr) : OM (option positive) :=
  let* tmp_ip := mid_lookup_main_addr dst in
  olsr_lookup_neighbor_table_alias (default dst tmp_ip).

(** The common part of [olsr_delete_neighbor_table] and [olsr_expire_nbr2_list]. *)
Definition unlink_nbr2 (p q : positive) : OM unit :=
  do* upd_nbr2 q (fun m => set_neighbor_2_pointer (s16 (neighbor_2_pointer m - 1)) m) in
  do* olsr_delete_neighbor_pointer q p in
  olsr_del_nbr2_list p q.

Definition olsr_delete_neighbor_table (neighbor_addr : ip_addr) : OM bool :=
  let* entry := olsr_lookup_neighbor_table_alias neighbor_addr in
  match entry with
  | None => ret false
  | Some p =>
      let* n := get_nbr p in
      do* forM_ (neighbor_2_list n) (fun e => unlink_nbr2 p (neighbor_2 e)) in
      do* modify (fun st => set_neighbortable (DEQUEUE_ELEM p (neighbortable st)) st) in
      do* free_nbr p in
      do* modify (set_changes_neighborhood true) in
      do* signal_link_changes true in
      ret true
  end.

Definition new_neighbor (main_addr : ip_addr) : neighbor_entry :=
  {| neighbor_main_addr := main_addr; status := NOT_SYM; willingness := WILL_NEVER;
     is_mpr := false; was_mpr := false; skip := false; neighbor_2_nocov := 0; linkcount := 0;
     neighbor_2_list := [] |}.

Definition olsr_insert_neighbor_table (main_addr : ip_addr) : OM positive :=
  let* entry := olsr_lookup_neighbor_table_alias main_addr in
  match entry with
  | Some p => ret p
  | None =>
      let* p := gets (fun st => alloc (nbrs st)) in
      do* modify (fun st => set_nbrs (<[p := new_neighbor main_addr]> (nbrs st)) st) in
      do* modify (fun st => set_neighbortable (QUEUE_ELEM (hashing main_addr) p (neighbortable st)) st) in
      ret p
  end.

Definition update_neighbor_status (entry : positive) (lnk : Z) : OM Z :=
  let* n := get_nbr entry in
  if lnk =? SYM_LINK then
    do* when (status n =? NOT_SYM)
      (let* two_hop_neighbor := olsr_lookup_two_hop_neighbor_table (neighbor_main_addr n) in
       do* match two_hop_neighbor with
         | Some q => olsr_delete_two_hop_neighbor_table q
         | None => ret tt
         end in
       do* modify (set_changes_neighborhood true) in
       do* modify (set_changes_topology true) in
       when (tc_redundancy >? 1) (signal_link_changes true)) in
    do* upd_nbr entry (set_status SYM) in
    ret SYM
  else
    do* when (status n =? SYM)
      (do* modify (set_changes_neighborhood true) in
       do* modify (set_changes_topology true) in
       when (tc_redundancy >? 1) (signal_link_changes true)) in
    do* upd_nbr entry (set_status NOT_SYM) in
    ret NOT_SYM.

Definition olsr_expire_nbr2_list (p q : positive) : OM unit := unlink_nbr2 p q.

End neighbor_table.
