(* ===== verification/NeighProofs.v ===== *)
(** * The invariant of the neighbour tables and its preservation *)

From S2P Require Import Prelude IpAddr State MidLookup NeighTable.

(** ** Hash tables *)
Section tables.

Lemma elem_of_bucket table h p : p ∈ bucket table h -> p ∈ all_elems table.
Proof.
  unfold bucket, all_elems. destruct (table !! Z.to_nat h) as [b|] eqn:E; simpl; [|by intros ?%not_elem_of_nil].
  intros Hp. apply list_elem_of_In, in_concat. exists b. rewrite <- !list_elem_of_In.
  split; [|done]. by eapply list_elem_of_lookup_2.
Qed.

Lemma all_elems_bucket table p : p ∈ all_elems table -> exists i b, table !! i = Some b /\ p ∈ b.
Proof.
  unfold all_elems. rewrite list_elem_of_In, in_concat. intros (b & Hb & Hp).
  rewrite <- !list_elem_of_In in *. apply list_elem_of_lookup in Hb as [i Hi]. by exists i, b.
Qed.

Lemma dequeue_elem p q table : q ∈ all_elems (DEQUEUE_ELEM p table) <-> q <> p /\ q ∈ all_elems table.
Proof.
  unfold all_elems, DEQUEUE_ELEM. induction table as [|b table IH]; simpl.
  - split; [by intros ?%not_elem_of_nil|]. by intros [_ ?%not_elem_of_nil].
  - rewrite !elem_of_app, IH, list_elem_of_filter. tauto.
Qed.

Lemma dequeue_length p table : length (DEQUEUE_ELEM p table) = length table.
Proof. apply length_map. Qed.

Lemma dequeue_all p table : all_elems (DEQUEUE_ELEM p table) = filter (fun q => q <> p) (all_elems table).
Proof.
  unfold all_elems, DEQUEUE_ELEM. induction table as [|b table IH]; simpl; [done|].
  by rewrite IH, filter_app.
Qed.

Lemma queue_length h p table : length (QUEUE_ELEM h p table) = length table.
Proof. apply length_alter. Qed.

Lemma queue_all h p table :
  (Z.to_nat h < length table)%nat -> all_elems (QUEUE_ELEM h p table) ≡ₚ p :: all_elems table.
Proof.
  unfold all_elems, QUEUE_ELEM. revert h.
  assert (forall i, (i < length table)%nat -> concat (alter (cons p) i table) ≡ₚ p :: concat table) as H.
  { induction table as [|b table IH]; simpl; intros i Hi; [lia|].
    destruct i as [|i]; simpl; [done|].
    etrans; [apply Permutation_app_head, (IH i); lia|]. by rewrite Permutation_middle. }
  intros h. apply H.
Qed.

End tables.

#[export] Hint Rewrite dequeue_length queue_length : olsr.

Section proofs.
Context {cnf : olsrd_config}.

(** ** The invariant

    [linked]: the neighbour's own list mentions the two-hop neighbour; [back]: the
    two-hop neighbour's list mentions the neighbour. *)
Definition linked (st : olsr_state) (p q : positive) : Prop :=
  exists n, nbrs st !! p = Some n /\ q ∈ map neighbor_2 (neighbor_2_list n).
Definition back (st : olsr_state) (p q : positive) : Prop :=
  exists m, nbr2s st !! q = Some m /\ p ∈ map neighbor (neighbor_2_nblist m).

(** A table and its heap agree: every object is in exactly one bucket, the one of
    its address. *)
Record table_ok {A} (heap : gmap positive A) (addr : A -> ip_addr) (table : list (list positive)) : Prop := {
  table_length : length table = Z.to_nat HASHSIZE;
  table_nodup : NoDup (all_elems table);
  table_alloc p : p ∈ all_elems table <-> is_Some (heap !! p);
  table_place p i b x : table !! i = Some b -> p ∈ b -> heap !! p = Some x -> i = Z.to_nat (hashing (addr x));
}.

(** [ok]: the pairs that are linked as well as back-linked; all of them except
    while a two-hop neighbour is being deleted. *)
Record nbr_wf_mod (ok : positive -> positive -> Prop) (st : olsr_state) : Prop := {
  wf_nbrs : table_ok (nbrs st) neighbor_main_addr (neighbortable st);
  wf_nbr2s : table_ok (nbr2s st) neighbor_2_addr (two_hop_neighbortable st);
  wf_addr p q n m : nbrs st !! p = Some n -> nbrs st !! q = Some m ->
    neighbor_main_addr n = neighbor_main_addr m -> p = q;
  wf_links p q : linked st p q <-> back st p q /\ ok p q;
  wf_own p n e : nbrs st !! p = Some n -> e ∈ neighbor_2_list n -> nbr2_nbr e = p;
  wf_linked_nodup p n : nbrs st !! p = Some n -> NoDup (map neighbor_2 (neighbor_2_list n));
  wf_back_nodup q m : nbr2s st !! q = Some m -> NoDup (map neighbor (neighbor_2_nblist m));
  wf_count q m : nbr2s st !! q = Some m -> neighbor_2_pointer m = Z.of_nat (length (neighbor_2_nblist m));
  wf_small q m : nbr2s st !! q = Some m -> 1 <= Z.of_nat (length (neighbor_2_nblist m)) < 32768;
  wf_back_alloc p q : back st p q -> is_Some (nbrs st !! p);
  wf_mid : mid_ok st;
}.

Definition nbr_wf : olsr_state -> Prop := nbr_wf_mod (fun _ _ => True).

(** ** Rules for the memory operations *)

Lemma wp_get_nbr p n (Q : neighbor_entry -> olsr_state -> Prop) st :
  nbrs st !! p = Some n -> Q n st -> wp (get_nbr p) Q st.
Proof. apply (wp_gets_opt (fun st => nbrs st !! p)). Qed.

Lemma wp_get_nbr2 p n (Q : neighbor_2_entry -> olsr_state -> Prop) st :
  nbr2s st !! p = Some n -> Q n st -> wp (get_nbr2 p) Q st.
Proof. apply (wp_gets_opt (fun st => nbr2s st !! p)). Qed.

Lemma wp_upd_nbr p f n (Q : unit -> olsr_state -> Prop) st :
  nbrs st !! p = Some n -> Q tt (set_nbrs (<[p := f n]> (nbrs st)) st) -> wp (upd_nbr p f) Q st.
Proof. intros Hp HQ. apply wp_bind. eapply wp_get_nbr; [done|]. by apply wp_modify. Qed.

Lemma wp_upd_nbr2 p f n (Q : unit -> olsr_state -> Prop) st :
  nbr2s st !! p = Some n -> Q tt (set_nbr2s (<[p := f n]> (nbr2s st)) st) -> wp (upd_nbr2 p f) Q st.
Proof. intros Hp HQ. apply wp_bind. eapply wp_get_nbr2; [done|]. by apply wp_modify. Qed.

Lemma wp_free_nbr p n (Q : unit -> olsr_state -> Prop) st :
  nbrs st !! p = Some n -> Q tt (set_nbrs (delete p (nbrs st)) st) -> wp (free_nbr p) Q st.
Proof. intros Hp HQ. apply wp_bind. eapply wp_get_nbr; [done|]. by apply wp_modify. Qed.

Lemma wp_free_nbr2 p n (Q : unit -> olsr_state -> Prop) st :
  nbr2s st !! p = Some n -> Q tt (set_nbr2s (delete p (nbr2s st)) st) -> wp (free_nbr2 p) Q st.
Proof. intros Hp HQ. apply wp_bind. eapply wp_get_nbr2; [done|]. by apply wp_modify. Qed.

(** ** Hash tables and their heaps *)
Section table_ops.
Context {A : Type} (addr : A -> ip_addr).
Implicit Types (heap : gmap positive A) (table : list (list positive)).

Lemma hashing_bound table heap a : table_ok heap addr table -> (Z.to_nat (hashing a) < length table)%nat.
Proof.
  intros Hok. rewrite (table_length _ _ _ Hok).
  pose proof (Z.land_ones (jenkins_hash (ip_bytes (ipsize ip_version) a)) 7) as Hl.
  unfold hashing, olsr_ip_hashing, HASHMASK, HASHSIZE. change (128 - 1) with (Z.ones 7).
  rewrite Hl by lia. apply Nat2Z.inj_lt. olia.
Qed.

Lemma table_bucket heap table p x : table_ok heap addr table -> heap !! p = Some x ->
  p ∈ bucket table (hashing (addr x)).
Proof.
  intros Hok Hp. assert (p ∈ all_elems table) as Hin by (apply (table_alloc _ _ _ Hok); by eexists).
  apply all_elems_bucket in Hin as (i & b & Hi & Hb).
  pose proof (table_place _ _ _ Hok _ _ _ _ Hi Hb Hp) as ->. unfold bucket. by rewrite Hi.
Qed.

Lemma table_ok_free heap table p :
  table_ok heap addr table -> table_ok (delete p heap) addr (DEQUEUE_ELEM p table).
Proof.
  intros [H1 H2 H3 H4]. split.
  - by rewrite dequeue_length.
  - rewrite dequeue_all. by apply NoDup_filter.
  - intros q. rewrite dequeue_elem, H3. destruct (decide (q = p)) as [->|Hn].
    + rewrite lookup_delete_eq. split; [tauto|]. by intros [? ?].
    + rewrite lookup_delete_ne by done. tauto.
  - intros q i b x Hi Hq. rewrite lookup_delete_Some. intros [Hn Hx].
    unfold DEQUEUE_ELEM in Hi. rewrite list_lookup_fmap in Hi.
    destruct (table !! i) as [b'|] eqn:E; simpl in Hi; [|done]. injection Hi as <-.
    apply list_elem_of_filter in Hq as [_ Hq]. by eapply H4.
Qed.

Lemma table_ok_new heap table p x :
  table_ok heap addr table -> heap !! p = None ->
  table_ok (<[p := x]> heap) addr (QUEUE_ELEM (hashing (addr x)) p table).
Proof.
  intros Hok Hp. pose proof (hashing_bound table heap (addr x) Hok) as Hh.
  pose proof (queue_all _ p table Hh) as Hq. destruct Hok as [H1 H2 H3 H4]. split.
  - by rewrite queue_length.
  - rewrite Hq. apply NoDup_cons. split; [|done]. rewrite H3, Hp. by intros [? ?].
  - intros q. rewrite Hq, elem_of_cons, H3. destruct (decide (q = p)) as [->|Hn].
    + rewrite lookup_insert_eq. split; [by eexists|by left].
    + rewrite lookup_insert_ne by done. tauto.
  - intros q i b y Hi Hqb Hy. unfold QUEUE_ELEM in Hi.
    destruct (decide (i = Z.to_nat (hashing (addr x)))) as [->|Hne].
    + rewrite list_lookup_alter_eq in Hi. destruct (table !! _) as [b'|] eqn:E; simpl in Hi; [|done].
      injection Hi as <-. apply elem_of_cons in Hqb as [->|Hqb].
      * rewrite lookup_insert_eq in Hy. by injection Hy as <-.
      * rewrite lookup_insert_ne in Hy; [by eapply H4|]. intros ->.
        assert (is_Some (heap !! q)) as [z Hz]; [|congruence].
        apply H3, (elem_of_bucket _ (hashing (addr x))). unfold bucket. by rewrite E.
    + rewrite list_lookup_alter_ne in Hi by done. rewrite lookup_insert_ne in Hy; [by eapply H4|].
      intros ->. assert (is_Some (heap !! q)) as [z Hz]; [|congruence].
      apply H3, (elem_of_bucket _ (Z.of_nat i)). unfold bucket. by rewrite Nat2Z.id, Hi.
Qed.

Lemma table_ok_update heap table p x y :
  table_ok heap addr table -> heap !! p = Some x -> addr y = addr x ->
  table_ok (<[p := y]> heap) addr table.
Proof.
  intros [H1 H2 H3 H4] Hp Ha. split; [done|done|..].
  - intros q. rewrite H3. destruct (decide (p = q)) as [->|Hn].
    + rewrite lookup_insert_eq, Hp. split; by eexists.
    + by rewrite lookup_insert_ne.
  - intros q i b z Hi Hq. rewrite lookup_insert_Some. intros [[<- <-]|[_ Hz]]; [|by eapply H4].
    rewrite Ha. by eapply H4.
Qed.

End table_ops.

(** ** Lookup *)

Lemma find_nbr_correct ok st a :
  nbr_wf_mod ok st ->
  exists r, find_nbr st a = Some r /\
    match r with
    | Some p => exists n, nbrs st !! p = Some n /\ neighbor_main_addr n = a
    | None => forall p n, nbrs st !! p = Some n -> neighbor_main_addr n <> a
    end.
Proof.
  intros Hwf. pose proof (wf_nbrs _ _ Hwf) as Ht. unfold find_nbr.
  destruct (findM_spec (nbr_has_addr st a) (bucket (neighbortable st) (hashing a))) as (r & -> & Hr).
  - intros p Hp. apply elem_of_bucket, (table_alloc _ _ _ Ht) in Hp as [n Hn].
    unfold nbr_has_addr. rewrite Hn. by eexists.
  - exists r. split; [done|]. unfold nbr_has_addr in Hr. destruct r as [p|].
    + destruct Hr as (l1 & l2 & El & Hp & _). destruct (nbrs st !! p) as [n|] eqn:E; simpl in Hp; [|done].
      injection Hp as Hp. apply ipequal_eq in Hp. by exists n.
    + intros p n Hp Ha. pose proof (table_bucket neighbor_main_addr _ _ p n Ht Hp) as Hb. rewrite Ha in Hb.
      specialize (Hr p Hb). rewrite Hp in Hr. simpl in Hr. injection Hr as Hr.
      by apply ipequal_neq in Hr.
Qed.

Lemma find_nbr_Some ok st a p n :
  nbr_wf_mod ok st -> nbrs st !! p = Some n -> neighbor_main_addr n = a -> find_nbr st a = Some (Some p).
Proof.
  intros Hwf Hp Ha. destruct (find_nbr_correct ok st a Hwf) as (r & -> & Hr). f_equal.
  destruct r as [q|]; [|by destruct (Hr _ _ Hp)]. destruct Hr as (m & Hq & Hm). f_equal.
  eapply wf_addr; [done..|]. congruence.
Qed.

Lemma wp_lookup_alias ok st a (Q : option positive -> olsr_state -> Prop) :
  nbr_wf_mod ok st ->
  (forall p n, nbrs st !! p = Some n -> neighbor_main_addr n = a -> Q (Some p) st) ->
  ((forall p n, nbrs st !! p = Some n -> neighbor_main_addr n <> a) -> Q None st) ->
  wp (olsr_lookup_neighbor_table_alias a) Q st.
Proof.
  intros Hwf H1 H2. destruct (find_nbr_correct ok st a Hwf) as (r & Hf & Hr).
  eapply (wp_gets_opt (fun st => find_nbr st a)); [exact Hf|].
  destruct r as [p|]; [destruct Hr as (n & ? & ?); by eapply H1|by apply H2].
Qed.

(** ** Removing one pair *)

Lemma remove_nbr2_map q l :
  NoDup (map neighbor_2 l) -> map neighbor_2 (remove_nbr2 q l) = filter (fun x => x <> q) (map neighbor_2 l).
Proof.
  induction l as [|e l IH]; simpl; [done|]. intros [Hn Hl]%NoDup_cons. rewrite filter_cons.
  destruct (decide (neighbor_2 e = q)) as [<-|Hne].
  - rewrite decide_False by tauto. symmetry. apply filter_all. intros x Hx.
    intros ->. by apply Hn.
  - rewrite decide_True by done. simpl. by rewrite IH.
Qed.

Lemma remove_nbr2_elem q l e : e ∈ remove_nbr2 q l -> e ∈ l.
Proof.
  induction l as [|e' l IH]; simpl; [done|]. destruct (decide _); [by right|].
  intros [->|H]%elem_of_cons; [left|right]; auto.
Qed.

(** Everything but the four neighbour tables, the flags and the random numbers. *)
Definition nbr_strip (st : olsr_state) : olsr_state :=
  set_nbrs ∅ (set_neighbortable [] (set_nbr2s ∅ (set_two_hop_neighbortable [] (set_random_count 0
    (set_changes_neighborhood false (set_changes_topology false (set_link_changes false st))))))).
Definition nbr_frame (st st' : olsr_state) : Prop := nbr_strip st' = nbr_strip st.

#[export] Instance nbr_frame_preorder : PreOrder nbr_frame.
Proof. unfold nbr_frame. split; [by intros ?|by intros ? ? ? -> ->]. Qed.

Lemma frame_mid st st' : nbr_frame st st' -> mid_same st st'.
Proof.
  intros H. split; [exact (f_equal mid_entries H)|]. split; [exact (f_equal mid_set H)|].
  split; [exact (f_equal mid_addresses H)|exact (f_equal reverse_mid_set H)].
Qed.

Lemma frame_links st st' : nbr_frame st st' -> links st' = links st /\ link_entry_head st' = link_entry_head st.
Proof. intros H. split; [exact (f_equal links H)|exact (f_equal link_entry_head H)]. Qed.

Lemma frame_env st st' : nbr_frame st st' -> db st' = db st /\ ifnet st' = ifnet st /\ now_times st' = now_times st.
Proof. intros H. split; [exact (f_equal db H)|]. split; [exact (f_equal ifnet H)|exact (f_equal now_times H)]. Qed.

Ltac frame := unfold nbr_frame, mid_same; simpl; auto 15.

(** What [unlink_nbr2] does. *)
Record unlinked (p q : positive) (n : neighbor_entry) (m : neighbor_2_entry) (st st' : olsr_state) : Prop := {
  ul_nbrs : nbrs st' = <[p := set_neighbor_2_list (remove_nbr2 q (neighbor_2_list n)) n]> (nbrs st);
  ul_table : neighbortable st' = neighbortable st;
  ul_nbr2s : nbr2s st' =
    if neighbor_2_pointer m =? 1 then delete q (nbr2s st)
    else <[q := set_neighbor_2_nblist (filter (fun l => neighbor l <> p) (neighbor_2_nblist m))
                 (set_neighbor_2_pointer (neighbor_2_pointer m - 1) m)]> (nbr2s st);
  ul_table2 : two_hop_neighbortable st' =
    if neighbor_2_pointer m =? 1 then DEQUEUE_ELEM q (two_hop_neighbortable st)
    else two_hop_neighbortable st;
  ul_frame : nbr_frame st st' /\ link_changes st' = link_changes st;
  ul_flags : changes_neighborhood st' = true /\ changes_topology st' = true;
}.

Lemma unlink_run p q n m st :
  nbrs st !! p = Some n -> nbr2s st !! q = Some m -> 1 <= neighbor_2_pointer m < 32768 ->
  wp (unlink_nbr2 p q) (fun _ => unlinked p q n m st) st.
Proof.
  intros Hp Hq Hm. unfold unlink_nbr2, olsr_delete_neighbor_pointer, olsr_del_nbr2_list.
  wp_step. eapply wp_upd_nbr2; [exact Hq|].
  wp_step. eapply wp_upd_nbr2; [apply lookup_insert_eq|].
  wp_step. eapply wp_get_nbr2; [apply lookup_insert_eq|]. cbn [neighbor_2_pointer set_neighbor_2_nblist set_neighbor_2_pointer].
  rewrite s16_id by (unfold is_s16; lia). cbn [nbr2s set_nbr2s]. rewrite insert_insert_eq.
  wp_step. wp_step.
  - bool_hyps. wp_steps. eapply wp_free_nbr2; [apply lookup_insert_eq|].
    wp_step. eapply wp_upd_nbr; [exact Hp|]. wp_steps.
    assert (neighbor_2_pointer m =? 1 = true) as E by (apply Z.eqb_eq; lia).
    split; simpl; rewrite ?E; try done; try frame. by rewrite delete_insert_eq.
  - bool_hyps. wp_step. eapply wp_upd_nbr; [exact Hp|]. wp_steps.
    assert (neighbor_2_pointer m =? 1 = false) as E by (apply Z.eqb_neq; lia).
    split; simpl; rewrite ?E; try done; frame.
Qed.

Lemma unlinked_linked ok p q n m st st' p' q' :
  nbr_wf_mod ok st -> nbrs st !! p = Some n -> unlinked p q n m st st' ->
  linked st' p' q' <-> linked st p' q' /\ ~ (p' = p /\ q' = q).
Proof.
  intros Hwf Hp Hu. unfold linked. rewrite (ul_nbrs _ _ _ _ _ _ Hu).
  destruct (decide (p' = p)) as [->|Hn].
  - rewrite lookup_insert_eq, Hp. pose proof (wf_linked_nodup _ _ Hwf _ _ Hp) as Hnd. split.
    + intros (n' & [= <-] & H). simpl in H. rewrite remove_nbr2_map in H by done.
      apply list_elem_of_filter in H as [H1 H2]. split; [by exists n|]. tauto.
    + intros [(n' & [= <-] & H) Hne]. eexists. split; [done|]. simpl.
      rewrite remove_nbr2_map by done. apply list_elem_of_filter. split; [|done]. tauto.
  - rewrite lookup_insert_ne by done. split; [|tauto]. intros H. split; [done|]. tauto.
Qed.

Lemma unlinked_back ok p q n m st st' p' q' :
  nbr_wf_mod ok st -> nbr2s st !! q = Some m -> back st p q -> unlinked p q n m st st' ->
  back st' p' q' <-> back st p' q' /\ ~ (p' = p /\ q' = q).
Proof.
  intros Hwf Hq Hb Hu. unfold back. rewrite (ul_nbr2s _ _ _ _ _ _ Hu).
  destruct Hb as (m0 & Hm0 & Hin). rewrite Hq in Hm0. injection Hm0 as <-.
  destruct (neighbor_2_pointer m =? 1) eqn:E; bool_hyps.
  - destruct (decide (q' = q)) as [->|Hn].
    + rewrite lookup_delete_eq, Hq. split; [by intros (? & ? & _)|].
      intros [(m' & [= <-] & H) Hne]. exfalso. apply Hne. split; [|done].
      pose proof (wf_count _ _ Hwf _ _ Hq) as Hc. rewrite E in Hc.
      destruct (neighbor_2_nblist m) as [|x [|y l]]; simpl in *; [lia| |lia].
      apply list_elem_of_singleton in Hin, H. congruence.
    + rewrite lookup_delete_ne by done. split; [|tauto]. intros H. split; [done|]. tauto.
  - destruct (decide (q' = q)) as [->|Hn].
    + rewrite lookup_insert_eq, Hq. split.
      * intros (m' & [= <-] & H). simpl in H. rewrite map_filter_neq in H.
        apply list_elem_of_filter in H as [H1 H2]. split; [by exists m|]. tauto.
      * intros [(m' & [= <-] & H) Hne]. eexists. split; [done|]. simpl. rewrite map_filter_neq.
        apply list_elem_of_filter. split; [|done]. tauto.
    + rewrite lookup_insert_ne by done. split; [|tauto]. intros H. split; [done|]. tauto.
Qed.

(** An entry of the tables after the removal of pairs: it had the same scalar
    fields before. *)
Lemma unlinked_nbr p q n m st st' p' n' :
  nbrs st !! p = Some n -> unlinked p q n m st st' -> nbrs st' !! p' = Some n' ->
  exists n0, nbrs st !! p' = Some n0 /\ n' = set_neighbor_2_list (neighbor_2_list n') n0 /\
    (forall e, e ∈ neighbor_2_list n' -> e ∈ neighbor_2_list n0) /\ (p' <> p -> n' = n0).
Proof.
  intros Hp Hu. rewrite (ul_nbrs _ _ _ _ _ _ Hu), lookup_insert_Some.
  intros [[<- <-]|[Hn H]].
  - exists n. split; [done|]. split; [done|]. split; [apply remove_nbr2_elem|done].
  - exists n'. split; [done|]. split; [by destruct n'|done].
Qed.

Lemma unlinked_nbr2 ok p q n m st st' q' m' :
  nbr_wf_mod ok st -> nbr2s st !! q = Some m -> back st p q -> unlinked p q n m st st' ->
  nbr2s st' !! q' = Some m' ->
  exists m0, nbr2s st !! q' = Some m0 /\ neighbor_2_addr m' = neighbor_2_addr m0 /\
    NoDup (map neighbor (neighbor_2_nblist m')) /\
    neighbor_2_pointer m' = Z.of_nat (length (neighbor_2_nblist m')) /\
    1 <= Z.of_nat (length (neighbor_2_nblist m')) < 32768.
Proof.
  intros Hwf Hq (m1 & Hm1 & Hin) Hu Hq'. rewrite Hq in Hm1. injection Hm1 as <-.
  pose proof (wf_back_nodup _ _ Hwf) as Hnd. pose proof (wf_count _ _ Hwf) as Hc.
  pose proof (wf_small _ _ Hwf) as Hs.
  rewrite (ul_nbr2s _ _ _ _ _ _ Hu) in Hq'. destruct (neighbor_2_pointer m =? 1) eqn:E; bool_hyps.
  - apply lookup_delete_Some in Hq' as [_ Hq']. exists m'. split; [done|]. split; [done|].
    split; [by eapply Hnd|]. split; [by eapply Hc|by eapply Hs].
  - apply lookup_insert_Some in Hq' as [[<- <-]|[_ Hq']].
    + exists m. split; [done|]. split; [done|]. simpl.
      pose proof (length_filter_neq neighbor p _ (Hnd _ _ Hq) Hin) as Hl.
      specialize (Hc _ _ Hq). specialize (Hs _ _ Hq). rewrite map_filter_neq.
      split; [by apply NoDup_filter, (Hnd q)|]. lia.
    + exists m'. split; [done|]. split; [done|].
      split; [by eapply Hnd|]. split; [by eapply Hc|by eapply Hs].
Qed.

Lemma unlinked_tables ok p q n m st st' :
  nbr_wf_mod ok st -> nbrs st !! p = Some n -> nbr2s st !! q = Some m -> unlinked p q n m st st' ->
  table_ok (nbrs st') neighbor_main_addr (neighbortable st') /\
  table_ok (nbr2s st') neighbor_2_addr (two_hop_neighbortable st').
Proof.
  intros Hwf Hp Hq Hu. destruct Hu as [E1 E2 E3 E4 _ _]. rewrite E1, E2, E3, E4. split.
  - by eapply table_ok_update; [apply Hwf|..].
  - destruct (neighbor_2_pointer m =? 1).
    + apply table_ok_free, Hwf.
    + by eapply table_ok_update; [apply Hwf|..].
Qed.

Lemma unlinked_wf p q n m st st' :
  nbr_wf st -> nbrs st !! p = Some n -> nbr2s st !! q = Some m -> back st p q ->
  unlinked p q n m st st' -> nbr_wf st'.
Proof.
  intros Hwf Hp Hq Hb Hu. destruct (unlinked_tables _ _ _ _ _ _ _ Hwf Hp Hq Hu) as [T1 T2].
  split; [done|done|..].
  - intros p1 p2 n1 n2 H1 H2 Ha.
    destruct (unlinked_nbr _ _ _ _ _ _ _ _ Hp Hu H1) as (n1' & Hn1 & E1 & _ & _).
    destruct (unlinked_nbr _ _ _ _ _ _ _ _ Hp Hu H2) as (n2' & Hn2 & E2 & _ & _).
    rewrite E1, E2 in Ha. by eapply (wf_addr _ _ Hwf).
  - intros p' q'. rewrite (unlinked_linked _ _ _ _ _ _ _ _ _ Hwf Hp Hu).
    rewrite (unlinked_back _ _ _ _ _ _ _ _ _ Hwf Hq Hb Hu), (wf_links _ _ Hwf). tauto.
  - intros p' n' e Hp' He. destruct (unlinked_nbr _ _ _ _ _ _ _ _ Hp Hu Hp') as (n0 & Hn0 & _ & Hl & _).
    eapply (wf_own _ _ Hwf); [done|]. by apply Hl.
  - intros p' n'. rewrite (ul_nbrs _ _ _ _ _ _ Hu), lookup_insert_Some. intros [[<- <-]|[_ H]].
    + simpl. rewrite remove_nbr2_map by (by eapply (wf_linked_nodup _ _ Hwf)).
      apply NoDup_filter. by eapply (wf_linked_nodup _ _ Hwf).
    + by eapply (wf_linked_nodup _ _ Hwf).
  - intros q' m' H. by destruct (unlinked_nbr2 _ _ _ _ _ _ _ _ _ Hwf Hq Hb Hu H) as (? & _ & _ & ? & _).
  - intros q' m' H. by destruct (unlinked_nbr2 _ _ _ _ _ _ _ _ _ Hwf Hq Hb Hu H) as (? & _ & _ & _ & ? & _).
  - intros q' m' H. by destruct (unlinked_nbr2 _ _ _ _ _ _ _ _ _ Hwf Hq Hb Hu H) as (? & _ & _ & _ & _ & ?).
  - intros p' q'. rewrite (unlinked_back _ _ _ _ _ _ _ _ _ Hwf Hq Hb Hu). intros [H _].
    apply (wf_back_alloc _ _ Hwf) in H as [n0 Hn0]. rewrite (ul_nbrs _ _ _ _ _ _ Hu).
    destruct (decide (p' = p)) as [->|Hn]; [rewrite lookup_insert_eq; by eexists|].
    rewrite lookup_insert_ne by done. by eexists.
  - eapply mid_same_ok; [|apply Hwf]. by destruct (ul_frame _ _ _ _ _ _ Hu) as [?%frame_mid _].
Qed.

(** [unlink_nbr2], the body of [olsr_expire_nbr2_list]. *)
Lemma wp_unlink p q n st :
  nbr_wf st -> nbrs st !! p = Some n -> linked st p q ->
  wp (unlink_nbr2 p q) (fun _ st' => nbr_wf st' /\ nbr_frame st st' /\
    link_changes st' = link_changes st /\
    nbrs st' = <[p := set_neighbor_2_list (remove_nbr2 q (neighbor_2_list n)) n]> (nbrs st) /\
    neighbortable st' = neighbortable st /\
    changes_neighborhood st' = true /\ changes_topology st' = true /\
    (forall p' q', back st' p' q' <-> back st p' q' /\ ~ (p' = p /\ q' = q)) /\
    (forall q', q' <> q -> nbr2s st' !! q' = nbr2s st !! q')) st.
Proof.
  intros Hwf Hp Hl. pose proof Hl as Hl'. apply (wf_links _ _ Hwf) in Hl' as [Hb _].
  pose proof Hb as (m & Hm & _).
  eapply wp_mono; [apply (unlink_run p q n m st Hp Hm)|].
  - rewrite (wf_count _ _ Hwf _ _ Hm). pose proof (wf_small _ _ Hwf _ _ Hm). lia.
  - intros _u st' Hu. pose proof Hu as [E1 E2 E3 E4 [E5 E6] [E7 E8]].
    split; [by eapply unlinked_wf|]. split; [done|]. split; [done|]. split; [done|]. split; [done|].
    split; [done|]. split; [done|]. split.
    + intros p' q'. by apply (unlinked_back _ _ _ _ _ _ _ _ _ Hwf Hm Hb Hu).
    + intros q' Hq'. rewrite E3. destruct (neighbor_2_pointer m =? 1).
      * by rewrite lookup_delete_ne.
      * by rewrite lookup_insert_ne.
Qed.

(** ** Deleting a neighbour *)

Lemma free_nbr_wf p n st st' :
  nbr_wf st -> nbrs st !! p = Some n -> neighbor_2_list n = [] ->
  nbrs st' = delete p (nbrs st) -> neighbortable st' = DEQUEUE_ELEM p (neighbortable st) ->
  nbr2s st' = nbr2s st -> two_hop_neighbortable st' = two_hop_neighbortable st -> mid_same st st' ->
  nbr_wf st'.
Proof.
  intros Hwf Hp Hl E1 E2 E3 E4 Hmid.
  assert (forall q, ~ linked st p q) as Hnl.
  { intros q (n' & Hn' & Hq). rewrite Hp in Hn'. injection Hn' as <-. rewrite Hl in Hq.
    by apply not_elem_of_nil in Hq. }
  assert (forall p' q', back st' p' q' <-> back st p' q') as Hback by (unfold back; by rewrite E3).
  assert (forall q, ~ back st p q) as Hnb.
  { intros q Hq. apply (Hnl q). by apply (wf_links _ _ Hwf). }
  split; rewrite ?E1, ?E2, ?E3, ?E4.
  - apply table_ok_free, Hwf.
  - apply Hwf.
  - intros p1 p2 n1 n2 [_ H1]%lookup_delete_Some [_ H2]%lookup_delete_Some. by eapply wf_addr.
  - intros p' q'. rewrite Hback, <- (wf_links _ _ Hwf). unfold linked. rewrite E1.
    destruct (decide (p' = p)) as [->|Hn].
    + split; [|by intros ?%Hnl]. intros (x & Hx & _). by rewrite lookup_delete_eq in Hx.
    + by rewrite lookup_delete_ne.
  - intros p' n' e [_ H]%lookup_delete_Some. by eapply wf_own.
  - intros p' n' [_ H]%lookup_delete_Some. by eapply wf_linked_nodup.
  - apply Hwf.
  - apply Hwf.
  - apply Hwf.
  - intros p' q' Hb%Hback. destruct (decide (p' = p)) as [->|Hn]; [by apply Hnb in Hb|].
    rewrite lookup_delete_ne by done. by apply (wf_back_alloc _ _ Hwf) in Hb.
  - eapply mid_same_ok; [done|apply Hwf].
Qed.

(** The loop over the neighbour's two-hop neighbours. *)
Lemma wp_unlink_all p n st :
  nbr_wf st -> nbrs st !! p = Some n ->
  wp (forM_ (neighbor_2_list n) (fun e => unlink_nbr2 p (neighbor_2 e))) (fun _ st' =>
    nbr_wf st' /\ nbr_frame st st' /\ link_changes st' = link_changes st /\
    nbrs st' = <[p := set_neighbor_2_list [] n]> (nbrs st) /\ neighbortable st' = neighbortable st /\
    (forall p' q', back st' p' q' <-> back st p' q' /\ p' <> p) /\
    (forall q', ~ back st p q' -> nbr2s st' !! q' = nbr2s st !! q')) st.
Proof.
  intros Hwf Hp.
  assert (forall p' q', back st p' q' <-> linked st p' q') as Hbl.
  { intros p' q'. rewrite (wf_links _ _ Hwf). tauto. }
  apply (wp_forM _ _ (fun l st' => nbr_wf st' /\ nbr_frame st st' /\ link_changes st' = link_changes st /\
    nbrs st' = <[p := set_neighbor_2_list l n]> (nbrs st) /\ neighbortable st' = neighbortable st /\
    (forall p' q', back st' p' q' <-> back st p' q' /\ (p' = p -> q' ∈ map neighbor_2 l)) /\
    (forall q', ~ back st p q' -> nbr2s st' !! q' = nbr2s st !! q'))).
  - split; [done|]. split; [done|]. split; [done|]. split.
    { rewrite insert_id; [done|]. rewrite Hp. by destruct n. }
    split; [done|]. split; [|done]. intros p' q'. split; [|tauto]. intros H. split; [done|].
    intros ->. apply Hbl in H as (n' & Hn' & H). rewrite Hp in Hn'. by injection Hn' as <-.
  - intros e l st1 (Hwf1 & Hf & Hlc & Hn & Ht & Hb & H2).
    assert (nbrs st1 !! p = Some (set_neighbor_2_list (e :: l) n)) as Hp1.
    { rewrite Hn. apply lookup_insert_eq. }
    assert (linked st1 p (neighbor_2 e)) as Hlk.
    { eexists. split; [exact Hp1|]. simpl. left. }
    pose proof Hlk as Hbk. apply (wf_links _ _ Hwf1) in Hbk as [Hbk%Hb _].
    eapply wp_mono; [by apply (wp_unlink p (neighbor_2 e) _ st1 Hwf1 Hp1)|].
    intros _u st2 (Hwf2 & Hf2 & Hlc2 & Hn2 & Ht2 & _ & _ & Hb2 & H22).
    split; [done|]. split; [by etrans|]. split; [congruence|].
    split.
    { rewrite Hn2, Hn, insert_insert_eq. simpl. rewrite decide_True by done. done. }
    split; [congruence|]. split.
    + intros p' q'. rewrite Hb2, Hb. simpl. rewrite elem_of_cons.
      pose proof (wf_linked_nodup _ _ Hwf1 _ _ Hp1) as Hnd. simpl in Hnd.
      apply NoDup_cons in Hnd as [Hnd _]. split.
      * intros [[H1 Hi] Hne]. split; [done|]. intros Hpp. destruct (Hi Hpp); [|done]. exfalso. tauto.
      * intros [H1 Hi]. split; [tauto|]. intros [Hpp ->]. apply Hnd. by apply Hi.
    + intros q' Hq'. rewrite H22; [by apply H2|]. intros ->. tauto.
  - intros st' (Hwf' & Hf & Hlc & Hn & Ht & Hb & H2). split; [done|]. split; [done|]. split; [done|].
    split; [done|]. split; [done|]. split; [|done]. intros p' q'. rewrite Hb. simpl.
    split; intros [? Hi]; (split; [done|]).
    + intros ->. by apply not_elem_of_nil in Hi.
    + intros ->. done.
Qed.

Lemma wp_delete_neighbor a st :
  nbr_wf st ->
  wp (olsr_delete_neighbor_table a) (fun found st' =>
    nbr_wf st' /\ nbr_frame st st' /\
    match find_nbr st a with
    | Some (Some p) => found = true /\ nbrs st' = delete p (nbrs st) /\
        neighbortable st' = DEQUEUE_ELEM p (neighbortable st) /\
        (forall p' q', back st' p' q' <-> back st p' q' /\ p' <> p) /\
        (forall q', ~ back st p q' -> nbr2s st' !! q' = nbr2s st !! q') /\
        changes_neighborhood st' = true /\ link_changes st' = true
    | _ => found = false /\ st' = st
    end) st.
Proof.
  intros Hwf. unfold olsr_delete_neighbor_table. wp_step.
  eapply wp_lookup_alias; [done|..].
  - intros p n Hp Ha. rewrite (find_nbr_Some _ _ _ _ _ Hwf Hp Ha).
    wp_step. eapply wp_get_nbr; [exact Hp|]. wp_step.
    eapply wp_mono; [by apply wp_unlink_all|].
    intros _u st1 (Hwf1 & Hf1 & _ & Hn1 & Ht1 & Hb1 & H21). wp_steps.
    eapply wp_free_nbr; [simpl; rewrite Hn1; apply lookup_insert_eq|]. wp_prims.
    match goal with |- nbr_wf ?st' /\ _ => set (st2 := st') end.
    assert (nbrs st2 = delete p (nbrs st)) as En.
    { simpl. by rewrite Hn1, delete_insert_eq. }
    split; [|split; [|split_and!]]; try done.
    + assert (nbrs st1 !! p = Some (set_neighbor_2_list [] n)) as Hp1.
      { rewrite Hn1. apply lookup_insert_eq. }
      eapply (free_nbr_wf p _ st1 _ Hwf1 Hp1); done.
    + by simpl; rewrite Ht1.
  - intros Hn. destruct (find_nbr_correct _ _ a Hwf) as ([p|] & Hf & Hr).
    + destruct Hr as (n & Hp & Ha). by destruct (Hn p n).
    + rewrite Hf. wp_steps. done.
Qed.

(** ** Deleting a two-hop neighbour *)

Definition drop_nbr2 (q : positive) (n : neighbor_entry) : neighbor_entry :=
  set_neighbor_2_list (remove_nbr2 q (neighbor_2_list n)) n.

Lemma remove_nbr2_notin q l : q ∉ map neighbor_2 l -> remove_nbr2 q l = l.
Proof.
  induction l as [|e l IH]; simpl; [done|]. rewrite not_elem_of_cons. intros [Hn Hl].
  rewrite decide_False by congruence. by rewrite IH.
Qed.

Lemma drop_nbr2_notin q n : q ∉ map neighbor_2 (neighbor_2_list n) -> drop_nbr2 q n = n.
Proof. intros H. unfold drop_nbr2. rewrite remove_nbr2_notin by done. by destruct n. Qed.

(** Deleting the pair from the neighbour's side only. *)
Lemma wp_delete_neighbor_2_pointer p q n m st :
  nbrs st !! p = Some n -> nbr2s st !! q = Some m -> 1 <= neighbor_2_pointer m ->
  q ∈ map neighbor_2 (neighbor_2_list n) ->
  wp (olsr_delete_neighbor_2_pointer p q) (fun _ st' =>
    nbrs st' = <[p := drop_nbr2 q n]> (nbrs st) /\ neighbortable st' = neighbortable st /\
    nbr2s st' = nbr2s st /\ two_hop_neighbortable st' = two_hop_neighbortable st /\
    nbr_frame st st' /\ link_changes st' = link_changes st) st.
Proof.
  intros Hp Hq Hm Hin. unfold olsr_delete_neighbor_2_pointer. wp_step. eapply wp_get_nbr; [exact Hp|].
  assert (existsb (fun e => bool_decide (neighbor_2 e = q)) (neighbor_2_list n) = true) as ->.
  { apply existsb_exists. apply list_elem_of_fmap in Hin as (e & -> & He).
    exists e. rewrite <- list_elem_of_In. split; [done|]. by apply bool_decide_eq_true. }
  unfold olsr_del_nbr2_list. wp_step. wp_step. eapply wp_get_nbr2; [exact Hq|].
  wp_step. wp_step; bool_hyps; [lia|].
  wp_step. eapply wp_upd_nbr; [exact Hp|]. wp_steps. split_and!; try done.
Qed.

(** The state in the middle of the loop: [l] is still linked. *)
Definition unlinking (q : positive) (l : list positive) (p' q' : positive) : Prop := q' = q -> p' ∈ l.

Lemma drop_linked ok p q n st st' p' q' :
  nbr_wf_mod ok st -> nbrs st !! p = Some n -> nbrs st' = <[p := drop_nbr2 q n]> (nbrs st) ->
  linked st' p' q' <-> linked st p' q' /\ ~ (p' = p /\ q' = q).
Proof.
  intros Hwf Hp E. unfold linked. rewrite E. destruct (decide (p' = p)) as [->|Hn].
  - pose proof (wf_linked_nodup _ _ Hwf _ _ Hp) as Hnd. rewrite lookup_insert_eq, Hp. split.
    + intros (n' & [= <-] & H). simpl in H. rewrite remove_nbr2_map in H by done.
      apply list_elem_of_filter in H as [H1 H2]. split; [by exists n|]. tauto.
    + intros [(n' & [= <-] & H) Hne]. eexists. split; [done|]. simpl.
      rewrite remove_nbr2_map by done. apply list_elem_of_filter. split; [|done]. tauto.
  - rewrite lookup_insert_ne by done. split; [|tauto]. intros H. split; [done|]. tauto.
Qed.

Lemma addr_update ok st p n x p1 p2 n1 n2 :
  nbr_wf_mod ok st -> nbrs st !! p = Some n -> neighbor_main_addr x = neighbor_main_addr n ->
  <[p := x]> (nbrs st) !! p1 = Some n1 -> <[p := x]> (nbrs st) !! p2 = Some n2 ->
  neighbor_main_addr n1 = neighbor_main_addr n2 -> p1 = p2.
Proof.
  intros Hwf Hp Hx. assert (forall p' n', <[p := x]> (nbrs st) !! p' = Some n' ->
    exists n0, nbrs st !! p' = Some n0 /\ neighbor_main_addr n0 = neighbor_main_addr n') as H.
  { intros p' n'. rewrite lookup_insert_Some. intros [[<- <-]|[_ H]]; [by exists n|by exists n']. }
  intros (m1 & H1 & E1)%H (m2 & H2 & E2)%H Ha. eapply (wf_addr _ _ Hwf); [done..|]. congruence.
Qed.

(** A state that differs in the lists of the neighbours only, which got shorter. *)
Lemma drop_wf p q n l st st' :
  nbr_wf_mod (unlinking q (p :: l)) st -> p ∉ l -> nbrs st !! p = Some n ->
  nbrs st' = <[p := drop_nbr2 q n]> (nbrs st) -> neighbortable st' = neighbortable st ->
  nbr2s st' = nbr2s st -> two_hop_neighbortable st' = two_hop_neighbortable st -> mid_same st st' ->
  nbr_wf_mod (unlinking q l) st'.
Proof.
  intros Hwf Hpl Hp E1 E2 E3 E4 Hmid. split; rewrite ?E1, ?E2, ?E3, ?E4; try apply Hwf.
  - by eapply table_ok_update; [apply Hwf|..].
  - intros p1 p2 n1 n2. by eapply addr_update.
  - intros p' q'. rewrite (drop_linked _ _ _ _ _ _ _ _ Hwf Hp E1), (wf_links _ _ Hwf).
    unfold back. rewrite E3. unfold unlinking. rewrite elem_of_cons. split.
    + intros [[Hb Hu] Hne]. split; [done|]. intros ->. destruct (Hu eq_refl); [|done]. exfalso. tauto.
    + intros [Hb Hu]. split; [split; [done|tauto]|]. intros [-> ->]. apply Hpl. by apply Hu.
  - intros p' n' e. rewrite lookup_insert_Some. intros [[<- <-]|[_ H]] He; [|by eapply (wf_own _ _ Hwf)].
    apply remove_nbr2_elem in He. by eapply (wf_own _ _ Hwf).
  - intros p' n'. rewrite lookup_insert_Some. intros [[<- <-]|[_ H]]; [|by eapply (wf_linked_nodup _ _ Hwf)].
    simpl. pose proof (wf_linked_nodup _ _ Hwf _ _ Hp) as Hnd.
    rewrite remove_nbr2_map by done. by apply NoDup_filter.
  - intros p' q' Hb. assert (back st p' q') as Hb' by (unfold back in *; by rewrite <- E3).
    apply (wf_back_alloc _ _ Hwf) in Hb' as [x Hx]. destruct (decide (p' = p)) as [->|Hn].
    + rewrite lookup_insert_eq. by eexists.
    + rewrite lookup_insert_ne by done. by eexists.
  - eapply mid_same_ok; [done|apply Hwf].
Qed.

Lemma free_nbr2_wf q st st' :
  nbr_wf_mod (unlinking q []) st ->
  nbrs st' = nbrs st -> neighbortable st' = neighbortable st ->
  nbr2s st' = delete q (nbr2s st) -> two_hop_neighbortable st' = DEQUEUE_ELEM q (two_hop_neighbortable st) ->
  mid_same st st' -> nbr_wf st'.
Proof.
  intros Hwf E1 E2 E3 E4 Hmid. split; rewrite ?E1, ?E2, ?E3, ?E4; try apply Hwf.
  - apply table_ok_free, Hwf.
  - intros p' q'. assert (linked st' p' q' <-> linked st p' q') as -> by (unfold linked; by rewrite E1).
    rewrite (wf_links _ _ Hwf). unfold back, unlinking. rewrite E3. split.
    + intros [Hb Hu]. split; [|done]. destruct (decide (q' = q)) as [->|Hn].
      * specialize (Hu eq_refl). by apply not_elem_of_nil in Hu.
      * by rewrite lookup_delete_ne.
    + intros [(m & Hm & Hin) _]. apply lookup_delete_Some in Hm as [Hn Hm].
      split; [by exists m|]. intros ->. done.
  - intros q' m [_ H]%lookup_delete_Some. by eapply (wf_back_nodup _ _ Hwf).
  - intros q' m [_ H]%lookup_delete_Some. by eapply (wf_count _ _ Hwf).
  - intros q' m [_ H]%lookup_delete_Some. by eapply (wf_small _ _ Hwf).
  - intros p' q' (m & Hm & Hin). rewrite E3 in Hm. apply lookup_delete_Some in Hm as [_ Hm].
    eapply (wf_back_alloc _ _ Hwf). by exists m.
  - eapply mid_same_ok; [done|apply Hwf].
Qed.

Lemma wp_delete_two_hop q m st :
  nbr_wf st -> nbr2s st !! q = Some m ->
  wp (olsr_delete_two_hop_neighbor_table q) (fun _ st' =>
    nbr_wf st' /\ nbr_frame st st' /\ link_changes st' = link_changes st /\
    nbrs st' = drop_nbr2 q <$> nbrs st /\ neighbortable st' = neighbortable st /\
    nbr2s st' = delete q (nbr2s st)) st.
Proof.
  intros Hwf Hq. unfold olsr_delete_two_hop_neighbor_table.
  wp_step. eapply wp_get_nbr2; [exact Hq|]. wp_step.
  eapply (wp_forM _ _ (fun l st' => let ps := map neighbor l in
    nbr_wf_mod (unlinking q ps) st' /\ nbr_frame st st' /\ link_changes st' = link_changes st /\
    neighbortable st' = neighbortable st /\ nbr2s st' = nbr2s st /\
    two_hop_neighbortable st' = two_hop_neighbortable st /\ NoDup ps /\
    (forall p, p ∈ ps -> back st p q) /\
    forall p, nbrs st' !! p = (fun n => if decide (p ∈ ps) then n else drop_nbr2 q n) <$> nbrs st !! p)).
  - simpl. split_and!; try done.
    + split; try apply Hwf. intros p' q'. rewrite (wf_links _ _ Hwf). unfold unlinking.
      split; intros [Hb _]; (split; [done|]); [|done]. intros ->. destruct Hb as (m' & Hm' & Hin).
      rewrite Hq in Hm'. by injection Hm' as <-.
    + by apply (wf_back_nodup _ _ Hwf q).
    + intros p Hp. by exists m.
    + intros p. destruct (nbrs st !! p) as [n|] eqn:E; simpl; [|done]. f_equal.
      destruct (decide _) as [|Hn]; [done|]. symmetry. apply drop_nbr2_notin. intros Hin.
      assert (linked st p q) as Hl by (by exists n). apply (wf_links _ _ Hwf) in Hl as [(m' & Hm' & H) _].
      rewrite Hq in Hm'. injection Hm' as <-. done.
  - intros e l st1 (Hwf1 & Hf & Hlc & Ht & H2 & Ht2 & Hnd & Hback & Hn). simpl in *.
    apply NoDup_cons in Hnd as [Hnl Hnd].
    assert (linked st1 (neighbor e) q) as Hl.
    { apply (wf_links _ _ Hwf1). split; [|by left]. unfold back. rewrite H2. apply Hback. left. }
    destruct Hl as (n & Hn1 & Hin).
    assert (nbr2s st1 !! q = Some m) as Hq1 by (by rewrite H2).
    assert (1 <= neighbor_2_pointer m) as Hcount.
    { rewrite (wf_count _ _ Hwf _ _ Hq). pose proof (wf_small _ _ Hwf _ _ Hq). lia. }
    wp_step. eapply wp_mono; [by apply (wp_delete_neighbor_2_pointer _ _ n m st1)|].
    intros _b st2 (E1 & E2 & E3 & E4 & E5 & E6). wp_steps.
    split; [by eapply drop_wf; try done; apply frame_mid|]. split; [by etrans|]. split; [congruence|].
    split; [congruence|]. split; [congruence|]. split; [congruence|]. split; [done|].
    split; [intros p Hp; apply Hback; by right|].
    intros p. rewrite E1. destruct (decide (p = neighbor e)) as [->|Hne].
    + rewrite lookup_insert_eq. specialize (Hn (neighbor e)). rewrite Hn1 in Hn.
      destruct (nbrs st !! neighbor e) as [n0|]; simpl in *; [|done]. injection Hn as ->.
      rewrite decide_True by left. by rewrite decide_False.
    + rewrite lookup_insert_ne by done. rewrite Hn. destruct (nbrs st !! p); simpl; [|done].
      f_equal. destruct (decide (p ∈ map neighbor l)) as [Hpl|Hpl].
      * by rewrite decide_True by (by right).
      * rewrite decide_False; [done|]. by rewrite not_elem_of_cons.
  - intros st1 (Hwf1 & Hf & Hlc & Ht & H2 & Ht2 & _ & _ & Hn). simpl in *. wp_steps.
    eapply (wp_free_nbr2 q m); [simpl; by rewrite H2|].
    split; [|split_and!]; simpl; try done.
    + by eapply (free_nbr2_wf q st1).
    + apply map_eq. intros p. rewrite Hn, lookup_fmap. done.
    + by rewrite H2.
Qed.

(** ** Inserting a neighbour *)

Lemma insert_nbr_wf p a st st' :
  nbr_wf st -> nbrs st !! p = None -> (forall p n, nbrs st !! p = Some n -> neighbor_main_addr n <> a) ->
  nbrs st' = <[p := new_neighbor a]> (nbrs st) ->
  neighbortable st' = QUEUE_ELEM (hashing a) p (neighbortable st) ->
  nbr2s st' = nbr2s st -> two_hop_neighbortable st' = two_hop_neighbortable st -> mid_same st st' ->
  nbr_wf st'.
Proof.
  intros Hwf Hp Ha E1 E2 E3 E4 Hmid. split; rewrite ?E1, ?E2, ?E3, ?E4; try apply Hwf.
  - by apply (table_ok_new neighbor_main_addr _ _ p (new_neighbor a)); [apply Hwf|].
  - intros p1 p2 n1 n2 H1 H2 He. apply lookup_insert_Some in H1, H2.
    destruct H1 as [[Hp1 <-]|[Hn1 H1]], H2 as [[Hp2 <-]|[Hn2 H2]]; simpl in *.
    + congruence.
    + by destruct (Ha _ _ H2).
    + by destruct (Ha _ _ H1).
    + by eapply (wf_addr _ _ Hwf).
  - intros p' q'. assert (back st' p' q' <-> back st p' q') as -> by (unfold back; by rewrite E3).
    rewrite <- (wf_links _ _ Hwf). unfold linked. rewrite E1. destruct (decide (p' = p)) as [->|Hn].
    + rewrite lookup_insert_eq, Hp. split; [|by intros (? & ? & _)].
      intros (n & [= <-] & H). simpl in H. by apply not_elem_of_nil in H.
    + by rewrite lookup_insert_ne.
  - intros p' n' e. rewrite lookup_insert_Some. intros [[<- <-]|[_ H]] He; [|by eapply (wf_own _ _ Hwf)].
    by apply not_elem_of_nil in He.
  - intros p' n'. rewrite lookup_insert_Some. intros [[<- <-]|[_ H]]; [|by eapply (wf_linked_nodup _ _ Hwf)].
    constructor.
  - intros p' q' Hb. assert (back st p' q') as Hb' by (unfold back in *; by rewrite <- E3).
    apply (wf_back_alloc _ _ Hwf) in Hb' as [x Hx]. rewrite lookup_insert_ne by congruence. by eexists.
  - eapply mid_same_ok; [done|apply Hwf].
Qed.

Lemma wp_insert_neighbor a st :
  nbr_wf st ->
  wp (olsr_insert_neighbor_table a) (fun p st' =>
    nbr_wf st' /\ nbr_frame st st' /\ nbr2s st' = nbr2s st /\
    match find_nbr st a with
    | Some (Some q) => p = q /\ st' = st
    | _ => nbrs st !! p = None /\ nbrs st' = <[p := new_neighbor a]> (nbrs st)
    end) st.
Proof.
  intros Hwf. unfold olsr_insert_neighbor_table. wp_step. eapply wp_lookup_alias; [done|..].
  - intros p n Hp Ha. rewrite (find_nbr_Some _ _ _ _ _ Hwf Hp Ha). wp_steps. split_and!; done.
  - intros Hn. destruct (find_nbr_correct _ _ a Hwf) as ([p|] & Hf & Hr).
    { destruct Hr as (n & Hp & Ha). by destruct (Hn p n). }
    rewrite Hf. wp_steps. split; [|split_and!]; try done; [|apply alloc_fresh].
    eapply (insert_nbr_wf (alloc (nbrs st)) a st); try done. apply alloc_fresh.
Qed.

(** ** Changing the main address of a neighbour *)

Lemma main_addr_wf p n a st st' :
  nbr_wf st -> nbrs st !! p = Some n -> (forall q k, nbrs st !! q = Some k -> neighbor_main_addr k = a -> q = p) ->
  nbrs st' = <[p := set_neighbor_main_addr a n]> (nbrs st) ->
  neighbortable st' = QUEUE_ELEM (hashing a) p (DEQUEUE_ELEM p (neighbortable st)) ->
  nbr2s st' = nbr2s st -> two_hop_neighbortable st' = two_hop_neighbortable st -> mid_same st st' -> nbr_wf st'.
Proof.
  intros Hwf Hp Ha E1 E2 E3 E4 Hmid. split; rewrite ?E1, ?E2, ?E3, ?E4; try apply Hwf.
  - pose proof (table_ok_free neighbor_main_addr _ _ p (wf_nbrs _ _ Hwf)) as H1.
    apply (table_ok_new neighbor_main_addr _ _ p (set_neighbor_main_addr a n)) in H1; [|apply lookup_delete_eq].
    by rewrite insert_delete_eq in H1.
  - intros p1 p2 n1 n2 H1 H2 He. apply lookup_insert_Some in H1, H2.
    destruct H1 as [[<- <-]|[Hn1 H1]], H2 as [[<- <-]|[Hn2 H2]]; simpl in *.
    + done.
    + symmetry. by eapply Ha.
    + by eapply Ha.
    + by eapply (wf_addr _ _ Hwf).
  - intros p' q'. assert (back st' p' q' <-> back st p' q') as -> by (unfold back; by rewrite E3).
    rewrite <- (wf_links _ _ Hwf). unfold linked. rewrite E1. destruct (decide (p' = p)) as [->|Hn].
    + rewrite lookup_insert_eq, Hp. split; intros (? & [= <-] & H); eexists; (split; [done|exact H]).
    + by rewrite lookup_insert_ne.
  - intros p' n' e. rewrite lookup_insert_Some. intros [[<- <-]|[_ H]] He; [exact (wf_own _ _ Hwf _ _ _ Hp He)|by eapply (wf_own _ _ Hwf)].
  - intros p' n'. rewrite lookup_insert_Some. intros [[<- <-]|[_ H]]; [exact (wf_linked_nodup _ _ Hwf _ _ Hp)|by eapply (wf_linked_nodup _ _ Hwf)].
  - intros p' q' Hb. assert (back st p' q') as Hb' by (unfold back in *; by rewrite <- E3).
    apply (wf_back_alloc _ _ Hwf) in Hb' as [x Hx]. destruct (decide (p' = p)) as [->|Hn].
    + rewrite lookup_insert_eq. by eexists.
    + rewrite lookup_insert_ne by done. by eexists.
  - eapply mid_same_ok; [done|apply Hwf].
Qed.

Lemma wp_update_main_addr p n a st :
  nbr_wf st -> nbrs st !! p = Some n -> (forall q k, nbrs st !! q = Some k -> neighbor_main_addr k = a -> q = p) ->
  wp (olsr_update_neighbor_main_addr p a) (fun _ st' => nbr_wf st' /\ nbr_frame st st' /\
    nbrs st' = <[p := set_neighbor_main_addr a n]> (nbrs st) /\ nbr2s st' = nbr2s st) st.
Proof.
  intros Hwf Hp Ha. unfold olsr_update_neighbor_main_addr. wp_step. wp_step. wp_step.
  eapply wp_upd_nbr; [exact Hp|]. wp_step. split; [by eapply (main_addr_wf p n a st)|]. done.
Qed.

(** ** Neighbour status *)

(** Changing a field that is not part of the tables. *)
Lemma update_nbr_wf ok p n x st st' :
  nbr_wf_mod ok st -> nbrs st !! p = Some n ->
  neighbor_main_addr x = neighbor_main_addr n -> neighbor_2_list x = neighbor_2_list n ->
  nbrs st' = <[p := x]> (nbrs st) -> neighbortable st' = neighbortable st ->
  nbr2s st' = nbr2s st -> two_hop_neighbortable st' = two_hop_neighbortable st -> mid_same st st' ->
  nbr_wf_mod ok st'.
Proof.
  intros Hwf Hp Ha Hl E1 E2 E3 E4 Hmid. split; rewrite ?E1, ?E2, ?E3, ?E4; try apply Hwf.
  - by eapply table_ok_update; [apply Hwf|..].
  - intros p1 p2 n1 n2. by eapply addr_update.
  - intros p' q'. assert (back st' p' q' <-> back st p' q') as -> by (unfold back; by rewrite E3).
    rewrite <- (wf_links _ _ Hwf). unfold linked. rewrite E1. destruct (decide (p' = p)) as [->|Hn].
    + rewrite lookup_insert_eq, Hp. split; intros (n' & [= <-] & H); eexists; (split; [done|]); congruence.
    + by rewrite lookup_insert_ne.
  - intros p' n' e. rewrite lookup_insert_Some. intros [[<- <-]|[_ H]] He; [|by eapply (wf_own _ _ Hwf)].
    rewrite Hl in He. by eapply (wf_own _ _ Hwf).
  - intros p' n'. rewrite lookup_insert_Some. intros [[<- <-]|[_ H]]; [|by eapply (wf_linked_nodup _ _ Hwf)].
    rewrite Hl. by eapply (wf_linked_nodup _ _ Hwf).
  - intros p' q' Hb. assert (back st p' q') as Hb' by (unfold back in *; by rewrite <- E3).
    apply (wf_back_alloc _ _ Hwf) in Hb' as [y Hy]. destruct (decide (p' = p)) as [->|Hn].
    + rewrite lookup_insert_eq. by eexists.
    + rewrite lookup_insert_ne by done. by eexists.
  - eapply mid_same_ok; [done|apply Hwf].
Qed.

Definition find_two_hop (st : olsr_state) (dest : ip_addr) : option (option positive) :=
  findM (two_hop_matches st dest) (bucket (two_hop_neighbortable st) (hashing dest)).

(** The lookup reads allocated memory only and returns an entry of the table that
    has the address, or one of whose aliases is the address. *)
Lemma find_two_hop_safe ok st dest :
  nbr_wf_mod ok st ->
  exists r, find_two_hop st dest = Some r /\
    match r with
    | Some q => exists m, nbr2s st !! q = Some m /\ two_hop_matches st dest q = Some true
    | None => forall q m, nbr2s st !! q = Some m -> neighbor_2_addr m <> dest
    end.
Proof.
  intros Hwf. pose proof (wf_nbr2s _ _ Hwf) as Ht. unfold find_two_hop.
  destruct (findM_spec (two_hop_matches st dest) (bucket (two_hop_neighbortable st) (hashing dest)))
    as (r & -> & Hr).
  - intros q Hq. apply elem_of_bucket, (table_alloc _ _ _ Ht) in Hq as [m Hm].
    unfold two_hop_matches. rewrite Hm. simpl. destruct (ipequal _ _ _); [by eexists|].
    destruct (find_aliases_safe st (neighbor_2_addr m)) as (l & -> & Hl); [apply Hwf|]. simpl.
    destruct (findM_spec (fun q => a ← mid_addresses st !! q; Some (ipequal ip_version (alias a) dest)) l)
      as (r & -> & _); [|by eexists].
    intros x Hx. destruct (Hl x Hx) as [a ->]. by eexists.
  - exists r. split; [done|]. destruct r as [q|].
    + destruct Hr as (l1 & l2 & _ & Hq & _). unfold two_hop_matches in *.
      destruct (nbr2s st !! q) as [m|] eqn:E; [|done]. by exists m.
    + intros q m Hq Ha. pose proof (table_bucket neighbor_2_addr _ _ q m Ht Hq) as Hb. rewrite Ha in Hb.
      specialize (Hr q Hb). unfold two_hop_matches in Hr. rewrite Hq in Hr. simpl in Hr.
      by rewrite Ha, ipequal_refl in Hr.
Qed.

Definition status_of (lnk : Z) : Z := if lnk =? SYM_LINK then SYM else NOT_SYM.

(** The status changes: the two-hop tables and the routes have to follow. *)
Definition status_changes (n : neighbor_entry) (lnk : Z) : bool :=
  if lnk =? SYM_LINK then status n =? NOT_SYM else status n =? SYM.

Lemma wp_update_neighbor_status p n lnk st :
  nbr_wf st -> nbrs st !! p = Some n ->
  wp (update_neighbor_status p lnk) (fun r st' =>
    nbr_wf st' /\ nbr_frame st st' /\ neighbortable st' = neighbortable st /\ r = status_of lnk /\
    (exists drop, nbrs st' = <[p := set_status r (drop n)]> (drop <$> nbrs st) /\
      nbr2s st' = match (if status_changes n lnk && (lnk =? SYM_LINK)
                         then find_two_hop st (neighbor_main_addr n) else None) with
                  | Some (Some q) => delete q (nbr2s st)
                  | _ => nbr2s st
                  end /\
      (drop = id \/ exists q, drop = drop_nbr2 q)) /\
    (status_changes n lnk = true -> changes_neighborhood st' = true /\ changes_topology st' = true) /\
    (status_changes n lnk = false -> changes_neighborhood st' = changes_neighborhood st /\
      changes_topology st' = changes_topology st)) st.
Proof.
  intros Hwf Hp. unfold update_neighbor_status, status_changes, status_of.
  wp_step. eapply wp_get_nbr; [exact Hp|]. destruct (lnk =? SYM_LINK).
  - wp_step. wp_step.
    + wp_step. destruct (find_two_hop_safe _ st (neighbor_main_addr n) Hwf) as (r & Hf & Hr).
      unfold olsr_lookup_two_hop_neighbor_table.
      eapply (wp_gets_opt (fun st => findM (two_hop_matches st (neighbor_main_addr n)) _)); [exact Hf|].
      rewrite Hf. rewrite H. simpl. wp_step.
      eapply (wp_mono _ (fun _ st1 => nbr_wf st1 /\ nbr_frame st st1 /\ neighbortable st1 = neighbortable st /\
        exists drop, nbrs st1 = drop <$> nbrs st /\
          nbr2s st1 = match r with Some q => delete q (nbr2s st) | None => nbr2s st end /\
          (drop = id \/ exists q, drop = drop_nbr2 q))).
      { destruct r as [q|].
        - destruct Hr as (m & Hm & _). eapply wp_mono; [by eapply wp_delete_two_hop|].
          intros _u st1 (H1 & H2 & H3 & H4 & H5 & H6). split_and!; try done.
          exists (drop_nbr2 q). split_and!; try done. right. by exists q.
        - apply wp_ret. split_and!; try done. exists id. rewrite map_fmap_id. split_and!; try done. by left. }
      intros _u st1 (Hwf1 & Hf1 & Ht1 & drop & Hn1 & H21 & Hd).
      assert (nbrs st1 !! p = Some (drop n)) as Hp1 by (by rewrite Hn1, lookup_fmap, Hp).
      assert (neighbor_main_addr (drop n) = neighbor_main_addr n) as Hda.
      { by destruct Hd as [->|[q ->]]. }
      wp_prims; eapply wp_upd_nbr; try exact Hp1; wp_prims.
      all: split; [by apply (update_nbr_wf _ p (drop n) (set_status SYM (drop n)) st1)|].
      all: split; [etrans; [exact Hf1|]; frame|]; split; [done|]; split; [done|]; split; [|done].
      all: exists drop; by simpl; rewrite Hn1.
    + rewrite H. simpl. wp_step. eapply wp_upd_nbr; [exact Hp|]. wp_steps.
      split; [by apply (update_nbr_wf _ p n (set_status SYM n) st)|].
      split; [frame|]. split; [done|]. split; [done|]. split; [|done].
      exists id. rewrite map_fmap_id. split_and!; try done. by left.
  - rewrite andb_false_r. wp_step. wp_step.
    + wp_prims; eapply wp_upd_nbr; try exact Hp; wp_prims; rewrite H.
      all: split; [by apply (update_nbr_wf _ p n (set_status NOT_SYM n) st)|]; split; [frame|]; split; [done|]; split; [done|]; split; [|done].
      all: exists id; rewrite map_fmap_id; split_and!; try done; by left.
    + wp_step. eapply wp_upd_nbr; [exact Hp|]. wp_steps. rewrite H.
      split; [by apply (update_nbr_wf _ p n (set_status NOT_SYM n) st)|].
      split; [frame|]. split; [done|]. split; [done|]. split; [|done].
      exists id. rewrite map_fmap_id. split_and!; try done. by left.
Qed.

End proofs.
