(* ===== verification/HelloTwoHop.v ===== *)
(** * process_package.c, first pass: the two-hop neighbours a HELLO announces *)

From S2P Require Import Prelude Timer IpAddr State MidLookup Interfaces NeighTable NeighProofs.

Section hello_two_hop.
Context {cnf : olsrd_config}.

Definition OLSR_NBR2_LIST_JITTER : Z := 5.

(** The timer of the new list element is changed, not started: [olsr_change_timer]
    returns at once for the NULL of a fresh object. *)
Definition linking_this_2_entries (nbr two_hop : positive) (vtime : Z) : OM unit :=
  do* upd_nbr2 two_hop (fun m => set_neighbor_2_nblist
    ({| neighbor := nbr; second_hop_linkcost := LINK_COST_BROKEN; path_linkcost := LINK_COST_BROKEN;
        saved_path_linkcost := LINK_COST_BROKEN |} :: neighbor_2_nblist m) m) in
  let* timer := olsr_change_timer None vtime OLSR_NBR2_LIST_JITTER OLSR_TIMER_ONESHOT in
  do* upd_nbr nbr (fun n => set_neighbor_2_list
    ({| nbr2_nbr := nbr; neighbor_2 := two_hop; nbr2_list_timer := timer |} :: neighbor_2_list n) n) in
  upd_nbr2 two_hop (fun m => set_neighbor_2_pointer (s16 (neighbor_2_pointer m + 1)) m).

Definition new_two_hop (addr : ip_addr) : neighbor_2_entry :=
  {| neighbor_2_addr := addr; mpr_covered_count := 0; processed := 0; neighbor_2_pointer := 0;
     neighbor_2_nblist := [] |}.

(** The timer field of the list element for [q]. *)
Definition set_list_timer (q : positive) (t : option timer_entry) (l : list neighbor_2_list_entry) :=
  map (fun e => if decide (neighbor_2 e = q) then set_nbr2_list_timer t e else e) l.

Definition reset_path_linkcost (nbr : positive) (l : neighbor_list_entry) : neighbor_list_entry :=
  if decide (neighbor l = nbr)
  then {| neighbor := neighbor l; second_hop_linkcost := second_hop_linkcost l;
          path_linkcost := LINK_COST_BROKEN; saved_path_linkcost := saved_path_linkcost l |}
  else l.

(** The body of the first loop of [process_message_neighbors]; returns the message
    neighbour, whose address the code overwrites with the main address. *)
Definition process_message_neighbor (nbr : positive) (vtime : Z) (hn : hello_neighbor) : OM hello_neighbor :=
  let* ifs := gets ifnet in
  match if_ifwithaddr ifs (hn_address hn) with
  | Some _ => ret hn
  | None =>
      let* neigh_addr := mid_lookup_main_addr (hn_address hn) in
      let addr := default (hn_address hn) neigh_addr in
      let hn := {| hn_status := hn_status hn; hn_link := hn_link hn; hn_address := addr;
                   hn_cost := hn_cost hn; hn_linkquality := hn_linkquality hn |} in
      do* when ((hn_status hn =? SYM_NEIGH) || (hn_status hn =? MPR_NEIGH))
        (let* two_hop_neighbor_yet := olsr_lookup_my_neighbors nbr addr in
         match two_hop_neighbor_yet with
         | Some e =>
             let q := neighbor_2 e in
             let* t := olsr_set_timer (nbr2_list_timer e) vtime OLSR_NBR2_LIST_JITTER OLSR_TIMER_ONESHOT in
             do* upd_nbr nbr (fun n => set_neighbor_2_list (set_list_timer q t (neighbor_2_list n)) n) in
             when (lq_level >? 0)
               (upd_nbr2 q (fun m => set_neighbor_2_nblist
                  (map (reset_path_linkcost nbr) (neighbor_2_nblist m)) m))
         | None =>
             let* two_hop_neighbor := olsr_lookup_two_hop_neighbor_table addr in
             do* modify (set_changes_neighborhood true) in
             do* modify (set_changes_topology true) in
             match two_hop_neighbor with
             | None =>
                 let* q := gets (fun st => alloc (nbr2s st)) in
                 do* modify (fun st => set_nbr2s (<[q := new_two_hop addr]> (nbr2s st)) st) in
                 do* olsr_insert_two_hop_neighbor_table q in
                 linking_this_2_entries nbr q vtime
             | Some q => linking_this_2_entries nbr q vtime
             end
         end) in
      ret hn
  end.

(** ** Linking keeps the invariant *)

Definition link_nbr2 (p : positive) (m : neighbor_2_entry) : neighbor_2_entry :=
  set_neighbor_2_pointer (neighbor_2_pointer m + 1) (set_neighbor_2_nblist
    ({| neighbor := p; second_hop_linkcost := LINK_COST_BROKEN; path_linkcost := LINK_COST_BROKEN;
        saved_path_linkcost := LINK_COST_BROKEN |} :: neighbor_2_nblist m) m).

Definition link_nbr (p q : positive) (n : neighbor_entry) : neighbor_entry :=
  set_neighbor_2_list ({| nbr2_nbr := p; neighbor_2 := q; nbr2_list_timer := None |} :: neighbor_2_list n) n.

Lemma linking_run p q n m vtime (Q : unit -> olsr_state -> Prop) st :
  nbrs st !! p = Some n -> nbr2s st !! q = Some m -> 0 <= neighbor_2_pointer m < 32767 ->
  (forall st', nbrs st' = <[p := link_nbr p q n]> (nbrs st) -> nbr2s st' = <[q := link_nbr2 p m]> (nbr2s st) ->
     neighbortable st' = neighbortable st -> two_hop_neighbortable st' = two_hop_neighbortable st ->
     nbr_frame st st' -> changes_neighborhood st' = changes_neighborhood st ->
     changes_topology st' = changes_topology st -> link_changes st' = link_changes st -> Q tt st') ->
  wp (linking_this_2_entries p q vtime) Q st.
Proof.
  intros Hp Hq Hm HQ. unfold linking_this_2_entries.
  wp_step. eapply wp_upd_nbr2; [exact Hq|]. wp_step. apply wp_ret.
  wp_step. eapply wp_upd_nbr; [exact Hp|].
  eapply wp_upd_nbr2; [apply lookup_insert_eq|]. apply HQ; try done.
  - simpl. rewrite insert_insert_eq. rewrite s16_id by (unfold is_s16; lia). done.
Qed.

(** Both ends of the new pair, over an existing or a new two-hop entry. *)
Lemma link_wf p q n m st st' :
  nbr_wf st -> nbrs st !! p = Some n -> ~ linked st p q -> Z.of_nat (size (nbrs st)) < 32768 ->
  (nbr2s st !! q = Some m /\ two_hop_neighbortable st' = two_hop_neighbortable st \/
   nbr2s st !! q = None /\ neighbor_2_nblist m = [] /\ neighbor_2_pointer m = 0 /\
   two_hop_neighbortable st' = QUEUE_ELEM (hashing (neighbor_2_addr m)) q (two_hop_neighbortable st)) ->
  nbrs st' = <[p := link_nbr p q n]> (nbrs st) -> nbr2s st' = <[q := link_nbr2 p m]> (nbr2s st) ->
  neighbortable st' = neighbortable st -> mid_same st st' ->
  nbr_wf st'.
Proof.
  intros Hwf Hp Hnl Hsize Hq E1 E2 E3 Hmid.
  assert (~ back st p q) as Hnb by (intros Hb; apply Hnl, (wf_links _ _ Hwf); done).
  assert (forall x, x ∈ map neighbor (neighbor_2_nblist m) <-> back st x q) as Hbm.
  { intros x. unfold back. destruct Hq as [[-> _]|(-> & -> & _)].
    - split; [intros H; by exists m|by intros (? & [= <-] & ?)].
    - split; [by intros ?%not_elem_of_nil|by intros (? & ? & _)]. }
  assert (NoDup (p :: map neighbor (neighbor_2_nblist m))) as Hnd.
  { apply NoDup_cons. split; [by rewrite Hbm|]. destruct Hq as [[Hq _]|(_ & -> & _)]; [|constructor].
    by eapply (wf_back_nodup _ _ Hwf). }
  assert (neighbor_2_pointer m = Z.of_nat (length (neighbor_2_nblist m))) as Hcount.
  { destruct Hq as [[Hq _]|(_ & -> & -> & _)]; [|done]. by eapply (wf_count _ _ Hwf). }
  assert (S (length (neighbor_2_nblist m)) <= size (nbrs st))%nat as Hlen.
  { pose proof (nodup_length_size (nbrs st) _ Hnd) as H. simpl in H. rewrite length_map in H. apply H.
    intros x [->|Hx]%elem_of_cons; [by eexists|]. eapply (wf_back_alloc _ _ Hwf). by apply Hbm. }
  assert (forall p' q', linked st' p' q' <-> linked st p' q' \/ p' = p /\ q' = q) as Hl'.
  { intros p' q'. unfold linked. rewrite E1. destruct (decide (p' = p)) as [->|Hn].
    - rewrite lookup_insert_eq, Hp. split.
      + intros (n' & [= <-] & H). simpl in H. apply elem_of_cons in H as [->|H]; [by right|]. left. by exists n.
      + intros H. eexists. split; [done|]. simpl. apply elem_of_cons.
        destruct H as [(n' & [= <-] & H)|[_ ->]]; [by right|by left].
    - rewrite lookup_insert_ne by done. split; [by left|]. intros [H|[H _]]; done. }
  assert (forall p' q', back st' p' q' <-> back st p' q' \/ p' = p /\ q' = q) as Hb'.
  { intros p' q'. destruct (decide (q' = q)) as [->|Hn].
    - rewrite <- Hbm. unfold back. rewrite E2, lookup_insert_eq. split.
      + intros (m' & [= <-] & H). simpl in H. apply elem_of_cons in H as [->|H]; [by right|by left].
      + intros H. eexists. split; [done|]. simpl. apply elem_of_cons. destruct H as [H|[-> _]]; [by right|by left].
    - unfold back. rewrite E2, lookup_insert_ne by done. split; [by left|]. intros [H|[_ H]]; done. }
  split.
  - rewrite E1, E3. by eapply table_ok_update; [apply Hwf|..].
  - rewrite E2. destruct Hq as [[Hq ->]|(Hq & _ & _ & ->)].
    + by eapply table_ok_update; [apply Hwf|..].
    + by apply (table_ok_new neighbor_2_addr _ _ q (link_nbr2 p m)); [apply Hwf|].
  - rewrite E1. intros p1 p2 n1 n2. by eapply addr_update.
  - intros p' q'. rewrite Hl', Hb', (wf_links _ _ Hwf). tauto.
  - rewrite E1. intros p' n' e. rewrite lookup_insert_Some. intros [[<- <-]|[_ H]] He.
    + simpl in He. apply elem_of_cons in He as [->|He]; [done|]. by eapply (wf_own _ _ Hwf).
    + by eapply (wf_own _ _ Hwf).
  - rewrite E1. intros p' n'. rewrite lookup_insert_Some. intros [[<- <-]|[_ H]].
    + simpl. apply NoDup_cons. split; [|by eapply (wf_linked_nodup _ _ Hwf)].
      intros Hin. apply Hnl. by exists n.
    + by eapply (wf_linked_nodup _ _ Hwf).
  - rewrite E2. intros q' m'. rewrite lookup_insert_Some. intros [[<- <-]|[_ H]]; [done|].
    by eapply (wf_back_nodup _ _ Hwf).
  - rewrite E2. intros q' m'. rewrite lookup_insert_Some. intros [[<- <-]|[_ H]].
    + simpl. rewrite Hcount. lia.
    + by eapply (wf_count _ _ Hwf).
  - rewrite E2. intros q' m'. rewrite lookup_insert_Some. intros [[<- <-]|[_ H]].
    + simpl. lia.
    + by eapply (wf_small _ _ Hwf).
  - intros p' q' [Hb|[-> ->]]%Hb'; rewrite E1.
    + apply (wf_back_alloc _ _ Hwf) in Hb as [x Hx]. destruct (decide (p' = p)) as [->|Hn].
      * rewrite lookup_insert_eq. by eexists.
      * rewrite lookup_insert_ne by done. by eexists.
    + rewrite lookup_insert_eq. by eexists.
  - eapply mid_same_ok; [done|apply Hwf].
Qed.

(** ** The whole body *)

Lemma set_list_timer_map q t l : map neighbor_2 (set_list_timer q t l) = map neighbor_2 l.
Proof.
  unfold set_list_timer. rewrite map_map. apply map_ext. intros e. by destruct (decide _).
Qed.

Lemma reset_map p l : map neighbor (map (reset_path_linkcost p) l) = map neighbor l.
Proof.
  rewrite map_map. apply map_ext. intros e. unfold reset_path_linkcost. by destruct (decide _).
Qed.

(** Changing the payload of list elements, not the ends. *)
Lemma payload_wf p q n m n' m' st st' :
  nbr_wf st -> nbrs st !! p = Some n -> nbr2s st !! q = Some m ->
  neighbor_main_addr n' = neighbor_main_addr n ->
  map neighbor_2 (neighbor_2_list n') = map neighbor_2 (neighbor_2_list n) ->
  (forall e, e ∈ neighbor_2_list n' -> nbr2_nbr e = p) ->
  neighbor_2_addr m' = neighbor_2_addr m -> neighbor_2_pointer m' = neighbor_2_pointer m ->
  map neighbor (neighbor_2_nblist m') = map neighbor (neighbor_2_nblist m) ->
  nbrs st' = <[p := n']> (nbrs st) -> nbr2s st' = <[q := m']> (nbr2s st) ->
  neighbortable st' = neighbortable st -> two_hop_neighbortable st' = two_hop_neighbortable st ->
  mid_same st st' -> nbr_wf st'.
Proof.
  intros Hwf Hp Hq Ha Hl Hown Ha2 Hc Hl2 E1 E2 E3 E4 Hmid.
  assert (length (neighbor_2_nblist m') = length (neighbor_2_nblist m)) as Hlen.
  { by rewrite <- (length_map neighbor), Hl2, length_map. }
  assert (forall p' q', linked st' p' q' <-> linked st p' q') as Hl'.
  { intros p' q'. unfold linked. rewrite E1. destruct (decide (p' = p)) as [->|Hn].
    - rewrite lookup_insert_eq, Hp. split; intros (x & [= <-] & H); eexists; (split; [done|]); congruence.
    - by rewrite lookup_insert_ne. }
  assert (forall p' q', back st' p' q' <-> back st p' q') as Hb'.
  { intros p' q'. unfold back. rewrite E2. destruct (decide (q' = q)) as [->|Hn].
    - rewrite lookup_insert_eq, Hq. split; intros (x & [= <-] & H); eexists; (split; [done|]); congruence.
    - by rewrite lookup_insert_ne. }
  split; rewrite ?E1, ?E2, ?E3, ?E4.
  - by eapply table_ok_update; [apply Hwf|..].
  - by eapply table_ok_update; [apply Hwf|..].
  - intros p1 p2 n1 n2. by eapply addr_update.
  - intros p' q'. by rewrite Hl', Hb', (wf_links _ _ Hwf).
  - intros p' x e. rewrite lookup_insert_Some. intros [[<- <-]|[_ H]] He; [by apply Hown|].
    by eapply (wf_own _ _ Hwf).
  - intros p' x. rewrite lookup_insert_Some. intros [[<- <-]|[_ H]]; rewrite ?Hl;
      by eapply (wf_linked_nodup _ _ Hwf).
  - intros q' x. rewrite lookup_insert_Some. intros [[<- <-]|[_ H]]; rewrite ?Hl2;
      by eapply (wf_back_nodup _ _ Hwf).
  - intros q' x. rewrite lookup_insert_Some. intros [[<- <-]|[_ H]]; rewrite ?Hlen, ?Hc;
      by eapply (wf_count _ _ Hwf).
  - intros q' x. rewrite lookup_insert_Some. intros [[<- <-]|[_ H]]; rewrite ?Hlen;
      by eapply (wf_small _ _ Hwf).
  - intros p' q' Hb%Hb'. apply (wf_back_alloc _ _ Hwf) in Hb as [x Hx].
    destruct (decide (p' = p)) as [->|Hn].
    + rewrite lookup_insert_eq. by eexists.
    + rewrite lookup_insert_ne by done. by eexists.
  - eapply mid_same_ok; [done|apply Hwf].
Qed.

Lemma wp_lookup_my_neighbors p n a (Q : option neighbor_2_list_entry -> olsr_state -> Prop) st :
  nbr_wf st -> nbrs st !! p = Some n ->
  (forall e m, e ∈ neighbor_2_list n -> nbr2s st !! neighbor_2 e = Some m -> neighbor_2_addr m = a -> Q (Some e) st) ->
  ((forall q m, linked st p q -> nbr2s st !! q = Some m -> neighbor_2_addr m <> a) -> Q None st) ->
  wp (olsr_lookup_my_neighbors p a) Q st.
Proof.
  intros Hwf Hp H1 H2. unfold olsr_lookup_my_neighbors. wp_step. eapply wp_get_nbr; [exact Hp|].
  destruct (findM_spec (fun e => m ← nbr2s st !! neighbor_2 e; Some (ipequal ip_version (neighbor_2_addr m) a))
    (neighbor_2_list n)) as (r & Hr & Hres).
  - intros e He. assert (linked st p (neighbor_2 e)) as Hl.
    { exists n. split; [done|]. by apply (list_elem_of_fmap_2 neighbor_2). }
    apply (wf_links _ _ Hwf) in Hl as [(m & -> & _) _]. by eexists.
  - eapply (wp_gets_opt (fun st => findM (fun e => m ← nbr2s st !! neighbor_2 e;
      Some (ipequal ip_version (neighbor_2_addr m) a)) (neighbor_2_list n))); [exact Hr|].
    destruct r as [e|].
    + destruct Hres as (l1 & l2 & El & He & _). destruct (nbr2s st !! neighbor_2 e) as [m|] eqn:E; simpl in He; [|done].
      injection He as He%ipequal_eq. eapply H1; [|done|done]. rewrite El. apply elem_of_app. right. left.
    + apply H2. intros q m (n' & Hn' & Hq) Hm Ha. rewrite Hp in Hn'. injection Hn' as <-.
      apply list_elem_of_fmap in Hq as (e & -> & He). specialize (Hres e He). rewrite Hm in Hres. simpl in Hres.
      injection Hres as Hres%ipequal_neq. done.
Qed.

(** Timers only draw a random number. *)
(** The address under which a message neighbour is registered. *)
Definition hello_main_addr (st : olsr_state) (hn : hello_neighbor) : ip_addr :=
  default (hn_address hn) (default None (find_main_addr st (hn_address hn))).

(** No two-hop neighbour is known under [a] as an alias only. *)
Definition no_alias (st : olsr_state) (a : ip_addr) : Prop :=
  forall q m, nbr2s st !! q = Some m -> two_hop_matches st a q = Some true -> neighbor_2_addr m = a.

Definition announces (hn : hello_neighbor) : bool :=
  (hn_status hn =? SYM_NEIGH) || (hn_status hn =? MPR_NEIGH).

(** The element that now represents the pair has no timer yet. *)
Definition timerless (st : olsr_state) (p q : positive) : Prop :=
  exists n e, nbrs st !! p = Some n /\ e ∈ neighbor_2_list n /\ neighbor_2 e = q /\ nbr2_list_timer e = None.

(** ** The costs of the paths over a neighbour *)

Definition path_in (p : positive) (l : list neighbor_list_entry) : option Z :=
  path_linkcost <$> find (fun w => bool_decide (neighbor w = p)) l.

(** The cost of the path to the two-hop neighbour [q] over the neighbour [p]. *)
Definition two_hop_path (st : olsr_state) (p q : positive) : option Z :=
  m ← nbr2s st !! q; path_in p (neighbor_2_nblist m).

Definition addr2 (st : olsr_state) (q : positive) : option ip_addr := neighbor_2_addr <$> nbr2s st !! q.

Definition two_hop_unique (st : olsr_state) : Prop :=
  forall q q' a, addr2 st q = Some a -> addr2 st q' = Some a -> q = q'.

(** The fields of a neighbour that hearing of two-hop neighbours keeps. *)
Definition nbr_core (n : neighbor_entry) : ip_addr * Z * Z * Z :=
  (neighbor_main_addr n, status n, willingness n, linkcount n).

(** What hearing from [p] of the two-hop neighbour [a] changes. *)
Record heard (p : positive) (a : ip_addr) (st st' : olsr_state) : Prop := {
  hd_core q : nbr_core <$> nbrs st' !! q = nbr_core <$> nbrs st !! q;
  hd_linked q : linked st p q -> linked st' p q;
  hd_other p' q : p' <> p \/ addr2 st' q <> Some a -> two_hop_path st' p' q = two_hop_path st p' q;
  hd_addr q b : addr2 st q = Some b -> addr2 st' q = Some b;
  hd_unique : two_hop_unique st -> two_hop_unique st';
  hd_path q : 0 < lq_level -> two_hop_unique st -> addr2 st' q = Some a -> two_hop_path st' p q = Some LINK_COST_BROKEN;
}.

Lemma heard_intro p a n n' q m' st st' :
  nbrs st !! p = Some n -> nbrs st' = <[p := n']> (nbrs st) -> nbr_core n' = nbr_core n ->
  (forall x, x ∈ map neighbor_2 (neighbor_2_list n) -> x ∈ map neighbor_2 (neighbor_2_list n')) ->
  nbr2s st' = <[q := m']> (nbr2s st) -> neighbor_2_addr m' = a ->
  match nbr2s st !! q with
  | Some m => neighbor_2_addr m = a /\
      forall p', p' <> p -> path_in p' (neighbor_2_nblist m') = path_in p' (neighbor_2_nblist m)
  | None => (forall p', p' <> p -> path_in p' (neighbor_2_nblist m') = None) /\
      forall q m, nbr2s st !! q = Some m -> neighbor_2_addr m <> a
  end ->
  (0 < lq_level -> path_in p (neighbor_2_nblist m') = Some LINK_COST_BROKEN) -> heard p a st st'.
Proof.
  intros Hp E1 Ec El E2 Ea Hq Hlq.
  assert (addr2 st' q = Some a) as Hqa by (unfold addr2; rewrite E2, lookup_insert_eq; simpl; by rewrite Ea).
  assert (forall q', q' <> q -> addr2 st' q' = addr2 st q') as Hqo by (intros; unfold addr2; by rewrite E2, lookup_insert_ne).
  assert (forall b, addr2 st q = Some b -> b = a) as Hqb.
  { unfold addr2. destruct (nbr2s st !! q); simpl; [destruct Hq as [<- _]; congruence|done]. }
  assert (two_hop_unique st -> forall q', addr2 st' q' = Some a -> q' = q) as Hu.
  { intros Hu q' H. destruct (decide (q' = q)) as [|Hn]; [done|]. rewrite Hqo in H by done.
    unfold addr2 in *. destruct (nbr2s st !! q) as [m|] eqn:Em.
    - apply (Hu q' q a); [done|]. unfold addr2. rewrite Em. simpl. by destruct Hq as [-> _].
    - apply fmap_Some in H as (x & Hx & Hxa). destruct Hq as [_ Hq]. by destruct (Hq q' x). }
  split.
  - intros x. rewrite E1. destruct (decide (x = p)) as [->|Hn]; [by rewrite lookup_insert_eq, Hp; simpl; rewrite Ec|by rewrite lookup_insert_ne].
  - intros x (y & Hy & Hx). rewrite Hp in Hy. injection Hy as <-. exists n'. rewrite E1, lookup_insert_eq. split; [done|by apply El].
  - intros p' q' H. unfold two_hop_path. rewrite E2. destruct (decide (q' = q)) as [->|Hn]; [|by rewrite lookup_insert_ne].
    destruct H as [H|H]; [|done]. rewrite lookup_insert_eq. simpl. destruct (nbr2s st !! q); simpl; by apply Hq.
  - intros q' b Hb. destruct (decide (q' = q)) as [->|Hn]; [|by rewrite Hqo]. by rewrite (Hqb _ Hb).
  - intros Huniq q1 q2 b H1 H2. destruct (decide (b = a)) as [->|Hn].
    + by rewrite (Hu Huniq _ H1), (Hu Huniq _ H2).
    + apply (Huniq q1 q2 b); rewrite <- Hqo; try done; intros ->; congruence.
  - intros q' Hl Huniq H. rewrite (Hu Huniq _ H). unfold two_hop_path. rewrite E2, lookup_insert_eq. simpl. by apply Hlq.
Qed.

Lemma path_in_cons p w l : path_in p (w :: l) = if decide (neighbor w = p) then Some (path_linkcost w) else path_in p l.
Proof. unfold path_in. simpl. case_bool_decide; case_decide; done. Qed.

Lemma path_in_None p l : p ∉ map neighbor l -> path_in p l = None.
Proof.
  induction l as [|w l IH]; intros H; [done|]. simpl in H. rewrite path_in_cons. destruct (decide _) as [<-|]; [set_solver|].
  apply IH. set_solver.
Qed.

Lemma path_in_reset p p' l : path_in p' (map (reset_path_linkcost p) l) =
  if decide (p' = p) then (fun _ => LINK_COST_BROKEN) <$> path_in p l else path_in p' l.
Proof.
  induction l as [|w l IH]; [by destruct (decide _)|]. simpl. rewrite !path_in_cons, IH. unfold reset_path_linkcost.
  destruct (decide (neighbor w = p)) as [E|E]; simpl; repeat case_decide; simpl; try congruence; done.
Qed.

Lemma path_in_Some p l : p ∈ map neighbor l -> is_Some (path_in p l).
Proof.
  induction l as [|w l IH]; intros H; simpl in H; [by apply not_elem_of_nil in H|]. rewrite path_in_cons.
  destruct (decide _); [by eexists|]. apply IH. set_solver.
Qed.

(** The message neighbour as the second pass sees it. *)
Definition hello_named (st : olsr_state) (hn : hello_neighbor) : hello_neighbor :=
  match if_ifwithaddr (ifnet st) (hn_address hn) with
  | Some _ => hn
  | None => {| hn_status := hn_status hn; hn_link := hn_link hn; hn_address := hello_main_addr st hn;
               hn_cost := hn_cost hn; hn_linkquality := hn_linkquality hn |}
  end.

(** This neighbour is a two-hop neighbour. *)
Definition hears (st : olsr_state) (hn : hello_neighbor) : bool :=
  match if_ifwithaddr (ifnet st) (hn_address hn) with Some _ => false | None => announces hn end.

Lemma wp_process_message_neighbor p n vtime hn st :
  nbr_wf st -> nbrs st !! p = Some n -> Z.of_nat (size (nbrs st)) < 32768 ->
  no_alias st (hello_main_addr st hn) ->
  wp (process_message_neighbor p vtime hn) (fun hn' st' =>
    hn' = hello_named st hn /\ (if hears st hn then heard p (hello_main_addr st hn) st st' else st' = st) /\
    nbr_wf st' /\ nbr_frame st st' /\
    (if_ifwithaddr (ifnet st) (hn_address hn) = None -> announces hn = true ->
      let a := hello_main_addr st hn in
      exists q m, linked st' p q /\ nbr2s st' !! q = Some m /\ neighbor_2_addr m = a /\
        ((forall q m, linked st p q -> nbr2s st !! q = Some m -> neighbor_2_addr m <> a) ->
         timerless st' p q /\ changes_neighborhood st' = true /\ changes_topology st' = true))) st.
Proof.
  intros Hwf Hp Hsize Hna. unfold process_message_neighbor, hello_named, hears, hello_main_addr, announces in *. wp_steps.
  destruct (if_ifwithaddr (ifnet st) (hn_address hn)) eqn:Eif; [by wp_steps|].
  destruct (find_main_addr_safe st (hn_address hn) (wf_mid _ _ Hwf)) as [main Hmain].
  wp_step. eapply (wp_gets_opt (fun st => find_main_addr st (hn_address hn))); [exact Hmain|].
  rewrite Hmain in Hna |- *. simpl in Hna |- *. set (a := default (hn_address hn) main) in *.
  wp_step. wp_step.
  2: { wp_steps. split; [done|]. split; [by rewrite H|]. split; [done|]. split; [done|]. intros _ H'. congruence. }
  rewrite H.
  wp_step. eapply wp_lookup_my_neighbors; [done|done|..].
  - intros e m He Hm Ha. wp_step. apply wp_set_timer. intros t' k _ _. wp_step.
    eapply wp_upd_nbr; [exact Hp|].
    assert (linked st p (neighbor_2 e)) as Hl.
    { exists n. split; [done|]. by apply (list_elem_of_fmap_2 neighbor_2). }
    pose (n' := set_neighbor_2_list (set_list_timer (neighbor_2 e) t' (neighbor_2_list n)) n).
    assert (forall x, x ∈ neighbor_2_list n' -> nbr2_nbr x = p) as Hown.
    { intros x Hx. unfold n', set_list_timer in Hx. simpl in Hx. apply list_elem_of_fmap in Hx as (y & -> & Hy).
      pose proof (wf_own _ _ Hwf _ _ _ Hp Hy). by destruct (decide _). }
    assert (forall q' st', nbrs st' = <[p := n']> (nbrs st) -> linked st' p q' <-> linked st p q') as Hlk.
    { intros q' st' E. unfold linked. rewrite E, lookup_insert_eq, Hp.
      split; intros (x & [= <-] & H'); eexists; (split; [done|]); revert H'; unfold n'; simpl; by rewrite set_list_timer_map. }
    apply wp_when; intros Elq.
    + eapply wp_upd_nbr2; [exact Hm|]. wp_steps. split; [done|]. split; [|split; [|split]].
      * eapply (heard_intro p a n n' (neighbor_2 e)); [exact Hp|done|done| |done|exact Ha| |].
        { intros x. unfold n'. simpl. by rewrite set_list_timer_map. }
        { rewrite Hm. split; [done|]. intros p' Hn. simpl. rewrite path_in_reset. by rewrite decide_False. }
        { intros _. simpl. rewrite path_in_reset, decide_True by done. apply (wf_links _ _ Hwf) in Hl as [(x & Hx & Hin) _].
          rewrite Hm in Hx. injection Hx as <-. apply path_in_Some in Hin as [c ->]. done. }
      * eapply (payload_wf p (neighbor_2 e) n m n'
          (set_neighbor_2_nblist (map (reset_path_linkcost p) (neighbor_2_nblist m)) m) st); try done;
          first [apply set_list_timer_map | apply reset_map].
      * done.
      * intros _ _. eexists _, _. split; [by apply Hlk|]. split; [apply lookup_insert_eq|]. split; [done|].
        intros Hnew. by destruct (Hnew _ _ Hl Hm).
    + wp_steps. split; [done|]. split; [|split; [|split]].
      * eapply (heard_intro p a n n' (neighbor_2 e) m); [exact Hp|done|done| |simpl; by rewrite insert_id|exact Ha| |].
        { intros x. unfold n'. simpl. by rewrite set_list_timer_map. }
        { by rewrite Hm. }
        { intros Hlq. exfalso. rewrite Z.gtb_ltb in Elq. bool_hyps. lia. }
      * eapply (payload_wf p (neighbor_2 e) n m n' m st); try done; try apply set_list_timer_map.
        simpl. by rewrite insert_id.
      * done.
      * intros _ _. exists (neighbor_2 e), m. split; [by apply Hlk|]. split; [done|]. split; [done|].
        intros Hnew. by destruct (Hnew _ _ Hl Hm).
  - intros Hnew. wp_step. destruct (find_two_hop_safe _ st a Hwf) as (r & Hf & Hr).
    eapply (wp_gets_opt (fun st => findM (two_hop_matches st a) _)); [exact Hf|].
    wp_steps. destruct r as [q|].
    + destruct Hr as (m & Hm & Hmatch). pose proof (Hna q m Hm Hmatch) as Ha.
      assert (~ linked st p q) as Hnl by (intros Hl; by apply (Hnew q m)).
      eapply (linking_run p q n m); [exact Hp|exact Hm| |].
      { rewrite (wf_count _ _ Hwf _ _ Hm).
        assert (length (p :: map neighbor (neighbor_2_nblist m)) <= size (nbrs st))%nat as Hlen; [|simpl in Hlen; rewrite length_map in Hlen; lia].
        apply nodup_length_size.
        - apply NoDup_cons. split; [|by eapply (wf_back_nodup _ _ Hwf)].
          intros Hin. apply Hnl. apply (wf_links _ _ Hwf). split; [|done]. by exists m.
        - intros x [->|Hx]%elem_of_cons; [by eexists|]. apply (wf_back_alloc _ _ Hwf x q). by exists m. }
      intros st' E1 E2 E3 E4 Hfr Hc Ht _. wp_steps. split; [done|]. split.
      { eapply (heard_intro p a n _ q); [exact Hp|exact E1|done| |exact E2|exact Ha| |].
        - intros x Hx. simpl. by right.
        - rewrite Hm. split; [done|]. intros p' Hn. simpl. by rewrite path_in_cons, decide_False.
        - intros _. simpl. by rewrite path_in_cons, decide_True. }
      split; [by eapply (link_wf p q n m st); try done; [left|exact (frame_mid _ _ Hfr)]|]. split; [done|]. intros _ _.
      exists q, (link_nbr2 p m). split; [|split; [by rewrite E2, lookup_insert_eq|]].
      { eexists. split; [by rewrite E1, lookup_insert_eq|]. simpl. left. }
      split; [done|]. intros _. split; [|split; [by rewrite Hc|by rewrite Ht]].
      eexists _, _. split; [by rewrite E1, lookup_insert_eq|]. simpl. split; [left|done].
    + wp_steps. unfold olsr_insert_two_hop_neighbor_table.
      set (q := alloc (nbr2s st)). assert (nbr2s st !! q = None) as Hq by apply alloc_fresh.
      wp_step. eapply wp_get_nbr2; [apply lookup_insert_eq|]. wp_steps.
      eapply (linking_run p q n (new_two_hop a)); [exact Hp|apply lookup_insert_eq|simpl; lia|].
      intros st' E1 E2 E3 E4 Hfr Hc Ht _. wp_steps. simpl in E1, E2, E3, E4.
      rewrite insert_insert_eq in E2. split; [done|]. split.
      { eapply (heard_intro p a n _ q); [exact Hp|exact E1|done| |exact E2|done| |].
        - intros x Hx. simpl. by right.
        - rewrite Hq. split; [|done]. intros p' Hn. simpl. by rewrite path_in_cons, decide_False.
        - intros _. simpl. by rewrite path_in_cons, decide_True. }
      split.
      { eapply (link_wf p q n (new_two_hop a) st); try done; [|by right|exact (frame_mid _ _ Hfr)].
        intros Hl. apply (wf_links _ _ Hwf) in Hl as [(? & ? & _) _]. congruence. }
      split; [done|]. intros _ _.
      exists q, (link_nbr2 p (new_two_hop a)). split; [|split; [by rewrite E2, lookup_insert_eq|]].
      { eexists. split; [by rewrite E1, lookup_insert_eq|]. simpl. left. }
      split; [done|]. intros _. split; [|split; [by rewrite Hc|by rewrite Ht]].
      eexists _, _. split; [by rewrite E1, lookup_insert_eq|]. simpl. split; [left|done].
Qed.

End hello_two_hop.
