(* ===== verification/NeighSpec.v ===== *)
(** * What the neighbour tables guarantee *)

From S2P Require Import Prelude IpAddr State MidLookup Interfaces NeighTable NeighProofs HelloTwoHop.

Section spec.
Context {cnf : olsrd_config}.

(** [olsr_insert_neighbor_table] terminates without touching unallocated memory
    and keeps the tables well formed. A known address gives its entry and no
    change; an unknown one gives a fresh entry that is not symmetric, will never
    relay and has no two-hop neighbours. *)
Theorem olsr_insert_neighbor_table_correct a st :
  nbr_wf st ->
  wp (olsr_insert_neighbor_table a) (fun p st' =>
    nbr_wf st' /\ nbr_frame st st' /\ nbr2s st' = nbr2s st /\
    match find_nbr st a with
    | Some (Some q) => p = q /\ st' = st
    | _ => nbrs st !! p = None /\ nbrs st' = <[p := new_neighbor a]> (nbrs st)
    end) st.
Proof. apply wp_insert_neighbor. Qed.

(** [olsr_delete_neighbor_table] is memory safe and keeps the tables well
    formed: it removes exactly the neighbour with the address and its pairs, leaves
    the two-hop neighbours it does not reach alone, and (by the invariant) frees
    those that no other neighbour reaches. *)
Theorem olsr_delete_neighbor_table_correct a st :
  nbr_wf st ->
  wp (olsr_delete_neighbor_table a) (fun found st' =>
    nbr_wf st' /\ nbr_frame st st' /\
    match find_nbr st a with
    | Some (Some p) => found = true /\ nbrs st' = delete p (nbrs st) /\
        neighbortable st' = DEQUEUE_ELEM p (neighbortable st) /\
        (forall p' q', back st' p' q' <-> back st p' q' /\ p' <> p) /\
        (forall q', ~ back st p q' -> nbr2s st' !! q' = nbr2s st !! q') /\
        changes_neighborhood st' = true /\ link_changes st' = true
    | _ => found = false /\ st' = st
    end) st.
Proof. apply wp_delete_neighbor. Qed.

(** [olsr_delete_two_hop_neighbor_table] is memory safe (no double free although
    [olsr_del_nbr2_list] may free the entry too), keeps the tables well formed and
    removes the two-hop neighbour and every list element that points to it. *)
Theorem olsr_delete_two_hop_neighbor_table_correct q m st :
  nbr_wf st -> nbr2s st !! q = Some m ->
  wp (olsr_delete_two_hop_neighbor_table q) (fun _ st' =>
    nbr_wf st' /\ nbr_frame st st' /\ link_changes st' = link_changes st /\
    nbrs st' = drop_nbr2 q <$> nbrs st /\ neighbortable st' = neighbortable st /\
    nbr2s st' = delete q (nbr2s st)) st.
Proof. apply wp_delete_two_hop. Qed.

(** [olsr_expire_nbr2_list], the timer callback of one list element: memory
    safe, keeps the tables well formed and removes exactly that pair. *)
Theorem olsr_expire_nbr2_list_correct p q n st :
  nbr_wf st -> nbrs st !! p = Some n -> linked st p q ->
  wp (olsr_expire_nbr2_list p q) (fun _ st' => nbr_wf st' /\ nbr_frame st st' /\
    link_changes st' = link_changes st /\
    nbrs st' = <[p := set_neighbor_2_list (remove_nbr2 q (neighbor_2_list n)) n]> (nbrs st) /\
    neighbortable st' = neighbortable st /\
    changes_neighborhood st' = true /\ changes_topology st' = true /\
    (forall p' q', back st' p' q' <-> back st p' q' /\ ~ (p' = p /\ q' = q)) /\
    (forall q', q' <> q -> nbr2s st' !! q' = nbr2s st !! q')) st.
Proof. apply wp_unlink. Qed.

(** [update_neighbor_status] sets and returns the status for the link state, a
    neighbour that becomes symmetric stops being a two-hop neighbour, and the
    recalculation flags are raised exactly when the status changes. *)
Theorem update_neighbor_status_correct p n lnk st :
  nbr_wf st -> nbrs st !! p = Some n ->
  wp (update_neighbor_status p lnk) (fun r st' =>
    nbr_wf st' /\ nbr_frame st st' /\ neighbortable st' = neighbortable st /\ r = status_of lnk /\
    (exists drop, nbrs st' = <[p := set_status r (drop n)]> (drop <$> nbrs st) /\
      nbr2s st' = match (if status_changes n lnk && (lnk =? SYM_LINK)
                         then find_two_hop st (neighbor_main_addr n) else None) with
                  | Some (Some q) => delete q (nbr2s st)
                  | _ => nbr2s st
                  end /\
      (drop = id \/ exists q, drop = drop_nbr2 q)) /\
    (status_changes n lnk = true -> changes_neighborhood st' = true /\ changes_topology st' = true) /\
    (status_changes n lnk = false -> changes_neighborhood st' = changes_neighborhood st /\
      changes_topology st' = changes_topology st)) st.
Proof. apply wp_update_neighbor_status. Qed.

(** one neighbour announced in a HELLO: the tables stay well formed, and when the
    status is symmetric or MPR and the address is not our own, the sender is linked
    to a two-hop neighbour with the announced node's main address. A pair that was
    not known before has no expiry timer: it is only started by a second HELLO. *)
Theorem process_message_neighbor_correct p n vtime hn st :
  nbr_wf st -> nbrs st !! p = Some n -> Z.of_nat (size (nbrs st)) < 32768 ->
  no_alias st (hello_main_addr st hn) ->
  wp (process_message_neighbor p vtime hn) (fun hn' st' =>
    nbr_wf st' /\ nbr_frame st st' /\
    (if_ifwithaddr (ifnet st) (hn_address hn) = None -> announces hn = true ->
      let a := hello_main_addr st hn in
      exists q m, linked st' p q /\ nbr2s st' !! q = Some m /\ neighbor_2_addr m = a /\
        ((forall q m, linked st p q -> nbr2s st !! q = Some m -> neighbor_2_addr m <> a) ->
         timerless st' p q /\ changes_neighborhood st' = true /\ changes_topology st' = true))) st.
Proof.
  intros. eapply wp_mono; [by eapply wp_process_message_neighbor|]. by intros ? ? (_ & _ & ?).
Qed.

(** ** Sample states *)

Definition empty_state : olsr_state :=
  {| now_times := 1000; random_count := 0; changes_neighborhood := false; changes_topology := false;
     link_changes := false; nbrs := ∅; neighbortable := empty_table; nbr2s := ∅;
     two_hop_neighbortable := empty_table; mid_entries := ∅; mid_set := empty_table;
     mid_addresses := ∅; reverse_mid_set := empty_table; ifnet := []; links := ∅;
     link_entry_head := []; mprs_list := []; ansn := 0; main_addr := 100; changes_hna := false; interfaces := []; spf_backoff_timer := None; db := empty_lsdb |}.

(** The state after an operation that does not crash. *)
Definition run {A} (m : OM A) (st : olsr_state) : olsr_state :=
  match m st with Some (_, st') => st' | None => st end.

Lemma run_ok {A} (m : OM A) (P : olsr_state -> Prop) st :
  wp m (fun _ st' => P st') st -> P (run m st).
Proof. unfold wp, run. by destruct (m st) as [[a st']|]. Qed.

Lemma all_empty_table p : p ∉ all_elems empty_table.
Proof.
  intros Hp. apply all_elems_bucket in Hp as (i & b & Hi & Hb). unfold empty_table in Hi.
  apply lookup_replicate in Hi as [-> _]. by apply not_elem_of_nil in Hb.
Qed.

Lemma table_ok_empty {A} (addr : A -> ip_addr) : table_ok ∅ addr empty_table.
Proof.
  split.
  - apply length_replicate.
  - vm_compute. constructor.
  - intros p. rewrite lookup_empty. split; [by intros ?%all_empty_table|]. by intros [? ?].
  - intros p i b x _ _. by rewrite lookup_empty.
Qed.

Lemma bucket_empty h p : p ∉ bucket empty_table h.
Proof. intros Hp. by apply elem_of_bucket, all_empty_table in Hp. Qed.

Lemma empty_wf : nbr_wf empty_state.
Proof.
  assert (forall p, nbrs empty_state !! p = None) as E1 by apply lookup_empty.
  assert (forall p, nbr2s empty_state !! p = None) as E2 by apply lookup_empty.
  assert (forall p, mid_entries empty_state !! p = None) as E3 by apply lookup_empty.
  assert (forall p q, ~ back empty_state p q) as Hb by (intros p q (m & Hm & _); by rewrite E2 in Hm).
  split; try apply (table_ok_empty neighbor_main_addr); try apply (table_ok_empty neighbor_2_addr);
    try (intros ? ? H; congruence); try (intros ? ? ? ? H; congruence); try (intros ? ? ? H; congruence).
  - intros p q. split; [|by intros [?%Hb _]]. intros (n & Hn & _). by rewrite E1 in Hn.
  - by intros p q ?%Hb.
  - split.
    + by intros h p ?%bucket_empty.
    + by intros h p ?%bucket_empty.
    + intros p e q H. by rewrite E3 in H.
Qed.

(** Without MID entries nobody has an alias. *)
Lemma no_mid_no_alias st a : mid_set st = empty_table -> no_alias st a.
Proof.
  intros Hmid q m Hm. unfold two_hop_matches. rewrite Hm. simpl.
  destruct (ipequal ip_version (neighbor_2_addr m) a) eqn:E; [by apply ipequal_eq in E|].
  unfold find_aliases, find_entry_bymain. rewrite Hmid.
  assert (bucket empty_table (olsr_ip_hashing ip_version (neighbor_2_addr m)) = []) as ->.
  { destruct (bucket _ _) as [|x l] eqn:Eb; [done|]. exfalso. eapply (bucket_empty _ x). rewrite Eb. left. }
  done.
Qed.

End spec.

(** ** Witnesses *)

Definition sample_cnf : olsrd_config :=
  {| ip_version := AF_INET; mpr_coverage := 1; tc_redundancy := 2; lq_level := 0;
     use_hysteresis := false; lq_nat_thresh := S754_finite false 8388608 (-23); olsr_random := fun n => n; OLSR_RANDOM_MAX := 2147483647;
     hscaling := S754_finite false 8388608 (-24); hhigh := S754_finite false 13421773 (-24);
     hlow := S754_finite false 10066330 (-25) |}.

Section witnesses.
#[local] Existing Instance sample_cnf.

Definition sym_announce (a : ip_addr) : hello_neighbor :=
  {| hn_status := SYM_NEIGH; hn_link := SYM_LINK; hn_address := a; hn_cost := 0; hn_linkquality := [] |}.

(** Two neighbours, 101 and 102; 101 announces 7 and 8, 102 announces 7. *)
Definition st1 : olsr_state := run (olsr_insert_neighbor_table 101) empty_state.
Definition st2 : olsr_state := run (olsr_insert_neighbor_table 102) st1.
Definition st3 : olsr_state := run (process_message_neighbor 2 5000 (sym_announce 7)) st2.
Definition st4 : olsr_state := run (process_message_neighbor 2 5000 (sym_announce 8)) st3.
Definition st5 : olsr_state := run (process_message_neighbor 3 5000 (sym_announce 7)) st4.

Lemma st2_wf : nbr_wf st2.
Proof.
  assert (forall a st, nbr_wf st -> nbr_wf (run (olsr_insert_neighbor_table a) st)) as H.
  { intros a st Hwf. apply run_ok. eapply wp_mono; [by apply wp_insert_neighbor|]. by intros ? ? [? _]. }
  apply H, H, empty_wf.
Qed.

Lemma announce_wf p a st :
  nbr_wf st -> is_Some (nbrs st !! p) -> Z.of_nat (size (nbrs st)) < 32768 -> mid_set st = empty_table ->
  nbr_wf (run (process_message_neighbor p 5000 (sym_announce a)) st).
Proof.
  intros Hwf [n Hp] Hs Hmid. apply run_ok.
  eapply wp_mono; [apply (wp_process_message_neighbor p n); try done|by intros ? ? (_ & _ & ? & _)].
  by apply no_mid_no_alias.
Qed.

Lemma st3_wf : nbr_wf st3.
Proof. apply announce_wf; [apply st2_wf|vm_compute; by eexists|by vm_compute..]. Qed.

Lemma st4_wf : nbr_wf st4.
Proof. apply announce_wf; [apply st3_wf|vm_compute; by eexists|by vm_compute..]. Qed.

Lemma st5_wf : nbr_wf st5.
Proof. apply announce_wf; [apply st4_wf|vm_compute; by eexists|by vm_compute..]. Qed.

Lemma olsr_insert_neighbor_table_correct_witness :
  wp (olsr_insert_neighbor_table 101) (fun p st' => p = 2%positive /\ st' = st5) st5.
Proof.
  eapply wp_mono; [exact (olsr_insert_neighbor_table_correct 101 st5 st5_wf)|].
  intros p st' (_ & _ & _ & H). vm_compute in H. vm_compute. exact H.
Defined.

(** Deleting 101 leaves 7 (still reached over 102) and frees 8. *)
Lemma olsr_delete_neighbor_table_correct_witness :
  wp (olsr_delete_neighbor_table 101) (fun found st' => found = true /\ nbrs st' = delete 2%positive (nbrs st5)) st5 /\
  map neighbor_2_addr (map snd (map_to_list (nbr2s (run (olsr_delete_neighbor_table 101) st5)))) = [7].
Proof.
  split; [|vm_compute; reflexivity].
  eapply wp_mono; [exact (olsr_delete_neighbor_table_correct 101 st5 st5_wf)|].
  intros found st' (_ & _ & H).
  assert (find_nbr st5 101 = Some (Some 2%positive)) as E by (vm_compute; reflexivity).
  rewrite E in H. destruct H as (H1 & H2 & _). split; [exact H1|exact H2].
Defined.

Lemma st5_two_hop : exists m, nbr2s st5 !! 2%positive = Some m.
Proof. vm_compute. eexists. reflexivity. Qed.

Lemma olsr_delete_two_hop_neighbor_table_correct_witness :
  wp (olsr_delete_two_hop_neighbor_table 2) (fun _ st' => nbr2s st' = delete 2%positive (nbr2s st5)) st5.
Proof.
  destruct st5_two_hop as [m Hm].
  eapply wp_mono; [exact (olsr_delete_two_hop_neighbor_table_correct 2 m st5 st5_wf Hm)|].
  intros u st' (_ & _ & _ & _ & _ & H). exact H.
Defined.

Lemma st5_linked : exists n, nbrs st5 !! 2%positive = Some n /\ linked st5 2 3.
Proof.
  eexists. split; [vm_compute; reflexivity|]. eexists. split; [vm_compute; reflexivity|].
  vm_compute. left.
Qed.

Lemma olsr_expire_nbr2_list_correct_witness :
  wp (olsr_expire_nbr2_list 2 3) (fun _ st' => nbr_wf st' /\ changes_topology st' = true) st5.
Proof.
  destruct st5_linked as (n & Hn & Hl).
  eapply wp_mono; [exact (olsr_expire_nbr2_list_correct 2 3 n st5 st5_wf Hn Hl)|].
  intros u st' (H & _ & _ & _ & _ & _ & Ht & _). split; [exact H|exact Ht].
Defined.

Lemma update_neighbor_status_correct_witness :
  wp (update_neighbor_status 2 SYM_LINK) (fun r st' => r = SYM /\ changes_topology st' = true) st5.
Proof.
  destruct st5_linked as (n & Hn & _).
  eapply wp_mono; [exact (update_neighbor_status_correct 2 n SYM_LINK st5 st5_wf Hn)|].
  intros r st' (_ & _ & _ & Hr & _ & Hc & _). split; [exact Hr|]. apply Hc.
  revert Hn. vm_compute. intros [= <-]. reflexivity.
Defined.

(** 102 announces 8, which it did not before: the new pair has no timer. *)
Lemma process_message_neighbor_correct_witness :
  wp (process_message_neighbor 3 5000 (sym_announce 8)) (fun _ st' => exists q, timerless st' 3 q) st5.
Proof.
  assert (exists n, nbrs st5 !! 3%positive = Some n) as [n Hn] by (vm_compute; eexists; reflexivity).
  assert (Z.of_nat (size (nbrs st5)) < 32768) as Hs by (vm_compute; reflexivity).
  assert (mid_set st5 = empty_table) as Hm by (vm_compute; reflexivity).
  eapply wp_mono; [exact (process_message_neighbor_correct 3 n 5000 (sym_announce 8) st5 st5_wf Hn Hs
    (no_mid_no_alias st5 _ Hm))|].
  intros hn st' (_ & _ & H).
  destruct (H eq_refl eq_refl) as (q & m & _ & _ & _ & Ht). exists q. apply Ht.
  intros q' m' (n' & Hn' & Hq') Hm'. revert Hn' Hq'. vm_compute. intros [= <-] Hq'.
  apply list_elem_of_singleton in Hq' as ->. revert Hm'. vm_compute. intros [= <-] Ha. discriminate Ha.
Defined.

End witnesses.
