(* ===== verification/Mpr.v ===== *)
(** * mpr.c: the selection of multipoint relays (RFC 3626 section 8.3.1) *)

From S2P Require Import Prelude IpAddr State MidLookup NeighTable.

Section mpr.
Context {cnf : olsrd_config}.

(** The status of the neighbour a two-hop neighbour also is; [None] when it is none. *)
Definition dup_neighbor_status (addr : ip_addr) : OM (option Z) :=
  let* dup_neighbor := olsr_lookup_neighbor_table addr in
  match dup_neighbor with
  | None => ret None
  | Some d => let* n := get_nbr d in ret (Some (status n))
  end.

(** [(dup_neighbor != NULL) && (dup_neighbor->status == SYM)] *)
Definition dup_sym (s : option Z) : bool := match s with Some s => s =? SYM | None => false end.
(** [(dup_neighbor != NULL) && (dup_neighbor->status != NOT_SYM)] *)
Definition dup_not_nosym (s : option Z) : bool := match s with Some s => negb (s =? NOT_SYM) | None => false end.

Definition OLSR_FOR_ALL_NBR_ENTRIES : OM (list positive) := gets (fun st => all_elems (neighbortable st)).
Definition all_two_hop : OM (list positive) := gets (fun st => all_elems (two_hop_neighbortable st)).

(** The neighbour of the first element of the one-hop list; without one the code
    would read the list head as an element. *)
Definition first_neighbor (q : positive) : OM positive :=
  let* m := get_nbr2 q in
  match neighbor_2_nblist m with
  | [] => crash
  | l :: _ => ret (neighbor l)
  end.

Definition olsr_find_2_hop_neighbors_with_1_link (will : Z) : OM (list positive) :=
  let* qs := all_two_hop in
  foldM qs [] (fun two_hop_list q =>
    let* m := get_nbr2 q in
    let* dup := dup_neighbor_status (neighbor_2_addr m) in
    if dup_not_nosym dup then ret two_hop_list
    else if neighbor_2_pointer m =? 1 then
      let* p := first_neighbor q in
      let* n := get_nbr p in
      if (willingness n =? will) && (status n =? SYM) then ret (q :: two_hop_list)
      else ret two_hop_list
    else ret two_hop_list).

Definition olsr_chosen_mpr (one_hop_neighbor : positive) (two_hop_covered_count : Z) : OM Z :=
  do* upd_nbr one_hop_neighbor (set_is_mpr true) in
  let* n := get_nbr one_hop_neighbor in
  foldM (neighbor_2_list n) two_hop_covered_count (fun count second_hop =>
    let q := neighbor_2 second_hop in
    let* m := get_nbr2 q in
    let* dup := dup_neighbor_status (neighbor_2_addr m) in
    if dup_sym dup then ret count
    else
      let covered := u8 (mpr_covered_count m + 1) in
      do* upd_nbr2 q (set_mpr_covered_count covered) in
      do* forM_ (neighbor_2_nblist m) (fun l =>
        let* x := get_nbr (neighbor l) in
        when ((status x =? SYM) && (covered >=? mpr_coverage))
          (upd_nbr (neighbor l) (set_neighbor_2_nocov (s32 (neighbor_2_nocov x - 1))))) in
      ret (if covered >=? mpr_coverage then u16 (count + 1) else count)).

Definition olsr_find_maximum_covered (will : Z) : OM (option positive) :=
  let* ps := OLSR_FOR_ALL_NBR_ENTRIES in
  let* r := foldM ps (0, None) (fun acc p =>
    let '(maximum, candidate) := acc in
    let* n := get_nbr p in
    if negb (is_mpr n) && (willingness n =? will) && (maximum <? neighbor_2_nocov n)
    then ret (u16 (neighbor_2_nocov n), Some p)
    else ret (maximum, candidate)) in
  ret (snd r).

Definition olsr_clear_mprs : OM unit :=
  let* ps := OLSR_FOR_ALL_NBR_ENTRIES in
  forM_ ps (fun p =>
    let* n := get_nbr p in
    do* when (is_mpr n) (upd_nbr p (fun n => set_is_mpr false (set_was_mpr true n))) in
    forM_ (neighbor_2_list n) (fun e => upd_nbr2 (neighbor_2 e) (set_mpr_covered_count 0))).

Definition olsr_check_mpr_changes : OM bool :=
  let* ps := OLSR_FOR_ALL_NBR_ENTRIES in
  foldM ps false (fun retval p =>
    let* n := get_nbr p in
    if was_mpr n then
      do* upd_nbr p (set_was_mpr false) in
      ret (if is_mpr n then retval else true)
    else ret retval).

Definition olsr_clear_two_hop_processed : OM unit :=
  let* qs := all_two_hop in
  forM_ qs (fun q => upd_nbr2 q (set_processed 0)).

(** The inner loop of [olsr_calculate_two_hop_neighbors]: [count] and [n_count]. *)
Definition count_two_hop (l : list neighbor_2_list_entry) (counts : Z * Z) : OM (Z * Z) :=
  foldM l counts (fun counts e =>
    let '(count, n_count) := counts in
    let* m := get_nbr2 (neighbor_2 e) in
    let* dup := dup_neighbor_status (neighbor_2_addr m) in
    if negb (dup_sym dup) then
      let n_count := u16 (n_count + 1) in
      if processed m =? 0 then
        do* upd_nbr2 (neighbor_2 e) (set_processed 1) in
        ret (u16 (count + 1), n_count)
      else ret (count, n_count)
    else ret counts).

Definition olsr_calculate_two_hop_neighbors : OM Z :=
  do* olsr_clear_two_hop_processed in
  let* ps := OLSR_FOR_ALL_NBR_ENTRIES in
  let* r := foldM ps (0, 0, 0) (fun acc p =>
    let '(count, n_count, sum) := acc in
    let* n := get_nbr p in
    if status n =? NOT_SYM then
      do* upd_nbr p (set_neighbor_2_nocov count) in
      ret (count, n_count, sum)
    else
      let* counts := count_two_hop (neighbor_2_list n) (count, n_count) in
      let '(count, n_count) := counts in
      do* upd_nbr p (set_neighbor_2_nocov n_count) in
      ret (count, n_count, u16 (sum + count))) in
  ret (snd r).

Definition add_will_always_nodes : OM Z :=
  let* ps := OLSR_FOR_ALL_NBR_ENTRIES in
  foldM ps 0 (fun count p =>
    let* n := get_nbr p in
    if (status n =? NOT_SYM) || negb (willingness n =? WILL_ALWAYS) then ret count
    else olsr_chosen_mpr p count).

Definition olsr_optimize_mpr_set : OM unit :=
  forM_ [1; 2; 3; 4; 5; 6] (fun i =>
    let* ps := OLSR_FOR_ALL_NBR_ENTRIES in
    forM_ ps (fun p =>
      let* n := get_nbr p in
      when ((willingness n =? i) && is_mpr n)
        (let* removeit := foldM (neighbor_2_list n) true (fun removeit e =>
           let* m := get_nbr2 (neighbor_2 e) in
           let* dup := dup_neighbor_status (neighbor_2_addr m) in
           if dup_not_nosym dup then ret removeit
           else ret (if mpr_covered_count m <=? mpr_coverage then false else removeit)) in
         when removeit (upd_nbr p (set_is_mpr false))))).

(** [while ((mprs = olsr_find_maximum_covered(i)) != NULL)]; the second result says
    that the loop was left with [break]. *)
Fixpoint maximum_covered_loop (fuel : nat) (i two_hop_count count : Z) : OM (Z * bool) :=
  match fuel with
  | O => crash
  | S fuel =>
      let* mprs := olsr_find_maximum_covered i in
      match mprs with
      | None => ret (count, false)
      | Some p =>
          let* count := olsr_chosen_mpr p count in
          if count >=? two_hop_count then ret (count, true)
          else maximum_covered_loop fuel i two_hop_count count
      end
  end.

(** The neighbours with a sole link to them, then the greedy loop. *)
Definition mpr_level (i two_hop_count count : Z) : OM (Z * bool) :=
  let* two_hop_list := olsr_find_2_hop_neighbors_with_1_link i in
  let* count := foldM two_hop_list count (fun count q =>
    let* p := first_neighbor q in
    let* n := get_nbr p in
    if negb (is_mpr n) then olsr_chosen_mpr p count else ret count) in
  if count >=? two_hop_count then ret (count, true)
  else
    let* ps := OLSR_FOR_ALL_NBR_ENTRIES in
    maximum_covered_loop (S (length ps)) i two_hop_count count.

(** [for (i = WILL_ALWAYS - 1; i > WILL_NEVER; i--)]; both [break]s end this loop,
    the inner one because it sets [i] to [WILL_NEVER]. *)
Fixpoint mpr_levels (levels : list Z) (two_hop_count count : Z) : OM unit :=
  match levels with
  | [] => ret tt
  | i :: levels =>
      let* r := mpr_level i two_hop_count count in
      let '(count, stop) := r in
      if stop then ret tt else mpr_levels levels two_hop_count count
  end.

Definition olsr_calculate_mpr : OM unit :=
  do* olsr_clear_mprs in
  let* two_hop_count := olsr_calculate_two_hop_neighbors in
  let* two_hop_covered_count := add_will_always_nodes in
  do* mpr_levels [6; 5; 4; 3; 2; 1] two_hop_count two_hop_covered_count in
  do* olsr_optimize_mpr_set in
  let* changed := olsr_check_mpr_changes in
  when (changed && (tc_redundancy >? 0)) (signal_link_changes true).

End mpr.
