(* ===== verification/MprProofs.v ===== *)
(** * Lemmas on mpr.c and lq_mpr.c: what stays, what changes, what is counted *)

From S2P Require Import Prelude IpAddr State MidLookup NeighTable NeighProofs Mpr.

(** ** The static part of the tables *)

Definition erase_nbr (n : neighbor_entry) : neighbor_entry :=
  set_is_mpr false (set_was_mpr false (set_skip false (set_neighbor_2_nocov 0 n))).
Definition erase_nbr2 (m : neighbor_2_entry) : neighbor_2_entry :=
  set_mpr_covered_count 0 (set_processed 0 m).

Section mpr_proofs.
Context {cnf : olsrd_config}.

(** The computation of relays only writes the fields that [erase_nbr] and
    [erase_nbr2] clear. *)
Record mpr_same (st st' : olsr_state) : Prop := {
  ms_frame : nbr_frame st st';
  ms_nbrs : erase_nbr <$> nbrs st' = erase_nbr <$> nbrs st;
  ms_nbr2s : erase_nbr2 <$> nbr2s st' = erase_nbr2 <$> nbr2s st;
  ms_table : neighbortable st' = neighbortable st;
  ms_table2 : two_hop_neighbortable st' = two_hop_neighbortable st;
}.

#[export] Instance mpr_same_preorder : PreOrder mpr_same.
Proof.
  split.
  - intros st. by split.
  - intros s1 s2 s3 [? ? ? ? ?] [? ? ? ? ?]. split; unfold nbr_frame in *; congruence.
Qed.

Lemma fmap_erase {A} (f : A -> A) (h h' : gmap positive A) p x :
  f <$> h' = f <$> h -> h !! p = Some x -> exists x', h' !! p = Some x' /\ f x' = f x.
Proof.
  intros E Hp. apply (f_equal (lookup p)) in E. rewrite !lookup_fmap, Hp in E.
  destruct (h' !! p) as [x'|]; simpl in E; [|done]. exists x'. split; [done|]. by injection E.
Qed.

Lemma erase_nbr_fields n n' : erase_nbr n' = erase_nbr n ->
  neighbor_main_addr n' = neighbor_main_addr n /\ status n' = status n /\
  willingness n' = willingness n /\ neighbor_2_list n' = neighbor_2_list n /\ linkcount n' = linkcount n.
Proof. intros [=]. done. Qed.

Lemma erase_nbr2_fields m m' : erase_nbr2 m' = erase_nbr2 m ->
  neighbor_2_addr m' = neighbor_2_addr m /\ neighbor_2_pointer m' = neighbor_2_pointer m /\
  neighbor_2_nblist m' = neighbor_2_nblist m.
Proof. intros [=]. done. Qed.

Lemma same_nbr st st' p n : mpr_same st st' -> nbrs st !! p = Some n ->
  exists n', nbrs st' !! p = Some n' /\ erase_nbr n' = erase_nbr n.
Proof. intros H. by apply fmap_erase, H. Qed.

Lemma same_nbr2 st st' q m : mpr_same st st' -> nbr2s st !! q = Some m ->
  exists m', nbr2s st' !! q = Some m' /\ erase_nbr2 m' = erase_nbr2 m.
Proof. intros H. by apply fmap_erase, H. Qed.

#[export] Instance mpr_same_sym : Symmetric mpr_same.
Proof.
  intros s1 s2 [? ? ? ? ?]. by split.
Qed.

Lemma table_ok_ext {A} (addr : A -> ip_addr) (f : A -> A) (h h' : gmap positive A) table :
  (forall x x', f x' = f x -> addr x' = addr x) ->
  f <$> h' = f <$> h -> table_ok h addr table -> table_ok h' addr table.
Proof.
  intros Hf E [H1 H2 H3 H4]. split; [done|done|..].
  - intros p. rewrite H3. split; intros [x Hx].
    + destruct (fmap_erase f h h' p x E Hx) as (x' & ? & _). by eexists.
    + destruct (fmap_erase f h' h p x (eq_sym E) Hx) as (x' & ? & _). by eexists.
  - intros p i b x' Hi Hp Hx'. destruct (fmap_erase f h' h p x' (eq_sym E) Hx') as (x & Hx & Ex).
    rewrite <- (Hf x' x Ex). by eapply H4.
Qed.

Lemma same_linked st st' p q : mpr_same st st' -> linked st p q <-> linked st' p q.
Proof.
  assert (forall s s', mpr_same s s' -> linked s p q -> linked s' p q) as H.
  { intros s s' Hs (n & Hn & Hq). destruct (same_nbr _ _ _ _ Hs Hn) as (n' & Hn' & E).
    apply erase_nbr_fields in E as (_ & _ & _ & E & _). exists n'. by rewrite E. }
  intros Hs. split; apply H; [done|by symmetry].
Qed.

Lemma same_back st st' p q : mpr_same st st' -> back st p q <-> back st' p q.
Proof.
  assert (forall s s', mpr_same s s' -> back s p q -> back s' p q) as H.
  { intros s s' Hs (m & Hm & Hq). destruct (same_nbr2 _ _ _ _ Hs Hm) as (m' & Hm' & E).
    apply erase_nbr2_fields in E as (_ & _ & E). exists m'. by rewrite E. }
  intros Hs. split; apply H; [done|by symmetry].
Qed.

(** The invariant only speaks about the static part. *)
Lemma mpr_same_wf st st' : mpr_same st st' -> nbr_wf st -> nbr_wf st'.
Proof.
  intros Hs Hwf. assert (mpr_same st' st) as Hs' by by symmetry.
  assert (forall p n', nbrs st' !! p = Some n' -> exists n, nbrs st !! p = Some n /\
    neighbor_main_addr n' = neighbor_main_addr n /\ neighbor_2_list n' = neighbor_2_list n) as Hn.
  { intros p n' Hp. destruct (same_nbr _ _ _ _ Hs' Hp) as (n & ? & E).
    apply erase_nbr_fields in E as (? & _ & _ & ? & _). by exists n. }
  assert (forall q m', nbr2s st' !! q = Some m' -> exists m, nbr2s st !! q = Some m /\
    neighbor_2_pointer m' = neighbor_2_pointer m /\ neighbor_2_nblist m' = neighbor_2_nblist m) as Hm.
  { intros q m' Hq. destruct (same_nbr2 _ _ _ _ Hs' Hq) as (m & ? & E).
    apply erase_nbr2_fields in E as (_ & ? & ?). by exists m. }
  split.
  - rewrite (ms_table _ _ Hs). eapply (table_ok_ext _ erase_nbr); [|by apply Hs|apply Hwf].
    intros x x' E. by apply erase_nbr_fields in E as (? & _).
  - rewrite (ms_table2 _ _ Hs). eapply (table_ok_ext _ erase_nbr2); [|by apply Hs|apply Hwf].
    intros x x' E. by apply erase_nbr2_fields in E as (? & _).
  - intros p q n m (n0 & H1 & E1 & _)%Hn (m0 & H2 & E2 & _)%Hn Ha.
    eapply (wf_addr _ _ Hwf); [done..|]. congruence.
  - intros p q. by rewrite <- (same_linked st), <- (same_back st), (wf_links _ _ Hwf).
  - intros p n e (n0 & H1 & _ & E)%Hn He. rewrite E in He. by eapply (wf_own _ _ Hwf).
  - intros p n (n0 & H1 & _ & E)%Hn. rewrite E. by eapply (wf_linked_nodup _ _ Hwf).
  - intros q m (m0 & H1 & _ & E)%Hm. rewrite E. by eapply (wf_back_nodup _ _ Hwf).
  - intros q m (m0 & H1 & -> & ->)%Hm. by eapply (wf_count _ _ Hwf).
  - intros q m (m0 & H1 & _ & ->)%Hm. by eapply (wf_small _ _ Hwf).
  - intros p q Hb. rewrite <- (same_back st) in Hb by done. apply (wf_back_alloc _ _ Hwf) in Hb as [n Hp].
    destruct (same_nbr _ _ _ _ Hs Hp) as (n' & ? & _). by eexists.
  - eapply mid_same_ok; [|apply Hwf]. apply frame_mid, (ms_frame _ _ Hs).
Qed.

(** ** Reading a neighbour's status by address *)

Definition dup_of (st : olsr_state) (a : ip_addr) : option Z :=
  d ← default None (find_nbr st (default a (default None (find_main_addr st a))));
  status <$> nbrs st !! d.

Lemma wp_dup_status a (Q : option Z -> olsr_state -> Prop) st :
  nbr_wf st -> Q (dup_of st a) st -> wp (dup_neighbor_status a) Q st.
Proof.
  intros Hwf HQ. unfold dup_neighbor_status, olsr_lookup_neighbor_table, dup_of in *.
  destruct (find_main_addr_safe st a (wf_mid _ _ Hwf)) as [main Hmain]. rewrite Hmain in HQ.
  wp_step. wp_step. eapply (wp_gets_opt (fun st => find_main_addr st a)); [exact Hmain|].
  destruct (find_nbr_correct _ st (default a main) Hwf) as (r & Hf & Hr). simpl in HQ. rewrite Hf in HQ.
  eapply (wp_gets_opt (fun st => find_nbr st (default a main))); [exact Hf|].
  destruct r as [d|]; simpl in HQ.
  - destruct Hr as (n & Hn & _). rewrite Hn in HQ. wp_step. eapply wp_get_nbr; [exact Hn|]. by apply wp_ret.
  - by apply wp_ret.
Qed.

Lemma find_nbr_same st st' a : mpr_same st st' -> find_nbr st' a = find_nbr st a.
Proof.
  intros Hs. unfold find_nbr. rewrite (ms_table _ _ Hs). apply findM_ext. intros p _.
  unfold nbr_has_addr. destruct (nbrs st !! p) as [n|] eqn:E.
  - destruct (same_nbr _ _ _ _ Hs E) as (n' & -> & En). apply erase_nbr_fields in En as (Ha & _).
    simpl. by rewrite Ha.
  - destruct (nbrs st' !! p) as [n'|] eqn:E'; [|done]. symmetry in Hs.
    destruct (same_nbr _ _ _ _ Hs E') as (n & ? & _). congruence.
Qed.

Lemma dup_of_same st st' a : mpr_same st st' -> dup_of st' a = dup_of st a.
Proof.
  intros Hs. unfold dup_of. rewrite (mid_same_main st st') by apply frame_mid, (ms_frame _ _ Hs).
  rewrite (find_nbr_same st st') by done. destruct (default None _) as [d|]; simpl; [|done].
  destruct (nbrs st !! d) as [n|] eqn:E.
  - destruct (same_nbr _ _ _ _ Hs E) as (n' & -> & En). apply erase_nbr_fields in En as (_ & Hst & _).
    simpl. by rewrite Hst.
  - destruct (nbrs st' !! d) as [n'|] eqn:E'; [|done]. symmetry in Hs.
    destruct (same_nbr _ _ _ _ Hs E') as (n & ? & _). congruence.
Qed.

(** ** Static and dynamic views *)

(** The two-hop neighbours of a neighbour, and the neighbours of a two-hop neighbour. *)
Definition N2 (st : olsr_state) (p : positive) : list positive :=
  match nbrs st !! p with Some n => map neighbor_2 (neighbor_2_list n) | None => [] end.
Definition B (st : olsr_state) (q : positive) : list positive :=
  match nbr2s st !! q with Some m => map neighbor (neighbor_2_nblist m) | None => [] end.
(** Not a symmetric neighbour at the same time. *)
Definition strict (st : olsr_state) (q : positive) : bool :=
  match nbr2s st !! q with Some m => negb (dup_sym (dup_of st (neighbor_2_addr m))) | None => false end.
Definition N2s (st : olsr_state) (p : positive) : list positive := filter (fun q => strict st q = true) (N2 st p).
Definition nstatus (st : olsr_state) (p : positive) : Z := match nbrs st !! p with Some n => status n | None => NOT_SYM end.
Definition nwill (st : olsr_state) (p : positive) : Z := match nbrs st !! p with Some n => willingness n | None => WILL_NEVER end.

Definition mpr (st : olsr_state) (p : positive) : bool := match nbrs st !! p with Some n => is_mpr n | None => false end.
Definition was (st : olsr_state) (p : positive) : bool := match nbrs st !! p with Some n => was_mpr n | None => false end.
Definition cov (st : olsr_state) (q : positive) : Z := match nbr2s st !! q with Some m => mpr_covered_count m | None => 0 end.

(** Only uncovered counts and the like differ. *)
Definition dyn_same (st st' : olsr_state) : Prop :=
  (forall p, mpr st' p = mpr st p) /\ (forall p, was st' p = was st p) /\ (forall q, cov st' q = cov st q) /\
  link_changes st' = link_changes st.

#[export] Instance dyn_same_preorder : PreOrder dyn_same.
Proof.
  split; [by intros st|]. intros s1 s2 s3 (A1 & A2 & A3 & A4) (B1 & B2 & B3 & B4).
  split_and!; try congruence; intros p; by rewrite ?B1, ?B2, ?B3.
Qed.

Lemma same_none st st' p : mpr_same st st' -> nbrs st !! p = None -> nbrs st' !! p = None.
Proof.
  intros Hs E. destruct (nbrs st' !! p) as [n'|] eqn:E'; [|done]. symmetry in Hs.
  destruct (same_nbr _ _ _ _ Hs E') as (n & ? & _). congruence.
Qed.

Lemma same_none2 st st' q : mpr_same st st' -> nbr2s st !! q = None -> nbr2s st' !! q = None.
Proof.
  intros Hs E. destruct (nbr2s st' !! q) as [n'|] eqn:E'; [|done]. symmetry in Hs.
  destruct (same_nbr2 _ _ _ _ Hs E') as (n & ? & _). congruence.
Qed.

Lemma same_static st st' : mpr_same st st' ->
  (forall p, N2 st' p = N2 st p) /\ (forall q, B st' q = B st q) /\ (forall q, strict st' q = strict st q) /\
  (forall p, nstatus st' p = nstatus st p) /\ (forall p, nwill st' p = nwill st p).
Proof.
  intros Hs. unfold N2, B, strict, nstatus, nwill. split_and!; intros x.
  1, 4, 5: destruct (nbrs st !! x) as [n|] eqn:E;
    [destruct (same_nbr _ _ _ _ Hs E) as (n' & -> & En); apply erase_nbr_fields in En as (_ & ? & ? & ? & _); congruence
    |by rewrite (same_none _ _ _ Hs E)].
  - destruct (nbr2s st !! x) as [m|] eqn:E; [|by rewrite (same_none2 _ _ _ Hs E)].
    destruct (same_nbr2 _ _ _ _ Hs E) as (m' & -> & Em). by apply erase_nbr2_fields in Em as (_ & _ & ->).
  - destruct (nbr2s st !! x) as [m|] eqn:E; [|by rewrite (same_none2 _ _ _ Hs E)].
    destruct (same_nbr2 _ _ _ _ Hs E) as (m' & -> & Em). apply erase_nbr2_fields in Em as (-> & _ & _).
    by rewrite (dup_of_same st st').
Qed.

Lemma same_N2 st st' p : mpr_same st st' -> N2 st' p = N2 st p.
Proof. intros Hs. apply (same_static _ _ Hs). Qed.
Lemma same_B st st' q : mpr_same st st' -> B st' q = B st q.
Proof. intros Hs. apply (same_static _ _ Hs). Qed.
Lemma same_strict st st' q : mpr_same st st' -> strict st' q = strict st q.
Proof. intros Hs. apply (same_static _ _ Hs). Qed.
Lemma same_nstatus st st' p : mpr_same st st' -> nstatus st' p = nstatus st p.
Proof. intros Hs. apply (same_static _ _ Hs). Qed.
Lemma same_nwill st st' p : mpr_same st st' -> nwill st' p = nwill st p.
Proof. intros Hs. apply (same_static _ _ Hs). Qed.

Lemma same_N2s st st' p : mpr_same st st' -> N2s st' p = N2s st p.
Proof.
  intros Hs. unfold N2s. rewrite (same_N2 st st') by done. apply list_filter_iff.
  intros q. by rewrite (same_strict st st').
Qed.

(** ** Writes *)

Lemma nbr_write st p n n' :
  nbrs st !! p = Some n -> erase_nbr n' = erase_nbr n ->
  let st' := set_nbrs (<[p := n']> (nbrs st)) st in
  mpr_same st st' /\
  (forall x, mpr st' x = if decide (x = p) then is_mpr n' else mpr st x) /\
  (forall x, was st' x = if decide (x = p) then was_mpr n' else was st x) /\
  (forall q, cov st' q = cov st q).
Proof.
  intros Hp He st'. split; [|split_and!].
  - split; try done. simpl. rewrite fmap_insert, He. apply insert_id. by rewrite lookup_fmap, Hp.
  - intros x. unfold mpr, st'. simpl. destruct (decide (x = p)) as [->|Hn].
    + by rewrite lookup_insert_eq.
    + by rewrite lookup_insert_ne.
  - intros x. unfold was, st'. simpl. destruct (decide (x = p)) as [->|Hn].
    + by rewrite lookup_insert_eq.
    + by rewrite lookup_insert_ne.
  - done.
Qed.

Lemma nbr2_write st q m m' :
  nbr2s st !! q = Some m -> erase_nbr2 m' = erase_nbr2 m ->
  let st' := set_nbr2s (<[q := m']> (nbr2s st)) st in
  mpr_same st st' /\ (forall x, mpr st' x = mpr st x) /\ (forall x, was st' x = was st x) /\
  (forall x, cov st' x = if decide (x = q) then mpr_covered_count m' else cov st x).
Proof.
  intros Hq He st'. split; [|split_and!]; try done.
  - split; try done. simpl. rewrite fmap_insert, He. apply insert_id. by rewrite lookup_fmap, Hq.
  - intros x. unfold cov, st'. simpl. destruct (decide (x = q)) as [->|Hn].
    + by rewrite lookup_insert_eq.
    + by rewrite lookup_insert_ne.
Qed.

(** A write that keeps the relay flags. *)
Lemma nbr_write_dyn st p n n' :
  nbrs st !! p = Some n -> erase_nbr n' = erase_nbr n -> is_mpr n' = is_mpr n -> was_mpr n' = was_mpr n ->
  mpr_same st (set_nbrs (<[p := n']> (nbrs st)) st) /\ dyn_same st (set_nbrs (<[p := n']> (nbrs st)) st).
Proof.
  intros Hp He Hm Hw. destruct (nbr_write st p n n' Hp He) as (H1 & H2 & H3 & H4). split; [done|].
  split_and!; try done; intros x; rewrite ?H2, ?H3.
  - destruct (decide (x = p)) as [->|]; [|done]. unfold mpr. by rewrite Hp.
  - destruct (decide (x = p)) as [->|]; [|done]. unfold was. by rewrite Hp.
Qed.

(** ** Two-hop neighbours of a neighbour are allocated *)

Lemma N2_alloc st p q : nbr_wf st -> q ∈ N2 st p -> exists m, nbr2s st !! q = Some m /\ p ∈ B st q.
Proof.
  intros Hwf Hq. unfold N2 in Hq. destruct (nbrs st !! p) as [n|] eqn:E; [|by apply not_elem_of_nil in Hq].
  assert (linked st p q) as Hl by (by exists n).
  apply (wf_links _ _ Hwf) in Hl as [(m & Hm & Hin) _]. exists m. split; [done|]. unfold B. by rewrite Hm.
Qed.

Lemma B_N2 st p q : nbr_wf st -> p ∈ B st q <-> q ∈ N2 st p.
Proof.
  intros Hwf. split; [|intros H; by destruct (N2_alloc _ _ _ Hwf H) as (? & _ & ?)].
  intros Hp. unfold B in Hp. destruct (nbr2s st !! q) as [m|] eqn:E; [|by apply not_elem_of_nil in Hp].
  assert (back st p q) as Hb by (by exists m).
  assert (linked st p q) as (n & Hn & Hin) by (by apply (wf_links _ _ Hwf)). unfold N2. by rewrite Hn.
Qed.

Lemma N2_nodup st p : nbr_wf st -> NoDup (N2 st p).
Proof.
  intros Hwf. unfold N2. destruct (nbrs st !! p) as [n|] eqn:E; [|constructor].
  by eapply (wf_linked_nodup _ _ Hwf).
Qed.

Lemma B_alloc st p q : nbr_wf st -> p ∈ B st q -> is_Some (nbrs st !! p).
Proof.
  intros Hwf Hp. apply (B_N2 _ _ _ Hwf) in Hp. unfold N2 in Hp.
  destruct (nbrs st !! p); [by eexists|by apply not_elem_of_nil in Hp].
Qed.

Lemma B_nodup st q : nbr_wf st -> NoDup (B st q).
Proof.
  intros Hwf. unfold B. destruct (nbr2s st !! q) as [m|] eqn:E; [|constructor].
  by eapply (wf_back_nodup _ _ Hwf).
Qed.

(** ** olsr_chosen_mpr *)

(** The inner loop only touches [neighbor_2_nocov]. *)
Lemma wp_nocov_loop (l : list neighbor_list_entry) (b : bool) st :
  (forall x, x ∈ l -> is_Some (nbrs st !! neighbor x)) ->
  wp (forM_ l (fun l => let* x := get_nbr (neighbor l) in
        when ((status x =? SYM) && b)
          (upd_nbr (neighbor l) (set_neighbor_2_nocov (s32 (neighbor_2_nocov x - 1))))))
    (fun _ st' => mpr_same st st' /\ dyn_same st st') st.
Proof.
  intros Hl.
  apply (wp_forM _ _ (fun l st' => mpr_same st st' /\ dyn_same st st' /\
    forall x, x ∈ l -> is_Some (nbrs st' !! neighbor x))).
  - split_and!; done.
  - intros x l' st1 (Hs & Hd & Hl'). destruct (Hl' x) as [n Hn]; [left|].
    assert (forall y, y ∈ l' -> is_Some (nbrs st1 !! neighbor y)) as Hrest by (intros y Hy; apply Hl'; by right).
    wp_step. eapply wp_get_nbr; [exact Hn|]. wp_step; [|done].
    eapply wp_upd_nbr; [exact Hn|].
    destruct (nbr_write_dyn st1 (neighbor x) n (set_neighbor_2_nocov (s32 (neighbor_2_nocov n - 1)) n) Hn) as [H1 H2];
      try done.
    split; [by etrans|]. split; [by etrans|]. intros y Hy. simpl.
    destruct (decide (neighbor y = neighbor x)) as [->|Hne]; [rewrite lookup_insert_eq; by eexists|].
    rewrite lookup_insert_ne by done. by apply Hrest.
  - intros st' (? & ? & _). done.
Qed.

(** The state while the list of the chosen neighbour is walked; [l] is the rest. *)
Record choosing (st : olsr_state) (p : positive) (c : Z) (l : list positive) (count : Z) (st' : olsr_state) : Prop := {
  ch_same : mpr_same st st';
  ch_mpr x : mpr st' x = if decide (x = p) then true else mpr st x;
  ch_was x : was st' x = was st x;
  ch_cov q : cov st' q =
    if decide (q ∈ N2s st p /\ q ∉ l) then u8 (cov st q + 1) else cov st q;
  ch_links : link_changes st' = link_changes st;
  ch_count : 0 <= count /\
    count + Z.of_nat (length (filter (fun q => strict st q = true) l)) <= c + Z.of_nat (length (N2s st p));
}.

Lemma choosing_skip st p c q l count st1 :
  strict st q = false -> choosing st p c (q :: l) count st1 -> choosing st p c l count st1.
Proof.
  intros Hq [Hs Hmpr Hwas Hcov Hlc [Hc0 Hc]]. split; try done.
  - intros q'. rewrite Hcov. destruct (decide (q' = q)) as [->|Hn].
    + assert (q ∉ N2s st p) as Hns.
      { unfold N2s. rewrite list_elem_of_filter. rewrite Hq. by intros [? _]. }
      by rewrite !decide_False by tauto.
    + apply decide_ext. rewrite not_elem_of_cons. tauto.
  - split; [done|]. rewrite filter_cons, decide_False in Hc by (by rewrite Hq). done.
Qed.

Lemma choosing_cover st p c q l count st1 st2 m b :
  strict st q = true -> q ∈ N2 st p -> q ∉ l -> nbr2s st1 !! q = Some m ->
  choosing st p c (q :: l) count st1 ->
  mpr_same (set_nbr2s (<[q := set_mpr_covered_count (u8 (mpr_covered_count m + 1)) m]> (nbr2s st1)) st1) st2 ->
  dyn_same (set_nbr2s (<[q := set_mpr_covered_count (u8 (mpr_covered_count m + 1)) m]> (nbr2s st1)) st1) st2 ->
  choosing st p c l (if b : bool then u16 (count + 1) else count) st2.
Proof.
  intros Hq Hin Hl Hm [Hs Hmpr Hwas Hcov Hlc [Hc0 Hc]] Hs2 (D1 & D2 & D3 & D4).
  destruct (nbr2_write st1 q m (set_mpr_covered_count (u8 (mpr_covered_count m + 1)) m) Hm eq_refl)
    as (W1 & W2 & W3 & W4).
  split.
  - etrans; [exact Hs|]. by etrans.
  - intros x. by rewrite D1, W2, Hmpr.
  - intros x. by rewrite D2, W3, Hwas.
  - intros q'. rewrite D3, W4. destruct (decide (q' = q)) as [->|Hn].
    + assert (q ∈ N2s st p) as Hns by (unfold N2s; rewrite list_elem_of_filter; done).
      rewrite decide_True by done. specialize (Hcov q). rewrite decide_False in Hcov by (rewrite not_elem_of_cons; tauto).
      unfold cov in Hcov at 1. rewrite Hm in Hcov. simpl. by rewrite Hcov.
    + rewrite Hcov. apply decide_ext. rewrite not_elem_of_cons. tauto.
  - rewrite D4. simpl. done.
  - rewrite filter_cons, decide_True in Hc by done. simpl in Hc.
    destruct b; [|lia]. pose proof (Z.mod_le (count + 1) 65536). unfold u16. split; [apply Z.mod_pos_bound|]; lia.
Qed.

Lemma wp_chosen p n c st :
  nbr_wf st -> nbrs st !! p = Some n -> 0 <= c ->
  wp (olsr_chosen_mpr p c) (choosing st p c []) st.
Proof.
  intros Hwf Hp Hc. unfold olsr_chosen_mpr. wp_step. eapply wp_upd_nbr; [exact Hp|].
  wp_step. eapply wp_get_nbr; [apply lookup_insert_eq|].
  destruct (nbr_write st p n (set_is_mpr true n) Hp eq_refl) as (W1 & W2 & W3 & W4).
  assert (map neighbor_2 (neighbor_2_list n) = N2 st p) as HN by (unfold N2; by rewrite Hp).
  apply (wp_foldM _ _ _ (fun l count st' => choosing st p c (map neighbor_2 l) count st' /\
    NoDup (map neighbor_2 l) /\ forall q, q ∈ map neighbor_2 l -> q ∈ N2 st p)).
  - simpl. rewrite HN. split; [|split; [by apply N2_nodup|done]]. split; try done.
    + intros x. rewrite W3. destruct (decide (x = p)) as [->|]; [|done]. unfold was. by rewrite Hp.
    + intros q. rewrite W4. rewrite decide_False; [done|]. unfold N2s. rewrite list_elem_of_filter. tauto.
  - intros e l count st1 (Hch & Hnd & Hin). simpl in *. pose proof (ch_same _ _ _ _ _ _ Hch) as Hs.
    apply NoDup_cons in Hnd as [Hnl Hnd].
    destruct (N2_alloc st p (neighbor_2 e) Hwf) as (m0 & Hm0 & _); [apply Hin; left|].
    destruct (same_nbr2 _ _ _ _ Hs Hm0) as (m & Hm & Em).
    pose proof (mpr_same_wf _ _ Hs Hwf) as Hwf1.
    assert (strict st (neighbor_2 e) = negb (dup_sym (dup_of st1 (neighbor_2_addr m)))) as Hst.
    { rewrite <- (same_strict st st1) by done. unfold strict. by rewrite Hm. }
    wp_step. eapply wp_get_nbr2; [exact Hm|]. wp_step. apply wp_dup_status; [done|].
    destruct (dup_sym (dup_of st1 (neighbor_2_addr m))); simpl in Hst.
    + apply wp_ret. split; [by eapply choosing_skip|]. split; [done|]. intros q Hq. apply Hin. by right.
    + wp_step. eapply wp_upd_nbr2; [exact Hm|]. wp_step.
      eapply wp_mono; [apply (wp_nocov_loop _ (u8 (mpr_covered_count m + 1) >=? mpr_coverage))|].
      * intros x Hx. simpl. eapply (B_alloc st1 (neighbor x) (neighbor_2 e) Hwf1). unfold B. rewrite Hm.
        by apply (list_elem_of_fmap_2 neighbor).
      * intros _u st2 [Hs2 Hd2]. apply wp_ret. split; [|split; [done|intros q Hq; apply Hin; by right]].
        eapply choosing_cover; try done. apply Hin. left.
  - intros count st1 (Hch & _). done.
Qed.

(** ** Searches *)

Definition all_nbrs (st : olsr_state) : list positive := all_elems (neighbortable st).

Lemma all_nbrs_alloc st p : nbr_wf st -> p ∈ all_nbrs st -> exists n, nbrs st !! p = Some n.
Proof. intros Hwf Hp. by apply (table_alloc _ _ _ (wf_nbrs _ _ Hwf)) in Hp. Qed.

Lemma nbr_in_table st p n : nbr_wf st -> nbrs st !! p = Some n -> p ∈ all_nbrs st.
Proof. intros Hwf Hp. apply (table_alloc _ _ _ (wf_nbrs _ _ Hwf)). by eexists. Qed.

Lemma wp_find_maximum w st :
  nbr_wf st ->
  wp (olsr_find_maximum_covered w) (fun r st' => st' = st /\
    match r with
    | Some p => p ∈ all_nbrs st /\ mpr st p = false /\ nwill st p = w
    | None => True
    end) st.
Proof.
  intros Hwf. unfold olsr_find_maximum_covered, OLSR_FOR_ALL_NBR_ENTRIES. wp_steps.
  apply (wp_foldM _ _ _ (fun l acc st' => st' = st /\ (forall p, p ∈ l -> p ∈ all_nbrs st) /\
    match snd acc with
    | Some p => p ∈ all_nbrs st /\ mpr st p = false /\ nwill st p = w
    | None => True
    end)).
  - done.
  - intros p l [maximum cand] st' (-> & Hl & Hcand). simpl in *.
    assert (p ∈ all_nbrs st) as Hp by (apply Hl; left).
    destruct (all_nbrs_alloc _ _ Hwf Hp) as [n Hn].
    wp_step. eapply wp_get_nbr; [exact Hn|].
    assert (forall x, x ∈ l -> x ∈ all_nbrs st) as Hl' by (intros x Hx; apply Hl; by right).
    wp_step; apply wp_ret; simpl; [|done]. bool_hyps. split; [done|]. split; [done|]. split; [done|].
    unfold mpr, nwill. by rewrite Hn.
  - intros [maximum cand] st' (-> & _ & H). apply wp_ret. done.
Qed.

(** [q] can be reached over [p] only, a symmetric neighbour of willingness [w]. *)
Definition sole (st : olsr_state) (w : Z) (p q : positive) : Prop :=
  is_Some (nbr2s st !! q) /\ strict st q = true /\ B st q = [p] /\ nwill st p = w /\ nstatus st p = SYM.

Definition status_ok (st : olsr_state) : Prop :=
  forall p n, nbrs st !! p = Some n -> status n = NOT_SYM \/ status n = SYM.

Lemma status_ok_same st st' : mpr_same st st' -> status_ok st -> status_ok st'.
Proof.
  intros Hs Hok p n' Hp. symmetry in Hs. destruct (same_nbr _ _ _ _ Hs Hp) as (n & Hn & E).
  apply erase_nbr_fields in E as (_ & <- & _). by eapply Hok.
Qed.

Lemma dup_bools st a : status_ok st -> dup_not_nosym (dup_of st a) = dup_sym (dup_of st a).
Proof.
  intros Hok. unfold dup_of. destruct (default None _) as [d|]; simpl; [|done].
  destruct (nbrs st !! d) as [n|] eqn:E; simpl; [|done].
  by destruct (Hok _ _ E) as [-> | ->].
Qed.

Lemma sole_same st st' w p q : mpr_same st st' -> sole st w p q <-> sole st' w p q.
Proof.
  assert (forall s s', mpr_same s s' -> sole s w p q -> sole s' w p q) as H.
  { intros s s' Hs ([m Hm] & H1 & H2 & H3 & H4). destruct (same_nbr2 _ _ _ _ Hs Hm) as (m' & Hm' & _).
    unfold sole. rewrite (same_strict _ _ _ Hs), (same_B _ _ _ Hs), (same_nwill _ _ _ Hs), (same_nstatus _ _ _ Hs).
    split; [by eexists|done]. }
  intros Hs. split; apply H; [done|by symmetry].
Qed.

Lemma wp_find_1_link w st :
  nbr_wf st -> status_ok st ->
  wp (olsr_find_2_hop_neighbors_with_1_link w) (fun l st' => st' = st /\
    (forall q, q ∈ l -> exists p, sole st w p q) /\ (forall p q, sole st w p q -> q ∈ l)) st.
Proof.
  intros Hwf Hok. unfold olsr_find_2_hop_neighbors_with_1_link, all_two_hop. wp_steps.
  pose proof (wf_nbr2s _ _ Hwf) as Ht.
  apply (wp_foldM _ _ _ (fun rest l st' => st' = st /\
    (forall q, q ∈ rest -> q ∈ all_elems (two_hop_neighbortable st)) /\
    (forall q, q ∈ l -> exists p, sole st w p q) /\ (forall p q, sole st w p q -> q ∈ l \/ q ∈ rest))).
  - split; [done|]. split; [done|]. split; [by intros q ?%not_elem_of_nil|].
    intros p q (Ha & _). right. by apply (table_alloc _ _ _ Ht).
  - intros q rest l st' (-> & Hin & Hl & Hr).
    assert (forall x, x ∈ rest -> x ∈ all_elems (two_hop_neighbortable st)) as Hin' by (intros x Hx; apply Hin; by right).
    assert (is_Some (nbr2s st !! q)) as [m Hm] by (apply (table_alloc _ _ _ Ht), Hin; left).
    assert ((forall p, ~ sole st w p q) -> forall p x, sole st w p x -> x ∈ l \/ x ∈ rest) as Hskip.
    { intros Hns p x Hx. destruct (Hr _ _ Hx) as [|[->|]%elem_of_cons]; auto. by destruct (Hns p). }
    wp_step. eapply wp_get_nbr2; [exact Hm|]. wp_step. apply wp_dup_status; [done|].
    rewrite dup_bools by done. assert (strict st q = negb (dup_sym (dup_of st (neighbor_2_addr m)))) as Hstr.
    { unfold strict. by rewrite Hm. }
    destruct (dup_sym (dup_of st (neighbor_2_addr m))); simpl in Hstr.
    { apply wp_ret. split_and!; try done. apply Hskip. intros p (_ & H1 & _). congruence. }
    pose proof (wf_count _ _ Hwf _ _ Hm) as Hcount.
    assert (B st q = map neighbor (neighbor_2_nblist m)) as HB by (unfold B; by rewrite Hm).
    destruct (neighbor_2_pointer m =? 1) eqn:E1; bool_hyps.
    2: { apply wp_ret. split_and!; try done. apply Hskip. intros p (_ & _ & H1 & _). apply E1.
         rewrite Hcount. rewrite HB in H1. apply (f_equal length) in H1. rewrite length_map in H1. by rewrite H1. }
    unfold first_neighbor. wp_step. wp_step. eapply wp_get_nbr2; [exact Hm|].
    destruct (neighbor_2_nblist m) as [|x [|y z]] eqn:En; simpl in Hcount; [lia| |lia]. simpl in HB.
    apply wp_ret. destruct (B_alloc st (neighbor x) q Hwf) as [n Hn]; [rewrite HB; left|].
    wp_step. eapply wp_get_nbr; [exact Hn|].
    assert ((willingness n =? w) && (status n =? SYM) = true <-> sole st w (neighbor x) q) as Hiff.
    { unfold sole, nwill, nstatus. rewrite Hn, HB, Hstr, andb_true_iff, !Z.eqb_eq.
      split; [|tauto]. intros [? ?]. rewrite Hm. split_and!; try done. }
    destruct ((willingness n =? w) && (status n =? SYM)); apply wp_ret; split_and!; try done.
    + intros q' [->|Hq']%elem_of_cons; [|by apply Hl]. exists (neighbor x). by apply Hiff.
    + intros p q' Hs. rewrite elem_of_cons. destruct (Hr _ _ Hs) as [|[->|]%elem_of_cons]; auto.
    + apply Hskip. intros p Hs. assert (p = neighbor x) as ->; [|by apply Hiff in Hs].
      destruct Hs as (_ & _ & H1 & _). rewrite HB in H1. by injection H1.
  - intros l st' (-> & _ & Hl & Hr). split; [done|]. split; [done|]. intros p q Hs.
    by destruct (Hr _ _ Hs) as [|?%not_elem_of_nil].
Qed.

(** ** The accounting invariant *)

Lemma sum_update (f g : positive -> nat) p l :
  NoDup l -> p ∈ l -> f p = 0%nat -> (forall x, x <> p -> g x = f x) ->
  sum_list_with g l = (sum_list_with f l + g p)%nat.
Proof.
  intros Hnd Hp Hf Hg. revert Hnd Hp. induction l as [|x l IH]; simpl; [by intros _ ?%not_elem_of_nil|].
  intros [Hn Hl]%NoDup_cons [->|Hp]%elem_of_cons.
  - rewrite Hf. assert (sum_list_with g l = sum_list_with f l) as ->; [|lia].
    clear -Hn Hg. induction l as [|y l IH]; simpl; [done|].
    rewrite not_elem_of_cons in Hn. destruct Hn as [Hy Hn]. rewrite IH by done. rewrite Hg by congruence. done.
  - rewrite Hg by (intros ->; done). rewrite IH by done. lia.
Qed.

Definition n2s_size (st : olsr_state) (p : positive) : nat := length (N2s st p).

(** How many (relay, two-hop neighbour) pairs there are. *)
Definition mpr_pairs (st : olsr_state) : nat :=
  sum_list_with (fun p => if mpr st p then n2s_size st p else 0%nat) (all_nbrs st).

(** The relays that reach [q]. *)
Definition coverers (st : olsr_state) (q : positive) : list positive :=
  filter (fun p => mpr st p = true) (B st q).

Record mpr_inv (st : olsr_state) (count : Z) : Prop := {
  mi_wf : nbr_wf st;
  mi_status : status_ok st;
  mi_will p : mpr st p = true -> 1 <= nwill st p <= 7;
  mi_cov q : strict st q = true -> 0 <= cov st q <= Z.of_nat (length (coverers st q));
  mi_count : 0 <= count <= Z.of_nat (mpr_pairs st);
}.

(** What a part of the selection may change. *)
Record mpr_grow (st st' : olsr_state) : Prop := {
  mg_same : mpr_same st st';
  mg_mpr p : mpr st p = true -> mpr st' p = true;
  mg_was p : was st' p = was st p;
  mg_links : link_changes st' = link_changes st;
}.

#[export] Instance mpr_grow_preorder : PreOrder mpr_grow.
Proof.
  split; [by intros st|]. intros s1 s2 s3 [? A1 A2 ?] [? B1 B2 ?].
  split; [by etrans|auto| |congruence]. intros p. by rewrite B2.
Qed.

Lemma filter_grow (f g : positive -> bool) p l :
  NoDup l -> p ∈ l -> f p = false -> (forall x, g x = if decide (x = p) then true else f x) ->
  length (filter (fun x => g x = true) l) = S (length (filter (fun x => f x = true) l)).
Proof.
  intros Hnd Hp Hf Hg. revert Hnd Hp. induction l as [|x l IH]; [by intros _ ?%not_elem_of_nil|].
  intros [Hn Hl]%NoDup_cons Hp. rewrite !filter_cons. pose proof (Hg x) as Hx.
  destruct (decide (x = p)) as [->|Hne].
  - rewrite decide_True by done. rewrite (decide_False (P := f p = true)) by congruence. simpl. f_equal. f_equal.
    clear -Hn Hg. induction l as [|y l IH]; [done|]. rewrite not_elem_of_cons in Hn. destruct Hn as [Hy Hn].
    rewrite !filter_cons. specialize (Hg y) as Hgy. rewrite decide_False in Hgy by congruence.
    rewrite Hgy, IH by done. done.
  - apply elem_of_cons in Hp as [->|Hp]; [done|]. rewrite Hx.
    destruct (decide (f x = true)); simpl; rewrite IH; done.
Qed.

Lemma wp_choose p c st :
  mpr_inv st c -> p ∈ all_nbrs st -> mpr st p = false -> 1 <= nwill st p <= 7 ->
  wp (olsr_chosen_mpr p c) (fun c' st' => mpr_inv st' c' /\ mpr_grow st st' /\
    forall x, mpr st' x = if decide (x = p) then true else mpr st x) st.
Proof.
  intros [Hwf Hok Hwill Hcov Hcount] Hp Hnm Hw. destruct (all_nbrs_alloc _ _ Hwf Hp) as [n Hn].
  eapply wp_mono; [apply (wp_chosen p n c st Hwf Hn); lia|].
  intros c' st' [Hs Hmpr Hwas Hcov' Hlc [Hc0 Hc]]. split; [|split; [split|]]; try done.
  2: { intros x Hx. rewrite Hmpr, Hx. by destruct (decide _). }
  assert (all_nbrs st' = all_nbrs st) as Hall by (unfold all_nbrs; by rewrite (ms_table _ _ Hs)).
  split.
  - by eapply mpr_same_wf.
  - by eapply status_ok_same.
  - intros x. rewrite Hmpr, (same_nwill _ _ _ Hs). destruct (decide (x = p)) as [->|]; [done|]. apply Hwill.
  - intros q. rewrite (same_strict _ _ _ Hs). intros Hq. rewrite Hcov'. unfold coverers. rewrite (same_B _ _ _ Hs).
    specialize (Hcov q Hq). unfold coverers in Hcov. destruct (decide (p ∈ B st q)) as [Hb|Hb].
    + rewrite (filter_grow (mpr st) (mpr st') p); try done; [|by apply B_nodup].
      rewrite decide_True.
      * pose proof (Z.mod_le (cov st q + 1) 256). unfold u8. split; [apply Z.mod_pos_bound|]; lia.
      * split; [|by apply not_elem_of_nil]. unfold N2s. rewrite list_elem_of_filter.
        split; [done|]. by apply B_N2.
    + rewrite decide_False.
      * assert (filter (fun x => mpr st' x = true) (B st q) = filter (fun x => mpr st x = true) (B st q)) as ->; [|done].
        clear -Hb Hmpr. induction (B st q) as [|y l IH]; [done|]. rewrite not_elem_of_cons in Hb.
        destruct Hb as [Hy Hb]. rewrite !filter_cons, IH by done. specialize (Hmpr y).
        rewrite decide_False in Hmpr by congruence. by rewrite Hmpr.
      * intros [Hns _]. apply Hb, B_N2; [done|]. unfold N2s in Hns. by apply list_elem_of_filter in Hns as [_ ?].
  - split; [done|]. unfold mpr_pairs. rewrite Hall.
    rewrite (sum_update (fun x => if mpr st x then n2s_size st x else 0%nat) _ p).
    + rewrite Hmpr, decide_True by done. unfold n2s_size. rewrite (same_N2s _ _ _ Hs). simpl in Hc.
      unfold mpr_pairs, n2s_size in Hcount. lia.
    + apply (table_nodup _ _ _ (wf_nbrs _ _ Hwf)).
    + done.
    + by rewrite Hnm.
    + intros x Hx. rewrite Hmpr, decide_False by done. unfold n2s_size. by rewrite (same_N2s _ _ _ Hs).
Qed.

Lemma grow_inv_static st st' c : mpr_grow st st' -> mpr_inv st' c -> all_nbrs st' = all_nbrs st.
Proof. intros Hg _. unfold all_nbrs. by rewrite (ms_table _ _ (mg_same _ _ Hg)). Qed.

Lemma wp_first_neighbor q p (Q : positive -> olsr_state -> Prop) st :
  B st q = [p] -> Q p st -> wp (first_neighbor q) Q st.
Proof.
  intros HB HQ. unfold B in HB. destruct (nbr2s st !! q) as [m|] eqn:Hm; [|done].
  unfold first_neighbor. wp_step. eapply wp_get_nbr2; [exact Hm|].
  destruct (neighbor_2_nblist m) as [|x l]; [done|]. injection HB as -> _. by apply wp_ret.
Qed.

(** Selecting the sole providers of a willingness. *)
Lemma wp_sole_loop w (l : list positive) c st :
  mpr_inv st c -> 1 <= w <= 7 -> (forall q, q ∈ l -> exists p, sole st w p q) ->
  wp (foldM l c (fun count q =>
        let* p := first_neighbor q in
        let* n := get_nbr p in
        if negb (is_mpr n) then olsr_chosen_mpr p count else ret count))
    (fun c' st' => mpr_inv st' c' /\ mpr_grow st st' /\ forall p q, sole st w p q -> q ∈ l -> mpr st' p = true) st.
Proof.
  intros Hinv Hw Hl.
  apply (wp_foldM _ _ _ (fun rest c' st' => mpr_inv st' c' /\ mpr_grow st st' /\
    (forall q, q ∈ rest -> q ∈ l) /\
    forall p q, sole st w p q -> q ∈ l -> mpr st' p = true \/ q ∈ rest)).
  - split_and!; try done. intros p q _ ?. by right.
  - intros q rest c' st' (Hi & Hg & Hin & Hdone). pose proof (mg_same _ _ Hg) as Hs.
    destruct (Hl q) as [p Hp]; [apply Hin; left|]. pose proof Hp as Hp'. apply (sole_same _ _ _ _ _ Hs) in Hp'.
    destruct Hp' as (_ & _ & HB & Hwill & Hsym).
    assert (forall x, x ∈ rest -> x ∈ l) as Hin' by (intros x Hx; apply Hin; by right).
    assert (forall st'', mpr_grow st' st'' -> mpr st'' p = true ->
      forall p0 q0, sole st w p0 q0 -> q0 ∈ l -> mpr st'' p0 = true \/ q0 ∈ rest) as Hnext.
    { intros st'' Hg'' Hm p0 q0 Hs0 Hq0. destruct (Hdone _ _ Hs0 Hq0) as [Hm0|[->|]%elem_of_cons]; auto.
      - left. by eapply mg_mpr.
      - left. destruct Hs0 as (_ & _ & H1 & _), Hp as (_ & _ & H2 & _). rewrite H1 in H2. by injection H2 as ->. }
    wp_step. eapply wp_first_neighbor; [exact HB|].
    destruct (B_alloc st' p q (mi_wf _ _ Hi)) as [n Hn]; [rewrite HB; left|].
    wp_step. eapply wp_get_nbr; [exact Hn|].
    destruct (is_mpr n) eqn:Em; simpl.
    + apply wp_ret. split_and!; try done. apply (Hnext st'); [done|]. unfold mpr. by rewrite Hn.
    + eapply wp_mono; [apply wp_choose; [done|by eapply nbr_in_table, Hn; apply Hi|unfold mpr; by rewrite Hn|lia]|].
      intros c'' st'' (Hi'' & Hg'' & Hm''). split; [done|]. split; [by etrans|]. split; [done|].
      apply Hnext; [done|]. by rewrite Hm'', decide_True.
  - intros c' st' (Hi & Hg & _ & Hd). split; [done|]. split; [done|]. intros p q Hs Hq.
    by destruct (Hd _ _ Hs Hq) as [|?%not_elem_of_nil].
Qed.

Definition selected (st : olsr_state) : nat := length (filter (fun p => mpr st p = true) (all_nbrs st)).

(** The greedy loop: terminates because every round selects one more neighbour. *)
Lemma wp_maximum_covered_loop fuel i T c st :
  mpr_inv st c -> 1 <= i <= 7 -> (length (all_nbrs st) < fuel + selected st)%nat ->
  wp (maximum_covered_loop fuel i T c) (fun r st' => mpr_inv st' (fst r) /\ mpr_grow st st' /\
    (snd r = true -> T <= fst r)) st.
Proof.
  revert c st. induction fuel as [|fuel IH]; intros c st Hi Hw Hf.
  - exfalso. unfold selected in Hf. pose proof (length_filter (fun p => mpr st p = true) (all_nbrs st)). lia.
  - cbn [maximum_covered_loop]. wp_step. eapply wp_mono; [apply wp_find_maximum, Hi|].
    intros [p|] st' [-> Hr]; [|apply wp_ret; done].
    destruct Hr as (Hp & Hm & Hw'). wp_step. eapply wp_mono; [apply wp_choose; [done|done|done|lia]|].
    intros c' st' (Hi' & Hg' & Hm'). wp_step.
    + apply wp_ret. bool_hyps. done.
    + eapply wp_mono; [apply IH; [done|done|]|].
      * pose proof (grow_inv_static _ _ _ Hg' Hi') as Hall. unfold selected in *. rewrite Hall.
        rewrite (filter_grow (mpr st) (mpr st') p); try done; [lia|].
        apply (table_nodup _ _ _ (wf_nbrs _ _ (mi_wf _ _ Hi))).
      * intros r st'' (H1 & H2 & H3). split_and!; try done. by etrans.
Qed.

Lemma wp_mpr_level i T c st :
  mpr_inv st c -> 1 <= i <= 7 ->
  wp (mpr_level i T c) (fun r st' => mpr_inv st' (fst r) /\ mpr_grow st st' /\
    (forall p q, sole st i p q -> mpr st' p = true) /\ (snd r = true -> T <= fst r)) st.
Proof.
  intros Hi Hw. unfold mpr_level. wp_step.
  eapply wp_mono; [apply wp_find_1_link; apply Hi|]. intros l st' (-> & Hl1 & Hl2).
  wp_step. eapply wp_mono; [by apply wp_sole_loop|]. intros c1 st1 (Hi1 & Hg1 & Hs1).
  assert (forall p q, sole st i p q -> mpr st1 p = true) as Hsole by (intros p q Hs; eapply Hs1; eauto).
  wp_step.
  - apply wp_ret. bool_hyps. done.
  - unfold OLSR_FOR_ALL_NBR_ENTRIES. wp_step. wp_step.
    eapply wp_mono; [apply wp_maximum_covered_loop; [done|done|]|].
    + change (all_elems (neighbortable st1)) with (all_nbrs st1). lia.
    + intros r st2 (Hi2 & Hg2 & Hstop). split; [done|]. split; [by etrans|]. split; [|done].
      intros p q Hs. eapply mg_mpr; [done|]. by eapply Hsole.
Qed.

(** All levels: either each level has been done, or the loop was left because the
    count says that nothing is uncovered. *)
Lemma wp_mpr_levels levels T c st :
  mpr_inv st c -> Forall (fun i => 1 <= i <= 7) levels ->
  wp (mpr_levels levels T c) (fun _ st' => exists c', mpr_inv st' c' /\ mpr_grow st st' /\
    (T <= c' \/ forall i p q, i ∈ levels -> sole st i p q -> mpr st' p = true)) st.
Proof.
  revert c st. induction levels as [|i levels IH]; intros c st Hi Hl; simpl.
  - apply wp_ret. exists c. split_and!; try done. right. by intros i p q ?%not_elem_of_nil.
  - apply Forall_cons in Hl as [Hw Hl]. wp_step. eapply wp_mono; [by apply wp_mpr_level|].
    intros [c1 stop] st1 (Hi1 & Hg1 & Hs1 & Hstop). simpl in *. destruct stop.
    + apply wp_ret. exists c1. split_and!; try done. left. by apply Hstop.
    + eapply wp_mono; [by apply IH|]. intros _u st2 (c2 & Hi2 & Hg2 & Hd). exists c2. split; [done|].
      split; [by etrans|]. destruct Hd as [Hd|Hd]; [by left|]. right.
      intros j p q [->|Hj]%elem_of_cons Hs.
      * eapply mg_mpr; [done|]. by eapply Hs1.
      * eapply Hd; [done|]. by apply (sole_same st st1), Hs; apply Hg1.
Qed.

(** ** olsr_clear_mprs *)

Lemma wp_clear_covered (l : list neighbor_2_list_entry) st :
  (forall e, e ∈ l -> is_Some (nbr2s st !! neighbor_2 e)) ->
  wp (forM_ l (fun e => upd_nbr2 (neighbor_2 e) (set_mpr_covered_count 0)))
    (fun _ st' => mpr_same st st' /\ (forall p, mpr st' p = mpr st p) /\ (forall p, was st' p = was st p) /\
      link_changes st' = link_changes st /\ (forall q, q ∈ map neighbor_2 l -> cov st' q = 0) /\
      forall q, cov st' q = 0 \/ cov st' q = cov st q) st.
Proof.
  intros Hl.
  apply (wp_forM _ _ (fun rest st' => mpr_same st st' /\ (forall p, mpr st' p = mpr st p) /\
    (forall p, was st' p = was st p) /\ link_changes st' = link_changes st /\
    (forall e, e ∈ rest -> is_Some (nbr2s st !! neighbor_2 e)) /\
    (forall q, q ∈ map neighbor_2 l -> q ∈ map neighbor_2 rest \/ cov st' q = 0) /\
    forall q, cov st' q = 0 \/ cov st' q = cov st q) _ st).
  - split_and!; try done; [by left|by right].
  - intros e rest st' (Hs & Hm & Hw & Hlc & Hr & Hc & Hc').
    destruct (Hr e) as [m0 Hm0]; [left|]. destruct (same_nbr2 _ _ _ _ Hs Hm0) as (m & Hm1 & _).
    eapply wp_upd_nbr2; [exact Hm1|].
    destruct (nbr2_write st' (neighbor_2 e) m (set_mpr_covered_count 0 m) Hm1 eq_refl) as (W1 & W2 & W3 & W4).
    split_and!.
    + by etrans.
    + intros p. by rewrite W2.
    + intros p. by rewrite W3.
    + done.
    + intros x Hx. apply Hr. by right.
    + intros q Hq. rewrite W4. destruct (decide (q = neighbor_2 e)) as [->|Hn]; [by right|].
      destruct (Hc q Hq) as [[->|?]%elem_of_cons|?]; [done|by left|by right].
    + intros q. rewrite W4. destruct (decide (q = neighbor_2 e)) as [->|Hn]; [by left|apply Hc'].
  - intros st' (H1 & H2 & H3 & H4 & _ & H5 & H6). split_and!; try done. intros q Hq.
    by destruct (H5 q Hq) as [?%not_elem_of_nil|].
Qed.

(** All relays gone, remembered in [was_mpr]; nothing is covered. *)
Lemma wp_clear_mprs st :
  nbr_wf st ->
  wp olsr_clear_mprs (fun _ st' => mpr_same st st' /\ (forall p, mpr st' p = false) /\
    (forall p, was st' p = mpr st p || was st p) /\ link_changes st' = link_changes st /\
    (forall q, cov st' q = 0)) st.
Proof.
  intros Hwf. unfold olsr_clear_mprs, OLSR_FOR_ALL_NBR_ENTRIES. wp_steps.
  apply (wp_forM _ _ (fun rest st' => mpr_same st st' /\ link_changes st' = link_changes st /\
    (forall p, p ∈ rest -> p ∈ all_nbrs st) /\ NoDup rest /\
    (forall p, p ∈ rest -> was st' p = was st p /\ mpr st' p = mpr st p) /\
    (forall p, p ∉ rest -> was st' p = mpr st p || was st p /\ mpr st' p = false) /\
    (forall q, cov st' q = 0 \/ forall p, p ∈ B st q -> p ∈ rest))).
  - split_and!; try done.
    + apply (table_nodup _ _ _ (wf_nbrs _ _ Hwf)).
    + intros p Hp. unfold mpr, was. destruct (nbrs st !! p) as [n|] eqn:E; [|done]. destruct Hp. by eapply nbr_in_table.
    + intros q. right. intros p Hp. destruct (B_alloc _ _ _ Hwf Hp) as [n Hn]. by eapply nbr_in_table.
  - intros p rest st' (Hs & Hlc & Hin & Hnd & Hk & Hd & Hc). apply NoDup_cons in Hnd as [Hnp Hnd].
    destruct (all_nbrs_alloc st p Hwf) as [n0 Hn0]; [apply Hin; left|].
    destruct (same_nbr _ _ _ _ Hs Hn0) as (n & Hn & En).
    assert (forall x, x ∈ rest -> x ∈ all_nbrs st) as Hin' by (intros x Hx; apply Hin; by right).
    wp_step. eapply wp_get_nbr; [exact Hn|]. wp_step.
    eapply (wp_mono _ (fun _ st1 => mpr_same st' st1 /\ (forall x, mpr st1 x = if decide (x = p) then false else mpr st' x) /\
      (forall x, was st1 x = if decide (x = p) then is_mpr n || was_mpr n else was st' x) /\
      (forall q, cov st1 q = cov st' q) /\ link_changes st1 = link_changes st')).
    { wp_step.
      - eapply wp_upd_nbr; [exact Hn|].
        destruct (nbr_write st' p n (set_is_mpr false (set_was_mpr true n)) Hn eq_refl) as (W1 & W2 & W3 & W4).
        split_and!; try done. intros x. rewrite W3. simpl. by rewrite H.
      - split_and!; try done; intros x; destruct (decide (x = p)) as [->|]; try done.
        + unfold mpr. by rewrite Hn.
        + unfold was. by rewrite Hn, H. }
    intros _u st1 (Hs1 & Hm1 & Hw1 & Hc1 & Hlc1).
    assert (mpr_same st st1) as Hs01 by (by etrans).
    assert (map neighbor_2 (neighbor_2_list n) = N2 st p) as HN.
    { apply erase_nbr_fields in En as (_ & _ & _ & -> & _). unfold N2. by rewrite Hn0. }
    eapply wp_mono; [apply wp_clear_covered|].
    + intros e He. destruct (N2_alloc st p (neighbor_2 e) Hwf) as (m & Hm2 & _).
      { rewrite <- HN. by apply (list_elem_of_fmap_2 neighbor_2). }
      destruct (same_nbr2 _ _ _ _ Hs01 Hm2) as (m' & ? & _). by eexists.
    + intros _u' st2 (Hs2 & Hm2 & Hw2 & Hlc2 & Hc2 & Hc2'). rewrite HN in Hc2. split_and!.
      * by etrans.
      * congruence.
      * done.
      * done.
      * intros x Hx. assert (x <> p) as Hne by (intros ->; done).
        rewrite Hw2, Hw1, Hm2, Hm1, !decide_False by done. apply Hk. by right.
      * intros x Hx. rewrite Hw2, Hw1, Hm2, Hm1. destruct (decide (x = p)) as [->|Hne].
        -- destruct (Hk p) as [E1 E2]; [left|]. unfold was in E1 at 1. unfold mpr in E2 at 1.
           rewrite Hn in E1, E2. by rewrite E1, E2.
        -- apply Hd. by rewrite not_elem_of_cons.
      * intros q. destruct (decide (p ∈ B st q)) as [Hb|Hb].
        -- left. apply Hc2. by apply B_N2.
        -- destruct (Hc2' q) as [?|E]; [by left|]. rewrite E, Hc1. destruct (Hc q) as [?|Hr]; [by left|]. right.
           intros x Hx. destruct (elem_of_cons rest x p) as [Hec _]. destruct (Hec (Hr x Hx)) as [->|?]; done.
  - intros st' (H1 & H2 & _ & _ & _ & H4 & H5). split_and!; try done.
    + intros p. by apply H4, not_elem_of_nil.
    + intros p. by apply H4, not_elem_of_nil.
    + intros q. destruct (H5 q) as [?|Hr]; [done|]. unfold cov. destruct (nbr2s st' !! q) as [m'|] eqn:E; [|done].
      symmetry in H1. destruct (same_nbr2 _ _ _ _ H1 E) as (m & Hm & _).
      pose proof (wf_small _ _ Hwf _ _ Hm) as Hsm. exfalso.
      unfold B in Hr. rewrite Hm in Hr. destruct (neighbor_2_nblist m) as [|x l]; simpl in *; [lia|].
      by apply (not_elem_of_nil (neighbor x)), Hr; left.
Qed.

(** ** olsr_calculate_two_hop_neighbors *)

Definition proc (st : olsr_state) (q : positive) : Z :=
  match nbr2s st !! q with Some m => processed m | None => 0 end.

Lemma nbr2_write_dyn st q m m' :
  nbr2s st !! q = Some m -> erase_nbr2 m' = erase_nbr2 m -> mpr_covered_count m' = mpr_covered_count m ->
  let st' := set_nbr2s (<[q := m']> (nbr2s st)) st in
  mpr_same st st' /\ dyn_same st st' /\ forall x, proc st' x = if decide (x = q) then processed m' else proc st x.
Proof.
  intros Hq He Hc st'. destruct (nbr2_write st q m m' Hq He) as (W1 & W2 & W3 & W4). split; [done|]. split.
  - split_and!; try done. intros x. rewrite W4. destruct (decide (x = q)) as [->|]; [|done].
    unfold cov. by rewrite Hq.
  - intros x. unfold proc, st'. simpl. destruct (decide (x = q)) as [->|Hn].
    + by rewrite lookup_insert_eq.
    + by rewrite lookup_insert_ne.
Qed.

Lemma nbr_write_proc st p n' x : proc (set_nbrs (<[p := n']> (nbrs st)) st) x = proc st x.
Proof. done. Qed.

Lemma wp_clear_processed st :
  nbr_wf st ->
  wp olsr_clear_two_hop_processed (fun _ st' => mpr_same st st' /\ dyn_same st st' /\ forall q, proc st' q = 0) st.
Proof.
  intros Hwf. unfold olsr_clear_two_hop_processed, all_two_hop. wp_steps.
  pose proof (wf_nbr2s _ _ Hwf) as Ht.
  apply (wp_forM _ _ (fun rest st' => mpr_same st st' /\ dyn_same st st' /\
    (forall q, q ∈ rest -> is_Some (nbr2s st !! q)) /\ forall q, q ∈ rest \/ proc st' q = 0)).
  - split_and!; try done.
    + intros q. apply (table_alloc _ _ _ Ht).
    + intros q. unfold proc. destruct (nbr2s st !! q) as [m|] eqn:E; [|by right]. left.
      apply (table_alloc _ _ _ Ht). by eexists.
  - intros q rest st' (Hs & Hd & Hin & Hp). destruct (Hin q) as [m0 Hm0]; [left|].
    destruct (same_nbr2 _ _ _ _ Hs Hm0) as (m & Hm & _). eapply wp_upd_nbr2; [exact Hm|].
    destruct (nbr2_write_dyn st' q m (set_processed 0 m) Hm eq_refl eq_refl) as (W1 & W2 & W3).
    split; [by etrans|]. split; [by etrans|]. split; [intros x Hx; apply Hin; by right|].
    intros x. rewrite W3. destruct (decide (x = q)) as [->|Hn]; [by right|].
    destruct (Hp x) as [[->|?]%elem_of_cons|?]; [done|by left|by right].
  - intros st' (H1 & H2 & _ & H3). split_and!; try done. intros q. by destruct (H3 q) as [?%not_elem_of_nil|].
Qed.

(** The set [D] of two-hop neighbours counted so far. *)
Record counted (st : olsr_state) (D : gset positive) (count : Z) (st' : olsr_state) : Prop := {
  co_same : mpr_same st st';
  co_dyn : dyn_same st st';
  co_proc q : q ∈ D <-> proc st' q <> 0;
  co_alloc : D ⊆ dom (nbr2s st);
  co_count : Z.of_nat (size (nbr2s st)) < 65536 -> count = Z.of_nat (size D);
}.

Lemma wp_count_two_hop st p n0 n D count n_count st1 :
  nbr_wf st -> nbrs st !! p = Some n0 -> nbrs st1 !! p = Some n -> counted st D count st1 ->
  wp (count_two_hop (neighbor_2_list n) (count, n_count)) (fun r st' =>
    exists D', counted st D' (fst r) st' /\ forall q, q ∈ N2s st p -> q ∈ D') st1.
Proof.
  intros Hwf Hp Hn Hco. unfold count_two_hop. pose proof (co_same _ _ _ _ Hco) as Hs1.
  assert (map neighbor_2 (neighbor_2_list n) = N2 st p) as HN.
  { rewrite <- (same_N2 _ _ _ Hs1). unfold N2. by rewrite Hn. }
  apply (wp_foldM _ _ _ (fun rest r st' => exists D', counted st D' (fst r) st' /\
    (forall q, q ∈ map neighbor_2 rest -> q ∈ N2 st p) /\
    (forall q, q ∈ N2s st p -> q ∈ map neighbor_2 rest \/ q ∈ D'))).
  - exists D. split; [done|]. rewrite HN. split; [done|]. intros q Hq. left.
    unfold N2s in Hq. by apply list_elem_of_filter in Hq as [_ ?].
  - intros e rest [c nc] st2 (D' & Hco' & Hin & Hcov). simpl in *. set (q := neighbor_2 e) in *.
    pose proof (co_same _ _ _ _ Hco') as Hs2.
    destruct (N2_alloc st p q Hwf) as (m0 & Hm0 & _); [apply Hin; left|].
    destruct (same_nbr2 _ _ _ _ Hs2 Hm0) as (m & Hm & _).
    assert (strict st q = negb (dup_sym (dup_of st2 (neighbor_2_addr m)))) as Hst.
    { rewrite <- (same_strict st st2) by done. unfold strict. by rewrite Hm. }
    assert (forall x, x ∈ map neighbor_2 rest -> x ∈ N2 st p) as Hin' by (intros x Hx; apply Hin; by right).
    wp_step. eapply wp_get_nbr2; [exact Hm|]. wp_step.
    apply wp_dup_status; [by eapply mpr_same_wf|].
    destruct (dup_sym (dup_of st2 (neighbor_2_addr m))); simpl in Hst |- *.
    { apply wp_ret. exists D'. split; [done|]. split; [done|]. intros x Hx.
      destruct (Hcov x Hx) as [[->|?]%elem_of_cons|?]; [|by left|by right]. exfalso.
      unfold N2s in Hx. apply list_elem_of_filter in Hx as [Hx _]. congruence. }
    destruct (processed m =? 0) eqn:Eproc; bool_hyps.
    + wp_step. eapply wp_upd_nbr2; [exact Hm|].
      destruct (nbr2_write_dyn st2 q m (set_processed 1 m) Hm eq_refl eq_refl) as (W1 & W2 & W3).
      apply wp_ret. exists ({[q]} ∪ D'). destruct Hco' as [Hs Hd Hpr Hal Hc].
      assert (q ∉ D') as Hnq. { rewrite Hpr. unfold proc. rewrite Hm. tauto. }
      assert ({[q]} ∪ D' ⊆ dom (nbr2s st)) as Hal'.
      { apply union_subseteq. split; [|done]. apply singleton_subseteq_l, elem_of_dom. by eexists. }
      split; [split; [by etrans|by etrans| |done|]|split; [done|]].
      * intros x. rewrite W3, elem_of_union, elem_of_singleton, Hpr. destruct (decide (x = q)) as [->|Hne].
        -- split; [intros _; done|by left].
        -- split; [by intros [?|?]|by right].
      * intros Hsz. simpl. rewrite size_union by set_solver. rewrite size_singleton.
        specialize (Hc Hsz). apply subseteq_size in Hal'. rewrite size_union in Hal' by set_solver.
        rewrite size_singleton, size_dom in Hal'. rewrite u16_id by (unfold is_u16; lia). lia.
      * intros x Hx. rewrite elem_of_union, elem_of_singleton.
        destruct (Hcov x Hx) as [[->|?]%elem_of_cons|?]; auto.
    + apply wp_ret. exists D'. split; [done|]. split; [done|]. intros x Hx.
      destruct (Hcov x Hx) as [[->|?]%elem_of_cons|?]; [|by left|by right]. right.
      apply (co_proc _ _ _ _ Hco'). unfold proc. by rewrite Hm.
  - intros r st2 (D' & H1 & _ & H2). exists D'. split; [done|]. intros q Hq.
    by destruct (H2 q Hq) as [?%not_elem_of_nil|].
Qed.

Lemma size_N2s st p (D : gset positive) :
  nbr_wf st -> (forall q, q ∈ N2s st p -> q ∈ D) -> (n2s_size st p <= size D)%nat.
Proof.
  intros Hwf HD. unfold n2s_size. rewrite <- (size_list_to_set (C := gset positive) (N2s st p)).
  - apply subseteq_size. intros q Hq. apply HD. by apply elem_of_list_to_set in Hq.
  - apply NoDup_filter. by apply N2_nodup.
Qed.

(** The pairs of symmetric neighbours, the amount of work. *)
Definition sym_pairs (st : olsr_state) (l : list positive) : nat :=
  sum_list_with (fun p => if nstatus st p =? NOT_SYM then 0%nat else n2s_size st p) l.

(** Bound under which the 16-bit counters do not overflow. *)
Definition small_network (st : olsr_state) : Prop :=
  Z.of_nat (length (all_nbrs st)) * Z.of_nat (size (nbr2s st)) < 65536 /\ Z.of_nat (size (nbr2s st)) < 65536.

Lemma wp_calculate_two_hop st :
  nbr_wf st ->
  wp olsr_calculate_two_hop_neighbors (fun T st' => mpr_same st st' /\ dyn_same st st' /\
    (small_network st -> Z.of_nat (sym_pairs st (all_nbrs st)) <= T)) st.
Proof.
  intros Hwf. unfold olsr_calculate_two_hop_neighbors, OLSR_FOR_ALL_NBR_ENTRIES. wp_step.
  eapply wp_mono; [by apply wp_clear_processed|]. intros _u st1 (Hs1 & Hd1 & Hp1). wp_steps.
  rewrite (ms_table _ _ Hs1). change (all_elems (neighbortable st)) with (all_nbrs st).
  apply (wp_foldM _ _ _ (fun rest r st' => let '(count, _, sum) := r in
    exists D, counted st D count st' /\ (forall p, p ∈ rest -> p ∈ all_nbrs st) /\
    (small_network st -> 0 <= sum /\
      Z.of_nat (sym_pairs st (all_nbrs st)) <= sum + Z.of_nat (sym_pairs st rest) /\
      sum + Z.of_nat (length rest) * Z.of_nat (size (nbr2s st)) <=
        Z.of_nat (length (all_nbrs st)) * Z.of_nat (size (nbr2s st))))).
  - exists ∅. split; [|split; [done|intros _; lia]]. split; [done|done| |set_solver|].
    + intros q. rewrite Hp1. split; [set_solver|done].
    + intros _. by rewrite size_empty.
  - intros p rest [[count n_count] sum] st2 (D & Hco & Hin & Hsum). pose proof (co_same _ _ _ _ Hco) as Hs2.
    destruct (all_nbrs_alloc st p Hwf) as [n0 Hn0]; [apply Hin; left|].
    destruct (same_nbr _ _ _ _ Hs2 Hn0) as (n & Hn & En).
    assert (nstatus st p = status n) as Hst.
    { unfold nstatus. rewrite Hn0. by apply erase_nbr_fields in En as (_ & ? & _). }
    assert (forall x, x ∈ rest -> x ∈ all_nbrs st) as Hin' by (intros x Hx; apply Hin; by right).
    wp_step. eapply wp_get_nbr; [exact Hn|]. wp_step; bool_hyps.
    + wp_step. eapply wp_upd_nbr; [exact Hn|].
      destruct (nbr_write_dyn st2 p n (set_neighbor_2_nocov count n) Hn) as [W1 W2]; try done.
      apply wp_ret. exists D. destruct Hco as [C1 C2 C3 C4 C5].
      split; [split; try done; by etrans|]. split; [done|]. intros Hsm. destruct (Hsum Hsm) as (? & Hlow & ?).
      unfold sym_pairs in Hlow |- *. cbn [sum_list_with length] in *.
      rewrite Hst, Heqb in Hlow. change (NOT_SYM =? NOT_SYM) with true in Hlow. simpl in Hlow. lia.
    + wp_step. eapply wp_mono; [by apply (wp_count_two_hop st p n0 n D)|].
      intros [count' n_count'] st3 (D' & Hco' & Hcov). simpl in Hco'. pose proof (co_same _ _ _ _ Hco') as Hs3.
      destruct (same_nbr _ _ _ _ Hs3 Hn0) as (n3 & Hn3 & _).
      wp_step. eapply wp_upd_nbr; [exact Hn3|].
      destruct (nbr_write_dyn st3 p n3 (set_neighbor_2_nocov n_count' n3) Hn3) as [W1 W2]; try done.
      apply wp_ret. exists D'. destruct Hco' as [C1 C2 C3 C4 C5].
      split; [split; try done; by etrans|]. split; [done|]. intros Hsm. destruct (Hsum Hsm) as (? & Hlow & ?).
      destruct Hsm as [Hsm1 Hsm2]. specialize (C5 Hsm2).
      pose proof (subseteq_size _ _ C4) as HD. rewrite size_dom in HD.
      pose proof (size_N2s st p D' Hwf Hcov) as Hsz.
      unfold sym_pairs in Hlow |- *. cbn [sum_list_with length] in *.
      rewrite Hst in Hlow. destruct (status n =? NOT_SYM) eqn:E; bool_hyps; [done|]. simpl in Hlow.
      rewrite u16_id by (unfold is_u16; lia). lia.
  - intros [[count n_count] sum] st2 (D & Hco & _ & Hsum). apply wp_ret. simpl.
    split; [apply Hco|]. split; [apply Hco|]. intros Hsm. destruct (Hsum Hsm) as (? & Hlow & ?). simpl in *. lia.
Qed.

(** ** The remaining phases *)

Lemma mpr_inv_start st :
  nbr_wf st -> status_ok st -> (forall p, mpr st p = false) -> (forall q, cov st q = 0) -> mpr_inv st 0.
Proof.
  intros Hwf Hok Hm Hc. split; try done.
  - intros p. by rewrite Hm.
  - intros q _. rewrite Hc. lia.
  - lia.
Qed.

Lemma wp_add_will_always st :
  mpr_inv st 0 -> (forall p, mpr st p = false) ->
  wp add_will_always_nodes (fun c st' => mpr_inv st' c /\ mpr_grow st st' /\
    forall p, nstatus st p = SYM -> nwill st p = WILL_ALWAYS -> mpr st' p = true) st.
Proof.
  intros Hi Hm. unfold add_will_always_nodes, OLSR_FOR_ALL_NBR_ENTRIES. wp_steps.
  apply (wp_foldM _ _ _ (fun rest c st' => mpr_inv st' c /\ mpr_grow st st' /\ NoDup rest /\
    (forall p, p ∈ rest -> p ∈ all_nbrs st /\ mpr st' p = false) /\
    (forall p, nstatus st p = SYM -> nwill st p = WILL_ALWAYS -> p ∈ rest \/ mpr st' p = true))).
  - split_and!; try done.
    + apply (table_nodup _ _ _ (wf_nbrs _ _ (mi_wf _ _ Hi))).
    + intros p Hsym _. left. unfold nstatus in Hsym. destruct (nbrs st !! p) as [n|] eqn:E; [|done].
      eapply nbr_in_table; [apply Hi|exact E].
  - intros p rest c st' (Hi' & Hg & Hnd & Hin & Hd). apply NoDup_cons in Hnd as [Hnp Hnd].
    destruct (Hin p) as [Hp Hmp]; [left|]. pose proof (grow_inv_static _ _ _ Hg Hi') as Hall.
    assert (p ∈ all_nbrs st') as Hp' by (by rewrite Hall).
    destruct (all_nbrs_alloc st' p (mi_wf _ _ Hi') Hp') as [n Hn].
    assert (nstatus st p = status n) as Hst.
    { rewrite <- (same_nstatus _ _ _ (mg_same _ _ Hg)). unfold nstatus. by rewrite Hn. }
    assert (nwill st p = willingness n) as Hw.
    { rewrite <- (same_nwill _ _ _ (mg_same _ _ Hg)). unfold nwill. by rewrite Hn. }
    assert (forall x, x ∈ rest -> x ∈ all_nbrs st /\ mpr st' x = false) as Hin' by (intros x Hx; apply Hin; by right).
    wp_step. eapply wp_get_nbr; [exact Hn|]. wp_step; bool_hyps.
    + apply wp_ret. split_and!; try done. intros x Hx1 Hx2.
      destruct (Hd x Hx1 Hx2) as [[->|?]%elem_of_cons|?]; [|by left|by right]. exfalso.
      rewrite Hst in Hx1. rewrite Hw in Hx2. destruct Heqb as [E|E]; bool_hyps; [by rewrite E in Hx1|done].
    + eapply wp_mono; [apply wp_choose; try done|].
      { rewrite (same_nwill _ _ _ (mg_same _ _ Hg)), Hw. unfold WILL_ALWAYS in *. lia. }
      intros c' st2 (Hi2 & Hg2 & Hm2). split_and!; try done; [by etrans| |].
      * intros x Hx. split; [by apply Hin'|]. rewrite Hm2, decide_False by (intros ->; done). by apply Hin'.
      * intros x Hx1 Hx2. rewrite Hm2. destruct (decide (x = p)) as [|Hne]; [by right|].
        destruct (Hd x Hx1 Hx2) as [[->|?]%elem_of_cons|?]; auto.
  - intros c st' (H1 & H2 & _ & _ & H3). split_and!; try done. intros p Hp1 Hp2.
    by destruct (H3 p Hp1 Hp2) as [?%not_elem_of_nil|].
Qed.

(** A relay the optimisation may not drop. *)
Definition needed (st : olsr_state) (p : positive) : Prop :=
  nwill st p = WILL_ALWAYS \/ exists q, q ∈ N2s st p /\ cov st q <= mpr_coverage.

(** What the optimisation keeps. *)
Record shrunk (st st' : olsr_state) : Prop := {
  sk_same : mpr_same st st';
  sk_mpr p : mpr st' p = true -> mpr st p = true;
  sk_needed p : mpr st p = true -> needed st p -> mpr st' p = true;
  sk_was p : was st' p = was st p;
  sk_cov q : cov st' q = cov st q;
  sk_links : link_changes st' = link_changes st;
}.

Lemma wp_removeit st p n st1 :
  nbr_wf st -> status_ok st -> nbrs st1 !! p = Some n -> shrunk st st1 ->
  wp (foldM (neighbor_2_list n) true (fun removeit e =>
        let* m := get_nbr2 (neighbor_2 e) in
        let* dup := dup_neighbor_status (neighbor_2_addr m) in
        if dup_not_nosym dup then ret removeit
        else ret (if mpr_covered_count m <=? mpr_coverage then false else removeit)))
    (fun removeit st2 => st2 = st1 /\
      (removeit = true -> forall q, q ∈ N2s st p -> mpr_coverage < cov st q)) st1.
Proof.
  intros Hwf Hok Hn Hsk. pose proof (sk_same _ _ Hsk) as Hs.
  assert (map neighbor_2 (neighbor_2_list n) = N2 st p) as HN.
  { rewrite <- (same_N2 _ _ _ Hs). unfold N2. by rewrite Hn. }
  apply (wp_foldM _ _ _ (fun rest r st2 => st2 = st1 /\ (forall q, q ∈ map neighbor_2 rest -> q ∈ N2 st p) /\
    (r = true -> forall q, q ∈ N2s st p -> q ∈ map neighbor_2 rest \/ mpr_coverage < cov st q))).
  - rewrite HN. split_and!; try done. intros _ q Hq. left. unfold N2s in Hq. by apply list_elem_of_filter in Hq as [_ ?].
  - intros e rest r st2 (-> & Hin & Hr). simpl in *.
    destruct (N2_alloc st p (neighbor_2 e) Hwf) as (m0 & Hm0 & _); [apply Hin; left|].
    destruct (same_nbr2 _ _ _ _ Hs Hm0) as (m & Hm & _).
    assert (strict st (neighbor_2 e) = negb (dup_sym (dup_of st1 (neighbor_2_addr m)))) as Hst.
    { rewrite <- (same_strict st st1) by done. unfold strict. by rewrite Hm. }
    assert (cov st (neighbor_2 e) = mpr_covered_count m) as Hc.
    { rewrite <- (sk_cov _ _ Hsk). unfold cov. by rewrite Hm. }
    assert (forall x, x ∈ map neighbor_2 rest -> x ∈ N2 st p) as Hin' by (intros x Hx; apply Hin; by right).
    wp_step. eapply wp_get_nbr2; [exact Hm|]. wp_step. apply wp_dup_status; [by eapply mpr_same_wf|].
    rewrite dup_bools by (by eapply status_ok_same).
    destruct (dup_sym (dup_of st1 (neighbor_2_addr m))); simpl in Hst; apply wp_ret; split_and!; try done.
    + intros -> q Hq. destruct (Hr eq_refl q Hq) as [[->|?]%elem_of_cons|?]; [|by left|by right]. exfalso.
      unfold N2s in Hq. apply list_elem_of_filter in Hq as [Hq _]. congruence.
    + destruct (mpr_covered_count m <=? mpr_coverage) eqn:E; bool_hyps; [done|]. intros -> q Hq.
      destruct (Hr eq_refl q Hq) as [[->|?]%elem_of_cons|?]; [right|by left|by right]. lia.
  - intros r st2 (-> & _ & Hr). split; [done|]. intros -> q Hq.
    by destruct (Hr eq_refl q Hq) as [?%not_elem_of_nil|].
Qed.

Lemma wp_optimize st :
  nbr_wf st -> status_ok st -> wp olsr_optimize_mpr_set (fun _ => shrunk st) st.
Proof.
  intros Hwf Hok. unfold olsr_optimize_mpr_set, OLSR_FOR_ALL_NBR_ENTRIES.
  apply (wp_forM _ _ (fun levels st' => shrunk st st' /\ Forall (fun i => i <> WILL_ALWAYS) levels)).
  - split; [by split|]. repeat constructor; done.
  - intros i levels st1 [Hsk1 [Hi His]%Forall_cons]. wp_steps.
    apply (wp_forM _ _ (fun rest st' => shrunk st st' /\ forall p, p ∈ rest -> p ∈ all_nbrs st)).
    + split; [done|]. intros p. by rewrite (ms_table _ _ (sk_same _ _ Hsk1)).
    + intros p rest st2 [Hsk2 Hin]. pose proof (sk_same _ _ Hsk2) as Hs.
      assert (forall x, x ∈ rest -> x ∈ all_nbrs st) as Hin' by (intros x Hx; apply Hin; by right).
      destruct (all_nbrs_alloc st p Hwf) as [n0 Hn0]; [apply Hin; left|].
      destruct (same_nbr _ _ _ _ Hs Hn0) as (n & Hn & _).
      wp_step. eapply wp_get_nbr; [exact Hn|]. wp_step; [|done]. bool_hyps.
      wp_step. eapply wp_mono; [by apply (wp_removeit st p n st2)|]. intros removeit st3 (-> & Hrem).
      wp_step; [|done]. eapply wp_upd_nbr; [exact Hn|].
      destruct (nbr_write st2 p n (set_is_mpr false n) Hn eq_refl) as (W1 & W2 & W3 & W4).
      split; [|done]. destruct Hsk2 as [K1 K2 K3 K4 K5 K6].
      assert (nwill st p = willingness n) as Hw.
      { rewrite <- (same_nwill _ _ _ Hs). unfold nwill. by rewrite Hn. }
      split.
      * by etrans.
      * intros x. rewrite W2. destruct (decide (x = p)); [done|apply K2].
      * intros x Hx Hneed. rewrite W2. destruct (decide (x = p)) as [->|]; [|by apply K3]. exfalso.
        destruct Hneed as [Hal|(q & Hq & Hc)]; [congruence|]. specialize (Hrem ltac:(done) q Hq). lia.
      * intros x. rewrite W3, <- K4. destruct (decide (x = p)) as [->|]; [|done]. unfold was. by rewrite Hn.
      * intros q. by rewrite W4.
      * done.
    + intros st2 [Hsk2 _]. done.
  - intros st' [? _]. done.
Qed.

(** [olsr_check_mpr_changes] notices lost relays and forgets the memory. *)
Lemma wp_check_changes st :
  nbr_wf st ->
  wp olsr_check_mpr_changes (fun r st' => mpr_same st st' /\ (forall p, mpr st' p = mpr st p) /\
    (forall p, was st' p = false) /\ link_changes st' = link_changes st /\
    (r = true <-> exists p, was st p = true /\ mpr st p = false)) st.
Proof.
  intros Hwf. unfold olsr_check_mpr_changes, OLSR_FOR_ALL_NBR_ENTRIES. wp_steps.
  apply (wp_foldM _ _ _ (fun rest r st' => mpr_same st st' /\ (forall p, mpr st' p = mpr st p) /\
    link_changes st' = link_changes st /\ NoDup rest /\ (forall p, p ∈ rest -> p ∈ all_nbrs st) /\
    (forall p, was st' p = if decide (p ∈ rest) then was st p else false) /\
    (r = true <-> exists p, p ∉ rest /\ was st p = true /\ mpr st p = false))).
  - assert (forall p, p ∉ all_nbrs st -> was st p = false) as Hnw.
    { intros p Hp. unfold was. destruct (nbrs st !! p) as [n|] eqn:E; [|done]. destruct Hp. by eapply nbr_in_table. }
    split_and!; try done.
    + apply (table_nodup _ _ _ (wf_nbrs _ _ Hwf)).
    + intros p. destruct (decide _) as [|Hp]; [done|]. by apply Hnw.
    + split; [done|]. intros (p & Hp & Hw & _). by rewrite Hnw in Hw.
  - intros p rest r st' (Hs & Hm & Hlc & Hnd & Hin & Hw & Hr). apply NoDup_cons in Hnd as [Hnp Hnd].
    destruct (all_nbrs_alloc st p Hwf) as [n0 Hn0]; [apply Hin; left|].
    destruct (same_nbr _ _ _ _ Hs Hn0) as (n & Hn & _).
    assert (forall x, x ∈ rest -> x ∈ all_nbrs st) as Hin' by (intros x Hx; apply Hin; by right).
    assert (was_mpr n = was st p) as Hwp.
    { specialize (Hw p). rewrite decide_True in Hw by left. rewrite <- Hw. unfold was. by rewrite Hn. }
    assert (is_mpr n = mpr st p) as Hmp. { rewrite <- Hm. unfold mpr. by rewrite Hn. }
    wp_step. eapply wp_get_nbr; [exact Hn|]. wp_step.
    + wp_step. eapply wp_upd_nbr; [exact Hn|].
      destruct (nbr_write st' p n (set_was_mpr false n) Hn eq_refl) as (W1 & W2 & W3 & W4).
      apply wp_ret. split; [by etrans|]. split; [|split; [done|split; [done|split; [done|split]]]].
      * intros x. rewrite W2, <- Hm. destruct (decide (x = p)) as [->|]; [|done]. unfold mpr. by rewrite Hn.
      * intros x. rewrite W3. destruct (decide (x = p)) as [->|Hne]; [by rewrite decide_False|].
        rewrite Hw. apply decide_ext. rewrite elem_of_cons. naive_solver.
      * assert ((exists x, x ∉ rest /\ was st x = true /\ mpr st x = false) <->
          is_mpr n = false \/ exists x, x ∉ p :: rest /\ was st x = true /\ mpr st x = false) as ->.
        { setoid_rewrite not_elem_of_cons. split.
          - intros (x & Hx & H1 & H2). destruct (decide (x = p)) as [->|]; [left; congruence|]. right. by exists x.
          - intros [H|(x & [_ Hx] & H)]; [exists p|by exists x]. split_and!; try done; congruence. }
        rewrite <- Hr. destruct (is_mpr n); naive_solver.
    + apply wp_ret. split_and!; try done.
      * intros x. rewrite Hw. destruct (decide (x = p)) as [->|Hne].
        -- rewrite decide_True by left. rewrite decide_False by done. congruence.
        -- apply decide_ext. rewrite elem_of_cons. naive_solver.
      * rewrite Hr. setoid_rewrite not_elem_of_cons. split; intros (x & Hx & H1 & H2); exists x; split_and!; try done.
        -- by destruct Hx.
        -- intros ->. congruence.
  - intros r st' (H1 & H2 & H3 & _ & _ & H4 & H5). split; [done|]. split; [done|]. split; [|split; [done|]].
    + intros p. rewrite H4, decide_False; [done|]. apply not_elem_of_nil.
    + rewrite H5. split; intros (p & H); exists p; [by destruct H as [_ ?]|]. split; [apply not_elem_of_nil|done].
Qed.

End mpr_proofs.
