(* ===== verification/MprSpec.v ===== *)
(** * What the relay selection of mpr.c guarantees, and what it does not *)

From S2P Require Import Prelude IpAddr State MidLookup NeighTable NeighProofs HelloTwoHop NeighSpec Mpr MprProofs.

Section spec.
Context {cnf : olsrd_config}.

(** No neighbour that is not symmetric still has two-hop neighbours. *)
Definition idle_unsym (st : olsr_state) : Prop := forall p, nstatus st p = NOT_SYM -> N2s st p = [].

(** ** When the count says that nothing is uncovered *)

Lemma sum_tight (f g : positive -> nat) l :
  (forall x, x ∈ l -> (g x <= f x)%nat) -> (sum_list_with f l <= sum_list_with g l)%nat ->
  forall x, x ∈ l -> g x = f x.
Proof.
  intros Hle Hs. induction l as [|y l IH]; simpl in *; [by intros x ?%not_elem_of_nil|].
  assert (g y <= f y)%nat as Hy by (apply Hle; left).
  assert (sum_list_with g l <= sum_list_with f l)%nat as Hl.
  { assert (forall x, x ∈ l -> (g x <= f x)%nat) as H by (intros x Hx; apply Hle; by right).
    clear -H. induction l as [|z l IH]; simpl; [lia|]. assert (g z <= f z)%nat by (apply H; left).
    assert (sum_list_with g l <= sum_list_with f l)%nat; [apply IH; intros x Hx; apply H; by right|lia]. }
  intros x [->|Hx]%elem_of_cons; [lia|]. apply IH; [|lia|done]. intros z Hz. apply Hle. by right.
Qed.

Lemma pairs_full st p q :
  idle_unsym st -> (sym_pairs st (all_nbrs st) <= mpr_pairs st)%nat ->
  p ∈ all_nbrs st -> q ∈ N2s st p -> mpr st p = true.
Proof.
  intros Hidle Hle Hp Hq.
  assert ((if mpr st p then n2s_size st p else 0%nat) = if nstatus st p =? NOT_SYM then 0%nat else n2s_size st p) as E.
  { apply (sum_tight (fun p => if nstatus st p =? NOT_SYM then 0%nat else n2s_size st p)
      (fun p => if mpr st p then n2s_size st p else 0%nat) (all_nbrs st)); [|exact Hle|done].
    intros x _. destruct (nstatus st x =? NOT_SYM) eqn:Ex; bool_hyps.
    - unfold n2s_size. rewrite (Hidle x Ex). by destruct (mpr st x).
    - by destruct (mpr st x); lia. }
  destruct (mpr st p); [done|]. exfalso. unfold n2s_size in E.
  destruct (nstatus st p =? NOT_SYM) eqn:Ex; bool_hyps.
  - rewrite (Hidle p Ex) in Hq. by apply not_elem_of_nil in Hq.
  - destruct (N2s st p); [by apply not_elem_of_nil in Hq|done].
Qed.

Lemma same_idle st st' : mpr_same st st' -> idle_unsym st -> idle_unsym st'.
Proof. intros Hs H p. rewrite (same_nstatus _ _ _ Hs), (same_N2s _ _ _ Hs). apply H. Qed.

Lemma same_all st st' : mpr_same st st' -> all_nbrs st' = all_nbrs st.
Proof. intros Hs. unfold all_nbrs. by rewrite (ms_table _ _ Hs). Qed.

Lemma same_sym_pairs st st' : mpr_same st st' -> sym_pairs st' (all_nbrs st') = sym_pairs st (all_nbrs st).
Proof.
  intros Hs. unfold sym_pairs. rewrite (same_all _ _ Hs). induction (all_nbrs st) as [|x l IH]; simpl; [done|].
  unfold n2s_size in *. by rewrite (same_nstatus _ _ _ Hs), (same_N2s _ _ _ Hs), IH.
Qed.

Lemma sole_N2s st w p q : nbr_wf st -> sole st w p q -> q ∈ N2s st p /\ p ∈ all_nbrs st.
Proof.
  intros Hwf (_ & Hst & HB & _). assert (p ∈ B st q) as Hp by (rewrite HB; left). split.
  - apply list_elem_of_filter. split; [done|]. by apply B_N2.
  - destruct (B_alloc _ _ _ Hwf Hp) as [n Hn]. by eapply nbr_in_table.
Qed.

(** A sole provider survives the optimisation. *)
Lemma sole_needed st c w p q : mpr_inv st c -> 1 <= mpr_coverage -> sole st w p q -> needed st p.
Proof.
  intros Hi Hc Hs. right. exists q. split; [by eapply sole_N2s; [apply Hi|]|].
  destruct Hs as (_ & Hst & HB & _). destruct (mi_cov _ _ Hi q Hst) as [_ Hle].
  unfold coverers in Hle. pose proof (length_filter (fun p => mpr st p = true) (B st q)) as Hl.
  rewrite HB in Hle, Hl. simpl in Hl. lia.
Qed.

(** ** The whole computation *)

(** What [olsr_calculate_mpr] establishes. *)
Record mpr_result (st st' : olsr_state) : Prop := {
  mr_same : mpr_same st st';
  mr_was p : was st' p = false;
  mr_will p : mpr st' p = true -> 1 <= nwill st p <= 7;
  mr_always p : nstatus st p = SYM -> nwill st p = WILL_ALWAYS -> mpr st' p = true;
  mr_sole : 1 <= mpr_coverage -> small_network st -> idle_unsym st ->
    forall w p q, 1 <= w <= 6 -> sole st w p q -> mpr st' p = true;
  mr_changed : link_changes st' = true <-> link_changes st = true \/
    (0 < tc_redundancy /\ exists p, mpr st p = true /\ mpr st' p = false);
}.

Lemma wp_calculate_mpr st :
  nbr_wf st -> status_ok st -> (forall p, was st p = false) ->
  wp olsr_calculate_mpr (fun _ st' => nbr_wf st' /\ mpr_result st st') st.
Proof.
  intros Hwf Hok Hwas. unfold olsr_calculate_mpr.
  wp_step. eapply wp_mono; [by apply wp_clear_mprs|]. intros _u st1 (Hs1 & Hm1 & Hw1 & Hl1 & Hc1).
  pose proof (mpr_same_wf _ _ Hs1 Hwf) as Hwf1. pose proof (status_ok_same _ _ Hs1 Hok) as Hok1.
  wp_step. eapply wp_mono; [by apply wp_calculate_two_hop|]. intros T st2 (Hs2 & (D1 & D2 & D3 & D4) & HT).
  assert (mpr_inv st2 0) as Hi2.
  { apply mpr_inv_start; [by eapply mpr_same_wf|by eapply status_ok_same|intros p; by rewrite D1|intros q; by rewrite D3]. }
  wp_step. eapply wp_mono; [apply wp_add_will_always; [done|intros p; by rewrite D1]|].
  intros c st3 (Hi3 & Hg3 & Halways).
  wp_step. eapply wp_mono; [apply wp_mpr_levels; [done|repeat constructor; done]|].
  intros _u2 st4 (c' & Hi4 & Hg4 & Hsole).
  wp_step. eapply wp_mono; [apply wp_optimize; apply Hi4|]. intros _u3 st5 Hsk.
  assert (mpr_same st st4) as Hs4.
  { etrans; [exact Hs1|]. etrans; [exact Hs2|]. etrans; [apply (mg_same _ _ Hg3)|apply (mg_same _ _ Hg4)]. }
  assert (mpr_same st st5) as Hs5 by (etrans; [exact Hs4|apply (sk_same _ _ Hsk)]).
  assert (forall p, was st5 p = mpr st p) as Hw5.
  { intros p. by rewrite (sk_was _ _ Hsk), (mg_was _ _ Hg4), (mg_was _ _ Hg3), D2, Hw1, Hwas, orb_false_r. }
  assert (link_changes st5 = link_changes st) as Hl5.
  { by rewrite (sk_links _ _ Hsk), (mg_links _ _ Hg4), (mg_links _ _ Hg3), D4, Hl1. }
  wp_step. eapply wp_mono; [apply wp_check_changes; by eapply mpr_same_wf|].
  intros changed st6 (Hs6 & Hm6 & Hw6 & Hl6 & Hch).
  assert (mpr_same st st6) as Hst by (by etrans).
  assert (forall st7, mpr_same st6 st7 -> (forall p, mpr st7 p = mpr st6 p) -> (forall p, was st7 p = was st6 p) ->
    link_changes st7 = changed && (tc_redundancy >? 0) || link_changes st -> nbr_wf st7 /\ mpr_result st st7) as Hend.
  { intros st7 Hs7 Hm7 Hw7 Hl7. assert (mpr_same st st7) as Hs by (by etrans).
    split; [by eapply mpr_same_wf|]. split; [done|..].
    - intros p. by rewrite Hw7.
    - intros p. rewrite Hm7, Hm6. intros Hp. apply (sk_mpr _ _ Hsk) in Hp.
      rewrite <- (same_nwill _ _ _ Hs4). by apply (mi_will _ _ Hi4).
    - intros p Hp1 Hp2. rewrite Hm7, Hm6. apply (sk_needed _ _ Hsk).
      + apply (mg_mpr _ _ Hg4), Halways.
        * by rewrite (same_nstatus _ _ _ Hs2), (same_nstatus _ _ _ Hs1).
        * by rewrite (same_nwill _ _ _ Hs2), (same_nwill _ _ _ Hs1).
      + left. by rewrite (same_nwill _ _ _ Hs4).
    - intros Hcov Hsm Hidle w p q Hw Hpq. rewrite Hm7, Hm6.
      pose proof Hpq as Hpq4. apply (sole_same _ _ _ _ _ Hs4) in Hpq4.
      apply (sk_needed _ _ Hsk); [|by eapply sole_needed].
      destruct Hsole as [Hle|Hd].
      + destruct (sole_N2s _ _ _ _ (mi_wf _ _ Hi4) Hpq4) as [Hq Hp].
        eapply pairs_full; [by eapply same_idle| |exact Hp|exact Hq].
        rewrite (same_sym_pairs _ _ Hs4). pose proof (mi_count _ _ Hi4).
        rewrite (same_sym_pairs _ _ Hs1) in HT.
        assert (small_network st1) as Hsm1; [|specialize (HT Hsm1); lia].
        destruct Hsm as [Hsa Hsb]. unfold small_network. rewrite (same_all _ _ Hs1).
        assert (size (nbr2s st1) = size (nbr2s st)) as ->; [|done].
        rewrite <- !size_dom. f_equal. rewrite <- (dom_fmap_L erase_nbr2 (nbr2s st1)), (ms_nbr2s _ _ Hs1).
        by rewrite dom_fmap_L.
      + assert (w ∈ [6; 5; 4; 3; 2; 1]) as Hin.
        { rewrite !elem_of_cons. assert (w = 6 \/ w = 5 \/ w = 4 \/ w = 3 \/ w = 2 \/ w = 1) by lia. tauto. }
        apply (Hd w p q Hin). apply (sole_same st3 st4); [apply Hg4|]. done.
    - rewrite Hl7, orb_true_iff, andb_true_iff, Hch.
      assert ((tc_redundancy >? 0) = true <-> 0 < tc_redundancy) as -> by (rewrite Z.gtb_gt; lia).
      assert ((exists p, was st5 p = true /\ mpr st5 p = false) <-> exists p, mpr st p = true /\ mpr st7 p = false) as ->.
      { split; intros (p & H1 & H2); exists p; [rewrite Hm7, Hm6, <- Hw5|rewrite Hw5, <- Hm6, <- Hm7]; done. }
      tauto. }
  unfold signal_link_changes. wp_step.
  - wp_step. apply Hend; [by split|done|done|]. simpl. by rewrite H.
  - apply Hend; [done|done|done|]. by rewrite H, Hl6, Hl5.
Qed.

(** C2: [olsr_calculate_mpr] terminates and is memory safe on well-formed tables. It
    changes nothing but the relay bookkeeping; a selected relay has a willingness
    between 1 and 7; every symmetric neighbour of willingness WILL_ALWAYS is
    selected; and the topology is announced again exactly when a former relay is lost and
    [tc_redundancy] is positive. A symmetric neighbour (of willingness 1 to 6) that is the
    only one to reach some two-hop neighbour is selected under three conditions: the
    configured coverage is at least 1, the 16-bit counters cannot overflow
    ([small_network]), and no neighbour that is not symmetric still has two-hop neighbours
    ([idle_unsym]); without the last one it need not be ([mpr_stale_neighbour]). *)
Theorem olsr_calculate_mpr_correct st :
  nbr_wf st -> status_ok st -> (forall p, was st p = false) ->
  wp olsr_calculate_mpr (fun _ st' => nbr_wf st' /\ mpr_result st st') st.
Proof. apply wp_calculate_mpr. Qed.

End spec.

(** ** Sample networks *)

Section samples.
#[local] Existing Instance sample_cnf.

(** Steps that build a network; a neighbour is named by its place in memory. *)
Inductive sample_step :=
  | New (a : ip_addr)
  | Symmetric (p : positive)
  | Lost (p : positive)
  | Willing (p : positive) (w : Z)
  | Announces (p : positive) (a : ip_addr).

Definition sample_exec (st : olsr_state) (s : sample_step) : olsr_state :=
  match s with
  | New a => run (olsr_insert_neighbor_table a) st
  | Symmetric p => run (update_neighbor_status p SYM_LINK) st
  | Lost p => run (update_neighbor_status p ASYM_LINK) st
  | Willing p w => run (upd_nbr p (set_willingness w)) st
  | Announces p a => run (process_message_neighbor p 5000 (sym_announce a)) st
  end.

Definition sample_network (l : list sample_step) : olsr_state := fold_left sample_exec l empty_state.

Definition sample_able (st : olsr_state) (s : sample_step) : bool :=
  match s with
  | New _ => true
  | Symmetric p | Lost p | Willing p _ => bool_decide (is_Some (nbrs st !! p))
  | Announces p _ => bool_decide (is_Some (nbrs st !! p)) && (Z.of_nat (size (nbrs st)) <? 32768) &&
      bool_decide (mid_set st = empty_table)
  end.

Fixpoint sample_ok (st : olsr_state) (l : list sample_step) : bool :=
  match l with [] => true | s :: l => sample_able st s && sample_ok (sample_exec st s) l end.

Lemma sample_step_wf st s : nbr_wf st -> sample_able st s = true -> nbr_wf (sample_exec st s).
Proof.
  intros Hwf Hs. destruct s as [a|p|p|p w|p a]; simpl in *; bool_hyps.
  - apply run_ok. eapply wp_mono; [by apply wp_insert_neighbor|]. by intros ? ? [? _].
  - apply bool_decide_eq_true in Hs as [n Hn]. apply run_ok.
    eapply wp_mono; [by eapply wp_update_neighbor_status|]. by intros ? ? [? _].
  - apply bool_decide_eq_true in Hs as [n Hn]. apply run_ok.
    eapply wp_mono; [by eapply wp_update_neighbor_status|]. by intros ? ? [? _].
  - apply bool_decide_eq_true in Hs as [n Hn]. apply run_ok. eapply wp_upd_nbr; [exact Hn|].
    by apply (update_nbr_wf _ p n (set_willingness w n) st).
  - repeat match goal with H : bool_decide _ = true |- _ => apply bool_decide_eq_true in H end.
    by apply announce_wf.
Qed.

Lemma network_steps_wf l st : nbr_wf st -> sample_ok st l = true -> nbr_wf (fold_left sample_exec l st).
Proof.
  revert st. induction l as [|s l IH]; intros st Hwf Hok; simpl in *; [done|]. bool_hyps.
  apply IH; [by apply sample_step_wf|done].
Qed.

Lemma sample_network_wf l : sample_ok empty_state l = true -> nbr_wf (sample_network l).
Proof. apply network_steps_wf, empty_wf. Qed.

(** Decidable forms of the other hypotheses. *)
Lemma status_ok_dec st :
  forallb (fun '(p, n) => (status n =? NOT_SYM) || (status n =? SYM)) (map_to_list (nbrs st)) = true -> status_ok st.
Proof.
  rewrite forallb_forall. intros H p n Hn.
  specialize (H (p, n)). simpl in H. rewrite orb_true_iff, !Z.eqb_eq in H. apply H.
  by apply list_elem_of_In, elem_of_map_to_list.
Qed.

Lemma no_was_dec st :
  forallb (fun '(p, n) => negb (was_mpr n)) (map_to_list (nbrs st)) = true -> forall p, was st p = false.
Proof.
  rewrite forallb_forall. intros H p. unfold was. destruct (nbrs st !! p) as [n|] eqn:E; [|done].
  specialize (H (p, n)). simpl in H. rewrite negb_true_iff in H. apply H.
  by apply list_elem_of_In, elem_of_map_to_list.
Qed.

(** 101 and 102 both reach 1, and only 102 reaches 2. *)
Definition pair_steps : list sample_step :=
  [New 101; Symmetric 2; Willing 2 3; Announces 2 1; New 102; Symmetric 3; Willing 3 3; Announces 3 1; Announces 3 2].
Definition pair_network : olsr_state := sample_network pair_steps.

Lemma pair_wf : nbr_wf pair_network.
Proof. apply sample_network_wf. vm_compute. reflexivity. Qed.

(** 102 is the only way to 2, so it is selected. *)
Lemma olsr_calculate_mpr_correct_witness :
  wp olsr_calculate_mpr (fun _ st' => nbr_wf st' /\ mpr st' 3 = true) pair_network.
Proof.
  assert (status_ok pair_network) as Hok by (apply status_ok_dec; vm_compute; reflexivity).
  assert (forall p, was pair_network p = false) as Hw by (apply no_was_dec; vm_compute; reflexivity).
  eapply wp_mono; [exact (olsr_calculate_mpr_correct pair_network pair_wf Hok Hw)|].
  intros u st' [H1 H2]. split; [exact H1|].
  apply (mr_sole _ _ H2) with (w := 3) (q := 3%positive).
  - vm_compute. discriminate.
  - split; vm_compute; reflexivity.
  - intros p. unfold nstatus. destruct (nbrs pair_network !! p) as [n|] eqn:E.
    + intros Hn. exfalso. apply elem_of_map_to_list in E. revert E Hn. vm_compute.
      intros [E|[E|E]%elem_of_cons]%elem_of_cons; try (injection E as -> ->; discriminate).
      by apply not_elem_of_nil in E.
    + intros _. unfold N2s, N2. by rewrite E.
  - lia.
  - split_and!; try (vm_compute; reflexivity). eexists. vm_compute. reflexivity.
Defined.

(** Three symmetric neighbours of the default willingness; each reaches 1. *)
Definition trio_steps : list sample_step :=
  [New 101; Symmetric 2; Willing 2 WILL_DEFAULT; Announces 2 1;
   New 102; Symmetric 3; Willing 3 WILL_DEFAULT; Announces 3 1;
   New 103; Symmetric 4; Willing 4 WILL_DEFAULT; Announces 4 1].
Definition trio_network : olsr_state := sample_network trio_steps.

(** The selected relays need not cover every two-hop neighbour (RFC 3626
    requires it). With a coverage of 1 and three symmetric neighbours of default
    willingness that all reach the same two-hop neighbour, the selection takes two
    of them and the optimisation then drops both: each is dropped because the other
    covers the node, but the covered count is not decremented for the first. *)
Theorem olsr_calculate_mpr_uncovered :
  nbr_wf trio_network /\ mpr_coverage = 1 /\
  exists st', olsr_calculate_mpr trio_network = Some (tt, st') /\
    strict st' 2 = true /\ B st' 2 = [4; 3; 2]%positive /\
    (forall p, p ∈ B st' 2 -> nstatus st' p = SYM /\ nwill st' p = WILL_DEFAULT) /\
    (forall p, mpr st' p = false).
Proof.
  split; [apply sample_network_wf; vm_compute; reflexivity|]. split; [reflexivity|].
  exists (run olsr_calculate_mpr trio_network). split; [vm_compute; reflexivity|]. split; [vm_compute; reflexivity|]. split; [vm_compute; reflexivity|]. split.
  - apply Forall_forall. vm_compute. repeat constructor.
  - intros p. unfold mpr. destruct (nbrs (run olsr_calculate_mpr trio_network) !! p) as [n|] eqn:E; [|done].
    apply elem_of_map_to_list in E. revert p n E.
    enough (Forall (fun x => is_mpr (snd x) = false) (map_to_list (nbrs (run olsr_calculate_mpr trio_network)))) as H.
    { intros p n E. rewrite Forall_forall in H. by apply (H _ E). }
    vm_compute. repeat constructor.
Qed.

(** 101 is symmetric and the only way to 1. The link to 102 was symmetric when 102
    announced 2, and is not any more; 102 is more willing. *)
Definition stale_steps : list sample_step :=
  [New 101; Symmetric 2; Willing 2 WILL_DEFAULT; Announces 2 1; New 102; Symmetric 3; Willing 3 6; Announces 3 2; Lost 3].
Definition stale_network : olsr_state := sample_network stale_steps.

(** The greedy step does not look at the status of a neighbour: it takes the lost
    neighbour 102, the count of covered nodes says that all are covered, and the sole
    provider of 1 is not selected. *)
Theorem mpr_stale_neighbour :
  nbr_wf stale_network /\ sole stale_network WILL_DEFAULT 2 2 /\ nstatus stale_network 3 = NOT_SYM /\
  exists st', olsr_calculate_mpr stale_network = Some (tt, st') /\ mpr st' 2 = false /\ mpr st' 3 = true.
Proof.
  split; [apply sample_network_wf; vm_compute; reflexivity|]. split.
  - split_and!; try (vm_compute; reflexivity). eexists. vm_compute. reflexivity.
  - split; [vm_compute; reflexivity|]. exists (run olsr_calculate_mpr stale_network).
    split; [vm_compute; reflexivity|]. split; vm_compute; reflexivity.
Qed.

End samples.
