(* ===== verification/Packet.v ===== *)
(** * lq_packet.h: reading and writing the fields of a packet

    A read position is the rest of the packet, a list of bytes; reading past its end
    is [None]. A write appends to the bytes written so far. *)

From S2P Require Import Prelude Mantissa IpAddr State.

(** Big-endian 16-bit and 32-bit fields ([ntohs], [htons], [ntohl], [htonl]). *)
Definition pkt_get_u8 (p : list Z) : option (Z * list Z) :=
  match p with b :: p => Some (b, p) | _ => None end.
Definition pkt_get_u16 (p : list Z) : option (Z * list Z) :=
  match p with a :: b :: p => Some (256 * a + b, p) | _ => None end.
Definition pkt_get_reltime (p : list Z) : option (Z * list Z) :=
  match p with b :: p => Some (me_to_reltime b, p) | _ => None end.

(** Moving the read position reads nothing. *)
Definition pkt_ignore_u8 (p : list Z) : list Z := drop 1 p.
Definition pkt_ignore_u16 (p : list Z) : list Z := drop 2 p.

Definition pkt_put_u8 (p : list Z) (var : Z) : list Z := p ++ [u8 var].
Definition pkt_put_u16 (p : list Z) (var : Z) : list Z := p ++ [u8 (Z.shiftr var 8); u8 var].
Definition pkt_put_reltime (p : list Z) (var : Z) : list Z := p ++ [reltime_to_me var].

Section packet.
Context {cnf : olsrd_config}.

(** The address made of its bytes in memory order. *)
Definition ip_of_bytes (l : list Z) : ip_addr := foldr (fun b a => b + 256 * a) 0 l.

Definition pkt_get_ipaddress (p : list Z) : option (ip_addr * list Z) :=
  let n := ipsize ip_version in
  if (length p <? n)%nat then None else Some (ip_of_bytes (take n p), drop n p).

Definition pkt_get_prefixlen (p : list Z) : option (Z * list Z) :=
  let n := ipsize ip_version in
  if (length p <? n)%nat then None else Some (netmask_to_prefix (take n p), drop n p).

Definition pkt_put_ipaddress (p : list Z) (var : ip_addr) : list Z := p ++ ip_bytes (ipsize ip_version) var.

End packet.

(** ** What is written is read back *)

Lemma get_put_u8 v rest : is_u8 v -> pkt_get_u8 (pkt_put_u8 [] v ++ rest) = Some (v, rest).
Proof. intros H. simpl. by rewrite u8_id. Qed.

Lemma get_put_u16 v rest : is_u16 v -> pkt_get_u16 (pkt_put_u16 [] v ++ rest) = Some (v, rest).
Proof.
  unfold is_u16. intros H. unfold pkt_put_u16, pkt_get_u16, u8. simpl. f_equal. f_equal.
  rewrite Z.shiftr_div_pow2 by lia. change (2 ^ 8) with 256.
  rewrite (Z.mod_small (v / 256)) by (split; [apply Z.div_pos; lia|apply Z.div_lt_upper_bound; lia]).
  symmetry. by apply Z.div_mod.
Qed.

(** An address of [n] bytes. *)
Definition is_ip (n : nat) (a : ip_addr) : Prop := 0 <= a < 256 ^ Z.of_nat n.

Lemma ip_bytes_S n a : ip_bytes (S n) a = Z.land a 255 :: ip_bytes n (Z.shiftr a 8).
Proof.
  unfold ip_bytes. change (seq 0 (S n)) with (0%nat :: seq 1 n). rewrite <- fmap_S_seq, map_cons, map_map. f_equal.
  apply map_ext. intros i. unfold ip_byte. rewrite Z.shiftr_shiftr by lia. do 2 f_equal. lia.
Qed.

Lemma ip_of_ip_bytes n a : is_ip n a -> ip_of_bytes (ip_bytes n a) = a.
Proof.
  revert a. induction n as [|n IH]; intros a Ha; unfold is_ip in *.
  - change (ip_of_bytes (ip_bytes 0 a)) with 0. change (256 ^ Z.of_nat 0) with 1 in Ha. lia.
  - rewrite ip_bytes_S. change (ip_of_bytes (Z.land a 255 :: ip_bytes n (Z.shiftr a 8)))
      with (Z.land a 255 + 256 * ip_of_bytes (ip_bytes n (Z.shiftr a 8))).
    rewrite IH.
    + change 255 with (Z.ones 8). rewrite Z.land_ones, Z.shiftr_div_pow2 by lia. change (2 ^ 8) with 256.
      pose proof (Z.div_mod a 256). lia.
    + rewrite Z.shiftr_div_pow2 by lia. change (2 ^ 8) with 256. rewrite Nat2Z.inj_succ, Z.pow_succ_r in Ha by lia.
      split; [apply Z.div_pos; lia|apply Z.div_lt_upper_bound; lia].
Qed.

Lemma get_put_ipaddress {cnf : olsrd_config} a rest :
  is_ip (ipsize ip_version) a -> pkt_get_ipaddress (pkt_put_ipaddress [] a ++ rest) = Some (a, rest).
Proof.
  intros Ha. unfold pkt_get_ipaddress, pkt_put_ipaddress. rewrite app_nil_l.
  assert (length (ip_bytes (ipsize ip_version) a) = ipsize ip_version) as Hl.
  { unfold ip_bytes. by rewrite length_map, length_seq. }
  rewrite length_app, Hl. destruct (Nat.ltb_spec (ipsize ip_version + length rest) (ipsize ip_version)); [lia|].
  rewrite take_app_length' by done. rewrite drop_app_length' by done. by rewrite ip_of_ip_bytes.
Qed.
