(* ===== verification/LsdbOps.v ===== *)
(** * Access to the link state database (tc_set.c: lookups and reference counts) *)

From S2P Require Import Prelude Timer Avl IpAddr KeyTree State.

#[global] Arguments kt_init : simpl never.
#[global] Arguments kt_find : simpl never.
#[global] Arguments kt_insert : simpl never.
#[global] Arguments kt_delete : simpl never.
#[global] Arguments kt_walk : simpl never.

Section lsdb_ops.
Context {cnf : olsrd_config}.

(** The trees are initialised with the comparison of the configured family. *)
#[export] Instance addr_tree : KeyTree ip_addr (avl_tree ip_addr) | 0 := ip_key_tree ip_version.
#[export] Instance pfx_tree : KeyTree olsr_ip_prefix (avl_tree olsr_ip_prefix) | 0 := prefix_key_tree ip_version.

(** ** The heaps *)

Definition upd_db (f : lsdb -> lsdb) : OM unit := modify (fun st => set_db (f (db st)) st).

Definition get_tc (p : positive) : OM tc_entry := gets_opt (fun st => tcs (db st) !! p).
Definition get_edge (e : positive) : OM tc_edge_entry := gets_opt (fun st => edges (db st) !! e).
Definition get_rtp (p : positive) : OM rt_path := gets_opt (fun st => rtps (db st) !! p).
Definition get_rt (p : positive) : OM rt_entry := gets_opt (fun st => rts (db st) !! p).
Definition get_link (p : positive) : OM link_entry := gets_opt (fun st => links st !! p).

(** Writes through a pointer to an allocated object. *)
Definition upd_tc (p : positive) (f : tc_entry -> tc_entry) : OM unit :=
  let* x := get_tc p in upd_db (fun d => set_tcs (<[p := f x]> (tcs d)) d).
Definition upd_edge (e : positive) (f : tc_edge_entry -> tc_edge_entry) : OM unit :=
  let* x := get_edge e in upd_db (fun d => set_edges (<[e := f x]> (edges d)) d).
Definition upd_rtp (p : positive) (f : rt_path -> rt_path) : OM unit :=
  let* x := get_rtp p in upd_db (fun d => set_rtps (<[p := f x]> (rtps d)) d).
Definition upd_rt (p : positive) (f : rt_entry -> rt_entry) : OM unit :=
  let* x := get_rt p in upd_db (fun d => set_rts (<[p := f x]> (rts d)) d).

Definition free_tc (p : positive) : OM unit :=
  let* _ := get_tc p in upd_db (fun d => set_tcs (delete p (tcs d)) d).
Definition free_edge (e : positive) : OM unit :=
  let* _ := get_edge e in upd_db (fun d => set_edges (delete e (edges d)) d).
Definition free_rtp (p : positive) : OM unit :=
  let* _ := get_rtp p in upd_db (fun d => set_rtps (delete p (rtps d)) d).

(** [olsr_cookie_malloc]: a fresh, zeroed object. *)
Definition malloc_tc (x : tc_entry) : OM positive :=
  let* d := gets db in
  let p := alloc (tcs d) in
  do* upd_db (set_tcs (<[p := x]> (tcs d))) in ret p.
Definition malloc_edge (x : tc_edge_entry) : OM positive :=
  let* d := gets db in
  let p := alloc (edges d) in
  do* upd_db (set_edges (<[p := x]> (edges d))) in ret p.
Definition malloc_rtp (x : rt_path) : OM positive :=
  let* d := gets db in
  let p := alloc (rtps d) in
  do* upd_db (set_rtps (<[p := x]> (rtps d))) in ret p.
Definition malloc_rt (x : rt_entry) : OM positive :=
  let* d := gets db in
  let p := alloc (rts d) in
  do* upd_db (set_rts (<[p := x]> (rts d))) in ret p.

Definition maxplen : Z := match ip_version with AF_INET => 32 | AF_INET6 => 128 end.

(** ** tc_set.c: lookups *)

Definition olsr_lookup_tc_entry (adr : ip_addr) : OM (option positive) :=
  gets (fun st => kt_find (tc_tree (db st)) adr).

Definition olsr_lookup_tc_edge (tc : positive) (edge_addr : ip_addr) : OM (option positive) :=
  let* x := get_tc tc in ret (kt_find (edge_tree x) edge_addr).

(** The pairs of the tree walked by [OLSR_FOR_ALL_TC_EDGE_ENTRIES] and its likes.
    The macros prefetch the next node, so the loop bodies may delete the current
    one; no body deletes another one. *)
Definition OLSR_FOR_ALL_TC_ENTRIES : OM (list positive) :=
  gets (fun st => map fst (kt_walk (tc_tree (db st)))).
Definition OLSR_FOR_ALL_TC_EDGE_ENTRIES (tc : positive) : OM (list positive) :=
  let* x := get_tc tc in ret (map fst (kt_walk (edge_tree x))).
Definition OLSR_FOR_ALL_PREFIX_ENTRIES (tc : positive) : OM (list positive) :=
  let* x := get_tc tc in ret (map fst (kt_walk (prefix_tree x))).
Definition OLSR_FOR_ALL_RT_ENTRIES : OM (list positive) :=
  gets (fun st => map fst (kt_walk (routingtree (db st)))).

(** ** Reference counts *)

Definition olsr_lock_tc_entry (tc : positive) : OM unit :=
  upd_tc tc (fun x => set_refcount (u32 (refcount x + 1)) x).

Definition olsr_unlock_tc_entry (tc : positive) : OM unit :=
  do* upd_tc tc (fun x => set_refcount (u32 (refcount x - 1)) x) in
  let* x := get_tc tc in
  if negb (refcount x =? 0) then ret tt else free_tc tc.

End lsdb_ops.
