(* ===== verification/Lq.v ===== *)
(** * lq_plugin.c: the interface of the link metrics

    [struct lq_handler] is a class; the private data of a link, of an edge and of a
    neighbour in a HELLO message are the members of the handler's structs in order.
    A handler of lost and received HELLO messages that sets the cost of the link ends with
    [olsr_relevant_linkcost_change]; etx_ff and etx_ffeth only count and leave the cost to
    their timer ([packet_loss_relevant]). *)

From S2P Require Import Prelude Timer IpAddr State LsdbOps.

Class lq_handler := {
  calc_hello_cost : list Z -> Z;
  calc_tc_cost : list Z -> Z;
  (* the new private data of the link and its new cost; the flag: a HELLO was lost *)
  packet_loss_handler : link_entry -> bool -> list Z * Z;
  packet_loss_relevant : bool;
  memorize_foreign_hello : list Z -> option (list Z) -> list Z;
  copy_link_lq_into_neigh : list Z -> list Z;
  copy_link_lq_into_tc : list Z -> list Z;
  zero_hello_lq : list Z;       (* clear_hello *)
  zero_tc_lq : list Z;          (* clear_tc *)
  serialize_hello_lq : list Z -> list Z;
  serialize_tc_lq : list Z -> list Z;
  (* the old data and the packet at [curr]; the new data and the rest of the packet *)
  deserialize_hello_lq : list Z -> list Z -> option (list Z * list Z);
  deserialize_tc_lq : list Z -> list Z -> option (list Z * list Z);
  hello_lqdata_size : Z;        (* what is written for a neighbour *)
  tc_lqdata_size : Z;
}.

(** What the routing code relies on: a cost is an [olsr_linkcost] (uint32_t), and a
    link that works is never free nor worse than broken. *)
Class lq_laws (lqh : lq_handler) := {
  tc_cost_range lq : 0 <= calc_tc_cost lq <= LINK_COST_BROKEN;
}.

(** What writing messages relies on: the handlers write as many bytes as they say. *)
Class lq_sizes (lqh : lq_handler) := {
  hello_lqdata_length lq : Z.of_nat (length (serialize_hello_lq lq)) = hello_lqdata_size;
  tc_lqdata_length lq : Z.of_nat (length (serialize_tc_lq lq)) = tc_lqdata_size;
}.

Section lq.
Context {cnf : olsrd_config} {lqh : lq_handler}.

(** A write through a link pointer. *)
Definition upd_link (p : positive) (f : link_entry -> link_entry) : OM unit :=
  let* l := get_link p in modify (fun st => set_links (<[p := f l]> (links st)) st).

Definition olsr_relevant_linkcost_change : OM unit :=
  do* modify (set_changes_neighborhood true) in
  do* modify (set_changes_topology true) in
  signal_link_changes true.

Definition olsr_calc_tc_cost (x : tc_edge_entry) : Z := calc_tc_cost (edge_linkquality x).

Definition olsr_update_packet_loss_worker (entry : positive) (lost : bool) : OM unit :=
  do* upd_link entry (fun l =>
    let '(lq, cost) := packet_loss_handler l lost in set_linkcost cost (set_linkquality lq l)) in
  when packet_loss_relevant olsr_relevant_linkcost_change.

Definition olsr_memorize_foreign_hello_lq (local : positive) (foreign : option hello_neighbor) : OM unit :=
  upd_link local (fun l => set_linkquality (memorize_foreign_hello (linkquality l) (hn_linkquality <$> foreign)) l).

Definition olsr_copylq_link_entry_2_tc_edge_entry (target source : positive) : OM unit :=
  let* l := get_link source in
  upd_edge target (set_edge_linkquality (copy_link_lq_into_tc (linkquality l))).

Definition olsr_clear_hello_lq (link : positive) : OM unit := upd_link link (set_linkquality zero_hello_lq).

(** The data and the cost of a neighbour read from a HELLO message. *)
Definition olsr_deserialize_hello_lq_pair (curr : list Z) : option (list Z * Z * list Z) :=
  '(lq, curr) ← deserialize_hello_lq zero_hello_lq curr;
  Some (lq, calc_hello_cost lq, curr).

Definition olsr_deserialize_tc_lq_pair (e : positive) (curr : list Z) : OM (list Z) :=
  let* x := get_edge e in
  let* r := gets_opt (fun _ => deserialize_tc_lq (edge_linkquality x) curr) in
  do* upd_edge e (set_edge_linkquality (fst r)) in
  ret (snd r).

End lq.
