(* ===== verification/Hysteresis.v ===== *)
(** * hysteresis.c: link hysteresis

    Qualities are [float]s; [1 - hscaling] is computed in [float], as with
    FLT_EVAL_METHOD 0. *)

From S2P Require Import Prelude Timer IpAddr State LsdbOps Lq.

Definition float_lt (a b : spec_float) : bool := SFltb a b.
Definition float_gt (a b : spec_float) : bool := SFltb b a.
Definition float_one : spec_float := S754_finite false 8388608 (-23).

Section hysteresis.
Context {cnf : olsrd_config}.

Definition OLSR_LINK_HELLO_JITTER : Z := 0.

Definition olsr_hyst_calc_stability (old_quality : spec_float) : spec_float :=
  SFadd 24 128 (SFmul 24 128 (SFsub 24 128 float_one hscaling) old_quality) hscaling.

Definition olsr_hyst_calc_instability (old_quality : spec_float) : spec_float :=
  SFmul 24 128 (SFsub 24 128 float_one hscaling) old_quality.

Definition olsr_process_hysteresis (entry : positive) : OM Z :=
  let* l := get_link entry in
  let* now := gets now_times in
  let lost := negb (olsr_isTimedOut now (L_LOST_LINK_time l)) in
  if float_gt (L_link_quality l) hhigh then
    do* when (L_link_pending l =? 1) (modify (set_changes_neighborhood true)) in
    do* upd_link entry (set_L_link_pending 0) in
    do* when lost (modify (set_changes_neighborhood true)) in
    do* upd_link entry (set_L_LOST_LINK_time (u32 (now - 1))) in
    ret 1
  else if float_lt (L_link_quality l) hlow then
    do* when (L_link_pending l =? 0) (modify (set_changes_neighborhood true)) in
    do* upd_link entry (set_L_link_pending 1) in
    do* when (negb lost) (modify (set_changes_neighborhood true)) in
    let* timer := gets_opt (fun _ => link_timer l) in
    do* upd_link entry (set_L_LOST_LINK_time
      (Z.min (olsr_getTimestamp now (NEIGHB_HOLD_TIME * MSEC_PER_SEC)) (timer_clock timer))) in
    ret (-1)
  else ret 0.

Definition olsr_update_hysteresis_hello (entry : positive) (htime : Z) : OM unit :=
  let* l := get_link entry in
  let* t := olsr_set_timer (link_hello_timer l) (u32 (htime + htime / 2)) OLSR_LINK_HELLO_JITTER OLSR_TIMER_PERIODIC in
  upd_link entry (set_link_hello_timer t).

(** The loop over the missed packets; [fuel] 100 is enough, because it only runs when
    fewer than 100 packets were missed. *)
Fixpoint missed_packets (fuel : nat) (seqno : Z) (l : link_entry) : link_entry :=
  match fuel with
  | O => l
  | S fuel =>
      if olsr_seqno l =? seqno then l
      else
        let l := set_L_link_quality (olsr_hyst_calc_instability (L_link_quality l)) l in
        if float_lt (L_link_quality l) hlow then l
        else missed_packets fuel seqno (set_olsr_seqno (u16 (olsr_seqno l + 1)) l)
  end.

(** The link found by [lookup_link_entry] is an argument. *)
Definition update_hysteresis_link (seqno : Z) (l : link_entry) : link_entry :=
  let l := set_L_link_quality (olsr_hyst_calc_stability (L_link_quality l)) l in
  let l := if olsr_seqno_valid l && (u16 (seqno - olsr_seqno l) <? 100) then missed_packets 100 seqno l else l in
  set_olsr_seqno_valid true (set_olsr_seqno (u16 (seqno + 1)) l).

End hysteresis.
