(* ===== verification/RouteTable.v ===== *)
(** * routing_table.c: route paths, route entries and the choice of the best path *)

From S2P Require Import Prelude Timer Avl IpAddr KeyTree State LsdbOps.

(** [enum olsr_rt_origin] *)
Definition OLSR_RT_ORIGIN_INT : Z := 1.
Definition OLSR_RT_ORIGIN_MID : Z := 2.
Definition OLSR_RT_ORIGIN_HNA : Z := 3.

(** ** [float] arithmetic (binary32, round to nearest even) *)

Definition float_of_u32 (x : Z) : spec_float := binary_normalize 24 128 x 0 false.

(** Conversion to an unsigned 32-bit integer: truncation; out of the range of the
    result the conversion is undefined. *)
Definition u32_of_float (f : spec_float) : option Z :=
  match f with
  | S754_zero _ => Some 0
  | S754_finite s m e =>
      let v := if 0 <=? e then Z.pos m * 2 ^ e else Z.pos m / 2 ^ (- e) in
      if s then (if v =? 0 then Some 0 else None)
      else if v <? 4294967296 then Some v else None
  | _ => None
  end.

Section routing_table.
Context {cnf : olsrd_config}.

Definition olsr_bump_routingtree_version : OM Z :=
  let* v := gets (fun st => routingtree_version (db st)) in
  do* upd_db (set_routingtree_version (u32 (v + 1))) in ret v.

Definition olsr_init_routing_table : OM unit :=
  upd_db (fun d => set_routingtree kt_init (set_routingtree_version 0 d)).

Definition olsr_lookup_routing_table (dst : ip_addr) : OM (option positive) :=
  gets (fun st => kt_find (routingtree (db st)) {| prefix := dst; prefix_len := maxplen |}).

Definition olsr_update_rt_path (rtp tc link : positive) : OM unit :=
  let* version := gets (fun st => routingtree_version (db st)) in
  let* l := get_link link in
  let* inter := gets_opt (fun _ => inter l) in
  let* t := get_tc tc in
  upd_rtp rtp (fun x => set_rtp_version version
    (set_rtp_nexthop {| gateway := neighbor_iface_addr l; iif_index := if_index inter |}
    (set_rtp_metric {| metric_cost := path_cost t; metric_hops := tc_hops t |} x))).

(** A new entry: zeroed, with the interface index -1 that marks it as fresh. *)
Definition new_rt_entry (p : olsr_ip_prefix) : rt_entry :=
  {| rt_dst := p; rt_best := None; rt_nexthop := {| gateway := 0; iif_index := -1 |};
     rt_metric := new_metric; rt_path_tree := kt_init |}.

Definition olsr_alloc_rt_entry (p : olsr_ip_prefix) : OM positive :=
  let* rt := malloc_rt (new_rt_entry p) in
  do* upd_db (fun d => set_routingtree (kt_insert (routingtree d) rt p) d) in
  ret rt.

Definition new_rt_path (p : olsr_ip_prefix) : rt_path :=
  {| rtp_rt := None; rtp_tc := None; rtp_nexthop := new_nexthop; rtp_metric := new_metric;
     rtp_originator := 0; rtp_dst := p; rtp_version := 0; rtp_origin := 0 |}.

Definition olsr_alloc_rt_path (tc : positive) (p : olsr_ip_prefix) (origin : Z) : OM positive :=
  let* rtp := malloc_rtp (new_rt_path p) in
  do* upd_tc tc (fun x => set_prefix_tree (kt_insert (prefix_tree x) rtp p) x) in
  do* olsr_lock_tc_entry tc in
  do* upd_rtp rtp (fun x => set_rtp_origin (u8 origin) (set_rtp_tc (Some tc) x)) in
  ret rtp.

Definition olsr_insert_rt_path (rtp tc link : positive) : OM unit :=
  let* t := get_tc tc in
  if path_cost t >=? ROUTE_COST_BROKEN then ret tt
  else
    let* x := get_rtp rtp in
    if prefix_len (rtp_dst x) >? maxplen then ret tt
    else
      let* node := gets (fun st => kt_find (routingtree (db st)) (rtp_dst x)) in
      let* rt := match node with
                 | None => olsr_alloc_rt_entry (rtp_dst x)
                 | Some rt => ret rt
                 end in
      do* upd_rtp rtp (set_rtp_originator (tc_addr t)) in
      do* upd_rt rt (fun r => set_rt_path_tree (kt_insert (rt_path_tree r) rtp (tc_addr t)) r) in
      do* upd_rtp rtp (set_rtp_rt (Some rt)) in
      olsr_update_rt_path rtp tc link.

Definition olsr_delete_rt_path (rtp : positive) : OM unit :=
  let* x := get_rtp rtp in
  do* match rtp_rt x with
      | Some rt =>
          do* upd_rt rt (fun r => set_rt_path_tree (kt_delete (rt_path_tree r) rtp (rtp_originator x)) r) in
          upd_rtp rtp (set_rtp_rt None)
      | None => ret tt
      end in
  do* match rtp_tc x with
      | Some tc =>
          do* upd_tc tc (fun t => set_prefix_tree (kt_delete (prefix_tree t) rtp (rtp_dst x)) t) in
          do* olsr_unlock_tc_entry tc in
          upd_rtp rtp (set_rtp_tc None)
      | None => ret tt
      end in
  let* inetgw := gets (fun st => current_inetgw (db st)) in
  do* when (bool_decide (inetgw = Some rtp)) (upd_db (set_current_inetgw None)) in
  let* rs := OLSR_FOR_ALL_RT_ENTRIES in
  do* forM_ rs (fun rt =>
    let* r := get_rt rt in
    when (bool_decide (rt_best r = Some rtp)) (upd_rt rt (set_rt_best None))) in
  free_rtp rtp.

Definition olsr_nh_change (nh1 nh2 : nexthop) : bool :=
  negb (ipequal ip_version (gateway nh1) (gateway nh2)) || negb (iif_index nh1 =? iif_index nh2).

Definition olsr_hopcount_change (met1 met2 : metric) : bool :=
  negb (metric_hops met1 =? metric_hops met2).

(** The nexthop of the best path, or for a deletion that of the entry. *)
Definition olsr_get_nh (rt : positive) : OM nexthop :=
  let* r := get_rt rt in
  match rt_best r with
  | Some best => let* x := get_rtp best in ret (rtp_nexthop x)
  | None => ret (rt_nexthop r)
  end.

(** [etx *= olsr_cnf->lq_nat_thresh] *)
Definition nat_thresh (etx : Z) : option Z :=
  u32_of_float (SFmul 24 128 (float_of_u32 etx) lq_nat_thresh).

(** The cost a path is compared with: the current Internet gateway is preferred. *)
Definition cmp_cost (p : positive) (rtp : rt_path) (inetgw : option positive) : option Z :=
  if bool_decide (inetgw = Some p) then nat_thresh (metric_cost (rtp_metric rtp))
  else Some (metric_cost (rtp_metric rtp)).

Definition originator_cmp (a b : ip_addr) : Z := memcmp (ip_bytes (ipsize ip_version) a) (ip_bytes (ipsize ip_version) b).

Definition olsr_cmp_rtp (p1 : positive) (rtp1 : rt_path) (p2 : positive) (rtp2 : rt_path)
    (inetgw : option positive) : option bool :=
  etx1 ← cmp_cost p1 rtp1 inetgw;
  etx2 ← cmp_cost p2 rtp2 inetgw;
  Some (
    if etx1 <? etx2 then true
    else if etx1 >? etx2 then false
    else if metric_hops (rtp_metric rtp1) <? metric_hops (rtp_metric rtp2) then true
    else if metric_hops (rtp_metric rtp1) >? metric_hops (rtp_metric rtp2) then false
    else originator_cmp (rtp_originator rtp1) (rtp_originator rtp2) <? 0).

Definition olsr_cmp_rt (rt1 rt2 : positive) : OM bool :=
  let* r1 := get_rt rt1 in
  let* r2 := get_rt rt2 in
  match rt_best r1, rt_best r2 with
  | Some b1, Some b2 =>
      let* x1 := get_rtp b1 in
      let* x2 := get_rtp b2 in
      gets_opt (fun _ => olsr_cmp_rtp b1 x1 b2 x2 None)
  | _, _ => crash
  end.

Definition olsr_rt_best (rt : positive) : OM unit :=
  let* r := get_rt rt in
  match map fst (kt_walk (rt_path_tree r)) with
  | [] => crash                                  (* assert(node != 0) *)
  | first :: rest =>
      do* upd_rt rt (set_rt_best (Some first)) in
      do* forM_ rest (fun rtp =>
        let* r := get_rt rt in
        match rt_best r with
        | None => crash
        | Some best =>
            let* x := get_rtp rtp in
            let* b := get_rtp best in
            let* inetgw := gets (fun st => current_inetgw (db st)) in
            let* better := gets_opt (fun _ => olsr_cmp_rtp rtp x best b inetgw) in
            when better (upd_rt rt (set_rt_best (Some rtp)))
        end) in
      let* r := get_rt rt in
      when (0 =? prefix_len (rt_dst r)) (upd_db (set_current_inetgw (rt_best r)))
  end.

(** The part of [olsr_insert_routing_table] behind the lookup of the vertex. *)
Definition insert_prefix (tc : positive) (dst : ip_addr) (plen origin : Z) : OM positive :=
  let p := {| prefix := dst; prefix_len := u8 plen |} in
  let* t := get_tc tc in
  match kt_find (prefix_tree t) p with
  | None =>
      let* rtp := olsr_alloc_rt_path tc p origin in
      do* modify (set_changes_hna true) in
      ret rtp
  | Some rtp => ret rtp
  end.

Definition olsr_delete_routing_table (dst : ip_addr) (plen : Z) (originator : ip_addr) : OM unit :=
  if plen >? maxplen then ret tt
  else
    let* tc := olsr_lookup_tc_entry originator in
    match tc with
    | None => ret tt
    | Some tc =>
        let* t := get_tc tc in
        match kt_find (prefix_tree t) {| prefix := dst; prefix_len := u8 plen |} with
        | None => ret tt
        | Some rtp =>
            do* olsr_delete_rt_path rtp in
            modify (set_changes_hna true)
        end
    end.

End routing_table.
