(* ===== verification/TcSet.v ===== *)
(** * tc_set.c: vertices and edges of the link state database *)

From S2P Require Import Prelude Timer Avl IpAddr KeyTree State Packet LsdbOps Lq RouteTable.

(** ** Sequence number windows *)

Definition TC_ANSN_WINDOW : Z := 256.
Definition TC_SEQNO_WINDOW : Z := 1024.
Definition TC_ANSN_WINDOW_MULT : Z := 4.
Definition TC_SEQNO_WINDOW_MULT : Z := 8.

Definition olsr_seq_inrange_low (beg fin seq : Z) : bool :=
  if beg <? 0 then (seq >=? u16 beg) || (seq <? fin)
  else if fin >=? 65536 then (seq >=? beg) || (seq <? u16 fin)
  else (seq >=? beg) && (seq <? fin).

Definition olsr_seq_inrange_high (beg fin seq : Z) : bool :=
  if beg <? 0 then (seq >? u16 beg) || (seq <=? fin)
  else if fin >=? 65536 then (seq >? beg) || (seq <=? u16 fin)
  else (seq >? beg) && (seq <=? fin).

(** olsr_protocol.h *)
Definition MAXVALUE : Z := 65535.
Definition SEQNO_GREATER_THAN (s1 s2 : Z) : bool :=
  ((s1 >? s2) && (s1 - s2 <=? MAXVALUE / 2)) || ((s2 >? s1) && (s2 - s1 >? MAXVALUE / 2)).

Definition OLSR_TC_EDGE_GC_TIME : Z := 2 * 1000.
Definition OLSR_TC_EDGE_GC_JITTER : Z := 5.
Definition OLSR_TC_VTIME_JITTER : Z := 5.

Section tc_set.
Context {cnf : olsrd_config} {lqh : lq_handler}.

(** ** Vertices *)

Definition new_tc_entry (adr : ip_addr) : tc_entry :=
  {| tc_addr := adr; path_cost := ROUTE_COST_BROKEN; edge_tree := kt_init; prefix_tree := kt_init;
     next_hop := None; edge_gc_timer := None; validity_timer := None; refcount := 0;
     tc_msg_seq := 0; tc_msg_hops := 0; tc_hops := 0; tc_ansn := 0; ignored := 0;
     err_seq := 0; err_seq_valid := false |}.

(** [olsr_add_tc_entry] and [olsr_insert_routing_table] (routing_table.c) call each
    other: the vertex gets a route path for itself. That inner call finds the
    vertex, so [fuel] = 1 is enough for it (theorem [olsr_add_tc_entry_correct]). *)
Fixpoint insert_routing_table (fuel : nat) (dst : ip_addr) (plen : Z) (originator : ip_addr) (origin : Z)
  : OM (option positive) :=
  match fuel with
  | O => crash
  | S fuel =>
      if plen >? maxplen then ret None
      else
        (* olsr_locate_tc_entry(originator) *)
        let* found := olsr_lookup_tc_entry originator in
        let* tc := match found with
                   | Some tc => ret (Some tc)
                   | None =>
                       let* main := gets main_addr in
                       if ipequal ip_version main 0 then ret None
                       else
                         let* tc := malloc_tc (new_tc_entry originator) in
                         do* upd_db (fun d => set_tc_tree (kt_insert (tc_tree d) tc originator) d) in
                         do* olsr_lock_tc_entry tc in
                         let* _ := insert_routing_table fuel originator maxplen originator OLSR_RT_ORIGIN_INT in
                         ret (Some tc)
                   end in
        match tc with
        | None => ret None
        | Some tc => let* rtp := insert_prefix tc dst plen origin in ret (Some rtp)
        end
  end.

Definition olsr_insert_routing_table (dst : ip_addr) (plen : Z) (originator : ip_addr) (origin : Z)
  : OM (option positive) := insert_routing_table 2 dst plen originator origin.

(** [None] when the main address is lost. *)
Definition olsr_add_tc_entry (adr : ip_addr) : OM (option positive) :=
  let* main := gets main_addr in
  if ipequal ip_version main 0 then ret None
  else
    let* tc := malloc_tc (new_tc_entry adr) in
    do* upd_db (fun d => set_tc_tree (kt_insert (tc_tree d) tc adr) d) in
    do* olsr_lock_tc_entry tc in
    let* _ := insert_routing_table 1 adr maxplen adr OLSR_RT_ORIGIN_INT in
    ret (Some tc).

Definition olsr_locate_tc_entry (adr : ip_addr) : OM (option positive) :=
  let* tc := olsr_lookup_tc_entry adr in
  match tc with
  | Some tc => ret (Some tc)
  | None => olsr_add_tc_entry adr
  end.

Definition olsr_init_tc : OM unit :=
  do* upd_db (set_tc_tree kt_init) in
  let* main := gets main_addr in
  let* tc := olsr_add_tc_entry main in
  upd_db (set_tc_myself tc).

(** ** Edges *)

Definition olsr_calc_tc_edge_entry_etx (e : positive) : OM bool :=
  if lq_level <? 1 then ret false
  else
    do* upd_edge e (fun x => set_edge_cost (olsr_calc_tc_cost x) x) in
    ret true.

Definition new_tc_edge (tc : positive) (addr : ip_addr) (ansn : Z) : tc_edge_entry :=
  {| T_dest_addr := addr; edge_inv := None; edge_tc := tc; edge_cost := 0; edge_ansn := ansn;
     edge_linkquality := zero_tc_lq |}.

Definition olsr_add_tc_edge_entry (tc : positive) (addr : ip_addr) (ansn : Z) : OM positive :=
  let* e := malloc_edge (new_tc_edge tc addr ansn) in
  do* upd_tc tc (fun t => set_edge_tree (kt_insert (edge_tree t) e addr) t) in
  do* olsr_lock_tc_entry tc in
  let* tc_neighbor := olsr_lookup_tc_entry addr in
  do* match tc_neighbor with
      | Some n =>
          let* t := get_tc tc in
          let* tc_edge_inv := olsr_lookup_tc_edge n (tc_addr t) in
          match tc_edge_inv with
          | Some f =>
              do* upd_edge f (set_edge_inv (Some e)) in
              upd_edge e (set_edge_inv (Some f))
          | None => ret tt
          end
      | None => ret tt
      end in
  let* _ := olsr_calc_tc_edge_entry_etx e in
  ret e.

Definition olsr_delete_tc_edge_entry (e : positive) : OM unit :=
  let* x := get_edge e in
  let tc := edge_tc x in
  do* upd_tc tc (fun t => set_edge_tree (kt_delete (edge_tree t) e (T_dest_addr x)) t) in
  do* olsr_unlock_tc_entry tc in
  do* match edge_inv x with
      | Some f => upd_edge f (set_edge_inv None)
      | None => ret tt
      end in
  free_edge e.

Definition olsr_delete_outdated_tc_edges (tc : positive) : OM bool :=
  let* es := OLSR_FOR_ALL_TC_EDGE_ENTRIES tc in
  foldM es false (fun retval e =>
    let* t := get_tc tc in
    let* x := get_edge e in
    if SEQNO_GREATER_THAN (tc_ansn t) (edge_ansn x) then
      do* olsr_delete_tc_edge_entry e in ret true
    else ret retval).

(** The loop of [olsr_delete_revoked_tc_edges]: [passed] is [passedLowerBorder]; the
    list is empty after the [break]. *)
Fixpoint revoked_loop (es : list positive) (ansn lower upper : Z) (passed retval : bool) : OM bool :=
  match es with
  | [] => ret retval
  | e :: es =>
      let* x := get_edge e in
      if negb passed && negb (avl_comp_default ip_version lower (T_dest_addr x) <=? 0)
      then revoked_loop es ansn lower upper passed retval
      else if avl_comp_default ip_version upper (T_dest_addr x) <=? 0 then ret retval
      else if SEQNO_GREATER_THAN ansn (edge_ansn x) then
        do* olsr_delete_tc_edge_entry e in
        revoked_loop es ansn lower upper true true
      else revoked_loop es ansn lower upper true retval
  end.

Definition olsr_delete_revoked_tc_edges (tc : positive) (ansn : Z) (lower_border upper_border : ip_addr) : OM bool :=
  let* es := OLSR_FOR_ALL_TC_EDGE_ENTRIES tc in
  let* retval := revoked_loop es ansn lower_border upper_border false false in
  do* when retval (modify (set_changes_topology true)) in
  ret retval.

(** ** Deletion of vertices (of a build without gateway support) *)

Definition olsr_delete_tc_entry (tc : positive) : OM unit :=
  let* t := get_tc tc in
  do* olsr_delete_routing_table (tc_addr t) maxplen (tc_addr t) in
  let* es := OLSR_FOR_ALL_TC_EDGE_ENTRIES tc in
  do* forM_ es olsr_delete_tc_edge_entry in
  let* ps := OLSR_FOR_ALL_PREFIX_ENTRIES tc in
  do* forM_ ps olsr_delete_rt_path in
  do* upd_tc tc (fun t => set_edge_gc_timer None (set_validity_timer None t)) in
  do* upd_db (fun d => set_tc_tree (kt_delete (tc_tree d) tc (tc_addr t)) d) in
  olsr_unlock_tc_entry tc.

Definition olsr_delete_all_tc_entries : OM unit :=
  let* ts := OLSR_FOR_ALL_TC_ENTRIES in
  forM_ ts olsr_delete_tc_entry.

Definition olsr_change_myself_tc : OM unit :=
  let* me := gets (fun st => tc_myself (db st)) in
  let* main := gets main_addr in
  let renew :=
    let* tc := olsr_add_tc_entry main in
    do* upd_db (set_tc_myself tc) in
    modify (set_changes_topology true) in
  match me with
  | Some tc =>
      let* t := get_tc tc in
      if ipequal ip_version (tc_addr t) main then ret tt
      else do* olsr_delete_tc_entry tc in renew
  | None => renew
  end.

(** ** Timer callbacks *)

Definition olsr_expire_tc_entry (tc : positive) : OM unit :=
  do* upd_tc tc (set_validity_timer None) in
  do* olsr_delete_tc_entry tc in
  modify (set_changes_topology true).

Definition olsr_expire_tc_edge_gc (tc : positive) : OM unit :=
  do* upd_tc tc (set_edge_gc_timer None) in
  let* deleted := olsr_delete_outdated_tc_edges tc in
  when deleted (modify (set_changes_topology true)).

(** ** Updates from a TC message *)

(** [olsr_tc_update_edge]: the neighbour read, the new read position and the result;
    [validate] is [olsr_validate_address]. The read position stays before the link
    quality when the address is refused. *)
Definition olsr_tc_update_edge (validate : ip_addr -> bool) (tc : positive) (ansn : Z) (curr : list Z)
  : OM (ip_addr * list Z * bool) :=
  let* r := gets_opt (fun _ => pkt_get_ipaddress curr) in
  let '(neighbor, curr) := r in
  let* tc_edge := olsr_lookup_tc_edge tc neighbor in
  match tc_edge with
  | None =>
      if negb (validate neighbor) then ret (neighbor, curr, false)
      else
        let* e := olsr_add_tc_edge_entry tc neighbor ansn in
        let* curr := olsr_deserialize_tc_lq_pair e curr in
        ret (neighbor, curr, true)
  | Some e =>
      do* upd_edge e (set_edge_ansn ansn) in
      let* curr := if lq_level >? 0 then olsr_deserialize_tc_lq_pair e curr else ret curr in
      let* change := olsr_calc_tc_edge_entry_etx e in
      ret (neighbor, curr, change)
  end.

(** Byte [ipsize - i - 1] of the address set to zero for [i] below [n]. *)
Definition clear_low_bytes (n : nat) (bytes : list Z) : list Z :=
  take (length bytes - n) bytes ++ replicate n 0.

(** One border: [None] is an access outside of the address. *)
Definition tc_border (border : Z) (fill : Z) (addr : list Z) : option (list Z) :=
  if border =? 255 then Some (replicate (length addr) fill)
  else
    let b := u8 (border - 1) in
    let n := Z.to_nat (b / 8) in
    if (length addr <=? n)%nat then None
    else
      let addr := clear_low_bytes n addr in
      let i := (length addr - n - 1)%nat in
      byte ← addr !! i;
      let byte := Z.land byte (u8 (Z.shiftl 255 (Z.land b 7))) in
      let byte := Z.lor byte (u8 (Z.shiftl 1 (Z.land b 7))) in
      Some (<[i := byte]> addr).

(** The addresses are the [ipsize] bytes of the unions; the two results, [None]
    inside when no border is given. *)
Definition olsr_calculate_tc_border (lower_border : Z) (lower_ip : list Z) (upper_border : Z) (upper_ip : list Z)
  : option (option (list Z * list Z)) :=
  if (lower_border =? 0) && (upper_border =? 0) then Some None
  else
    l ← tc_border lower_border 0 lower_ip;
    u ← tc_border upper_border 255 upper_ip;
    Some (Some (l, u)).

End tc_set.
