(* ===== verification/LinkSet.v ===== *)
(** * link_set.c: the links to the interfaces of neighbours *)

From S2P Require Import Prelude Timer Avl IpAddr KeyTree State MidLookup Interfaces NeighTable LsdbOps Lq Hysteresis RouteTable TcSet.

#[export] Instance interface_eq_dec : EqDecision interface_olsr.
Proof. solve_decision. Defined.

Definition OLSR_LINK_JITTER : Z := 5.
Definition OLSR_LINK_SYM_JITTER : Z := 0.
Definition OLSR_LINK_LOSS_JITTER : Z := 0.
Definition LINK_LOSS_MULTIPLIER : Z := 65536.

Section link_set.
Context {cnf : olsrd_config} {lqh : lq_handler}.

Definition olsr_init_link_set : OM unit := modify (set_link_entry_head []).

(** The loop macro prefetches the next link; no body deletes another one. *)
Definition OLSR_FOR_ALL_LINK_ENTRIES : OM (list positive) := gets link_entry_head.

(** ** The status of a link *)

Definition link_status (st : olsr_state) (l : link_entry) : Z :=
  let by_timers :=
    match link_sym_timer l with
    | Some _ => SYM_LINK
    | None => if negb (olsr_isTimedOut (now_times st) (ASYM_time l)) then ASYM_LINK else LOST_LINK
    end in
  match link_entry_head st with
  | [] => UNSPEC_LINK
  | _ =>
      if use_hysteresis then
        if negb (olsr_isTimedOut (now_times st) (L_LOST_LINK_time l)) then LOST_LINK
        else if L_link_pending l =? 1 then HIDE_LINK
        else by_timers
      else by_timers
  end.

Definition lookup_link_status (entry : option positive) : OM Z :=
  match entry with
  | None => ret UNSPEC_LINK
  | Some p => let* l := get_link p in gets (fun st => link_status st l)
  end.

(** The test of one link by [lookup_link_entry]. *)
Definition link_matches (st : olsr_state) (remote : ip_addr) (local : interface_olsr) (p : positive) : option bool :=
  l ← links st !! p;
  if ipequal ip_version remote (neighbor_iface_addr l) then
    match if_name l with
    | Some name => name' ← int_name local; Some (bool_decide (name = name'))
    | None => Some (ipequal ip_version (if_ip_addr local) (local_iface_addr l))
    end
  else Some false.

Definition find_link (st : olsr_state) (remote : ip_addr) (local : interface_olsr) : option (option positive) :=
  findM (link_matches st remote local) (link_entry_head st).

Definition lookup_link_entry (remote : ip_addr) (remote_main : option ip_addr) (local : interface_olsr)
  : OM (option positive) :=
  let* link := gets_opt (fun st => find_link st remote local) in
  match link, remote_main with
  | Some p, Some main =>
      let* l := get_link p in
      let* n := get_nbr (link_neighbor l) in
      do* when (negb (ipequal ip_version main (neighbor_main_addr n)))
        (olsr_update_neighbor_main_addr (link_neighbor l) main) in
      ret (Some p)
  | _, _ => ret link
  end.

(** Whether the link to [addr] over [ifs] is symmetric; it is a lookup without a main
    address, which changes nothing. *)
Definition sym_link_to (st : olsr_state) (addr : ip_addr) (ifs : interface_olsr) : option bool :=
  lnk ← find_link st addr ifs;
  match lnk with
  | Some p => l ← links st !! p; Some (link_status st l =? SYM_LINK)
  | None => Some false
  end.

Definition sym_via (st : olsr_state) (main : ip_addr) (ifs : interface_olsr) : option bool :=
  sym ← sym_link_to st main ifs;
  if (sym : bool) then Some true
  else
    al ← find_aliases st main;
    hit ← findM (fun q => a ← mid_addresses st !! q; sym_link_to st (alias a) ifs) al;
    Some (match hit with Some _ => true | None => false end).

Definition neighbor_link_status (st : olsr_state) (address : ip_addr) : option Z :=
  main_addr ← find_main_addr st address;
  hit ← findM (sym_via st (default address main_addr)) (ifnet st);
  Some (match hit with Some _ => SYM_LINK | None => 0 end).

Definition get_neighbor_status (address : ip_addr) : OM Z :=
  gets_opt (fun st => neighbor_link_status st address).

Definition check_neighbor_link (int_addr : ip_addr) : OM Z :=
  let* head := OLSR_FOR_ALL_LINK_ENTRIES in
  let* hit := gets_opt (fun st =>
    findM (fun p => l ← links st !! p; Some (ipequal ip_version int_addr (neighbor_iface_addr l))) head) in
  match hit with Some p => lookup_link_status (Some p) | None => ret UNSPEC_LINK end.

(** ** The best link *)

(** The variables of the loop of [get_best_link_to_neighbor]; [curr] is the interface
    metric or the link cost of the last link taken. *)
Record best_link := { curr : Z; good_link : option positive; backup_link : option positive }.

(** The interface of a link. *)
Definition link_interface (st : olsr_state) (l : link_entry) : option (option interface_olsr) :=
  match if_name l with
  | Some name => if_ifwithname (ifnet st) name
  | None => Some (if_ifwithaddr (ifnet st) (local_iface_addr l))
  end.

(** The metric a link is judged by; [None] inside: its interface is gone. *)
Definition walker_metric (st : olsr_state) (l : link_entry) : option (option Z) :=
  if lq_level =? 0 then
    option_map (option_map int_metric) (link_interface st l)
  else Some (Some (linkcost l)).

Definition best_link_step (st : olsr_state) (main_addr remote : ip_addr) (b : best_link) (walker : positive)
  : option best_link :=
  l ← links st !! walker;
  n ← nbrs st !! link_neighbor l;
  if negb (ipequal ip_version (neighbor_main_addr n) main_addr) then Some b
  else
    metric ← walker_metric st l;
    match metric with
    | None => Some b
    | Some m =>
        if (m <? curr b) || ((m =? curr b) && ipequal ip_version (local_iface_addr l) remote) then
          if link_status st l =? SYM_LINK
          then Some {| curr := m; good_link := Some walker; backup_link := backup_link b |}
          else Some {| curr := m; good_link := good_link b; backup_link := Some walker |}
        else Some b
    end.

Fixpoint best_link_loop (st : olsr_state) (main_addr remote : ip_addr) (b : best_link) (l : list positive)
  : option best_link :=
  match l with
  | [] => Some b
  | p :: l => b ← best_link_step st main_addr remote b p; best_link_loop st main_addr remote b l
  end.

Definition find_best_link (st : olsr_state) (remote : ip_addr) : option (option positive) :=
  main_addr ← find_main_addr st remote;
  let curr := if lq_level =? 0 then MAX_IF_METRIC else LINK_COST_BROKEN in
  b ← best_link_loop st (default remote main_addr) remote
        {| curr := curr; good_link := None; backup_link := None |} (link_entry_head st);
  Some (match good_link b with Some p => Some p | None => backup_link b end).

Definition get_best_link_to_neighbor (remote : ip_addr) : OM (option positive) :=
  gets_opt (fun st => find_best_link st remote).

(** ** Loss multiplier *)

(** The value for [addr]: an entry for the address, else one for the null address. *)
Definition mult_value (mults : list (ip_addr * Z)) (addr : ip_addr) : Z :=
  foldl (fun val m =>
    if (ipequal ip_version (fst m) 0 && (val =? 0)) || ipequal ip_version (fst m) addr then snd m else val) 0 mults.

(** The configuration of an interface is found by its pointer, that is, by the
    interface itself. *)
Definition set_loss_link_multiplier (entry : positive) : OM unit :=
  let* l := get_link entry in
  let* name := gets_opt (fun _ => if_name l) in           (* assert(entry->if_name) *)
  let* inter := gets_opt (fun st => if_ifwithname (ifnet st) name) in
  let* cfgs := gets interfaces in
  let cfg_inter :=
    match inter with
    | Some i => find (fun c => bool_decide (interf c = Some i)) cfgs
    | None => None
    end in
  let val := match cfg_inter with Some c => mult_value (lq_mult c) (neighbor_iface_addr l) | None => 0 end in
  upd_link entry (set_link_loss_multiplier (if val =? 0 then LINK_LOSS_MULTIPLIER else val)).

(** ** Timers of a link *)

Definition olsr_set_link_timer (link : positive) (rel_timer : Z) : OM unit :=
  let* l := get_link link in
  let* t := olsr_set_timer (link_timer l) rel_timer OLSR_LINK_JITTER OLSR_TIMER_ONESHOT in
  upd_link link (set_link_timer t).

Definition olsr_set_link_sym_timer (link : positive) (rel_timer : Z) : OM unit :=
  let* l := get_link link in
  let* t := olsr_set_timer (link_sym_timer l) rel_timer OLSR_LINK_SYM_JITTER OLSR_TIMER_ONESHOT in
  upd_link link (set_link_sym_timer t).

Definition olsr_set_link_loss_timer (link : positive) (rel_timer : Z) : OM unit :=
  let* l := get_link link in
  let* t := olsr_set_timer (link_loss_timer l) rel_timer OLSR_LINK_LOSS_JITTER OLSR_TIMER_PERIODIC in
  upd_link link (set_link_loss_timer t).

(** ** Deletion *)

Definition olsr_delete_link_entry (link : positive) : OM unit :=
  let* l := get_link link in
  let* me := gets_opt (fun st => tc_myself (db st)) in
  let* tc_edge := olsr_lookup_tc_edge me (neighbor_iface_addr l) in
  do* match tc_edge with
      | Some e => olsr_delete_tc_edge_entry e
      | None => ret tt
      end in
  let* n := get_nbr (link_neighbor l) in
  do* (if linkcount n =? 1 then
         let* _ := olsr_delete_neighbor_table (neighbor_main_addr n) in ret tt
       else upd_nbr (link_neighbor l) (fun n => set_linkcount (s32 (linkcount n - 1)) n)) in
  do* upd_link link (fun l =>
        set_link_loss_timer None (set_link_hello_timer None (set_link_sym_timer None (set_link_timer None l)))) in
  do* modify (fun st => set_link_entry_head (filter (fun p => p <> link) (link_entry_head st)) st) in
  do* modify (fun st => set_links (delete link (links st)) st) in
  modify (set_changes_neighborhood true).

Definition olsr_delete_link_entry_by_ip (int_addr : ip_addr) : OM unit :=
  let* head := OLSR_FOR_ALL_LINK_ENTRIES in
  forM_ head (fun link =>
    let* l := get_link link in
    when (ipequal ip_version int_addr (local_iface_addr l)) (olsr_delete_link_entry link)).

(** ** Callbacks *)

Definition olsr_expire_link_loss_timer (link : positive) : OM unit :=
  do* olsr_update_packet_loss_worker link true in
  let* l := get_link link in
  let* t := olsr_change_timer (link_loss_timer l) (loss_helloint l) OLSR_LINK_LOSS_JITTER OLSR_TIMER_PERIODIC in
  upd_link link (set_link_loss_timer t).

Definition olsr_expire_link_sym_timer (link : positive) : OM unit :=
  do* upd_link link (set_link_sym_timer None) in
  let* l := get_link link in
  if negb (prev_status l =? SYM_LINK) then ret tt
  else
    let* s := lookup_link_status (Some link) in
    do* upd_link link (set_prev_status (u8 s)) in
    let* s := get_neighbor_status (neighbor_iface_addr l) in
    let* _ := update_neighbor_status (link_neighbor l) s in
    modify (set_changes_neighborhood true).

Definition olsr_expire_link_hello_timer (link : positive) : OM unit :=
  do* upd_link link (fun l => set_L_link_quality (olsr_hyst_calc_instability (L_link_quality l)) l) in
  let* l := get_link link in
  let* t := olsr_change_timer (link_hello_timer l) (last_htime l) OLSR_LINK_JITTER OLSR_TIMER_PERIODIC in
  do* upd_link link (set_link_hello_timer t) in
  let* _ := olsr_process_hysteresis link in
  let* s := get_neighbor_status (neighbor_iface_addr l) in
  let* _ := update_neighbor_status (link_neighbor l) s in
  upd_link link (fun l => set_olsr_seqno (u16 (olsr_seqno l + 1)) l).

Definition olsr_expire_link_entry (link : positive) : OM unit :=
  do* upd_link link (set_link_timer None) in
  olsr_delete_link_entry link.

Definition olsr_reset_all_links : OM unit :=
  let* head := OLSR_FOR_ALL_LINK_ENTRIES in
  do* forM_ head (fun link =>
    let* now := gets now_times in
    do* upd_link link (fun l => set_link_sym_timer None (set_ASYM_time (u32 (now - 1)) l)) in
    let* l := get_link link in
    upd_nbr (link_neighbor l) (fun n => set_status NOT_SYM (set_is_mpr false n))) in
  let* head := OLSR_FOR_ALL_LINK_ENTRIES in
  forM_ head (fun link =>
    do* olsr_expire_link_sym_timer link in
    olsr_clear_hello_lq link).

(** ** Creation and update *)

(** A new link, cleared. The neighbour pointer, NULL at first, is set at the end of
    [add_link_entry] and not read before. *)
Definition new_link_entry (local remote : ip_addr) (local_if : interface_olsr) : link_entry :=
  {| local_iface_addr := local; neighbor_iface_addr := remote; inter := Some local_if; if_name := int_name local_if;
     link_timer := None; link_sym_timer := None; ASYM_time := 0; link_vtime := 0; link_neighbor := 1;
     prev_status := 0; L_link_quality := S754_zero false; L_link_pending := 0; L_LOST_LINK_time := 0;
     link_hello_timer := None; last_htime := 0; olsr_seqno_valid := false; olsr_seqno := 0; loss_helloint := 0;
     link_loss_timer := None; loss_link_multiplier := 0; linkcost := 0; linkquality := zero_hello_lq |}.

(** The timers and the metric of a new link. *)
Definition fill_link_entry (p : positive) (vtime htime : Z) : OM unit :=
  do* olsr_set_link_timer p vtime in
  do* upd_link p (set_prev_status ASYM_LINK) in
  do* when use_hysteresis
    (let* now := gets now_times in
     do* upd_link p (fun l => set_L_LOST_LINK_time (olsr_getTimestamp now vtime) (set_L_link_pending 1 l)) in
     do* olsr_update_hysteresis_hello p htime in
     upd_link p (fun l => set_olsr_seqno_valid false (set_olsr_seqno 0 (set_last_htime htime l)))) in
  do* upd_link p (set_L_link_quality (S754_zero false)) in
  do* when (lq_level >? 0)
    (do* upd_link p (set_loss_helloint htime) in
     do* olsr_set_link_loss_timer p (u32 (htime + htime / 2)) in
     set_loss_link_multiplier p) in
  upd_link p (set_linkcost LINK_COST_BROKEN).

(** "Neighbor MUST exist!" *)
Definition link_neighbor_entry (remote_main : ip_addr) : OM positive :=
  let* neighbor := olsr_lookup_neighbor_table remote_main in
  match neighbor with
  | Some n => ret n
  | None => olsr_insert_neighbor_table remote_main
  end.

Definition add_link_entry (local remote remote_main : ip_addr) (vtime htime : Z) (local_if : interface_olsr)
  : OM positive :=
  let* tmp_link_set := lookup_link_entry remote (Some remote_main) local_if in
  match tmp_link_set with
  | Some p => ret p
  | None =>
      let* p := gets (fun st => alloc (links st)) in
      do* modify (fun st => set_links (<[p := new_link_entry local remote local_if]> (links st)) st) in
      do* fill_link_entry p vtime htime in
      do* modify (fun st => set_link_entry_head (link_entry_head st ++ [p]) st) in
      let* neighbor := link_neighbor_entry remote_main in
      do* upd_nbr neighbor (fun n => set_linkcount (s32 (linkcount n + 1)) n) in
      do* upd_link p (set_link_neighbor neighbor) in
      ret p
  end.

(** The loop of [check_link_status]; it stops at a symmetric link. *)
Fixpoint hello_link_status (ret : Z) (neighbors : list hello_neighbor) (own : ip_addr) : Z :=
  match neighbors with
  | [] => ret
  | n :: neighbors =>
      if ipequal ip_version (hn_address n) own && negb (hn_link n =? UNSPEC_LINK) then
        if hn_link n =? SYM_LINK then SYM_LINK else hello_link_status (hn_link n) neighbors own
      else hello_link_status ret neighbors own
  end.

Definition check_link_status (message : hello_message) (in_if : interface_olsr) : Z :=
  hello_link_status UNSPEC_LINK (hello_neighbors message) (if_ip_addr in_if).

Definition update_link_entry (local remote : ip_addr) (message : hello_message) (in_if : interface_olsr)
  : OM positive :=
  let vtime := hello_vtime message in
  let* entry := add_link_entry local remote (hello_source_addr message) vtime (hello_htime message) in_if in
  let* now := gets now_times in
  let status := u8 (check_link_status message in_if) in
  do* upd_link entry (fun l =>
    set_prev_status status (set_ASYM_time (olsr_getTimestamp now vtime) (set_link_vtime vtime l))) in
  do* (if status =? LOST_LINK then upd_link entry (set_link_sym_timer None)
       else if (status =? SYM_LINK) || (status =? ASYM_LINK) then
         do* olsr_set_link_sym_timer entry vtime in
         olsr_set_link_timer entry (u32 (vtime + NEIGHB_HOLD_TIME * MSEC_PER_SEC))
       else ret tt) in
  let* l := get_link entry in
  do* when (match link_timer l with None => true | Some t => timer_clock t <? ASYM_time l end)
    (olsr_set_link_timer entry (u32 (olsr_getTimeDue now (ASYM_time l)))) in
  do* when use_hysteresis (let* _ := olsr_process_hysteresis entry in ret tt) in
  let* s := get_neighbor_status remote in
  let* _ := update_neighbor_status (link_neighbor l) s in
  ret entry.

Definition replace_neighbor_link_set (old new : positive) : OM Z :=
  let* head := OLSR_FOR_ALL_LINK_ENTRIES in
  foldM head 0 (fun retval link =>
    let* l := get_link link in
    if bool_decide (link_neighbor l = old) then
      do* upd_link link (set_link_neighbor new) in ret (retval + 1)
    else ret retval).

Definition olsr_update_packet_loss_hello_int (entry : positive) (loss_hello_int : Z) : OM unit :=
  upd_link entry (set_loss_helloint loss_hello_int).

Definition olsr_received_hello_handler (entry : positive) : OM unit :=
  do* olsr_update_packet_loss_worker entry false in
  let* l := get_link entry in
  olsr_set_link_loss_timer entry (u32 (loss_helloint l + loss_helloint l / 2)).

(** hysteresis.c *)
Definition update_hysteresis_incoming (remote : ip_addr) (local : interface_olsr) (seqno : Z) : OM unit :=
  let* lnk := lookup_link_entry remote None local in
  match lnk with
  | Some p => upd_link p (update_hysteresis_link seqno)
  | None => ret tt
  end.

End link_set.
