(* ===== verification/LsdbProofs.v ===== *)
(** * The invariant of the link state database *)

From S2P Require Import Prelude Timer Avl IpAddr KeyTree State LsdbOps Lq RouteTable TcSet.

(** ** A tree and the set of its entries *)
Section tree_ok.
Context {K T} {keq : K -> K -> Prop} {kt_wf : T -> Prop} `{!KeyTree K T, L : !KeyTreeLaws keq kt_wf}.

#[local] Existing Instance kt_keq.

(** The tree [t] holds exactly the nodes [p] with the key [k] such that [P p k]. *)
Record tree_ok (t : T) (P : positive -> K -> Prop) : Prop := {
  to_wf : kt_wf t;
  to_elem p k : (p, k) ∈ kt_walk t <-> P p k;
}.

Lemma tree_ok_ext t P P' : (forall p k, P' p k <-> P p k) -> tree_ok t P -> tree_ok t P'.
Proof. intros H [H1 H2]. split; [done|]. intros p k. by rewrite H2, H. Qed.

Lemma tree_ok_init P : (forall p k, ~ P p k) -> tree_ok kt_init P.
Proof.
  intros H. split; [apply (kt_wf_init (keq := keq))|]. intros p k.
  rewrite (kt_walk_init (keq := keq) (kt_wf := kt_wf)). split; [by intros ?%not_elem_of_nil|by intros ?%H].
Qed.

Lemma tree_find_Some t P k p : tree_ok t P -> kt_find t k = Some p <-> exists k', keq k' k /\ P p k'.
Proof. intros [H1 H2]. rewrite (kt_find_Some (keq := keq)) by done. by setoid_rewrite H2. Qed.

Lemma tree_find_is t P k p : tree_ok t P -> P p k -> kt_find t k = Some p.
Proof. intros Ht Hp. apply (tree_find_Some t P); [done|]. by exists k. Qed.

Lemma tree_find_None t P k : tree_ok t P -> kt_find t k = None <-> forall p k', P p k' -> ~ keq k' k.
Proof. intros [H1 H2]. rewrite (kt_find_None (keq := keq)) by done. by setoid_rewrite H2. Qed.

Lemma tree_key t P p k k' : tree_ok t P -> P p k -> P p k' -> k = k'.
Proof.
  intros [H1 H2] Hk Hk'. rewrite <- H2 in Hk, Hk'.
  pose proof (kt_wf_nodup (keq := keq) t H1) as Hnd.
  apply list_elem_of_lookup in Hk as [i Hi], Hk' as [j Hj].
  assert (i = j) as ->; [|congruence].
  apply (NoDup_lookup _ i j p Hnd); rewrite list_lookup_fmap; by rewrite ?Hi, ?Hj.
Qed.

Lemma tree_same t P p q k k' : tree_ok t P -> P p k -> P q k' -> keq k k' -> p = q.
Proof.
  intros [H1 H2] Hk Hk' He. rewrite <- H2 in Hk, Hk'. by eapply (kt_wf_keys (keq := keq)).
Qed.

Lemma tree_ptrs t P p : tree_ok t P -> p ∈ map fst (kt_walk t) <-> exists k, P p k.
Proof.
  intros [_ H2]. rewrite list_elem_of_fmap. split.
  - intros ([? k] & -> & H). exists k. by apply H2.
  - intros [k H]. exists (p, k). split; [done|]. by apply H2.
Qed.

Lemma tree_insert t P P' p k :
  tree_ok t P -> kt_find t k = None -> (forall k', ~ P p k') ->
  (forall q k', P' q k' <-> (q = p /\ k' = k) \/ P q k') ->
  tree_ok (kt_insert t p k) P' /\ length (kt_walk (kt_insert t p k)) = S (length (kt_walk t)).
Proof.
  intros [H1 H2] Hf Hp HP. destruct (kt_insert_wf t p k H1 Hf) as [Hwf Hw].
  { rewrite (tree_ptrs t P) by done. intros [k' H]. by apply (Hp k'). }
  split; [|by rewrite Hw]. split; [done|]. intros q k'. rewrite Hw, elem_of_cons, HP, H2.
  split; (intros [H|H]; [left|by right]); [by injection H as -> ->|by destruct H as [-> ->]].
Qed.

Lemma tree_delete t P P' p k :
  tree_ok t P -> P p k -> (forall q k', P' q k' <-> P q k' /\ q <> p) ->
  tree_ok (kt_delete t p k) P' /\ length (kt_walk t) = S (length (kt_walk (kt_delete t p k))).
Proof.
  intros Ht Hp HP. pose proof Ht as [H1 H2]. destruct (kt_delete_wf t p k H1) as [Hwf Hw]; [by apply H2|].
  split; [|by rewrite Hw at 1]. split; [done|]. intros q k'. rewrite HP, <- H2, Hw, elem_of_cons.
  pose proof (kt_wf_nodup (keq := keq) t H1) as Hnd. rewrite Hw in Hnd. simpl in Hnd.
  apply NoDup_cons in Hnd as [Hn _]. split.
  - intros H. split; [by right|]. intros ->. apply Hn. by apply (list_elem_of_fmap_2 fst) in H.
  - intros [[[= -> ->]|H] Hne]; done.
Qed.

Lemma tree_nodup t P : tree_ok t P -> NoDup (map fst (kt_walk t)).
Proof. intros [H1 _]. by apply (kt_wf_nodup (keq := keq)). Qed.

Lemma tree_empty t P : tree_ok t P -> (forall p k, ~ P p k) -> kt_walk t = [].
Proof.
  intros [_ H] HP. destruct (kt_walk t) as [|[p k] l] eqn:E; [done|]. destruct (HP p k). apply H.
  rewrite ?E. left.
Qed.

End tree_ok.

Section lsdb_wf.
Context {cnf : olsrd_config} {lqh : lq_handler}.

Definition aeq : ip_addr -> ip_addr -> Prop := comp_eq (avl_comp_default ip_version).
Definition peq : olsr_ip_prefix -> olsr_ip_prefix -> Prop := comp_eq (avl_comp_prefix_default ip_version).
Definition awf : avl_tree ip_addr -> Prop := unique_wf (avl_comp_default ip_version).
Definition pwf : avl_tree olsr_ip_prefix -> Prop := unique_wf (avl_comp_prefix_default ip_version).

#[export] Instance addr_tree_laws : KeyTreeLaws (KeyTree0 := addr_tree) aeq awf := ip_key_tree_laws ip_version.
#[export] Instance pfx_tree_laws : KeyTreeLaws (KeyTree0 := pfx_tree) peq pwf := prefix_key_tree_laws ip_version.

#[export] Instance aeq_equiv : Equivalence aeq := kt_keq.
#[export] Instance peq_equiv : Equivalence peq := kt_keq.

(** ** What the trees hold *)

Definition vertex (d : lsdb) (p : positive) (a : ip_addr) : Prop :=
  exists t, tcs d !! p = Some t /\ tc_addr t = a.
Definition edge_of (d : lsdb) (tc e : positive) (a : ip_addr) : Prop :=
  exists x, edges d !! e = Some x /\ edge_tc x = tc /\ T_dest_addr x = a.
Definition path_of (d : lsdb) (tc p : positive) (k : olsr_ip_prefix) : Prop :=
  exists x, rtps d !! p = Some x /\ rtp_tc x = Some tc /\ rtp_dst x = k.
Definition route (d : lsdb) (r : positive) (k : olsr_ip_prefix) : Prop :=
  exists y, rts d !! r = Some y /\ rt_dst y = k.
Definition route_path (d : lsdb) (r p : positive) (a : ip_addr) : Prop :=
  exists x, rtps d !! p = Some x /\ rtp_rt x = Some r /\ rtp_originator x = a.

(** Edges in opposite directions between the same two vertices. *)
Definition opposite (d : lsdb) (e f : positive) : Prop :=
  exists x y s t, edges d !! e = Some x /\ edges d !! f = Some y /\
    tcs d !! edge_tc x = Some s /\ tcs d !! edge_tc y = Some t /\
    aeq (T_dest_addr x) (tc_addr t) /\ aeq (T_dest_addr y) (tc_addr s).
Definition inverse (d : lsdb) (e f : positive) : Prop :=
  exists x, edges d !! e = Some x /\ edge_inv x = Some f.

(** The part of the database that only the route processing touches. *)
Definition kernel_state (d : lsdb) : list (kernel_op * Z) * list positive := (kernel_log d, chg_kernel_list d).

Definition degree (t : tc_entry) : Z :=
  Z.of_nat (length (kt_walk (edge_tree t))) + Z.of_nat (length (kt_walk (prefix_tree t))).

Record lsdb_wf (d : lsdb) : Prop := {
  dw_tcs : tree_ok (kt_wf := awf) (tc_tree d) (vertex d);
  dw_edges p t : tcs d !! p = Some t -> tree_ok (kt_wf := awf) (edge_tree t) (edge_of d p);
  dw_paths p t : tcs d !! p = Some t -> tree_ok (kt_wf := pwf) (prefix_tree t) (path_of d p);
  dw_refs p t : tcs d !! p = Some t -> refcount t = 1 + degree t /\ 1 + degree t < 4294967296;
  dw_edge_tc e x : edges d !! e = Some x -> is_Some (tcs d !! edge_tc x);
  dw_inv e f : inverse d e f <-> opposite d e f;
  dw_path_tc p x : rtps d !! p = Some x -> exists tc t, rtp_tc x = Some tc /\ tcs d !! tc = Some t /\
    (rtp_rt x <> None -> rtp_originator x = tc_addr t);
  dw_rts : tree_ok (kt_wf := pwf) (routingtree d) (route d);
  dw_rt_paths r y : rts d !! r = Some y -> tree_ok (kt_wf := awf) (rt_path_tree y) (route_path d r);
  dw_rt p x r : rtps d !! p = Some x -> rtp_rt x = Some r ->
    exists y, rts d !! r = Some y /\ peq (rtp_dst x) (rt_dst y);
  dw_best r y p : rts d !! r = Some y -> rt_best y = Some p -> exists a, route_path d r p a;
  dw_inetgw p : current_inetgw d = Some p -> is_Some (rtps d !! p);
}.

(** ** Access to allocated objects *)

Lemma wp_get_tc p x (Q : tc_entry -> olsr_state -> Prop) st : tcs (db st) !! p = Some x -> Q x st -> wp (get_tc p) Q st.
Proof. intros H1 H2. by eapply (wp_gets_opt (fun st => tcs (db st) !! p)). Qed.
Lemma wp_get_edge p x (Q : tc_edge_entry -> olsr_state -> Prop) st : edges (db st) !! p = Some x -> Q x st -> wp (get_edge p) Q st.
Proof. intros H1 H2. by eapply (wp_gets_opt (fun st => edges (db st) !! p)). Qed.
Lemma wp_get_rtp p x (Q : rt_path -> olsr_state -> Prop) st : rtps (db st) !! p = Some x -> Q x st -> wp (get_rtp p) Q st.
Proof. intros H1 H2. by eapply (wp_gets_opt (fun st => rtps (db st) !! p)). Qed.
Lemma wp_get_rt p x (Q : rt_entry -> olsr_state -> Prop) st : rts (db st) !! p = Some x -> Q x st -> wp (get_rt p) Q st.
Proof. intros H1 H2. by eapply (wp_gets_opt (fun st => rts (db st) !! p)). Qed.

Lemma wp_upd_db f (Q : unit -> olsr_state -> Prop) st : Q tt (set_db (f (db st)) st) -> wp (upd_db f) Q st.
Proof. intros H. unfold upd_db. by wp_steps. Qed.

Lemma wp_upd_tc p f x (Q : unit -> olsr_state -> Prop) st :
  tcs (db st) !! p = Some x -> Q tt (set_db (set_tcs (<[p := f x]> (tcs (db st))) (db st)) st) -> wp (upd_tc p f) Q st.
Proof. intros H1 H2. unfold upd_tc. wp_step. eapply wp_get_tc; [exact H1|]. by apply wp_upd_db. Qed.
Lemma wp_upd_edge p f x (Q : unit -> olsr_state -> Prop) st :
  edges (db st) !! p = Some x -> Q tt (set_db (set_edges (<[p := f x]> (edges (db st))) (db st)) st) -> wp (upd_edge p f) Q st.
Proof. intros H1 H2. unfold upd_edge. wp_step. eapply wp_get_edge; [exact H1|]. by apply wp_upd_db. Qed.
Lemma wp_upd_rtp p f x (Q : unit -> olsr_state -> Prop) st :
  rtps (db st) !! p = Some x -> Q tt (set_db (set_rtps (<[p := f x]> (rtps (db st))) (db st)) st) -> wp (upd_rtp p f) Q st.
Proof. intros H1 H2. unfold upd_rtp. wp_step. eapply wp_get_rtp; [exact H1|]. by apply wp_upd_db. Qed.
Lemma wp_upd_rt p f x (Q : unit -> olsr_state -> Prop) st :
  rts (db st) !! p = Some x -> Q tt (set_db (set_rts (<[p := f x]> (rts (db st))) (db st)) st) -> wp (upd_rt p f) Q st.
Proof. intros H1 H2. unfold upd_rt. wp_step. eapply wp_get_rt; [exact H1|]. by apply wp_upd_db. Qed.

Lemma wp_free_edge p x (Q : unit -> olsr_state -> Prop) st :
  edges (db st) !! p = Some x -> Q tt (set_db (set_edges (delete p (edges (db st))) (db st)) st) -> wp (free_edge p) Q st.
Proof. intros H1 H2. unfold free_edge. wp_step. eapply wp_get_edge; [exact H1|]. by apply wp_upd_db. Qed.
Lemma wp_free_rtp p x (Q : unit -> olsr_state -> Prop) st :
  rtps (db st) !! p = Some x -> Q tt (set_db (set_rtps (delete p (rtps (db st))) (db st)) st) -> wp (free_rtp p) Q st.
Proof. intros H1 H2. unfold free_rtp. wp_step. eapply wp_get_rtp; [exact H1|]. by apply wp_upd_db. Qed.

(** ** Reference counts *)

Lemma wp_lock p x (Q : unit -> olsr_state -> Prop) st :
  tcs (db st) !! p = Some x -> 0 <= refcount x -> refcount x + 1 < 4294967296 ->
  Q tt (set_db (set_tcs (<[p := set_refcount (refcount x + 1) x]> (tcs (db st))) (db st)) st) ->
  wp (olsr_lock_tc_entry p) Q st.
Proof.
  intros Hp H0 H1 HQ. eapply wp_upd_tc; [exact Hp|]. rewrite u32_id by (unfold is_u32; lia). exact HQ.
Qed.

Lemma wp_unlock p x (Q : unit -> olsr_state -> Prop) st :
  tcs (db st) !! p = Some x -> 1 < refcount x < 4294967296 ->
  Q tt (set_db (set_tcs (<[p := set_refcount (refcount x - 1) x]> (tcs (db st))) (db st)) st) ->
  wp (olsr_unlock_tc_entry p) Q st.
Proof.
  intros Hp Hr HQ. unfold olsr_unlock_tc_entry. wp_step. eapply wp_upd_tc; [exact Hp|].
  wp_step. eapply wp_get_tc; [apply lookup_insert_eq|]. simpl. rewrite u32_id by (unfold is_u32; lia).
  destruct (refcount x - 1 =? 0) eqn:E; bool_hyps; [lia|]. by apply wp_ret.
Qed.

Lemma wp_unlock_last p x (Q : unit -> olsr_state -> Prop) st :
  tcs (db st) !! p = Some x -> refcount x = 1 ->
  Q tt (set_db (set_tcs (delete p (tcs (db st))) (db st)) st) -> wp (olsr_unlock_tc_entry p) Q st.
Proof.
  intros Hp Hr HQ. unfold olsr_unlock_tc_entry. wp_step. eapply wp_upd_tc; [exact Hp|].
  wp_step. eapply wp_get_tc; [apply lookup_insert_eq|]. simpl. rewrite Hr. simpl.
  unfold free_tc. wp_step. eapply wp_get_tc; [apply lookup_insert_eq|]. apply wp_upd_db. simpl.
  rewrite delete_insert_eq. exact HQ.
Qed.

(** ** What the operations on the database leave alone *)

Definition db_strip (st : olsr_state) : olsr_state :=
  set_db empty_lsdb (set_changes_hna false (set_changes_topology false st)).
Definition db_frame (st st' : olsr_state) : Prop := db_strip st' = db_strip st.

#[export] Instance db_frame_equiv : Equivalence db_frame.
Proof. unfold db_frame. split; [by intros ?|by intros ? ?|by intros ? ? ? -> ->]. Qed.

Lemma db_frame_set d st : db_frame st (set_db d st).
Proof. done. Qed.

(** ** Changes to edges *)

Lemma opposite_sym d e f : opposite d e f -> opposite d f e.
Proof. intros (x & y & s & t & ? & ? & ? & ? & ? & ?). by exists y, x, t, s. Qed.

Definition tc_static (t : tc_entry) : ip_addr * avl_tree olsr_ip_prefix := (tc_addr t, prefix_tree t).

Lemma static_lookup {d d' p t'} :
  tc_static <$> tcs d' = tc_static <$> tcs d -> tcs d' !! p = Some t' ->
  exists t, tcs d !! p = Some t /\ tc_addr t' = tc_addr t /\ prefix_tree t' = prefix_tree t.
Proof.
  intros E Hp. apply (f_equal (lookup p)) in E. rewrite !lookup_fmap, Hp in E.
  destruct (tcs d !! p) as [t|]; [|done]. injection E as E1 E2. by exists t.
Qed.

(** The edges, the edge trees and the counts may change; the rest stays. *)
Lemma edges_change_wf d d' :
  lsdb_wf d -> tc_static <$> tcs d' = tc_static <$> tcs d ->
  rtps d' = rtps d -> rts d' = rts d -> tc_tree d' = tc_tree d -> routingtree d' = routingtree d ->
  current_inetgw d' = current_inetgw d ->
  (forall p t, tcs d' !! p = Some t -> tree_ok (kt_wf := awf) (edge_tree t) (edge_of d' p)) ->
  (forall p t, tcs d' !! p = Some t -> refcount t = 1 + degree t /\ 1 + degree t < 4294967296) ->
  (forall e x, edges d' !! e = Some x -> is_Some (tcs d' !! edge_tc x)) ->
  (forall e f, inverse d' e f <-> opposite d' e f) ->
  lsdb_wf d'.
Proof.
  intros [W1 W2 W3 W4 W5 W6 W7 W8 W9 W10 W11 W12] Hs E1 E2 E3 E4 E5 H1 H2 H3 H4.
  split; try done; unfold path_of, route, route_path in *; rewrite ?E1, ?E2, ?E3, ?E4, ?E5; try done.
  - eapply tree_ok_ext; [|exact W1]. intros p a. unfold vertex. split.
    + intros (t' & Hp & <-). destruct (static_lookup Hs Hp) as (t & ? & E & _). by exists t.
    + intros (t & Hp & <-). destruct (static_lookup (eq_sym Hs) Hp) as (t' & ? & E & _). by exists t'.
  - intros p t' Hp. destruct (static_lookup Hs Hp) as (t & Ht & _ & ->). by eapply W3.
  - intros p x Hp. destruct (W7 p x Hp) as (tc & t & Htc & Ht & Ho). exists tc.
    destruct (static_lookup (eq_sym Hs) Ht) as (t' & Ht' & E & _). exists t'. by rewrite <- E.
Qed.

(** *** Deletion *)

(** An edge that is the inverse of the deleted one loses its pointer. *)
Definition clear_inv (inv : option positive) (g : positive) (y : tc_edge_entry) : tc_edge_entry :=
  if decide (inv = Some g) then set_edge_inv None y else y.

Lemma clear_inv_tc inv g y : edge_tc (clear_inv inv g y) = edge_tc y.
Proof. unfold clear_inv. by destruct (decide _). Qed.
Lemma clear_inv_dest inv g y : T_dest_addr (clear_inv inv g y) = T_dest_addr y.
Proof. unfold clear_inv. by destruct (decide _). Qed.

Lemma delete_edge_wf d d' e x t :
  lsdb_wf d -> edges d !! e = Some x -> tcs d !! edge_tc x = Some t ->
  tcs d' = <[edge_tc x := set_refcount (refcount t - 1)
              (set_edge_tree (kt_delete (edge_tree t) e (T_dest_addr x)) t)]> (tcs d) ->
  edges d' = delete e (match edge_inv x with Some f => alter (set_edge_inv None) f (edges d) | None => edges d end) ->
  rtps d' = rtps d -> rts d' = rts d -> tc_tree d' = tc_tree d -> routingtree d' = routingtree d ->
  current_inetgw d' = current_inetgw d -> lsdb_wf d'.
Proof.
  intros Hwf Hx Ht Etc Ee E1 E2 E3 E4 E5.
  assert (forall g y', edges d' !! g = Some y' <-> g <> e /\ exists y, edges d !! g = Some y /\
    y' = clear_inv (edge_inv x) g y) as Hed.
  { intros g y'. rewrite Ee, lookup_delete_Some. assert (e <> g <-> g <> e) as -> by done. unfold clear_inv. apply and_iff_compat_l.
    destruct (edge_inv x) as [f|].
    - destruct (decide (g = f)) as [->|Hn].
      + rewrite lookup_alter_eq, fmap_Some. by destruct (decide _).
      + rewrite lookup_alter_ne by done. destruct (decide (Some f = Some g)); [congruence|].
        split; [by exists y'|by intros (y & ? & ->)].
    - destruct (decide (None = Some g)); [done|]. split; [by exists y'|by intros (y & ? & ->)]. }
  assert (tc_static <$> tcs d' = tc_static <$> tcs d) as Hs.
  { rewrite Etc, fmap_insert. apply insert_id. by rewrite lookup_fmap, Ht. }
  assert (forall p g a, edge_of d' p g a <-> edge_of d p g a /\ g <> e) as Heo.
  { intros p g a. unfold edge_of. split.
    - intros (y' & Hy' & Hp & Ha). apply Hed in Hy' as (Hn & y & Hy & ->). split; [|done].
      rewrite clear_inv_tc in Hp. rewrite clear_inv_dest in Ha. by exists y.
    - intros ((y & Hy & Hp & Ha) & Hn). eexists. rewrite Hed. split; [by eauto|]. by rewrite clear_inv_tc, clear_inv_dest. }
  destruct (tree_delete (edge_tree t) (edge_of d (edge_tc x)) (edge_of d' (edge_tc x)) e (T_dest_addr x)) as [Htree Hlen].
  { by eapply dw_edges. } { by exists x. } { apply Heo. }
  apply (edges_change_wf d); try done.
  - intros p t'. rewrite Etc. intros [[<- <-]|[Hne Hp]]%lookup_insert_Some; [done|].
    eapply tree_ok_ext; [|by eapply dw_edges]. intros g a. rewrite Heo. split; [by intros [? _]|].
    intros Hg. split; [done|]. intros ->. destruct Hg as (y & Hy & Hp' & _). congruence.
  - intros p t'. rewrite Etc. intros [[<- <-]|[Hne Hp]]%lookup_insert_Some; [|by eapply dw_refs].
    destruct (dw_refs _ Hwf _ _ Ht) as [Hr1 Hr2]. unfold degree in *. simpl in *. lia.
  - intros g y' Hy'. apply Hed in Hy' as (_ & y & Hy & ->).
    destruct (dw_edge_tc _ Hwf _ _ Hy) as [t0 Ht0]. destruct (static_lookup (eq_sym Hs) Ht0) as (t' & Ht' & _).
    exists t'. by rewrite clear_inv_tc.
  - assert (forall g h, opposite d' g h <-> opposite d g h /\ g <> e /\ h <> e) as Hop.
    { intros g h. unfold opposite. split.
      - intros (a & b & s & r & Ha & Hb & Hs1 & Hs2 & Hk1 & Hk2).
        apply Hed in Ha as (Hn1 & a0 & Ha & ->), Hb as (Hn2 & b0 & Hb & ->). split; [|done].
        rewrite clear_inv_tc in Hs1, Hs2. rewrite clear_inv_dest in Hk1, Hk2.
        destruct (static_lookup Hs Hs1) as (s0 & Hs0 & Es & _), (static_lookup Hs Hs2) as (r0 & Hr0 & Er & _).
        rewrite Er in Hk1. rewrite Es in Hk2. by exists a0, b0, s0, r0.
      - intros ((a & b & s & r & Ha & Hb & Hs1 & Hs2 & Hk1 & Hk2) & Hn1 & Hn2).
        destruct (static_lookup (eq_sym Hs) Hs1) as (s0 & Hs0 & E & _), (static_lookup (eq_sym Hs) Hs2) as (r0 & Hr0 & E' & _).
        exists (clear_inv (edge_inv x) g a), (clear_inv (edge_inv x) h b), s0, r0.
        rewrite !clear_inv_tc, !clear_inv_dest, <- E, <- E'. split_and!; try done; apply Hed; eauto. }
    assert (forall g, inverse d g e -> edge_inv x = Some g) as Hback.
    { intros g Hg. apply (dw_inv _ Hwf) in Hg. apply opposite_sym, (dw_inv _ Hwf) in Hg as (x' & Hx' & ?). congruence. }
    intros g h. rewrite Hop, <- (dw_inv _ Hwf). unfold inverse. split.
    + intros (y' & Hy' & Hi). apply Hed in Hy' as (Hn & y & Hy & ->).
      unfold clear_inv in Hi. destruct (decide (edge_inv x = Some g)) as [|Hd]; [done|].
      split; [by exists y|]. split; [done|]. intros ->. apply Hd, Hback. by exists y.
    + intros ((y & Hy & Hi) & Hn1 & Hn2). eexists. rewrite Hed. split; [by eauto|]. unfold clear_inv. rewrite decide_False; [done|].
      intros Hg. assert (inverse d e g) as Hinv by (by exists x). apply (dw_inv _ Hwf), opposite_sym, (dw_inv _ Hwf) in Hinv as (y2 & ? & ?).
      congruence.
Qed.

(** [d'] is [d] without the edges [D]: vertices keep everything but their edge
    trees and counts, other edges everything but the pointer to a deleted inverse. *)
Definition tc_rest (t : tc_entry) : tc_entry := set_refcount 0 (set_edge_tree avl_init t).

Record edges_removed (D : gset positive) (d d' : lsdb) : Prop := {
  er_wf : lsdb_wf d';
  er_tcs : tc_rest <$> tcs d' = tc_rest <$> tcs d;
  er_dom : dom (edges d') = dom (edges d) ∖ D;
  er_edges g y' : edges d' !! g = Some y' ->
    exists y, edges d !! g = Some y /\ set_edge_inv None y' = set_edge_inv None y;
  er_rtps : rtps d' = rtps d;
  er_rts : rts d' = rts d;
  er_tc_tree : tc_tree d' = tc_tree d;
  er_tc_myself : tc_myself d' = tc_myself d;
  er_routingtree : routingtree d' = routingtree d;
  er_version : routingtree_version d' = routingtree_version d;
  er_inetgw : current_inetgw d' = current_inetgw d;
  er_kernel : kernel_state d' = kernel_state d;
}.

Lemma edges_removed_refl d : lsdb_wf d -> edges_removed ∅ d d.
Proof. intros Hwf. split; try done; [by rewrite difference_empty_L|eauto]. Qed.

Lemma edges_removed_trans D1 D2 d1 d2 d3 :
  edges_removed D1 d1 d2 -> edges_removed D2 d2 d3 -> edges_removed (D1 ∪ D2) d1 d3.
Proof.
  intros [A1 A2 A3 A4 A5 A6 A7 A8 A9 A10 A11 A12] [B1 B2 B3 B4 B5 B6 B7 B8 B9 B10 B11 B12].
  split; try congruence; [rewrite B3, A3; set_solver|].
  intros g y3 (y2 & H2 & E2)%B4. apply A4 in H2 as (y1 & H1 & E1). exists y1. split; congruence.
Qed.

Lemma rest_lookup {d d' p t'} :
  tc_rest <$> tcs d' = tc_rest <$> tcs d -> tcs d' !! p = Some t' ->
  exists t, tcs d !! p = Some t /\ tc_rest t' = tc_rest t.
Proof.
  intros E Hp. apply (f_equal (lookup p)) in E. rewrite !lookup_fmap, Hp in E.
  destruct (tcs d !! p) as [t|]; [|done]. simpl in E. apply (inj Some) in E. by exists t.
Qed.

Lemma alter_insert_same {A} (f : A -> A) p x (m : gmap positive A) : m !! p = Some x -> alter f p m = <[p := f x]> m.
Proof.
  intros Hp. apply map_eq. intros q. destruct (decide (q = p)) as [->|Hn].
  - by rewrite lookup_alter_eq, Hp, lookup_insert_eq.
  - by rewrite lookup_alter_ne, lookup_insert_ne.
Qed.

Lemma wp_clear_inverse inv (Q : unit -> olsr_state -> Prop) st :
  (forall f, inv = Some f -> is_Some (edges (db st) !! f)) ->
  Q tt (set_db (set_edges (match inv with Some f => alter (set_edge_inv None) f (edges (db st)) | None => edges (db st) end) (db st)) st) ->
  wp (match inv with Some f => upd_edge f (set_edge_inv None) | None => ret tt end) Q st.
Proof.
  intros Hf HQ. destruct inv as [f|].
  - destruct (Hf f eq_refl) as [y Hy]. eapply wp_upd_edge; [exact Hy|].
    by rewrite <- (alter_insert_same (set_edge_inv None)).
  - apply wp_ret. assert (set_db (set_edges (edges (db st)) (db st)) st = st) as <-; [|done].
    destruct_state st. reflexivity.
Qed.

Lemma wp_delete_edge e x st :
  lsdb_wf (db st) -> edges (db st) !! e = Some x ->
  wp (olsr_delete_tc_edge_entry e) (fun _ st' => edges_removed {[e]} (db st) (db st') /\ st' = set_db (db st') st) st.
Proof.
  intros Hwf Hx. destruct (dw_edge_tc _ Hwf _ _ Hx) as [t Ht].
  destruct (dw_refs _ Hwf _ _ Ht) as [Hr1 Hr2].
  destruct (tree_delete (edge_tree t) (edge_of (db st) (edge_tc x))
    (fun g a => edge_of (db st) (edge_tc x) g a /\ g <> e) e (T_dest_addr x)) as [_ Hlen]; try done.
  { by eapply dw_edges. } { by exists x. }
  assert (forall f, edge_inv x = Some f -> is_Some (edges (db st) !! f)) as Hinv.
  { intros f Ef. assert (inverse (db st) e f) as (y & y' & _ & _ & _ & Hy & _)%(dw_inv _ Hwf) by (by exists x). by eexists. }
  unfold olsr_delete_tc_edge_entry. wp_step. eapply wp_get_edge; [exact Hx|].
  wp_step. eapply wp_upd_tc; [exact Ht|].
  wp_step. eapply wp_unlock; [apply lookup_insert_eq|unfold degree in *; simpl; lia|]. simpl. rewrite insert_insert_eq.
  wp_step. apply wp_clear_inverse; [exact Hinv|]. simpl.
  set (m := match edge_inv x with Some f => alter (set_edge_inv None) f (edges (db st)) | None => edges (db st) end).
  assert (exists x', m !! e = Some x') as [x' Hx'].
  { unfold m. destruct (edge_inv x) as [f|]; [|by eexists]. destruct (decide (e = f)) as [->|Hn].
    - rewrite lookup_alter_eq, Hx. by eexists.
    - rewrite lookup_alter_ne by done. by eexists. }
  eapply wp_free_edge; [exact Hx'|]. simpl. split; [|done].
  assert (dom m = dom (edges (db st))) as Hdom. { unfold m. by destruct (edge_inv x); rewrite ?dom_alter_L. }
  split; try done.
  - by eapply (delete_edge_wf (db st)).
  - simpl. rewrite fmap_insert. apply insert_id. by rewrite lookup_fmap, Ht.
  - simpl. by rewrite dom_delete_L, Hdom.
  - simpl. intros g y'. rewrite lookup_delete_Some. unfold m. intros [_ Hg]. destruct (edge_inv x) as [f|]; [|by eauto].
    destruct (decide (g = f)) as [->|Hn]; [|rewrite lookup_alter_ne in Hg by done; by eauto].
    rewrite lookup_alter_eq, fmap_Some in Hg. destruct Hg as (y & Hy & ->). by exists y.
Qed.

Lemma er_lookup D d d' e x :
  edges_removed D d d' -> edges d !! e = Some x -> e ∉ D ->
  exists x', edges d' !! e = Some x' /\ set_edge_inv None x' = set_edge_inv None x.
Proof.
  intros Hr Hx He. assert (e ∈ dom (edges d')) as [x' Hx']%elem_of_dom.
  { rewrite (er_dom _ _ _ Hr), elem_of_difference. split; [|done]. apply elem_of_dom. by eexists. }
  exists x'. split; [done|]. destruct (er_edges _ _ _ Hr _ _ Hx') as (y & Hy & E). congruence.
Qed.

Lemma edge_static_fields x x' : set_edge_inv None x' = set_edge_inv None x ->
  T_dest_addr x' = T_dest_addr x /\ edge_tc x' = edge_tc x /\ edge_ansn x' = edge_ansn x.
Proof. by intros [=]. Qed.

(** The edges of a vertex, in the order of the tree. *)
Lemma edge_list d tc t : lsdb_wf d -> tcs d !! tc = Some t ->
  NoDup (map fst (kt_walk (edge_tree t))) /\
  (forall e, e ∈ map fst (kt_walk (edge_tree t)) <-> exists x, edges d !! e = Some x /\ edge_tc x = tc).
Proof.
  intros Hwf Ht. pose proof (dw_edges _ Hwf _ _ Ht) as Hok. split; [by eapply tree_nodup|].
  intros e. rewrite (tree_ptrs (kt_wf := awf) _ _ e Hok). unfold edge_of. naive_solver.
Qed.

(** The edges among [es] whose sequence number is older than [ansn]. *)
Definition outdated (d : lsdb) (ansn : Z) (e : positive) : bool :=
  match edges d !! e with Some x => SEQNO_GREATER_THAN ansn (edge_ansn x) | None => false end.
Definition outdated_set (d : lsdb) (ansn : Z) (es : list positive) : gset positive :=
  list_to_set (filter (fun e => outdated d ansn e = true) es).

Lemma elem_of_outdated d ansn es e : e ∈ outdated_set d ansn es <-> outdated d ansn e = true /\ e ∈ es.
Proof. unfold outdated_set. by rewrite elem_of_list_to_set, list_elem_of_filter. Qed.

(** A loop over edges has dealt with all but [rest]. *)
Record removing (st : olsr_state) (X : gset positive) (rest : list positive) (st' : olsr_state) : Prop := {
  rm_removed : edges_removed (X ∖ list_to_set rest) (db st) (db st');
  rm_state : st' = set_db (db st') st;
  rm_nodup : NoDup rest;
}.

Lemma removing_init st X rest : lsdb_wf (db st) -> NoDup rest -> (forall e, e ∈ X -> e ∈ rest) -> removing st X rest st.
Proof.
  intros Hwf Hnd HX. split; [|by destruct st|done].
  assert (X ∖ list_to_set rest = ∅) as -> by set_solver. by apply edges_removed_refl.
Qed.

Lemma removing_skip st X e rest st' : e ∉ X -> removing st X (e :: rest) st' -> removing st X rest st'.
Proof.
  intros He [H1 H2 [_ H3]%NoDup_cons]. split; [|done|done].
  by assert (X ∖ list_to_set rest = X ∖ list_to_set (e :: rest)) as -> by set_solver.
Qed.

Lemma removing_delete st X e rest st' st2 :
  e ∈ X -> removing st X (e :: rest) st' -> edges_removed {[e]} (db st') (db st2) -> st2 = set_db (db st2) st' ->
  removing st X rest st2.
Proof.
  intros He [H1 H2 [Hn H3]%NoDup_cons] Hr Hs. split; [|by rewrite Hs, H2|done].
  assert (X ∖ list_to_set rest = (X ∖ list_to_set (e :: rest)) ∪ {[e]}) as ->.
  { apply set_eq. intros g. destruct (decide (g = e)) as [->|]; set_solver. }
  by eapply edges_removed_trans.
Qed.

Lemma removing_lookup st X e rest st' x :
  removing st X (e :: rest) st' -> edges (db st) !! e = Some x ->
  exists x', edges (db st') !! e = Some x' /\ T_dest_addr x' = T_dest_addr x /\ edge_tc x' = edge_tc x /\
    edge_ansn x' = edge_ansn x.
Proof.
  intros H Hx. destruct (er_lookup _ _ _ _ _ (rm_removed _ _ _ _ H) Hx) as (x' & Hx' & E); [set_solver|].
  exists x'. split; [done|]. by apply edge_static_fields.
Qed.

(** *** olsr_delete_outdated_tc_edges *)

Lemma wp_delete_outdated tc t st :
  lsdb_wf (db st) -> tcs (db st) !! tc = Some t ->
  wp (olsr_delete_outdated_tc_edges tc) (fun r st' =>
    let X := outdated_set (db st) (tc_ansn t) (map fst (kt_walk (edge_tree t))) in
    edges_removed X (db st) (db st') /\ st' = set_db (db st') st /\ (r = true <-> X <> ∅)) st.
Proof.
  intros Hwf Ht. destruct (edge_list _ _ _ Hwf Ht) as [Hnd Hin].
  unfold olsr_delete_outdated_tc_edges, OLSR_FOR_ALL_TC_EDGE_ENTRIES. wp_step. wp_step.
  eapply wp_get_tc; [exact Ht|]. wp_step. revert Hnd Hin. generalize (map fst (kt_walk (edge_tree t))) as es. intros es Hnd Hin.
  set (X := outdated_set _ _ es).
  apply (wp_foldM _ _ _ (fun rest r st' => removing st X rest st' /\ (forall e, e ∈ rest -> e ∈ es) /\
    (r = true <-> exists e, e ∈ X /\ e ∉ rest))).
  - split; [apply removing_init; try done; by intros e [_ ?]%elem_of_outdated|]. split; [done|].
    split; [done|]. intros (e & [_ ?]%elem_of_outdated & ?). done.
  - intros e rest r st' (Hrm & Hrest & Hret).
    assert (forall g, g ∈ rest -> g ∈ es) as Hrest' by (intros g Hg; apply Hrest; by right).
    assert (e ∈ es) as He by (apply Hrest; left). apply Hin in He as (x & Hx & Htc).
    destruct (removing_lookup _ _ _ _ _ _ Hrm Hx) as (x' & Hx' & _ & Etc & Eansn).
    destruct (rest_lookup (eq_sym (er_tcs _ _ _ (rm_removed _ _ _ _ Hrm))) Ht) as (t' & Ht' & Et).
    assert (tc_ansn t' = tc_ansn t) as Ean by (by injection Et).
    assert (e ∈ X <-> SEQNO_GREATER_THAN (tc_ansn t) (edge_ansn x) = true) as HX.
    { unfold X. rewrite elem_of_outdated. unfold outdated. rewrite Hx. split; [by intros [? _]|]. intros. split; [done|].
      apply Hrest. left. }
    assert (e ∉ rest) as Hne by (by pose proof (rm_nodup _ _ _ _ Hrm) as [? _]%NoDup_cons).
    wp_step. eapply wp_get_tc; [exact Ht'|]. wp_step. eapply wp_get_edge; [exact Hx'|].
    rewrite Ean, Eansn. destruct (SEQNO_GREATER_THAN _ _).
    + wp_step. eapply wp_mono; [apply (wp_delete_edge e x'); [apply Hrm|done]|].
      intros _u st2 [Hr2 Hst2]. apply wp_ret. split; [|split; [done|]].
      * eapply removing_delete; try done. by apply HX.
      * split; [|done]. intros _. exists e. split; [by apply HX|done].
    + apply wp_ret. assert (e ∉ X) as HeX by (by rewrite HX). split; [by eapply removing_skip|]. split; [done|].
      rewrite Hret. setoid_rewrite not_elem_of_cons. split; intros (g & Hg & Hn).
      * exists g. by destruct Hn.
      * exists g. split; [done|]. split; [|done]. by intros ->.
  - intros r st' (Hrm & _ & Hret). split; [|split; [apply Hrm|]].
    + pose proof (rm_removed _ _ _ _ Hrm) as H. simpl in H. by rewrite difference_empty_L in H.
    + rewrite Hret. split.
      * intros (e & He & _) E. rewrite E in He. set_solver.
      * intros He. destruct (set_choose_or_empty X) as [[e H]|H]; [|by apply leibniz_equiv in H].
        exists e. split; [done|]. apply not_elem_of_nil.
Qed.

(** *** olsr_delete_revoked_tc_edges *)

Definition dest_of (d : lsdb) (e : positive) : ip_addr := default 0 (T_dest_addr <$> edges d !! e).
Definition cmp_default : ip_addr -> ip_addr -> Z := avl_comp_default ip_version.

(** Between the borders: the lower one included, the upper one excluded. *)
Definition in_borders (d : lsdb) (lower upper : ip_addr) (e : positive) : bool :=
  (cmp_default lower (dest_of d e) <=? 0) && negb (cmp_default upper (dest_of d e) <=? 0).

Definition revoked_set (d : lsdb) (ansn : Z) (lower upper : ip_addr) (es : list positive) : gset positive :=
  outdated_set d ansn (filter (fun e => in_borders d lower upper e = true) es).

Lemma elem_of_revoked d ansn lower upper es e :
  e ∈ revoked_set d ansn lower upper es <-> outdated d ansn e = true /\ in_borders d lower upper e = true /\ e ∈ es.
Proof. unfold revoked_set. by rewrite elem_of_outdated, list_elem_of_filter. Qed.

Lemma sorted_fst {A B} (R : B -> B -> Prop) (f : A -> B) (l : list (A * B)) :
  (forall p k, (p, k) ∈ l -> f p = k) -> StronglySorted R (map snd l) ->
  StronglySorted (fun p q => R (f p) (f q)) (map fst l).
Proof.
  induction l as [|[p k] l IH]; intros Hf; simpl; [constructor|]. intros [Hs Hk]%StronglySorted_inv. constructor.
  - apply IH; [|done]. intros q k' Hq. apply Hf. by right.
  - rewrite (Hf p k) by left. apply Forall_map. rewrite Forall_map, Forall_forall in Hk. apply Forall_forall.
    intros [q k'] Hq. simpl. rewrite (Hf q k') by (by right). by apply (Hk _ Hq).
Qed.

Lemma edge_list_sorted d tc t : lsdb_wf d -> tcs d !! tc = Some t ->
  StronglySorted (fun e f => cmp_default (dest_of d e) (dest_of d f) <= 0) (map fst (kt_walk (edge_tree t))).
Proof.
  intros Hwf Ht. pose proof (dw_edges _ Hwf _ _ Ht) as Hok.
  apply (sorted_fst (key_le cmp_default) (dest_of d)).
  - intros p k Hp. apply (to_elem (kt_wf := awf) _ _ Hok) in Hp as (x & Hx & _ & <-). unfold dest_of. by rewrite Hx.
  - apply (walk_sorted cmp_default). apply (to_wf (kt_wf := awf) _ _ Hok).
Qed.

Lemma removing_skip_all st X es st' : (forall e, e ∈ es -> e ∉ X) -> removing st X es st' -> removing st X [] st'.
Proof.
  revert st'. induction es as [|e es IH]; intros st' Hn H; [done|]. apply IH.
  - intros g Hg. apply Hn. by right.
  - apply (removing_skip _ _ e); [apply Hn; left|done].
Qed.

Lemma wp_revoked_loop st ansn lower upper all es passed r st1 :
  removing st (revoked_set (db st) ansn lower upper all) es st1 ->
  (forall e, e ∈ es -> e ∈ all /\ is_Some (edges (db st) !! e)) ->
  StronglySorted (fun e f => cmp_default (dest_of (db st) e) (dest_of (db st) f) <= 0) es ->
  (passed = true -> forall e, e ∈ es -> cmp_default lower (dest_of (db st) e) <= 0) ->
  wp (revoked_loop es ansn lower upper passed r) (fun r' st2 =>
    removing st (revoked_set (db st) ansn lower upper all) [] st2 /\
    (r' = true <-> r = true \/ exists e, e ∈ revoked_set (db st) ansn lower upper all /\ e ∈ es)) st1.
Proof.
  set (X := revoked_set _ _ _ _ all). revert passed r st1.
  induction es as [|e es IH]; intros passed r st1 Hrm Hin Hsort Hpass; cbn [revoked_loop].
  - apply wp_ret. split; [done|]. split; [by left|]. by intros [?|(e & _ & ?%not_elem_of_nil)].
  - apply StronglySorted_inv in Hsort as [Hsort He]. rewrite Forall_forall in He.
    destruct (Hin e) as [Hall [x Hx]]; [left|]. destruct (removing_lookup _ _ _ _ _ _ Hrm Hx) as (x' & Hx' & Ed & _ & Ea).
    assert (dest_of (db st) e = T_dest_addr x) as Hd by (unfold dest_of; by rewrite Hx).
    assert (forall g, g ∈ es -> g ∈ all /\ is_Some (edges (db st) !! g)) as Hin' by (intros g Hg; apply Hin; by right).
    assert (e ∈ X <-> SEQNO_GREATER_THAN ansn (edge_ansn x) = true /\ in_borders (db st) lower upper e = true) as HX.
    { unfold X. rewrite elem_of_revoked. unfold outdated. rewrite Hx. tauto. }
    assert (forall r', (r' = true <-> r = true \/ exists g, g ∈ X /\ g ∈ es) -> e ∉ X ->
      (r' = true <-> r = true \/ exists g, g ∈ X /\ g ∈ e :: es)) as Hext.
    { intros r' -> HeX. apply or_iff_compat_l. split; intros (g & Hg & Hi); exists g; (split; [done|]); [by right|].
      by apply elem_of_cons in Hi as [->|]. }
    wp_step. eapply wp_get_edge; [exact Hx'|]. rewrite Ed, Ea, <- Hd. fold cmp_default.
    destruct (cmp_default lower (dest_of (db st) e) <=? 0) eqn:El; bool_hyps.
    + rewrite andb_false_r. destruct (cmp_default upper (dest_of (db st) e) <=? 0) eqn:Eu; bool_hyps.
      * apply wp_ret. assert (forall g, g ∈ e :: es -> g ∉ X) as Hno.
        { intros g Hg. unfold X. rewrite elem_of_revoked. intros (_ & Hb & _). unfold in_borders in Hb. bool_hyps.
          assert (cmp_default upper (dest_of (db st) g) <= 0); [|lia].
          apply elem_of_cons in Hg as [->|Hg]; [done|]. eapply (comp_trans (comp := cmp_default)); [done|by apply He]. }
        split; [by eapply removing_skip_all|]. split; [by left|]. intros [?|(g & H1 & H2)]; [done|]. by destruct (Hno g).
      * assert (true = true -> forall g, g ∈ es -> cmp_default lower (dest_of (db st) g) <= 0) as Hpass'.
        { intros _ g Hg. eapply (comp_trans (comp := cmp_default)); [done|by apply He]. }
        destruct (SEQNO_GREATER_THAN ansn (edge_ansn x)) eqn:Es.
        -- assert (e ∈ X) as HeX by (apply HX; split; [done|]; unfold in_borders; lia).
           wp_step. eapply wp_mono; [apply (wp_delete_edge e x'); [apply Hrm|done]|]. intros _u st2 [Hr2 Hst2].
           eapply wp_mono; [apply IH; [by eapply removing_delete|done..]|]. intros r' st3 [H1 H2]. split; [done|].
           rewrite H2. split; [intros _; right; exists e; split; [done|left]|by left].
        -- assert (e ∉ X) as HeX by (rewrite HX; by intros [? _]).
           eapply wp_mono; [apply IH; [by eapply removing_skip|done..]|]. intros r' st3 [H1 H2]. split; [done|]. by apply Hext.
    + destruct passed; [assert (cmp_default lower (dest_of (db st) e) <= 0) by (apply Hpass; [done|left]); lia|].
      simpl. assert (e ∉ X) as HeX. { rewrite HX. intros [_ Hb]. unfold in_borders in Hb. bool_hyps. lia. }
      eapply wp_mono; [apply IH; [by eapply removing_skip|done..]|]. intros r' st3 [H1 H2]. split; [done|]. by apply Hext.
Qed.

Lemma wp_delete_revoked tc t ansn lower upper st :
  lsdb_wf (db st) -> tcs (db st) !! tc = Some t ->
  wp (olsr_delete_revoked_tc_edges tc ansn lower upper) (fun r st' =>
    let X := revoked_set (db st) ansn lower upper (map fst (kt_walk (edge_tree t))) in
    edges_removed X (db st) (db st') /\ (r = true <-> X <> ∅) /\
    st' = set_changes_topology (r || changes_topology st) (set_db (db st') st)) st.
Proof.
  intros Hwf Ht. destruct (edge_list _ _ _ Hwf Ht) as [Hnd Hin]. pose proof (edge_list_sorted _ _ _ Hwf Ht) as Hs.
  unfold olsr_delete_revoked_tc_edges, OLSR_FOR_ALL_TC_EDGE_ENTRIES. wp_step. wp_step.
  eapply wp_get_tc; [exact Ht|]. wp_step. revert Hnd Hin Hs. generalize (map fst (kt_walk (edge_tree t))) as es. intros es Hnd Hin Hs.
  wp_step. eapply wp_mono; [apply (wp_revoked_loop st ansn lower upper es)|].
  - apply removing_init; try done. by intros e (_ & _ & ?)%elem_of_revoked.
  - intros e He. split; [done|]. apply Hin in He as (x & Hx & _). by eexists.
  - done.
  - done.
  - intros r st' [Hrm Hr]. pose proof (rm_removed _ _ _ _ Hrm) as H. simpl in H. rewrite difference_empty_L in H.
    set (X := revoked_set _ _ _ _ es) in *. assert (r = true <-> X <> ∅) as HX.
    { rewrite Hr. split.
      - intros [?|(e & He & _)]; [done|]. intros E. rewrite E in He. set_solver.
      - intros He. right. destruct (set_choose_or_empty X) as [[e Hx]|Hx]; [|by apply leibniz_equiv in Hx].
        exists e. split; [done|]. by apply elem_of_revoked in Hx as (_ & _ & ?). }
    pose proof (rm_state _ _ _ _ Hrm) as Hst. wp_step. wp_step.
    + wp_step. apply wp_ret. split; [done|]. split; [done|]. rewrite Hst. by subst r.
    + apply wp_ret. split; [done|]. split; [done|]. subst r. rewrite Hst at 1. simpl. by destruct st.
Qed.

(** *** Changes to the data of an edge *)

Definition edge_key (x : tc_edge_entry) : ip_addr * positive := (T_dest_addr x, edge_tc x).

Lemma key_lookup {d d' e x'} :
  edge_key <$> edges d' = edge_key <$> edges d -> edges d' !! e = Some x' ->
  exists x, edges d !! e = Some x /\ T_dest_addr x' = T_dest_addr x /\ edge_tc x' = edge_tc x.
Proof.
  intros E Hp. apply (f_equal (lookup e)) in E. rewrite !lookup_fmap, Hp in E.
  destruct (edges d !! e) as [x|]; [|done]. injection E as E1 E2. by exists x.
Qed.

Lemma edge_of_key d d' p e a : edge_key <$> edges d' = edge_key <$> edges d -> edge_of d' p e a <-> edge_of d p e a.
Proof.
  intros E. split.
  - intros (x' & Hx' & <- & <-). destruct (key_lookup E Hx') as (x & Hx & E1 & E2). exists x. by rewrite E1, E2.
  - intros (x' & Hx' & <- & <-). destruct (key_lookup (eq_sym E) Hx') as (x & Hx & E1 & E2). exists x. by rewrite E1, E2.
Qed.

Lemma opposite_key d d' e f :
  edge_key <$> edges d' = edge_key <$> edges d -> tc_static <$> tcs d' = tc_static <$> tcs d ->
  opposite d' e f <-> opposite d e f.
Proof.
  assert (forall d d', edge_key <$> edges d' = edge_key <$> edges d -> tc_static <$> tcs d' = tc_static <$> tcs d ->
    opposite d' e f -> opposite d e f) as H.
  { intros d1 d2 E1 E2 (x & y & s & t & Hx & Hy & Hs & Ht & K1 & K2).
    destruct (key_lookup E1 Hx) as (x0 & Hx0 & A1 & A2), (key_lookup E1 Hy) as (y0 & Hy0 & B1 & B2).
    rewrite A2 in Hs. rewrite B2 in Ht. rewrite A1 in K1. rewrite B1 in K2.
    destruct (static_lookup E2 Hs) as (s0 & Hs0 & C1 & _), (static_lookup E2 Ht) as (t0 & Ht0 & D1 & _).
    rewrite D1 in K1. rewrite C1 in K2. by exists x0, y0, s0, t0. }
  intros E1 E2. split; by apply H.
Qed.

(** Writing to an edge, but not to its key or inverse. *)
Lemma edge_data_wf d e x f :
  lsdb_wf d -> edges d !! e = Some x -> edge_key (f x) = edge_key x -> edge_inv (f x) = edge_inv x ->
  lsdb_wf (set_edges (<[e := f x]> (edges d)) d).
Proof.
  intros Hwf Hx Hk Hi. set (d' := set_edges _ _).
  assert (edge_key <$> edges d' = edge_key <$> edges d) as E.
  { unfold d'. simpl. rewrite fmap_insert, Hk. apply insert_id. by rewrite lookup_fmap, Hx. }
  apply (edges_change_wf d); try done.
  - intros p t Ht. eapply tree_ok_ext; [|by apply (dw_edges _ Hwf)]. intros g a. by apply edge_of_key.
  - intros p t Ht. by apply (dw_refs _ Hwf p).
  - intros g y' Hy'. destruct (key_lookup E Hy') as (y & Hy & _ & ->). by eapply (dw_edge_tc _ Hwf).
  - intros g h. rewrite (opposite_key d d') by done. rewrite <- (dw_inv _ Hwf). unfold inverse, d'. simpl.
    destruct (decide (g = e)) as [->|Hn].
    + rewrite lookup_insert_eq, Hx. split; intros (y & [= <-] & H); eexists; (split; [done|]); congruence.
    + by rewrite lookup_insert_ne.
Qed.

(** *** Addition *)

(** The lookups of [olsr_add_tc_edge_entry] find the opposite edge. *)
Definition find_opposite (d : lsdb) (addr a : ip_addr) : option positive :=
  n ← kt_find (tc_tree d) addr; t ← tcs d !! n; kt_find (edge_tree t) a.

Lemma find_opposite_Some d e x t f :
  tree_ok (kt_wf := awf) (tc_tree d) (vertex d) ->
  (forall p t, tcs d !! p = Some t -> tree_ok (kt_wf := awf) (edge_tree t) (edge_of d p)) ->
  edges d !! e = Some x -> tcs d !! edge_tc x = Some t ->
  find_opposite d (T_dest_addr x) (tc_addr t) = Some f <-> opposite d e f.
Proof.
  intros Htc Hed Hx Ht. unfold find_opposite. split.
  - intros (n & Hn & (tn & Htn & Hf)%bind_Some)%bind_Some.
    apply (tree_find_Some (kt_wf := awf) _ _ _ _ Htc) in Hn as (a & Ka & (tn' & Htn' & <-)).
    assert (tn' = tn) as -> by congruence.
    apply (tree_find_Some (kt_wf := awf) _ _ _ _ (Hed _ _ Htn)) in Hf as (b & Kb & (y & Hy & <- & <-)).
    exists x, y, t, tn. split_and!; done.
  - intros (x' & y & s & tn & Hx' & Hy & Hs & Htn & K1 & K2).
    assert (x' = x) as -> by congruence. assert (s = t) as -> by congruence.
    apply bind_Some. exists (edge_tc y). split.
    + apply (tree_find_Some (kt_wf := awf) _ _ _ _ Htc). exists (tc_addr tn). split; [by symmetry|by exists tn].
    + apply bind_Some. exists tn. split; [done|]. apply (tree_find_Some (kt_wf := awf) _ _ _ _ (Hed _ _ Htn)).
      exists (T_dest_addr y). split; [done|by exists y].
Qed.

(** An edge has at most one opposite. *)
Lemma opposite_unique d e f g :
  tree_ok (kt_wf := awf) (tc_tree d) (vertex d) ->
  (forall p t, tcs d !! p = Some t -> tree_ok (kt_wf := awf) (edge_tree t) (edge_of d p)) ->
  opposite d e f -> opposite d e g -> f = g.
Proof.
  intros Htc Hed Hf Hg. pose proof Hf as (x & _ & t & _ & Hx & _ & Ht & _).
  apply (find_opposite_Some d e x t f Htc Hed Hx Ht) in Hf. apply (find_opposite_Some d e x t g Htc Hed Hx Ht) in Hg. congruence.
Qed.

(** Connecting an edge with its inverse. *)
Definition connect (e : positive) (inv : option positive) (m : gmap positive tc_edge_entry) : gmap positive tc_edge_entry :=
  match inv with
  | Some f => alter (set_edge_inv (Some f)) e (alter (set_edge_inv (Some e)) f m)
  | None => m
  end.

Lemma connect_key e inv m : edge_key <$> connect e inv m = edge_key <$> m.
Proof.
  assert (forall i g (m : gmap positive tc_edge_entry), edge_key <$> alter (set_edge_inv i) g m = edge_key <$> m) as H.
  { intros i g m'. apply map_eq. intros h. rewrite !lookup_fmap. destruct (decide (h = g)) as [->|Hn].
    - rewrite lookup_alter_eq. by destruct (m' !! g).
    - by rewrite lookup_alter_ne. }
  destruct inv as [f|]; simpl; [|done]. by rewrite !H.
Qed.

Lemma connect_lookup e inv m g :
  connect e inv m !! g = (fun y => set_edge_inv (match inv with
    | Some f => if decide (g = e) then Some f else if decide (g = f) then Some e else edge_inv y
    | None => edge_inv y
    end) y) <$> m !! g.
Proof.
  assert (forall y, set_edge_inv (edge_inv y) y = y) as Hid by (by intros []).
  destruct inv as [f|]; simpl.
  - destruct (decide (g = e)) as [->|Hn].
    + rewrite lookup_alter_eq. destruct (decide (e = f)) as [->|Hne].
      * rewrite lookup_alter_eq. by destruct (m !! f).
      * by rewrite lookup_alter_ne.
    + rewrite lookup_alter_ne by done. destruct (decide (g = f)) as [->|Hne].
      * by rewrite lookup_alter_eq.
      * rewrite lookup_alter_ne by done. destruct (m !! g); simpl; by rewrite ?Hid.
  - destruct (m !! g); simpl; by rewrite ?Hid.
Qed.

Lemma add_edge_wf d e tc t addr ansn0 lq0 :
  lsdb_wf d -> tcs d !! tc = Some t -> edges d !! e = None -> kt_find (edge_tree t) addr = None ->
  2 + degree t < 4294967296 ->
  let x := {| T_dest_addr := addr; edge_inv := None; edge_tc := tc; edge_cost := 0; edge_ansn := ansn0; edge_linkquality := lq0 |} in
  let d1 := set_tcs (<[tc := set_refcount (refcount t + 1) (set_edge_tree (kt_insert (edge_tree t) e addr) t)]> (tcs d))
              (set_edges (<[e := x]> (edges d)) d) in
  let d2 := set_edges (connect e (find_opposite d1 addr (tc_addr t)) (edges d1)) d1 in
  lsdb_wf d2 /\
  (forall f, find_opposite d1 addr (tc_addr t) = Some f <-> opposite d2 e f) /\
  (forall f, find_opposite d1 addr (tc_addr t) = Some f -> is_Some (edges d1 !! f)).
Proof.
  intros Hwf Ht He Hf Hdeg x d1 d2.
  assert (tc_static <$> tcs d1 = tc_static <$> tcs d) as Hs.
  { simpl. rewrite fmap_insert. apply insert_id. by rewrite lookup_fmap, Ht. }
  assert (forall p g a, edge_of d1 p g a <-> (p = tc /\ g = e /\ a = addr) \/ edge_of d p g a) as Heo.
  { intros p g a. unfold edge_of. simpl. split.
    - intros (y & [[<- <-]|[Hn Hy]]%lookup_insert_Some & Hp & Ha); [by left|right; by exists y].
    - intros [(-> & -> & ->)|(y & Hy & Hp & Ha)]; [exists x; by rewrite lookup_insert_eq|].
      exists y. rewrite lookup_insert_ne by congruence. done. }
  destruct (tree_insert (edge_tree t) (edge_of d tc) (edge_of d1 tc) e addr) as [Htree Hlen].
  { by eapply dw_edges. } { done. } { intros k (y & Hy & _). congruence. } { intros g k. rewrite Heo. naive_solver. }
  assert (forall p t0, tcs d1 !! p = Some t0 -> tree_ok (kt_wf := awf) (edge_tree t0) (edge_of d1 p)) as Hed.
  { intros p t0. simpl. intros [[<- <-]|[Hn Hp]]%lookup_insert_Some; [done|].
    eapply tree_ok_ext; [|by eapply dw_edges]. intros g a. rewrite Heo. naive_solver. }
  assert (tree_ok (kt_wf := awf) (tc_tree d1) (vertex d1)) as Htc.
  { eapply tree_ok_ext; [|by apply (dw_tcs _ Hwf)]. intros p a. unfold vertex. split.
    - intros (t' & Hp & <-). destruct (static_lookup Hs Hp) as (t0 & ? & E & _). by exists t0.
    - intros (t0 & Hp & <-). destruct (static_lookup (eq_sym Hs) Hp) as (t' & ? & E & _). by exists t'. }
  assert (edges d1 !! e = Some x) as Hx1 by (simpl; by rewrite lookup_insert_eq).
  assert (exists t1, tcs d1 !! tc = Some t1 /\ tc_addr t1 = tc_addr t) as (t1 & Ht1 & Ea).
  { eexists. simpl. rewrite lookup_insert_eq. by split. }
  assert (forall f, find_opposite d1 addr (tc_addr t) = Some f <-> opposite d1 e f) as Hfind.
  { intros f. rewrite <- Ea. by apply (find_opposite_Some d1 e x t1 f). }
  set (inv := find_opposite d1 addr (tc_addr t)) in *.
  assert (edge_key <$> edges d2 = edge_key <$> edges d1) as Hkey by apply connect_key.
  assert (forall g h, opposite d2 g h <-> opposite d1 g h) as Hop by (intros g h; by apply opposite_key).
  assert (forall g h, g <> e -> h <> e -> opposite d1 g h <-> opposite d g h) as Hold.
  { intros g h Hg Hh. unfold opposite.
    change (edges d1) with (<[e := x]> (edges d)).
    rewrite (lookup_insert_ne (edges d) e g x), (lookup_insert_ne (edges d) e h x) by done. split.
    - intros (a & b & s & r & Ha & Hb & Hs1 & Hs2 & K1 & K2).
      destruct (static_lookup Hs Hs1) as (s0 & Hs0 & E1 & _), (static_lookup Hs Hs2) as (r0 & Hr0 & E2 & _).
      rewrite E2 in K1. rewrite E1 in K2. by exists a, b, s0, r0.
    - intros (a & b & s & r & Ha & Hb & Hs1 & Hs2 & K1 & K2).
      destruct (static_lookup (eq_sym Hs) Hs1) as (s0 & Hs0 & E1 & _), (static_lookup (eq_sym Hs) Hs2) as (r0 & Hr0 & E2 & _).
      rewrite E2 in K1. rewrite E1 in K2. by exists a, b, s0, r0. }
  split; [|split].
  - apply (edges_change_wf d); try done.
    + intros p t0 Hp. eapply tree_ok_ext; [|by apply Hed]. intros g a. by apply edge_of_key.
    + intros p t0. simpl. intros [[<- <-]|[Hn Hp]]%lookup_insert_Some; [|by eapply dw_refs].
      destruct (dw_refs _ Hwf _ _ Ht) as [Hr1 Hr2]. unfold degree in *. simpl in *. lia.
    + intros g y2 Hy2. destruct (key_lookup Hkey Hy2) as (y & Hy & _ & ->). simpl in Hy.
      apply lookup_insert_Some in Hy as [[<- <-]|[Hn Hy]]; [by eexists|].
      destruct (dw_edge_tc _ Hwf _ _ Hy) as [t0 Ht0]. destruct (static_lookup (eq_sym Hs) Ht0) as (t' & Ht' & _). by eexists.
    + intros g h. rewrite Hop. unfold inverse, d2. simpl. setoid_rewrite connect_lookup.
      destruct (decide (g = e)) as [->|Hg].
      * rewrite lookup_insert_eq, <- Hfind. simpl. fold inv. split.
        -- intros (y & [= <-] & Hy). by destruct inv.
        -- intros ->. by eexists.
      * rewrite lookup_insert_ne by done. destruct (decide (h = e)) as [->|Hh].
        -- assert (opposite d1 g e <-> inv = Some g) as ->.
           { rewrite Hfind. split; apply opposite_sym. }
           split.
           ++ intros (y2 & (y & Hy & ->)%fmap_Some & Hi). simpl in Hi. destruct inv as [f|].
              ** destruct (decide (g = f)) as [->|]; [done|].
                 assert (inverse d g e) as (? & z & _ & _ & _ & Hz & _)%(dw_inv _ Hwf) by (by exists y). congruence.
              ** assert (inverse d g e) as (? & z & _ & _ & _ & Hz & _)%(dw_inv _ Hwf) by (by exists y). congruence.
           ++ intros Hi. rewrite Hi. assert (opposite d1 e g) as (_ & y & _ & _ & _ & Hy & _) by (by apply Hfind).
              simpl in Hy. rewrite lookup_insert_ne in Hy by done. rewrite Hy. eexists. split; [done|]. simpl.
              by rewrite decide_True.
        -- rewrite Hold by done. rewrite <- (dw_inv _ Hwf). unfold inverse. split.
           ++ intros (y2 & (y & Hy & ->)%fmap_Some & Hi). exists y. split; [done|]. simpl in Hi. destruct inv as [f|]; [|done].
              destruct (decide (g = f)); [congruence|done].
           ++ intros (y & Hy & Hi). rewrite Hy. eexists. split; [done|]. simpl. destruct inv as [f|] eqn:Ei; [|done].
              destruct (decide (g = f)) as [->|]; [|done]. exfalso.
              assert (opposite d1 f h) as Hfh by (apply Hold; [done..|]; apply (dw_inv _ Hwf); by exists y).
              assert (opposite d1 f e) as Hfe by (apply opposite_sym; by apply Hfind).
              apply Hh. by apply (opposite_unique d1 f).
  - intros f. by rewrite Hop, <- Hfind.
  - intros f Hi. apply Hfind in Hi as (_ & y & _ & _ & _ & Hy & _). by eexists.
Qed.

(** [d'] is [d] with a new edge [e] of the vertex [tc]. *)
Record edge_added (tc e : positive) (addr ansn : Z) (d d' : lsdb) : Prop := {
  ea_wf : lsdb_wf d';
  ea_fresh : edges d !! e = None;
  ea_new : exists x, edges d' !! e = Some x /\ T_dest_addr x = addr /\ edge_tc x = tc /\ edge_ansn x = ansn /\
    edge_cost x = (if 1 <=? lq_level then calc_tc_cost (edge_linkquality x) else 0);
  ea_dom : dom (edges d') = {[e]} ∪ dom (edges d);
  ea_old g y' : g <> e -> edges d' !! g = Some y' ->
    exists y, edges d !! g = Some y /\ set_edge_inv None y' = set_edge_inv None y;
  ea_tcs : tc_rest <$> tcs d' = tc_rest <$> tcs d;
  ea_rest : rtps d' = rtps d /\ rts d' = rts d /\ tc_tree d' = tc_tree d /\ tc_myself d' = tc_myself d /\
    routingtree d' = routingtree d /\ routingtree_version d' = routingtree_version d /\
    current_inetgw d' = current_inetgw d /\ kernel_state d' = kernel_state d;
}.

Lemma wp_calc_etx e x (Q : bool -> olsr_state -> Prop) st :
  edges (db st) !! e = Some x ->
  Q (1 <=? lq_level) (if 1 <=? lq_level
    then set_db (set_edges (<[e := set_edge_cost (calc_tc_cost (edge_linkquality x)) x]> (edges (db st))) (db st)) st
    else st) -> wp (olsr_calc_tc_edge_entry_etx e) Q st.
Proof.
  intros Hx HQ. unfold olsr_calc_tc_edge_entry_etx. rewrite Z.leb_antisym in HQ.
  destruct (lq_level <? 1); simpl in HQ; [by apply wp_ret|].
  wp_step. eapply wp_upd_edge; [exact Hx|]. by apply wp_ret.
Qed.

(** The connection as the code makes it, edge by edge. *)
Lemma wp_connect e inv (Q : unit -> olsr_state -> Prop) st :
  is_Some (edges (db st) !! e) -> (forall f, inv = Some f -> is_Some (edges (db st) !! f)) ->
  Q tt (set_db (set_edges (connect e inv (edges (db st))) (db st)) st) ->
  wp (match inv with
      | Some f => do* upd_edge f (set_edge_inv (Some e)) in upd_edge e (set_edge_inv (Some f))
      | None => ret tt
      end) Q st.
Proof.
  intros [x Hx] Hf HQ. destruct inv as [f|].
  - destruct (Hf f eq_refl) as [y Hy]. wp_step. eapply wp_upd_edge; [exact Hy|].
    rewrite <- (alter_insert_same (set_edge_inv (Some e))) by done.
    assert (exists x', alter (set_edge_inv (Some e)) f (edges (db st)) !! e = Some x') as [x' Hx'].
    { destruct (decide (e = f)) as [->|Hn]; [rewrite lookup_alter_eq, Hx|rewrite lookup_alter_ne by done]; by eexists. }
    eapply wp_upd_edge; [exact Hx'|]. simpl. by rewrite <- (alter_insert_same (set_edge_inv (Some f))).
  - apply wp_ret. assert (set_db (set_edges (edges (db st)) (db st)) st = st) as <-; [|done].
    destruct_state st. reflexivity.
Qed.

Lemma wp_add_edge tc t addr ansn st :
  lsdb_wf (db st) -> tcs (db st) !! tc = Some t -> kt_find (edge_tree t) addr = None -> 2 + degree t < 4294967296 ->
  wp (olsr_add_tc_edge_entry tc addr ansn) (fun e st' =>
    edge_added tc e addr ansn (db st) (db st') /\ st' = set_db (db st') st) st.
Proof.
  intros Hwf Ht Hf Hdeg. set (e := alloc (edges (db st))).
  assert (edges (db st) !! e = None) as He by apply alloc_fresh.
  destruct (add_edge_wf (db st) e tc t addr ansn zero_tc_lq Hwf Ht He Hf Hdeg) as (Hwf2 & _ & Hinv).
  revert Hwf2 Hinv. set (d1 := set_tcs _ _). cbv zeta. set (inv := find_opposite d1 addr (tc_addr t)). intros Hwf2 Hinv.
  destruct (dw_refs _ Hwf _ _ Ht) as [Hr1 Hr2].
  assert (0 <= degree t) as Hd0 by (unfold degree; lia).
  unfold olsr_add_tc_edge_entry, malloc_edge. wp_step. wp_step. wp_step. wp_step. apply wp_upd_db. apply wp_ret. fold e.
  wp_step. eapply wp_upd_tc; [exact Ht|]. wp_step. eapply wp_lock; [apply lookup_insert_eq|simpl; lia|simpl; lia|].
  simpl. rewrite insert_insert_eq. unfold olsr_lookup_tc_entry. wp_step. wp_step. simpl.
  match goal with |- wp _ _ ?s => change s with (set_db d1 st) end.
  apply wp_bind. apply (wp_mono _ (fun _ st' => st' = set_db (set_edges (connect e inv (edges d1)) d1) st)).
  - assert (is_Some (edges d1 !! e)) as Hx1 by (simpl; rewrite lookup_insert_eq; by eexists).
    change (tc_tree (db st)) with (tc_tree d1). unfold inv, find_opposite in *.
    destruct (kt_find (tc_tree d1) addr) as [n|] eqn:En; simpl in *.
    + assert (exists tn, tcs d1 !! n = Some tn) as [tn Htn].
      { apply (tree_find_Some (kt_wf := awf) _ _ _ _ (dw_tcs _ Hwf2)) in En as (a & _ & tn & Htn & _). by exists tn. }
      wp_step. eapply wp_get_tc; [apply lookup_insert_eq|]. simpl. unfold olsr_lookup_tc_edge. wp_step. wp_step.
      eapply wp_get_tc; [exact Htn|]. wp_step. simpl in Htn. rewrite Htn in Hinv |- *. simpl in Hinv |- *.
      apply wp_connect; done.
    + by apply wp_ret.
  - intros _u st2 ->. set (d2 := set_edges _ d1) in *.
    assert (exists x, edges d2 !! e = Some x /\ T_dest_addr x = addr /\ edge_tc x = tc /\ edge_ansn x = ansn /\ edge_cost x = 0)
      as (x & Hx & X1 & X2 & X3 & X4).
    { unfold d2. simpl. rewrite connect_lookup, lookup_insert_eq. by eexists. }
    assert (dom (edges d2) = {[e]} ∪ dom (edges (db st))) as Hdom.
    { rewrite <- (dom_insert_L (edges (db st)) e (new_tc_edge tc addr ansn)).
      rewrite <- (dom_fmap_L edge_key). unfold d2. simpl. rewrite connect_key. by rewrite dom_fmap_L. }
    assert (forall g y', g <> e -> edges d2 !! g = Some y' ->
      exists y, edges (db st) !! g = Some y /\ set_edge_inv None y' = set_edge_inv None y) as Hold.
    { intros g y' Hg. unfold d2. simpl. rewrite connect_lookup, lookup_insert_ne by done.
      intros (y & Hy & ->)%fmap_Some. by exists y. }
    assert (tc_rest <$> tcs d2 = tc_rest <$> tcs (db st)) as Hrest.
    { simpl. rewrite fmap_insert. apply insert_id. by rewrite lookup_fmap, Ht. }
    wp_step. eapply wp_calc_etx; [exact Hx|]. apply wp_ret. destruct (1 <=? lq_level) eqn:El; simpl.
    + split; [|done]. split; try done.
      * by eapply edge_data_wf.
      * eexists. simpl. rewrite lookup_insert_eq, El. by split_and!.
      * simpl. rewrite <- Hdom. change (dom (<[e := set_edge_cost (calc_tc_cost (edge_linkquality x)) x]> (edges d2)) = dom (edges d2)).
        rewrite dom_insert_L. apply elem_of_dom_2 in Hx. set_solver.
      * simpl. intros g y' Hg. rewrite lookup_insert_ne by done. by apply Hold.
    + split; [|done]. split; try done. exists x. by rewrite El.
Qed.

End lsdb_wf.
