(* ===== verification/LinkProofs.v ===== *)
(** * The invariant of the link set and its preservation *)

From S2P Require Import Prelude Timer Avl IpAddr KeyTree State MidLookup Interfaces NeighTable NeighProofs LsdbOps Lq Hysteresis.
From S2P Require Import HelloTwoHop RouteTable TcSet LinkSet LsdbProofs.

Section link_proofs.
Context {cnf : olsrd_config} {lqh : lq_handler}.

(** ** The invariant *)

(** The links of a neighbour. *)
Definition links_to (st : olsr_state) (q : positive) : list positive :=
  filter (fun p => link_neighbor <$> links st !! p = Some q) (link_entry_head st).

(** A neighbour has at least one link and counts them; a link is determined by the
    two interfaces; interfaces have names. *)
Record link_wf (st : olsr_state) : Prop := {
  lw_nodup : NoDup (link_entry_head st);
  lw_alloc p : p ∈ link_entry_head st <-> is_Some (links st !! p);
  lw_nbr p l : links st !! p = Some l -> is_Some (nbrs st !! link_neighbor l);
  lw_count q n : nbrs st !! q = Some n -> linkcount n = Z.of_nat (length (links_to st q)) /\ 1 <= linkcount n;
  lw_key p q l k : links st !! p = Some l -> links st !! q = Some k ->
    neighbor_iface_addr l = neighbor_iface_addr k -> if_name l = if_name k -> p = q;
  lw_name p l : links st !! p = Some l -> is_Some (if_name l);
  lw_ifs i : i ∈ ifnet st -> is_Some (int_name i);
}.

Definition net_wf (st : olsr_state) : Prop := nbr_wf st /\ link_wf st.

Lemma elem_of_links_to st q p : link_wf st ->
  p ∈ links_to st q <-> exists l, links st !! p = Some l /\ link_neighbor l = q.
Proof.
  intros Hwf. unfold links_to. rewrite list_elem_of_filter, (lw_alloc _ Hwf).
  destruct (links st !! p) as [l|]; simpl; [|by split; [intros [? _]|intros (? & ? & _)]].
  split; [intros [[= <-] _]; by exists l|intros (? & [= ->] & <-); by split; [|eexists]].
Qed.

Lemma links_to_nodup st q : link_wf st -> NoDup (links_to st q).
Proof. intros Hwf. apply NoDup_filter, Hwf. Qed.

(** Nothing that the invariant speaks of changes. *)
Lemma link_wf_ext st st' :
  link_wf st -> link_entry_head st' = link_entry_head st -> ifnet st' = ifnet st ->
  (forall p, (fun l => (neighbor_iface_addr l, if_name l, link_neighbor l)) <$> links st' !! p =
             (fun l => (neighbor_iface_addr l, if_name l, link_neighbor l)) <$> links st !! p) ->
  (forall q, linkcount <$> nbrs st' !! q = linkcount <$> nbrs st !! q) -> link_wf st'.
Proof.
  intros Hwf Eh Ei El En.
  assert (forall p l', links st' !! p = Some l' -> exists l, links st !! p = Some l /\
    neighbor_iface_addr l' = neighbor_iface_addr l /\ if_name l' = if_name l /\ link_neighbor l' = link_neighbor l) as Hl.
  { intros p l' Hp. specialize (El p). rewrite Hp in El. destruct (links st !! p) as [l|]; [|done].
    simpl in El. injection El as E1 E2 E3. by exists l. }
  assert (forall p, is_Some (links st' !! p) <-> is_Some (links st !! p)) as Hd.
  { intros p. specialize (El p). destruct (links st' !! p), (links st !! p); try done; split; intros; by eexists. }
  assert (forall q, links_to st' q = links_to st q) as Ht.
  { intros q. unfold links_to. rewrite Eh. apply list_filter_iff. intros p. specialize (El p).
    destruct (links st' !! p), (links st !! p); simpl in *; try done. injection El as _ _ E. by rewrite E. }
  split; rewrite ?Eh, ?Ei; try apply Hwf.
  - intros p. by rewrite Hd, (lw_alloc _ Hwf).
  - intros p l' (l & Hp & _ & _ & E)%Hl. rewrite E. apply (lw_nbr _ Hwf) in Hp as [n Hn].
    specialize (En (link_neighbor l)). rewrite Hn in En. destruct (nbrs st' !! link_neighbor l); [by eexists|done].
  - intros q n' Hn'. specialize (En q). rewrite Hn' in En. destruct (nbrs st !! q) as [n|] eqn:Hn; [|done].
    simpl in En. injection En as E. rewrite E, Ht. by apply (lw_count _ Hwf).
  - intros p q l' k' (l & Hp & E1 & E2 & _)%Hl (k & Hq & F1 & F2 & _)%Hl. rewrite E1, E2, F1, F2. by eapply (lw_key _ Hwf).
  - intros p l' (l & Hp & _ & E & _)%Hl. rewrite E. by eapply (lw_name _ Hwf).
Qed.

(** Changing data of one link. *)
Lemma link_data_wf st p l x :
  link_wf st -> links st !! p = Some l -> neighbor_iface_addr x = neighbor_iface_addr l ->
  if_name x = if_name l -> link_neighbor x = link_neighbor l -> link_wf (set_links (<[p := x]> (links st)) st).
Proof.
  intros Hwf Hp E1 E2 E3. apply (link_wf_ext st); try done. intros q. simpl.
  destruct (decide (q = p)) as [->|Hn]; [|by rewrite lookup_insert_ne].
  rewrite lookup_insert_eq, Hp. simpl. by rewrite E1, E2, E3.
Qed.

(** The neighbour tables do not mention links, and links mention the neighbours'
    addresses and counts only. *)
Lemma nbr_wf_frame ok st st' :
  nbr_wf_mod ok st -> nbrs st' = nbrs st -> neighbortable st' = neighbortable st ->
  nbr2s st' = nbr2s st -> two_hop_neighbortable st' = two_hop_neighbortable st -> mid_same st st' -> nbr_wf_mod ok st'.
Proof.
  intros [H1 H2 H3 H4 H5 H6 H7 H8 H9 H10 H11] E1 E2 E3 E4 Hm.
  split; unfold linked, back in *; rewrite ?E1, ?E2, ?E3, ?E4; try done. by eapply mid_same_ok.
Qed.

Lemma wp_get_link p l (Q : link_entry -> olsr_state -> Prop) st : links st !! p = Some l -> Q l st -> wp (get_link p) Q st.
Proof. intros H1 H2. by eapply (wp_gets_opt (fun st => links st !! p)). Qed.

Lemma wp_upd_link p f l (Q : unit -> olsr_state -> Prop) st :
  links st !! p = Some l -> Q tt (set_links (<[p := f l]> (links st)) st) -> wp (upd_link p f) Q st.
Proof. intros H1 H2. unfold upd_link. wp_step. eapply wp_get_link; [exact H1|]. by apply wp_modify. Qed.

(** ** Lookups *)

Definition link_between (st : olsr_state) (remote : ip_addr) (local : interface_olsr) (p : positive) : Prop :=
  exists l, links st !! p = Some l /\ neighbor_iface_addr l = remote /\ if_name l = int_name local.

Lemma link_matches_spec st remote local p l :
  link_wf st -> is_Some (int_name local) -> links st !! p = Some l ->
  exists b, link_matches st remote local p = Some b /\ (b = true <-> link_between st remote local p).
Proof.
  intros Hwf [name Hn] Hp. unfold link_matches, link_between. rewrite Hp. simpl.
  destruct (lw_name _ Hwf _ _ Hp) as [name' Hn']. rewrite Hn'.
  destruct (ipequal ip_version remote (neighbor_iface_addr l)) eqn:E.
  - apply ipequal_eq in E. rewrite Hn. simpl. eexists. split; [done|]. rewrite bool_decide_eq_true.
    split; [intros <-; by exists l|]. intros (? & [= <-] & _ & F). congruence.
  - eexists. split; [done|]. split; [done|]. intros (? & [= <-] & <- & _). by rewrite ipequal_refl in E.
Qed.

Lemma find_link_spec st remote local :
  link_wf st -> is_Some (int_name local) ->
  exists r, find_link st remote local = Some r /\
    match r with Some p => link_between st remote local p | None => forall p, ~ link_between st remote local p end.
Proof.
  intros Hwf Hn. unfold find_link.
  destruct (findM_spec (link_matches st remote local) (link_entry_head st)) as (r & -> & Hr).
  - intros p [l Hp]%(lw_alloc _ Hwf). destruct (link_matches_spec st remote local p l) as (b & -> & _); [done..|by eexists].
  - exists r. split; [done|]. destruct r as [p|].
    + destruct Hr as (l1 & l2 & E & Hm & _). assert (p ∈ link_entry_head st) as [l Hp]%(lw_alloc _ Hwf) by (rewrite E; set_solver).
      destruct (link_matches_spec st remote local p l) as (b & Hb & Hiff); [done..|]. apply Hiff. congruence.
    + intros p Hb. pose proof Hb as (l & Hp & _). assert (p ∈ link_entry_head st) as Hin by (apply (lw_alloc _ Hwf); by eexists).
      destruct (link_matches_spec st remote local p l) as (b & Hb' & Hiff); [done..|].
      rewrite (Hr p Hin) in Hb'. injection Hb' as <-. by apply Hiff in Hb.
Qed.

Lemma link_between_unique st remote local p q :
  link_wf st -> link_between st remote local p -> link_between st remote local q -> p = q.
Proof. intros Hwf (l & Hl & E1 & E2) (k & Hk & F1 & F2). eapply (lw_key _ Hwf p q l k); congruence. Qed.

(** ** The status of a neighbour *)

(** There is a symmetric link to [addr] over [ifs]. *)
Definition sym_between (st : olsr_state) (addr : ip_addr) (ifs : interface_olsr) : Prop :=
  exists p l, link_between st addr ifs p /\ links st !! p = Some l /\ link_status st l = SYM_LINK.

Lemma sym_link_to_spec st addr ifs :
  link_wf st -> is_Some (int_name ifs) ->
  exists b, sym_link_to st addr ifs = Some b /\ (b = true <-> sym_between st addr ifs).
Proof.
  intros Hwf Hn. unfold sym_link_to. destruct (find_link_spec st addr ifs Hwf Hn) as (r & -> & Hr). simpl.
  destruct r as [p|].
  - destruct Hr as (l & Hp & E1 & E2). rewrite Hp. simpl. eexists. split; [done|]. rewrite Z.eqb_eq. split.
    + intros E. exists p, l. split; [|done]. by exists l.
    + intros (q & k & Hb & Hk & Es). assert (q = p) as -> by (eapply link_between_unique; [done..|]; by exists l). congruence.
  - eexists. split; [done|]. split; [done|]. intros (q & k & Hb & _). by apply Hr in Hb.
Qed.

(** There is a symmetric link to the main address [main] or one of its aliases. *)
Definition sym_node_via (st : olsr_state) (main : ip_addr) (ifs : interface_olsr) : Prop :=
  sym_between st main ifs \/
  exists al q a, find_aliases st main = Some al /\ q ∈ al /\ mid_addresses st !! q = Some a /\ sym_between st (alias a) ifs.

Lemma sym_via_spec st main ifs :
  link_wf st -> mid_ok st -> is_Some (int_name ifs) ->
  exists b, sym_via st main ifs = Some b /\ (b = true <-> sym_node_via st main ifs).
Proof.
  intros Hwf Hmid Hn. unfold sym_via. destruct (sym_link_to_spec st main ifs Hwf Hn) as (b & -> & Hb). simpl.
  destruct b; [exists true; split; [done|]; split; [intros _; left; by apply Hb|done]|].
  destruct (find_aliases_safe st main Hmid) as (al & Hal & Hal2). rewrite Hal. simpl.
  destruct (findM_spec (fun q => a ← mid_addresses st !! q; sym_link_to st (alias a) ifs) al) as (r & -> & Hr).
  - intros q Hq. destruct (Hal2 q Hq) as [a Ha]. rewrite Ha. simpl. destruct (sym_link_to_spec st (alias a) ifs) as (? & -> & _); [done..|by eexists].
  - simpl. destruct r as [q|]; eexists; (split; [done|]).
    + split; [intros _|done]. right. destruct Hr as (l1 & l2 & -> & Hq & _). destruct (mid_addresses st !! q) as [a|] eqn:Ha; [|done].
      simpl in Hq. destruct (sym_link_to_spec st (alias a) ifs) as (c & Hc & Hiff); [done..|].
      exists (l1 ++ q :: l2), q, a. split; [done|]. split; [set_solver|]. split; [done|]. apply Hiff. congruence.
    + split; [done|]. intros [H|(al' & q & a & Hal' & Hq & Ha & Hs)]; [by apply Hb in H|].
      assert (al' = al) as -> by congruence. specialize (Hr q Hq). rewrite Ha in Hr. simpl in Hr.
      destruct (sym_link_to_spec st (alias a) ifs) as (c & Hc & Hiff); [done..|]. apply Hiff in Hs. congruence.
Qed.

(** There is a symmetric link to the node with that address. *)
Definition sym_node (st : olsr_state) (address : ip_addr) : Prop :=
  exists main ifs, find_main_addr st address = Some main /\ ifs ∈ ifnet st /\ sym_node_via st (default address main) ifs.

Lemma neighbor_link_status_spec st address :
  link_wf st -> mid_ok st ->
  exists s, neighbor_link_status st address = Some s /\
    (s = SYM_LINK /\ sym_node st address \/ s = 0 /\ ~ sym_node st address).
Proof.
  intros Hwf Hmid. unfold neighbor_link_status. destruct (find_main_addr_safe st address Hmid) as [main Hm]. rewrite Hm. simpl.
  destruct (findM_spec (sym_via st (default address main)) (ifnet st)) as (r & -> & Hr).
  - intros i Hi. destruct (sym_via_spec st (default address main) i) as (? & -> & _); [done..|by apply (lw_ifs _ Hwf)|by eexists].
  - simpl. eexists. split; [done|]. destruct r as [i|].
    + left. split; [done|]. destruct Hr as (l1 & l2 & E & Hi & _). assert (i ∈ ifnet st) as Hin by (rewrite E; set_solver).
      exists main, i. split; [done|]. split; [done|].
      destruct (sym_via_spec st (default address main) i) as (b & Hb & Hiff); [done..|by apply (lw_ifs _ Hwf)|]. apply Hiff. congruence.
    + right. split; [done|]. intros (main' & i & Hm' & Hi & Hs). assert (main' = main) as -> by congruence.
      destruct (sym_via_spec st (default address main) i) as (b & Hb & Hiff); [done..|by apply (lw_ifs _ Hwf)|].
      apply Hiff in Hs. specialize (Hr i Hi). congruence.
Qed.

(** ** Deletion *)

(** The edge of this node that [olsr_delete_link_entry] finds. *)
Definition edge_to (d : lsdb) (addr : ip_addr) : gset positive :=
  match tc_myself d ≫= (fun me => tcs d !! me) with
  | Some t => match kt_find (edge_tree t) addr with Some e => {[e]} | None => ∅ end
  | None => ∅
  end.

Lemma wp_delete_my_edge me t addr (k : OM unit) (Q : unit -> olsr_state -> Prop) st :
  lsdb_wf (db st) -> tc_myself (db st) = Some me -> tcs (db st) !! me = Some t ->
  (forall d, edges_removed (edge_to (db st) addr) (db st) d -> wp k Q (set_db d st)) ->
  wp (let* tc_edge := olsr_lookup_tc_edge me addr in
      do* match tc_edge with Some e => olsr_delete_tc_edge_entry e | None => ret tt end in k) Q st.
Proof.
  intros Hwf Hme Ht HQ. unfold edge_to in HQ. rewrite Hme in HQ. simpl in HQ. rewrite Ht in HQ. unfold olsr_lookup_tc_edge.
  wp_step. wp_step. eapply wp_get_tc; [exact Ht|]. wp_step. wp_step.
  destruct (kt_find (edge_tree t) addr) as [e|] eqn:E.
  - apply (tree_find_Some (kt_wf := awf) _ _ _ _ (dw_edges _ Hwf _ _ Ht)) in E as (a & _ & x & Hx & _).
    eapply wp_mono; [by eapply wp_delete_edge|]. intros _ st1 [H ->]. by apply HQ.
  - wp_step. specialize (HQ (db st) (edges_removed_refl _ Hwf)). by replace (set_db (db st) st) with st in HQ by by destruct st.
Qed.

Section delete_link.
Context (st st' : olsr_state) (p : positive) (l : link_entry).
Hypothesis Hwf : link_wf st.
Hypothesis Hp : links st !! p = Some l.
Hypothesis Elinks : links st' = delete p (links st).
Hypothesis Ehead : link_entry_head st' = filter (fun q => q <> p) (link_entry_head st).

Lemma deleted_links_to q : links_to st' q = filter (fun r => r <> p) (links_to st q).
Proof.
  unfold links_to. rewrite Ehead, Elinks, !list_filter_filter. apply list_filter_iff. intros r.
  destruct (decide (r = p)) as [->|Hn]; [rewrite lookup_delete_eq; simpl; naive_solver|].
  rewrite lookup_delete_ne by done. naive_solver.
Qed.

Lemma deleted_own : length (links_to st (link_neighbor l)) = S (length (links_to st' (link_neighbor l))).
Proof.
  rewrite deleted_links_to. symmetry. apply (length_filter_neq id); rewrite map_id.
  - by apply links_to_nodup.
  - apply elem_of_links_to; [done|by exists l].
Qed.

Lemma deleted_other q : q <> link_neighbor l -> links_to st' q = links_to st q.
Proof.
  intros Hq. rewrite deleted_links_to. apply filter_all. intros r Hr ->.
  apply elem_of_links_to in Hr as (k & Hk & <-); [|done]. congruence.
Qed.

(** What remains is well formed when the neighbour's count follows. *)
Lemma delete_link_wf :
  ifnet st' = ifnet st ->
  (forall q, q <> link_neighbor l -> nbrs st' !! q = nbrs st !! q) ->
  (forall n', nbrs st' !! link_neighbor l = Some n' -> exists n, nbrs st !! link_neighbor l = Some n /\
     linkcount n' = linkcount n - 1 /\ linkcount n <> 1) ->
  (nbrs st' !! link_neighbor l = None -> exists n, nbrs st !! link_neighbor l = Some n /\ linkcount n = 1) ->
  link_wf st'.
Proof.
  intros Eifs Hoth Hown Hgone.
  assert (forall r k, links st' !! r = Some k -> r <> p /\ links st !! r = Some k) as Hl.
  { intros r k. rewrite Elinks. intros [? ?]%lookup_delete_Some. by split. }
  split; rewrite ?Eifs; try apply Hwf.
  - rewrite Ehead. apply NoDup_filter, Hwf.
  - intros r. rewrite Ehead, list_elem_of_filter, (lw_alloc _ Hwf), Elinks. destruct (decide (r = p)) as [->|Hn].
    + rewrite lookup_delete_eq. split; [by intros [? _]|by intros [? ?]].
    + rewrite lookup_delete_ne by done. tauto.
  - intros r k [Hr Hk]%Hl. destruct (decide (link_neighbor k = link_neighbor l)) as [E|E].
    + rewrite E. destruct (nbrs st' !! link_neighbor l) eqn:E2; [by eexists|]. destruct (Hgone eq_refl) as (n & Hn & Hc).
      pose proof (proj1 (lw_count _ Hwf _ _ Hn)) as Hlen. rewrite Hc in Hlen.
      assert (p ∈ links_to st (link_neighbor l)) as H1 by (apply elem_of_links_to; [done|by exists l]).
      assert (r ∈ links_to st (link_neighbor l)) as H2 by (apply elem_of_links_to; [done|by exists k]).
      destruct (links_to st (link_neighbor l)) as [|x [|y xs]]; simpl in Hlen; try lia.
      apply list_elem_of_singleton in H1, H2. congruence.
    + rewrite Hoth by done. by eapply (lw_nbr _ Hwf).
  - intros q n' Hn'. destruct (decide (q = link_neighbor l)) as [->|Hq].
    + destruct (Hown _ Hn') as (n & Hn & Hc & H1). destruct (lw_count _ Hwf _ _ Hn) as [Hlen Hpos].
      pose proof deleted_own. split; lia.
    + rewrite deleted_other by done. rewrite Hoth in Hn' by done. by apply (lw_count _ Hwf).
  - intros r q k1 k2 [_ H1]%Hl [_ H2]%Hl. by eapply (lw_key _ Hwf).
  - intros r k [_ H1]%Hl. by eapply (lw_name _ Hwf).
Qed.

End delete_link.

Lemma wp_delete_link p l me t st :
  net_wf st -> lsdb_wf (db st) -> links st !! p = Some l -> tc_myself (db st) = Some me -> tcs (db st) !! me = Some t ->
  Z.of_nat (size (links st)) < 2147483648 ->
  wp (olsr_delete_link_entry p) (fun _ st' => net_wf st' /\ lsdb_wf (db st') /\
    links st' = delete p (links st) /\ link_entry_head st' = filter (fun q => q <> p) (link_entry_head st) /\
    edges_removed (edge_to (db st) (neighbor_iface_addr l)) (db st) (db st') /\
    (forall q, q <> link_neighbor l -> nbrs st' !! q = nbrs st !! q) /\
    (nbrs st' !! link_neighbor l = None <-> links_to st (link_neighbor l) = [p]) /\
    ifnet st' = ifnet st /\ now_times st' = now_times st /\ changes_neighborhood st' = true) st.
Proof.
  intros [Hnw Hlw] Hdw Hp Hme Ht Hsize. destruct (lw_nbr _ Hlw _ _ Hp) as [n Hn]. destruct (lw_count _ Hlw _ _ Hn) as [Hc Hpos].
  assert (Hone : linkcount n = 1 <-> links_to st (link_neighbor l) = [p]).
  { rewrite Hc. assert (p ∈ links_to st (link_neighbor l)) as H1 by (apply elem_of_links_to; [done|by exists l]).
    split; [|by intros ->]. intros Hlen. destruct (links_to st (link_neighbor l)) as [|x [|y xs]]; simpl in Hlen; try lia.
    by apply list_elem_of_singleton in H1 as ->. }
  unfold olsr_delete_link_entry. wp_step. eapply wp_get_link; [exact Hp|].
  wp_step. eapply (wp_gets_opt (fun st => tc_myself (db st))); [exact Hme|].
  eapply wp_delete_my_edge; [done..|]. intros d Hd.
  wp_step. eapply wp_get_nbr; [exact Hn|]. wp_step.
  apply (wp_mono _ (fun _ st1 => nbr_wf st1 /\ nbr_frame (set_db d st) st1 /\
    (forall q, q <> link_neighbor l -> nbrs st1 !! q = nbrs st !! q) /\
    if linkcount n =? 1 then nbrs st1 !! link_neighbor l = None
    else exists n', nbrs st1 !! link_neighbor l = Some n' /\ linkcount n' = linkcount n - 1)).
  { assert (nbr_wf (set_db d st)) as Hnw1 by (by eapply nbr_wf_frame).
    destruct (linkcount n =? 1) eqn:E1.
    - wp_step. eapply wp_mono; [by apply wp_delete_neighbor|]. intros b st1 (H1 & H2 & H3). wp_step.
      rewrite (find_nbr_Some _ (set_db d st) (neighbor_main_addr n) (link_neighbor l) n Hnw1 Hn eq_refl) in H3.
      destruct H3 as (_ & -> & _). split; [done|]. split; [done|]. split; [|apply lookup_delete_eq].
      intros q Hq. by rewrite lookup_delete_ne.
    - bool_hyps. eapply wp_upd_nbr; [exact Hn|].
      assert (s32 (linkcount n - 1) = linkcount n - 1) as E2.
      { apply s32_id. unfold is_s32. assert (length (links_to st (link_neighbor l)) <= size (links st))%nat; [|lia].
        apply nodup_length_size; [by apply links_to_nodup|]. intros q (k & Hk & _)%elem_of_links_to; [by eexists|done]. }
      split; [by apply (update_nbr_wf _ (link_neighbor l) n (set_linkcount (s32 (linkcount n - 1)) n) (set_db d st))|].
      split; [done|]. split; [intros q Hq; simpl; by rewrite lookup_insert_ne|].
      eexists. split; [simpl; apply lookup_insert_eq|]. simpl. exact E2. }
  intros _u st1 (Hnw1 & Hf1 & Hoth & Hown). destruct (frame_links _ _ Hf1) as [El1 Eh1]. destruct (frame_env _ _ Hf1) as (Ed1 & Ei1 & Et1).
  simpl in El1, Eh1, Ed1, Ei1, Et1.
  wp_step. eapply wp_upd_link; [by rewrite El1|]. wp_step. wp_step. wp_step. wp_step. wp_step. simpl. rewrite delete_insert_eq, El1, Eh1, Ed1.
  split; [split|].
  - by eapply (nbr_wf_frame _ st1).
  - eapply (delete_link_wf st _ p l); simpl; try done.
    + intros n' Hn'. exists n. split; [done|]. destruct (linkcount n =? 1) eqn:E1; [congruence|]. bool_hyps.
      destruct Hown as (n2 & Hn2 & Hc2). split; [congruence|done].
    + intros Hnone. exists n. split; [done|]. destruct (linkcount n =? 1) eqn:E1; bool_hyps; [done|].
      destruct Hown as (n2 & Hn2 & _). congruence.
  - split; [apply (er_wf _ _ _ Hd)|]. split; [done|]. split; [done|]. split; [done|]. split; [done|]. split; [|done].
    rewrite <- Hone. destruct (linkcount n =? 1) eqn:E1; bool_hyps; [done|]. destruct Hown as (n2 & Hn2 & _).
    split; [congruence|done].
Qed.

(** ** Updates of one link *)

(** Only the link [p], the random numbers and the change flags differ. *)
Definition link_strip (st : olsr_state) : olsr_state :=
  set_links ∅ (set_random_count 0 (set_changes_neighborhood false (set_changes_topology false (set_link_changes false st)))).
Definition touched (p : positive) (x : link_entry) (st st' : olsr_state) : Prop :=
  links st' = <[p := x]> (links st) /\ link_strip st' = link_strip st.

Definition same_key (x l : link_entry) : Prop :=
  local_iface_addr x = local_iface_addr l /\ neighbor_iface_addr x = neighbor_iface_addr l /\
  inter x = inter l /\ if_name x = if_name l /\ link_neighbor x = link_neighbor l.

Lemma touched_refl p l st : links st !! p = Some l -> touched p l st st.
Proof. intros H. split; [by rewrite insert_id|done]. Qed.

Lemma touched_trans p x y st1 st2 st3 : touched p x st1 st2 -> touched p y st2 st3 -> touched p y st1 st3.
Proof. intros [E1 F1] [E2 F2]. split; [by rewrite E2, E1, insert_insert_eq|congruence]. Qed.

Lemma touched_here p x st st' : touched p x st st' -> links st' !! p = Some x.
Proof. intros [-> _]. apply lookup_insert_eq. Qed.

(** What a link update leaves alone. *)
Lemma strip_env st st' : link_strip st' = link_strip st ->
  db st' = db st /\ ifnet st' = ifnet st /\ now_times st' = now_times st /\ link_entry_head st' = link_entry_head st /\
  interfaces st' = interfaces st /\ main_addr st' = main_addr st.
Proof.
  intros H. split; [exact (f_equal db H)|]. split; [exact (f_equal ifnet H)|]. split; [exact (f_equal now_times H)|].
  split; [exact (f_equal link_entry_head H)|]. split; [exact (f_equal interfaces H)|exact (f_equal main_addr H)].
Qed.

Lemma strip_nbrs st st' : link_strip st' = link_strip st ->
  nbrs st' = nbrs st /\ neighbortable st' = neighbortable st /\ nbr2s st' = nbr2s st /\
  two_hop_neighbortable st' = two_hop_neighbortable st /\ mid_same st st'.
Proof.
  intros H. split; [exact (f_equal nbrs H)|]. split; [exact (f_equal neighbortable H)|]. split; [exact (f_equal nbr2s H)|].
  split; [exact (f_equal two_hop_neighbortable H)|]. split; [exact (f_equal mid_entries H)|].
  split; [exact (f_equal mid_set H)|]. split; [exact (f_equal mid_addresses H)|exact (f_equal reverse_mid_set H)].
Qed.

Lemma touched_wf p l x st st' : touched p x st st' -> links st !! p = Some l -> same_key x l -> net_wf st -> net_wf st'.
Proof.
  intros [E H] Hp (K1 & K2 & K3 & K4 & K5) [Hnw Hlw].
  destruct (strip_nbrs _ _ H) as (N1 & N2 & N3 & N4 & N5). destruct (strip_env _ _ H) as (_ & V2 & _ & V4 & _).
  split; [by eapply nbr_wf_frame|]. apply (link_wf_ext st); [done..| |by rewrite N1].
  intros q. rewrite E. destruct (decide (q = p)) as [->|Hn]; [|by rewrite lookup_insert_ne].
  rewrite lookup_insert_eq, Hp. simpl. by rewrite K2, K4, K5.
Qed.

(** Rules that keep track of the link only. *)
Lemma wp_touch p f l (Q : unit -> olsr_state -> Prop) st :
  links st !! p = Some l -> (forall st', touched p (f l) st st' -> Q tt st') -> wp (upd_link p f) Q st.
Proof. intros H HQ. eapply wp_upd_link; [exact H|]. by apply HQ. Qed.

Lemma wp_set_link_timer p l rel (Q : unit -> olsr_state -> Prop) st : links st !! p = Some l ->
  (forall t st', (rel <> 0 -> is_Some t) -> touched p (State.set_link_timer t l) st st' -> Q tt st') ->
  wp (olsr_set_link_timer p rel) Q st.
Proof.
  intros H HQ. unfold olsr_set_link_timer. wp_step. eapply wp_get_link; [exact H|]. wp_step. apply wp_set_timer.
  intros t k _ Ht. eapply wp_upd_link; [exact H|]. by eapply HQ.
Qed.

Lemma wp_set_link_sym_timer p l rel (Q : unit -> olsr_state -> Prop) st : links st !! p = Some l ->
  (forall t st', (rel <> 0 -> is_Some t) -> touched p (State.set_link_sym_timer t l) st st' -> Q tt st') ->
  wp (olsr_set_link_sym_timer p rel) Q st.
Proof.
  intros H HQ. unfold olsr_set_link_sym_timer. wp_step. eapply wp_get_link; [exact H|]. wp_step. apply wp_set_timer.
  intros t k _ Ht. eapply wp_upd_link; [exact H|]. by eapply HQ.
Qed.

Lemma wp_set_link_loss_timer p l rel (Q : unit -> olsr_state -> Prop) st : links st !! p = Some l ->
  (forall t st', touched p (State.set_link_loss_timer t l) st st' -> Q tt st') ->
  wp (olsr_set_link_loss_timer p rel) Q st.
Proof.
  intros H HQ. unfold olsr_set_link_loss_timer. wp_step. eapply wp_get_link; [exact H|]. wp_step. apply wp_set_timer.
  intros t k _ _. eapply wp_upd_link; [exact H|]. by eapply HQ.
Qed.

Lemma wp_update_hysteresis_hello p l htime (Q : unit -> olsr_state -> Prop) st : links st !! p = Some l ->
  (forall t st', touched p (State.set_link_hello_timer t l) st st' -> Q tt st') ->
  wp (olsr_update_hysteresis_hello p htime) Q st.
Proof.
  intros H HQ. unfold olsr_update_hysteresis_hello. wp_step. eapply wp_get_link; [exact H|]. wp_step. apply wp_set_timer.
  intros t k _ _. eapply wp_upd_link; [exact H|]. by eapply HQ.
Qed.

Lemma wp_loss_multiplier p l (Q : unit -> olsr_state -> Prop) st :
  links st !! p = Some l -> is_Some (if_name l) -> (forall i, i ∈ ifnet st -> is_Some (int_name i)) ->
  (forall m st', touched p (State.set_link_loss_multiplier m l) st st' -> Q tt st') ->
  wp (set_loss_link_multiplier p) Q st.
Proof.
  intros H [name Hn] Hifs HQ. unfold set_loss_link_multiplier. wp_step. eapply wp_get_link; [exact H|].
  wp_step. eapply (wp_gets_opt (fun _ => if_name l)); [exact Hn|]. wp_step.
  destruct (findM_spec (fun ifp => name' ← int_name ifp; Some (bool_decide (name' = name))) (ifnet st)) as (r & Hr & _).
  { intros i Hi. destruct (Hifs i Hi) as [n' ->]. by eexists. }
  eapply (wp_gets_opt (fun st => if_ifwithname (ifnet st) name)); [exact Hr|]. wp_step. wp_step.
  eapply wp_upd_link; [exact H|]. by eapply HQ.
Qed.

(** The hysteresis only writes its own two fields. *)
Lemma wp_process_hysteresis p l (Q : Z -> olsr_state -> Prop) st :
  links st !! p = Some l -> is_Some (link_timer l) ->
  (forall r lost pending st', touched p (set_L_LOST_LINK_time lost (set_L_link_pending pending l)) st st' -> Q r st') ->
  wp (olsr_process_hysteresis p) Q st.
Proof.
  intros H [tm Ht] HQ. unfold olsr_process_hysteresis. wp_step. eapply wp_get_link; [exact H|]. wp_step. wp_step.
  assert (forall b S, links S = links st -> link_strip S = link_strip st -> forall k : OM Z,
    (forall S', links S' = links st -> link_strip S' = link_strip st -> wp k Q S') ->
    wp (do* when b (modify (set_changes_neighborhood true)) in k) Q S) as Hflag.
  { intros b S E1 E2 k Hk. wp_step. wp_step; [wp_step; by apply Hk|by apply Hk]. }
  destruct (float_gt _ _); [|destruct (float_lt _ _)].
  - apply Hflag; [done|done|]. intros S E1 E2. wp_step. apply (wp_upd_link _ _ l); [by rewrite E1|].
    wp_step. apply wp_when; intros _; [wp_step|]; wp_step; (eapply wp_upd_link; [simpl; apply lookup_insert_eq|]); wp_step;
      (eapply HQ; split; [simpl; by rewrite E1, insert_insert_eq|exact E2]).
  - apply Hflag; [done|done|]. intros S E1 E2. wp_step. apply (wp_upd_link _ _ l); [by rewrite E1|].
    wp_step. apply wp_when; intros _; [wp_step|]; wp_step; (eapply (wp_gets_opt (fun _ => link_timer l)); [exact Ht|]);
      wp_step; (eapply wp_upd_link; [simpl; apply lookup_insert_eq|]); wp_step;
      (eapply HQ; split; [simpl; by rewrite E1, insert_insert_eq|exact E2]).
  - wp_step. apply (HQ 0 (L_LOST_LINK_time l) (L_link_pending l)).
    replace (set_L_LOST_LINK_time _ _) with l by (by destruct l). by apply touched_refl.
Qed.

(** ** Finding and creating a link *)

(** A link is refreshed under the main address [main]: no other neighbour than the
    one of the link may have that address. *)
Definition main_free (st : olsr_state) (remote main : ip_addr) (local : interface_olsr) : Prop :=
  forall p l q k, link_between st remote local p -> links st !! p = Some l ->
    nbrs st !! q = Some k -> neighbor_main_addr k = main -> q = link_neighbor l.

Lemma nbr_frame_link_wf st st' : link_wf st -> nbr_frame st st' ->
  (forall q, linkcount <$> nbrs st' !! q = linkcount <$> nbrs st !! q) -> link_wf st'.
Proof.
  intros Hwf Hf H. destruct (frame_links _ _ Hf) as [E1 E2]. destruct (frame_env _ _ Hf) as (_ & E3 & _).
  apply (link_wf_ext st); try done. intros p. by rewrite E1.
Qed.

Lemma wp_lookup_link_entry remote main local st :
  net_wf st -> is_Some (int_name local) -> main_free st remote main local ->
  wp (lookup_link_entry remote (Some main) local) (fun r st' => net_wf st' /\ nbr_frame st st' /\
    find_link st remote local = Some r /\
    match r with
    | Some p => exists l n, links st !! p = Some l /\ nbrs st !! link_neighbor l = Some n /\
        nbrs st' = <[link_neighbor l := set_neighbor_main_addr main n]> (nbrs st)
    | None => st' = st
    end) st.
Proof.
  intros [Hnw Hlw] Hname Hmain. unfold lookup_link_entry.
  destruct (find_link_spec st remote local Hlw Hname) as (r & Hf & Hr).
  wp_step. eapply (wp_gets_opt (fun st => find_link st remote local)); [exact Hf|].
  destruct r as [p|]; [|by wp_step].
  pose proof Hr as (l & Hp & _ & _). destruct (lw_nbr _ Hlw _ _ Hp) as [n Hn].
  wp_step. eapply wp_get_link; [exact Hp|]. wp_step. eapply wp_get_nbr; [exact Hn|]. wp_step. apply wp_when.
  - intros _. eapply wp_mono; [by eapply wp_update_main_addr; [| |intros q k; by eapply Hmain]|].
    intros _u st' (H1 & H2 & H3 & H4). wp_step. split; [split; [done|]|].
    + apply (nbr_frame_link_wf st); [done..|]. intros q. rewrite H3. destruct (decide (q = link_neighbor l)) as [->|Hq].
      * by rewrite lookup_insert_eq, Hn.
      * by rewrite lookup_insert_ne.
    + split; [done|]. split; [done|]. by exists l, n.
  - intros E. apply negb_false_iff, ipequal_eq in E. wp_step. split; [done|]. split; [done|]. split; [done|].
    exists l, n. split; [done|]. split; [done|]. rewrite insert_id; [done|]. rewrite Hn. by destruct n; simpl in *; subst.
Qed.

(** A link appended to the list; its neighbour, new or not, counts it. *)
Lemma add_link_wf p x q st st' :
  link_wf st -> links st !! p = None -> links st' = <[p := x]> (links st) ->
  link_entry_head st' = link_entry_head st ++ [p] -> ifnet st' = ifnet st ->
  link_neighbor x = q -> is_Some (if_name x) ->
  (forall r l, links st !! r = Some l -> neighbor_iface_addr l = neighbor_iface_addr x -> if_name l <> if_name x) ->
  (forall r, r <> q -> nbrs st' !! r = nbrs st !! r) ->
  (exists n', nbrs st' !! q = Some n' /\
    linkcount n' = from_option linkcount 0 (nbrs st !! q) + 1) -> link_wf st'.
Proof.
  intros Hwf Hp El Eh Ei Eq Hname Hkey Hoth (n' & Hn' & Hc).
  assert (p ∉ link_entry_head st) as Hpl by (rewrite (lw_alloc _ Hwf), Hp; by intros [? ?]).
  assert (forall r, links_to st' r = links_to st r ++ (if decide (r = q) then [p] else [])) as Ht.
  { intros r. unfold links_to. rewrite Eh, filter_app. f_equal.
    - apply filter_ext_in. intros s Hs. rewrite El, lookup_insert_ne by (by intros ->). done.
    - rewrite El, filter_cons, lookup_insert_eq. simpl. rewrite Eq. destruct (decide (r = q)) as [->|Hn].
      + by rewrite decide_True.
      + rewrite decide_False by congruence. done. }
  assert (nbrs st !! q = None -> links_to st q = []) as Hnone.
  { intros Hn. destruct (links_to st q) as [|r rs] eqn:E; [done|]. exfalso.
    assert (r ∈ links_to st q) as (l & Hl & Hlq)%elem_of_links_to by (by rewrite E; left || done).
    - destruct (lw_nbr _ Hwf _ _ Hl). congruence.
    - done. }
  split; rewrite ?Eh, ?Ei; try apply Hwf.
  - apply NoDup_app. split; [apply Hwf|]. split; [|apply NoDup_singleton]. intros r Hr ->%list_elem_of_singleton. done.
  - intros r. rewrite elem_of_app, list_elem_of_singleton, (lw_alloc _ Hwf), El. destruct (decide (r = p)) as [->|Hn].
    + rewrite lookup_insert_eq. split; [by eexists|by right].
    + rewrite lookup_insert_ne by done. naive_solver.
  - intros r l. rewrite El, lookup_insert_Some. intros [[<- <-]|[_ Hl]].
    + rewrite Eq. by eexists.
    + destruct (decide (link_neighbor l = q)) as [->|Hn]; [by eexists|]. rewrite Hoth by done. by eapply (lw_nbr _ Hwf).
  - intros r n Hn. rewrite Ht, length_app. destruct (decide (r = q)) as [->|Hrq].
    + assert (n = n') as -> by congruence. rewrite Hc. simpl. destruct (nbrs st !! q) as [n0|] eqn:E.
      * destruct (lw_count _ Hwf _ _ E) as [? ?]. simpl. lia.
      * rewrite (Hnone eq_refl). simpl. lia.
    + rewrite Hoth in Hn by done. simpl. destruct (lw_count _ Hwf _ _ Hn). lia.
  - intros r s l k. rewrite El, !lookup_insert_Some. intros [[<- <-]|[Hr Hl]] [[<- <-]|[Hs Hk]] E1 E2; try done.
    + by destruct (Hkey _ _ Hk).
    + by destruct (Hkey _ _ Hl).
    + by eapply (lw_key _ Hwf).
  - intros r l. rewrite El, lookup_insert_Some. intros [[<- <-]|[_ Hl]]; [done|]. by eapply (lw_name _ Hwf).
Qed.

(** What is known of a new link while it is filled in. *)
Definition filling (p : positive) (n : link_entry) (S1 S : olsr_state) : Prop :=
  exists x, touched p x S1 S /\ same_key x n /\ is_Some (link_timer x) /\ link_sym_timer x = None.

Lemma filling_step p n x f S1 S S' :
  touched p x S1 S -> same_key x n -> is_Some (link_timer x) -> link_sym_timer x = None ->
  (forall y, same_key (f y) y /\ link_timer (f y) = link_timer y /\ link_sym_timer (f y) = link_sym_timer y) ->
  touched p (f x) S S' -> filling p n S1 S'.
Proof.
  intros T K Ht Hs Hf T'. exists (f x). destruct (Hf x) as (K' & E1 & E2). split; [by eapply touched_trans|].
  split; [|by rewrite E1, E2]. destruct K as (K1 & K2 & K3 & K4 & K5), K' as (F1 & F2 & F3 & F4 & F5). split_and!; congruence.
Qed.

Lemma wp_fill_link p n vtime htime st :
  links st !! p = Some n -> link_sym_timer n = None -> is_Some (if_name n) ->
  (forall i, i ∈ ifnet st -> is_Some (int_name i)) -> vtime <> 0 ->
  wp (fill_link_entry p vtime htime) (fun _ S => filling p n st S) st.
Proof.
  intros Hp Hsym Hname Hifs Hv. unfold fill_link_entry.
  wp_step. eapply wp_set_link_timer; [exact Hp|]. intros t S1 Ht T1. specialize (Ht Hv).
  wp_step. eapply wp_touch; [by eapply touched_here|]. intros S2 T2.
  assert (filling p n st S2) as F2.
  { eapply (filling_step p n _ (set_prev_status ASYM_LINK)); [exact T1|by split_and!|done|done| |exact T2]. intros y. by split_and!. }
  wp_step. apply (wp_mono _ (fun _ S => filling p n st S)).
  { apply wp_when; intros _; [|done]. destruct F2 as (x & T & K & Hx1 & Hx2).
    wp_step. wp_step. wp_step. eapply wp_touch; [by eapply touched_here|]. intros S3 T3.
    wp_step. eapply wp_update_hysteresis_hello; [by eapply touched_here|]. intros t2 S4 T4.
    eapply wp_touch; [by eapply touched_here|]. intros S5 T5.
    pose proof (touched_trans _ _ _ _ _ _ T3 T4) as T34.
    eapply (filling_step p n x (fun l => set_olsr_seqno_valid false (set_olsr_seqno 0 (set_last_htime htime
      (State.set_link_hello_timer t2 (set_L_LOST_LINK_time (olsr_getTimestamp (now_times S2) vtime) (set_L_link_pending 1 l))))))); try done.
    by eapply touched_trans. }
  clear T1 S1 t Ht F2 T2 S2. intros _u S2 (x & T & K & Hx1 & Hx2).
  wp_step. eapply wp_touch; [by eapply touched_here|]. intros S3 T3.
  assert (filling p n st S3) as F3.
  { eapply (filling_step p n x (set_L_link_quality (S754_zero false))); [exact T|done|done|done| |exact T3]. intros y. by split_and!. }
  wp_step. apply (wp_mono _ (fun _ S => filling p n st S)).
  { apply wp_when; intros _; [|done]. clear T T3 x K Hx1 Hx2. destruct F3 as (x & T & K & Hx1 & Hx2).
    wp_step. eapply wp_touch; [by eapply touched_here|]. intros S4 T4.
    wp_step. eapply wp_set_link_loss_timer; [by eapply touched_here|]. intros t2 S5 T5.
    pose proof (touched_trans _ _ _ _ _ _ T4 T5) as T45.
    eapply wp_loss_multiplier; [by eapply touched_here| | |].
    - simpl. destruct K as (_ & _ & _ & -> & _). done.
    - intros i Hi. apply Hifs. pose proof (touched_trans _ _ _ _ _ _ T T45) as [_ E]. by rewrite (proj1 (proj2 (strip_env _ _ E))) in Hi.
    - intros m S6 T6. eapply (filling_step p n x (fun l => State.set_link_loss_multiplier m (State.set_link_loss_timer t2 (set_loss_helloint htime l)))); try done.
      by eapply touched_trans. }
  clear T T3 x K Hx1 Hx2 F3 S3 S2. intros _u2 S2 (x & T & K & Hx1 & Hx2).
  eapply wp_touch; [by eapply touched_here|]. intros S3 T3.
  eapply (filling_step p n x (set_linkcost LINK_COST_BROKEN)); [exact T|done|done|done| |exact T3]. intros y. by split_and!.
Qed.

Lemma wp_link_neighbor_entry main st :
  nbr_wf st ->
  wp (link_neighbor_entry main)
    (fun q st' => nbr_wf st' /\ nbr_frame st st' /\
      exists n, nbrs st' !! q = Some n /\ nbrs st' = <[q := n]> (nbrs st) /\
        (nbrs st !! q = Some n \/ nbrs st !! q = None /\ linkcount n = 0)) st.
Proof.
  intros Hwf. unfold link_neighbor_entry, olsr_lookup_neighbor_table, mid_lookup_main_addr. wp_step. wp_step.
  destruct (find_main_addr_safe st main (wf_mid _ _ Hwf)) as [tmp Ht].
  eapply (wp_gets_opt (fun st => find_main_addr st main)); [exact Ht|].
  eapply wp_lookup_alias; [exact Hwf| |].
  - intros q n Hq _. wp_step. split; [done|]. split; [done|]. exists n. split; [done|]. split; [by rewrite insert_id|by left].
  - intros _. eapply wp_mono; [by apply wp_insert_neighbor|]. intros q st' (H1 & H2 & H3 & H4). split; [done|]. split; [done|].
    destruct (find_nbr_correct _ st main Hwf) as ([r|] & Hf & Hr); rewrite Hf in H4.
    + destruct H4 as [-> ->]. destruct Hr as (n & Hn & _). exists n. split; [done|]. split; [by rewrite insert_id|by left].
    + destruct H4 as [Hn E]. exists (new_neighbor main). rewrite E, lookup_insert_eq. split; [done|]. split; [done|]. by right.
Qed.

(** A new link of the neighbour [q] between [remote] and the interface [i]. *)
Definition link_added (remote : ip_addr) (i : interface_olsr) (p : positive) (l : link_entry) (st st' : olsr_state) : Prop :=
  links st !! p = None /\ links st' = <[p := l]> (links st) /\ neighbor_iface_addr l = remote /\ inter l = Some i /\
  if_name l = int_name i /\ is_Some (link_timer l) /\ link_sym_timer l = None.

(** The environment of the link set. *)
Definition link_env (st st' : olsr_state) : Prop :=
  db st' = db st /\ ifnet st' = ifnet st /\ now_times st' = now_times st.

#[export] Instance link_env_preorder : PreOrder link_env.
Proof. unfold link_env. split; red; naive_solver congruence. Qed.

Lemma wp_add_link_entry local remote main vtime htime i st :
  net_wf st -> i ∈ ifnet st -> main_free st remote main i -> vtime <> 0 ->
  Z.of_nat (size (links st)) < 2147483647 ->
  wp (add_link_entry local remote main vtime htime i) (fun p st' => net_wf st' /\ link_env st st' /\
    exists l, links st' !! p = Some l /\
      match find_link st remote i with
      | Some (Some q) => p = q /\ links st' = links st /\ link_entry_head st' = link_entry_head st
      | _ => link_added remote i p l st st' /\ link_entry_head st' = link_entry_head st ++ [p]
      end) st.
Proof.
  intros Hwf Hi Hmain Hv Hsize. unfold add_link_entry. pose proof (lw_ifs _ (proj2 Hwf) _ Hi) as Hname.
  wp_step. eapply wp_mono; [by apply wp_lookup_link_entry|]. cbv beta. intros r st1 (Hwf1 & Hf1 & Hf & Hr). rewrite Hf.
  destruct r as [p|].
  { destruct Hr as (l & n & Hp & Hn & _). destruct (frame_links _ _ Hf1) as [E1 E2]. wp_step. split; [done|].
    split; [by apply frame_env|]. exists l. by rewrite E1. }
  subst st1. clear Hwf1 Hf1. destruct Hwf as [Hnw Hlw].
  destruct (find_link_spec st remote i Hlw Hname) as (r & Hf' & Hnone). assert (r = None) as -> by congruence. clear Hf'.
  wp_step. wp_step. set (p := alloc (links st)). assert (links st !! p = None) as Hp by apply alloc_fresh.
  wp_step. wp_step. set (n0 := new_link_entry local remote i). set (st1 := set_links _ st).
  wp_step. eapply wp_mono; [eapply (wp_fill_link p n0); [apply lookup_insert_eq|done|done|apply (lw_ifs _ Hlw)|done]|].
  cbv beta. intros _u st2 (x & [El2 Es2] & K & Hx1 & Hx2).
  destruct (strip_nbrs _ _ Es2) as (N1 & N2 & N3 & N4 & N5). destruct (strip_env _ _ Es2) as (V1 & V2 & V3 & V4 & _).
  wp_step. wp_step. wp_step.
  eapply wp_mono; [apply wp_link_neighbor_entry; by eapply nbr_wf_frame|]. cbv beta. intros q st3 (Hnw3 & Hf3 & n & Hn & En & Hnew).
  destruct (frame_links _ _ Hf3) as [L1 L2]. destruct (frame_env _ _ Hf3) as (W1 & W2 & W3). simpl in L1, L2, W1, W2, W3.
  wp_step. eapply wp_upd_nbr; [exact Hn|].
  wp_step. eapply wp_upd_link; [simpl; rewrite L1, El2; apply lookup_insert_eq|]. wp_step. simpl.
  simpl in En, Hnew. rewrite N1 in En, Hnew. simpl in En, Hnew.
  assert (links st3 = <[p := x]> (links st)) as EL by (by rewrite L1, El2; simpl; rewrite insert_insert_eq).
  rewrite EL, insert_insert_eq. destruct K as (K1 & K2 & K3 & K4 & K5).
  assert (s32 (linkcount n + 1) = linkcount n + 1) as Ec.
  { apply s32_id. unfold is_s32. destruct Hnew as [Hold|[_ E0]]; [|lia]. destruct (lw_count _ Hlw _ _ Hold) as [Hc _].
    assert (length (links_to st q) <= size (links st))%nat; [|lia].
    apply nodup_length_size; [by apply links_to_nodup|]. intros r (k & Hk & _)%elem_of_links_to; [by eexists|done]. }
  rewrite Ec. split; [split|].
  - by apply (update_nbr_wf _ q n (set_linkcount (linkcount n + 1) n) st3).
  - apply (add_link_wf p (set_link_neighbor q x) q st); simpl; try done.
    + by rewrite L2, V4.
    + by rewrite W2, V2.
    + by rewrite K4.
    + intros r l Hl E1 E2. apply (Hnone r). exists l. rewrite K2 in E1. rewrite K4 in E2. by split_and!.
    + intros r Hr. by rewrite En, !lookup_insert_ne.
    + eexists. split; [apply lookup_insert_eq|]. simpl. f_equal. destruct Hnew as [->|[-> ->]]; done.
  - split; [by unfold link_env; simpl; rewrite W1, W2, W3, V1, V2, V3|]. eexists. split; [apply lookup_insert_eq|].
    split; [|by rewrite L2, V4]. split; [done|]. split; [done|]. simpl. by rewrite K2, K3, K4.
Qed.

(** ** The status of a neighbour follows its links *)

Lemma wp_update_status p n s st :
  net_wf st -> nbrs st !! p = Some n ->
  wp (update_neighbor_status p s) (fun _ st' => net_wf st' /\ nbr_frame st st' /\
    exists n', nbrs st' !! p = Some n' /\ status n' = status_of s) st.
Proof.
  intros [Hnw Hlw] Hp. eapply wp_mono; [by apply wp_update_neighbor_status|].
  intros r st' (H1 & H2 & _ & -> & (drop & H3 & _ & Hd) & _).
  assert (forall k, linkcount (drop k) = linkcount k) as Hdc by (intros k; by destruct Hd as [->|[q ->]]).
  split; [split; [done|]|].
  - apply (nbr_frame_link_wf st); [done..|]. intros q. rewrite H3. destruct (decide (q = p)) as [->|Hq].
    + rewrite lookup_insert_eq, Hp. simpl. by rewrite Hdc.
    + rewrite lookup_insert_ne, lookup_fmap by done. destruct (nbrs st !! q); simpl; [|done]. by rewrite Hdc.
  - split; [done|]. eexists. by rewrite H3, lookup_insert_eq.
Qed.

Lemma frame_sym_node st st' a : nbr_frame st st' -> sym_node st' a <-> sym_node st a.
Proof.
  intros H. pose proof (frame_mid _ _ H) as Hm. destruct (frame_links _ _ H) as [E1 E2]. destruct (frame_env _ _ H) as (_ & E3 & E4).
  assert (forall l, link_status st' l = link_status st l) as Es by (intros l; unfold link_status; by rewrite E2, E4).
  unfold sym_node, sym_node_via, sym_between, link_between.
  rewrite (mid_same_main _ _ a Hm), E1, E3. setoid_rewrite Es. setoid_rewrite (mid_same_aliases _ _ _ Hm).
  destruct Hm as (_ & _ & E5 & _). by rewrite E5.
Qed.

Lemma wp_follow_links {A} p n a (k : OM A) (Q : A -> olsr_state -> Prop) st :
  net_wf st -> nbrs st !! p = Some n ->
  (forall st', net_wf st' -> nbr_frame st st' ->
     (exists n', nbrs st' !! p = Some n' /\ (status n' = SYM <-> sym_node st' a)) -> wp k Q st') ->
  wp (let* s := get_neighbor_status a in let* _ := update_neighbor_status p s in k) Q st.
Proof.
  intros Hwf Hp HQ. pose proof Hwf as [Hnw Hlw].
  destruct (neighbor_link_status_spec st a Hlw (wf_mid _ _ Hnw)) as (s & Hs & Hcase).
  wp_step. eapply (wp_gets_opt (fun st => neighbor_link_status st a)); [exact Hs|]. wp_step.
  eapply wp_mono; [by eapply wp_update_status|]. intros _u st' (H1 & H2 & n' & H3 & H4). apply HQ; [done|done|].
  exists n'. split; [done|]. rewrite (frame_sym_node st st' a H2), H4. unfold status_of.
  destruct Hcase as [[-> Hy]|[-> Hn]]; simpl; split; done.
Qed.

(** ** Receiving a HELLO: [update_link_entry] *)

(** The status of the link after a HELLO that reports [s] for it; [was_sym]: it was
    symmetric before. *)
Definition heard_status (s : Z) (was_sym : bool) : Z :=
  if (s =? SYM_LINK) || (s =? ASYM_LINK) then SYM_LINK
  else if (s =? LOST_LINK) then ASYM_LINK
  else if was_sym then SYM_LINK else ASYM_LINK.

Definition is_sym (o : option timer_entry) : bool := match o with Some _ => true | None => false end.

Lemma heard_status_timers st l s was_sym now d :
  use_hysteresis = false -> link_entry_head st <> [] -> now_times st = now -> is_u32 now -> 1 <= d < 2147483648 ->
  ASYM_time l = olsr_getTimestamp now d ->
  is_sym (link_sym_timer l) = (if (s =? SYM_LINK) || (s =? ASYM_LINK) then true else if s =? LOST_LINK then false else was_sym) ->
  link_status st l = heard_status s was_sym.
Proof.
  intros Hh Hne <- Hn Hd Ha Hs. unfold link_status, heard_status. rewrite Hh, Ha.
  pose proof (timed_out_after (now_times st) d 0 Hn ltac:(lia) ltac:(lia)) as E. rewrite Z.add_0_r, (u32_id (now_times st)) in E by done.
  rewrite E, bool_decide_eq_false_2 by lia. simpl. destruct (link_entry_head st); [done|].
  unfold is_sym in Hs. destruct (link_sym_timer l); destruct (_ || _); destruct (s =? LOST_LINK); try done; by subst was_sym.
Qed.

(** The timers that the HELLO sets. *)
Lemma wp_hello_timers p l s vtime st :
  links st !! p = Some l -> 2 <= vtime < 2147483648 ->
  wp (if s =? LOST_LINK then upd_link p (State.set_link_sym_timer None)
      else if (s =? SYM_LINK) || (s =? ASYM_LINK) then
        do* olsr_set_link_sym_timer p vtime in
        olsr_set_link_timer p (u32 (vtime + NEIGHB_HOLD_TIME * MSEC_PER_SEC))
      else ret tt) (fun _ st' => exists x, touched p x st st' /\ same_key x l /\ prev_status x = prev_status l /\
    ASYM_time x = ASYM_time l /\
    is_sym (link_sym_timer x) = if (s =? SYM_LINK) || (s =? ASYM_LINK) then true else if s =? LOST_LINK then false
                                else is_sym (link_sym_timer l)) st.
Proof.
  intros Hp Hv. destruct (s =? LOST_LINK) eqn:E1; [|destruct (_ || _) eqn:E2].
  - eapply wp_touch; [exact Hp|]. intros S T. bool_hyps. subst s. eexists. split; [exact T|]. by split_and!.
  - wp_step. eapply wp_set_link_sym_timer; [exact Hp|]. intros t S1 Ht T1. destruct (Ht ltac:(lia)) as [tm ->].
    eapply wp_set_link_timer; [by eapply touched_here|]. intros t2 S2 _ T2. eexists. split; [by eapply touched_trans|]. by split_and!.
  - apply wp_ret. exists l. split; [by apply touched_refl|]. by split_and!.
Qed.

Definition link_was_sym (st : olsr_state) (remote : ip_addr) (i : interface_olsr) : bool :=
  match find_link st remote i with
  | Some (Some p) => match links st !! p with Some l => is_sym (link_sym_timer l) | None => false end
  | _ => false
  end.

Definition hello_heard (m : hello_message) (i : interface_olsr) (was_sym : bool) (p : positive) (st st' : olsr_state) : Prop :=
  let s := u8 (check_link_status m i) in
  exists l n, links st' !! p = Some l /\ prev_status l = s /\ is_Some (link_timer l) /\
    (use_hysteresis = false -> link_status st' l = heard_status s was_sym) /\
    nbrs st' !! link_neighbor l = Some n /\ (status n = SYM <-> sym_node st' (neighbor_iface_addr l)).

Lemma wp_update_link_entry local remote m i st :
  net_wf st -> i ∈ ifnet st -> main_free st remote (hello_source_addr m) i -> is_u32 (now_times st) ->
  2 <= hello_vtime m < 2147463648 -> Z.of_nat (size (links st)) < 2147483647 ->
  wp (update_link_entry local remote m i) (fun p st' => net_wf st' /\ link_env st st' /\
    link_between st' remote i p /\ (forall q, q <> p -> links st' !! q = links st !! q) /\
    hello_heard m i (link_was_sym st remote i) p st st') st.
Proof.
  intros Hwf Hi Hmain Hnow Hv Hsize. unfold update_link_entry. set (vtime := hello_vtime m) in *. set (s := u8 (check_link_status m i)).
  wp_step. eapply wp_mono; [apply wp_add_link_entry; try done; lia|]. cbv beta. intros p st1 (Hwf1 & Henv1 & l & Hp & Hl).
  assert (link_between st1 remote i p /\ (forall q, q <> p -> links st1 !! q = links st !! q) /\
    link_entry_head st1 <> [] /\ is_sym (link_sym_timer l) = link_was_sym st remote i) as (Hb & Hoth & Hhead & Hwas).
  { unfold link_was_sym. destruct (find_link_spec st remote i (proj2 Hwf) (lw_ifs _ (proj2 Hwf) _ Hi)) as (r & Hf & Hr). rewrite Hf in Hl |- *.
    destruct r as [q|].
    - destruct Hl as (-> & El & Eh). rewrite El in Hp |- *. rewrite Hp. split; [|split; [done|split; [|done]]].
      + destruct Hr as (l' & Hl' & ?). exists l'. by rewrite El.
      + rewrite Eh. intros E. destruct Hr as (l' & Hl' & _). assert (q ∈ link_entry_head st) as Hq by (apply (lw_alloc _ (proj2 Hwf)); by eexists).
        rewrite E in Hq. by apply not_elem_of_nil in Hq.
    - destruct Hl as [(Hnone & El & E1 & E2 & E3 & _ & Es) Eh]. split; [by exists l|]. split; [intros q Hq; by rewrite El, lookup_insert_ne|].
      split; [rewrite Eh; by destruct (link_entry_head st)|by rewrite Es]. }
  destruct Henv1 as (V1 & V2 & V3).
  wp_step. wp_step. wp_step. eapply wp_touch; [exact Hp|]. intros st2 T2. set (l2 := set_prev_status s _) in T2.
  wp_step. eapply wp_mono; [eapply (wp_hello_timers p l2 s vtime); [by eapply touched_here|lia]|].
  cbv beta. intros _u st3 (l3 & T3 & K3 & P3 & A3 & S3). pose proof (touched_trans _ _ _ _ _ _ T2 T3) as T13.
  wp_step. eapply wp_get_link; [by eapply touched_here|]. rewrite V3.
  wp_step. apply (wp_mono _ (fun _ st4 => exists l4, touched p l4 st1 st4 /\ same_key l4 l3 /\ prev_status l4 = s /\
    ASYM_time l4 = olsr_getTimestamp (now_times st) vtime /\ link_sym_timer l4 = link_sym_timer l3 /\ is_Some (link_timer l4))).
  { apply wp_when.
    - intros _. eapply wp_set_link_timer; [by eapply touched_here|]. intros t st4 Ht T4.
      eexists. split; [by eapply touched_trans|]. split; [by split_and!|]. split; [exact P3|]. split; [by simpl; rewrite A3; simpl; rewrite V3|].
      split; [done|]. apply Ht. rewrite A3. simpl. rewrite V3. apply time_due_ahead; [done|lia].
    - intros E. exists l3. split; [done|]. split; [by split_and!|]. split; [done|]. split; [by simpl; rewrite A3; simpl; rewrite V3|].
      split; [done|]. destruct (link_timer l3); [by eexists|done]. }
  intros _u4 st4 (l4 & T4 & K4 & P4 & A4 & S4 & Ht4).
  wp_step. apply (wp_mono _ (fun _ st5 => exists l5, touched p l5 st1 st5 /\ same_key l5 l3 /\ prev_status l5 = s /\
    ASYM_time l5 = olsr_getTimestamp (now_times st) vtime /\ link_sym_timer l5 = link_sym_timer l3 /\ is_Some (link_timer l5))).
  { apply wp_when; intros _; [|exists l4; by split_and!]. wp_step. eapply wp_process_hysteresis; [by eapply touched_here|done|].
    intros r lost pending st5 T5. wp_step. eexists. split; [by eapply touched_trans|]. by split_and!. }
  clear st4 l4 T4 K4 P4 A4 S4 Ht4. intros _u5 st4 (l4 & T4 & K4 & P4 & A4 & S4 & Ht4).
  assert (same_key l4 l) as K.
  { destruct K3 as (? & ? & ? & ? & ?), K4 as (? & ? & ? & ? & ?). split_and!; simpl in *; congruence. }
  assert (net_wf st4) as Hwf4 by (by eapply touched_wf).
  destruct T4 as [El4 Es4]. destruct (strip_env _ _ Es4) as (W1 & W2 & W3 & W4 & _).
  assert (links st4 !! p = Some l4) as Hp4 by (rewrite El4; apply lookup_insert_eq).
  destruct (lw_nbr _ (proj2 Hwf4) _ _ Hp4) as [n Hn].
  assert (link_neighbor l3 = link_neighbor l4) as -> by (symmetry; apply K4).
  eapply wp_follow_links; [exact Hwf4|exact Hn|]. intros st5 Hwf5 Hf5 (n' & Hn' & Hst). wp_step.
  destruct (frame_links _ _ Hf5) as [X1 X2]. destruct (frame_env _ _ Hf5) as (Y1 & Y2 & Y3).
  destruct Hb as (l0 & Hl0 & B1 & B2). assert (l0 = l) as -> by congruence.
  destruct K as (_ & K2 & _ & K5 & K6).
  split; [done|]. split; [by unfold link_env; rewrite Y1, Y2, Y3, W1, W2, W3|]. split; [exists l4; rewrite X1; split_and!; congruence|].
  split; [intros q Hq; rewrite X1, El4, lookup_insert_ne by done; by apply Hoth|].
  exists l4, n'. split; [by rewrite X1|]. split; [done|]. split; [done|]. split; [|split; [done|by rewrite K2, B1]].
  intros Hh. eapply (heard_status_timers _ _ _ _ (now_times st) vtime); try done.
  - by rewrite X2, W4.
  - by rewrite Y3, W3, V3.
  - lia.
  - rewrite S4, S3. simpl. by rewrite Hwas.
Qed.

End link_proofs.
