(* ===== verification/LinkBest.v ===== *)
(** * The choice of the best link to a neighbour *)

From S2P Require Import Prelude Timer Avl IpAddr KeyTree State MidLookup Interfaces NeighTable NeighProofs LsdbOps Lq Hysteresis.
From S2P Require Import RouteTable TcSet LinkSet LsdbProofs LinkProofs.

Section link_best.
Context {cnf : olsrd_config} {lqh : lq_handler}.

(** The link [p] leads to the neighbour with the main address [main]. *)
Definition link_of (st : olsr_state) (main : ip_addr) (p : positive) (l : link_entry) : Prop :=
  links st !! p = Some l /\ exists n, nbrs st !! link_neighbor l = Some n /\ neighbor_main_addr n = main.

(** ** What the choice depends on *)

Section frame.
Context (st st' : olsr_state).
Hypothesis Hmid : mid_same st st'.
Hypothesis Hhead : link_entry_head st' = link_entry_head st.
Hypothesis Hif : ifnet st' = ifnet st.
Hypothesis Hnow : now_times st' = now_times st.
Hypothesis Hlinks : forall p, set_inter None <$> links st' !! p = set_inter None <$> links st !! p.
Hypothesis Hmain : forall p, neighbor_main_addr <$> nbrs st' !! p = neighbor_main_addr <$> nbrs st !! p.

Lemma link_status_ext l l' : set_inter None l' = set_inter None l -> link_status st' l' = link_status st l.
Proof. intros E. unfold link_status. rewrite Hhead, Hnow. destruct l, l'. simpl in *. injection E as. by subst. Qed.

Lemma link_interface_ext l l' : set_inter None l' = set_inter None l -> link_interface st' l' = link_interface st l.
Proof. intros E. unfold link_interface. rewrite Hif. destruct l, l'. simpl in *. injection E as. by subst. Qed.

Lemma best_link_step_ext m a b p : best_link_step st' m a b p = best_link_step st m a b p.
Proof.
  unfold best_link_step. pose proof (Hlinks p) as E.
  destruct (links st' !! p) as [l'|], (links st !! p) as [l|]; simpl in E |- *; try done. apply (inj Some) in E.
  assert (link_neighbor l' = link_neighbor l /\ linkcost l' = linkcost l /\ local_iface_addr l' = local_iface_addr l) as (F1 & F2 & F3)
    by (destruct l, l'; simpl in *; injection E as; by subst).
  rewrite F1, F3. pose proof (Hmain (link_neighbor l)) as En. unfold walker_metric.
  rewrite F2, (link_interface_ext _ _ E), (link_status_ext _ _ E).
  destruct (nbrs st' !! link_neighbor l), (nbrs st !! link_neighbor l); simpl in *; try done. injection En as En. by rewrite En.
Qed.

Lemma find_best_link_ext a : find_best_link st' a = find_best_link st a.
Proof.
  unfold find_best_link. rewrite (mid_same_main st st' a Hmid), Hhead.
  assert (forall m b l, best_link_loop st' m a b l = best_link_loop st m a b l) as Hloop.
  { intros m b l. revert b. induction l as [|p l IH]; intros b; simpl; [done|]. rewrite best_link_step_ext.
    destruct (best_link_step st m a b p); simpl; [apply IH|done]. }
  destruct (find_main_addr st a); simpl; [|done]. by rewrite Hloop.
Qed.

End frame.

Lemma walker_metric_safe st l : link_wf st -> exists m, walker_metric st l = Some m.
Proof.
  intros Hwf. unfold walker_metric, link_interface, if_ifwithname. destruct (lq_level =? 0); [|by eexists].
  destruct (if_name l) as [name|]; [|by eexists].
  destruct (findM_spec (fun ifp => name' ← int_name ifp; Some (bool_decide (name' = name))) (ifnet st)) as (r & -> & _); [|by eexists].
  intros i Hi. destruct (lw_ifs _ Hwf _ Hi) as [n' ->]. by eexists.
Qed.

(** What the variables of the loop refer to. *)
Definition best_ok (st : olsr_state) (main : ip_addr) (b : best_link) : Prop :=
  (forall p, good_link b = Some p -> exists l, link_of st main p l /\ link_status st l = SYM_LINK) /\
  (forall p, backup_link b = Some p -> exists l, link_of st main p l).

Lemma best_link_step_ok st main remote b p l :
  link_wf st -> links st !! p = Some l -> best_ok st main b ->
  exists b', best_link_step st main remote b p = Some b' /\ best_ok st main b'.
Proof.
  intros Hwf Hp [Hg Hb]. unfold best_link_step. rewrite Hp. simpl.
  destruct (lw_nbr _ Hwf _ _ Hp) as [n Hn]. rewrite Hn. simpl.
  destruct (ipequal ip_version (neighbor_main_addr n) main) eqn:E; simpl; [|by exists b].
  apply ipequal_eq in E. assert (link_of st main p l) as Hlo by (split; [done|by exists n]).
  destruct (walker_metric_safe st l Hwf) as [m ->]. simpl. destruct m as [m|]; [|by exists b].
  destruct (_ || _); [|by exists b].
  destruct (link_status st l =? SYM_LINK) eqn:Es; bool_hyps; eexists; (split; [done|]); split; simpl; try done;
    intros q [= <-]; by exists l.
Qed.

Lemma best_link_loop_ok st main remote l b :
  link_wf st -> (forall p, p ∈ l -> is_Some (links st !! p)) -> best_ok st main b ->
  exists b', best_link_loop st main remote b l = Some b' /\ best_ok st main b'.
Proof.
  intros Hwf. revert b. induction l as [|p l IH]; intros b Hl Hb; simpl; [by exists b|].
  destruct (Hl p) as [k Hk]; [left|]. destruct (best_link_step_ok st main remote b p k) as (b' & -> & Hb'); [done..|]. simpl.
  apply IH; [|done]. intros q Hq. apply Hl. by right.
Qed.

Definition main_of (st : olsr_state) (remote : ip_addr) : ip_addr := default remote (default None (find_main_addr st remote)).

(** The search reads allocated memory only; what it finds is a link to the neighbour. *)
Lemma find_best_link_ok st remote :
  net_wf st -> exists r, find_best_link st remote = Some r /\
    forall p, r = Some p -> exists l, link_of st (main_of st remote) p l.
Proof.
  intros [Hnw Hlw]. unfold find_best_link, main_of. destruct (find_main_addr_safe st remote (wf_mid _ _ Hnw)) as [main Hm]. rewrite Hm. simpl.
  destruct (best_link_loop_ok st (default remote main) remote (link_entry_head st)
    {| curr := if lq_level =? 0 then MAX_IF_METRIC else LINK_COST_BROKEN; good_link := None; backup_link := None |}) as (b & Hb & Hg & Hbk); [done| |by split|].
  - intros p. apply (lw_alloc _ Hlw).
  - change ip_addr with Z in *. rewrite Hb. simpl. eexists. split; [done|]. intros p. destruct (good_link b) as [q|]; [|by apply Hbk].
    intros [= <-]. destruct (Hg q eq_refl) as (l & H & _). by exists l.
Qed.

(** The step at a link to the neighbour. *)
Lemma best_link_step_at st main remote b p l m :
  link_of st main p l -> walker_metric st l = Some (Some m) ->
  best_link_step st main remote b p = Some
    (if (m <? curr b) || ((m =? curr b) && ipequal ip_version (local_iface_addr l) remote)
     then if link_status st l =? SYM_LINK
       then {| curr := m; good_link := Some p; backup_link := backup_link b |}
       else {| curr := m; good_link := good_link b; backup_link := Some p |}
     else b).
Proof.
  intros [Hp (n & Hn & <-)] Hm. unfold best_link_step. rewrite Hp. simpl. rewrite Hn. simpl. rewrite ipequal_refl. simpl.
  rewrite Hm. simpl. by repeat case_match.
Qed.

(** ** The cheapest symmetric link *)

(** The links that [best_link_loop] has passed. *)
Record best_so_far (st : olsr_state) (main : ip_addr) (done : list positive) (b : best_link) : Prop := {
  bs_good p : good_link b = Some p -> p ∈ done /\ exists l, link_of st main p l /\ link_status st l = SYM_LINK /\ linkcost l = curr b;
  bs_none : good_link b = None -> curr b = LINK_COST_BROKEN;
  bs_backup : backup_link b = None;
  bs_least p l : p ∈ done -> link_of st main p l -> curr b <= linkcost l;
  bs_curr : curr b <= LINK_COST_BROKEN;
}.

(** With link quality a link that is not symmetric counts as broken, and no link is to
    an interface of this node itself. *)
Definition quality_shows (st : olsr_state) (main remote : ip_addr) : Prop :=
  forall p l, link_of st main p l ->
    (link_status st l <> SYM_LINK -> LINK_COST_BROKEN <= linkcost l) /\ local_iface_addr l <> remote /\ linkcost l <= LINK_COST_BROKEN.

Lemma best_step_cheapest st main remote done b p :
  lq_level <> 0 -> link_wf st -> quality_shows st main remote -> is_Some (links st !! p) -> best_so_far st main done b ->
  exists b', best_link_step st main remote b p = Some b' /\ best_so_far st main (done ++ [p]) b'.
Proof.
  intros Hlq Hwf Hq [l Hp] [B1 B2 B3 B4 B5]. unfold best_link_step. rewrite Hp. simpl.
  destruct (lw_nbr _ Hwf _ _ Hp) as [n Hn]. rewrite Hn. simpl.
  assert (forall q k, q ∈ done ++ [p] -> link_of st main q k -> q ∈ done \/ q = p /\ k = l) as Hin.
  { intros q k [?| ->%list_elem_of_singleton]%elem_of_app [Hk _]; [by left|right]. split; congruence. }
  destruct (ipequal ip_version (neighbor_main_addr n) main) eqn:E; simpl.
  2: { exists b. split; [reflexivity|]. split; [|exact B2|exact B3| |exact B5].
    - intros q Hg. destruct (B1 q Hg) as [? ?]. split; [set_solver|assumption].
    - intros q k Hqd Hk. destruct (Hin q k Hqd Hk) as [Hd|[-> ->]]; [by apply (B4 q)|].
      destruct Hk as [_ (n' & Hn' & Ha)]. assert (n' = n) as -> by congruence. rewrite Ha in E. by rewrite ipequal_refl in E. }
  apply ipequal_eq in E. assert (link_of st main p l) as Hlo by (split; [exact Hp|by exists n]).
  destruct (Hq p l Hlo) as (Q1 & Q2 & Q3). unfold walker_metric. destruct (lq_level =? 0) eqn:E0; [by apply Z.eqb_eq in E0|]. simpl.
  assert (ipequal ip_version (local_iface_addr l) remote = false) as -> by (destruct (ipequal _ _ _) eqn:E1; [by apply ipequal_eq in E1|reflexivity]).
  rewrite andb_false_r, orb_false_r. simpl. destruct (linkcost l <? curr b) eqn:E1; bool_hyps.
  - destruct (link_status st l =? SYM_LINK) eqn:E2; bool_hyps; [|specialize (Q1 E2); lia].
    eexists. split; [reflexivity|]. split; simpl; [|discriminate|exact B3| |lia].
    + intros q [= <-]. split; [set_solver|]. by exists l.
    + intros q k Hqd Hk. destruct (Hin q k Hqd Hk) as [Hd|[-> ->]]; [|lia]. pose proof (B4 q k Hd Hk). lia.
  - exists b. split; [reflexivity|]. split; [|exact B2|exact B3| |exact B5].
    + intros q Hg. destruct (B1 q Hg) as [? ?]. split; [set_solver|assumption].
    + intros q k Hqd Hk. destruct (Hin q k Hqd Hk) as [Hd|[-> ->]]; [by apply (B4 q)|lia].
Qed.

Lemma best_loop_cheapest st main remote done rest b :
  lq_level <> 0 -> link_wf st -> quality_shows st main remote -> (forall p, p ∈ rest -> is_Some (links st !! p)) ->
  best_so_far st main done b ->
  exists b', best_link_loop st main remote b rest = Some b' /\ best_so_far st main (done ++ rest) b'.
Proof.
  intros Hlq Hwf Hq. revert done b. induction rest as [|p rest IH]; intros done b Hr Hb; simpl.
  - exists b. by rewrite app_nil_r.
  - destruct (best_step_cheapest st main remote done b p) as (b' & -> & Hb'); [assumption..|apply Hr; left|assumption|]. simpl.
    destruct (IH (done ++ [p]) b') as (b2 & -> & Hb2); [intros q Hin; apply Hr; by right|assumption|].
    exists b2. by rewrite <- app_assoc in Hb2.
Qed.

(** with link quality on and costs that reflect it, [get_best_link_to_neighbor]
    returns a symmetric link of the neighbour of least cost, and nothing only if all
    links to it are broken. *)
Theorem get_best_link_cheapest st remote :
  lq_level <> 0 -> net_wf st -> quality_shows st (main_of st remote) remote ->
  wp (get_best_link_to_neighbor remote) (fun r st' => st' = st /\
    match r with
    | Some p => exists l, link_of st (main_of st remote) p l /\ link_status st l = SYM_LINK /\
        forall q k, link_of st (main_of st remote) q k -> linkcost l <= linkcost k
    | None => forall q k, link_of st (main_of st remote) q k -> linkcost k = LINK_COST_BROKEN
    end) st.
Proof.
  intros Hlq [Hnw Hlw] Hq. unfold get_best_link_to_neighbor, main_of in *.
  destruct (find_main_addr_safe st remote (wf_mid _ _ Hnw)) as [main Hm]. rewrite Hm in *. simpl in *.
  destruct (best_loop_cheapest st (default remote main) remote [] (link_entry_head st)
    {| curr := LINK_COST_BROKEN; good_link := None; backup_link := None |}) as (b & Hb & [B1 B2 B3 B4 B5]); [done..| | |].
  { intros p. apply (lw_alloc _ Hlw). }
  { split; simpl; try done. by intros p l ?%not_elem_of_nil. }
  assert (forall q k, link_of st (default remote main) q k -> q ∈ link_entry_head st) as Hin.
  { intros q k [Hk _]. apply (lw_alloc _ Hlw). by eexists. }
  eapply (wp_gets_opt (fun st => find_best_link st remote)).
  { unfold find_best_link. rewrite Hm. simpl. destruct (lq_level =? 0) eqn:E0; [by apply Z.eqb_eq in E0|]. rewrite Hb. reflexivity. }
  split; [done|]. rewrite B3. destruct (good_link b) as [p|] eqn:Eg.
  - destruct (B1 p eq_refl) as (_ & l & H1 & H2 & H3). exists l. split; [done|]. split; [done|].
    intros q k Hk. rewrite H3. apply (B4 q); [|done]. by eapply Hin.
  - intros q k Hk. specialize (B2 eq_refl). pose proof (B4 q k (Hin _ _ Hk) Hk). destruct (Hq q k Hk) as (_ & _ & Hle). lia.
Qed.

(** ** The status of the sender of a message *)

(** The link whose far end has this address, the first one in the list. *)
Definition link_from (st : olsr_state) (a : ip_addr) : option link_entry :=
  match filter (fun p => neighbor_iface_addr <$> links st !! p = Some a) (link_entry_head st) with
  | p :: _ => links st !! p
  | [] => None
  end.
Definition sender_status (st : olsr_state) (a : ip_addr) : Z :=
  match link_from st a with Some l => link_status st l | None => UNSPEC_LINK end.

Lemma wp_check_neighbor_link a (Q : Z -> olsr_state -> Prop) st :
  link_wf st -> Q (sender_status st a) st -> wp (check_neighbor_link a) Q st.
Proof.
  intros Hwf HQ. unfold check_neighbor_link, OLSR_FOR_ALL_LINK_ENTRIES. wp_step. wp_step. unfold sender_status, link_from in HQ.
  assert (forall p, p ∈ link_entry_head st -> is_Some (links st !! p)) as Hal by (intros p; apply (lw_alloc _ Hwf)).
  wp_step. revert Hal HQ. generalize (link_entry_head st). intros l Hal HQ.
  enough (exists r, findM (fun p => l ← links st !! p; Some (ipequal ip_version a (neighbor_iface_addr l))) l = Some r /\
    wp (match r with Some p => lookup_link_status (Some p) | None => ret UNSPEC_LINK end) Q st) as (r & Hr & H)
    by (eapply wp_gets_opt; [exact Hr|exact H]).
  induction l as [|p l IH]; simpl; [by exists None|]. destruct (Hal p) as [x Hx]; [left|]. rewrite Hx. simpl.
  rewrite filter_cons, Hx in HQ. simpl in HQ. destruct (ipequal ip_version a (neighbor_iface_addr x)) eqn:E.
  - apply ipequal_eq in E. rewrite decide_True in HQ by congruence. exists (Some p). split; [done|].
    unfold lookup_link_status. wp_step. eapply wp_get_link; [exact Hx|]. wp_step. by rewrite Hx in HQ.
  - rewrite decide_False in HQ; [|intros [= <-]; by rewrite ipequal_refl in E]. apply IH; [|done]. intros q Hq. apply Hal. by right.
Qed.

End link_best.
