(* ===== verification/VertexProofs.v ===== *)
(** * Invariant of the link state database: route paths and vertices *)

From S2P Require Import Prelude Timer Avl IpAddr KeyTree State LsdbOps Lq RouteTable TcSet LsdbProofs.

Section vertex.
Context {cnf : olsrd_config} {lqh : lq_handler}.

(** ** Addresses of vertices *)

Lemma addr_lookup {d d' p t'} :
  tc_addr <$> tcs d' = tc_addr <$> tcs d -> tcs d' !! p = Some t' ->
  exists t, tcs d !! p = Some t /\ tc_addr t' = tc_addr t.
Proof.
  intros E Hp. apply (f_equal (lookup p)) in E. rewrite !lookup_fmap, Hp in E.
  destruct (tcs d !! p) as [t|]; [|done]. injection E as E. by exists t.
Qed.

Lemma opposite_addr d d' e f :
  edges d' = edges d -> tc_addr <$> tcs d' = tc_addr <$> tcs d -> opposite d' e f <-> opposite d e f.
Proof.
  assert (forall d d', edges d' = edges d -> tc_addr <$> tcs d' = tc_addr <$> tcs d ->
    opposite d' e f -> opposite d e f) as H.
  { intros d1 d2 E1 E2 (x & y & s & t & Hx & Hy & Hs & Ht & K1 & K2). rewrite E1 in Hx, Hy.
    destruct (addr_lookup E2 Hs) as (s0 & Hs0 & C1), (addr_lookup E2 Ht) as (t0 & Ht0 & D1).
    rewrite D1 in K1. rewrite C1 in K2. by exists x, y, s0, t0. }
  intros E1 E2. split; by apply H.
Qed.

Lemma vertex_addr d d' p a : tc_addr <$> tcs d' = tc_addr <$> tcs d -> vertex d' p a <-> vertex d p a.
Proof.
  intros E. unfold vertex. split.
  - intros (t' & Hp & <-). destruct (addr_lookup E Hp) as (t & ? & ->). by exists t.
  - intros (t & Hp & <-). destruct (addr_lookup (eq_sym E) Hp) as (t' & ? & ->). by exists t'.
Qed.

(** ** Removing a route path *)

Definition clear_best (p : positive) (y : rt_entry) : rt_entry :=
  if decide (rt_best y = Some p) then set_rt_best None y else y.

Lemma clear_best_fields p y : rt_dst (clear_best p y) = rt_dst y /\ rt_path_tree (clear_best p y) = rt_path_tree y /\
  rt_best (clear_best p y) = (if decide (rt_best y = Some p) then None else rt_best y).
Proof. unfold clear_best. by destruct (decide (rt_best y = Some p)). Qed.

Definition drop_path (p : positive) (a : ip_addr) (y : rt_entry) : rt_entry :=
  set_rt_path_tree (kt_delete (rt_path_tree y) p a) y.

Definition without_path (p : positive) (x : rt_path) (m : gmap positive rt_entry) : gmap positive rt_entry :=
  match rtp_rt x with Some r => alter (drop_path p (rtp_originator x)) r m | None => m end.

Definition dropped (p : positive) (x : rt_path) (r : positive) (y : rt_entry) : rt_entry :=
  if decide (rtp_rt x = Some r) then drop_path p (rtp_originator x) y else y.

Lemma dropped_fields p x r y : rt_dst (dropped p x r y) = rt_dst y /\ rt_best (dropped p x r y) = rt_best y.
Proof. unfold dropped. by destruct (decide (rtp_rt x = Some r)). Qed.

Lemma without_path_lookup p x m r : without_path p x m !! r = dropped p x r <$> m !! r.
Proof.
  unfold without_path, dropped. destruct (rtp_rt x) as [s|].
  - destruct (decide (Some s = Some r)) as [[= ->]|Hn].
    + by rewrite lookup_alter_eq.
    + rewrite lookup_alter_ne by congruence. by destruct (m !! r).
  - by destruct (m !! r).
Qed.

Lemma delete_path_wf d d' p x tc t :
  lsdb_wf d -> rtps d !! p = Some x -> rtp_tc x = Some tc -> tcs d !! tc = Some t ->
  tcs d' = <[tc := set_refcount (refcount t - 1)
              (set_prefix_tree (kt_delete (prefix_tree t) p (rtp_dst x)) t)]> (tcs d) ->
  rtps d' = delete p (rtps d) -> rts d' = clear_best p <$> without_path p x (rts d) ->
  current_inetgw d' = (if decide (current_inetgw d = Some p) then None else current_inetgw d) ->
  edges d' = edges d -> tc_tree d' = tc_tree d -> routingtree d' = routingtree d ->
  lsdb_wf d'.
Proof.
  intros Hwf Hx Htc Ht Etc Ep Er Eg E1 E2 E3.
  assert (tc_addr <$> tcs d' = tc_addr <$> tcs d) as Hs.
  { rewrite Etc, fmap_insert. apply insert_id. by rewrite lookup_fmap, Ht. }
  assert (forall q k g, path_of d' q g k <-> path_of d q g k /\ g <> p) as Hpo.
  { intros q k g. unfold path_of. rewrite Ep. setoid_rewrite lookup_delete_Some. naive_solver. }
  assert (forall r g a, route_path d' r g a <-> route_path d r g a /\ g <> p) as Hrp.
  { intros r g a. unfold route_path. rewrite Ep. setoid_rewrite lookup_delete_Some. naive_solver. }
  assert (forall r y', rts d' !! r = Some y' <-> exists y, rts d !! r = Some y /\
    y' = clear_best p (dropped p x r y)) as Hrt.
  { intros r y'. rewrite Er, lookup_fmap, without_path_lookup. destruct (rts d !! r) as [y|]; simpl.
    - split; [intros [= <-]; by exists y|by intros (? & [= <-] & ->)].
    - split; [done|by intros (? & ? & _)]. }
  destruct (tree_delete (prefix_tree t) (path_of d tc) (path_of d' tc) p (rtp_dst x)) as [Htree Hlen].
  { by eapply dw_paths. } { by exists x. } { intros q k. apply Hpo. }
  split.
  - rewrite E2. eapply tree_ok_ext; [|by apply (dw_tcs _ Hwf)]. intros q a. by apply vertex_addr.
  - intros q t'. rewrite Etc. assert (forall g a, edge_of d' q g a <-> edge_of d q g a) as Heo by (unfold edge_of; by rewrite E1).
    intros [[<- <-]|[Hne Hq]]%lookup_insert_Some; (eapply tree_ok_ext; [apply Heo|]);
      [exact (dw_edges _ Hwf _ _ Ht)|by apply dw_edges].
  - intros q t'. rewrite Etc. intros [[<- <-]|[Hne Hq]]%lookup_insert_Some; [done|].
    eapply tree_ok_ext; [|by eapply dw_paths]. intros g k. rewrite Hpo. split; [by intros [? _]|].
    intros Hg. split; [done|]. intros ->. destruct Hg as (y & Hy & Hq' & _). congruence.
  - intros q t'. rewrite Etc. intros [[<- <-]|[Hne Hq]]%lookup_insert_Some; [|by eapply dw_refs].
    destruct (dw_refs _ Hwf _ _ Ht) as [Hr1 Hr2]. unfold degree in *. simpl in *. lia.
  - intros e y. rewrite E1. intros Hy. destruct (dw_edge_tc _ Hwf _ _ Hy) as [t0 Ht0].
    destruct (addr_lookup (eq_sym Hs) Ht0) as (t' & ? & _). by eexists.
  - intros e f. rewrite (opposite_addr d d') by done. rewrite <- (dw_inv _ Hwf). unfold inverse. by rewrite E1.
  - intros q y. rewrite Ep. intros [_ Hy]%lookup_delete_Some. destruct (dw_path_tc _ Hwf _ _ Hy) as (tc' & t0 & H1 & H2 & H3).
    destruct (addr_lookup (eq_sym Hs) H2) as (t' & H4 & H5). exists tc', t'. split; [done|]. split; [done|]. by rewrite <- H5.
  - rewrite E3. eapply tree_ok_ext; [|by apply (dw_rts _ Hwf)]. intros r k. unfold route. setoid_rewrite Hrt. split.
    + intros (y' & (y & Hy & ->) & <-). exists y. split; [done|]. by rewrite (proj1 (clear_best_fields p _)), (proj1 (dropped_fields _ _ _ _)).
    + intros (y & Hy & <-). eexists. split; [by exists y|]. by rewrite (proj1 (clear_best_fields p _)), (proj1 (dropped_fields _ _ _ _)).
  - intros r y' (y & Hy & ->)%Hrt. destruct (clear_best_fields p (dropped p x r y)) as (_ & -> & _).
    pose proof (dw_rt_paths _ Hwf _ _ Hy) as Hok. unfold dropped. destruct (decide (rtp_rt x = Some r)) as [Hr|Hr].
    + destruct (tree_delete (rt_path_tree y) (route_path d r) (route_path d' r) p (rtp_originator x)) as [H _];
        [done|by exists x|intros q k; apply Hrp|]. exact H.
    + eapply tree_ok_ext; [|exact Hok]. intros g a. rewrite Hrp. split; [by intros [? _]|].
      intros Hg. split; [done|]. intros ->. destruct Hg as (z & Hz & Hq' & _). congruence.
  - intros q y r. rewrite Ep. intros [_ Hy]%lookup_delete_Some Hr. destruct (dw_rt _ Hwf _ _ _ Hy Hr) as (z & Hz & Hk).
    eexists. split; [apply Hrt; by exists z|]. by rewrite (proj1 (clear_best_fields p _)), (proj1 (dropped_fields _ _ _ _)).
  - intros r y' b (y & Hy & ->)%Hrt. destruct (clear_best_fields p (dropped p x r y)) as (_ & _ & ->).
    rewrite (proj2 (dropped_fields p x r y)). destruct (decide (rt_best y = Some p)) as [|Hb]; [done|]. intros Hby.
    destruct (dw_best _ Hwf _ _ _ Hy Hby) as [a Ha]. exists a. apply Hrp. split; [done|]. congruence.
  - intros g. rewrite Eg. destruct (decide (current_inetgw d = Some p)) as [|Hg]; [done|]. intros Hg'. rewrite Ep, lookup_delete_ne by congruence.
    by apply (dw_inetgw _ Hwf).
Qed.

(** [d'] is [d] without the route paths [P]: they are gone from the trees of their
    vertices and routes, and no route or gateway choice points to them. *)
Definition tc_rest_p (t : tc_entry) : tc_entry := set_refcount 0 (set_prefix_tree avl_init t).
Definition rt_rest (y : rt_entry) : rt_entry := set_rt_best None (set_rt_path_tree avl_init y).
Definition survives (P : gset positive) (o : option positive) : option positive :=
  match o with Some b => if decide (b ∈ P) then None else Some b | None => None end.

Record paths_removed (P : gset positive) (d d' : lsdb) : Prop := {
  pr_wf : lsdb_wf d';
  pr_tcs : tc_rest_p <$> tcs d' = tc_rest_p <$> tcs d;
  pr_rtps g : rtps d' !! g = if decide (g ∈ P) then None else rtps d !! g;
  pr_rts : rt_rest <$> rts d' = rt_rest <$> rts d;
  pr_best r y y' : rts d !! r = Some y -> rts d' !! r = Some y' -> rt_best y' = survives P (rt_best y);
  pr_inetgw : current_inetgw d' = survives P (current_inetgw d);
  pr_edges : edges d' = edges d;
  pr_tc_tree : tc_tree d' = tc_tree d;
  pr_tc_myself : tc_myself d' = tc_myself d;
  pr_routingtree : routingtree d' = routingtree d;
  pr_version : routingtree_version d' = routingtree_version d;
  pr_kernel : kernel_state d' = kernel_state d;
}.

Lemma survives_empty o : survives ∅ o = o.
Proof. destruct o as [b|]; simpl; [|done]. by rewrite decide_False by set_solver. Qed.

Lemma survives_union P1 P2 o : survives P2 (survives P1 o) = survives (P1 ∪ P2) o.
Proof.
  destruct o as [b|]; simpl; [|done]. destruct (decide (b ∈ P1)) as [H1|H1]; simpl.
  - by rewrite decide_True by set_solver.
  - apply decide_ext. set_solver.
Qed.

Lemma decide_union {A} (P1 P2 : gset positive) g (o : option A) :
  (if decide (g ∈ P2) then None else if decide (g ∈ P1) then None else o) = if decide (g ∈ P1 ∪ P2) then None else o.
Proof.
  destruct (decide (g ∈ P2)), (decide (g ∈ P1)), (decide (g ∈ P1 ∪ P2)) as [?|H]; try done.
  all: rewrite ?elem_of_union in *; tauto.
Qed.

Lemma paths_removed_refl d : lsdb_wf d -> paths_removed ∅ d d.
Proof.
  intros Hwf. split; try done.
  - intros r y y' -> [= ->]. by rewrite survives_empty.
  - by rewrite survives_empty.
Qed.

Lemma map_lookup_rest {A B} (f : A -> B) (m m' : gmap positive A) p x' :
  f <$> m' = f <$> m -> m' !! p = Some x' -> exists x, m !! p = Some x /\ f x' = f x.
Proof.
  intros E Hp. apply (f_equal (lookup p)) in E. rewrite !lookup_fmap, Hp in E.
  destruct (m !! p) as [x|]; [|done]. simpl in E. apply (inj Some) in E. by exists x.
Qed.

Lemma paths_removed_trans P1 P2 d1 d2 d3 :
  paths_removed P1 d1 d2 -> paths_removed P2 d2 d3 -> paths_removed (P1 ∪ P2) d1 d3.
Proof.
  intros [A1 A2 A3 A4 A5 A6 A7 A8 A9 A10 A11] [B1 B2 B3 B4 B5 B6 B7 B8 B9 B10 B11].
  split; try congruence.
  - intros g. rewrite B3, A3. apply decide_union.
  - intros r y y' Hy Hy'. destruct (map_lookup_rest _ _ _ _ _ B4 Hy') as (y2 & Hy2 & _).
    rewrite (B5 r y2 y'), (A5 r y y2) by done. apply survives_union.
  - rewrite B6, A6. apply survives_union.
Qed.

(** The loop that clears [rt_best]. *)
Lemma wp_clear_best p st :
  tree_ok (kt_wf := pwf) (routingtree (db st)) (route (db st)) ->
  wp (forM_ (map fst (kt_walk (routingtree (db st)))) (fun rt => let* r := get_rt rt in
        when (bool_decide (rt_best r = Some p)) (upd_rt rt (set_rt_best None))))
    (fun _ st' => st' = set_db (set_rts (clear_best p <$> rts (db st)) (db st)) st) st.
Proof.
  intros Hok.
  apply (wp_forM _ _ (fun rest st' => exists m, st' = set_db (set_rts m (db st)) st /\
    (forall r, m !! r = if decide (r ∈ rest) then rts (db st) !! r else clear_best p <$> rts (db st) !! r) /\
    NoDup rest /\ forall r, r ∈ rest -> is_Some (rts (db st) !! r))).
  - exists (rts (db st)). split; [by destruct_state st|].
    split; [|split; [by eapply tree_nodup|]].
    + intros r. destruct (decide _) as [|Hn]; [done|]. destruct (rts (db st) !! r) as [y|] eqn:E; [|done].
      destruct Hn. apply (tree_ptrs (kt_wf := pwf) _ _ r Hok). exists (rt_dst y). by exists y.
    + intros r. rewrite (tree_ptrs (kt_wf := pwf) _ _ r Hok). intros (k & y & Hy & _). by eexists.
  - intros r rest st' (m & -> & Hm & [Hn Hnd]%NoDup_cons & Hin). destruct (Hin r) as [y Hy]; [left|].
    assert (m !! r = Some y) as Hmr by (rewrite Hm, decide_True by left; done).
    wp_step. eapply wp_get_rt; [exact Hmr|]. unfold when.
    assert (forall r', r' ∈ rest -> is_Some (rts (db st) !! r')) as Hin' by (intros r' Hr'; apply Hin; by right).
    destruct (bool_decide _) eqn:E.
    + apply bool_decide_eq_true in E. eapply wp_upd_rt; [exact Hmr|]. simpl.
      exists (<[r := set_rt_best None y]> m). split; [done|]. split; [|done].
      intros r'. destruct (decide (r' = r)) as [->|Hne].
      * rewrite lookup_insert_eq, decide_False, Hy by done. simpl. unfold clear_best. by rewrite decide_True.
      * rewrite lookup_insert_ne, Hm by done. apply decide_ext. rewrite elem_of_cons. naive_solver.
    + apply bool_decide_eq_false in E. apply wp_ret. exists m. split; [done|]. split; [|done].
      intros r'. rewrite Hm. destruct (decide (r' = r)) as [->|Hne].
      * rewrite decide_True by left. rewrite decide_False, Hy by done. simpl. unfold clear_best. by rewrite decide_False.
      * apply decide_ext. rewrite elem_of_cons. naive_solver.
  - intros st' (m & -> & Hm & _ & _). do 2 f_equal. apply map_eq. intros r. rewrite Hm, lookup_fmap.
    by rewrite decide_False by apply not_elem_of_nil.
Qed.

Lemma wp_delete_rt_path p x st :
  lsdb_wf (db st) -> rtps (db st) !! p = Some x ->
  wp (olsr_delete_rt_path p) (fun _ st' => paths_removed {[p]} (db st) (db st') /\ st' = set_db (db st') st) st.
Proof.
  intros Hwf Hx. destruct (dw_path_tc _ Hwf _ _ Hx) as (tc & t & Htc & Ht & Ho).
  destruct (dw_refs _ Hwf _ _ Ht) as [Hr1 Hr2].
  destruct (tree_delete (prefix_tree t) (path_of (db st) tc)
    (fun g k => path_of (db st) tc g k /\ g <> p) p (rtp_dst x)) as [_ Hlen]; try done.
  { by eapply dw_paths. } { by exists x. }
  unfold olsr_delete_rt_path. wp_step. eapply wp_get_rtp; [exact Hx|].
  (* out of the route's tree *)
  set (xa := match rtp_rt x with Some _ => set_rtp_rt None x | None => x end).
  set (m := without_path p x (rts (db st))).
  assert (rtp_tc xa = Some tc) as Hxa by (unfold xa; by destruct (rtp_rt x)).
  wp_step. apply (wp_mono _ (fun _ st' => st' = set_db (set_rtps (<[p := xa]> (rtps (db st))) (set_rts m (db st))) st)).
  { unfold xa, m, without_path. destruct (rtp_rt x) as [r|] eqn:Er.
    - destruct (dw_rt _ Hwf _ _ _ Hx Er) as (y & Hy & _). wp_step. eapply wp_upd_rt; [exact Hy|].
      eapply wp_upd_rtp; [exact Hx|]. simpl. by rewrite (alter_insert_same (drop_path p (rtp_originator x)) r y).
    - apply wp_ret. rewrite insert_id by done. by destruct_state st. }
  intros _u st1 ->. rewrite Htc.
  (* out of the vertex's tree *)
  wp_step. wp_step. eapply wp_upd_tc; [exact Ht|]. wp_step.
  eapply wp_unlock; [apply lookup_insert_eq|unfold degree in *; simpl; lia|].
  eapply wp_upd_rtp; [simpl; apply lookup_insert_eq|]. simpl. rewrite !insert_insert_eq.
  set (t' := set_refcount _ _). set (d1 := set_tcs (<[tc := t']> (tcs (db st))) (set_rts m (db st))).
  match goal with |- wp _ _ ?s => change s with (set_db (set_rtps (<[p := set_rtp_tc None xa]> (rtps (db st))) d1) st) end.
  wp_step. wp_step.
  set (gw := if decide (current_inetgw (db st) = Some p) then None else current_inetgw (db st)).
  wp_step. apply (wp_mono _ (fun _ st' => st' =
    set_db (set_current_inetgw gw (set_rtps (<[p := set_rtp_tc None xa]> (rtps (db st))) d1)) st)).
  { unfold gw. simpl. wp_step.
    - apply wp_upd_db. apply bool_decide_eq_true in H. by rewrite decide_True.
    - apply bool_decide_eq_false in H. rewrite decide_False by done. by destruct_state st. }
  intros _u2 st2 ->.
  assert (tree_ok (kt_wf := pwf) (routingtree (db st)) (fun r k => exists y, m !! r = Some y /\ rt_dst y = k)) as Hok.
  { eapply tree_ok_ext; [|apply (dw_rts _ Hwf)]. intros r k. unfold route, m. setoid_rewrite without_path_lookup. split.
    - intros (y' & (y & Hy & ->)%fmap_Some & <-). exists y. by rewrite (proj1 (dropped_fields _ _ _ _)).
    - intros (y & Hy & <-). rewrite Hy. eexists. split; [done|]. apply dropped_fields. }
  unfold OLSR_FOR_ALL_RT_ENTRIES. wp_step. wp_step. wp_step.
  eapply wp_mono; [by apply (wp_clear_best p (set_db _ st))|]. intros _u3 st3 ->. simpl.
  eapply wp_free_rtp; [simpl; apply lookup_insert_eq|]. simpl. rewrite delete_insert_eq. split; [|done].
  split; try done.
  - eapply (delete_path_wf (db st)); try done.
  - simpl. rewrite fmap_insert. apply insert_id. by rewrite lookup_fmap, Ht.
  - intros g. simpl. destruct (decide (g ∈ {[p]})) as [->%elem_of_singleton|Hn].
    + apply lookup_delete_eq.
    + apply lookup_delete_ne. set_solver.
  - simpl. apply map_eq. intros r. rewrite !lookup_fmap. unfold m. rewrite without_path_lookup.
    destruct (rts (db st) !! r) as [y|]; simpl; [|done]. f_equal. unfold clear_best, dropped, drop_path.
    by destruct (decide (rt_best _ = _)), (decide (rtp_rt x = Some r)).
  - simpl. intros r y y' Hy. rewrite lookup_fmap. unfold m. rewrite without_path_lookup, Hy. simpl. intros [= <-].
    rewrite (proj2 (proj2 (clear_best_fields p _))), (proj2 (dropped_fields p x r y)).
    destruct (rt_best y) as [b|]; simpl; [|done]. destruct (decide (Some b = Some p)) as [[= ->]|Hb].
    + by rewrite decide_True by set_solver.
    + rewrite decide_False; [done|]. set_unfold. congruence.
  - simpl. unfold gw. destruct (current_inetgw (db st)) as [b|]; simpl; [|done].
    destruct (decide (Some b = Some p)) as [[= ->]|Hb].
    + by rewrite decide_True by set_solver.
    + rewrite decide_False; [done|]. set_unfold. congruence.
Qed.

(** ** Removing a vertex *)

Lemma wp_delete_edges es st :
  lsdb_wf (db st) -> NoDup es -> (forall e, e ∈ es -> is_Some (edges (db st) !! e)) ->
  wp (forM_ es olsr_delete_tc_edge_entry) (fun _ st' =>
    edges_removed (list_to_set es) (db st) (db st') /\ st' = set_db (db st') st) st.
Proof.
  intros Hwf Hnd Hes.
  apply (wp_forM _ _ (fun rest st' => removing st (list_to_set es) rest st' /\ forall e, e ∈ rest -> e ∈ es)).
  - split; [|done]. apply removing_init; [done|done|]. intros e. by rewrite elem_of_list_to_set.
  - intros e rest st' [Hrm Hin]. assert (e ∈ es) as He by (apply Hin; left). destruct (Hes e He) as [x Hx].
    destruct (removing_lookup _ _ _ _ _ _ Hrm Hx) as (x' & Hx' & _).
    eapply wp_mono; [eapply (wp_delete_edge e x'); [apply Hrm|done]|]. intros _u st2 [Hr Hs]. split.
    + eapply removing_delete; try done. by apply elem_of_list_to_set.
    + intros g Hg. apply Hin. by right.
  - intros st' [Hrm _]. split; [|apply Hrm]. pose proof (rm_removed _ _ _ _ Hrm) as H. simpl in H.
    by rewrite difference_empty_L in H.
Qed.

Lemma wp_delete_paths ps st :
  lsdb_wf (db st) -> NoDup ps -> (forall p, p ∈ ps -> is_Some (rtps (db st) !! p)) ->
  wp (forM_ ps olsr_delete_rt_path) (fun _ st' =>
    paths_removed (list_to_set ps) (db st) (db st') /\ st' = set_db (db st') st) st.
Proof.
  intros Hwf Hnd Hps.
  apply (wp_forM _ _ (fun rest st' => exists done_, ps = done_ ++ rest /\
    paths_removed (list_to_set done_) (db st) (db st') /\ st' = set_db (db st') st)).
  - exists []. split; [done|]. split; [by apply paths_removed_refl|by destruct st].
  - intros p rest st' (done_ & -> & Hr & Hs). apply NoDup_app in Hnd as (_ & Hdis & _).
    destruct (Hps p) as [x Hx]; [apply elem_of_app; right; left|].
    assert (rtps (db st') !! p = Some x) as Hx'.
    { rewrite (pr_rtps _ _ _ Hr), decide_False; [done|]. rewrite elem_of_list_to_set. intros Hp.
      apply (Hdis p Hp). left. }
    eapply wp_mono; [eapply (wp_delete_rt_path p x); [apply Hr|done]|]. intros _u st2 [Hr2 Hs2].
    exists (done_ ++ [p]). split; [by rewrite <- app_assoc|]. split; [|by rewrite Hs2, Hs].
    rewrite list_to_set_app_L. simpl. rewrite union_empty_r_L. by eapply paths_removed_trans.
  - intros st' (done_ & -> & Hr & Hs). rewrite app_nil_r. done.
Qed.

Lemma remove_vertex_wf d tc t :
  lsdb_wf d -> tcs d !! tc = Some t -> kt_walk (edge_tree t) = [] -> kt_walk (prefix_tree t) = [] ->
  lsdb_wf (set_tcs (delete tc (tcs d)) (set_tc_tree (kt_delete (tc_tree d) tc (tc_addr t)) d)).
Proof.
  intros Hwf Ht Hes Hps.
  assert (forall e x, edges d !! e = Some x -> edge_tc x <> tc) as Hne.
  { intros e x Hx <-. assert (edge_of d (edge_tc x) e (T_dest_addr x)) as H by (by exists x).
    apply (to_elem (kt_wf := awf) _ _ (dw_edges _ Hwf _ _ Ht)) in H. rewrite Hes in H. by apply not_elem_of_nil in H. }
  assert (forall p x, rtps d !! p = Some x -> rtp_tc x <> Some tc) as Hnp.
  { intros p x Hx Htc. assert (path_of d tc p (rtp_dst x)) as H by (by exists x).
    apply (to_elem (kt_wf := pwf) _ _ (dw_paths _ Hwf _ _ Ht)) in H. rewrite Hps in H. by apply not_elem_of_nil in H. }
  destruct (tree_delete (tc_tree d) (vertex d) (fun p a => vertex d p a /\ p <> tc) tc (tc_addr t)) as [Htree _].
  { apply (dw_tcs _ Hwf). } { by exists t. } { done. }
  split; simpl; try apply Hwf.
  - eapply tree_ok_ext; [|exact Htree]. intros p a. unfold vertex. simpl. setoid_rewrite lookup_delete_Some. naive_solver.
  - intros p t' [_ Hp]%lookup_delete_Some. by apply (dw_edges _ Hwf).
  - intros p t' [_ Hp]%lookup_delete_Some. by apply (dw_paths _ Hwf).
  - intros p t' [_ Hp]%lookup_delete_Some. by apply (dw_refs _ Hwf p).
  - intros e x Hx. destruct (dw_edge_tc _ Hwf _ _ Hx) as [t0 Ht0]. exists t0. apply lookup_delete_Some.
    split; [|done]. intros ->. by apply (Hne _ _ Hx).
  - intros e f.
    transitivity (opposite d e f); [apply (dw_inv _ Hwf)|]. unfold opposite.
    split; intros (x & y & s & r & Hx & Hy & Hs & Hr & K); exists x, y, s, r; (split_and!; try done; try apply K).
    + simpl. apply lookup_delete_Some. split; [|done]. intros ->. by apply (Hne _ _ Hx).
    + simpl. apply lookup_delete_Some. split; [|done]. intros ->. by apply (Hne _ _ Hy).
    + simpl in Hs. by apply lookup_delete_Some in Hs as [_ ?].
    + simpl in Hr. by apply lookup_delete_Some in Hr as [_ ?].
  - intros p x Hx. destruct (dw_path_tc _ Hwf _ _ Hx) as (tc' & t' & H1 & H2 & H3). exists tc', t'.
    split; [done|]. split; [|done]. apply lookup_delete_Some. split; [|done]. intros <-. by apply (Hnp _ _ Hx).
Qed.

(** [d'] is [d] without the vertex [tc], its edges and its route paths. *)
Definition tc_rest2 (t : tc_entry) : tc_entry := set_refcount 0 (set_edge_tree avl_init (set_prefix_tree avl_init t)).

Record vertex_removed (tc : positive) (d d' : lsdb) : Prop := {
  vr_wf : lsdb_wf d';
  vr_tcs : tc_rest2 <$> tcs d' = tc_rest2 <$> delete tc (tcs d);
  vr_edges e : is_Some (edges d' !! e) <-> exists x, edges d !! e = Some x /\ edge_tc x <> tc;
  vr_edge_data e x' : edges d' !! e = Some x' -> exists x, edges d !! e = Some x /\ set_edge_inv None x' = set_edge_inv None x;
  vr_rtps p x : rtps d' !! p = Some x <-> rtps d !! p = Some x /\ rtp_tc x <> Some tc;
  vr_rts : rt_rest <$> rts d' = rt_rest <$> rts d;
  vr_tc_myself : tc_myself d' = tc_myself d;
  vr_routingtree : routingtree d' = routingtree d;
  vr_version : routingtree_version d' = routingtree_version d;
  vr_kernel : kernel_state d' = kernel_state d;
}.

(** The first step only removes the path of the vertex to itself, if anything. *)
Lemma wp_delete_routing_table dst plen a st :
  lsdb_wf (db st) ->
  wp (olsr_delete_routing_table dst plen a) (fun _ st' => exists P, paths_removed P (db st) (db st') /\
    (forall p, p ∈ P <-> plen <= maxplen /\ exists tc x a' k, vertex (db st) tc a' /\ aeq a' a /\ rtps (db st) !! p = Some x /\
      rtp_tc x = Some tc /\ rtp_dst x = k /\ peq k {| prefix := dst; prefix_len := u8 plen |}) /\
    st' = set_changes_hna (bool_decide (P <> ∅) || changes_hna st) (set_db (db st') st)) st.
Proof.
  intros Hwf. unfold olsr_delete_routing_table, olsr_lookup_tc_entry.
  assert (forall b, b = false -> st = set_changes_hna (b || changes_hna st) (set_db (db st) st)) as Hid.
  { intros b ->. by destruct st. }
  wp_step; [|wp_step; wp_step].
  - bool_hyps. apply wp_ret. exists ∅. split; [by apply paths_removed_refl|]. split; [|by apply Hid].
    intros p. split; [set_solver|]. intros [? _]. lia.
  - bool_hyps. pose proof (dw_tcs _ Hwf) as Htc. destruct (kt_find (tc_tree (db st)) a) as [tc|] eqn:Ef.
    + apply (tree_find_Some (kt_wf := awf) _ _ _ _ Htc) in Ef as (a' & Ka & t & Ht & Ea).
      wp_step. eapply wp_get_tc; [exact Ht|]. pose proof (dw_paths _ Hwf _ _ Ht) as Hps.
      assert (forall tc' a2, vertex (db st) tc' a2 -> aeq a2 a -> tc' = tc) as Huniq.
      { intros tc' a2 Hv Ha. eapply (tree_same (kt_wf := awf)); [exact Htc|exact Hv|by exists t|]. by rewrite Ha, Ka. }
      destruct (kt_find (prefix_tree t) _) as [p|] eqn:Ep.
      * apply (tree_find_Some (kt_wf := pwf) _ _ _ _ Hps) in Ep as (k & Kk & x & Hx & Hxt & Ek).
        wp_step. eapply wp_mono; [by eapply wp_delete_rt_path|]. intros _u st' [Hr Hs]. wp_step.
        exists {[p]}. split; [exact Hr|]. split.
        -- intros q. rewrite elem_of_singleton. split.
           ++ intros ->. split; [done|]. exists tc, x, a', k. split_and!; try done. by exists t.
           ++ intros [_ (tc' & x' & a2 & k' & Hv & Ha & Hx' & Hxt' & Ek' & Kk')].
              rewrite (Huniq tc' a2 Hv Ha) in Hxt'.
              assert (path_of (db st) tc q k') as H1 by (by exists x'). assert (path_of (db st) tc p k) as H2 by (by exists x).
              eapply (tree_same (kt_wf := pwf)); [exact Hps|exact H1|exact H2|]. by rewrite Kk', Kk.
        -- rewrite bool_decide_eq_true_2 by set_solver. rewrite Hs. done.
      * apply wp_ret. exists ∅. split; [by apply paths_removed_refl|]. split; [|by apply Hid].
        intros q. split; [set_solver|]. intros [_ (tc' & x' & a2 & k' & Hv & Ha & Hx' & Hxt' & Ek' & Kk')]. exfalso.
        rewrite (Huniq tc' a2 Hv Ha) in Hxt'. rewrite (tree_find_None (kt_wf := pwf) _ _ _ Hps) in Ep.
        apply (Ep q k'); [by exists x'|done].
    + apply wp_ret. exists ∅. split; [by apply paths_removed_refl|]. split; [|by apply Hid].
      intros q. split; [set_solver|]. intros [_ (tc' & x' & a2 & k' & Hv & Ha & _)]. exfalso.
      rewrite (tree_find_None (kt_wf := awf) _ _ _ Htc) in Ef. by apply (Ef tc' a2).
Qed.

Lemma rest2_of_edges D d d' : edges_removed D d d' -> tc_rest2 <$> tcs d' = tc_rest2 <$> tcs d.
Proof.
  intros Hr. assert (forall m : gmap positive tc_entry, tc_rest2 <$> m = (set_prefix_tree avl_init) <$> (tc_rest <$> m)) as H.
  { intros m. rewrite <- map_fmap_compose. by apply map_fmap_ext. }
  by rewrite !H, (er_tcs _ _ _ Hr).
Qed.

Lemma rest2_of_paths P d d' : paths_removed P d d' -> tc_rest2 <$> tcs d' = tc_rest2 <$> tcs d.
Proof.
  intros Hr. assert (forall m : gmap positive tc_entry, tc_rest2 <$> m = (set_edge_tree avl_init) <$> (tc_rest_p <$> m)) as H.
  { intros m. rewrite <- map_fmap_compose. by apply map_fmap_ext. }
  by rewrite !H, (pr_tcs _ _ _ Hr).
Qed.

(** Only route paths differ, and what refers to them. *)
Definition only_paths (d d' : lsdb) : Prop := tc_rest2 <$> tcs d' = tc_rest2 <$> tcs d /\ edges d' = edges d.

#[export] Instance only_paths_preorder : PreOrder only_paths.
Proof. split; [by split|]. intros d1 d2 d3 [A1 A2] [B1 B2]. split; congruence. Qed.

Lemma only_paths_removed P d d' : paths_removed P d d' -> only_paths d d'.
Proof. intros Hr. split; [by eapply rest2_of_paths|apply Hr]. Qed.

Lemma rest2_lookup {d d' p t} :
  tc_rest2 <$> tcs d' = tc_rest2 <$> tcs d -> tcs d !! p = Some t ->
  exists t', tcs d' !! p = Some t' /\ tc_addr t' = tc_addr t.
Proof.
  intros E Hp. destruct (map_lookup_rest tc_rest2 _ _ _ _ (eq_sym E) Hp) as (t' & Ht' & H). exists t'. split; [done|].
  by injection H.
Qed.

(** Writing to a vertex, but not to its address, trees or count. *)
Lemma tc_data_wf d p t f :
  lsdb_wf d -> tcs d !! p = Some t -> tc_addr (f t) = tc_addr t -> edge_tree (f t) = edge_tree t ->
  prefix_tree (f t) = prefix_tree t -> refcount (f t) = refcount t ->
  lsdb_wf (set_tcs (<[p := f t]> (tcs d)) d).
Proof.
  intros Hwf Ht E1 E2 E3 E4. set (d' := set_tcs _ _).
  assert (tc_static <$> tcs d' = tc_static <$> tcs d) as Hs.
  { unfold d'. simpl. rewrite fmap_insert. apply insert_id. rewrite lookup_fmap, Ht. simpl. unfold tc_static. by rewrite E1, E3. }
  assert (forall q t', tcs d' !! q = Some t' -> exists t0, tcs d !! q = Some t0 /\ edge_tree t' = edge_tree t0 /\
    prefix_tree t' = prefix_tree t0 /\ refcount t' = refcount t0) as Hl.
  { intros q t'. unfold d'. simpl. intros [[<- <-]|[Hn Hq]]%lookup_insert_Some; [by exists t|by exists t']. }
  apply (edges_change_wf d); try done.
  - intros q t' (t0 & H0 & -> & _)%Hl. by apply (dw_edges _ Hwf).
  - intros q t' (t0 & H0 & A1 & A2 & A3)%Hl. unfold degree. rewrite A1, A2, A3. by apply (dw_refs _ Hwf q).
  - intros e x Hx. destruct (dw_edge_tc _ Hwf _ _ Hx) as [t0 Ht0].
    destruct (static_lookup (eq_sym Hs) Ht0) as (t' & ? & _). by eexists.
  - intros e f0. rewrite (opposite_key d d') by done. apply (dw_inv _ Hwf).
Qed.

Lemma wp_delete_tc_entry tc t st :
  lsdb_wf (db st) -> tcs (db st) !! tc = Some t ->
  wp (olsr_delete_tc_entry tc) (fun _ st' => vertex_removed tc (db st) (db st') /\
    kt_find (tc_tree (db st')) (tc_addr t) = None /\
    exists b, st' = set_changes_hna b (set_db (db st') st)) st.
Proof.
  intros Hwf Ht. unfold olsr_delete_tc_entry. wp_step. eapply wp_get_tc; [exact Ht|].
  wp_step. eapply wp_mono; [by apply wp_delete_routing_table|]. intros _u st1 (P1 & Hr1 & HP1 & Hst1).
  destruct (rest2_lookup (rest2_of_paths _ _ _ Hr1) Ht) as (t1 & Ht1 & Ea1).
  destruct (edge_list _ _ _ (pr_wf _ _ _ Hr1) Ht1) as [Hnd1 Hin1].
  unfold OLSR_FOR_ALL_TC_EDGE_ENTRIES, OLSR_FOR_ALL_PREFIX_ENTRIES. wp_step. wp_step. eapply wp_get_tc; [exact Ht1|]. wp_step.
  set (es := map fst (kt_walk (edge_tree t1))) in *.
  wp_step. eapply wp_mono; [apply (wp_delete_edges es); [apply Hr1|done|]|].
  { intros e (x & Hx & _)%Hin1. by eexists. }
  intros _u2 st2 [Hr2 Hst2].
  destruct (rest2_lookup (rest2_of_edges _ _ _ Hr2) Ht1) as (t2 & Ht2 & Ea2).
  pose proof (dw_paths _ (er_wf _ _ _ Hr2) _ _ Ht2) as Hps2.
  wp_step. wp_step. eapply wp_get_tc; [exact Ht2|]. wp_step. set (ps := map fst (kt_walk (prefix_tree t2))) in *.
  assert (forall p, p ∈ ps <-> exists x, rtps (db st2) !! p = Some x /\ rtp_tc x = Some tc) as Hps.
  { intros p. unfold ps. rewrite (tree_ptrs (kt_wf := pwf) _ _ p Hps2). unfold path_of. naive_solver. }
  wp_step. eapply wp_mono; [apply (wp_delete_paths ps); [apply Hr2|by eapply (tree_nodup (kt_wf := pwf))|]|].
  { intros p (x & Hx & _)%Hps. by eexists. }
  intros _u3 st3 [Hr3 Hst3].
  destruct (rest2_lookup (rest2_of_paths _ _ _ Hr3) Ht2) as (t3 & Ht3 & Ea3).
  assert (tc_addr t3 = tc_addr t) as Ea by congruence.
  (* nothing hangs off the vertex any more *)
  assert (forall e x, edges (db st3) !! e = Some x -> edge_tc x <> tc) as Hne.
  { intros e x Hx Htc. rewrite (pr_edges _ _ _ Hr3) in Hx. pose proof Hx as Hx2.
    apply (er_edges _ _ _ Hr2) in Hx as (x1 & Hx1 & Ex). apply edge_static_fields in Ex as (_ & Ex & _).
    apply elem_of_dom_2 in Hx2. rewrite (er_dom _ _ _ Hr2), elem_of_difference, elem_of_list_to_set in Hx2.
    apply Hx2, Hin1. exists x1. split; [done|]. congruence. }
  assert (forall p x, rtps (db st3) !! p = Some x -> rtp_tc x <> Some tc) as Hnp.
  { intros p x Hx Htc. rewrite (pr_rtps _ _ _ Hr3) in Hx. destruct (decide _) as [|Hn]; [done|].
    apply Hn, elem_of_list_to_set, Hps. by exists x. }
  assert (kt_walk (edge_tree t3) = []) as Hw1.
  { eapply (tree_empty (kt_wf := awf)); [by apply (dw_edges _ (pr_wf _ _ _ Hr3))|]. intros e a (x & Hx & Htc & _).
    by apply (Hne _ _ Hx). }
  assert (kt_walk (prefix_tree t3) = []) as Hw2.
  { eapply (tree_empty (kt_wf := pwf)); [by apply (dw_paths _ (pr_wf _ _ _ Hr3))|]. intros p k (x & Hx & Htc & _).
    by apply (Hnp _ _ Hx). }
  destruct (dw_refs _ (pr_wf _ _ _ Hr3) _ _ Ht3) as [Hrc _].
  pose proof (remove_vertex_wf _ _ _ (pr_wf _ _ _ Hr3) Ht3 Hw1 Hw2) as Hwf'.
  unfold degree in Hrc. rewrite Hw1, Hw2 in Hrc. simpl in Hrc.
  wp_step. eapply wp_upd_tc; [exact Ht3|]. wp_step. apply wp_upd_db.
  eapply wp_unlock_last; [simpl; apply lookup_insert_eq|done|]. simpl. rewrite delete_insert_eq.
  match goal with |- context [set_db ?d _] => set (d' := d) end.
  assert (d' = set_tcs (delete tc (tcs (db st3))) (set_tc_tree (kt_delete (tc_tree (db st3)) tc (tc_addr t3)) (db st3))) as Ed'.
  { unfold d'. by rewrite Ea. }
  split; [|split].
  - rewrite Ed'. split; simpl.
    + exact Hwf'.
    + rewrite !fmap_delete. f_equal.
      by rewrite (rest2_of_paths _ _ _ Hr3), (rest2_of_edges _ _ _ Hr2), (rest2_of_paths _ _ _ Hr1).
    + intros e. split.
      * intros [x Hx]. pose proof (Hne _ _ Hx) as Htc. rewrite (pr_edges _ _ _ Hr3) in Hx.
        apply (er_edges _ _ _ Hr2) in Hx as (x1 & Hx1 & Ex). apply edge_static_fields in Ex as (_ & Ex & _).
        rewrite (pr_edges _ _ _ Hr1) in Hx1. exists x1. split; [done|]. congruence.
      * intros (x & Hx & Htc). rewrite (pr_edges _ _ _ Hr3). rewrite <- (pr_edges _ _ _ Hr1) in Hx.
        destruct (er_lookup _ _ _ _ _ Hr2 Hx) as (x' & Hx' & _); [|by eexists].
        rewrite elem_of_list_to_set. intros (x2 & Hx2 & ?)%Hin1. congruence.
    + intros e x. rewrite (pr_edges _ _ _ Hr3). intros Hx. apply (er_edges _ _ _ Hr2) in Hx. by rewrite (pr_edges _ _ _ Hr1) in Hx.
    + intros p x. split.
      * intros Hx. pose proof (Hnp _ _ Hx) as Htc. split; [|done]. rewrite (pr_rtps _ _ _ Hr3) in Hx.
        destruct (decide _); [done|]. rewrite (er_rtps _ _ _ Hr2), (pr_rtps _ _ _ Hr1) in Hx. by destruct (decide _).
      * intros [Hx Htc]. rewrite (pr_rtps _ _ _ Hr3), decide_False.
        -- rewrite (er_rtps _ _ _ Hr2), (pr_rtps _ _ _ Hr1), decide_False; [done|].
           intros [_ (tc' & x' & a' & k & (t' & Ht' & Et') & Ka & Hx' & Hxt & _)]%HP1. assert (x' = x) as -> by congruence.
           assert (tc' = tc) as ->; [|done].
           assert (vertex (db st) tc' a') as V1 by (by exists t').
           assert (vertex (db st) tc (tc_addr t)) as V2 by (by exists t).
           eapply (tree_same (kt_wf := awf)); [apply (dw_tcs _ Hwf)|exact V1|exact V2|exact Ka].
        -- rewrite elem_of_list_to_set, Hps. intros (x' & Hx' & Hxt).
           rewrite (er_rtps _ _ _ Hr2), (pr_rtps _ _ _ Hr1) in Hx'. destruct (decide _); [done|]. congruence.
    + by rewrite (pr_rts _ _ _ Hr3), (er_rts _ _ _ Hr2), (pr_rts _ _ _ Hr1).
    + by rewrite (pr_tc_myself _ _ _ Hr3), (er_tc_myself _ _ _ Hr2), (pr_tc_myself _ _ _ Hr1).
    + by rewrite (pr_routingtree _ _ _ Hr3), (er_routingtree _ _ _ Hr2), (pr_routingtree _ _ _ Hr1).
    + by rewrite (pr_version _ _ _ Hr3), (er_version _ _ _ Hr2), (pr_version _ _ _ Hr1).
    + etrans; [exact (pr_kernel _ _ _ Hr3)|]. by rewrite (er_kernel _ _ _ Hr2), (pr_kernel _ _ _ Hr1).
  - rewrite <- Ea. apply (kt_find_delete_eq (keq := aeq) (kt_wf := awf)); [apply (dw_tcs _ (pr_wf _ _ _ Hr3))| |done].
    apply (to_elem (kt_wf := awf) _ _ (dw_tcs _ (pr_wf _ _ _ Hr3))). by exists t3.
  - exists (changes_hna st1). by rewrite Hst3, Hst2, Hst1.
Qed.

(** ** Adding route paths and vertices *)

Definition with_path (tc : positive) (t : tc_entry) (p : positive) (x : rt_path) (d : lsdb) : lsdb :=
  set_rtps (<[p := x]> (rtps d))
    (set_tcs (<[tc := set_refcount (refcount t + 1) (set_prefix_tree (kt_insert (prefix_tree t) p (rtp_dst x)) t)]> (tcs d)) d).

Lemma add_path_wf d tc t p x :
  lsdb_wf d -> tcs d !! tc = Some t -> rtps d !! p = None -> kt_find (prefix_tree t) (rtp_dst x) = None ->
  2 + degree t < 4294967296 -> rtp_rt x = None -> rtp_tc x = Some tc -> lsdb_wf (with_path tc t p x d).
Proof.
  intros Hwf Ht Hp Hf Hdeg Hrt Htc. set (d' := with_path tc t p x d).
  assert (tc_addr <$> tcs d' = tc_addr <$> tcs d) as Hs.
  { unfold d', with_path. simpl. rewrite fmap_insert. apply insert_id. by rewrite lookup_fmap, Ht. }
  assert (forall q g k, path_of d' q g k <-> (q = tc /\ g = p /\ k = rtp_dst x) \/ path_of d q g k) as Hpo.
  { intros q g k. unfold path_of, d', with_path. simpl. split.
    - intros (y & [[<- <-]|[Hn Hy]]%lookup_insert_Some & Hq & Hk); [left; split_and!; congruence|right; by exists y].
    - intros [(-> & -> & ->)|(y & Hy & Hq & Hk)]; [exists x; by rewrite lookup_insert_eq|].
      exists y. rewrite lookup_insert_ne by congruence. done. }
  assert (forall r g a, route_path d' r g a <-> route_path d r g a) as Hrp.
  { intros r g a. unfold route_path, d', with_path. simpl. split.
    - intros (y & [[<- <-]|[Hn Hy]]%lookup_insert_Some & Hq & Hk); [congruence|by exists y].
    - intros (y & Hy & Hq & Hk). exists y. rewrite lookup_insert_ne by congruence. done. }
  destruct (tree_insert (prefix_tree t) (path_of d tc) (path_of d' tc) p (rtp_dst x)) as [Htree Hlen].
  { by eapply dw_paths. } { done. } { intros k (y & Hy & _). congruence. } { intros g k. rewrite Hpo. naive_solver. }
  assert (forall q t', tcs d' !! q = Some t' -> (q = tc /\ t' = set_refcount (refcount t + 1)
    (set_prefix_tree (kt_insert (prefix_tree t) p (rtp_dst x)) t)) \/ (q <> tc /\ tcs d !! q = Some t')) as Htcs.
  { intros q t'. unfold d', with_path. simpl. intros [[<- <-]|[Hn Hq]]%lookup_insert_Some; [by left|by right]. }
  split; try apply Hwf.
  - eapply tree_ok_ext; [|by apply (dw_tcs _ Hwf)]. intros q a. by apply vertex_addr.
  - intros q t' [[-> ->]|[Hn Hq]]%Htcs; [exact (dw_edges _ Hwf _ _ Ht)|exact (dw_edges _ Hwf _ _ Hq)].
  - intros q t' [[-> ->]|[Hn Hq]]%Htcs; [done|]. eapply tree_ok_ext; [|by eapply dw_paths].
    intros g k. rewrite Hpo. naive_solver.
  - intros q t' [[-> ->]|[Hn Hq]]%Htcs; [|by eapply dw_refs].
    destruct (dw_refs _ Hwf _ _ Ht) as [Hr1 Hr2]. unfold degree in *. simpl in *. lia.
  - intros e y Hy. destruct (dw_edge_tc _ Hwf _ _ Hy) as [t0 Ht0].
    destruct (addr_lookup (eq_sym Hs) Ht0) as (t' & ? & _). by eexists.
  - intros e f. rewrite (opposite_addr d d') by done. apply (dw_inv _ Hwf).
  - intros q y. unfold d', with_path at 1. simpl. intros [[<- <-]|[Hn Hy]]%lookup_insert_Some.
    + exists tc. eexists. split; [done|]. split; [apply lookup_insert_eq|]. by rewrite Hrt.
    + destruct (dw_path_tc _ Hwf _ _ Hy) as (tc' & t0 & H1 & H2 & H3).
      destruct (addr_lookup (eq_sym Hs) H2) as (t' & H4 & H5). exists tc', t'. split; [done|]. split; [done|]. by rewrite <- H5.
  - intros r y Hy. eapply tree_ok_ext; [apply Hrp|]. by apply (dw_rt_paths _ Hwf).
  - intros q y r. unfold d', with_path. simpl. intros [[<- <-]|[Hn Hy]]%lookup_insert_Some Hr; [congruence|].
    by apply (dw_rt _ Hwf _ _ _ Hy).
  - intros r y b Hy Hb. destruct (dw_best _ Hwf _ _ _ Hy Hb) as [a Ha]. exists a. by apply Hrp.
  - intros g Hg. unfold d', with_path. simpl. destruct (decide (g = p)) as [->|Hn]; [rewrite lookup_insert_eq; by eexists|].
    rewrite lookup_insert_ne by done. by apply (dw_inetgw _ Hwf).
Qed.

Definition path_entry (tc : positive) (k : olsr_ip_prefix) (origin : Z) : rt_path :=
  set_rtp_origin (u8 origin) (set_rtp_tc (Some tc) (new_rt_path k)).

Lemma wp_insert_prefix tc t dst plen origin st :
  lsdb_wf (db st) -> tcs (db st) !! tc = Some t -> 2 + degree t < 4294967296 ->
  wp (insert_prefix tc dst plen origin) (fun p st' =>
    let k := {| prefix := dst; prefix_len := u8 plen |} in
    match kt_find (prefix_tree t) k with
    | Some q => p = q /\ st' = st
    | None => rtps (db st) !! p = None /\
        st' = set_changes_hna true (set_db (with_path tc t p (path_entry tc k origin) (db st)) st) /\ lsdb_wf (db st')
    end) st.
Proof.
  intros Hwf Ht Hdeg. unfold insert_prefix. set (k := {| prefix := dst; prefix_len := u8 plen |}).
  wp_step. eapply wp_get_tc; [exact Ht|]. destruct (kt_find (prefix_tree t) k) as [q|] eqn:Ef; [by apply wp_ret|].
  destruct (dw_refs _ Hwf _ _ Ht) as [Hr1 Hr2]. assert (0 <= degree t) as Hd0 by (unfold degree; lia).
  set (p := alloc (rtps (db st))). assert (rtps (db st) !! p = None) as Hp by apply alloc_fresh.
  unfold olsr_alloc_rt_path, malloc_rtp. wp_step. wp_step. wp_step. wp_step. wp_step. apply wp_upd_db. apply wp_ret. fold p.
  wp_step. eapply wp_upd_tc; [exact Ht|]. wp_step. eapply wp_lock; [apply lookup_insert_eq|simpl; lia|simpl; lia|].
  wp_step. eapply wp_upd_rtp; [simpl; apply lookup_insert_eq|]. wp_step. wp_step. wp_step. wp_step.
  split; [done|]. assert (lsdb_wf (with_path tc t p (path_entry tc k origin) (db st))) as H.
  { by apply add_path_wf. }
  unfold with_path in *. simpl in *. rewrite !insert_insert_eq. split; [done|exact H].
Qed.

Lemma add_vertex_wf d tc a :
  lsdb_wf d -> tcs d !! tc = None -> kt_find (tc_tree d) a = None ->
  lsdb_wf (set_tcs (<[tc := set_refcount 1 (new_tc_entry a)]> (tcs d)) (set_tc_tree (kt_insert (tc_tree d) tc a) d)).
Proof.
  intros Hwf Htc Hf. set (d' := set_tcs _ _).
  assert (forall q t', tcs d' !! q = Some t' -> (q = tc /\ t' = set_refcount 1 (new_tc_entry a)) \/
    (q <> tc /\ tcs d !! q = Some t')) as Htcs.
  { intros q t'. unfold d'. simpl. intros [[<- <-]|[Hn Hq]]%lookup_insert_Some; [by left|by right]. }
  assert (forall q t', tcs d !! q = Some t' -> tcs d' !! q = Some t') as Hkeep.
  { intros q t' Hq. unfold d'. simpl. rewrite lookup_insert_ne by congruence. done. }
  assert (kt_walk (T := avl_tree ip_addr) kt_init = []) as W1 by apply (kt_walk_init (keq := aeq) (kt_wf := awf)).
  assert (kt_walk (T := avl_tree olsr_ip_prefix) kt_init = []) as W2 by apply (kt_walk_init (keq := peq) (kt_wf := pwf)).
  destruct (tree_insert (tc_tree d) (vertex d) (vertex d') tc a) as [Htree _].
  { apply (dw_tcs _ Hwf). } { done. } { intros k (t & Ht & _). congruence. }
  { intros q k. unfold vertex. split.
    - intros (t' & [[-> ->]|[Hn Hq]]%Htcs & Ha); [left; split; [done|by symmetry]|right; by exists t'].
    - intros [[-> ->]|(t' & Hq & Ha)].
      + eexists. unfold d'. simpl. rewrite lookup_insert_eq. by split.
      + exists t'. split; [by apply Hkeep|done]. }
  split; try apply Hwf.
  - exact Htree.
  - intros q t' [[-> ->]|[Hn Hq]]%Htcs; [|by apply (dw_edges _ Hwf)].
    apply (tree_ok_init (kt_wf := awf)). intros e b (x & Hx & Hq & _). destruct (dw_edge_tc _ Hwf _ _ Hx) as [t0 Ht0].
    rewrite Hq in Ht0. congruence.
  - intros q t' [[-> ->]|[Hn Hq]]%Htcs; [|by apply (dw_paths _ Hwf)].
    apply (tree_ok_init (kt_wf := pwf)). intros e b (x & Hx & Hq & _).
    destruct (dw_path_tc _ Hwf _ _ Hx) as (tc' & t0 & H1 & H2 & _). congruence.
  - intros q t' [[-> ->]|[Hn Hq]]%Htcs; [|by apply (dw_refs _ Hwf q)]. unfold degree, new_tc_entry, set_refcount.
    cbn [edge_tree prefix_tree refcount]. by rewrite W1, W2.
  - intros e x Hx. destruct (dw_edge_tc _ Hwf _ _ Hx) as [t0 Ht0]. exists t0. by apply Hkeep.
  - intros e f. transitivity (opposite d e f); [apply (dw_inv _ Hwf)|]. unfold opposite. split.
    + intros (x & y & s & r & Hx & Hy & Hs & Hr & K). exists x, y, s, r. split_and!; try done; try apply K; by apply Hkeep.
    + intros (x & y & s & r & Hx & Hy & Hs & Hr & K). destruct (dw_edge_tc _ Hwf _ _ Hx) as [s0 Hs0].
      destruct (dw_edge_tc _ Hwf _ _ Hy) as [r0 Hr0]. apply Hkeep in Hs0 as Hs1. apply Hkeep in Hr0 as Hr1.
      exists x, y, s, r. split_and!; try done; try apply K; congruence.
  - intros p x Hx. destruct (dw_path_tc _ Hwf _ _ Hx) as (tc' & t0 & H1 & H2 & H3). exists tc', t0.
    split; [done|]. split; [by apply Hkeep|done].
Qed.

(** With the vertex in the database the recursion stops at once. *)
Lemma wp_insert_existing fuel dst plen a origin tc t st :
  lsdb_wf (db st) -> kt_find (tc_tree (db st)) a = Some tc -> tcs (db st) !! tc = Some t ->
  2 + degree t < 4294967296 -> plen <= maxplen ->
  wp (insert_routing_table (S fuel) dst plen a origin) (fun r st' =>
    let k := {| prefix := dst; prefix_len := u8 plen |} in
    match kt_find (prefix_tree t) k with
    | Some q => r = Some q /\ st' = st
    | None => exists p, r = Some p /\ rtps (db st) !! p = None /\
        st' = set_changes_hna true (set_db (with_path tc t p (path_entry tc k origin) (db st)) st) /\ lsdb_wf (db st')
    end) st.
Proof.
  intros Hwf Hf Ht Hdeg Hplen. cbn [insert_routing_table].
  destruct (plen >? maxplen) eqn:E; bool_hyps; [lia|]. unfold olsr_lookup_tc_entry. wp_step. wp_step. rewrite Hf.
  wp_step. wp_step. wp_step. eapply wp_mono; [by apply wp_insert_prefix|]. intros p st' H. apply wp_ret.
  revert H. cbv zeta. destruct (kt_find (prefix_tree t) _); [by intros [-> ->]|]. by exists p.
Qed.

(** [d'] is [d] with a new vertex [tc] of address [a], which has no edges and
    originates its own host route only. *)
Record vertex_added (tc : positive) (a : ip_addr) (d d' : lsdb) : Prop := {
  va_wf : lsdb_wf d';
  va_fresh : tcs d !! tc = None;
  va_new : exists t p, tcs d' = <[tc := t]> (tcs d) /\ rtps d !! p = None /\
    rtps d' = <[p := path_entry tc {| prefix := a; prefix_len := maxplen |} OLSR_RT_ORIGIN_INT]> (rtps d) /\
    tc_addr t = a /\ path_cost t = ROUTE_COST_BROKEN /\ kt_walk (edge_tree t) = [] /\
    (forall q k, (q, k) ∈ kt_walk (prefix_tree t) <-> q = p /\ k = {| prefix := a; prefix_len := maxplen |});
  va_find : kt_find (tc_tree d') a = Some tc;
  va_rest : edges d' = edges d /\ rts d' = rts d /\ tc_myself d' = tc_myself d /\ routingtree d' = routingtree d /\
    routingtree_version d' = routingtree_version d /\ current_inetgw d' = current_inetgw d /\
    kernel_state d' = kernel_state d;
}.

Lemma u8_maxplen : u8 maxplen = maxplen.
Proof. unfold maxplen. by destruct ip_version. Qed.

Lemma wp_add_tc_entry a st :
  lsdb_wf (db st) -> kt_find (tc_tree (db st)) a = None ->
  wp (olsr_add_tc_entry a) (fun r st' =>
    match r with
    | Some tc => ipequal ip_version (main_addr st) 0 = false /\ vertex_added tc a (db st) (db st') /\
        st' = set_changes_hna true (set_db (db st') st)
    | None => ipequal ip_version (main_addr st) 0 = true /\ st' = st
    end) st.
Proof.
  intros Hwf Hf. unfold olsr_add_tc_entry. wp_step. wp_step. destruct (ipequal ip_version (main_addr st) 0) eqn:Em; [by apply wp_ret|].
  set (tc := alloc (tcs (db st))). assert (tcs (db st) !! tc = None) as Htc by apply alloc_fresh.
  pose proof (add_vertex_wf (db st) tc a Hwf Htc Hf) as Hwf1. revert Hwf1. set (d1 := set_tcs _ _). intros Hwf1.
  unfold malloc_tc. wp_step. wp_step. wp_step. wp_step. apply wp_upd_db. wp_step. wp_step. apply wp_upd_db.
  wp_step. eapply wp_upd_tc; [simpl; apply lookup_insert_eq|]. simpl. rewrite insert_insert_eq. fold tc.
  match goal with |- wp _ _ ?s => change s with (set_db d1 st) end.
  assert (kt_walk (T := avl_tree ip_addr) kt_init = []) as W1 by apply (kt_walk_init (keq := aeq) (kt_wf := awf)).
  assert (kt_walk (T := avl_tree olsr_ip_prefix) kt_init = []) as W2 by apply (kt_walk_init (keq := peq) (kt_wf := pwf)).
  assert (kt_find (tc_tree d1) a = Some tc) as Hfind.
  { apply (tree_find_is (kt_wf := awf) _ _ _ _ (dw_tcs _ Hwf1)). exists (set_refcount 1 (new_tc_entry a)).
    split; [|done]. unfold d1. simpl. apply lookup_insert_eq. }
  wp_step. eapply wp_mono.
  { assert (2 + degree (set_refcount 1 (new_tc_entry a)) < 4294967296) as Hdeg.
    { unfold degree, new_tc_entry, set_refcount. cbn [edge_tree prefix_tree]. by rewrite W1, W2. }
    apply (wp_insert_existing 0 a maxplen a OLSR_RT_ORIGIN_INT tc (set_refcount 1 (new_tc_entry a)) (set_db d1 st)); try done.
    unfold d1. simpl. apply lookup_insert_eq. }
  intros r st' H. apply wp_ret. split; [done|]. revert H. rewrite u8_maxplen. cbv zeta.
  change (prefix_tree (set_refcount 1 (new_tc_entry a))) with (kt_init (T := avl_tree olsr_ip_prefix)).
  rewrite (kt_find_init (keq := peq) (kt_wf := pwf)).
  intros (p & -> & Hp & -> & Hwf2). split; [|done]. split; [done|done| |done|done].
  do 2 eexists. split; [simpl; by rewrite insert_insert_eq|]. split; [exact Hp|]. split; [done|].
  split; [done|]. split; [done|]. split; [done|]. simpl. intros q k.
  assert (rtps (db st) !! p = None) as Hp' by done.
  destruct (dw_paths _ Hwf2 tc _ ltac:(simpl; apply lookup_insert_eq)) as [_ Hel]. simpl in Hel. rewrite Hel.
  unfold path_of. simpl. split.
  - intros (y & [[<- <-]|[Hn Hy]]%lookup_insert_Some & Ht & Hk); [by subst k|].
    destruct (dw_path_tc _ Hwf _ _ Hy) as (tc' & t' & H1 & H2 & _). congruence.
  - intros [-> ->]. eexists. split; [apply lookup_insert_eq|]. done.
Qed.

Definition keeps_vertices (d d' : lsdb) : Prop :=
  forall tc t, tcs d !! tc = Some t -> exists t', tcs d' !! tc = Some t' /\ tc_addr t' = tc_addr t.

#[export] Instance keeps_vertices_preorder : PreOrder keeps_vertices.
Proof.
  split; [intros d tc t Ht; by exists t|]. intros d1 d2 d3 H1 H2 tc t Ht.
  destruct (H1 _ _ Ht) as (t1 & Ht1 & E1). destruct (H2 _ _ Ht1) as (t2 & Ht2 & E2). exists t2. split; [done|congruence].
Qed.

(** [olsr_insert_routing_table] creates the vertex of the originator if needed. *)
Lemma wp_insert_routing_table_room dst plen a origin st :
  lsdb_wf (db st) -> plen <= maxplen ->
  (forall tc t, kt_find (tc_tree (db st)) a = Some tc -> tcs (db st) !! tc = Some t -> 2 + degree t < 4294967296) ->
  wp (olsr_insert_routing_table dst plen a origin) (fun r st' => lsdb_wf (db st') /\ db_frame st st' /\
    match r with
    | None => kt_find (tc_tree (db st)) a = None /\ ipequal ip_version (main_addr st) 0 = true /\ st' = st
    | Some p => exists tc t x, kt_find (tc_tree (db st')) a = Some tc /\ tcs (db st') !! tc = Some t /\
        rtps (db st') !! p = Some x /\ rtp_tc x = Some tc /\
        peq (rtp_dst x) {| prefix := dst; prefix_len := u8 plen |} /\
        (forall q y, rtps (db st) !! q = Some y -> rtps (db st') !! q = Some y)
    end /\ edges (db st') = edges (db st) /\ (size (rtps (db st')) <= 2 + size (rtps (db st)))%nat /\ keeps_vertices (db st) (db st')) st.
Proof.
  intros Hwf Hplen Hdeg. unfold olsr_insert_routing_table.
  assert (forall tc t s1, lsdb_wf (db s1) -> kt_find (tc_tree (db s1)) a = Some tc -> tcs (db s1) !! tc = Some t ->
    2 + degree t < 4294967296 -> db_frame st s1 -> (forall q y, rtps (db st) !! q = Some y -> rtps (db s1) !! q = Some y) ->
    edges (db s1) = edges (db st) -> (size (rtps (db s1)) <= 1 + size (rtps (db st)))%nat -> keeps_vertices (db st) (db s1) ->
    wp (insert_prefix tc dst plen origin) (fun p st' => lsdb_wf (db st') /\ db_frame st st' /\
      (exists tc t x, kt_find (tc_tree (db st')) a = Some tc /\ tcs (db st') !! tc = Some t /\
        rtps (db st') !! p = Some x /\ rtp_tc x = Some tc /\
        peq (rtp_dst x) {| prefix := dst; prefix_len := u8 plen |} /\
        (forall q y, rtps (db st) !! q = Some y -> rtps (db st') !! q = Some y)) /\
      edges (db st') = edges (db st) /\ (size (rtps (db st')) <= 2 + size (rtps (db st)))%nat /\ keeps_vertices (db st) (db st')) s1) as Hins.
  { intros tc t s1 Hwf1 Hf Ht Hd Hfr Hold He Hsz Hkv. eapply wp_mono; [by apply wp_insert_prefix|]. cbv zeta. intros p st'.
    destruct (kt_find (prefix_tree t) _) as [q|] eqn:Eq.
    - intros [-> ->]. split; [done|]. split; [done|].
      apply (tree_find_Some (kt_wf := pwf) _ _ _ _ (dw_paths _ Hwf1 _ _ Ht)) in Eq as (k & Kk & x & Hx & Hxt & Ek).
      split; [exists tc, t, x; split_and!; try done; by rewrite Ek|]. split; [done|]. split; [lia|done].
    - intros (Hp & -> & Hwf2). split; [done|]. split; [by etrans|]. split.
      + do 3 eexists. split; [exact Hf|]. split; [simpl; apply lookup_insert_eq|]. split; [simpl; apply lookup_insert_eq|].
        split; [done|]. split; [by unfold path_entry|]. intros q y Hq. simpl. rewrite lookup_insert_ne; [by apply Hold|]. intros ->. apply Hold in Hq. congruence.
      + split; [done|]. split; [simpl; rewrite map_size_insert_None by done; lia|]. etrans; [exact Hkv|]. intros tc' t' Ht'. simpl.
        destruct (decide (tc' = tc)) as [->|Hn]; [|rewrite lookup_insert_ne by done; by exists t'].
        rewrite lookup_insert_eq. eexists. split; [done|]. by simpl; congruence. }
  cbn [insert_routing_table]. destruct (plen >? maxplen) eqn:E; bool_hyps; [lia|]. unfold olsr_lookup_tc_entry.
  wp_step. wp_step. destruct (kt_find (tc_tree (db st)) a) as [tc|] eqn:Ef.
  - wp_step. wp_step. wp_step. pose proof Ef as Ef'.
    apply (tree_find_Some (kt_wf := awf) _ _ _ _ (dw_tcs _ Hwf)) in Ef' as (a' & Ka & t & Ht & Ea).
    eapply wp_mono; [apply (Hins tc t); try done; first [lia|by eapply Hdeg]|]. intros p st' H. by apply wp_ret.
  - wp_step. eapply wp_mono; [exact (wp_add_tc_entry a st Hwf Ef)|]. intros [tc|] st' H.
    + destruct H as (_ & Hva & Hst'). destruct (va_new _ _ _ _ Hva) as (t & p & Htcs & Hp & Hrtps & _ & _ & Hw1 & Hw2).
      pose proof (va_wf _ _ _ _ Hva) as Hwf'. assert (tcs (db st') !! tc = Some t) as Ht by (rewrite Htcs; apply lookup_insert_eq).
      assert (degree t = 1) as Hd.
      { unfold degree. rewrite Hw1. simpl. assert (map fst (kt_walk (prefix_tree t)) ≡ₚ [p]) as Hperm.
        { apply NoDup_Permutation.
          - eapply (tree_nodup (kt_wf := pwf)). by apply (dw_paths _ Hwf').
          - apply NoDup_singleton.
          - intros q. rewrite list_elem_of_singleton, list_elem_of_fmap. split.
            + by intros ([q' k] & -> & [-> _]%Hw2).
            + intros ->. eexists (p, _). split; [done|]. by apply Hw2. }
        apply Permutation_length in Hperm. rewrite length_map in Hperm. by rewrite Hperm. }
      wp_step. eapply wp_mono; [apply (Hins tc t); try done|].
      * apply (va_find _ _ _ _ Hva).
      * lia.
      * rewrite Hst'. done.
      * intros q y Hq. rewrite Hrtps, lookup_insert_ne by congruence. done.
      * apply (va_rest _ _ _ _ Hva).
      * rewrite Hrtps, map_size_insert_None by done. lia.
      * intros tc' t' Ht'. exists t'. rewrite Htcs, lookup_insert_ne; [done|]. intros <-. by rewrite (va_fresh _ _ _ _ Hva) in Ht'.
      * intros q st2 H. by apply wp_ret.
    + destruct H as [Hm ->]. apply wp_ret. split; [done|]. split; [done|]. split; [done|]. split; [done|]. split; [lia|done].
Qed.

Lemma wp_insert_routing_table dst plen a origin st :
  lsdb_wf (db st) -> plen <= maxplen ->
  (forall tc t, kt_find (tc_tree (db st)) a = Some tc -> tcs (db st) !! tc = Some t -> 2 + degree t < 4294967296) ->
  wp (olsr_insert_routing_table dst plen a origin) (fun r st' => lsdb_wf (db st') /\ db_frame st st' /\
    match r with
    | None => kt_find (tc_tree (db st)) a = None /\ ipequal ip_version (main_addr st) 0 = true /\ st' = st
    | Some p => exists tc t x, kt_find (tc_tree (db st')) a = Some tc /\ tcs (db st') !! tc = Some t /\
        rtps (db st') !! p = Some x /\ rtp_tc x = Some tc /\
        peq (rtp_dst x) {| prefix := dst; prefix_len := u8 plen |} /\
        (forall q y, rtps (db st) !! q = Some y -> rtps (db st') !! q = Some y)
    end) st.
Proof. intros H1 H2 H3. eapply wp_mono; [by apply wp_insert_routing_table_room|]. intros r st' (? & ? & ? & _). by split. Qed.

(** ** Room for references

    The degree of a vertex is bounded by the number of edges and paths there are, so
    that a bound on these keeps every reference count from overflowing. *)
Definition db_room (n : nat) (d : lsdb) : Prop := 2 + Z.of_nat (size (edges d) + size (rtps d) + n) < 4294967296.

Lemma nodup_heap {A} (m : gmap positive A) l : NoDup l -> (forall p, p ∈ l -> is_Some (m !! p)) -> (length l <= size m)%nat.
Proof.
  intros Hnd Hl. rewrite <- (size_list_to_set (C := gset positive)), <- (size_dom (D := gset positive)) by done.
  apply subseteq_size. intros p Hp%elem_of_list_to_set. by apply elem_of_dom, Hl.
Qed.

Lemma degree_size d p t : lsdb_wf d -> tcs d !! p = Some t -> degree t <= Z.of_nat (size (edges d) + size (rtps d)).
Proof.
  intros Hwf Ht. pose proof (dw_edges _ Hwf _ _ Ht) as He. pose proof (dw_paths _ Hwf _ _ Ht) as Hp. unfold degree.
  assert (length (kt_walk (edge_tree t)) <= size (edges d))%nat.
  { rewrite <- (length_map fst). apply nodup_heap; [by eapply (tree_nodup (kt_wf := awf))|].
    intros e (k & x & Hx & _)%(tree_ptrs (kt_wf := awf) _ _ _ He). by exists x. }
  assert (length (kt_walk (prefix_tree t)) <= size (rtps d))%nat.
  { rewrite <- (length_map fst). apply nodup_heap; [by eapply (tree_nodup (kt_wf := pwf))|].
    intros q (k & x & Hx & _)%(tree_ptrs (kt_wf := pwf) _ _ _ Hp). by exists x. }
  lia.
Qed.

Lemma room_degree n d a tc t : lsdb_wf d -> db_room n d -> kt_find (tc_tree d) a = Some tc -> tcs d !! tc = Some t ->
  2 + degree t < 4294967296.
Proof. unfold db_room. intros Hwf Hr _ Ht. pose proof (degree_size d tc t Hwf Ht). lia. Qed.

Lemma room_mono n m d : (m <= n)%nat -> db_room n d -> db_room m d.
Proof. unfold db_room. lia. Qed.

End vertex.
