(* ===== verification/TcSpec.v ===== *)
(** * What the link state database and the routing table guarantee *)

From S2P Require Import Prelude Timer Avl AvlSpec IpAddr KeyTree State LsdbOps Lq RouteTable TcSet LsdbProofs VertexProofs.
From S2P Require Import NeighTable NeighProofs HelloTwoHop NeighSpec.

(** ** Sequence number windows *)

Lemma u16_neg beg : -65536 <= beg < 0 -> u16 beg = beg + 65536.
Proof. unfold u16. intros H. rewrite <- (Z.mod_unique beg 65536 (-1) (beg + 65536)); lia. Qed.

Lemma mod_diff seq beg : -65536 <= seq - beg < 0 -> (seq - beg) mod 65536 = seq - beg + 65536.
Proof. intros H. symmetry. apply Z.mod_unique with (-1); lia. Qed.

Lemma mod_diff_big seq beg : 65536 <= seq - beg < 131072 -> (seq - beg) mod 65536 = seq - beg - 65536.
Proof. intros H. symmetry. apply Z.mod_unique with 1; lia. Qed.

(** The three cases of a distance on the 16-bit circle. *)
Ltac seq_cases seq beg :=
  destruct (Z.lt_ge_cases (seq - beg) 0);
  [rewrite (mod_diff seq beg) by lia
  |destruct (Z.lt_ge_cases (seq - beg) 65536);
   [rewrite (Z.mod_small (seq - beg)) by lia|rewrite (mod_diff_big seq beg) by lia]].

(** the windows are intervals on the 16-bit circle, whichever way they wrap:
    [olsr_seq_inrange_low] is the half-open window from [beg] (included) to [fin],
    [olsr_seq_inrange_high] the one that excludes [beg] and includes [fin]. *)
Theorem olsr_seq_inrange_correct beg fin seq :
  is_u16 seq -> beg < 65536 -> 0 <= fin -> beg <= fin < beg + 65536 ->
  (olsr_seq_inrange_low beg fin seq = true <-> (seq - beg) mod 65536 < fin - beg) /\
  (olsr_seq_inrange_high beg fin seq = true <-> 0 < (seq - beg) mod 65536 <= fin - beg).
Proof.
  unfold is_u16. intros Hseq Hbeg Hfin Hwin. unfold olsr_seq_inrange_low, olsr_seq_inrange_high.
  destruct (beg <? 0) eqn:E1; [|destruct (fin >=? 65536) eqn:E2]; bool_hyps.
  - rewrite u16_neg by lia. seq_cases seq beg; split; lia.
  - assert (u16 fin = fin - 65536) as -> by (unfold u16; symmetry; apply Z.mod_unique with 1; lia).
    seq_cases seq beg; split; lia.
  - seq_cases seq beg; split; lia.
Qed.

(** The windows of [olsr_input_tc] around the numbers 100 and 65000. *)
Lemma olsr_seq_inrange_correct_witness :
  (olsr_seq_inrange_high (100 - TC_SEQNO_WINDOW) 100 65000 = true <-> 0 < (65000 - (100 - 1024)) mod 65536 <= 1024) /\
  olsr_seq_inrange_high (100 - TC_SEQNO_WINDOW) 100 65000 = true.
Proof.
  split; [|vm_compute; reflexivity].
  assert (is_u16 65000) as H by (unfold is_u16; lia).
  destruct (olsr_seq_inrange_correct (100 - 1024) 100 65000 H ltac:(lia) ltac:(lia) ltac:(lia)) as [_ H2]. exact H2.
Defined.

(** ** Borders *)

(** The bytes of an address as a number, network order. *)
Fixpoint be_val (l : list Z) : Z :=
  match l with [] => 0 | x :: l => x * 256 ^ Z.of_nat (length l) + be_val l end.

Lemma be_val_app l1 l2 : be_val (l1 ++ l2) = be_val l1 * 256 ^ Z.of_nat (length l2) + be_val l2.
Proof.
  induction l1 as [|x l1 IH]; simpl; [lia|]. rewrite IH, length_app, Nat2Z.inj_add, Z.pow_add_r by lia. lia.
Qed.

Lemma be_val_bound l : Forall is_u8 l -> 0 <= be_val l < 256 ^ Z.of_nat (length l).
Proof.
  unfold is_u8. induction 1 as [|x l Hx Hl IH]; cbn [be_val length]; [simpl; lia|].
  rewrite Nat2Z.inj_succ, Z.pow_succ_r by lia. nia.
Qed.

Lemma be_val_zeros n : be_val (replicate n 0) = 0.
Proof. induction n as [|n IH]; simpl; [done|]. by rewrite IH. Qed.

(** One byte: bit [r] set, the bits below it cleared. *)
Lemma border_byte x r : is_u8 x -> 0 <= r < 8 ->
  Z.lor (Z.land x (u8 (Z.shiftl 255 r))) (u8 (Z.shiftl 1 r)) = x / 2 ^ (r + 1) * 2 ^ (r + 1) + 2 ^ r.
Proof.
  unfold is_u8. intros Hx Hr. apply Z.eqb_eq.
  apply (all_from2_spec 0 256 0 8 (fun x r =>
    Z.lor (Z.land x (u8 (Z.shiftl 255 r))) (u8 (Z.shiftl 1 r)) =? x / 2 ^ (r + 1) * 2 ^ (r + 1) + 2 ^ r)); [|lia|lia].
  vm_compute. reflexivity.
Qed.

Lemma border_number h x r lo k : 0 <= lo < 256 ^ k -> 0 <= k -> 0 <= r < 8 -> 0 <= x ->
  (h * 256 * 256 ^ k + x * 256 ^ k + lo) / (2 ^ (r + 1) * 256 ^ k) * (2 ^ (r + 1) * 256 ^ k) + 2 ^ r * 256 ^ k =
  h * 256 * 256 ^ k + (x / 2 ^ (r + 1) * 2 ^ (r + 1) + 2 ^ r) * 256 ^ k.
Proof.
  intros Hlo Hk Hr Hx. assert (0 < 256 ^ k) as Hp by (apply Z.pow_pos_nonneg; lia).
  assert (0 < 2 ^ (r + 1)) as Hp2 by (apply Z.pow_pos_nonneg; lia).
  rewrite (Z.mul_comm (2 ^ (r + 1))), <- Z.div_div by lia.
  assert ((h * 256 * 256 ^ k + x * 256 ^ k + lo) / 256 ^ k = h * 256 + x) as ->.
  { symmetry. apply Z.div_unique with lo; lia. }
  assert (256 = 2 ^ (7 - r) * 2 ^ (r + 1)) as E.
  { rewrite <- Z.pow_add_r by lia. by replace (7 - r + (r + 1)) with 8 by lia. }
  assert ((h * 256 + x) / 2 ^ (r + 1) = h * 2 ^ (7 - r) + x / 2 ^ (r + 1)) as ->.
  { rewrite E at 1. rewrite Z.mul_assoc, Z.add_comm, Z.div_add by lia. lia. }
  set (q := x / 2 ^ (r + 1)). set (w := 256 ^ k) in *. set (u := 2 ^ (r + 1)) in *. set (v := 2 ^ (7 - r)) in *.
  rewrite E. ring.
Qed.

Lemma tc_border_some border fill l :
  (length l <= 16)%nat -> Forall is_u8 l -> 1 <= border <= 8 * Z.of_nat (length l) ->
  exists l', tc_border border fill l = Some l' /\ length l' = length l /\
    be_val l' = be_val l / 2 ^ border * 2 ^ border + 2 ^ (border - 1).
Proof.
  intros Hlen Hl Hb. unfold tc_border. destruct (border =? 255) eqn:E; bool_hyps; [lia|].
  set (b := u8 (border - 1)). assert (b = border - 1) as Eb by (unfold b, u8; apply Z.mod_small; lia).
  assert (Z.land b 7 = b mod 8) as Er by (change 7 with (Z.ones 3); by rewrite Z.land_ones).
  set (k := Z.to_nat (b / 8)). set (r := b mod 8) in *. pose proof (Z.mod_pos_bound b 8 ltac:(lia)) as Hr. fold r in Hr.
  assert (Z.of_nat k = b / 8) as Ek by (unfold k; rewrite Z2Nat.id; [done|apply Z.div_pos; lia]).
  pose proof (Z.div_mod b 8 ltac:(lia)) as Hdm. fold r in Hdm. rewrite <- Ek in Hdm.
  assert (k < length l)%nat as Hk by lia.
  destruct (length l <=? k)%nat eqn:El; [apply Nat.leb_le in El; lia|]. rewrite Er.
  destruct (lookup_lt_is_Some_2 l (length l - k - 1)) as [x Hx]; [lia|].
  set (hi := take (length l - k - 1) l). set (lo := drop (length l - k) l).
  assert (length hi = length l - k - 1)%nat as Hhi by (unfold hi; rewrite length_take; lia).
  assert (length lo = k) as Hlo by (unfold lo; rewrite length_drop; lia).
  assert (take (length l - k) l = hi ++ [x]) as Etake.
  { replace (length l - k)%nat with (S (length l - k - 1)) by lia. by apply take_S_r. }
  assert (l = hi ++ [x] ++ lo) as Esplit by (rewrite app_assoc, <- Etake; unfold lo; by rewrite take_drop).
  assert (clear_low_bytes k l = hi ++ x :: replicate k 0) as Ec.
  { unfold clear_low_bytes. rewrite Etake, <- app_assoc. done. }
  assert (length (clear_low_bytes k l) = length l) as Hcl.
  { rewrite Ec, length_app. simpl. rewrite length_replicate. lia. }
  rewrite Hcl, Ec, <- Hhi, list_lookup_middle by done. simpl.
  eexists. split; [done|]. rewrite <- (Nat.add_0_r (length hi)), insert_app_r. simpl.
  rewrite Esplit in Hl. apply Forall_app in Hl as [_ [Hx8 Hlo8]%Forall_cons].
  rewrite border_byte by done. split.
  - rewrite length_app. simpl. rewrite length_replicate. lia.
  - rewrite Esplit, !be_val_app. cbn [be_val length app]. rewrite !length_replicate, be_val_zeros, Hlo.
    rewrite Nat2Z.inj_succ, Z.pow_succ_r by lia.
    pose proof (be_val_bound lo Hlo8) as Hbd. rewrite Hlo in Hbd.
    assert (2 ^ border = 2 ^ (r + 1) * 256 ^ Z.of_nat k) as ->.
    { change 256 with (2 ^ 8). rewrite <- Z.pow_mul_r, <- Z.pow_add_r by lia. f_equal. lia. }
    assert (2 ^ (border - 1) = 2 ^ r * 256 ^ Z.of_nat k) as ->.
    { change 256 with (2 ^ 8). rewrite <- Z.pow_mul_r, <- Z.pow_add_r by lia. f_equal. lia. }
    change (256 ^ Z.of_nat 0) with 1. unfold is_u8 in Hx8.
    pose proof (border_number (be_val hi) x r (be_val lo) (Z.of_nat k) Hbd ltac:(lia) Hr ltac:(lia)) as Hn.
    replace (be_val hi * (256 * 256 ^ Z.of_nat k) + ((x * 1 + 0) * 256 ^ Z.of_nat k + be_val lo))
      with (be_val hi * 256 * 256 ^ Z.of_nat k + x * 256 ^ Z.of_nat k + be_val lo) by ring.
    rewrite Hn. ring.
Qed.

Lemma tc_border_none border fill l :
  (length l <= 16)%nat -> border = 0 \/ 8 * Z.of_nat (length l) < border < 255 -> tc_border border fill l = None.
Proof.
  intros Hlen Hb. unfold tc_border. destruct (border =? 255) eqn:E; bool_hyps; [lia|].
  set (b := u8 (border - 1)). assert (8 * Z.of_nat (length l) <= b) as Hbl.
  { unfold b. destruct Hb as [->|Hb]; [change (u8 (0 - 1)) with 255; lia|]. unfold u8. rewrite Z.mod_small; lia. }
  assert (Z.of_nat (length l) <= b / 8) as Hd by (apply Z.div_le_lower_bound; lia).
  destruct (length l <=? Z.to_nat (b / 8))%nat eqn:El; [done|]. apply Nat.leb_gt in El. lia.
Qed.

(** [olsr_calculate_tc_border] rounds an address to a border: for a flag between
    1 and the number of address bits, bit [flag - 1] is set and the lower ones are
    cleared. The code reads and writes outside of the address when one flag is 0
    and the other is not, or a flag other than 0xff exceeds the number of bits;
    flags come from the network and are not checked before. *)
Theorem olsr_calculate_tc_border_correct lower upper ip1 ip2 :
  (length ip1 <= 16)%nat -> length ip2 = length ip1 -> Forall is_u8 ip1 -> Forall is_u8 ip2 ->
  is_u8 lower -> is_u8 upper ->
  let bits := 8 * Z.of_nat (length ip1) in
  let rounded flag (ip ip' : list Z) :=
    length ip' = length ip /\ be_val ip' = be_val ip / 2 ^ flag * 2 ^ flag + 2 ^ (flag - 1) in
  let bad flag := flag = 0 \/ bits < flag < 255 in
  (lower = 0 -> upper = 0 -> olsr_calculate_tc_border lower ip1 upper ip2 = Some None) /\
  (1 <= lower <= bits -> 1 <= upper <= bits -> exists l u,
    olsr_calculate_tc_border lower ip1 upper ip2 = Some (Some (l, u)) /\ rounded lower ip1 l /\ rounded upper ip2 u) /\
  ((lower <> 0 \/ upper <> 0) -> bad lower \/ bad upper -> olsr_calculate_tc_border lower ip1 upper ip2 = None).
Proof.
  intros Hlen Hlen2 H1 H2 Hl Hu bits rounded bad. unfold olsr_calculate_tc_border. split; [|split].
  - by intros -> ->.
  - intros Hlo Hup. destruct ((lower =? 0) && (upper =? 0)) eqn:E; bool_hyps; [lia|].
    destruct (tc_border_some lower 0 ip1) as (l & El & Hl'); [done..|].
    destruct (tc_border_some upper 255 ip2) as (u & Eu & Hu'); [lia|done|lia|].
    rewrite El, Eu. by exists l, u.
  - intros Hne Hbad. destruct ((lower =? 0) && (upper =? 0)) eqn:E; bool_hyps; [lia|].
    destruct Hbad as [Hb|Hb].
    + rewrite (tc_border_none lower); [done|done|exact Hb].
    + rewrite (tc_border_none upper); [|lia|unfold bad, bits in Hb; lia]. by destruct (tc_border lower 0 ip1).
Qed.

(** 10.1.2.200 and 10.1.3.7, rounded to 3 and 9 bits; a flag of 0 next to one of 9. *)
Lemma olsr_calculate_tc_border_correct_witness :
  (exists l u, olsr_calculate_tc_border 3 [10; 1; 2; 200] 9 [10; 1; 3; 7] = Some (Some (l, u)) /\
    be_val l = be_val [10; 1; 2; 200] / 8 * 8 + 4) /\
  olsr_calculate_tc_border 0 [10; 1; 2; 200] 9 [10; 1; 3; 7] = None.
Proof.
  assert (Forall is_u8 [10; 1; 2; 200]) as H1 by (repeat constructor; lia).
  assert (Forall is_u8 [10; 1; 3; 7]) as H2 by (repeat constructor; lia).
  split.
  - destruct (olsr_calculate_tc_border_correct 3 9 [10; 1; 2; 200] [10; 1; 3; 7] ltac:(simpl; lia) eq_refl H1 H2
      ltac:(unfold is_u8; lia) ltac:(unfold is_u8; lia)) as (_ & H & _).
    destruct H as (l & u & E & [_ Hl] & _); [simpl; lia|simpl; lia|]. exists l, u. split; [exact E|exact Hl].
  - destruct (olsr_calculate_tc_border_correct 0 9 [10; 1; 2; 200] [10; 1; 3; 7] ltac:(simpl; lia) eq_refl H1 H2
      ltac:(unfold is_u8; lia) ltac:(unfold is_u8; lia)) as (_ & _ & H).
    apply H; lia.
Defined.

(** ** The database *)
Section database.
Context {cnf : olsrd_config} {lqh : lq_handler}.

(** C25: [olsr_delete_tc_entry] is memory safe on a well-formed database and leaves it
    well formed: exactly the vertex, its edges and its route paths are gone and
    freed (the reference count reaches zero), no inverse pointer, best path or
    gateway choice refers to them, and the address is no longer found. *)
Theorem olsr_delete_tc_entry_correct tc t st :
  lsdb_wf (db st) -> tcs (db st) !! tc = Some t ->
  wp (olsr_delete_tc_entry tc) (fun _ st' => vertex_removed tc (db st) (db st') /\
    kt_find (tc_tree (db st')) (tc_addr t) = None /\
    exists b, st' = set_changes_hna b (set_db (db st') st)) st.
Proof. apply wp_delete_tc_entry. Qed.

(** [olsr_add_tc_edge_entry] adds one edge to a vertex that had none to that
    address, takes a reference, and keeps the database well formed; by the
    invariant the new edge and the edge in the opposite direction, if the database
    has one, point to each other. *)
Theorem olsr_add_tc_edge_entry_correct tc t addr ansn st :
  lsdb_wf (db st) -> tcs (db st) !! tc = Some t -> kt_find (edge_tree t) addr = None -> 2 + degree t < 4294967296 ->
  wp (olsr_add_tc_edge_entry tc addr ansn) (fun e st' =>
    edge_added tc e addr ansn (db st) (db st') /\ st' = set_db (db st') st /\
    forall f, inverse (db st') e f <-> opposite (db st') e f) st.
Proof.
  intros Hwf Ht Hf Hd. eapply wp_mono; [by apply (wp_add_edge tc t)|]. intros e st' [H1 H2].
  split; [done|]. split; [done|]. intros f. apply (dw_inv _ (ea_wf _ _ _ _ _ _ H1)).
Qed.

(** [olsr_delete_revoked_tc_edges], which walks the edges in address order and
    stops at the upper border, removes exactly the edges of the vertex between the
    borders (the lower one included) whose sequence number is older than that of
    the message; the topology change flag is raised exactly when there are any. *)
Theorem olsr_delete_revoked_tc_edges_correct tc t ansn lower upper st :
  lsdb_wf (db st) -> tcs (db st) !! tc = Some t ->
  wp (olsr_delete_revoked_tc_edges tc ansn lower upper) (fun r st' =>
    exists X, edges_removed X (db st) (db st') /\
    (forall e, e ∈ X <-> exists x, edges (db st) !! e = Some x /\ edge_tc x = tc /\
      SEQNO_GREATER_THAN ansn (edge_ansn x) = true /\
      avl_comp_default ip_version lower (T_dest_addr x) <= 0 /\
      0 < avl_comp_default ip_version upper (T_dest_addr x)) /\
    (r = true <-> X <> ∅) /\
    st' = set_changes_topology (r || changes_topology st) (set_db (db st') st)) st.
Proof.
  intros Hwf Ht. destruct (edge_list _ _ _ Hwf Ht) as [_ Hin].
  eapply wp_mono; [by apply (wp_delete_revoked tc t)|]. cbv zeta. intros r st' (H1 & H2 & H3).
  eexists. split; [exact H1|]. split; [|by split]. intros e. rewrite elem_of_revoked, Hin.
  unfold outdated, in_borders, dest_of, cmp_default. split.
  - intros (Ho & Hb & x & Hx & Htc). rewrite Hx in Ho, Hb. simpl in Hb. exists x. bool_hyps. split_and!; try done; lia.
  - intros (x & Hx & Htc & Ho & Hl & Hu). rewrite Hx. simpl. split; [done|]. split; [|by exists x].
    apply andb_true_iff. split; [by apply Z.leb_le|]. apply negb_true_iff, Z.leb_gt. lia.
Qed.

(** [olsr_delete_outdated_tc_edges], the garbage collection, removes exactly the
    edges of the vertex whose sequence number is older than that of the vertex and
    tells whether there were any. *)
Theorem olsr_delete_outdated_tc_edges_correct tc t st :
  lsdb_wf (db st) -> tcs (db st) !! tc = Some t ->
  wp (olsr_delete_outdated_tc_edges tc) (fun r st' =>
    exists X, edges_removed X (db st) (db st') /\
    (forall e, e ∈ X <-> exists x, edges (db st) !! e = Some x /\ edge_tc x = tc /\
      SEQNO_GREATER_THAN (tc_ansn t) (edge_ansn x) = true) /\
    (r = true <-> X <> ∅) /\ st' = set_db (db st') st) st.
Proof.
  intros Hwf Ht. destruct (edge_list _ _ _ Hwf Ht) as [_ Hin].
  eapply wp_mono; [by apply (wp_delete_outdated tc t)|]. cbv zeta. intros r st' (H1 & H2 & H3).
  eexists. split; [exact H1|]. split; [|by split]. intros e. rewrite elem_of_outdated, Hin. unfold outdated. split.
  - intros (Ho & x & Hx & Htc). rewrite Hx in Ho. by exists x.
  - intros (x & Hx & Htc & Ho). rewrite Hx. split; [done|]. by exists x.
Qed.

(** C26: [olsr_insert_routing_table] returns although it and [olsr_add_tc_entry] call
    each other: the vertex of the originator and its host route are created when
    missing, and the result is the route path of that vertex for the prefix, new or
    not. It fails exactly when the vertex is missing and the main address is lost. *)
Theorem olsr_insert_routing_table_correct dst plen a origin st :
  lsdb_wf (db st) -> plen <= maxplen ->
  (forall tc t, kt_find (tc_tree (db st)) a = Some tc -> tcs (db st) !! tc = Some t -> 2 + degree t < 4294967296) ->
  wp (olsr_insert_routing_table dst plen a origin) (fun r st' => lsdb_wf (db st') /\ db_frame st st' /\
    match r with
    | None => kt_find (tc_tree (db st)) a = None /\ ipequal ip_version (main_addr st) 0 = true /\ st' = st
    | Some p => exists tc t x, kt_find (tc_tree (db st')) a = Some tc /\ tcs (db st') !! tc = Some t /\
        rtps (db st') !! p = Some x /\ rtp_tc x = Some tc /\
        peq (rtp_dst x) {| prefix := dst; prefix_len := u8 plen |} /\
        (forall q y, rtps (db st) !! q = Some y -> rtps (db st') !! q = Some y)
    end) st.
Proof. apply wp_insert_routing_table. Qed.

Lemma empty_lsdb_wf : lsdb_wf empty_lsdb.
Proof.
  split; simpl; try (intros ? ? H; rewrite lookup_empty in H; discriminate);
    try (intros ? ? ? H; rewrite lookup_empty in H; discriminate); try done.
  - refine (tree_ok_init (kt_wf := awf) (vertex empty_lsdb) _). intros p a (t & Ht & _). simpl in Ht. by rewrite lookup_empty in Ht.
  - intros e f. unfold inverse, opposite. simpl. setoid_rewrite lookup_empty. naive_solver.
  - refine (tree_ok_init (kt_wf := pwf) (route empty_lsdb) _). intros p a (t & Ht & _). simpl in Ht. by rewrite lookup_empty in Ht.
Qed.

(** ** Sample databases *)
Inductive db_step :=
| Vertex (a : ip_addr)
| Edge (tc : positive) (a : ip_addr) (ansn : Z)
| Cost (e : positive) (c : Z)                             (* edge cost *)
| Label (p : positive) (c : Z) (h : option positive).     (* path cost and next hop *)

Definition db_exec (st : olsr_state) (s : db_step) : olsr_state :=
  match s with
  | Vertex a => run (olsr_add_tc_entry a) st
  | Edge tc a ansn => run (olsr_add_tc_edge_entry tc a ansn) st
  | Cost e c => run (upd_edge e (set_edge_cost c)) st
  | Label p c h => run (upd_tc p (fun t => set_path_cost c (set_next_hop h t))) st
  end.

Definition db_able (st : olsr_state) (s : db_step) : bool :=
  match s with
  | Vertex a => bool_decide (kt_find (tc_tree (db st)) a = None)
  | Edge tc a _ => match tcs (db st) !! tc with
                   | Some t => bool_decide (kt_find (edge_tree t) a = None) && (2 + degree t <? 4294967296)
                   | None => false
                   end
  | Cost e _ => bool_decide (is_Some (edges (db st) !! e))
  | Label p _ _ => bool_decide (is_Some (tcs (db st) !! p))
  end.

Fixpoint db_ok (st : olsr_state) (l : list db_step) : bool :=
  match l with [] => true | s :: l => db_able st s && db_ok (db_exec st s) l end.

Lemma db_step_wf st s : lsdb_wf (db st) -> db_able st s = true -> lsdb_wf (db (db_exec st s)).
Proof.
  intros Hwf Hs. destruct s as [a|tc a ansn|e c|p c h]; simpl in *.
  - apply bool_decide_eq_true in Hs. apply (run_ok _ (fun st' => lsdb_wf (db st'))).
    eapply wp_mono; [by apply wp_add_tc_entry|]. intros [tc|] st' H; [by apply (va_wf _ _ _ _ (proj1 (proj2 H)))|].
    by destruct H as [_ ->].
  - destruct (tcs (db st) !! tc) as [t|] eqn:Et; [|done]. apply andb_prop in Hs as [H1 H2].
    apply bool_decide_eq_true in H1. apply Z.ltb_lt in H2. apply (run_ok _ (fun st' => lsdb_wf (db st'))).
    eapply wp_mono; [by apply (wp_add_edge tc t)|]. intros e st' [H _]. apply (ea_wf _ _ _ _ _ _ H).
  - apply bool_decide_eq_true in Hs as [x Hx]. apply (run_ok _ (fun st' => lsdb_wf (db st'))).
    eapply wp_upd_edge; [exact Hx|]. by apply (edge_data_wf _ e x (set_edge_cost c)).
  - apply bool_decide_eq_true in Hs as [t Ht]. apply (run_ok _ (fun st' => lsdb_wf (db st'))).
    eapply wp_upd_tc; [exact Ht|]. by apply (tc_data_wf _ p t (fun t => set_path_cost c (set_next_hop h t))).
Qed.

Definition sample_db (l : list db_step) : olsr_state := fold_left db_exec l empty_state.

Lemma sample_db_wf l : db_ok empty_state l = true -> lsdb_wf (db (sample_db l)).
Proof.
  unfold sample_db. assert (lsdb_wf (db empty_state)) as Hwf by apply empty_lsdb_wf. revert Hwf.
  generalize empty_state as st. induction l as [|s l IH]; intros st Hwf Hok; simpl in *; [done|].
  apply andb_prop in Hok as [H1 H2]. apply IH; [by apply db_step_wf|done].
Qed.

End database.

Section db_witnesses.
#[local] Existing Instance sample_cnf.

(** A plugin whose link quality is one byte. *)
#[local] Instance sample_lq : lq_handler :=
  {| calc_hello_cost := fun l => hd 0 l; calc_tc_cost := fun l => hd 0 l;
     packet_loss_handler := fun l lost => if lost then ([LINK_COST_BROKEN], LINK_COST_BROKEN) else ([1], 1);
     packet_loss_relevant := true;
     memorize_foreign_hello := fun l _ => l; copy_link_lq_into_neigh := fun l => l; copy_link_lq_into_tc := fun l => l;
     zero_hello_lq := [0]; zero_tc_lq := [0]; serialize_hello_lq := fun l => [hd 0 l]; serialize_tc_lq := fun l => [hd 0 l];
     deserialize_hello_lq := fun _ b => match b with x :: rest => Some ([x], rest) | [] => None end;
     deserialize_tc_lq := fun _ b => match b with x :: rest => Some ([x], rest) | [] => None end;
     hello_lqdata_size := 1; tc_lqdata_size := 1 |}.

#[local] Instance sample_sizes : lq_sizes sample_lq.
Proof. split; intros lq; reflexivity. Qed.

(** Two vertices, 101 and 102, with edges in both directions; 101 also has older
    edges to 103 and 104. *)
Definition db_steps : list db_step :=
  [Vertex 101; Vertex 102; Edge 2 103 5; Edge 2 102 7; Edge 3 101 1; Edge 2 104 6].
Definition db_sample : olsr_state := sample_db db_steps.

Lemma db_sample_wf : lsdb_wf (db db_sample).
Proof. apply sample_db_wf. vm_compute. reflexivity. Qed.

Lemma db_sample_101 : exists t, tcs (db db_sample) !! 2%positive = Some t /\ tc_addr t = 101 /\
  map fst (kt_walk (edge_tree t)) = [3; 2; 5]%positive /\ kt_find (edge_tree t) 105 = None /\ degree t = 4.
Proof. eexists. split_and!; vm_compute; reflexivity. Qed.

Lemma olsr_delete_tc_entry_correct_witness :
  wp (olsr_delete_tc_entry 2) (fun _ st' => vertex_removed 2 (db db_sample) (db st') /\
    kt_find (tc_tree (db st')) 101 = None) db_sample.
Proof.
  destruct db_sample_101 as (t & Ht & Ha & _).
  eapply wp_mono; [exact (olsr_delete_tc_entry_correct 2 t db_sample db_sample_wf Ht)|].
  intros u st' (H1 & H2 & _). rewrite Ha in H2. split; [exact H1|exact H2].
Defined.

Lemma olsr_add_tc_edge_entry_correct_witness :
  wp (olsr_add_tc_edge_entry 2 105 8) (fun e st' => edge_added 2 e 105 8 (db db_sample) (db st')) db_sample.
Proof.
  destruct db_sample_101 as (t & Ht & _ & _ & Hf & Hd).
  assert (2 + degree t < 4294967296) as Hd' by (rewrite Hd; lia).
  eapply wp_mono; [exact (olsr_add_tc_edge_entry_correct 2 t 105 8 db_sample db_sample_wf Ht Hf Hd')|].
  intros e st' (H1 & _). exact H1.
Defined.

(** With the borders 0.0.0.0 and 104 and the number 7 the edge to 103 goes. *)
Lemma olsr_delete_revoked_tc_edges_correct_witness :
  wp (olsr_delete_revoked_tc_edges 2 7 0 104) (fun r st' => lsdb_wf (db st') /\ r = true) db_sample /\
  dom (edges (run (olsr_delete_revoked_tc_edges 2 7 0 104) db_sample).(db)) = {[3; 4; 5]}%positive.
Proof.
  destruct db_sample_101 as (t & Ht & _). split; [|vm_compute; reflexivity].
  eapply wp_mono; [exact (olsr_delete_revoked_tc_edges_correct 2 t 7 0 104 db_sample db_sample_wf Ht)|].
  intros r st' (X & H1 & HX & Hr & _). split; [apply (er_wf _ _ _ H1)|]. apply Hr. intros E.
  assert (2%positive ∈ X) as Hin.
  { apply HX. eexists. split; [vm_compute; reflexivity|]. split_and!; try reflexivity; vm_compute; discriminate. }
  rewrite E in Hin. apply not_elem_of_empty in Hin. exact Hin.
Defined.

Lemma olsr_delete_outdated_tc_edges_correct_witness :
  wp (olsr_delete_outdated_tc_edges 2) (fun r st' => lsdb_wf (db st') /\ st' = set_db (db st') db_sample) db_sample.
Proof.
  destruct db_sample_101 as (t & Ht & _).
  eapply wp_mono; [exact (olsr_delete_outdated_tc_edges_correct 2 t db_sample db_sample_wf Ht)|].
  intros r st' (X & H1 & _ & _ & H2). split; [apply (er_wf _ _ _ H1)|exact H2].
Defined.

(** A network announced by 105, which the database does not know yet. *)
Lemma olsr_insert_routing_table_correct_witness :
  wp (olsr_insert_routing_table 7 24 105 OLSR_RT_ORIGIN_HNA) (fun r st' => lsdb_wf (db st') /\ exists p, r = Some p) db_sample.
Proof.
  assert (24 <= maxplen) as Hp by (vm_compute; discriminate).
  eapply wp_mono; [refine (olsr_insert_routing_table_correct 7 24 105 OLSR_RT_ORIGIN_HNA db_sample db_sample_wf Hp _)|].
  - intros tc t H. exfalso. revert H. vm_compute. discriminate.
  - intros r st' (H1 & _ & H2). split; [exact H1|]. destruct r as [p|]; [exists p; reflexivity|].
    destruct H2 as (_ & H2 & _). vm_compute in H2. discriminate H2.
Defined.

End db_witnesses.
