(* ===== verification/LinkSpec.v ===== *)
(** * Link sensing: what the operations on the link set guarantee *)

From S2P Require Import Prelude Timer Avl IpAddr KeyTree State MidLookup Interfaces NeighTable NeighProofs HelloTwoHop LsdbOps Lq Hysteresis.
From S2P Require Import RouteTable TcSet LinkSet LsdbProofs VertexProofs NeighSpec TcSpec LinkProofs LinkBest.

Section link_spec.
Context {cnf : olsrd_config} {lqh : lq_handler}.

(** C22: [update_link_entry], the entry point of link sensing. A HELLO received over
    the interface [i] ends with exactly one link between the sender's interface and
    [i], new or old, in a well-formed link set; no other link changes. The link is
    then symmetric if the HELLO lists this node as heard, asymmetric if it lists it as
    lost, and otherwise at least asymmetric; and the neighbour of the link is
    symmetric exactly if one of the links to it is. *)
Theorem update_link_entry_correct local remote m i st :
  net_wf st -> i ∈ ifnet st -> main_free st remote (hello_source_addr m) i -> is_u32 (now_times st) ->
  2 <= hello_vtime m < 2147463648 -> Z.of_nat (size (links st)) < 2147483647 ->
  wp (update_link_entry local remote m i) (fun p st' => net_wf st' /\ link_env st st' /\
    link_between st' remote i p /\ (forall q, q <> p -> links st' !! q = links st !! q) /\
    hello_heard m i (link_was_sym st remote i) p st st') st.
Proof. apply wp_update_link_entry. Qed.

(** C23: [olsr_delete_link_entry] removes one link from a well-formed link set and
    leaves a well-formed one: the neighbour disappears with its last link, its links
    are counted right otherwise, no link refers to a freed neighbour, and the edge to
    the address of the link's far interface goes. *)
Theorem olsr_delete_link_entry_correct p l me t st :
  net_wf st -> lsdb_wf (db st) -> links st !! p = Some l -> tc_myself (db st) = Some me -> tcs (db st) !! me = Some t ->
  Z.of_nat (size (links st)) < 2147483648 ->
  wp (olsr_delete_link_entry p) (fun _ st' => net_wf st' /\ lsdb_wf (db st') /\
    links st' = delete p (links st) /\ link_entry_head st' = filter (fun q => q <> p) (link_entry_head st) /\
    edges_removed (edge_to (db st) (neighbor_iface_addr l)) (db st) (db st') /\
    (forall q, q <> link_neighbor l -> nbrs st' !! q = nbrs st !! q) /\
    (nbrs st' !! link_neighbor l = None <-> links_to st (link_neighbor l) = [p]) /\
    ifnet st' = ifnet st /\ now_times st' = now_times st /\ changes_neighborhood st' = true) st.
Proof. apply wp_delete_link. Qed.

(** ** The expiry of the symmetric state *)

(** when the symmetry timer of a symmetric link fires, the link is no longer
    symmetric, and its neighbour stays symmetric exactly if another link to it is. *)
Theorem olsr_expire_link_sym_timer_correct p l st :
  net_wf st -> links st !! p = Some l -> prev_status l = SYM_LINK -> use_hysteresis = false ->
  wp (olsr_expire_link_sym_timer p) (fun _ st' => net_wf st' /\ link_env st st' /\ changes_neighborhood st' = true /\
    (forall q, q <> p -> links st' !! q = links st !! q) /\
    exists l' n, links st' !! p = Some l' /\ same_key l' l /\ link_sym_timer l' = None /\
      link_status st' l' = (if olsr_isTimedOut (now_times st) (ASYM_time l) then LOST_LINK else ASYM_LINK) /\
      prev_status l' = link_status st' l' /\
      nbrs st' !! link_neighbor l = Some n /\ (status n = SYM <-> sym_node st' (neighbor_iface_addr l))) st.
Proof.
  intros Hwf Hp Hprev Hh. unfold olsr_expire_link_sym_timer.
  wp_step. eapply wp_touch; [exact Hp|]. intros st1 T1. set (l1 := State.set_link_sym_timer None l) in T1.
  wp_step. eapply wp_get_link; [by eapply touched_here|]. simpl. rewrite Hprev. simpl.
  unfold lookup_link_status. wp_step. wp_step. eapply wp_get_link; [by eapply touched_here|]. wp_step.
  wp_step. eapply wp_touch; [by eapply touched_here|]. intros st2 T2. pose proof (touched_trans _ _ _ _ _ _ T1 T2) as T.
  set (l2 := set_prev_status _ l1) in *.
  assert (net_wf st2) as Hwf2 by (eapply touched_wf; [exact T|exact Hp|by split_and!|done]).
  destruct T as [El Es]. destruct (strip_env _ _ Es) as (W1 & W2 & W3 & W4 & _).
  assert (links st2 !! p = Some l2) as Hp2 by (rewrite El; apply lookup_insert_eq).
  destruct (lw_nbr _ (proj2 Hwf2) _ _ Hp2) as [n Hn].
  assert (forall S k, link_entry_head S = link_entry_head st -> now_times S = now_times st -> link_sym_timer k = None -> ASYM_time k = ASYM_time l ->
    link_status S k = if olsr_isTimedOut (now_times st) (ASYM_time l) then LOST_LINK else ASYM_LINK) as Hstat.
  { intros S k E1 E2 E3 E4. unfold link_status. rewrite Hh, E1, E2, E3, E4.
    assert (p ∈ link_entry_head st) as Hin by (apply (lw_alloc _ (proj2 Hwf)); by eexists).
    destruct (link_entry_head st); [by apply not_elem_of_nil in Hin|]. by destruct (olsr_isTimedOut _ _). }
  eapply wp_follow_links; [exact Hwf2|exact Hn|]. intros st3 Hwf3 Hf3 (n' & Hn' & Hst). wp_step.
  destruct (frame_links _ _ Hf3) as [X1 X2]. destruct (frame_env _ _ Hf3) as (Y1 & Y2 & Y3).
  split; [by destruct Hwf3 as [H1 H2]; split; [by eapply nbr_wf_frame|by apply (link_wf_ext st3)]|].
  split; [unfold link_env; simpl; split_and!; congruence|]. split; [done|].
  split; [intros q Hq; simpl; by rewrite X1, El, lookup_insert_ne|].
  exists l2, n'. simpl. rewrite X1. split; [done|]. split; [by split_and!|]. split; [done|].
  split; [apply Hstat; simpl; congruence|]. split; [|split; [done|]].
  - rewrite (Hstat st1), (Hstat (set_changes_neighborhood true st3)); simpl; try congruence.
    + by destruct (olsr_isTimedOut _ _).
    + destruct T1 as [_ Es1]. by destruct (strip_env _ _ Es1) as (_ & _ & _ & -> & _).
    + destruct T1 as [_ Es1]. by destruct (strip_env _ _ Es1) as (_ & _ & -> & _).
  - rewrite Hst. simpl. done.
Qed.

(** ** What the deletion leaves behind *)

(** the shortest path code keys the edge to a neighbour by the main address of the
    neighbour, but [olsr_delete_link_entry] looks it up by the address of the far
    interface. When the last link to a neighbour with several interfaces goes over
    another one than its main one, the neighbour disappears and the edge to it stays. *)
Theorem olsr_delete_link_entry_stale_edge p l n me t e st :
  net_wf st -> lsdb_wf (db st) -> links st !! p = Some l -> tc_myself (db st) = Some me -> tcs (db st) !! me = Some t ->
  Z.of_nat (size (links st)) < 2147483648 ->
  nbrs st !! link_neighbor l = Some n -> links_to st (link_neighbor l) = [p] ->
  ~ aeq (neighbor_iface_addr l) (neighbor_main_addr n) -> kt_find (edge_tree t) (neighbor_main_addr n) = Some e ->
  wp (olsr_delete_link_entry p) (fun _ st' =>
    (forall q k, nbrs st' !! q = Some k -> neighbor_main_addr k <> neighbor_main_addr n) /\
    exists x, edges (db st') !! e = Some x /\ edge_tc x = me /\ aeq (T_dest_addr x) (neighbor_main_addr n)) st.
Proof.
  intros Hwf Hdw Hp Hme Ht Hsize Hn Hone Hne He. eapply wp_mono; [by eapply wp_delete_link|].
  cbv beta. intros _u st' (_ & Hdw' & _ & _ & Hrem & Hoth & Hgone & _). split.
  - intros q k Hq Ha. destruct (decide (q = link_neighbor l)) as [->|Hn2]; [by rewrite (proj2 Hgone Hone) in Hq|].
    rewrite Hoth in Hq by done. apply Hn2. by eapply (wf_addr _ _ (proj1 Hwf)).
  - apply (tree_find_Some (kt_wf := awf) _ _ _ _ (dw_edges _ Hdw _ _ Ht)) in He as (a & Ha & x & Hx & Htc & Hd).
    assert (e ∉ edge_to (db st) (neighbor_iface_addr l)) as Hnot.
    { unfold edge_to. rewrite Hme. simpl. rewrite Ht. destruct (kt_find (edge_tree t) (neighbor_iface_addr l)) as [f|] eqn:Ef; [|set_solver].
      intros ->%elem_of_singleton. apply (tree_find_Some (kt_wf := awf) _ _ _ _ (dw_edges _ Hdw _ _ Ht)) in Ef as (a' & Ha' & y & Hy & _ & Hd').
      apply Hne. assert (y = x) as -> by congruence. subst a a'. by rewrite <- Ha', <- Ha. }
    assert (is_Some (edges (db st') !! e)) as [x' Hx'].
    { apply elem_of_dom. rewrite (er_dom _ _ _ Hrem). apply elem_of_difference. split; [by apply elem_of_dom; eexists|done]. }
    exists x'. split; [done|]. destruct (er_edges _ _ _ Hrem _ _ Hx') as (x0 & Hx0 & E). assert (x0 = x) as -> by congruence.
    assert (edge_tc x' = edge_tc x /\ T_dest_addr x' = T_dest_addr x) as [-> ->] by (destruct x', x; simpl in E; by injection E).
    split; [done|]. rewrite Hd. done.
Qed.

(** ** The choice of a link *)

(** without link quality [get_best_link_to_neighbor] does not prefer symmetric
    links as its comments say: of two links to a neighbour, an asymmetric one over the
    interface with the better metric, met first, wins over a symmetric one. *)
Theorem get_best_link_hides_symmetric st remote p q l k i j :
  lq_level = 0 -> net_wf st -> link_entry_head st = [p; q] ->
  link_of st (main_of st remote) p l -> link_of st (main_of st remote) q k ->
  link_status st l <> SYM_LINK -> link_status st k = SYM_LINK ->
  link_interface st l = Some (Some i) -> link_interface st k = Some (Some j) ->
  int_metric i < int_metric j -> int_metric i < MAX_IF_METRIC ->
  wp (get_best_link_to_neighbor remote) (fun r st' => st' = st /\ r = Some p) st.
Proof.
  intros Hlq [Hnw _] Hh Hp Hq Hs1 Hs2 Hi Hj Hij Hmax.
  eapply (wp_gets_opt (fun st => find_best_link st remote)); [|split; reflexivity].
  unfold find_best_link, main_of in *. destruct (find_main_addr_safe st remote (wf_mid _ _ Hnw)) as [main Hmain].
  rewrite Hmain in *. simpl in *. rewrite Hlq, Hh. simpl.
  assert (forall x y, link_interface st x = Some (Some y) -> walker_metric st x = Some (Some (int_metric y))) as Hmet
    by (intros x y E; unfold walker_metric; by rewrite Hlq, E).
  rewrite (best_link_step_at _ _ _ _ _ _ _ Hp (Hmet _ _ Hi)), (proj2 (Z.eqb_neq _ _) Hs1). simpl.
  rewrite (proj2 (Z.ltb_lt _ _) Hmax). simpl. rewrite (best_link_step_at _ _ _ _ _ _ _ Hq (Hmet _ _ Hj)). simpl.
  assert (int_metric j <? int_metric i = false) as -> by (apply Z.ltb_ge; lia).
  assert (int_metric j =? int_metric i = false) as -> by (apply Z.eqb_neq; lia). reflexivity.
Qed.

End link_spec.

(** ** Witnesses *)
Definition eth0 : interface_olsr := {| if_ip_addr := 100; int_name := Some "eth0"%string; int_metric := 1; if_index := 2 |}.
Definition wlan0 : interface_olsr := {| if_ip_addr := 110; int_name := Some "wlan0"%string; int_metric := 2; if_index := 3 |}.

(** A HELLO of the node 200 that lists the address [a] with the link type [s]. *)
Definition hello_from_200 (a : ip_addr) (s : Z) : hello_message :=
  {| hello_vtime := 6000; hello_htime := 2000; hello_source_addr := 200; hello_packet_seq_number := 1;
     hello_hop_count := 0; hello_ttl := 1; hello_willingness := 3;
     hello_neighbors := [{| hn_status := SYM_NEIGH; hn_link := s; hn_address := a; hn_cost := 0; hn_linkquality := [] |}] |}.

Section samples.
Context {cnf : olsrd_config} {lqh : lq_handler}.

(** Interfaces and nothing else. *)
Lemma bare_wf ifs : Forall (fun i => is_Some (int_name i)) ifs -> net_wf (set_ifnet ifs empty_state).
Proof.
  intros Hifs. split.
  - by apply (nbr_wf_frame _ empty_state); [apply empty_wf|..].
  - split; simpl; try (intros ? ? H; rewrite lookup_empty in H; discriminate).
    + constructor.
    + intros p. rewrite lookup_empty. split; [by intros ?%not_elem_of_nil|by intros [? ?]].
    + intros p q l k H. rewrite lookup_empty in H. discriminate.
    + intros i Hi. rewrite Forall_forall in Hifs. by apply Hifs.
Qed.

(** The neighbours with that address are the neighbour of every link. *)
Lemma heap_main_free st remote main i :
  (forall q k, nbrs st !! q = Some k -> bool_decide (neighbor_main_addr k = main ->
     map_Forall (fun _ l => q = link_neighbor l) (links st)) = true) -> main_free st remote main i.
Proof. intros H p l q k _ Hp Hq Hm. apply H, bool_decide_eq_true in Hq. by eapply (Hq Hm). Qed.

(** A HELLO of 200 in a well-formed state. *)
Lemma hello_wf local remote a s i st :
  net_wf st -> i ∈ ifnet st -> main_free st remote 200 i -> is_u32 (now_times st) -> Z.of_nat (size (links st)) < 2147483647 ->
  net_wf (run (update_link_entry local remote (hello_from_200 a s) i) st).
Proof.
  intros Hwf Hi Hm Hn Hs. apply run_ok. eapply wp_mono; [apply wp_update_link_entry; try done; simpl; lia|]. by intros ? ? [? _].
Qed.

End samples.

Section link_witnesses.
#[local] Existing Instance sample_cnf.
#[local] Existing Instance sample_lq.

(** This node is 100, with an edge to 200, and hears two interfaces of 200, 201 and
    202, over eth0 and wlan0. *)
Definition lk_db : olsr_state := sample_db [Vertex 100; Edge 2 200 1].
Definition lk0 : olsr_state := set_ifnet [eth0; wlan0] (set_db (set_tc_myself (Some 2%positive) (db lk_db)) lk_db).
Definition lk1 : olsr_state := run (update_link_entry 100 201 (hello_from_200 100 SYM_LINK) eth0) lk0.
Definition lk2 : olsr_state := run (update_link_entry 110 202 (hello_from_200 100 ASYM_LINK) wlan0) lk1.

Lemma lsdb_wf_myself d x : lsdb_wf d -> lsdb_wf (set_tc_myself x d).
Proof. destruct d. by intros []. Qed.

Lemma lk0_db : lsdb_wf (db lk0).
Proof. apply (lsdb_wf_myself (db lk_db)), sample_db_wf. vm_compute. reflexivity. Qed.

Lemma lk0_wf : net_wf lk0.
Proof.
  destruct (bare_wf [eth0; wlan0]) as [H1 H2]; [repeat constructor; by eexists|]. split.
  - apply (nbr_wf_frame _ _ lk0 H1); vm_compute; try reflexivity. auto.
  - apply (link_wf_ext _ lk0 H2); vm_compute; reflexivity.
Qed.

Lemma lk0_free remote i : main_free lk0 remote 200 i.
Proof. apply heap_main_free, heap_forall. vm_compute. reflexivity. Qed.

Lemma lk1_wf : net_wf lk1.
Proof.
  apply hello_wf; [exact lk0_wf|vm_compute; left|apply lk0_free|vm_compute; split; discriminate || reflexivity|vm_compute; reflexivity].
Qed.

Lemma lk1_free remote i : main_free lk1 remote 200 i.
Proof. apply heap_main_free, heap_forall. vm_compute. reflexivity. Qed.

Lemma lk2_wf : net_wf lk2.
Proof.
  apply hello_wf; [exact lk1_wf|vm_compute; right; left|apply lk1_free|vm_compute; split; discriminate || reflexivity|vm_compute; reflexivity].
Qed.

Lemma update_link_entry_correct_witness :
  wp (update_link_entry 110 202 (hello_from_200 110 SYM_LINK) wlan0) (fun p st' => net_wf st' /\
    link_between st' 202 wlan0 p /\ exists l, links st' !! p = Some l /\ link_status st' l = SYM_LINK) lk1.
Proof.
  eapply wp_mono; [refine (update_link_entry_correct 110 202 (hello_from_200 110 SYM_LINK) wlan0 lk1 lk1_wf _ (lk1_free _ _) _ _ _)|].
  - vm_compute. right. left.
  - vm_compute. split; [discriminate|reflexivity].
  - simpl. lia.
  - vm_compute. reflexivity.
  - intros p st' (H1 & _ & H2 & _ & l & n & H3 & _ & _ & H4 & _). split; [exact H1|]. split; [exact H2|].
    exists l. split; [exact H3|]. rewrite (H4 eq_refl). vm_compute. reflexivity.
Defined.

(** Deleting the first of the two links keeps the neighbour. *)
Lemma olsr_delete_link_entry_correct_witness :
  wp (olsr_delete_link_entry 2) (fun _ st' => net_wf st' /\ is_Some (nbrs st' !! 2%positive)) lk2.
Proof.
  assert (lsdb_wf (db lk2)) as Hdb by (assert (db lk2 = db lk0) as -> by (vm_compute; reflexivity); exact lk0_db).
  assert (exists l, links lk2 !! 2%positive = Some l /\ link_neighbor l = 2%positive) as (l & Hl & Hn)
    by (eexists; split; vm_compute; reflexivity).
  assert (exists t, tc_myself (db lk2) = Some 2%positive /\ tcs (db lk2) !! 2%positive = Some t) as (t & Hme & Ht)
    by (eexists; split; vm_compute; reflexivity).
  eapply wp_mono; [refine (olsr_delete_link_entry_correct 2 l 2 t lk2 lk2_wf Hdb Hl Hme Ht _); vm_compute; reflexivity|].
  intros u st' (H1 & _ & _ & _ & _ & _ & H2 & _). split; [exact H1|]. rewrite Hn in H2.
  destruct (nbrs st' !! 2%positive); [eexists; reflexivity|]. apply proj1 in H2. specialize (H2 eq_refl).
  vm_compute in H2. discriminate H2.
Defined.

(** The state in which the symmetry timer of the first link fires. *)
Lemma olsr_expire_link_sym_timer_correct_witness :
  wp (olsr_expire_link_sym_timer 2) (fun _ st' => net_wf st' /\
    exists l', links st' !! 2%positive = Some l' /\ link_status st' l' = ASYM_LINK) lk2.
Proof.
  assert (exists l, links lk2 !! 2%positive = Some l /\ prev_status l = SYM_LINK /\
    olsr_isTimedOut (now_times lk2) (ASYM_time l) = false) as (l & Hl & Hp & Ht)
    by (eexists; split; [vm_compute; reflexivity|]; split; vm_compute; reflexivity).
  eapply wp_mono; [exact (olsr_expire_link_sym_timer_correct 2 l lk2 lk2_wf Hl Hp eq_refl)|].
  intros u st' (H1 & _ & _ & _ & l' & n & H2 & _ & _ & H3 & _). split; [exact H1|]. exists l'. split; [exact H2|].
  rewrite H3, Ht. reflexivity.
Defined.

(** 200 is gone after its only link, over 201, is deleted; the edge to 200 is not. *)
Lemma olsr_delete_link_entry_stale_edge_witness :
  wp (olsr_delete_link_entry 2) (fun _ st' =>
    (forall q k, nbrs st' !! q = Some k -> neighbor_main_addr k <> 200) /\
    exists x, edges (db st') !! 2%positive = Some x /\ edge_tc x = 2%positive /\ aeq (T_dest_addr x) 200) lk1.
Proof.
  assert (lsdb_wf (db lk1)) as Hdb by (assert (db lk1 = db lk0) as -> by (vm_compute; reflexivity); exact lk0_db).
  assert (exists l, links lk1 !! 2%positive = Some l /\ link_neighbor l = 2%positive /\ neighbor_iface_addr l = 201) as (l & Hl & Hn & Ha)
    by (eexists; split; [vm_compute; reflexivity|]; split; vm_compute; reflexivity).
  assert (exists n, nbrs lk1 !! 2%positive = Some n /\ neighbor_main_addr n = 200) as (n & Hnb & Hm)
    by (eexists; split; vm_compute; reflexivity).
  assert (exists t, tc_myself (db lk1) = Some 2%positive /\ tcs (db lk1) !! 2%positive = Some t /\
    kt_find (edge_tree t) 200 = Some 2%positive) as (t & Hme & Ht & He)
    by (eexists; split; [vm_compute; reflexivity|]; split; vm_compute; reflexivity).
  eapply wp_mono; [refine (olsr_delete_link_entry_stale_edge 2 l n 2 t 2 lk1 lk1_wf Hdb Hl Hme Ht _ _ _ _ _)|].
  - vm_compute. reflexivity.
  - rewrite Hn. exact Hnb.
  - rewrite Hn. vm_compute. reflexivity.
  - rewrite Ha, Hm. vm_compute. discriminate.
  - rewrite Hm. exact He.
  - intros u st' [H1 H2]. rewrite Hm in H1, H2. split; [exact H1|exact H2].
Defined.

(** ** The choice of a link *)

(** The two links of 200 are an asymmetric one over eth0 (metric 1) and a symmetric one
    over wlan0 (metric 2). *)
Definition lk3 : olsr_state := run (update_link_entry 100 201 (hello_from_200 100 LOST_LINK) eth0) lk0.
Definition lk4 : olsr_state := run (update_link_entry 110 202 (hello_from_200 110 SYM_LINK) wlan0) lk3.

Lemma lk3_wf : net_wf lk3.
Proof.
  apply hello_wf; [exact lk0_wf|vm_compute; left|apply lk0_free|vm_compute; split; discriminate || reflexivity|vm_compute; reflexivity].
Qed.

Lemma lk4_wf : net_wf lk4.
Proof.
  apply hello_wf; [exact lk3_wf|vm_compute; right; left| |vm_compute; split; discriminate || reflexivity|vm_compute; reflexivity].
  apply heap_main_free, heap_forall. vm_compute. reflexivity.
Qed.

Lemma get_best_link_hides_symmetric_witness :
  wp (get_best_link_to_neighbor 200) (fun r st' => st' = lk4 /\ r = Some 2%positive) lk4.
Proof.
  assert (exists l, links lk4 !! 2%positive = Some l /\ link_neighbor l = 2%positive /\ link_status lk4 l = ASYM_LINK /\
    link_interface lk4 l = Some (Some eth0)) as (l & Hl & Hn & Hs & Hi) by (eexists; split; [vm_compute; reflexivity|]; split_and!; vm_compute; reflexivity).
  assert (exists k, links lk4 !! 3%positive = Some k /\ link_neighbor k = 2%positive /\ link_status lk4 k = SYM_LINK /\
    link_interface lk4 k = Some (Some wlan0)) as (k & Hk & Hm & Ht & Hj) by (eexists; split; [vm_compute; reflexivity|]; split_and!; vm_compute; reflexivity).
  assert (exists n, nbrs lk4 !! 2%positive = Some n /\ neighbor_main_addr n = main_of lk4 200) as Hnb
    by (eexists; split; vm_compute; reflexivity).
  refine (get_best_link_hides_symmetric lk4 200 2 3 l k eth0 wlan0 eq_refl lk4_wf _ _ _ _ Ht Hi Hj _ _).
  - vm_compute. reflexivity.
  - split; [exact Hl|]. rewrite Hn. exact Hnb.
  - split; [exact Hk|]. rewrite Hm. exact Hnb.
  - rewrite Hs. discriminate.
  - reflexivity.
  - reflexivity.
Defined.

End link_witnesses.

(** With link quality: the first link is symmetric, the second is broken. *)
Section quality_witness.

Definition quality_cnf : olsrd_config :=
  {| ip_version := AF_INET; mpr_coverage := 1; tc_redundancy := 2; lq_level := 2;
     use_hysteresis := false; lq_nat_thresh := @lq_nat_thresh sample_cnf; olsr_random := fun n => n;
     OLSR_RANDOM_MAX := 2147483647; hscaling := @hscaling sample_cnf; hhigh := @hhigh sample_cnf; hlow := @hlow sample_cnf |}.
#[local] Existing Instance quality_cnf.
#[local] Existing Instance sample_lq.

Definition ql0 : olsr_state := set_ifnet [eth0; wlan0] empty_state.
Definition ql1 : olsr_state := run (update_link_entry 100 201 (hello_from_200 100 SYM_LINK) eth0) ql0.
Definition ql2 : olsr_state := run (update_link_entry 110 202 (hello_from_200 100 ASYM_LINK) wlan0) ql1.
Definition ql3 : olsr_state := run (upd_link 2 (set_linkcost 1000)) ql2.

Lemma ql1_wf : net_wf ql1.
Proof.
  apply hello_wf; [apply bare_wf; repeat constructor; by eexists|vm_compute; left| |vm_compute; split; discriminate || reflexivity|vm_compute; reflexivity].
  apply heap_main_free, heap_forall. vm_compute. reflexivity.
Qed.

Lemma ql2_wf : net_wf ql2.
Proof.
  apply hello_wf; [exact ql1_wf|vm_compute; right; left| |vm_compute; split; discriminate || reflexivity|vm_compute; reflexivity].
  apply heap_main_free, heap_forall. vm_compute. reflexivity.
Qed.

Lemma ql3_wf : net_wf ql3.
Proof.
  destruct ql2_wf as [H1 H2]. split.
  - apply (nbr_wf_frame _ _ ql3 H1); vm_compute; try reflexivity. auto.
  - unfold ql3. apply (run_ok _ link_wf). assert (exists l, links ql2 !! 2%positive = Some l) as [l Hl] by (eexists; vm_compute; reflexivity).
    eapply wp_upd_link; [exact Hl|]. by eapply link_data_wf.
Qed.

Lemma get_best_link_cheapest_witness :
  wp (get_best_link_to_neighbor 200) (fun r st' => st' = ql3 /\ r = Some 2%positive) ql3.
Proof.
  assert (quality_shows ql3 (main_of ql3 200) 200) as Hq.
  { assert (forall p l, links ql3 !! p = Some l -> ((link_status ql3 l =? SYM_LINK) || (LINK_COST_BROKEN <=? linkcost l)) && negb (local_iface_addr l =? 200) &&
      (linkcost l <=? LINK_COST_BROKEN) = true) as H
      by (apply (heap_forall (fun _ l => ((link_status ql3 l =? SYM_LINK) || (LINK_COST_BROKEN <=? linkcost l)) && negb (local_iface_addr l =? 200) &&
           (linkcost l <=? LINK_COST_BROKEN))); vm_compute; reflexivity).
    assert (forall x c a : Z, ((x =? SYM_LINK) || (LINK_COST_BROKEN <=? c)) && negb (a =? 200) && (c <=? LINK_COST_BROKEN) = true ->
      (x <> SYM_LINK -> LINK_COST_BROKEN <= c) /\ a <> 200 /\ c <= LINK_COST_BROKEN) as K.
    { clear. intros x c a [[E1%orb_prop E2]%andb_prop E3]%andb_prop. bool_hyps. split_and!; [|assumption..].
      intros Hx. destruct E1; bool_hyps; [done|assumption]. }
    intros p l [Hp _]. exact (K _ _ _ (H p l Hp)). }
  assert (@lq_level quality_cnf <> 0) as Hlq by (vm_compute; clear; discriminate).
  eapply wp_mono; [exact (get_best_link_cheapest ql3 200 Hlq ql3_wf Hq)|].
  intros r st' [H1 H2]. split; [exact H1|].
  assert (exists l, link_of ql3 (main_of ql3 200) 2 l /\ linkcost l = 1000) as (l & Hl & Hc)
    by (eexists; split; [split; [vm_compute; reflexivity|]; eexists; split; vm_compute; reflexivity|vm_compute; reflexivity]).
  assert (forall p k, links ql3 !! p = Some k -> bool_decide (p = 2%positive) || (linkcost k =? LINK_COST_BROKEN) = true) as H
    by (apply (heap_forall (fun p k => bool_decide (p = 2%positive) || (linkcost k =? LINK_COST_BROKEN))); vm_compute; reflexivity).
  destruct r as [p|].
  - destruct H2 as (k & [Hk _] & _ & Hle). specialize (Hle _ _ Hl). rewrite Hc in Hle. specialize (H p k Hk).
    destruct (bool_decide_reflect (p = 2%positive)) as [->|_]; [reflexivity|]. apply Z.eqb_eq in H. rewrite H in Hle. exfalso. apply Hle. reflexivity.
  - specialize (H2 _ _ Hl). rewrite Hc in H2. discriminate H2.
Defined.

End quality_witness.
