(* ===== verification/RouteSpec.v ===== *)
(** * The choice of the best route path *)

From S2P Require Import Prelude Timer Avl AvlSpec IpAddr KeyTree State LsdbOps Lq RouteTable TcSet LsdbProofs VertexProofs.
From S2P Require Import NeighTable NeighProofs HelloTwoHop NeighSpec TcSpec.

Section route.
Context {cnf : olsrd_config}.

(** ** The order of [olsr_cmp_rtp] *)

(** Cost, hop count and originator, lexicographically. *)
Definition lex_lt (c1 h1 : Z) (o1 : ip_addr) (c2 h2 : Z) (o2 : ip_addr) : bool :=
  if c1 <? c2 then true else if c1 >? c2 then false
  else if h1 <? h2 then true else if h1 >? h2 then false else originator_cmp o1 o2 <? 0.

Lemma originator_cmp_trans a b c : originator_cmp a b < 0 -> originator_cmp b c < 0 -> originator_cmp a c < 0.
Proof.
  unfold originator_cmp. set (n := ipsize ip_version). intros H1 H2.
  pose proof (memcmp_trans (ip_bytes n a) (ip_bytes n b) (ip_bytes n c)) as T1.
  pose proof (memcmp_trans (ip_bytes n c) (ip_bytes n a) (ip_bytes n b)) as T2.
  unfold ip_bytes in *. rewrite !length_map, !length_seq in T1, T2.
  specialize (T1 eq_refl eq_refl). specialize (T2 eq_refl eq_refl).
  rewrite (memcmp_sym (map _ _) (map (fun i => ip_byte a _) _)) in T2.
  rewrite (memcmp_sym (map (fun i => ip_byte c _) _) (map (fun i => ip_byte b _) _)) in T2. lia.
Qed.

Lemma lex_trans c1 h1 o1 c2 h2 o2 c3 h3 o3 :
  lex_lt c1 h1 o1 c2 h2 o2 = true -> lex_lt c2 h2 o2 c3 h3 o3 = true -> lex_lt c1 h1 o1 c3 h3 o3 = true.
Proof.
  unfold lex_lt. pose proof (originator_cmp_trans o1 o2 o3). case_tests; intros; bool_hyps; try done; try lia.
Qed.

Lemma lex_irrefl c h o : lex_lt c h o c h o = false.
Proof.
  unfold lex_lt. rewrite !Z.ltb_irrefl. destruct (c >? c) eqn:?, (h >? h) eqn:?; bool_hyps; try lia.
  unfold originator_cmp. by rewrite memcmp_refl.
Qed.

Lemma cmp_lex p x q y gw c1 c2 : cmp_cost p x gw = Some c1 -> cmp_cost q y gw = Some c2 ->
  olsr_cmp_rtp p x q y gw = Some (lex_lt c1 (metric_hops (rtp_metric x)) (rtp_originator x)
    c2 (metric_hops (rtp_metric y)) (rtp_originator y)).
Proof. intros H1 H2. unfold olsr_cmp_rtp. rewrite H1, H2. done. Qed.

(** ** Recording the best path *)

Lemma set_best_wf d r y b gw :
  lsdb_wf d -> rts d !! r = Some y -> (exists a, route_path d r b a) ->
  (gw = current_inetgw d \/ gw = Some b) ->
  lsdb_wf (set_current_inetgw gw (set_rts (<[r := set_rt_best (Some b) y]> (rts d)) d)).
Proof.
  intros Hwf Hr Hb Hgw. set (d' := set_current_inetgw _ _).
  assert (forall q y', rts d' !! q = Some y' -> exists y0, rts d !! q = Some y0 /\ rt_dst y' = rt_dst y0 /\
    rt_path_tree y' = rt_path_tree y0 /\ (q <> r -> y' = y0) /\ (q = r -> rt_best y' = Some b)) as Hl.
  { intros q y'. unfold d'. simpl. intros [[<- <-]|[Hn Hq]]%lookup_insert_Some; [by exists y|by exists y']. }
  assert (forall q y0, rts d !! q = Some y0 -> exists y', rts d' !! q = Some y' /\ rt_dst y' = rt_dst y0) as Hk.
  { intros q y0 Hq. unfold d'. simpl. destruct (decide (q = r)) as [->|Hn].
    - rewrite lookup_insert_eq. eexists. split; [done|]. simpl. congruence.
    - rewrite lookup_insert_ne by done. by exists y0. }
  split; try apply Hwf.
  - eapply tree_ok_ext; [|apply (dw_rts _ Hwf)]. intros q k. unfold route. split.
    + intros (y' & (y0 & Hy0 & E & _)%Hl & <-). by exists y0.
    + intros (y0 & (y' & Hy' & E)%Hk & <-). by exists y'.
  - intros q y' (y0 & Hy0 & _ & E & _)%Hl. rewrite E. by apply (dw_rt_paths _ Hwf).
  - intros p x q Hx Hq. destruct (dw_rt _ Hwf _ _ _ Hx Hq) as (y0 & Hy0 & K). apply Hk in Hy0 as (y' & Hy' & E).
    exists y'. by rewrite E.
  - intros q y' p (y0 & Hy0 & _ & _ & E1 & E2)%Hl Hp. destruct (decide (q = r)) as [->|Hn].
    + rewrite E2 in Hp by done. injection Hp as <-. exact Hb.
    + rewrite E1 in Hp by done. by apply (dw_best _ Hwf _ _ _ Hy0).
  - intros p. unfold d'. simpl. destruct Hgw as [->| ->]; [by apply (dw_inetgw _ Hwf)|]. intros [= <-].
    destruct Hb as (a & x & Hx & _). by eexists.
Qed.

Lemma wp_rt_best r y st :
  lsdb_wf (db st) -> rts (db st) !! r = Some y -> kt_walk (rt_path_tree y) <> [] ->
  (forall p x, rtps (db st) !! p = Some x -> rtp_rt x = Some r -> is_Some (cmp_cost p x (current_inetgw (db st)))) ->
  wp (olsr_rt_best r) (fun _ st' => exists b xb,
    rtps (db st) !! b = Some xb /\ rtp_rt xb = Some r /\
    (forall q xq, rtps (db st) !! q = Some xq -> rtp_rt xq = Some r ->
      olsr_cmp_rtp q xq b xb (current_inetgw (db st)) = Some false) /\
    lsdb_wf (db st') /\
    let gw := if prefix_len (rt_dst y) =? 0 then Some b else current_inetgw (db st) in
    st' = set_db (set_current_inetgw gw (set_rts (<[r := set_rt_best (Some b) y]> (rts (db st))) (db st))) st) st.
Proof.
  intros Hwf Hr Hne Hcost. set (gw := current_inetgw (db st)) in *.
  pose proof (dw_rt_paths _ Hwf _ _ Hr) as Hok.
  assert (forall p, p ∈ map fst (kt_walk (rt_path_tree y)) <-> exists x, rtps (db st) !! p = Some x /\ rtp_rt x = Some r) as Hin.
  { intros p. rewrite (tree_ptrs (kt_wf := awf) _ _ p Hok). unfold route_path. naive_solver. }
  unfold olsr_rt_best. wp_step. eapply wp_get_rt; [exact Hr|].
  destruct (map fst (kt_walk (rt_path_tree y))) as [|first rest] eqn:Ew; [by destruct (kt_walk (rt_path_tree y))|].
  wp_step. eapply wp_upd_rt; [exact Hr|].
  pose (better := fun q b => exists xq xb cq cb, rtps (db st) !! q = Some xq /\ rtps (db st) !! b = Some xb /\
    cmp_cost q xq gw = Some cq /\ cmp_cost b xb gw = Some cb /\
    lex_lt cq (metric_hops (rtp_metric xq)) (rtp_originator xq) cb (metric_hops (rtp_metric xb)) (rtp_originator xb) = true).
  assert (forall p q s, better p q -> better q s -> better p s) as Htrans.
  { intros p q s (x1 & x2 & c1 & c2 & A1 & A2 & A3 & A4 & A5) (x2' & x3 & c2' & c3 & B1 & B2 & B3 & B4 & B5).
    assert (x2' = x2) as -> by congruence. assert (c2' = c2) as -> by congruence.
    exists x1, x3, c1, c3. split_and!; try done. by eapply lex_trans. }
  set (base := fun b => set_db (set_rts (<[r := set_rt_best (Some b) y]> (rts (db st))) (db st)) st).
  wp_step. apply (wp_forM _ _ (fun rest' st' => exists b seen, first :: rest = seen ++ rest' /\ b ∈ first :: rest /\
    (forall q, q ∈ seen -> ~ better q b) /\ st' = base b)).
  - exists first, [first]. split; [done|]. split; [left|]. split; [|done].
    intros q ->%list_elem_of_singleton (x & x' & c & c' & A1 & A2 & A3 & A4 & A5).
    assert (x' = x) as -> by congruence. assert (c' = c) as -> by congruence. by rewrite lex_irrefl in A5.
  - intros q rest' st' (b & seen & Eseen & Hb & Hbest & ->).
    assert (q ∈ first :: rest) as Hq by (rewrite Eseen; apply elem_of_app; right; left).
    pose proof Hq as (xq & Hxq & Hqr)%Hin. pose proof Hb as (xb & Hxb & Hbr)%Hin.
    destruct (Hcost _ _ Hxq Hqr) as [cq Hcq], (Hcost _ _ Hxb Hbr) as [cb Hcb].
    wp_step. eapply wp_get_rt; [unfold base; simpl; apply lookup_insert_eq|]. simpl.
    wp_step. eapply wp_get_rtp; [exact Hxq|]. wp_step. eapply wp_get_rtp; [exact Hxb|]. wp_step. wp_step. simpl.
    fold gw. wp_step. eapply (wp_gets_opt (fun _ => olsr_cmp_rtp q xq b xb gw)); [by apply cmp_lex|].
    set (lt := lex_lt _ _ _ _ _ _). assert (lt = true <-> better q b) as Hlt.
    { split; [intros H; by exists xq, xb, cq, cb|].
      intros (x1 & x2 & c1 & c2 & A1 & A2 & A3 & A4 & A5). unfold lt.
      assert (x1 = xq) as -> by congruence. assert (x2 = xb) as -> by congruence. congruence. }
    assert (first :: rest = (seen ++ [q]) ++ rest') as Eseen' by (by rewrite <- app_assoc).
    destruct lt.
    + simpl. eapply wp_upd_rt; [unfold base; simpl; apply lookup_insert_eq|].
      exists q, (seen ++ [q]). split; [done|]. split; [done|]. split.
      * intros p [Hp| ->%list_elem_of_singleton]%elem_of_app Hbt.
        -- apply (Hbest p Hp). eapply Htrans; [exact Hbt|]. by apply Hlt.
        -- destruct Hbt as (x & x' & c & c' & A1 & A2 & A3 & A4 & A5).
           assert (x' = x) as -> by congruence. assert (c' = c) as -> by congruence. by rewrite lex_irrefl in A5.
      * unfold base. simpl. by rewrite insert_insert_eq.
    + simpl. apply wp_ret. exists b, (seen ++ [q]). split; [done|]. split; [done|]. split; [|done].
      intros p [Hp| ->%list_elem_of_singleton]%elem_of_app; [by apply Hbest|]. intros Hbt. by apply Hlt in Hbt.
  - intros st' (b & seen & Eseen & Hb & Hbest & ->). rewrite app_nil_r in Eseen. rewrite <- Eseen in Hbest.
    pose proof Hb as (xb & Hxb & Hbr)%Hin. destruct (Hcost _ _ Hxb Hbr) as [cb Hcb].
    assert (exists a, route_path (db st) r b a) as Hpath by (eexists; by exists xb).
    wp_step. eapply wp_get_rt; [unfold base; simpl; apply lookup_insert_eq|].
    change (rt_dst (set_rt_best (Some b) y)) with (rt_dst y). change (rt_best (set_rt_best (Some b) y)) with (Some b).
    assert (forall q xq, rtps (db st) !! q = Some xq -> rtp_rt xq = Some r -> olsr_cmp_rtp q xq b xb gw = Some false) as Hno.
    { intros q xq Hxq Hqr. destruct (Hcost _ _ Hxq Hqr) as [cq Hcq]. rewrite (cmp_lex _ _ _ _ _ cq cb) by done. f_equal.
      destruct (lex_lt _ _ _ _ _ _) eqn:E; [|done]. exfalso. apply (Hbest q); [apply Hin; by exists xq|].
      by exists xq, xb, cq, cb. }
    rewrite (Z.eqb_sym 0). unfold when. destruct (prefix_len (rt_dst y) =? 0).
    + apply wp_upd_db. exists b, xb. split_and!; try done. apply set_best_wf; [done|done|done|by right].
    + apply wp_ret. exists b, xb. split_and!; try done.
      assert (db (base b) = set_current_inetgw gw (set_rts (<[r := set_rt_best (Some b) y]> (rts (db st))) (db st))) as E by done.
      rewrite E. apply set_best_wf; [done|done|done|by left].
Qed.

(** [olsr_rt_best] chooses, among the paths of a route, one that no other path
    beats: least cost (the current Internet gateway's cost is scaled by the NAT
    threshold), then fewest hops, then the smallest originator. Nothing else
    changes, except that the choice for the default route becomes the current
    gateway. *)
Theorem olsr_rt_best_correct r y st :
  lsdb_wf (db st) -> rts (db st) !! r = Some y -> kt_walk (rt_path_tree y) <> [] ->
  (forall p x, rtps (db st) !! p = Some x -> rtp_rt x = Some r -> is_Some (cmp_cost p x (current_inetgw (db st)))) ->
  wp (olsr_rt_best r) (fun _ st' => exists b xb,
    rtps (db st) !! b = Some xb /\ rtp_rt xb = Some r /\
    (forall q xq, rtps (db st) !! q = Some xq -> rtp_rt xq = Some r ->
      olsr_cmp_rtp q xq b xb (current_inetgw (db st)) = Some false) /\
    lsdb_wf (db st') /\
    let gw := if prefix_len (rt_dst y) =? 0 then Some b else current_inetgw (db st) in
    st' = set_db (set_current_inetgw gw (set_rts (<[r := set_rt_best (Some b) y]> (rts (db st))) (db st))) st) st.
Proof. apply wp_rt_best. Qed.

(** ** Inserting a path into the routing table *)

Lemma add_route_wf d r k :
  lsdb_wf d -> rts d !! r = None -> kt_find (routingtree d) k = None ->
  lsdb_wf (set_routingtree (kt_insert (routingtree d) r k) (set_rts (<[r := new_rt_entry k]> (rts d)) d)).
Proof.
  intros Hwf Hr Hf. set (d' := set_routingtree _ _).
  assert (forall q y, rts d !! q = Some y -> rts d' !! q = Some y) as Hkeep.
  { intros q y Hq. unfold d'. simpl. rewrite lookup_insert_ne by congruence. done. }
  destruct (tree_insert (routingtree d) (route d) (route d') r k) as [Htree _].
  { apply (dw_rts _ Hwf). } { done. } { intros k' (y & Hy & _). congruence. }
  { intros q k'. unfold route, d'. simpl. split.
    - intros (y & [[<- <-]|[Hn Hy]]%lookup_insert_Some & <-); [by left|right; by exists y].
    - intros [[-> ->]|(y & Hy & <-)]; [eexists; by rewrite lookup_insert_eq|]. exists y. split; [by apply Hkeep|done]. }
  split; try apply Hwf.
  - exact Htree.
  - intros q y. unfold d'. simpl. intros [[<- <-]|[Hn Hy]]%lookup_insert_Some; [|by apply (dw_rt_paths _ Hwf)].
    apply (tree_ok_init (kt_wf := awf)). intros p a (x & Hx & Hq & _). destruct (dw_rt _ Hwf _ _ _ Hx Hq) as (y & Hy & _). congruence.
  - intros p x q Hx Hq. destruct (dw_rt _ Hwf _ _ _ Hx Hq) as (y & Hy & K). exists y. split; [by apply Hkeep|done].
  - intros q y p. unfold d'. simpl. intros [[<- <-]|[Hn Hy]]%lookup_insert_Some; [done|]. by apply (dw_best _ Hwf).
Qed.

Definition attached (r : positive) (a : ip_addr) (x : rt_path) : rt_path := set_rtp_rt (Some r) (set_rtp_originator a x).

Lemma attach_path_wf d p x tc t r y :
  lsdb_wf d -> rtps d !! p = Some x -> rtp_rt x = None -> rtp_tc x = Some tc -> tcs d !! tc = Some t ->
  rts d !! r = Some y -> peq (rtp_dst x) (rt_dst y) ->
  lsdb_wf (set_rtps (<[p := attached r (tc_addr t) x]> (rtps d))
    (set_rts (<[r := set_rt_path_tree (kt_insert (rt_path_tree y) p (tc_addr t)) y]> (rts d)) d)).
Proof.
  intros Hwf Hx Hrt Htc Ht Hr Hk. set (x' := attached r (tc_addr t) x). set (y' := set_rt_path_tree _ y). set (d' := set_rtps _ _).
  assert (forall q z, rtps d' !! q = Some z <-> (q = p /\ z = x') \/ (q <> p /\ rtps d !! q = Some z)) as Hp.
  { intros q z. unfold d'. simpl. rewrite lookup_insert_Some. naive_solver. }
  assert (forall q z, rts d' !! q = Some z <-> (q = r /\ z = y') \/ (q <> r /\ rts d !! q = Some z)) as Hq.
  { intros q z. unfold d'. simpl. rewrite lookup_insert_Some. naive_solver. }
  assert (forall s q a, route_path d' s q a <-> (s = r /\ q = p /\ a = tc_addr t) \/ route_path d s q a) as Hrp.
  { intros s q a. unfold route_path. split.
    - intros (z & [[-> ->]|[Hn Hz]]%Hp & Hs & Ha); [left; simpl in *; split_and!; congruence|right; by exists z].
    - intros [(-> & -> & ->)|(z & Hz & Hs & Ha)]; [exists x'; rewrite Hp; split; [by left|done]|].
      exists z. rewrite Hp. split; [right; split; [congruence|done]|done]. }
  assert (kt_find (rt_path_tree y) (tc_addr t) = None) as Hnone.
  { apply (tree_find_None (kt_wf := awf) _ _ _ (dw_rt_paths _ Hwf _ _ Hr)). intros q a (z & Hz & Hs & <-) Ka.
    destruct (dw_path_tc _ Hwf _ _ Hz) as (tc2 & t2 & A1 & A2 & A3). rewrite A3 in Ka by congruence.
    assert (vertex d tc2 (tc_addr t2)) as V1 by (by exists t2). assert (vertex d tc (tc_addr t)) as V2 by (by exists t).
    assert (tc2 = tc) as -> by (by eapply (tree_same (kt_wf := awf)); [apply (dw_tcs _ Hwf)|exact V1|exact V2|]).
    destruct (dw_rt _ Hwf _ _ _ Hz Hs) as (y2 & B1 & B2). assert (y2 = y) as -> by congruence.
    assert (path_of d tc q (rtp_dst z)) as P1 by (by exists z). assert (path_of d tc p (rtp_dst x)) as P2 by (by exists x).
    assert (q = p) as ->; [|congruence].
    eapply (tree_same (kt_wf := pwf)); [by apply (dw_paths _ Hwf)|exact P1|exact P2|]. by rewrite B2, Hk. }
  destruct (tree_insert (rt_path_tree y) (route_path d r) (route_path d' r) p (tc_addr t)) as [Htree _].
  { by apply (dw_rt_paths _ Hwf). } { done. } { intros a (z & Hz & Hs & _). congruence. }
  { intros q a. rewrite Hrp. naive_solver. }
  split; try apply Hwf.
  - intros q t' Hq'. eapply tree_ok_ext; [|by apply (dw_paths _ Hwf)]. intros g k. unfold path_of. split.
    + intros (z & [[-> ->]|[Hn Hz]]%Hp & Hs & Ha); [by exists x|by exists z].
    + intros (z & Hz & Hs & Ha). destruct (decide (g = p)) as [->|Hn]; [exists x'|exists z]; rewrite Hp.
      * assert (z = x) as -> by congruence. split; [by left|done].
      * split; [by right|done].
  - intros q z [[-> ->]|[Hn Hz]]%Hp; [by exists tc, t|]. by apply (dw_path_tc _ Hwf q).
  - eapply tree_ok_ext; [|apply (dw_rts _ Hwf)]. intros q k. unfold route. split.
    + intros (z & [[-> ->]|[Hn Hz]]%Hq & <-); [by exists y|by exists z].
    + intros (z & Hz & <-). destruct (decide (q = r)) as [->|Hn]; [exists y'|exists z]; rewrite Hq.
      * assert (z = y) as -> by congruence. split; [by left|done].
      * split; [by right|done].
  - intros q z [[-> ->]|[Hn Hz]]%Hq; [exact Htree|]. eapply tree_ok_ext; [|by apply (dw_rt_paths _ Hwf)].
    intros g a. rewrite Hrp. naive_solver.
  - intros q z s [[-> ->]|[Hn Hz]]%Hp Hs.
    + injection Hs as <-. exists y'. rewrite Hq. split; [by left|done].
    + destruct (dw_rt _ Hwf _ _ _ Hz Hs) as (z' & Hz' & K). destruct (decide (s = r)) as [->|Hn'].
      * exists y'. rewrite Hq. assert (z' = y) as -> by congruence. split; [by left|done].
      * exists z'. rewrite Hq. split; [by right|done].
  - intros q z b [[-> ->]|[Hn Hz]]%Hq Hb.
    + destruct (dw_best _ Hwf _ _ _ Hr Hb) as [a Ha]. exists a. apply Hrp. by right.
    + destruct (dw_best _ Hwf _ _ _ Hz Hb) as [a Ha]. exists a. apply Hrp. by right.
  - intros b Hb. destruct (dw_inetgw _ Hwf _ Hb) as [z Hz]. destruct (decide (b = p)) as [->|Hn].
    + exists x'. apply Hp. by left.
    + exists z. apply Hp. by right.
Qed.

(** Writing to a path, but not to what the trees rely on. *)
Lemma path_data_wf d p x x' :
  lsdb_wf d -> rtps d !! p = Some x -> rtp_rt x' = rtp_rt x -> rtp_tc x' = rtp_tc x -> rtp_dst x' = rtp_dst x ->
  rtp_originator x' = rtp_originator x -> lsdb_wf (set_rtps (<[p := x']> (rtps d)) d).
Proof.
  intros Hwf Hx E1 E2 E3 E4. set (d' := set_rtps _ _).
  assert (forall q z, rtps d' !! q = Some z -> exists z0, rtps d !! q = Some z0 /\ rtp_rt z = rtp_rt z0 /\
    rtp_tc z = rtp_tc z0 /\ rtp_dst z = rtp_dst z0 /\ rtp_originator z = rtp_originator z0) as H1.
  { intros q z. unfold d'. simpl. intros [[<- <-]|[Hn Hz]]%lookup_insert_Some; [by exists x|by exists z]. }
  assert (forall q z0, rtps d !! q = Some z0 -> exists z, rtps d' !! q = Some z /\ rtp_rt z = rtp_rt z0 /\
    rtp_tc z = rtp_tc z0 /\ rtp_dst z = rtp_dst z0 /\ rtp_originator z = rtp_originator z0) as H2.
  { intros q z0 Hz. unfold d'. simpl. destruct (decide (q = p)) as [->|Hn].
    - rewrite lookup_insert_eq. assert (z0 = x) as -> by congruence. by exists x'.
    - rewrite lookup_insert_ne by done. by exists z0. }
  assert (forall s q a, route_path d' s q a <-> route_path d s q a) as Hrp.
  { intros s q a. split.
    - intros (z & (z0 & Hz & -> & _ & _ & ->)%H1 & Hs & Ha). by exists z0.
    - intros (z & (z0 & Hz & <- & _ & _ & <-)%H2 & Hs & Ha). by exists z0. }
  split; try apply Hwf.
  - intros q t Hq. eapply tree_ok_ext; [|by apply (dw_paths _ Hwf)]. intros g k. split.
    + intros (z & (z0 & Hz & _ & -> & -> & _)%H1 & Hs & Ha). by exists z0.
    + intros (z & (z0 & Hz & _ & <- & <- & _)%H2 & Hs & Ha). by exists z0.
  - intros q z (z0 & Hz & A1 & A2 & A3 & A4)%H1. rewrite A1, A2, A4. by apply (dw_path_tc _ Hwf q).
  - intros r y Hy. eapply tree_ok_ext; [apply Hrp|]. by apply (dw_rt_paths _ Hwf).
  - intros q z s (z0 & Hz & A1 & A2 & A3 & A4)%H1. rewrite A1, A3. by apply (dw_rt _ Hwf q).
  - intros r y b Hy Hb. destruct (dw_best _ Hwf _ _ _ Hy Hb) as [a Ha]. exists a. by apply Hrp.
  - intros b Hb. destruct (dw_inetgw _ Hwf _ Hb) as [z (z0 & Hz & _)%H2]. by eexists.
Qed.

(** What placing a path in the routing table leaves alone. *)
Definition same_graph (d d' : lsdb) : Prop :=
  tcs d' = tcs d /\ edges d' = edges d /\ tc_tree d' = tc_tree d /\ tc_myself d' = tc_myself d /\
  routingtree_version d' = routingtree_version d /\ kernel_state d' = kernel_state d /\
  forall q z, rts d !! q = Some z -> exists z', rts d' !! q = Some z' /\ rt_rest z' = rt_rest z.

(** A statement shared with the samples below. *)
Lemma wp_insert_rt_path p x tc t link l i st :
  lsdb_wf (db st) -> rtps (db st) !! p = Some x -> rtp_rt x = None -> rtp_tc x = Some tc ->
  tcs (db st) !! tc = Some t -> links st !! link = Some l -> inter l = Some i -> prefix_len (rtp_dst x) <= maxplen ->
  wp (olsr_insert_rt_path p tc link) (fun _ st' => lsdb_wf (db st') /\
    if path_cost t >=? ROUTE_COST_BROKEN then st' = st
    else exists r x' y, rtps (db st') = <[p := x']> (rtps (db st)) /\ st' = set_db (db st') st /\
      rtp_rt x' = Some r /\ rtp_originator x' = tc_addr t /\ rtp_dst x' = rtp_dst x /\
      rtp_nexthop x' = {| gateway := neighbor_iface_addr l; iif_index := if_index i |} /\
      rtp_metric x' = {| metric_cost := path_cost t; metric_hops := tc_hops t |} /\
      rts (db st') !! r = Some y /\ peq (rt_dst y) (rtp_dst x) /\
      match kt_find (routingtree (db st)) (rtp_dst x) with Some r0 => r = r0 | None => rts (db st) !! r = None end /\
      rtp_tc x' = rtp_tc x /\ rtp_version x' = routingtree_version (db st) /\ same_graph (db st) (db st')) st.
Proof.
  intros Hwf Hx Hrt Htc Ht Hl Hi Hlen. unfold olsr_insert_rt_path. wp_step. eapply wp_get_tc; [exact Ht|].
  destruct (path_cost t >=? ROUTE_COST_BROKEN); [by apply wp_ret|].
  wp_step. eapply wp_get_rtp; [exact Hx|]. destruct (prefix_len (rtp_dst x) >? maxplen) eqn:E; bool_hyps; [lia|].
  wp_step. wp_step. wp_step.
  (* the route, looked up or new *)
  apply (wp_mono _ (fun r st1 => exists y, lsdb_wf (db st1) /\ st1 = set_db (db st1) st /\ rts (db st1) !! r = Some y /\
    peq (rtp_dst x) (rt_dst y) /\ rtps (db st1) = rtps (db st) /\ tcs (db st1) = tcs (db st) /\
    match kt_find (routingtree (db st)) (rtp_dst x) with Some r0 => r = r0 | None => rts (db st) !! r = None end /\
    same_graph (db st) (db st1))).
  { destruct (kt_find (routingtree (db st)) (rtp_dst x)) as [r|] eqn:Ef.
    - apply (tree_find_Some (kt_wf := pwf) _ _ _ _ (dw_rts _ Hwf)) in Ef as (k & K & y & Hy & <-).
      apply wp_ret. exists y. split_and!; try done; [by destruct st|]. split_and!; try done. intros q z Hq. by exists z.
    - set (r := alloc (rts (db st))). assert (rts (db st) !! r = None) as Hr by apply alloc_fresh.
      unfold olsr_alloc_rt_entry, malloc_rt. wp_step. wp_step. wp_step. wp_step. apply wp_upd_db. apply wp_ret. fold r.
      wp_step. apply wp_upd_db. apply wp_ret. eexists. split; [exact (add_route_wf _ _ _ Hwf Hr Ef)|]. split; [done|].
      split; [apply lookup_insert_eq|]. split_and!; try done. split_and!; try done. intros q z Hq. exists z. simpl.
      by rewrite lookup_insert_ne by congruence. }
  intros r st1 (y & Hwf1 & Hst1 & Hy & Hk & E1 & E2 & Hfound & Hsame).
  rewrite <- E1 in Hx. rewrite <- E2 in Ht.
  wp_step. eapply wp_upd_rtp; [exact Hx|]. wp_step. eapply wp_upd_rt; [exact Hy|].
  wp_step. eapply wp_upd_rtp; [simpl; apply lookup_insert_eq|]. simpl. rewrite insert_insert_eq.
  pose proof (attach_path_wf _ _ _ _ _ _ _ Hwf1 Hx Hrt Htc Ht Hy Hk) as Hwf2. fold (attached r (tc_addr t) x).
  match type of Hwf2 with lsdb_wf ?d => set (d2 := d) in *; match goal with |- wp _ _ ?s => change s with (set_db d2 st1) end end.
  unfold olsr_update_rt_path. wp_step. wp_step. wp_step.
  eapply (wp_gets_opt (fun st => links st !! link)); [by rewrite Hst1|].
  wp_step. eapply (wp_gets_opt (fun _ => inter l)); [exact Hi|].
  wp_step. eapply wp_get_tc; [exact Ht|]. eapply wp_upd_rtp; [simpl; apply lookup_insert_eq|].
  split.
  - simpl. rewrite insert_insert_eq. eapply (path_data_wf d2 p (attached r (tc_addr t) x)) in Hwf2; [|simpl; apply lookup_insert_eq|..].
    + unfold d2 in Hwf2. simpl in Hwf2. rewrite insert_insert_eq in Hwf2. exact Hwf2.
    + done.
    + done.
    + done.
    + done.
  - exists r. do 2 eexists. split; [simpl; by rewrite insert_insert_eq, E1|]. split; [by rewrite Hst1|].
    split; [done|]. split; [done|]. split; [done|]. split; [done|]. split; [done|].
    split; [simpl; apply lookup_insert_eq|]. split; [by symmetry|]. split; [exact Hfound|].
    split; [done|]. destruct Hsame as (G1 & G2 & G3 & G4 & G5 & G6 & G7). split; [exact G5|].
    split_and!; try done. intros q z Hq. destruct (G7 q z Hq) as (z' & Hz' & Ez). simpl. destruct (decide (q = r)) as [->|Hn].
    + rewrite lookup_insert_eq. eexists. split; [done|]. rewrite <- Ez. assert (z' = y) as -> by congruence. done.
    + rewrite lookup_insert_ne by done. by exists z'.
Qed.

(** [olsr_insert_rt_path] puts a path that is in no route yet into the route of its
    prefix, creating the route when there is none, and keeps the database well
    formed; the path gets the next hop of the link and the metric of the vertex. A
    path of an unreachable vertex is left alone. *)
Theorem olsr_insert_rt_path_correct p x tc t link l i st :
  lsdb_wf (db st) -> rtps (db st) !! p = Some x -> rtp_rt x = None -> rtp_tc x = Some tc ->
  tcs (db st) !! tc = Some t -> links st !! link = Some l -> inter l = Some i -> prefix_len (rtp_dst x) <= maxplen ->
  wp (olsr_insert_rt_path p tc link) (fun _ st' => lsdb_wf (db st') /\
    if path_cost t >=? ROUTE_COST_BROKEN then st' = st
    else exists r x' y, rtps (db st') = <[p := x']> (rtps (db st)) /\ st' = set_db (db st') st /\
      rtp_rt x' = Some r /\ rtp_originator x' = tc_addr t /\ rtp_dst x' = rtp_dst x /\
      rtp_nexthop x' = {| gateway := neighbor_iface_addr l; iif_index := if_index i |} /\
      rtp_metric x' = {| metric_cost := path_cost t; metric_hops := tc_hops t |} /\
      rts (db st') !! r = Some y /\ peq (rt_dst y) (rtp_dst x) /\
      match kt_find (routingtree (db st)) (rtp_dst x) with Some r0 => r = r0 | None => rts (db st) !! r = None end) st.
Proof.
  intros Hwf Hx Hrt Htc Ht Hl Hi Hlen. eapply wp_mono; [by eapply wp_insert_rt_path|]. cbv beta. intros _ st' [H1 H2]. split; [exact H1|].
  destruct (path_cost t >=? ROUTE_COST_BROKEN); [exact H2|].
  destruct H2 as (r & x' & y & A1 & A2 & A3 & A4 & A5 & A6 & A7 & A8 & A9 & A10 & _). exists r, x', y. by split_and!.
Qed.

End route.

(** ** Witnesses: both vertices announce the network 7/24 *)
Section witnesses.
#[local] Existing Instance sample_cnf.
#[local] Existing Instance sample_lq.

Definition sample_interface : interface_olsr := {| if_ip_addr := 100; int_name := None; int_metric := 0; if_index := 3 |}.

Definition sample_link : link_entry :=
  {| local_iface_addr := 100; neighbor_iface_addr := 101; inter := Some sample_interface; if_name := None;
     link_timer := None; link_sym_timer := None; ASYM_time := 0; link_vtime := 0; link_neighbor := 1; prev_status := 0;
     L_link_quality := S754_zero false; L_link_pending := 0; L_LOST_LINK_time := 0; link_hello_timer := None;
     last_htime := 0; olsr_seqno_valid := false; olsr_seqno := 0; loss_helloint := 0; link_loss_timer := None;
     loss_link_multiplier := 0; linkcost := 0; linkquality := [] |}.

Definition rs0 : olsr_state := set_links {[1%positive := sample_link]} db_sample.
Definition rs1 : olsr_state := run (upd_tc 2 (set_path_cost 20)) rs0.
Definition rs2 : olsr_state := run (upd_tc 3 (set_path_cost 10)) rs1.
Definition rs3 : olsr_state := run (olsr_insert_routing_table 7 24 101 OLSR_RT_ORIGIN_HNA) rs2.
Definition rs4 : olsr_state := run (olsr_insert_routing_table 7 24 102 OLSR_RT_ORIGIN_HNA) rs3.
Definition rs5 : olsr_state := run (olsr_insert_rt_path 4 2 1) rs4.
Definition rs6 : olsr_state := run (olsr_insert_rt_path 5 3 1) rs5.

Lemma cost_wf p c st : lsdb_wf (db st) -> is_Some (tcs (db st) !! p) -> lsdb_wf (db (run (upd_tc p (set_path_cost c)) st)).
Proof.
  intros Hwf [t Ht]. apply (run_ok _ (fun st' => lsdb_wf (db st'))). eapply wp_upd_tc; [exact Ht|]. simpl.
  by apply (tc_data_wf _ p t (set_path_cost c)).
Qed.

(** The vertex of an address exists and has room. *)
Definition has_room (st : olsr_state) (a : ip_addr) : bool :=
  match kt_find (tc_tree (db st)) a with
  | Some tc => match tcs (db st) !! tc with Some t => 2 + degree t <? 4294967296 | None => true end
  | None => true
  end.

Lemma network_wf dst plen a origin st :
  lsdb_wf (db st) -> plen <= maxplen -> has_room st a = true ->
  lsdb_wf (db (run (olsr_insert_routing_table dst plen a origin) st)).
Proof.
  intros Hwf Hp Hr. apply (run_ok _ (fun st' => lsdb_wf (db st'))).
  eapply wp_mono; [apply wp_insert_routing_table; [done|done|]|by intros r st' [? _]].
  intros tc t Hf Ht. unfold has_room in Hr. rewrite Hf, Ht in Hr. by apply Z.ltb_lt.
Qed.

Lemma db_set_links m st : db (set_links m st) = db st.
Proof. reflexivity. Qed.

Lemma rs0_wf : lsdb_wf (db rs0).
Proof. unfold rs0. rewrite db_set_links. exact db_sample_wf. Qed.

Lemma rs1_wf : lsdb_wf (db rs1).
Proof.
  unfold rs1. apply cost_wf; [exact rs0_wf|]. apply (bool_decide_unpack _). vm_compute. exact I.
Qed.

Lemma rs2_wf : lsdb_wf (db rs2).
Proof.
  unfold rs2. apply cost_wf; [exact rs1_wf|]. apply (bool_decide_unpack _). vm_compute. exact I.
Qed.

Lemma rs3_wf : lsdb_wf (db rs3).
Proof.
  unfold rs3. apply network_wf; [exact rs2_wf|vm_compute; discriminate|vm_compute; reflexivity].
Qed.

Lemma rs4_wf : lsdb_wf (db rs4).
Proof.
  unfold rs4. apply network_wf; [exact rs3_wf|vm_compute; discriminate|vm_compute; reflexivity].
Qed.

Lemma rs5_wf : lsdb_wf (db rs5).
Proof.
  unfold rs5.
  apply (run_ok _ (fun st' => lsdb_wf (db st'))). eapply wp_mono; [eapply (wp_insert_rt_path 4)|by intros ? ? [? _]].
  - apply rs4_wf.
  - vm_compute. reflexivity.
  - reflexivity.
  - reflexivity.
  - vm_compute. reflexivity.
  - vm_compute. reflexivity.
  - reflexivity.
  - vm_compute. discriminate.
Qed.

Lemma rs6_wf : lsdb_wf (db rs6).
Proof.
  unfold rs6.
  apply (run_ok _ (fun st' => lsdb_wf (db st'))). eapply wp_mono; [eapply (wp_insert_rt_path 5)|by intros ? ? [? _]].
  - apply rs5_wf.
  - vm_compute. reflexivity.
  - reflexivity.
  - reflexivity.
  - vm_compute. reflexivity.
  - vm_compute. reflexivity.
  - reflexivity.
  - vm_compute. discriminate.
Qed.

Lemma rs5_path : exists x t, rtps (db rs5) !! 5%positive = Some x /\ rtp_rt x = None /\ rtp_tc x = Some 3%positive /\
  tcs (db rs5) !! 3%positive = Some t /\ path_cost t = 10 /\ rtp_dst x = {| prefix := 7; prefix_len := 24 |}.
Proof. do 2 eexists. split_and!; vm_compute; reflexivity. Qed.

(** The second path goes into the route the first one created. *)
Lemma olsr_insert_rt_path_correct_witness :
  wp (olsr_insert_rt_path 5 3 1) (fun _ st' => lsdb_wf (db st') /\ exists x', rtps (db st') !! 5%positive = Some x' /\
    rtp_rt x' = Some 2%positive) rs5.
Proof.
  destruct rs5_path as (x & t & Hx & Hrt & Htc & Ht & Hc & Hl).
  assert (links rs5 !! 1%positive = Some sample_link) as Hlink by (vm_compute; reflexivity).
  assert (prefix_len (rtp_dst x) <= maxplen) as Hlen by (rewrite Hl; vm_compute; discriminate).
  eapply wp_mono; [exact (olsr_insert_rt_path_correct 5 x 3 t 1 sample_link sample_interface rs5 rs5_wf Hx Hrt Htc Ht Hlink eq_refl Hlen)|].
  intros u st' [H1 H2]. split; [exact H1|]. rewrite Hc in H2.
  destruct H2 as (r & x' & y & E1 & _ & E2 & _ & _ & _ & _ & _ & _ & E3). exists x'.
  rewrite E1, lookup_insert_eq. split; [reflexivity|]. rewrite E2. f_equal.
  assert (kt_find (routingtree (db rs5)) (rtp_dst x) = Some 2%positive) as Ef.
  { rewrite Hl. vm_compute. reflexivity. }
  rewrite Ef in E3. exact E3.
Defined.

(** The only other path of the network loses against number 5. *)
Lemma rs6_path : exists x5, rtps (db rs6) !! 5%positive = Some x5 /\ rtp_rt x5 = Some 2%positive /\
  forall b xb, rtps (db rs6) !! b = Some xb -> rtp_rt xb = Some 2%positive ->
    b = 5%positive \/ b = 4%positive /\ forall x, rtps (db rs6) !! 5%positive = Some x ->
      olsr_cmp_rtp 5 x b xb (current_inetgw (db rs6)) = Some true.
Proof.
  eexists. split; [vm_compute; reflexivity|]. split; [reflexivity|]. intros b xb Hb Hbr.
  apply elem_of_map_to_list in Hb. revert Hb. vm_compute. intros Hb.
  repeat (apply elem_of_cons in Hb as [[= -> ->]|Hb]; [try discriminate Hbr|]); [by left| |by apply not_elem_of_nil in Hb].
  right. split; [reflexivity|]. intros x [= <-]. vm_compute. reflexivity.
Qed.

Lemma rts_after gw m d st : rts (db (set_db (set_current_inetgw gw (set_rts m d)) st)) = m.
Proof. reflexivity. Qed.

(** 102 offers the network at half the cost. *)
Lemma olsr_rt_best_correct_witness :
  exists y, rts (db rs6) !! 2%positive = Some y /\
  wp (olsr_rt_best 2) (fun _ st' => lsdb_wf (db st') /\ rts (db st') !! 2%positive = Some (set_rt_best (Some 5%positive) y)) rs6.
Proof.
  assert (exists y, rts (db rs6) !! 2%positive = Some y /\ kt_walk (rt_path_tree y) <> [] /\ prefix_len (rt_dst y) = 24) as (y & Hy & Hne & Hl).
  { eexists. split; [vm_compute; reflexivity|]. split; [vm_compute; discriminate|vm_compute; reflexivity]. }
  exists y. split; [exact Hy|]. eapply wp_mono.
  - refine (olsr_rt_best_correct 2 y rs6 rs6_wf Hy Hne _). intros p x _ _. vm_compute. eexists. reflexivity.
  - intros u st' (b & xb & Hb & Hbr & Hbest & Hwf' & Est). split; [exact Hwf'|].
    cbv zeta in Est. rewrite Est, rts_after, lookup_insert_eq. clear Est Hwf'. do 3 f_equal.
    destruct rs6_path as (x5 & H5 & R5 & Hall). destruct (Hall b xb Hb Hbr) as [->|[-> Hcmp]]; [reflexivity|].
    exfalso. specialize (Hbest _ _ H5 R5). rewrite Hcmp in Hbest by exact H5. discriminate Hbest.
Defined.

End witnesses.
