(* ===== verification/Rib.v ===== *)
(** * process_routes.c: from route paths to kernel routes

    The kernel interface is a class: a call is recorded in [kernel_log] with its
    result, which may depend on the calls before it. The changes are queued on
    [chg_kernel_list]; a route is on the list exactly when its [rt_change_node] is
    linked ([list_remove] resets it). The parts for builds with __linux__ (NIIT, and
    when a route is deleted before it is replaced) are left out. *)

From S2P Require Import Prelude Timer Avl IpAddr KeyTree State LsdbOps RouteTable.

Class kernel_routes := {
  host_emul : bool;
  fibm_correct : bool;                          (* olsr_cnf->fib_metric == FIBM_CORRECT *)
  kernel_error : list (kernel_op * Z) -> kernel_op -> Z;
}.

Section rib.
Context {cnf : olsrd_config} {krn : kernel_routes}.

Definition kernel_call (op : kernel_op) : OM Z :=
  let* log := gets (fun st => kernel_log (db st)) in
  let err := kernel_error log op in
  do* upd_db (set_kernel_log ((op, err) :: log)) in
  ret err.

Definition ip_is_linklocal (ip : ip_addr) : bool :=
  match ip_version with
  | AF_INET => false
  | AF_INET6 => (ip_byte ip 0 =? 254) && (Z.land (ip_byte ip 1) 192 =? 128)
  end.

(** ** Kernel routes *)

Definition olsr_delete_kernel_route (rt : positive) : OM Z :=
  let* r := get_rt rt in
  if (metric_hops (rt_metric r) >? 1) && ip_is_linklocal (prefix (rt_dst r)) then ret 0
  else if negb host_emul then
    let* error := kernel_call (DelRoute (rt_dst r) (rt_nexthop r) (rt_metric r)) in
    if negb (error =? 0) then ret (-1) else ret 0
  else ret 0.

Definition olsr_add_kernel_route (rt : positive) : OM unit :=
  let* r := get_rt rt in
  match rt_best r with
  | None => crash
  | Some best =>
      let* b := get_rtp best in
      if (metric_hops (rtp_metric b) >? 1) && ip_is_linklocal (prefix (rtp_dst b)) then ret tt
      else if negb host_emul then
        let* error := kernel_call (AddRoute (rt_dst r) (rtp_nexthop b) (rtp_metric b)) in
        if negb (error =? 0) then ret tt
        else upd_rt rt (fun r => set_rt_nexthop (rtp_nexthop b) (set_rt_metric (rtp_metric b) r))
      else ret tt
  end.

Definition olsr_enqueue_rt (rt : positive) : OM unit :=
  let* l := gets (fun st => chg_kernel_list (db st)) in
  if bool_decide (rt ∈ l) then ret tt
  else
    let* nh := olsr_get_nh rt in
    let* r := get_rt rt in
    if ipequal ip_version (prefix (rt_dst r)) (gateway nh) then upd_db (set_chg_kernel_list (rt :: l))
    else upd_db (set_chg_kernel_list (l ++ [rt])).

(** The loop body of [olsr_chg_kernel_routes]. *)
Definition chg_kernel_route (rt : positive) : OM unit :=
  let* r := get_rt rt in
  do* when (iif_index (rt_nexthop r) >? -1) (let* _ := olsr_delete_kernel_route rt in ret tt) in
  olsr_add_kernel_route rt.

(** [while (!list_is_empty(head_node))]: the body takes the first route off the list
    and does not touch the rest. *)
Definition olsr_chg_kernel_routes : OM unit :=
  let* l := gets (fun st => chg_kernel_list (db st)) in
  forM_ l (fun rt =>
    do* chg_kernel_route rt in
    upd_db (fun d => set_chg_kernel_list (tail (chg_kernel_list d)) d)).

Definition olsr_update_kernel_routes : OM unit := olsr_chg_kernel_routes.

Definition olsr_force_kernelroutes_refresh : OM unit :=
  let* rts := OLSR_FOR_ALL_RT_ENTRIES in
  do* forM_ rts olsr_enqueue_rt in
  olsr_chg_kernel_routes.

(** ** The routing information base *)

(** [avl_delete(&rt->rt_path_tree, ...); rtp->rtp_rt = NULL; if (rt->rt_best == rtp) ...] *)
Definition detach_path (rt rtp : positive) : OM unit :=
  let* x := get_rtp rtp in
  do* upd_rt rt (fun r => set_rt_path_tree (kt_delete (rt_path_tree r) rtp (rtp_originator x)) r) in
  do* upd_rtp rtp (set_rtp_rt None) in
  let* r := get_rt rt in
  when (bool_decide (rt_best r = Some rtp)) (upd_rt rt (set_rt_best None)).

Definition olsr_delete_outdated_routes (rt : positive) : OM unit :=
  let* r := get_rt rt in
  forM_ (map fst (kt_walk (rt_path_tree r))) (fun rtp =>
    let* version := gets (fun st => routingtree_version (db st)) in
    let* x := get_rtp rtp in
    when (negb (version =? rtp_version x)) (detach_path rt rtp)).

Definition free_rt (rt : positive) : OM unit :=
  let* _ := get_rt rt in upd_db (fun d => set_rts (delete rt (rts d)) d).

(** The loop body of [olsr_update_rib_routes]. *)
Definition update_rib_route (rt : positive) : OM unit :=
  do* olsr_delete_outdated_routes rt in
  let* r := get_rt rt in
  if count (rt_path_tree r) =? 0 then
    let* err := olsr_delete_kernel_route rt in
    when (err =? 0)
      (do* upd_db (fun d => set_routingtree (kt_delete (routingtree d) rt (rt_dst r)) d) in
       free_rt rt)
  else
    do* olsr_rt_best rt in
    let* r := get_rt rt in
    match rt_best r with
    | None => crash
    | Some best =>
        let* b := get_rtp best in
        when (olsr_nh_change (rtp_nexthop b) (rt_nexthop r) ||
              (fibm_correct && olsr_hopcount_change (rtp_metric b) (rt_metric r)))
          (olsr_enqueue_rt rt)
    end.

Definition olsr_update_rib_routes : OM unit :=
  let* rts := OLSR_FOR_ALL_RT_ENTRIES in
  forM_ rts update_rib_route.

Definition olsr_delete_all_kernel_routes : OM unit :=
  let* _ := olsr_bump_routingtree_version in
  do* olsr_update_rib_routes in
  olsr_update_kernel_routes.

(** One route of [olsr_delete_interface_routes]; tells whether it lost its best path.
    The route entry is taken out of the tree but not freed. *)
Definition delete_interface_route (if_index : Z) (rt : positive) : OM bool :=
  let* r := get_rt rt in
  let* mightTrigger := foldM (map fst (kt_walk (rt_path_tree r))) false (fun trigger rtp =>
    let* x := get_rtp rtp in
    if iif_index (rtp_nexthop x) =? if_index then
      let* r := get_rt rt in
      let best := bool_decide (rt_best r = Some rtp) in
      do* detach_path rt rtp in
      ret (trigger || best)
    else ret trigger) in
  let* r := get_rt rt in
  do* when (mightTrigger && (count (rt_path_tree r) =? 0))
        (upd_db (fun d => set_routingtree (kt_delete (routingtree d) rt (rt_dst r)) d)) in
  ret mightTrigger.

Definition olsr_delete_interface_routes (if_index : Z) : OM unit :=
  let* rts := OLSR_FOR_ALL_RT_ENTRIES in
  let* triggerUpdate := foldM rts false (fun trigger rt =>
    let* t := delete_interface_route if_index rt in ret (trigger || t)) in
  when triggerUpdate (do* olsr_update_rib_routes in olsr_update_kernel_routes).

(** RTF_UP, RTF_GATEWAY, RTF_HOST *)
Definition olsr_rt_flags (rt : positive) (add : bool) : OM Z :=
  let* r := get_rt rt in
  let flags := if prefix_len (rt_dst r) =? maxplen then Z.lor 1 4 else 1 in
  let* nh := if add then olsr_get_nh rt else ret (rt_nexthop r) in
  ret (if negb (ipequal ip_version (prefix (rt_dst r)) (gateway nh)) then Z.lor flags 2 else flags).

End rib.
