(* ===== verification/RibSpec.v ===== *)
(** * What process_routes.c makes of the route paths *)

From S2P Require Import Prelude Timer Avl AvlSpec IpAddr KeyTree State LsdbOps Lq RouteTable TcSet LsdbProofs VertexProofs.
From S2P Require Import NeighTable NeighProofs HelloTwoHop NeighSpec TcSpec RouteSpec Rib.

Section rib_proofs.
Context {cnf : olsrd_config} {lqh : lq_handler} {krn : kernel_routes}.

(** ** Taking a path out of its route *)

Definition detach (p : positive) (x : rt_path) (r : positive) (y : rt_entry) (d : lsdb) : lsdb :=
  set_rtps (<[p := set_rtp_rt None x]> (rtps d))
    (set_rts (<[r := clear_best p (drop_path p (rtp_originator x) y)]> (rts d)) d).

Lemma detach_wf d p x r y :
  lsdb_wf d -> rtps d !! p = Some x -> rtp_rt x = Some r -> rts d !! r = Some y -> lsdb_wf (detach p x r y d).
Proof.
  intros Hwf Hx Hr Hy. set (d' := detach p x r y d). set (x' := set_rtp_rt None x).
  set (y' := clear_best p (drop_path p (rtp_originator x) y)).
  destruct (clear_best_fields p (drop_path p (rtp_originator x) y)) as (Y1 & Y2 & Y3). fold y' in Y1, Y2, Y3.
  assert (forall q z, rtps d' !! q = Some z <-> (q = p /\ z = x') \/ (q <> p /\ rtps d !! q = Some z)) as Hp.
  { intros q z. unfold d', detach. simpl. rewrite lookup_insert_Some. naive_solver. }
  assert (forall q z, rts d' !! q = Some z <-> (q = r /\ z = y') \/ (q <> r /\ rts d !! q = Some z)) as Hq.
  { intros q z. unfold d', detach. simpl. rewrite lookup_insert_Some. naive_solver. }
  assert (forall s q a, route_path d' s q a <-> route_path d s q a /\ q <> p) as Hrp.
  { intros s q a. unfold route_path. split.
    - intros (z & [[-> ->]|[Hn Hz]]%Hp & Hs & Ha); [done|]. split; [by exists z|done].
    - intros [(z & Hz & Hs & Ha) Hn]. exists z. rewrite Hp. split; [by right|done]. }
  destruct (tree_delete (rt_path_tree y) (route_path d r) (route_path d' r) p (rtp_originator x)) as [Htree _];
    [by apply (dw_rt_paths _ Hwf)|by exists x|intros q a; apply Hrp|].
  split; try apply Hwf.
  - intros q t Hq'. eapply tree_ok_ext; [|by apply (dw_paths _ Hwf)]. intros g k. unfold path_of. split.
    + intros (z & [[-> ->]|[Hn Hz]]%Hp & Hs & Ha); [by exists x|by exists z].
    + intros (z & Hz & Hs & Ha). destruct (decide (g = p)) as [->|Hn]; [exists x'|exists z]; rewrite Hp.
      * assert (z = x) as -> by congruence. split; [by left|done].
      * split; [by right|done].
  - intros q z [[-> ->]|[Hn Hz]]%Hp; [|by apply (dw_path_tc _ Hwf q)].
    destruct (dw_path_tc _ Hwf _ _ Hx) as (tc & t & A1 & A2 & _). by exists tc, t.
  - eapply tree_ok_ext; [|apply (dw_rts _ Hwf)]. intros q k. unfold route. split.
    + intros (z & [[-> ->]|[Hn Hz]]%Hq & <-); [by exists y; rewrite Y1|by exists z].
    + intros (z & Hz & <-). destruct (decide (q = r)) as [->|Hn]; [exists y'|exists z]; rewrite Hq.
      * assert (z = y) as -> by congruence. split; [by left|by rewrite Y1].
      * split; [by right|done].
  - intros q z [[-> ->]|[Hn Hz]]%Hq; [rewrite Y2; exact Htree|]. eapply tree_ok_ext; [|by apply (dw_rt_paths _ Hwf)].
    intros g a. rewrite Hrp. split; [by intros [? _]|]. intros Hg. split; [done|]. intros ->.
    destruct Hg as (w & Hw & Hs & _). congruence.
  - intros q z s [[-> ->]|[Hn Hz]]%Hp Hs; [done|].
    destruct (dw_rt _ Hwf _ _ _ Hz Hs) as (z' & Hz' & K). destruct (decide (s = r)) as [->|Hn'].
    + exists y'. rewrite Hq. assert (z' = y) as -> by congruence. split; [by left|by rewrite Y1].
    + exists z'. rewrite Hq. split; [by right|done].
  - intros q z b [[-> ->]|[Hn Hz]]%Hq Hb.
    + rewrite Y3 in Hb. simpl in Hb. destruct (decide (rt_best y = Some p)) as [|Hne]; [done|].
      destruct (dw_best _ Hwf _ _ _ Hy Hb) as [a Ha]. exists a. apply Hrp. split; [done|congruence].
    + destruct (dw_best _ Hwf _ _ _ Hz Hb) as [a Ha]. exists a. apply Hrp. split; [done|]. intros ->.
      destruct Ha as (w & Hw & Hs & _). congruence.
  - intros b Hb. destruct (dw_inetgw _ Hwf _ Hb) as [z Hz]. destruct (decide (b = p)) as [->|Hn].
    + exists x'. apply Hp. by left.
    + exists z. apply Hp. by right.
Qed.

Lemma wp_detach_path r y p x (Q : unit -> olsr_state -> Prop) st :
  rtps (db st) !! p = Some x -> rts (db st) !! r = Some y ->
  Q tt (set_db (detach p x r y (db st)) st) -> wp (detach_path r p) Q st.
Proof.
  intros Hx Hy HQ. unfold detach_path. wp_step. eapply wp_get_rtp; [exact Hx|].
  wp_step. eapply wp_upd_rt; [exact Hy|]. wp_step. eapply wp_upd_rtp; [exact Hx|].
  wp_step. eapply wp_get_rt; [apply lookup_insert_eq|]. unfold detach in HQ.
  assert (clear_best p (drop_path p (rtp_originator x) y) = if bool_decide (rt_best y = Some p)
    then set_rt_best None (drop_path p (rtp_originator x) y) else drop_path p (rtp_originator x) y) as E.
  { unfold clear_best. simpl. destruct (decide (rt_best y = Some p)) as [Hb|Hb]; [by rewrite bool_decide_eq_true_2|by rewrite bool_decide_eq_false_2]. }
  rewrite E in HQ. clear E. simpl. apply wp_when; intros Hb; rewrite Hb in HQ.
  - eapply wp_upd_rt; [apply lookup_insert_eq|]. simpl. by rewrite insert_insert_eq.
  - exact HQ.
Qed.

(** [d'] is [d] with the paths [X] taken out of the route [r]. *)
Definition loosen (X : gset positive) (p : positive) (x : rt_path) : rt_path :=
  if decide (p ∈ X) then set_rtp_rt None x else x.

Record detached (r : positive) (X : gset positive) (d d' : lsdb) : Prop := {
  dt_wf : lsdb_wf d';
  dt_same : d' = set_rtps (rtps d') (set_rts (rts d') d);
  dt_rtps p : rtps d' !! p = loosen X p <$> rtps d !! p;
  dt_other q : q <> r -> rts d' !! q = rts d !! q;
  dt_route y : rts d !! r = Some y -> exists y', rts d' !! r = Some y' /\ rt_dst y' = rt_dst y /\
    rt_nexthop y' = rt_nexthop y /\ rt_metric y' = rt_metric y /\ rt_best y' = survives X (rt_best y);
}.

Lemma detached_none r d : lsdb_wf d -> detached r ∅ d d.
Proof.
  intros Hwf. split; [done|by destruct d| |done|].
  - intros p. destruct (rtps d !! p) as [x|]; simpl; [|done]. unfold loosen. by rewrite decide_False by set_solver.
  - intros y Hy. exists y. by rewrite survives_empty.
Qed.

Lemma survives_one p o : survives {[p]} o = if decide (o = Some p) then None else o.
Proof.
  destruct o as [b|]; simpl; [|by destruct (decide (None = Some p))].
  destruct (decide (b ∈ ({[p]} : gset positive))), (decide (Some b = Some p)); try done; set_solver.
Qed.

Lemma detached_step r X d d' p x y' :
  detached r X d d' -> rtps d' !! p = Some x -> rtp_rt x = Some r -> rts d' !! r = Some y' ->
  detached r ({[p]} ∪ X) d (detach p x r y' d').
Proof.
  intros [H1 H2 H3 H4 H5] Hx Hr Hy'. split.
  - by apply detach_wf.
  - rewrite H2. done.
  - intros q. unfold detach. simpl. destruct (decide (q = p)) as [->|Hn].
    + rewrite lookup_insert_eq. rewrite H3 in Hx. destruct (rtps d !! p) as [x0|]; [|done]. simpl in *.
      injection Hx as <-. unfold loosen in *. rewrite (decide_True (P := p ∈ {[p]} ∪ X)) by set_solver.
      by destruct (decide (p ∈ X)).
    + rewrite lookup_insert_ne by done. rewrite H3. destruct (rtps d !! q) as [x0|]; [|done]. simpl. f_equal.
      unfold loosen. destruct (decide (q ∈ X)); [rewrite decide_True by set_solver|rewrite decide_False by set_solver]; done.
  - intros q Hn. unfold detach. simpl. rewrite lookup_insert_ne by done. by apply H4.
  - intros y Hy. destruct (H5 y Hy) as (y1 & E1 & A1 & A2 & A3 & A4). assert (y1 = y') as -> by congruence.
    unfold detach. simpl. rewrite lookup_insert_eq. eexists. split; [done|].
    destruct (clear_best_fields p (drop_path p (rtp_originator x) y')) as (B1 & B2 & B3). rewrite B1, B3. simpl.
    split; [done|]. split; [unfold clear_best; by destruct (decide _)|]. split; [unfold clear_best; by destruct (decide _)|].
    by rewrite <- survives_one, A4, survives_union, (union_comm_L X).
Qed.

(** ** Outdated paths *)

Definition outdated_paths (d : lsdb) (r : positive) : gset positive :=
  dom (filter (fun kx => rtp_rt (snd kx) = Some r /\ rtp_version (snd kx) <> routingtree_version d) (rtps d)).

Lemma elem_of_outdated_paths d r p : p ∈ outdated_paths d r <->
  exists x, rtps d !! p = Some x /\ rtp_rt x = Some r /\ rtp_version x <> routingtree_version d.
Proof.
  unfold outdated_paths. rewrite elem_of_dom. unfold is_Some. setoid_rewrite map_lookup_filter_Some. simpl. done.
Qed.

Lemma route_paths d r y : lsdb_wf d -> rts d !! r = Some y ->
  NoDup (map fst (kt_walk (rt_path_tree y))) /\
  forall p, p ∈ map fst (kt_walk (rt_path_tree y)) <-> exists x, rtps d !! p = Some x /\ rtp_rt x = Some r.
Proof.
  intros Hwf Hy. pose proof (dw_rt_paths _ Hwf _ _ Hy) as Hok. split; [by eapply tree_nodup|].
  intros p. rewrite (tree_ptrs (kt_wf := awf) _ _ p Hok). unfold route_path. naive_solver.
Qed.

Lemma wp_delete_outdated_routes r y st :
  lsdb_wf (db st) -> rts (db st) !! r = Some y ->
  wp (olsr_delete_outdated_routes r) (fun _ st' => detached r (outdated_paths (db st) r) (db st) (db st') /\
    st' = set_db (db st') st) st.
Proof.
  intros Hwf Hy. destruct (route_paths _ _ _ Hwf Hy) as [Hnd Hin].
  unfold olsr_delete_outdated_routes. wp_step. eapply wp_get_rt; [exact Hy|].
  set (ps := map fst (kt_walk (rt_path_tree y))) in *.
  apply (wp_forM _ _ (fun rest st' => exists l X, ps = l ++ rest /\ st' = set_db (db st') st /\
    detached r X (db st) (db st') /\ forall p, p ∈ X <-> p ∈ l /\ p ∈ outdated_paths (db st) r)).
  - exists [], ∅. split; [done|]. split; [by destruct st|]. split; [by apply detached_none|]. set_solver.
  - intros p rest st' (l & X & El & Est & Hd & HX).
    assert (p ∉ l) as Hpl. { rewrite El in Hnd. apply NoDup_app in Hnd as (_ & H & _). intros Hp. apply (H p Hp). left. }
    destruct (proj1 (Hin p)) as (x & Hx & Hr); [rewrite El; set_solver|].
    assert (rtps (db st') !! p = Some x) as Hx'.
    { rewrite (dt_rtps _ _ _ _ Hd), Hx. simpl. unfold loosen. rewrite decide_False; [done|]. rewrite HX. naive_solver. }
    destruct (dt_route _ _ _ _ Hd y Hy) as (y' & Hy' & _).
    assert (routingtree_version (db st') = routingtree_version (db st)) as Hv by (by rewrite (dt_same _ _ _ _ Hd)).
    wp_step. wp_step. wp_step. eapply wp_get_rtp; [exact Hx'|]. rewrite Hv. apply wp_when; intros Hb.
    + apply negb_true_iff, Z.eqb_neq in Hb. eapply wp_detach_path; [exact Hx'|exact Hy'|].
      exists (l ++ [p]), ({[p]} ∪ X). rewrite <- app_assoc. split; [done|]. split; [by rewrite Est|].
      split; [by apply detached_step|]. intros q. rewrite elem_of_union, elem_of_singleton, HX, elem_of_app, list_elem_of_singleton.
      assert (p ∈ outdated_paths (db st) r) by (apply elem_of_outdated_paths; exists x; split_and!; [done|done|congruence]). naive_solver.
    + apply negb_false_iff, Z.eqb_eq in Hb. exists (l ++ [p]), X. rewrite <- app_assoc. split_and!; try done.
      intros q. rewrite HX, elem_of_app, list_elem_of_singleton.
      assert (p ∉ outdated_paths (db st) r) by (intros (x2 & ? & ? & ?)%elem_of_outdated_paths; congruence). naive_solver.
  - intros st' (l & X & El & Est & Hd & HX). rewrite app_nil_r in El. subst l.
    replace (outdated_paths (db st) r) with X; [done|]. apply set_eq. intros p. rewrite HX. split; [by intros [_ ?]|].
    intros Hp. split; [|done]. apply Hin. apply elem_of_outdated_paths in Hp as (x & ? & ? & _). by exists x.
Qed.

(** ** Removing a route *)

Lemma kernel_log_wf d l : lsdb_wf d -> lsdb_wf (set_kernel_log l d).
Proof. intros H. split; apply H. Qed.

Lemma chg_list_wf d l : lsdb_wf d -> lsdb_wf (set_chg_kernel_list l d).
Proof. intros H. split; apply H. Qed.

Lemma remove_route_wf d r y :
  lsdb_wf d -> rts d !! r = Some y -> (forall p x, rtps d !! p = Some x -> rtp_rt x <> Some r) ->
  lsdb_wf (set_rts (delete r (rts d)) (set_routingtree (kt_delete (routingtree d) r (rt_dst y)) d)).
Proof.
  intros Hwf Hy Hno. set (d' := set_rts _ _).
  destruct (tree_delete (routingtree d) (route d) (route d') r (rt_dst y)) as [Htree _]; [apply (dw_rts _ Hwf)|by exists y| |].
  { intros q k. unfold route, d'. simpl. setoid_rewrite lookup_delete_Some. naive_solver. }
  split; try apply Hwf.
  - exact Htree.
  - intros q z. unfold d'. simpl. intros [_ Hz]%lookup_delete_Some. by apply (dw_rt_paths _ Hwf).
  - intros p x q Hx Hq. destruct (dw_rt _ Hwf _ _ _ Hx Hq) as (z & Hz & K). exists z. split; [|done].
    unfold d'. simpl. rewrite lookup_delete_ne; [done|]. intros <-. by apply (Hno p x).
  - intros q z b. unfold d'. simpl. intros [_ Hz]%lookup_delete_Some. by apply (dw_best _ Hwf).
Qed.

Lemma tree_count {K} (comp : K -> K -> Z) `{!TotalComp comp} t : unique_wf comp t ->
  Z.of_nat (length (kt_walk (KeyTree := avl_key_tree comp) t)) < 4294967296 ->
  count t =? 0 = bool_decide (kt_walk (KeyTree := avl_key_tree comp) t = []).
Proof.
  intros [[gs Hwf] _] Hlen. rewrite (AvlSpec.wf_count _ _ _ Hwf). unfold kt_walk, avl_key_tree, avl_walk in *.
  rewrite !length_map in Hlen. unfold u32. rewrite Z.mod_small by lia. destruct (nodes t); [done|].
  by rewrite bool_decide_eq_false_2 by done.
Qed.

Lemma wp_delete_kernel_route r y st :
  rts (db st) !! r = Some y ->
  wp (olsr_delete_kernel_route r) (fun _ st' => exists log, st' = set_db (set_kernel_log log (db st)) st) st.
Proof.
  intros Hy. assert (st = set_db (set_kernel_log (kernel_log (db st)) (db st)) st) as Hid by (by destruct_state st).
  unfold olsr_delete_kernel_route. wp_step. eapply wp_get_rt; [exact Hy|].
  destruct (_ && _); [wp_step; by eexists|]. destruct (negb host_emul); [|wp_step; by eexists].
  unfold kernel_call. repeat wp_step. apply wp_upd_db. wp_step. destruct (negb _); wp_step; by eexists.
Qed.

(** ** What the update makes of a route *)

(** [p] is a path of the route [r] that the last shortest path run refreshed. *)
Definition current_path (d : lsdb) (r p : positive) (x : rt_path) : Prop :=
  rtps d !! p = Some x /\ rtp_rt x = Some r /\ rtp_version x = routingtree_version d.

Definition settled (d : lsdb) (r : positive) (y : rt_entry) (o : option rt_entry) : Prop :=
  match o with
  | None => forall p x, ~ current_path d r p x
  | Some y' => rt_dst y' = rt_dst y /\ rt_nexthop y' = rt_nexthop y /\ rt_metric y' = rt_metric y /\
      match rt_best y' with
      | None => forall p x, ~ current_path d r p x
      | Some b => exists x gw, current_path d r b x /\
          forall q xq, current_path d r q xq -> olsr_cmp_rtp q xq b x gw = Some false
      end
  end.

(** The best path differs from what the kernel was told. *)
Definition kernel_change (d : lsdb) (y' : rt_entry) : Prop :=
  exists b x, rt_best y' = Some b /\ rtps d !! b = Some x /\
    olsr_nh_change (rtp_nexthop x) (rt_nexthop y') || (fibm_correct && olsr_hopcount_change (rtp_metric x) (rt_metric y')) = true.

(** [d'] is [d] after the routes [l] have been updated. *)
Definition refresh (d : lsdb) (l : list positive) (x : rt_path) : rt_path :=
  match rtp_rt x with
  | Some r => if decide (r ∈ l /\ rtp_version x <> routingtree_version d) then set_rtp_rt None x else x
  | None => x
  end.

Record rib_updated (l : list positive) (d d' : lsdb) : Prop := {
  ru_wf : lsdb_wf d';
  ru_rtps p : rtps d' !! p = refresh d l <$> rtps d !! p;
  ru_other r : r ∉ l -> rts d' !! r = rts d !! r;
  ru_settled r y : r ∈ l -> rts d !! r = Some y -> settled d r y (rts d' !! r);
  ru_chg r : r ∈ chg_kernel_list d' <-> r ∈ l /\ exists y', rts d' !! r = Some y' /\ kernel_change d y';
  ru_nodup : NoDup (chg_kernel_list d');
  ru_graph : tcs d' = tcs d /\ edges d' = edges d /\ routingtree_version d' = routingtree_version d /\ tc_myself d' = tc_myself d;
}.

Lemma rib_updated_step l d d1 d' r y :
  rib_updated l d d1 -> r ∉ l -> rts d !! r = Some y -> lsdb_wf d' ->
  (forall p, rtps d' !! p = refresh d (l ++ [r]) <$> rtps d !! p) ->
  (forall q, q <> r -> rts d' !! q = rts d1 !! q) -> settled d r y (rts d' !! r) ->
  (forall q, q <> r -> q ∈ chg_kernel_list d' <-> q ∈ chg_kernel_list d1) ->
  (r ∈ chg_kernel_list d' <-> exists y', rts d' !! r = Some y' /\ kernel_change d y') ->
  NoDup (chg_kernel_list d') -> tcs d' = tcs d1 -> edges d' = edges d1 -> routingtree_version d' = routingtree_version d1 ->
  tc_myself d' = tc_myself d1 ->
  rib_updated (l ++ [r]) d d'.
Proof.
  intros [U1 U2 U3 U4 U5 U6 U7] Hrl Hy Hwf Hp Hq Hs Hc Hcr Hnd G1 G2 G3 G4. split; try done.
  - intros q [Hql Hqr]%not_elem_of_app. rewrite Hq; [by apply U3|]. intros ->. apply Hqr. left.
  - intros q z [Hql|Hqr%list_elem_of_singleton]%elem_of_app Hz.
    + rewrite Hq; [by apply U4|]. by intros ->.
    + subst q. by replace z with y by congruence.
  - intros q. rewrite elem_of_app, list_elem_of_singleton. destruct (decide (q = r)) as [->|Hn].
    + rewrite Hcr. naive_solver.
    + rewrite Hc, U5, Hq by done. naive_solver.
  - rewrite G1, G2, G3, G4. done.
Qed.

Section one_route.
Context (d d1 d2 : lsdb) (l : list positive) (r : positive) (y : rt_entry).
Hypothesis Hwf : lsdb_wf d.
Hypothesis Hup : rib_updated l d d1.
Hypothesis Hrl : r ∉ l.
Hypothesis Hy : rts d !! r = Some y.
Hypothesis Hdet : detached r (outdated_paths d1 r) d1 d2.

Lemma route_before : rts d1 !! r = Some y.
Proof. by rewrite (ru_other _ _ _ Hup). Qed.

Lemma refresh_route p x : rtps d !! p = Some x -> rtp_rt x = Some r -> rtps d1 !! p = Some x.
Proof.
  intros Hx Hr. rewrite (ru_rtps _ _ _ Hup), Hx. simpl. unfold refresh. rewrite Hr.
  rewrite decide_False by tauto. done.
Qed.

Lemma refresh_rt x s : rtp_rt (refresh d l x) = Some s -> rtp_rt x = Some s /\ refresh d l x = x.
Proof. unfold refresh. destruct (rtp_rt x) as [q|] eqn:E; [|congruence]. destruct (decide _); [done|]. by rewrite E. Qed.

Lemma outdated_here p x : rtps d !! p = Some x -> rtp_rt x = Some r ->
  p ∈ outdated_paths d1 r <-> rtp_version x <> routingtree_version d.
Proof.
  intros Hx Hr. destruct (ru_graph _ _ _ Hup) as (_ & _ & Hv & _). rewrite elem_of_outdated_paths, Hv.
  pose proof (refresh_route p x Hx Hr) as H1. naive_solver.
Qed.

Lemma refreshed_paths p : rtps d2 !! p = refresh d (l ++ [r]) <$> rtps d !! p.
Proof.
  rewrite (dt_rtps _ _ _ _ Hdet), (ru_rtps _ _ _ Hup). destruct (rtps d !! p) as [x|] eqn:Hx; [|done]. simpl. f_equal.
  destruct (rtp_rt x) as [s|] eqn:Hs.
  - destruct (decide (s = r)) as [->|Hn].
    + assert (refresh d l x = x) as ->. { unfold refresh. rewrite Hs. by rewrite decide_False by tauto. }
      unfold loosen, refresh. rewrite Hs. apply decide_ext. rewrite (outdated_here p x Hx Hs), elem_of_app, list_elem_of_singleton. tauto.
    + unfold loosen. rewrite decide_False.
      * unfold refresh. rewrite Hs. apply decide_ext. rewrite elem_of_app, list_elem_of_singleton. tauto.
      * intros (x1 & Hx1 & Hr1 & _)%elem_of_outdated_paths. rewrite (ru_rtps _ _ _ Hup), Hx in Hx1. injection Hx1 as <-.
        apply refresh_rt in Hr1 as [? _]. congruence.
  - unfold loosen. assert (forall k, refresh d k x = x) as Hrf by (intros k; unfold refresh; by rewrite Hs). rewrite !Hrf.
    case_decide as Hp; [|done]. apply elem_of_outdated_paths in Hp as (x1 & Hx1 & Hr1 & _).
    rewrite (ru_rtps _ _ _ Hup), Hx in Hx1. injection Hx1 as <-. rewrite Hrf in Hr1. congruence.
Qed.

(** What is left in the route are its current paths. *)
Lemma left_paths p x : (rtps d2 !! p = Some x /\ rtp_rt x = Some r) <-> current_path d r p x.
Proof.
  rewrite refreshed_paths. unfold current_path. destruct (rtps d !! p) as [x0|]; simpl; [|naive_solver].
  unfold refresh. destruct (rtp_rt x0) as [s|] eqn:Hs; [|split; [intros [[= <-] ?]; congruence|intros ([= <-] & ? & _); congruence]].
  case_decide as Hc.
  - split; [intros [[= <-] ?]; done|]. intros ([= <-] & Hr & Hv). tauto.
  - split; [|naive_solver]. intros [[= <-] Hr]. split_and!; try done. assert (s = r) as -> by congruence.
    destruct (decide (rtp_version x0 = routingtree_version d)); [done|]. destruct Hc. split; [set_solver|done].
Qed.

Lemma left_route : exists y2, rts d2 !! r = Some y2 /\ rt_dst y2 = rt_dst y /\ rt_nexthop y2 = rt_nexthop y /\
  rt_metric y2 = rt_metric y.
Proof. destruct (dt_route _ _ _ _ Hdet y route_before) as (y2 & ? & ? & ? & ? & _). by exists y2. Qed.

Lemma left_graph : tcs d2 = tcs d1 /\ edges d2 = edges d1 /\ routingtree_version d2 = routingtree_version d1 /\
  chg_kernel_list d2 = chg_kernel_list d1 /\ tc_myself d2 = tc_myself d1.
Proof. by rewrite (dt_same _ _ _ _ Hdet). Qed.

Lemma left_walk y2 : rts d2 !! r = Some y2 -> forall p, p ∈ map fst (kt_walk (rt_path_tree y2)) <-> exists x, current_path d r p x.
Proof.
  intros Hy2 p. rewrite (proj2 (route_paths _ _ _ (dt_wf _ _ _ _ Hdet) Hy2) p). by setoid_rewrite left_paths.
Qed.

Lemma left_count y2 : Z.of_nat (size (rtps d)) < 4294967296 -> rts d2 !! r = Some y2 ->
  count (rt_path_tree y2) =? 0 = bool_decide (kt_walk (rt_path_tree y2) = []).
Proof.
  intros Hsize Hy2. apply tree_count; [exact _|apply (to_wf (kt_wf := awf) _ _ (dw_rt_paths _ (dt_wf _ _ _ _ Hdet) _ _ Hy2))|].
  destruct (route_paths _ _ _ (dt_wf _ _ _ _ Hdet) Hy2) as [Hnd _].
  enough (Z.of_nat (length (kt_walk (rt_path_tree y2))) <= Z.of_nat (size (rtps d))) by (unfold kt_walk in *; simpl in *; lia).
  rewrite <- (length_map fst), <- size_dom. apply Nat2Z.inj_le. rewrite <- (size_list_to_set (C := gset positive) _ Hnd).
  apply subseteq_size. intros p Hp%elem_of_list_to_set. apply elem_of_dom.
  apply (left_walk _ Hy2) in Hp as (x & Hx & _). by exists x.
Qed.

End one_route.

(** ** Updating one route *)

Lemma wp_olsr_get_nh r y b x (Q : nexthop -> olsr_state -> Prop) st :
  rts (db st) !! r = Some y -> rt_best y = Some b -> rtps (db st) !! b = Some x -> Q (rtp_nexthop x) st ->
  wp (olsr_get_nh r) Q st.
Proof.
  intros Hy Hb Hx HQ. unfold olsr_get_nh. wp_step. eapply wp_get_rt; [exact Hy|]. rewrite Hb.
  wp_step. eapply wp_get_rtp; [exact Hx|]. by wp_step.
Qed.

Lemma wp_enqueue_rt r y b x st :
  rts (db st) !! r = Some y -> rt_best y = Some b -> rtps (db st) !! b = Some x -> r ∉ chg_kernel_list (db st) ->
  wp (olsr_enqueue_rt r) (fun _ st' => exists c, st' = set_db (set_chg_kernel_list c (db st)) st /\
    c ≡ₚ r :: chg_kernel_list (db st)) st.
Proof.
  intros Hy Hb Hx Hr. unfold olsr_enqueue_rt. wp_step. wp_step. rewrite bool_decide_eq_false_2 by done.
  wp_step. eapply wp_olsr_get_nh; [exact Hy|exact Hb|exact Hx|]. wp_step. eapply wp_get_rt; [exact Hy|].
  destruct (ipequal _ _ _); apply wp_upd_db; eexists; (split; [done|]); [done|].
  symmetry. apply Permutation_cons_append.
Qed.

Lemma update_empty_route l r y d st y2 :
  lsdb_wf d -> rib_updated l d (db st) -> r ∉ l -> rts d !! r = Some y ->
  forall d2, detached r (outdated_paths (db st) r) (db st) d2 -> rts d2 !! r = Some y2 ->
  (forall p x, ~ current_path d r p x) ->
  wp (let* err := olsr_delete_kernel_route r in
      when (err =? 0)
        (do* upd_db (fun d => set_routingtree (kt_delete (routingtree d) r (rt_dst y2)) d) in free_rt r))
    (fun _ st' => rib_updated (l ++ [r]) d (db st') /\ st' = set_db (db st') st) (set_db d2 st).
Proof.
  intros Hwf Hup Hrl Hy d2 Hdet Hy2 Hno.
  destruct (left_route d _ d2 l r y Hup Hrl Hy Hdet) as (y2' & Hy2' & A1 & A2 & A3). assert (y2' = y2) as -> by congruence.
  destruct (left_graph _ _ _ Hdet) as (G1 & G2 & G3 & G4 & G5).
  pose proof (refreshed_paths d _ d2 l r Hup Hrl Hdet) as Hp.
  assert (rt_best y2 = None) as Hbest.
  { destruct (rt_best y2) as [b|] eqn:Eb; [|done]. destruct (dw_best _ (dt_wf _ _ _ _ Hdet) _ _ _ Hy2 Eb) as (a & x & Hx & Hr & _).
    destruct (Hno b x). by apply (left_paths d _ d2 l r y Hwf Hup Hrl Hy Hdet). }
  wp_step. eapply wp_mono; [apply (wp_delete_kernel_route r y2); exact Hy2|]. cbn. intros err st' (log & ->). unfold when. cbn.
  assert (r ∉ chg_kernel_list (db st)) as Hrc by (rewrite (ru_chg _ _ _ Hup); tauto).
  destruct (err =? 0).
  - wp_step. apply wp_upd_db. unfold free_rt. wp_step. eapply wp_get_rt; [exact Hy2|]. apply wp_upd_db. split; [|done].
    eapply (rib_updated_step l d (db st)); try done; simpl.
    + pose proof (remove_route_wf _ _ _ (kernel_log_wf _ log (dt_wf _ _ _ _ Hdet)) Hy2) as H. apply H.
      intros p x Hx Hr. apply (Hno p x). by apply (left_paths d _ d2 l r y Hwf Hup Hrl Hy Hdet).
    + intros q Hn. rewrite lookup_delete_ne by done. by apply (dt_other _ _ _ _ Hdet).
    + by rewrite lookup_delete_eq.
    + by rewrite G4.
    + rewrite G4, lookup_delete_eq. split; [done|]. by intros (? & ? & _).
    + rewrite G4. apply (ru_nodup _ _ _ Hup).
  - wp_step. split; [|done]. eapply (rib_updated_step l d (db st)); try done; simpl.
    + apply kernel_log_wf, (dt_wf _ _ _ _ Hdet).
    + by apply (dt_other _ _ _ _ Hdet).
    + rewrite Hy2. simpl. by rewrite Hbest.
    + by rewrite G4.
    + rewrite G4, Hy2. split; [done|]. intros (? & [= <-] & b & x & Hb & _). congruence.
    + rewrite G4. apply (ru_nodup _ _ _ Hup).
Qed.

(** Costs that the NAT threshold can scale. *)
Definition costs_ok (d : lsdb) : Prop :=
  forall p x, rtps d !! p = Some x -> is_Some (nat_thresh (metric_cost (rtp_metric x))).

Lemma costs_cmp d p x gw : costs_ok d -> rtps d !! p = Some x -> is_Some (cmp_cost p x gw).
Proof. intros H Hx. unfold cmp_cost. destruct (bool_decide _); [by apply (H p)|by eexists]. Qed.

Lemma update_best_route l r y d st y2 :
  lsdb_wf d -> costs_ok d -> rib_updated l d (db st) -> r ∉ l -> rts d !! r = Some y ->
  forall d2, detached r (outdated_paths (db st) r) (db st) d2 -> rts d2 !! r = Some y2 ->
  kt_walk (rt_path_tree y2) <> [] ->
  wp (do* olsr_rt_best r in
      let* r' := get_rt r in
      match rt_best r' with
      | None => crash
      | Some best =>
          let* b := get_rtp best in
          when (olsr_nh_change (rtp_nexthop b) (rt_nexthop r') ||
                (fibm_correct && olsr_hopcount_change (rtp_metric b) (rt_metric r')))
            (olsr_enqueue_rt r)
      end)
    (fun _ st' => rib_updated (l ++ [r]) d (db st') /\ st' = set_db (db st') st) (set_db d2 st).
Proof.
  intros Hwf Hcosts Hup Hrl Hy d2 Hdet Hy2 Hne.
  destruct (left_route d _ d2 l r y Hup Hrl Hy Hdet) as (y2' & Hy2' & A1 & A2 & A3). assert (y2' = y2) as -> by congruence.
  destruct (left_graph _ _ _ Hdet) as (G1 & G2 & G3 & G4 & G5).
  pose proof (refreshed_paths d _ d2 l r Hup Hrl Hdet) as Hp.
  pose proof (left_paths d _ d2 l r y Hwf Hup Hrl Hy Hdet) as Hleft.
  assert (r ∉ chg_kernel_list (db st)) as Hrc by (rewrite (ru_chg _ _ _ Hup); tauto).
  wp_step. eapply wp_mono; [apply (wp_rt_best r y2 (set_db d2 st)); try done|].
  { apply (dt_wf _ _ _ _ Hdet). }
  { intros p x Hx Hr. destruct (proj1 (Hleft p x)) as (Hx0 & _ & _); [done|]. by apply (costs_cmp d). }
  simpl. intros _ st3 (b & xb & Hb & Hbr & Hmin & Hwf3 & ->). set (gw := if _ : bool then _ else _).
  set (y3 := set_rt_best (Some b) y2). pose proof (proj1 (Hleft b xb) (conj Hb Hbr)) as Hcur. simpl.
  wp_step. eapply wp_get_rt; [simpl; apply lookup_insert_eq|]. simpl.
  wp_step. eapply wp_get_rtp; [exact Hb|].
  assert (settled d r y (Some y3)) as Hset.
  { unfold settled. simpl. split_and!; try done. exists xb, (current_inetgw d2). split; [done|].
    intros q xq Hq. apply Hleft in Hq as [Hq1 Hq2]. by apply Hmin. }
  assert (kernel_change d y3 <-> olsr_nh_change (rtp_nexthop xb) (rt_nexthop y2) ||
    (fibm_correct && olsr_hopcount_change (rtp_metric xb) (rt_metric y2)) = true) as Hchg.
  { unfold kernel_change. simpl. destruct Hcur as (Hb0 & _ & _). split; [|intros H; by exists b, xb].
    intros (b' & x' & [= <-] & Hx' & H). by replace xb with x' by congruence. }
  apply wp_when; intros Hc.
  - eapply wp_mono; [eapply (wp_enqueue_rt r y3 b xb); [simpl; apply lookup_insert_eq|done|done|simpl; by rewrite G4]|].
    simpl. intros _ st4 (c & -> & Hperm). split; [|done]. rewrite G4 in Hperm. eapply (rib_updated_step l d (db st)); try done; simpl.
    + apply chg_list_wf. exact Hwf3.
    + intros q Hn. rewrite lookup_insert_ne by done. by apply (dt_other _ _ _ _ Hdet).
    + by rewrite lookup_insert_eq.
    + intros q Hn. rewrite Hperm, elem_of_cons. naive_solver.
    + rewrite Hperm, lookup_insert_eq. split; [|intros _; left]. intros _. exists y3. split; [done|]. by apply Hchg.
    + rewrite Hperm. apply NoDup_cons. split; [done|apply (ru_nodup _ _ _ Hup)].
  - split; [|done]. eapply (rib_updated_step l d (db st)); try done; simpl.
    + intros q Hn. rewrite lookup_insert_ne by done. by apply (dt_other _ _ _ _ Hdet).
    + by rewrite lookup_insert_eq.
    + by rewrite G4.
    + rewrite G4, lookup_insert_eq. split; [done|]. intros (? & [= <-] & H%Hchg). congruence.
    + rewrite G4. apply (ru_nodup _ _ _ Hup).
Qed.

Lemma wp_update_rib_route l r y d st :
  lsdb_wf d -> costs_ok d -> Z.of_nat (size (rtps d)) < 4294967296 ->
  rib_updated l d (db st) -> r ∉ l -> rts d !! r = Some y ->
  wp (update_rib_route r) (fun _ st' => rib_updated (l ++ [r]) d (db st') /\ st' = set_db (db st') st) st.
Proof.
  intros Hwf Hcosts Hsize Hup Hrl Hy. unfold update_rib_route.
  wp_step. eapply wp_mono; [eapply wp_delete_outdated_routes; [apply (ru_wf _ _ _ Hup)|by apply (route_before d (db st) l r y)]|].
  intros _ st2 (Hdet & Est). rewrite Est. set (d2 := db st2) in *. clearbody d2. clear Est st2. simpl.
  destruct (left_route d _ d2 l r y Hup Hrl Hy Hdet) as (y2 & Hy2 & _).
  wp_step. eapply wp_get_rt; [exact Hy2|]. rewrite (left_count d (db st) d2 l r y Hwf Hup Hrl Hy Hdet y2 Hsize Hy2).
  case_bool_decide as Hw.
  - eapply update_empty_route; try done. intros p x Hc.
    assert (p ∈ map fst (kt_walk (rt_path_tree y2))) as Hin by (apply (left_walk d (db st) d2 l r y Hwf Hup Hrl Hy Hdet y2 Hy2); by exists x).
    rewrite Hw in Hin. by apply not_elem_of_nil in Hin.
  - by eapply update_best_route.
Qed.

Lemma wp_update_rib_routes st :
  lsdb_wf (db st) -> costs_ok (db st) -> Z.of_nat (size (rtps (db st))) < 4294967296 -> chg_kernel_list (db st) = [] ->
  wp olsr_update_rib_routes (fun _ st' => rib_updated (map fst (kt_walk (routingtree (db st)))) (db st) (db st') /\
    st' = set_db (db st') st) st.
Proof.
  intros Hwf Hcosts Hsize Hchg. unfold olsr_update_rib_routes, OLSR_FOR_ALL_RT_ENTRIES. repeat wp_step.
  pose proof (dw_rts _ Hwf) as Hok. set (rl := map fst (kt_walk (routingtree (db st)))).
  pose proof (tree_nodup (kt_wf := pwf) _ _ Hok) as Hnd. fold rl in Hnd.
  assert (forall r, r ∈ rl <-> is_Some (rts (db st) !! r)) as Hin.
  { intros r. unfold rl. rewrite (tree_ptrs (kt_wf := pwf) _ _ r Hok). unfold route, is_Some. naive_solver. }
  apply (wp_forM _ _ (fun rest st' => exists l, rl = l ++ rest /\ rib_updated l (db st) (db st') /\ st' = set_db (db st') st)).
  - exists []. split; [done|]. split; [|by destruct st]. split; try done.
    + intros p. destruct (rtps (db st) !! p) as [x|]; simpl; [|done]. unfold refresh. destruct (rtp_rt x); [|done].
      by rewrite decide_False by (intros [[]%not_elem_of_nil _]).
    + intros r y ?%not_elem_of_nil. done.
    + intros r. rewrite Hchg. split; [intros ?%not_elem_of_nil; done|intros [?%not_elem_of_nil _]; done].
    + rewrite Hchg. by apply NoDup_nil_2.
  - intros r rest st' (l & El & Hup & Est).
    assert (r ∉ l) as Hrl. { rewrite El in Hnd. apply NoDup_app in Hnd as (_ & H & _). intros Hr. apply (H r Hr). left. }
    destruct (proj1 (Hin r)) as [y Hy]; [rewrite El; set_solver|].
    eapply wp_mono; [by apply (wp_update_rib_route l r y (db st))|]. intros _ st2 [H1 H2]. exists (l ++ [r]).
    rewrite <- app_assoc. split; [done|]. split; [done|]. by rewrite H2, Est.
  - intros st' (l & El & Hup & Est). rewrite app_nil_r in El. by subst l.
Qed.

(** C24: [olsr_update_rib_routes] brings the routing table up to date with the last
    shortest path run: the paths that it did not refresh leave their routes; a route
    without paths is removed, unless the kernel refuses to give it up; of the others
    the best path is one that no current path beats; and exactly the routes whose
    next hop (or hop count, if the kernel is to know it) changed are queued. *)
Theorem olsr_update_rib_routes_correct st :
  lsdb_wf (db st) -> costs_ok (db st) -> Z.of_nat (size (rtps (db st))) < 4294967296 -> chg_kernel_list (db st) = [] ->
  wp olsr_update_rib_routes (fun _ st' => let d := db st in let d' := db st' in
    st' = set_db d' st /\ lsdb_wf d' /\
    (forall p x, rtps d !! p = Some x -> exists x', rtps d' !! p = Some x' /\
      if rtp_version x =? routingtree_version d then x' = x else x' = set_rtp_rt None x) /\
    (forall r y, rts d !! r = Some y -> settled d r y (rts d' !! r)) /\
    (forall r, r ∈ chg_kernel_list d' <-> exists y', rts d' !! r = Some y' /\ kernel_change d y')) st.
Proof.
  intros Hwf Hcosts Hsize Hchg. eapply wp_mono; [by apply wp_update_rib_routes|]. cbv beta zeta.
  intros _ st' [Hup Est]. set (l := map fst (kt_walk (routingtree (db st)))) in *.
  assert (forall r y, rts (db st) !! r = Some y -> r ∈ l) as Hall.
  { intros r y Hy. apply (tree_ptrs (kt_wf := pwf) _ _ r (dw_rts _ Hwf)). exists (rt_dst y). by exists y. }
  split; [done|]. split; [apply (ru_wf _ _ _ Hup)|]. split; [|split].
  - intros p x Hx. rewrite (ru_rtps _ _ _ Hup), Hx. eexists. split; [done|]. unfold refresh.
    destruct (rtp_version x =? routingtree_version (db st)) eqn:E; bool_hyps; (destruct (rtp_rt x) as [r|] eqn:Hr; [|by destruct x; simpl in *; subst]).
    + by rewrite decide_False by tauto.
    + rewrite decide_True; [done|]. split; [|done]. destruct (dw_rt _ Hwf _ _ _ Hx Hr) as (y & Hy & _). by eapply Hall.
  - intros r y Hy. apply (ru_settled _ _ _ Hup); [by eapply Hall|done].
  - intros r. rewrite (ru_chg _ _ _ Hup). split; [by intros [_ ?]|]. intros (y' & Hy' & Hk). split; [|by exists y'].
    destruct (decide (r ∈ l)) as [|Hn]; [done|]. rewrite (ru_other _ _ _ Hup r Hn) in Hy'. by apply Hall in Hy'.
Qed.

End rib_proofs.

(** ** Witness: two paths to one network, none refreshed since, a kernel that does all *)
Section rib_witness.
#[local] Existing Instance sample_cnf.
#[local] Existing Instance sample_lq.

Definition willing_kernel : kernel_routes :=
  {| host_emul := false; fibm_correct := false; kernel_error := fun _ _ => 0 |}.
#[local] Existing Instance willing_kernel.

Lemma rs6_costs : costs_ok (db rs6).
Proof.
  intros p x Hx. apply (bool_decide_eq_true_1 (is_Some (nat_thresh (metric_cost (rtp_metric x))))).
  revert p x Hx. apply (heap_forall (fun _ x => bool_decide (is_Some (nat_thresh (metric_cost (rtp_metric x)))))).
  vm_compute. reflexivity.
Qed.

Lemma olsr_update_rib_routes_correct_witness :
  let st := run olsr_bump_routingtree_version rs6 in
  wp olsr_update_rib_routes (fun _ st' => lsdb_wf (db st') /\ is_Some (rtps (db st') !! 5%positive)) rs6 /\
  rt_best <$> rts (db (run olsr_update_rib_routes rs6)) !! 2%positive = Some (Some 5%positive) /\
  chg_kernel_list (db (run olsr_update_rib_routes rs6)) = [2%positive] /\
  rts (db (run olsr_update_rib_routes st)) !! 2%positive = None.
Proof.
  cbv zeta. split; [|vm_compute; auto].
  eapply wp_mono; [apply (olsr_update_rib_routes_correct rs6 rs6_wf rs6_costs); [vm_compute; reflexivity|vm_compute; reflexivity]|].
  cbv zeta. intros u st' (_ & H1 & H2 & _). split; [exact H1|].
  destruct rs6_path as (x5 & H5 & _). destruct (H2 _ _ H5) as (x' & H & _). rewrite H. eexists. reflexivity.
Defined.

End rib_witness.
