(* ===== verification/KernelSpec.v ===== *)
(** * The kernel's routes are known to the daemon

    [fib log] is what the calls recorded in [log] have left in the kernel, if a
    successful call does what it is asked to. *)

From S2P Require Import Prelude Timer Avl AvlSpec IpAddr KeyTree State LsdbOps Lq RouteTable TcSet LsdbProofs VertexProofs.
From S2P Require Import NeighTable NeighProofs HelloTwoHop NeighSpec TcSpec RouteSpec Rib RibSpec.

#[export] Instance prefix_eq_dec : EqDecision olsr_ip_prefix.
Proof. solve_decision. Defined.
#[export] Instance nexthop_eq_dec : EqDecision nexthop.
Proof. solve_decision. Defined.
#[export] Instance metric_eq_dec : EqDecision metric.
Proof. solve_decision. Defined.

Definition fib_key : Type := olsr_ip_prefix * nexthop * metric.

Fixpoint fib (log : list (kernel_op * Z)) : list fib_key :=
  match log with
  | [] => []
  | (op, err) :: log =>
      if err =? 0 then
        match op with
        | AddRoute dst n m => (dst, n, m) :: fib log
        | DelRoute dst n m => filter (fun k => k <> (dst, n, m)) (fib log)
        end
      else fib log
  end.

Section kernel.
Context {cnf : olsrd_config} {krn : kernel_routes}.

(** The kernel deletes a route exactly when it has it. *)
Definition kernel_deletes : Prop :=
  forall log dst n m, kernel_error log (DelRoute dst n m) = 0 <-> (dst, n, m) ∈ fib log.

Definition route_key (y : rt_entry) : fib_key := (rt_dst y, rt_nexthop y, rt_metric y).

Definition multihop_linklocal (dst : ip_addr) (m : metric) : bool := (metric_hops m >? 1) && ip_is_linklocal dst.

(** Every kernel route is the recorded one of a route entry. *)
Record recorded (d : lsdb) : Prop := {
  rc_fib k : k ∈ fib (kernel_log d) -> exists r y, rts d !! r = Some y /\ route_key y = k;
  rc_uniq r1 r2 y1 y2 : rts d !! r1 = Some y1 -> rts d !! r2 = Some y2 -> rt_dst y1 = rt_dst y2 -> r1 = r2;
  rc_ok dst n m : (dst, n, m) ∈ fib (kernel_log d) ->
    host_emul = false /\ -1 < iif_index n /\ multihop_linklocal (prefix dst) m = false;
}.

(** ** Steps that concern neither the records nor the kernel *)

Definition same_routes (d d' : lsdb) : Prop :=
  kernel_log d' = kernel_log d /\ route_key <$> rts d' = route_key <$> rts d.

Lemma same_routes_refl d : same_routes d d.
Proof. done. Qed.

Lemma route_key_lookup d d' r y' : same_routes d d' -> rts d' !! r = Some y' ->
  exists y, rts d !! r = Some y /\ route_key y' = route_key y.
Proof.
  intros [_ E] Hy. apply (f_equal (lookup r)) in E. rewrite !lookup_fmap, Hy in E.
  destruct (rts d !! r) as [y|]; [|done]. apply (inj Some) in E. by exists y.
Qed.

Lemma same_recorded d d' : same_routes d d' -> recorded d -> recorded d'.
Proof.
  intros H [R1 R2 R3]. pose proof H as [E1 E2]. assert (same_routes d' d) as H' by done. split; rewrite ?E1.
  - intros k (r & y & Hy & <-)%R1. destruct (route_key_lookup _ _ _ _ H' Hy) as (y' & Hy' & E). by exists r, y'.
  - intros r1 r2 y1 y2 Hy1 Hy2 Hd. destruct (route_key_lookup _ _ _ _ H Hy1) as (z1 & Hz1 & F1), (route_key_lookup _ _ _ _ H Hy2) as (z2 & Hz2 & F2).
    apply (R2 r1 r2 z1 z2); [done|done|]. unfold route_key in *. congruence.
  - exact R3.
Qed.

Lemma same_upd_rt d0 d r y f :
  same_routes d0 d -> rts d !! r = Some y -> route_key (f y) = route_key y -> same_routes d0 (set_rts (<[r := f y]> (rts d)) d).
Proof.
  intros [E1 E2] Hy Hk. split; [done|]. simpl. rewrite fmap_insert, Hk. rewrite insert_id; [done|]. by rewrite lookup_fmap, Hy.
Qed.

Lemma wlp_get_rt r (Q : rt_entry -> olsr_state -> Prop) st :
  (forall y, rts (db st) !! r = Some y -> Q y st) -> wlp (get_rt r) Q st.
Proof. intros H. by apply wlp_gets_opt. Qed.
Lemma wlp_get_rtp p (Q : rt_path -> olsr_state -> Prop) st :
  (forall x, rtps (db st) !! p = Some x -> Q x st) -> wlp (get_rtp p) Q st.
Proof. intros H. by apply wlp_gets_opt. Qed.
Lemma wlp_upd_db f (Q : unit -> olsr_state -> Prop) st : Q tt (set_db (f (db st)) st) -> wlp (upd_db f) Q st.
Proof. intros H. unfold upd_db. by wlp_step. Qed.
Lemma wlp_upd_rt r f (Q : unit -> olsr_state -> Prop) st :
  (forall y, rts (db st) !! r = Some y -> Q tt (set_db (set_rts (<[r := f y]> (rts (db st))) (db st)) st)) -> wlp (upd_rt r f) Q st.
Proof. intros H. unfold upd_rt. wlp_step. apply wlp_get_rt. intros y Hy. by apply wlp_upd_db, H. Qed.
Lemma wlp_upd_rtp p f (Q : unit -> olsr_state -> Prop) st :
  (forall x, Q tt (set_db (set_rtps (<[p := f x]> (rtps (db st))) (db st)) st)) -> wlp (upd_rtp p f) Q st.
Proof. intros H. unfold upd_rtp. wlp_step. apply wlp_get_rtp. intros x Hx. by apply wlp_upd_db, H. Qed.

Lemma wlp_detach_path d0 r p st : same_routes d0 (db st) -> wlp (detach_path r p) (fun _ st' => same_routes d0 (db st')) st.
Proof.
  intros Hs. unfold detach_path. wlp_step. apply wlp_get_rtp. intros x Hx. wlp_step. apply wlp_upd_rt. intros y Hy.
  wlp_step. apply wlp_upd_rtp. intros x'. wlp_step. apply wlp_get_rt. intros y' Hy'.
  assert (same_routes d0 (set_rts (<[r := set_rt_path_tree (kt_delete (rt_path_tree y) p (rtp_originator x)) y]> (rts (db st))) (db st))) as H1
    by (by apply (same_upd_rt d0 (db st) r y (fun y => set_rt_path_tree (kt_delete (rt_path_tree y) p (rtp_originator x)) y))).
  wlp_step; [|done]. apply wlp_upd_rt. intros z Hz. by apply (same_upd_rt d0 _ r z (set_rt_best None)).
Qed.

Lemma wlp_delete_outdated d0 r st : same_routes d0 (db st) -> wlp (olsr_delete_outdated_routes r) (fun _ st' => same_routes d0 (db st')) st.
Proof.
  intros Hs. unfold olsr_delete_outdated_routes. wlp_step. apply wlp_get_rt. intros y Hy.
  apply (wlp_forM _ _ (fun st' => same_routes d0 (db st'))); [done|]. clear st Hs Hy. intros p st _ Hs.
  wlp_step. wlp_step. wlp_step. apply wlp_get_rtp. intros x Hx. wlp_step; [by apply wlp_detach_path|done].
Qed.

Lemma wlp_rt_best_same d0 r st : same_routes d0 (db st) -> wlp (olsr_rt_best r) (fun _ st' => same_routes d0 (db st')) st.
Proof.
  intros Hs. unfold olsr_rt_best. wlp_step. apply wlp_get_rt. intros y Hy.
  destruct (map fst (kt_walk (rt_path_tree y))) as [|first rest]; [done|].
  wlp_step. apply wlp_upd_rt. intros y1 Hy1. wlp_step.
  eapply wlp_mono; [apply (wlp_forM _ _ (fun st' => same_routes d0 (db st')));
    [by apply (same_upd_rt d0 (db st) r y1 (set_rt_best (Some first)))|]|].
  - clear. intros p st _ Hs. wlp_step. apply wlp_get_rt. intros y Hy. destruct (rt_best y) as [best|]; [|done].
    wlp_step. apply wlp_get_rtp. intros x Hx. wlp_step. apply wlp_get_rtp. intros b Hb. wlp_step. wlp_step. wlp_step.
    apply wlp_gets_opt. intros better _. wlp_step; [|done]. apply wlp_upd_rt. intros y' Hy'. by apply (same_upd_rt d0 (db st) r y' (set_rt_best (Some p))).
  - intros u st' Hs'. wlp_step. apply wlp_get_rt. intros y2 Hy2. wlp_step; [|done]. by apply wlp_upd_db.
Qed.

Lemma wlp_enqueue_same d0 r st : same_routes d0 (db st) -> wlp (olsr_enqueue_rt r) (fun _ st' => same_routes d0 (db st')) st.
Proof.
  intros Hs. unfold olsr_enqueue_rt. wlp_step. wlp_step. destruct (bool_decide _); [done|]. unfold olsr_get_nh.
  wlp_step. wlp_step. apply wlp_get_rt. intros y Hy.
  assert (forall nh, wlp (let* r' := get_rt r in
     if ipequal ip_version (prefix (rt_dst r')) (gateway nh)
     then upd_db (set_chg_kernel_list (r :: chg_kernel_list (db st)))
     else upd_db (set_chg_kernel_list (chg_kernel_list (db st) ++ [r]))) (fun _ st' => same_routes d0 (db st')) st) as H.
  { intros nh. wlp_step. apply wlp_get_rt. intros z Hz. destruct (ipequal _ _ _); by apply wlp_upd_db. }
  destruct (rt_best y) as [b|]; [|apply H]. wlp_step. apply wlp_get_rtp. intros x Hx. apply H.
Qed.

(** ** Deleting routes *)

Lemma fib_op_other log op err k : err <> 0 -> k ∈ fib ((op, err) :: log) <-> k ∈ fib log.
Proof. intros He. simpl. by rewrite (proj2 (Z.eqb_neq err 0) He). Qed.

Lemma fib_del log dst n m k : k ∈ fib ((DelRoute dst n m, 0) :: log) <-> k ∈ fib log /\ k <> (dst, n, m).
Proof. simpl. rewrite list_elem_of_filter. tauto. Qed.

Lemma recorded_log d log : recorded d -> (forall k, k ∈ fib log -> k ∈ fib (kernel_log d)) -> recorded (set_kernel_log log d).
Proof. intros [R1 R2 R3] H. split; simpl; [intros k Hk; by apply R1, H|done|]. intros dst n m Hk. by apply R3, H. Qed.

Lemma recorded_remove d r y : recorded d -> rts d !! r = Some y -> route_key y ∉ fib (kernel_log d) ->
  forall t, recorded (set_rts (delete r (rts d)) (set_routingtree t d)).
Proof.
  intros [R1 R2 R3] Hy Hno t. split; simpl; [|intros r1 r2 y1 y2 [_ H1]%lookup_delete_Some [_ H2]%lookup_delete_Some; by apply R2|done].
  intros k Hk. pose proof (R1 k Hk) as (q & z & Hz & <-). exists q, z. split; [|done].
  rewrite lookup_delete_ne; [done|]. intros <-. by replace y with z in Hno by congruence.
Qed.

(** The key of a route is the only one the kernel can have for its destination. *)
Lemma fib_unique d r y dst n m : recorded d -> rts d !! r = Some y -> (dst, n, m) ∈ fib (kernel_log d) -> dst = rt_dst y ->
  (dst, n, m) = route_key y.
Proof.
  intros [R1 R2 R3] Hy Hk ->. pose proof (R1 _ Hk) as (q & z & Hz & E). assert (q = r) as ->.
  { apply (R2 q r z y Hz Hy). unfold route_key in E. congruence. }
  assert (z = y) as -> by congruence. done.
Qed.

(** After the attempt to delete a route, the kernel has no route to its destination. *)
Lemma wp_delete_recorded r y st :
  kernel_deletes -> recorded (db st) -> rts (db st) !! r = Some y ->
  wp (olsr_delete_kernel_route r) (fun err st' => exists log, st' = set_db (set_kernel_log log (db st)) st /\
    (forall k, k ∈ fib log -> k ∈ fib (kernel_log (db st)) /\ fst (fst k) <> rt_dst y) /\
    (forall k, k ∈ fib (kernel_log (db st)) -> fst (fst k) <> rt_dst y -> k ∈ fib log) /\
    (forall e, e ∈ kernel_log (db st) -> e ∈ log)) st.
Proof.
  intros Hker Hrec Hy. assert (st = set_db (set_kernel_log (kernel_log (db st)) (db st)) st) as Hid
    by (by destruct_state st).
  assert ((forall k, k ∈ fib (kernel_log (db st)) -> fst (fst k) <> rt_dst y) ->
    exists log, st = set_db (set_kernel_log log (db st)) st /\
    (forall k, k ∈ fib log -> k ∈ fib (kernel_log (db st)) /\ fst (fst k) <> rt_dst y) /\
    (forall k, k ∈ fib (kernel_log (db st)) -> fst (fst k) <> rt_dst y -> k ∈ fib log) /\
    (forall e, e ∈ kernel_log (db st) -> e ∈ log)) as Hnothing.
  { intros H. exists (kernel_log (db st)). split_and!; try done. intros k Hk. split; [done|by apply H]. }
  assert (forall k, k ∈ fib (kernel_log (db st)) -> fst (fst k) = rt_dst y -> k = route_key y) as Hkey.
  { intros [[dst n] m] Hk E. by apply (fib_unique (db st) r). }
  unfold olsr_delete_kernel_route. wp_step. eapply wp_get_rt; [exact Hy|].
  destruct (_ && _) eqn:Ell.
  { wp_step. apply Hnothing. intros k Hk E. pose proof (Hkey k Hk E) as ->. apply (rc_ok _ Hrec) in Hk as (_ & _ & Hk).
    unfold multihop_linklocal in Hk. congruence. }
  destruct (negb host_emul) eqn:Ehe; bool_hyps.
  2:{ wp_step. apply Hnothing. intros [[dst n] m] Hk _. apply (rc_ok _ Hrec) in Hk as (Hk & _). congruence. }
  unfold kernel_call. repeat wp_step. set (log := kernel_log (db st)) in *. set (op := DelRoute _ _ _).
  apply wp_upd_db. wp_step.
  assert (exists log', set_db (set_kernel_log ((op, kernel_error log op) :: log) (db st)) st = set_db (set_kernel_log log' (db st)) st /\
    (forall k, k ∈ fib log' -> k ∈ fib log /\ fst (fst k) <> rt_dst y) /\
    (forall k, k ∈ fib log -> fst (fst k) <> rt_dst y -> k ∈ fib log') /\ (forall e, e ∈ log -> e ∈ log')) as Hdone.
  { eexists. split; [done|]. split; [|split; [|by right]].
    - intros k Hk. destruct (decide (kernel_error log op = 0)) as [E0|E0].
      + rewrite E0 in Hk. apply fib_del in Hk as [Hk Hn]. split; [done|]. intros E. by apply Hn, Hkey.
      + rewrite fib_op_other in Hk by done. split; [done|]. intros E. pose proof (Hkey k Hk E) as ->. by apply E0, Hker.
    - intros k Hk Hn. destruct (decide (kernel_error log op = 0)) as [E0|E0].
      + rewrite E0. apply fib_del. split; [done|]. intros ->. by apply Hn.
      + by rewrite fib_op_other. }
  destruct (negb _); wp_step; exact Hdone.
Qed.

Lemma wlp_update_rib_recorded r st :
  kernel_deletes -> recorded (db st) -> wlp (update_rib_route r) (fun _ st' => recorded (db st')) st.
Proof.
  intros Hker Hrec. unfold update_rib_route. wlp_step.
  eapply wlp_mono; [apply (wlp_delete_outdated (db st)), same_routes_refl|]. intros u st1 Hs1.
  apply (same_recorded _ _ Hs1) in Hrec. clear Hs1 st. wlp_step. apply wlp_get_rt. intros y Hy.
  destruct (count (rt_path_tree y) =? 0).
  - wlp_step. pose proof (wp_delete_recorded r y st1 Hker Hrec Hy) as Hd. unfold wp in Hd. unfold wlp.
    destruct (olsr_delete_kernel_route r st1) as [[err st2]|]; [|done]. destruct Hd as (log & -> & Hl & _).
    assert (recorded (set_kernel_log log (db st1))) as Hrec2 by (apply recorded_log; [done|]; intros k Hk; by apply Hl).
    change (wlp (when (err =? 0) (do* upd_db (fun d => set_routingtree (kt_delete (routingtree d) r (rt_dst y)) d) in free_rt r))
      (fun _ st' => recorded (db st')) (set_db (set_kernel_log log (db st1)) st1)).
    wlp_step; [|done]. wlp_step. apply wlp_upd_db. unfold free_rt. wlp_step. apply wlp_get_rt. intros z _. apply wlp_upd_db.
    refine (recorded_remove _ r y Hrec2 Hy _ _). intros Hk. by apply (proj2 (Hl _ Hk)).
  - wlp_step. eapply wlp_mono; [apply (wlp_rt_best_same (db st1)), same_routes_refl|]. intros ? st2 Hs2.
    apply (same_recorded _ _ Hs2) in Hrec. wlp_step. apply wlp_get_rt. intros z Hz. destruct (rt_best z) as [b|]; [|done].
    wlp_step. apply wlp_get_rtp. intros x Hx. wlp_step; [|done].
    eapply wlp_mono; [apply (wlp_enqueue_same (db st2)), same_routes_refl|]. intros ? st3 Hs3. by apply (same_recorded _ _ Hs3).
Qed.

Lemma wlp_update_rib_all st :
  kernel_deletes -> recorded (db st) -> wlp olsr_update_rib_routes (fun _ st' => recorded (db st')) st.
Proof.
  intros Hker Hrec. unfold olsr_update_rib_routes, OLSR_FOR_ALL_RT_ENTRIES. wlp_step. wlp_step.
  apply (wlp_forM _ _ (fun st' => recorded (db st'))); [done|]. intros r st' _ H. by apply wlp_update_rib_recorded.
Qed.

(** ** Changing routes *)

Lemma linklocal_peq p q : peq p q -> ip_is_linklocal (prefix p) = ip_is_linklocal (prefix q).
Proof.
  unfold peq, comp_eq, avl_comp_prefix_default, ip_is_linklocal. destruct ip_version; [done|].
  unfold avl_comp_ipv6_prefix. destruct (memcmp (ip_bytes 16 (prefix p)) (ip_bytes 16 (prefix q)) =? 0) eqn:E; cbn [negb].
  2:{ intros H. rewrite H in E. discriminate E. }
  intros _. apply Z.eqb_eq, memcmp_eq in E; [|by unfold ip_bytes; rewrite !length_map].
  assert (forall i, (i < 16)%nat -> ip_byte (prefix p) (Z.of_nat i) = ip_byte (prefix q) (Z.of_nat i)) as H.
  { intros i Hi. apply (f_equal (fun l => l !! i)) in E. unfold ip_bytes in E.
    by rewrite !list_lookup_fmap, !lookup_seq_lt in E by done; injection E. }
  pose proof (H 0%nat) as H0. pose proof (H 1%nat) as H1. change (Z.of_nat 0) with 0 in H0. change (Z.of_nat 1) with 1 in H1. rewrite H0, H1 by lia. done.
Qed.

(** The daemon has done its part for the route [r]: the kernel has its best path, or
    refused it, or must not get it. *)
Definition told (d : lsdb) (r : positive) : Prop :=
  exists y b x, rts d !! r = Some y /\ rt_best y = Some b /\ rtps d !! b = Some x /\
    ((rt_nexthop y = rtp_nexthop x /\ rt_metric y = rtp_metric x /\ route_key y ∈ fib (kernel_log d)) \/
     multihop_linklocal (prefix (rt_dst y)) (rtp_metric x) = true \/ host_emul = true \/
     exists err, err <> 0 /\ (AddRoute (rt_dst y) (rtp_nexthop x) (rtp_metric x), err) ∈ kernel_log d).

(** The entry [y'] of [r] may record another next hop and metric; the kernel's other
    routes stay. *)
Record route_changed (r : positive) (d d' : lsdb) : Prop := {
  rh_same : d' = set_rts (rts d') (set_kernel_log (kernel_log d') d);
  rh_other q : q <> r -> rts d' !! q = rts d !! q;
  rh_route y : rts d !! r = Some y -> exists n m, rts d' !! r = Some (set_rt_nexthop n (set_rt_metric m y));
  rh_recorded : recorded d';
  rh_told : told d' r;
  rh_log e : e ∈ kernel_log d -> e ∈ kernel_log d';
  rh_fib y k : rts d !! r = Some y -> k ∈ fib (kernel_log d) -> fst (fst k) <> rt_dst y -> k ∈ fib (kernel_log d');
}.

Lemma recorded_add d r y n m log :
  recorded d -> rts d !! r = Some y -> (forall k, k ∈ fib (kernel_log d) -> fst (fst k) <> rt_dst y) ->
  log = (AddRoute (rt_dst y) n m, 0) :: kernel_log d -> host_emul = false -> -1 < iif_index n ->
  multihop_linklocal (prefix (rt_dst y)) m = false ->
  recorded (set_rts (<[r := set_rt_nexthop n (set_rt_metric m y)]> (rts d)) (set_kernel_log log d)).
Proof.
  intros [R1 R2 R3] Hy Hno -> He Hn Hm. set (y' := set_rt_nexthop n _).
  assert (forall q z, <[r := y']> (rts d) !! q = Some z -> exists z0, rts d !! q = Some z0 /\ rt_dst z = rt_dst z0) as Hl.
  { intros q z [[<- <-]|[Hq Hz]]%lookup_insert_Some; [by exists y|by exists z]. }
  split; simpl.
  - intros k [->|Hk]%elem_of_cons; [exists r, y'; by rewrite lookup_insert_eq|].
    destruct (R1 k Hk) as (q & z & Hz & E). exists q, z. split; [|done]. rewrite lookup_insert_ne; [done|].
    intros <-. apply (Hno k Hk). rewrite <- E. replace y with z by congruence. done.
  - intros r1 r2 y1 y2 (z1 & Hz1 & E1)%Hl (z2 & Hz2 & E2)%Hl E. apply (R2 r1 r2 z1 z2); congruence.
  - intros dst n' m' [[= -> -> ->]|Hk]%elem_of_cons; [done|by apply R3].
Qed.

Lemma wp_chg_route r y b x st :
  kernel_deletes -> lsdb_wf (db st) -> recorded (db st) -> rts (db st) !! r = Some y -> rt_best y = Some b ->
  rtps (db st) !! b = Some x -> -1 < iif_index (rtp_nexthop x) ->
  wp (chg_kernel_route r)
    (fun _ st' => route_changed r (db st) (db st') /\ st' = set_db (db st') st) st.
Proof.
  intros Hker Hwf Hrec Hy Hb Hx Hif. unfold chg_kernel_route. wp_step. eapply wp_get_rt; [exact Hy|]. wp_step.
  apply (wp_mono _ (fun _ st' => exists log, st' = set_db (set_kernel_log log (db st)) st /\
    (forall k, k ∈ fib log -> k ∈ fib (kernel_log (db st)) /\ fst (fst k) <> rt_dst y) /\
    (forall k, k ∈ fib (kernel_log (db st)) -> fst (fst k) <> rt_dst y -> k ∈ fib log) /\
    (forall e, e ∈ kernel_log (db st) -> e ∈ log))).
  { apply wp_when; intros Hi; bool_hyps.
    - wp_step. eapply wp_mono; [by apply (wp_delete_recorded r y)|]. cbv beta. intros err st' H. by wp_step.
    - exists (kernel_log (db st)). split; [by destruct_state st|].
      split; [|done]. intros k Hk. split; [done|]. intros E. destruct k as [[dst n] m].
      pose proof (fib_unique _ _ _ _ _ _ Hrec Hy Hk E) as Ek. unfold route_key in Ek.
      apply (rc_ok _ Hrec) in Hk as (_ & Hk & _). assert (n = rt_nexthop y) as -> by congruence. lia. }
  intros _ st' (log & -> & Hl1 & Hl2 & Hl3). set (d1 := set_kernel_log log (db st)).
  assert (recorded d1) as Hrec1 by (apply recorded_log; [done|]; intros k Hk; by apply Hl1).
  assert (ip_is_linklocal (prefix (rtp_dst x)) = ip_is_linklocal (prefix (rt_dst y))) as Hll.
  { apply linklocal_peq. destruct (dw_best _ Hwf _ _ _ Hy Hb) as (a & x' & Hx' & Hr & _).
    destruct (dw_rt _ Hwf _ _ _ Hx' Hr) as (y2 & Hy2 & K). replace y with y2 by congruence. by replace x with x' by congruence. }
  assert (multihop_linklocal (prefix (rt_dst y)) (rtp_metric x) = (metric_hops (rtp_metric x) >? 1) && ip_is_linklocal (prefix (rtp_dst x))) as Hll2
    by (unfold multihop_linklocal; by rewrite <- Hll).
  assert (y = set_rt_nexthop (rt_nexthop y) (set_rt_metric (rt_metric y) y)) as Eself by (by destruct y).
  assert (told d1 r -> route_changed r (db st) d1) as Hfin.
  { intros Ht. split; simpl; try done.
    - intros z Hz. exists (rt_nexthop y), (rt_metric y). assert (z = y) as -> by congruence. rewrite <- Eself. exact Hy.
    - intros z k Hz. assert (z = y) as -> by congruence. apply Hl2. }
  unfold olsr_add_kernel_route. wp_step. eapply wp_get_rt; [exact Hy|]. rewrite Hb. wp_step. eapply wp_get_rtp; [exact Hx|].
  rewrite <- Hll2. destruct (multihop_linklocal _ _) eqn:Em.
  { wp_step. split; [|done]. apply Hfin. exists y, b, x. split_and!; try done. right. by left. }
  destruct (negb host_emul) eqn:Ehe; bool_hyps.
  2:{ wp_step. split; [|done]. apply Hfin. exists y, b, x. split_and!; try done. right. right. by left. }
  unfold kernel_call. repeat wp_step. apply wp_upd_db. wp_step. simpl. set (op := AddRoute _ _ _). set (err := kernel_error log op).
  destruct (decide (err = 0)) as [E0|E0].
  - rewrite E0. simpl. eapply wp_upd_rt; [exact Hy|]. split; [|done]. set (d' := set_rts _ _). simpl in d'.
    split; simpl; try done.
    + intros q Hn. by rewrite lookup_insert_ne.
    + intros z Hz. rewrite lookup_insert_eq. assert (z = y) as -> by congruence. eauto.
    + pose proof (recorded_add d1 r y (rtp_nexthop x) (rtp_metric x) ((op, 0) :: log) Hrec1 Hy) as H.
      unfold d1 in H. simpl in H. apply H; try done. intros k Hk. by apply Hl1.
    + eexists _, b, x. split; [simpl; apply lookup_insert_eq|]. split_and!; try done. left. split_and!; try done. left.
    + intros e He. right. by apply Hl3.
    + intros z k Hz Hk Hn. right. apply Hl2; [done|]. by replace y with z by congruence.
  - rewrite (proj2 (Z.eqb_neq err 0) E0). simpl. wp_step. split; [|done]. split; simpl; try done.
    + intros z Hz. exists (rt_nexthop y), (rt_metric y). assert (z = y) as -> by congruence. rewrite <- Eself. exact Hy.
    + apply (recorded_log d1); [done|]. intros k Hk. by rewrite fib_op_other in Hk.
    + exists y, b, x. split_and!; try done. right. right. right. exists err. split; [done|]. left.
    + intros e He. right. by apply Hl3.
    + intros z k Hz Hk Hn. rewrite (proj2 (Z.eqb_neq err 0) E0). apply Hl2; [done|]. by replace y with z by congruence.
Qed.

(** ** The whole queue *)

(** Next hop and metric of a route entry matter to the kernel only. *)
Lemma route_data_wf d d' :
  lsdb_wf d -> d' = set_rts (rts d') (set_kernel_log (kernel_log d') d) ->
  (forall r y', rts d' !! r = Some y' -> exists y n m, rts d !! r = Some y /\ y' = set_rt_nexthop n (set_rt_metric m y)) ->
  (forall r y, rts d !! r = Some y -> exists n m, rts d' !! r = Some (set_rt_nexthop n (set_rt_metric m y))) ->
  lsdb_wf d'.
Proof.
  intros Hwf E H1 H2. rewrite E. clear E. set (R := rts d') in *. set (log := kernel_log d'). clearbody R log. clear d'.
  split; try apply Hwf.
  - eapply tree_ok_ext; [|apply (dw_rts _ Hwf)]. intros q k. unfold route. simpl. split.
    + intros (z & (y & n & m & Hy & ->)%H1 & <-). by exists y.
    + intros (z & (n & m & Hz)%H2 & <-). eexists. by split; [exact Hz|].
  - intros r z. simpl. intros (y & n & m & Hy & ->)%H1. exact (dw_rt_paths _ Hwf _ _ Hy).
  - intros p x r Hx Hr. destruct (dw_rt _ Hwf _ _ _ Hx Hr) as (y & Hy & K). apply H2 in Hy as (n & m & Hy). eexists. by split; [exact Hy|].
  - intros r z p. simpl. intros (y & n & m & Hy & ->)%H1. exact (dw_best _ Hwf _ _ _ Hy).
Qed.

Lemma changed_lookup r y d d' : route_changed r d d' -> rts d !! r = Some y ->
  (forall q z', rts d' !! q = Some z' -> exists z n m, rts d !! q = Some z /\ z' = set_rt_nexthop n (set_rt_metric m z)) /\
  (forall q z, rts d !! q = Some z -> exists n m, rts d' !! q = Some (set_rt_nexthop n (set_rt_metric m z))).
Proof.
  intros H Hy. assert (forall z, z = set_rt_nexthop (rt_nexthop z) (set_rt_metric (rt_metric z) z)) as Eself by (by intros []).
  destruct (rh_route _ _ _ H y Hy) as (n & m & E). split.
  - intros q z' Hz'. destruct (decide (q = r)) as [->|Hn].
    + exists y, n, m. split; [done|congruence].
    + rewrite (rh_other _ _ _ H) in Hz' by done. exists z', (rt_nexthop z'), (rt_metric z'). by rewrite <- Eself.
  - intros q z Hz. destruct (decide (q = r)) as [->|Hn]; [by apply (rh_route _ _ _ H)|].
    rewrite (rh_other _ _ _ H) by done. exists (rt_nexthop z), (rt_metric z). by rewrite <- Eself.
Qed.

(** What was told about a route stays true when another one changes. *)
Lemma told_other r y d d' q : route_changed r d d' -> rts d !! r = Some y -> recorded d -> q <> r -> told d q -> told d' q.
Proof.
  intros H Hy Hrec Hn (z & b & x & Hz & Hb & Hx & Ht). exists z, b, x.
  rewrite (rh_other _ _ _ H) by done. assert (rtps d' = rtps d) as -> by (by rewrite (rh_same _ _ _ H)).
  split_and!; try done. destruct Ht as [(T1 & T2 & T3)|[T|[T|(err & T1 & T2)]]].
  - left. split_and!; try done. apply (rh_fib _ _ _ H y); [done|done|]. simpl. intros E.
    apply Hn. by apply (rc_uniq _ Hrec q r z y).
  - right. by left.
  - right. right. by left.
  - right. right. right. exists err. split; [done|]. by apply (rh_log _ _ _ H).
Qed.

Definition usable_hops (d : lsdb) : Prop := forall p x, rtps d !! p = Some x -> -1 < iif_index (rtp_nexthop x).

(** Entries of the queue have a best path. *)
Definition has_best (d : lsdb) (r : positive) : Prop :=
  exists y b x, rts d !! r = Some y /\ rt_best y = Some b /\ rtps d !! b = Some x.

Lemma has_best_other r y d d' q : route_changed r d d' -> rts d !! r = Some y -> has_best d q -> has_best d' q.
Proof.
  intros H Hy (z & b & x & Hz & Hb & Hx). destruct (changed_lookup _ _ _ _ H Hy) as [_ H2].
  destruct (H2 q z Hz) as (n & m & E). eexists _, b, x. split; [exact E|]. split; [done|]. by rewrite (rh_same _ _ _ H).
Qed.

(** The routes keep all but the next hop and the metric. *)
Definition retold (d d' : lsdb) : Prop :=
  d' = set_rts (rts d') (set_kernel_log (kernel_log d') (set_chg_kernel_list (chg_kernel_list d') d)) /\
  forall q z', rts d' !! q = Some z' -> exists z n m, rts d !! q = Some z /\ z' = set_rt_nexthop n (set_rt_metric m z).

Lemma retold_refl d : retold d d.
Proof. split; [by destruct d|]. intros q z Hz. exists z, (rt_nexthop z), (rt_metric z). split; [done|by destruct z]. Qed.

Lemma retold_step d d1 d2 l :
  retold d d1 -> d2 = set_rts (rts d2) (set_kernel_log (kernel_log d2) d1) ->
  (forall q z', rts d2 !! q = Some z' -> exists z n m, rts d1 !! q = Some z /\ z' = set_rt_nexthop n (set_rt_metric m z)) ->
  retold d (set_chg_kernel_list l d2).
Proof.
  intros [E1 H1] E2 H2. split.
  - rewrite E2, E1. done.
  - simpl. intros q z2 (z1 & n & m & Hz1 & ->)%H2. destruct (H1 q z1 Hz1) as (z & n' & m' & Hz & ->). by exists z, n, m.
Qed.

Lemma wp_chg_kernel_routes st :
  kernel_deletes -> lsdb_wf (db st) -> recorded (db st) -> usable_hops (db st) ->
  NoDup (chg_kernel_list (db st)) -> (forall r, r ∈ chg_kernel_list (db st) -> has_best (db st) r) ->
  wp olsr_chg_kernel_routes (fun _ st' => lsdb_wf (db st') /\ recorded (db st') /\ chg_kernel_list (db st') = [] /\
    rtps (db st') = rtps (db st) /\ st' = set_db (db st') st /\
    (forall r, r ∈ chg_kernel_list (db st) -> told (db st') r) /\
    (forall r, r ∉ chg_kernel_list (db st) -> rts (db st') !! r = rts (db st) !! r) /\ retold (db st) (db st')) st.
Proof.
  intros Hker Hwf Hrec Hhops Hnd Hbest. unfold olsr_chg_kernel_routes. wp_step. wp_step.
  set (l := chg_kernel_list (db st)) in *.
  apply (wp_forM _ _ (fun rest st' => exists l1, l = l1 ++ rest /\ st' = set_db (db st') st /\ lsdb_wf (db st') /\
    recorded (db st') /\ chg_kernel_list (db st') = rest /\ rtps (db st') = rtps (db st) /\
    (forall r, r ∈ l -> has_best (db st') r) /\ (forall r, r ∈ l1 -> told (db st') r) /\
    (forall r, r ∉ l1 -> rts (db st') !! r = rts (db st) !! r) /\ retold (db st) (db st'))).
  - exists []. split; [done|]. split; [by destruct st|]. split_and!; try done; [|by destruct (retold_refl (db st))..].
    intros r ?%not_elem_of_nil. done.
  - clear Hwf Hrec. intros r rest st' (l1 & El & Est & Hwf & Hrec & Hc & Hp & Hb & Ht & Ho & Hre).
    assert (r ∈ l) as Hrl by (rewrite El; set_solver).
    assert (r ∉ l1) as Hrl1. { rewrite El in Hnd. apply NoDup_app in Hnd as (_ & H & _). intros Hr. apply (H r Hr). left. }
    destruct (Hb r Hrl) as (y & b & x & Hy & Hyb & Hx).
    pose proof (wp_chg_route r y b x st' Hker Hwf Hrec Hy Hyb Hx) as Hone.
    assert (-1 < iif_index (rtp_nexthop x)) as Hi by (apply (Hhops b); by rewrite <- Hp). specialize (Hone Hi).
    wp_step. eapply wp_mono; [exact Hone|]. cbv beta. intros _ st2 [Hch Est2].
    assert (chg_kernel_list (db st2) = r :: rest) as Hc2 by (by rewrite (rh_same _ _ _ Hch)).
    assert (rtps (db st2) = rtps (db st)) as Hp2 by (by rewrite (rh_same _ _ _ Hch)).
    destruct (changed_lookup _ _ _ _ Hch Hy) as [C1 C2].
    assert (lsdb_wf (db st2)) as Hwf2 by (eapply route_data_wf; [exact Hwf|apply (rh_same _ _ _ Hch)|exact C1|exact C2]).
    apply wp_upd_db. exists (l1 ++ [r]). rewrite <- app_assoc. split; [done|]. split; [by rewrite Est2, Est|].
    split; [by apply chg_list_wf|]. split; [by apply (same_recorded (db st2)), (rh_recorded _ _ _ Hch)|].
    split; [simpl; by rewrite Hc2|]. split; [done|]. split.
    { intros q Hq. destruct (has_best_other _ _ _ _ q Hch Hy (Hb q Hq)) as (z & b' & x' & H). by exists z, b', x'. }
    split; [|split].
    + intros q Hq. enough (told (db st2) q) as (z & b' & x' & H) by (by exists z, b', x').
      apply elem_of_app in Hq as [Hq|Hq%list_elem_of_singleton].
      * apply (told_other r y (db st')); try done; [|by apply Ht]. by intros ->.
      * subst q. apply (rh_told _ _ _ Hch).
    + intros q [Hq1 Hq2]%not_elem_of_app. simpl. rewrite (rh_other _ _ _ Hch); [by apply Ho|]. intros ->. apply Hq2. left.
    + eapply retold_step; [exact Hre|apply (rh_same _ _ _ Hch)|exact C1].
  - intros st' (l1 & El & Est & H1 & H2 & H3 & H4 & _ & H5 & H6). rewrite app_nil_r in El. by subst l1.
Qed.

(** The routes are chosen, then the changes go to the kernel. *)
Lemma wp_rib_kernel st :
  kernel_deletes -> lsdb_wf (db st) -> costs_ok (db st) -> usable_hops (db st) ->
  Z.of_nat (size (rtps (db st))) < 4294967296 -> chg_kernel_list (db st) = [] -> recorded (db st) ->
  wp (do* olsr_update_rib_routes in olsr_update_kernel_routes) (fun _ st' => exists d1,
    rib_updated (map fst (kt_walk (routingtree (db st)))) (db st) d1 /\ (forall r y, rts (db st) !! r = Some y ->
      r ∈ map fst (kt_walk (routingtree (db st)))) /\
    st' = set_db (db st') st /\ lsdb_wf (db st') /\ recorded (db st') /\ chg_kernel_list (db st') = [] /\ retold d1 (db st') /\
    (forall r, r ∈ chg_kernel_list d1 -> told (db st') r) /\
    (forall r, r ∉ chg_kernel_list d1 -> rts (db st') !! r = rts d1 !! r)) st.
Proof.
  intros Hker Hwf Hcosts Hhops Hsize Hchg Hrec. wp_step.
  eapply wp_mono; [apply wp_wlp; [by apply wp_update_rib_routes|by apply wlp_update_rib_all]|].
  cbv beta. intros _ st1 [[Hup Est] Hrec1]. set (l := map fst (kt_walk (routingtree (db st)))) in *.
  assert (forall r, r ∈ chg_kernel_list (db st1) -> has_best (db st1) r) as Hbest.
  { intros r (_ & y & Hy & b & x & Hb & Hx & _)%(ru_chg _ _ _ Hup).
    pose proof (ru_rtps _ _ _ Hup b) as Hx1. rewrite Hx in Hx1. by eexists _, b, _. }
  eapply wp_mono; [apply wp_chg_kernel_routes; try done|].
  - apply (ru_wf _ _ _ Hup).
  - intros p x. rewrite (ru_rtps _ _ _ Hup). intros (x0 & Hx0 & ->)%fmap_Some.
    unfold refresh. destruct (rtp_rt x0); [destruct (decide (_ ∈ _ /\ _))|]; exact (Hhops p x0 Hx0).
  - apply (ru_nodup _ _ _ Hup).
  - cbv beta. intros _ st2 (H1 & H2 & H3 & H4 & H5 & H6 & H7 & H8). exists (db st1). split; [done|].
    split; [|split; [by rewrite H5, Est|by split_and!]].
    intros r y Hy. apply (tree_ptrs (kt_wf := pwf) _ _ r (dw_rts _ Hwf)). exists (rt_dst y). by exists y.
Qed.

(** C21: after [olsr_update_rib_routes] and [olsr_update_kernel_routes], which the code
    always calls one after the other, every route of the kernel is the recorded one
    of a live route entry (nothing is left behind when routes change, disappear or
    are refused), the change queue is empty, and of every route with a best path the
    kernel has that path, or refused it, or must not get it; a route whose recorded
    next hop did not have to change is left alone. *)
Theorem olsr_update_kernel_routes_correct st :
  kernel_deletes -> lsdb_wf (db st) -> costs_ok (db st) -> usable_hops (db st) ->
  Z.of_nat (size (rtps (db st))) < 4294967296 -> chg_kernel_list (db st) = [] -> recorded (db st) ->
  wp (do* olsr_update_rib_routes in olsr_update_kernel_routes) (fun _ st' =>
    st' = set_db (db st') st /\ lsdb_wf (db st') /\ recorded (db st') /\ chg_kernel_list (db st') = [] /\
    forall r y b, rts (db st') !! r = Some y -> rt_best y = Some b ->
      told (db st') r \/ ~ kernel_change (db st) y) st.
Proof.
  intros Hker Hwf Hcosts Hhops Hsize Hchg Hrec. eapply wp_mono; [by apply wp_rib_kernel|].
  cbv beta. intros _ st2 (d1 & Hup & Hall & H1 & H2 & H3 & H4 & _ & H5 & H6). split_and!; try done.
  intros r y b Hy Hb. destruct (decide (r ∈ chg_kernel_list d1)) as [Hr|Hr]; [left; by apply H5|].
  right. intros Hk. apply Hr, (ru_chg _ _ _ Hup). rewrite H6 in Hy by done. split; [|by exists y].
  set (l := map fst (kt_walk (routingtree (db st)))) in *.
  destruct (decide (r ∈ l)) as [|Hn]; [done|]. rewrite (ru_other _ _ _ Hup r Hn) in Hy. by apply Hall in Hy.
Qed.

End kernel.

(** ** Witness: a kernel that refuses to delete what it does not have *)
Section kernel_witness.
#[local] Existing Instance sample_cnf.
#[local] Existing Instance sample_lq.

Definition strict_kernel : kernel_routes :=
  {| host_emul := false; fibm_correct := false;
     kernel_error := fun log op =>
       match op with
       | AddRoute _ _ _ => 0
       | DelRoute dst n m => if bool_decide ((dst, n, m) ∈ fib log) then 0 else 3
       end |}.
#[local] Existing Instance strict_kernel.

Lemma strict_deletes : kernel_deletes.
Proof. intros log dst n m. simpl. case_bool_decide as H; [by split|]. split; [discriminate|]. intros ?. by destruct H. Qed.

Lemma rs6_recorded : recorded (db rs6).
Proof.
  split.
  - intros k Hk. vm_compute in Hk. by apply not_elem_of_nil in Hk.
  - assert (forall r y, rts (db rs6) !! r = Some y -> r = 2%positive) as H.
    { intros r y Hy. apply (bool_decide_eq_true_1 (r = 2%positive)). revert r y Hy.
      apply (heap_forall (fun r _ => bool_decide (r = 2%positive))). vm_compute. reflexivity. }
    intros r1 r2 y1 y2 ->%H ->%H _. done.
  - intros dst n m Hk. vm_compute in Hk. by apply not_elem_of_nil in Hk.
Qed.

Lemma olsr_update_kernel_routes_correct_witness :
  let m := do* olsr_update_rib_routes in olsr_update_kernel_routes in
  wp m (fun _ st' => recorded (db st') /\ chg_kernel_list (db st') = []) rs6 /\
  length (fib (kernel_log (db (run m rs6)))) = 1%nat /\
  fib (kernel_log (db (run olsr_delete_all_kernel_routes (run m rs6)))) = [].
Proof.
  cbv zeta. split; [|vm_compute; auto].
  eapply wp_mono; [apply (olsr_update_kernel_routes_correct rs6 strict_deletes rs6_wf rs6_costs)|].
  - intros p x Hx. apply Z.ltb_lt. revert p x Hx. apply (heap_forall (fun _ x => -1 <? iif_index (rtp_nexthop x))).
    vm_compute. reflexivity.
  - vm_compute. reflexivity.
  - vm_compute. reflexivity.
  - exact rs6_recorded.
  - intros u st' (_ & _ & H1 & H2 & _). split; [exact H1|exact H2].
Defined.

End kernel_witness.
