(* ===== verification/Spf.v ===== *)
(** * olsr_spf.c: the shortest path run

    The candidate tree is an AVL tree (AVL_DUP) over the path costs of the vertices;
    [cand_tree_node.key] points to the [path_cost] of its vertex, which the code only
    changes while the vertex is not in the tree. The path list is a circular list. *)

From S2P Require Import Prelude Avl KeyTree State LsdbOps.

Definition avl_comp_etx (etx1 etx2 : Z) : Z :=
  if etx1 <? etx2 then -1 else if etx1 >? etx2 then 1 else 0.

#[export] Instance avl_comp_etx_comp : TotalComp avl_comp_etx.
Proof. split; unfold avl_comp_etx; intros; repeat case_match; bool_hyps; lia. Qed.

Section spf.
Context {cnf : olsrd_config}.

(** ** The candidate tree *)

Definition olsr_spf_add_cand_tree (tree : avl_tree Z) (tc : positive) : OM (avl_tree Z) :=
  let* t := get_tc tc in
  ret (snd (avl_insert avl_comp_etx tree (mk_node tc (path_cost t)) true)).

(** Removing a vertex that is not in the tree would follow stale links. *)
Definition olsr_spf_del_cand_tree (tree : avl_tree Z) (tc : positive) : OM (avl_tree Z) :=
  let* t := get_tc tc in
  if bool_decide (tc ∈ map an_ptr (avl_walk tree)) then ret (avl_delete tree (mk_node tc (path_cost t)))
  else crash.

Definition olsr_spf_extract_best (tree : avl_tree Z) : option positive :=
  an_ptr <$> head (avl_walk tree).

(** [list_add_before(head, node)] and the counter. *)
Definition olsr_spf_add_path_list (path_list : list positive) (path_count : Z) (tc : positive) : list positive * Z :=
  (path_list ++ [tc], s32 (path_count + 1)).

(** ** Dijkstra's algorithm *)

(** A better path to [new_tc] over [tc] was found: the body of the inner [if]. *)
Definition better_path (cand_tree : avl_tree Z) (tc new_tc : positive) (new_cost : Z) : OM (avl_tree Z) :=
  let* n := get_tc new_tc in
  let* cand_tree :=
    if path_cost n <? ROUTE_COST_BROKEN then olsr_spf_del_cand_tree cand_tree new_tc
    else ret cand_tree in
  do* upd_tc new_tc (set_path_cost new_cost) in
  let* cand_tree := olsr_spf_add_cand_tree cand_tree new_tc in
  let* t := get_tc tc in
  do* match next_hop t with
      | Some l => upd_tc new_tc (set_next_hop (Some l))
      | None => ret tt
      end in
  let* t := get_tc tc in
  do* upd_tc new_tc (set_tc_hops (u8 (tc_hops t + 1))) in
  ret cand_tree.

(** One edge of the loop of [olsr_spf_relax]. *)
Definition relax_edge (tc : positive) (cand_tree : avl_tree Z) (tc_edge : positive) : OM (avl_tree Z) :=
  let* x := get_edge tc_edge in
  match edge_inv x with
  | None => ret cand_tree
  | Some inv =>
      if edge_cost x >=? LINK_COST_BROKEN then ret cand_tree
      else
        let* t := get_tc tc in
        let new_cost := u32 (path_cost t + edge_cost x) in
        let* y := get_edge inv in
        let new_tc := edge_tc y in
        let* n := get_tc new_tc in
        if new_cost <? path_cost n then better_path cand_tree tc new_tc new_cost
        else ret cand_tree
  end.

Definition olsr_spf_relax (cand_tree : avl_tree Z) (tc : positive) : OM (avl_tree Z) :=
  let* es := OLSR_FOR_ALL_TC_EDGE_ENTRIES tc in
  foldM es cand_tree (relax_edge tc).

(** [while ((tc = olsr_spf_extract_best(cand_tree)))] *)
Fixpoint spf_run (fuel : nat) (cand_tree : avl_tree Z) (path_list : list positive) (path_count : Z)
  : OM (list positive * Z) :=
  match olsr_spf_extract_best cand_tree with
  | None => ret (path_list, path_count)
  | Some tc =>
      match fuel with
      | O => crash
      | S fuel =>
          let* cand_tree := olsr_spf_relax cand_tree tc in
          let* cand_tree := olsr_spf_del_cand_tree cand_tree tc in
          let '(path_list, path_count) := olsr_spf_add_path_list path_list path_count tc in
          spf_run fuel cand_tree path_list path_count
      end
  end.

(** Every vertex is extracted at most once, so that their number bounds the loop. *)
Definition olsr_spf_run_full (cand_tree : avl_tree Z) (path_list : list positive) : OM (list positive * Z) :=
  let* n := gets (fun st => size (tcs (db st))) in
  spf_run n cand_tree path_list 0.

End spf.
