(* ===== verification/SpfSpec.v ===== *)
(** * Dijkstra's algorithm as olsr_spf.c runs it: what it computes *)

From S2P Require Import Prelude Timer Avl AvlSpec KeyTree State NeighSpec LsdbOps Lq TcSet LsdbProofs VertexProofs TcSpec Spf.

(** ** The candidate tree as a priority queue *)

Notation queue_wf := (wf avl_comp_etx).
Definition queued (t : avl_tree Z) (p : positive) (c : Z) : Prop := mk_node p c ∈ avl_walk t.

Lemma queued_ptr t p : p ∈ map an_ptr (avl_walk t) <-> exists c, queued t p c.
Proof.
  rewrite list_elem_of_fmap. split.
  - intros ([q c] & -> & H). by exists c.
  - intros [c H]. by exists (mk_node p c).
Qed.

Lemma queued_key t p c c' : queue_wf t -> queued t p c -> queued t p c' -> c = c'.
Proof.
  intros Hwf H1 H2. pose proof (walk_nodup _ _ Hwf) as Hnd.
  assert (mk_node p c = mk_node p c') as [=]; [|done]. eapply (nodup_ptr_inj an_ptr); [exact Hnd|done|done|done].
Qed.

Lemma queue_add t p c :
  queue_wf t -> p ∉ map an_ptr (avl_walk t) ->
  let t' := snd (avl_insert avl_comp_etx t (mk_node p c) true) in
  queue_wf t' /\ forall q k, queued t' q k <-> (q = p /\ k = c) \/ queued t q k.
Proof.
  intros Hwf Hp. pose proof (avl_insert_wf avl_comp_etx t (mk_node p c) true Hwf) as H.
  destruct (avl_insert avl_comp_etx t (mk_node p c) true) as [ret t']. simpl in *.
  destruct H as [Hwf' [(_ & _ & ? & _)|(_ & (l1 & l2 & E1 & E2 & _) & _)]]; [|done|].
  - intros Hin. apply Hp. unfold ptrs, avl_walk in *. by rewrite map_map.
  - split; [done|]. intros q k. unfold queued. rewrite E1, E2, !elem_of_app, elem_of_cons. unfold mk_node.
    split; [intros [?|[[= -> ->]|?]]|intros [[-> ->]|[?|?]]]; auto.
Qed.

Lemma queue_del t p c :
  queue_wf t -> queued t p c ->
  queue_wf (avl_delete t (mk_node p c)) /\
  forall q k, queued (avl_delete t (mk_node p c)) q k <-> queued t q k /\ q <> p.
Proof.
  intros Hwf Hp. pose proof (walk_nodup _ _ Hwf) as Hnd.
  destruct (avl_delete_wf avl_comp_etx t _ Hwf Hp) as (Hwf' & l1 & l2 & E1 & E2).
  split; [done|]. intros q k. unfold queued. rewrite E1 in Hnd |- *. rewrite E2, !elem_of_app, elem_of_cons.
  rewrite map_app in Hnd. simpl in Hnd. apply NoDup_app in Hnd as (_ & H1 & [H2 _]%NoDup_cons).
  split.
  - intros H. split; [tauto|]. intros ->. destruct H as [H|H]; apply (list_elem_of_fmap_2 an_ptr) in H.
    + apply (H1 _ H). simpl. left.
    + by apply H2.
  - intros [[H|[[= -> ->]|H]] Hn]; auto. done.
Qed.

(** The first node has the least cost. *)
Lemma queue_best t :
  queue_wf t ->
  match olsr_spf_extract_best t with
  | None => forall p c, ~ queued t p c
  | Some p => exists c, queued t p c /\ forall q k, queued t q k -> c <= k
  end.
Proof.
  intros [gs Hwf]. pose proof (wf_sorted _ _ _ Hwf) as Hs. rewrite (wf_tree _ _ _ Hwf) in Hs.
  pose proof (flatten_sorted avl_comp_etx gs Hs (wf_follow _ _ _ Hwf)) as H.
  rewrite <- (walk_groups _ _ _ Hwf) in H. unfold olsr_spf_extract_best, queued.
  destruct (avl_walk t) as [|[p c] l]; simpl in *.
  - by intros p c ?%not_elem_of_nil.
  - exists c. split; [left|]. intros q k [[= -> ->]|Hq]%elem_of_cons; [lia|].
    apply StronglySorted_inv in H as [_ H]. rewrite Forall_map, Forall_forall in H.
    specialize (H _ Hq). unfold key_le, avl_comp_etx in H. simpl in H. repeat case_match; bool_hyps; lia.
Qed.

(** ** Paths of the graph *)
Section spf_proofs.
Context {cnf : olsrd_config} {lqh : lq_handler}.

(** An edge that the run follows: it has an inverse and is not broken. *)
Definition usable (d : lsdb) (p q : positive) (w : Z) : Prop :=
  exists e x f y, edges d !! e = Some x /\ edge_tc x = p /\ edge_inv x = Some f /\
    edges d !! f = Some y /\ edge_tc y = q /\ edge_cost x = w /\ w < LINK_COST_BROKEN.

(** [spf_path d r vs c q]: a way from [r] to [q] of cost [c] over the vertices [vs]
    (without [r], ending in [q]). *)
Inductive spf_path (d : lsdb) (r : positive) : list positive -> Z -> positive -> Prop :=
| spf_root : spf_path d r [] 0 r
| spf_step vs c p q w : spf_path d r vs c p -> usable d p q w -> spf_path d r (vs ++ [q]) (c + w) q.

(** The labels of the vertices; those of an unknown vertex do not matter. *)
Definition cost (d : lsdb) (p : positive) : Z := from_option path_cost ROUTE_COST_BROKEN (tcs d !! p).
Definition hop (d : lsdb) (p : positive) : option positive := tcs d !! p ≫= next_hop.
Definition hops (d : lsdb) (p : positive) : Z := from_option tc_hops 0 (tcs d !! p).
Definition reached (d : lsdb) (p : positive) : Prop := cost d p < ROUTE_COST_BROKEN.

(** Only the labels differ. *)
Definition unlabelled (t : tc_entry) : tc_entry := set_path_cost 0 (set_next_hop None (set_tc_hops 0 t)).
Definition relabelled (d0 d : lsdb) : Prop :=
  d = set_tcs (tcs d) d0 /\ unlabelled <$> tcs d = unlabelled <$> tcs d0.

(** A new label for [q]; without a hop the old one stays. *)
Definition new_label (c : Z) (h : option positive) (n : Z) (t : tc_entry) : tc_entry :=
  set_tc_hops n (set_next_hop (match h with Some l => Some l | None => next_hop t end) (set_path_cost c t)).
Definition set_label (q : positive) (c : Z) (h : option positive) (n : Z) (d : lsdb) : lsdb :=
  set_tcs (alter (new_label c h n) q (tcs d)) d.

Lemma relabelled_refl d : relabelled d d.
Proof. split; [by destruct d|done]. Qed.

Lemma relabelled_edges d0 d : relabelled d0 d -> edges d = edges d0.
Proof. intros [-> _]. done. Qed.

Lemma spf_path_edges d d' r vs c q : edges d' = edges d -> spf_path d' r vs c q <-> spf_path d r vs c q.
Proof.
  intros E. split; induction 1; try (by constructor); econstructor; try done;
    match goal with H : usable _ _ _ _ |- _ => revert H end; unfold usable; by rewrite E.
Qed.

Lemma relabelled_addr d0 d p t : relabelled d0 d -> tcs d0 !! p = Some t -> exists t', tcs d !! p = Some t' /\ tc_addr t' = tc_addr t.
Proof.
  intros [_ H] Ht. apply (f_equal (lookup p)) in H. rewrite !lookup_fmap, Ht in H. destruct (tcs d !! p) as [t'|]; [|done].
  exists t'. split; [done|]. destruct t, t'. simpl in *. injection H as. by subst.
Qed.

Lemma relabelled_tc d0 d p : relabelled d0 d -> is_Some (tcs d !! p) <-> is_Some (tcs d0 !! p).
Proof.
  intros [_ H]. apply (f_equal (lookup p)) in H. rewrite !lookup_fmap in H. 
  destruct (tcs d !! p), (tcs d0 !! p); simpl in H; try done; split; by intros [? ?].
Qed.

Lemma relabelled_lookup d0 d p t : relabelled d0 d -> tcs d !! p = Some t ->
  exists t0, tcs d0 !! p = Some t0 /\ unlabelled t = unlabelled t0.
Proof.
  intros [_ H] Ht. apply (f_equal (lookup p)) in H. rewrite !lookup_fmap, Ht in H.
  destruct (tcs d0 !! p) as [t0|]; [|done]. apply (inj Some) in H. by exists t0.
Qed.

Lemma relabelled_trans d1 d2 d3 : relabelled d1 d2 -> relabelled d2 d3 -> relabelled d1 d3.
Proof. intros [-> H1] [-> H2]. split; [done|]. by rewrite H2. Qed.

Lemma relabel_relabelled d q c h n : relabelled d (set_label q c h n d).
Proof.
  split; [by destruct d|]. unfold set_label. simpl. apply map_eq. intros p. rewrite !lookup_fmap.
  destruct (decide (p = q)) as [->|Hn]; [|by rewrite lookup_alter_ne].
  rewrite lookup_alter_eq. by destruct (tcs d !! q).
Qed.

Lemma relabelled_wf d0 d : relabelled d0 d -> lsdb_wf d0 -> lsdb_wf d.
Proof.
  intros Hr Hwf. pose proof (proj1 Hr) as Hd.
  assert (forall q t, tcs d !! q = Some t -> exists t0, tcs d0 !! q = Some t0 /\ tc_addr t = tc_addr t0 /\
    edge_tree t = edge_tree t0 /\ prefix_tree t = prefix_tree t0 /\ refcount t = refcount t0) as Hl.
  { intros q t Ht. destruct (relabelled_lookup _ _ _ _ Hr Ht) as (t0 & H0 & E). exists t0. split; [done|].
    unfold unlabelled in E. destruct t, t0. simpl in *. injection E as. by subst. }
  assert (tc_static <$> tcs d = tc_static <$> tcs d0) as Hs.
  { apply map_eq. intros p. rewrite !lookup_fmap. destruct (tcs d !! p) as [t|] eqn:E.
    - destruct (Hl _ _ E) as (t0 & -> & E1 & E2 & E3 & _). simpl. unfold tc_static. by rewrite E1, E3.
    - destruct (tcs d0 !! p) as [t0|] eqn:E0; [|done]. destruct (proj2 (relabelled_tc d0 d p Hr)) as [? ?]; [by eexists|congruence]. }
  rewrite Hd in *. clear Hd. apply (edges_change_wf d0); try done.
  - intros q t' (t0 & H0 & _ & -> & _)%Hl. by apply (dw_edges _ Hwf).
  - intros q t' (t0 & H0 & _ & A1 & A2 & A3)%Hl. unfold degree. rewrite A1, A2, A3. by apply (dw_refs _ Hwf q).
  - intros e x Hx. destruct (dw_edge_tc _ Hwf _ _ Hx) as [t0 Ht0]. apply (relabelled_tc d0); [|by eexists]. done.
  - intros e f0. rewrite (opposite_key d0 (set_tcs (tcs d) d0)) by done. apply (dw_inv _ Hwf).
Qed.

Lemma cost_relabel q c h n d p : is_Some (tcs d !! q) ->
  cost (set_label q c h n d) p = if decide (p = q) then c else cost d p.
Proof.
  intros [t Ht]. unfold cost, set_label. simpl. case_decide as Hp.
  - subst p. by rewrite lookup_alter_eq, Ht.
  - by rewrite lookup_alter_ne.
Qed.

Lemma hop_relabel q c h n d p : is_Some (tcs d !! q) ->
  hop (set_label q c h n d) p = if decide (p = q) then match h with Some l => Some l | None => hop d q end else hop d p.
Proof.
  intros [t Ht]. unfold hop, set_label. simpl. case_decide as Hp.
  - subst p. by rewrite lookup_alter_eq, Ht.
  - by rewrite lookup_alter_ne.
Qed.

Lemma hops_relabel q c h n d p : is_Some (tcs d !! q) ->
  hops (set_label q c h n d) p = if decide (p = q) then n else hops d p.
Proof.
  intros [t Ht]. unfold hops, set_label. simpl. case_decide as Hp.
  - subst p. by rewrite lookup_alter_eq, Ht.
  - by rewrite lookup_alter_ne.
Qed.

Lemma reached_some d p : reached d p -> is_Some (tcs d !! p).
Proof. unfold reached, cost. destruct (tcs d !! p); [by eexists|simpl; lia]. Qed.

(** ** The invariant of the run *)

Section run.
Context (d0 : lsdb) (r : positive).

(** The first hop of a path: what the neighbours were set up with. *)
Definition via (vs : list positive) : option positive := match vs with [] => None | f :: _ => hop d0 f end.

(** The label of [p] is that of a path. *)
Definition label_of (d : lsdb) (p : positive) : Prop :=
  exists vs, spf_path d0 r vs (cost d p) p /\ hop d p = via vs /\ hops d p = u8 (Z.of_nat (length vs)).

(** [B] bounds the costs; [F] are the finished vertices. *)
Record labels_ok (F : list positive) (d : lsdb) (B : Z) : Prop := {
  lo_frame : relabelled d0 d;
  lo_root : cost d r = 0 /\ hop d r = None /\ hops d r = 0;
  lo_label p : cost d p = ROUTE_COST_BROKEN \/ 0 <= cost d p <= B /\ label_of d p;
  lo_first : F = [] -> forall p, hop d p = hop d0 p;
}.

Record queue_ok (F : list positive) (cand : avl_tree Z) (d : lsdb) : Prop := {
  qo_wf : queue_wf cand;
  qo_elem p c : queued cand p c <-> p ∉ F /\ cost d p = c /\ c < ROUTE_COST_BROKEN;
}.

Definition relaxed (d : lsdb) (p q : positive) (w : Z) : Prop := cost d q <= cost d p + w /\ reached d q.

Record done_ok (F : list positive) (d : lsdb) : Prop := {
  do_nodup : NoDup F;
  do_sorted : StronglySorted (fun p q => cost d p <= cost d q) F;
  do_reached p : p ∈ F -> reached d p;
  do_order p q : p ∈ F -> q ∉ F -> cost d p <= cost d q;
  do_relaxed p q w : p ∈ F -> usable d0 p q w -> relaxed d p q w;
}.

(** What the theorem assumes of the graph and of the labels at the start. *)
Record spf_ready : Prop := {
  sr_wf : lsdb_wf d0;
  sr_costs e x : edges d0 !! e = Some x -> 0 <= edge_cost x;
  sr_size : Z.of_nat (size (tcs d0)) <= 1024;
  sr_root : cost d0 r = 0 /\ hop d0 r = None /\ hops d0 r = 0;
  sr_broken p : p <> r -> cost d0 p = ROUTE_COST_BROKEN;
  sr_first q w : usable d0 r q w -> is_Some (hop d0 q);
}.

Lemma usable_pos : spf_ready -> forall p q w, usable d0 p q w -> 0 <= w < LINK_COST_BROKEN.
Proof. intros H p q w (e & x & f & y & Hx & _ & _ & _ & _ & <- & Hw). split; [by eapply sr_costs|done]. Qed.

Lemma usable_some : spf_ready -> forall p q w, usable d0 p q w -> is_Some (tcs d0 !! p) /\ is_Some (tcs d0 !! q).
Proof.
  intros H p q w (e & x & f & y & Hx & <- & _ & Hy & <- & _). split; by eapply (dw_edge_tc _ (sr_wf H)).
Qed.

Lemma path_nonempty vs c p : spf_path d0 r vs c p -> p <> r -> vs <> [].
Proof. intros [|] ?; [done|]. by destruct vs0. Qed.

(** The first vertex of a path that leaves [r] is a neighbour. *)
Lemma path_first vs c p f vs' : spf_path d0 r vs c p -> vs = f :: vs' -> exists w, usable d0 r f w.
Proof.
  intros H. revert f vs'. induction H as [|vs c p q w Hp IH Hu]; intros f vs' E; [done|].
  destruct vs as [|g vs]; simpl in E.
  - injection E as <- <-. inversion Hp as [|vs1 c1 p1 q1 w1 Hp1 Hu1 E1]; subst; [by exists w|].
    by destruct vs1.
  - injection E as -> <-. by eapply IH.
Qed.

(** ** Relaxing one edge *)

Section relax.
Context (F : list positive) (cand : avl_tree Z) (d : lsdb) (p q : positive) (w B : Z).
Hypothesis Hready : spf_ready.
Hypothesis Hlab : labels_ok F d B.
Hypothesis Hq : queue_ok F cand d.
Hypothesis Hdone : done_ok F d.
Hypothesis Hp : p ∉ F.
Hypothesis Hbest : forall q, q ∉ F -> cost d p <= cost d q.
Hypothesis Hfirst : p = r <-> F = [].
Hypothesis Hreach : reached d p.
Hypothesis Huse : usable d0 p q w.
Hypothesis Hbound : cost d p + w <= B < ROUTE_COST_BROKEN.
Hypothesis Hless : cost d p + w < cost d q.

Let c := cost d p + w.
Let d' := set_label q c (hop d p) (u8 (hops d p + 1)) d.

Lemma relax_w : 0 <= w.
Proof. by apply (usable_pos Hready) in Huse as [? _]. Qed.

Lemma relax_fresh : q ∉ F /\ q <> p /\ q <> r.
Proof.
  pose proof relax_w. split; [|split].
  - intros Hin. pose proof (do_order _ _ Hdone _ _ Hin Hp). lia.
  - intros ->. lia.
  - intros ->. destruct (lo_root _ _ _ Hlab) as [E _].
    destruct (lo_label _ _ _ Hlab p) as [?|[? _]]; unfold reached in Hreach; lia.
Qed.

Lemma relax_some : is_Some (tcs d !! q).
Proof. apply (relabelled_tc _ _ _ (lo_frame _ _ _ Hlab)). by apply (usable_some Hready) in Huse as [_ ?]. Qed.

Lemma relax_cost p' : cost d' p' = if decide (p' = q) then c else cost d p'.
Proof. apply cost_relabel, relax_some. Qed.

Lemma relax_cost_ne p' : p' <> q -> cost d' p' = cost d p'.
Proof. intros Hn. rewrite relax_cost. by rewrite decide_False. Qed.

Lemma relax_le p' : cost d' p' <= cost d p'.
Proof. rewrite relax_cost. case_decide as E; [subst p'; unfold c; lia|lia]. Qed.

(** The label of [p] extended by [q]. *)
Lemma relax_label : label_of d' q.
Proof.
  assert (label_of d p) as (vs & Hpath & Hhop & Hhops).
  { destruct (lo_label _ _ _ Hlab p) as [E|[_ H]]; [unfold reached in Hreach; lia|done]. }
  unfold label_of. pose proof relax_some as Hs. rewrite relax_cost, decide_True by done.
  unfold d'. rewrite hop_relabel, hops_relabel, !decide_True by done.
  destruct (decide (p = r)) as [Er|Er].
  - exists [q]. destruct (lo_root _ _ _ Hlab) as (R1 & R2 & R3). subst p. rewrite R2, R3. split.
    + unfold c. rewrite R1. apply (spf_step _ _ [] 0 r); [constructor|done].
    + split; [|done]. simpl. apply (lo_first _ _ _ Hlab). by apply Hfirst.
  - exists (vs ++ [q]). split; [by apply (spf_step _ _ _ _ p)|].
    destruct vs as [|f vs]; [by destruct (path_nonempty _ _ _ Hpath Er)|].
    destruct (path_first _ _ _ _ _ Hpath eq_refl) as [w' Hw']. simpl in *. split.
    + destruct (sr_first Hready _ _ Hw') as [l Hl]. by rewrite Hhop, Hl.
    + rewrite Hhops. unfold u8. rewrite Zplus_mod_idemp_l. f_equal. rewrite length_app. simpl. lia.
Qed.

Lemma relax_labels : labels_ok F d' B.
Proof.
  destruct relax_fresh as (_ & Hqp & Hqr). pose proof relax_some as Hs. pose proof relax_w. split.
  - eapply relabelled_trans; [apply (lo_frame _ _ _ Hlab)|]. apply relabel_relabelled.
  - unfold d'. rewrite cost_relabel, hop_relabel, hops_relabel, !decide_False by done. apply (lo_root _ _ _ Hlab).
  - intros p'. destruct (decide (p' = q)) as [->|Hn].
    + right. split; [|apply relax_label]. rewrite relax_cost, decide_True by done.
      destruct (lo_label _ _ _ Hlab p) as [?|[? _]]; unfold reached in Hreach; unfold c; lia.
    + unfold label_of, d'. rewrite cost_relabel, hop_relabel, hops_relabel, !decide_False by done.
      apply (lo_label _ _ _ Hlab p').
  - intros E p'. pose proof (lo_first _ _ _ Hlab E) as H1. unfold d'. rewrite hop_relabel by done.
    assert (hop d p = None) as ->. { rewrite (proj2 Hfirst E). apply (lo_root _ _ _ Hlab). }
    case_decide; [subst p'|]; apply H1.
Qed.

Lemma relax_done : done_ok F d'.
Proof.
  destruct relax_fresh as (Hqf & _ & _). pose proof relax_w.
  assert (forall p', p' ∈ F -> cost d' p' = cost d p') as Hsame.
  { intros p' Hin. apply relax_cost_ne. by intros ->. }
  split.
  - apply (do_nodup _ _ Hdone).
  - pose proof (do_sorted _ _ Hdone) as Hs. clear -Hs Hsame. induction Hs as [|a l Hs IH Ha]; constructor.
    + apply IH. intros. apply Hsame. by right.
    + rewrite Forall_forall in Ha |- *. intros b Hb. rewrite (Hsame a) by left. rewrite (Hsame b) by (by right). by apply Ha.
  - intros p' Hin. unfold reached. rewrite Hsame by done. by apply (do_reached _ _ Hdone).
  - intros p' q' Hin Hout. rewrite (Hsame p') by done. rewrite relax_cost. case_decide.
    + pose proof (do_order _ _ Hdone _ _ Hin Hp). unfold c. lia.
    + by apply (do_order _ _ Hdone).
  - intros p' q' w' Hin Hu. destruct (do_relaxed _ _ Hdone _ _ _ Hin Hu) as [H1 H2].
    unfold relaxed, reached in *. rewrite (Hsame p') by done. pose proof (relax_le q'). lia.
Qed.

Lemma relax_queue :
  let cand0 := if cost d q <? ROUTE_COST_BROKEN then avl_delete cand (mk_node q (cost d q)) else cand in
  (cost d q < ROUTE_COST_BROKEN -> q ∈ map an_ptr (avl_walk cand)) /\
  queue_ok F (snd (avl_insert avl_comp_etx cand0 (mk_node q c) true)) d'.
Proof.
  destruct relax_fresh as (Hqf & _ & _). intros cand0. pose proof (qo_elem _ _ _ Hq) as He. split.
  { intros Hlt. apply queued_ptr. exists (cost d q). by apply He. }
  assert (queue_wf cand0 /\ forall p' k, queued cand0 p' k <-> p' <> q /\ queued cand p' k) as [Hwf0 H0].
  { unfold cand0. destruct (cost d q <? ROUTE_COST_BROKEN) eqn:E; bool_hyps.
    - destruct (queue_del cand q (cost d q)) as [H1 H2]; [apply (qo_wf _ _ _ Hq)|by apply He|].
      split; [done|]. intros p' k. rewrite H2. tauto.
    - split; [apply (qo_wf _ _ _ Hq)|]. intros p' k. split; [|tauto]. intros H. split; [|done].
      intros ->. apply He in H. lia. }
  destruct (queue_add cand0 q c) as [Hwf1 H1]; [done| |].
  { intros [k Hk]%queued_ptr. apply H0 in Hk as [[] _]. done. }
  split; [done|]. intros p' k. rewrite H1, H0, He, relax_cost. case_decide as E.
  - subst p'. split; [intros [[_ ->]|[[] _]]; [split_and!; [done|done|unfold c; lia]|done]|]. intros (_ & <- & _). by left.
  - split; [intros [[? _]|[_ ?]]; done|]. by right.
Qed.


(** The writes of the code. *)
Lemma relabel_insert u h n k : tcs d !! q = Some u ->
  set_label q k h n d = set_tcs (<[q := new_label k h n u]> (tcs d)) d.
Proof.
  intros Hu. unfold set_label. f_equal. apply map_eq. intros i. destruct (decide (i = q)) as [->|Hn].
  - by rewrite lookup_alter_eq, Hu, lookup_insert_eq.
  - by rewrite lookup_alter_ne, lookup_insert_ne.
Qed.

End relax.

(** A vertex [p] is being explored: it is the best candidate. *)
Record exploring (F : list positive) (p : positive) (cand : avl_tree Z) (d : lsdb) (B : Z) : Prop := {
  ex_labels : labels_ok F d B;
  ex_queue : queue_ok F cand d;
  ex_done : done_ok F d;
  ex_fresh : p ∉ F;
  ex_best q : q ∉ F -> cost d p <= cost d q;
  ex_first : p = r <-> F = [];
  ex_reached : reached d p;
  ex_bound : cost d p + (LINK_COST_BROKEN - 1) <= B < ROUTE_COST_BROKEN;
}.

(** The edge [e] has been relaxed. *)
Definition edge_relaxed (d : lsdb) (p e : positive) : Prop :=
  forall x f y, edges d0 !! e = Some x -> edge_inv x = Some f -> edges d0 !! f = Some y ->
    edge_cost x < LINK_COST_BROKEN -> relaxed d p (edge_tc y) (edge_cost x).

Lemma edge_relaxed_le d d' p e : cost d' p = cost d p -> (forall q, cost d' q <= cost d q) ->
  edge_relaxed d p e -> edge_relaxed d' p e.
Proof.
  intros Hp Hle H x f y H1 H2 H3 H4. destruct (H x f y H1 H2 H3 H4) as [A1 A2].
  unfold relaxed, reached in *. pose proof (Hle (edge_tc y)). lia.
Qed.

Lemma wp_better_path cand p q k t u st (Q : avl_tree Z -> olsr_state -> Prop) :
  tcs (db st) !! p = Some t -> tcs (db st) !! q = Some u -> p <> q ->
  (path_cost u < ROUTE_COST_BROKEN -> q ∈ map an_ptr (avl_walk cand)) ->
  let cand0 := if path_cost u <? ROUTE_COST_BROKEN then avl_delete cand (mk_node q (path_cost u)) else cand in
  Q (snd (avl_insert avl_comp_etx cand0 (mk_node q k) true))
    (set_db (set_label q k (next_hop t) (u8 (tc_hops t + 1)) (db st)) st) ->
  wp (better_path cand p q k) Q st.
Proof.
  intros Ht Hu Hpq Hin cand0 HQ. unfold better_path. wp_step. eapply wp_get_tc; [exact Hu|].
  wp_step. apply wp_mono with (fun c st' => c = cand0 /\ st' = st).
  { unfold cand0. destruct (path_cost u <? ROUTE_COST_BROKEN) eqn:E; bool_hyps; [|by wp_step].
    unfold olsr_spf_del_cand_tree. wp_step. eapply wp_get_tc; [exact Hu|].
    rewrite bool_decide_eq_true_2 by auto. by wp_step. }
  intros c st' [-> ->]. wp_step. eapply wp_upd_tc; [exact Hu|]. unfold olsr_spf_add_cand_tree.
  assert (forall v, <[q := v]> (tcs (db st)) !! p = Some t) as Hp by (intros v; by rewrite lookup_insert_ne).
  do 2 wp_step. eapply wp_get_tc; [apply lookup_insert_eq|]. wp_step. wp_step.
  eapply wp_get_tc; [apply Hp|]. rewrite (relabel_insert (db st) q u) in HQ by done.
  wp_step. destruct (next_hop t) as [l|] eqn:Hl.
  - eapply wp_upd_tc; [apply lookup_insert_eq|]. wp_step. cbn [db set_db set_tcs tcs].
    eapply wp_get_tc; [cbn; rewrite insert_insert_eq; apply Hp|]. wp_step.
    eapply wp_upd_tc; [apply lookup_insert_eq|]. wp_step. cbn. rewrite !insert_insert_eq. exact HQ.
  - wp_step. wp_step. eapply wp_get_tc; [apply Hp|]. wp_step.
    eapply wp_upd_tc; [apply lookup_insert_eq|]. wp_step. cbn. rewrite !insert_insert_eq.
    replace (set_tc_hops _ _) with (new_label k None (u8 (tc_hops t + 1)) u) by (by destruct u). exact HQ.
Qed.

Lemma wp_relax_edge F p cand e x B st :
  spf_ready -> exploring F p cand (db st) B -> edges d0 !! e = Some x -> edge_tc x = p ->
  wp (relax_edge p cand e) (fun cand' st' => exists d', st' = set_db d' st /\ exploring F p cand' d' B /\
    cost d' p = cost (db st) p /\ (forall q, cost d' q <= cost (db st) q) /\ edge_relaxed d' p e) st.
Proof.
  intros Hready Hex He Htc. pose proof Hex as [Hlab Hq Hdone Hp Hbest Hfirst Hreach Hbound].
  pose proof (relabelled_edges _ _ (lo_frame _ _ _ Hlab)) as Hedges.
  assert (set_db (db st) st = st) as Hid by (by destruct st).
  assert ((forall f y, edge_inv x = Some f -> edges d0 !! f = Some y -> edge_cost x < LINK_COST_BROKEN ->
    relaxed (db st) p (edge_tc y) (edge_cost x)) ->
    exists d', st = set_db d' st /\ exploring F p cand d' B /\ cost d' p = cost (db st) p /\
      (forall q, cost d' q <= cost (db st) q) /\ edge_relaxed d' p e) as Hsame.
  { intros H. exists (db st). split; [done|]. split; [done|]. split; [done|]. split; [lia|].
    intros x' f y Hx'. replace x' with x by congruence. apply H. }
  unfold relax_edge. wp_step. eapply wp_get_edge; [by rewrite Hedges|].
  destruct (edge_inv x) as [f|] eqn:Hf; [|wp_step; apply Hsame; intros ? ? [=]].
  destruct (edge_cost x >=? LINK_COST_BROKEN) eqn:Hbr; bool_hyps; [wp_step; apply Hsame; intros; lia|].
  destruct (reached_some _ _ Hreach) as [t Ht].
  assert (exists y, edges d0 !! f = Some y) as [y Hy].
  { destruct (proj1 (dw_inv _ (sr_wf Hready) e f)) as (x1 & y & _ & _ & _ & Hy & _); [by exists x|by exists y]. }
  assert (usable d0 p (edge_tc y) (edge_cost x)) as Hu by (by exists e, x, f, y).
  pose proof (usable_pos Hready _ _ _ Hu) as Hw.
  destruct (relax_some F (db st) p (edge_tc y) (edge_cost x) B Hready Hlab Hu) as [u Hut].
  assert (cost (db st) p = path_cost t) as Hct by (unfold cost; by rewrite Ht).
  assert (cost (db st) (edge_tc y) = path_cost u) as Hcu by (unfold cost; by rewrite Hut).
  assert (0 <= path_cost t) as Hpos.
  { rewrite <- Hct. destruct (lo_label _ _ _ Hlab p) as [->|[? _]]; unfold ROUTE_COST_BROKEN; lia. }
  wp_step. eapply wp_get_tc; [exact Ht|]. wp_step. eapply wp_get_edge; [by rewrite Hedges|].
  wp_step. eapply wp_get_tc; [exact Hut|].
  assert (u32 (path_cost t + edge_cost x) = path_cost t + edge_cost x) as ->.
  { unfold u32. apply Z.mod_small. unfold ROUTE_COST_BROKEN in *. lia. }
  destruct (path_cost t + edge_cost x <? path_cost u) eqn:Hless; bool_hyps.
  2:{ wp_step. apply Hsame. intros f' y' [= <-] Hy' _. replace y' with y by congruence.
      unfold relaxed, reached. unfold LINK_COST_BROKEN in *. lia. }
  assert (cost (db st) p + edge_cost x <= B < ROUTE_COST_BROKEN) as Hb by lia.
  assert (cost (db st) p + edge_cost x < cost (db st) (edge_tc y)) as Hl by lia.
  destruct (relax_fresh F (db st) p (edge_tc y) (edge_cost x) B) as (Hqf & Hqp & _); try done.
  destruct (relax_queue F cand (db st) p (edge_tc y) (edge_cost x) B) as [Hin Hqueue]; try done.
  eapply wp_better_path; [exact Ht|exact Hut|done|by rewrite Hcu in Hin|].
  assert (hop (db st) p = next_hop t /\ hops (db st) p = tc_hops t) as [Hh Hhs] by (unfold hop, hops; by rewrite Ht).
  rewrite Hcu in Hqueue. rewrite <- Hct, <- Hh, <- Hhs. set (d' := set_label _ _ _ _ _) in *.
  assert (forall p', cost d' p' = if decide (p' = edge_tc y) then cost (db st) p + edge_cost x else cost (db st) p') as Hc
    by (intros p'; apply cost_relabel; by eexists).
  exists d'. split; [done|]. split; [split; try done|].
  - by apply relax_labels.
  - by apply (relax_done F _ p _ _ B).
  - intros q Hqn. rewrite (Hc p), decide_False by done. rewrite Hc. case_decide; [lia|by apply Hbest].
  - unfold reached. rewrite Hc, decide_False by done. done.
  - rewrite Hc, decide_False by done. done.
  - rewrite Hc, decide_False by done. split; [done|]. split.
    + intros q. rewrite Hc. case_decide; [subst q|]; lia.
    + intros x' f' y' Hx' Hf' Hy' _. replace x' with x in * by congruence. replace y' with y by congruence.
      unfold relaxed, reached. rewrite !Hc, decide_True, decide_False by done. lia.
Qed.
Lemma wp_spf_relax F p cand B st :
  spf_ready -> exploring F p cand (db st) B ->
  wp (olsr_spf_relax cand p) (fun cand' st' => exists d', st' = set_db d' st /\ exploring F p cand' d' B /\
    cost d' p = cost (db st) p /\ forall q w, usable d0 p q w -> relaxed d' p q w) st.
Proof.
  intros Hready Hex. pose proof (lo_frame _ _ _ (ex_labels _ _ _ _ _ Hex)) as Hfr.
  pose proof (relabelled_wf _ _ Hfr (sr_wf Hready)) as Hwf.
  destruct (reached_some _ _ (ex_reached _ _ _ _ _ Hex)) as [t Ht].
  destruct (edge_list _ _ _ Hwf Ht) as [_ Hin]. set (es := map fst (kt_walk (edge_tree t))) in *.
  unfold olsr_spf_relax. wp_step. unfold OLSR_FOR_ALL_TC_EDGE_ENTRIES. wp_step.
  eapply wp_get_tc; [exact Ht|]. wp_step.
  apply (wp_foldM _ _ _ (fun rest cand' st' => exists d' l, es = l ++ rest /\ st' = set_db d' st /\
    exploring F p cand' d' B /\ cost d' p = cost (db st) p /\ forall e, e ∈ l -> edge_relaxed d' p e)).
  - exists (db st), []. split; [done|]. split; [by destruct st|]. split; [done|]. split; [done|].
    by intros e ?%not_elem_of_nil.
  - intros e rest cand' st' (d' & l & El & -> & Hex' & Hc & Hrel).
    assert (exists x, edges d0 !! e = Some x /\ edge_tc x = p) as (x & He & Htc).
    { rewrite <- (relabelled_edges _ _ Hfr). apply Hin. rewrite El. set_solver. }
    eapply wp_mono; [by apply (wp_relax_edge F p cand' e x B)|]. cbn.
    intros cand2 st2 (d2 & -> & Hex2 & Hc2 & Hle & Hr). exists d2, (l ++ [e]). rewrite <- app_assoc.
    split; [done|]. split; [done|]. split; [done|]. split; [by rewrite Hc2|].
    intros e' [He'|He'%list_elem_of_singleton]%elem_of_app; [|by subst e'].
    apply (edge_relaxed_le d'); [done|done|]. by apply Hrel.
  - intros cand' st' (d' & l & El & -> & Hex' & Hc & Hrel). exists d'. split; [done|]. split; [done|].
    split; [done|]. intros q w (e & x & f & y & He & Htc & Hf & Hy & <- & <- & Hw).
    rewrite app_nil_r in El. apply (Hrel e) with f; try done. rewrite <- El. apply Hin.
    exists x. by rewrite (relabelled_edges _ _ Hfr).
Qed.

(** ** The run *)

Notation max_cost := (LINK_COST_BROKEN - 1).

Record loop_ok (F : list positive) (cand : avl_tree Z) (d : lsdb) : Prop := {
  lp_labels : labels_ok F d (Z.of_nat (length F) * max_cost);
  lp_queue : queue_ok F cand d;
  lp_done : done_ok F d;
  lp_start : F = [] -> forall q, reached d q -> q = r;
  lp_root : F <> [] -> r ∈ F;
}.

(** What the run computes. *)
Record spf_result (F : list positive) (d : lsdb) : Prop := {
  sp_frame : relabelled d0 d;
  sp_list p : p ∈ F <-> exists vs c, spf_path d0 r vs c p;
  sp_nodup : NoDup F;
  sp_sorted : StronglySorted (fun p q => cost d p <= cost d q) F;
  sp_label p : p ∈ F -> cost d p < ROUTE_COST_BROKEN /\ label_of d p;
  sp_unreached p : p ∉ F -> cost d p = ROUTE_COST_BROKEN;
  sp_best p vs c : spf_path d0 r vs c p -> cost d p <= c;
  sp_root : cost d r = 0 /\ hop d r = None /\ hops d r = 0;
  sp_bound p : p ∈ F -> 0 <= cost d p <= 1024 * max_cost;
}.

Lemma done_size F d : spf_ready -> relabelled d0 d -> done_ok F d -> Z.of_nat (length F) <= Z.of_nat (size (tcs d0)).
Proof.
  intros _ Hfr Hdone. rewrite <- size_dom. apply Nat2Z.inj_le.
  rewrite <- (size_list_to_set (C := gset positive) F) by apply (do_nodup _ _ Hdone).
  apply subseteq_size. intros p Hp%elem_of_list_to_set. apply elem_of_dom.
  by apply (relabelled_tc _ _ _ Hfr), reached_some, (do_reached _ _ Hdone).
Qed.

Lemma labels_le F d B B' : B <= B' -> labels_ok F d B -> labels_ok F d B'.
Proof.
  intros Hle [H1 H2 H3 H4]. split; try done. intros p. destruct (H3 p) as [?|[[? ?] ?]]; [by left|right; split; [lia|done]].
Qed.

Lemma loop_exploring F cand d p :
  spf_ready -> loop_ok F cand d -> olsr_spf_extract_best cand = Some p ->
  exploring F p cand d ((Z.of_nat (length F) + 1) * max_cost) /\ Z.of_nat (length F) < Z.of_nat (size (tcs d0)).
Proof.
  intros Hready [Hlab Hq Hdone Hstart Hroot] Hp. pose proof (queue_best cand (qo_wf _ _ _ Hq)) as Hb.
  rewrite Hp in Hb. destruct Hb as (c & Hpc & Hmin).
  pose proof Hpc as (Hpf & Hc & Hlt)%(qo_elem _ _ _ Hq).
  assert (reached d p) as Hreach by (unfold reached; lia).
  assert (Z.of_nat (length F) < Z.of_nat (size (tcs d0))) as Hsize.
  { rewrite <- size_dom. apply Nat2Z.inj_lt. 
    rewrite <- (size_list_to_set (C := gset positive) F) by apply (do_nodup _ _ Hdone).
    apply subset_size. split.
    - intros q Hq'%elem_of_list_to_set. apply elem_of_dom.
      by apply (relabelled_tc _ _ _ (lo_frame _ _ _ Hlab)), reached_some, (do_reached _ _ Hdone).
    - intros Hsub. apply Hpf. apply (elem_of_list_to_set (C := gset positive)), Hsub, elem_of_dom.
      by apply (relabelled_tc _ _ _ (lo_frame _ _ _ Hlab)), reached_some. }
  split; [|done]. pose proof (sr_size Hready). split; try done.
  - eapply labels_le; [|exact Hlab]. unfold LINK_COST_BROKEN. lia.
  - intros q Hqf. destruct (lo_label _ _ _ Hlab q) as [->|_]; [lia|].
    destruct (decide (cost d q < ROUTE_COST_BROKEN)); [|lia]. rewrite Hc. apply (Hmin q). by apply (qo_elem _ _ _ Hq).
  - split; [|by intros E; apply Hstart]. intros ->. destruct F as [|f F]; [done|]. destruct Hpf. by apply Hroot.
  - destruct (lo_label _ _ _ Hlab p) as [?|[? _]]; unfold reached, ROUTE_COST_BROKEN, LINK_COST_BROKEN in *; lia.
Qed.

Lemma sorted_snoc {A} (R : A -> A -> Prop) l x : StronglySorted R l -> Forall (fun y => R y x) l -> StronglySorted R (l ++ [x]).
Proof.
  induction 1 as [|y l Hs IH Hy]; intros Hx; simpl; [by repeat constructor|]. apply Forall_cons in Hx as [Hx Hl].
  constructor; [by apply IH|]. apply Forall_app. split; [done|]. by repeat constructor.
Qed.

Lemma loop_next F cand d p :
  exploring F p cand d ((Z.of_nat (length F) + 1) * max_cost) -> (F <> [] -> r ∈ F) ->
  (forall q w, usable d0 p q w -> relaxed d p q w) ->
  p ∈ map an_ptr (avl_walk cand) /\ loop_ok (F ++ [p]) (avl_delete cand (mk_node p (cost d p))) d.
Proof.
  intros [Hlab Hq Hdone Hp Hbest Hfirst Hreach Hbound] Hroot Hrel.
  assert (queued cand p (cost d p)) as Hpc by by apply (qo_elem _ _ _ Hq).
  destruct (queue_del cand p _ (qo_wf _ _ _ Hq) Hpc) as [Hwf' Hel]. split; [apply queued_ptr; by eexists|]. split.
  - rewrite length_app. simpl. replace (Z.of_nat (length F + 1)) with (Z.of_nat (length F) + 1) by lia.
    destruct Hlab as [H1 H2 H3 H4]. split; try done. by destruct F.
  - split; [done|]. intros q c. rewrite Hel, (qo_elem _ _ _ Hq), not_elem_of_app, not_elem_of_cons.
    split; [intros [(? & ? & ?) ?]; split_and!; try done; by apply not_elem_of_nil|]. tauto.
  - destruct Hdone as [D1 D2 D3 D4 D5]. split.
    + apply NoDup_app. split; [done|]. split; [|apply NoDup_singleton]. intros q Hqf ->%list_elem_of_singleton. done.
    + apply sorted_snoc; [done|]. rewrite Forall_forall. intros q Hqf. by apply D4.
    + intros q [Hqf| ->%list_elem_of_singleton]%elem_of_app; [by apply D3|done].
    + intros q q' [Hqf| ->%list_elem_of_singleton]%elem_of_app [Hn _]%not_elem_of_app; [by apply D4|by apply Hbest].
    + intros q q' w [Hqf| ->%list_elem_of_singleton]%elem_of_app Hu; [by apply D5|by apply Hrel].
  - by destruct F.
  - intros _. apply elem_of_app. destruct (decide (F = [])) as [E|E]; [|left; by apply Hroot].
    right. apply list_elem_of_singleton. symmetry. by apply Hfirst.
Qed.

Lemma loop_result F cand d :
  spf_ready -> loop_ok F cand d -> olsr_spf_extract_best cand = None -> spf_result F d.
Proof.
  intros Hready [Hlab Hq Hdone Hstart Hroot] Hnone. pose proof (queue_best cand (qo_wf _ _ _ Hq)) as Hb. rewrite Hnone in Hb.
  assert (forall p, reached d p -> p ∈ F) as Hall.
  { intros p Hp. destruct (decide (p ∈ F)) as [|Hn]; [done|]. destruct (Hb p (cost d p)). by apply (qo_elem _ _ _ Hq). }
  assert (forall vs c p, spf_path d0 r vs c p -> p ∈ F /\ cost d p <= c) as Hpath.
  { induction 1 as [|vs c p q w Hp IH Hu].
    - destruct (lo_root _ _ _ Hlab) as [E _]. split; [|lia]. apply Hall. unfold reached. rewrite E. unfold ROUTE_COST_BROKEN. lia.
    - destruct IH as [IH1 IH2]. destruct (do_relaxed _ _ Hdone _ _ _ IH1 Hu) as [H1 H2]. split; [by apply Hall|lia]. }
  assert (forall p, p ∈ F -> label_of d p) as Hl.
  { intros p Hp%(do_reached _ _ Hdone). destruct (lo_label _ _ _ Hlab p) as [E|[_ H]]; [unfold reached in Hp; lia|done]. }
  split; try apply Hdone.
  - apply (lo_frame _ _ _ Hlab).
  - intros p. split; [|by intros (vs & c & H); apply Hpath in H as [? _]]. intros (vs & H & _)%Hl. by exists vs, (cost d p).
  - intros p Hp. split; [by apply (do_reached _ _ Hdone)|by apply Hl].
  - intros p Hp. destruct (lo_label _ _ _ Hlab p) as [E|[[_ H] _]]; [done|]. destruct Hp. apply Hall. unfold reached.
    pose proof (done_size _ _ Hready (lo_frame _ _ _ Hlab) Hdone). pose proof (sr_size Hready).
    unfold LINK_COST_BROKEN, ROUTE_COST_BROKEN in *. lia.
  - intros p vs c H. by apply Hpath in H as [_ ?].
  - apply (lo_root _ _ _ Hlab).
  - intros p Hp%(do_reached _ _ Hdone). destruct (lo_label _ _ _ Hlab p) as [E|[H _]]; [unfold reached in Hp; lia|].
    pose proof (done_size _ _ Hready (lo_frame _ _ _ Hlab) Hdone). pose proof (sr_size Hready). unfold LINK_COST_BROKEN in *. lia.
Qed.

Lemma wp_spf_run fuel F cand n st :
  spf_ready -> loop_ok F cand (db st) -> n = Z.of_nat (length F) ->
  (size (tcs d0) <= fuel + length F)%nat ->
  wp (spf_run fuel cand F n) (fun res st' => exists d', st' = set_db d' st /\ spf_result (fst res) d' /\
    snd res = Z.of_nat (length (fst res))) st.
Proof.
  intros Hready. revert F cand n st. induction fuel as [|fuel IH]; intros F cand n st Hok -> Hfuel; simpl;
    destruct (olsr_spf_extract_best cand) as [p|] eqn:Hp.
  - destruct (loop_exploring _ _ _ _ Hready Hok Hp) as [_ ?]. lia.
  - wp_step. exists (db st). split; [by destruct st|]. split; [by eapply loop_result|done].
  - destruct (loop_exploring _ _ _ _ Hready Hok Hp) as [Hex Hsize].
    wp_step. eapply wp_mono; [by apply wp_spf_relax|]. cbn. intros cand' st' (d' & -> & Hex' & Hc & Hrel).
    destruct (loop_next _ _ _ _ Hex' (lp_root _ _ _ Hok) Hrel) as [Hin Hok'].
    destruct (reached_some _ _ (ex_reached _ _ _ _ _ Hex')) as [t Ht].
    wp_step. unfold olsr_spf_del_cand_tree. wp_step. eapply wp_get_tc; [exact Ht|].
    rewrite bool_decide_eq_true_2 by done. wp_step. simpl.
    assert (cost d' p = path_cost t) as Hct by (unfold cost; by rewrite Ht). rewrite Hct in Hok'.
    pose proof (sr_size Hready).
    assert (s32 (Z.of_nat (length F) + 1) = Z.of_nat (length (F ++ [p]))) as ->.
    { rewrite length_app. simpl. unfold s32. rewrite Z.mod_small; lia. }
    eapply wp_mono; [apply IH; [exact Hok'|done|]|].
    + rewrite length_app. simpl. lia.
    + cbn. intros res st' (d2 & -> & H1 & H2). by exists d2.
  - wp_step. exists (db st). split; [by destruct st|]. split; [by eapply loop_result|done].
Qed.

End run.
End spf_proofs.

Section spf_spec.
Context {cnf : olsrd_config} {lqh : lq_handler}.

(** The candidate tree at the start: the vertex of this node. *)
Definition spf_from (r : positive) : OM (list positive * Z) :=
  let* cand_tree := olsr_spf_add_cand_tree avl_init r in
  olsr_spf_run_full cand_tree [].

Lemma start_ok r d : spf_ready d r -> loop_ok d r [] (snd (avl_insert avl_comp_etx avl_init (mk_node r 0) true)) d.
Proof.
  intros [H1 H2 H3 H4 H5 H6].
  destruct (queue_add avl_init r 0) as [Hwf Hel]; [apply wf_init|apply not_elem_of_nil|].
  split; try done.
  - split; [apply relabelled_refl|done| |done]. intros p. destruct (decide (p = r)) as [->|Hn]; [|left; by apply H5].
    right. destruct H4 as (E1 & E2 & E3). split; [simpl; lia|]. exists []. rewrite E1, E2, E3. split; [constructor|done].
  - split; [done|]. intros p c. rewrite Hel. destruct (decide (p = r)) as [->|Hn].
    + destruct H4 as (E & _). rewrite E. unfold ROUTE_COST_BROKEN. split.
      * intros [[_ ->]|H]; [|by apply not_elem_of_nil in H]. split_and!; [apply not_elem_of_nil|done|lia].
      * intros (_ & <- & _). by left.
    + rewrite (H5 p Hn). split; [intros [[? _]|H]; [done|by apply not_elem_of_nil in H]|]. intros (_ & <- & ?). lia.
  - split; [by apply NoDup_nil_2|by apply SSorted_nil| | |]; intros p *; by intros ?%not_elem_of_nil.
  - intros _ q Hq. destruct (decide (q = r)) as [->|Hn]; [done|]. unfold reached in Hq. rewrite (H5 q Hn) in Hq. lia.
Qed.

(** The run on the tree that holds this node. *)
Lemma wp_spf_run_full r st :
  spf_ready (db st) r ->
  wp (olsr_spf_run_full (snd (avl_insert avl_comp_etx avl_init (mk_node r 0) true)) []) (fun res st' =>
    exists d', st' = set_db d' st /\ spf_result (db st) r (fst res) d' /\ snd res = Z.of_nat (length (fst res))) st.
Proof.
  intros Hready. unfold olsr_spf_run_full. repeat wp_step.
  apply (wp_spf_run (db st) r); [done|by apply start_ok|done|simpl; lia].
Qed.

(** C9: the shortest path run implements shortest paths. On a well-formed database of
    at most 1024 vertices whose labels are reset (see [spf_ready]), it ends without
    touching freed memory, the candidate tree never loses or duplicates a vertex, and
    - the path list holds exactly the vertices that this node can reach over usable
      edges (edges with an inverse that are not broken), each once, nearest first;
    - the cost of such a vertex is that of a path to it, and no path is cheaper; the
      next hop is that of the first vertex of that path and the hop count its length;
    - the others keep the cost ROUTE_COST_BROKEN. *)
Theorem olsr_spf_run_full_correct r st :
  spf_ready (db st) r ->
  wp (spf_from r) (fun res st' => st' = set_db (db st') st /\ lsdb_wf (db st') /\
    spf_result (db st) r (fst res) (db st') /\ snd res = Z.of_nat (length (fst res))) st.
Proof.
  intros Hready. pose proof (start_ok r (db st) Hready) as Hok. destruct (sr_root _ _ Hready) as [Hc _].
  assert (is_Some (tcs (db st) !! r)) as [t Ht] by (apply reached_some; unfold reached, ROUTE_COST_BROKEN; lia).
  unfold cost in Hc. rewrite Ht in Hc. simpl in Hc.
  unfold spf_from, olsr_spf_add_cand_tree, olsr_spf_run_full. repeat wp_step.
  eapply wp_get_tc; [exact Ht|]. repeat wp_step. rewrite Hc.
  eapply wp_mono; [apply (wp_spf_run (db st) r); [done|exact Hok|done|simpl; lia]|]. cbn.
  intros res st' (d' & -> & Hres & Hn). split; [done|]. split; [|done].
  eapply relabelled_wf; [apply (sp_frame _ _ _ _ Hres)|apply (sr_wf _ _ Hready)].
Qed.

End spf_spec.

(** ** A sample network *)
Section spf_witness.
#[local] Existing Instance sample_cnf.
#[local] Existing Instance sample_lq.

(** 101, this node, has links 1 to 102 and 2 to 103; 102 also reaches 103, and 103
    reaches 104. The detour over 102 to 103 is cheaper than the direct link. *)
Definition diamond_steps : list db_step :=
  [Vertex 101; Vertex 102; Vertex 103; Vertex 104;
   Edge 2 102 0; Edge 3 101 0; Edge 2 103 0; Edge 4 101 0; Edge 3 103 0; Edge 4 102 0; Edge 4 104 0; Edge 5 103 0;
   Cost 2 10; Cost 3 10; Cost 4 50; Cost 5 50; Cost 6 10; Cost 7 10; Cost 8 10; Cost 9 10;
   Label 2 0 None; Label 3 ROUTE_COST_BROKEN (Some 1%positive); Label 4 ROUTE_COST_BROKEN (Some 2%positive)].
Definition diamond : olsr_state := sample_db diamond_steps.

Lemma cost_heap d r : (forall p t, tcs d !! p = Some t -> (if bool_decide (p = r) then true else path_cost t =? ROUTE_COST_BROKEN) = true) ->
  forall p, p <> r -> cost d p = ROUTE_COST_BROKEN.
Proof.
  intros H p Hp. unfold cost. destruct (tcs d !! p) as [t|] eqn:E; [|done]. apply H in E.
  rewrite bool_decide_eq_false_2 in E by done. by apply Z.eqb_eq.
Qed.

Lemma diamond_ready : spf_ready (db diamond) 2.
Proof.
  split.
  - unfold diamond. apply sample_db_wf. vm_compute. reflexivity.
  - intros e x He. apply Z.leb_le. revert e x He. apply (heap_forall (fun _ x => 0 <=? edge_cost x)). vm_compute. reflexivity.
  - vm_compute. discriminate.
  - vm_compute. auto.
  - apply cost_heap. apply (heap_forall (fun p t => if bool_decide (p = 2%positive) then true else path_cost t =? ROUTE_COST_BROKEN)). vm_compute. reflexivity.
  - intros q w (e & x & f & y & He & Htc & Hf & Hy & <- & _).
    assert (forall e x, edges (db diamond) !! e = Some x ->
      negb (bool_decide (edge_tc x = 2%positive)) || bool_decide (edge_inv x = Some 3%positive \/ edge_inv x = Some 5%positive) = true) as Hout
      by (apply (heap_forall (fun _ x => negb (bool_decide (edge_tc x = 2%positive)) ||
        bool_decide (edge_inv x = Some 3%positive \/ edge_inv x = Some 5%positive))); vm_compute; reflexivity).
    apply Hout in He. rewrite Htc, bool_decide_eq_true_2 in He by reflexivity. simpl in He. apply bool_decide_eq_true in He.
    rewrite Hf in He. destruct He as [[= ->]|[= ->]]; revert Hy; vm_compute; intros [= <-]; eexists; reflexivity.
Qed.

Lemma olsr_spf_run_full_correct_witness :
  wp (spf_from 2) (fun res st' => spf_result (db diamond) 2 (fst res) (db st') /\ lsdb_wf (db st')) diamond /\
  option_map fst (spf_from 2 diamond) = Some ([2; 3; 4; 5]%positive, 4) /\
  let d := db (run (spf_from 2) diamond) in
  map (cost d) [2; 3; 4; 5]%positive = [0; 10; 20; 30] /\
  map (hop d) [3; 4; 5]%positive = [Some 1; Some 1; Some 1]%positive /\ hops d 5 = 3.
Proof.
  split; [|vm_compute; auto]. eapply wp_mono; [exact (olsr_spf_run_full_correct 2 diamond diamond_ready)|].
  intros res st' (_ & H1 & H2 & _). split; [exact H2|exact H1].
Defined.

End spf_witness.
