(* ===== verification/RouteCalc.v ===== *)
(** * olsr_spf.c: the calculation of the routing table

    [olsr_calculate_routing_table] connects link sensing, the topology set, the
    shortest path run and the routing table. The build without __linux__ and
    without profiling is modelled. *)

From S2P Require Import Prelude Timer Avl IpAddr KeyTree State MidLookup Interfaces NeighTable LsdbOps Lq Hysteresis.
From S2P Require Import RouteTable TcSet LinkSet Rib Spf.

Section route_calc.
Context {cnf : olsrd_config} {lqh : lq_handler} {krn : kernel_routes}.

Definition olsr_expire_spf_backoff : OM unit := modify (set_spf_backoff_timer None).

Definition reset_label (t : tc_entry) : tc_entry :=
  set_tc_hops 0 (set_path_cost ROUTE_COST_BROKEN (set_next_hop None t)).

Definition init_vertices : OM unit :=
  let* ts := OLSR_FOR_ALL_TC_ENTRIES in
  forM_ ts (fun tc => upd_tc tc reset_label).

Definition flush_edge (tc_edge : option positive) : OM unit :=
  match tc_edge with
  | Some e => olsr_delete_tc_edge_entry e
  | None => ret tt
  end.

(** The edge from this node, [me], to a neighbour it has the link [p] to, and the next
    hop of the neighbour. *)
Definition set_nbr_edge (me p : positive) (addr : ip_addr) (tc_edge : option positive) : OM unit :=
  let* l := get_link p in
  let* i := gets_opt (fun st => link_interface st l) in
  do* upd_link p (set_inter i) in
  let* e := match tc_edge with
            | None => olsr_add_tc_edge_entry me addr 0
            | Some e =>
                do* olsr_copylq_link_entry_2_tc_edge_entry e p in
                let* _ := olsr_calc_tc_edge_entry_etx e in
                ret e
            end in
  let* x := get_edge e in
  match edge_inv x with
  | Some f => let* y := get_edge f in upd_tc (edge_tc y) (set_next_hop (Some p))
  | None => ret tt
  end.

(** The loop body for a neighbour. *)
Definition update_nbr_edge (me neigh : positive) : OM unit :=
  let* n := get_nbr neigh in
  let addr := neighbor_main_addr n in
  let* tc_edge := olsr_lookup_tc_edge me addr in
  if negb (status n =? SYM) then flush_edge tc_edge
  else
    let* link := get_best_link_to_neighbor addr in
    match link with
    | None => flush_edge tc_edge
    | Some p =>
        let* s := lookup_link_status (Some p) in
        if s =? LOST_LINK then flush_edge tc_edge
        else set_nbr_edge me p addr tc_edge
    end.

(** The prefixes of a reachable vertex enter the routing table. *)
Definition insert_reachable (tc : positive) : OM unit :=
  let* t := get_tc tc in
  match next_hop t with
  | None => ret tt
  | Some link =>
      let* ps := OLSR_FOR_ALL_PREFIX_ENTRIES tc in
      forM_ ps (fun rtp =>
        let* x := get_rtp rtp in
        match rtp_rt x with
        | Some _ => olsr_update_rt_path rtp tc link
        | None => olsr_insert_rt_path rtp tc link
        end)
  end.

Definition flush_routes : OM unit := do* olsr_update_rib_routes in olsr_update_kernel_routes.

(** The part behind the test of the backoff timer. *)
Definition calculate_routes : OM unit :=
  let* _ := olsr_bump_routingtree_version in
  do* init_vertices in
  do* olsr_change_myself_tc in
  let* myself := gets (fun st => tc_myself (db st)) in
  match myself with
  | None => flush_routes
  | Some me =>
      do* upd_tc me (set_path_cost 0) in
      let* cand_tree := olsr_spf_add_cand_tree avl_init me in
      let* neighs := gets (fun st => all_elems (neighbortable st)) in
      do* forM_ neighs (update_nbr_edge me) in
      let* r := olsr_spf_run_full cand_tree [] in
      do* forM_ (fst r) insert_reachable in
      flush_routes
  end.

Definition olsr_calculate_routing_table (force : bool) : OM unit :=
  let* backoff := gets spf_backoff_timer in
  match force, backoff with
  | false, Some _ => ret tt
  | false, None =>
      let* t := olsr_start_timer 1000 5 OLSR_TIMER_ONESHOT in
      do* modify (set_spf_backoff_timer (Some t)) in
      calculate_routes
  | true, _ => calculate_routes
  end.

End route_calc.
