(* ===== verification/CalcProofs.v ===== *)
(** * The calculation of the routing table: its steps *)

From S2P Require Import Prelude Timer Avl AvlSpec IpAddr KeyTree State MidLookup Interfaces NeighTable NeighProofs HelloTwoHop NeighSpec LsdbOps Lq Hysteresis RouteTable TcSet.
From S2P Require Import LinkSet LsdbProofs LinkProofs LinkBest VertexProofs TcSpec RouteSpec Rib RibSpec KernelSpec Spf SpfSpec RouteCalc.

Section calc_proofs.
Context {cnf : olsrd_config} {lqh : lq_handler} {laws : lq_laws lqh} {krn : kernel_routes}.

(** ** What the calculation leaves alone *)

(** Everything but the database and the interface pointers of the links. *)
Definition calc_strip (st : olsr_state) : olsr_state :=
  set_links (set_inter None <$> links st) (set_db empty_lsdb st).
Definition calc_frame (st st' : olsr_state) : Prop := calc_strip st' = calc_strip st.

#[export] Instance calc_frame_equiv : Equivalence calc_frame.
Proof. unfold calc_frame. split; [by intros ?|by intros ? ?|by intros ? ? ? -> ->]. Qed.

Lemma calc_frame_db d st : calc_frame st (set_db d st).
Proof. done. Qed.

Lemma calc_frame_inter p l i st : links st !! p = Some l -> calc_frame st (set_links (<[p := set_inter i l]> (links st)) st).
Proof.
  intros Hp. unfold calc_frame, calc_strip. simpl. rewrite fmap_insert.
  assert (<[p := set_inter None (set_inter i l)]> (set_inter None <$> links st) = set_inter None <$> links st) as ->; [|done].
  apply insert_id. by rewrite lookup_fmap, Hp.
Qed.

Section frame.
Context (st st' : olsr_state).
Hypothesis Hfr : calc_frame st st'.

Lemma calc_frame_tables : nbrs st' = nbrs st /\ neighbortable st' = neighbortable st /\ nbr2s st' = nbr2s st /\
  two_hop_neighbortable st' = two_hop_neighbortable st /\ mid_same st st' /\ ifnet st' = ifnet st /\
  link_entry_head st' = link_entry_head st /\ now_times st' = now_times st /\ main_addr st' = main_addr st.
Proof. clear -Hfr. unfold calc_frame in Hfr. destruct st, st'. unfold calc_strip, mid_same in *. simpl in *. injection Hfr as. by subst. Qed.

Lemma calc_frame_link p : set_inter None <$> links st' !! p = set_inter None <$> links st !! p.
Proof. rewrite <- !lookup_fmap. apply (f_equal (fun s => links s !! p)) in Hfr. exact Hfr. Qed.

Lemma calc_frame_links p l' : links st' !! p = Some l' -> exists l, links st !! p = Some l /\ set_inter None l' = set_inter None l.
Proof.
  intros Hp. pose proof (calc_frame_link p) as E. rewrite Hp in E. destruct (links st !! p) as [l|]; [|done].
  apply (inj Some) in E. by exists l.
Qed.

Lemma calc_frame_net : net_wf st -> net_wf st'.
Proof.
  destruct calc_frame_tables as (E1 & E2 & E3 & E4 & E5 & E6 & E7 & _). intros [H1 H2]. split.
  - by apply (nbr_wf_frame _ st).
  - apply (link_wf_ext st); try done; [|intros q; by rewrite E1]. intros p. pose proof (calc_frame_link p) as E.
    destruct (links st' !! p) as [[]|], (links st !! p) as [[]|]; simpl in *; try done. injection E as. by subst.
Qed.

Lemma link_interface_inter l l' : set_inter None l' = set_inter None l -> link_interface st' l' = link_interface st l.
Proof. apply link_interface_ext, calc_frame_tables. Qed.

Lemma find_best_link_frame a : find_best_link st' a = find_best_link st a.
Proof.
  destruct calc_frame_tables as (E1 & _ & _ & _ & E5 & E6 & E7 & E8 & _).
  apply find_best_link_ext; try done; [apply calc_frame_link|intros p; by rewrite E1].
Qed.

End frame.

(** ** The edges to the neighbours *)

#[local] Instance aeq_dec a b : Decision (aeq a b).
Proof. unfold aeq, comp_eq. apply _. Defined.

(** [l] is the best link to the symmetric neighbour with that address. *)
Definition nbr_hop (st : olsr_state) (a : ip_addr) (l : positive) : Prop :=
  exists q n, nbrs st !! q = Some n /\ status n = SYM /\ aeq (neighbor_main_addr n) a /\
    find_best_link st (neighbor_main_addr n) = Some (Some l).

Definition live_link (st : olsr_state) (l : positive) : Prop :=
  exists lk i, links st !! l = Some lk /\ inter lk = Some i /\ i ∈ ifnet st.

(** Every link runs over an interface. *)
Definition links_up (st : olsr_state) : Prop :=
  forall p l, links st !! p = Some l -> exists i, link_interface st l = Some (Some i).

(** Vertices without their edges and next hops. *)
Definition tc_calc (t : tc_entry) : tc_entry := set_next_hop None (tc_rest t).

Definition own_edge (d : lsdb) (me e : positive) (x : tc_edge_entry) : Prop :=
  edges d !! e = Some x /\ edge_tc x = me.

(** [st] is [st0] with [k] neighbours looked at. *)
Record edges_inv (me : positive) (st0 : olsr_state) (k : Z) (st : olsr_state) : Prop := {
  ei_frame : calc_frame st0 st;
  ei_wf : lsdb_wf (db st);
  ei_tcs : tc_calc <$> tcs (db st) = tc_calc <$> tcs (db st0);
  ei_rtps : rtps (db st) = rtps (db st0);
  ei_rts : rts (db st) = rts (db st0);
  ei_rest : tc_tree (db st) = tc_tree (db st0) /\ tc_myself (db st) = tc_myself (db st0) /\
    routingtree (db st) = routingtree (db st0) /\ routingtree_version (db st) = routingtree_version (db st0) /\
    current_inetgw (db st) = current_inetgw (db st0) /\ kernel_state (db st) = kernel_state (db st0);
  ei_costs e x : edges (db st) !! e = Some x -> 0 <= edge_cost x;
  ei_size : Z.of_nat (size (edges (db st))) <= Z.of_nat (size (edges (db st0))) + k;
  ei_own e x : own_edge (db st) me e x ->
    exists q n, nbrs st0 !! q = Some n /\ aeq (neighbor_main_addr n) (T_dest_addr x);
  ei_hops v t l : tcs (db st) !! v = Some t -> next_hop t = Some l -> nbr_hop st0 (tc_addr t) l /\ live_link st l;
}.

(** The vertex behind the own edge to [a] has a next hop. *)
Definition hop_ok (me : positive) (a : ip_addr) (d : lsdb) : Prop :=
  forall e x f y, own_edge d me e x -> aeq (T_dest_addr x) a -> edge_inv x = Some f -> edges d !! f = Some y ->
    is_Some (hop d (edge_tc y)).

Lemma calc_lookup {d d' p t'} : tc_calc <$> tcs d' = tc_calc <$> tcs d -> tcs d' !! p = Some t' ->
  exists t, tcs d !! p = Some t /\ tc_addr t' = tc_addr t /\ prefix_tree t' = prefix_tree t /\
    path_cost t' = path_cost t /\ tc_hops t' = tc_hops t.
Proof.
  intros E Hp. apply (f_equal (lookup p)) in E. rewrite !lookup_fmap, Hp in E. destruct (tcs d !! p) as [t|]; [|done].
  apply (inj Some) in E. exists t. split; [done|]. destruct t, t'. simpl in *. injection E as. by subst.
Qed.

Lemma rest_calc d d' : tc_rest <$> tcs d' = tc_rest <$> tcs d -> tc_calc <$> tcs d' = tc_calc <$> tcs d.
Proof.
  intros E. apply (f_equal (fmap (set_next_hop None))) in E. by rewrite <- !map_fmap_compose in E.
Qed.

(** Own edges to the same address are the same edge. *)
Lemma own_edge_unique d me e f x y : lsdb_wf d -> own_edge d me e x -> own_edge d me f y ->
  aeq (T_dest_addr x) (T_dest_addr y) -> e = f.
Proof.
  intros Hwf [Hx Ex] [Hy Ey] Ha. destruct (dw_edge_tc _ Hwf _ _ Hx) as [t Ht]. rewrite Ex in Ht.
  eapply (tree_same (kt_wf := awf)); [by apply (dw_edges _ Hwf me t)| | |exact Ha]; [by exists x|by exists y].
Qed.

(** The own edge that a lookup finds. *)
Lemma find_own_edge d me t a : lsdb_wf d -> tcs d !! me = Some t ->
  match kt_find (edge_tree t) a with
  | Some e => exists x, own_edge d me e x /\ aeq (T_dest_addr x) a
  | None => forall e x, own_edge d me e x -> ~ aeq (T_dest_addr x) a
  end.
Proof.
  intros Hwf Ht. destruct (kt_find (edge_tree t) a) as [e|] eqn:E.
  - apply (tree_find_Some (kt_wf := awf) _ _ _ _ (dw_edges _ Hwf _ _ Ht)) in E as (b & Hb & x & Hx & Hm & <-). by exists x.
  - intros e x [Hx Hm] Ha. eapply (tree_find_None (kt_wf := awf) _ _ _ (dw_edges _ Hwf _ _ Ht)); [exact E| |exact Ha]. by exists x.
Qed.

Lemma nodup_size {A} (l : list positive) (m : gmap positive A) :
  NoDup l -> (forall p, p ∈ l -> is_Some (m !! p)) -> (length l <= size m)%nat.
Proof.
  intros Hnd Hl. rewrite <- (size_list_to_set (C := gset positive) l Hnd), <- size_dom.
  apply subseteq_size. intros p Hp%elem_of_list_to_set. by apply elem_of_dom, Hl.
Qed.

Lemma degree_le d p t : lsdb_wf d -> tcs d !! p = Some t ->
  degree t <= Z.of_nat (size (edges d)) + Z.of_nat (size (rtps d)).
Proof.
  intros Hwf Ht. unfold degree. pose proof (dw_edges _ Hwf _ _ Ht) as He. pose proof (dw_paths _ Hwf _ _ Ht) as Hp.
  assert (length (kt_walk (edge_tree t)) <= size (edges d))%nat.
  { rewrite <- (length_map fst). apply nodup_size; [by eapply tree_nodup|]. intros e.
    rewrite (tree_ptrs (kt_wf := awf) _ _ e He). intros (a & x & Hx & _). by eexists. }
  assert (length (kt_walk (prefix_tree t)) <= size (rtps d))%nat; [|lia].
  rewrite <- (length_map fst). apply nodup_size; [by eapply tree_nodup|]. intros e.
  rewrite (tree_ptrs (kt_wf := pwf) _ _ e Hp). intros (a & x & Hx & _). by eexists.
Qed.

(** Opposite edges were opposite before if they were there before. *)
Lemma opposite_before d d' e f :
  (forall g y', g = e \/ g = f -> edges d' !! g = Some y' -> exists y, edges d !! g = Some y /\ edge_key y' = edge_key y) ->
  (forall p t', tcs d' !! p = Some t' -> exists t, tcs d !! p = Some t /\ tc_addr t' = tc_addr t) ->
  opposite d' e f -> opposite d e f.
Proof.
  intros He Ht (x & y & s & t & Hx & Hy & Hs & Ht' & K1 & K2).
  apply He in Hx as (x0 & Hx & E1); [|by left]. apply He in Hy as (y0 & Hy & E2); [|by right].
  injection E1 as E1 F1. injection E2 as E2 F2.
  apply Ht in Hs as (s0 & Hs & E3). apply Ht in Ht' as (t0 & Ht' & E4). exists x0, y0, s0, t0.
  rewrite <- F1, <- F2, <- E1, <- E2, <- E3, <- E4. done.
Qed.

Lemma inv_none_key x y : set_edge_inv None x = set_edge_inv None y -> edge_key x = edge_key y /\ edge_cost x = edge_cost y.
Proof. destruct x, y. simpl. intros E. injection E as. by subst. Qed.

Lemma rest_hop d d' v : tc_rest <$> tcs d' = tc_rest <$> tcs d -> hop d' v = hop d v.
Proof.
  intros E. apply (f_equal (lookup v)) in E. rewrite !lookup_fmap in E. unfold hop.
  destruct (tcs d' !! v) as [t'|], (tcs d !! v) as [t|]; try done. apply (inj Some) in E. simpl.
  destruct t, t'. simpl in *. injection E as. by subst.
Qed.

Lemma rest_addr d d' p t' : tc_rest <$> tcs d' = tc_rest <$> tcs d -> tcs d' !! p = Some t' ->
  exists t, tcs d !! p = Some t /\ tc_addr t' = tc_addr t.
Proof. intros E Hp. destruct (rest_lookup E Hp) as (t & Ht & Er). exists t. split; [done|]. destruct t, t'. simpl in *. injection Er as. by subst. Qed.

Section steps.
Context (me : positive) (st0 : olsr_state).

(** Changes of edges, seen by the invariant. *)
Lemma ei_edges k k' st d' :
  edges_inv me st0 k st -> lsdb_wf d' -> tc_rest <$> tcs d' = tc_rest <$> tcs (db st) ->
  rtps d' = rtps (db st) -> rts d' = rts (db st) ->
  tc_tree d' = tc_tree (db st) /\ tc_myself d' = tc_myself (db st) /\ routingtree d' = routingtree (db st) /\
    routingtree_version d' = routingtree_version (db st) /\ current_inetgw d' = current_inetgw (db st) /\
    kernel_state d' = kernel_state (db st) ->
  (forall e x, edges d' !! e = Some x -> 0 <= edge_cost x) ->
  Z.of_nat (size (edges d')) <= Z.of_nat (size (edges (db st))) + (k' - k) ->
  (forall e x, own_edge d' me e x -> (exists y, own_edge (db st) me e y /\ T_dest_addr y = T_dest_addr x) \/
     exists q n, nbrs st0 !! q = Some n /\ aeq (neighbor_main_addr n) (T_dest_addr x)) ->
  edges_inv me st0 k' (set_db d' st).
Proof.
  intros [I1 I2 I3 I4 I5 I6 I7 I8 I9 I10] Hwf Htc E1 E2 E3 Hcost Hsize Hown.
  destruct E3 as (E3 & E4 & E5 & E6 & E7 & E8). destruct I6 as (F3 & F4 & F5 & F6 & F7 & F8).
  split; simpl; try congruence; try done.
  - etrans; [|exact I3]. by apply rest_calc.
  - split_and!; congruence.
  - lia.
  - intros e x Hx. destruct (Hown e x Hx) as [(y & Hy & <-)|H]; [by eapply I9|done].
  - intros v t' l Hv Hl. destruct (rest_addr _ _ _ _ Htc Hv) as (t & Ht & Ea). pose proof (rest_hop _ _ v Htc) as Hh.
    unfold hop in Hh. rewrite Hv, Ht in Hh. simpl in Hh. rewrite Ea. apply (I10 v); [done|congruence].
Qed.

Lemma ei_removed D k st d' :
  edges_inv me st0 k st -> edges_removed D (db st) d' ->
  edges_inv me st0 k (set_db d' st) /\ forall a, hop_ok me a (db st) -> hop_ok me a d'.
Proof.
  intros Hinv Hr. split.
  - eapply ei_edges; [exact Hinv|apply Hr..| | | |].
    + split_and!; apply Hr.
    + intros e x (y & Hy & [_ ->]%inv_none_key)%(er_edges _ _ _ Hr). by eapply (ei_costs _ _ _ _ Hinv).
    + assert (size (edges d') <= size (edges (db st)))%nat; [|lia]. rewrite <- !size_dom, (er_dom _ _ _ Hr).
      apply subseteq_size. set_solver.
    + intros e x [(y & Hy & [E _]%inv_none_key)%(er_edges _ _ _ Hr) Hm]. injection E as E1 E2. left. exists y. by split; [split; [|congruence]|].
  - intros a Hok e x f y [Hx Hm] Ha Hi Hf. rewrite (rest_hop _ _ _ (er_tcs _ _ _ Hr)).
    assert (inverse (db st) e f) as (x0 & Hx0 & Hi0).
    { apply (dw_inv _ (ei_wf _ _ _ _ Hinv)). apply (opposite_before _ d').
      - intros g y' _ (y0 & Hy0 & [E _]%inv_none_key)%(er_edges _ _ _ Hr). by exists y0.
      - intros p t' Hp. by eapply rest_addr; [apply Hr|].
      - apply (dw_inv _ (er_wf _ _ _ Hr)). by exists x. }
    destruct (er_edges _ _ _ Hr _ _ Hx) as (x1 & Hx1 & [E _]%inv_none_key). assert (x1 = x0) as -> by congruence.
    destruct (er_edges _ _ _ Hr _ _ Hf) as (y1 & Hy1 & [F _]%inv_none_key). injection E as E1 E2. injection F as _ ->.
    apply (Hok e x0 f y1); [split; [done|congruence]|congruence|done|done].
Qed.

Lemma ei_weaken k k' st : k <= k' -> edges_inv me st0 k st -> edges_inv me st0 k' st.
Proof. intros Hk []. split; try done. lia. Qed.

Lemma wp_flush_edge k st t a :
  edges_inv me st0 k st -> tcs (db st) !! me = Some t ->
  wp (flush_edge (kt_find (edge_tree t) a)) (fun _ st' => edges_inv me st0 k st' /\ hop_ok me a (db st') /\
    forall b, hop_ok me b (db st) -> hop_ok me b (db st')) st.
Proof.
  intros Hinv Ht. pose proof (find_own_edge _ _ _ a (ei_wf _ _ _ _ Hinv) Ht) as Hf.
  destruct (kt_find (edge_tree t) a) as [e|]; simpl.
  - destruct Hf as (x & Hx & Ha). eapply wp_mono; [eapply wp_delete_edge; [apply Hinv|apply Hx]|].
    intros _ st' [Hr ->]. destruct (ei_removed _ _ _ _ Hinv Hr) as [H1 H2]. split; [exact H1|]. split; [|exact H2]. simpl in *.
    intros g y f z [Hy Hm] Hya _ _. exfalso. pose proof (er_dom _ _ _ Hr) as Hd.
    destruct (er_edges _ _ _ Hr _ _ Hy) as (y0 & Hy0 & [E _]%inv_none_key). injection E as E1 E2.
    assert (g = e) as ->.
    { apply (own_edge_unique (db st) me g e y0 x); [apply Hinv|by split; [|rewrite <- E2]|exact Hx|]. rewrite <- E1, Hya. by symmetry. }
    apply elem_of_dom_2 in Hy. rewrite Hd in Hy. set_solver.
  - wp_step. split; [done|]. split; [|done]. intros e x f y Hx Ha _ _. by destruct (Hf e x Hx).
Qed.

Lemma ei_added k st a e d' :
  edges_inv me st0 k st -> edge_added me e a 0 (db st) d' ->
  (forall g x, own_edge (db st) me g x -> ~ aeq (T_dest_addr x) a) ->
  (exists q n, nbrs st0 !! q = Some n /\ neighbor_main_addr n = a) ->
  edges_inv me st0 (k + 1) (set_db d' st) /\
  (forall b, ~ aeq b a -> hop_ok me b (db st) -> hop_ok me b d') /\
  exists x, own_edge d' me e x /\ T_dest_addr x = a.
Proof.
  intros Hinv Hadd Hnone (q & n & Hq & Hn). destruct (ea_new _ _ _ _ _ _ Hadd) as (x & Hx & X1 & X2 & _ & X3).
  destruct (ea_rest _ _ _ _ _ _ Hadd) as (R1 & R2 & R3 & R4 & R5 & R6 & R7 & R8).
  split; [|split; [|exists x; by split; [split|]]].
  - eapply ei_edges; [exact Hinv|apply Hadd|apply Hadd|done|done|by split_and!| | |].
    + intros g y Hy. destruct (decide (g = e)) as [->|Hg].
      * assert (y = x) as -> by congruence. rewrite X3. destruct (1 <=? lq_level); [apply tc_cost_range|lia].
      * apply (ea_old _ _ _ _ _ _ Hadd) in Hy as (y0 & Hy0 & [_ ->]%inv_none_key); [|done]. by eapply (ei_costs _ _ _ _ Hinv).
    + rewrite <- !size_dom, (ea_dom _ _ _ _ _ _ Hadd), size_union; [rewrite size_singleton; lia|].
      apply disjoint_singleton_l. intros [? Hs]%elem_of_dom. by rewrite (ea_fresh _ _ _ _ _ _ Hadd) in Hs.
    + intros g y [Hy Hm]. destruct (decide (g = e)) as [->|Hg].
      * right. exists q, n. split; [done|]. assert (y = x) as -> by congruence. by rewrite X1, Hn.
      * left. apply (ea_old _ _ _ _ _ _ Hadd) in Hy as (y0 & Hy0 & [E _]%inv_none_key); [|done]. injection E as E1 E2.
        exists y0. split; [split; [done|congruence]|done].
  - intros b Hb Hok g y f z [Hy Hm] Hyb Hi Hz. rewrite (rest_hop _ _ _ (ea_tcs _ _ _ _ _ _ Hadd)).
    assert (g <> e) as Hg. { intros ->. assert (y = x) as -> by congruence. rewrite X1 in Hyb. by apply Hb; symmetry. }
    assert (opposite d' g f) as Hop by (apply (dw_inv _ (ea_wf _ _ _ _ _ _ Hadd)); by exists y).
    assert (f <> e) as Hf.
    { intros ->. destruct Hop as (y1 & x1 & s & t & Hy1 & Hx1 & Hs & Ht & K1 & K2).
      assert (y1 = y) as -> by congruence. assert (x1 = x) as -> by congruence. assert (t = s) as -> by congruence.
      apply Hg. apply (own_edge_unique d' me g e y x); [apply Hadd|by split|by split|]. by rewrite K1, K2. }
    assert (inverse (db st) g f) as (y0 & Hy0 & Hi0).
    { apply (dw_inv _ (ei_wf _ _ _ _ Hinv)). apply (opposite_before _ d'); [| |exact Hop].
      - intros h w [-> | ->] (w0 & Hw0 & [E _]%inv_none_key)%(ea_old _ _ _ _ _ _ Hadd); try done; by exists w0.
      - intros p t' Hp. by eapply rest_addr; [apply Hadd|]. }
    destruct (ea_old _ _ _ _ _ _ Hadd _ _ Hg Hy) as (y1 & Hy1 & [E _]%inv_none_key). assert (y1 = y0) as -> by congruence.
    destruct (ea_old _ _ _ _ _ _ Hadd _ _ Hf Hz) as (z1 & Hz1 & [F _]%inv_none_key). injection E as E1 E2. injection F as _ ->.
    apply (Hok g y0 f z1); [split; [done|congruence]|congruence|done|done].
Qed.

(** Writing to an edge, but not to what the trees rely on. *)
Lemma ei_edge_data k st e x f :
  edges_inv me st0 k st -> edges (db st) !! e = Some x -> edge_key (f x) = edge_key x -> edge_inv (f x) = edge_inv x ->
  0 <= edge_cost (f x) ->
  let d' := set_edges (<[e := f x]> (edges (db st))) (db st) in
  edges_inv me st0 k (set_db d' st) /\ (forall b, hop_ok me b (db st) -> hop_ok me b d').
Proof.
  intros Hinv Hx Hk Hi Hc d'. pose proof (edge_data_wf _ _ _ f (ei_wf _ _ _ _ Hinv) Hx Hk Hi) as Hwf.
  assert (forall g y', edges d' !! g = Some y' -> exists y, edges (db st) !! g = Some y /\ edge_key y' = edge_key y /\ edge_inv y' = edge_inv y) as Hold.
  { intros g y'. unfold d'. simpl. intros [[<- <-]|[_ Hg]]%lookup_insert_Some; [by exists x|by exists y']. }
  split.
  - eapply ei_edges; [exact Hinv|exact Hwf|done..|by split_and!| | |].
    + intros g y. unfold d'. simpl. intros [[<- <-]|[_ Hg]]%lookup_insert_Some; [done|by eapply (ei_costs _ _ _ _ Hinv)].
    + unfold d'. simpl. rewrite map_size_insert, Hx. unfold id. lia.
    + intros g y' [(y & Hy & E & _)%Hold Hm]. injection E as E1 E2. left. exists y. by split; [split; [|congruence]|].
  - intros b Hok g y' h z' [(y & Hy & E & Ei)%Hold Hm] Ha Hi' (z & Hz & F & _)%Hold.
    injection E as E1 E2. injection F as _ ->. change (is_Some (hop (db st) (edge_tc z))).
    apply (Hok g y h z); [split; [done|congruence]|congruence|congruence|done].
Qed.

Lemma hop_insert d v t p w : hop (set_tcs (<[v := set_next_hop (Some p) t]> (tcs d)) d) w = if decide (w = v) then Some p else hop d w.
Proof. unfold hop. simpl. case_decide as Hw; [by subst w; rewrite lookup_insert_eq|by rewrite lookup_insert_ne]. Qed.

(** The next hop of the vertex behind the edge [e]. *)
Lemma wp_set_hop k st e x p q n :
  edges_inv me st0 k st -> own_edge (db st) me e x -> nbrs st0 !! q = Some n -> status n = SYM ->
  aeq (T_dest_addr x) (neighbor_main_addr n) -> find_best_link st0 (neighbor_main_addr n) = Some (Some p) -> live_link st p ->
  wp (match edge_inv x with
      | Some f => let* y := get_edge f in upd_tc (edge_tc y) (set_next_hop (Some p))
      | None => ret tt
      end) (fun _ st' => edges_inv me st0 k st' /\ hop_ok me (neighbor_main_addr n) (db st') /\
    forall b, hop_ok me b (db st) -> hop_ok me b (db st')) st.
Proof.
  intros Hinv Hx Hq Hs Ha Hbest Hlive. pose proof (ei_wf _ _ _ _ Hinv) as Hwf. destruct (edge_inv x) as [f|] eqn:Ei.
  2:{ wp_step. split; [done|]. split; [|done]. intros g z f z' Hg Hz Hi _. exfalso.
      assert (g = e) as -> by (apply (own_edge_unique (db st) me g e z x); [done..|]; by rewrite Hz, Ha).
      destruct Hx, Hg. congruence. }
  assert (opposite (db st) e f) as (x0 & y & s & t & Hx0 & Hy & Hs0 & Ht & K1 & _) by (apply (dw_inv _ Hwf); exists x; by split; [apply Hx|]).
  assert (x0 = x) as -> by (destruct Hx; congruence).
  wp_step. eapply wp_get_edge; [exact Hy|]. eapply wp_upd_tc; [exact Ht|]. simpl. set (d' := set_tcs _ (db st)).
  assert (forall w, hop d' w = if decide (w = edge_tc y) then Some p else hop (db st) w) as Hhop by apply hop_insert.
  assert (forall b, hop_ok me b (db st) -> hop_ok me b d') as Hkeep.
  { intros b Hok g z h z' Hg Hz Hi Hz'. rewrite Hhop. case_decide; [by eexists|by eapply Hok]. }
  split; [|split; [|exact Hkeep]].
  - assert (tc_calc <$> tcs d' = tc_calc <$> tcs (db st)) as Hcalc.
    { unfold d'. simpl. rewrite fmap_insert. apply insert_id. by rewrite lookup_fmap, Ht. }
    destruct Hinv as [I1 I2 I3 I4 I5 I6 I7 I8 I9 I10]. split; simpl; try done.
    + by apply (tc_data_wf _ _ _ (set_next_hop (Some p))).
    + etrans; [exact Hcalc|done].
    + intros v tv l. rewrite lookup_insert_Some. intros [[<- <-]|[Hv Htv]] Hl; [|by apply (I10 v)].
      simpl in Hl. injection Hl as <-. split; [|done]. exists q, n. split_and!; try done. simpl. by rewrite <- Ha.
  - intros g z h z' Hg Hz Hi Hz'. rewrite Hhop. change (own_edge (db st) me g z) in Hg. change (edges (db st) !! h = Some z') in Hz'.
    assert (g = e) as -> by (apply (own_edge_unique (db st) me g e z x); [done..|]; by rewrite Hz, Ha).
    assert (z = x) as -> by (destruct Hx, Hg; congruence). assert (h = f) as -> by congruence.
    assert (z' = y) as -> by congruence. rewrite decide_True by done. by eexists.
Qed.

Lemma find_interface_in st l i : link_wf st -> link_interface st l = Some (Some i) -> i ∈ ifnet st.
Proof.
  intros Hwf. unfold link_interface. destruct (if_name l) as [name|].
  - unfold if_ifwithname. intros H.
    destruct (findM_spec (fun ifp => name' ← int_name ifp; Some (bool_decide (name' = name))) (ifnet st)) as (r & Hr & Hs).
    { intros j Hj. destruct (lw_ifs _ Hwf _ Hj) as [n ->]. by eexists. }
    rewrite Hr in H. injection H as ->. destruct Hs as (l1 & l2 & -> & _). set_solver.
  - intros H. injection H as H. apply find_some in H as [H _]. by apply list_elem_of_In.
Qed.

(** Only the database differs. *)
Definition db_only (st st' : olsr_state) : Prop := st' = set_db (db st') st.

Lemma ei_link k st p l i :
  edges_inv me st0 k st -> links st !! p = Some l -> i ∈ ifnet st ->
  edges_inv me st0 k (set_links (<[p := set_inter (Some i) l]> (links st)) st).
Proof.
  intros [I1 I2 I3 I4 I5 I6 I7 I8 I9 I10] Hl Hi. split; try done.
  - etrans; [exact I1|]. by apply calc_frame_inter.
  - intros v t m Hv Hm. destruct (I10 v t m Hv Hm) as [H1 (lk & j & H2 & H3 & H4)]. split; [done|].
    unfold live_link. simpl. destruct (decide (m = p)) as [->|Hn].
    + exists (set_inter (Some i) l), i. by rewrite lookup_insert_eq.
    + exists lk, j. by rewrite lookup_insert_ne.
Qed.

Lemma hop_ok_aeq a b d : aeq b a -> hop_ok me a d -> hop_ok me b d.
Proof. intros E Hok e x f y Hx Ha. apply (Hok e x f y Hx). by rewrite Ha. Qed.

Lemma wp_set_nbr_edge k st q n p t :
  edges_inv me st0 k st -> net_wf st -> links_up st0 -> nbrs st0 !! q = Some n -> status n = SYM ->
  find_best_link st0 (neighbor_main_addr n) = Some (Some p) -> tcs (db st) !! me = Some t ->
  Z.of_nat (size (edges (db st0))) + Z.of_nat (size (rtps (db st0))) + k + 2 < 4294967296 ->
  wp (set_nbr_edge me p (neighbor_main_addr n) (kt_find (edge_tree t) (neighbor_main_addr n)))
    (fun _ st' => edges_inv me st0 (k + 1) st' /\ hop_ok me (neighbor_main_addr n) (db st') /\
      forall b, hop_ok me b (db st) -> hop_ok me b (db st')) st.
Proof.
  intros Hinv Hnet Hup Hq Hs Hbest Ht Hsize. set (a := neighbor_main_addr n) in *.
  pose proof (ei_frame _ _ _ _ Hinv) as Hfr. destruct (calc_frame_tables _ _ Hfr) as (_ & _ & _ & _ & _ & Eif & _).
  assert (exists l, links st !! p = Some l) as [l Hl].
  { rewrite <- (find_best_link_frame _ _ Hfr) in Hbest. destruct (find_best_link_ok st a Hnet) as (r & Hr & Hlo).
    destruct (Hlo p) as (l & [Hl _]); [congruence|]. by exists l. }
  unfold set_nbr_edge. wp_step. eapply wp_get_link; [exact Hl|].
  destruct (calc_frame_links _ _ Hfr _ _ Hl) as (l0 & Hl0 & El). destruct (Hup _ _ Hl0) as [i Hi].
  rewrite <- (link_interface_inter _ _ Hfr _ _ El) in Hi.
  wp_step. eapply (wp_gets_opt (fun st => link_interface st l)); [exact Hi|]. wp_step. eapply wp_upd_link; [exact Hl|].
  pose proof (find_interface_in _ _ _ (proj2 Hnet) Hi) as Hin. set (st1 := set_links _ st).
  assert (edges_inv me st0 k st1) as Hinv1 by (by apply ei_link).
  assert (forall st2, db_only st1 st2 -> live_link st2 p) as Hlive.
  { intros st2 ->. exists (set_inter (Some i) l), i. simpl. by rewrite lookup_insert_eq. }
  pose proof (find_own_edge (db st1) me t a (ei_wf _ _ _ _ Hinv1) Ht) as Hf.
  wp_step. apply (wp_mono _ (fun e st2 => db_only st1 st2 /\ edges_inv me st0 (k + 1) st2 /\
    (exists x, own_edge (db st2) me e x /\ aeq (T_dest_addr x) a) /\
    forall b, ~ aeq b a -> hop_ok me b (db st1) -> hop_ok me b (db st2))).
  { destruct (kt_find (edge_tree t) a) as [e|] eqn:Ek.
    - destruct Hf as (x & Hx & Ha). pose proof Hx as [Hx' Hm].
      unfold olsr_copylq_link_entry_2_tc_edge_entry. wp_step. wp_step. eapply wp_get_link; [apply lookup_insert_eq|].
      eapply wp_upd_edge; [exact Hx'|]. set (f1 := set_edge_linkquality _).
      destruct (ei_edge_data k st1 e x f1 Hinv1 Hx' eq_refl eq_refl) as [H1 H2]; [exact (ei_costs _ _ _ _ Hinv1 e x Hx')|].
      apply (ei_weaken _ (k + 1)) in H1; [|lia].
      wp_step. eapply wp_calc_etx; [apply lookup_insert_eq|]. wp_step. destruct (1 <=? lq_level).
      + destruct (ei_edge_data (k + 1) _ e (f1 x) (set_edge_cost (calc_tc_cost (edge_linkquality (f1 x)))) H1) as [H3 H4];
          [apply lookup_insert_eq|done|done|apply tc_cost_range|]. split; [done|]. split; [exact H3|].
        split; [|intros b _ Hb; by apply H4, H2]. eexists. split; [split; [apply lookup_insert_eq|done]|done].
      + split; [done|]. split; [exact H1|]. split; [|by intros b _; apply H2].
        eexists. split; [split; [apply lookup_insert_eq|done]|done].
    - eapply wp_mono; [apply (wp_add_edge me t); [apply Hinv1|exact Ht| |]|].
      + exact Ek.
      + pose proof (degree_le _ _ _ (ei_wf _ _ _ _ Hinv1) Ht). pose proof (ei_size _ _ _ _ Hinv1).
        rewrite (ei_rtps _ _ _ _ Hinv1) in *. lia.
      + intros e st2 [Hadd ->]. split; [done|]. destruct (ei_added k st1 a e _ Hinv1 Hadd Hf) as (H1 & H2 & x & Hx & Ea); [by exists q, n|].
        split; [done|]. split; [|done]. exists x. split; [done|]. by rewrite Ea. }
  cbv beta. intros e st2 (Hdb & Hinv2 & (x & Hx & Ha) & Hkeep). wp_step. eapply wp_get_edge; [apply Hx|].
  eapply wp_mono; [eapply (wp_set_hop (k + 1) st2 e x p q n); try done; by apply Hlive|].
  cbv beta. intros _ st3 (H1 & H2 & H3). split; [done|]. split; [done|]. intros b Hb.
  destruct (decide (aeq b a)) as [E|E]; [by eapply hop_ok_aeq|]. by apply H3, Hkeep.
Qed.

(** One neighbour. *)
Lemma wp_update_nbr_edge k st q n :
  edges_inv me st0 k st -> net_wf st0 -> links_up st0 -> nbrs st0 !! q = Some n -> is_Some (tcs (db st0) !! me) ->
  Z.of_nat (size (edges (db st0))) + Z.of_nat (size (rtps (db st0))) + k + 2 < 4294967296 ->
  wp (update_nbr_edge me q) (fun _ st' => edges_inv me st0 (k + 1) st' /\ hop_ok me (neighbor_main_addr n) (db st') /\
    forall b, hop_ok me b (db st) -> hop_ok me b (db st')) st.
Proof.
  intros Hinv Hnet0 Hup Hq [t0 Ht0] Hsize. pose proof (ei_frame _ _ _ _ Hinv) as Hfr.
  pose proof (calc_frame_net _ _ Hfr Hnet0) as Hnet. destruct (calc_frame_tables _ _ Hfr) as (En & _).
  destruct (calc_lookup (eq_sym (ei_tcs _ _ _ _ Hinv)) Ht0) as (t & Ht & _). set (a := neighbor_main_addr n).
  assert (wp (flush_edge (kt_find (edge_tree t) a)) (fun _ st' => edges_inv me st0 (k + 1) st' /\ hop_ok me a (db st') /\
    forall b, hop_ok me b (db st) -> hop_ok me b (db st')) st) as Hflush.
  { apply (wp_flush_edge (k + 1)); [|done]. eapply ei_weaken; [|exact Hinv]. lia. }
  unfold update_nbr_edge. wp_step. eapply (wp_gets_opt (fun st => nbrs st !! q)); [by rewrite En|].
  unfold olsr_lookup_tc_edge. wp_step. wp_step. eapply wp_get_tc; [exact Ht|]. wp_step. fold a.
  destruct (negb (status n =? SYM)) eqn:Es; [exact Hflush|]. bool_hyps.
  destruct (find_best_link_ok st a Hnet) as (r & Hr & Hlo). unfold get_best_link_to_neighbor.
  wp_step. eapply (wp_gets_opt (fun st => find_best_link st a)); [exact Hr|]. destruct r as [p|]; [|exact Hflush].
  destruct (Hlo p eq_refl) as (l & [Hl _]). unfold lookup_link_status. wp_step. wp_step. eapply wp_get_link; [exact Hl|].
  wp_step. destruct (_ =? LOST_LINK); [exact Hflush|]. rewrite (find_best_link_frame _ _ Hfr) in Hr.
  by eapply wp_set_nbr_edge.
Qed.

(** All neighbours. *)
Lemma wp_update_nbr_edges st :
  edges_inv me st0 0 st -> net_wf st0 -> links_up st0 -> is_Some (tcs (db st0) !! me) ->
  Z.of_nat (size (edges (db st0))) + Z.of_nat (size (rtps (db st0))) + Z.of_nat (length (all_elems (neighbortable st0))) + 2 < 4294967296 ->
  wp (forM_ (all_elems (neighbortable st0)) (update_nbr_edge me)) (fun _ st' =>
    edges_inv me st0 (Z.of_nat (length (all_elems (neighbortable st0)))) st' /\
    forall q n, nbrs st0 !! q = Some n -> hop_ok me (neighbor_main_addr n) (db st')) st.
Proof.
  intros Hinv Hnet Hup Hme Hsize. set (ns := all_elems (neighbortable st0)) in *.
  pose proof (wf_nbrs _ _ (proj1 Hnet)) as Htab.
  apply (wp_forM _ _ (fun rest st' => exists l, ns = l ++ rest /\ edges_inv me st0 (Z.of_nat (length l)) st' /\
    forall q n, q ∈ l -> nbrs st0 !! q = Some n -> hop_ok me (neighbor_main_addr n) (db st'))).
  - exists []. split; [done|]. split; [done|]. by intros q n ?%not_elem_of_nil.
  - intros q rest st' (l & El & Hi & Hok). assert (is_Some (nbrs st0 !! q)) as [n Hn].
    { apply (table_alloc _ _ _ Htab). change (q ∈ ns). rewrite El. set_solver. }
    eapply wp_mono; [eapply (wp_update_nbr_edge _ _ q n Hi); try done|].
    + rewrite El, length_app in Hsize. simpl in Hsize. lia.
    + cbv beta. intros _ st2 (H1 & H2 & H3). exists (l ++ [q]). rewrite <- app_assoc, length_app. split; [done|]. simpl.
      split; [by replace (Z.of_nat (length l + 1)) with (Z.of_nat (length l) + 1) by lia|].
      intros q' n' [Hq| ->%list_elem_of_singleton]%elem_of_app Hn'; [by apply H3, (Hok q')|]. by replace n' with n by congruence.
  - intros st' (l & El & Hi & Hok). rewrite app_nil_r in El. subst l. split; [done|]. intros q n Hq. apply (Hok q); [|done].
    apply (table_alloc _ _ _ Htab). by eexists.
Qed.

End steps.

End calc_proofs.

Section calc_routes.
Context {cnf : olsrd_config} {lqh : lq_handler} {laws : lq_laws lqh} {krn : kernel_routes}.

(** ** Resetting the labels *)

Lemma set_tcs_id st : set_db (set_tcs (tcs (db st)) (db st)) st = st.
Proof. by destruct_state st. Qed.

Lemma wp_init_vertices st :
  lsdb_wf (db st) ->
  wp init_vertices (fun _ st' => st' = set_db (set_tcs (reset_label <$> tcs (db st)) (db st)) st) st.
Proof.
  intros Hwf. unfold init_vertices, OLSR_FOR_ALL_TC_ENTRIES. repeat wp_step. set (ts := map fst (kt_walk (tc_tree (db st)))).
  assert (forall p, p ∈ ts <-> is_Some (tcs (db st) !! p)) as Hin.
  { intros p. unfold ts. rewrite (tree_ptrs (kt_wf := awf) _ _ p (dw_tcs _ Hwf)). unfold vertex, is_Some. naive_solver. }
  apply (wp_forM _ _ (fun rest st' => exists l m, ts = l ++ rest /\ st' = set_db (set_tcs m (db st)) st /\
    forall p, m !! p = (if decide (p ∈ l) then reset_label else id) <$> tcs (db st) !! p)).
  - exists [], (tcs (db st)). split; [done|]. split; [by rewrite set_tcs_id|]. intros p. rewrite decide_False by apply not_elem_of_nil.
    by destruct (tcs (db st) !! p).
  - intros p rest st' (l & m & El & -> & Hm). destruct (proj1 (Hin p)) as [t Ht]; [rewrite El; set_solver|].
    specialize (Hm p) as Hp. rewrite Ht in Hp. simpl in Hp.
    eapply wp_upd_tc; [simpl; exact Hp|]. exists (l ++ [p]). eexists. rewrite <- app_assoc. split; [done|]. split; [done|].
    intros q. destruct (decide (q = p)) as [->|Hn].
    + simpl. rewrite lookup_insert_eq, Ht, (decide_True (P := p ∈ l ++ [p])) by (apply elem_of_app; right; left). simpl. by destruct (decide (p ∈ l)).
    + simpl. rewrite lookup_insert_ne by done. rewrite Hm. f_equal. destruct (decide (q ∈ l)).
      * by rewrite (decide_True (P := q ∈ l ++ [p])) by (apply elem_of_app; by left).
      * by rewrite (decide_False (P := q ∈ l ++ [p])) by (by intros [?| ->%list_elem_of_singleton]%elem_of_app).
  - intros st' (l & m & El & -> & Hm). rewrite app_nil_r in El. subst l. do 2 f_equal. apply map_eq. intros p.
    rewrite Hm, lookup_fmap. destruct (tcs (db st) !! p) as [t|] eqn:Ht; [|done]. rewrite decide_True; [done|]. apply Hin. by eexists.
Qed.

(** ** One path *)

(** The path [x'] leads to the vertex [t] over the live link [lk]. *)
Definition placed (t : tc_entry) (lk : link_entry) (i : interface_olsr) (version : Z) (x' : rt_path) : Prop :=
  is_Some (rtp_rt x') /\ rtp_version x' = version /\
  rtp_nexthop x' = {| gateway := neighbor_iface_addr lk; iif_index := if_index i |} /\
  rtp_metric x' = {| metric_cost := path_cost t; metric_hops := tc_hops t |}.

Lemma wp_place_path p x tc t link lk i st :
  lsdb_wf (db st) -> rtps (db st) !! p = Some x -> rtp_tc x = Some tc -> tcs (db st) !! tc = Some t ->
  path_cost t < ROUTE_COST_BROKEN -> links st !! link = Some lk -> inter lk = Some i -> prefix_len (rtp_dst x) <= maxplen ->
  wp (match rtp_rt x with
      | Some _ => olsr_update_rt_path p tc link
      | None => olsr_insert_rt_path p tc link
      end) (fun _ st' => st' = set_db (db st') st /\ lsdb_wf (db st') /\ same_graph (db st) (db st') /\
    exists x', rtps (db st') = <[p := x']> (rtps (db st)) /\ rtp_tc x' = rtp_tc x /\ rtp_dst x' = rtp_dst x /\
      placed t lk i (routingtree_version (db st)) x') st.
Proof.
  intros Hwf Hx Htc Ht Hc Hl Hi Hlen. destruct (rtp_rt x) as [r|] eqn:Hr.
  - unfold olsr_update_rt_path. wp_step. wp_step. wp_step. eapply wp_get_link; [exact Hl|].
    wp_step. eapply (wp_gets_opt (fun _ => inter lk)); [exact Hi|]. wp_step. eapply wp_get_tc; [exact Ht|].
    eapply wp_upd_rtp; [exact Hx|]. split; [done|]. split; [by eapply path_data_wf|].
    split; [split_and!; try done; intros q z Hq; by exists z|]. eexists. split; [done|]. split; [done|]. split; [done|].
    split_and!; try done.
  - eapply wp_mono; [by eapply (wp_insert_rt_path p x tc t link lk i)|]. cbv beta. intros _ st' [H1 H2].
    destruct (path_cost t >=? ROUTE_COST_BROKEN) eqn:E; bool_hyps; [lia|].
    destruct H2 as (q & x' & y & A1 & A2 & A3 & A4 & A5 & A6 & A7 & A8 & A9 & A10 & A11 & A12 & A13).
    split; [done|]. split; [done|]. split; [done|]. exists x'. split_and!; try done.
Qed.

(** ** All paths of the reachable vertices *)

(** The routes after the paths [S] have been placed. *)
Record inserted (S : list positive) (st0 st : olsr_state) : Prop := {
  in_db : st = set_db (db st) st0;
  in_wf : lsdb_wf (db st);
  in_graph : same_graph (db st0) (db st);
  in_path p x' : rtps (db st) !! p = Some x' -> exists x, rtps (db st0) !! p = Some x /\ rtp_tc x' = rtp_tc x /\
    rtp_dst x' = rtp_dst x /\ (p ∉ S -> x' = x) /\
    (p ∈ S -> exists tc t l lk i, rtp_tc x = Some tc /\ tcs (db st0) !! tc = Some t /\ next_hop t = Some l /\
      links st0 !! l = Some lk /\ inter lk = Some i /\ i ∈ ifnet st0 /\ placed t lk i (routingtree_version (db st0)) x');
  in_dom p : is_Some (rtps (db st) !! p) <-> is_Some (rtps (db st0) !! p);
}.

Lemma inserted_refl st : lsdb_wf (db st) -> inserted [] st st.
Proof.
  intros Hwf. split; try done; [by destruct st|split_and!; try done; intros q z Hq; by exists z|].
  intros p x Hx. exists x. split_and!; try done. by intros ?%not_elem_of_nil.
Qed.

Lemma same_graph_trans d1 d2 d3 : same_graph d1 d2 -> same_graph d2 d3 -> same_graph d1 d3.
Proof.
  intros (A1 & A2 & A3 & A4 & A5 & A6 & A7) (B1 & B2 & B3 & B4 & B5 & B6 & B7). split_and!; try congruence.
  intros q z Hq. destruct (A7 q z Hq) as (z1 & H1 & E1). destruct (B7 q z1 H1) as (z2 & H2 & E2). exists z2. split; congruence.
Qed.

Lemma wp_insert_one S st0 st p x tc t l lk i :
  inserted S st0 st -> rtps (db st0) !! p = Some x -> rtp_tc x = Some tc -> tcs (db st0) !! tc = Some t ->
  path_cost t < ROUTE_COST_BROKEN -> next_hop t = Some l -> links st0 !! l = Some lk -> inter lk = Some i -> i ∈ ifnet st0 ->
  prefix_len (rtp_dst x) <= maxplen ->
  wp (let* x := get_rtp p in
      match rtp_rt x with
      | Some _ => olsr_update_rt_path p tc l
      | None => olsr_insert_rt_path p tc l
      end) (fun _ => inserted (p :: S) st0) st.
Proof.
  intros [I1 I2 I3 I4 I5] Hx Htc Ht Hc Hh Hl Hi Hif Hlen. pose proof I3 as (G1 & G2 & G3 & G4 & G5 & G6 & G7).
  destruct (proj2 (I5 p)) as [x1 Hx1]; [by eexists|]. destruct (I4 p x1 Hx1) as (x0 & Hx0 & E1 & E2 & _).
  assert (x0 = x) as -> by congruence. wp_step. eapply wp_get_rtp; [exact Hx1|].
  eapply wp_mono; [eapply (wp_place_path p x1 tc t l lk i)|]; try congruence.
  - by rewrite I1.
  - cbv beta. intros _ st' (H1 & H2 & H3 & x' & H4 & H5 & H6 & H7). split; try done.
    + by rewrite H1, I1.
    + by eapply same_graph_trans.
    + intros q z. rewrite H4. intros [[<- <-]|[Hn Hz]]%lookup_insert_Some.
      * exists x. split; [done|]. split; [congruence|]. split; [congruence|]. split; [intros Hp; destruct Hp; left|].
        intros _. exists tc, t, l, lk, i. split_and!; try done; rewrite <- G5; apply H7.
      * destruct (I4 q z Hz) as (z0 & Hz0 & F1 & F2 & F3 & F4). exists z0. split_and!; try done.
        -- intros Hq. apply F3. intros Hs. apply Hq. by right.
        -- intros [->|Hs]%elem_of_cons; [done|by apply F4].
    + intros q. rewrite H4, lookup_insert_is_Some', I5. split; [intros [<-|?]; [by eexists|done]|by right].
Qed.

Definition prefixes_short (d : lsdb) : Prop := forall p x, rtps d !! p = Some x -> prefix_len (rtp_dst x) <= maxplen.

(** The prefixes of a vertex. *)
Lemma prefix_list d tc t : lsdb_wf d -> tcs d !! tc = Some t ->
  forall p, p ∈ map fst (kt_walk (prefix_tree t)) <-> exists x, rtps d !! p = Some x /\ rtp_tc x = Some tc.
Proof.
  intros Hwf Ht p. rewrite (tree_ptrs (kt_wf := pwf) _ _ p (dw_paths _ Hwf _ _ Ht)). unfold path_of. naive_solver.
Qed.

Lemma wp_insert_reachable S st0 st tc t :
  lsdb_wf (db st0) -> inserted S st0 st -> tcs (db st0) !! tc = Some t -> prefixes_short (db st0) ->
  path_cost t < ROUTE_COST_BROKEN -> (forall l, next_hop t = Some l -> live_link st0 l) ->
  wp (insert_reachable tc) (fun _ st' => exists S', inserted (S' ++ S) st0 st' /\
    forall p, p ∈ S' <-> is_Some (next_hop t) /\ exists x, rtps (db st0) !! p = Some x /\ rtp_tc x = Some tc) st.
Proof.
  intros Hwf Hin Ht Hlen Hc Hlive. pose proof (in_graph _ _ _ Hin) as (G1 & _). unfold insert_reachable.
  wp_step. eapply wp_get_tc; [by rewrite G1|]. destruct (next_hop t) as [l|] eqn:Hh.
  2:{ wp_step. exists []. split; [done|]. intros p. split; [by intros ?%not_elem_of_nil|]. by intros [[? ?] _]. }
  destruct (Hlive l eq_refl) as (lk & i & Hl & Hi & Hif). unfold OLSR_FOR_ALL_PREFIX_ENTRIES.
  wp_step. wp_step. eapply wp_get_tc; [by rewrite G1|]. wp_step. pose proof (prefix_list _ _ _ Hwf Ht) as Hps.
  set (ps := map fst (kt_walk (prefix_tree t))) in *.
  apply (wp_forM _ _ (fun rest st' => exists S', (forall p, p ∈ ps <-> p ∈ S' \/ p ∈ rest) /\ inserted (S' ++ S) st0 st')).
  - exists []. split; [|done]. intros p. split; [by right|]. by intros [?%not_elem_of_nil|].
  - intros p rest st' (S' & HS & Hin'). destruct (proj1 (Hps p)) as (x & Hx & Htc); [apply HS; right; left|].
    eapply wp_mono; [by eapply (wp_insert_one (S' ++ S) st0 st' p x tc t l lk i); try done; eapply Hlen|].
    cbv beta. intros _ st2 H2. exists (p :: S'). split; [|done]. intros q. rewrite HS, !elem_of_cons. tauto.
  - intros st' (S' & HS & Hin'). exists S'. split; [done|]. intros p. rewrite <- Hps, HS. split.
    + intros ?. split; [by eexists|by left].
    + by intros [_ [?|?%not_elem_of_nil]].
Qed.

(** The loop over the path list [F]. *)
Lemma wp_insert_all F st :
  lsdb_wf (db st) -> prefixes_short (db st) ->
  (forall tc, tc ∈ F -> exists t, tcs (db st) !! tc = Some t /\ path_cost t < ROUTE_COST_BROKEN /\
    forall l, next_hop t = Some l -> live_link st l) ->
  wp (forM_ F insert_reachable) (fun _ st' => exists S, inserted S st st' /\
    forall p, p ∈ S <-> exists x tc, rtps (db st) !! p = Some x /\ rtp_tc x = Some tc /\ tc ∈ F /\ is_Some (hop (db st) tc)) st.
Proof.
  intros Hwf Hlen HF.
  apply (wp_forM _ _ (fun rest st' => exists l S, F = l ++ rest /\ inserted S st st' /\
    forall p, p ∈ S <-> exists x tc, rtps (db st) !! p = Some x /\ rtp_tc x = Some tc /\ tc ∈ l /\ is_Some (hop (db st) tc))).
  - exists [], []. split; [done|]. split; [by apply inserted_refl|]. intros p. split; [by intros ?%not_elem_of_nil|].
    by intros (x & tc & _ & _ & ?%not_elem_of_nil & _).
  - intros tc rest st' (l & S & El & Hin & HS). destruct (HF tc) as (t & Ht & Hc & Hlive); [rewrite El; set_solver|].
    eapply wp_mono; [by eapply (wp_insert_reachable S st st' tc t)|]. cbv beta. intros _ st2 (S' & Hin2 & HS').
    exists (l ++ [tc]), (S' ++ S). rewrite <- app_assoc. split; [done|]. split; [done|]. intros p.
    rewrite elem_of_app, HS', HS. setoid_rewrite elem_of_app. setoid_rewrite list_elem_of_singleton.
    assert (hop (db st) tc = next_hop t) as Hh by (unfold hop; by rewrite Ht). split.
    + intros [(Hs & x & Hx & Htc)|(x & tc' & Hx & Htc & Hl & Hs)]; [exists x, tc|exists x, tc']; split_and!; try done.
      * by right.
      * by rewrite Hh.
      * by left.
    + intros (x & tc' & Hx & Htc & [Hl| ->] & Hs); [right; by exists x, tc'|]. left. rewrite <- Hh. split; [done|]. by exists x.
  - intros st' (l & S & El & Hin & HS). rewrite app_nil_r in El. subst l. by exists S.
Qed.

End calc_routes.
