(* ===== verification/LqFpm.v ===== *)
(** * lq_plugin_default_fpm.c, lq_plugin_default_float.c: ETX as a moving average

    etx_fpm is an implementation of the link metric interface [lq_handler] in integer
    arithmetic: the link quality is a byte, a moving average of the HELLO messages that
    arrived. etx_float is the same with binary32 numbers, as operations on its own data. *)

From S2P Require Import Prelude Timer Avl IpAddr State NeighTable LsdbOps RouteTable Packet Lq LinkSet.
From Stdlib Require Import SpecFloat.

(** ** The data *)

Record default_lq_fpm := { valueLq : Z; valueNlq : Z; quickstart : Z }.

(** The interface keeps the data of a handler as a list. *)
Definition lq_fpm_data (q : default_lq_fpm) : list Z := [valueLq q; valueNlq q; quickstart q].
Definition lq_fpm_of (l : list Z) : default_lq_fpm :=
  {| valueLq := nth 0 l 0; valueNlq := nth 1 l 0; quickstart := nth 2 l 0 |}.

Lemma lq_fpm_of_data q : lq_fpm_of (lq_fpm_data q) = q.
Proof. by destruct q. Qed.

Definition LQ_FPM_INTERNAL_MULTIPLIER : Z := 65535.
Definition LQ_FPM_LINKCOST_MULTIPLIER : Z := 65535.
Definition LQ_QUICKSTART_STEPS : Z := 12.

(** [(unsigned int)(255 * MINIMAL_USEFUL_LQ)] *)
Definition useful_byte : Z := 25.

(** ** The aging factors *)

Record aging := {
  aging_factor_new : Z; aging_factor_old : Z;
  aging_quickstart_new : Z; aging_quickstart_old : Z
}.

(** [lq_aging] is the float of the configuration; [LQ_QUICKSTART_AGING] is the double
    0.25. *)
Definition default_lq_initialize_fpm (lq_aging : spec_float) : option aging :=
  n ← u32_of_float (SFmul 24 128 lq_aging (float_of_u32 LQ_FPM_INTERNAL_MULTIPLIER));
  q ← u32_of_float (SFmul 53 1024 (S754_finite false 4503599627370496 (-54)) (binary_normalize 53 1024 LQ_FPM_INTERNAL_MULTIPLIER 0 false));
  Some {| aging_factor_new := n; aging_factor_old := u32 (LQ_FPM_INTERNAL_MULTIPLIER - n);
          aging_quickstart_new := q; aging_quickstart_old := u32 (LQ_FPM_INTERNAL_MULTIPLIER - q) |}.

(** ** Operations *)

Definition default_lq_calc_cost_fpm (lq : default_lq_fpm) : Z :=
  if (valueLq lq <? useful_byte) || (valueNlq lq <? useful_byte) then LINK_COST_BROKEN
  else
    let cost := u32 (LQ_FPM_LINKCOST_MULTIPLIER * 255 / valueLq lq * 255 / valueNlq lq) in
    if LINK_COST_BROKEN <=? cost then LINK_COST_BROKEN
    else if cost =? 0 then 1 else cost.

Definition default_lq_serialize_hello_lq_pair_fpm (lq : default_lq_fpm) : list Z :=
  [u8 (valueLq lq); u8 (valueNlq lq); 0; 0].

Definition default_lq_deserialize_hello_lq_pair_fpm (lq : default_lq_fpm) (curr : list Z) : option (default_lq_fpm * list Z) :=
  '(a, curr) ← pkt_get_u8 curr;
  '(b, curr) ← pkt_get_u8 curr;
  Some ({| valueLq := a; valueNlq := b; quickstart := quickstart lq |}, pkt_ignore_u16 curr).

Definition default_lq_serialize_tc_lq_pair_fpm (lq : default_lq_fpm) : list Z :=
  [u8 (valueLq lq); u8 (valueNlq lq); 0; 0].

Definition default_lq_deserialize_tc_lq_pair_fpm (lq : default_lq_fpm) (curr : list Z) : option (default_lq_fpm * list Z) :=
  '(a, curr) ← pkt_get_u8 curr;
  '(b, curr) ← pkt_get_u8 curr;
  Some ({| valueLq := a; valueNlq := b; quickstart := quickstart lq |}, pkt_ignore_u16 curr).

(** The moving average in 32-bit arithmetic. *)
Definition average (value alpha_old alpha_new mult : Z) (lost : bool) : Z :=
  let value := u32 (value * LQ_FPM_INTERNAL_MULTIPLIER) / 255 in
  let value := u32 (value * alpha_old + LQ_FPM_INTERNAL_MULTIPLIER - 1) / LQ_FPM_INTERNAL_MULTIPLIER in
  let value :=
    if lost then value
    else u32 (value + u32 (alpha_new * mult + LINK_LOSS_MULTIPLIER - 1) / LINK_LOSS_MULTIPLIER) in
  u8 (u32 (value * 255 + LQ_FPM_INTERNAL_MULTIPLIER - 1) / LQ_FPM_INTERNAL_MULTIPLIER).

(** The new data and the new cost of the link. *)
Definition default_lq_packet_loss_worker_fpm (ag : aging) (mult : Z) (tlq : default_lq_fpm) (lost : bool) : default_lq_fpm * Z :=
  let quick := quickstart tlq <? LQ_QUICKSTART_STEPS in
  let alpha_new := if quick then aging_quickstart_new ag else aging_factor_new ag in
  let alpha_old := if quick then aging_quickstart_old ag else aging_factor_old ag in
  let tlq' := {| valueLq := average (valueLq tlq) alpha_old alpha_new mult lost; valueNlq := valueNlq tlq;
                 quickstart := if quick then u16 (quickstart tlq + 1) else quickstart tlq |} in
  (tlq', default_lq_calc_cost_fpm tlq').

Definition default_lq_memorize_foreign_hello_fpm (local : default_lq_fpm) (foreign : option default_lq_fpm) : default_lq_fpm :=
  {| valueLq := valueLq local; valueNlq := match foreign with Some f => valueLq f | None => 0 end;
     quickstart := quickstart local |}.

Definition default_lq_copy_link2tc_fpm (source : default_lq_fpm) : default_lq_fpm := source.
Definition default_lq_clear_fpm : default_lq_fpm := {| valueLq := 0; valueNlq := 0; quickstart := 0 |}.

(** The handler. *)
Definition lq_etx_fpm_handler (ag : aging) : lq_handler :=
  {| calc_hello_cost := fun l => default_lq_calc_cost_fpm (lq_fpm_of l);
     calc_tc_cost := fun l => default_lq_calc_cost_fpm (lq_fpm_of l);
     packet_loss_handler := fun link lost =>
       let '(q, c) := default_lq_packet_loss_worker_fpm ag (loss_link_multiplier link) (lq_fpm_of (linkquality link)) lost in
       (lq_fpm_data q, c);
     packet_loss_relevant := true;
     memorize_foreign_hello := fun l f => lq_fpm_data (default_lq_memorize_foreign_hello_fpm (lq_fpm_of l) (lq_fpm_of <$> f));
     copy_link_lq_into_neigh := fun l => lq_fpm_data (default_lq_copy_link2tc_fpm (lq_fpm_of l));
     copy_link_lq_into_tc := fun l => lq_fpm_data (default_lq_copy_link2tc_fpm (lq_fpm_of l));
     zero_hello_lq := lq_fpm_data default_lq_clear_fpm;
     zero_tc_lq := lq_fpm_data default_lq_clear_fpm;
     serialize_hello_lq := fun l => default_lq_serialize_hello_lq_pair_fpm (lq_fpm_of l);
     serialize_tc_lq := fun l => default_lq_serialize_tc_lq_pair_fpm (lq_fpm_of l);
     deserialize_hello_lq := fun l curr =>
       '(q, curr) ← default_lq_deserialize_hello_lq_pair_fpm (lq_fpm_of l) curr; Some (lq_fpm_data q, curr);
     deserialize_tc_lq := fun l curr =>
       '(q, curr) ← default_lq_deserialize_tc_lq_pair_fpm (lq_fpm_of l) curr; Some (lq_fpm_data q, curr);
     hello_lqdata_size := 4; tc_lqdata_size := 4 |}.

#[export] Instance lq_etx_fpm_sizes ag : lq_sizes (lq_etx_fpm_handler ag).
Proof. split; intros lq; reflexivity. Qed.

(** ** The interface's law *)

Definition fpm_wf (q : default_lq_fpm) : Prop := is_u8 (valueLq q) /\ is_u8 (valueNlq q) /\ is_u16 (quickstart q).

Lemma fpm_cost_range q : 0 < default_lq_calc_cost_fpm q <= LINK_COST_BROKEN.
Proof.
  unfold default_lq_calc_cost_fpm, LINK_COST_BROKEN. set (c := u32 _).
  assert (0 <= c) by (unfold c, u32; apply Z.mod_pos_bound; lia).
  repeat case_match; bool_hyps; lia.
Qed.

#[export] Instance fpm_laws ag : lq_laws (lq_etx_fpm_handler ag).
Proof. split. intros lq. simpl. pose proof (fpm_cost_range (lq_fpm_of lq)). lia. Qed.

(** ** The moving average *)

(** Both factors are shares of the multiplier. *)
Record aging_ok (ag : aging) : Prop := {
  ag_new : 0 <= aging_factor_new ag <= LQ_FPM_INTERNAL_MULTIPLIER;
  ag_old : aging_factor_old ag = LQ_FPM_INTERNAL_MULTIPLIER - aging_factor_new ag;
  ag_quick_new : 0 <= aging_quickstart_new ag <= LQ_FPM_INTERNAL_MULTIPLIER;
  ag_quick_old : aging_quickstart_old ag = LQ_FPM_INTERNAL_MULTIPLIER - aging_quickstart_new ag;
}.

(** The average over the integers, rounded up. *)
Definition ceil_div (a b : Z) : Z := (a + b - 1) / b.
Definition average_spec (value alpha_old alpha_new mult : Z) (lost : bool) : Z :=
  let old := ceil_div (value * 257 * alpha_old) LQ_FPM_INTERNAL_MULTIPLIER in
  let gain := if lost then 0 else ceil_div (alpha_new * mult) LINK_LOSS_MULTIPLIER in
  ceil_div ((old + gain) * 255) LQ_FPM_INTERNAL_MULTIPLIER.

Lemma ceil_div_le a b c : 0 < b -> a <= c * b -> ceil_div a b <= c.
Proof. intros Hb H. unfold ceil_div. apply Z.lt_succ_r, Z.div_lt_upper_bound; lia. Qed.

Lemma ceil_div_nonneg a b : 0 < b -> 0 <= a -> 0 <= ceil_div a b.
Proof. intros Hb H. unfold ceil_div. apply Z.div_pos; lia. Qed.

(** The 32-bit arithmetic is exact, and the result is a byte. *)
Lemma average_exact v alpha mult lost :
  is_u8 v -> 0 <= alpha <= LQ_FPM_INTERNAL_MULTIPLIER -> 0 <= mult <= LINK_LOSS_MULTIPLIER ->
  average v (LQ_FPM_INTERNAL_MULTIPLIER - alpha) alpha mult lost =
    average_spec v (LQ_FPM_INTERNAL_MULTIPLIER - alpha) alpha mult lost /\
  0 <= average_spec v (LQ_FPM_INTERNAL_MULTIPLIER - alpha) alpha mult lost <= 255.
Proof.
  unfold is_u8, LQ_FPM_INTERNAL_MULTIPLIER, LINK_LOSS_MULTIPLIER. intros Hv Ha Hm. unfold average, average_spec.
  rewrite (u32_id (v * _)) by (unfold is_u32, LQ_FPM_INTERNAL_MULTIPLIER; lia).
  assert (v * LQ_FPM_INTERNAL_MULTIPLIER / 255 = v * 257) as ->.
  { unfold LQ_FPM_INTERNAL_MULTIPLIER. replace (v * 65535) with (v * 257 * 255) by lia. by rewrite Z.div_mul. }
  rewrite (u32_id (v * 257 * _ + _ - 1)) by (unfold is_u32, LQ_FPM_INTERNAL_MULTIPLIER; nia).
  fold (ceil_div (v * 257 * (65535 - alpha)) LQ_FPM_INTERNAL_MULTIPLIER). set (old := ceil_div (v * 257 * _) _).
  assert (0 <= old <= 65535 - alpha) as Ho.
  { unfold old, LQ_FPM_INTERNAL_MULTIPLIER. split; [apply ceil_div_nonneg; nia|apply ceil_div_le; nia]. }
  rewrite (u32_id (alpha * mult + _ - 1)) by (unfold is_u32, LINK_LOSS_MULTIPLIER; nia).
  fold (ceil_div (alpha * mult) LINK_LOSS_MULTIPLIER). set (gain := ceil_div (alpha * mult) _).
  assert (0 <= gain <= alpha) as Hg.
  { unfold gain, LINK_LOSS_MULTIPLIER. split; [apply ceil_div_nonneg; nia|apply ceil_div_le; nia]. }
  assert (forall x, 0 <= x <= 65535 -> u8 (u32 (x * 255 + LQ_FPM_INTERNAL_MULTIPLIER - 1) / LQ_FPM_INTERNAL_MULTIPLIER) =
    ceil_div (x * 255) LQ_FPM_INTERNAL_MULTIPLIER /\ 0 <= ceil_div (x * 255) LQ_FPM_INTERNAL_MULTIPLIER <= 255) as Hfin.
  { intros x Hx. rewrite u32_id by (unfold is_u32, LQ_FPM_INTERNAL_MULTIPLIER; lia).
    fold (ceil_div (x * 255) LQ_FPM_INTERNAL_MULTIPLIER). assert (0 <= ceil_div (x * 255) LQ_FPM_INTERNAL_MULTIPLIER <= 255).
    { unfold LQ_FPM_INTERNAL_MULTIPLIER. split; [apply ceil_div_nonneg; lia|apply ceil_div_le; lia]. }
    split; [|done]. apply u8_id. unfold is_u8. lia. }
  clearbody old gain. destruct lost; [rewrite Z.add_0_r; apply Hfin; lia|].
  rewrite (u32_id (old + gain)) by (unfold is_u32; lia). apply Hfin. lia.
Qed.

Lemma ceil_div_mono a a' b : 0 < b -> a <= a' -> ceil_div a b <= ceil_div a' b.
Proof. intros Hb H. unfold ceil_div. apply Z.div_le_mono; lia. Qed.

Lemma average_mono v v' old old' new new' mult :
  0 <= v <= v' -> 0 <= old <= old' -> average_spec v old new mult true <= average_spec v' old' new' mult true.
Proof.
  intros Hv Ho. unfold average_spec, LQ_FPM_INTERNAL_MULTIPLIER. rewrite !Z.add_0_r. apply ceil_div_mono; [lia|].
  apply Z.mul_le_mono_nonneg_r; [lia|]. apply ceil_div_mono; [lia|]. apply Z.mul_le_mono_nonneg; lia.
Qed.

Section worker.
Context (ag : aging) (mult : Z).
Hypothesis Hag : aging_ok ag.
Hypothesis Hmult : 0 <= mult <= LINK_LOSS_MULTIPLIER.

Notation worker := (default_lq_packet_loss_worker_fpm ag mult).

Definition alpha_of (q : default_lq_fpm) : Z :=
  if quickstart q <? LQ_QUICKSTART_STEPS then aging_quickstart_new ag else aging_factor_new ag.

Lemma worker_value q lost : fpm_wf q ->
  valueLq (fst (worker q lost)) =
    average_spec (valueLq q) (LQ_FPM_INTERNAL_MULTIPLIER - alpha_of q) (alpha_of q) mult lost /\
  fpm_wf (fst (worker q lost)).
Proof.
  intros (Hv & Hn & Hq). unfold worker, alpha_of, fpm_wf. simpl.
  assert (forall a o, 0 <= a <= LQ_FPM_INTERNAL_MULTIPLIER -> o = LQ_FPM_INTERNAL_MULTIPLIER - a ->
    average (valueLq q) o a mult lost = average_spec (valueLq q) (LQ_FPM_INTERNAL_MULTIPLIER - a) a mult lost /\
    is_u8 (average (valueLq q) o a mult lost)) as H.
  { intros a o Ha ->. destruct (average_exact (valueLq q) a mult lost Hv Ha Hmult) as [-> ?]. split; [done|]. unfold is_u8. lia. }
  destruct (quickstart q <? LQ_QUICKSTART_STEPS) eqn:E.
  - destruct (H _ _ (ag_quick_new _ Hag) (ag_quick_old _ Hag)) as [? ?]. split_and!; try done.
    rewrite u16_id; unfold is_u16, LQ_QUICKSTART_STEPS in *; bool_hyps; lia.
  - destruct (H _ _ (ag_new _ Hag) (ag_old _ Hag)) as [? ?]. by split_and!.
Qed.

(** [n] HELLO messages in a row are lost. *)
Definition lose (n : nat) (q : default_lq_fpm) : default_lq_fpm := Nat.iter n (fun q => fst (worker q true)) q.

Lemma lose_wf n q : fpm_wf q -> fpm_wf (lose n q).
Proof. intros H. induction n as [|n IH]; [done|]. exact (proj2 (worker_value _ true IH)). Qed.

Lemma lose_S n q : lose (S n) q = fst (worker (lose n q) true).
Proof. done. Qed.

Definition slow (v : Z) : Z :=
  average_spec v (LQ_FPM_INTERNAL_MULTIPLIER - aging_factor_new ag) (aging_factor_new ag) mult true.

Lemma slow_mono v v' : 0 <= v <= v' -> slow v <= slow v'.
Proof. intros H. apply average_mono; [done|]. pose proof (ag_new _ Hag). lia. Qed.

Lemma slow_nonneg v : 0 <= v -> 0 <= slow v.
Proof.
  intros H. pose proof (ag_new _ Hag). unfold slow, average_spec, LQ_FPM_INTERNAL_MULTIPLIER in *. apply ceil_div_nonneg; [lia|].
  rewrite Z.add_0_r. apply Z.mul_nonneg_nonneg; [|lia]. apply ceil_div_nonneg; [lia|]. apply Z.mul_nonneg_nonneg; lia.
Qed.

Lemma slow_iter n v v' : 0 <= v <= v' -> 0 <= Nat.iter n slow v <= Nat.iter n slow v'.
Proof.
  intros H. induction n as [|n IH]; [done|]. simpl. split; [apply slow_nonneg, IH|apply slow_mono, IH].
Qed.

(** The quick start forgets faster. *)
Lemma lose_slow n q : aging_factor_new ag <= aging_quickstart_new ag -> fpm_wf q ->
  valueLq (lose n q) <= Nat.iter n slow (valueLq q).
Proof.
  intros Hle Hq. induction n as [|n IH]; [done|]. pose proof (lose_wf n q Hq) as Hwf. rewrite lose_S.
  destruct (worker_value (lose n q) true Hwf) as [-> _]. destruct Hwf as (Hv & _ & _). unfold is_u8 in Hv.
  rewrite Nat.iter_succ. transitivity (slow (valueLq (lose n q))); [|apply slow_mono; lia]. unfold slow. apply average_mono; [lia|].
  pose proof (ag_new _ Hag). pose proof (ag_quick_new _ Hag).
  assert (aging_factor_new ag <= alpha_of (lose n q) <= LQ_FPM_INTERNAL_MULTIPLIER) by (unfold alpha_of; case_match; lia). lia.
Qed.

(** After the quick start the bound is met. *)
Lemma lose_exact n q : fpm_wf q -> LQ_QUICKSTART_STEPS <= quickstart q ->
  valueLq (lose n q) = Nat.iter n slow (valueLq q) /\ valueNlq (lose n q) = valueNlq q /\ quickstart (lose n q) = quickstart q.
Proof.
  intros Hq Hs. induction n as [|n IH]; [done|]. pose proof (lose_wf n q Hq) as Hwf. rewrite lose_S.
  destruct IH as (IH1 & IH2 & IH3). destruct (quickstart (lose n q) <? LQ_QUICKSTART_STEPS) eqn:E; [bool_hyps; lia|].
  destruct (worker_value (lose n q) true Hwf) as [Hval _]. split; [|simpl; by rewrite E].
  rewrite Hval, IH1. unfold alpha_of, slow. rewrite E. done.
Qed.

End worker.

Lemma usable_cost q : 100 <= valueLq q -> useful_byte <= valueNlq q -> default_lq_calc_cost_fpm q < LINK_COST_BROKEN.
Proof.
  intros Ha Hb. unfold default_lq_calc_cost_fpm. unfold useful_byte in *. rewrite !(proj2 (Z.ltb_ge _ _)) by lia. simpl.
  set (a := valueLq q) in *. set (b := valueNlq q) in *. clearbody a b.
  unfold LQ_FPM_LINKCOST_MULTIPLIER, LINK_COST_BROKEN. assert (0 <= 65535 * 255 / a <= 167114) as Ha'.
  { split; [apply Z.div_pos; lia|]. apply Z.lt_succ_r, Z.div_lt_upper_bound; lia. }
  assert (0 <= 65535 * 255 / a * 255 / b <= 1704562) as Hb'.
  { split; [apply Z.div_pos; lia|]. apply Z.lt_succ_r, Z.div_lt_upper_bound; lia. }
  rewrite u32_id by (unfold is_u32; lia). repeat case_match; bool_hyps; lia.
Qed.

(** ** The configured factors *)

(** [DEF_LQ_AGING] and [MIN_LQ_AGING] as floats. *)
Definition DEF_LQ_AGING : spec_float := S754_finite false 13421773 (-28).
Definition MIN_LQ_AGING : spec_float := S754_finite false 10737418 (-30).

Definition default_aging : aging :=
  {| aging_factor_new := 3276; aging_factor_old := 62259; aging_quickstart_new := 16383; aging_quickstart_old := 49152 |}.
Definition least_aging : aging :=
  {| aging_factor_new := 655; aging_factor_old := 64880; aging_quickstart_new := 16383; aging_quickstart_old := 49152 |}.

Lemma initialize_default : default_lq_initialize_fpm DEF_LQ_AGING = Some default_aging.
Proof. vm_compute. reflexivity. Qed.

Lemma initialize_least : default_lq_initialize_fpm MIN_LQ_AGING = Some least_aging.
Proof. vm_compute. reflexivity. Qed.

Lemma default_aging_ok : aging_ok default_aging.
Proof. split; simpl; unfold LQ_FPM_INTERNAL_MULTIPLIER; lia. Qed.

Lemma least_aging_ok : aging_ok least_aging.
Proof. split; simpl; unfold LQ_FPM_INTERNAL_MULTIPLIER; lia. Qed.

Lemma slow_57 mult k : Nat.iter (k + 57) (slow default_aging mult) 255 <= 24.
Proof.
  induction k as [|k IH].
  - apply Z.leb_le. assert (forall m v, slow default_aging m v = slow default_aging 0 v) as E by done.
    assert (forall n v, Nat.iter n (slow default_aging mult) v = Nat.iter n (slow default_aging 0) v) as ->.
    { intros n v. induction n as [|n IH]; [done|]. simpl. by rewrite IH. }
    vm_compute. reflexivity.
  - simpl. transitivity (slow default_aging mult 24); [|vm_compute; discriminate]. apply slow_mono; [exact default_aging_ok|].
    split; [|done]. pose proof (slow_iter default_aging mult default_aging_ok (k + 57) 255 255). lia.
Qed.

(** ** Theorems *)

(** One step of the moving average: with aging factors that are shares of the fixed
    point one and a link multiplier of at most one, no intermediate of the 32-bit
    computation overflows, the new link quality is the weighted mean rounded up and
    again a byte, and the cost of the link is between 1 and [LINK_COST_BROKEN]. *)
Theorem fpm_worker_correct ag mult q lost :
  aging_ok ag -> 0 <= mult <= LINK_LOSS_MULTIPLIER -> fpm_wf q ->
  let '(q', cost) := default_lq_packet_loss_worker_fpm ag mult q lost in
  fpm_wf q' /\ valueNlq q' = valueNlq q /\
  valueLq q' = average_spec (valueLq q) (LQ_FPM_INTERNAL_MULTIPLIER - alpha_of ag q) (alpha_of ag q) mult lost /\
  0 < cost <= LINK_COST_BROKEN.
Proof.
  intros Hag Hm Hq. pose proof (worker_value ag mult Hag Hm q lost Hq) as [H1 H2].
  pose proof (fpm_cost_range (fst (default_lq_packet_loss_worker_fpm ag mult q lost))) as H3.
  destruct (default_lq_packet_loss_worker_fpm ag mult q lost) as [q' c] eqn:E. simpl in H1, H2, H3.
  unfold default_lq_packet_loss_worker_fpm in E. injection E as E1 E2. subst c. rewrite E1.
  split; [exact H2|]. split; [by rewrite <- E1|]. split; [exact H1|exact H3].
Qed.

(** A link that hears nothing any more becomes unusable: with the default aging
    factor, its cost is [LINK_COST_BROKEN] after 57 HELLO messages lost in a row, and
    stays so, whatever its quality was. *)
Theorem fpm_silent_link_breaks mult q n :
  0 <= mult <= LINK_LOSS_MULTIPLIER -> fpm_wf q -> (57 <= n)%nat ->
  exists ag, default_lq_initialize_fpm DEF_LQ_AGING = Some ag /\
    default_lq_calc_cost_fpm (lose ag mult n q) = LINK_COST_BROKEN.
Proof.
  intros Hm Hq Hn. exists default_aging. split; [apply initialize_default|].
  pose proof (lose_slow default_aging mult default_aging_ok Hm n q ltac:(vm_compute; discriminate) Hq) as Hle.
  destruct Hq as [Hv _]. unfold is_u8 in Hv.
  pose proof (slow_iter default_aging mult default_aging_ok n (valueLq q) 255 ltac:(lia)) as [_ H2].
  pose proof (slow_57 mult (n - 57)) as H3. replace (n - 57 + 57)%nat with n in H3 by lia.
  unfold default_lq_calc_cost_fpm, useful_byte. rewrite (proj2 (Z.ltb_lt _ _)) by lia. done.
Qed.

(** The average rounds up at every step, so that with the smallest aging factor the
    configuration admits the quality of a link that was good never falls below 100 of
    255: however many HELLO messages are lost, it stays usable. *)
Theorem fpm_silent_link_stuck mult q n :
  0 <= mult <= LINK_LOSS_MULTIPLIER -> fpm_wf q -> LQ_QUICKSTART_STEPS <= quickstart q ->
  100 <= valueLq q -> useful_byte <= valueNlq q ->
  exists ag, default_lq_initialize_fpm MIN_LQ_AGING = Some ag /\
    100 <= valueLq (lose ag mult n q) /\ default_lq_calc_cost_fpm (lose ag mult n q) < LINK_COST_BROKEN.
Proof.
  intros Hm Hq Hs Hv Hn. exists least_aging. split; [apply initialize_least|].
  destruct (lose_exact least_aging mult least_aging_ok Hm n q Hq Hs) as (E1 & E2 & _).
  assert (100 <= valueLq (lose least_aging mult n q)) as H.
  { rewrite E1. clear E1 E2. induction n as [|n IH]; [done|]. rewrite Nat.iter_succ.
    transitivity (slow least_aging mult 100); [vm_compute; discriminate|]. apply slow_mono; [exact least_aging_ok|lia]. }
  split; [done|]. apply usable_cost; [done|by rewrite E2].
Qed.

(** What the handler writes into a HELLO or TC message it reads back, and nothing
    after it. *)
Theorem fpm_serialize_roundtrip ag q old rest :
  fpm_wf q -> 
  let h := lq_etx_fpm_handler ag in
  let read d := Some (lq_fpm_data {| valueLq := valueLq q; valueNlq := valueNlq q; quickstart := quickstart (lq_fpm_of d) |}, rest) in
  @deserialize_hello_lq h old (@serialize_hello_lq h (lq_fpm_data q) ++ rest) = read old /\
  @deserialize_tc_lq h old (@serialize_tc_lq h (lq_fpm_data q) ++ rest) = read old.
Proof. intros (Ha & Hb & _). simpl. unfold pkt_ignore_u16. simpl. by rewrite !u8_id, drop_0. Qed.

(** ** Witnesses *)

Definition sample_fpm : default_lq_fpm := {| valueLq := 255; valueNlq := 200; quickstart := 12 |}.

Lemma sample_fpm_wf : fpm_wf sample_fpm.
Proof. unfold fpm_wf, is_u8, is_u16. simpl. lia. Qed.

Lemma fpm_worker_correct_witness :
  let '(q', cost) := default_lq_packet_loss_worker_fpm default_aging 65536 sample_fpm true in
  fpm_wf q' /\ valueLq q' = 243 /\ cost = 87683.
Proof.
  assert (0 <= 65536 <= LINK_LOSS_MULTIPLIER) as Hm by (unfold LINK_LOSS_MULTIPLIER; lia).
  pose proof (fpm_worker_correct default_aging 65536 sample_fpm true default_aging_ok Hm sample_fpm_wf) as H.
  destruct (default_lq_packet_loss_worker_fpm default_aging 65536 sample_fpm true) as [q' c] eqn:E. destruct H as (H & _).
  split; [exact H|]. vm_compute in E. injection E as <- <-. split; reflexivity.
Defined.

Lemma fpm_silent_link_breaks_witness :
  exists ag, default_lq_initialize_fpm DEF_LQ_AGING = Some ag /\ default_lq_calc_cost_fpm (lose ag 65536 60 sample_fpm) = LINK_COST_BROKEN.
Proof. apply (fpm_silent_link_breaks 65536 sample_fpm 60); [unfold LINK_LOSS_MULTIPLIER; lia|exact sample_fpm_wf|lia]. Defined.

Lemma fpm_silent_link_stuck_witness :
  exists ag, default_lq_initialize_fpm MIN_LQ_AGING = Some ag /\ 100 <= valueLq (lose ag 65536 1000 sample_fpm) /\
    default_lq_calc_cost_fpm (lose ag 65536 1000 sample_fpm) < LINK_COST_BROKEN.
Proof.
  apply (fpm_silent_link_stuck 65536 sample_fpm 1000); try exact sample_fpm_wf; simpl;
    unfold LINK_LOSS_MULTIPLIER, LQ_QUICKSTART_STEPS, useful_byte; lia.
Defined.

Lemma fpm_serialize_roundtrip_witness :
  @deserialize_hello_lq (lq_etx_fpm_handler default_aging) [0; 0; 7] [255; 200; 0; 0; 1; 2] = Some ([255; 200; 7], [1; 2]).
Proof. exact (proj1 (fpm_serialize_roundtrip default_aging sample_fpm [0; 0; 7] [1; 2] sample_fpm_wf)). Defined.

(** ** The metric in floating point *)

Record default_lq_float := { float_lq : spec_float; float_nlq : spec_float; float_quickstart : Z }.

Definition LQ_PLUGIN_LC_MULTIPLIER : Z := 1024.
Definition MINIMAL_USEFUL_LQ : spec_float := S754_finite false 13421773 (-27).     (* (float)0.1 *)
Definition LQ_QUICKSTART_AGING_float : spec_float := S754_finite false 8388608 (-25).    (* (float)0.25 *)
Definition float_unit : spec_float := S754_finite false 8388608 (-23).
Definition float_255 : spec_float := float_of_u32 255.

Definition default_lq_calc_cost_float (q : default_lq_float) : option Z :=
  if SFltb (float_lq q) MINIMAL_USEFUL_LQ || SFltb (float_nlq q) MINIMAL_USEFUL_LQ then Some LINK_COST_BROKEN
  else
    cost ← u32_of_float (SFmul 24 128 (SFdiv 24 128 float_unit (SFmul 24 128 (float_lq q) (float_nlq q))) (float_of_u32 LQ_PLUGIN_LC_MULTIPLIER));
    Some (if LINK_COST_BROKEN <=? cost then LINK_COST_BROKEN else if cost =? 0 then 1 else cost).

(** [(unsigned char)] of a float outside of its range is undefined. *)
Definition uchar_of_float (f : spec_float) : option Z :=
  v ← u32_of_float f; if v <? 256 then Some v else None.

Definition default_lq_serialize_hello_lq_pair_float (q : default_lq_float) : option (list Z) :=
  a ← uchar_of_float (SFmul 24 128 (float_lq q) float_255);
  b ← uchar_of_float (SFmul 24 128 (float_nlq q) float_255);
  Some [a; b; 0; 0].

Definition default_lq_deserialize_hello_lq_pair_float (q : default_lq_float) (curr : list Z) : option (default_lq_float * list Z) :=
  '(lq_value, curr) ← pkt_get_u8 curr;
  '(nlq_value, curr) ← pkt_get_u8 curr;
  Some ({| float_lq := SFdiv 24 128 (float_of_u32 lq_value) float_255; float_nlq := SFdiv 24 128 (float_of_u32 nlq_value) float_255;
           float_quickstart := float_quickstart q |}, pkt_ignore_u16 curr).

(** The functions for TC messages are the same. *)
Definition default_lq_serialize_tc_lq_pair_float := default_lq_serialize_hello_lq_pair_float.
Definition default_lq_deserialize_tc_lq_pair_float := default_lq_deserialize_hello_lq_pair_float.

(** [lq_aging] is a field of the configuration. *)
Definition default_lq_packet_loss_worker_float (lq_aging : spec_float) (mult : Z) (tlq : default_lq_float) (lost : bool) : option (default_lq_float * Z) :=
  let quick := float_quickstart tlq <? LQ_QUICKSTART_STEPS in
  let alpha := if quick then LQ_QUICKSTART_AGING_float else lq_aging in
  let lq := SFmul 24 128 (float_lq tlq) (SFsub 24 128 float_unit alpha) in
  let lq := if lost then lq else SFadd 24 128 lq (SFdiv 24 128 (SFmul 24 128 alpha (float_of_u32 mult)) (float_of_u32 65536)) in
  let tlq' := {| float_lq := lq; float_nlq := float_nlq tlq; float_quickstart := if quick then u16 (float_quickstart tlq + 1) else float_quickstart tlq |} in
  cost ← default_lq_calc_cost_float tlq';
  Some (tlq', cost).

Definition default_lq_memorize_foreign_hello_float (local : default_lq_float) (foreign : option default_lq_float) : default_lq_float :=
  {| float_lq := float_lq local; float_nlq := match foreign with Some f => float_lq f | None => S754_zero false end;
     float_quickstart := float_quickstart local |}.

Definition default_lq_copy_link2tc_float (source : default_lq_float) : default_lq_float := source.
Definition default_lq_clear_float : default_lq_float := {| float_lq := S754_zero false; float_nlq := S754_zero false; float_quickstart := 0 |}.

(** What a pair of bytes is read as. *)
Definition float_pair (a b : Z) : default_lq_float :=
  {| float_lq := SFdiv 24 128 (float_of_u32 a) float_255; float_nlq := SFdiv 24 128 (float_of_u32 b) float_255; float_quickstart := 0 |}.

(** A pair that is read from a message and written again is the same pair of bytes: the
    truncation does not bite. *)
Theorem float_pair_roundtrip a b rest : is_u8 a -> is_u8 b ->
  exists q, default_lq_deserialize_hello_lq_pair_float default_lq_clear_float ([a; b; 0; 0] ++ rest) = Some (q, rest) /\ default_lq_serialize_hello_lq_pair_float q = Some [a; b; 0; 0].
Proof.
  intros Ha Hb. exists (float_pair a b). split; [done|]. unfold default_lq_serialize_hello_lq_pair_float, float_pair. cbn [float_lq float_nlq].
  assert (forall v, is_u8 v -> uchar_of_float (SFmul 24 128 (SFdiv 24 128 (float_of_u32 v) float_255) float_255) = Some v) as H.
  { intros v Hv. unfold is_u8 in Hv. set (again := fun v => uchar_of_float (SFmul 24 128 (SFdiv 24 128 (float_of_u32 v) float_255) float_255)).
    pose proof (all_from_spec 0 256 (fun v => match again v with Some w => w =? v | None => false end) ltac:(vm_compute; reflexivity) v ltac:(lia)) as E.
    cbv beta in E. change (again v = Some v). destruct (again v) as [w|]; [|done]. apply Z.eqb_eq in E. by subst w. }
  by rewrite (H a Ha), (H b Hb).
Qed.

Lemma float_pair_roundtrip_witness :
  exists q, default_lq_deserialize_hello_lq_pair_float default_lq_clear_float [200; 131; 0; 0; 9] = Some (q, [9]) /\ default_lq_serialize_hello_lq_pair_float q = Some [200; 131; 0; 0].
Proof. apply (float_pair_roundtrip 200 131 [9]); unfold is_u8; lia. Defined.
