(* ===== verification/LqFf.v ===== *)
(** * fpm.c, lq_plugin_default_ff.c, lq_plugin_default_ffeth.c: ETX from all packets

    The metrics etx_ff and etx_ffeth count the packets of a neighbour by their sequence
    numbers, second by second over a window, and smooth the result. The two files differ in
    what the definitions here take as arguments. *)

From S2P Require Import Prelude Timer Mantissa Avl IpAddr State MidLookup NeighTable Interfaces NeighSpec LsdbOps RouteTable Packet Lq Hysteresis LinkSet LinkProofs TcSpec LinkSpec.

(** ** Fixed point numbers: ten binary digits after the point in a [long] of 64 bits *)

Definition FPM_BIT : Z := 10.
Definition s64 (x : Z) : Z := (x + 9223372036854775808) mod 18446744073709551616 - 9223372036854775808.
Definition itofpm (i : Z) : Z := s64 (Z.shiftl i FPM_BIT).
Definition fpmtoi (a : Z) : Z := s32 (Z.shiftr a FPM_BIT).
Definition fpmadd (a b : Z) : Z := s64 (a + b).
Definition fpmsub (a b : Z) : Z := s64 (a - b).
Definition fpmmul (a b : Z) : Z := Z.shiftr (s64 (a * b)) FPM_BIT.
Definition fpmdiv (a b : Z) : Z := Z.quot (s64 (Z.shiftl a FPM_BIT)) b.
Definition fpmimul (a b : Z) : Z := s64 (a * b).
Definition fpmmuli (a b : Z) : Z := s64 (a * b).
Definition fpmidiv (a b : Z) : Z := Z.quot a b.

(** ** The data *)

Definition LQ_FF_WINDOW : Z := 32.
Definition LQ_FF_QUICKSTART_INIT : Z := 4.
Definition useful_byte_ff : Z := 25.   (* (unsigned int)(255 * MINIMAL_USEFUL_LQ) *)

Record default_lq_ff := { ff_valueLq : Z; ff_valueNlq : Z }.

(** [perfect_eth] is a field of the struct of etx_ffeth only. *)
Record default_lq_ff_hello := {
  smoothed_lq : default_lq_ff;
  lq : default_lq_ff;
  windowSize : Z;
  activePtr : Z;
  last_seq_nr : Z;
  missed_hellos : Z;
  perfect_eth : bool;
  received : list Z;
  total : list Z;
}.

Definition set_lq (x : default_lq_ff) (h : default_lq_ff_hello) : default_lq_ff_hello :=
  {| smoothed_lq := smoothed_lq h; lq := x; windowSize := windowSize h; activePtr := activePtr h; last_seq_nr := last_seq_nr h;
     missed_hellos := missed_hellos h; perfect_eth := perfect_eth h; received := received h; total := total h |}.
Definition set_smoothed_lq (x : default_lq_ff) (h : default_lq_ff_hello) : default_lq_ff_hello :=
  {| smoothed_lq := x; lq := lq h; windowSize := windowSize h; activePtr := activePtr h; last_seq_nr := last_seq_nr h;
     missed_hellos := missed_hellos h; perfect_eth := perfect_eth h; received := received h; total := total h |}.
Definition set_missed_hellos (x : Z) (h : default_lq_ff_hello) : default_lq_ff_hello :=
  {| smoothed_lq := smoothed_lq h; lq := lq h; windowSize := windowSize h; activePtr := activePtr h; last_seq_nr := last_seq_nr h;
     missed_hellos := x; perfect_eth := perfect_eth h; received := received h; total := total h |}.
Definition set_window (w a : Z) (r t : list Z) (h : default_lq_ff_hello) : default_lq_ff_hello :=
  {| smoothed_lq := smoothed_lq h; lq := lq h; windowSize := w; activePtr := a; last_seq_nr := last_seq_nr h;
     missed_hellos := missed_hellos h; perfect_eth := perfect_eth h; received := r; total := t |}.
Definition set_perfect (b : bool) (h : default_lq_ff_hello) : default_lq_ff_hello :=
  {| smoothed_lq := smoothed_lq h; lq := lq h; windowSize := windowSize h; activePtr := activePtr h; last_seq_nr := last_seq_nr h;
     missed_hellos := missed_hellos h; perfect_eth := b; received := received h; total := total h |}.

(** The interface keeps the data of a handler as a list. A [default_lq_ff_hello] begins with
    its smoothed pair, so that a pointer to it can be read as one to a [default_lq_ff]. *)
Definition ff_data (h : default_lq_ff_hello) : list Z :=
  [ff_valueLq (smoothed_lq h); ff_valueNlq (smoothed_lq h); ff_valueLq (lq h); ff_valueNlq (lq h); windowSize h; activePtr h;
   last_seq_nr h; missed_hellos h; Z.b2z (perfect_eth h)] ++ received h ++ total h.
Definition ff_of (l : list Z) : default_lq_ff_hello :=
  {| smoothed_lq := {| ff_valueLq := nth 0 l 0; ff_valueNlq := nth 1 l 0 |}; lq := {| ff_valueLq := nth 2 l 0; ff_valueNlq := nth 3 l 0 |};
     windowSize := nth 4 l 0; activePtr := nth 5 l 0; last_seq_nr := nth 6 l 0; missed_hellos := nth 7 l 0; perfect_eth := nth 8 l 0 =? 1;
     received := take 32 (drop 9 l); total := take 32 (drop 41 l) |}.
Definition ff_pair (l : list Z) : default_lq_ff := {| ff_valueLq := nth 0 l 0; ff_valueNlq := nth 1 l 0 |}.
Definition ff_pair_data (x : default_lq_ff) : list Z := [ff_valueLq x; ff_valueNlq x].

(** ** Costs *)

Definition clamp_cost (cost : Z) : Z :=
  if LINK_COST_BROKEN <=? cost then LINK_COST_BROKEN else if cost =? 0 then 1 else cost.

Definition default_lq_calc_cost_ff (x : default_lq_ff) : Z :=
  if (ff_valueLq x <? useful_byte_ff) || (ff_valueNlq x <? useful_byte_ff) then LINK_COST_BROKEN
  else clamp_cost (u32 (fpmidiv (itofpm (255 * 255)) (ff_valueLq x * ff_valueNlq x))).

Definition raised (v : Z) : Z := if (v >? 0) && (v <? 255) then v + 1 else v.

Definition default_lq_calc_cost_ffeth (x : default_lq_ff) : Z :=
  if (ff_valueLq x <? useful_byte_ff) || (ff_valueNlq x <? useful_byte_ff) then LINK_COST_BROKEN
  else
    let ether := (ff_valueLq x =? 255) && (ff_valueNlq x =? 255) in
    let cost := u32 (fpmidiv (itofpm (255 * 255)) (raised (ff_valueLq x) * raised (ff_valueNlq x))) in
    clamp_cost (if ether then cost / 10 else cost).

(** ** What arrives *)

(** The part of [default_lq_parser_ff] behind the lookups. *)
Definition count_packet (olsr_seqno : Z) (h : default_lq_ff_hello) : default_lq_ff_hello :=
  if last_seq_nr h =? olsr_seqno then h
  else
    let seq_diff := if last_seq_nr h >? olsr_seqno then u32 (olsr_seqno + 65536 - last_seq_nr h) else olsr_seqno - last_seq_nr h in
    let seq_diff := if seq_diff >? 256 then 1 else seq_diff in
    {| smoothed_lq := smoothed_lq h; lq := lq h; windowSize := windowSize h; activePtr := activePtr h; last_seq_nr := olsr_seqno; missed_hellos := 0;
       perfect_eth := perfect_eth h;
       received := alter (fun x => u16 (x + 1)) (Z.to_nat (activePtr h)) (received h);
       total := alter (fun x => u16 (x + seq_diff)) (Z.to_nat (activePtr h)) (total h) |}.

(** The part of the loop of [default_lq_ff_timer] that computes the quality. *)
Definition window_sum (n : Z) (l : list Z) : Z := foldr Z.add 0 (take (Z.to_nat n) l).

Definition without_missed (missed helloint received : Z) : Z :=
  if missed >? 1 then
    let interval := u32 (missed * helloint) / 1000 in
    if interval >? LQ_FF_WINDOW then 0 else s32 (u32 (received * (LQ_FF_WINDOW - interval)) / LQ_FF_WINDOW)
  else received.

Definition window_quality (mult helloint : Z) (windowSize : Z) (h : default_lq_ff_hello) : Z :=
  let received := window_sum windowSize (received h) in
  let total := window_sum windowSize (total h) in
  if total =? 0 then 0
  else
    let ratio := fpmidiv (itofpm mult) LINK_LOSS_MULTIPLIER in
    let received := without_missed (missed_hellos h) helloint received in
    let ratio := fpmmuli ratio received in
    let ratio := fpmidiv ratio total in
    let ratio := fpmmuli ratio 255 in
    u8 (fpmtoi ratio).

Definition enlarged (h : default_lq_ff_hello) : Z := if windowSize h <? LQ_FF_WINDOW then u8 (windowSize h + 1) else windowSize h.

(** The next second begins. *)
Definition shift_window (h : default_lq_ff_hello) : default_lq_ff_hello :=
  let active := u8 ((activePtr h + 1) mod LQ_FF_WINDOW) in
  set_window (windowSize h) active (<[Z.to_nat active := 0]> (received h)) (<[Z.to_nat active := 0]> (total h)) h.

Definition measure (mult helloint : Z) (h : default_lq_ff_hello) : default_lq_ff_hello :=
  let w := enlarged h in
  set_window w (activePtr h) (received h) (total h) (set_lq {| ff_valueLq := window_quality mult helloint w h; ff_valueNlq := ff_valueNlq (lq h) |} h).

Definition ff_second (mult helloint : Z) (h : default_lq_ff_hello) : default_lq_ff_hello := shift_window (measure mult helloint h).

(** [(uint8_t)(0.95 * 255)] and [(uint8_t)(0.90 * 255)] are 242 and 229. *)
Definition booster (ether : bool) (h : default_lq_ff_hello) : default_lq_ff_hello :=
  let v := ff_valueLq (lq h) in
  if ether then
    let h := if v >? 242 then set_perfect true h else if v >? 229 then set_perfect false h else h in
    if perfect_eth h then set_lq {| ff_valueLq := 255; ff_valueNlq := ff_valueNlq (lq h) |} h else h
  else if v >? 0 then set_lq {| ff_valueLq := v - 1; ff_valueNlq := ff_valueNlq (lq h) |} h else h.

Definition ffeth_second (ether : bool) (mult helloint : Z) (h : default_lq_ff_hello) : default_lq_ff_hello :=
  shift_window (booster ether (measure mult helloint h)).

(** ** Smoothing *)

(** Whether a value moved away from its smoothed one, by more than a tenth of it. *)
Definition moved_away (perfect : Z -> bool) (smoothed new : Z) : bool :=
  if smoothed <? new then perfect new || (new - smoothed >? smoothed / 10)
  else if new <? smoothed then smoothed - new >? smoothed / 10
  else false.

Definition relevant (perfect : Z -> bool) (h : default_lq_ff_hello) : bool :=
  moved_away perfect (ff_valueLq (smoothed_lq h)) (ff_valueLq (lq h)) || moved_away perfect (ff_valueNlq (smoothed_lq h)) (ff_valueNlq (lq h)).

Definition ff_settled (perfect : Z -> bool) (h : default_lq_ff_hello) : bool :=
  (perfect (ff_valueLq (smoothed_lq h)) && perfect (ff_valueNlq (smoothed_lq h)))
  || ((ff_valueLq (smoothed_lq h) =? ff_valueLq (lq h)) && (ff_valueNlq (smoothed_lq h) =? ff_valueNlq (lq h))).

Definition ff_perfect (v : Z) : bool := v =? 255.
Definition ffeth_perfect (v : Z) : bool := v >=? 254.

Section ff.
Context {cnf : olsrd_config} {lqh : lq_handler}.

Definition smooth_link (calc : default_lq_ff -> Z) (l : link_entry) : link_entry :=
  let h := ff_of (linkquality l) in
  set_linkcost (calc (lq h)) (set_linkquality (ff_data (set_smoothed_lq (lq h) h)) l).

Definition handle_lqchange (calc : default_lq_ff -> Z) (perfect : Z -> bool) : OM unit :=
  let* head := OLSR_FOR_ALL_LINK_ENTRIES in
  let* triggered := foldM head false (fun triggered link =>
    let* l := get_link link in
    if relevant perfect (ff_of (linkquality l)) then do* upd_link link (smooth_link calc) in ret true else ret triggered) in
  if negb triggered then ret tt
  else
    do* forM_ head (fun link =>
      let* l := get_link link in
      if ff_settled perfect (ff_of (linkquality l)) then ret tt else upd_link link (smooth_link calc)) in
    olsr_relevant_linkcost_change.

Definition default_lq_ff_handle_lqchange : OM unit := handle_lqchange default_lq_calc_cost_ff ff_perfect.
Definition default_lq_ffeth_handle_lqchange : OM unit := handle_lqchange default_lq_calc_cost_ffeth ffeth_perfect.

(** The functions registered with the packet parser; [olsr_seqno] is the number of the
    packet. *)
Definition default_lq_parser (olsr_seqno : Z) (in_if : interface_olsr) (from_addr : ip_addr) : OM unit :=
  let* main_addr := mid_lookup_main_addr from_addr in
  let* lnk := lookup_link_entry from_addr main_addr in_if in
  match lnk with
  | None => ret tt
  | Some p => upd_link p (fun l => set_linkquality (ff_data (count_packet olsr_seqno (ff_of (linkquality l)))) l)
  end.
Definition default_lq_parser_ff := default_lq_parser.
Definition default_lq_parser_ffeth := default_lq_parser.

Definition on_second (second : link_entry -> default_lq_ff_hello -> default_lq_ff_hello) : OM unit :=
  let* head := OLSR_FOR_ALL_LINK_ENTRIES in
  forM_ head (fun link => upd_link link (fun l => set_linkquality (ff_data (second l (ff_of (linkquality l)))) l)).

Definition default_lq_ff_timer : OM unit :=
  do* on_second (fun l => ff_second (loss_link_multiplier l) (loss_helloint l)) in
  default_lq_ff_handle_lqchange.

(** [ether] tells the links over interfaces in the mode IF_MODE_ETHER. *)
Definition default_lq_ffeth_timer (ether : link_entry -> bool) : OM unit :=
  do* on_second (fun l => ffeth_second (ether l) (loss_link_multiplier l) (loss_helloint l)) in
  default_lq_ffeth_handle_lqchange.

End ff.

(** ** Costs are costs *)

Lemma clamp_range c : 0 <= c -> 0 < clamp_cost c <= LINK_COST_BROKEN.
Proof. intros H. unfold clamp_cost, LINK_COST_BROKEN. repeat case_match; bool_hyps; lia. Qed.

Lemma ff_cost_range x : 0 < default_lq_calc_cost_ff x <= LINK_COST_BROKEN.
Proof. unfold default_lq_calc_cost_ff. case_match; [unfold LINK_COST_BROKEN; lia|]. apply clamp_range, u32_range. Qed.

Lemma ffeth_cost_range x : 0 < default_lq_calc_cost_ffeth x <= LINK_COST_BROKEN.
Proof.
  unfold default_lq_calc_cost_ffeth. case_match; [unfold LINK_COST_BROKEN; lia|]. apply clamp_range. pose proof (u32_range (fpmidiv (itofpm (255 * 255)) (raised (ff_valueLq x) * raised (ff_valueNlq x)))) as Hu.
  unfold is_u32 in Hu. case_match; [apply Z.div_pos; lia|lia].
Qed.

(** The cost of etx_ffeth tells perfect Ethernet links from all others: 255 in both
    directions costs 102, a tenth of what the next best pair costs, and every other pair of
    values costs 1024 or more. *)
Theorem ffeth_cost_classes x : is_u8 (ff_valueLq x) -> is_u8 (ff_valueNlq x) ->
  (ff_valueLq x = 255 /\ ff_valueNlq x = 255 /\ default_lq_calc_cost_ffeth x = 102) \/
  ((ff_valueLq x <> 255 \/ ff_valueNlq x <> 255) /\ 1024 <= default_lq_calc_cost_ffeth x <= LINK_COST_BROKEN).
Proof.
  unfold is_u8. intros Ha Hb. destruct x as [a b]. cbn [ff_valueLq ff_valueNlq] in *.
  destruct (decide (a = 255 /\ b = 255)) as [[-> ->]|Hn]; [left; vm_compute; done|right]. split; [lia|].
  split; [|apply ffeth_cost_range]. unfold default_lq_calc_cost_ffeth. cbn [ff_valueLq ff_valueNlq].
  destruct ((a <? useful_byte_ff) || (b <? useful_byte_ff)) eqn:E; [unfold LINK_COST_BROKEN; lia|]. unfold useful_byte_ff in E. bool_hyps.
  assert ((a =? 255) && (b =? 255) = false) as -> by (destruct (a =? 255) eqn:E1; destruct (b =? 255) eqn:E2; bool_hyps; lia || done).
  assert (25 <= raised a <= 255) as Hra by (unfold raised; repeat case_match; bool_hyps; lia).
  assert (25 <= raised b <= 255) as Hrb by (unfold raised; repeat case_match; bool_hyps; lia).
  change (itofpm (255 * 255)) with 66585600. unfold fpmidiv. rewrite Z.quot_div_nonneg by nia.
  assert (1024 <= 66585600 / (raised a * raised b) <= 66585600) as Hq.
  { split; [apply Z.div_le_lower_bound; nia|]. apply Z.div_le_upper_bound; nia. }
  rewrite u32_id by (unfold is_u32; lia). unfold clamp_cost, LINK_COST_BROKEN. repeat case_match; bool_hyps; lia.
Qed.

(** ** The window *)

Record ff_wf (h : default_lq_ff_hello) : Prop := {
  fw_window : 0 <= windowSize h <= LQ_FF_WINDOW;
  fw_active : 0 <= activePtr h < LQ_FF_WINDOW;
  fw_last : is_u16 (last_seq_nr h);
  fw_missed : is_u16 (missed_hellos h);
  fw_received : length (received h) = 32%nat;
  fw_total : length (total h) = 32%nat;
  fw_counts : Forall2 (fun r t => 0 <= r <= t /\ t <= 65535) (received h) (total h);
}.

Lemma sum_bounds (r t : list Z) : Forall2 (fun r t => 0 <= r <= t /\ t <= 65535) r t ->
  0 <= foldr Z.add 0 r <= foldr Z.add 0 t /\ foldr Z.add 0 t <= 65535 * Z.of_nat (length t).
Proof. induction 1 as [|x y r t H _ IH]; [done|]. cbn [foldr length]. lia. Qed.

Lemma window_sums h n : ff_wf h -> 0 <= n <= LQ_FF_WINDOW ->
  0 <= window_sum n (received h) <= window_sum n (total h) /\ window_sum n (total h) <= 2097120.
Proof.
  intros Hw Hn. unfold window_sum. destruct (sum_bounds (take (Z.to_nat n) (received h)) (take (Z.to_nat n) (total h))) as [H1 H2]; [apply Forall2_take, Hw|].
  split; [exact H1|]. rewrite length_take, (fw_total _ Hw) in H2. lia.
Qed.

Lemma without_missed_bounds missed helloint r : 0 <= r <= 2097120 -> 0 <= without_missed missed helloint r <= r.
Proof.
  intros Hr. unfold without_missed, LQ_FF_WINDOW. destruct (missed >? 1); [|lia]. set (i := u32 _ / 1000).
  assert (0 <= i) by (unfold i; apply Z.div_pos; [apply u32_range|lia]). destruct (i >? 32) eqn:E; [lia|]. bool_hyps.
  rewrite (u32_id (r * (32 - i))) by (unfold is_u32; nia). assert (0 <= r * (32 - i) / 32 <= r) by (split; [apply Z.div_pos; nia|apply Z.div_le_upper_bound; nia]).
  rewrite s32_id by (unfold is_s32; lia). lia.
Qed.

(** The quality as a formula over the integers. *)
Definition quality_spec (mult : Z) (received total : Z) : Z := mult / 64 * received / total * 255 / 1024.

Lemma quality_exact mult r t : 0 <= mult <= LINK_LOSS_MULTIPLIER -> 0 <= r <= t -> 0 < t <= 2097120 ->
  u8 (fpmtoi (fpmmuli (fpmidiv (fpmmuli (fpmidiv (itofpm mult) LINK_LOSS_MULTIPLIER) r) t) 255)) = quality_spec mult r t /\
  0 <= quality_spec mult r t <= 255 /\ quality_spec mult r t * t <= 255 * r.
Proof.
  unfold LINK_LOSS_MULTIPLIER. intros Hm Hr Ht. unfold itofpm, fpmmuli, fpmidiv, fpmtoi, quality_spec, FPM_BIT. rewrite Z.shiftl_mul_pow2, Z.shiftr_div_pow2 by lia.
  change (2 ^ 10) with 1024. assert (forall x, -9223372036854775808 <= x < 9223372036854775808 -> s64 x = x) as Hs by (intros x Hx; unfold s64; rewrite Z.mod_small; lia).
  rewrite (Hs (mult * 1024)) by lia. rewrite (Z.quot_div_nonneg (mult * 1024)) by lia.
  assert (mult * 1024 / 65536 = mult / 64) as -> by (replace 65536 with (64 * 1024) by lia; by rewrite Z.div_mul_cancel_r by lia).
  assert (0 <= mult / 64 <= 1024) as Hk by (split; [apply Z.div_pos; lia|apply Z.div_le_upper_bound; lia]). set (k := mult / 64) in *. clearbody k.
  rewrite (Hs (k * r)) by nia. rewrite (Z.quot_div_nonneg (k * r)) by nia.
  assert (0 <= k * r / t <= 1024) as Hq by (split; [apply Z.div_pos; nia|apply Z.div_le_upper_bound; nia]).
  assert (k * r / t * t <= k * r) as Hqt by (pose proof (Z.mul_div_le (k * r) t ltac:(lia)); lia). set (q := k * r / t) in *. clearbody q.
  rewrite (Hs (q * 255)) by lia. assert (0 <= q * 255 / 1024 <= 255) as Hf by (split; [apply Z.div_pos; lia|apply Z.div_le_upper_bound; lia]).
  assert (q * 255 / 1024 * 1024 <= q * 255) as Hft by (pose proof (Z.mul_div_le (q * 255) 1024 ltac:(lia)); lia). set (f := q * 255 / 1024) in *. clearbody f.
  rewrite s32_id by (unfold is_s32; lia). split; [apply u8_id; unfold is_u8; lia|]. split; [lia|].
  assert (f * 1024 * t <= q * 255 * t) by (apply Z.mul_le_mono_nonneg_r; lia). assert (k * r <= 1024 * r) by (apply Z.mul_le_mono_nonneg_r; lia). lia.
Qed.

Lemma enlarged_bounds h : ff_wf h -> 0 <= enlarged h <= LQ_FF_WINDOW.
Proof. intros [H _ _ _ _ _ _]. unfold enlarged, LQ_FF_WINDOW in *. destruct (windowSize h <? 32) eqn:E; bool_hyps; [|lia]. rewrite u8_id by (unfold is_u8; lia). lia. Qed.

Lemma shift_wf h : ff_wf h -> ff_wf (shift_window h).
Proof.
  intros [H1 H2 H3 H4 H5 H6 H7]. unfold shift_window. pose proof (Z.mod_pos_bound (activePtr h + 1) LQ_FF_WINDOW ltac:(done)) as Ha. unfold LQ_FF_WINDOW in Ha.
  assert (u8 ((activePtr h + 1) mod LQ_FF_WINDOW) = (activePtr h + 1) mod LQ_FF_WINDOW) as E by (apply u8_id; unfold is_u8, LQ_FF_WINDOW in *; lia).
  split; cbn [set_window windowSize activePtr last_seq_nr missed_hellos received total]; rewrite ?E, ?length_insert; try done. apply Forall2_insert; [done|lia].
Qed.

(** What happens between measuring and shifting leaves the window alone. *)
Definition keeps_window (b : default_lq_ff_hello -> default_lq_ff_hello) : Prop := forall h,
  windowSize (b h) = windowSize h /\ activePtr (b h) = activePtr h /\ last_seq_nr (b h) = last_seq_nr h /\ missed_hellos (b h) = missed_hellos h /\
  received (b h) = received h /\ total (b h) = total h.

Lemma booster_keeps ether : keeps_window (booster ether).
Proof. intros h. unfold booster. destruct ether; repeat case_match; done. Qed.

Lemma keeps_wf b h : keeps_window b -> ff_wf h -> ff_wf (b h).
Proof. intros Hb [H1 H2 H3 H4 H5 H6 H7]. destruct (Hb h) as (E1 & E2 & E3 & E4 & E5 & E6). split; by rewrite ?E1, ?E2, ?E3, ?E4, ?E5, ?E6. Qed.

Section seconds.
Context (mult helloint : Z).
Hypothesis Hmult : 0 <= mult <= LINK_LOSS_MULTIPLIER.

Lemma window_quality_spec h : ff_wf h ->
  let t := window_sum (enlarged h) (total h) in
  let r := without_missed (missed_hellos h) helloint (window_sum (enlarged h) (received h)) in
  0 <= r <= window_sum (enlarged h) (received h) /\ r <= t /\ 0 <= window_quality mult helloint (enlarged h) h <= 255 /\
  window_quality mult helloint (enlarged h) h = (if t =? 0 then 0 else quality_spec mult r t) /\ window_quality mult helloint (enlarged h) h * t <= 255 * r.
Proof.
  intros Hw t r. destruct (window_sums h (enlarged h) Hw (enlarged_bounds h Hw)) as [H1 H2]. fold t in H1, H2.
  pose proof (without_missed_bounds (missed_hellos h) helloint (window_sum (enlarged h) (received h)) ltac:(lia)) as H3. fold r in H3.
  split; [done|]. split; [lia|]. unfold window_quality. fold t. destruct (t =? 0) eqn:E; bool_hyps; [lia|]. fold r.
  destruct (quality_exact mult r t Hmult ltac:(lia) ltac:(lia)) as (-> & H4 & H5). split; [exact H4|]. split; [reflexivity|exact H5].
Qed.

Lemma measure_wf h : ff_wf h -> ff_wf (measure mult helloint h).
Proof. intros Hw. pose proof (enlarged_bounds h Hw). destruct Hw. split; done. Qed.

(** C38: one second of etx_ff: the window grows to 32 seconds, the quality becomes the share of
    the packets of the window that arrived, less the share of the window that HELLO messages
    are missing and scaled with the loss factor, in a byte that never overflows; the counters
    stay consistent and the next second starts from zero. *)
Theorem ff_second_correct h : ff_wf h ->
  let h' := ff_second mult helloint h in
  let t := window_sum (enlarged h) (total h) in
  let r := without_missed (missed_hellos h) helloint (window_sum (enlarged h) (received h)) in
  ff_wf h' /\ windowSize h' = enlarged h /\ smoothed_lq h' = smoothed_lq h /\ ff_valueNlq (lq h') = ff_valueNlq (lq h) /\
  ff_valueLq (lq h') = (if t =? 0 then 0 else quality_spec mult r t) /\ 0 <= ff_valueLq (lq h') <= 255 /\ ff_valueLq (lq h') * t <= 255 * r /\
  activePtr h' = (activePtr h + 1) mod LQ_FF_WINDOW /\ total h' !! Z.to_nat (activePtr h') = Some 0 /\ received h' !! Z.to_nat (activePtr h') = Some 0.
Proof.
  intros Hw h' t r. destruct (window_quality_spec h Hw) as (_ & _ & H3 & H4 & H5). fold t r in H4, H5.
  pose proof (Z.mod_pos_bound (activePtr h + 1) LQ_FF_WINDOW ltac:(done)) as Ha. unfold LQ_FF_WINDOW in Ha.
  assert (u8 ((activePtr h + 1) mod LQ_FF_WINDOW) = (activePtr h + 1) mod LQ_FF_WINDOW) as E by (apply u8_id; unfold is_u8, LQ_FF_WINDOW in *; lia).
  split; [by apply shift_wf, measure_wf|]. split; [done|]. split; [done|]. split; [done|]. split; [exact H4|]. split; [exact H3|]. split; [exact H5|].
  split; [exact E|]. cbn [h' ff_second shift_window measure set_window set_lq activePtr total received]. rewrite E. unfold LQ_FF_WINDOW in *.
  split; apply list_lookup_insert_eq; rewrite ?(fw_total _ Hw), ?(fw_received _ Hw); lia.
Qed.

(** ** Silence *)

Context (b : default_lq_ff_hello -> default_lq_ff_hello).
Hypothesis Hb : keeps_window b.

Definition second (h : default_lq_ff_hello) : default_lq_ff_hello := shift_window (b (measure mult helloint h)).

Lemma second_wf h : ff_wf h -> ff_wf (second h).
Proof. intros Hw. by apply shift_wf, keeps_wf, measure_wf. Qed.

Lemma silent_window h n : ff_wf h -> let h' := Nat.iter n second h in
  ff_wf h' /\ activePtr h' = (activePtr h + Z.of_nat n) mod LQ_FF_WINDOW /\
  forall j, 1 <= j <= Z.of_nat n -> total h' !! Z.to_nat ((activePtr h + j) mod LQ_FF_WINDOW) = Some 0.
Proof.
  intros Hw. induction n as [|n IH].
  - simpl. split; [done|]. split; [|lia]. rewrite Z.add_0_r, Z.mod_small by apply Hw. done.
  - rewrite Nat.iter_succ. set (h1 := Nat.iter n second h) in *. destruct IH as (W & A & Z0). split; [by apply second_wf|].
    destruct (Hb (measure mult helloint h1)) as (_ & E2 & _ & _ & _ & E6). pose proof (Z.mod_pos_bound (activePtr h1 + 1) LQ_FF_WINDOW ltac:(done)) as Ha.
    assert (activePtr (second h1) = (activePtr h + Z.of_nat (S n)) mod LQ_FF_WINDOW) as E.
    { unfold second, shift_window. cbn [set_window activePtr]. rewrite E2. change (activePtr (measure mult helloint h1)) with (activePtr h1).
      rewrite u8_id by (unfold is_u8, LQ_FF_WINDOW in *; lia). rewrite A, Zplus_mod_idemp_l. f_equal. lia. }
    split; [exact E|]. intros j Hj. unfold second, shift_window in *. cbn [set_window activePtr total] in *. rewrite E. rewrite E6. change (total (measure mult helloint h1)) with (total h1).
    destruct (decide (Z.to_nat ((activePtr h + Z.of_nat (S n)) mod LQ_FF_WINDOW) = Z.to_nat ((activePtr h + j) mod LQ_FF_WINDOW))) as [<-|Hn].
    + apply list_lookup_insert_eq. rewrite (fw_total _ W). pose proof (Z.mod_pos_bound (activePtr h + Z.of_nat (S n)) LQ_FF_WINDOW ltac:(done)). unfold LQ_FF_WINDOW in *. lia.
    + rewrite list_lookup_insert_ne by done. apply Z0. destruct (decide (j = Z.of_nat (S n))) as [->|]; [done|lia].
Qed.

Lemma sum_zero (l : list Z) : Forall (fun x => x = 0) l -> foldr Z.add 0 l = 0.
Proof. induction 1 as [|x l -> _ IH]; [done|]. simpl. lia. Qed.

Lemma silent_quality h n w : ff_wf h -> (32 <= n)%nat -> window_quality mult helloint w (Nat.iter n second h) = 0.
Proof.
  intros Hw Hn. destruct (silent_window h n Hw) as (W & _ & Hz). set (h1 := Nat.iter n second h) in *. unfold window_quality.
  assert (window_sum w (total h1) = 0) as ->; [|done]. unfold window_sum. apply sum_zero, Forall_take, Forall_lookup_2. intros i x Hi.
  pose proof (lookup_lt_Some _ _ _ Hi) as Hlt. rewrite (fw_total _ W) in Hlt. pose proof (Z.mod_pos_bound (Z.of_nat i - activePtr h - 1) 32 ltac:(done)) as Hm.
  specialize (Hz (1 + (Z.of_nat i - activePtr h - 1) mod 32) ltac:(lia)). unfold LQ_FF_WINDOW in Hz.
  replace ((activePtr h + (1 + (Z.of_nat i - activePtr h - 1) mod 32)) mod 32) with (Z.of_nat i) in Hz; [rewrite Nat2Z.id in Hz; congruence|].
  rewrite Z.add_assoc, Zplus_mod_idemp_r. replace (activePtr h + 1 + (Z.of_nat i - activePtr h - 1)) with (Z.of_nat i) by lia. rewrite Z.mod_small; lia.
Qed.

End seconds.

(** C39: with etx_ff a link over which no packet arrives any more is broken after 33 seconds,
    however good it was and whatever HELLO interval the neighbour announced. *)
Theorem ff_silent_link_breaks mult helloint h n : ff_wf h -> (33 <= n)%nat ->
  let h' := Nat.iter n (ff_second mult helloint) h in ff_valueLq (lq h') = 0 /\ default_lq_calc_cost_ff (lq h') = LINK_COST_BROKEN.
Proof.
  intros Hw Hn h'. assert (keeps_window (fun h => h)) as Hk by by intros ?.
  destruct n as [|n]; [lia|]. assert (ff_valueLq (lq h') = 0) as E by exact (silent_quality mult helloint (fun h => h) Hk h n (enlarged (Nat.iter n (ff_second mult helloint) h)) Hw ltac:(lia)).
  split; [done|]. unfold default_lq_calc_cost_ff. by rewrite E.
Qed.

Lemma dead_second mult helloint h m : 0 <= mult <= LINK_LOSS_MULTIPLIER -> 2000 <= helloint <= 65000 -> ff_wf h -> perfect_eth h = true -> 3 <= m <= 65535 ->
  let h' := ffeth_second true mult helloint (set_missed_hellos m h) in
  ff_wf h' /\ ff_valueLq (lq h') = 255 /\ perfect_eth h' = true /\ ff_valueNlq (lq h') = ff_valueNlq (lq h).
Proof.
  intros Hmult Hh Hw Hp Hm h'. assert (ff_wf (set_missed_hellos m h)) as Hw1 by (destruct Hw; split; try done; unfold is_u16; simpl; lia).
  split; [apply shift_wf, keeps_wf; [apply booster_keeps|by apply measure_wf]|]. set (h1 := set_missed_hellos m h) in *.
  destruct (window_quality_spec mult helloint Hmult h1 Hw1) as (H1 & H2 & H3 & H4 & H5). set (t := window_sum _ (total h1)) in *. set (rr := window_sum _ (received h1)) in *.
  destruct (window_sums h1 (enlarged h1) Hw1 (enlarged_bounds h1 Hw1)) as [W1 W2]. fold t rr in W1, W2.
  assert (without_missed m helloint rr * 32 <= rr * 26) as Hr.
  { unfold without_missed, LQ_FF_WINDOW. rewrite (proj2 (Z.gtb_lt m 1)) by lia. rewrite (u32_id (m * helloint)) by (unfold is_u32; nia).
    assert (6 <= m * helloint / 1000) as Hi by (apply Z.div_le_lower_bound; nia). set (i := m * helloint / 1000) in *. clearbody i.
    destruct (i >? 32) eqn:E; [lia|]. bool_hyps. rewrite (u32_id (rr * (32 - i))) by (unfold is_u32; nia).
    pose proof (Z.mul_div_le (rr * (32 - i)) 32 ltac:(lia)). assert (0 <= rr * (32 - i) / 32) by (apply Z.div_pos; nia).
    rewrite s32_id by (unfold is_s32; nia). nia. }
  change (missed_hellos h1) with m in *. set (r := without_missed m helloint rr) in *. set (q := window_quality mult helloint (enlarged h1) h1) in *.
  assert (q <= 229) as Hq. { destruct (t =? 0) eqn:E; bool_hyps; [lia|]. nia. }
  unfold h', ffeth_second, shift_window, booster. fold h1. cbn [measure set_window set_lq lq ff_valueLq]. fold q.
  assert ((q >? 242) = false /\ (q >? 229) = false) as [-> ->] by (rewrite !Z.gtb_ltb; split; apply Z.ltb_ge; lia).
  assert (perfect_eth h1 = true) as Hp1 by exact Hp. clearbody q. clear - Hp1. unfold measure, set_window, set_lq. cbn. change (perfect_eth h = true) in Hp1. rewrite Hp1. done.
Qed.

(** C40: with etx_ffeth the quality of an Ethernet link that was perfect never leaves 255 once
    nothing arrives any more: the flag is only cleared by a quality from 230 to 242, and the
    quality of a link that misses HELLO messages of two seconds jumps below that. *)
Theorem ffeth_dead_link_perfect mult helloint ms h : 0 <= mult <= LINK_LOSS_MULTIPLIER -> ff_wf h -> perfect_eth h = true -> 2000 <= helloint <= 65000 ->
  Forall (fun m => 3 <= m <= 65535) ms -> ms <> [] ->
  let h' := foldl (fun h m => ffeth_second true mult helloint (set_missed_hellos m h)) h ms in
  ff_valueLq (lq h') = 255 /\ perfect_eth h' = true /\ ff_valueNlq (lq h') = ff_valueNlq (lq h) /\
  (ff_valueNlq (lq h) = 255 -> default_lq_calc_cost_ffeth (lq h') = 102).
Proof.
  intros Hm Hw Hp Hh Hms Hne h'. enough (ff_valueLq (lq h') = 255 /\ perfect_eth h' = true /\ ff_valueNlq (lq h') = ff_valueNlq (lq h)) as (E1 & E2 & E3).
  { split_and!; try done. intros E4. destruct (lq h') as [a c]. cbn [ff_valueLq ff_valueNlq] in *. subst a c. rewrite E4. reflexivity. }
  assert (forall h m, ff_wf h -> perfect_eth h = true -> 3 <= m <= 65535 -> let h' := ffeth_second true mult helloint (set_missed_hellos m h) in
    ff_wf h' /\ ff_valueLq (lq h') = 255 /\ perfect_eth h' = true /\ ff_valueNlq (lq h') = ff_valueNlq (lq h)) as Hstep by (intros; by apply dead_second).
  unfold h'. clear h'. revert h Hw Hp. induction ms as [|m ms IH]; intros h Hw Hp; [done|]. apply Forall_cons in Hms as [Hm1 Hms].
  cbn [foldl]. destruct (Hstep h m Hw Hp Hm1) as (W & E1 & E2 & E3). destruct ms as [|m2 ms]; [done|].
  destruct (IH Hms ltac:(done) _ W E2) as (F1 & F2 & F3). split_and!; try done. congruence.
Qed.

(** ** The data as a list *)

Lemma ff_of_data h : length (received h) = 32%nat -> length (total h) = 32%nat -> ff_of (ff_data h) = h.
Proof.
  intros H1 H2. destruct h as [[sa sb] [a b] w act ls ms pe r t]. cbn [received total] in *.
  set (l := ff_data _). assert (take 32 (drop 9 l) = r) as Er by (change (drop 9 l) with (r ++ t); by apply take_app_length').
  assert (take 32 (drop 41 l) = t) as Et by (change (drop 41 l) with (drop 32 (r ++ t)); rewrite drop_app_length' by done; apply take_ge; lia).
  unfold ff_of. rewrite Er, Et. unfold l, ff_data. by destruct pe.
Qed.

Definition ff_sized (l : list Z) : Prop := length l = 73%nat.

Lemma ff_of_lengths l : ff_sized l -> length (received (ff_of l)) = 32%nat /\ length (total (ff_of l)) = 32%nat.
Proof. unfold ff_sized. intros H. cbn [ff_of received total]. rewrite !length_take, !length_drop. lia. Qed.

Lemma ff_data_sized h : length (received h) = 32%nat -> length (total h) = 32%nat -> ff_sized (ff_data h).
Proof. intros H1 H2. unfold ff_sized, ff_data. rewrite !length_app, H1, H2. done. Qed.

(** ** Smoothing *)

Lemma moved_away_refl perfect v : moved_away perfect v v = false.
Proof. unfold moved_away. by rewrite Z.ltb_irrefl. Qed.

Lemma smooth_link_data calc l : ff_sized (linkquality l) -> let h := ff_of (linkquality l) in
  ff_of (linkquality (smooth_link calc l)) = set_smoothed_lq (lq h) h /\ ff_sized (linkquality (smooth_link calc l)).
Proof. intros Hl h. destruct (ff_of_lengths _ Hl) as [H1 H2]. split; [by apply ff_of_data|by apply ff_data_sized]. Qed.

Lemma smooth_link_settles calc perfect l : ff_sized (linkquality l) ->
  relevant perfect (ff_of (linkquality (smooth_link calc l))) = false /\ ff_settled perfect (ff_of (linkquality (smooth_link calc l))) = true.
Proof.
  intros Hl. destruct (smooth_link_data calc l Hl) as [-> _]. unfold relevant, ff_settled. cbn [set_smoothed_lq smoothed_lq lq].
  rewrite !moved_away_refl, !Z.eqb_refl, orb_true_r. done.
Qed.

Section ff_links.
Context {cnf : olsrd_config} {lqh : lq_handler}.

Lemma set_links_id st : set_links (links st) st = st.
Proof. by destruct st. Qed.

(** A loop over all links that changes each by itself. *)
Lemma wp_each_link {B} head (b : B) (body : B -> positive -> OM B) (f : link_entry -> link_entry) (g : B -> link_entry -> B) st :
  NoDup head -> (forall p, p ∈ head -> is_Some (links st !! p)) ->
  (forall b p l st, p ∈ head -> links st !! p = Some l -> wp (body b p) (fun b' st' => b' = g b l /\ st' = set_links (<[p := f l]> (links st)) st) st) ->
  wp (foldM head b body) (fun b' st' => exists ls, st' = set_links ls st /\ b' = foldl g b (omap (fun p => links st !! p) head) /\
    forall p, ls !! p = if bool_decide (p ∈ head) then f <$> links st !! p else links st !! p) st.
Proof.
  revert b st. induction head as [|p head IH]; intros b st Hnd Hall Hbody; cbn [foldM].
  - wp_step. exists (links st). split; [by rewrite set_links_id|]. split; [done|]. intros q. by rewrite bool_decide_eq_false_2 by apply not_elem_of_nil.
  - apply NoDup_cons in Hnd as [Hp Hnd]. destruct (Hall p ltac:(by left)) as [l Hl]. wp_step. eapply wp_mono; [by apply Hbody; [left|]|].
    cbv beta. intros b' st' [-> ->]. eapply wp_mono; [apply IH; [done| |]|].
    + intros q Hq. simpl. rewrite lookup_insert_ne by (by intros ->). apply Hall. by right.
    + intros b1 q l1 st1 Hq. apply Hbody. by right.
    + cbv beta. intros b' st' (ls & -> & -> & Hls). simpl in Hls. exists ls. split; [done|]. split.
      * cbn [omap list_omap]. rewrite Hl. cbn [foldl]. f_equal. simpl. clear - Hp. induction head as [|q head IH]; [done|]. cbn [omap list_omap].
        rewrite lookup_insert_ne by (intros ->; apply Hp; by left). destruct (links st !! q); [f_equal|]; apply IH; intros ?; apply Hp; by right.
      * intros q. rewrite Hls. destruct (decide (q = p)) as [->|Hn].
        -- rewrite bool_decide_eq_false_2, bool_decide_eq_true_2 by (done || by left). by rewrite lookup_insert_eq, Hl.
        -- rewrite lookup_insert_ne by done. destruct (decide (q ∈ head)) as [Hq|Hq]; [by rewrite !bool_decide_eq_true_2 by (done || by right)|].
           rewrite !bool_decide_eq_false_2; [done| |done]. by intros [?|?]%elem_of_cons.
Qed.

Lemma forM_foldM {A} (l : list A) (body : A -> OM unit) st : forM_ l body st = foldM l tt (fun _ x => body x) st.
Proof. revert st. induction l as [|x l IH]; intros st; [done|]. cbn [forM_ foldM]. unfold bind. destruct (body x st) as [[[] st1]|]; [apply IH|done]. Qed.

(** What a round of smoothing makes of a link, and whether it starts. *)
Definition relevant_link (perfect : Z -> bool) (l : link_entry) : bool := relevant perfect (ff_of (linkquality l)).
Definition smoothed_link (calc : default_lq_ff -> Z) (perfect : Z -> bool) (l : link_entry) : link_entry :=
  if relevant_link perfect l || negb (ff_settled perfect (ff_of (linkquality l))) then smooth_link calc l else l.

Lemma triggered_links perfect (ls : list link_entry) b :
  foldl (fun b l => if relevant_link perfect l then true else b) b ls = b || existsb (relevant_link perfect) ls.
Proof.
  revert b. induction ls as [|l ls IH]; intros b; [by rewrite orb_false_r|]. cbn [foldl existsb]. rewrite IH. by destruct (relevant_link perfect l), b.
Qed.

Lemma first_pass calc perfect head st : NoDup head -> (forall p, p ∈ head -> is_Some (links st !! p)) ->
  wp (foldM head false (fun triggered link =>
      let* l := get_link link in
      if relevant perfect (ff_of (linkquality l)) then do* upd_link link (smooth_link calc) in ret true else ret triggered))
    (fun b st' => exists ls, st' = set_links ls st /\ b = existsb (relevant_link perfect) (omap (fun p => links st !! p) head) /\
      forall p, ls !! p = if bool_decide (p ∈ head) then (fun l => if relevant_link perfect l then smooth_link calc l else l) <$> links st !! p else links st !! p) st.
Proof.
  intros Hnd Hall. eapply wp_mono; [apply (wp_each_link head false _ (fun l => if relevant_link perfect l then smooth_link calc l else l)
    (fun b l => if relevant_link perfect l then true else b) st Hnd Hall)|].
  - intros b p l st1 _ Hl. wp_step. eapply wp_get_link; [exact Hl|]. unfold relevant_link. destruct (relevant perfect _) eqn:E.
    + wp_step. eapply wp_upd_link; [exact Hl|]. by wp_step.
    + wp_step. split; [done|]. rewrite insert_id by done. by rewrite set_links_id.
  - cbv beta. intros b st' (ls & -> & -> & Hls). exists ls. split; [done|]. split; [by rewrite triggered_links|done].
Qed.

Lemma second_pass calc perfect head st : NoDup head -> (forall p, p ∈ head -> is_Some (links st !! p)) ->
  wp (forM_ head (fun link =>
      let* l := get_link link in
      if ff_settled perfect (ff_of (linkquality l)) then ret tt else upd_link link (smooth_link calc)))
    (fun _ st' => exists ls, st' = set_links ls st /\
      forall p, ls !! p = if bool_decide (p ∈ head) then (fun l => if ff_settled perfect (ff_of (linkquality l)) then l else smooth_link calc l) <$> links st !! p else links st !! p) st.
Proof.
  intros Hnd Hall. unfold wp. rewrite forM_foldM. change (wp ?m ?Q st) with (wp m Q st).
  eapply wp_mono; [apply (wp_each_link head tt (fun _ link => let* l := get_link link in if ff_settled perfect (ff_of (linkquality l)) then ret tt else upd_link link (smooth_link calc))
    (fun l => if ff_settled perfect (ff_of (linkquality l)) then l else smooth_link calc l) (fun b _ => b) st Hnd Hall)|].
  - intros [] p l st1 _ Hl. wp_step. eapply wp_get_link; [exact Hl|]. destruct (ff_settled perfect _).
    + wp_step. split; [done|]. rewrite insert_id by done. by rewrite set_links_id.
    + eapply wp_upd_link; [exact Hl|]. done.
  - cbv beta. intros b st' (ls & -> & _ & Hls). by exists ls.
Qed.

Lemma wp_relevant_change (st : olsr_state) (Q : unit -> olsr_state -> Prop) :
  (forall st', links st' = links st -> link_entry_head st' = link_entry_head st -> changes_neighborhood st' = true -> changes_topology st' = true -> link_changes st' = true -> Q tt st') ->
  wp olsr_relevant_linkcost_change Q st.
Proof. intros HQ. unfold olsr_relevant_linkcost_change. wp_prims. by apply HQ. Qed.

Lemma wp_handle_lqchange calc perfect st : link_wf st -> (forall p l, links st !! p = Some l -> ff_sized (linkquality l)) ->
  wp (handle_lqchange calc perfect) (fun _ st' =>
    link_entry_head st' = link_entry_head st /\
    (forall p, links st' !! p = if existsb (relevant_link perfect) (omap (fun p => links st !! p) (link_entry_head st)) then smoothed_link calc perfect <$> links st !! p else links st !! p) /\
    (forall p l, links st' !! p = Some l -> relevant_link perfect l = false /\ ff_sized (linkquality l)) /\
    if existsb (relevant_link perfect) (omap (fun p => links st !! p) (link_entry_head st))
    then changes_neighborhood st' = true /\ changes_topology st' = true /\ link_changes st' = true else st' = st) st.
Proof.
  intros Hwf Hsz. assert (forall p, p ∈ link_entry_head st -> is_Some (links st !! p)) as Hall by (intros p Hp; by apply (lw_alloc _ Hwf)).
  unfold handle_lqchange, OLSR_FOR_ALL_LINK_ENTRIES. wp_step. wp_step. wp_step. eapply wp_mono; [apply (first_pass calc perfect _ st (lw_nodup _ Hwf) Hall)|].
  cbv beta. intros b st1 (ls & -> & -> & Hls). assert (forall p, ls !! p = (fun l => if relevant_link perfect l then smooth_link calc l else l) <$> links st !! p) as Hls'.
  { intros p. rewrite Hls. destruct (links st !! p) as [l|] eqn:E; [|by case_match]. rewrite bool_decide_eq_true_2; [done|]. apply (lw_alloc _ Hwf). by rewrite E. }
  clear Hls. destruct (existsb _ _) eqn:Ex; cbn [negb].
  - wp_step. eapply wp_mono; [apply (second_pass calc perfect (link_entry_head st) (set_links ls st) (lw_nodup _ Hwf))|].
    { intros p Hp. simpl. rewrite Hls', fmap_is_Some. by apply Hall. }
    cbv beta. intros _ st2 (ls2 & -> & Hls2). simpl in Hls2.
    assert (forall p, ls2 !! p = smoothed_link calc perfect <$> links st !! p) as H2.
    { intros p. rewrite Hls2, Hls'. destruct (links st !! p) as [l|] eqn:E; [|by case_match]. rewrite bool_decide_eq_true_2 by (apply (lw_alloc _ Hwf); by rewrite E).
      cbn [fmap option_fmap option_map]. f_equal. unfold smoothed_link. destruct (relevant_link perfect l); cbn [orb]; [|by destruct (ff_settled _ _)].
      destruct (smooth_link_settles calc perfect l (Hsz p l E)) as [_ ->]. done. }
    apply wp_relevant_change. intros st3 E1 E2 F1 F2 F3. simpl in E1, E2. split; [done|]. split; [by rewrite E1|]. split; [|done].
    rewrite E1. intros p l'. rewrite H2. destruct (links st !! p) as [l|] eqn:E; [|done]. intros [= <-]. unfold smoothed_link.
    destruct (relevant_link perfect l || _) eqn:Er.
    + destruct (smooth_link_settles calc perfect l (Hsz p l E)) as [H _]. destruct (smooth_link_data calc l (Hsz p l E)) as [_ H']. done.
    + apply orb_false_iff in Er as [Er _]. split; [done|by eapply Hsz].
  - assert (forall p l, links st !! p = Some l -> relevant_link perfect l = false) as Hno.
    { intros p l Hp. destruct (relevant_link perfect l) eqn:Er; [|done]. exfalso. assert (existsb (relevant_link perfect) (omap (fun p => links st !! p) (link_entry_head st)) = true) as Ht; [|congruence].
      apply existsb_exists. exists l. split; [|done]. apply list_elem_of_In, list_elem_of_omap. exists p. split; [|done]. apply (lw_alloc _ Hwf). by rewrite Hp. }
    assert (ls = links st) as ->.
    { apply map_eq. intros p. rewrite Hls'. destruct (links st !! p) as [l|] eqn:E; [|done]. simpl. by rewrite (Hno p l E). }
    wp_step. rewrite set_links_id. split; [done|]. split; [done|]. split; [|done]. intros p l Hp. split; [by eapply Hno|by eapply Hsz].
Qed.

(** The best values of etx_ff and of etx_ffeth, the cost and the handler of each. *)
Definition best_value (eth : bool) (v : Z) : Prop := if eth then 254 <= v else v = 255.
Definition metric_cost (eth : bool) : default_lq_ff -> Z := if eth then default_lq_calc_cost_ffeth else default_lq_calc_cost_ff.
Definition metric_handler (eth : bool) : OM unit := if eth then default_lq_ffeth_handle_lqchange else default_lq_ff_handle_lqchange.

(** A smoothed value follows a measured one: it is at most a tenth of itself away, and does not stay below a best value. *)
Definition follows (eth : bool) (smoothed measured : Z) : Prop :=
  smoothed = measured \/ 10 * Z.abs (measured - smoothed) <= smoothed /\ (smoothed < measured -> ~ best_value eth measured).

(** Both smoothed values of the link, the one of this node and the one of the neighbour, follow the measured ones. *)
Definition link_follows (eth : bool) (l : link_entry) : Prop :=
  let h := ff_of (linkquality l) in
  follows eth (ff_valueLq (smoothed_lq h)) (ff_valueLq (lq h)) /\ follows eth (ff_valueNlq (smoothed_lq h)) (ff_valueNlq (lq h)).

(** The link may be left as it is: its smoothed values are the measured ones, or they follow them and both are best. *)
Definition may_stay (eth : bool) (l : link_entry) : Prop :=
  let h := ff_of (linkquality l) in
  smoothed_lq h = lq h \/ link_follows eth l /\ best_value eth (ff_valueLq (smoothed_lq h)) /\ best_value eth (ff_valueNlq (smoothed_lq h)).

(** From [l] to [l'] the smoothed values and the cost are those of the measured values, and all else is as it was. *)
Record smoothed_anew (eth : bool) (l l' : link_entry) : Prop := {
  sa_lq : ff_valueLq (smoothed_lq (ff_of (linkquality l'))) = ff_valueLq (lq (ff_of (linkquality l)));
  sa_nlq : ff_valueNlq (smoothed_lq (ff_of (linkquality l'))) = ff_valueNlq (lq (ff_of (linkquality l)));
  sa_cost : linkcost l' = metric_cost eth (lq (ff_of (linkquality l)));
  sa_data : set_smoothed_lq (smoothed_lq (ff_of (linkquality l))) (ff_of (linkquality l')) = ff_of (linkquality l);
  sa_link : set_linkcost (linkcost l) (set_linkquality (linkquality l) l') = l;
}.

(** The same as the handlers have it. *)
Definition metric_perfect (eth : bool) : Z -> bool := if eth then ffeth_perfect else ff_perfect.

Lemma perfect_best eth v : (metric_perfect eth) v = true <-> best_value eth v.
Proof. unfold best_value, metric_perfect, ffeth_perfect, ff_perfect. destruct eth; [rewrite Z.geb_leb, Z.leb_le; lia|apply Z.eqb_eq]. Qed.

Lemma moved_away_follows eth s v : moved_away (metric_perfect eth) s v = false <-> follows eth s v.
Proof.
  unfold moved_away, follows. pose proof (perfect_best eth v) as Hb. pose proof (Z.div_mod s 10 ltac:(lia)) as Hd. pose proof (Z.mod_pos_bound s 10 ltac:(lia)) as Hm.
  destruct (Z.ltb_spec s v) as [H|H]; [|destruct (Z.ltb_spec v s) as [H'|H']].
  - rewrite orb_false_iff, Z.gtb_ltb, Z.ltb_ge, <- Hb, <- not_true_iff_false. split; [intros [H1 H2]; right; split; [lia|done]|].
    intros [->|[H1 H2]]; [lia|]. split; [by apply H2|lia].
  - rewrite Z.gtb_ltb, Z.ltb_ge. split; [intros H1; right; split; [lia|lia]|]. intros [->|[H1 _]]; lia.
  - split; [intros _; left; lia|done].
Qed.

Lemma relevant_follows eth l : relevant_link (metric_perfect eth) l = false <-> link_follows eth l.
Proof. unfold relevant_link, relevant, link_follows. by rewrite orb_false_iff, !moved_away_follows. Qed.

Lemma settled_stays eth l : relevant_link (metric_perfect eth) l || negb (ff_settled (metric_perfect eth) (ff_of (linkquality l))) = false <->
  may_stay eth l.
Proof.
  unfold may_stay. rewrite orb_false_iff, relevant_follows, negb_false_iff. unfold ff_settled. rewrite orb_true_iff, !andb_true_iff, !perfect_best, !Z.eqb_eq.
  unfold link_follows, follows. destruct (smoothed_lq (ff_of (linkquality l))) as [a b], (lq (ff_of (linkquality l))) as [c d]. cbn [ff_valueLq ff_valueNlq]. split.
  - intros [H1 [[H2 H3]|[-> ->]]]; [by right|by left].
  - intros [[= -> ->]|[H1 H2]]; [|by split; [|left]]. split; [split; by left|by right].
Qed.

Lemma smooth_link_anew eth l : ff_sized (linkquality l) -> smoothed_anew eth l (smooth_link (metric_cost eth) l).
Proof. intros Hl. destruct (smooth_link_data (metric_cost eth) l Hl) as [E _]. split; rewrite ?E; [done|done|done|by destruct (ff_of (linkquality l))|by destruct l]. Qed.

(** C37: After a second of etx_ff or etx_ffeth both smoothed values of every link follow the measured ones: neither is more than a tenth of itself away, or below a best value.
    Nothing changes if that was so before. Otherwise every link gets the measured values as smoothed ones and the cost of them,
    unless it has these values already or follows them with best values on both sides; the latter are not changed. The tables are then told that the cost of links changed, so that the routes are
    calculated again. *)
Theorem handle_lqchange_correct eth st : link_wf st -> (forall p l, links st !! p = Some l -> ff_sized (linkquality l)) ->
  wp (metric_handler eth) (fun _ st' =>
    (forall p l, links st' !! p = Some l -> link_follows eth l /\ ff_sized (linkquality l)) /\
    ((forall p l, links st !! p = Some l -> link_follows eth l) -> st' = st) /\
    (~ (forall p l, links st !! p = Some l -> link_follows eth l) ->
      changes_neighborhood st' = true /\ changes_topology st' = true /\ link_changes st' = true /\ link_entry_head st' = link_entry_head st /\
      (forall p, links st !! p = None -> links st' !! p = None) /\
      forall p l, links st !! p = Some l -> exists l', links st' !! p = Some l' /\ (may_stay eth l -> l' = l) /\ (~ may_stay eth l -> smoothed_anew eth l l'))) st.
Proof.
  intros Hwf Hsz. assert (metric_handler eth = handle_lqchange (metric_cost eth) (metric_perfect eth)) as -> by by destruct eth.
  eapply wp_mono; [by apply wp_handle_lqchange|]. cbv beta. intros _ st' (Hh & Hl & Hf & Hc).
  assert (existsb (relevant_link (metric_perfect eth)) (omap (fun p => links st !! p) (link_entry_head st)) = false <->
    forall p l, links st !! p = Some l -> link_follows eth l) as Hiff.
  { rewrite <- not_true_iff_false, existsb_exists. split.
    - intros Hno p l Hp. apply relevant_follows, not_true_iff_false. intros Hr. apply Hno. exists l. split; [|done]. apply list_elem_of_In, list_elem_of_omap. exists p.
      split; [|done]. apply (lw_alloc _ Hwf). by rewrite Hp.
    - intros Hall (l & Hin & Hr). apply list_elem_of_In, list_elem_of_omap in Hin as (p & _ & Hp). apply Hall, relevant_follows in Hp. congruence. }
  split; [|split].
  - intros p l Hp. destruct (Hf p l Hp) as [H1 H2]. split; [by apply relevant_follows|done].
  - intros Hall. apply Hiff in Hall. by rewrite Hall in Hc.
  - intros Hno. destruct (existsb _ _); [|destruct Hno; by apply Hiff]. destruct Hc as (C1 & C2 & C3). do 4 (split; [done|]). split.
    + intros p Hp. by rewrite Hl, Hp.
    + intros p l Hp. rewrite Hl, Hp. cbn [fmap option_fmap option_map]. eexists. split; [done|]. pose proof (settled_stays eth l) as Hs. unfold smoothed_link.
      destruct (relevant_link _ l || _); split; try done.
      * intros H. by apply Hs in H.
      * intros _. apply smooth_link_anew. by eapply Hsz.
      * intros H. destruct H. by apply Hs.
Qed.

End ff_links.

(** ** The handlers *)

Definition default_lq_serialize_hello_lq_pair_ff (x : default_lq_ff) : list Z := [u8 (ff_valueLq x); u8 (ff_valueNlq x); u8 0; u8 0].
Definition default_lq_serialize_tc_lq_pair_ff (x : default_lq_ff) : list Z := [u8 (ff_valueLq x); u8 (ff_valueNlq x); u8 0; u8 0].
Definition default_lq_serialize_hello_lq_pair_ffeth (x : default_lq_ff) : list Z := [u8 0; u8 0; u8 (ff_valueLq x); u8 (ff_valueNlq x)].
Definition default_lq_serialize_tc_lq_pair_ffeth (x : default_lq_ff) : list Z := [u8 0; u8 0; u8 (ff_valueLq x); u8 (ff_valueNlq x)].

Definition default_lq_deserialize_hello_lq_pair_ff (curr : list Z) : option (default_lq_ff * list Z) :=
  '(a, curr) ← pkt_get_u8 curr;
  '(b, curr) ← pkt_get_u8 curr;
  Some ({| ff_valueLq := a; ff_valueNlq := b |}, pkt_ignore_u16 curr).
Definition default_lq_deserialize_tc_lq_pair_ff (curr : list Z) : option (default_lq_ff * list Z) :=
  '(a, curr) ← pkt_get_u8 curr;
  '(b, curr) ← pkt_get_u8 curr;
  Some ({| ff_valueLq := a; ff_valueNlq := b |}, pkt_ignore_u16 curr).
Definition default_lq_deserialize_hello_lq_pair_ffeth (curr : list Z) : option (default_lq_ff * list Z) :=
  '(a, curr) ← pkt_get_u8 (pkt_ignore_u16 curr);
  '(b, curr) ← pkt_get_u8 curr;
  Some ({| ff_valueLq := a; ff_valueNlq := b |}, curr).
Definition default_lq_deserialize_tc_lq_pair_ffeth (curr : list Z) : option (default_lq_ff * list Z) :=
  '(a, curr) ← pkt_get_u8 (pkt_ignore_u16 curr);
  '(b, curr) ← pkt_get_u8 curr;
  Some ({| ff_valueLq := a; ff_valueNlq := b |}, curr).

Definition default_lq_packet_loss_worker_ff (h : default_lq_ff_hello) (lost : bool) : default_lq_ff_hello :=
  if lost then set_missed_hellos (u16 (missed_hellos h + 1)) h else h.

Definition default_lq_memorize_foreign_hello_ff (local : default_lq_ff_hello) (foreign : option default_lq_ff) : default_lq_ff_hello :=
  set_lq {| ff_valueLq := ff_valueLq (lq local); ff_valueNlq := match foreign with Some f => ff_valueLq f | None => 0 end |} local.

Definition default_lq_copy_link2neigh_ff (source : default_lq_ff_hello) : default_lq_ff := smoothed_lq source.

Definition default_lq_clear_ff : default_lq_ff := {| ff_valueLq := 0; ff_valueNlq := 0 |}.

(** The fields that are not set are zero from the allocation. *)
Definition default_lq_clear_ff_hello : default_lq_ff_hello :=
  {| smoothed_lq := default_lq_clear_ff; lq := default_lq_clear_ff; windowSize := LQ_FF_QUICKSTART_INIT; activePtr := 0; last_seq_nr := 0;
     missed_hellos := 0; perfect_eth := false; received := replicate 32 0; total := replicate 32 3 |}.

(** The other file has the same functions. *)
Definition default_lq_packet_loss_worker_ffeth := default_lq_packet_loss_worker_ff.
Definition default_lq_memorize_foreign_hello_ffeth := default_lq_memorize_foreign_hello_ff.
Definition default_lq_copy_link2tc_ff := default_lq_copy_link2neigh_ff.
Definition default_lq_copy_link2neigh_ffeth := default_lq_copy_link2neigh_ff.
Definition default_lq_copy_link2tc_ffeth := default_lq_copy_link2neigh_ff.
Definition default_lq_clear_ffeth := default_lq_clear_ff.
Definition default_lq_clear_ffeth_hello := default_lq_clear_ff_hello.

(** A pair written over the beginning of the data of a link or a neighbour. *)
Definition with_pair (x : default_lq_ff) (l : list Z) : list Z := ff_pair_data x ++ drop 2 l.

Definition lq_etx_ff_handler : lq_handler :=
  {| calc_hello_cost := fun l => default_lq_calc_cost_ff (ff_pair l);
     calc_tc_cost := fun l => default_lq_calc_cost_ff (ff_pair l);
     packet_loss_handler := fun link lost => (ff_data (default_lq_packet_loss_worker_ff (ff_of (linkquality link)) lost), linkcost link);
     packet_loss_relevant := false;
     memorize_foreign_hello := fun l f => ff_data (default_lq_memorize_foreign_hello_ff (ff_of l) (ff_pair <$> f));
     copy_link_lq_into_neigh := fun l => with_pair (default_lq_copy_link2neigh_ff (ff_of l)) (ff_data default_lq_clear_ff_hello);
     copy_link_lq_into_tc := fun l => ff_pair_data (default_lq_copy_link2tc_ff (ff_of l));
     zero_hello_lq := ff_data default_lq_clear_ff_hello;
     zero_tc_lq := ff_pair_data default_lq_clear_ff;
     serialize_hello_lq := fun l => default_lq_serialize_hello_lq_pair_ff (ff_pair l);
     serialize_tc_lq := fun l => default_lq_serialize_tc_lq_pair_ff (ff_pair l);
     deserialize_hello_lq := fun l curr => '(x, curr) ← default_lq_deserialize_hello_lq_pair_ff curr; Some (with_pair x l, curr);
     deserialize_tc_lq := fun l curr => '(x, curr) ← default_lq_deserialize_tc_lq_pair_ff curr; Some (with_pair x l, curr);
     hello_lqdata_size := 4; tc_lqdata_size := 4 |}.

Definition lq_etx_ffeth_handler : lq_handler :=
  {| calc_hello_cost := fun l => default_lq_calc_cost_ffeth (ff_pair l);
     calc_tc_cost := fun l => default_lq_calc_cost_ffeth (ff_pair l);
     packet_loss_handler := fun link lost => (ff_data (default_lq_packet_loss_worker_ffeth (ff_of (linkquality link)) lost), linkcost link);
     packet_loss_relevant := false;
     memorize_foreign_hello := fun l f => ff_data (default_lq_memorize_foreign_hello_ffeth (ff_of l) (ff_pair <$> f));
     copy_link_lq_into_neigh := fun l => with_pair (default_lq_copy_link2neigh_ffeth (ff_of l)) (ff_data default_lq_clear_ffeth_hello);
     copy_link_lq_into_tc := fun l => ff_pair_data (default_lq_copy_link2tc_ffeth (ff_of l));
     zero_hello_lq := ff_data default_lq_clear_ffeth_hello;
     zero_tc_lq := ff_pair_data default_lq_clear_ffeth;
     serialize_hello_lq := fun l => default_lq_serialize_hello_lq_pair_ffeth (ff_pair l);
     serialize_tc_lq := fun l => default_lq_serialize_tc_lq_pair_ffeth (ff_pair l);
     deserialize_hello_lq := fun l curr => '(x, curr) ← default_lq_deserialize_hello_lq_pair_ffeth curr; Some (with_pair x l, curr);
     deserialize_tc_lq := fun l curr => '(x, curr) ← default_lq_deserialize_tc_lq_pair_ffeth curr; Some (with_pair x l, curr);
     hello_lqdata_size := 4; tc_lqdata_size := 4 |}.

#[export] Instance lq_etx_ff_sizes : lq_sizes lq_etx_ff_handler.
Proof. by split. Qed.
#[export] Instance lq_etx_ffeth_sizes : lq_sizes lq_etx_ffeth_handler.
Proof. by split. Qed.
#[export] Instance lq_etx_ff_laws : lq_laws lq_etx_ff_handler.
Proof. split. intros l. simpl. pose proof (ff_cost_range (ff_pair l)). lia. Qed.
#[export] Instance lq_etx_ffeth_laws : lq_laws lq_etx_ffeth_handler.
Proof. split. intros l. simpl. pose proof (ffeth_cost_range (ff_pair l)). lia. Qed.

(** What is written is read back, and nothing after it. *)
Lemma ff_pair_roundtrip x l rest : is_u8 (ff_valueLq x) -> is_u8 (ff_valueNlq x) ->
  (forall h : lq_handler, h = lq_etx_ff_handler \/ h = lq_etx_ffeth_handler ->
    deserialize_hello_lq l (serialize_hello_lq (ff_pair_data x) ++ rest) = Some (with_pair x l, rest) /\
    deserialize_tc_lq l (serialize_tc_lq (ff_pair_data x) ++ rest) = Some (with_pair x l, rest)).
Proof.
  intros Ha Hb h [-> | ->]; destruct x; simpl in *; unfold pkt_ignore_u16; simpl; by rewrite !u8_id, ?drop_0.
Qed.

(** A link that is not Ethernet never gets the cost of a perfect Ethernet link. *)
Lemma ffeth_second_radio mult helloint h : 0 <= mult <= LINK_LOSS_MULTIPLIER -> ff_wf h -> 0 <= ff_valueLq (lq (ffeth_second false mult helloint h)) <= 254.
Proof.
  intros Hm Hw. destruct (window_quality_spec mult helloint Hm h Hw) as (_ & _ & H & _). unfold ffeth_second, shift_window, booster.
  cbn [measure set_window set_lq lq ff_valueLq]. destruct (window_quality mult helloint (enlarged h) h >? 0) eqn:E; cbn [measure set_window set_lq lq ff_valueLq]; bool_hyps; lia.
Qed.

(** A packet is counted, with the packets that must have been sent since the last one; the
    counters stay consistent as long as the second has not seen 65279 packets. *)
Lemma count_packet_wf olsr_seqno h : is_u16 olsr_seqno -> ff_wf h -> (forall t, total h !! Z.to_nat (activePtr h) = Some t -> t <= 65279) -> ff_wf (count_packet olsr_seqno h).
Proof.
  unfold is_u16. intros Hs [H1 H2 H3 H4 H5 H6 H7] Ht. unfold is_u16 in H3. unfold count_packet. destruct (last_seq_nr h =? olsr_seqno) eqn:E; [by split|]. apply Z.eqb_neq in E.
  set (d0 := if last_seq_nr h >? olsr_seqno then _ else _). set (d := if d0 >? 256 then 1 else d0).
  assert (1 <= d <= 256) as Hd.
  { assert (1 <= d0) as Hd0. { unfold d0. destruct (last_seq_nr h >? olsr_seqno) eqn:E1; bool_hyps; [rewrite u32_id by (unfold is_u32; lia); lia|lia]. }
    unfold d. destruct (d0 >? 256) eqn:E2; bool_hyps; lia. }
  clearbody d. split; cbn [windowSize activePtr last_seq_nr missed_hellos received total]; rewrite ?length_alter; try done.
  apply Forall2_alter; [done|]. intros r t Hr Htt [Hrt Hb]. specialize (Ht t Htt). rewrite !u16_id by (unfold is_u16; lia). lia.
Qed.

(** ** Witnesses *)

(** A link over which every packet of the last 32 seconds arrived, ten each second. *)
Definition full_window (perfect : bool) : default_lq_ff_hello :=
  {| smoothed_lq := {| ff_valueLq := 255; ff_valueNlq := 255 |}; lq := {| ff_valueLq := 255; ff_valueNlq := 255 |}; windowSize := 32; activePtr := 5;
     last_seq_nr := 77; missed_hellos := 0; perfect_eth := perfect; received := replicate 32 10; total := replicate 32 10 |}.

Lemma full_window_wf b : ff_wf (full_window b).
Proof. split; try (unfold is_u16, LQ_FF_WINDOW; simpl; lia); try reflexivity. apply Forall2_replicate. lia. Qed.

Lemma full_mult : 0 <= 65536 <= LINK_LOSS_MULTIPLIER.
Proof. unfold LINK_LOSS_MULTIPLIER. lia. Qed.

Lemma ff_second_correct_witness : ff_valueLq (lq (ff_second 65536 2000 (set_missed_hellos 2 (full_window false)))) = 223.
Proof.
  assert (ff_wf (set_missed_hellos 2 (full_window false))) as Hw by (destruct (full_window_wf false); split; try done; unfold is_u16; simpl; lia).
  destruct (ff_second_correct 65536 2000 full_mult (set_missed_hellos 2 (full_window false)) Hw) as (_ & _ & _ & _ & H & _).
  rewrite H. vm_compute. reflexivity.
Defined.

Lemma ff_silent_link_breaks_witness : default_lq_calc_cost_ff (lq (Nat.iter 40 (ff_second 65536 2000) (full_window false))) = LINK_COST_BROKEN.
Proof. exact (proj2 (ff_silent_link_breaks 65536 2000 (full_window false) 40 (full_window_wf false) ltac:(lia))). Defined.

Lemma ffeth_cost_classes_witness : default_lq_calc_cost_ffeth {| ff_valueLq := 255; ff_valueNlq := 254 |} >= 1024.
Proof.
  destruct (ffeth_cost_classes {| ff_valueLq := 255; ff_valueNlq := 254 |}) as [(_ & H & _)|[_ H]]; [unfold is_u8; simpl; lia|unfold is_u8; simpl; lia|discriminate H|]. lia.
Defined.

(** No packet for an hour. *)
Lemma ffeth_dead_link_perfect_witness :
  default_lq_calc_cost_ffeth (lq (foldl (fun h m => ffeth_second true 65536 2000 (set_missed_hellos m h)) (full_window true) (replicate 3600 3))) = 102.
Proof.
  apply (ffeth_dead_link_perfect 65536 2000 (replicate 3600 3) (full_window true) full_mult (full_window_wf true) eq_refl).
  - lia.
  - apply Forall_replicate. lia.
  - discriminate.
  - reflexivity.
Defined.

Section smoothing_witness.
#[local] Existing Instance sample_cnf.
#[local] Existing Instance sample_lq.

(** The quality of the only link fell from 255 to 100. *)
Definition fallen : olsr_state :=
  set_links (set_linkquality (ff_data (set_lq {| ff_valueLq := 100; ff_valueNlq := 255 |} (full_window false))) <$> links lk1) lk1.

Lemma relinked_wf st x : link_wf st -> link_wf (set_links (set_linkquality x <$> links st) st).
Proof.
  intros Hwf. apply (link_wf_ext st); [exact Hwf|reflexivity|reflexivity| |reflexivity].
  intros p. cbn [set_links links]. rewrite lookup_fmap. by destruct (links st !! p).
Qed.

Lemma fallen_wf : link_wf fallen.
Proof. exact (relinked_wf lk1 _ (proj2 lk1_wf)). Qed.

Lemma relinked_sized st x p l : ff_sized x -> links (set_links (set_linkquality x <$> links st) st) !! p = Some l -> ff_sized (linkquality l).
Proof. intros Hx. cbn [set_links links]. rewrite lookup_fmap. destruct (links st !! p) as [l0|]; [|done]. by intros [= <-]. Qed.

Lemma fallen_sized p l : links fallen !! p = Some l -> ff_sized (linkquality l).
Proof. apply relinked_sized. reflexivity. Qed.

Lemma fallen_away : ~ (forall p l, links fallen !! p = Some l -> link_follows false l).
Proof.
  intros H. assert (exists l, links fallen !! 2%positive = Some l /\ ff_valueLq (smoothed_lq (ff_of (linkquality l))) = 255 /\ ff_valueLq (lq (ff_of (linkquality l))) = 100) as (l & Hl & E1 & E2)
    by (eexists; split; [vm_compute; reflexivity|]; split; vm_compute; reflexivity).
  destruct (H _ _ Hl) as [F _]. rewrite E1, E2 in F. destruct F as [F|[F _]]; simpl in F; lia.
Qed.

Lemma handle_lqchange_correct_witness :
  wp default_lq_ff_handle_lqchange (fun _ st' => changes_topology st' = true /\ exists l, links st' !! 2%positive = Some l /\
    linkcost l = default_lq_calc_cost_ff {| ff_valueLq := 100; ff_valueNlq := 255 |}) fallen.
Proof.
  eapply wp_mono; [exact (handle_lqchange_correct false fallen fallen_wf fallen_sized)|]. cbv beta. intros _ st' (_ & _ & H).
  destruct (H fallen_away) as (_ & Ht & _ & _ & _ & Hall). split; [exact Ht|].
  assert (exists l, links fallen !! 2%positive = Some l /\ smoothed_lq (ff_of (linkquality l)) = {| ff_valueLq := 255; ff_valueNlq := 255 |} /\
    lq (ff_of (linkquality l)) = {| ff_valueLq := 100; ff_valueNlq := 255 |}) as (l & Hl & E1 & E2)
    by (eexists; split; [vm_compute; reflexivity|]; split; vm_compute; reflexivity).
  destruct (Hall _ _ Hl) as (l' & Hl' & _ & Hs). exists l'. split; [exact Hl'|]. rewrite <- E2. apply Hs.
  unfold may_stay, link_follows. rewrite E1, E2. intros [E|[[[F|[F _]] _] _]]; [discriminate E|discriminate F|simpl in F; lia].
Defined.

End smoothing_witness.
