(* ===== verification/NatThresh.v ===== *)
(** * routing_table.c: scaling the cost of the current gateway

    [olsr_cmp_rtp] multiplies an [olsr_linkcost] with the NAT threshold, a float, and
    converts the product back. The conversions round; here they are bounded. *)

From S2P Require Import Prelude Timer Avl IpAddr KeyTree State LsdbOps NeighSpec RouteTable.
From Stdlib Require Import SpecFloat.

(** [m * 2 ^ e <= b], in integers. *)
Definition le_val (m e b : Z) : Prop := forall j, 0 <= j -> 0 <= e + j -> m * 2 ^ (e + j) <= b * 2 ^ j.

Lemma le_val_at j m e b : 0 <= j -> 0 <= e + j -> m * 2 ^ (e + j) <= b * 2 ^ j -> le_val m e b.
Proof.
  intros Hj He H i Hi Hei.
  assert (forall x y, 0 <= x -> 0 <= y -> 2 ^ (x + y) = 2 ^ x * 2 ^ y) as Hpow by (intros; by apply Z.pow_add_r).
  destruct (Z_le_gt_dec j i) as [Hle|Hgt].
  - pose proof (Hpow (e + j) (i - j) ltac:(lia) ltac:(lia)) as E1. replace (e + j + (i - j)) with (e + i) in E1 by lia.
    pose proof (Hpow j (i - j) ltac:(lia) ltac:(lia)) as E2. replace (j + (i - j)) with i in E2 by lia. rewrite E1, E2.
    assert (0 < 2 ^ (i - j)) by (apply Z.pow_pos_nonneg; lia). nia.
  - pose proof (Hpow (e + i) (j - i) ltac:(lia) ltac:(lia)) as E1. replace (e + i + (j - i)) with (e + j) in E1 by lia.
    pose proof (Hpow i (j - i) ltac:(lia) ltac:(lia)) as E2. replace (i + (j - i)) with j in E2 by lia. rewrite E1, E2 in H.
    assert (0 < 2 ^ (j - i)) by (apply Z.pow_pos_nonneg; lia). nia.
Qed.

(** Moving the point to the right by [k] and adding at most one. *)
Lemma le_val_round k m m' e b c :
  0 <= k -> 0 <= m -> le_val m e b -> m' <= m / 2 ^ k + 1 -> 0 <= c -> (m / 2 ^ k < m' -> e + k <= c) -> le_val m' (e + k) (b + 2 ^ c).
Proof.
  intros Hk Hm H Hm' Hc Hek. set (j := Z.max 0 (- e)). apply (le_val_at j); [lia..|].
  assert (le_val (m / 2 ^ k) (e + k) b) as Hfl.
  { apply (le_val_at j); [lia..|]. specialize (H j ltac:(lia) ltac:(lia)).
    assert (m / 2 ^ k * 2 ^ k <= m) by (rewrite Z.mul_comm; apply Z.mul_div_le, Z.pow_pos_nonneg; lia).
    replace (e + k + j) with (k + (e + j)) by lia. rewrite Z.pow_add_r by lia.
    assert (0 < 2 ^ (e + j)) by (apply Z.pow_pos_nonneg; lia). nia. }
  specialize (Hfl j ltac:(lia) ltac:(lia)). assert (0 < 2 ^ (e + k + j)) by (apply Z.pow_pos_nonneg; lia).
  assert (0 < 2 ^ j) by (apply Z.pow_pos_nonneg; lia). assert (0 < 2 ^ c) by (apply Z.pow_pos_nonneg; lia).
  destruct (Z_lt_le_dec (m / 2 ^ k) m') as [Hlt|Hle]; [|nia].
  assert (2 ^ (e + k + j) <= 2 ^ c * 2 ^ j) by (rewrite <- Z.pow_add_r by lia; apply Z.pow_le_mono_r; lia). nia.
Qed.

(** ** The digits of the mantissa *)

Lemma digits_low m : 2 ^ (Z.pos (digits2_pos m) - 1) <= Z.pos m.
Proof.
  induction m; simpl digits2_pos; try done; rewrite Pos2Z.inj_succ;
    replace (Z.succ (Z.pos (digits2_pos m)) - 1) with ((Z.pos (digits2_pos m) - 1) + 1) by lia;
    rewrite Z.pow_add_r by lia; lia.
Qed.

Lemma le_val_digits m e b : le_val (Z.pos m) e b -> b < 2 ^ 32 -> Z.pos (digits2_pos m) + e <= 32.
Proof.
  intros H Hb. destruct (Z_le_gt_dec (Z.pos (digits2_pos m) + e) 32) as [?|Hgt]; [done|exfalso].
  set (j := Z.max 0 (- e)). specialize (H j ltac:(lia) ltac:(lia)). pose proof (digits_low m) as Hd.
  assert (2 ^ (32 + j) <= 2 ^ (Z.pos (digits2_pos m) - 1) * 2 ^ (e + j)) as H2.
  { rewrite <- Z.pow_add_r by lia. apply Z.pow_le_mono_r; lia. }
  rewrite Z.pow_add_r in H2 by lia. assert (0 < 2 ^ j) by (apply Z.pow_pos_nonneg; lia).
  assert (0 < 2 ^ (e + j)) by (apply Z.pow_pos_nonneg; lia). nia.
Qed.

(** ** Shifting *)

Lemma shr_1_half x : 0 <= shr_m x -> shr_m (shr_1 x) = shr_m x / 2.
Proof.
  destruct x as [[|[p|p|]|p] r s]; simpl; intros H; try done; try lia.
  - rewrite Pos2Z.inj_xI. rewrite Z.add_comm, Z.mul_comm, Z.div_add by lia. done.
  - rewrite Pos2Z.inj_xO. by rewrite Z.mul_comm, Z.div_mul.
Qed.

Definition shifts (f : shr_record -> shr_record) (k : Z) : Prop :=
  forall x, 0 <= shr_m x -> shr_m (f x) = shr_m x / 2 ^ k.

Lemma shifts_comp f g k l : 0 <= k -> 0 <= l -> shifts f k -> shifts g l -> shifts (fun x => g (f x)) (k + l).
Proof.
  intros Hk Hl Hf Hg x Hx. rewrite Hg, Hf; [|done|].
  - rewrite Z.div_div by (first [apply Z.pow_nonzero|apply Z.pow_pos_nonneg]; lia). by rewrite Z.pow_add_r.
  - rewrite Hf by done. by apply Z.div_pos; [|apply Z.pow_pos_nonneg].
Qed.

Lemma iter_shr p : shifts (iter_pos shr_1 p) (Z.pos p).
Proof.
  induction p as [p IH|p IH|]; simpl.
  - replace (Z.pos p~1) with ((1 + Z.pos p) + Z.pos p) by lia.
    apply (shifts_comp (fun x => iter_pos shr_1 p (shr_1 x))); [lia..| |done].
    apply (shifts_comp shr_1); [lia..|exact shr_1_half|done].
  - replace (Z.pos p~0) with (Z.pos p + Z.pos p) by lia. by apply (shifts_comp (iter_pos shr_1 p)).
  - exact shr_1_half.
Qed.

(** ** Rounding to single precision *)

Definition fexp24 (x : Z) : Z := fexp 24 128 x.

Lemma fexp24_eq x : fexp24 x = Z.max (x - 24) (-149).
Proof. done. Qed.

(** One of the two shifts of the rounding. *)
Lemma shr_fexp_spec m e : 0 <= m ->
  let '(mrs, e') := shr_fexp 24 128 m e loc_Exact in
  exists k, 0 <= k /\ e' = e + k /\ shr_m mrs = m / 2 ^ k /\
    (k = 0 -> loc_of_shr_record mrs = loc_Exact) /\ (0 < k -> e' = fexp24 (Zdigits2 m + e)).
Proof.
  intros Hm. unfold shr_fexp, shr, fexp24. set (n := _ - e). destruct n as [|p|p] eqn:En.
  - exists 0. simpl. rewrite Z.div_1_r. split_and!; try done; lia.
  - exists (Z.pos p). rewrite iter_shr by done. simpl. split_and!; try done; lia.
  - exists 0. simpl. rewrite Z.div_1_r. split_and!; try done; lia.
Qed.

Lemma round_step m l : m <= round_nearest_even m l <= m + 1 /\ (l = loc_Exact -> round_nearest_even m l = m).
Proof. unfold round_nearest_even. destruct l as [|[]]; repeat case_match; split; try done; lia. Qed.

(** Zero or a positive number of at most [b]. *)
Definition float_le (f : spec_float) (b : Z) : Prop :=
  match f with
  | S754_zero _ => 0 <= b
  | S754_finite s m e => s = false /\ le_val (Z.pos m) e b
  | _ => False
  end.

Lemma binary_round_aux_le m e b :
  0 < m -> le_val m e b -> 0 <= b -> b + 256 < 2 ^ 32 -> float_le (binary_round_aux 24 128 false m e loc_Exact) (b + 256).
Proof.
  intros Hm Hv Hb0 Hb. unfold binary_round_aux. pose proof (shr_fexp_spec m e ltac:(lia)) as H1.
  destruct (shr_fexp 24 128 m e loc_Exact) as [mrs e1]. destruct H1 as (k & Hk & -> & Em & Hex & He1).
  set (m1 := round_nearest_even _ _). destruct (round_step (shr_m mrs) (loc_of_shr_record mrs)) as [Hr Hr0]. fold m1 in Hr, Hr0.
  assert (0 <= m / 2 ^ k) as Hq by (apply Z.div_pos; [lia|by apply Z.pow_pos_nonneg]).
  assert (le_val m1 (e + k) (b + 2 ^ 8)) as Hv1.
  { apply (le_val_round k m); [lia|lia|done|lia|lia|]. intros Hlt. destruct (Z_le_lt_eq_dec 0 k Hk) as [Hp| <-].
    - rewrite He1, fexp24_eq by done. destruct m as [|m|m]; [lia| |lia].
      pose proof (le_val_digits _ _ _ Hv ltac:(lia)). simpl. lia.
    - rewrite (Hr0 (Hex eq_refl)), Em in Hlt. lia. }
  clearbody m1. pose proof (shr_fexp_spec m1 (e + k) ltac:(lia)) as H2.
  destruct (shr_fexp 24 128 m1 (e + k) loc_Exact) as [mrs2 e2]. destruct H2 as (k2 & Hk2 & -> & Em2 & _ & He2).
  assert (le_val (m1 / 2 ^ k2) (e + k + k2) (b + 256)) as Hv2.
  { set (j := Z.max 0 (- (e + k))). apply (le_val_at j); [lia..|]. specialize (Hv1 j ltac:(lia) ltac:(lia)).
    assert (m1 / 2 ^ k2 * 2 ^ k2 <= m1) by (rewrite Z.mul_comm; apply Z.mul_div_le, Z.pow_pos_nonneg; lia).
    replace (e + k + k2 + j) with (k2 + (e + k + j)) by lia. rewrite Z.pow_add_r by lia.
    assert (0 < 2 ^ (e + k + j)) by (apply Z.pow_pos_nonneg; lia). simpl (2 ^ 8) in Hv1. nia. }
  rewrite Em2. destruct (m1 / 2 ^ k2) as [|m2|m2] eqn:E2; simpl; [lia| |].
  - pose proof (le_val_digits _ _ _ Hv2 ltac:(lia)) as Hd. pose proof (Pos2Z.is_pos (digits2_pos m2)).
    destruct (Z.leb_spec (e + k + k2) (128 - 24)) as [_|?]; [done|lia].
  - assert (0 <= m1 / 2 ^ k2) by (apply Z.div_pos; [lia|by apply Z.pow_pos_nonneg]). lia.
Qed.

(** A 32-bit integer as a float. *)
Lemma float_of_u32_le c b : 0 <= c <= b -> b + 256 < 2 ^ 32 -> float_le (float_of_u32 c) (b + 256).
Proof.
  intros Hc Hb. unfold float_of_u32, binary_normalize. destruct c as [|c|c]; [simpl; lia| |lia].
  unfold binary_round, shl_align. set (ex := fexp _ _ _). destruct (ex - 0) as [|d|d] eqn:Ed.
  1,2: apply binary_round_aux_le; [lia|by apply (le_val_at 0); [lia..|]; rewrite !Z.mul_1_r; lia|lia|done].
  apply binary_round_aux_le; [lia| |lia|done]. apply (le_val_at (Z.pos d)); [lia..|].
  replace (ex + Z.pos d) with 0 by lia. rewrite Z.mul_1_r.
  assert (Z.pos (Pos.iter xO c d) = Z.pos c * 2 ^ Z.pos d) as ->.
  { clear. revert c. induction d as [|d IH] using Pos.peano_ind; intros c; [simpl; lia|].
    rewrite Pos.iter_succ, (Pos2Z.inj_succ d), Z.pow_succ_r by lia. rewrite Pos2Z.inj_xO, IH. lia. }
  assert (0 < 2 ^ Z.pos d) by (by apply Z.pow_pos_nonneg). nia.
Qed.

(** A threshold between zero and one, as the configuration check demands. *)
Definition unit_float (f : spec_float) : Prop :=
  exists m e, f = S754_finite false m e /\ e <= 0 /\ Z.pos m <= 2 ^ (- e).

Lemma mul_unit_le f g b : float_le f b -> unit_float g -> 0 <= b -> b + 256 < 2 ^ 32 -> float_le (SFmul 24 128 f g) (b + 256).
Proof.
  intros Hf (mt & et & -> & Het & Hmt) Hb0 Hb. destruct f as [s|s| |s m e]; simpl in Hf; [simpl; lia|done..|].
  destruct Hf as [-> Hv]. unfold SFmul. apply binary_round_aux_le; [lia| |done..].
  set (j := Z.max 0 (- e)). apply (le_val_at (j - et)); [lia..|]. specialize (Hv j ltac:(lia) ltac:(lia)).
  replace (e + et + (j - et)) with (e + j) by lia. replace (j - et) with (j + (- et)) by lia.
  rewrite Pos2Z.inj_mul, (Z.pow_add_r 2 j) by lia.
  assert (0 < 2 ^ (e + j)) by (apply Z.pow_pos_nonneg; lia). nia.
Qed.

Lemma u32_of_float_le f b : float_le f b -> b < 2 ^ 32 -> exists v, u32_of_float f = Some v /\ 0 <= v <= b.
Proof.
  intros Hf Hb. destruct f as [s|s| |s m e]; simpl in *; [by exists 0|done..|]. destruct Hf as [-> Hv].
  assert (0 <= (if 0 <=? e then Z.pos m * 2 ^ e else Z.pos m / 2 ^ (- e)) <= b) as H.
  { destruct (Z.leb_spec 0 e) as [He|He].
    - specialize (Hv 0 ltac:(lia) ltac:(lia)). rewrite !Z.add_0_r in Hv.
      assert (0 < 2 ^ e) by (by apply Z.pow_pos_nonneg). lia.
    - specialize (Hv (- e) ltac:(lia) ltac:(lia)). replace (e + - e) with 0 in Hv by lia.
      assert (0 < 2 ^ (- e)) by (apply Z.pow_pos_nonneg; lia). split; [apply Z.div_pos; lia|].
      apply Z.div_le_upper_bound; lia. }
  eexists. split; [|exact H]. destruct (Z.ltb_spec (if 0 <=? e then Z.pos m * 2 ^ e else Z.pos m / 2 ^ (- e)) 4294967296) as [_|?]; [done|lia].
Qed.

(** ** The scaled cost *)
Section thresh.
Context {cnf : olsrd_config}.

Lemma nat_thresh_le c b : unit_float lq_nat_thresh -> 0 <= c <= b -> b + 512 < 2 ^ 32 ->
  exists v, nat_thresh c = Some v /\ 0 <= v <= b + 512.
Proof.
  intros Hu Hc Hb. replace (b + 512) with (b + 256 + 256) by lia. apply u32_of_float_le; [|lia].
  apply mul_unit_le; [apply float_of_u32_le; lia|done|lia..].
Qed.

End thresh.

(** ** What the comparison relies on *)
Section thresh_spec.
Context {cnf : olsrd_config}.

(** With a NAT threshold that the configuration check admits, scaling a path cost is
    defined for every cost that stays 512 below 2^32, as the cost of 1024 links does:
    neither the conversions nor the product overflow, and rounding adds at most 512. *)
Theorem nat_thresh_bounded c :
  unit_float lq_nat_thresh -> 0 <= c -> c + 512 < 2 ^ 32 -> exists v, nat_thresh c = Some v /\ 0 <= v <= c + 512.
Proof. intros Hu Hc Hb. apply nat_thresh_le; [done|lia|done]. Qed.

End thresh_spec.

Section thresh_witness.
#[local] Existing Instance sample_cnf.

Lemma nat_thresh_bounded_witness : exists v, nat_thresh 4294966000 = Some v /\ 0 <= v <= 4294966512.
Proof.
  refine (nat_thresh_bounded 4294966000 _ _ _); [|lia|vm_compute; reflexivity].
  eexists _, _. split; [vm_compute; reflexivity|]. split; vm_compute; discriminate.
Defined.

End thresh_witness.
