(* ===== verification/CalcSpec.v ===== *)
(** * What the calculation of the routing table computes *)

From S2P Require Import Prelude Timer Avl AvlSpec IpAddr KeyTree State MidLookup Interfaces NeighTable NeighProofs HelloTwoHop.
From S2P Require Import LsdbOps Lq Hysteresis RouteTable TcSet LinkSet LsdbProofs VertexProofs LinkProofs LinkBest.
From S2P Require Import NeighSpec TcSpec RouteSpec Rib RibSpec KernelSpec LinkSpec Spf SpfSpec RouteCalc CalcProofs NatThresh.

Section calc_spec.
Context {cnf : olsrd_config} {lqh : lq_handler} {laws : lq_laws lqh} {krn : kernel_routes}.

(** ** The state between two calculations *)

(** [me] is the vertex of this node. Its edges lead to neighbours; the paths in routes
    are those of the last calculation; the kernel's routes are recorded. *)
Record calc_ready (me : positive) (st : olsr_state) : Prop := {
  cr_net : net_wf st;
  cr_db : lsdb_wf (db st);
  cr_me : tc_myself (db st) = Some me;
  cr_main : exists t, tcs (db st) !! me = Some t /\ tc_addr t = main_addr st;
  cr_self q n : nbrs st !! q = Some n -> ~ aeq (neighbor_main_addr n) (main_addr st);
  cr_up : links_up st;
  cr_index i : i ∈ ifnet st -> -1 < if_index i;
  cr_own e x : own_edge (db st) me e x -> exists q n, nbrs st !! q = Some n /\ aeq (neighbor_main_addr n) (T_dest_addr x);
  cr_costs e x : edges (db st) !! e = Some x -> 0 <= edge_cost x;
  cr_short : prefixes_short (db st);
  cr_version p x : rtps (db st) !! p = Some x -> is_Some (rtp_rt x) -> rtp_version x = routingtree_version (db st);
  cr_vertices : Z.of_nat (size (tcs (db st))) <= 1024;
  cr_thresh : costs_ok (db st);
  cr_hops : usable_hops (db st);
  cr_queue : chg_kernel_list (db st) = [];
  cr_recorded : recorded (db st);
}.

(** Reference counts do not overflow. *)
Definition room (st : olsr_state) : Prop :=
  Z.of_nat (size (edges (db st))) + Z.of_nat (size (rtps (db st))) + Z.of_nat (length (all_elems (neighbortable st))) + 2 < 4294967296.

(** The costs that occur can be scaled for the comparison with the current gateway. *)
Definition thresh_ok : Prop := forall c, 0 <= c <= 1024 * (LINK_COST_BROKEN - 1) -> is_Some (nat_thresh c).

(** ** The result *)

(** The path [x] of the vertex [tc] as the routing table has it. *)
Definition path_routed (st' : olsr_state) (tc : positive) (x : rt_path) : Prop :=
  exists r l lk i, rtp_rt x = Some r /\ hop (db st') tc = Some l /\ links st' !! l = Some lk /\ i ∈ ifnet st' /\
    rtp_nexthop x = {| gateway := neighbor_iface_addr lk; iif_index := if_index i |} /\
    rtp_metric x = {| metric_cost := cost (db st') tc; metric_hops := hops (db st') tc |}.

(** [F] are the vertices that this node reaches. *)
Record routes_calculated (me : positive) (st : olsr_state) (F : list positive) (st' : olsr_state) : Prop := {
  rk_frame : calc_frame st st';
  rk_reach p : p ∈ F <-> exists vs c, spf_path (db st') me vs c p;
  rk_least p vs c : spf_path (db st') me vs c p -> cost (db st') p <= c;
  rk_label p : p ∈ F -> p <> me -> exists f vs l t, spf_path (db st') me (f :: vs) (cost (db st') p) p /\
    hop (db st') p = Some l /\ tcs (db st') !! f = Some t /\ nbr_hop st' (tc_addr t) l /\
    hops (db st') p = u8 (Z.of_nat (length (f :: vs)));
  rk_routed p x tc : rtps (db st') !! p = Some x -> rtp_tc x = Some tc -> tc ∈ F -> tc <> me -> path_routed st' tc x;
  rk_rest p x tc : rtps (db st') !! p = Some x -> rtp_tc x = Some tc -> tc ∉ F \/ tc = me -> rtp_rt x = None;
  rk_best r y : rts (db st') !! r = Some y ->
    match rt_best y with
    | None => forall p x, rtps (db st') !! p = Some x -> rtp_rt x <> Some r
    | Some b => exists x gw, rtps (db st') !! b = Some x /\ rtp_rt x = Some r /\
        forall q xq, rtps (db st') !! q = Some xq -> rtp_rt xq = Some r -> olsr_cmp_rtp q xq b x gw = Some false
    end;
  rk_kernel r y b : rts (db st') !! r = Some y -> rt_best y = Some b -> told (db st') r \/ ~ kernel_change (db st') y;
}.

(** ** The labels at the start *)

Lemma nbr_hop_frame s s' a l : calc_frame s s' -> nbr_hop s a l -> nbr_hop s' a l.
Proof.
  intros Hf (q & n & H1 & H2 & H3 & H4). destruct (calc_frame_tables _ _ Hf) as (E & _). exists q, n.
  rewrite E, (find_best_link_frame _ _ Hf). done.
Qed.

Lemma version_wf d v : lsdb_wf d -> lsdb_wf (set_routingtree_version v d).
Proof. intros H. split; apply H. Qed.

Definition started (me : positive) (t : tc_entry) (d : lsdb) : lsdb :=
  set_tcs (<[me := set_path_cost 0 (reset_label t)]> (reset_label <$> tcs d))
    (set_routingtree_version (u32 (routingtree_version d + 1)) d).

Lemma u32_succ_ne v : u32 (v + 1) <> v.
Proof. unfold u32. Z.div_mod_to_equations. lia. Qed.

Section calc.
Context (me : positive) (st : olsr_state) (t : tc_entry).
Hypothesis Hready : calc_ready me st.
Hypothesis Ht : tcs (db st) !! me = Some t.

Notation d1 := (started me t (db st)).
Notation st1 := (set_db d1 st).

Lemma started_lookup p t' : tcs d1 !! p = Some t' -> exists t0, tcs (db st) !! p = Some t0 /\ tc_addr t' = tc_addr t0 /\
  next_hop t' = None /\ tc_hops t' = 0 /\ path_cost t' = (if decide (p = me) then 0 else ROUTE_COST_BROKEN).
Proof.
  simpl. intros [[<- <-]|[Hn Hp]]%lookup_insert_Some.
  - exists t. by rewrite decide_True.
  - rewrite lookup_fmap in Hp. apply fmap_Some in Hp as (t0 & Ht0 & ->). exists t0. by rewrite decide_False by done.
Qed.

Lemma started_relabelled : relabelled (set_routingtree_version (u32 (routingtree_version (db st) + 1)) (db st)) d1.
Proof.
  split; [done|]. simpl. apply map_eq. intros p. rewrite !lookup_fmap. destruct (decide (p = me)) as [->|Hn].
  - by rewrite lookup_insert_eq, Ht.
  - rewrite lookup_insert_ne, lookup_fmap by done. by destruct (tcs (db st) !! p).
Qed.

Lemma started_wf : lsdb_wf d1.
Proof. eapply relabelled_wf; [apply started_relabelled|]. by apply version_wf, (cr_db _ _ Hready). Qed.

Lemma start_inv : edges_inv me st1 0 st1.
Proof.
  pose proof started_wf as Hwf. split; try done.
  - intros e x Hx. by apply (cr_costs _ _ Hready e).
  - simpl. lia.
  - intros e x Hx. by apply (cr_own _ _ Hready e).
  - intros v t' l (t0 & _ & _ & E & _)%started_lookup Hl. congruence.
Qed.

(** ** Before the shortest path run *)
Section run.
Context (st2 : olsr_state) (k : Z).
Hypothesis Hinv : edges_inv me st1 k st2.
Hypothesis Hall : forall q n, nbrs st !! q = Some n -> hop_ok me (neighbor_main_addr n) (db st2).

Lemma run_lookup p t2 : tcs (db st2) !! p = Some t2 -> exists t0, tcs (db st) !! p = Some t0 /\ tc_addr t2 = tc_addr t0 /\
  tc_hops t2 = 0 /\ path_cost t2 = (if decide (p = me) then 0 else ROUTE_COST_BROKEN).
Proof.
  intros H. destruct (calc_lookup (ei_tcs _ _ _ _ Hinv) H) as (t' & H' & E1 & _ & E2 & E3).
  destruct (started_lookup _ _ H') as (t0 & H0 & F1 & _ & F2 & F3). exists t0. split_and!; [done|congruence..].
Qed.

Lemma run_dom : dom (tcs (db st2)) = dom (tcs (db st)).
Proof.
  rewrite <- (dom_fmap_L tc_calc), (ei_tcs _ _ _ _ Hinv), dom_fmap_L. simpl. rewrite dom_insert_L, dom_fmap_L.
  apply elem_of_dom_2 in Ht. set_solver.
Qed.

Lemma me_alive : exists t2, tcs (db st2) !! me = Some t2 /\ tc_addr t2 = main_addr st.
Proof.
  assert (exists t', tcs d1 !! me = Some t') as [t' Ht'] by (simpl; rewrite lookup_insert_eq; by eexists).
  destruct (calc_lookup (eq_sym (ei_tcs _ _ _ _ Hinv)) Ht') as (t2 & H2 & _). exists t2. split; [done|].
  destruct (run_lookup _ _ H2) as (t0 & H0 & E & _). destruct (cr_main _ _ Hready) as (tm & Hm & Em). congruence.
Qed.

Lemma me_no_hop : hop (db st2) me = None.
Proof.
  destruct me_alive as (t2 & H2 & Ea). unfold hop. rewrite H2. simpl. destruct (next_hop t2) as [l|] eqn:E; [|done].
  destruct (ei_hops _ _ _ _ Hinv _ _ _ H2 E) as [(q & n & Hq & _ & Ha & _) _]. rewrite Ea in Ha.
  by destruct (cr_self _ _ Hready q n Hq).
Qed.

Lemma run_ready : spf_ready (db st2) me.
Proof.
  destruct me_alive as (t2 & H2 & Ea). destruct (run_lookup _ _ H2) as (t0 & _ & _ & Eh & Ec). rewrite decide_True in Ec by done. split.
  - apply Hinv.
  - apply (ei_costs _ _ _ _ Hinv).
  - pose proof (cr_vertices _ _ Hready) as Hs. rewrite <- size_dom in Hs |- *.
    by rewrite run_dom.
  - split; [|split].
    + unfold cost. by rewrite H2.
    + apply me_no_hop.
    + unfold hops. by rewrite H2.
  - intros p Hp. unfold cost. destruct (tcs (db st2) !! p) as [tp|] eqn:E; [|done].
    destruct (run_lookup _ _ E) as (_ & _ & _ & _ & E'). by rewrite decide_False in E' by done.
  - intros q w (e & x & f & y & Hx & Hm & Hi & Hy & <- & _).
    destruct (ei_own _ _ _ _ Hinv e x) as (b & n & Hb & Ha); [by split|]. by apply (Hall b n Hb e x f y); [split|symmetry|..].
Qed.

(** ** After the run *)
Section routes.
Context (d3 : lsdb) (F : list positive).
Hypothesis Hspf : spf_result (db st2) me F d3.
Notation st3 := (set_db d3 st2).

Lemma run_edges : edges d3 = edges (db st2).
Proof. apply (relabelled_edges _ _ (sp_frame _ _ _ _ Hspf)). Qed.

Lemma run_same : rtps d3 = rtps (db st) /\ rts d3 = rts (db st) /\ tc_myself d3 = Some me /\ kernel_state d3 = kernel_state (db st) /\
  routingtree_version d3 = u32 (routingtree_version (db st) + 1).
Proof.
  destruct (sp_frame _ _ _ _ Hspf) as [E _]. destruct (ei_rest _ _ _ _ Hinv) as (_ & E2 & _ & E4 & _ & E6).
  pose proof (ei_rtps _ _ _ _ Hinv) as E1. pose proof (ei_rts _ _ _ _ Hinv) as E3. rewrite E. simpl in *.
  split_and!; try done. rewrite E2. apply (cr_me _ _ Hready).
Qed.

(** The vertices of the list have a way to them, whose first hop is a live link to a neighbour. *)
Lemma run_path p : p ∈ F -> p <> me -> exists f vs l tf, spf_path (db st2) me (f :: vs) (cost d3 p) p /\ hop d3 p = Some l /\
  tcs (db st2) !! f = Some tf /\ nbr_hop st (tc_addr tf) l /\ live_link st2 l /\ hops d3 p = u8 (Z.of_nat (length (f :: vs))).
Proof.
  intros Hp Hn. destruct (sp_label _ _ _ _ Hspf p Hp) as [_ (vs & Hpath & Hhop & Hhops)].
  destruct vs as [|f vs]; [by destruct (path_nonempty _ _ _ _ _ Hpath Hn)|].
  destruct (path_first _ _ _ _ _ _ _ Hpath eq_refl) as [w Hw].
  destruct (sr_first _ _ run_ready _ _ Hw) as [l Hl]. exists f, vs, l. unfold hop in Hl.
  destruct (tcs (db st2) !! f) as [tf|] eqn:Hf; [|done]. simpl in Hl. exists tf.
  destruct (ei_hops _ _ _ _ Hinv _ _ _ Hf Hl) as [H1 H2]. split_and!; try done.
  - rewrite Hhop. unfold via, hop. rewrite Hf. exact Hl.
  - eapply nbr_hop_frame; [|exact H1]. by symmetry; apply calc_frame_db.
Qed.

Lemma run_hop p : p ∈ F -> is_Some (hop d3 p) <-> p <> me.
Proof.
  intros Hp. split.
  - intros [l Hl] ->. destruct (sp_root _ _ _ _ Hspf) as (_ & E & _). congruence.
  - intros Hn. destruct (run_path p Hp Hn) as (f & vs & l & tf & _ & -> & _). by eexists.
Qed.

Lemma run_vertices tc : tc ∈ F -> exists t3, tcs d3 !! tc = Some t3 /\ path_cost t3 < ROUTE_COST_BROKEN /\
  forall l, next_hop t3 = Some l -> live_link st3 l.
Proof.
  intros Htc. destruct (sp_label _ _ _ _ Hspf tc Htc) as [Hc _].
  destruct (reached_some _ _ Hc) as [t3 H3]. exists t3. split; [done|]. split; [unfold cost in Hc; by rewrite H3 in Hc|].
  intros l Hl. destruct (decide (tc = me)) as [->|Hn].
  - destruct (sp_root _ _ _ _ Hspf) as (_ & E & _). unfold hop in E. rewrite H3 in E. simpl in E. congruence.
  - destruct (run_path tc Htc Hn) as (f & vs & l' & tf & _ & E & _ & _ & Hlive & _). unfold hop in E. rewrite H3 in E. simpl in E.
    by replace l with l' by congruence.
Qed.

(** ** The paths in the routing table *)
Section final.
Context (S : list positive) (st4 : olsr_state).
Hypothesis Hins : inserted S st3 st4.
Hypothesis HS : forall p, p ∈ S <-> exists x tc, rtps d3 !! p = Some x /\ rtp_tc x = Some tc /\ tc ∈ F /\ is_Some (hop d3 tc).

Lemma placed_iff p x tc : rtps (db st4) !! p = Some x -> rtp_tc x = Some tc -> p ∈ S <-> tc ∈ F /\ tc <> me.
Proof.
  intros Hx Htc. destruct (in_path _ _ _ Hins _ _ Hx) as (x0 & H0 & E1 & _). rewrite HS. split.
  - intros (x1 & tc1 & H1 & Htc1 & HF & Hh). simpl in H0. assert (tc1 = tc) as -> by congruence. split; [done|]. by apply run_hop.
  - intros [HF Hn]. exists x0, tc. split; [done|]. split; [congruence|]. split; [done|]. by apply run_hop.
Qed.

(** A path that was not placed has an old version if it is in a route at all. *)
Lemma placed_or_old p x : rtps (db st4) !! p = Some x ->
  (p ∈ S /\ is_Some (rtp_rt x) /\ rtp_version x = routingtree_version (db st4)) \/
  (p ∉ S /\ (is_Some (rtp_rt x) -> rtp_version x <> routingtree_version (db st4))).
Proof.
  intros Hx. destruct (in_path _ _ _ Hins _ _ Hx) as (x0 & H0 & _ & _ & Hold & Hnew).
  destruct (in_graph _ _ _ Hins) as (_ & _ & _ & _ & Ev & _). destruct run_same as (E1 & _ & _ & _ & E5). simpl in *.
  destruct (decide (p ∈ S)) as [Hp|Hp]; [left|right]; (split; [done|]).
  - destruct (Hnew Hp) as (tc & t3 & l & lk & i & _ & _ & _ & _ & _ & _ & P1 & P2 & _). split; [done|congruence].
  - rewrite (Hold Hp), Ev, E5. intros Hr. rewrite E1 in H0. rewrite (cr_version _ _ Hready _ _ H0 Hr).
    intros E. by apply (u32_succ_ne (routingtree_version (db st))).
Qed.

Lemma final_path p x : rtps (db st4) !! p = Some x -> exists x0, rtps (db st) !! p = Some x0 /\ rtp_tc x = rtp_tc x0 /\ rtp_dst x = rtp_dst x0 /\
  (p ∉ S -> x = x0) /\ (p ∈ S -> exists tc t3 l lk i, rtp_tc x = Some tc /\ tcs d3 !! tc = Some t3 /\ next_hop t3 = Some l /\
    links st4 !! l = Some lk /\ i ∈ ifnet st4 /\ tc ∈ F /\ placed t3 lk i (routingtree_version (db st4)) x).
Proof.
  intros Hx. destruct (in_path _ _ _ Hins _ _ Hx) as (x0 & H0 & E1 & E2 & Hold & Hnew). destruct run_same as (Er & _).
  destruct (in_graph _ _ _ Hins) as (_ & _ & _ & _ & Ev & _).
  exists x0. simpl in H0. rewrite Er in H0. split_and!; try done. intros Hp. pose proof Hp as (x1 & tc1 & Hx1 & Htc1 & HF & _)%HS.
  destruct (Hnew Hp) as (tc & t3 & l & lk & i & P1 & P2 & P3 & P4 & P5 & P6 & P7).
  rewrite Er in Hx1. assert (tc1 = tc) as -> by congruence. exists tc, t3, l, lk, i.
  rewrite (in_db _ _ _ Hins). rewrite <- Ev in P7. split_and!; try done. congruence.
Qed.

Lemma final_costs : thresh_ok -> costs_ok (db st4).
Proof.
  intros Hth p x Hx. destruct (final_path p x Hx) as (x0 & H0 & _ & _ & Hold & Hnew). destruct (decide (p ∈ S)) as [Hp|Hp].
  - destruct (Hnew Hp) as (tc & t3 & l & lk & i & _ & Ht3 & _ & _ & _ & HF & (_ & _ & _ & ->)). simpl. apply Hth.
    pose proof (sp_bound _ _ _ _ Hspf tc HF) as Hb. unfold cost in Hb. by rewrite Ht3 in Hb.
  - rewrite (Hold Hp). by apply (cr_thresh _ _ Hready p).
Qed.

Lemma final_hops : usable_hops (db st4).
Proof.
  intros p x Hx. destruct (final_path p x Hx) as (x0 & H0 & _ & _ & Hold & Hnew). destruct (decide (p ∈ S)) as [Hp|Hp].
  - destruct (Hnew Hp) as (tc & t3 & l & lk & i & _ & Ht3 & _ & _ & Hi & HF & (_ & _ & -> & _)). simpl.
    apply (cr_index _ _ Hready). rewrite (in_db _ _ _ Hins) in Hi. simpl in Hi.
    assert (ifnet st2 = ifnet st) as E; [|by rewrite <- E].
    pose proof (ei_frame _ _ _ _ Hinv) as Hf. unfold calc_frame in Hf. by apply (f_equal ifnet) in Hf.
  - rewrite (Hold Hp). by apply (cr_hops _ _ Hready p).
Qed.

Lemma rest_key y y' : rt_rest y' = rt_rest y -> route_key y' = route_key y.
Proof. destruct y, y'. simpl. intros E. injection E as. by subst. Qed.

Lemma final_recorded : recorded (db st4) /\ chg_kernel_list (db st4) = [].
Proof.
  destruct (in_graph _ _ _ Hins) as (_ & _ & _ & _ & _ & Ek & Er). destruct run_same as (_ & E2 & _ & E4 & _). simpl in *.
  rewrite E4 in Ek. rewrite E2 in Er. injection Ek as Ek1 Ek2. destruct (cr_recorded _ _ Hready) as [R1 R2 R3]. split; [split|].
  - rewrite Ek1. intros key (r & y & Hy & <-)%R1. destruct (Er r y Hy) as (y' & Hy' & E). exists r, y'. split; [done|]. by apply rest_key.
  - intros r1 r2 y1 y2 H1 H2 Hd. pose proof (in_wf _ _ _ Hins) as Hwf.
    eapply (tree_same (kt_wf := pwf)); [apply (dw_rts _ Hwf)|by exists y1|by exists y2|]. by rewrite Hd.
  - by rewrite Ek1.
  - rewrite Ek2. apply (cr_queue _ _ Hready).
Qed.

Lemma final_size : size (rtps (db st4)) = size (rtps (db st)).
Proof.
  rewrite <- !size_dom. f_equal. apply set_eq. intros p. rewrite !elem_of_dom, (in_dom _ _ _ Hins). simpl.
  by destruct run_same as (-> & _).
Qed.

(** ** After the routes were chosen *)
Section done_.
Context (dr d5 : lsdb) (l : list positive).
Hypothesis Hl : forall r, r ∈ l <-> is_Some (rts (db st4) !! r).
Hypothesis Hrib : rib_updated l (db st4) dr.
Hypothesis Hre : retold dr d5.
Hypothesis Hwf5 : lsdb_wf d5.
Notation st5 := (set_db d5 st4).

Lemma end_rtps p : rtps d5 !! p = refresh (db st4) l <$> rtps (db st4) !! p.
Proof. destruct Hre as [-> _]. apply (ru_rtps _ _ _ Hrib). Qed.

Lemma end_graph : tcs d5 = tcs d3 /\ edges d5 = edges (db st2) /\ routingtree_version d5 = routingtree_version (db st4) /\
  tc_myself d5 = Some me.
Proof.
  destruct Hre as [-> _]. destruct (ru_graph _ _ _ Hrib) as (E1 & E2 & E3 & E4). destruct (in_graph _ _ _ Hins) as (G1 & G2 & _ & G3 & _).
  simpl in *. rewrite E1, E2, E3, E4, G1, G2, G3. rewrite run_edges. destruct run_same as (_ & _ & -> & _). done.
Qed.

(** A path is in a route exactly if it was placed. *)
Lemma end_path p x : rtps d5 !! p = Some x -> exists x4, rtps (db st4) !! p = Some x4 /\ rtp_tc x = rtp_tc x4 /\
  rtp_dst x = rtp_dst x4 /\ ((p ∈ S /\ x = x4 /\ is_Some (rtp_rt x) /\ rtp_version x = routingtree_version (db st4)) \/ (p ∉ S /\ rtp_rt x = None)).
Proof.
  rewrite end_rtps. intros (x4 & H4 & ->)%fmap_Some. exists x4. split; [done|].
  split; [unfold refresh; by repeat case_match|]. split; [unfold refresh; by repeat case_match|].
  destruct (placed_or_old _ _ H4) as [(Hp & [r Hr] & Hv)|[Hp Hold]]; [left|right]; (split; [done|]).
  - unfold refresh. rewrite Hr, decide_False by tauto. split; [done|]. split; [by eexists|done].
  - unfold refresh. destruct (rtp_rt x4) as [r|] eqn:Hr; [|done]. rewrite decide_True; [done|]. split; [|apply Hold; by eexists].
    destruct (dw_rt _ (in_wf _ _ _ Hins) _ _ _ H4 Hr) as (y & Hy & _). apply Hl. by exists y.
Qed.

(** The current paths of a route are those that are left in it. *)
Lemma end_current r p x : rtps d5 !! p = Some x -> rtp_rt x = Some r -> current_path (db st4) r p x.
Proof.
  intros Hx Hr. destruct (end_path p x Hx) as (x4 & H4 & _ & _ & [(_ & -> & _ & Hv)|[_ E]]); [by split_and!|congruence].
Qed.

Lemma current_end r p x : current_path (db st4) r p x -> rtps d5 !! p = Some x.
Proof. intros (Hx & Hr & Hv). rewrite end_rtps, Hx. simpl. unfold refresh. rewrite Hr, decide_False; [done|]. tauto. Qed.

Lemma end_frame : calc_frame st st5.
Proof.
  etransitivity; [|apply calc_frame_db]. rewrite (in_db _ _ _ Hins). etransitivity; [|apply calc_frame_db].
  etransitivity; [|apply calc_frame_db]. etransitivity; [|apply (ei_frame _ _ _ _ Hinv)]. apply calc_frame_db.
Qed.

Lemma end_spf vs c p : spf_path d5 me vs c p <-> spf_path (db st2) me vs c p.
Proof. apply spf_path_edges. apply end_graph. Qed.

Lemma end_labels p : cost d5 p = cost d3 p /\ hop d5 p = hop d3 p /\ hops d5 p = hops d3 p.
Proof. unfold cost, hop, hops. destruct end_graph as (-> & _). done. Qed.

Lemma end_links q : links st4 !! q = links st2 !! q.
Proof. rewrite (in_db _ _ _ Hins). done. Qed.

(** The labels of the reached vertices. *)
Lemma end_label p : p ∈ F -> p <> me -> exists f vs k' t', spf_path d5 me (f :: vs) (cost d5 p) p /\
  hop d5 p = Some k' /\ tcs d5 !! f = Some t' /\ nbr_hop st5 (tc_addr t') k' /\ hops d5 p = u8 (Z.of_nat (length (f :: vs))).
Proof.
  intros Hp Hn. destruct (run_path p Hp Hn) as (f & vs & k' & tf & H1 & H2 & H3 & H4 & _ & H5).
  destruct (end_labels p) as (-> & -> & ->). destruct end_graph as (Et & _).
  destruct (relabelled_addr _ _ _ _ (sp_frame _ _ _ _ Hspf) H3) as (t' & Ht' & Ea). exists f, vs, k', t'.
  rewrite end_spf, Et, Ea. split_and!; try done. eapply nbr_hop_frame; [apply end_frame|exact H4].
Qed.

Lemma end_routed p x tc : rtps d5 !! p = Some x -> rtp_tc x = Some tc -> tc ∈ F -> tc <> me -> path_routed st5 tc x.
Proof.
  intros Hx Htc HF Hn. destruct (end_path p x Hx) as (x4 & H4 & E1 & _ & Hcase).
  assert (p ∈ S) as Hp by (apply (placed_iff p x4 tc H4); [congruence|done]).
  destruct Hcase as [(_ & -> & [r Hr] & _)|[? _]]; [|done].
  destruct (final_path p x4 H4) as (x0 & _ & _ & _ & _ & Hnew).
  destruct (Hnew Hp) as (tc' & t3 & k' & lk & i & P1 & P2 & P3 & P4 & P5 & _ & (_ & _ & P6 & P7)).
  assert (tc' = tc) as -> by congruence. destruct end_graph as (Et & _). exists r, k', lk, i. unfold hop, cost, hops. simpl. rewrite Et, P2.
  split_and!; done.
Qed.

Lemma end_rest p x tc : rtps d5 !! p = Some x -> rtp_tc x = Some tc -> tc ∉ F \/ tc = me -> rtp_rt x = None.
Proof.
  intros Hx Htc Hno. destruct (end_path p x Hx) as (x4 & H4 & E1 & _ & [(Hp & _)|[_ ?]]); [|done].
  assert (tc ∈ F /\ tc <> me) by (apply (placed_iff p x4 tc H4); [congruence|done]). tauto.
Qed.

Lemma end_route r y : rts d5 !! r = Some y -> exists y4 z, rts (db st4) !! r = Some y4 /\ r ∈ l /\ rts dr !! r = Some z /\
  rt_best z = rt_best y /\ settled (db st4) r y4 (Some z).
Proof.
  intros Hy. destruct (proj2 Hre r y Hy) as (z & n & m & Hz & ->). destruct (rts (db st4) !! r) as [y4|] eqn:H4.
  - assert (r ∈ l) as Hr by (apply Hl; by exists y4). exists y4, z. split_and!; try done. rewrite <- Hz.
    by apply (ru_settled _ _ _ Hrib).
  - rewrite (ru_other _ _ _ Hrib), H4 in Hz; [done|]. intros [? ?]%Hl. congruence.
Qed.

Lemma end_best r y : rts d5 !! r = Some y ->
  match rt_best y with
  | None => forall p x, rtps d5 !! p = Some x -> rtp_rt x <> Some r
  | Some b => exists x gw, rtps d5 !! b = Some x /\ rtp_rt x = Some r /\
      forall q xq, rtps d5 !! q = Some xq -> rtp_rt xq = Some r -> olsr_cmp_rtp q xq b x gw = Some false
  end.
Proof.
  intros Hy. destruct (end_route r y Hy) as (y4 & z & _ & _ & _ & <- & _ & _ & _ & Hs). destruct (rt_best z) as [b|].
  - destruct Hs as (x & gw & Hc & Hmin). exists x, gw. split; [by eapply current_end|]. split; [apply Hc|].
    intros q xq Hq Hr. apply Hmin. by apply end_current.
  - intros p x Hx Hr. apply (Hs p x). by apply end_current.
Qed.

Lemma end_change y : kernel_change d5 y -> kernel_change (db st4) y.
Proof.
  intros (b & x & Hb & Hx & Hc). rewrite end_rtps in Hx. apply fmap_Some in Hx as (x4 & H4 & ->).
  exists b, x4. split_and!; try done. revert Hc. unfold refresh. by repeat case_match.
Qed.

Lemma end_kernel r y b : (forall q, q ∈ chg_kernel_list dr -> told d5 q) ->
  (forall q, q ∉ chg_kernel_list dr -> rts d5 !! q = rts dr !! q) ->
  rts d5 !! r = Some y -> rt_best y = Some b -> told d5 r \/ ~ kernel_change d5 y.
Proof.
  intros Htold Hsame Hy _. destruct (decide (r ∈ chg_kernel_list dr)) as [Hr|Hr]; [left; by apply Htold|right].
  intros Hc%end_change. apply Hr, (ru_chg _ _ _ Hrib). destruct (end_route r y Hy) as (_ & _ & _ & Hrl & _).
  split; [done|]. exists y. by rewrite <- Hsame.
Qed.

Lemma end_calculated :
  (forall q, q ∈ chg_kernel_list dr -> told d5 q) -> (forall q, q ∉ chg_kernel_list dr -> rts d5 !! q = rts dr !! q) ->
  routes_calculated me st F st5.
Proof.
  intros Htold Hsame. split.
  - apply end_frame.
  - intros p. simpl. setoid_rewrite end_spf. apply (sp_list _ _ _ _ Hspf).
  - intros p vs c Hp%end_spf. simpl. destruct (end_labels p) as (-> & _). by apply (sp_best _ _ _ _ Hspf p vs).
  - apply end_label.
  - apply end_routed.
  - apply end_rest.
  - apply end_best.
  - intros r y b'. by apply end_kernel.
Qed.

(** The state is ready for the next calculation. *)
Lemma end_ready : thresh_ok -> recorded d5 -> chg_kernel_list d5 = [] -> calc_ready me st5.
Proof.
  intros Hth Hrec Hchg. pose proof end_frame as Hf. destruct (calc_frame_tables _ _ Hf) as (En & _ & _ & _ & _ & Ei & _ & _ & Em).
  destruct end_graph as (Et & Ee & Ev & Eme).
  assert (forall p x, rtps d5 !! p = Some x -> exists x4, rtps (db st4) !! p = Some x4 /\ rtp_metric x = rtp_metric x4 /\
    rtp_nexthop x = rtp_nexthop x4 /\ rtp_dst x = rtp_dst x4) as Hdata.
  { intros p x. rewrite end_rtps. intros (x4 & H4 & ->)%fmap_Some. exists x4. unfold refresh. by repeat case_match. }
  split; simpl in *.
  - eapply calc_frame_net; [exact Hf|apply Hready].
  - done.
  - done.
  - destruct me_alive as (t2 & H2 & Ea). destruct (relabelled_addr _ _ _ _ (sp_frame _ _ _ _ Hspf) H2) as (t' & Ht' & Ea').
    exists t'. rewrite Et, Em. split; [done|congruence].
  - intros q n. rewrite En, Em. apply (cr_self _ _ Hready).
  - intros p k' Hk. destruct (calc_frame_links _ _ Hf _ _ Hk) as (k0 & Hk0 & E). destruct (cr_up _ _ Hready p k0 Hk0) as [i Hi].
    exists i. by rewrite <- Hi, (link_interface_inter _ _ Hf _ _ E).
  - intros i. rewrite Ei. apply (cr_index _ _ Hready).
  - intros e x [Hx Hm]. simpl in Hx. rewrite Ee in Hx. rewrite En. apply (ei_own _ _ _ _ Hinv e x). by split.
  - intros e x. rewrite Ee. apply (ei_costs _ _ _ _ Hinv).
  - intros p x (x4 & H4 & _ & _ & ->)%Hdata. destruct (final_path p x4 H4) as (x0 & H0 & _ & -> & _). by apply (cr_short _ _ Hready p).
  - intros p x Hx [r Hr]. rewrite Ev. destruct (end_path p x Hx) as (x4 & _ & _ & _ & [(_ & _ & _ & ?)|[_ ?]]); [done|congruence].
  - rewrite Et. pose proof (cr_vertices _ _ Hready) as Hs. rewrite <- size_dom in Hs |- *.
    assert (dom (tcs d3) = dom (tcs (db st))) as ->; [|done]. transitivity (dom (tcs (db st2))); [|apply run_dom].
    apply set_eq. intros p. rewrite !elem_of_dom. apply (relabelled_tc _ _ _ (sp_frame _ _ _ _ Hspf)).
  - intros p x (x4 & H4 & -> & _)%Hdata. by apply (final_costs Hth p).
  - intros p x (x4 & H4 & _ & -> & _)%Hdata. by apply (final_hops p).
  - done.
  - done.
Qed.

End done_.
End final.
End routes.
End run.
End calc.

(** ** The whole calculation *)

Lemma wp_start_calc me st t (Q : unit -> olsr_state -> Prop) rest :
  calc_ready me st -> tcs (db st) !! me = Some t ->
  wp (rest me (snd (avl_insert avl_comp_etx avl_init (mk_node me 0) true))) Q (set_db (started me t (db st)) st) ->
  wp (let* _ := olsr_bump_routingtree_version in
      do* init_vertices in
      do* olsr_change_myself_tc in
      let* myself := gets (fun st => tc_myself (db st)) in
      match myself with
      | None => flush_routes
      | Some me =>
          do* upd_tc me (set_path_cost 0) in
          let* cand_tree := olsr_spf_add_cand_tree avl_init me in
          rest me cand_tree
      end) Q st.
Proof.
  intros Hr Ht Hrest. unfold olsr_bump_routingtree_version. do 4 wp_step. apply wp_upd_db. wp_step. wp_step.
  eapply wp_mono; [apply wp_init_vertices; simpl; apply version_wf, Hr|]. cbv beta. intros _ st' ->. simpl.
  destruct (cr_main _ _ Hr) as (t' & Ht' & Ea). assert (t' = t) as -> by congruence.
  assert ((reset_label <$> tcs (db st)) !! me = Some (reset_label t)) as Hme by (by rewrite lookup_fmap, Ht).
  unfold olsr_change_myself_tc. repeat wp_step. simpl. rewrite (cr_me _ _ Hr).
  wp_step. eapply wp_get_tc; [exact Hme|]. simpl. rewrite Ea, ipequal_refl. repeat wp_step. simpl. rewrite (cr_me _ _ Hr).
  wp_step. eapply wp_upd_tc; [exact Hme|]. unfold olsr_spf_add_cand_tree. repeat wp_step.
  eapply wp_get_tc; [apply lookup_insert_eq|]. wp_step. exact Hrest.
Qed.

Lemma wp_calculate_routes me st :
  kernel_deletes -> thresh_ok -> calc_ready me st -> room st ->
  wp calculate_routes (fun _ st' => calc_ready me st' /\ exists F, routes_calculated me st F st') st.
Proof.
  intros Hker Hth Hr Hroom. destruct (cr_main _ _ Hr) as (t & Ht & _). unfold calculate_routes.
  apply (wp_start_calc me st t _ (fun me cand => _) Hr Ht). repeat wp_step. simpl.
  eapply wp_mono; [apply (wp_update_nbr_edges me (set_db (started me t (db st)) st)); [by apply start_inv|..]|].
  - eapply calc_frame_net; [apply calc_frame_db|apply (cr_net _ _ Hr)].
  - apply (cr_up _ _ Hr).
  - simpl. rewrite lookup_insert_eq. by eexists.
  - exact Hroom.
  - cbv beta. intros _ st2 [Hinv Hall]. simpl in Hinv, Hall.
    pose proof (run_ready me st t Hr Ht st2 _ Hinv Hall) as Hrun.
    wp_step. eapply wp_mono; [by apply wp_spf_run_full|]. cbv beta. intros [F n] st3 (d3 & -> & Hspf & _). simpl in Hspf. simpl.
    wp_step. eapply wp_mono; [apply wp_insert_all|].
    + eapply relabelled_wf; [apply (sp_frame _ _ _ _ Hspf)|apply (ei_wf _ _ _ _ Hinv)].
    + intros p x. simpl. destruct (run_same me st t Hr st2 _ Hinv d3 F Hspf) as (-> & _). apply (cr_short _ _ Hr).
    + intros tc Htc. by apply (run_vertices me st t Hr Ht st2 _ Hinv Hall d3 F Hspf).
    + cbv beta. intros _ st4 (S & Hins & HS).
      pose proof (final_recorded me st t Hr st2 _ Hinv d3 F Hspf S st4 Hins) as [Hrec Hchg].
      eapply wp_mono; [apply wp_rib_kernel; try done|].
      * apply (in_wf _ _ _ Hins).
      * by eapply final_costs.
      * by eapply final_hops.
      * erewrite final_size by done. unfold room in Hroom. lia.
      * cbv beta. intros _ st5 (dr & Hrib & _ & E5 & Hwf5 & Hrec5 & Hchg5 & Hre & Htold & Hsame). rewrite E5.
        assert (forall r, r ∈ map fst (kt_walk (routingtree (db st4))) <-> is_Some (rts (db st4) !! r)) as Hl.
        { intros r. rewrite (tree_ptrs (kt_wf := pwf) _ _ r (dw_rts _ (in_wf _ _ _ Hins))). unfold route, is_Some. naive_solver. }
        split; [by eapply end_ready|]. exists F. by eapply end_calculated.
Qed.

Lemma unit_thresh : unit_float lq_nat_thresh -> thresh_ok.
Proof.
  intros Hu c Hc. destruct (nat_thresh_le c (1024 * (LINK_COST_BROKEN - 1)) Hu) as (v & Hv & _); [done|vm_compute; reflexivity|]. by exists v.
Qed.

(** Starting the backoff timer changes nothing that the calculation looks at. *)
Lemma calc_ready_timer me b n st : calc_ready me st -> calc_ready me (set_spf_backoff_timer b (set_random_count n st)).
Proof.
  intros [[N1 N2] H2 H3 H4 H5 H6 H7 H8 H9 H10 H11 H12 H13 H14 H15 H16]. split; try assumption. split.
  - by apply (nbr_wf_frame _ st).
  - by apply (link_wf_ext st).
Qed.

(** C1: [olsr_calculate_routing_table], from link sensing to the kernel: unless the
    backoff timer holds it back, the calculation terminates normally; the vertices it
    reaches are those that the topology connects with this node, each at the least
    cost of a way there, with the best link to the symmetric neighbour the way starts
    with as next hop; every prefix they announce is routed over the address and
    interface of that link at that cost, and no prefix of another vertex is; each
    route's best path is one that none of its paths beats; and where that means
    another next hop than the kernel has, the kernel was told. The state it leaves is
    ready for the next calculation. *)
Theorem olsr_calculate_routing_table_correct me force st :
  kernel_deletes -> unit_float lq_nat_thresh -> calc_ready me st -> room st ->
  wp (olsr_calculate_routing_table force) (fun _ st' =>
    match force, spf_backoff_timer st with
    | false, Some _ => st' = st
    | _, b => calc_ready me st' /\ exists st0 F, routes_calculated me st0 F st' /\
        if force then st0 = st
        else exists t n, st0 = set_spf_backoff_timer (Some t) (set_random_count n st)
    end) st.
Proof.
  intros Hker Hu%unit_thresh Hr Hroom. unfold olsr_calculate_routing_table. wp_step. wp_step.
  assert (forall st0, calc_ready me st0 -> room st0 -> wp calculate_routes (fun _ st' => calc_ready me st' /\
    exists F, routes_calculated me st0 F st') st0) as Hcalc by (intros; by apply wp_calculate_routes).
  destruct force; [|destruct (spf_backoff_timer st)].
  - eapply wp_mono; [by apply Hcalc|]. cbv beta. intros _ st' [H1 [F H2]]. destruct (spf_backoff_timer st); (split; [done|]; by exists st, F).
  - by wp_step.
  - unfold olsr_start_timer. repeat wp_step. eapply wp_mono; [apply Hcalc; [by apply calc_ready_timer|exact Hroom]|].
    cbv beta. intros _ st' [H1 [F H2]]. split; [done|]. eexists _, F. split; [exact H2|]. by eexists _, _.
Qed.

End calc_spec.

(** ** Witness: 300 is two hops away, behind the neighbour 200 *)
Section calc_witness.

(** A plugin whose costs are in range. *)
Definition bounded_lq : lq_handler :=
  {| calc_hello_cost := fun l => hd 0 l; calc_tc_cost := fun l => Z.max 0 (Z.min LINK_COST_BROKEN (hd 0 l));
     packet_loss_handler := fun l lost => if lost then ([LINK_COST_BROKEN], LINK_COST_BROKEN) else ([1], 1);
     packet_loss_relevant := true;
     memorize_foreign_hello := fun l _ => l; copy_link_lq_into_neigh := fun l => l; copy_link_lq_into_tc := fun l => l;
     zero_hello_lq := [0]; zero_tc_lq := [0]; serialize_hello_lq := fun l => l; serialize_tc_lq := fun l => l;
     deserialize_hello_lq := fun _ b => match b with x :: rest => Some ([x], rest) | [] => None end;
     deserialize_tc_lq := fun _ b => match b with x :: rest => Some ([x], rest) | [] => None end;
     hello_lqdata_size := 1; tc_lqdata_size := 1 |}.
#[local] Instance bounded_laws : lq_laws bounded_lq.
Proof. split. intros lq. simpl. unfold LINK_COST_BROKEN. lia. Qed.

#[local] Existing Instance sample_cnf.
#[local] Existing Instance bounded_lq.
#[local] Existing Instance strict_kernel.

Definition line_db : olsr_state :=
  sample_db [Vertex 100; Vertex 200; Vertex 300; Edge 2 200 0; Edge 3 100 0; Edge 3 300 0; Edge 4 200 0;
             Cost 2 10; Cost 3 10; Cost 4 20; Cost 5 20].
Definition line0 : olsr_state :=
  set_main_addr 100 (set_ifnet [eth0; wlan0] (set_db (set_tc_myself (Some 2%positive) (db line_db)) line_db)).
Definition line1 : olsr_state := run (update_link_entry 100 201 (hello_from_200 100 SYM_LINK) eth0) line0.

Lemma line1_wf : net_wf line1.
Proof.
  apply hello_wf; [|vm_compute; left|apply heap_main_free, heap_forall; vm_compute; reflexivity
                   |vm_compute; split; discriminate || reflexivity|vm_compute; reflexivity].
  destruct (bare_wf [eth0; wlan0]) as [H1 H2]; [repeat constructor; by eexists|]. split.
  - apply (nbr_wf_frame _ _ line0 H1); vm_compute; try reflexivity. auto.
  - apply (link_wf_ext _ line0 H2); vm_compute; reflexivity.
Qed.

Lemma line1_db : db line1 = set_tc_myself (Some 2%positive) (db line_db).
Proof. vm_compute. reflexivity. Qed.

Lemma recorded_empty d : kernel_log d = [] -> rts d = ∅ -> recorded d.
Proof.
  intros E1 E2. split; rewrite ?E1, ?E2.
  - intros k Hk. by apply not_elem_of_nil in Hk.
  - intros r1 r2 y1 y2 H. by rewrite lookup_empty in H.
  - intros dst n m Hk. by apply not_elem_of_nil in Hk.
Qed.

Lemma line1_ready : calc_ready 2 line1.
Proof.
  split.
  - exact line1_wf.
  - rewrite line1_db. apply lsdb_wf_myself, sample_db_wf. vm_compute. reflexivity.
  - vm_compute. reflexivity.
  - eexists. split; vm_compute; reflexivity.
  - intros q n Hq. assert (neighbor_main_addr n =? 200 = true) as E%Z.eqb_eq.
    { revert q n Hq. apply (heap_forall (fun _ n => neighbor_main_addr n =? 200)). vm_compute. reflexivity. }
    rewrite E. vm_compute. discriminate.
  - intros p l Hl. assert (bool_decide (link_interface line1 l = Some (Some eth0)) = true) as E.
    { revert p l Hl. apply (heap_forall (fun _ l => bool_decide (link_interface line1 l = Some (Some eth0)))). vm_compute. reflexivity. }
    exists eth0. by apply bool_decide_eq_true in E.
  - intros i. assert (ifnet line1 = [eth0; wlan0]) as -> by (vm_compute; reflexivity).
    intros [->|[->|[]%elem_of_nil]%elem_of_cons]%elem_of_cons; vm_compute; reflexivity.
  - intros e x [Hx Hm]. assert (negb (bool_decide (edge_tc x = 2%positive)) || (T_dest_addr x =? 200) = true) as E.
    { revert e x Hx Hm. intros e x Hx _. revert e x Hx.
      apply (heap_forall (fun _ x => negb (bool_decide (edge_tc x = 2%positive)) || (T_dest_addr x =? 200))). vm_compute. reflexivity. }
    rewrite bool_decide_eq_true_2 in E by done. simpl in E. apply Z.eqb_eq in E. rewrite E.
    assert (exists n, nbrs line1 !! 2%positive = Some n /\ neighbor_main_addr n = 200) as (n & Hn & En) by (eexists; split; vm_compute; reflexivity).
    exists 2%positive, n. rewrite En. split; [done|]. vm_compute. reflexivity.
  - intros e x Hx. apply Z.leb_le. revert e x Hx. apply (heap_forall (fun _ x => 0 <=? edge_cost x)). vm_compute. reflexivity.
  - intros p x Hx. apply Z.leb_le. revert p x Hx. apply (heap_forall (fun _ x => prefix_len (rtp_dst x) <=? maxplen)). vm_compute. reflexivity.
  - intros p x Hx [r Hr]. assert (bool_decide (rtp_rt x = None) = true) as E.
    { clear Hr. revert p x Hx. apply (heap_forall (fun _ x => bool_decide (rtp_rt x = None))). vm_compute. reflexivity. }
    apply bool_decide_eq_true in E. congruence.
  - vm_compute. discriminate.
  - intros p x Hx. apply (bool_decide_eq_true_1 (is_Some (nat_thresh (metric_cost (rtp_metric x))))).
    revert p x Hx. apply (heap_forall (fun _ x => bool_decide (is_Some (nat_thresh (metric_cost (rtp_metric x)))))). vm_compute. reflexivity.
  - intros p x Hx. apply Z.ltb_lt. revert p x Hx. apply (heap_forall (fun _ x => -1 <? iif_index (rtp_nexthop x))). vm_compute. reflexivity.
  - vm_compute. reflexivity.
  - apply recorded_empty; vm_compute; reflexivity.
Qed.

Lemma olsr_calculate_routing_table_correct_witness :
  wp (olsr_calculate_routing_table false) (fun _ st' => calc_ready 2 st') line1 /\
  let st' := run (olsr_calculate_routing_table false) line1 in
  fib (kernel_log (db st')) =
    [({| prefix := 200; prefix_len := 32 |}, {| gateway := 201; iif_index := 2 |}, {| metric_cost := 10; metric_hops := 1 |});
     ({| prefix := 300; prefix_len := 32 |}, {| gateway := 201; iif_index := 2 |}, {| metric_cost := 30; metric_hops := 2 |})].
Proof.
  split; [|vm_compute; reflexivity].
  assert (unit_float lq_nat_thresh) as Hu by (eexists _, _; split; [vm_compute; reflexivity|]; split; vm_compute; discriminate).
  eapply wp_mono; [refine (olsr_calculate_routing_table_correct 2 false line1 strict_deletes Hu line1_ready _)|].
  - vm_compute. reflexivity.
  - assert (spf_backoff_timer line1 = None) as -> by (vm_compute; reflexivity). intros u st' [H _]. exact H.
Defined.

End calc_witness.
