(* ===== verification/MprSel.v ===== *)
(** * mpr_selector_set.c: the neighbours that chose this node as a relay

    A selector is an entry of the list [mprs_list] with the pointer it is known by. *)

From S2P Require Import Prelude Timer IpAddr State MidLookup NeighTable NeighProofs NeighSpec.

Definition OLSR_MPR_SEL_JITTER : Z := 5.

Section mpr_selector_set.
Context {cnf : olsrd_config}.

Definition olsr_init_mprs_set : OM unit := do* modify (set_ansn 0) in modify (set_mprs_list []).

Definition get_local_ansn : OM Z := gets ansn.
Definition increase_local_ansn : OM unit := modify (fun st => set_ansn (u16 (ansn st + 1)) st).

(** A write through the pointer [p]. *)
Definition upd_mprs (p : positive) (f : mpr_selector -> mpr_selector) : OM unit :=
  modify (fun st => set_mprs_list (map (fun e => if decide (fst e = p) then (fst e, f (snd e)) else e) (mprs_list st)) st).

Definition olsr_expire_mpr_sel_entry (p : positive) : OM unit :=
  do* modify (fun st => set_mprs_list (filter (fun e => fst e <> p) (mprs_list st)) st) in
  signal_link_changes true.

Definition olsr_set_mpr_sel_timer (p : positive) (rel_timer : Z) : OM unit :=
  let* e := gets_opt (fun st => find (fun e => bool_decide (fst e = p)) (mprs_list st)) in
  let* t := olsr_set_timer (MS_timer (snd e)) rel_timer OLSR_MPR_SEL_JITTER OLSR_TIMER_ONESHOT in
  upd_mprs p (set_MS_timer t).

(** The timer is set before the entry is queued. *)
Definition olsr_add_mpr_selector (addr : ip_addr) (vtime : Z) : OM positive :=
  let* p := gets (fun st => alloc (list_to_map (mprs_list st) : gmap positive mpr_selector)) in
  let* t := olsr_set_timer None vtime OLSR_MPR_SEL_JITTER OLSR_TIMER_ONESHOT in
  do* modify (fun st => set_mprs_list ((p, {| MS_main_addr := addr; MS_timer := t |}) :: mprs_list st) st) in
  ret p.

Definition find_mprs (l : list (positive * mpr_selector)) (addr : ip_addr) : option positive :=
  fst <$> find (fun e => ipequal ip_version (MS_main_addr (snd e)) addr) l.

Definition olsr_lookup_mprs_set (addr : ip_addr) : OM (option positive) := gets (fun st => find_mprs (mprs_list st) addr).

(** Whether there is a new entry. *)
Definition olsr_update_mprs_set (addr : ip_addr) (vtime : Z) : OM Z :=
  let* mprs := olsr_lookup_mprs_set addr in
  match mprs with
  | None =>
      let* _ := olsr_add_mpr_selector addr vtime in
      do* signal_link_changes true in
      ret 1
  | Some p => do* olsr_set_mpr_sel_timer p vtime in ret 0
  end.

(** ** The set of selectors *)

Definition selectors (st : olsr_state) : list ip_addr := map (fun e => MS_main_addr (snd e)) (mprs_list st).

Record mprs_wf (st : olsr_state) : Prop := {
  mp_ptrs : NoDup (map fst (mprs_list st));
  mp_addrs : NoDup (selectors st);
  mp_timers p m : (p, m) ∈ mprs_list st -> is_Some (MS_timer m);
}.

(** Everything else. *)
Definition mprs_strip (st : olsr_state) : olsr_state := set_mprs_list [] (set_random_count 0 (set_link_changes false st)).
Definition mprs_frame (st st' : olsr_state) : Prop := mprs_strip st' = mprs_strip st.

Lemma find_mprs_None l addr : find_mprs l addr = None <-> addr ∉ map (fun e => MS_main_addr (snd e)) l.
Proof.
  unfold find_mprs. induction l as [|[p m] l IH]; simpl; [split; [intros _; apply not_elem_of_nil|done]|].
  destruct (ipequal _ _ _) eqn:E; simpl.
  - apply ipequal_eq in E. split; [done|]. intros H. destruct H. rewrite E. left.
  - apply ipequal_neq in E. rewrite IH, not_elem_of_cons. naive_solver.
Qed.

Lemma find_mprs_Some l addr p : find_mprs l addr = Some p -> exists m, (p, m) ∈ l /\ MS_main_addr m = addr.
Proof.
  unfold find_mprs. induction l as [|[q m] l IH]; simpl; [done|]. destruct (ipequal _ _ _) eqn:E; simpl.
  - intros [= ->]. exists m. split; [left|by apply ipequal_eq in E].
  - intros (m' & ? & ?)%IH. exists m'. split; [by right|done].
Qed.

Lemma find_mprs_selector st addr : match find_mprs (mprs_list st) addr with Some _ => true | None => false end = bool_decide (addr ∈ selectors st).
Proof.
  destruct (find_mprs _ _) as [p|] eqn:E; symmetry.
  - apply bool_decide_eq_true. apply find_mprs_Some in E as (m & Hm & <-). apply list_elem_of_fmap. by exists (p, m).
  - apply bool_decide_eq_false. by apply find_mprs_None in E.
Qed.

Lemma find_ptr l (p : positive) (m : mpr_selector) : (p, m) ∈ l -> exists e, find (fun e => bool_decide (fst e = p)) l = Some e.
Proof.
  induction l as [|e l IH]; [by intros ?%not_elem_of_nil|]. simpl. intros [<-|H]%elem_of_cons.
  - exists (p, m). simpl. by rewrite bool_decide_true.
  - case_bool_decide; [by eexists|by apply IH].
Qed.

Lemma upd_ptrs p f l : map fst (map (fun e : positive * mpr_selector => if decide (fst e = p) then (fst e, f (snd e)) else e) l) = map fst l.
Proof. rewrite map_map. apply map_ext. intros e. by destruct (decide _). Qed.

Lemma timer_addrs p t l : map (fun e : positive * mpr_selector => MS_main_addr (snd e))
  (map (fun e => if decide (fst e = p) then (fst e, set_MS_timer t (snd e)) else e) l) = map (fun e => MS_main_addr (snd e)) l.
Proof. rewrite map_map. apply map_ext. intros e. by destruct (decide _). Qed.

(** The MPR selector set: an update with a positive validity time adds the address if
    and only if it was missing, tells so, and signals a change of the links exactly
    then; every selector is listed once and has a running timer, whose expiry removes
    it and only it. *)
Theorem olsr_update_mprs_set_correct addr vtime st :
  mprs_wf st -> vtime <> 0 ->
  wp (olsr_update_mprs_set addr vtime) (fun r st' => mprs_wf st' /\ mprs_frame st st' /\
    if bool_decide (addr ∈ selectors st) then r = 0 /\ selectors st' = selectors st /\ link_changes st' = link_changes st
    else r = 1 /\ selectors st' = addr :: selectors st /\ link_changes st' = true /\
      exists p, find_mprs (mprs_list st') addr = Some p /\
        wp (olsr_expire_mpr_sel_entry p) (fun _ st2 => selectors st2 = selectors st) st') st.
Proof.
  intros [Hp Ha Ht] Hv. unfold olsr_update_mprs_set, olsr_lookup_mprs_set. wp_steps.
  destruct (find_mprs (mprs_list st) addr) as [p|] eqn:E.
  - apply find_mprs_Some in E as (m & Hin & Em). wp_step. unfold olsr_set_mpr_sel_timer. wp_step.
    destruct (find_ptr _ _ _ Hin) as [e He]. eapply (wp_gets_opt (fun st => find (fun e => bool_decide (fst e = p)) (mprs_list st))); [exact He|].
    wp_step. apply wp_set_timer. intros t k _ Hsome. unfold upd_mprs. wp_steps.
    assert (addr ∈ selectors st) as Hs by (rewrite <- Em; by apply (list_elem_of_fmap_2 (fun e => MS_main_addr (snd e)) _ (p, m))).
    rewrite bool_decide_true by done. split; [|split; [by destruct st|]].
    + split; unfold selectors in *; simpl; rewrite ?upd_ptrs, ?timer_addrs; try done.
      intros q x (y & Ey & Hy)%list_elem_of_fmap. destruct (decide (fst y = p)); [|destruct y; injection Ey as -> ->; by eapply Ht].
      injection Ey as -> ->. by apply Hsome.
    + unfold selectors. simpl. by rewrite timer_addrs.
  - pose proof E as Hn. apply find_mprs_None in Hn. unfold olsr_add_mpr_selector, signal_link_changes. wp_steps.
    set (p := alloc _). apply wp_set_timer. intros t k _ Hsome. wp_steps.
    assert (p ∉ map fst (mprs_list st)) as Hfresh.
    { intros Hin. assert ((list_to_map (mprs_list st) : gmap positive mpr_selector) !! p = None) as Hf by apply alloc_fresh.
      by apply not_elem_of_list_to_map in Hf. }
    rewrite bool_decide_false by done. split; [|split; [by destruct st|]].
    + split; unfold selectors in *; simpl; [by apply NoDup_cons|by apply NoDup_cons|].
      intros q x [[= -> ->]|H]%elem_of_cons; [by apply Hsome|by eapply Ht].
    + split; [done|]. split; [done|]. split; [done|]. exists p. unfold find_mprs. simpl. rewrite ipequal_refl. split; [done|].
      unfold olsr_expire_mpr_sel_entry, signal_link_changes. wp_steps. unfold selectors. simpl. rewrite filter_cons, decide_False by (simpl; tauto).
      f_equal. apply filter_all. intros [q x] Hin E'. apply Hfresh. rewrite <- E'. by apply (list_elem_of_fmap_2 fst _ (q, x)).
Qed.

End mpr_selector_set.

Section mprs_witness.
#[local] Existing Instance sample_cnf.

(** 7 is a selector already; 9 becomes one. *)
Definition one_selector : olsr_state :=
  set_mprs_list [(1%positive, {| MS_main_addr := 7; MS_timer := Some {| timer_clock := 6000; timer_period := 0; timer_jitter_pct := 5; timer_random := 3 |} |})] empty_state.

Lemma olsr_update_mprs_set_correct_witness :
  wp (olsr_update_mprs_set 9 6000) (fun r st' => r = 1 /\ selectors st' = [9; 7] /\ link_changes st' = true) one_selector.
Proof.
  eapply wp_mono; [refine (olsr_update_mprs_set_correct 9 6000 one_selector _ _)|].
  - split.
    + vm_compute. repeat constructor. apply not_elem_of_nil.
    + vm_compute. repeat constructor. apply not_elem_of_nil.
    + intros p m H. vm_compute in H. apply list_elem_of_singleton in H. injection H as _ ->. eexists. reflexivity.
  - discriminate.
  - intros r st' (_ & _ & H). match type of H with (if ?b then _ else _) => assert (b = false) as E by (vm_compute; reflexivity) end.
    rewrite E in H. destruct H as (H1 & H2 & H3 & _). split; [exact H1|]. split; [exact H2|exact H3].
Defined.

End mprs_witness.
