(* ===== verification/Hello.v ===== *)
(** * process_package.c: what a HELLO message changes *)

From S2P Require Import Prelude Timer IpAddr State MidLookup Interfaces NeighTable NeighProofs HelloTwoHop Packet LsdbOps Lq LinkSet.

Section hello.
Context {cnf : olsrd_config} {lqh : lq_handler}.

(** ** The neighbours of the sender *)

(** The second pass for one list element of a two-hop neighbour: the new element and
    whether it changed. *)
Definition improve_path (nbr : positive) (first_hop_pathcost cost : Z) (walker : neighbor_list_entry)
  : neighbor_list_entry * bool :=
  let new_path_linkcost := u32 (first_hop_pathcost + cost) in
  if bool_decide (neighbor walker = nbr) && (new_path_linkcost <? path_linkcost walker)
  then ({| neighbor := neighbor walker; second_hop_linkcost := cost;
           path_linkcost := new_path_linkcost; saved_path_linkcost := new_path_linkcost |}, true)
  else (walker, false).

Definition update_path_cost (nbr : positive) (first_hop_pathcost : Z) (hn : hello_neighbor) : OM unit :=
  let* ifs := gets ifnet in
  match if_ifwithaddr ifs (hn_address hn) with
  | Some _ => ret tt
  | None =>
      when ((hn_status hn =? SYM_NEIGH) || (hn_status hn =? MPR_NEIGH))
        (let* two_hop_neighbor_yet := olsr_lookup_my_neighbors nbr (hn_address hn) in
         match two_hop_neighbor_yet with
         | None => ret tt
         | Some e =>
             let* m := get_nbr2 (neighbor_2 e) in
             let walkers := map (improve_path nbr first_hop_pathcost (hn_cost hn)) (neighbor_2_nblist m) in
             do* upd_nbr2 (neighbor_2 e) (set_neighbor_2_nblist (map fst walkers)) in
             when (existsb snd walkers)
               (do* modify (set_changes_neighborhood true) in modify (set_changes_topology true))
         end)
  end.

Definition second_pass (nbr : positive) (ns : list hello_neighbor) : OM unit :=
  let* n := get_nbr nbr in
  let* lnk := get_best_link_to_neighbor (neighbor_main_addr n) in
  match lnk with
  | None => ret tt
  | Some p =>
      let* l := get_link p in
      forM_ ns (update_path_cost nbr (linkcost l))
  end.

Definition process_message_neighbors (nbr : positive) (message : hello_message) : OM unit :=
  let* ns := collectM (hello_neighbors message) (process_message_neighbor nbr (hello_vtime message)) in
  when (lq_level >? 0) (second_pass nbr ns).

(** ** Reading the message

    [ser] is the packet from the message on; a read position is an offset. [None] is a
    read past the end of the packet, [Some None] a message that is not a HELLO or
    has an empty group. *)

Definition HELLO_MESSAGE : Z := 1.
Definition LQ_HELLO_MESSAGE : Z := 201.
Definition HELLO_LINK_ORDER_ARRAY : list Z := [UNSPEC_LINK; LOST_LINK; ASYM_LINK; SYM_LINK].
Definition EXTRACT_STATUS (link_code : Z) : Z := Z.shiftr (Z.land link_code 12) 2.
Definition EXTRACT_LINK (link_code : Z) : Z := Z.land link_code 3.

(** A read through the position [curr], which it moves. *)
Definition rd {A} (get : list Z -> option (A * list Z)) (ser : list Z) (curr : Z) : option (A * Z) :=
  let l := drop (Z.to_nat curr) ser in
  '(x, rest) ← get l; Some (x, curr + Z.of_nat (length l - length rest)).

(** One neighbour of a group with this link code. *)
Definition read_hello_neighbor (ser : list Z) (type link_code curr : Z) : option (hello_neighbor * Z) :=
  '(addr, curr) ← rd pkt_get_ipaddress ser curr;
  '(lq, cost, curr) ← (if type =? LQ_HELLO_MESSAGE then
      '(r, curr) ← rd (fun l => '(lq, cost, rest) ← olsr_deserialize_hello_lq_pair l; Some ((lq, cost), rest)) ser curr;
      Some (r, curr)
    else Some ((zero_hello_lq, 0), curr));
  Some ({| hn_status := EXTRACT_STATUS link_code; hn_link := EXTRACT_LINK link_code; hn_address := addr;
           hn_cost := cost; hn_linkquality := lq |}, curr).

(** The neighbours of a group, the last one first, in front of [acc]. *)
Fixpoint read_hello_group (fuel : nat) (ser : list Z) (type link_code limit2 curr : Z) (acc : list hello_neighbor)
  : option (list hello_neighbor * Z) :=
  match fuel with
  | O => None
  | S fuel =>
      if curr <? limit2 then
        '(neigh, curr) ← read_hello_neighbor ser type link_code curr;
        read_hello_group fuel ser type link_code limit2 curr (neigh :: acc)
      else Some (acc, curr)
  end.

(** The groups whose link type is [order]; [Some None] is an empty group. *)
Fixpoint read_hello_groups (fuel : nat) (ser : list Z) (type order limit curr : Z) (acc : list hello_neighbor)
  : option (option (list hello_neighbor)) :=
  match fuel with
  | O => None
  | S fuel =>
      if curr <? limit then
        '(link_code, curr1) ← rd pkt_get_u8 ser curr;
        '(size2, curr2) ← rd pkt_get_u16 ser (curr1 + 1);
        let limit2 := curr + size2 in
        if size2 =? 0 then Some None
        else if negb (EXTRACT_LINK link_code =? order) then read_hello_groups fuel ser type order limit limit2 acc
        else
          '(acc, curr) ← read_hello_group (S (length ser)) ser type link_code limit2 curr2 acc;
          read_hello_groups fuel ser type order limit curr acc
      else Some (Some acc)
  end.

Fixpoint read_hello_orders (ser : list Z) (type limit curr : Z) (orders : list Z) (acc : list hello_neighbor)
  : option (option (list hello_neighbor)) :=
  match orders with
  | [] => Some (Some acc)
  | order :: orders =>
      r ← read_hello_groups (S (length ser)) ser type order limit curr acc;
      match r with
      | None => Some None
      | Some acc => read_hello_orders ser type limit curr orders acc
      end
  end.

(** The list starts with the neighbours that have a link; of the others it keeps those
    whose address is not among the former. *)
Definition cull_unspec (neighbors : list hello_neighbor) : list hello_neighbor :=
  let others := filter (fun n => negb (hn_link n =? UNSPEC_LINK) = true) neighbors in
  let unspec := filter (fun n => (hn_link n =? UNSPEC_LINK) = true) neighbors in
  others ++ foldl (fun us neigh => filter (fun u => negb (ipequal ip_version (hn_address u) (hn_address neigh)) = true) us)
    unspec others.

Definition deserialize_hello (ser : list Z) : option (option hello_message) :=
  '(type, curr) ← rd pkt_get_u8 ser 0;
  if negb (type =? HELLO_MESSAGE) && negb (type =? LQ_HELLO_MESSAGE) then Some None
  else
    '(vtime, curr) ← rd pkt_get_reltime ser curr;
    '(size, curr) ← rd pkt_get_u16 ser curr;
    '(source_addr, curr) ← rd pkt_get_ipaddress ser curr;
    '(ttl, curr) ← rd pkt_get_u8 ser curr;
    '(hop_count, curr) ← rd pkt_get_u8 ser curr;
    '(packet_seq_number, curr) ← rd pkt_get_u16 ser curr;
    '(htime, curr) ← rd pkt_get_reltime ser (curr + 2);
    '(will, curr) ← rd pkt_get_u8 ser curr;
    r ← read_hello_orders ser type size curr HELLO_LINK_ORDER_ARRAY [];
    match r with
    | None => Some None
    | Some neighbors =>
        Some (Some {| hello_vtime := vtime; hello_htime := htime; hello_source_addr := source_addr;
          hello_packet_seq_number := packet_seq_number; hello_hop_count := hop_count; hello_ttl := ttl;
          hello_willingness := will; hello_neighbors := cull_unspec neighbors |})
    end.

(** ** What the message says of this node *)

(** The first neighbour with a link and the address of the interface. *)
Fixpoint mpr_status (neighbors : list hello_neighbor) (own : ip_addr) : bool :=
  match neighbors with
  | [] => false
  | n :: neighbors =>
      if negb (hn_link n =? UNSPEC_LINK) && ipequal ip_version (hn_address n) own
      then (hn_link n =? SYM_LINK) && (hn_status n =? MPR_NEIGH)
      else mpr_status neighbors own
  end.

(** [ip_addr] and, for IPv6, [int6_addr] of an interface hold the same address. *)
Definition lookup_mpr_status (message : hello_message) (in_if : interface_olsr) : bool :=
  mpr_status (hello_neighbors message) (if_ip_addr in_if).

End hello.
