(* ===== verification/HelloRead.v ===== *)
(** * Reading a HELLO message *)

From S2P Require Import Prelude Timer Mantissa IpAddr State MidLookup Interfaces NeighTable NeighProofs HelloTwoHop Packet LsdbOps Lq LinkSet Hello.

(** ** Reads *)

Lemma rd_app {A} (get : list Z -> option (A * list Z)) pre l post x rest curr :
  get (l ++ post) = Some (x, rest) -> curr = Z.of_nat (length pre) ->
  rd get (pre ++ l ++ post) curr = Some (x, curr + Z.of_nat (length (l ++ post) - length rest)).
Proof. intros H ->. unfold rd. rewrite Nat2Z.id, drop_app_length. by rewrite H. Qed.

(** Reading field after field: [q] is what follows the position. *)
Definition follows (ser : list Z) (curr : Z) (q : list Z) : Prop := 0 <= curr /\ drop (Z.to_nat curr) ser = q.

Lemma follows_skip ser curr l q : follows ser curr (l ++ q) -> follows ser (curr + Z.of_nat (length l)) q.
Proof.
  intros [H0 H]. split; [lia|]. rewrite Z2Nat.inj_add, Nat2Z.id by lia. by rewrite <- drop_drop, H, drop_app_length.
Qed.

Lemma rd_follows {A} (get : list Z -> option (A * list Z)) ser curr l q x :
  follows ser curr (l ++ q) -> get (l ++ q) = Some (x, q) ->
  rd get ser curr = Some (x, curr + Z.of_nat (length l)).
Proof.
  intros [H0 H] Hget. unfold rd. rewrite H, Hget. simpl. do 2 f_equal. rewrite length_app. lia.
Qed.

(** What is read is in the range of its type. *)
Section ranges.
Context (P : Z -> Prop).

Lemma rd_ok {A} (get : list Z -> option (A * list Z)) (Q : A -> Prop) ser curr x c :
  (forall l y rest, Forall P l -> get l = Some (y, rest) -> Q y) -> Forall P ser -> rd get ser curr = Some (x, c) -> Q x.
Proof.
  intros Hget Hs H. unfold rd in H. destruct (get _) as [[y rest]|] eqn:E; simpl in H; [|done]. injection H as -> _.
  eapply Hget; [|exact E]. by apply Forall_drop.
Qed.

End ranges.

Lemma get_u8_range l y rest : Forall is_u8 l -> pkt_get_u8 l = Some (y, rest) -> is_u8 y.
Proof. destruct l; [done|]. intros Hf [= -> ->]. by inversion Hf. Qed.

Lemma get_u16_range l y rest : Forall is_u8 l -> pkt_get_u16 l = Some (y, rest) -> is_u16 y.
Proof.
  destruct l as [|a [|b l]]; try done. intros Hf [= <- <-]. inversion Hf as [|? ? Ha Hf']. inversion Hf' as [|? ? Hb _].
  unfold is_u8, is_u16 in *. lia.
Qed.

Lemma ip_of_bytes_range l : Forall is_u8 l -> is_ip (length l) (ip_of_bytes l).
Proof.
  intros Hl. induction Hl as [|b l Hb Hl IH]; unfold is_ip in *; [by simpl|].
  change (ip_of_bytes (b :: l)) with (b + 256 * ip_of_bytes l). cbn [length]. unfold is_u8 in Hb. rewrite Nat2Z.inj_succ, Z.pow_succ_r by lia. lia.
Qed.

Section hello_read.
Context {cnf : olsrd_config} {lqh : lq_handler}.

Lemma get_ip_range l y rest : Forall is_u8 l -> pkt_get_ipaddress l = Some (y, rest) -> is_ip (ipsize ip_version) y.
Proof.
  unfold pkt_get_ipaddress. intros Hf. destruct (Nat.ltb_spec (length l) (ipsize ip_version)) as [|Hl]; [done|]. intros [= <- _].
  assert (length (take (ipsize ip_version) l) = ipsize ip_version) as E by (rewrite length_take; lia).
  rewrite <- E at 1. apply ip_of_bytes_range. by apply Forall_take.
Qed.

(** ** The neighbours of one link type *)

Definition neigh_typed (order : Z) (n : hello_neighbor) : Prop :=
  hn_link n = order /\ 0 <= hn_status n <= 3 /\ is_ip (ipsize ip_version) (hn_address n).

Lemma extract_status_range c : 0 <= EXTRACT_STATUS c <= 3.
Proof.
  unfold EXTRACT_STATUS. assert (0 <= Z.land c 12) as H0 by (apply Z.land_nonneg; lia).
  assert (Z.shiftr (Z.land c 12) 2 = Z.land (Z.shiftr c 2) 3) as -> by (rewrite Z.shiftr_land; done).
  assert (forall x, Z.land x 3 = x mod 4) as -> by (intros x; change 3 with (Z.ones 2); by rewrite Z.land_ones).
  pose proof (Z.mod_pos_bound (Z.shiftr c 2) 4). lia.
Qed.

Lemma read_group_typed fuel ser type code limit2 curr acc acc' c :
  Forall is_u8 ser -> read_hello_group fuel ser type code limit2 curr acc = Some (acc', c) ->
  exists new, acc' = new ++ acc /\ Forall (neigh_typed (EXTRACT_LINK code)) new.
Proof.
  intros Hs. revert curr acc. induction fuel as [|fuel IH]; intros curr acc; simpl; [done|].
  destruct (curr <? limit2); [|intros [= <- <-]; by exists []].
  destruct (read_hello_neighbor ser type code curr) as [[n c1]|] eqn:E; simpl; [|done].
  intros (new & -> & Hnew)%IH. exists (new ++ [n]). rewrite <- app_assoc. split; [done|]. apply Forall_app. split; [done|].
  apply Forall_singleton. unfold read_hello_neighbor in E. destruct (rd pkt_get_ipaddress ser curr) as [[a c2]|] eqn:Ea; simpl in E; [|done].
  apply (rd_ok _ _ _ _ _ _ _ get_ip_range Hs) in Ea. destruct (if _ =? _ then _ else _) as [[[lq cost] c3]|]; simpl in E; [|done].
  injection E as <- _. split; [done|]. split; [apply extract_status_range|done].
Qed.

#[local] Arguments read_hello_group : simpl never.

Lemma read_groups_typed fuel ser type order limit curr acc acc' :
  Forall is_u8 ser -> read_hello_groups fuel ser type order limit curr acc = Some (Some acc') ->
  exists new, acc' = new ++ acc /\ Forall (neigh_typed order) new.
Proof.
  intros Hs. revert curr acc. induction fuel as [|fuel IH]; intros curr acc; simpl; [done|].
  destruct (curr <? limit); [|intros [= <-]; by exists []].
  destruct (rd pkt_get_u8 ser curr) as [[code c1]|]; simpl; [|done].
  destruct (rd pkt_get_u16 ser (c1 + 1)) as [[size2 c2]|]; simpl; [|done]. destruct (size2 =? 0); [done|].
  destruct (negb _) eqn:Eo; [by apply IH|]. apply negb_false_iff, Z.eqb_eq in Eo.
  destruct (read_hello_group _ _ _ _ _ _ _) as [[acc1 c3]|] eqn:E; simpl; [|done].
  apply read_group_typed in E as (new1 & -> & H1); [|done]. intros (new & -> & H2)%IH. exists (new ++ new1). rewrite <- app_assoc.
  split; [done|]. apply Forall_app. split; [done|]. by rewrite Eo in H1.
Qed.

#[local] Arguments read_hello_groups : simpl never.

(** The neighbours in the order of the list: the last link type first. *)
Lemma read_orders_typed ser type limit curr orders acc acc' :
  Forall is_u8 ser -> read_hello_orders ser type limit curr orders acc = Some (Some acc') ->
  exists groups, acc' = concat (rev groups) ++ acc /\ Forall2 (fun o ns => Forall (neigh_typed o) ns) orders groups.
Proof.
  intros Hs. revert acc. induction orders as [|o orders IH]; intros acc; simpl; [intros [= <-]; exists []; by split|].
  destruct (read_hello_groups _ _ _ _ _ _ _) as [[acc1|]|] eqn:E; simpl; try done.
  apply read_groups_typed in E as (new & -> & H1); [|done]. intros (groups & -> & H2)%IH. exists (new :: groups).
  split; [|by constructor]. simpl. rewrite concat_app. simpl. by rewrite app_nil_r, <- app_assoc.
Qed.

Lemma cull_unspec_spec syms unspec :
  Forall (fun n => hn_link n <> UNSPEC_LINK) syms -> Forall (fun n => hn_link n = UNSPEC_LINK) unspec ->
  cull_unspec (syms ++ unspec) = syms ++ filter (fun u => forallb (fun n => negb (ipequal ip_version (hn_address u) (hn_address n))) syms = true) unspec.
Proof.
  intros Hs Hu. unfold cull_unspec. rewrite !filter_app.
  assert (filter (fun n => negb (hn_link n =? UNSPEC_LINK) = true) syms = syms) as ->.
  { apply filter_all. rewrite Forall_forall in Hs. intros n Hn. apply negb_true_iff, Z.eqb_neq, Hs, Hn. }
  assert (filter (fun n => (hn_link n =? UNSPEC_LINK) = true) unspec = unspec) as ->.
  { apply filter_all. rewrite Forall_forall in Hu. intros n Hn. apply Z.eqb_eq, Hu, Hn. }
  assert (filter (fun n => negb (hn_link n =? UNSPEC_LINK) = true) unspec = []) as ->.
  { clear -Hu. induction Hu as [|n l Hn Hu IH]; [done|]. rewrite filter_cons, IH, decide_False; [done|]. by rewrite Hn. }
  assert (filter (fun n => (hn_link n =? UNSPEC_LINK) = true) syms = []) as ->.
  { clear -Hs. induction Hs as [|n l Hn Hs IH]; [done|]. rewrite filter_cons, IH, decide_False; [done|]. by intros ?%Z.eqb_eq. }
  rewrite app_nil_r, app_nil_l. f_equal. clear Hs Hu. revert unspec. induction syms as [|s syms IH]; intros unspec; simpl.
  - symmetry. by apply filter_all.
  - rewrite IH, list_filter_filter. apply filter_ext_in. intros u _. rewrite andb_true_iff. tauto.
Qed.

(** One step of the loops. *)
Lemma read_group_S fuel ser type link_code limit2 curr acc :
  read_hello_group (S fuel) ser type link_code limit2 curr acc =
  if curr <? limit2 then
    '(neigh, curr) ← read_hello_neighbor ser type link_code curr;
    read_hello_group fuel ser type link_code limit2 curr (neigh :: acc)
  else Some (acc, curr).
Proof. done. Qed.

Lemma read_groups_S fuel ser type order limit curr acc :
  read_hello_groups (S fuel) ser type order limit curr acc =
  if curr <? limit then
    '(link_code, curr1) ← rd pkt_get_u8 ser curr;
    '(size2, curr2) ← rd pkt_get_u16 ser (curr1 + 1);
    let limit2 := curr + size2 in
    if size2 =? 0 then Some None
    else if negb (EXTRACT_LINK link_code =? order) then read_hello_groups fuel ser type order limit limit2 acc
    else
      '(acc, curr) ← read_hello_group (S (length ser)) ser type link_code limit2 curr2 acc;
      read_hello_groups fuel ser type order limit curr acc
  else Some (Some acc).
Proof. done. Qed.

(** ** Reading back a written message *)
Section written.
Context (type : Z) (seen_lq : list Z -> list Z).

(** The layout of RFC 3626: groups of neighbours that share a link code. [seen_lq] is
    the private data of the metric as the handler reads it. *)
Definition put_hello_neighbor (n : ip_addr * list Z) : list Z :=
  pkt_put_ipaddress [] (fst n) ++ (if type =? LQ_HELLO_MESSAGE then serialize_hello_lq (snd n) else []).
Definition put_hello_body (ns : list (ip_addr * list Z)) : list Z := concat (map put_hello_neighbor ns).
Definition put_hello_group (g : Z * list (ip_addr * list Z)) : list Z :=
  [fst g; 0] ++ pkt_put_u16 [] (4 + Z.of_nat (length (put_hello_body (snd g)))) ++ put_hello_body (snd g).

Definition seen_neighbor (code : Z) (n : ip_addr * list Z) : hello_neighbor :=
  let lq := seen_lq (snd n) in
  {| hn_status := EXTRACT_STATUS code; hn_link := EXTRACT_LINK code; hn_address := fst n;
     hn_cost := if type =? LQ_HELLO_MESSAGE then calc_hello_cost lq else 0;
     hn_linkquality := if type =? LQ_HELLO_MESSAGE then lq else zero_hello_lq |}.

(** The neighbours with a link type, in the order of the message. *)
Definition seen_with (order : Z) (groups : list (Z * list (ip_addr * list Z))) : list hello_neighbor :=
  concat (map (fun g => if EXTRACT_LINK (fst g) =? order then map (seen_neighbor (fst g)) (snd g) else []) groups).

Definition neighbor_ok (n : ip_addr * list Z) : Prop :=
  is_ip (ipsize ip_version) (fst n) /\
  (type = LQ_HELLO_MESSAGE -> forall rest, deserialize_hello_lq zero_hello_lq (serialize_hello_lq (snd n) ++ rest) = Some (seen_lq (snd n), rest)).

Lemma put_neighbor_length n : (0 < length (put_hello_neighbor n))%nat.
Proof.
  unfold put_hello_neighbor, pkt_put_ipaddress, ip_bytes. rewrite !length_app, length_map, length_seq. simpl. unfold ipsize. destruct ip_version; lia.
Qed.

Lemma read_neighbor_put code n pre post :
  neighbor_ok n ->
  read_hello_neighbor (pre ++ put_hello_neighbor n ++ post) type code (Z.of_nat (length pre)) =
  Some (seen_neighbor code n, Z.of_nat (length (pre ++ put_hello_neighbor n))).
Proof.
  intros [Hip Hlq]. unfold read_hello_neighbor, put_hello_neighbor, seen_neighbor. rewrite <- app_assoc.
  rewrite (rd_app _ pre (pkt_put_ipaddress [] (fst n)) _ _ _ _ (get_put_ipaddress _ _ Hip) eq_refl). simpl.
  destruct (Z.eqb_spec type LQ_HELLO_MESSAGE) as [E|E].
  - assert (Z.of_nat (length pre) + Z.of_nat (length (pkt_put_ipaddress [] (fst n) ++ serialize_hello_lq (snd n) ++ post) -
        length (serialize_hello_lq (snd n) ++ post)) = Z.of_nat (length (pre ++ pkt_put_ipaddress [] (fst n)))) as ->
      by (rewrite !length_app; lia).
    rewrite (app_assoc pre). erewrite (rd_app _ _ (serialize_hello_lq (snd n))); [|unfold olsr_deserialize_hello_lq_pair; by rewrite (Hlq E)|done].
    simpl. do 2 f_equal. rewrite !length_app. lia.
  - simpl. do 2 f_equal. rewrite !length_app. simpl. lia.
Qed.

Lemma read_group_put code ns pre post fuel acc :
  Forall neighbor_ok ns -> (length ns < fuel)%nat ->
  read_hello_group fuel (pre ++ put_hello_body ns ++ post) type code (Z.of_nat (length (pre ++ put_hello_body ns))) (Z.of_nat (length pre)) acc =
  Some (rev (map (seen_neighbor code) ns) ++ acc, Z.of_nat (length (pre ++ put_hello_body ns))).
Proof.
  intros Hns. revert pre fuel acc. induction Hns as [|n ns Hn Hns IH]; intros pre fuel acc Hf; (destruct fuel as [|fuel]; [simpl in Hf; lia|]); rewrite read_group_S.
  - unfold put_hello_body. simpl. rewrite app_nil_r, Z.ltb_irrefl. done.
  - change (put_hello_body (n :: ns)) with (put_hello_neighbor n ++ put_hello_body ns). pose proof (put_neighbor_length n) as Hl.
    destruct (Z.ltb_spec (Z.of_nat (length pre)) (Z.of_nat (length (pre ++ put_hello_neighbor n ++ put_hello_body ns)))) as [_|H];
      [|rewrite !length_app in H; lia].
    rewrite <- app_assoc, read_neighbor_put by done. cbn [mbind option_bind]. rewrite !(app_assoc pre).
    rewrite IH by (simpl in Hf; lia). do 2 f_equal. simpl. by rewrite <- app_assoc.
Qed.

Definition group_ok (g : Z * list (ip_addr * list Z)) : Prop := Forall neighbor_ok (snd g).

Lemma body_length ns : (length ns <= length (put_hello_body ns))%nat.
Proof.
  induction ns as [|n ns IH]; [done|]. unfold put_hello_body in *. simpl. rewrite length_app. pose proof (put_neighbor_length n). lia.
Qed.

Lemma read_groups_put order groups pre post fuel acc :
  Forall group_ok groups -> (length groups < fuel)%nat -> Z.of_nat (length (concat (map put_hello_group groups))) < 65536 ->
  read_hello_groups fuel (pre ++ concat (map put_hello_group groups) ++ post) type order
    (Z.of_nat (length (pre ++ concat (map put_hello_group groups)))) (Z.of_nat (length pre)) acc =
  Some (Some (rev (seen_with order groups) ++ acc)).
Proof.
  intros Hg. revert pre fuel acc. induction Hg as [|[code ns] groups Hns Hg IH]; intros pre fuel acc Hf Hlen;
    (destruct fuel as [|fuel]; [simpl in Hf; lia|]); rewrite read_groups_S.
  - simpl. rewrite app_nil_r, Z.ltb_irrefl. done.
  - cbn [map concat] in *. set (tl := concat (map put_hello_group groups)) in *. set (g := put_hello_group (code, ns)) in *.
    set (len := Z.of_nat (length (put_hello_body ns))).
    assert (length g = (4 + length (put_hello_body ns))%nat) as El by (unfold g, put_hello_group; simpl; lia).
    destruct (Z.ltb_spec (Z.of_nat (length pre)) (Z.of_nat (length (pre ++ g ++ tl)))) as [_|H]; [|rewrite !length_app in H; lia].
    assert (is_u16 (4 + len)) as Hu by (rewrite length_app, El in Hlen; unfold is_u16, len; lia).
    set (ser := pre ++ (g ++ tl) ++ post). assert (ser = pre ++ [code] ++ 0 :: pkt_put_u16 [] (4 + len) ++ put_hello_body ns ++ tl ++ post) as E1
      by (unfold ser, g, put_hello_group; simpl; rewrite <- !app_assoc; done).
    assert (rd pkt_get_u8 ser (Z.of_nat (length pre)) = Some (code, Z.of_nat (length pre) + 1)) as ->.
    { rewrite E1. erewrite (rd_app _ pre [code]); [|done|done]. do 2 f_equal. cbn [length app]. lia. }
    cbn [mbind option_bind].
    assert (rd pkt_get_u16 ser (Z.of_nat (length pre) + 1 + 1) = Some (4 + len, Z.of_nat (length pre) + 4)) as ->.
    { assert (ser = (pre ++ [code; 0]) ++ pkt_put_u16 [] (4 + len) ++ put_hello_body ns ++ tl ++ post) as -> by (by rewrite E1, <- app_assoc).
      erewrite (rd_app _ (pre ++ [code; 0])); [|by apply get_put_u16|rewrite length_app; cbn [length]; lia]. do 2 f_equal.
      cbn [length app pkt_put_u16]. lia. }
    cbn [mbind option_bind]. destruct (Z.eqb_spec (4 + len) 0) as [H|_]; [unfold len in H; lia|].
    assert (Z.of_nat (length pre) + (4 + len) = Z.of_nat (length (pre ++ g))) as Epos by (rewrite length_app, El; unfold len; lia).
    assert (forall acc', read_hello_groups fuel ser type order (Z.of_nat (length (pre ++ g ++ tl))) (Z.of_nat (length (pre ++ g))) acc' =
      Some (Some (rev (seen_with order groups) ++ acc'))) as Hrest.
    { intros acc'. unfold ser. rewrite <- app_assoc, !(app_assoc pre g). apply IH; [simpl in Hf; lia|]. rewrite length_app in Hlen. lia. }
    unfold seen_with. cbn [map concat]. fold (seen_with order groups). rewrite rev_app_distr, <- app_assoc. cbn [fst snd].
    rewrite Epos. destruct (EXTRACT_LINK code =? order); cbn [negb]; [|apply Hrest].
    set (pre2 := pre ++ [code; 0] ++ pkt_put_u16 [] (4 + len)).
    assert (Z.of_nat (length pre) + 4 = Z.of_nat (length pre2)) as -> by (unfold pre2; rewrite !length_app; cbn [length pkt_put_u16 app]; lia).
    assert (pre ++ g = pre2 ++ put_hello_body ns) as Eg by (unfold g, put_hello_group, pre2; by rewrite <- !app_assoc).
    assert (ser = pre2 ++ put_hello_body ns ++ (tl ++ post)) as E2 by (unfold ser; rewrite !app_assoc, Eg, <- !app_assoc; done).
    rewrite E2 at 2. rewrite Eg, read_group_put; [|done|].
    + cbn [mbind option_bind]. rewrite <- Eg. apply Hrest.
    + rewrite E2, !length_app. pose proof (body_length ns). lia.
Qed.

Lemma read_orders_put (f : Z -> list hello_neighbor) ser limit curr orders acc :
  (forall order acc, read_hello_groups (S (length ser)) ser type order limit curr acc = Some (Some (f order ++ acc))) ->
  read_hello_orders ser type limit curr orders acc = Some (Some (concat (map f (rev orders)) ++ acc)).
Proof.
  intros H. revert acc. induction orders as [|o orders IH]; intros acc; [done|]. cbn [read_hello_orders rev]. rewrite H. cbn [mbind option_bind].
  rewrite IH, map_app, concat_app. simpl. by rewrite app_nil_r, <- app_assoc.
Qed.

(** A message; the times are mantissa bytes. *)
Definition put_hello (vt size : Z) (src : ip_addr) (ttl hops seqno ht will : Z) (groups : list (Z * list (ip_addr * list Z))) : list Z :=
  [type; vt] ++ pkt_put_u16 [] size ++ pkt_put_ipaddress [] src ++ [ttl; hops] ++ pkt_put_u16 [] seqno ++ [0; 0; ht; will] ++
  concat (map put_hello_group groups).

End written.

End hello_read.
