(* ===== verification/HelloSpec.v ===== *)
(** * HELLO messages: what reading and processing them guarantees *)

From S2P Require Import Prelude Mantissa Timer IpAddr State MidLookup Interfaces NeighTable NeighProofs HelloTwoHop NeighSpec Packet LsdbOps Lq LinkSet LinkProofs LinkBest TcSpec.
From S2P Require Import LinkSpec Hello HelloRead.

Section hello_proofs.
Context {cnf : olsrd_config} {lqh : lq_handler}.

(** ** Names do not depend on the neighbour tables *)

Lemma frame_names st st' hn : nbr_frame st st' ->
  hello_main_addr st' hn = hello_main_addr st hn /\ hello_named st' hn = hello_named st hn /\ hears st' hn = hears st hn.
Proof.
  intros H. pose proof (mid_same_main _ _ (hn_address hn) (frame_mid _ _ H)) as E.
  destruct (frame_env _ _ H) as (_ & Ei & _). unfold hears, hello_named, hello_main_addr. by rewrite E, Ei.
Qed.

(** The two-hop neighbours a message announces. *)
Definition heard_addrs (st : olsr_state) (ns : list hello_neighbor) : list ip_addr :=
  map (hello_main_addr st) (filter (fun hn => hears st hn = true) ns).

(** The MID set lists no announced address as an alias of another node. *)
Definition no_alias_of (st : olsr_state) (hn : hello_neighbor) : Prop :=
  forall q l x a, find_aliases st q = Some l -> x ∈ l -> mid_addresses st !! x = Some a -> alias a <> hello_main_addr st hn.

Lemma no_alias_of_ok st hn : no_alias_of st hn -> no_alias st (hello_main_addr st hn).
Proof.
  intros H q m Hm Hmatch. unfold two_hop_matches in Hmatch. rewrite Hm in Hmatch. simpl in Hmatch.
  destruct (ipequal _ _ _) eqn:E; [by apply ipequal_eq in E|]. destruct (find_aliases st (neighbor_2_addr m)) as [l|] eqn:El; [|done].
  simpl in Hmatch. exfalso.
  destruct (findM _ l) as [[x|]|] eqn:Ef; simpl in Hmatch; try done. clear E Hmatch.
  assert (exists a, x ∈ l /\ mid_addresses st !! x = Some a /\ alias a = hello_main_addr st hn) as (a & Hx & Ha & Hal).
  { clear El. revert Ef. induction l as [|y l IH]; [done|]. simpl. destruct (mid_addresses st !! y) as [b|] eqn:Eb; [|done]. simpl.
    destruct (ipequal _ _ _) eqn:Ey.
    - intros [= <-]. exists b. split; [left|]. split; [done|by apply ipequal_eq in Ey].
    - intros (a & ? & ?)%IH. exists a. split; [by right|done]. }
  by eapply H.
Qed.

Lemma frame_no_alias st st' hn : nbr_frame st st' -> no_alias_of st hn -> no_alias_of st' hn.
Proof.
  intros Hf H q l x a. destruct (frame_names st st' hn Hf) as (-> & _). pose proof (frame_mid _ _ Hf) as Hm.
  rewrite (mid_same_aliases _ _ q Hm). destruct Hm as (_ & _ & -> & _). apply H.
Qed.

Lemma no_mid_no_alias_of st hn : mid_set st = empty_table -> no_alias_of st hn.
Proof.
  intros Hm q l x a Hl Hx _. assert (find_aliases st q = Some []) as E.
  { unfold find_aliases, find_entry_bymain. rewrite Hm. unfold bucket, empty_table.
    destruct (replicate _ _ !! _) as [b|] eqn:Eb; [|done]. by apply lookup_replicate in Eb as [-> _]. }
  rewrite E in Hl. injection Hl as <-. by apply not_elem_of_nil in Hx.
Qed.

Lemma no_nbr2_unique st : nbr2s st = ∅ -> two_hop_unique st.
Proof. intros E q q' a H. unfold addr2 in H. rewrite E, lookup_empty in H. discriminate. Qed.

(** ** The first pass *)

Record heard_all (p : positive) (st : olsr_state) (ns : list hello_neighbor) (st' : olsr_state) : Prop := {
  ha_wf : nbr_wf st';
  ha_frame : nbr_frame st st';
  ha_core q : nbr_core <$> nbrs st' !! q = nbr_core <$> nbrs st !! q;
  ha_linked q : linked st p q -> linked st' p q;
  ha_addr q b : addr2 st q = Some b -> addr2 st' q = Some b;
  ha_unique : two_hop_unique st -> two_hop_unique st';
  ha_other p' q a : addr2 st' q = Some a -> p' <> p \/ a ∉ heard_addrs st ns -> two_hop_path st' p' q = two_hop_path st p' q;
  ha_heard a : a ∈ heard_addrs st ns -> exists q, linked st' p q /\ addr2 st' q = Some a;
  ha_path q a : 0 < lq_level -> two_hop_unique st -> addr2 st' q = Some a -> a ∈ heard_addrs st ns ->
    two_hop_path st' p q = Some LINK_COST_BROKEN;
}.

Lemma path_of_alloc st p q c : two_hop_path st p q = Some c -> is_Some (addr2 st q).
Proof. unfold two_hop_path, addr2. destruct (nbr2s st !! q); [by eexists|done]. Qed.

Lemma heard_addrs_snoc st ns hn a : a ∈ heard_addrs st (ns ++ [hn]) <->
  a ∈ heard_addrs st ns \/ hears st hn = true /\ a = hello_main_addr st hn.
Proof.
  unfold heard_addrs. rewrite filter_app, map_app, elem_of_app. rewrite filter_cons, filter_nil.
  destruct (decide _) as [E|E]; simpl; rewrite ?list_elem_of_singleton; [tauto|].
  split; [intros [?|?%not_elem_of_nil]; [by left|done]|intros [?|[? _]]; [by left|done]].
Qed.

Lemma heard_all_snoc p st ns hn st1 st2 :
  heard_all p st ns st1 -> nbr_wf st2 -> nbr_frame st1 st2 ->
  (if hears st hn then heard p (hello_main_addr st hn) st1 st2 else st2 = st1) ->
  (hears st hn = true -> exists q, linked st2 p q /\ addr2 st2 q = Some (hello_main_addr st hn)) ->
  heard_all p st (ns ++ [hn]) st2.
Proof.
  intros [H1 H2 H3 H4 H5 H6 H7 H8 H9] Hwf Hf Hd Hex.
  assert (forall a, a ∈ heard_addrs st (ns ++ [hn]) <-> a ∈ heard_addrs st ns \/ hears st hn = true /\ a = hello_main_addr st hn) as Hin
    by (intros; apply heard_addrs_snoc).
  destruct (hears st hn) eqn:Eh.
  - destruct Hd as [K1 K2 K3 K4 K5 K6]. split; [done|by etrans|..].
    + intros q. by rewrite K1.
    + auto.
    + auto.
    + auto.
    + intros p' q a Ha Hcase. assert (two_hop_path st2 p' q = two_hop_path st1 p' q) as E.
      { apply K3. destruct Hcase as [?|Hn]; [by left|]. right. intros E. apply Hn. rewrite Hin. right. split; [done|congruence]. }
      rewrite E. destruct (addr2 st1 q) as [b|] eqn:Eb.
      * apply (H7 p' q b); [done|]. pose proof (K4 _ _ Eb). destruct Hcase as [?|Hn]; [by left|]. right. intros ?. apply Hn, Hin. left. congruence.
      * unfold two_hop_path, addr2 in *. destruct (nbr2s st1 !! q) eqn:E1; [done|]. destruct (nbr2s st !! q) as [m|] eqn:Em; [|done].
        specialize (H5 q (neighbor_2_addr m)). rewrite Em, E1 in H5. by specialize (H5 eq_refl).
    + intros a [Ha|[_ ->]]%Hin; [|by apply Hex]. destruct (H8 a Ha) as (q & ? & ?). exists q. auto.
    + intros q a Hl Hu Ha Hh. destruct (decide (a = hello_main_addr st hn)) as [->|Hn]; [apply K6; auto|].
      apply Hin in Hh as [Hh|[_ ?]]; [|done]. rewrite K3; [|right; congruence]. destruct (H8 a Hh) as (q' & _ & Hq').
      assert (q = q') as <- by (apply (K5 (H6 Hu) q q' a); auto). by apply (H9 q a).
  - subst st2. assert (forall a, a ∈ heard_addrs st (ns ++ [hn]) <-> a ∈ heard_addrs st ns) as Hin'
      by (intros a; rewrite Hin; split; [intros [?|[? _]]; done|by left]).
    split; try done; intros *; rewrite Hin'; [apply H7|apply H8|apply H9].
Qed.

Lemma heard_all_refl p st : nbr_wf st -> heard_all p st [] st.
Proof. intros H. split; try done; intros *; [by intros ?%not_elem_of_nil|by intros _ _ _ ?%not_elem_of_nil]. Qed.

Lemma core_size st st' : (forall q, nbr_core <$> nbrs st' !! q = nbr_core <$> nbrs st !! q) -> size (nbrs st') = size (nbrs st).
Proof.
  intros H. rewrite <- !size_dom. f_equal. apply set_eq. intros q. rewrite !elem_of_dom. specialize (H q).
  destruct (nbrs st' !! q), (nbrs st !! q); simpl in H; try done; split; by eexists.
Qed.

Lemma wp_first_pass p st vtime ns :
  nbr_wf st -> is_Some (nbrs st !! p) -> Z.of_nat (size (nbrs st)) < 32768 -> (forall hn, hn ∈ ns -> no_alias_of st hn) ->
  wp (collectM ns (process_message_neighbor p vtime)) (fun r st' => r = map (hello_named st) ns /\ heard_all p st ns st') st.
Proof.
  intros Hwf Hp Hsize Hna.
  apply (wp_collectM _ _ (fun rest r st' => exists l, ns = l ++ rest /\ r = map (hello_named st) l /\ heard_all p st l st')).
  - exists []. split; [done|]. split; [done|by apply heard_all_refl].
  - intros hn rest r st' (l & El & Er & Hh). destruct (frame_names st st' hn (ha_frame _ _ _ _ Hh)) as (N1 & N2 & N3).
    assert (exists n, nbrs st' !! p = Some n) as [n Hn].
    { pose proof (ha_core _ _ _ _ Hh p) as E. destruct Hp as [n0 Hp]. rewrite Hp in E. destruct (nbrs st' !! p); [by eexists|done]. }
    eapply wp_mono; [apply (wp_process_message_neighbor p n vtime hn st')|].
    + apply Hh.
    + done.
    + by rewrite (core_size st st') by apply Hh.
    + apply no_alias_of_ok. apply (frame_no_alias st); [apply Hh|]. apply Hna. rewrite El. set_solver.
    + intros hn' st2 (E & Hd & Hwf2 & Hf2 & Hex). exists (l ++ [hn]). rewrite <- app_assoc. split; [done|]. split; [by rewrite map_app, Er, E, N2|].
      rewrite N1 in Hd, Hex. rewrite N3 in Hd. eapply heard_all_snoc; [exact Hh|done..|].
      intros Hears. unfold hears in Hears. destruct (if_ifwithaddr (ifnet st) (hn_address hn)) eqn:Ei; [done|].
      destruct (frame_env _ _ (ha_frame _ _ _ _ Hh)) as (_ & Ei' & _). rewrite Ei' in Hex. destruct (Hex Ei Hears) as (q & m & Hl & Hm & Ha & _).
      exists q. split; [done|]. unfold addr2. rewrite Hm. simpl. by rewrite Ha.
  - intros r st' (l & El & Er & Hh). rewrite app_nil_r in El. subst l. done.
Qed.

(** ** The second pass *)

Lemma path_in_improve p first cost p' l :
  path_in p' (map fst (map (improve_path p first cost) l)) =
  if decide (p' = p) then Z.min (u32 (first + cost)) <$> path_in p l else path_in p' l.
Proof.
  induction l as [|w l IH]; [by destruct (decide _)|]. simpl. rewrite !path_in_cons, IH.
  unfold improve_path. destruct (bool_decide_reflect (neighbor w = p)) as [E|E]; simpl.
  - destruct (Z.ltb_spec (u32 (first + cost)) (path_linkcost w)) as [Hlt|Hlt]; simpl; repeat case_decide; simpl; try congruence; f_equal; lia.
  - repeat case_decide; simpl; congruence.
Qed.

Lemma improve_map p first cost l : map neighbor (map fst (map (improve_path p first cost) l)) = map neighbor l.
Proof. rewrite !map_map. apply map_ext. intros w. unfold improve_path. by destruct (_ && _). Qed.

(** What an offer [c] for the two-hop neighbour [a] changes. *)
Record costed (p : positive) (a : ip_addr) (c : Z) (st st' : olsr_state) : Prop := {
  co_wf : nbr_wf st';
  co_frame : nbr_frame st st';
  co_nbrs : nbrs st' = nbrs st;
  co_addr q : addr2 st' q = addr2 st q;
  co_other p' q : p' <> p \/ addr2 st q <> Some a -> two_hop_path st' p' q = two_hop_path st p' q;
  co_path q : two_hop_unique st -> addr2 st q = Some a -> two_hop_path st' p q = Z.min c <$> two_hop_path st p q;
}.

Lemma unlinked_path st p q : nbr_wf st -> ~ linked st p q -> two_hop_path st p q = None.
Proof.
  intros Hwf Hn. unfold two_hop_path. destruct (nbr2s st !! q) as [m|] eqn:E; [|done]. simpl. apply path_in_None.
  intros Hin. apply Hn, (wf_links _ _ Hwf). split; [|done]. by exists m.
Qed.

Lemma wp_update_path_cost p first hn st :
  nbr_wf st -> is_Some (nbrs st !! p) ->
  wp (update_path_cost p first hn) (fun _ st' =>
    if hears st hn then costed p (hn_address hn) (u32 (first + hn_cost hn)) st st' else st' = st) st.
Proof.
  intros Hwf [n Hp]. unfold update_path_cost, hears, announces. wp_step. wp_step.
  destruct (if_ifwithaddr (ifnet st) (hn_address hn)); [by wp_steps|]. apply wp_when; intros E; rewrite E; [|done].
  set (a := hn_address hn). set (c := u32 (first + hn_cost hn)).
  wp_step. eapply wp_lookup_my_neighbors; [done|exact Hp|..].
  - intros e m He Hm Ha. set (q := neighbor_2 e) in *.
    assert (linked st p q) as Hl by (exists n; split; [done|by apply (list_elem_of_fmap_2 neighbor_2)]).
    wp_step. eapply wp_get_nbr2; [exact Hm|]. wp_step. eapply wp_upd_nbr2; [exact Hm|].
    match goal with |- wp _ _ (set_nbr2s ?h st) => assert (forall st', nbrs st' = nbrs st -> nbr2s st' = h ->
      neighbortable st' = neighbortable st -> two_hop_neighbortable st' = two_hop_neighbortable st -> nbr_frame st st' -> costed p a c st st') as H end.
    { intros st' E1 E2 E3 E4 Hf.
      assert (forall q', q' <> q -> nbr2s st' !! q' = nbr2s st !! q') as Hne by (intros; by rewrite E2, lookup_insert_ne).
      split; [|done|done|..].
      - eapply (payload_wf p q n m n (set_neighbor_2_nblist (map fst (map (improve_path p first (hn_cost hn)) (neighbor_2_nblist m))) m) st st'); try done; [intros x Hx; by eapply (wf_own _ _ Hwf)|simpl; apply improve_map|by rewrite E1, insert_id|by apply frame_mid].
      - intros q'. unfold addr2. destruct (decide (q' = q)) as [->|Hn]; [by rewrite E2, lookup_insert_eq, Hm|by rewrite Hne].
      - intros p' q' Hcase. unfold two_hop_path. destruct (decide (q' = q)) as [->|Hn]; [|by rewrite Hne].
        rewrite E2, lookup_insert_eq, Hm. simpl. rewrite path_in_improve. destruct Hcase as [Hcase|Hcase]; [by rewrite decide_False|].
        unfold addr2 in Hcase. rewrite Hm in Hcase. simpl in Hcase. by rewrite Ha in Hcase.
      - intros q' Hu Hq'. assert (q' = q) as -> by (apply (Hu q' q a); [done|]; unfold addr2; rewrite Hm; simpl; by rewrite Ha).
        unfold two_hop_path. rewrite E2, lookup_insert_eq, Hm. simpl. by rewrite path_in_improve, decide_True. }
    apply wp_when; intros _; wp_steps; by apply H.
  - intros Hnew. wp_steps. split; try done. intros q _ Hq. rewrite unlinked_path; [done..|].
    intros Hl. unfold addr2 in Hq. apply fmap_Some in Hq as (m & Hm & Ha). by apply (Hnew q m).
Qed.

(** The best offer for [a] among these neighbours. *)
Definition best_offer (st : olsr_state) (first : Z) (a : ip_addr) (c : Z) (ns : list hello_neighbor) : Z :=
  foldl (fun c hn => if hears st hn && ipequal ip_version (hn_address hn) a then Z.min (u32 (first + hn_cost hn)) c else c) c ns.

Record offered (p : positive) (first : Z) (st : olsr_state) (ns : list hello_neighbor) (st' : olsr_state) : Prop := {
  of_wf : nbr_wf st';
  of_frame : nbr_frame st st';
  of_nbrs : nbrs st' = nbrs st;
  of_addr q : addr2 st' q = addr2 st q;
  of_other p' q : p' <> p -> two_hop_path st' p' q = two_hop_path st p' q;
  of_path q a : two_hop_unique st -> addr2 st q = Some a ->
    two_hop_path st' p q = (fun c => best_offer st first a c ns) <$> two_hop_path st p q;
}.

Lemma offered_snoc p first st ns hn st1 st2 :
  offered p first st ns st1 ->
  (if hears st hn then costed p (hn_address hn) (u32 (first + hn_cost hn)) st1 st2 else st2 = st1) ->
  offered p first st (ns ++ [hn]) st2.
Proof.
  intros [H1 H2 H3 H4 H5 H6] Hd. destruct (hears st hn) eqn:Eh.
  - destruct Hd as [K1 K2 K3 K4 K5 K6]. split; [done|by etrans|congruence|congruence|..].
    + intros p' q Hn. rewrite K5 by (by left). by apply H5.
    + intros q a Hu Ha. unfold best_offer. rewrite <- (H4 q) in Ha.
      assert (two_hop_unique st1) as Hu1 by (intros x y b; rewrite !H4; apply Hu).
      assert (two_hop_path st1 p q = (fun c => best_offer st first a c ns) <$> two_hop_path st p q) as E by (apply H6; [done|by rewrite <- H4]).
      destruct (decide (hn_address hn = a)) as [Ea|Ea].
      * rewrite K6; [|done|by rewrite Ea]. rewrite E. destruct (two_hop_path st p q); simpl; [|done].
        rewrite foldl_app. simpl. by rewrite Eh, Ea, ipequal_refl.
      * rewrite K5 by (right; congruence). rewrite E. destruct (two_hop_path st p q); simpl; [|done].
        rewrite foldl_app. simpl. apply (ipequal_neq ip_version) in Ea. by rewrite Eh, Ea.
  - subst st2. split; try done. intros q a Hu Ha. rewrite (H6 q a) by done. destruct (two_hop_path st p q); [|done]. simpl.
    unfold best_offer. rewrite foldl_app. simpl. by rewrite Eh.
Qed.

Lemma offered_refl p first st : nbr_wf st -> offered p first st [] st.
Proof. intros H. split; try done. intros q a _ _. unfold best_offer. simpl. by destruct (two_hop_path st p q). Qed.

Lemma wp_offers p first st ns :
  nbr_wf st -> is_Some (nbrs st !! p) ->
  wp (forM_ ns (update_path_cost p first)) (fun _ st' => offered p first st ns st') st.
Proof.
  intros Hwf Hp. apply (wp_forM _ _ (fun rest st' => exists l, ns = l ++ rest /\ offered p first st l st')).
  - exists []. split; [done|by apply offered_refl].
  - intros hn rest st' (l & El & Hh). eapply wp_mono; [apply wp_update_path_cost; [apply Hh|by rewrite (of_nbrs _ _ _ _ _ Hh)]|].
    cbv beta. intros _ st2 Hd. exists (l ++ [hn]). rewrite <- app_assoc. split; [done|]. eapply offered_snoc; [done|].
    destruct (frame_names st st' hn (of_frame _ _ _ _ _ Hh)) as (_ & _ & E). by rewrite E in Hd.
  - intros st' (l & El & Hh). rewrite app_nil_r in El. by subst l.
Qed.

(** ** The whole *)

Definition same_core (st st' : olsr_state) : Prop := forall q, nbr_core <$> nbrs st' !! q = nbr_core <$> nbrs st !! q.

Lemma core_net st st' : net_wf st -> nbr_wf st' -> nbr_frame st st' -> same_core st st' -> net_wf st'.
Proof.
  intros [_ Hl] Hn Hf Hc. split; [done|]. destruct (frame_links _ _ Hf) as [E1 E2]. destruct (frame_env _ _ Hf) as (_ & E3 & _).
  apply (link_wf_ext st); try done; [by rewrite E1|]. intros q. specialize (Hc q).
  destruct (nbrs st' !! q), (nbrs st !! q); simpl in *; try done. injection Hc as _ _ _ E. by rewrite E.
Qed.

Lemma core_best_link st st' a : nbr_frame st st' -> same_core st st' -> find_best_link st' a = find_best_link st a.
Proof.
  intros Hf Hc. destruct (frame_links _ _ Hf) as [E1 E2]. destruct (frame_env _ _ Hf) as (_ & E3 & E4).
  apply find_best_link_ext; try done; [by apply frame_mid|intros p; by rewrite E1|]. intros p. specialize (Hc p).
  destruct (nbrs st' !! p), (nbrs st !! p); simpl in *; try done. injection Hc as E _ _ _. by rewrite E.
Qed.

Lemma hears_named st hn : hears st (hello_named st hn) = true ->
  hears st hn = true /\ hn_address (hello_named st hn) = hello_main_addr st hn.
Proof.
  unfold hears, hello_named, announces. destruct (if_ifwithaddr (ifnet st) (hn_address hn)) eqn:E; simpl; [by rewrite E|].
  by destruct (if_ifwithaddr (ifnet st) (hello_main_addr st hn)).
Qed.

Lemma best_offer_unheard st first a c ns : a ∉ heard_addrs st ns -> best_offer st first a c (map (hello_named st) ns) = c.
Proof.
  unfold best_offer, heard_addrs. revert c. induction ns as [|hn ns IH]; intros c Hn; simpl; [done|].
  rewrite filter_cons in Hn. destruct (hears st (hello_named st hn) && ipequal ip_version (hn_address (hello_named st hn)) a) eqn:E.
  - apply andb_prop in E as [E1 E2]. apply hears_named in E1 as [E1 E3]. apply ipequal_eq in E2. rewrite decide_True in Hn by done.
    simpl in Hn. apply not_elem_of_cons in Hn as [Hn _]. congruence.
  - apply IH. destruct (decide _) as [E'|E']; [|done]. simpl in Hn. by apply not_elem_of_cons in Hn as [_ Hn].
Qed.

(** The cost of the best link to the neighbour [p], if there is one. *)
Definition first_hop (st : olsr_state) (p : positive) : option Z :=
  n ← nbrs st !! p; r ← find_best_link st (neighbor_main_addr n); q ← r; linkcost <$> links st !! q.

Definition path_after (st : olsr_state) (p : positive) (ns : list hello_neighbor) (p' : positive) (a : ip_addr)
    (old : option Z) : option Z :=
  if bool_decide (p' = p) && bool_decide (a ∈ heard_addrs st ns) then
    Some (match first_hop st p with
          | Some first => best_offer st first a LINK_COST_BROKEN (map (hello_named st) ns)
          | None => LINK_COST_BROKEN
          end)
  else old.

Lemma wp_process_message_neighbors p message st :
  let ns := hello_neighbors message in
  net_wf st -> is_Some (nbrs st !! p) -> Z.of_nat (size (nbrs st)) < 32768 -> (forall hn, hn ∈ ns -> no_alias_of st hn) ->
  wp (process_message_neighbors p message) (fun _ st' => net_wf st' /\ nbr_frame st st' /\ same_core st st' /\
    (forall a, a ∈ heard_addrs st ns -> exists q, linked st' p q /\ addr2 st' q = Some a) /\
    (0 < lq_level -> two_hop_unique st -> two_hop_unique st' /\
      forall p' q a, addr2 st' q = Some a -> two_hop_path st' p' q = path_after st p ns p' a (two_hop_path st p' q))) st.
Proof.
  intros ns Hnet Hp Hsize Hna. unfold process_message_neighbors. wp_step.
  eapply wp_mono; [by apply wp_first_pass; [apply Hnet|..]|]. cbv beta. fold ns. intros r st1 [-> H1].
  pose proof (ha_frame _ _ _ _ H1) as Hf1. pose proof (ha_core _ _ _ _ H1 : same_core st st1) as Hc1.
  assert (net_wf st1) as Hnet1 by (eapply core_net; [exact Hnet|apply H1|done..]).
  assert (forall st', (forall p' q, two_hop_path st' p' q = two_hop_path st1 p' q) -> (forall q, addr2 st' q = addr2 st1 q) ->
    0 < lq_level -> first_hop st p = None -> two_hop_unique st -> two_hop_unique st' /\
      forall p' q a, addr2 st' q = Some a -> two_hop_path st' p' q = path_after st p ns p' a (two_hop_path st p' q)) as Hnone.
  { intros st' E1 E2 Hlq Ef Hu. split; [intros x y a; rewrite !E2; by apply (ha_unique _ _ _ _ H1)|].
    intros p' q a Ha. rewrite E2 in Ha. rewrite E1. unfold path_after. rewrite Ef. destruct (bool_decide_reflect (p' = p)) as [->|Hn]; simpl.
    - case_bool_decide as Hin; [by apply (ha_path _ _ _ _ H1 q a)|]. apply (ha_other _ _ _ _ H1 _ _ a); [done|by right].
    - apply (ha_other _ _ _ _ H1 _ _ a); [done|by left]. }
  apply wp_when; intros Hlq.
  2: { split; [done|]. split; [done|]. split; [done|]. split; [apply H1|]. intros ?. rewrite Z.gtb_ltb in Hlq. bool_hyps. lia. }
  rewrite Z.gtb_ltb in Hlq. apply Z.ltb_lt in Hlq. unfold second_pass. destruct Hp as [n0 Hp0].
  pose proof (Hc1 p) as E. rewrite Hp0 in E. destruct (nbrs st1 !! p) as [n|] eqn:Hp; [|done]. simpl in E. injection E as E _ _ _.
  wp_step. eapply wp_get_nbr; [exact Hp|]. destruct (find_best_link_ok st1 (neighbor_main_addr n) Hnet1) as (r & Hr & Hlo).
  wp_step. eapply (wp_gets_opt (fun st => find_best_link st (neighbor_main_addr n))); [exact Hr|].
  assert (first_hop st p = (q ← r; linkcost <$> links st1 !! q)) as Hfirst.
  { unfold first_hop. rewrite Hp0. simpl. rewrite <- E, <- (core_best_link st st1) by done. rewrite Hr. simpl.
    by destruct (frame_links _ _ Hf1) as [-> _]. }
  destruct r as [k|].
  2: { apply wp_ret. split; [done|]. split; [done|]. split; [done|]. split; [apply H1|]. intros _. by apply Hnone. }
  destruct (Hlo k eq_refl) as (l & [Hk _]). simpl in Hfirst. rewrite Hk in Hfirst. simpl in Hfirst.
  wp_step. eapply wp_get_link; [exact Hk|]. eapply wp_mono; [apply wp_offers; [apply Hnet1|by rewrite Hp]|]. cbv beta. intros _ st2 H2.
  pose proof (of_frame _ _ _ _ _ H2) as Hf2.
  assert (same_core st1 st2) as Hc2 by (intros q; by rewrite (of_nbrs _ _ _ _ _ H2)).
  split; [by eapply core_net; [exact Hnet1|apply H2|..]|]. split; [by etrans|]. split; [intros q; by rewrite Hc2|]. split.
  - intros a Ha. destruct (ha_heard _ _ _ _ H1 a Ha) as (q & Hl & Hq). exists q.
    unfold linked in *. rewrite (of_nbrs _ _ _ _ _ H2), (of_addr _ _ _ _ _ H2). done.
  - intros _ Hu. pose proof (ha_unique _ _ _ _ H1 Hu) as Hu1. split; [intros x y a; rewrite !(of_addr _ _ _ _ _ H2); apply Hu1|].
    intros p' q a Ha. rewrite (of_addr _ _ _ _ _ H2) in Ha. unfold path_after. rewrite Hfirst.
    destruct (bool_decide_reflect (p' = p)) as [->|Hn]; simpl.
    + rewrite (of_path _ _ _ _ _ H2 q a Hu1 Ha).
      assert (forall c, best_offer st1 (linkcost l) a c (map (hello_named st) ns) = best_offer st (linkcost l) a c (map (hello_named st) ns)) as Eo.
      { intros c. unfold best_offer. assert (forall hn, hears st1 hn = hears st hn) as Eh by (intros hn; by apply frame_names).
        generalize (map (hello_named st) ns) as hs. intros hs. revert c. induction hs as [|hn hs IH]; intros c; simpl; [done|]. by rewrite Eh, IH. }
      case_bool_decide as Hin.
      * rewrite (ha_path _ _ _ _ H1 q a) by done. simpl. by rewrite Eo.
      * rewrite (ha_other _ _ _ _ H1 p q a) by (done || by right). destruct (two_hop_path st p q); simpl; [|done].
        by rewrite Eo, best_offer_unheard.
    + rewrite (of_other _ _ _ _ _ H2) by done. apply (ha_other _ _ _ _ H1 _ _ a); [done|by left].
Qed.

End hello_proofs.

Section hello_spec.
Context {cnf : olsrd_config} {lqh : lq_handler}.

(** ** Reading *)

#[local] Arguments read_hello_orders : simpl never.

Lemma rd_bind {A B} (r : option (A * Z)) (k : A -> Z -> option B) y :
  ('(x, c) ← r; k x c) = Some y -> exists x c, r = Some (x, c) /\ k x c = Some y.
Proof. destruct r as [[x c]|]; [|done]. intros H. by exists x, c. Qed.

(** C31: Every HELLO message read from bytes is well typed: the fields are in the range
    of their C types, the neighbours come in the order symmetric, asymmetric, lost,
    unspecified link, their states have two bits, and no neighbour with an
    unspecified link has the address of one with a link. *)
Theorem deserialize_hello_typed ser m :
  Forall is_u8 ser -> deserialize_hello ser = Some (Some m) ->
  is_u16 (hello_packet_seq_number m) /\ is_u8 (hello_hop_count m) /\ is_u8 (hello_ttl m) /\ is_u8 (hello_willingness m) /\
  is_ip (ipsize ip_version) (hello_source_addr m) /\
  exists syms asyms losts unspecs,
    hello_neighbors m = (syms ++ asyms ++ losts) ++ unspecs /\
    Forall (neigh_typed SYM_LINK) syms /\ Forall (neigh_typed ASYM_LINK) asyms /\
    Forall (neigh_typed LOST_LINK) losts /\ Forall (neigh_typed UNSPEC_LINK) unspecs /\
    forall u n, u ∈ unspecs -> n ∈ syms ++ asyms ++ losts -> hn_address u <> hn_address n.
Proof.
  intros Hs H. unfold deserialize_hello in H. apply rd_bind in H as (type & c0 & _ & H).
  destruct (negb _ && negb _); [done|].
  apply rd_bind in H as (vt & c1 & _ & H). apply rd_bind in H as (size & c2 & _ & H).
  apply rd_bind in H as (src & c3 & Hsrc & H). apply rd_bind in H as (ttl & c4 & Httl & H). apply rd_bind in H as (hops & c5 & Hhops & H).
  apply rd_bind in H as (seqno & c6 & Hseq & H). apply rd_bind in H as (ht & c7 & _ & H). apply rd_bind in H as (will & c8 & Hwill & H).
  destruct (read_hello_orders _ _ _ _ _ _) as [[ns|]|] eqn:E; simpl in H; try done. injection H as <-. simpl.
  apply (rd_ok _ _ _ _ _ _ _ get_u16_range Hs) in Hseq. apply (rd_ok _ _ _ _ _ _ _ get_u8_range Hs) in Hhops, Httl, Hwill.
  apply (rd_ok _ _ _ _ _ _ _ get_ip_range Hs) in Hsrc. split; [done|]. split; [done|]. split; [done|]. split; [done|]. split; [done|].
  apply read_orders_typed in E as (groups & -> & Hg); [|done]. unfold HELLO_LINK_ORDER_ARRAY in Hg.
  inversion Hg as [|? us ? g1 HU Hg1]; subst. inversion Hg1 as [|? ls ? g2 HL Hg2]; subst. inversion Hg2 as [|? es ? g3 HA Hg3]; subst.
  inversion Hg3 as [|? ss ? g4 HS Hg4]; subst. inversion Hg4; subst. simpl. rewrite !app_nil_r.
  assert (ss ++ es ++ ls ++ us = (ss ++ es ++ ls) ++ us) as -> by (by rewrite <- !app_assoc).
  rewrite cull_unspec_spec.
  - eexists ss, es, ls, _. split; [done|]. split; [done|]. split; [done|]. split; [done|]. split; [rewrite Forall_forall in HU |- *; intros x [_ Hx]%list_elem_of_filter; by apply HU|].
    intros u n [Hu _]%list_elem_of_filter Hn. rewrite forallb_forall in Hu. apply list_elem_of_In in Hn. specialize (Hu n Hn).
    apply negb_true_iff in Hu. by apply ipequal_neq in Hu.
  - rewrite !Forall_app. split_and!; (eapply Forall_impl; [done|]; intros n [-> _]; done).
  - eapply Forall_impl; [exact HU|]. by intros n [-> _].
Qed.

(** C6: What is written as a HELLO message is read back: the header as it was, the times
    as the mantissa encodes them, and the neighbours of all groups sorted by link
    type (symmetric first, unspecified last, each type in reverse order), less the
    unspecified ones that are listed with a link too. What follows the message in
    the packet is not read. *)
Theorem deserialize_hello_roundtrip type seen_lq vt size src ttl hops seqno ht will groups rest :
  (type = HELLO_MESSAGE \/ type = LQ_HELLO_MESSAGE) ->
  is_ip (ipsize ip_version) src -> is_u16 seqno -> Forall (group_ok type seen_lq) groups ->
  let msg := put_hello type vt size src ttl hops seqno ht will groups in
  size = Z.of_nat (length msg) -> size < 65536 ->
  deserialize_hello (msg ++ rest) = Some (Some {|
    hello_vtime := me_to_reltime vt; hello_htime := me_to_reltime ht; hello_source_addr := src;
    hello_packet_seq_number := seqno; hello_hop_count := hops; hello_ttl := ttl; hello_willingness := will;
    hello_neighbors := cull_unspec (concat (map (fun order => rev (seen_with type seen_lq order groups))
      [SYM_LINK; ASYM_LINK; LOST_LINK; UNSPEC_LINK])) |}).
Proof.
  intros Htype Hsrc Hseq Hg msg Hsize Hmax. set (body := concat (map (put_hello_group type) groups)).
  set (n := ipsize ip_version). assert (length (pkt_put_ipaddress [] src) = n) as Hip
    by (unfold pkt_put_ipaddress, ip_bytes; by rewrite app_nil_l, length_map, length_seq).
  assert (msg = [type] ++ [vt] ++ pkt_put_u16 [] size ++ pkt_put_ipaddress [] src ++ [ttl] ++ [hops] ++ pkt_put_u16 [] seqno ++
    [0; 0] ++ [ht] ++ [will] ++ body) as E by done.
  assert (is_u16 size) as Hu by (unfold is_u16; lia).
  set (pre := [type] ++ [vt] ++ pkt_put_u16 [] size ++ pkt_put_ipaddress [] src ++ [ttl] ++ [hops] ++ pkt_put_u16 [] seqno ++ [0; 0] ++ [ht] ++ [will]).
  assert (msg = pre ++ body) as Epre by (rewrite E; unfold pre; by rewrite <- !app_assoc).
  assert (length pre = (12 + n)%nat) as Hpre by (unfold pre; rewrite !length_app, Hip; cbn [length pkt_put_u16 app]; lia).
  assert (forall order acc, read_hello_groups (S (length (msg ++ rest))) (msg ++ rest) type order size (12 + Z.of_nat n) acc =
    Some (Some (rev (seen_with type seen_lq order groups) ++ acc))) as Hread.
  { intros order acc. rewrite Hsize, Epre, <- app_assoc. replace (12 + Z.of_nat n) with (Z.of_nat (length pre)) by lia.
    assert (length groups <= length body)%nat as Hlen.
    { unfold body. clear. induction groups as [|g gs IH]; [done|]. cbn [map concat length]. rewrite length_app.
      assert (4 <= length (put_hello_group type g))%nat by (simpl; lia). lia. }
    apply read_groups_put; [done|rewrite !length_app; lia|]. fold body. rewrite Epre, length_app in Hsize. lia. }
  assert (read_hello_orders (msg ++ rest) type size (12 + Z.of_nat n) HELLO_LINK_ORDER_ARRAY [] =
    Some (Some (concat (map (fun order => rev (seen_with type seen_lq order groups)) [SYM_LINK; ASYM_LINK; LOST_LINK; UNSPEC_LINK])))) as Hall.
  { rewrite (read_orders_put type (fun order => rev (seen_with type seen_lq order groups))) by exact Hread. by rewrite app_nil_r. }
  unfold deserialize_hello. assert (follows (msg ++ rest) 0 (msg ++ rest)) as F by done. rewrite E in F at 2. rewrite <- !app_assoc in F.
  rewrite (rd_follows pkt_get_u8 _ _ _ _ type F eq_refl). cbn [mbind option_bind]. apply follows_skip in F.
  assert (negb (type =? HELLO_MESSAGE) && negb (type =? LQ_HELLO_MESSAGE) = false) as -> by (by destruct Htype as [-> | ->]).
  rewrite (rd_follows pkt_get_reltime _ _ _ _ (me_to_reltime vt) F eq_refl). cbn [mbind option_bind]. apply follows_skip in F.
  rewrite (rd_follows pkt_get_u16 _ _ _ _ _ F (get_put_u16 _ _ Hu)). cbn [mbind option_bind]. apply follows_skip in F.
  rewrite (rd_follows pkt_get_ipaddress _ _ _ _ _ F (get_put_ipaddress _ _ Hsrc)). cbn [mbind option_bind]. apply follows_skip in F. rewrite Hip in *.
  rewrite (rd_follows pkt_get_u8 _ _ _ _ ttl F eq_refl). cbn [mbind option_bind]. apply follows_skip in F.
  rewrite (rd_follows pkt_get_u8 _ _ _ _ hops F eq_refl). cbn [mbind option_bind]. apply follows_skip in F.
  rewrite (rd_follows pkt_get_u16 _ _ _ _ _ F (get_put_u16 _ _ Hseq)). cbn [mbind option_bind]. apply follows_skip, follows_skip in F.
  change (Z.of_nat (length [0; 0])) with 2 in F.
  rewrite (rd_follows pkt_get_reltime _ _ _ _ (me_to_reltime ht) F eq_refl). cbn [mbind option_bind]. apply follows_skip in F.
  rewrite (rd_follows pkt_get_u8 _ _ _ _ will F eq_refl). cbn [mbind option_bind]. clear F.
  match goal with |- context [read_hello_orders _ _ _ ?c _ _] => replace c with (12 + Z.of_nat n) by (cbn [length pkt_put_u16 app]; lia) end.
  by rewrite Hall.
Qed.

(** ** Processing *)

(** C5: The neighbours of a HELLO: both passes terminate, read allocated memory only and
    keep all tables and links well formed. Every node that the message announces as
    symmetric or relay, and that is not an interface of this node, is a two-hop
    neighbour behind the sender afterwards. With link quality, the path to such a
    node over the sender costs what the cheapest announcement offers on top of the
    best link to the sender (broken without such a link), whatever it cost before;
    no other path changes. *)
Theorem process_message_neighbors_correct p message st :
  let ns := hello_neighbors message in
  net_wf st -> is_Some (nbrs st !! p) -> Z.of_nat (size (nbrs st)) < 32768 -> (forall hn, hn ∈ ns -> no_alias_of st hn) ->
  wp (process_message_neighbors p message) (fun _ st' => net_wf st' /\ nbr_frame st st' /\ same_core st st' /\
    (forall a, a ∈ heard_addrs st ns -> exists q, linked st' p q /\ addr2 st' q = Some a) /\
    (0 < lq_level -> two_hop_unique st -> two_hop_unique st' /\
      forall p' q a, addr2 st' q = Some a -> two_hop_path st' p' q = path_after st p ns p' a (two_hop_path st p' q))) st.
Proof. apply wp_process_message_neighbors. Qed.

End hello_spec.

(** ** Witnesses *)
Section hello_witnesses.
#[local] Existing Instance quality_cnf.
#[local] Existing Instance sample_lq.

(** 200 announces 300 twice and 400 once, and 500 with an unspecified link. *)
Definition sample_groups : list (Z * list (ip_addr * list Z)) :=
  [(4, [(500, [])]); (6, [(300, []); (400, [])]); (10, [(300, [])]); (4, [(400, [])])].

Definition sample_hello : list Z := put_hello HELLO_MESSAGE 134 52 200 1 0 7 5 3 sample_groups.

Lemma deserialize_hello_roundtrip_witness :
  exists m, deserialize_hello (sample_hello ++ [1; 2; 3]) = Some (Some m) /\ map hn_address (hello_neighbors m) = [300; 400; 300; 500].
Proof.
  eexists. split.
  - refine (deserialize_hello_roundtrip HELLO_MESSAGE id 134 52 200 1 0 7 5 3 sample_groups [1; 2; 3] _ _ _ _ _ _).
    + left. reflexivity.
    + vm_compute. split; [discriminate|reflexivity].
    + vm_compute. split; [discriminate|reflexivity].
    + repeat constructor; try discriminate; vm_compute; discriminate.
    + vm_compute. reflexivity.
    + vm_compute. reflexivity.
  - vm_compute. reflexivity.
Defined.

Lemma deserialize_hello_typed_witness :
  exists m, deserialize_hello sample_hello = Some (Some m) /\ is_u8 (hello_willingness m) /\ is_ip 4 (hello_source_addr m).
Proof.
  assert (Forall is_u8 sample_hello) as Hb by (apply Forall_forall; intros x Hx; vm_compute in Hx;
    repeat (apply elem_of_cons in Hx as [->|Hx]; [vm_compute; split; discriminate || reflexivity|]); by apply not_elem_of_nil in Hx).
  eexists. assert (deserialize_hello sample_hello = Some (Some _)) as H by (vm_compute; reflexivity).
  split; [exact H|]. destruct (deserialize_hello_typed _ _ Hb H) as (_ & _ & _ & Hw & Hs & _). split; [exact Hw|exact Hs].
Defined.

(** 200, the neighbour with the link of cost 1000, announces 300 at the costs 700 and
    500; 400 only with an asymmetric link. *)
Definition announce (s a c : Z) : hello_neighbor :=
  {| hn_status := s; hn_link := SYM_LINK; hn_address := a; hn_cost := c; hn_linkquality := [] |}.
Definition ql_hello : hello_message :=
  {| hello_vtime := 6000; hello_htime := 2000; hello_source_addr := 200; hello_packet_seq_number := 1;
     hello_hop_count := 0; hello_ttl := 1; hello_willingness := 3;
     hello_neighbors := [announce SYM_NEIGH 300 700; announce MPR_NEIGH 300 500; announce NOT_NEIGH 400 100] |}.

Lemma ql3_no_alias hn : no_alias_of ql3 hn.
Proof. apply no_mid_no_alias_of. vm_compute. reflexivity. Qed.

Lemma ql3_unique : two_hop_unique ql3.
Proof. apply no_nbr2_unique. vm_compute. reflexivity. Qed.

Lemma process_message_neighbors_correct_witness :
  wp (process_message_neighbors 2 ql_hello) (fun _ st' => net_wf st' /\
    exists q, linked st' 2 q /\ addr2 st' q = Some 300 /\ two_hop_path st' 2 q = Some 1500) ql3.
Proof.
  eapply wp_mono; [refine (process_message_neighbors_correct 2 ql_hello ql3 ql3_wf _ _ _)|].
  - eexists. vm_compute. reflexivity.
  - vm_compute. reflexivity.
  - intros hn _. apply ql3_no_alias.
  - intros _ st' (Hnet & _ & _ & Hheard & Hpath). split; [exact Hnet|].
    destruct (Hheard 300) as (q & Hl & Hq); [vm_compute; left|]. exists q. split; [exact Hl|]. split; [exact Hq|].
    destruct (Hpath eq_refl ql3_unique) as [_ Hp]. rewrite (Hp _ _ _ Hq).
    assert (forall old, path_after ql3 2 (hello_neighbors ql_hello) 2 300 old = Some 1500) as E by (intros old; vm_compute; reflexivity). apply E.
Defined.

End hello_witnesses.
