(* ===== verification/LqMpr.v ===== *)
(** * lq_mpr.c: the selection of relays by link quality *)

From S2P Require Import Prelude IpAddr State MidLookup Interfaces NeighTable Mpr LsdbOps Lq LinkSet.

Section lq_mpr.
Context {cnf : olsrd_config} {lqh : lq_handler}.

(** The first pass: the neighbours that always relay. The flag tells whether one of
    them is new. *)
Definition lq_mark_always : OM bool :=
  let* ps := OLSR_FOR_ALL_NBR_ENTRIES in
  foldM ps false (fun mpr_changes p =>
    do* upd_nbr p (fun n => set_is_mpr false (set_was_mpr (is_mpr n) n)) in
    let* n := get_nbr p in
    if (status n =? NOT_SYM) || negb (willingness n =? WILL_ALWAYS) then ret mpr_changes
    else
      do* upd_nbr p (set_is_mpr true) in
      ret (mpr_changes || negb (was_mpr n))).

(** What a path over a relay has to beat, or [None] if the two-hop neighbour needs no
    relay: it has a direct link and no path is cheaper, or it is a symmetric
    neighbour without a best link. *)
Definition lq_best_1hop (m : neighbor_2_entry) : OM (option Z) :=
  let* neigh := olsr_lookup_neighbor_table (neighbor_2_addr m) in
  match neigh with
  | None => ret (Some LINK_COST_BROKEN)
  | Some p =>
      let* n := get_nbr p in
      if status n =? SYM then
        let* lnk := get_best_link_to_neighbor (neighbor_main_addr n) in
        match lnk with
        | None => ret None
        | Some l =>
            let* x := get_link l in
            if existsb (fun walker => path_linkcost walker <? linkcost x) (neighbor_2_nblist m)
            then ret (Some (linkcost x)) else ret None
        end
      else ret (Some LINK_COST_BROKEN)
  end.

(** The cheapest symmetric neighbour that is not marked. *)
Definition lq_best_walker (walkers : list neighbor_list_entry) : OM (option positive * Z) :=
  foldM walkers (None, LINK_COST_BROKEN) (fun acc walker =>
    let* n := get_nbr (neighbor walker) in
    if (status n =? SYM) && negb (skip n) && (path_linkcost walker <? snd acc)
    then ret (Some (neighbor walker), path_linkcost walker) else ret acc).

(** At most [k] relays for the two-hop neighbour with these [walkers]. *)
Fixpoint lq_cover (k : nat) (walkers : list neighbor_list_entry) (best_1hop : Z) (mpr_changes : bool) : OM bool :=
  match k with
  | O => ret mpr_changes
  | S k =>
      let* r := lq_best_walker walkers in
      match r with
      | (Some p, best) =>
          if best <? best_1hop then
            do* upd_nbr p (fun n => set_skip true (set_is_mpr true n)) in
            let* n := get_nbr p in
            lq_cover k walkers best_1hop (mpr_changes || negb (was_mpr n))
          else ret mpr_changes
      | (None, _) => ret mpr_changes
      end
  end.

(** The loop body for a two-hop neighbour. *)
Definition lq_two_hop (mpr_changes : bool) (q : positive) : OM bool :=
  let* m := get_nbr2 q in
  let* b := lq_best_1hop m in
  match b with
  | None => ret mpr_changes
  | Some best_1hop =>
      do* forM_ (neighbor_2_nblist m) (fun walker => upd_nbr (neighbor walker) (set_skip false)) in
      lq_cover (Z.to_nat mpr_coverage) (neighbor_2_nblist m) best_1hop mpr_changes
  end.

Definition olsr_calculate_lq_mpr : OM unit :=
  let* changes := lq_mark_always in
  let* qs := all_two_hop in
  let* changes := foldM qs changes lq_two_hop in
  when (changes && (tc_redundancy >? 0)) (signal_link_changes true).

End lq_mpr.
