(* ===== verification/LqMprSpec.v ===== *)
(** * Relays chosen by link quality: what [olsr_calculate_lq_mpr] guarantees *)

From S2P Require Import Prelude IpAddr KeyTree State MidLookup Interfaces NeighTable NeighProofs Mpr MprProofs LsdbOps Lq.
From S2P Require Import TcSet TcSpec HelloTwoHop NeighSpec LinkSet LinkProofs LinkBest LinkSpec Hello HelloSpec LqMpr.

Section lq_mpr_spec.
Context {cnf : olsrd_config} {lqh : lq_handler}.

(** ** What the selection does not change *)

Lemma mpr_same_net st st' : mpr_same st st' -> net_wf st -> net_wf st'.
Proof.
  intros Hs [H1 H2]. split; [by eapply mpr_same_wf|]. destruct (frame_links _ _ (ms_frame _ _ Hs)) as [El Eh].
  apply (link_wf_ext st); try done.
  - exact (f_equal ifnet (ms_frame _ _ Hs)).
  - intros p. by rewrite El.
  - intros q. destruct (nbrs st !! q) as [n|] eqn:E; [|by rewrite (same_none _ _ _ Hs E)].
    destruct (same_nbr _ _ _ _ Hs E) as (n' & -> & En). apply erase_nbr_fields in En as (_ & _ & _ & _ & En). simpl. by rewrite En.
Qed.

Lemma find_best_link_same st st' a : mpr_same st st' -> find_best_link st' a = find_best_link st a.
Proof.
  intros Hs. destruct (frame_links _ _ (ms_frame _ _ Hs)) as [El Eh]. destruct (frame_env _ _ (ms_frame _ _ Hs)) as (_ & Ei & En).
  apply find_best_link_ext; try done; [apply frame_mid, (ms_frame _ _ Hs)|intros p; by rewrite El|].
  intros p. destruct (nbrs st !! p) as [n|] eqn:E; [|by rewrite (same_none _ _ _ Hs E)].
  destruct (same_nbr _ _ _ _ Hs E) as (n' & -> & Ea). apply erase_nbr_fields in Ea as (Ea & _). simpl. by rewrite Ea.
Qed.

(** ** The costs to beat *)

(** The neighbour that a two-hop neighbour is at the same time. *)
Definition lq_neigh (st : olsr_state) (a : ip_addr) : option positive :=
  default None (find_nbr st (default a (default None (find_main_addr st a)))).

(** [lq_best_1hop] as a function of the state. *)
Definition lq_need (st : olsr_state) (m : neighbor_2_entry) : option Z :=
  match lq_neigh st (neighbor_2_addr m) with
  | None => Some LINK_COST_BROKEN
  | Some p =>
      if nstatus st p =? SYM then
        n ← nbrs st !! p;
        lnk ← default None (find_best_link st (neighbor_main_addr n));
        x ← links st !! lnk;
        if existsb (fun walker => path_linkcost walker <? linkcost x) (neighbor_2_nblist m) then Some (linkcost x) else None
      else Some LINK_COST_BROKEN
  end.

Lemma lq_need_same st st' m m' : mpr_same st st' -> erase_nbr2 m' = erase_nbr2 m -> lq_need st' m' = lq_need st m.
Proof.
  intros Hs Em. apply erase_nbr2_fields in Em as (Ea & _ & El). unfold lq_need, lq_neigh. rewrite Ea, El.
  rewrite (mid_same_main st st') by apply frame_mid, (ms_frame _ _ Hs). rewrite (find_nbr_same st st') by done.
  destruct (default None _) as [p|]; [|done]. rewrite (same_nstatus st st') by done. destruct (_ =? SYM); [|done].
  destruct (nbrs st !! p) as [n|] eqn:E; [|by rewrite (same_none _ _ _ Hs E)].
  destruct (same_nbr _ _ _ _ Hs E) as (n' & -> & En). apply erase_nbr_fields in En as (En & _). simpl.
  rewrite En, (find_best_link_same st st') by done. destruct (frame_links _ _ (ms_frame _ _ Hs)) as [-> _]. done.
Qed.

Lemma wp_lq_best_1hop m st :
  net_wf st -> wp (lq_best_1hop m) (fun b st' => st' = st /\ b = lq_need st m) st.
Proof.
  intros Hnet. pose proof (proj1 Hnet) as Hwf. unfold lq_best_1hop, olsr_lookup_neighbor_table, lq_need, lq_neigh.
  destruct (find_main_addr_safe st (neighbor_2_addr m) (wf_mid _ _ Hwf)) as [main Hmain]. rewrite Hmain. simpl.
  destruct (find_nbr_correct _ st (default (neighbor_2_addr m) main) Hwf) as (r & Hf & Hr). rewrite Hf. simpl.
  wp_step. wp_step. eapply (wp_gets_opt (fun st => find_main_addr st (neighbor_2_addr m))); [exact Hmain|].
  eapply (wp_gets_opt (fun st => find_nbr st (default (neighbor_2_addr m) main))); [exact Hf|].
  destruct r as [p|]; [|by wp_step]. destruct Hr as (n & Hn & _). unfold nstatus. rewrite Hn. simpl.
  wp_step. eapply wp_get_nbr; [exact Hn|]. destruct (status n =? SYM); [|by wp_step].
  destruct (find_best_link_ok st (neighbor_main_addr n) Hnet) as (o & Ho & Hlo). rewrite Ho. simpl.
  unfold get_best_link_to_neighbor. wp_step. eapply (wp_gets_opt (fun st => find_best_link st (neighbor_main_addr n))); [exact Ho|].
  destruct o as [l|]; [|by wp_step]. destruct (Hlo l eq_refl) as (x & [Hx _]). simpl. rewrite Hx. simpl.
  wp_step. eapply wp_get_link; [exact Hx|]. destruct (existsb _ _); by wp_step.
Qed.

(** ** The cheapest walker *)

Definition skipped (st : olsr_state) (p : positive) : bool := match nbrs st !! p with Some n => skip n | None => false end.

(** A relay over which the two-hop neighbour costs less than [b]. *)
Definition eligible (st : olsr_state) (b : Z) (w : neighbor_list_entry) : Prop :=
  nstatus st (neighbor w) = SYM /\ path_linkcost w < LINK_COST_BROKEN /\ path_linkcost w < b.

Definition fresh_walker (st : olsr_state) (w : neighbor_list_entry) : Prop :=
  eligible st LINK_COST_BROKEN w /\ skipped st (neighbor w) = false.

Lemma wp_lq_best_walker ws st :
  (forall w, w ∈ ws -> is_Some (nbrs st !! neighbor w)) ->
  wp (lq_best_walker ws) (fun r st' => st' = st /\
    match fst r with
    | Some p => exists w, w ∈ ws /\ neighbor w = p /\ path_linkcost w = snd r /\ fresh_walker st w /\
        forall w', w' ∈ ws -> fresh_walker st w' -> snd r <= path_linkcost w'
    | None => forall w, w ∈ ws -> ~ fresh_walker st w
    end) st.
Proof.
  intros Halloc. unfold lq_best_walker.
  apply (wp_foldM _ _ _ (fun rest acc st' => st' = st /\ exists l, ws = l ++ rest /\
    match fst acc with
    | Some p => exists w, w ∈ l /\ neighbor w = p /\ path_linkcost w = snd acc /\ fresh_walker st w /\
        forall w', w' ∈ l -> fresh_walker st w' -> snd acc <= path_linkcost w'
    | None => snd acc = LINK_COST_BROKEN /\ forall w, w ∈ l -> ~ fresh_walker st w
    end)).
  - split; [done|]. exists []. split; [done|]. simpl. split; [done|]. by intros w ?%not_elem_of_nil.
  - intros w rest [o best] st' (-> & l & El & Hacc). destruct (Halloc w) as [n Hn]; [rewrite El; set_solver|].
    wp_step. eapply wp_get_nbr; [exact Hn|].
    assert ((status n =? SYM) && negb (skip n) && (path_linkcost w <? best) = true <->
      (nstatus st (neighbor w) = SYM /\ skipped st (neighbor w) = false /\ path_linkcost w < best)) as Htest.
    { unfold nstatus, skipped. rewrite Hn. split; [intros H; bool_hyps; by destruct (skip n)|intros (-> & -> & ?); by rewrite (proj2 (Z.ltb_lt _ _))]. }
    simpl in Hacc |- *. destruct (_ && _) eqn:E.
    + destruct (proj1 Htest eq_refl) as (T1 & T2 & T3). apply wp_ret. split; [done|]. exists (l ++ [w]). rewrite <- app_assoc.
      split; [done|]. simpl. exists w.
      assert (best <= LINK_COST_BROKEN) as Hb.
      { destruct o as [p|]; [|by destruct Hacc as [-> _]]. destruct Hacc as (v & _ & _ & <- & ((_ & ? & _) & _) & _). lia. }
      split; [set_solver|]. split; [done|]. split; [done|]. split; [split; [split_and!; [done|lia|lia]|done]|].
      intros w' [Hw'| ->%list_elem_of_singleton]%elem_of_app Hf; [|lia]. destruct o as [p|].
      * destruct Hacc as (v & _ & _ & _ & _ & Hmin). specialize (Hmin w' Hw' Hf). lia.
      * destruct Hacc as [_ Hno]. by destruct (Hno w').
    + apply wp_ret. split; [done|]. exists (l ++ [w]). rewrite <- app_assoc. split; [done|].
      assert (fresh_walker st w -> best <= path_linkcost w) as Hw.
      { intros [(H1 & H2 & H3) H4]. destruct (Z_lt_le_dec (path_linkcost w) best) as [Hlt|]; [|done]. discriminate (proj2 Htest (conj H1 (conj H4 Hlt))). }
      destruct o as [p|]; simpl in Hacc |- *.
      * destruct Hacc as (v & Hv & E1 & E2 & Hfv & Hmin). exists v. split; [set_solver|]. split_and!; try done.
        intros w' [Hw'| ->%list_elem_of_singleton]%elem_of_app Hf; auto.
      * destruct Hacc as [-> Hno]. split; [done|]. intros w' [Hw'| ->%list_elem_of_singleton]%elem_of_app Hf; [by apply (Hno w')|].
        specialize (Hw Hf). destruct Hf as [(_ & ? & _) _]. lia.
  - intros [o best] st' (-> & l & El & Hacc). rewrite app_nil_r in El. subst l. split; [done|]. simpl in *.
    destruct o; [done|]. by destruct Hacc.
Qed.

(** ** The relays of one two-hop neighbour *)

(** [C] are the cheapest that are eligible, at most [k] of them. *)
Record chosen (st : olsr_state) (ws : list neighbor_list_entry) (b : Z) (k : nat) (C : list neighbor_list_entry) : Prop := {
  ch_in w : w ∈ C -> w ∈ ws /\ eligible st b w;
  ch_nodup : NoDup (map neighbor C);
  ch_len : (length C <= k)%nat;
  ch_all : (length C < k)%nat -> forall w, w ∈ ws -> eligible st b w -> w ∈ C;
  ch_best w c : w ∈ ws -> eligible st b w -> w ∉ C -> c ∈ C -> path_linkcost c <= path_linkcost w;
}.

(** What the loops may change. *)
Record lq_grow (st st' : olsr_state) : Prop := {
  lg_same : mpr_same st st';
  lg_mpr p : mpr st p = true -> mpr st' p = true;
  lg_new p : mpr st' p = true -> mpr st p = true \/ nstatus st p = SYM;
  lg_was p : was st' p = was st p;
  lg_links : link_changes st' = link_changes st;
}.

#[export] Instance lq_grow_preorder : PreOrder lq_grow.
Proof.
  split.
  - intros st. split; try done. by left.
  - intros s1 s2 s3 [A1 A2 A3 A4 A5] [B1 B2 B3 B4 B5]. split; [by etrans|auto| |congruence|congruence].
    intros p Hp. destruct (B3 p Hp) as [H|H]; [by apply A3|right]. by rewrite <- (same_nstatus _ _ _ A1).
Qed.

Lemma chosen_same st st' ws b k C : mpr_same st st' -> chosen st' ws b k C -> chosen st ws b k C.
Proof.
  intros Hs [H1 H2 H3 H4 H5].
  assert (forall w, eligible st' b w <-> eligible st b w) as He by (intros w; unfold eligible; by rewrite (same_nstatus _ _ _ Hs)).
  split; try done; setoid_rewrite <- He; done.
Qed.

(** The flag tells of a new relay. *)
Definition news (st : olsr_state) (c : bool) : Prop :=
  c = true <-> exists p, mpr st p = true /\ was st p = false.

Lemma skipped_write st p n n' x : nbrs st !! p = Some n ->
  skipped (set_nbrs (<[p := n']> (nbrs st)) st) x = if decide (x = p) then skip n' else skipped st x.
Proof.
  intros Hp. unfold skipped. simpl. destruct (decide (x = p)) as [->|Hn]; [by rewrite lookup_insert_eq|by rewrite lookup_insert_ne].
Qed.

(** The step of [lq_cover] that makes [p] a relay. *)
Lemma choose_step st p n c :
  nbrs st !! p = Some n -> nstatus st p = SYM -> news st c ->
  let st' := set_nbrs (<[p := set_skip true (set_is_mpr true n)]> (nbrs st)) st in
  lq_grow st st' /\ news st' (c || negb (was_mpr n)) /\ mpr st' p = true /\
  forall x, skipped st' x = if decide (x = p) then true else skipped st x.
Proof.
  intros Hp Hs Hnews st'. destruct (nbr_write st p n (set_skip true (set_is_mpr true n)) Hp eq_refl) as (W1 & W2 & W3 & W4).
  fold st' in W1, W2, W3, W4. simpl in W2, W3.
  assert (forall x, was st' x = was st x) as Hw.
  { intros x. rewrite W3. destruct (decide (x = p)) as [->|]; [|done]. unfold was. by rewrite Hp. }
  split; [split; try done|split; [|split]].
  - intros x Hx. rewrite W2. by destruct (decide (x = p)).
  - intros x. rewrite W2. destruct (decide (x = p)) as [->|]; [by right|by left].
  - assert (was st p = was_mpr n) as Ew by (unfold was; by rewrite Hp).
    unfold news in *. rewrite orb_true_iff, Hnews. setoid_rewrite Hw. setoid_rewrite W2. rewrite negb_true_iff. split.
    + intros [(x & H1 & H2)|H]; [exists x|exists p]; (split; [|congruence]); by destruct (decide (_ = p)).
    + intros (x & H1 & H2). destruct (decide (x = p)) as [->|]; [right; congruence|left; by exists x].
  - rewrite W2. by rewrite decide_True.
  - intros x. unfold st'. by rewrite (skipped_write _ _ n).
Qed.

(** The relays [C] have been chosen and marked so far. *)
Record covering (st : olsr_state) (ws : list neighbor_list_entry) (b : Z) (C : list neighbor_list_entry) : Prop := {
  cg_in w : w ∈ C -> w ∈ ws /\ eligible st b w /\ mpr st (neighbor w) = true;
  cg_nodup : NoDup (map neighbor C);
  cg_skip w : w ∈ ws -> skipped st (neighbor w) = true <-> w ∈ C;
  cg_best w c : w ∈ ws -> eligible st b w -> w ∉ C -> c ∈ C -> path_linkcost c <= path_linkcost w;
}.

Lemma covering_chosen st ws b C k :
  covering st ws b C -> ((0 < k)%nat -> forall w, w ∈ ws -> eligible st b w -> w ∈ C) -> chosen st ws b (length C + k) C.
Proof. intros [H1 H2 H3 H4] Hall. split; try done; [by intros w (? & ? & _)%H1|lia|]. intros Hl. apply Hall. lia. Qed.

Lemma nodup_neighbor ws (w v : neighbor_list_entry) :
  NoDup (map neighbor ws) -> w ∈ ws -> v ∈ ws -> neighbor w = neighbor v -> w = v.
Proof.
  intros Hnd Hw Hv E. apply list_elem_of_lookup in Hw as [i Hi], Hv as [j Hj].
  assert (map neighbor ws !! i = Some (neighbor w)) as Hi' by (by rewrite list_lookup_fmap, Hi).
  assert (map neighbor ws !! j = Some (neighbor v)) as Hj' by (by rewrite list_lookup_fmap, Hj).
  assert (i = j) as -> by (eapply NoDup_lookup; [exact Hnd|exact Hi'|congruence]). congruence.
Qed.

Lemma covering_add st ws b C w n c :
  NoDup (map neighbor ws) -> covering st ws b C -> news st c -> w ∈ ws -> eligible st b w -> w ∉ C -> nbrs st !! neighbor w = Some n ->
  (forall w', w' ∈ ws -> fresh_walker st w' -> path_linkcost w <= path_linkcost w') ->
  let st' := set_nbrs (<[neighbor w := set_skip true (set_is_mpr true n)]> (nbrs st)) st in
  covering st' ws b (w :: C) /\ lq_grow st st' /\ news st' (c || negb (was_mpr n)).
Proof.
  intros Hnd Hc Hnews Hw He Hn Hp Hmin st'. destruct (choose_step st (neighbor w) n c Hp (proj1 He) Hnews) as (G1 & G2 & G3 & G4). fold st' in G1, G2, G3, G4.
  assert (forall v, eligible st' b v <-> eligible st b v) as Hel by (intros v; unfold eligible; by rewrite (same_nstatus _ _ _ (lg_same _ _ G1))).
  split; [|done]. split.
  - intros v [->|Hv]%elem_of_cons; rewrite Hel; [done|]. destruct (cg_in _ _ _ _ Hc v Hv) as (A1 & A2 & A3). split_and!; try done. by apply (lg_mpr _ _ G1).
  - simpl. apply NoDup_cons. split; [|apply Hc]. intros (v & Ev & Hv)%list_elem_of_fmap. apply Hn.
    destruct (cg_in _ _ _ _ Hc v Hv) as (A1 & _). by rewrite (nodup_neighbor ws w v).
  - intros v Hv. rewrite G4, elem_of_cons. destruct (decide (neighbor v = neighbor w)) as [E|E].
    + split; [intros _; left; by eapply nodup_neighbor|done].
    + rewrite (cg_skip _ _ _ _ Hc v Hv). split; [by right|]. intros [->|?]; done.
  - intros v d Hv Hev Hvn Hd. rewrite Hel in Hev. apply not_elem_of_cons in Hvn as [Hvw Hvn].
    apply elem_of_cons in Hd as [->|Hd]; [|by eapply (cg_best _ _ _ _ Hc)]. apply Hmin; [done|]. split.
    + destruct Hev as (? & ? & ?). by split_and!.
    + destruct (skipped st (neighbor v)) eqn:Es; [|done]. by apply (cg_skip _ _ _ _ Hc v Hv) in Es.
Qed.

(** The relays of [C] are added, and no others. *)
Definition added (st st' : olsr_state) (C : list neighbor_list_entry) : Prop :=
  forall p, mpr st' p = true <-> mpr st p = true \/ p ∈ map neighbor C.

Lemma added_refl st ws b C : covering st ws b C -> added st st C.
Proof.
  intros Hc p. split; [by left|]. intros [?|(w & -> & Hw)%list_elem_of_fmap]; [done|]. by apply (cg_in _ _ _ _ Hc).
Qed.

Lemma added_one st p n w C' s' :
  nbrs st !! p = Some n -> neighbor w = p -> w ∈ C' ->
  added (set_nbrs (<[p := set_skip true (set_is_mpr true n)]> (nbrs st)) st) s' C' -> added st s' C'.
Proof.
  intros Hp E Hw H x. rewrite (H x). destruct (nbr_write st p n (set_skip true (set_is_mpr true n)) Hp eq_refl) as (_ & W2 & _). rewrite W2.
  destruct (decide (x = p)) as [->|]; [|done]. split; [|by intros; left]. intros _. right. subst p. by apply (list_elem_of_fmap_2 neighbor).
Qed.

Lemma wp_lq_cover k ws b c st C :
  NoDup (map neighbor ws) -> (forall w, w ∈ ws -> is_Some (nbrs st !! neighbor w)) -> covering st ws b C -> news st c ->
  wp (lq_cover k ws b c) (fun c' st' => lq_grow st st' /\ news st' c' /\ exists C', chosen st ws b (length C + k) C' /\ added st st' C' /\ forall w, w ∈ C -> w ∈ C') st.
Proof.
  revert c st C. induction k as [|k IH]; intros c st C Hnd Halloc Hc Hnews; simpl lq_cover.
  - wp_step. split; [done|]. split; [done|]. exists C. split; [apply covering_chosen; [done|lia]|]. split; [by eapply added_refl|done].
  - wp_step. eapply wp_mono; [by apply wp_lq_best_walker|]. cbv beta. intros [o best] st' [-> Hr]. simpl in Hr.
    assert ((forall w, w ∈ ws -> fresh_walker st w -> b <= path_linkcost w) ->
      wp (ret c) (fun c' st' => lq_grow st st' /\ news st' c' /\ exists C', chosen st ws b (length C + S k) C' /\ added st st' C' /\ forall w, w ∈ C -> w ∈ C') st) as Hstop.
    { intros Hno. wp_step. split; [done|]. split; [done|]. exists C. split; [|split; [by eapply added_refl|done]]. apply covering_chosen; [done|]. intros _ w Hw Hel.
      destruct (skipped st (neighbor w)) eqn:Es; [by apply (cg_skip _ _ _ _ Hc w Hw)|].
      destruct Hel as (E1 & E2 & E3). assert (b <= path_linkcost w) by (apply Hno; [done|]; by split). lia. }
    destruct o as [p|]; [|apply Hstop; intros w Hw Hf; by destruct (Hr w Hw)].
    destruct Hr as (w & Hw & <- & <- & Hf & Hmin). destruct (path_linkcost w <? b) eqn:E; bool_hyps.
    + destruct (Halloc w Hw) as [n Hn]. wp_step. eapply wp_upd_nbr; [exact Hn|].
      assert (eligible st b w) as Hel by (destruct Hf as [(? & ? & _) _]; by split_and!).
      destruct (covering_add st ws b C w n c) as (A1 & A2 & A3); try done.
      { intros Hin%(cg_skip _ _ _ _ Hc w Hw). destruct Hf as [_ Hf]. congruence. }
      wp_step. eapply wp_get_nbr; [simpl; apply lookup_insert_eq|].
      eapply wp_mono; [apply (IH _ _ (w :: C)); try done|].
      * intros v Hv. destruct (Halloc v Hv) as [m Hm]. destruct (same_nbr _ _ _ _ (lg_same _ _ A2) Hm) as (m' & Hm' & _). by eexists.
      * cbv beta. intros c' st' (B1 & B2 & C' & B3 & B4 & B5). split; [by etrans|]. split; [done|]. exists C'. split; [|split].
        -- replace (length C + S k)%nat with (length (w :: C) + k)%nat by (simpl; lia). eapply chosen_same; [apply A2|done].
        -- eapply (added_one st (neighbor w) n w); [done|done|apply B5; left|done].
        -- intros v Hv. apply B5. by right.
    + apply Hstop. intros v Hv Hfv. specialize (Hmin v Hv Hfv). lia.
Qed.

(** ** One two-hop neighbour *)

Lemma wp_clear_skips ws st :
  (forall w, w ∈ ws -> is_Some (nbrs st !! neighbor w)) ->
  wp (forM_ ws (fun walker => upd_nbr (neighbor walker) (set_skip false))) (fun _ st' =>
    mpr_same st st' /\ dyn_same st st' /\ forall w, w ∈ ws -> skipped st' (neighbor w) = false) st.
Proof.
  intros Halloc. apply (wp_forM _ _ (fun rest st' => exists l, ws = l ++ rest /\ mpr_same st st' /\ dyn_same st st' /\
    forall w, w ∈ l -> skipped st' (neighbor w) = false)).
  - exists []. split; [done|]. split; [done|]. split; [done|]. by intros w ?%not_elem_of_nil.
  - intros w rest st' (l & El & Hs & Hd & Hl). destruct (Halloc w) as [n0 Hn0]; [rewrite El; set_solver|].
    destruct (same_nbr _ _ _ _ Hs Hn0) as (n & Hn & _). eapply wp_upd_nbr; [exact Hn|].
    destruct (nbr_write_dyn st' (neighbor w) n (set_skip false n) Hn eq_refl eq_refl eq_refl) as [W1 W2].
    exists (l ++ [w]). rewrite <- app_assoc. split; [done|]. split; [by etrans|]. split; [by etrans|].
    intros v Hv. rewrite (skipped_write _ _ n) by done. destruct (decide (neighbor v = neighbor w)) as [|Hne]; [done|].
    apply elem_of_app in Hv as [Hv| ->%list_elem_of_singleton]; [by apply Hl|done].
  - intros st' (l & El & H). rewrite app_nil_r in El. by subst l.
Qed.

Lemma dyn_grow st st' : mpr_same st st' -> dyn_same st st' -> lq_grow st st'.
Proof. intros Hs (H1 & H2 & _ & H4). split; try done; intros p; rewrite H1; [done|by left]. Qed.

(** [C] are the walkers over which a two-hop neighbour is reached through relays. *)
Definition picks (st : olsr_state) (m : neighbor_2_entry) (C : list neighbor_list_entry) : Prop :=
  match lq_need st m with
  | Some b => chosen st (neighbor_2_nblist m) b (Z.to_nat mpr_coverage) C
  | None => C = []
  end.

Lemma picks_same st st' m m' C : mpr_same st st' -> erase_nbr2 m' = erase_nbr2 m -> picks st' m' C -> picks st m C.
Proof.
  intros Hs Em. unfold picks. rewrite (lq_need_same st st' m m') by done. destruct (lq_need st m); [|done].
  apply erase_nbr2_fields in Em as (_ & _ & ->). by apply chosen_same.
Qed.

Lemma wp_lq_two_hop q c st m :
  net_wf st -> nbr2s st !! q = Some m -> news st c ->
  wp (lq_two_hop c q) (fun c' st' => lq_grow st st' /\ news st' c' /\ exists C, picks st m C /\ added st st' C) st.
Proof.
  intros Hnet Hm Hnews. pose proof (proj1 Hnet) as Hwf. unfold lq_two_hop. wp_step. eapply wp_get_nbr2; [exact Hm|].
  wp_step. eapply wp_mono; [by apply wp_lq_best_1hop|]. cbv beta. intros o st0 [-> ->]. unfold picks. destruct (lq_need st m) as [b|] eqn:Hb.
  - assert (forall w, w ∈ neighbor_2_nblist m -> is_Some (nbrs st !! neighbor w)) as Halloc.
    { intros w Hw. apply (wf_back_alloc _ _ Hwf _ q). exists m. split; [done|]. by apply (list_elem_of_fmap_2 neighbor). }
    wp_step. eapply wp_mono; [by apply wp_clear_skips|]. cbv beta. intros _ st1 (H1 & H2 & H3).
    pose proof (dyn_grow _ _ H1 H2) as Hg. eapply wp_mono; [apply (wp_lq_cover _ (neighbor_2_nblist m) b c st1 [])|].
    + by apply (wf_back_nodup _ _ Hwf q).
    + intros w Hw. destruct (Halloc w Hw) as [n Hn]. destruct (same_nbr _ _ _ _ H1 Hn) as (n' & ? & _). by eexists.
    + split; [by intros w ?%not_elem_of_nil|constructor| |by intros w d _ _ _ ?%not_elem_of_nil].
      intros w Hw. rewrite (H3 w Hw). split; [done|by intros ?%not_elem_of_nil].
    + unfold news in *. rewrite Hnews. destruct H2 as (E1 & E2 & _). by setoid_rewrite E1; setoid_rewrite E2.
    + cbv beta. intros c' st' (B1 & B2 & C & B3 & B4 & _). split; [by etrans|]. split; [done|]. exists C. simpl in B3.
      split; [by eapply chosen_same|]. intros p. rewrite (B4 p). by destruct H2 as (-> & _).
  - wp_step. split; [done|]. split; [done|]. exists []. split; [done|]. intros p. split; [by left|]. by intros [?|?%not_elem_of_nil].
Qed.

(** ** The first pass *)

Definition always (st : olsr_state) (p : positive) : Prop := nstatus st p <> NOT_SYM /\ nwill st p = WILL_ALWAYS.

(** The neighbours [l] have been looked at. *)
Record marking (st : olsr_state) (l : list positive) (c : bool) (st' : olsr_state) : Prop := {
  mk_same : mpr_same st st';
  mk_links : link_changes st' = link_changes st;
  mk_rest p : p ∉ l -> mpr st' p = mpr st p;
  mk_was p : p ∈ l -> was st' p = mpr st p;
  mk_mpr p : p ∈ l -> mpr st' p = true <-> always st p;
  mk_news : c = true <-> exists p, p ∈ l /\ mpr st' p = true /\ mpr st p = false;
}.

Lemma marking_step st l c st' p n n' (c' : bool) :
  marking st l c st' -> p ∉ l -> nbrs st' !! p = Some n -> erase_nbr n' = erase_nbr n -> was_mpr n' = mpr st p ->
  (is_mpr n' = true <-> always st p) -> (c' = true <-> c = true \/ (is_mpr n' = true /\ mpr st p = false)) ->
  marking st (l ++ [p]) c' (set_nbrs (<[p := n']> (nbrs st')) st').
Proof.
  intros [H1 H2 H3 H4 H5 H6] Hpl Hp He Hw Hm Hc. destruct (nbr_write st' p n n' Hp He) as (W1 & W2 & W3 & _). split.
  - by etrans.
  - done.
  - intros x [Hx Hxp]%not_elem_of_app. rewrite W2, decide_False by (intros ->; apply Hxp; left). by apply H3.
  - intros x Hx. rewrite W3. destruct (decide (x = p)) as [->|Hn]; [done|].
    apply elem_of_app in Hx as [Hx| ->%list_elem_of_singleton]; [by apply H4|done].
  - intros x Hx. rewrite W2. destruct (decide (x = p)) as [->|Hn]; [done|].
    apply elem_of_app in Hx as [Hx| ->%list_elem_of_singleton]; [by apply H5|done].
  - rewrite Hc, H6. setoid_rewrite W2. split.
    + intros [(x & Hx & A1 & A2)|[A1 A2]].
      * exists x. split; [apply elem_of_app; by left|]. rewrite decide_False by (intros ->; done). done.
      * exists p. split; [apply elem_of_app; right; left|]. by rewrite decide_True.
    + intros (x & Hx & A1 & A2). destruct (decide (x = p)) as [->|Hn]; [by right|left]. exists x.
      apply elem_of_app in Hx as [Hx| ->%list_elem_of_singleton]; [done|done].
Qed.

Lemma wp_lq_mark_always st :
  nbr_wf st ->
  wp lq_mark_always (fun c st' => mpr_same st st' /\ link_changes st' = link_changes st /\
    (forall p, was st' p = mpr st p) /\ (forall p, mpr st' p = true <-> always st p) /\ news st' c) st.
Proof.
  intros Hwf. unfold lq_mark_always, OLSR_FOR_ALL_NBR_ENTRIES. wp_step. wp_step. set (ps := all_elems (neighbortable st)).
  pose proof (table_nodup _ _ _ (wf_nbrs _ _ Hwf)) as Hnd. fold ps in Hnd.
  assert (forall p, p ∈ ps <-> is_Some (nbrs st !! p)) as Hin by (intros p; apply (table_alloc _ _ _ (wf_nbrs _ _ Hwf))).
  apply (wp_foldM _ _ _ (fun rest c st' => exists l, ps = l ++ rest /\ marking st l c st')).
  - exists []. split; [done|]. split; try done; [by intros p ?%not_elem_of_nil..|]. split; [done|by intros (p & ?%not_elem_of_nil & _)].
  - intros p rest c st' (l & El & Hmk). assert (p ∉ l) as Hpl.
    { rewrite El in Hnd. apply NoDup_app in Hnd as (_ & H & _). intros Hp. apply (H p Hp). left. }
    destruct (proj1 (Hin p)) as [n0 Hn0]; [rewrite El; set_solver|].
    destruct (same_nbr _ _ _ _ (mk_same _ _ _ _ Hmk) Hn0) as (n & Hn & En).
    assert (is_mpr n = mpr st p) as Em by (rewrite <- (mk_rest _ _ _ _ Hmk p Hpl); unfold mpr; by rewrite Hn).
    apply erase_nbr_fields in En as (_ & Es & Ew & _).
    assert (always st p <-> status n <> NOT_SYM /\ willingness n = WILL_ALWAYS) as Hal by (unfold always, nstatus, nwill; rewrite Hn0, Es, Ew; done).
    wp_step. eapply wp_upd_nbr; [exact Hn|]. wp_step. eapply wp_get_nbr; [simpl; apply lookup_insert_eq|]. simpl.
    destruct ((status n =? NOT_SYM) || negb (willingness n =? WILL_ALWAYS)) eqn:E.
    + wp_step. exists (l ++ [p]). rewrite <- app_assoc. split; [done|]. eapply (marking_step st l c st' p n); try done.
      * split; [done|]. intros [A1 A2]%Hal. apply orb_prop in E as [E|E]; bool_hyps; done.
      * simpl. split; [by left|]. by intros [?|[? _]].
    + bool_hyps. wp_step. eapply wp_upd_nbr; [simpl; apply lookup_insert_eq|]. wp_step. exists (l ++ [p]). rewrite <- app_assoc.
      split; [done|]. simpl. rewrite insert_insert_eq. eapply (marking_step st l c st' p n); try done.
      * simpl. split; [|done]. intros _. by apply Hal.
      * simpl. rewrite Em, orb_true_iff, negb_true_iff. tauto.
  - intros c st' (l & El & Hmk). rewrite app_nil_r in El. subst l. split; [apply Hmk|]. split; [apply Hmk|].
    assert (forall p, p ∉ ps -> mpr st p = false /\ was st' p = false /\ mpr st' p = false /\ ~ always st p) as Hout.
    { intros p Hp. assert (nbrs st !! p = None) as E by (apply eq_None_not_Some; by rewrite <- Hin).
      pose proof (same_none _ _ _ (mk_same _ _ _ _ Hmk) E) as E'. unfold mpr, was, always, nstatus. rewrite E, E'. split_and!; try done. by intros [? _]. }
    assert (forall p, was st' p = mpr st p) as Hwas.
    { intros p. destruct (decide (p ∈ ps)) as [Hp|Hp]; [by apply (mk_was _ _ _ _ Hmk)|]. destruct (Hout p Hp) as (-> & -> & _). done. }
    split; [done|]. split.
    + intros p. destruct (decide (p ∈ ps)) as [Hp|Hp]; [by apply (mk_mpr _ _ _ _ Hmk)|]. destruct (Hout p Hp) as (_ & _ & -> & ?). done.
    + unfold news. rewrite (mk_news _ _ _ _ Hmk). setoid_rewrite Hwas. split.
      * intros (p & _ & ? & ?). by exists p.
      * intros (p & A1 & A2). exists p. split_and!; try done. destruct (decide (p ∈ ps)) as [|Hp]; [done|].
        destruct (Hout p Hp) as (_ & _ & ? & _). congruence.
Qed.

(** ** The whole selection *)

(** [F] gives the walkers picked for each two-hop neighbour. *)
Definition relays (st : olsr_state) (F : positive -> list neighbor_list_entry) (p : positive) : Prop :=
  exists q m w, nbr2s st !! q = Some m /\ w ∈ F q /\ neighbor w = p.

(** The loop over the two-hop neighbours [l]. *)
Record two_hop_done (st1 : olsr_state) (l : list positive) (F : positive -> list neighbor_list_entry) (st' : olsr_state) : Prop := {
  td_picks q m : q ∈ l -> nbr2s st1 !! q = Some m -> picks st1 m (F q);
  td_mpr p : mpr st' p = true <-> mpr st1 p = true \/ exists q w, q ∈ l /\ w ∈ F q /\ neighbor w = p;
}.

Lemma two_hop_more st1 l F st' q m C st2 :
  two_hop_done st1 l F st' -> q ∉ l -> nbr2s st1 !! q = Some m -> picks st1 m C -> added st' st2 C ->
  two_hop_done st1 (l ++ [q]) (fun x => if decide (x = q) then C else F x) st2.
Proof.
  intros [H1 H2] Hq Hm HC Ha. split.
  - intros x y Hx Hy. apply elem_of_app in Hx as [Hx| ->%list_elem_of_singleton].
    + rewrite decide_False by (intros ->; done). by apply H1.
    + rewrite decide_True by done. congruence.
  - intros p. rewrite (Ha p), (H2 p). split.
    + intros [[?|(x & w & Hx & Hw & E)]|(w & -> & Hw)%list_elem_of_fmap]; [by left|right|right].
      * exists x, w. split; [apply elem_of_app; by left|]. rewrite decide_False by (intros ->; done). done.
      * exists q, w. split; [apply elem_of_app; right; left|]. by rewrite decide_True.
    + intros [?|(x & w & Hx & Hw & E)]; [by left; left|]. destruct (decide (x = q)) as [->|Hn].
      * right. subst p. by apply (list_elem_of_fmap_2 neighbor).
      * left. right. exists x, w. split; [|done]. apply elem_of_app in Hx as [Hx| ->%list_elem_of_singleton]; done.
Qed.

(** C3: The relays with link quality: the selection terminates, reads allocated memory
    only and changes nothing but the relay flags. For every two-hop neighbour that needs
    relays, the cheapest symmetric neighbours that beat its direct link are picked, as many
    as the configured coverage or all there are, and none for one that needs no relays;
    afterwards the relays are exactly the neighbours that were picked and those that
    always relay and are not asymmetric: nobody else. A change of the links is signalled
    if and only if there is a new relay and topology messages list more than selectors. *)
Theorem olsr_calculate_lq_mpr_correct st :
  net_wf st ->
  wp olsr_calculate_lq_mpr (fun _ st' => net_wf st' /\ mpr_same st st' /\
    (forall p, was st' p = mpr st p) /\
    (exists F, (forall q m, nbr2s st !! q = Some m -> picks st m (F q)) /\
      forall p, mpr st' p = true <-> always st p \/ relays st F p) /\
    (link_changes st' = true <-> link_changes st = true \/
      (0 < tc_redundancy /\ exists p, mpr st' p = true /\ mpr st p = false))) st.
Proof.
  intros Hnet. unfold olsr_calculate_lq_mpr, all_two_hop. wp_step.
  eapply wp_mono; [apply wp_lq_mark_always, Hnet|]. cbv beta. intros c0 st1 (S1 & L1 & W1 & M1 & N1).
  pose proof (mpr_same_net _ _ S1 Hnet) as Hnet1. wp_step. wp_step. wp_step. set (qs := all_elems (two_hop_neighbortable st1)).
  assert (forall q, q ∈ qs <-> is_Some (nbr2s st1 !! q)) as Hin by (intros q; apply (table_alloc _ _ _ (wf_nbr2s _ _ (proj1 Hnet1)))).
  pose proof (table_nodup _ _ _ (wf_nbr2s _ _ (proj1 Hnet1))) as Hnd. fold qs in Hnd.
  apply (wp_foldM _ _ _ (fun rest c st' => exists l F, qs = l ++ rest /\ lq_grow st1 st' /\ news st' c /\ two_hop_done st1 l F st')).
  - exists [], (fun _ => []). split; [done|]. split; [done|]. split; [done|]. split; [by intros q m ?%not_elem_of_nil|].
    intros p. split; [by left|]. by intros [?|(q & w & ?%not_elem_of_nil & _)].
  - intros q rest c st' (l & F & El & Hg & Hn & Hd). destruct (proj1 (Hin q)) as [m1 Hm1]; [rewrite El; set_solver|].
    destruct (same_nbr2 _ _ _ _ (lg_same _ _ Hg) Hm1) as (m & Hm & Em). pose proof (mpr_same_net _ _ (lg_same _ _ Hg) Hnet1) as Hnet'.
    eapply wp_mono; [by apply (wp_lq_two_hop q c st' m)|]. cbv beta. intros c' st2 (B1 & B2 & C & B3 & B4).
    exists (l ++ [q]), (fun x => if decide (x = q) then C else F x). rewrite <- app_assoc. split; [done|]. split; [by etrans|]. split; [done|].
    eapply two_hop_more; [done| |done|eapply picks_same; [apply Hg|exact Em|done]|done].
    rewrite El in Hnd. apply NoDup_app in Hnd as (_ & H & _). intros Hq. apply (H q Hq). left.
  - intros c st' (l & F & El & Hg & Hn & [Hp1 Hp2]). rewrite app_nil_r in El. subst l.
    assert (mpr_same st st') as Hall by (etrans; [exact S1|apply Hg]).
    assert (forall p, was st' p = mpr st p) as Hwas by (intros p; by rewrite (lg_was _ _ Hg), W1).
    assert ((forall q m, nbr2s st !! q = Some m -> picks st m (F q)) /\ forall p, mpr st' p = true <-> always st p \/ relays st F p) as HF.
    { split.
      - intros q m Hm. destruct (same_nbr2 _ _ _ _ S1 Hm) as (m1 & Hm1 & Em). eapply picks_same; [exact S1|exact Em|].
        apply Hp1; [apply Hin; by exists m1|done].
      - intros p. rewrite (Hp2 p), (M1 p). apply or_iff_compat_l. split.
        + intros (q & w & [m1 Hq]%Hin & Hw & E). assert (mpr_same st1 st) as Hback by by symmetry.
          destruct (same_nbr2 _ _ _ _ Hback Hq) as (m & Hm & _). by exists q, m, w.
        + intros (q & m & w & Hm & Hw & E). destruct (same_nbr2 _ _ _ _ S1 Hm) as (m1 & Hm1 & _). exists q, w. split; [apply Hin; by exists m1|done]. }
    assert (c = true <-> exists p, mpr st' p = true /\ mpr st p = false) as Hc by (etrans; [exact Hn|]; by setoid_rewrite Hwas).
    assert (link_changes st' = link_changes st) as El by (by rewrite (lg_links _ _ Hg), L1).
    apply wp_when; intros E.
    + apply wp_modify. apply andb_prop in E as [E1 E2].
      assert (mpr_same st (set_link_changes true st')) as Hall' by (etrans; [exact Hall|]; by split).
      split; [by eapply mpr_same_net|]. split; [done|]. split; [exact Hwas|]. split; [by exists F|].
      simpl. split; [|done]. intros _. right. split; [bool_hyps; lia|by apply Hc].
    + split; [by eapply mpr_same_net|]. split; [done|]. split; [done|]. split; [by exists F|]. rewrite El. split; [by left|]. intros [?|[H1 H2%Hc]]; [done|].
      rewrite H2 in E. simpl in E. bool_hyps. lia.
Qed.

End lq_mpr_spec.

(** ** Witness *)
Section lq_mpr_witness.
#[local] Existing Instance quality_cnf.
#[local] Existing Instance sample_lq.

(** The only link, of cost 1000, leads to 200, which announces 300 at cost 500. *)
Definition qm1 : olsr_state := run (update_link_entry 100 200 (hello_from_200 100 SYM_LINK) eth0) ql0.
Definition qm2 : olsr_state := run (upd_link 2 (set_linkcost 1000)) qm1.
Definition qm3 : olsr_state := run (process_message_neighbors 2 ql_hello) qm2.

Lemma qm1_wf : net_wf qm1.
Proof.
  apply hello_wf; [apply bare_wf; repeat constructor; by eexists|vm_compute; left| |vm_compute; split; discriminate || reflexivity|vm_compute; reflexivity].
  apply heap_main_free, heap_forall. vm_compute. reflexivity.
Qed.

Lemma qm2_wf : net_wf qm2.
Proof.
  destruct qm1_wf as [H1 H2]. split.
  - apply (nbr_wf_frame _ _ qm2 H1); vm_compute; try reflexivity. auto.
  - apply (run_ok _ link_wf). assert (exists l, links qm1 !! 2%positive = Some l) as [l Hl] by (eexists; vm_compute; reflexivity).
    eapply wp_upd_link; [exact Hl|]. by eapply link_data_wf.
Qed.

Lemma qm3_wf : net_wf qm3.
Proof.
  apply (run_ok _ net_wf). eapply wp_mono; [apply wp_process_message_neighbors; [exact qm2_wf|eexists; vm_compute; reflexivity|vm_compute; reflexivity|]|].
  - intros hn _. apply no_mid_no_alias_of. vm_compute. reflexivity.
  - by intros ? ? [? _].
Qed.

Lemma olsr_calculate_lq_mpr_correct_witness :
  wp olsr_calculate_lq_mpr (fun _ st' => net_wf st' /\ mpr st' 2 = true /\ link_changes st' = true) qm3.
Proof.
  eapply wp_mono; [exact (olsr_calculate_lq_mpr_correct qm3 qm3_wf)|].
  intros _ st' (Hnet & Hs & _ & (F & Hpick & Hmpr) & Hlc). split; [exact Hnet|].
  assert (exists q m w, nbr2s qm3 !! q = Some m /\ neighbor_2_nblist m = [w] /\ neighbor w = 2%positive /\ path_linkcost w = 1500 /\
    lq_need qm3 m = Some LINK_COST_BROKEN) as (q & m & w & Hm & Hw & Hn & Hc & Hb)
    by (exists 2%positive; eexists _, _; split; [vm_compute; reflexivity|]; split; [vm_compute; reflexivity|]; split; [vm_compute; reflexivity|];
        split; vm_compute; reflexivity).
  pose proof (Hpick q m Hm) as HC. unfold picks in HC. rewrite Hb, Hw in HC.
  assert (eligible qm3 LINK_COST_BROKEN w) as He.
  { split; [|rewrite Hc; split; vm_compute; reflexivity]. rewrite Hn. vm_compute. reflexivity. }
  assert (mpr st' 2 = true) as H2.
  { apply Hmpr. right. destruct (F q) as [|c C] eqn:EF.
    - destruct (not_elem_of_nil w). apply (ch_all _ _ _ _ _ HC); [vm_compute; apply le_n|left|exact He].
    - destruct (ch_in _ _ _ _ _ HC c) as (Hin & _); [left|]. apply list_elem_of_singleton in Hin.
      exists q, m, c. split; [exact Hm|]. split; [rewrite EF; left|]. rewrite Hin. exact Hn. }
  split; [exact H2|]. apply Hlc. right. split; [vm_compute; reflexivity|]. exists 2%positive. split; [exact H2|]. vm_compute. reflexivity.
Defined.

End lq_mpr_witness.
