(* ===== verification/MidSet.v ===== *)
(** * mid_set.c: the multiple interface set

    The lookups are in MidLookup.v. The aliases of an entry are the list of their
    pointers, an alias points back at its entry, and both are queued in hash tables:
    the entries by main address, the aliases by their own. *)

From S2P Require Import Prelude Timer IpAddr State MidLookup Interfaces NeighTable Packet LsdbOps Lq RouteTable TcSet LinkSet.

Section mid_set.
Context {cnf : olsrd_config} {lqh : lq_handler}.

(** ** Reads and writes through pointers *)

Definition get_mid (p : positive) : OM mid_entry := gets_opt (fun st => mid_entries st !! p).
Definition get_mid_addr (p : positive) : OM mid_address := gets_opt (fun st => mid_addresses st !! p).
Definition upd_mid (p : positive) (f : mid_entry -> mid_entry) : OM unit :=
  let* e := get_mid p in modify (fun st => set_mid_entries (<[p := f e]> (mid_entries st)) st).
Definition upd_mid_addr (p : positive) (f : mid_address -> mid_address) : OM unit :=
  let* a := get_mid_addr p in modify (fun st => set_mid_addresses (<[p := f a]> (mid_addresses st)) st).
Definition free_mid (p : positive) : OM unit :=
  let* _ := get_mid p in modify (fun st => set_mid_entries (delete p (mid_entries st)) st).
Definition free_mid_addr (p : positive) : OM unit :=
  let* _ := get_mid_addr p in modify (fun st => set_mid_addresses (delete p (mid_addresses st)) st).

(** ** Operations *)

Definition olsr_init_mid_set : OM Z :=
  do* modify (set_mid_set empty_table) in do* modify (set_reverse_mid_set empty_table) in ret 1.

Definition delete_alias (mid_addr : ip_addr) (q : positive) : OM unit :=
  do* modify (fun st => set_reverse_mid_set (DEQUEUE_ELEM q (reverse_mid_set st)) st) in
  let* a := get_mid_addr q in
  do* olsr_delete_routing_table (alias a) maxplen mid_addr in
  free_mid_addr q.

Definition olsr_delete_mid_entry (mid : positive) : OM unit :=
  let* e := get_mid mid in
  do* forM_ (aliases e) (delete_alias (mid_main_addr e)) in
  do* upd_mid mid (set_mid_timer None) in
  do* modify (fun st => set_mid_set (DEQUEUE_ELEM mid (mid_set st)) st) in
  free_mid mid.

(** Every round takes the first entry of a bucket. *)
Definition olsr_delete_all_mid_entries : OM unit :=
  let* mids := gets (fun st => all_elems (mid_set st)) in forM_ mids olsr_delete_mid_entry.

Definition olsr_cleanup_mid (orig : ip_addr) : OM unit :=
  let* mid := mid_lookup_entry_bymain orig in
  match mid with Some p => olsr_delete_mid_entry p | None => ret tt end.

Definition olsr_expire_mid_entry (mid : positive) : OM unit :=
  do* upd_mid mid (set_mid_timer None) in olsr_delete_mid_entry mid.

(** The timer is only ever set to a later time. *)
Definition olsr_set_mid_timer (mid : positive) (rel_timer : Z) : OM unit :=
  let* e := get_mid mid in
  let* now := gets now_times in
  let willFireIn := match mid_timer e with Some t => olsr_getTimeDue now (timer_clock t) | None => -1 end in
  when ((willFireIn <? 0) || (willFireIn <? rel_timer))
    (let* t := olsr_set_timer (mid_timer e) rel_timer 0 OLSR_TIMER_ONESHOT in upd_mid mid (set_mid_timer t)).

(** The two-hop neighbour and the neighbour known under the alias [q]. *)
Definition drop_alias_neighbors (m_addr : ip_addr) (q : positive) : OM unit :=
  let* a := get_mid_addr q in
  let* tmp_2_neighbor := olsr_lookup_two_hop_neighbor_table_mid (alias a) in
  do* match tmp_2_neighbor with
      | Some n2 => do* olsr_delete_two_hop_neighbor_table n2 in modify (set_changes_neighborhood true)
      | None => ret tt
      end in
  let* tmp_neigh := olsr_lookup_neighbor_table_alias (alias a) in
  match tmp_neigh with
  | None => ret tt
  | Some tn =>
      let* real_neigh := olsr_lookup_neighbor_table_alias m_addr in
      match real_neigh with
      | None => ret tt
      | Some rn =>
          let* _ := replace_neighbor_link_set tn rn in
          do* modify (fun st => set_neighbortable (DEQUEUE_ELEM tn (neighbortable st)) st) in
          do* free_nbr tn in
          modify (set_changes_neighborhood true)
      end
  end.

(** A new alias object that points at the entry [e]. *)
Definition malloc_mid_addr (adr : ip_addr) (e : positive) : OM positive :=
  let* q := gets (fun st => alloc (mid_addresses st)) in
  do* modify (fun st => set_mid_addresses (<[q := {| alias := adr; main_entry := e; mid_vtime := 0 |}]> (mid_addresses st)) st) in
  do* modify (fun st => set_reverse_mid_set (QUEUE_ELEM (hashing adr) q (reverse_mid_set st)) st) in
  ret q.

(** The alias object, which the caller allocates in the code and frees if it is not
    needed, is allocated here when it is queued. *)
Definition insert_mid_tuple (m_addr adr : ip_addr) (vtime : Z) : OM bool :=
  let* tmp := mid_lookup_entry_bymain m_addr in
  let* registered_m_addr := mid_lookup_main_addr adr in
  if (match registered_m_addr with Some r => ipequal ip_version r m_addr | None => false end) then ret false
  else
    let* _ := olsr_insert_routing_table adr maxplen m_addr OLSR_RT_ORIGIN_MID in
    let* p := match tmp with
              | Some p =>
                  let* q := malloc_mid_addr adr p in
                  do* upd_mid p (fun e => set_aliases (q :: aliases e) e) in
                  do* olsr_set_mid_timer p vtime in
                  ret p
              | None =>
                  let* p := gets (fun st => alloc (mid_entries st)) in
                  let* q := malloc_mid_addr adr p in
                  do* modify (fun st => set_mid_entries
                    (<[p := {| mid_main_addr := m_addr; aliases := [q]; mid_timer := None |}]> (mid_entries st)) st) in
                  do* olsr_set_mid_timer p vtime in
                  do* modify (fun st => set_mid_set (QUEUE_ELEM (hashing m_addr) p (mid_set st)) st) in
                  ret p
              end in
    let* e := get_mid p in
    do* forM_ (aliases e) (drop_alias_neighbors m_addr) in
    ret true.

Definition olsr_update_mid_table (adr : ip_addr) (vtime : Z) : OM Z :=
  let* tmp := mid_lookup_entry_bymain adr in
  match tmp with
  | Some p => do* olsr_set_mid_timer p vtime in ret 1
  | None => ret 0
  end.

(** [validate] is [olsr_validate_address]. *)
Definition insert_mid_alias (validate : ip_addr -> bool) (main_add adr : ip_addr) (vtime : Z) : OM unit :=
  if negb (validate adr) then ret tt
  else
    let* ne_old := olsr_lookup_neighbor_table_alias adr in
    do* match ne_old with
        | None => ret tt
        | Some old =>
            let* _ := olsr_delete_neighbor_table adr in
            let* new := olsr_insert_neighbor_table main_add in
            let* _ := replace_neighbor_link_set old new in
            let* me_old := mid_lookup_entry_bymain adr in
            match me_old with Some m => olsr_delete_mid_entry m | None => ret tt end
        end in
    let* _ := insert_mid_tuple main_add adr vtime in
    do* modify (set_changes_neighborhood true) in
    modify (set_changes_topology true).

(** ** MID messages (rebuild_packet.c) *)

Definition MID_MESSAGE : Z := 3.

Record mid_message := {
  mid_msg_vtime : Z;
  mid_origaddr : ip_addr;
  mid_seqno : Z;
  mid_addr : list ip_addr;
}.

(** [n] addresses from [p] on, the last one first. *)
Fixpoint read_aliases (n : nat) (p : list Z) (acc : list ip_addr) : option (list ip_addr) :=
  match n with
  | O => Some acc
  | S n => '(a, p) ← pkt_get_ipaddress p; read_aliases n p (a :: acc)
  end.

(** [m] is the packet from the message on; [None] is a read past its end, [Some None] a
    message of another type. *)
Definition mid_chgestruct (m : list Z) : option (option mid_message) :=
  '(type, p) ← pkt_get_u8 m;
  if negb (type =? MID_MESSAGE) then Some None
  else
    '(vtime, p) ← pkt_get_reltime p;
    '(msgsize, p) ← pkt_get_u16 p;
    '(orig, p) ← pkt_get_ipaddress p;
    '(seqno, p) ← pkt_get_u16 (drop 2 p);
    let no_aliases := Z.quot (msgsize - 12) (Z.of_nat (ipsize ip_version)) in
    l ← read_aliases (Z.to_nat no_aliases) p [];
    Some (Some {| mid_msg_vtime := vtime; mid_origaddr := orig; mid_seqno := seqno; mid_addr := l |}).

(** The loop of [olsr_prune_aliases]: the aliases that stay, in order. An alias that is
    not declared stays while its own time is not over. *)
Fixpoint prune_loop (declared : list ip_addr) (entry_addr : ip_addr) (vtime : Z) (registered : list positive) : OM (list positive) :=
  match registered with
  | [] => ret []
  | q :: registered =>
      let* a := get_mid_addr q in
      let* now := gets now_times in
      let found := existsb (fun d => ipequal ip_version (alias a) d) declared in
      if found || (negb (olsr_isTimedOut now (mid_vtime a)) && negb (bool_decide (declared = []))) then
        do* when found (upd_mid_addr q (set_mid_vtime (olsr_getTimestamp now vtime))) in
        let* l := prune_loop declared entry_addr vtime registered in
        ret (q :: l)
      else
        do* modify (fun st => set_reverse_mid_set (DEQUEUE_ELEM q (reverse_mid_set st)) st) in
        do* olsr_delete_routing_table (alias a) maxplen entry_addr in
        do* free_mid_addr q in
        do* modify (set_changes_neighborhood true) in
        do* modify (set_changes_topology true) in
        prune_loop declared entry_addr vtime registered
  end.

Definition olsr_prune_aliases (message : mid_message) : OM unit :=
  let* entry := mid_lookup_entry_bymain (mid_origaddr message) in
  match entry with
  | None => ret tt
  | Some p =>
      let* e := get_mid p in
      let* l := prune_loop (mid_addr message) (mid_main_addr e) (mid_msg_vtime message) (aliases e) in
      upd_mid p (set_aliases l)
  end.

(** One declared alias. An address of this node is reported to the duplicate handlers
    (log lines, and plugins), which are not modelled, and skipped. *)
Definition input_alias (validate : ip_addr -> bool) (message : mid_message) (adr : ip_addr) : OM unit :=
  let* ifs := gets ifnet in
  match if_ifwithaddr ifs adr with
  | Some _ => ret tt
  | None =>
      let* main := mid_lookup_main_addr adr in
      match main with
      | None => insert_mid_alias validate (mid_origaddr message) adr (mid_msg_vtime message)
      | Some _ => let* _ := olsr_insert_routing_table adr maxplen (mid_origaddr message) OLSR_RT_ORIGIN_MID in ret tt
      end
  end.

(** Whether the message is to be forwarded. *)
Definition olsr_input_mid (validate : ip_addr -> bool) (m : list Z) (from_addr : ip_addr) : OM bool :=
  let* r := gets_opt (fun _ => mid_chgestruct m) in
  match r with
  | None => crash
  | Some message =>
      if negb (validate (mid_origaddr message)) then ret false
      else
        let* s := check_neighbor_link from_addr in
        if negb (s =? SYM_LINK) then ret false
        else
          let* _ := olsr_update_mid_table (mid_origaddr message) (mid_msg_vtime message) in
          do* forM_ (mid_addr message) (input_alias validate message) in
          do* olsr_prune_aliases message in
          ret true
  end.

End mid_set.
