(* ===== verification/MidSpec.v ===== *)
(** * The multiple interface set: what its operations guarantee *)

From S2P Require Import Prelude Timer Avl IpAddr KeyTree State MidLookup Interfaces NeighTable NeighProofs NeighSpec Packet LsdbOps Lq RouteTable TcSet LinkSet LsdbProofs.
From S2P Require Import LinkProofs LinkBest VertexProofs TcSpec LinkSpec MidSet.

Section mid_proofs.
Context {cnf : olsrd_config} {lqh : lq_handler}.

Record mid_wf (st : olsr_state) : Prop := {
  mw_entries : table_ok (mid_entries st) mid_main_addr (mid_set st);
  mw_addrs : table_ok (mid_addresses st) alias (reverse_mid_set st);
  mw_main p q e f : mid_entries st !! p = Some e -> mid_entries st !! q = Some f -> mid_main_addr e = mid_main_addr f -> p = q;
  mw_alias q r a b : mid_addresses st !! q = Some a -> mid_addresses st !! r = Some b -> alias a = alias b -> q = r;
  mw_owner q a : mid_addresses st !! q = Some a -> exists e, mid_entries st !! main_entry a = Some e /\ q ∈ aliases e;
  mw_listed p e q : mid_entries st !! p = Some e -> q ∈ aliases e -> exists a, mid_addresses st !! q = Some a /\ main_entry a = p;
  mw_nodup p e : mid_entries st !! p = Some e -> NoDup (aliases e);
}.

Lemma mid_wf_ok st : mid_wf st -> mid_ok st.
Proof.
  intros [H1 H2 _ _ H5 H6 _]. split.
  - intros h p Hp%elem_of_bucket. by apply (table_alloc _ _ _ H1).
  - intros h p Hp%elem_of_bucket. apply (table_alloc _ _ _ H2) in Hp as [a Ha]. exists a. split; [done|].
    destruct (H5 _ _ Ha) as (e & He & _). by exists e.
  - intros p e q He Hq. destruct (H6 _ _ _ He Hq) as (a & Ha & _). by exists a.
Qed.

(** The abstract map. *)
Definition registered (st : olsr_state) (a m : ip_addr) : Prop :=
  exists q x e, mid_addresses st !! q = Some x /\ alias x = a /\ mid_entries st !! main_entry x = Some e /\ mid_main_addr e = m.

Lemma find_main_addr_spec st a : mid_wf st ->
  exists r, find_main_addr st a = Some r /\ forall m, r = Some m <-> registered st a m.
Proof.
  intros Hwf. unfold find_main_addr.
  destruct (findM_spec (fun p => x ← mid_addresses st !! p; Some (ipequal ip_version (alias x) a))
    (bucket (reverse_mid_set st) (olsr_ip_hashing ip_version a))) as (r & -> & Hr).
  - intros p Hp%elem_of_bucket. apply (table_alloc _ _ _ (mw_addrs _ Hwf)) in Hp as [x ->]. by eexists.
  - simpl. destruct r as [q|].
    + destruct Hr as (_ & _ & _ & Hq & _). destruct (mid_addresses st !! q) as [x|] eqn:Ex; [|done]. simpl in Hq |- *.
      injection Hq as Hq%ipequal_eq. destruct (mw_owner _ Hwf _ _ Ex) as (e & He & _). rewrite He. simpl. eexists. split; [done|].
      intros m. split; [intros [= <-]; by exists q, x, e|]. intros (q' & x' & e' & Hx' & Ea & He' & <-).
      assert (q' = q) as -> by (eapply (mw_alias _ Hwf); [done|done|congruence]). congruence.
    + eexists. split; [done|]. intros m. split; [done|]. intros (q & x & e & Hx & Ea & _).
      pose proof (table_bucket alias _ _ q x (mw_addrs _ Hwf) Hx) as Hb. unfold hashing in Hb. rewrite Ea in Hb.
      specialize (Hr q Hb). rewrite Hx in Hr. simpl in Hr. by rewrite Ea, ipequal_refl in Hr.
Qed.

Lemma find_entry_spec st a : mid_wf st ->
  exists r, find_entry_bymain st a = Some r /\
    match r with
    | Some p => exists e, mid_entries st !! p = Some e /\ mid_main_addr e = a
    | None => forall p e, mid_entries st !! p = Some e -> mid_main_addr e <> a
    end.
Proof.
  intros Hwf. unfold find_entry_bymain.
  destruct (findM_spec (fun p => e ← mid_entries st !! p; Some (ipequal ip_version (mid_main_addr e) a))
    (bucket (mid_set st) (olsr_ip_hashing ip_version a))) as (r & -> & Hr).
  - intros p Hp%elem_of_bucket. apply (table_alloc _ _ _ (mw_entries _ Hwf)) in Hp as [x ->]. by eexists.
  - exists r. split; [done|]. destruct r as [p|].
    + destruct Hr as (_ & _ & _ & Hp & _). destruct (mid_entries st !! p) as [e|] eqn:Ee; [|done]. simpl in Hp.
      injection Hp as Hp%ipequal_eq. by exists e.
    + intros p e He Ea. pose proof (table_bucket mid_main_addr _ _ p e (mw_entries _ Hwf) He) as Hb. unfold hashing in Hb. rewrite Ea in Hb.
      specialize (Hr p Hb). rewrite He in Hr. simpl in Hr. by rewrite Ea, ipequal_refl in Hr.
Qed.

(** ** What the operations leave alone *)

Definition mid_strip (st : olsr_state) : olsr_state :=
  set_mid_entries ∅ (set_mid_set [] (set_mid_addresses ∅ (set_reverse_mid_set [] (set_db empty_lsdb (set_changes_hna false
    (set_changes_neighborhood false (set_changes_topology false (set_random_count 0 st)))))))).
Definition mid_frame (st st' : olsr_state) : Prop := mid_strip st' = mid_strip st.

#[export] Instance mid_frame_equiv : Equivalence mid_frame.
Proof. unfold mid_frame. split; [by intros ?|by intros ? ?|by intros ? ? ? -> ->]. Qed.

Lemma mid_frame_env st st' : mid_frame st st' ->
  now_times st' = now_times st /\ ifnet st' = ifnet st /\ links st' = links st /\ nbrs st' = nbrs st /\
  neighbortable st' = neighbortable st /\ nbr2s st' = nbr2s st /\ two_hop_neighbortable st' = two_hop_neighbortable st.
Proof. unfold mid_frame, mid_strip. intros H. destruct st, st'. simpl in *. injection H as. by subst. Qed.

Lemma wp_get_mid p e (Q : mid_entry -> olsr_state -> Prop) st : mid_entries st !! p = Some e -> Q e st -> wp (get_mid p) Q st.
Proof. intros H1 H2. by eapply (wp_gets_opt (fun st => mid_entries st !! p)). Qed.

Lemma wp_get_mid_addr q a (Q : mid_address -> olsr_state -> Prop) st : mid_addresses st !! q = Some a -> Q a st -> wp (get_mid_addr q) Q st.
Proof. intros H1 H2. by eapply (wp_gets_opt (fun st => mid_addresses st !! q)). Qed.

Lemma wp_upd_mid p f e (Q : unit -> olsr_state -> Prop) st :
  mid_entries st !! p = Some e -> Q tt (set_mid_entries (<[p := f e]> (mid_entries st)) st) -> wp (upd_mid p f) Q st.
Proof. intros H1 H2. unfold upd_mid. wp_step. eapply wp_get_mid; [exact H1|]. by apply wp_modify. Qed.

Lemma wp_upd_mid_addr q f a (Q : unit -> olsr_state -> Prop) st :
  mid_addresses st !! q = Some a -> Q tt (set_mid_addresses (<[q := f a]> (mid_addresses st)) st) -> wp (upd_mid_addr q f) Q st.
Proof. intros H1 H2. unfold upd_mid_addr. wp_step. eapply wp_get_mid_addr; [exact H1|]. by apply wp_modify. Qed.

Lemma db_frame_mid st st' : db_frame st st' ->
  mid_frame st st' /\ mid_same st st' /\ nbrs st' = nbrs st /\ links st' = links st /\ link_entry_head st' = link_entry_head st.
Proof.
  unfold db_frame, db_strip, mid_frame, mid_strip, mid_same. intros H. destruct st, st'. simpl in *. injection H as. by subst.
Qed.

(** ** Removing an alias *)

Record alias_removed (q : positive) (st st' : olsr_state) : Prop := {
  ar_db : lsdb_wf (db st');
  ar_frame : mid_frame st st';
  ar_entries : mid_entries st' = mid_entries st;
  ar_set : mid_set st' = mid_set st;
  ar_addrs : mid_addresses st' = delete q (mid_addresses st);
  ar_reverse : reverse_mid_set st' = DEQUEUE_ELEM q (reverse_mid_set st);
  ar_paths : only_paths (db st) (db st');
}.

Lemma db_mid_frame st b d : mid_frame st (set_changes_hna b (set_db d st)).
Proof. done. Qed.

Lemma wp_remove_alias q a main st {A} (k : OM A) (Q : A -> olsr_state -> Prop) :
  lsdb_wf (db st) -> mid_addresses st !! q = Some a ->
  (forall st', alias_removed q st st' -> wp k Q st') ->
  wp (do* modify (fun st => set_reverse_mid_set (DEQUEUE_ELEM q (reverse_mid_set st)) st) in
      do* olsr_delete_routing_table (alias a) maxplen main in
      do* free_mid_addr q in k) Q st.
Proof.
  intros Hdb Ha Hk. wp_step. wp_step. wp_step.
  eapply wp_mono; [apply wp_delete_routing_table; exact Hdb|]. cbv beta. intros _ st1 (P & Hrem & _ & E). simpl in E.
  assert (mid_addresses st1 !! q = Some a) as Ha1 by (rewrite E; exact Ha).
  wp_step. unfold free_mid_addr. wp_step. eapply wp_get_mid_addr; [exact Ha1|]. wp_step. apply Hk.
  split; simpl; [apply Hrem|..]; try (rewrite E; done). by eapply only_paths_removed.
Qed.

Lemma wp_delete_alias main q a st :
  lsdb_wf (db st) -> mid_addresses st !! q = Some a -> wp (delete_alias main q) (fun _ st' => alias_removed q st st') st.
Proof.
  intros Hdb Ha. pose proof (wp_remove_alias q a main st (ret tt) (fun _ st' => alias_removed q st st') Hdb Ha (fun st' H => H)) as H.
  unfold delete_alias, get_mid_addr, gets_opt, modify, wp, bind, ret in *. simpl. rewrite Ha.
  destruct (olsr_delete_routing_table _ _ _ _) as [[? s3]|]; [|done]. by destruct (free_mid_addr q s3) as [[[] s4]|].
Qed.

(** ** Deleting an entry *)

Record entry_deleted (p : positive) (e : mid_entry) (st st' : olsr_state) : Prop := {
  ed_wf : mid_wf st';
  ed_db : lsdb_wf (db st');
  ed_frame : mid_frame st st';
  ed_paths : only_paths (db st) (db st');
  ed_registered a m : registered st' a m <-> registered st a m /\ m <> mid_main_addr e;
}.

Lemma delete_wf p e st st' :
  mid_wf st -> mid_entries st !! p = Some e -> mid_entries st' = delete p (mid_entries st) -> mid_set st' = DEQUEUE_ELEM p (mid_set st) ->
  table_ok (mid_addresses st') alias (reverse_mid_set st') ->
  (forall q, mid_addresses st' !! q = if decide (q ∈ aliases e) then None else mid_addresses st !! q) ->
  mid_wf st' /\ forall a m, registered st' a m <-> registered st a m /\ m <> mid_main_addr e.
Proof.
  intros Hwf He E1 E2 Ht E3.
  assert (forall q x, mid_addresses st' !! q = Some x <-> mid_addresses st !! q = Some x /\ main_entry x <> p) as Hq.
  { intros q x. rewrite E3. destruct (decide (q ∈ aliases e)) as [Hin|Hin].
    - destruct (mw_listed _ Hwf _ _ _ He Hin) as (y & Hy & Ey). split; [done|]. intros [Hx Hn]. congruence.
    - split; [|by intros [? _]]. intros Hx. split; [done|]. intros <-. destruct (mw_owner _ Hwf _ _ Hx) as (f & Hf & Hin'). congruence. }
  split.
  - split; rewrite ?E1, ?E2; try done.
    + by apply table_ok_free, Hwf.
    + intros p1 p2 e1 e2 [_ H1]%lookup_delete_Some [_ H2]%lookup_delete_Some. by eapply (mw_main _ Hwf).
    + intros q r a b [H1 _]%Hq [H2 _]%Hq. by eapply (mw_alias _ Hwf).
    + intros q a [H1 H2]%Hq. rewrite lookup_delete_ne by done. by apply (mw_owner _ Hwf).
    + intros p1 e1 q [Hn H1]%lookup_delete_Some Hin. destruct (mw_listed _ Hwf _ _ _ H1 Hin) as (a & Ha & <-).
      exists a. split; [|done]. apply Hq. by split.
    + intros p1 e1 [_ H1]%lookup_delete_Some. by eapply (mw_nodup _ Hwf).
  - intros a m. unfold registered. rewrite E1. split.
    + intros (q & x & f & [Hx Hn]%Hq & Ea & [_ Hf]%lookup_delete_Some & <-). split; [by exists q, x, f|].
      intros Em. apply Hn. by eapply (mw_main _ Hwf).
    + intros ((q & x & f & Hx & Ea & Hf & <-) & Hn). assert (main_entry x <> p) as Hp by (intros Ep; rewrite Ep in Hf; congruence).
      exists q, x, f. split; [by apply Hq|]. split; [done|]. by rewrite lookup_delete_ne.
Qed.

Lemma wp_delete_mid_entry p e st :
  mid_wf st -> lsdb_wf (db st) -> mid_entries st !! p = Some e ->
  wp (olsr_delete_mid_entry p) (fun _ st' => entry_deleted p e st st') st.
Proof.
  intros Hwf Hdb He. unfold olsr_delete_mid_entry. wp_step. eapply wp_get_mid; [exact He|]. wp_step.
  apply (wp_forM _ _ (fun rest st' => exists l, aliases e = l ++ rest /\ lsdb_wf (db st') /\ only_paths (db st) (db st') /\ mid_frame st st' /\
    mid_entries st' = mid_entries st /\ mid_set st' = mid_set st /\ table_ok (mid_addresses st') alias (reverse_mid_set st') /\
    forall q, mid_addresses st' !! q = if decide (q ∈ l) then None else mid_addresses st !! q)).
  - exists []. split; [done|]. split; [done|]. split; [done|]. split; [done|]. split; [done|]. split; [done|]. split; [apply Hwf|].
    intros q. rewrite decide_False; [done|]. apply not_elem_of_nil.
  - intros q rest st' (l & El & H1 & H0 & H2 & H3 & H4 & H5 & H6).
    pose proof (mw_nodup _ Hwf _ _ He) as Hnd. rewrite El in Hnd. apply NoDup_app in Hnd as (_ & Hd & _).
    destruct (mw_listed _ Hwf p e q He) as (a & Ha & _); [rewrite El; set_solver|].
    assert (mid_addresses st' !! q = Some a) as Ha'.
    { rewrite H6, decide_False; [done|]. intros Hin. apply (Hd q Hin). left. }
    eapply wp_mono; [apply (wp_delete_alias _ q a st' H1 Ha')|]. cbv beta. intros _ st2 [K1 K2 K3 K4 K5 K6 K7].
    exists (l ++ [q]). rewrite <- app_assoc. split; [done|]. split; [done|]. split; [by etrans|]. split; [by etrans|]. split; [congruence|]. split; [congruence|].
    rewrite K5, K6. split; [by apply table_ok_free|]. intros r. destruct (decide (r = q)) as [->|Hn].
    + rewrite lookup_delete_eq, decide_True; [done|]. set_solver.
    + rewrite lookup_delete_ne, H6 by done. destruct (decide (r ∈ l)) as [Hin|Hin]; [by rewrite decide_True by set_solver|].
      by rewrite decide_False by set_solver.
  - intros st' (l & El & H1 & H0 & H2 & H3 & H4 & H5 & H6). rewrite app_nil_r in El. subst l.
    assert (mid_entries st' !! p = Some e) as He' by (by rewrite H3).
    wp_step. eapply wp_upd_mid; [exact He'|]. wp_steps. unfold free_mid. wp_step. eapply wp_get_mid; [apply lookup_insert_eq|]. wp_step.
    match goal with |- entry_deleted _ _ _ ?s => set (st2 := s) end.
    assert (mid_entries st2 = delete p (mid_entries st)) as E1 by (unfold st2; simpl; by rewrite delete_insert_eq, H3).
    assert (mid_set st2 = DEQUEUE_ELEM p (mid_set st)) as E2 by (unfold st2; simpl; by rewrite H4).
    destruct (delete_wf p e st st2 Hwf He E1 E2 H5 H6) as [K1 K2].
    split; [exact K1|exact H1|exact H2|exact H0|exact K2].
Qed.

(** ** Registering an alias *)

Lemma insert_wf p q e' adr m_addr st st' :
  mid_wf st -> (forall m, ~ registered st adr m) -> mid_addresses st !! q = None ->
  mid_addresses st' = <[q := {| alias := adr; main_entry := p; mid_vtime := 0 |}]> (mid_addresses st) ->
  reverse_mid_set st' = QUEUE_ELEM (hashing adr) q (reverse_mid_set st) ->
  mid_entries st' = <[p := e']> (mid_entries st) -> mid_main_addr e' = m_addr ->
  match mid_entries st !! p with
  | Some e => mid_main_addr e = m_addr /\ aliases e' = q :: aliases e /\ mid_set st' = mid_set st
  | None => aliases e' = [q] /\ mid_set st' = QUEUE_ELEM (hashing m_addr) p (mid_set st) /\
      forall p' f, mid_entries st !! p' = Some f -> mid_main_addr f <> m_addr
  end ->
  mid_wf st' /\ forall a m, registered st' a m <-> registered st a m \/ a = adr /\ m = m_addr.
Proof.
  intros Hwf Hnr Hq E1 E2 E3 Em He. set (x' := {| alias := adr; main_entry := p; mid_vtime := 0 |}) in *.
  assert (forall r y, mid_addresses st !! r = Some y -> alias y <> adr) as Hna.
  { intros r y Hy Ea. destruct (mw_owner _ Hwf _ _ Hy) as (f & Hf & _). apply (Hnr (mid_main_addr f)). by exists r, y, f. }
  assert (forall r y, mid_addresses st' !! r = Some y <-> r = q /\ y = x' \/ r <> q /\ mid_addresses st !! r = Some y) as Ha
    by (intros r y; rewrite E1, lookup_insert_Some; naive_solver).
  assert (forall r f, mid_entries st' !! r = Some f <-> r = p /\ f = e' \/ r <> p /\ mid_entries st !! r = Some f) as Hn
    by (intros r f; rewrite E3, lookup_insert_Some; naive_solver).
  assert (forall r y, mid_addresses st !! r = Some y -> r <> q) as Hqn by (intros r y Hy ->; congruence).
  assert (exists l, aliases e' = q :: l /\ (forall r, r ∈ l -> exists a, mid_addresses st !! r = Some a /\ main_entry a = p) /\ NoDup l /\
    (forall e, mid_entries st !! p = Some e -> mid_main_addr e = m_addr /\ aliases e = l) /\
    (mid_entries st !! p = None -> l = [] /\ forall p' f, mid_entries st !! p' = Some f -> mid_main_addr f <> m_addr)) as (l & El & Hl & Hnd & Hold & Hnone).
  { destruct (mid_entries st !! p) as [e|] eqn:Ep.
    - destruct He as (He1 & He2 & _). exists (aliases e). split; [done|]. split; [intros r Hr; by eapply (mw_listed _ Hwf)|].
      split; [by eapply (mw_nodup _ Hwf)|]. split; [by intros ? [= <-]|done].
    - destruct He as (He1 & _ & He3). exists []. split; [done|]. split; [by intros r ?%not_elem_of_nil|]. split; [constructor|]. split; [done|]. by split. }
  assert (forall p' f, p' <> p -> mid_entries st !! p' = Some f -> mid_main_addr f <> m_addr) as Hmain.
  { intros p' f Hp' Hf. destruct (mid_entries st !! p) as [e|] eqn:Ep; [|by eapply Hnone].
    intros E. apply Hp'. eapply (mw_main _ Hwf); [done|done|]. by rewrite E, (proj1 (Hold _ eq_refl)). }
  split.
  - split.
    + rewrite E3. destruct (mid_entries st !! p) as [e|] eqn:Ep; destruct He as (He1 & He2 & He3).
      * rewrite He3. eapply table_ok_update; [apply Hwf|exact Ep|congruence].
      * rewrite He2, <- Em. by apply table_ok_new; [apply Hwf|].
    + rewrite E1, E2. change adr with (alias x'). by apply table_ok_new; [apply Hwf|].
    + intros p1 p2 e1 e2 [[-> ->]|[N1 H1]]%Hn [[-> ->]|[N2 H2]]%Hn E; [done|..].
      * destruct (Hmain _ _ N2 H2). congruence.
      * destruct (Hmain _ _ N1 H1). congruence.
      * by eapply (mw_main _ Hwf).
    + intros q1 q2 a1 a2 [[-> ->]|[N1 H1]]%Ha [[-> ->]|[N2 H2]]%Ha E; [done|..].
      * by destruct (Hna _ _ H2).
      * by destruct (Hna _ _ H1).
      * by eapply (mw_alias _ Hwf).
    + intros r y [[-> ->]|[N1 H1]]%Ha.
      * exists e'. simpl. split; [apply Hn; by left|]. rewrite El. left.
      * destruct (mw_owner _ Hwf _ _ H1) as (f & Hf & Hin). destruct (decide (main_entry y = p)) as [E|E].
        -- exists e'. split; [apply Hn; left; by split|]. rewrite El. right. rewrite E in Hf. by destruct (Hold _ Hf) as [_ <-].
        -- exists f. split; [apply Hn; by right|done].
    + intros p1 f r [[-> ->]|[N1 H1]]%Hn Hin.
      * rewrite El in Hin. apply elem_of_cons in Hin as [->|Hin]; [exists x'; split; [apply Ha; by left|done]|].
        destruct (Hl r Hin) as (y & Hy & Ey). exists y. split; [apply Ha; right; split; [by eapply Hqn|done]|done].
      * destruct (mw_listed _ Hwf _ _ _ H1 Hin) as (y & Hy & Ey). exists y. split; [apply Ha; right; split; [by eapply Hqn|done]|done].
    + intros p1 f [[-> ->]|[N1 H1]]%Hn; [|by eapply (mw_nodup _ Hwf)]. rewrite El. apply NoDup_cons. split; [|done].
      intros Hin. destruct (Hl q Hin) as (y & Hy & _). congruence.
  - intros a m. split.
    + intros (r & y & f & [[-> ->]|[N1 H1]]%Ha & Ea & Hf & <-).
      * right. simpl in *. split; [done|]. apply Hn in Hf as [[_ ->]|[? _]]; done.
      * left. destruct (mw_owner _ Hwf _ _ H1) as (g & Hg & _). exists r, y, g. split; [done|]. split; [done|]. split; [done|].
        apply Hn in Hf as [[E ->]|[_ Hf]]; [|congruence]. rewrite E in Hg. rewrite Em. by destruct (Hold _ Hg).
    + intros [(r & y & f & Hy & Ea & Hf & <-)|[-> ->]].
      * destruct (decide (main_entry y = p)) as [E|E].
        -- exists r, y, e'. split; [apply Ha; right; split; [by eapply Hqn|done]|]. split; [done|]. split; [apply Hn; by left|].
           rewrite E in Hf. rewrite Em. symmetry. by destruct (Hold _ Hf).
        -- exists r, y, f. split; [apply Ha; right; split; [by eapply Hqn|done]|]. split; [done|]. split; [apply Hn; by right|done].
      * exists q, x', e'. split; [apply Ha; by left|]. split; [done|]. split; [apply Hn; by left|done].
Qed.

(** The timer of an entry. *)
Lemma wp_set_mid_timer p e rel (Q : unit -> olsr_state -> Prop) st :
  mid_entries st !! p = Some e ->
  (forall t k, Q tt (set_random_count k (set_mid_entries (<[p := set_mid_timer t e]> (mid_entries st)) st))) ->
  wp (olsr_set_mid_timer p rel) Q st.
Proof.
  intros He HQ. unfold olsr_set_mid_timer. wp_step. eapply wp_get_mid; [exact He|]. wp_steps.
  - apply wp_set_timer. intros t k _ _. eapply wp_upd_mid; [exact He|]. apply (HQ t k).
  - specialize (HQ (mid_timer e) (random_count st)).
    assert (set_mid_timer (mid_timer e) e = e) as E by (by destruct e). rewrite E, insert_id in HQ by done. by destruct st.
Qed.

(** Two-hop neighbours known under an alias go; there is no neighbour of that name. *)
Definition same_names (st st' : olsr_state) : Prop :=
  forall p, (fun n => (neighbor_main_addr n, linkcount n)) <$> nbrs st' !! p = (fun n => (neighbor_main_addr n, linkcount n)) <$> nbrs st !! p.

Lemma wp_drop_alias_two_hop a (k : OM unit) (Q : unit -> olsr_state -> Prop) st :
  nbr_wf st -> (forall st', nbr_wf st' -> nbr_frame st st' -> same_names st st' -> wp k Q st') ->
  wp (let* tmp_2_neighbor := olsr_lookup_two_hop_neighbor_table_mid a in
      do* match tmp_2_neighbor with
          | Some n2 => do* olsr_delete_two_hop_neighbor_table n2 in modify (set_changes_neighborhood true)
          | None => ret tt
          end in k) Q st.
Proof.
  intros Hwf Hk. wp_step.
  destruct (findM_spec (fun p => m ← nbr2s st !! p; Some (ipequal ip_version (neighbor_2_addr m) a))
    (bucket (two_hop_neighbortable st) (hashing a))) as (r & Hr & Hres).
  { intros p Hp%elem_of_bucket. apply (table_alloc _ _ _ (wf_nbr2s _ _ Hwf)) in Hp as [m ->]. by eexists. }
  eapply (wp_gets_opt (fun st => findM (fun p => m ← nbr2s st !! p; Some (ipequal ip_version (neighbor_2_addr m) a))
    (bucket (two_hop_neighbortable st) (hashing a)))); [exact Hr|]. wp_step.
  destruct r as [q2|]; [|apply wp_ret; by apply Hk].
  destruct Hres as (_ & _ & _ & Hq2 & _). destruct (nbr2s st !! q2) as [m|] eqn:Em; [|done].
  wp_step. eapply wp_mono; [by eapply wp_delete_two_hop|]. cbv beta. intros _ st1 (K1 & K2 & _ & K4 & K5 & K6). wp_step. apply Hk.
  - by apply (nbr_wf_frame _ st1).
  - exact K2.
  - intros p. simpl. rewrite K4, lookup_fmap. by destruct (nbrs st !! p).
Qed.

Lemma names_nbr st st' p n' : same_names st st' -> nbrs st' !! p = Some n' ->
  exists n, nbrs st !! p = Some n /\ neighbor_main_addr n' = neighbor_main_addr n.
Proof.
  intros H Hp. specialize (H p). rewrite Hp in H. destruct (nbrs st !! p) as [n|]; [|done]. simpl in H. injection H as H _. by exists n.
Qed.

Lemma wp_drop_alias_neighbors m_addr q a st :
  nbr_wf st -> mid_addresses st !! q = Some a -> (forall p n, nbrs st !! p = Some n -> neighbor_main_addr n <> alias a) ->
  wp (drop_alias_neighbors m_addr q) (fun _ st' => nbr_wf st' /\ nbr_frame st st' /\ same_names st st') st.
Proof.
  intros Hwf Ha Hno. unfold drop_alias_neighbors. wp_step. eapply wp_get_mid_addr; [exact Ha|].
  apply wp_drop_alias_two_hop; [done|]. intros st' H1 H2 H3. wp_step. eapply wp_lookup_alias; [exact H1| |intros _; by apply wp_ret].
  intros p n Hp Hn. destruct (names_nbr _ _ _ _ H3 Hp) as (n0 & H0 & E). by destruct (Hno p n0 H0); rewrite <- E.
Qed.

Lemma names_net st st' : net_wf st -> nbr_wf st' -> nbr_frame st st' -> same_names st st' -> net_wf st'.
Proof.
  intros [_ Hl] Hn Hf Hc. split; [done|]. destruct (frame_links _ _ Hf) as [E1 E2]. destruct (frame_env _ _ Hf) as (_ & E3 & _).
  apply (link_wf_ext st); try done; [by rewrite E1|]. intros q. specialize (Hc q).
  destruct (nbrs st' !! q), (nbrs st !! q); simpl in *; try done. injection Hc as _ E. by rewrite E.
Qed.

Lemma mid_frame_nbr st st' : mid_frame st st' -> mid_ok st' -> nbr_wf st -> nbr_wf st'.
Proof.
  intros Hf Hok [H1 H2 H3 H4 H5 H6 H7 H8 H9 H10 _]. destruct (mid_frame_env _ _ Hf) as (E1 & E2 & E3 & E4 & E5 & E6 & E7).
  split; unfold linked, back in *; rewrite ?E4, ?E5, ?E6, ?E7; done.
Qed.

Lemma mid_frame_net st st' : mid_frame st st' -> link_entry_head st' = link_entry_head st -> mid_ok st' -> net_wf st -> net_wf st'.
Proof.
  intros Hf Hh Hok [Hn Hl]. destruct (mid_frame_env _ _ Hf) as (E1 & E2 & E3 & E4 & _). split; [by eapply mid_frame_nbr|].
  apply (link_wf_ext st); try done; [by rewrite E3|by rewrite E4].
Qed.

Lemma mid_same_wf st st' : mid_same st st' -> mid_wf st -> mid_wf st' /\ forall a m, registered st' a m <-> registered st a m.
Proof.
  intros (E1 & E2 & E3 & E4) [H1 H2 H3 H4 H5 H6 H7]. split; [split; rewrite ?E1, ?E2, ?E3, ?E4; done|].
  intros a m. unfold registered. by rewrite E1, E3.
Qed.

(** ** Redirecting links *)

Definition redirect (old new : positive) (l : link_entry) : link_entry :=
  if decide (link_neighbor l = old) then set_link_neighbor new l else l.

Lemma wp_replace_links old new st (Q : Z -> olsr_state -> Prop) :
  NoDup (link_entry_head st) -> (forall q, q ∈ link_entry_head st -> is_Some (links st !! q)) ->
  (forall r ls, (forall q, ls !! q = (if decide (q ∈ link_entry_head st) then redirect old new <$> links st !! q else links st !! q)) ->
    Q r (set_links ls st)) ->
  wp (replace_neighbor_link_set old new) Q st.
Proof.
  intros Hnd Hall HQ. unfold replace_neighbor_link_set, OLSR_FOR_ALL_LINK_ENTRIES. wp_step. wp_step.
  apply (wp_foldM _ _ _ (fun rest r st' => exists l ls, link_entry_head st = l ++ rest /\ st' = set_links ls st /\
    forall q, ls !! q = (if decide (q ∈ l) then redirect old new <$> links st !! q else links st !! q))).
  - exists [], (links st). split; [done|]. split; [by destruct st|]. intros q. rewrite decide_False; [done|]. apply not_elem_of_nil.
  - intros q rest r st' (l & ls & El & -> & Hls). rewrite El in Hnd. apply NoDup_app in Hnd as (_ & Hd & _).
    assert (q ∉ l) as Hq by (intros Hin; apply (Hd q Hin); left).
    destruct (Hall q) as [x Hx]; [rewrite El; set_solver|].
    assert (ls !! q = Some x) as Hx' by (by rewrite Hls, decide_False).
    wp_step. eapply wp_get_link; [exact Hx'|].
    assert (forall ls', ls' !! q = Some (redirect old new x) -> (forall p, p <> q -> ls' !! p = ls !! p) ->
      exists l2 ls2, link_entry_head st = l2 ++ rest /\ set_links ls' st = set_links ls2 st /\
        forall p, ls2 !! p = (if decide (p ∈ l2) then redirect old new <$> links st !! p else links st !! p)) as Hdone.
    { intros ls' H1 H2. exists (l ++ [q]), ls'. rewrite <- app_assoc. split; [done|]. split; [done|]. intros p.
      destruct (decide (p = q)) as [->|Hn]; [by rewrite decide_True, Hx by set_solver|].
      rewrite H2, Hls by done. destruct (decide (p ∈ l)); [by rewrite decide_True by set_solver|by rewrite decide_False by set_solver]. }
    unfold redirect in Hdone. destruct (bool_decide_reflect (link_neighbor x = old)) as [E|E].
    + wp_step. eapply wp_upd_link; [exact Hx'|]. wp_step. simpl. apply (Hdone (<[q := set_link_neighbor new x]> ls)).
      * rewrite lookup_insert_eq. by rewrite decide_True.
      * intros p Hn. by rewrite lookup_insert_ne.
    + wp_step. apply (Hdone ls); [|done]. rewrite Hx'. by rewrite decide_False.
  - intros r st' (l & ls & El & -> & Hls). rewrite app_nil_r in El. subst l. by apply HQ.
Qed.

(** The neighbour known under the alias is the node itself. *)
Lemma wp_drop_own_neighbor m_addr q a new n st :
  nbr_wf st -> mid_addresses st !! q = Some a -> alias a = m_addr -> nbrs st !! new = Some n -> neighbor_main_addr n = m_addr ->
  NoDup (link_entry_head st) -> (forall q, q ∈ link_entry_head st -> is_Some (links st !! q)) ->
  wp (drop_alias_neighbors m_addr q) (fun _ st' => nbrs st' !! new = None /\
    forall p, link_neighbor <$> links st' !! p = link_neighbor <$> links st !! p) st.
Proof.
  intros Hwf Ha Ea Hn En Hnd Hall. unfold drop_alias_neighbors. wp_step. eapply wp_get_mid_addr; [exact Ha|]. rewrite Ea.
  apply wp_drop_alias_two_hop; [done|]. intros st' H1 H2 H3. destruct (frame_links _ _ H2) as [L1 L2].
  assert (exists n', nbrs st' !! new = Some n' /\ neighbor_main_addr n' = m_addr) as (n' & Hn' & En').
  { pose proof (H3 new) as E. rewrite Hn in E. destruct (nbrs st' !! new) as [n'|]; [|done]. simpl in E. injection E as E _. exists n'. by rewrite E. }
  assert (forall Q, Q (Some new) st' -> wp (olsr_lookup_neighbor_table_alias m_addr) Q st') as Hfind.
  { intros Q HQ. eapply wp_lookup_alias; [exact H1| |intros H; by destruct (H new n' Hn')].
    intros p x Hp Hx. assert (p = new) as -> by (eapply (wf_addr _ _ H1); [done|done|congruence]). exact HQ. }
  wp_step. apply Hfind. wp_step. apply Hfind. wp_step. apply wp_replace_links; [by rewrite L2|by rewrite L1, L2|].
  intros r ls Hls. wp_step. wp_step. wp_step. eapply wp_free_nbr; [exact Hn'|]. wp_step. simpl. split; [by rewrite lookup_delete_eq|].
  intros p. rewrite Hls, L1. destruct (decide _); [|done]. destruct (links st !! p) as [l|]; [|done]. simpl. unfold redirect.
  by destruct (decide _) as [<-|].
Qed.

End mid_proofs.

Section mid_spec.
Context {cnf : olsrd_config} {lqh : lq_handler}.

(** ** Registering an alias *)

(** The two cases of [insert_mid_tuple] behind the tests. *)
Lemma mid_step_wf p q e' adr m_addr k st st' :
  mid_wf st -> (forall m, ~ registered st adr m) -> mid_addresses st !! q = None ->
  match mid_entries st !! p with
  | Some e => mid_main_addr e = m_addr /\ aliases e' = q :: aliases e /\ mid_set st' = mid_set st
  | None => aliases e' = [q] /\ mid_set st' = QUEUE_ELEM (hashing m_addr) p (mid_set st) /\
      forall p' f, mid_entries st !! p' = Some f -> mid_main_addr f <> m_addr
  end ->
  mid_main_addr e' = m_addr ->
  st' = set_random_count k (set_mid_set (mid_set st') (set_mid_entries (<[p := e']> (mid_entries st))
    (set_reverse_mid_set (QUEUE_ELEM (hashing adr) q (reverse_mid_set st))
      (set_mid_addresses (<[q := {| alias := adr; main_entry := p; mid_vtime := 0 |}]> (mid_addresses st)) st)))) ->
  mid_wf st' /\ (forall a m, registered st' a m <-> registered st a m \/ a = adr /\ m = m_addr) /\
  mid_frame st st' /\ db st' = db st /\ link_entry_head st' = link_entry_head st /\ mid_entries st' !! p = Some e'.
Proof.
  intros Hwf Hnr Hq Hcase Em E.
  assert (mid_addresses st' = <[q := {| alias := adr; main_entry := p; mid_vtime := 0 |}]> (mid_addresses st)) as E1 by (by rewrite E).
  assert (reverse_mid_set st' = QUEUE_ELEM (hashing adr) q (reverse_mid_set st)) as E2 by (by rewrite E).
  assert (mid_entries st' = <[p := e']> (mid_entries st)) as E3 by (by rewrite E).
  destruct (insert_wf p q e' adr m_addr st st' Hwf Hnr Hq E1 E2 E3 Em Hcase) as [H1 H2].
  split; [done|]. split; [done|]. split; [by rewrite E|]. split; [by rewrite E|]. split; [by rewrite E|]. by rewrite E3, lookup_insert_eq.
Qed.

(** What is known after the loop over the aliases. *)
Lemma wp_drop_all m_addr l st (Q : bool -> olsr_state -> Prop) :
  net_wf st -> (forall q, q ∈ l -> exists a, mid_addresses st !! q = Some a /\
    forall p n, nbrs st !! p = Some n -> neighbor_main_addr n <> alias a) ->
  (forall st', net_wf st' -> mid_same st st' -> db st' = db st -> Q true st') ->
  wp (do* forM_ l (drop_alias_neighbors m_addr) in ret true) Q st.
Proof.
  intros Hnet Hl HQ. wp_step.
  apply (wp_forM _ _ (fun rest st' => nbr_wf st' /\ nbr_frame st st' /\ same_names st st' /\ forall q, q ∈ rest -> q ∈ l)).
  - split; [apply Hnet|]. split; [done|]. by split.
  - intros q rest st' (H1 & H2 & H3 & H4). destruct (Hl q) as (a & Ha & Hno); [apply H4; left|].
    pose proof (frame_mid _ _ H2) as (_ & _ & Ea & _).
    eapply wp_mono; [apply (wp_drop_alias_neighbors m_addr q a); [done|by rewrite Ea|]|].
    + intros p n Hp. specialize (H3 p). rewrite Hp in H3. destruct (nbrs st !! p) as [n0|] eqn:E; [|done]. simpl in H3.
      injection H3 as H3 _. rewrite H3. by eapply Hno.
    + cbv beta. intros _ st2 (K1 & K2 & K3). split; [done|]. split; [by etrans|]. split; [intros p; by rewrite K3|].
      intros r Hr. apply H4. by right.
  - intros st' (H1 & H2 & H3 & _). apply wp_ret. apply HQ; [by eapply names_net|by apply frame_mid|].
    by destruct (frame_env _ _ H2) as (? & _).
Qed.

Lemma wp_insert_mid_tuple m_addr adr vtime st :
  net_wf st -> mid_wf st -> lsdb_wf (db st) -> (forall m, ~ registered st adr m) ->
  (forall tc t, kt_find (tc_tree (db st)) m_addr = Some tc -> tcs (db st) !! tc = Some t -> 2 + degree t < 4294967296) ->
  (forall a p n, a = adr \/ registered st a m_addr -> nbrs st !! p = Some n -> neighbor_main_addr n <> a) ->
  wp (insert_mid_tuple m_addr adr vtime) (fun r st' => r = true /\ net_wf st' /\ mid_wf st' /\ lsdb_wf (db st') /\
    forall a m, registered st' a m <-> registered st a m \/ a = adr /\ m = m_addr) st.
Proof.
  intros Hnet Hwf Hdb Hnr Hdeg Hno. unfold insert_mid_tuple, mid_lookup_entry_bymain, mid_lookup_main_addr.
  destruct (find_entry_spec st m_addr Hwf) as (tmp & Htmp & Hent). wp_step. eapply (wp_gets_opt (fun st => find_entry_bymain st m_addr)); [exact Htmp|].
  destruct (find_main_addr_spec st adr Hwf) as (r & Hr & Hreg). wp_step. eapply (wp_gets_opt (fun st => find_main_addr st adr)); [exact Hr|].
  destruct r as [m|]; [destruct (Hnr m); by apply Hreg|]. wp_step.
  eapply wp_mono; [apply wp_insert_routing_table; [exact Hdb|lia|exact Hdeg]|]. cbv beta. intros _ st1 (Hdb1 & Hf & _).
  destruct (db_frame_mid _ _ Hf) as (Hmf & Hms & _ & _ & Hh).
  destruct (mid_same_wf _ _ Hms Hwf) as [Hwf1 Hreg1].
  assert (net_wf st1) as Hnet1 by (apply (mid_frame_net st); [done|done|by apply mid_wf_ok|done]).
  assert (forall m, ~ registered st1 adr m) as Hnr1 by (intros m; rewrite Hreg1; apply Hnr).
  destruct (mid_frame_env _ _ Hmf) as (_ & _ & _ & En & _). pose proof Hms as (E1 & E2 & E3 & E4).
  set (q := alloc (mid_addresses st1)). assert (mid_addresses st1 !! q = None) as Hq by apply alloc_fresh.
  assert (forall p e' st2, mid_wf st2 -> mid_frame st1 st2 -> db st2 = db st1 -> link_entry_head st2 = link_entry_head st1 -> mid_entries st2 !! p = Some e' -> mid_main_addr e' = m_addr ->
    (forall a m, registered st2 a m <-> registered st1 a m \/ a = adr /\ m = m_addr) ->
    wp (let* e := get_mid p in do* forM_ (aliases e) (drop_alias_neighbors m_addr) in ret true) (fun r st' => r = true /\ net_wf st' /\ mid_wf st' /\
      lsdb_wf (db st') /\ forall a m, registered st' a m <-> registered st a m \/ a = adr /\ m = m_addr) st2) as Hend.
  { intros p e' st2 H1 H2' H3 H4' H5 H6 H7. assert (net_wf st2) as H2 by (apply (mid_frame_net st1); [done|done|by apply mid_wf_ok|done]).
    destruct (mid_frame_env _ _ H2') as (_ & _ & _ & H4 & _). wp_step. eapply wp_get_mid; [exact H5|]. apply wp_drop_all; [done|..].
    - intros r Hr'. destruct (mw_listed _ H1 _ _ _ H5 Hr') as (a & Ha & Em). exists a. split; [done|]. intros p' n Hp'.
      rewrite H4, En in Hp'. eapply Hno; [|exact Hp'].
      assert (registered st2 (alias a) m_addr) as Hra by (exists r, a, e'; by rewrite Em).
      apply H7 in Hra as [Hra|[-> _]]; [right; by apply Hreg1|by left].
    - intros st3 K1 K2 K3. destruct (mid_same_wf _ _ K2 H1) as [K4 K5]. split; [done|]. split; [done|]. split; [done|].
      split; [by rewrite K3, H3|]. intros a m. by rewrite K5, H7, Hreg1. }
  unfold malloc_mid_addr. wp_step. destruct tmp as [p|].
  - destruct Hent as (e & He & Em). rewrite <- E1 in He. wp_steps. fold q. eapply wp_upd_mid; [exact He|]. wp_step.
    eapply wp_set_mid_timer; [apply lookup_insert_eq|]. intros t k. wp_step.
    match goal with |- wp _ _ ?s => set (st2 := s) end.
    assert (mid_entries st2 !! p = Some (set_mid_timer t (set_aliases (q :: aliases e) e))) as Hp2 by apply lookup_insert_eq.
    destruct (mid_step_wf p q (set_mid_timer t (set_aliases (q :: aliases e) e)) adr m_addr k st1 st2 Hwf1 Hnr1 Hq) as (K1 & K2 & K3 & K4 & K5 & K6).
    + by rewrite He.
    + done.
    + unfold st2. simpl. rewrite insert_insert_eq. by destruct st1.
    + eapply Hend; [exact K1|exact K3|exact K4|exact K5|exact K6|done|exact K2].
  - wp_steps. fold q. set (p := alloc _).
    assert (mid_entries st1 !! p = None) as Hp by apply alloc_fresh.
    eapply wp_set_mid_timer; [apply lookup_insert_eq|]. intros t k. wp_step. wp_step. wp_step.
    match goal with |- wp _ _ ?s => set (st2 := s) end.
    set (e' := set_mid_timer t {| mid_main_addr := m_addr; aliases := [q]; mid_timer := None |}) in *.
    destruct (mid_step_wf p q e' adr m_addr k st1 st2 Hwf1 Hnr1 Hq) as (K1 & K2 & K3 & K4 & K5 & K6).
    + rewrite Hp. split; [done|]. split; [done|]. intros p' f. rewrite E1. apply Hent.
    + done.
    + unfold st2. simpl. rewrite insert_insert_eq. by destruct st1.
    + eapply Hend; [exact K1|exact K3|exact K4|exact K5|exact K6|done|exact K2].
Qed.

(** C8: Registering an alias, in a state where no neighbour is known under one of the
    aliases: an address that is not to be used changes nothing; another one is
    registered with the main address, next to all that was registered before. All
    tables stay well formed, and the routes and the MPR set are to be recalculated. *)
Theorem insert_mid_alias_correct validate m_addr adr vtime st :
  net_wf st -> mid_wf st -> lsdb_wf (db st) -> (forall m, ~ registered st adr m) ->
  (forall tc t, kt_find (tc_tree (db st)) m_addr = Some tc -> tcs (db st) !! tc = Some t -> 2 + degree t < 4294967296) ->
  (forall a p n, a = adr \/ registered st a m_addr -> nbrs st !! p = Some n -> neighbor_main_addr n <> a) ->
  wp (insert_mid_alias validate m_addr adr vtime) (fun _ st' =>
    if validate adr then net_wf st' /\ mid_wf st' /\ lsdb_wf (db st') /\
      changes_neighborhood st' = true /\ changes_topology st' = true /\
      forall a m, registered st' a m <-> registered st a m \/ a = adr /\ m = m_addr
    else st' = st) st.
Proof.
  intros Hnet Hwf Hdb Hnr Hdeg Hno. unfold insert_mid_alias. destruct (validate adr); simpl; [|by apply wp_ret].
  wp_step. eapply wp_lookup_alias; [apply Hnet|intros p n Hp Hn; by destruct (Hno adr p n (or_introl eq_refl) Hp)|]. intros _. wp_step. wp_step. wp_step.
  eapply wp_mono; [by apply wp_insert_mid_tuple|]. cbv beta. intros r st' (_ & H1 & H2 & H3 & H4). wp_steps.
  destruct H1 as [H1 H1']. split; [split; [by apply (nbr_wf_frame _ st')|by apply (link_wf_ext st')]|].
  destruct (mid_same_wf st' (set_changes_topology true (set_changes_neighborhood true st'))) as [H5 H6]; [done|done|]. split; [exact H5|].
  split; [exact H3|]. split; [done|]. split; [done|]. intros a m. rewrite H6. apply H4.
Qed.

(** ** Pruning *)

(** The aliases that stay. *)
Definition stays (declared : list ip_addr) (now : Z) (x : mid_address) : bool :=
  existsb (fun d => ipequal ip_version (alias x) d) declared || (negb (olsr_isTimedOut now (mid_vtime x)) && negb (bool_decide (declared = []))).

Definition refreshed (declared : list ip_addr) (now vtime : Z) (x : mid_address) : mid_address :=
  if existsb (fun d => ipequal ip_version (alias x) d) declared then set_mid_vtime (olsr_getTimestamp now vtime) x else x.

Record pruned (declared : list ip_addr) (vtime : Z) (rest : list positive) (st : olsr_state) (l : list positive) (st' : olsr_state) : Prop := {
  pn_db : lsdb_wf (db st');
  pn_frame : mid_frame st st';
  pn_entries : mid_entries st' = mid_entries st;
  pn_set : mid_set st' = mid_set st;
  pn_table : table_ok (mid_addresses st') alias (reverse_mid_set st');
  pn_other q : q ∉ rest -> mid_addresses st' !! q = mid_addresses st !! q;
  pn_addrs q x : q ∈ rest -> mid_addresses st !! q = Some x -> mid_addresses st' !! q =
    if stays declared (now_times st) x then Some (refreshed declared (now_times st) vtime x) else None;
  pn_list : l = filter (fun q => match mid_addresses st !! q with Some x => stays declared (now_times st) x | None => false end = true) rest;
}.

Lemma wp_prune_loop declared main vtime rest st :
  lsdb_wf (db st) -> table_ok (mid_addresses st) alias (reverse_mid_set st) -> NoDup rest ->
  (forall q, q ∈ rest -> is_Some (mid_addresses st !! q)) ->
  wp (prune_loop declared main vtime rest) (pruned declared vtime rest st) st.
Proof.
  revert st. induction rest as [|q rest IH]; intros st Hdb Ht Hnd Hall; cbn [prune_loop].
  { apply wp_ret. split; try done. by intros q x ?%not_elem_of_nil. }
  apply NoDup_cons in Hnd as [Hq Hnd]. destruct (Hall q) as [x Hx]; [left|].
  wp_step. eapply wp_get_mid_addr; [exact Hx|]. wp_step. wp_step.
  (* the rest of the list in a state that differs at [q] only *)
  assert (forall st1 o, lsdb_wf (db st1) -> mid_frame st st1 -> mid_entries st1 = mid_entries st -> mid_set st1 = mid_set st ->
    table_ok (mid_addresses st1) alias (reverse_mid_set st1) -> mid_addresses st1 !! q = o -> (forall r, r <> q -> mid_addresses st1 !! r = mid_addresses st !! r) ->
    o = (if stays declared (now_times st) x then Some (refreshed declared (now_times st) vtime x) else None) ->
    wp (prune_loop declared main vtime rest) (fun l st' =>
      pruned declared vtime (q :: rest) st (if stays declared (now_times st) x then q :: l else l) st') st1) as Hrest.
  { intros st1 o H1 H2 H3 H4 H5 H6 H7 H8. destruct (mid_frame_env _ _ H2) as (En & _).
    assert (forall r, r ∈ rest -> mid_addresses st1 !! r = mid_addresses st !! r) as Hsame by (intros r Hr; apply H7; intros ->; done).
    eapply wp_mono; [apply IH; [done|done|done|intros r Hr; rewrite Hsame by done; apply Hall; by right]|].
    cbv beta. intros l st' [K1 K2 K3 K4 K5 K6 K7 K8]. rewrite En in *. split; [done|by etrans|congruence|congruence|done|..].
    - intros r Hr. apply not_elem_of_cons in Hr as [Hn Hr]. by rewrite K6, H7.
    - intros r y [->|Hr]%elem_of_cons Hy.
      + rewrite K6, H6, H8 by done. rewrite Hx in Hy. by injection Hy as ->.
      + by apply K7; [|rewrite Hsame].
    - rewrite filter_cons, Hx, K8.
      assert (filter (fun q => match mid_addresses st1 !! q with Some x => stays declared (now_times st) x | None => false end = true) rest =
        filter (fun q => match mid_addresses st !! q with Some x => stays declared (now_times st) x | None => false end = true) rest) as ->.
      { apply filter_ext_in. intros r Hr. by rewrite Hsame. }
      destruct (stays declared (now_times st) x); [by rewrite decide_True|by rewrite decide_False]. }
  fold (stays declared (now_times st) x). destruct (stays declared (now_times st) x) eqn:Es.
  - wp_step. apply wp_when; intros Ef.
    + eapply wp_upd_mid_addr; [exact Hx|]. wp_step.
      eapply wp_mono; [eapply (Hrest _ (Some (set_mid_vtime (olsr_getTimestamp (now_times st) vtime) x)))|]; try done.
      * simpl. by eapply table_ok_update.
      * simpl. by rewrite lookup_insert_eq.
      * intros r Hn. simpl. by rewrite lookup_insert_ne.
      * unfold refreshed. by rewrite Ef.
    + wp_step. eapply wp_mono; [eapply (Hrest st (Some x))|]; try done. unfold refreshed. by rewrite Ef.
  - apply (wp_remove_alias q x); [done|done|]. intros st1 [K1 K2 K3 K4 K5 K6]. wp_steps.
    eapply wp_mono; [eapply (Hrest _ None)|]; try done.
    + simpl. rewrite K5, K6. by apply table_ok_free.
    + simpl. by rewrite K5, lookup_delete_eq.
    + intros r Hn. simpl. by rewrite K5, lookup_delete_ne.
Qed.

(** The tables after pruning the entry [p]. *)
Lemma pruned_wf declared vtime p e l st st1 st2 :
  mid_wf st -> mid_entries st !! p = Some e -> pruned declared vtime (aliases e) st l st1 ->
  st2 = set_mid_entries (<[p := set_aliases l e]> (mid_entries st1)) st1 ->
  mid_wf st2 /\ forall a m, registered st2 a m <-> registered st a m /\ (m = mid_main_addr e ->
    exists q x, mid_addresses st !! q = Some x /\ alias x = a /\ stays declared (now_times st) x = true).
Proof.
  intros Hwf He [_ _ E1 E2 Ht Ho Ha El] ->.
  assert (forall q x, mid_addresses st !! q = Some x -> q ∈ aliases e <-> main_entry x = p) as Hown.
  { intros q x Hx. split; intros H.
    - destruct (mw_listed _ Hwf _ _ _ He H) as (y & Hy & Ey). congruence.
    - destruct (mw_owner _ Hwf _ _ Hx) as (f & Hf & Hin). rewrite H in Hf. congruence. }
  assert (forall x, alias (refreshed declared (now_times st) vtime x) = alias x /\ main_entry (refreshed declared (now_times st) vtime x) = main_entry x) as Hr.
  { intros x. unfold refreshed. by destruct (existsb _ _). }
  (* the aliases that are left *)
  assert (forall q y, mid_addresses st1 !! q = Some y -> exists x, mid_addresses st !! q = Some x /\ alias y = alias x /\ main_entry y = main_entry x /\
    (main_entry x = p -> stays declared (now_times st) x = true)) as Hback.
  { intros q y Hy. destruct (decide (q ∈ aliases e)) as [Hin|Hin].
    - destruct (mw_listed _ Hwf _ _ _ He Hin) as (x & Hx & Ex). rewrite (Ha q x Hin Hx) in Hy.
      destruct (stays declared (now_times st) x) eqn:Es; [|done]. injection Hy as <-. destruct (Hr x) as [-> ->]. exists x. by repeat split.
    - rewrite Ho in Hy by done. exists y. repeat split; [done|]. intros E. destruct Hin. by apply (Hown q y). }
  assert (forall q x, mid_addresses st !! q = Some x -> (main_entry x = p -> stays declared (now_times st) x = true) ->
    exists y, mid_addresses st1 !! q = Some y /\ alias y = alias x /\ main_entry y = main_entry x) as Hforth.
  { intros q x Hx Hs. destruct (decide (q ∈ aliases e)) as [Hin|Hin].
    - rewrite (Ha q x Hin Hx), Hs by (by apply (Hown q x)). eexists. split; [done|]. apply Hr.
    - exists x. by rewrite Ho. }
  assert (forall q, q ∈ l <-> q ∈ aliases e /\ exists x, mid_addresses st !! q = Some x /\ stays declared (now_times st) x = true) as Hl.
  { intros q. rewrite El, list_elem_of_filter. destruct (mid_addresses st !! q) as [x|]; split.
    - intros [H1 H2]. split; [done|]. by exists x.
    - intros [H1 (y & [= <-] & H2)]. done.
    - by intros [? _].
    - by intros [_ (y & ? & _)]. }
  assert (forall r f, <[p := set_aliases l e]> (mid_entries st1) !! r = Some f <-> r = p /\ f = set_aliases l e \/ r <> p /\ mid_entries st !! r = Some f) as Hn
    by (intros r f; rewrite E1, lookup_insert_Some; naive_solver).
  split.
  - split; simpl.
    + rewrite E1, E2. by eapply table_ok_update; [apply Hwf|..].
    + done.
    + intros p1 p2 e1 e2 [[-> ->]|[N1 H1]]%Hn [[-> ->]|[N2 H2]]%Hn E; simpl in E; [done|by eapply (mw_main _ Hwf)..].
    + intros q r a b (x & Hx & -> & _)%Hback (y & Hy & -> & _)%Hback. by apply (mw_alias _ Hwf).
    + intros q y Hy. destruct (Hback _ _ Hy) as (x & Hx & _ & Em & Hs). destruct (mw_owner _ Hwf _ _ Hx) as (f & Hf & Hin). rewrite Em.
      destruct (decide (main_entry x = p)) as [Ep|Ep].
      * exists (set_aliases l e). split; [apply Hn; by left|]. apply Hl. split; [by apply (Hown q x)|]. exists x. by split; [|apply Hs].
      * exists f. split; [apply Hn; by right|done].
    + intros p1 f q [[-> ->]|[N1 H1]]%Hn Hin.
      * simpl in Hin. apply Hl in Hin as [Hin (x & Hx & Hs)]. pose proof (proj1 (Hown q x Hx) Hin) as Ep.
        destruct (Hforth q x Hx) as (y & Hy & _ & Em); [done|]. exists y. by rewrite Em.
      * destruct (mw_listed _ Hwf _ _ _ H1 Hin) as (x & Hx & Em). destruct (Hforth q x Hx) as (y & Hy & _ & Em'); [congruence|]. exists y. by rewrite Em'.
    + intros p1 f [[-> ->]|[N1 H1]]%Hn; [|by eapply (mw_nodup _ Hwf)]. simpl. rewrite El. apply NoDup_filter. by eapply (mw_nodup _ Hwf).
  - intros a m. split.
    + intros (q & y & f & Hy & Ea & Hf & <-). simpl in *. destruct (Hback _ _ Hy) as (x & Hx & E3 & E4 & Hs).
      assert (exists g, mid_entries st !! main_entry x = Some g /\ mid_main_addr g = mid_main_addr f) as (g & Hg & Eg).
      { rewrite E4 in Hf. apply Hn in Hf as [[-> ->]|[_ Hf]]; [by exists e|by exists f]. }
      split; [exists q, x, g; by rewrite <- E3, Ea|]. intros Em. exists q, x. rewrite <- E3. split; [done|]. split; [done|].
      apply Hs. eapply (mw_main _ Hwf); [exact Hg|exact He|congruence].
    + intros [(q & x & g & Hx & Ea & Hg & <-) Hst].
      destruct (Hforth q x Hx) as (y & Hy & E3 & E4).
      { intros Ep. destruct Hst as (r & z & Hz & Ez & Hs); [congruence|].
        assert (r = q) as -> by (by eapply (mw_alias _ Hwf); [exact Hz|exact Hx|congruence]). congruence. }
      destruct (decide (main_entry x = p)) as [Ep|Ep].
      * exists q, y, (set_aliases l e). simpl. split; [done|]. split; [congruence|]. split; [apply Hn; left; split; congruence|]. simpl. congruence.
      * exists q, y, g. simpl. split; [done|]. split; [congruence|]. split; [apply Hn; right; rewrite E4; done|done].
Qed.

(** C7: A MID message replaces the aliases of its originator: what stays registered is
    what the message declares, and, unless it declares nothing, what was declared
    before and is still valid; the aliases of other nodes are untouched. *)
Theorem olsr_prune_aliases_correct message st :
  mid_wf st -> lsdb_wf (db st) ->
  wp (olsr_prune_aliases message) (fun _ st' => mid_wf st' /\ lsdb_wf (db st') /\ mid_frame st st' /\
    forall a m, registered st' a m <-> registered st a m /\ (m = mid_origaddr message ->
      a ∈ mid_addr message \/ mid_addr message <> [] /\
        exists q x, mid_addresses st !! q = Some x /\ alias x = a /\ olsr_isTimedOut (now_times st) (mid_vtime x) = false)) st.
Proof.
  intros Hwf Hdb. unfold olsr_prune_aliases, mid_lookup_entry_bymain.
  destruct (find_entry_spec st (mid_origaddr message) Hwf) as (r & Hr & Hent). wp_step.
  eapply (wp_gets_opt (fun st => find_entry_bymain st (mid_origaddr message))); [exact Hr|]. destruct r as [p|].
  - destruct Hent as (e & He & Em). wp_step. eapply wp_get_mid; [exact He|]. wp_step.
    eapply wp_mono; [apply wp_prune_loop; [done|apply Hwf|by eapply (mw_nodup _ Hwf)|]|].
    { intros q Hq. destruct (mw_listed _ Hwf _ _ _ He Hq) as (x & Hx & _). by exists x. }
    cbv beta. intros l st1 Hp. pose proof (pn_entries _ _ _ _ _ _ Hp) as E1.
    eapply wp_upd_mid; [rewrite E1; exact He|]. destruct (pruned_wf _ _ p e l st st1 _ Hwf He Hp eq_refl) as [H1 H2].
    split; [exact H1|]. split; [apply Hp|]. split; [apply Hp|]. intros a m. rewrite H2, Em.
    assert (registered st a m -> m = mid_origaddr message -> (exists q x, mid_addresses st !! q = Some x /\ alias x = a /\ stays (mid_addr message) (now_times st) x = true) <->
      (a ∈ mid_addr message \/ mid_addr message <> [] /\
        exists q x, mid_addresses st !! q = Some x /\ alias x = a /\ olsr_isTimedOut (now_times st) (mid_vtime x) = false)) as Hiff; [|tauto].
    intros (q0 & x0 & _ & Hx0 & Ex0 & _) _. unfold stays. split.
    + intros (q & x & Hx & <- & [Hs|[Hs1 Hs2]%andb_prop]%orb_prop).
      * left. apply existsb_exists in Hs as (d & Hd & Ed%ipequal_eq). rewrite Ed. by apply list_elem_of_In.
      * right. split; [intros E; rewrite E in Hs2; by vm_compute in Hs2|]. exists q, x. split; [done|]. split; [done|by apply negb_true_iff].
    + intros [Hin|[Hne (q & x & Hx & Ex & Hs)]].
      * exists q0, x0. split; [done|]. split; [done|]. apply orb_true_iff. left. apply existsb_exists. exists a. split; [by apply list_elem_of_In|]. rewrite Ex0. apply ipequal_refl.
      * exists q, x. split; [done|]. split; [done|]. apply orb_true_iff. right. rewrite Hs. simpl. by rewrite bool_decide_false.
  - apply wp_ret. split; [done|]. split; [done|]. split; [done|]. intros a m. split; [|by intros [? _]].
    intros H. split; [done|]. intros ->. destruct H as (q & x & e & _ & _ & He & Em). by destruct (Hent _ _ He).
Qed.

(** ** A node that lists its own address *)

(** When an alias is the main address of a neighbour itself, the neighbour is freed
    while the links to it stay: every link to the neighbour points to freed memory
    afterwards. Nothing checks the aliases of a received MID message for the address
    of its originator. *)
Theorem insert_mid_alias_own_address_dangles validate a vtime st p n :
  net_wf st -> mid_wf st -> lsdb_wf (db st) -> validate a = true ->
  (forall x, ~ registered st a x) -> (forall q e, mid_entries st !! q = Some e -> mid_main_addr e <> a) ->
  (forall tc t, kt_find (tc_tree (db st)) a = Some tc -> tcs (db st) !! tc = Some t -> 2 + degree t < 4294967296) ->
  nbrs st !! p = Some n -> neighbor_main_addr n = a ->
  wp (insert_mid_alias validate a a vtime) (fun _ st' =>
    exists new, nbrs st' !! new = None /\
      forall q l, links st !! q = Some l -> link_neighbor l = p -> exists l', links st' !! q = Some l' /\ link_neighbor l' = new) st.
Proof.
  intros [Hnw Hlw] Hwf Hdb Hval Hnr Hne Hdeg Hp Ha. unfold insert_mid_alias. rewrite Hval. simpl.
  wp_step. eapply wp_lookup_alias; [exact Hnw| |intros H; by destruct (H p n Hp)].
  intros p' n' Hp' Ha'. assert (p' = p) as -> by (eapply (wf_addr _ _ Hnw); [done|done|congruence]). clear n' Hp' Ha'.
  (* the neighbour is replaced *)
  wp_step. wp_step. eapply wp_mono; [by apply wp_delete_neighbor|]. cbv beta. intros found st1 (N1 & F1 & D1).
  rewrite (find_nbr_Some _ _ _ _ _ Hnw Hp Ha) in D1. destruct D1 as (_ & D1 & _).
  wp_step. eapply wp_mono; [by apply wp_insert_neighbor|]. cbv beta. intros new st2 (N2 & F2 & _ & D2).
  assert (nbrs st2 = <[new := new_neighbor a]> (delete p (nbrs st))) as En.
  { destruct (find_nbr_correct _ st1 a N1) as (r & Hr & Hc). rewrite Hr in D2. destruct r as [q|].
    - destruct Hc as (m & Hm & Em). rewrite D1 in Hm. apply lookup_delete_Some in Hm as [Hn Hm]. destruct Hn.
      symmetry. eapply (wf_addr _ _ Hnw); [done|done|congruence].
    - destruct D2 as [_ D2]. by rewrite D2, D1. }
  destruct (frame_links _ _ F1) as [L1 H1]. destruct (frame_links _ _ F2) as [L2 H2].
  assert (mid_same st st2) as Hms by (etrans; by apply frame_mid).
  destruct (frame_env _ _ F1) as (B1 & _). destruct (frame_env _ _ F2) as (B2 & _).
  wp_step. apply wp_replace_links.
  { rewrite H2, H1. apply Hlw. }
  { intros q. rewrite H2, H1, L2, L1. apply Hlw. }
  intros r ls Hls. set (st3 := set_links ls st2).
  assert (nbr_wf st3) as N3 by (by apply (nbr_wf_frame _ st2)).
  assert (forall q, q ∈ link_entry_head st3 -> exists l', ls !! q = Some l') as Hls3.
  { intros q Hq. rewrite Hls, decide_True by done. simpl in Hq. rewrite H2, H1 in Hq. apply (lw_alloc _ Hlw) in Hq as [l Hl].
    rewrite L2, L1, Hl. by eexists. }
  assert (forall q l, links st !! q = Some l -> link_neighbor l = p -> exists l', ls !! q = Some l' /\ link_neighbor l' = new) as Hred.
  { intros q l Hl El. rewrite Hls, decide_True by (rewrite H2, H1; apply (lw_alloc _ Hlw); by eexists). rewrite L2, L1, Hl. simpl.
    eexists. split; [done|]. unfold redirect. by rewrite decide_True. }
  destruct (mid_same_wf _ _ Hms Hwf) as [M2 R2]. assert (mid_same st2 st3) as Hms3 by done. destruct (mid_same_wf _ _ Hms3 M2) as [M3 R3].
  assert (forall q e, mid_entries st3 !! q = Some e -> mid_main_addr e <> a) as Hne3.
  { intros q e. simpl. destruct Hms as (-> & _). apply Hne. }
  destruct (find_entry_spec st3 a M3) as (t0 & Ht0 & Hent). destruct t0 as [p0|].
  { destruct Hent as (e & He & Ee). by destruct (Hne3 _ _ He). }
  unfold mid_lookup_entry_bymain, mid_lookup_main_addr. wp_step. eapply (wp_gets_opt (fun st => find_entry_bymain st a)); [exact Ht0|]. cbv beta iota. apply wp_ret.
  (* the alias is registered *)
  unfold insert_mid_tuple, mid_lookup_entry_bymain, mid_lookup_main_addr. wp_step. wp_step.
  eapply (wp_gets_opt (fun st => find_entry_bymain st a)); [exact Ht0|]. cbv beta.
  destruct (find_main_addr_spec st3 a M3) as (r0 & Hr0 & Hreg). wp_step. eapply (wp_gets_opt (fun st => find_main_addr st a)); [exact Hr0|].
  destruct r0 as [m|]; [destruct (Hnr m); apply R2, R3; by apply Hreg|]. wp_step.
  assert (db st3 = db st) as B3 by (simpl; by rewrite B2, B1).
  assert (lsdb_wf (db st3)) as Hdb3 by (by rewrite B3).
  assert (forall tc t, kt_find (tc_tree (db st3)) a = Some tc -> tcs (db st3) !! tc = Some t -> 2 + degree t < 4294967296) as Hdeg3 by (by rewrite B3).
  eapply wp_mono; [apply wp_insert_routing_table; [exact Hdb3|lia|exact Hdeg3]|]. cbv beta. intros _ st4 (_ & F4 & _).
  destruct (db_frame_mid _ _ F4) as (Mf & Ms4 & E4 & L4 & H4). change (links st3) with ls in L4.
  assert (nbr_wf st4) as N4.
  { destruct (mid_frame_env _ _ Mf) as (_ & _ & _ & _ & G5 & G6 & G7). by apply (nbr_wf_frame _ st3). }
  destruct (mid_same_wf _ _ Ms4 M3) as [M4 R4].
  unfold malloc_mid_addr. wp_steps. eapply wp_set_mid_timer; [apply lookup_insert_eq|]. intros t k. wp_step. wp_step. wp_step.
  set (q0 := alloc (mid_addresses st4)). set (p0 := alloc (mid_entries st4)).
  match goal with |- wp _ _ ?s => set (st5 := s) end.
  assert (mid_addresses st5 !! q0 = Some {| alias := a; main_entry := p0; mid_vtime := 0 |}) as Ha5 by apply lookup_insert_eq.
  set (e' := set_mid_timer t {| mid_main_addr := a; aliases := [q0]; mid_timer := None |}) in *.
  destruct (mid_step_wf p0 q0 e' a a k st4 st5) as (K1 & _ & K3 & _ & K5 & K6).
  - exact M4.
  - intros m Hm. by apply (Hnr m), R2, R3, R4.
  - apply alloc_fresh.
  - assert (mid_entries st4 !! p0 = None) as -> by apply alloc_fresh. split; [done|]. split; [done|]. intros p' f. destruct Ms4 as (-> & _). apply Hne3.
  - done.
  - unfold st5. simpl. rewrite insert_insert_eq. by destruct st4.
  - destruct (mid_frame_env _ _ K3) as (_ & _ & L5 & E5 & _).
    assert (nbr_wf st5) as N5 by (apply (mid_frame_nbr st4); [done|by apply mid_wf_ok|done]). clearbody st5.
    wp_step. eapply wp_get_mid; [exact K6|]. simpl. wp_step. wp_step. eapply wp_mono.
    + apply (wp_drop_own_neighbor a q0 _ new (new_neighbor a) st5 N5 Ha5); [done| |done|..].
      * rewrite E5, E4. change (nbrs st3) with (nbrs st2). by rewrite En, lookup_insert_eq.
      * rewrite K5, H4. simpl. rewrite H2, H1. apply Hlw.
      * intros q. rewrite K5, H4, L5, L4. apply Hls3.
    + cbv beta. intros _ st6 (D & Dl). wp_steps. exists new. split; [done|]. intros q l Hl El. simpl. specialize (Dl q). rewrite L5, L4 in Dl.
      destruct (Hred q l Hl El) as (l1 & Hl1 & El1). rewrite Hl1 in Dl. destruct (links st6 !! q) as [l6|]; [|done]. simpl in Dl. injection Dl as Dl.
      exists l6. by rewrite Dl.
Qed.

(** ** Forgetting a node *)

Lemma wp_cleanup_mid orig st :
  mid_wf st -> lsdb_wf (db st) ->
  wp (olsr_cleanup_mid orig) (fun _ st' => mid_wf st' /\ lsdb_wf (db st') /\ mid_frame st st' /\ only_paths (db st) (db st') /\
    forall a m, registered st' a m <-> registered st a m /\ m <> orig) st.
Proof.
  intros Hwf Hdb. unfold olsr_cleanup_mid, mid_lookup_entry_bymain. destruct (find_entry_spec st orig Hwf) as (r & Hr & Hent). wp_step.
  eapply (wp_gets_opt (fun st => find_entry_bymain st orig)); [exact Hr|]. destruct r as [p|].
  - destruct Hent as (e & He & <-). eapply wp_mono; [by eapply wp_delete_mid_entry|]. cbv beta. by intros _ st' [? ? ? ? ?].
  - apply wp_ret. split; [done|]. split; [done|]. split; [done|]. split; [done|]. intros a m. split; [|by intros [? _]].
    intros H. split; [done|]. intros ->. destruct H as (q & x & e & _ & _ & He & Em). by destruct (Hent _ _ He).
Qed.

(** An empty topology message makes the node forget the aliases of its originator:
    the addresses that were registered with it, and no others, have no main address
    any more, and the entry and its aliases are freed. *)
Theorem olsr_cleanup_mid_correct orig st :
  mid_wf st -> lsdb_wf (db st) ->
  wp (olsr_cleanup_mid orig) (fun _ st' => mid_wf st' /\ lsdb_wf (db st') /\ mid_frame st st' /\
    forall a m, registered st' a m <-> registered st a m /\ m <> orig) st.
Proof. intros H1 H2. eapply wp_mono; [by apply wp_cleanup_mid|]. cbv beta. intros _ st' (? & ? & ? & _ & ?). by split_and!. Qed.

(** ** Samples *)

Lemma no_mid_wf st : mid_entries st = ∅ -> mid_addresses st = ∅ -> mid_set st = empty_table -> reverse_mid_set st = empty_table -> mid_wf st.
Proof.
  intros E1 E2 E3 E4. split; rewrite ?E1, ?E2, ?E3, ?E4; try apply table_ok_empty; intros *; rewrite ?lookup_empty; discriminate.
Qed.

Lemma no_mid_registered st a m : mid_addresses st = ∅ -> ~ registered st a m.
Proof. intros E (q & x & e & Hx & _). by rewrite E, lookup_empty in Hx. Qed.

Lemma low_degree (d : lsdb) a : (forall p t, tcs d !! p = Some t -> degree t <? 1000 = true) ->
  forall tc t, kt_find (tc_tree d) a = Some tc -> tcs d !! tc = Some t -> 2 + degree t < 4294967296.
Proof. intros H tc t _ Ht. specialize (H tc t Ht). bool_hyps. lia. Qed.

Lemma registered_run validate m_addr adr vtime st :
  net_wf st -> mid_wf st -> lsdb_wf (db st) -> validate adr = true -> mid_addresses st = ∅ ->
  (forall p t, tcs (db st) !! p = Some t -> degree t <? 1000 = true) ->
  (forall p n, nbrs st !! p = Some n -> negb (neighbor_main_addr n =? adr) = true) ->
  let st' := run (insert_mid_alias validate m_addr adr vtime) st in
  net_wf st' /\ mid_wf st' /\ lsdb_wf (db st') /\ registered st' adr m_addr.
Proof.
  intros Hnet Hwf Hdb Hval Hmid Hdeg Hno. apply (run_ok _ (fun st' => net_wf st' /\ mid_wf st' /\ lsdb_wf (db st') /\ registered st' adr m_addr)).
  unfold insert_mid_alias. rewrite Hval. cbn [negb].
  assert (forall p n, nbrs st !! p = Some n -> neighbor_main_addr n <> adr) as Hno'.
  { intros p n Hp. specialize (Hno p n Hp). by apply negb_true_iff, Z.eqb_neq in Hno. }
  wp_step. eapply wp_lookup_alias; [apply Hnet|intros p n Hp Hn; by destruct (Hno' p n Hp)|]. intros _. wp_step. wp_step. wp_step.
  eapply wp_mono; [apply wp_insert_mid_tuple; try done; [intros m; by apply no_mid_registered|by apply low_degree|]|].
  - intros a p n [-> |Hr]; [apply Hno'|]. by apply no_mid_registered in Hr.
  - cbv beta. intros r st' (_ & H1 & H2 & H3 & H4). wp_steps. destruct H1 as [H1 H1'].
    destruct (mid_same_wf st' (set_changes_topology true (set_changes_neighborhood true st'))) as [H5 H6]; [done|done|].
    split; [split; [by apply (nbr_wf_frame _ st')|by apply (link_wf_ext st')]|]. split; [exact H5|]. split; [exact H3|]. apply H6, H4. by right.
Qed.

End mid_spec.

(** ** Witnesses *)
Section mid_witnesses.
#[local] Existing Instance sample_cnf.
#[local] Existing Instance sample_lq.

Lemma lk1_db : lsdb_wf (db lk1).
Proof. assert (db lk1 = db lk0) as -> by (vm_compute; reflexivity). exact lk0_db. Qed.

Lemma lk1_mid : mid_wf lk1.
Proof. apply no_mid_wf; vm_compute; reflexivity. Qed.

(** 200 is a neighbour; its second address is 300. *)
Lemma insert_mid_alias_correct_witness :
  wp (insert_mid_alias (fun _ => true) 200 300 9000) (fun _ st' => mid_wf st' /\ registered st' 300 200) lk1.
Proof.
  eapply wp_mono; [refine (insert_mid_alias_correct (fun _ => true) 200 300 9000 lk1 lk1_wf lk1_mid lk1_db _ _ _)|].
  - intros m. apply no_mid_registered. vm_compute. reflexivity.
  - apply low_degree, heap_forall. vm_compute. reflexivity.
  - assert (forall p n, nbrs lk1 !! p = Some n -> negb (neighbor_main_addr n =? 300) = true) as H
      by (apply (heap_forall (fun _ n => negb (neighbor_main_addr n =? 300))); vm_compute; reflexivity).
    intros a p n [-> |Hr].
    + intros Hp E. specialize (H p n Hp). rewrite E in H. discriminate H.
    + destruct (no_mid_registered lk1 a 200); [vm_compute; reflexivity|exact Hr].
  - intros _ st' (_ & H1 & _ & _ & _ & H2). split; [exact H1|]. apply H2. right. split; reflexivity.
Defined.

Definition md1 : olsr_state := run (insert_mid_alias (fun _ => true) 200 300 9000) lk1.

Lemma md1_wf : net_wf md1 /\ mid_wf md1 /\ lsdb_wf (db md1) /\ registered md1 300 200.
Proof.
  apply registered_run; [exact lk1_wf|exact lk1_mid|exact lk1_db|reflexivity|vm_compute; reflexivity|apply heap_forall; vm_compute; reflexivity|].
  apply (heap_forall (fun _ n => negb (neighbor_main_addr n =? 300))). vm_compute. reflexivity.
Qed.

(** 200 now declares 301 only. *)
Definition mid_of_301 : mid_message := {| mid_msg_vtime := 9000; mid_origaddr := 200; mid_seqno := 2; mid_addr := [301] |}.

Lemma olsr_prune_aliases_correct_witness :
  wp (olsr_prune_aliases mid_of_301) (fun _ st' => mid_wf st' /\ ~ registered st' 300 200) md1.
Proof.
  destruct md1_wf as (_ & H1 & H2 & _).
  eapply wp_mono; [exact (olsr_prune_aliases_correct mid_of_301 md1 H1 H2)|].
  intros _ st' (K1 & _ & _ & K2). split; [exact K1|]. intros H. apply K2 in H as [_ H]. destruct (H eq_refl) as [Hin|(_ & q & x & Hx & _ & Ht)].
  - apply list_elem_of_singleton in Hin. discriminate Hin.
  - assert (forall q x, mid_addresses md1 !! q = Some x -> olsr_isTimedOut (now_times md1) (mid_vtime x) = true) as Ha
      by (apply (heap_forall (fun _ x => olsr_isTimedOut (now_times md1) (mid_vtime x))); vm_compute; reflexivity).
    rewrite (Ha q x Hx) in Ht. discriminate Ht.
Defined.

Lemma olsr_cleanup_mid_correct_witness :
  wp (olsr_cleanup_mid 200) (fun _ st' => mid_wf st' /\ ~ registered st' 300 200) md1.
Proof.
  destruct md1_wf as (_ & H1 & H2 & _). eapply wp_mono; [exact (olsr_cleanup_mid_correct 200 md1 H1 H2)|].
  intros _ st' (K1 & _ & _ & K2). split; [exact K1|]. intros H. apply K2 in H as [_ H]. destruct (H eq_refl).
Defined.

(** 200 declares its main address. *)
Lemma insert_mid_alias_own_address_dangles_witness :
  wp (insert_mid_alias (fun _ => true) 200 200 9000) (fun _ st' =>
    exists l', links st' !! 2%positive = Some l' /\ nbrs st' !! link_neighbor l' = None) lk1.
Proof.
  assert (exists n, nbrs lk1 !! 2%positive = Some n /\ neighbor_main_addr n = 200) as (n & Hn & En)
    by (eexists; split; vm_compute; reflexivity).
  assert (exists l, links lk1 !! 2%positive = Some l /\ link_neighbor l = 2%positive) as (l & Hl & El)
    by (eexists; split; vm_compute; reflexivity).
  eapply wp_mono; [refine (insert_mid_alias_own_address_dangles (fun _ => true) 200 9000 lk1 2 n lk1_wf lk1_mid lk1_db eq_refl _ _ _ Hn En)|].
  - intros m. apply no_mid_registered. vm_compute. reflexivity.
  - assert (mid_entries lk1 = ∅) as E by (vm_compute; reflexivity). intros q e He. rewrite E, lookup_empty in He. discriminate He.
  - apply low_degree, heap_forall. vm_compute. reflexivity.
  - intros _ st' (new & Hnew & Hlinks). destruct (Hlinks _ _ Hl El) as (l' & Hl' & <-). exists l'. split; [exact Hl'|exact Hnew].
Defined.

End mid_witnesses.
