(* ===== verification/Changes.v ===== *)
(** * olsr.c: reacting to changes

    The functions that plugins register for changes are arguments. The debug output
    and [changes_force], which is reset here and read nowhere, are left out. *)

From S2P Require Import Prelude Timer IpAddr State Interfaces NeighTable Mpr LsdbOps Lq LinkSet Rib Spf RouteCalc LqMpr.

Section changes.
Context {cnf : olsrd_config} {lqh : lq_handler} {krn : kernel_routes}.

(** [int (int, int, int)]; the result is not used. *)
Definition pcf : Type := bool -> bool -> bool -> OM unit.

(** The last function registered is called first. *)
Definition register_pcf (f : pcf) (pcf_list : list pcf) : list pcf := f :: pcf_list.

Definition call_pcf (f : pcf) : OM unit :=
  let* n := gets changes_neighborhood in
  let* t := gets changes_topology in
  let* h := gets changes_hna in
  f n t h.

Definition olsr_process_changes (pcf_list : list pcf) : OM unit :=
  let* n := gets changes_neighborhood in
  let* t := gets changes_topology in
  let* h := gets changes_hna in
  if negb n && negb t && negb h then ret tt
  else
    do* when n (if lq_level <? 1 then olsr_calculate_mpr else olsr_calculate_lq_mpr) in
    let* n := gets changes_neighborhood in
    let* t := gets changes_topology in
    let* h := gets changes_hna in
    do* when (n || t || h) (olsr_calculate_routing_table false) in
    do* forM_ pcf_list call_pcf in
    do* modify (set_changes_neighborhood false) in
    do* modify (set_changes_topology false) in
    modify (set_changes_hna false).

End changes.
