(* ===== verification/HelloTap.v ===== *)
(** * process_package.c: a HELLO message arrives

    [validate] is [olsr_validate_address], [pcf_list] the functions to call after
    changes. *)

From S2P Require Import Prelude Timer IpAddr State MidLookup Interfaces NeighTable HelloTwoHop Packet LsdbOps Lq Hysteresis LinkSet Rib RouteCalc.
From S2P Require Import MprSel MidSet Hello Changes.

Section hello_tap.
Context {cnf : olsrd_config} {lqh : lq_handler} {krn : kernel_routes}.

(** The sender's interface address becomes an alias of its main address. *)
Definition learn_alias (validate : ip_addr -> bool) (message : hello_message) (from_addr : ip_addr) : OM unit :=
  when (negb (ipequal ip_version (hello_source_addr message) from_addr) && validate from_addr)
    (let* main_addr := mid_lookup_main_addr from_addr in
     when (match main_addr with None => true | Some m => ipequal ip_version (hello_source_addr message) m end)
       (insert_mid_alias validate (hello_source_addr message) from_addr (hello_vtime message))).

(** The quality of the link as the neighbour sees it, and the HELLO that was not lost. *)
Definition update_link_quality (lnk : positive) (message : hello_message) (in_if : interface_olsr) : OM unit :=
  do* olsr_update_packet_loss_hello_int lnk (hello_htime message) in
  do* match find (fun w => ipequal ip_version (hn_address w) (if_ip_addr in_if)) (hello_neighbors message) with
      | Some w => olsr_memorize_foreign_hello_lq lnk (if negb (hn_link w =? UNSPEC_LINK) then Some w else None)
      | None => ret tt
      end in
  olsr_received_hello_handler lnk.

Definition update_willingness (neighbor : positive) (will : Z) : OM unit :=
  let* n := get_nbr neighbor in
  when (negb (willingness n =? will))
    (do* upd_nbr neighbor (set_willingness will) in
     do* modify (set_changes_neighborhood true) in
     modify (set_changes_topology true)).

(** Everything but the recalculation. *)
Definition hello_update (validate : ip_addr -> bool) (message : hello_message) (in_if : interface_olsr) (from_addr : ip_addr)
  : OM positive :=
  let* lnk := update_link_entry (if_ip_addr in_if) from_addr message in_if in
  do* learn_alias validate message from_addr in
  do* when (lq_level >? 0) (update_link_quality lnk message in_if) in
  let* l := get_link lnk in
  let neighbor := link_neighbor l in
  do* when use_hysteresis (olsr_update_hysteresis_hello lnk (hello_htime message)) in
  do* when (lookup_mpr_status message in_if)
    (let* _ := olsr_update_mprs_set (hello_source_addr message) (hello_vtime message) in ret tt) in
  do* update_willingness neighbor (hello_willingness message) in
  let* n := get_nbr neighbor in
  do* when (negb (willingness n =? WILL_NEVER)) (process_message_neighbors neighbor message) in
  ret lnk.

Definition olsr_hello_tap (validate : ip_addr -> bool) (pcf_list : list pcf) (message : hello_message)
    (in_if : interface_olsr) (from_addr : ip_addr) : OM unit :=
  let* _ := hello_update validate message in_if from_addr in
  olsr_process_changes pcf_list.

(** HELLO messages are never forwarded. *)
Definition olsr_input_hello (validate : ip_addr -> bool) (pcf_list : list pcf) (ser : list Z)
    (inif : interface_olsr) (from : ip_addr) : OM bool :=
  let* r := gets_opt (fun _ => deserialize_hello ser) in
  match r with
  | None => ret false
  | Some hello => do* olsr_hello_tap validate pcf_list hello inif from in ret false
  end.

End hello_tap.
