(* ===== verification/Node.v ===== *)
(** * The whole node

    The tables of State.v together with the state of the components that work on
    more than them: the duplicate set (DupSet.v), the host and network associations
    (hna_set.h), the output side of the interfaces (interfaces.h), the addresses
    that are not to be used (net_olsr.c) and the packets that were sent. *)

From S2P Require Import Prelude Timer Avl IpAddr KeyTree DupSet State.

(** Further fields of [struct olsrd_config], [float]s. *)
Class node_config := {
  min_tc_vtime : spec_float;
  max_jitter : spec_float;
  max_tc_vtime : spec_float;
  lq_fish : Z;
}.

(** A network behind a gateway; the pointers [next] and [prev] are the place in the
    list of its gateway. *)
Record hna_net := {
  hna_prefix : olsr_ip_prefix;
  hna_net_timer : option timer_entry;
  hna_gw : positive;
}.

Record hna_entry := {
  A_gateway_addr : ip_addr;
  networks : list positive;
}.

(** The bytes of the buffer, [None] before it is allocated. *)
Record olsr_netbuf := {
  buff : option (list Z);
  bufsize : Z;
  maxsize : Z;
  pending : Z;
  reserved : Z;
}.

(** The validity times of the messages, in their encoding. *)
Record vtimes := {
  vt_hello : Z;
  vt_tc : Z;
  vt_mid : Z;
  vt_hna : Z;
}.

(** The fields of [struct interface_olsr] that sending uses, next to those of State.v. *)
Record out_interface := {
  out_if : interface_olsr;
  int_mode : Z;
  int_mtu : Z;
  olsr_seqnum : Z;
  hello_etime : Z;
  valtimes : vtimes;
  fwdtimer : Z;
  sgw_sgw_zero_bw_timeout : Z;
  netbuf : olsr_netbuf;
  ttl_index : Z;
  immediate_send_tc : bool;
}.

(** [outs] is the list [ifnet] with the output side; an interface is identified by its
    place in it. [prev_empty] is a static variable of [olsr_output_lq_tc]. [sent] lists what was handed to [olsr_sendto], the last packet first. *)
Record node := {
  core : olsr_state;
  dups : dup_state (avl_tree ip_addr);
  hna_entries : gmap positive hna_entry;
  hna_nets : gmap positive hna_net;
  hna_set : list (list positive);
  own_hna : list olsr_ip_prefix;        (* olsr_cnf->hna_entries *)
  deny_entries : list ip_addr;
  outs : list out_interface;
  own_willingness : Z;                  (* olsr_cnf->willingness, which may change at run time *)
  message_seqno : Z;
  send_empty_tc : Z;
  sending_tc : bool;
  prev_empty : Z;
  lq_tc_pending : bool;
  sent : list (nat * list Z);
}.

(** ** Field updates *)

Definition set_hna_net_timer (x : option timer_entry) (s : hna_net) : hna_net :=
  {| hna_prefix := hna_prefix s; hna_net_timer := x; hna_gw := hna_gw s |}.

Definition set_networks (x : list positive) (s : hna_entry) : hna_entry :=
  {| A_gateway_addr := A_gateway_addr s; networks := x |}.

Definition set_buff (x : option (list Z)) (s : olsr_netbuf) : olsr_netbuf :=
  {| buff := x; bufsize := bufsize s; maxsize := maxsize s; pending := pending s;
     reserved := reserved s |}.

Definition set_bufsize (x : Z) (s : olsr_netbuf) : olsr_netbuf :=
  {| buff := buff s; bufsize := x; maxsize := maxsize s; pending := pending s;
     reserved := reserved s |}.

Definition set_maxsize (x : Z) (s : olsr_netbuf) : olsr_netbuf :=
  {| buff := buff s; bufsize := bufsize s; maxsize := x; pending := pending s;
     reserved := reserved s |}.

Definition set_pending (x : Z) (s : olsr_netbuf) : olsr_netbuf :=
  {| buff := buff s; bufsize := bufsize s; maxsize := maxsize s; pending := x;
     reserved := reserved s |}.

Definition set_reserved (x : Z) (s : olsr_netbuf) : olsr_netbuf :=
  {| buff := buff s; bufsize := bufsize s; maxsize := maxsize s; pending := pending s;
     reserved := x |}.

Definition set_olsr_seqnum (x : Z) (s : out_interface) : out_interface :=
  {| out_if := out_if s; int_mode := int_mode s; int_mtu := int_mtu s; olsr_seqnum := x;
     hello_etime := hello_etime s; valtimes := valtimes s; fwdtimer := fwdtimer s;
     sgw_sgw_zero_bw_timeout := sgw_sgw_zero_bw_timeout s; netbuf := netbuf s;
     ttl_index := ttl_index s; immediate_send_tc := immediate_send_tc s |}.

Definition set_fwdtimer (x : Z) (s : out_interface) : out_interface :=
  {| out_if := out_if s; int_mode := int_mode s; int_mtu := int_mtu s;
     olsr_seqnum := olsr_seqnum s; hello_etime := hello_etime s; valtimes := valtimes s;
     fwdtimer := x; sgw_sgw_zero_bw_timeout := sgw_sgw_zero_bw_timeout s; netbuf := netbuf s;
     ttl_index := ttl_index s; immediate_send_tc := immediate_send_tc s |}.

Definition set_netbuf (x : olsr_netbuf) (s : out_interface) : out_interface :=
  {| out_if := out_if s; int_mode := int_mode s; int_mtu := int_mtu s;
     olsr_seqnum := olsr_seqnum s; hello_etime := hello_etime s; valtimes := valtimes s;
     fwdtimer := fwdtimer s; sgw_sgw_zero_bw_timeout := sgw_sgw_zero_bw_timeout s;
     netbuf := x; ttl_index := ttl_index s; immediate_send_tc := immediate_send_tc s |}.

Definition set_ttl_index (x : Z) (s : out_interface) : out_interface :=
  {| out_if := out_if s; int_mode := int_mode s; int_mtu := int_mtu s;
     olsr_seqnum := olsr_seqnum s; hello_etime := hello_etime s; valtimes := valtimes s;
     fwdtimer := fwdtimer s; sgw_sgw_zero_bw_timeout := sgw_sgw_zero_bw_timeout s;
     netbuf := netbuf s; ttl_index := x; immediate_send_tc := immediate_send_tc s |}.

Definition set_core (x : olsr_state) (s : node) : node :=
  {| core := x; dups := dups s; hna_entries := hna_entries s; hna_nets := hna_nets s;
     hna_set := hna_set s; own_hna := own_hna s; deny_entries := deny_entries s;
     outs := outs s; own_willingness := own_willingness s; message_seqno := message_seqno s;
     send_empty_tc := send_empty_tc s; sending_tc := sending_tc s; prev_empty := prev_empty s;
     lq_tc_pending := lq_tc_pending s; sent := sent s |}.

Definition set_dups (x : dup_state (avl_tree ip_addr)) (s : node) : node :=
  {| core := core s; dups := x; hna_entries := hna_entries s; hna_nets := hna_nets s;
     hna_set := hna_set s; own_hna := own_hna s; deny_entries := deny_entries s;
     outs := outs s; own_willingness := own_willingness s; message_seqno := message_seqno s;
     send_empty_tc := send_empty_tc s; sending_tc := sending_tc s; prev_empty := prev_empty s;
     lq_tc_pending := lq_tc_pending s; sent := sent s |}.

Definition set_hna_entries (x : gmap positive hna_entry) (s : node) : node :=
  {| core := core s; dups := dups s; hna_entries := x; hna_nets := hna_nets s;
     hna_set := hna_set s; own_hna := own_hna s; deny_entries := deny_entries s;
     outs := outs s; own_willingness := own_willingness s; message_seqno := message_seqno s;
     send_empty_tc := send_empty_tc s; sending_tc := sending_tc s; prev_empty := prev_empty s;
     lq_tc_pending := lq_tc_pending s; sent := sent s |}.

Definition set_hna_nets (x : gmap positive hna_net) (s : node) : node :=
  {| core := core s; dups := dups s; hna_entries := hna_entries s; hna_nets := x;
     hna_set := hna_set s; own_hna := own_hna s; deny_entries := deny_entries s;
     outs := outs s; own_willingness := own_willingness s; message_seqno := message_seqno s;
     send_empty_tc := send_empty_tc s; sending_tc := sending_tc s; prev_empty := prev_empty s;
     lq_tc_pending := lq_tc_pending s; sent := sent s |}.

Definition set_hna_set (x : list (list positive)) (s : node) : node :=
  {| core := core s; dups := dups s; hna_entries := hna_entries s; hna_nets := hna_nets s;
     hna_set := x; own_hna := own_hna s; deny_entries := deny_entries s; outs := outs s;
     own_willingness := own_willingness s; message_seqno := message_seqno s;
     send_empty_tc := send_empty_tc s; sending_tc := sending_tc s; prev_empty := prev_empty s;
     lq_tc_pending := lq_tc_pending s; sent := sent s |}.

Definition set_deny_entries (x : list ip_addr) (s : node) : node :=
  {| core := core s; dups := dups s; hna_entries := hna_entries s; hna_nets := hna_nets s;
     hna_set := hna_set s; own_hna := own_hna s; deny_entries := x; outs := outs s;
     own_willingness := own_willingness s; message_seqno := message_seqno s;
     send_empty_tc := send_empty_tc s; sending_tc := sending_tc s; prev_empty := prev_empty s;
     lq_tc_pending := lq_tc_pending s; sent := sent s |}.

Definition set_outs (x : list out_interface) (s : node) : node :=
  {| core := core s; dups := dups s; hna_entries := hna_entries s; hna_nets := hna_nets s;
     hna_set := hna_set s; own_hna := own_hna s; deny_entries := deny_entries s; outs := x;
     own_willingness := own_willingness s; message_seqno := message_seqno s;
     send_empty_tc := send_empty_tc s; sending_tc := sending_tc s; prev_empty := prev_empty s;
     lq_tc_pending := lq_tc_pending s; sent := sent s |}.

Definition set_own_willingness (x : Z) (s : node) : node :=
  {| core := core s; dups := dups s; hna_entries := hna_entries s; hna_nets := hna_nets s;
     hna_set := hna_set s; own_hna := own_hna s; deny_entries := deny_entries s;
     outs := outs s; own_willingness := x; message_seqno := message_seqno s;
     send_empty_tc := send_empty_tc s; sending_tc := sending_tc s; prev_empty := prev_empty s;
     lq_tc_pending := lq_tc_pending s; sent := sent s |}.

Definition set_message_seqno (x : Z) (s : node) : node :=
  {| core := core s; dups := dups s; hna_entries := hna_entries s; hna_nets := hna_nets s;
     hna_set := hna_set s; own_hna := own_hna s; deny_entries := deny_entries s;
     outs := outs s; own_willingness := own_willingness s; message_seqno := x;
     send_empty_tc := send_empty_tc s; sending_tc := sending_tc s; prev_empty := prev_empty s;
     lq_tc_pending := lq_tc_pending s; sent := sent s |}.

Definition set_send_empty_tc (x : Z) (s : node) : node :=
  {| core := core s; dups := dups s; hna_entries := hna_entries s; hna_nets := hna_nets s;
     hna_set := hna_set s; own_hna := own_hna s; deny_entries := deny_entries s;
     outs := outs s; own_willingness := own_willingness s; message_seqno := message_seqno s;
     send_empty_tc := x; sending_tc := sending_tc s; prev_empty := prev_empty s;
     lq_tc_pending := lq_tc_pending s; sent := sent s |}.

Definition set_sending_tc (x : bool) (s : node) : node :=
  {| core := core s; dups := dups s; hna_entries := hna_entries s; hna_nets := hna_nets s;
     hna_set := hna_set s; own_hna := own_hna s; deny_entries := deny_entries s;
     outs := outs s; own_willingness := own_willingness s; message_seqno := message_seqno s;
     send_empty_tc := send_empty_tc s; sending_tc := x; prev_empty := prev_empty s;
     lq_tc_pending := lq_tc_pending s; sent := sent s |}.

Definition set_prev_empty (x : Z) (s : node) : node :=
  {| core := core s; dups := dups s; hna_entries := hna_entries s; hna_nets := hna_nets s;
     hna_set := hna_set s; own_hna := own_hna s; deny_entries := deny_entries s;
     outs := outs s; own_willingness := own_willingness s; message_seqno := message_seqno s;
     send_empty_tc := send_empty_tc s; sending_tc := sending_tc s; prev_empty := x;
     lq_tc_pending := lq_tc_pending s; sent := sent s |}.

Definition set_lq_tc_pending (x : bool) (s : node) : node :=
  {| core := core s; dups := dups s; hna_entries := hna_entries s; hna_nets := hna_nets s;
     hna_set := hna_set s; own_hna := own_hna s; deny_entries := deny_entries s;
     outs := outs s; own_willingness := own_willingness s; message_seqno := message_seqno s;
     send_empty_tc := send_empty_tc s; sending_tc := sending_tc s; prev_empty := prev_empty s;
     lq_tc_pending := x; sent := sent s |}.

Definition set_sent (x : list (nat * list Z)) (s : node) : node :=
  {| core := core s; dups := dups s; hna_entries := hna_entries s; hna_nets := hna_nets s;
     hna_set := hna_set s; own_hna := own_hna s; deny_entries := deny_entries s;
     outs := outs s; own_willingness := own_willingness s; message_seqno := message_seqno s;
     send_empty_tc := send_empty_tc s; sending_tc := sending_tc s; prev_empty := prev_empty s;
     lq_tc_pending := lq_tc_pending s; sent := x |}.

(** ** Computations on the node *)

Notation NM := (M node).

(** A computation on the tables. *)
Definition lift {A} (m : OM A) : NM A := fun n =>
  match m (core n) with Some (a, st) => Some (a, set_core st n) | None => None end.

Lemma wp_lift {A} (m : OM A) (Q : A -> node -> Prop) n :
  wp m (fun a st => Q a (set_core st n)) (core n) -> wp (lift m) Q n.
Proof. unfold wp, lift. by destruct (m (core n)) as [[a st]|]. Qed.
