(* ===== verification/NetOlsr.v ===== *)
(** * net_olsr.c: addresses that are refused, and the output buffers

    The conversion of the default addresses from text and the calls of [sendto] are
    left out: what would be sent is noted in [sent]. A write to a buffer that is not
    allocated or past its end is [None]. *)

From S2P Require Import Prelude Timer IpAddr State Packet Node.

Section net_olsr.
Context {cnf : olsrd_config}.

(** ** Refused addresses *)

Definition olsr_add_invalid_address (adr : ip_addr) : NM unit := modify (fun n => set_deny_entries (adr :: deny_entries n) n).

(** The last test of the loop compares pointers that are never equal. *)
Definition olsr_validate_address (deny : list ip_addr) (adr : ip_addr) : bool :=
  negb (existsb (fun entry => ipequal ip_version adr entry) deny).

(** ** Buffers *)

Definition OLSR_HEADERSIZE : Z := 4.

Definition get_out (i : nat) : NM out_interface := gets_opt (fun n => outs n !! i).
Definition upd_out (i : nat) (f : out_interface -> out_interface) : NM unit :=
  let* o := get_out i in modify (fun n => set_outs (<[i := f o]> (outs n)) n).

(** A new buffer holds arbitrary bytes; [fresh] stands for them. *)
Definition add_buffer (fresh : list Z) (mtu : Z) (b : olsr_netbuf) : olsr_netbuf :=
  let old := if negb (bufsize b =? mtu) then None else buff b in
  {| buff := Some (match old with Some l => l | None => fresh end);
     bufsize := mtu; maxsize := mtu - OLSR_HEADERSIZE; pending := 0; reserved := 0 |}.
Definition net_add_buffer (fresh : list Z) (i : nat) : NM Z :=
  do* upd_out i (fun o => set_netbuf (add_buffer fresh (int_mtu o) (netbuf o)) o) in ret 0.

Definition reserve_bufspace (size : Z) (b : olsr_netbuf) : Z * olsr_netbuf :=
  if size >? maxsize b then (-1, b) else (0, set_maxsize (maxsize b - size) (set_reserved size b)).
Definition net_reserve_bufspace (i : nat) (size : Z) : NM Z :=
  let* o := get_out i in
  let '(r, b) := reserve_bufspace size (netbuf o) in
  do* upd_out i (set_netbuf b) in ret r.

Definition net_output_pending (i : nat) : NM Z := let* o := get_out i in ret (u16 (pending (netbuf o))).

(** [memcpy(&buf[pos], data, size)] *)
Definition write_bytes (buf : list Z) (pos : Z) (data : list Z) : option (list Z) :=
  if (pos <? 0) || (Z.of_nat (length buf) <? pos + Z.of_nat (length data)) then None
  else Some (take (Z.to_nat pos) buf ++ data ++ drop (Z.to_nat pos + length data) buf).

(** The first [size] bytes of [data] into a buffer with room for [room]. *)
Definition buffer_push (room : Z) (data : list Z) (size : Z) (b : olsr_netbuf) : option (Z * olsr_netbuf) :=
  if pending b + size >? room then Some (0, b)
  else if Z.of_nat (length data) <? size then None
  else
    l ← buff b;
    l ← write_bytes l (pending b + OLSR_HEADERSIZE) (take (Z.to_nat size) data);
    Some (size, set_pending (pending b + size) (set_buff (Some l) b)).

Definition outbuffer_push (room : olsr_netbuf -> Z) (i : nat) (data : list Z) (size : Z) : NM Z :=
  let* o := get_out i in
  let* r := gets_opt (fun _ => buffer_push (room (netbuf o)) data size (netbuf o)) in
  let '(pushed, b) := r in
  do* upd_out i (set_netbuf b) in ret pushed.

Definition net_outbuffer_push : nat -> list Z -> Z -> NM Z := outbuffer_push maxsize.
Definition net_outbuffer_push_reserved : nat -> list Z -> Z -> NM Z := outbuffer_push (fun b => maxsize b + reserved b).

Definition net_outbuffer_bytes_left (i : nat) : NM Z :=
  let* o := get_out i in
  let MAX_REMAINING := 1280 - 40 - 8 - 4 in
  let remaining := maxsize (netbuf o) - pending (netbuf o) in
  ret (if remaining >? MAX_REMAINING then MAX_REMAINING else remaining).

(** ** Sending *)

(** Functions that transform a packet before it is sent, the last one added first. *)
Definition packet_transform_function : Type := list Z -> list Z.

Fixpoint del_ptf {F} `{EqDecision F} (f : F) (ptf_list : list F) : bool * list F :=
  match ptf_list with
  | [] => (false, [])
  | g :: l => if bool_decide (g = f) then (true, l) else let '(r, l) := del_ptf f l in (r, g :: l)
  end.
Definition add_ptf {F} (f : F) (ptf_list : list F) : list F := f :: ptf_list.

(** The packet in the buffer: its length and sequence number in network order in front
    of the pending bytes. *)
Definition packet_bytes (seqnum : Z) (b : olsr_netbuf) : option (list Z) :=
  l ← buff b;
  l ← write_bytes l 2 (pkt_put_u16 [] seqnum);
  l ← write_bytes l 0 (pkt_put_u16 [] (pending b + OLSR_HEADERSIZE));
  Some l.

(** The functions get the bytes that are pending, header included. The result is what
    would be returned if sending succeeds. *)
Definition net_output (ptf_list : list packet_transform_function) (i : nat) : NM Z :=
  let* o := get_out i in
  if pending (netbuf o) =? 0 then ret 0
  else
    let* l := gets_opt (fun _ => packet_bytes (olsr_seqnum o) (netbuf o)) in
    let retval := pending (netbuf o) + OLSR_HEADERSIZE in
    let packet := fold_left (fun p f => f p) ptf_list (take (Z.to_nat retval) l) in
    do* upd_out i (fun o => set_olsr_seqnum (u16 (olsr_seqnum o + 1)) (set_netbuf (set_pending 0 (set_buff (Some l) (netbuf o))) o)) in
    do* modify (fun n => set_sent ((i, packet) :: sent n) n) in
    do* modify (set_lq_tc_pending false) in
    ret retval.

Definition net_remove_buffer (ptf_list : list packet_transform_function) (i : nat) : NM Z :=
  let* o := get_out i in
  do* when (negb (pending (netbuf o) =? 0)) (let* _ := net_output ptf_list i in ret tt) in
  do* upd_out i (fun o => set_netbuf (set_buff None (netbuf o)) o) in
  ret 0.

End net_olsr.
