(* ===== verification/Hna.v ===== *)
(** * hna_set.c: the networks that other nodes announce

    The functions of a build without gateway support. An entry of the hash table is a
    gateway, its networks are a list of pointers to [hna_net] objects, which point
    back at the gateway. *)

From S2P Require Import Prelude Timer Avl IpAddr KeyTree DupSet State NeighTable MidLookup Interfaces Packet LsdbOps Lq RouteTable TcSet LinkSet Node.

Definition OLSR_HNA_NET_JITTER : Z := 5.
Definition HNA_MESSAGE : Z := 4.

Section hna_set.
Context {cnf : olsrd_config} {lqh : lq_handler}.

(** ** Reads and writes through pointers *)

Definition get_hna_net (q : positive) : NM hna_net := gets_opt (fun n => hna_nets n !! q).
Definition get_hna_entry (p : positive) : NM hna_entry := gets_opt (fun n => hna_entries n !! p).
Definition upd_hna_net (q : positive) (f : hna_net -> hna_net) : NM unit :=
  let* x := get_hna_net q in modify (fun n => set_hna_nets (<[q := f x]> (hna_nets n)) n).
Definition upd_hna_entry (p : positive) (f : hna_entry -> hna_entry) : NM unit :=
  let* e := get_hna_entry p in modify (fun n => set_hna_entries (<[p := f e]> (hna_entries n)) n).
Definition free_hna_net (q : positive) : NM unit :=
  let* _ := get_hna_net q in modify (fun n => set_hna_nets (delete q (hna_nets n)) n).
Definition free_hna_entry (p : positive) : NM unit :=
  let* _ := get_hna_entry p in modify (fun n => set_hna_entries (delete p (hna_entries n)) n).

(** ** Operations *)

Definition olsr_init_hna_set : NM Z :=
  do* modify (set_hna_set (replicate (Z.to_nat HASHSIZE) [])) in ret 1.

(** Among the networks [nets] of a gateway. *)
Definition olsr_lookup_hna_net (nets : list positive) (net : ip_addr) (prefixlen : Z) : NM (option positive) :=
  gets_opt (fun n => findM (fun q => x ← hna_nets n !! q;
    Some ((prefix_len (hna_prefix x) =? prefixlen) && ipequal ip_version (prefix (hna_prefix x)) net)) nets).

Definition olsr_lookup_hna_gw (gw : ip_addr) : NM (option positive) :=
  gets_opt (fun n => findM (fun p => e ← hna_entries n !! p; Some (ipequal ip_version (A_gateway_addr e) gw))
    (bucket (hna_set n) (olsr_ip_hashing ip_version gw))).

Definition olsr_add_hna_entry (addr : ip_addr) : NM positive :=
  let* p := gets (fun n => alloc (hna_entries n)) in
  do* modify (fun n => set_hna_entries (<[p := {| A_gateway_addr := addr; networks := [] |}]> (hna_entries n)) n) in
  do* modify (fun n => set_hna_set (QUEUE_ELEM (hashing addr) p (hna_set n)) n) in
  ret p.

Definition olsr_add_hna_net (gw : positive) (net : ip_addr) (prefixlen : Z) : NM positive :=
  let* q := gets (fun n => alloc (hna_nets n)) in
  do* modify (fun n => set_hna_nets (<[q := {| hna_prefix := {| prefix := net; prefix_len := prefixlen |};
    hna_net_timer := None; hna_gw := gw |}]> (hna_nets n)) n) in
  do* upd_hna_entry gw (fun e => set_networks (q :: networks e) e) in
  ret q.

(** Whether the gateway is gone too. *)
Definition olsr_delete_hna_net_entry (net_to_delete : positive) : NM bool :=
  do* upd_hna_net net_to_delete (set_hna_net_timer None) in
  let* x := get_hna_net net_to_delete in
  let gw := hna_gw x in
  let* e := get_hna_entry gw in
  do* lift (olsr_delete_routing_table (prefix (hna_prefix x)) (prefix_len (hna_prefix x)) (A_gateway_addr e)) in
  do* upd_hna_entry gw (fun e => set_networks (filter (fun q => q <> net_to_delete) (networks e)) e) in
  let* e := get_hna_entry gw in
  let* removed_entry :=
    match networks e with
    | [] =>
        do* modify (fun n => set_hna_set (DEQUEUE_ELEM gw (hna_set n)) n) in
        do* free_hna_entry gw in
        ret true
    | _ => ret false
    end in
  do* free_hna_net net_to_delete in
  ret removed_entry.

Definition olsr_expire_hna_net_entry (context : positive) : NM unit :=
  let* _ := olsr_delete_hna_net_entry context in ret tt.

(** [while (!olsr_delete_hna_net_entry(hna->networks.next));] *)
Fixpoint delete_networks (fuel : nat) (p : positive) : NM unit :=
  match fuel with
  | O => crash
  | S fuel =>
      let* e := get_hna_entry p in
      match networks e with
      | [] => crash                  (* the head of the list is not a network *)
      | q :: _ =>
          let* gone := olsr_delete_hna_net_entry q in
          if gone then ret tt else delete_networks fuel p
      end
  end.

Definition olsr_cleanup_hna (orig : ip_addr) : NM unit :=
  let* ps := gets (fun n => all_elems (hna_set n)) in
  forM_ ps (fun p =>
    let* e := get_hna_entry p in
    when (negb (bool_decide (networks e = [])) && ipequal ip_version (A_gateway_addr e) orig)
      (delete_networks (S (length (networks e))) p)).

Definition olsr_update_hna_entry (gw net : ip_addr) (prefixlen vtime : Z) : NM unit :=
  let* found := olsr_lookup_hna_gw gw in
  let* p := match found with Some p => ret p | None => olsr_add_hna_entry gw end in
  let* e := get_hna_entry p in
  let* net_entry := olsr_lookup_hna_net (networks e) net prefixlen in
  let* q := match net_entry with
            | Some q => ret q
            | None =>
                let* q := olsr_add_hna_net p net prefixlen in
                do* lift (modify (set_changes_hna true)) in
                ret q
            end in
  let* x := get_hna_net q in
  let* e := get_hna_entry p in
  let* _ := lift (olsr_insert_routing_table (prefix (hna_prefix x)) (prefix_len (hna_prefix x)) (A_gateway_addr e)
                    OLSR_RT_ORIGIN_HNA) in
  let* t := lift (olsr_set_timer (hna_net_timer x) vtime OLSR_HNA_NET_JITTER OLSR_TIMER_ONESHOT) in
  upd_hna_net q (set_hna_net_timer t).

(** ** An announcement *)

Definition ip_prefix_list_find (list : list olsr_ip_prefix) (net : ip_addr) (prefixlen : Z) : bool :=
  existsb (fun h => (prefixlen =? prefix_len h) && ipequal ip_version net (prefix h)) list.

(** An own address is reported to the duplicate handlers, which are not modelled. *)
Definition input_network (originator net : ip_addr) (prefixlen vtime : Z) : NM unit :=
  let* ifs := gets (fun n => ifnet (core n)) in
  let* own := gets own_hna in
  if existsb (fun i => ipequal ip_version (if_ip_addr i) net) ifs then ret tt
  else if ip_prefix_list_find own net prefixlen then ret tt
  else olsr_update_hna_entry originator net prefixlen vtime.

(** The networks in [size] bytes; [curr] is the rest of the packet. *)
Fixpoint input_networks (fuel : nat) (originator : ip_addr) (vtime : Z) (curr : list Z) (size : Z) : NM unit :=
  if size <=? 0 then ret tt
  else
    match fuel with
    | O => crash
    | S fuel =>
        let* r := gets_opt (fun _ => '(net, curr) ← pkt_get_ipaddress curr; '(len, curr) ← pkt_get_prefixlen curr;
                                     Some (net, len, curr)) in
        let '(net, len, curr) := r in
        do* input_network originator net len vtime in
        input_networks fuel originator vtime curr (size - 2 * Z.of_nat (ipsize ip_version))
    end.

Definition olsr_input_hna (m : list Z) (from_addr : ip_addr) : NM bool :=
  let* r := gets_opt (fun _ =>
    '(olsr_msgtype, curr) ← pkt_get_u8 m;
    if negb (olsr_msgtype =? HNA_MESSAGE) then Some None
    else
      '(vtime, curr) ← pkt_get_reltime curr;
      '(olsr_msgsize, curr) ← pkt_get_u16 curr;
      '(originator, curr) ← pkt_get_ipaddress curr;
      '(hop_count, curr) ← pkt_get_u8 (pkt_ignore_u8 curr);
      '(msg_seq_number, curr) ← pkt_get_u16 curr;
      Some (Some (vtime, olsr_msgsize, originator, curr))) in
  match r with
  | None => ret false
  | Some (vtime, olsr_msgsize, originator, curr) =>
      let ipsize := Z.of_nat (ipsize ip_version) in
      let hnasize := olsr_msgsize - 8 - ipsize in
      if negb (hnasize mod (2 * ipsize) =? 0) then ret false
      else
        let* s := lift (check_neighbor_link from_addr) in
        if negb (s =? SYM_LINK) then ret false
        else do* input_networks (length m) originator vtime curr hnasize in ret true
  end.

End hna_set.
