(* ===== verification/HnaProofs.v ===== *)
(** * Host and network associations: lemmas

    The set represents the relation [announced] between gateways and networks. *)

From S2P Require Import Prelude Timer Avl IpAddr KeyTree DupSet State NeighTable NeighProofs MidLookup Interfaces Packet LsdbOps Lq RouteTable TcSet LinkSet.
From S2P Require Import LsdbProofs VertexProofs LinkProofs LinkBest Node Hna.

Section hna_proofs.
Context {cnf : olsrd_config} {lqh : lq_handler}.

(** A gateway has networks, networks know their gateway, and none is there twice. *)
Record hna_wf (n : node) : Prop := {
  hw_entries : table_ok (hna_entries n) A_gateway_addr (hna_set n);
  hw_gw p q e f : hna_entries n !! p = Some e -> hna_entries n !! q = Some f -> A_gateway_addr e = A_gateway_addr f -> p = q;
  hw_owner q x : hna_nets n !! q = Some x -> exists e, hna_entries n !! hna_gw x = Some e /\ q ∈ networks e;
  hw_listed p e q : hna_entries n !! p = Some e -> q ∈ networks e -> exists x, hna_nets n !! q = Some x /\ hna_gw x = p;
  hw_nodup p e : hna_entries n !! p = Some e -> NoDup (networks e);
  hw_some p e : hna_entries n !! p = Some e -> networks e <> [];
  hw_prefix q r x y : hna_nets n !! q = Some x -> hna_nets n !! r = Some y -> hna_gw x = hna_gw y -> hna_prefix x = hna_prefix y -> q = r;
}.

(** The abstract relation. *)
Definition announced (n : node) (gw : ip_addr) (k : olsr_ip_prefix) : Prop :=
  exists q x e, hna_nets n !! q = Some x /\ hna_prefix x = k /\ hna_entries n !! hna_gw x = Some e /\ A_gateway_addr e = gw.

(** What the operations leave alone. *)
Definition hna_strip (n : node) : node :=
  set_hna_entries ∅ (set_hna_nets ∅ (set_hna_set [] (set_core (db_strip (set_random_count 0 (core n))) n))).
Definition hna_frame (n n' : node) : Prop := hna_strip n' = hna_strip n.

#[export] Instance hna_frame_equiv : Equivalence hna_frame.
Proof. unfold hna_frame. split; [by intros ?|by intros ? ?|by intros ? ? ? -> ->]. Qed.

Lemma hna_frame_core n st : db_frame (core n) st -> hna_frame n (set_core st n).
Proof.
  unfold hna_frame, hna_strip. intros E.
  assert (db_strip (set_random_count 0 st) = db_strip (set_random_count 0 (core n))) as E'.
  { unfold db_frame, db_strip in *. destruct (core n), st. simpl in *. injection E as. by subst. }
  by simpl; rewrite E'.
Qed.

Lemma wp_get_hna_net q x (Q : hna_net -> node -> Prop) n : hna_nets n !! q = Some x -> Q x n -> wp (get_hna_net q) Q n.
Proof. apply (wp_gets_opt (fun n => hna_nets n !! q)). Qed.

Lemma wp_get_hna_entry p e (Q : hna_entry -> node -> Prop) n : hna_entries n !! p = Some e -> Q e n -> wp (get_hna_entry p) Q n.
Proof. apply (wp_gets_opt (fun n => hna_entries n !! p)). Qed.

Lemma wp_upd_hna_net q f x (Q : unit -> node -> Prop) n :
  hna_nets n !! q = Some x -> Q tt (set_hna_nets (<[q := f x]> (hna_nets n)) n) -> wp (upd_hna_net q f) Q n.
Proof. intros H1 H2. unfold upd_hna_net. wp_step. eapply wp_get_hna_net; [exact H1|]. by apply wp_modify. Qed.

Lemma wp_upd_hna_entry p f e (Q : unit -> node -> Prop) n :
  hna_entries n !! p = Some e -> Q tt (set_hna_entries (<[p := f e]> (hna_entries n)) n) -> wp (upd_hna_entry p f) Q n.
Proof. intros H1 H2. unfold upd_hna_entry. wp_step. eapply wp_get_hna_entry; [exact H1|]. by apply wp_modify. Qed.

(** ** Lookups *)

Lemma hna_key_eq (k : olsr_ip_prefix) net len :
  (prefix_len k =? len) && ipequal ip_version (prefix k) net = true <-> k = {| prefix := net; prefix_len := len |}.
Proof.
  rewrite andb_true_iff, Z.eqb_eq, ipequal_eq. destruct k as [a l]. simpl. split; [by intros [-> ->]|by intros [= -> ->]].
Qed.

Lemma wp_lookup_hna_gw gw (Q : option positive -> node -> Prop) n :
  hna_wf n -> (forall p e, hna_entries n !! p = Some e -> A_gateway_addr e = gw -> Q (Some p) n) ->
  ((forall p e, hna_entries n !! p = Some e -> A_gateway_addr e <> gw) -> Q None n) ->
  wp (olsr_lookup_hna_gw gw) Q n.
Proof.
  intros Hwf HS HN. unfold olsr_lookup_hna_gw.
  destruct (findM_spec (fun p => e ← hna_entries n !! p; Some (ipequal ip_version (A_gateway_addr e) gw))
    (bucket (hna_set n) (olsr_ip_hashing ip_version gw))) as (r & Hr & Hres).
  { intros p Hp%elem_of_bucket. apply (table_alloc _ _ _ (hw_entries _ Hwf)) in Hp as [e ->]. by eexists. }
  eapply (wp_gets_opt (fun n => findM (fun p => e ← hna_entries n !! p; Some (ipequal ip_version (A_gateway_addr e) gw))
    (bucket (hna_set n) (olsr_ip_hashing ip_version gw)))); [exact Hr|]. destruct r as [p|].
  - destruct Hres as (_ & _ & _ & Hp & _). destruct (hna_entries n !! p) as [e|] eqn:Ee; [|done]. simpl in Hp.
    injection Hp as Hp%ipequal_eq. by eapply HS.
  - apply HN. intros p e He Ea. pose proof (table_bucket A_gateway_addr _ _ p e (hw_entries _ Hwf) He) as Hb. unfold hashing in Hb.
    rewrite Ea in Hb. specialize (Hres p Hb). rewrite He in Hres. simpl in Hres. by rewrite Ea, ipequal_refl in Hres.
Qed.

Lemma wp_lookup_hna_net nets net len (Q : option positive -> node -> Prop) n :
  (forall q, q ∈ nets -> is_Some (hna_nets n !! q)) ->
  (forall q x, q ∈ nets -> hna_nets n !! q = Some x -> hna_prefix x = {| prefix := net; prefix_len := len |} -> Q (Some q) n) ->
  ((forall q x, q ∈ nets -> hna_nets n !! q = Some x -> hna_prefix x <> {| prefix := net; prefix_len := len |}) -> Q None n) ->
  wp (olsr_lookup_hna_net nets net len) Q n.
Proof.
  intros Hal HS HN. unfold olsr_lookup_hna_net.
  match goal with |- wp (gets_opt (fun n => findM (@?P n) nets)) _ _ => destruct (findM_spec (P n) nets) as (r & Hr & Hres) end.
  { intros q Hq. destruct (Hal q Hq) as [x ->]. by eexists. }
  eapply wp_gets_opt; [exact Hr|]. destruct r as [q|].
  - destruct Hres as (l1 & l2 & -> & Hq & _). destruct (hna_nets n !! q) as [x|] eqn:Ex; [|done]. simpl in Hq.
    injection Hq as Hq%hna_key_eq. by eapply HS; [set_solver|..].
  - apply HN. intros q x Hq Hx E. specialize (Hres q Hq). rewrite Hx in Hres. simpl in Hres. injection Hres as Hres.
    apply not_true_iff_false in Hres. by rewrite hna_key_eq in Hres.
Qed.

(** ** Deleting a network *)

Definition rest_networks (q : positive) (e : hna_entry) : hna_entry := set_networks (filter (fun r => r <> q) (networks e)) e.

(** The last network of a gateway takes the gateway with it. *)
Lemma delete_net_wf q x e n n' :
  hna_wf n -> hna_nets n !! q = Some x -> hna_entries n !! hna_gw x = Some e ->
  hna_nets n' = delete q (hna_nets n) ->
  match networks (rest_networks q e) with
  | [] => hna_entries n' = delete (hna_gw x) (hna_entries n) /\ hna_set n' = DEQUEUE_ELEM (hna_gw x) (hna_set n)
  | _ => hna_entries n' = <[hna_gw x := rest_networks q e]> (hna_entries n) /\ hna_set n' = hna_set n
  end ->
  hna_wf n' /\ forall gw k, announced n' gw k <-> announced n gw k /\ ~ (gw = A_gateway_addr e /\ k = hna_prefix x).
Proof.
  intros Hwf Hq He E1 Hcase. set (p := hna_gw x) in *.
  assert (forall r y, hna_nets n' !! r = Some y <-> r <> q /\ hna_nets n !! r = Some y) as Hn
    by (intros r y; rewrite E1, lookup_delete_Some; naive_solver).
  assert (forall r, r ∈ networks (rest_networks q e) <-> r <> q /\ r ∈ networks e) as Hin
    by (intros r; simpl; by rewrite list_elem_of_filter).
  assert (forall p' f, hna_entries n' !! p' = Some f <-> p' <> p /\ hna_entries n !! p' = Some f \/
    p' = p /\ f = rest_networks q e /\ networks f <> []) as Hent.
  { intros p' f. destruct (networks (rest_networks q e)) as [|z l] eqn:El; destruct Hcase as [-> _].
    - rewrite lookup_delete_Some. split; [intros [? ?]; left; by split|]. intros [[? ?]|(-> & -> & Hne)]; [done|]. by rewrite El in Hne.
    - rewrite lookup_insert_Some. split.
      + intros [[<- <-]|[? ?]]; [right|left; by split]. split; [done|]. split; [done|]. by rewrite El.
      + intros [[? ?]|(-> & -> & _)]; [right; by split|by left]. }
  split.
  - split.
    + destruct (networks (rest_networks q e)); destruct Hcase as [-> ->].
      * by apply table_ok_free, Hwf.
      * by eapply table_ok_update; [apply Hwf|exact He|].
    + intros p1 p2 e1 e2 [[_ H1]|(-> & -> & _)]%Hent [[_ H2]|(-> & -> & _)]%Hent E; [| | |done];
        eapply (hw_gw _ Hwf); try done; exact E.
    + intros r y [Hr Hy]%Hn. destruct (hw_owner _ Hwf _ _ Hy) as (f & Hf & Hr').
      destruct (decide (hna_gw y = p)) as [Ep|Hp].
      * rewrite Ep in *. assert (f = e) as -> by congruence. assert (r ∈ networks (rest_networks q e)) as H by by apply Hin.
        exists (rest_networks q e). split; [|done]. apply Hent. right. split; [done|]. split; [done|]. intros E0. rewrite E0 in H. by apply not_elem_of_nil in H.
      * exists f. split; [|done]. apply Hent. left. by split.
    + intros p' f r [[Hp Hf]|(-> & -> & _)]%Hent Hr.
      * destruct (hw_listed _ Hwf _ _ _ Hf Hr) as (y & Hy & Ey). exists y. split; [|done]. apply Hn. split; [|done].
        intros ->. apply Hp. rewrite <- Ey. unfold p. congruence.
      * apply Hin in Hr as [Hr1 Hr2]. destruct (hw_listed _ Hwf _ _ _ He Hr2) as (y & Hy & Ey). exists y. split; [|done]. by apply Hn.
    + intros p' f [[_ Hf]|(-> & -> & _)]%Hent; [by eapply (hw_nodup _ Hwf)|]. simpl. apply NoDup_filter. by eapply (hw_nodup _ Hwf).
    + intros p' f [[_ Hf]|(-> & -> & H)]%Hent; [by eapply (hw_some _ Hwf)|done].
    + intros r1 r2 y1 y2 [_ H1]%Hn [_ H2]%Hn. by eapply (hw_prefix _ Hwf).
  - intros gw k. split.
    + intros (r & y & f & [Hr Hy]%Hn & <- & Hf & <-). split.
      * destruct (hw_owner _ Hwf _ _ Hy) as (f0 & Hf0 & _). exists r, y, f0. split; [done|]. split; [done|]. split; [done|].
        apply Hent in Hf as [[_ Hf]|(Ep & -> & _)]; [congruence|]. rewrite Ep in Hf0. simpl. congruence.
      * intros [Eg Ek]. apply Hr. eapply (hw_prefix _ Hwf); [exact Hy|exact Hq| |done].
        apply Hent in Hf as [[_ Hf]|(Ep & _)]; [|done]. by eapply (hw_gw _ Hwf).
    + intros [(r & y & f & Hy & <- & Hf & <-) Hne]. assert (r <> q) as Hr.
      { intros ->. assert (y = x) as -> by congruence. apply Hne. split; [|done]. unfold p in He. congruence. }
      destruct (decide (hna_gw y = p)) as [Ep|Hp].
      * rewrite Ep in *. assert (f = e) as -> by congruence. exists r, y, (rest_networks q e). split; [by apply Hn|]. split; [done|]. split; [|done].
        rewrite Ep. apply Hent. right. split; [done|]. split; [done|]. destruct (hw_owner _ Hwf _ _ Hy) as (f' & Hf' & Hr'). rewrite Ep in Hf'.
        assert (f' = e) as -> by congruence. intros E0. assert (r ∈ networks (rest_networks q e)) as H by by apply Hin. rewrite E0 in H. by apply not_elem_of_nil in H.
      * exists r, y, f. split; [by apply Hn|]. split; [done|]. split; [|done]. apply Hent. left. by split.
Qed.

Lemma wp_delete_hna_net q x e n :
  hna_wf n -> lsdb_wf (db (core n)) -> hna_nets n !! q = Some x -> hna_entries n !! hna_gw x = Some e ->
  wp (olsr_delete_hna_net_entry q) (fun gone n' => hna_wf n' /\ lsdb_wf (db (core n')) /\ hna_frame n n' /\ only_paths (db (core n)) (db (core n')) /\
    (forall gw k, announced n' gw k <-> announced n gw k /\ ~ (gw = A_gateway_addr e /\ k = hna_prefix x)) /\
    (if gone then networks (rest_networks q e) = [] else hna_entries n' !! hna_gw x = Some (rest_networks q e)) /\
    (forall p, p <> hna_gw x -> hna_entries n' !! p = hna_entries n !! p)) n.
Proof.
  intros Hwf Hdb Hq He. unfold olsr_delete_hna_net_entry. wp_step. eapply wp_upd_hna_net; [exact Hq|].
  wp_step. eapply wp_get_hna_net; [simpl; apply lookup_insert_eq|]. wp_step. eapply wp_get_hna_entry; [exact He|].
  wp_step. apply wp_lift. eapply wp_mono; [apply wp_delete_routing_table, Hdb|]. cbv beta. intros _ st (P & Hrem & _ & Est).
  assert (db_frame (core n) st) as Hf by (rewrite Est; done). assert (lsdb_wf (db st)) as Hdb' by apply Hrem. pose proof (only_paths_removed _ _ _ Hrem) as Hop. clear P Hrem Est.
  wp_step. eapply wp_upd_hna_entry; [exact He|]. wp_step. eapply wp_get_hna_entry; [simpl; apply lookup_insert_eq|].
  pose proof (delete_net_wf q x e n) as Hdel. change (set_networks _ e) with (rest_networks q e).
  destruct (networks (rest_networks q e)) as [|z l] eqn:El.
  - wp_steps. unfold free_hna_entry. wp_step. eapply wp_get_hna_entry; [simpl; apply lookup_insert_eq|]. wp_steps.
    unfold free_hna_net. wp_step. eapply wp_get_hna_net; [simpl; apply lookup_insert_eq|]. wp_steps. simpl.
    match goal with |- hna_wf ?m /\ _ => set (n' := m); destruct (Hdel n') as [K1 K2] end; try done.
    { unfold n'. simpl. by rewrite delete_insert_eq. } { unfold n'. simpl. by rewrite delete_insert_eq. }
    split; [done|]. split; [done|]. split; [by apply (hna_frame_core n st)|]. split; [done|]. split; [done|]. split; [done|].
    intros p Hp. unfold n'. simpl. rewrite delete_insert_eq. by rewrite lookup_delete_ne.
  - wp_steps. unfold free_hna_net. wp_step. eapply wp_get_hna_net; [simpl; apply lookup_insert_eq|]. wp_steps. simpl.
    match goal with |- hna_wf ?m /\ _ => set (n' := m); destruct (Hdel n') as [K1 K2] end; try done.
    { unfold n'. simpl. by rewrite delete_insert_eq. }
    split; [done|]. split; [done|]. split; [by apply (hna_frame_core n st)|]. split; [done|]. split; [done|].
    split; [apply lookup_insert_eq|]. intros p Hp. unfold n'. simpl. by rewrite lookup_insert_ne.
Qed.

(** All networks of a gateway. *)
Lemma wp_delete_networks fuel p e n :
  hna_wf n -> lsdb_wf (db (core n)) -> hna_entries n !! p = Some e -> (length (networks e) <= fuel)%nat ->
  wp (delete_networks fuel p) (fun _ n' => hna_wf n' /\ lsdb_wf (db (core n')) /\ hna_frame n n' /\ only_paths (db (core n)) (db (core n')) /\
    (forall gw k, announced n' gw k <-> announced n gw k /\ gw <> A_gateway_addr e) /\
    (forall p', p' <> p -> hna_entries n' !! p' = hna_entries n !! p')) n.
Proof.
  revert e n. induction fuel as [|fuel IH]; intros e n Hwf Hdb He Hl; simpl.
  { destruct (networks e) as [|q l] eqn:El; [by destruct (hw_some _ Hwf _ _ He)|simpl in Hl; lia]. }
  wp_step. eapply wp_get_hna_entry; [exact He|]. destruct (networks e) as [|q l] eqn:El; [by destruct (hw_some _ Hwf _ _ He)|].
  destruct (hw_listed _ Hwf _ _ q He) as (x & Hx & Ep); [rewrite El; left|].
  wp_step. eapply wp_mono; [apply (wp_delete_hna_net q x e); try done; by rewrite Ep|]. cbv beta. intros gone n1 (H1 & H2 & H3 & H0 & H4 & H5 & H6).
  rewrite Ep in *. pose proof (hw_nodup _ Hwf _ _ He) as Hnd. rewrite El in Hnd. apply NoDup_cons in Hnd as [Hnq _].
  assert (networks (rest_networks q e) = l) as Er.
  { simpl. rewrite El, filter_cons, decide_False by (intros E; by apply E). apply filter_all. intros r Hr ->. done. }
  destruct gone.
  - apply wp_ret. split; [done|]. split; [done|]. split; [done|]. split; [done|]. split; [|done]. intros gw k. rewrite H4. split; intros [Ha Hn].
    + split; [done|]. intros Eg. apply Hn. split; [done|]. destruct Ha as (r & y & f & Hy & <- & Hf & Ef).
      assert (hna_gw y = p) as Ey by (eapply (hw_gw _ Hwf); [exact Hf|exact He|congruence]). rewrite Ey in Hf.
      destruct (hw_owner _ Hwf _ _ Hy) as (f' & Hf' & Hin). rewrite Ey in Hf'. assert (f' = e) as -> by congruence.
      rewrite El, <- Er, H5 in Hin. apply elem_of_cons in Hin as [->|Hin]; [congruence|by apply not_elem_of_nil in Hin].
    + split; [done|]. intros [Eg _]. by apply Hn.
  - eapply wp_mono; [apply (IH _ _ H1 H2 H5); rewrite Er; simpl in Hl; lia|]. cbv beta. intros _ n2 (K1 & K2 & K3 & K0 & K4 & K5).
    split; [done|]. split; [done|]. split; [by etrans|]. split; [by etrans|]. split.
    + intros gw k. rewrite K4, H4. simpl. clear. naive_solver.
    + intros p' Hp'. rewrite K5 by done. by apply H6.
Qed.

Lemma wp_cleanup_hna orig n :
  hna_wf n -> lsdb_wf (db (core n)) ->
  wp (olsr_cleanup_hna orig) (fun _ n' => hna_wf n' /\ lsdb_wf (db (core n')) /\ hna_frame n n' /\ only_paths (db (core n)) (db (core n')) /\
    forall gw k, announced n' gw k <-> announced n gw k /\ gw <> orig) n.
Proof.
  intros Hwf Hdb. unfold olsr_cleanup_hna. wp_step. wp_step.
  assert (forall p, p ∈ all_elems (hna_set n) <-> is_Some (hna_entries n !! p)) as Hin by (intros p; apply (table_alloc _ _ _ (hw_entries _ Hwf))).
  pose proof (table_nodup _ _ _ (hw_entries _ Hwf)) as Hnd. revert Hin Hnd. generalize (all_elems (hna_set n)). intros ps Hin Hnd.
  apply (wp_forM _ _ (fun rest n' => exists l, ps = l ++ rest /\ hna_wf n' /\ lsdb_wf (db (core n')) /\ hna_frame n n' /\ only_paths (db (core n)) (db (core n')) /\
    (forall p, p ∈ rest -> hna_entries n' !! p = hna_entries n !! p) /\
    (forall p e, p ∈ l -> hna_entries n' !! p = Some e -> A_gateway_addr e <> orig) /\
    (forall p e, hna_entries n' !! p = Some e -> p ∈ ps) /\
    (forall gw k, gw <> orig -> announced n' gw k <-> announced n gw k))).
  - exists []. split; [done|]. split; [done|]. split; [done|]. split; [done|]. split; [done|]. split; [done|]. split; [by intros ? ? ?%not_elem_of_nil|].
    split; [|done]. intros p e He. apply Hin. by exists e.
  - intros p rest n1 (l & El & H1 & H2 & H3 & H0 & H4 & H5 & H7 & H6). rewrite El in Hnd. apply NoDup_app in Hnd as (_ & Hd & Hnd2).
    apply NoDup_cons in Hnd2 as [Hpr _]. destruct (proj1 (Hin p)) as [e He]; [rewrite El; set_solver|].
    rewrite <- H4 in He by left. wp_step. eapply wp_get_hna_entry; [exact He|].
    assert (p ∉ l) as Hpl by (intros Hp; apply (Hd p Hp); left).
    wp_step; bool_hyps.
    + match goal with H : ipequal _ _ _ = true |- _ => apply ipequal_eq in H; rename H into Eo end.
      eapply wp_mono; [by apply (wp_delete_networks _ p e); try done; lia|]. cbv beta. intros _ n2 (K1 & K2 & K3 & K0 & K4 & K5).
      exists (l ++ [p]). rewrite <- app_assoc. split; [done|]. split; [done|]. split; [done|]. split; [by etrans|]. split; [by etrans|].
      split; [|split; [|split]].
      * intros p' Hp'. rewrite K5 by (intros ->; done). apply H4. by right.
      * intros p' f [Hp'| ->%list_elem_of_singleton]%elem_of_app Hf.
        -- eapply H5; [done|]. rewrite <- K5; [done|]. intros ->. done.
        -- intros Ef. assert (networks f <> []) as Hne by by eapply (hw_some _ K1). destruct (networks f) as [|r ns] eqn:Enf; [done|].
           destruct (hw_listed _ K1 _ _ r Hf) as (y & Hy & Ey); [rewrite Enf; left|].
           assert (announced n2 orig (hna_prefix y)) as Ha by (exists r, y, f; by rewrite Ey). apply K4 in Ha as [_ Ha]. by apply Ha.
      * intros p' f Hf. destruct (decide (p' = p)) as [->|Hp']; [rewrite El; set_solver|]. rewrite K5 in Hf by done. by eapply H7.
      * intros gw k Hg. rewrite K4, H6 by done. rewrite Eo. naive_solver.
    + exists (l ++ [p]). rewrite <- app_assoc. split; [done|]. split; [done|]. split; [done|]. split; [done|]. split; [done|].
      split; [intros p' Hp'; apply H4; by right|]. split; [|by split].
      intros p' f [Hp'| ->%list_elem_of_singleton]%elem_of_app Hf; [by eapply H5|].
      assert (f = e) as -> by congruence. intros Eo. match goal with H : _ \/ _ |- _ => destruct H as [H|H] end; bool_hyps.
      * match goal with H : negb _ = false |- _ => apply negb_false_iff, bool_decide_eq_true in H; by eapply (hw_some _ H1) | H : bool_decide _ = true |- _ => apply bool_decide_eq_true in H; by eapply (hw_some _ H1) end.
      * match goal with H : ipequal _ _ _ = false |- _ => by rewrite Eo, ipequal_refl in H end.
  - intros n1 (l & El & H1 & H2 & H3 & H0 & H4 & H5 & H7 & H6). rewrite app_nil_r in El. subst l. split; [done|]. split; [done|]. split; [done|]. split; [done|].
    intros gw k. destruct (decide (gw = orig)) as [->|Hn].
    + split; [|by intros [_ []]]. intros (q & x & e & Hx & _ & He & Ee). exfalso. eapply H5; [|exact He|exact Ee]. by eapply H7.
    + rewrite H6 by done. naive_solver.
Qed.

(** ** Adding a network *)

Lemma insert_net_wf p q x' e' n n' :
  hna_wf n -> hna_nets n !! q = None -> hna_gw x' = p ->
  hna_nets n' = <[q := x']> (hna_nets n) -> hna_entries n' = <[p := e']> (hna_entries n) ->
  match hna_entries n !! p with
  | Some e => A_gateway_addr e' = A_gateway_addr e /\ networks e' = q :: networks e /\ hna_set n' = hna_set n /\
      (forall r y, r ∈ networks e -> hna_nets n !! r = Some y -> hna_prefix y <> hna_prefix x')
  | None => networks e' = [q] /\ hna_set n' = QUEUE_ELEM (hashing (A_gateway_addr e')) p (hna_set n) /\
      forall p' f, hna_entries n !! p' = Some f -> A_gateway_addr f <> A_gateway_addr e'
  end ->
  hna_wf n' /\ forall gw k, announced n' gw k <-> announced n gw k \/ gw = A_gateway_addr e' /\ k = hna_prefix x'.
Proof.
  intros Hwf Hq Ep E1 E2 Hcase.
  assert (forall r y, hna_nets n' !! r = Some y <-> r = q /\ y = x' \/ r <> q /\ hna_nets n !! r = Some y) as Ha
    by (intros r y; rewrite E1, lookup_insert_Some; naive_solver).
  assert (forall r f, hna_entries n' !! r = Some f <-> r = p /\ f = e' \/ r <> p /\ hna_entries n !! r = Some f) as Hn
    by (intros r f; rewrite E2, lookup_insert_Some; naive_solver).
  assert (forall r y, hna_nets n !! r = Some y -> r <> q) as Hqn by (intros r y Hy ->; congruence).
  assert (exists l, networks e' = q :: l /\ (forall r, r ∈ l -> exists y, hna_nets n !! r = Some y /\ hna_gw y = p /\ hna_prefix y <> hna_prefix x') /\ NoDup l /\
    (forall e, hna_entries n !! p = Some e -> A_gateway_addr e = A_gateway_addr e' /\ networks e = l) /\
    (forall p' f, p' <> p -> hna_entries n !! p' = Some f -> A_gateway_addr f <> A_gateway_addr e')) as (l & El & Hl & Hnd & Hold & Hmain).
  { destruct (hna_entries n !! p) as [e|] eqn:Ee.
    - destruct Hcase as (H1 & H2 & _ & H3). exists (networks e). split; [done|]. split.
      { intros r Hr. destruct (hw_listed _ Hwf _ _ _ Ee Hr) as (y & Hy & Ey). exists y. split; [done|]. split; [done|]. by eapply H3. }
      split; [by eapply (hw_nodup _ Hwf)|]. split; [by intros ? [= <-]|]. intros p' f Hp' Hf E. apply Hp'. eapply (hw_gw _ Hwf); [done|done|congruence].
    - destruct Hcase as (H1 & _ & H3). exists []. split; [done|]. split; [by intros r ?%not_elem_of_nil|]. split; [constructor|]. split; [done|].
      intros p' f _. apply H3. }
  assert (forall r y, hna_nets n !! r = Some y -> hna_gw y = p -> r ∈ l) as Hin.
  { intros r y Hy Ey. destruct (hw_owner _ Hwf _ _ Hy) as (f & Hf & Hr). rewrite Ey in Hf. by destruct (Hold _ Hf) as [_ <-]. }
  split.
  - split.
    + rewrite E2. destruct (hna_entries n !! p) as [e|] eqn:Ee; destruct Hcase as (H1 & H2 & H3).
      * destruct H3 as [-> _]. eapply table_ok_update; [apply Hwf|exact Ee|done].
      * rewrite H2. by apply table_ok_new; [apply Hwf|].
    + intros p1 p2 e1 e2 [[-> ->]|[N1 H1]]%Hn [[-> ->]|[N2 H2]]%Hn E; [done|..].
      * by destruct (Hmain _ _ N2 H2).
      * by destruct (Hmain _ _ N1 H1).
      * by eapply (hw_gw _ Hwf).
    + intros r y [[-> ->]|[N1 H1]]%Ha.
      * exists e'. split; [apply Hn; left; by rewrite Ep|]. rewrite El. left.
      * destruct (hw_owner _ Hwf _ _ H1) as (f & Hf & Hr). destruct (decide (hna_gw y = p)) as [E|E].
        -- exists e'. split; [apply Hn; left; by split|]. rewrite El. right. by eapply Hin.
        -- exists f. split; [apply Hn; by right|done].
    + intros p1 f r [[-> ->]|[N1 H1]]%Hn Hr.
      * rewrite El in Hr. apply elem_of_cons in Hr as [->|Hr]; [exists x'; split; [apply Ha; by left|done]|].
        destruct (Hl r Hr) as (y & Hy & Ey & _). exists y. split; [apply Ha; right; split; [by eapply Hqn|done]|done].
      * destruct (hw_listed _ Hwf _ _ _ H1 Hr) as (y & Hy & Ey). exists y. split; [apply Ha; right; split; [by eapply Hqn|done]|done].
    + intros p1 f [[-> ->]|[N1 H1]]%Hn; [|by eapply (hw_nodup _ Hwf)]. rewrite El. apply NoDup_cons. split; [|done].
      intros Hr. destruct (Hl q Hr) as (y & Hy & _). congruence.
    + intros p1 f [[-> ->]|[N1 H1]]%Hn; [by rewrite El|by eapply (hw_some _ Hwf)].
    + assert (forall r y, r <> q -> hna_nets n !! r = Some y -> hna_gw y = p -> hna_prefix y <> hna_prefix x') as Hne.
      { intros r y Hr Hy Ey. destruct (Hl r (Hin _ _ Hy Ey)) as (y' & Hy' & _ & H). congruence. }
      intros r1 r2 y1 y2 [[-> ->]|[N1 H1]]%Ha [[-> ->]|[N2 H2]]%Ha Eg Ek; [done|..].
      * destruct (Hne _ _ N2 H2); congruence.
      * destruct (Hne _ _ N1 H1); congruence.
      * by eapply (hw_prefix _ Hwf).
  - intros gw k. split.
    + intros (r & y & f & [[-> ->]|[N1 H1]]%Ha & <- & Hf & <-).
      * right. rewrite Ep in Hf. apply Hn in Hf as [[_ ->]|[? _]]; done.
      * left. destruct (hw_owner _ Hwf _ _ H1) as (g & Hg & _). exists r, y, g. split; [done|]. split; [done|]. split; [done|].
        apply Hn in Hf as [[E ->]|[_ Hf]]; [|congruence]. rewrite E in Hg. by destruct (Hold _ Hg).
    + intros [(r & y & f & Hy & <- & Hf & <-)|[-> ->]].
      * destruct (decide (hna_gw y = p)) as [E|E].
        -- exists r, y, e'. split; [apply Ha; right; split; [by eapply Hqn|done]|]. split; [done|]. split; [apply Hn; by left|].
           rewrite E in Hf. symmetry. by destruct (Hold _ Hf).
        -- exists r, y, f. split; [apply Ha; right; split; [by eapply Hqn|done]|]. split; [done|]. split; [apply Hn; by right|done].
      * exists q, x', e'. split; [apply Ha; by left|]. split; [done|]. split; [apply Hn; by left|done].
Qed.

Lemma net_timer_wf n n' q x t :
  hna_wf n -> hna_nets n !! q = Some x -> hna_nets n' = <[q := set_hna_net_timer t x]> (hna_nets n) ->
  hna_entries n' = hna_entries n -> hna_set n' = hna_set n ->
  hna_wf n' /\ forall gw k, announced n' gw k <-> announced n gw k.
Proof.
  intros Hwf Hq E1 E2 E3.
  assert (forall r y, hna_nets n' !! r = Some y -> exists z, hna_nets n !! r = Some z /\ hna_gw y = hna_gw z /\ hna_prefix y = hna_prefix z) as H1.
  { intros r y. rewrite E1. intros [[<- <-]|[_ Hy]]%lookup_insert_Some; [by exists x|by exists y]. }
  assert (forall r z, hna_nets n !! r = Some z -> exists y, hna_nets n' !! r = Some y /\ hna_gw y = hna_gw z /\ hna_prefix y = hna_prefix z) as H2.
  { intros r z Hz. rewrite E1. destruct (decide (r = q)) as [->|Hn]; [rewrite lookup_insert_eq|rewrite lookup_insert_ne by done; by exists z].
    eexists. split; [done|]. simpl. by assert (z = x) as -> by congruence. }
  split.
  - split; rewrite ?E2, ?E3; try apply Hwf.
    + intros r y Hy. destruct (H1 _ _ Hy) as (z & Hz & -> & _). by apply (hw_owner _ Hwf).
    + intros p e r He Hr. destruct (hw_listed _ Hwf _ _ _ He Hr) as (z & Hz & Ez). destruct (H2 _ _ Hz) as (y & Hy & Ey & _).
      exists y. split; [done|congruence].
    + intros r1 r2 y1 y2 Hy1 Hy2. destruct (H1 _ _ Hy1) as (z1 & Hz1 & -> & ->). destruct (H1 _ _ Hy2) as (z2 & Hz2 & -> & ->).
      by eapply (hw_prefix _ Hwf).
  - intros gw k. unfold announced. rewrite E2. split.
    + intros (r & y & e & Hy & Ek & He & Eg). destruct (H1 _ _ Hy) as (z & Hz & E & Ek'). exists r, z, e. rewrite <- E, <- Ek'. done.
    + intros (r & z & e & Hz & Ek & He & Eg). destruct (H2 _ _ Hz) as (y & Hy & E & Ek'). exists r, y, e. rewrite E, Ek'. done.
Qed.

(** The topology knows a path of [a] to the network [k]. *)
Definition path_to (d : lsdb) (a : ip_addr) (k : olsr_ip_prefix) : Prop :=
  exists tc a' p x, vertex d tc a' /\ aeq a' a /\ rtps d !! p = Some x /\ rtp_tc x = Some tc /\ peq (rtp_dst x) k.

(** What an update does to the topology. *)
Record db_grows (d d' : lsdb) (m : nat) : Prop := {
  dg_edges : edges d' = edges d;
  dg_size : (size (rtps d') <= m + size (rtps d))%nat;
  dg_vertices : keeps_vertices d d';
  dg_paths q y : rtps d !! q = Some y -> rtps d' !! q = Some y;
}.

Lemma db_grows_refl d : db_grows d d 0.
Proof. by split. Qed.

Lemma db_grows_trans d1 d2 d3 m1 m2 : db_grows d1 d2 m1 -> db_grows d2 d3 m2 -> db_grows d1 d3 (m1 + m2).
Proof. intros [E1 S1 V1 P1] [E2 S2 V2 P2]. split; [congruence|lia|by etrans|auto]. Qed.

Lemma db_grows_path d d' m a k : db_grows d d' m -> path_to d a k -> path_to d' a k.
Proof.
  intros [_ _ V P] (tc & a' & p & x & (t & Ht & Ea) & Ha & Hx & Etc & Ek). destruct (V _ _ Ht) as (t' & Ht' & Et).
  exists tc, a', p, x. split; [exists t'; by rewrite Et|]. split; [done|]. split; [by apply P|]. by split.
Qed.

Lemma db_grows_room d d' m k : db_grows d d' m -> db_room (m + k) d -> db_room k d'.
Proof. unfold db_room. intros [E S _ _]. rewrite E. lia. Qed.

(** Without an originator address of its own the node registers no paths; it also
    registers none for a network whose mask is not a prefix. *)
Lemma wp_insert_route dst plen a origin st :
  lsdb_wf (db st) -> db_room 2 (db st) -> is_u8 plen ->
  wp (olsr_insert_routing_table dst plen a origin) (fun _ st' => lsdb_wf (db st') /\ db_frame st st' /\ db_grows (db st) (db st') 2 /\
    (plen <= maxplen -> ipequal ip_version (main_addr st) 0 = false -> path_to (db st') a {| prefix := dst; prefix_len := plen |})) st.
Proof.
  intros Hdb Hroom Hlen. destruct (Z.le_gt_cases plen maxplen) as [Hp|Hp].
  - eapply wp_mono; [apply wp_insert_routing_table_room; [done|done|]|].
    + intros tc t H1 H2. by eapply room_degree.
    + cbv beta. intros r st' (H1 & H2 & H3 & H4 & H5 & H6). split; [done|]. split; [done|]. rewrite u8_id in H3 by done. split.
      * split; [done|done|done|]. intros q y Hy. destruct r as [p|]; [|by destruct H3 as (_ & _ & ->)].
        destruct H3 as (_ & _ & _ & _ & _ & _ & _ & _ & H). by apply H.
      * intros _ Hm. destruct r as [p|]; [|by destruct H3 as (_ & H & _); congruence].
        destruct H3 as (tc & t & x & Hf & Ht & Hx & Etc & Ek & _).
        apply (tree_find_Some (kt_wf := awf) _ _ _ _ (dw_tcs _ H1)) in Hf as (a' & Ka & Hv). by exists tc, a', p, x.
  - unfold olsr_insert_routing_table. cbn [insert_routing_table]. destruct (plen >? maxplen) eqn:E; bool_hyps; [|lia].
    apply wp_ret. split; [done|]. split; [done|]. split; [split; [done|lia|done|auto]|lia].
Qed.

Record hna_updated (gw : ip_addr) (k : olsr_ip_prefix) (n n' : node) : Prop := {
  hu_wf : hna_wf n';
  hu_db : lsdb_wf (db (core n'));
  hu_frame : hna_frame n n';
  hu_announced g j : announced n' g j <-> announced n g j \/ g = gw /\ j = k;
  hu_grows : db_grows (db (core n)) (db (core n')) 2;
  hu_path : prefix_len k <= maxplen -> ipequal ip_version (main_addr (core n)) 0 = false -> path_to (db (core n')) gw k;
}.

(** The end of the update: the path and the timer of the network [q]. *)
Lemma wp_finish_update q x p e vtime n0 n :
  hna_wf n -> lsdb_wf (db (core n)) -> db_room 2 (db (core n)) -> is_u8 (prefix_len (hna_prefix x)) ->
  hna_nets n !! q = Some x -> hna_entries n !! p = Some e -> hna_gw x = p ->
  hna_frame n0 n -> db (core n) = db (core n0) -> main_addr (core n) = main_addr (core n0) ->
  (forall g j, announced n g j <-> announced n0 g j \/ g = A_gateway_addr e /\ j = hna_prefix x) ->
  wp (let* x := get_hna_net q in
      let* e := get_hna_entry p in
      let* _ := lift (olsr_insert_routing_table (prefix (hna_prefix x)) (prefix_len (hna_prefix x)) (A_gateway_addr e) OLSR_RT_ORIGIN_HNA) in
      let* t := lift (olsr_set_timer (hna_net_timer x) vtime OLSR_HNA_NET_JITTER OLSR_TIMER_ONESHOT) in
      upd_hna_net q (set_hna_net_timer t)) (fun _ n' => hna_updated (A_gateway_addr e) (hna_prefix x) n0 n') n.
Proof.
  intros Hwf Hdb Hroom Hlen Hq He Hp Hf Ed Em Ha. wp_step. eapply wp_get_hna_net; [exact Hq|]. wp_step. eapply wp_get_hna_entry; [exact He|].
  wp_step. apply wp_lift. eapply wp_mono; [by apply wp_insert_route|]. cbv beta. intros _ st (K1 & K2 & K3 & K4).
  wp_step. apply wp_lift. apply wp_set_timer. intros t k _ _. eapply wp_upd_hna_net; [exact Hq|].
  match goal with |- hna_updated _ _ _ ?m => set (n' := m) end.
  destruct (net_timer_wf n n' q x t Hwf Hq eq_refl eq_refl eq_refl) as [W1 W2]. split; [done|done|..].
  - etrans; [exact Hf|]. by apply (hna_frame_core n st).
  - intros g j. by rewrite W2.
  - rewrite <- Ed. exact K3.
  - intros H1 H2. replace (hna_prefix x) with {| prefix := prefix (hna_prefix x); prefix_len := prefix_len (hna_prefix x) |} by (by destruct (hna_prefix x)).
    apply K4; [done|]. by rewrite Em.
Qed.

Lemma wp_update_hna_entry gw net len vtime n :
  hna_wf n -> lsdb_wf (db (core n)) -> db_room 2 (db (core n)) -> is_u8 len ->
  wp (olsr_update_hna_entry gw net len vtime) (fun _ n' => hna_updated gw {| prefix := net; prefix_len := len |} n n') n.
Proof.
  intros Hwf Hdb Hroom Hlen. set (k := {| prefix := net; prefix_len := len |}). unfold olsr_update_hna_entry. wp_step.
  apply wp_lookup_hna_gw; [done|..].
  - intros p e He Eg. wp_step. wp_step. wp_step. eapply wp_get_hna_entry; [exact He|]. wp_step. apply wp_lookup_hna_net.
    { intros q Hq. destruct (hw_listed _ Hwf _ _ _ He Hq) as (x & Hx & _). by exists x. }
    + intros q x Hq Hx Ek. wp_step. wp_step. destruct (hw_listed _ Hwf _ _ _ He Hq) as (x' & Hx' & Ex). assert (x' = x) as -> by congruence.
      eapply wp_mono; [eapply (wp_finish_update q x p e vtime n n); try done|].
      * by rewrite Ek.
      * intros g j. split; [by left|]. intros [H|[-> ->]]; [done|]. exists q, x, e. by rewrite Ex.
      * cbv beta. intros _ n'. by rewrite Ek, Eg.
    + intros Hno. unfold olsr_add_hna_net. wp_steps. set (q := alloc (hna_nets n)). set (x := {| hna_prefix := _; hna_net_timer := _; hna_gw := _ |}).
      assert (hna_nets n !! q = None) as Hq by apply alloc_fresh.
      eapply wp_upd_hna_entry; [exact He|]. wp_steps. apply wp_lift. wp_step. wp_step.
      match goal with |- wp _ _ ?m => set (n1 := m) end.
      destruct (insert_net_wf p q x (set_networks (q :: networks e) e) n n1 Hwf Hq eq_refl eq_refl eq_refl) as [W1 W2].
      { rewrite He. split; [done|]. split; [done|]. split; [done|]. intros r y Hr Hy. by eapply Hno. }
      eapply wp_mono; [eapply (wp_finish_update q x p (set_networks (q :: networks e) e) vtime n n1); try done; apply lookup_insert_eq|].
      cbv beta. intros _ n'. simpl. by rewrite Eg.
  - intros Hno. unfold olsr_add_hna_entry. wp_steps. set (p := alloc (hna_entries n)).
    assert (hna_entries n !! p = None) as Hp by apply alloc_fresh.
    eapply wp_get_hna_entry; [simpl; apply lookup_insert_eq|]. wp_step. apply wp_lookup_hna_net.
    { intros q Hq. by apply not_elem_of_nil in Hq. } { intros q x Hq. by apply not_elem_of_nil in Hq. }
    intros _. unfold olsr_add_hna_net. wp_steps. set (q := alloc _). set (x := {| hna_prefix := _; hna_net_timer := _; hna_gw := _ |}).
    assert (hna_nets n !! q = None) as Hq by apply alloc_fresh.
    eapply wp_upd_hna_entry; [simpl; apply lookup_insert_eq|]. wp_steps. apply wp_lift. wp_step. wp_step.
    match goal with |- wp _ _ ?m => set (n1 := m) end. set (e' := {| A_gateway_addr := gw; networks := [q] |}).
    destruct (insert_net_wf p q x e' n n1 Hwf Hq eq_refl eq_refl) as [W1 W2].
    { unfold n1. simpl. by rewrite insert_insert_eq. }
    { rewrite Hp. split; [done|]. split; [done|]. exact Hno. }
    eapply wp_mono; [eapply (wp_finish_update q x p e' vtime n n1); try done; apply lookup_insert_eq|].
    cbv beta. by intros _ n'.
Qed.

End hna_proofs.
