(* ===== verification/HnaSpec.v ===== *)
(** * Host and network associations: what a message changes *)

From S2P Require Import Prelude Timer Mantissa Avl IpAddr KeyTree DupSet State NeighTable NeighProofs MidLookup Interfaces Packet LsdbOps Lq RouteTable TcSet TcSpec LinkSet.
From S2P Require Import LsdbProofs VertexProofs LinkProofs LinkBest NeighSpec LinkSpec MidSpec Node Hna HnaProofs.

Section hna_spec.
Context {cnf : olsrd_config} {lqh : lq_handler}.

(** ** The message *)

(** An announced network: its address and its mask, in bytes. *)
Definition put_network (k : ip_addr * list Z) : list Z := ip_bytes (ipsize ip_version) (fst k) ++ snd k.
Definition read_network (k : ip_addr * list Z) : olsr_ip_prefix := {| prefix := fst k; prefix_len := netmask_to_prefix (snd k) |}.
Definition network_ok (k : ip_addr * list Z) : Prop := is_ip (ipsize ip_version) (fst k) /\ length (snd k) = ipsize ip_version.

Definition put_hna (vt : Z) (orig : ip_addr) (ttl hops seqno : Z) (nets : list (ip_addr * list Z)) : list Z :=
  [HNA_MESSAGE; vt] ++ pkt_put_u16 [] (8 + Z.of_nat (ipsize ip_version) + 2 * Z.of_nat (ipsize ip_version) * Z.of_nat (length nets)) ++
  ip_bytes (ipsize ip_version) orig ++ [ttl; hops] ++ pkt_put_u16 [] seqno ++ concat (map put_network nets).

(** A network that is neither an address of this node nor announced by it. *)
Definition foreign (n : node) (k : olsr_ip_prefix) : bool :=
  negb (existsb (fun i => ipequal ip_version (if_ip_addr i) (prefix k)) (ifnet (core n))) &&
  negb (ip_prefix_list_find (own_hna n) (prefix k) (prefix_len k)).

Lemma foreign_frame n n' k : hna_frame n n' -> foreign n' k = foreign n k.
Proof.
  unfold hna_frame, hna_strip, db_strip, foreign. intros E. destruct n as [c], n' as [c']. simpl in *. injection E as. subst.
  destruct c, c'. simpl in *. by subst.
Qed.

Lemma frame_main n n' : hna_frame n n' -> main_addr (core n') = main_addr (core n).
Proof.
  unfold hna_frame, hna_strip, db_strip. intros E. destruct n as [c], n' as [c']. simpl in *. injection E as. subst.
  destruct c, c'. simpl in *. by subst.
Qed.

Lemma netmask_range l : is_u8 (netmask_to_prefix l).
Proof. apply u8_range. Qed.

(** What is known after a part of the networks. *)
Record hna_seen (orig : ip_addr) (ks : list olsr_ip_prefix) (n n' : node) : Prop := {
  hs_wf : hna_wf n';
  hs_db : lsdb_wf (db (core n'));
  hs_frame : hna_frame n n';
  hs_announced g j : announced n' g j <-> announced n g j \/ g = orig /\ j ∈ ks /\ foreign n j = true;
  hs_grows : db_grows (db (core n)) (db (core n')) (2 * length ks);
  hs_path k : k ∈ ks -> foreign n k = true -> prefix_len k <= maxplen -> ipequal ip_version (main_addr (core n)) 0 = false ->
    path_to (db (core n')) orig k;
}.

Lemma wp_input_network orig ks k vtime n0 n :
  hna_seen orig ks n0 n -> db_room 2 (db (core n)) -> is_u8 (prefix_len k) ->
  wp (input_network orig (prefix k) (prefix_len k) vtime) (fun _ n' => hna_seen orig (ks ++ [k]) n0 n') n.
Proof.
  intros [H1 H2 H3 H4 H5 H6] Hroom Hk. pose proof (foreign_frame _ _ k H3) as Hf. unfold input_network. wp_step. wp_step. wp_step. wp_step.
  assert (foreign n k = false -> hna_seen orig (ks ++ [k]) n0 n) as Hskip.
  { intros Hn. split; try done.
    - intros g j. rewrite H4, elem_of_app, list_elem_of_singleton. split; [naive_solver|]. intros [?|(? & [?| ->] & ?)]; [naive_solver..|]. congruence.
    - destruct H5 as [E S V P]. split; try done. rewrite length_app. simpl. lia.
    - intros j [Hj| ->%list_elem_of_singleton]%elem_of_app; [by apply H6|congruence]. }
  wp_step; [apply wp_ret, Hskip; unfold foreign; by apply andb_false_iff; left; rewrite Heqb|].
  wp_step; [apply wp_ret, Hskip; unfold foreign; by apply andb_false_iff; right; rewrite Heqb0|].
  assert (foreign n k = true) as Hy by (unfold foreign; by rewrite Heqb, Heqb0). rewrite Hy in Hf. symmetry in Hf.
  eapply wp_mono; [by apply wp_update_hna_entry|]. cbv beta. intros _ n' [K1 K2 K3 K4 K5 K6].
  replace {| prefix := prefix k; prefix_len := prefix_len k |} with k in * by by destruct k. split; try done.
  - by etrans.
  - intros g j. rewrite K4, H4, elem_of_app, list_elem_of_singleton. naive_solver.
  - rewrite length_app. replace (2 * (length ks + length [k]))%nat with (2 * length ks + 2)%nat by (simpl; lia). by eapply db_grows_trans.
  - intros j [Hj| ->%list_elem_of_singleton]%elem_of_app Hfj Hl Hm.
    + eapply db_grows_path; [exact K5|by apply H6].
    + apply K6; [done|]. by rewrite (frame_main _ _ H3).
Qed.

Lemma length_ip_bytes m a : length (ip_bytes m a) = m.
Proof. unfold ip_bytes. by rewrite length_map, length_seq. Qed.

Lemma read_one k curr : network_ok k ->
  ('(net, curr) ← pkt_get_ipaddress (put_network k ++ curr); '(len, curr) ← pkt_get_prefixlen curr; Some (net, len, curr)) =
  Some (prefix (read_network k), prefix_len (read_network k), curr).
Proof.
  intros [H1 H2]. unfold put_network. rewrite <- app_assoc.
  pose proof (get_put_ipaddress (fst k) (snd k ++ curr) H1) as E. unfold pkt_put_ipaddress in E. rewrite app_nil_l in E. rewrite E. cbn [mbind option_bind].
  unfold pkt_get_prefixlen. rewrite length_app. destruct (Nat.ltb_spec (length (snd k) + length curr) (ipsize ip_version)); [lia|].
  cbn [mbind option_bind]. by rewrite take_app_length', drop_app_length' by done.
Qed.

Lemma wp_input_networks nets fuel orig vtime curr ks n0 n :
  Forall network_ok nets -> (length nets <= fuel)%nat -> hna_seen orig ks n0 n ->
  db_room (2 * (length ks + length nets)) (db (core n0)) ->
  wp (input_networks fuel orig vtime (concat (map put_network nets) ++ curr) (2 * Z.of_nat (ipsize ip_version) * Z.of_nat (length nets)))
    (fun _ n' => hna_seen orig (ks ++ map read_network nets) n0 n') n.
Proof.
  assert (0 < Z.of_nat (ipsize ip_version)) as Hip by (unfold ipsize; destruct ip_version; lia).
  revert fuel ks n. induction nets as [|k nets IH]; intros fuel ks n Hok Hfuel Hs Hroom.
  - assert (input_networks fuel orig vtime (concat (map put_network []) ++ curr) (2 * Z.of_nat (ipsize ip_version) * Z.of_nat (length (@nil (ip_addr * list Z)))) = ret tt) as ->.
    { destruct fuel; simpl; by rewrite Z.mul_0_r. }
    apply wp_ret. simpl. by rewrite app_nil_r.
  - destruct fuel as [|fuel]; [simpl in Hfuel; lia|]. apply Forall_cons in Hok as [Hk Hok]. cbn [input_networks].
    destruct (_ <=? 0) eqn:E; bool_hyps; [simpl in E; nia|]. cbn [map concat]. rewrite <- app_assoc. wp_step.
    eapply wp_gets_opt; [apply read_one, Hk|]. cbv beta iota. wp_step.
    eapply wp_mono; [apply (wp_input_network orig ks (read_network k) vtime n0 n); [done| |apply netmask_range]|].
    + eapply (db_grows_room _ _ _ 2); [apply (hs_grows _ _ _ _ Hs)|]. eapply room_mono; [|exact Hroom]. simpl. lia.
    + cbv beta. intros _ n1 Hs1.
      replace (2 * Z.of_nat (ipsize ip_version) * Z.of_nat (length (k :: nets)) - 2 * Z.of_nat (ipsize ip_version)) with
        (2 * Z.of_nat (ipsize ip_version) * Z.of_nat (length nets)) by (simpl; lia).
      eapply wp_mono; [apply (IH fuel (ks ++ [read_network k])); [done|simpl in Hfuel; lia|done|]|].
      * eapply room_mono; [|exact Hroom]. rewrite length_app. simpl. lia.
      * cbv beta. intros _ n2. by rewrite <- app_assoc.
Qed.

Lemma wp_input_hna vt orig ttl hops seqno nets rest from n :
  hna_wf n -> lsdb_wf (db (core n)) -> link_wf (core n) -> is_ip (ipsize ip_version) orig -> Forall network_ok nets ->
  8 + Z.of_nat (ipsize ip_version) + 2 * Z.of_nat (ipsize ip_version) * Z.of_nat (length nets) < 65536 ->
  db_room (2 * length nets) (db (core n)) ->
  wp (olsr_input_hna (put_hna vt orig ttl hops seqno nets ++ rest) from) (fun fwd n' =>
    if sender_status (core n) from =? SYM_LINK then fwd = true /\ hna_seen orig (map read_network nets) n n'
    else fwd = false /\ n' = n) n.
Proof.
  intros Hwf Hdb Hl Ho Hok Hsize Hroom. unfold olsr_input_hna. wp_step.
  set (sz := 8 + Z.of_nat (ipsize ip_version) + 2 * Z.of_nat (ipsize ip_version) * Z.of_nat (length nets)) in *.
  eapply (wp_gets_opt _ (Some (me_to_reltime vt, sz, orig, concat (map put_network nets) ++ rest))).
  { assert (256 * u8 (Z.shiftr sz 8) + u8 sz = sz) as E.
    { assert (is_u16 sz) as Hu by (unfold is_u16; lia). pose proof (get_put_u16 sz [] Hu) as E. unfold pkt_put_u16 in E. simpl in E. congruence. }
    unfold put_hna. fold sz. unfold pkt_put_u16. rewrite <- !app_assoc. cbn [app pkt_get_u8 mbind option_bind Z.eqb HNA_MESSAGE negb pkt_get_reltime pkt_get_u16].
    change (negb (HNA_MESSAGE =? HNA_MESSAGE)) with false. cbv iota. rewrite E.
    pose proof (get_put_ipaddress orig ([ttl; hops] ++ pkt_put_u16 [] seqno ++ concat (map put_network nets) ++ rest) Ho) as E2.
    unfold pkt_put_ipaddress, pkt_put_u16 in E2. cbn [app] in E2. rewrite E2. done. }
  cbv beta iota. assert (0 < Z.of_nat (ipsize ip_version)) as Hip by (unfold ipsize; destruct ip_version; lia).
  replace (sz - 8 - Z.of_nat (ipsize ip_version)) with (2 * Z.of_nat (ipsize ip_version) * Z.of_nat (length nets)) by (unfold sz; lia).
  rewrite (Z.mul_comm (2 * _)), Z.mod_mul by lia. cbn [Z.eqb negb]. wp_step. apply wp_lift. apply wp_check_neighbor_link; [done|].
  replace (set_core (core n) n) with n by by destruct n.
  destruct (sender_status (core n) from =? SYM_LINK); cbn [negb]; [|by apply wp_ret]. wp_step. rewrite (Z.mul_comm (Z.of_nat (length nets))).
  eapply wp_mono; [apply (wp_input_networks nets _ orig _ rest [] n n); try done|].
  - unfold put_hna. rewrite !length_app. enough (length nets <= length (concat (map put_network nets)))%nat by lia.
    clear -Hok Hip. induction Hok as [|k nets [_ Hk] _ IH]; [done|]. simpl. rewrite length_app. unfold put_network at 1. rewrite length_app. lia.
  - split; try done.
    + intros g j. split; [by left|]. intros [?|(_ & ?%not_elem_of_nil & _)]; done.
    + intros k Hk. by apply not_elem_of_nil in Hk.
  - cbv beta. intros _ n' H. apply wp_ret. by split.
Qed.

(** ** The theorems *)

(** C19: An HNA message that was received from a symmetric neighbour adds exactly its
    networks, with the prefix length its masks denote, to what the originator
    announces, except for addresses and networks of this node; the topology gets a
    path from the originator to each of them unless the mask is not a prefix, all
    tables stay well formed, and the message is to be forwarded. A message from
    another sender changes nothing. *)
Theorem olsr_input_hna_correct vt orig ttl hops seqno nets rest from n :
  hna_wf n -> lsdb_wf (db (core n)) -> link_wf (core n) -> is_ip (ipsize ip_version) orig -> Forall network_ok nets ->
  8 + Z.of_nat (ipsize ip_version) + 2 * Z.of_nat (ipsize ip_version) * Z.of_nat (length nets) < 65536 ->
  db_room (2 * length nets) (db (core n)) ->
  wp (olsr_input_hna (put_hna vt orig ttl hops seqno nets ++ rest) from) (fun fwd n' =>
    if sender_status (core n) from =? SYM_LINK then fwd = true /\ hna_seen orig (map read_network nets) n n'
    else fwd = false /\ n' = n) n.
Proof. apply wp_input_hna. Qed.

(** Forgetting a node removes exactly the networks it announced, with the paths to
    them, and keeps the set and the topology well formed. *)
Theorem olsr_cleanup_hna_correct orig n :
  hna_wf n -> lsdb_wf (db (core n)) ->
  wp (olsr_cleanup_hna orig) (fun _ n' => hna_wf n' /\ lsdb_wf (db (core n')) /\ hna_frame n n' /\
    forall gw k, announced n' gw k <-> announced n gw k /\ gw <> orig) n.
Proof. intros H1 H2. eapply wp_mono; [by apply wp_cleanup_hna|]. cbv beta. intros _ n' (? & ? & ? & _ & ?). by split_and!. Qed.

End hna_spec.

(** ** Witnesses *)

(** A node with these tables, interfaces and networks, and nothing else. *)
Definition bare_node {cnf : olsrd_config} (c : olsr_state) (own : list olsr_ip_prefix) (os : list out_interface) : node :=
  {| core := c; dups := olsr_init_duplicate_set; hna_entries := ∅; hna_nets := ∅; hna_set := replicate (Z.to_nat HASHSIZE) [];
     own_hna := own; deny_entries := []; outs := os; own_willingness := WILL_DEFAULT;
     message_seqno := 65534; send_empty_tc := 0; sending_tc := false; prev_empty := 1; lq_tc_pending := false; sent := [] |}.

Lemma bare_hna_wf {cnf : olsrd_config} c own os : hna_wf (bare_node c own os).
Proof.
  split; simpl; try (intros *; rewrite ?lookup_empty; discriminate). apply table_ok_empty; reflexivity.
Qed.

Definition node_run {A} (m : NM A) (n : node) : node := match m n with Some (_, n') => n' | None => n end.

Lemma node_run_ok {A} (m : NM A) (P : node -> Prop) n : wp m (fun _ => P) n -> P (node_run m n).
Proof. unfold wp, node_run. by destruct (m n) as [[a n']|]. Qed.

Section hna_witnesses.
#[local] Existing Instance sample_cnf.
#[local] Existing Instance sample_lq.

Definition hn1 : node := bare_node lk1 [{| prefix := 7; prefix_len := 24 |}] [].

(** 300 announces 8/16, 7/24 (which this node announces as well) and 9 with the mask
    255.0.255.0; the message comes over the link from 201. *)
Definition hna_of_300 : list (ip_addr * list Z) := [(8, [255; 255; 0; 0]); (7, [255; 255; 255; 0]); (9, [255; 0; 255; 0])].

Lemma hn1_room k : (k < 1000)%nat -> db_room k (db (core hn1)).
Proof.
  intros Hk. unfold db_room. assert (size (edges (db (core hn1))) + size (rtps (db (core hn1))) < 1000)%nat by (vm_compute; lia). lia.
Qed.

Lemma olsr_input_hna_correct_witness :
  wp (olsr_input_hna (put_hna 134 300 5 1 42 hna_of_300) 201) (fun fwd n' => fwd = true /\ hna_wf n' /\
    announced n' 300 {| prefix := 8; prefix_len := 16 |} /\ ~ announced n' 300 {| prefix := 7; prefix_len := 24 |}) hn1.
Proof.
  rewrite <- (app_nil_r (put_hna _ _ _ _ _ _)).
  eapply wp_mono; [refine (olsr_input_hna_correct 134 300 5 1 42 hna_of_300 [] 201 hn1 (bare_hna_wf _ _ _) lk1_db (proj2 lk1_wf) _ _ _ _)|].
  - vm_compute. split; [discriminate|reflexivity].
  - repeat constructor; simpl; (lia || discriminate).
  - vm_compute. reflexivity.
  - apply hn1_room. simpl. lia.
  - intros fwd n' H. assert (sender_status (core hn1) 201 =? SYM_LINK = true) as E by (vm_compute; reflexivity). rewrite E in H.
    destruct H as [H1 [H2 H3 H4 H5 _ _]]. split; [exact H1|]. split; [exact H2|]. split.
    + apply H5. right. split; [reflexivity|]. split; [left|vm_compute; reflexivity].
    + intros Ha. apply H5 in Ha as [(q & x & e & Hx & _)|(_ & _ & Hf)].
      * simpl in Hx. rewrite lookup_empty in Hx. discriminate Hx.
      * vm_compute in Hf. discriminate Hf.
Defined.

Definition hn2 : node := node_run (olsr_input_hna (put_hna 134 300 5 1 42 hna_of_300 ++ []) 201) hn1.

Lemma hn2_wf : hna_wf hn2 /\ lsdb_wf (db (core hn2)) /\ announced hn2 300 {| prefix := 8; prefix_len := 16 |}.
Proof.
  apply (node_run_ok _ (fun n' => hna_wf n' /\ lsdb_wf (db (core n')) /\ announced n' 300 {| prefix := 8; prefix_len := 16 |})).
  eapply wp_mono; [refine (wp_input_hna 134 300 5 1 42 hna_of_300 [] 201 hn1 (bare_hna_wf _ _ _) lk1_db (proj2 lk1_wf) _ _ _ _)|].
  - vm_compute. split; [discriminate|reflexivity].
  - repeat constructor; simpl; (lia || discriminate).
  - vm_compute. reflexivity.
  - apply hn1_room. simpl. lia.
  - intros fwd n' H. assert (sender_status (core hn1) 201 =? SYM_LINK = true) as E by (vm_compute; reflexivity). rewrite E in H.
    destruct H as [H1 [H2 H3 H4 H5 _ _]]. split; [exact H2|]. split; [exact H3|].
    apply H5. right. split; [reflexivity|]. split; [left|vm_compute; reflexivity].
Qed.

Lemma olsr_cleanup_hna_correct_witness :
  wp (olsr_cleanup_hna 300) (fun _ n' => hna_wf n' /\ ~ announced n' 300 {| prefix := 8; prefix_len := 16 |}) hn2.
Proof.
  destruct hn2_wf as (H1 & H2 & _). eapply wp_mono; [exact (olsr_cleanup_hna_correct 300 hn2 H1 H2)|].
  intros _ n' (K1 & _ & _ & K2). split; [exact K1|]. intros H. apply K2 in H as [_ H]. destruct (H eq_refl).
Defined.

End hna_witnesses.
