(* ===== verification/TcInput.v ===== *)
(** * tc_set.c: a topology message arrives *)

From S2P Require Import Prelude Timer Mantissa Avl IpAddr KeyTree DupSet State MidLookup NeighTable Interfaces Packet LsdbOps Lq RouteTable TcSet LinkSet MidSet Node NetOlsr Hna.

Definition TC_MESSAGE : Z := 2.
Definition LQ_TC_MESSAGE : Z := 202.

Section tc_input.
Context {cnf : olsrd_config} {ncf : node_config} {lqh : lq_handler}.

(** The fields of the message up to the edges, and what follows. *)
Record tc_header := {
  th_vtime : Z;
  th_size : Z;
  th_originator : ip_addr;
  th_hops : Z;
  th_seq : Z;
  th_ansn : Z;
  th_lower : Z;
  th_upper : Z;
}.

Definition read_tc_header (curr : list Z) : option (tc_header * list Z) :=
  '(vtime, curr) ← pkt_get_reltime curr;
  '(size, curr) ← pkt_get_u16 curr;
  '(originator, curr) ← pkt_get_ipaddress curr;
  '(ttl, curr) ← pkt_get_u8 curr;
  '(msg_hops, curr) ← pkt_get_u8 curr;
  '(msg_seq, curr) ← pkt_get_u16 curr;
  '(ansn, curr) ← pkt_get_u16 curr;
  '(lower_border, curr) ← pkt_get_u8 curr;
  '(upper_border, curr) ← pkt_get_u8 curr;
  Some ({| th_vtime := vtime; th_size := size; th_originator := originator; th_hops := msg_hops; th_seq := msg_seq;
           th_ansn := ansn; th_lower := lower_border; th_upper := upper_border |}, curr).

(** Whether a message with these numbers is ignored, and what is noted of it; for a
    vertex that has edges. *)
Definition tc_check (t : tc_entry) (msg_seq ansn_ : Z) : bool * tc_entry :=
  if olsr_seq_inrange_high (tc_msg_seq t - TC_SEQNO_WINDOW) (tc_msg_seq t) msg_seq &&
     olsr_seq_inrange_high (tc_ansn t - TC_ANSN_WINDOW) (tc_ansn t) ansn_ then
    if tc_msg_seq t =? msg_seq then (true, t)
    else (ignored t <? 32, set_ignored (u16 (ignored t + 1)) t)
  else if negb (olsr_seq_inrange_high (tc_msg_seq t) (tc_msg_seq t + TC_SEQNO_WINDOW * TC_SEQNO_WINDOW_MULT) msg_seq) ||
          negb (olsr_seq_inrange_low (tc_ansn t) (tc_ansn t + TC_ANSN_WINDOW * TC_ANSN_WINDOW_MULT) ansn_) then
    let t := if negb (err_seq_valid t) then set_err_seq_valid true (set_err_seq msg_seq t) else t in
    (err_seq t =? msg_seq, t)
  else (false, t).

(** The edges in the next [size] bytes; [borders] are the first and the last
    neighbour so far ([lower_border_ip], [upper_border_ip]). *)
Fixpoint tc_edges (fuel : nat) (deny : list ip_addr) (tc : positive) (ansn_ : Z) (curr : list Z) (size : Z)
    (borders : option (ip_addr * ip_addr)) : OM (option (ip_addr * ip_addr)) :=
  if size <=? 0 then ret borders
  else
    match fuel with
    | O => crash
    | S fuel =>
        let* r := olsr_tc_update_edge (olsr_validate_address deny) tc ansn_ curr in
        let '(neighbor, rest, changed) := r in
        do* when changed (modify (set_changes_topology true)) in
        tc_edges fuel deny tc ansn_ rest (size - Z.of_nat (length curr - length rest))
          (Some (match borders with Some (lower, _) => lower | None => neighbor end, neighbor))
    end.

(** From [limit = ...] to the computation of the borders: whether there was no edge and
    the borders, if they are given. *)
Definition tc_read_edges (deny : list ip_addr) (tc : positive) (h : tc_header) (curr : list Z)
  : OM (bool * option (ip_addr * ip_addr)) :=
  let size := th_size h - 12 - Z.of_nat (ipsize ip_version) in
  let* borders := tc_edges (length curr) deny tc (th_ansn h) curr size None in
  match borders with
  | None => ret (true, None)
  | Some (lower, upper) =>
      let n := ipsize ip_version in
      let* b := gets_opt (fun _ => olsr_calculate_tc_border (th_lower h) (ip_bytes n lower) (th_upper h) (ip_bytes n upper)) in
      ret (false, match b with Some (l, u) => Some (ip_of_bytes l, ip_of_bytes u) | None => None end)
  end.

(** The part that updates the topology: the edges and, from [borderSet] on, the edges to
    be deleted. The result tells whether the message empties the vertex. *)
Definition tc_update (deny : list ip_addr) (tc : positive) (h : tc_header) (curr : list Z) (vtime : Z) : OM bool :=
  do* upd_tc tc (fun t => set_err_seq_valid false (set_ignored 0 (set_tc_ansn (th_ansn h)
    (set_tc_msg_seq (th_seq h) (set_tc_msg_hops (th_hops h) t))))) in
  let* r := tc_read_edges deny tc h curr in
  let '(emptyTC, borders) := r in
  let* t := get_tc tc in
  let* timer := olsr_set_timer (validity_timer t) vtime OLSR_TC_VTIME_JITTER OLSR_TIMER_ONESHOT in
  do* upd_tc tc (set_validity_timer timer) in
  let n := ipsize ip_version in
  let borders := if emptyTC && (th_lower h =? 255) && (th_upper h =? 255)
                 then Some (ip_of_bytes (replicate n 0), ip_of_bytes (replicate n 255)) else borders in
  do* match borders with
      | Some (lower, upper) => let* _ := olsr_delete_revoked_tc_edges tc (th_ansn h) lower upper in ret tt
      | None =>
          let* t := get_tc tc in
          let* timer := olsr_set_timer (edge_gc_timer t) OLSR_TC_EDGE_GC_TIME OLSR_TC_EDGE_GC_JITTER OLSR_TIMER_ONESHOT in
          upd_tc tc (set_edge_gc_timer timer)
      end in
  ret (emptyTC && match borders with Some _ => true | None => false end).

(** The decision about the vertex: [None] to ignore the message. *)
Definition tc_admit (tc : option positive) (h : tc_header) : OM bool :=
  match tc with
  | None => ret true
  | Some p =>
      let* t := get_tc p in
      if bool_decide (kt_walk (edge_tree t) = []) then ret true
      else
        let '(ignore, t') := tc_check t (th_seq h) (th_ansn h) in
        do* upd_tc p (fun _ => t') in
        ret (negb ignore)
  end.

Definition olsr_input_tc (msg : list Z) (from_addr : ip_addr) : NM bool :=
  let* r := gets_opt (fun _ => pkt_get_u8 msg) in
  let '(type, curr) := r in
  if negb (type =? LQ_TC_MESSAGE) && negb (type =? TC_MESSAGE) then ret false
  else
    let* s := lift (check_neighbor_link from_addr) in
    if negb (s =? SYM_LINK) then ret false
    else
      let* r := gets_opt (fun _ => read_tc_header curr) in
      let '(h, curr) := r in
      let* tc := lift (olsr_lookup_tc_entry (th_originator h)) in
      let* min_vtime := gets_opt (fun _ => u32_of_float (SFmul 24 128 min_tc_vtime (float_of_u32 1000))) in
      let vtime := if th_vtime h <? min_vtime then min_vtime else th_vtime h in
      let* accepted := lift (tc_admit tc h) in
      if negb accepted then ret false
      else
        let* tc := match tc with
                   | Some tc => ret (Some tc)
                   | None => lift (olsr_add_tc_entry (th_originator h))
                   end in
        match tc with
        | None => crash                              (* a null pointer is dereferenced *)
        | Some tc =>
            let* deny := gets deny_entries in
            let* emptied := lift (tc_update deny tc h curr vtime) in
            do* when emptied
              (do* lift (olsr_cleanup_mid (th_originator h)) in
               do* olsr_cleanup_hna (th_originator h) in
               do* modify (fun n => set_dups (olsr_cleanup_duplicates (dups n) (th_originator h)) n) in
               lift (olsr_delete_tc_entry tc)) in
            ret true
        end.

End tc_input.
