(* ===== verification/TcInputSpec.v ===== *)
(** * Topology messages: what a message changes *)

From S2P Require Import Prelude Mantissa Timer Avl IpAddr KeyTree DupSet State MidLookup Interfaces NeighTable NeighProofs NeighSpec Packet LsdbOps Lq RouteTable TcSet.
From S2P Require Import LinkSet LsdbProofs LinkProofs LinkBest VertexProofs TcSpec LinkSpec MidSet MidSpec Node NetOlsr Hna HnaProofs HnaSpec TcInput.

Section tc_input_proofs.
Context {cnf : olsrd_config} {ncf : node_config} {lqh : lq_handler}.

(** ** Edges that were read from a message

    [d'] is [d] after the vertex [tc] announced, with the sequence number [ansn], the
    neighbours [l] with their link quality. *)
Definition listed (l : list (ip_addr * list Z)) (a : ip_addr) : Prop := exists b v, (b, v) ∈ l /\ aeq a b.

Record heard_edges (tc : positive) (ansn_ : Z) (l : list (ip_addr * list Z)) (d d' : lsdb) : Prop := {
  he_wf : lsdb_wf d';
  he_new b v : (b, v) ∈ l -> exists e x, edges d' !! e = Some x /\ edge_tc x = tc /\ aeq (T_dest_addr x) b;
  he_old g y' : edges d' !! g = Some y' ->
    (exists b v, (b, v) ∈ l /\ edge_tc y' = tc /\ aeq (T_dest_addr y') b /\ edge_ansn y' = ansn_ /\ edge_linkquality y' = v) \/
    (exists y, edges d !! g = Some y /\ set_edge_inv None y' = set_edge_inv None y /\ (edge_tc y = tc -> ~ listed l (T_dest_addr y)));
  he_kept g y : edges d !! g = Some y -> exists y', edges d' !! g = Some y' /\ edge_key y' = edge_key y;
  he_tcs : tc_rest <$> tcs d' = tc_rest <$> tcs d;
  he_rest : rtps d' = rtps d /\ rts d' = rts d /\ tc_tree d' = tc_tree d /\ tc_myself d' = tc_myself d /\
    routingtree d' = routingtree d /\ kernel_state d' = kernel_state d;
  he_size : (size (edges d') <= length l + size (edges d))%nat;
}.

Lemma heard_refl tc ansn_ d : lsdb_wf d -> heard_edges tc ansn_ [] d d.
Proof.
  intros Hwf. split; try done; [by intros b v ?%not_elem_of_nil| |by intros g y Hy; exists y].
  intros g y Hy. right. exists y. split; [done|]. split; [done|]. intros _ (b & v & Hb & _). by apply not_elem_of_nil in Hb.
Qed.

Lemma heard_trans tc ansn_ l1 l2 d d1 d2 :
  heard_edges tc ansn_ l1 d d1 -> heard_edges tc ansn_ l2 d1 d2 -> heard_edges tc ansn_ (l1 ++ l2) d d2.
Proof.
  intros [A1 A2 A3 A4 A5 A6 A7] [B1 B2 B3 B4 B5 B6 B7]. split.
  - done.
  - intros b v [Hb|Hb]%elem_of_app; [|by eapply B2]. destruct (A2 b v Hb) as (e & x & Hx & Et & Ea).
    destruct (B4 _ _ Hx) as (x' & Hx' & Ek). injection Ek as E1 E2. exists e, x'. rewrite E1, E2. done.
  - intros g y2 Hy2. destruct (B3 _ _ Hy2) as [(b & v & Hb & H)|(y1 & Hy1 & E & Hn)]; [left; exists b, v; set_solver|].
    assert (edge_tc y2 = edge_tc y1 /\ T_dest_addr y2 = T_dest_addr y1 /\ edge_ansn y2 = edge_ansn y1 /\
      edge_linkquality y2 = edge_linkquality y1) as (E1 & E2 & E3 & E4) by (destruct y1, y2; simpl in *; by injection E as; subst).
    destruct (A3 _ _ Hy1) as [(b & v & Hb & H)|(y & Hy & E' & Hn')].
    + left. exists b, v. rewrite E1, E2, E3, E4. set_solver.
    + right. exists y. split; [done|]. split; [congruence|].
      assert (edge_tc y1 = edge_tc y /\ T_dest_addr y1 = T_dest_addr y) as [F1 F2] by (destruct y1, y; simpl in *; by injection E' as; subst).
      intros Et (b & v & [Hb|Hb]%elem_of_app & Ha); [apply Hn'; [done|by exists b, v]|].
      apply Hn; [congruence|]. exists b, v. by rewrite F2.
  - intros g y Hy. destruct (A4 _ _ Hy) as (y1 & Hy1 & E1). destruct (B4 _ _ Hy1) as (y2 & Hy2 & E2). exists y2. split; [done|congruence].
  - congruence.
  - destruct A6 as (? & ? & ? & ? & ? & ?), B6 as (? & ? & ? & ? & ? & ?). split_and!; congruence.
  - rewrite length_app. lia.
Qed.

(** Writing the data of the edge to [b]. *)
Lemma heard_update tc ansn_ b v d e x f :
  lsdb_wf d -> edges d !! e = Some x -> edge_tc x = tc -> aeq (T_dest_addr x) b ->
  edge_key (f x) = edge_key x -> edge_inv (f x) = edge_inv x -> edge_ansn (f x) = ansn_ -> edge_linkquality (f x) = v ->
  heard_edges tc ansn_ [(b, v)] d (set_edges (<[e := f x]> (edges d)) d).
Proof.
  intros Hwf Hx Ht Ha Hk Hi Hn Hv. pose proof Hk as Hk'. injection Hk' as K1 K2.
  assert (forall g y, g <> e -> edges d !! g = Some y -> edge_tc y = tc -> ~ listed [(b, v)] (T_dest_addr y)) as Huniq.
  { intros g y Hg Hy Et (b' & v' & [= -> ->]%list_elem_of_singleton & Hb). apply Hg. destruct (dw_edge_tc _ Hwf _ _ Hx) as [t Htc]. rewrite Ht in Htc.
    pose proof (dw_edges _ Hwf _ _ Htc) as Hok. assert (aeq (T_dest_addr y) (T_dest_addr x)) as Hyx by (transitivity b; [exact Hb|by symmetry]).
    apply (tree_same (kt_wf := awf) _ _ g e (T_dest_addr y) (T_dest_addr x) Hok); [by exists y|by exists x|exact Hyx]. }
  split; simpl.
  - by apply edge_data_wf.
  - intros b' v' [= -> ->]%list_elem_of_singleton. exists e, (f x). rewrite lookup_insert_eq, K1, K2. done.
  - intros g y'. intros [[<- <-]|[Hg Hy]]%lookup_insert_Some; [left; exists b, v; rewrite K1, K2; set_solver|]. right. exists y'.
    split; [done|]. split; [done|]. by eapply Huniq.
  - intros g y Hy. destruct (decide (g = e)) as [->|Hg]; [|rewrite lookup_insert_ne by done; by exists y].
    rewrite lookup_insert_eq. exists (f x). split; [done|]. congruence.
  - done.
  - done.
  - rewrite map_size_insert_Some by by eexists. simpl. lia.
Qed.

(** A new edge to [b], with its data. *)
Lemma heard_add tc ansn_ b v d d1 e t x :
  lsdb_wf d -> edge_added tc e b ansn_ d d1 -> tcs d !! tc = Some t -> kt_find (edge_tree t) b = None -> edges d1 !! e = Some x ->
  heard_edges tc ansn_ [(b, v)] d (set_edges (<[e := set_edge_linkquality v x]> (edges d1)) d1).
Proof.
  intros Hwf [A1 A2 A3 A4 A5 A6 A7] Ht Hf Hx. destruct A3 as (x' & Hx' & X1 & X2 & X3 & _). assert (x' = x) as -> by congruence. clear Hx'.
  assert (forall g y, edges d !! g = Some y -> edge_tc y = tc -> ~ listed [(b, v)] (T_dest_addr y)) as Hno.
  { intros g y Hy Et (b' & v' & [= -> ->]%list_elem_of_singleton & Hb). rewrite (tree_find_None (kt_wf := awf) _ _ _ (dw_edges _ Hwf _ _ Ht)) in Hf.
    apply (Hf g (T_dest_addr y)); [by exists y|done]. }
  split; simpl.
  - by apply edge_data_wf.
  - intros b' v' [= -> ->]%list_elem_of_singleton. exists e, (set_edge_linkquality v x). rewrite lookup_insert_eq. simpl. by rewrite X1.
  - intros g y'. intros [[<- <-]|[Hg Hy]]%lookup_insert_Some; [left; exists b, v; simpl; rewrite X1; set_solver|]. right.
    destruct (A5 g y') as (y & Hy0 & E); [done..|]. exists y. split; [done|]. split; [done|]. by eapply Hno.
  - intros g y Hy. assert (g <> e) as Hg by (intros ->; congruence). rewrite lookup_insert_ne by done.
    assert (g ∈ dom (edges d1)) as [y' Hy']%elem_of_dom by (rewrite A4; apply elem_of_union; right; by apply elem_of_dom_2 in Hy).
    destruct (A5 g y') as (y0 & Hy0 & E); [done..|]. assert (y0 = y) as -> by congruence. exists y'. split; [done|].
    destruct y', y. unfold edge_key. simpl in *. by injection E as; subst.
  - done.
  - destruct A7 as (? & ? & ? & ? & ? & ? & ? & ?). by split_and!.
  - rewrite map_size_insert_Some by by eexists. rewrite <- !(size_dom (D := gset positive)), A4.
    rewrite size_union; [by rewrite size_singleton|]. intros g Hg%elem_of_singleton Hd. subst g. apply elem_of_dom in Hd as [? ?]. congruence.
Qed.

(** ** Reading one edge *)

(** The bytes [q] are read as the link quality [v]. *)
Definition lq_reads (q v : list Z) : Prop := forall old rest, deserialize_tc_lq old (q ++ rest) = Some (v, rest).

Lemma wp_deserialize_tc e x q v rest (Q : list Z -> olsr_state -> Prop) st :
  edges (db st) !! e = Some x -> lq_reads q v ->
  Q rest (set_db (set_edges (<[e := set_edge_linkquality v x]> (edges (db st))) (db st)) st) ->
  wp (olsr_deserialize_tc_lq_pair e (q ++ rest)) Q st.
Proof.
  intros Hx Hq HQ. unfold olsr_deserialize_tc_lq_pair. wp_step. eapply wp_get_edge; [exact Hx|].
  wp_step. eapply wp_gets_opt; [apply Hq|]. wp_step. eapply wp_upd_edge; [exact Hx|]. by wp_step.
Qed.

Lemma wp_tc_update_edge validate tc t ansn_ b q v rest st :
  lsdb_wf (db st) -> tcs (db st) !! tc = Some t -> db_room 1 (db st) -> is_ip (ipsize ip_version) b -> lq_reads q v ->
  validate b = true -> 0 < lq_level ->
  wp (olsr_tc_update_edge validate tc ansn_ (ip_bytes (ipsize ip_version) b ++ q ++ rest)) (fun r st' =>
    (exists c, r = (b, rest, c)) /\ heard_edges tc ansn_ [(b, v)] (db st) (db st') /\ st' = set_db (db st') st) st.
Proof.
  intros Hwf Ht Hroom Hb Hq Hval Hlq. unfold olsr_tc_update_edge. wp_step. eapply wp_gets_opt.
  { pose proof (get_put_ipaddress b (q ++ rest) Hb) as E. unfold pkt_put_ipaddress in E. rewrite app_nil_l in E. exact E. }
  cbv beta iota. unfold olsr_lookup_tc_edge. wp_step. wp_step. eapply wp_get_tc; [exact Ht|]. wp_step.
  destruct (kt_find (edge_tree t) b) as [e|] eqn:Ef.
  - apply (tree_find_Some (kt_wf := awf) _ _ _ _ (dw_edges _ Hwf _ _ Ht)) in Ef as (a & Ka & x & Hx & Et & Ea).
    wp_step. eapply wp_upd_edge; [exact Hx|]. assert (lq_level >? 0 = true) as -> by (apply Z.gtb_lt; lia).
    wp_step. eapply wp_deserialize_tc; [simpl; apply lookup_insert_eq|exact Hq|]. wp_step.
    eapply wp_calc_etx; [simpl; apply lookup_insert_eq|]. assert (1 <=? lq_level = true) as -> by (apply Z.leb_le; lia). wp_step.
    simpl. rewrite !insert_insert_eq. split; [by eexists|]. split; [|done].
    apply (heard_update tc ansn_ b v (db st) e x (fun x => set_edge_cost _ (set_edge_linkquality v (set_edge_ansn ansn_ x)))); try done. by rewrite Ea.
  - rewrite Hval. cbn [negb]. wp_step. eapply wp_mono; [apply (wp_add_edge tc t b ansn_ st); try done|].
    { pose proof (degree_size _ _ _ Hwf Ht). unfold db_room in Hroom. lia. }
    cbv beta. intros e st1 [Hadd Est]. destruct (ea_new _ _ _ _ _ _ Hadd) as (x & Hx & _).
    wp_step. eapply wp_deserialize_tc; [exact Hx|exact Hq|]. wp_step. split; [by eexists|]. split; [by eapply heard_add|].
    assert (forall d, set_db d st1 = set_db d st) as E by (intros d; by rewrite Est). apply E.
Qed.

(** ** All edges of a message *)

Definition put_edges (nets : list (ip_addr * list Z)) : list Z :=
  concat (map (fun k => ip_bytes (ipsize ip_version) (fst k) ++ snd k) nets).
Definition edge_ok (deny : list ip_addr) (seen : list Z -> list Z) (k : ip_addr * list Z) : Prop :=
  is_ip (ipsize ip_version) (fst k) /\ lq_reads (snd k) (seen (snd k)) /\ olsr_validate_address deny (fst k) = true.
Definition seen_edges (seen : list Z -> list Z) (nets : list (ip_addr * list Z)) : list (ip_addr * list Z) :=
  map (fun k => (fst k, seen (snd k))) nets.
Definition ends (borders : option (ip_addr * ip_addr)) (nets : list (ip_addr * list Z)) : option (ip_addr * ip_addr) :=
  foldl (fun b k => Some (match b with Some (lower, _) => lower | None => fst k end, fst k)) borders nets.

Lemma length_put_edges k nets : length (put_edges (k :: nets)) = (ipsize ip_version + length (snd k) + length (put_edges nets))%nat.
Proof. unfold put_edges. simpl. rewrite !length_app. unfold ip_bytes. by rewrite length_map, length_seq. Qed.

Lemma tcs_of_rest {d d' tc t} : tc_rest <$> tcs d' = tc_rest <$> tcs d -> tcs d !! tc = Some t ->
  exists t', tcs d' !! tc = Some t' /\ tc_rest t' = tc_rest t.
Proof.
  intros E Ht. destruct (map_lookup_rest tc_rest _ _ _ _ (eq_sym E) Ht) as (t' & Ht' & H). by exists t'.
Qed.

Lemma wp_tc_edges fuel deny seen tc t ansn_ nets rest borders st :
  lsdb_wf (db st) -> tcs (db st) !! tc = Some t -> db_room (length nets) (db st) -> Forall (edge_ok deny seen) nets -> 0 < lq_level ->
  (length nets <= fuel)%nat ->
  wp (tc_edges fuel deny tc ansn_ (put_edges nets ++ rest) (Z.of_nat (length (put_edges nets))) borders) (fun r st' =>
    r = ends borders nets /\ heard_edges tc ansn_ (seen_edges seen nets) (db st) (db st') /\
    exists c, st' = set_changes_topology c (set_db (db st') st)) st.
Proof.
  intros Hwf Ht Hroom Hok Hlq. revert fuel st borders t Hwf Ht Hroom. induction Hok as [|[b q] nets (Hb & Hq & Hv) Hok IH]; intros fuel st borders t Hwf Ht Hroom Hfuel.
  - assert (tc_edges fuel deny tc ansn_ (put_edges [] ++ rest) (Z.of_nat (length (put_edges []))) borders = ret borders) as -> by by destruct fuel.
    apply wp_ret. split; [done|]. split; [by apply heard_refl|]. exists (changes_topology st). by destruct st.
  - destruct fuel as [|fuel]; [simpl in Hfuel; lia|]. simpl in Hb, Hq, Hv. pose proof (length_put_edges (b, q) nets) as Hlen. simpl in Hlen.
    assert (0 < ipsize ip_version)%nat as Hip by (unfold ipsize; destruct ip_version; lia).
    cbn [tc_edges]. destruct (_ <=? 0) eqn:E; bool_hyps; [lia|].
    assert (put_edges ((b, q) :: nets) ++ rest = ip_bytes (ipsize ip_version) b ++ q ++ put_edges nets ++ rest) as Eb
      by (unfold put_edges; simpl; by rewrite <- !app_assoc).
    rewrite Eb. wp_step. eapply wp_mono; [apply (wp_tc_update_edge _ tc t ansn_ b q (seen q)); try done|].
    { eapply room_mono; [|exact Hroom]. simpl. lia. }
    cbv beta. intros r st1 ((c & ->) & Hh & Est). cbv iota. wp_step.
    assert (forall ch, wp (tc_edges fuel deny tc ansn_ (put_edges nets ++ rest)
       (Z.of_nat (length (put_edges ((b, q) :: nets))) - Z.of_nat (length (ip_bytes (ipsize ip_version) b ++ q ++ put_edges nets ++ rest) - length (put_edges nets ++ rest)))
       (Some (match borders with Some (lower, _) => lower | None => b end, b)))
      (fun r st' => r = ends borders ((b, q) :: nets) /\ heard_edges tc ansn_ (seen_edges seen ((b, q) :: nets)) (db st) (db st') /\
        exists c, st' = set_changes_topology c (set_db (db st') st)) (set_changes_topology ch st1)) as Hrest.
    { intros ch. destruct (tcs_of_rest (he_tcs _ _ _ _ _ Hh) Ht) as (t1 & Ht1 & _).
      match goal with |- context [tc_edges _ _ _ _ _ ?z _] => replace z with (Z.of_nat (length (put_edges nets)))
        by (rewrite Hlen, <- Eb, !length_app, Hlen; lia) end.
      eapply wp_mono; [apply (IH fuel (set_changes_topology ch st1) _ t1); [apply Hh|exact Ht1| |simpl in Hfuel; lia]|].
      - unfold db_room in *. simpl. pose proof (he_size _ _ _ _ _ Hh) as Hsz. simpl in Hsz.
        destruct (he_rest _ _ _ _ _ Hh) as (-> & _). simpl in Hroom. lia.
      - cbv beta. intros r st2 (-> & H2 & c2 & E2). split; [done|]. split.
        + change (seen_edges seen ((b, q) :: nets)) with ([(b, seen q)] ++ seen_edges seen nets). by eapply heard_trans.
        + exists c2. rewrite E2 at 1. simpl. assert (forall c d, set_changes_topology c (set_db d (set_changes_topology ch st1)) = set_changes_topology c (set_db d st)) as Es
            by (intros c0 d; by rewrite Est). apply Es. }
    destruct c; cbn [when]; wp_step.
    + apply Hrest.
    + specialize (Hrest (changes_topology st1)). by replace (set_changes_topology (changes_topology st1) st1) with st1 in Hrest by by destruct st1.
Qed.

(** ** The update of the vertex *)

(** The borders of a message with these edges; [None] outside: a flag is out of range. *)
Definition tc_borders (h : tc_header) (nets : list (ip_addr * list Z)) : option (option (ip_addr * ip_addr)) :=
  let n := ipsize ip_version in
  match ends None nets with
  | None => Some (if (th_lower h =? 255) && (th_upper h =? 255)
                  then Some (ip_of_bytes (replicate n 0), ip_of_bytes (replicate n 255)) else None)
  | Some (lower, upper) =>
      b ← olsr_calculate_tc_border (th_lower h) (ip_bytes n lower) (th_upper h) (ip_bytes n upper);
      Some (match b with Some (l, u) => Some (ip_of_bytes l, ip_of_bytes u) | None => None end)
  end.

Definition covered (borders : option (ip_addr * ip_addr)) (a : ip_addr) : bool :=
  match borders with Some (lower, upper) => (cmp_default lower a <=? 0) && negb (cmp_default upper a <=? 0) | None => false end.

(** A one-shot timer was started or restarted at the time [now], to fire after [rel]
    milliseconds less a jitter of at most [pct] percent ([calc_jitter_bounds]); no timer runs
    for the time zero. *)
Definition timer_set (now rel pct : Z) (t : option timer_entry) : Prop :=
  if rel =? 0 then t = None
  else exists te, t = Some te /\ timer_clock te = calc_jitter OLSR_RANDOM_MAX now rel pct (timer_random te) /\ timer_period te = 0.

(** The timers of a vertex after a message: it stays valid for [vtime]; without borders the
    edges that were not listed are collected two seconds later. *)
Definition timers_after (now vtime : Z) (borders : option (ip_addr * ip_addr)) (t t' : tc_entry) : Prop :=
  timer_set now vtime 5 (validity_timer t') /\
  match borders with
  | Some _ => edge_gc_timer t' = edge_gc_timer t
  | None => timer_set now 2000 5 (edge_gc_timer t')
  end.

(** [d'] is [d] after the message [h] of the vertex [tc] with the edges [l]. *)
Record tc_updated (now vtime : Z) (tc : positive) (h : tc_header) (l : list (ip_addr * list Z)) (borders : option (ip_addr * ip_addr)) (d d' : lsdb) : Prop := {
  tu_wf : lsdb_wf d';
  tu_vertex t : tcs d !! tc = Some t -> exists t', tcs d' !! tc = Some t' /\ (tc_addr t' = tc_addr t /\ tc_msg_seq t' = th_seq h /\
    tc_ansn t' = th_ansn h /\ tc_msg_hops t' = th_hops h /\ ignored t' = 0 /\ err_seq_valid t' = false) /\ timers_after now vtime borders t t';
  tu_listed b v : (b, v) ∈ l -> exists e x, edges d' !! e = Some x /\ edge_tc x = tc /\ aeq (T_dest_addr x) b;
  tu_edges g y' : edges d' !! g = Some y' ->
    (exists b v, (b, v) ∈ l /\ edge_tc y' = tc /\ aeq (T_dest_addr y') b /\ edge_ansn y' = th_ansn h /\ edge_linkquality y' = v) \/
    (exists y, edges d !! g = Some y /\ set_edge_inv None y' = set_edge_inv None y /\ (edge_tc y = tc -> ~ listed l (T_dest_addr y)));
  tu_kept g y : edges d !! g = Some y -> ~ (edge_tc y = tc /\ listed l (T_dest_addr y)) ->
    edges d' !! g = None <-> edge_tc y = tc /\ covered borders (T_dest_addr y) = true /\ SEQNO_GREATER_THAN (th_ansn h) (edge_ansn y) = true;
  tu_rest : rtps d' = rtps d /\ tc_tree d' = tc_tree d;
  tu_others p : p <> tc -> tc_rest <$> (tcs d' !! p) = tc_rest <$> (tcs d !! p);
}.

(** The state apart from the topology, the flags and the random numbers. *)
Definition tc_frame (st st' : olsr_state) : Prop := db_frame (set_random_count 0 st) (set_random_count 0 st').

#[export] Instance tc_frame_equiv : Equivalence tc_frame.
Proof. unfold tc_frame. split; [by intros ?|intros ? ? H; by symmetry|intros ? ? ? H1 H2; by etrans]. Qed.

Lemma tc_frame_set c k d st : tc_frame st (set_random_count k (set_changes_topology c (set_db d st))).
Proof. done. Qed.

Lemma seqno_greater_refl n : SEQNO_GREATER_THAN n n = false.
Proof. unfold SEQNO_GREATER_THAN. rewrite !Z.gtb_ltb, !Z.ltb_irrefl. done. Qed.

Lemma wp_upd_tc_data tc t f (Q : unit -> olsr_state -> Prop) st :
  lsdb_wf (db st) -> tcs (db st) !! tc = Some t -> tc_addr (f t) = tc_addr t -> edge_tree (f t) = edge_tree t ->
  prefix_tree (f t) = prefix_tree t -> refcount (f t) = refcount t ->
  (lsdb_wf (set_tcs (<[tc := f t]> (tcs (db st))) (db st)) -> Q tt (set_db (set_tcs (<[tc := f t]> (tcs (db st))) (db st)) st)) ->
  wp (upd_tc tc f) Q st.
Proof. intros Hwf Ht H1 H2 H3 H4 HQ. eapply wp_upd_tc; [exact Ht|]. by apply HQ, tc_data_wf. Qed.

(** Changes to the data of vertices only. *)
Definition same_links (d d' : lsdb) : Prop := edges d' = edges d /\ rtps d' = rtps d /\ tc_tree d' = tc_tree d.

(** Removing the edges that the borders cover and the message revokes. *)
Lemma updated_removed now vtime tc h l borders d0 d d0' d1 d2 t X :
  same_links d0 d -> heard_edges tc (th_ansn h) l d d0' -> same_links d0' d1 -> lsdb_wf d1 ->
  edges_removed X d1 d2 -> tcs d1 !! tc = Some t ->
  (forall e, e ∈ X <-> e ∈ map fst (kt_walk (edge_tree t)) /\ covered borders (dest_of d1 e) = true /\ outdated d1 (th_ansn h) e = true) ->
  (forall t0, tcs d0 !! tc = Some t0 -> exists t', tcs d2 !! tc = Some t' /\ (tc_addr t' = tc_addr t0 /\ tc_msg_seq t' = th_seq h /\
    tc_ansn t' = th_ansn h /\ tc_msg_hops t' = th_hops h /\ ignored t' = 0 /\ err_seq_valid t' = false) /\ timers_after now vtime borders t0 t') ->
  (forall p, p <> tc -> tcs d !! p = tcs d0 !! p /\ tcs d1 !! p = tcs d0' !! p) ->
  tc_updated now vtime tc h l borders d0 d2.
Proof.
  intros (F1 & F2 & F3) Hh (G1 & G2 & G3) Hwf1 Hr Ht HX Hv Ho. destruct (edge_list _ _ _ Hwf1 Ht) as [_ Hel].
  assert (forall e y, edges d1 !! e = Some y -> e ∈ X <-> edge_tc y = tc /\ covered borders (T_dest_addr y) = true /\
    SEQNO_GREATER_THAN (th_ansn h) (edge_ansn y) = true) as HX'.
  { intros e y Hy. rewrite HX, Hel. unfold dest_of, outdated. rewrite Hy. simpl. naive_solver. }
  split.
  - apply Hr.
  - exact Hv.
  - intros b v Hb. destruct (he_new _ _ _ _ _ Hh b v Hb) as (e & x & Hx & Et & Ea). pose proof Hx as Hx1. rewrite <- G1 in Hx1.
    destruct (he_old _ _ _ _ _ Hh _ _ Hx) as [(b' & v' & _ & _ & _ & En & _)|(y & Hy & E & Hn)].
    + destruct (er_lookup _ _ _ _ _ Hr Hx1) as (x' & Hx' & E).
      { rewrite (HX' _ _ Hx1), En, seqno_greater_refl. by intros (_ & _ & ?). }
      exists e, x'. apply edge_static_fields in E as (-> & -> & _). done.
    + apply edge_static_fields in E as (E1 & E2 & _). destruct Hn; [congruence|]. exists b, v. by rewrite <- E1.
  - intros g y2 Hy2. destruct (er_edges _ _ _ Hr _ _ Hy2) as (y1 & Hy1 & E). rewrite G1 in Hy1.
    destruct (he_old _ _ _ _ _ Hh _ _ Hy1) as [(b & v & Hb & H)|(y & Hy & E' & Hn)].
    + left. exists b, v. split; [done|]. destruct y1, y2. simpl in *. injection E as. by subst.
    + right. exists y. rewrite <- F1. split; [done|]. split; [congruence|done].
  - intros g y Hy Hn. rewrite <- F1 in Hy. destruct (he_kept _ _ _ _ _ Hh _ _ Hy) as (y1 & Hy1 & Ek).
    destruct (he_old _ _ _ _ _ Hh _ _ Hy1) as [(b & v & Hb & Et & Ea & _)|(y0 & Hy0 & E & _)].
    + destruct Hn. injection Ek as E1 E2. split; [congruence|]. exists b, v. by rewrite <- E1.
    + assert (y0 = y) as -> by congruence. apply edge_static_fields in E as (E1 & E2 & E3).
      rewrite <- G1 in Hy1. rewrite <- E1, <- E2, <- E3, <- (HX' _ _ Hy1). rewrite <- not_elem_of_dom, (er_dom _ _ _ Hr), elem_of_difference.
      apply elem_of_dom_2 in Hy1. destruct (decide (g ∈ X)); tauto.
  - destruct (he_rest _ _ _ _ _ Hh) as (E1 & _ & E2 & _). rewrite (er_rtps _ _ _ Hr), (er_tc_tree _ _ _ Hr).
    split; congruence.
  - intros p Hp. destruct (Ho p Hp) as [O1 O2]. rewrite <- O1, <- lookup_fmap, (er_tcs _ _ _ Hr), lookup_fmap, O2, <- lookup_fmap, (he_tcs _ _ _ _ _ Hh), lookup_fmap. done.
Qed.

(** The fields of the vertex that the message sets. *)
Definition heard_of (h : tc_header) (t t' : tc_entry) : Prop :=
  tc_addr t' = tc_addr t /\ tc_msg_seq t' = th_seq h /\ tc_ansn t' = th_ansn h /\ tc_msg_hops t' = th_hops h /\
  ignored t' = 0 /\ err_seq_valid t' = false.

Lemma heard_of_rest h t t1 t2 : tc_rest t2 = tc_rest t1 -> heard_of h t t1 -> heard_of h t t2.
Proof. unfold heard_of. intros E (E1 & E2 & E3 & E4 & E5 & E6). destruct t1, t2. simpl in *. injection E as. by subst. Qed.

Lemma timers_rest now vtime borders t t1 t2 : tc_rest t2 = tc_rest t1 -> timers_after now vtime borders t t1 -> timers_after now vtime borders t t2.
Proof. unfold timers_after. intros E H. destruct t1, t2. simpl in *. injection E as. by subst. Qed.

Lemma wp_set_oneshot t rel pct (Q : option timer_entry -> olsr_state -> Prop) st :
  (forall t' k, timer_set (now_times st) rel pct t' -> Q t' (set_random_count k st)) -> wp (olsr_set_timer t rel pct OLSR_TIMER_ONESHOT) Q st.
Proof.
  intros HQ. assert (set_random_count (random_count st) st = st) as Hid by (by destruct st).
  unfold olsr_set_timer, olsr_start_timer, olsr_change_timer, timer_set in *. destruct (rel =? 0) eqn:E.
  - apply wp_ret. rewrite <- Hid. by apply HQ.
  - destruct t; wp_steps; [rewrite <- Hid|]; apply HQ; by eexists.
Qed.

Lemma wp_tc_read_edges deny seen tc t h nets rest bs st :
  lsdb_wf (db st) -> tcs (db st) !! tc = Some t -> db_room (length nets) (db st) -> Forall (edge_ok deny seen) nets -> 0 < lq_level ->
  th_size h = 12 + Z.of_nat (ipsize ip_version) + Z.of_nat (length (put_edges nets)) -> tc_borders h nets = Some bs ->
  wp (tc_read_edges deny tc h (put_edges nets ++ rest)) (fun r st' =>
    r = (bool_decide (nets = []), if bool_decide (nets = []) then None else bs) /\
    heard_edges tc (th_ansn h) (seen_edges seen nets) (db st) (db st') /\ exists c, st' = set_changes_topology c (set_db (db st') st)) st.
Proof.
  intros Hwf Ht Hroom Hok Hlq Hsize Hbs. unfold tc_read_edges. rewrite Hsize. wp_step.
  replace (12 + _ + _ - 12 - _) with (Z.of_nat (length (put_edges nets))) by lia.
  eapply wp_mono; [apply (wp_tc_edges _ deny seen tc t (th_ansn h) nets rest None); try done|].
  - rewrite length_app. enough (length nets <= length (put_edges nets))%nat by lia. clear -cnf. induction nets as [|k nets IH]; [done|].
    rewrite length_put_edges. assert (0 < ipsize ip_version)%nat by (unfold ipsize; destruct ip_version; lia). simpl. lia.
  - cbv beta. intros r st' (-> & H1 & H2). unfold tc_borders in Hbs. destruct nets as [|k nets]; [by apply wp_ret|].
    rewrite bool_decide_eq_false_2 by done. destruct (ends None (k :: nets)) as [[lower upper]|] eqn:Ee.
    + destruct (olsr_calculate_tc_border _ _ _ _) as [b|] eqn:Eb; [|done]. simpl in Hbs. injection Hbs as Hbs.
      wp_step. eapply wp_gets_opt; [reflexivity|]. wp_step. by rewrite Hbs.
    + exfalso. clear -Ee. unfold ends in Ee. cbn [foldl] in Ee. revert Ee. generalize (fst k, fst k). induction nets as [|j nets IH]; intros [lo up]; [done|]. apply IH.
Qed.

Lemma wp_tc_update deny seen tc t h nets rest bs vtime st :
  lsdb_wf (db st) -> tcs (db st) !! tc = Some t -> db_room (length nets) (db st) -> Forall (edge_ok deny seen) nets -> 0 < lq_level ->
  th_size h = 12 + Z.of_nat (ipsize ip_version) + Z.of_nat (length (put_edges nets)) -> tc_borders h nets = Some bs ->
  wp (tc_update deny tc h (put_edges nets ++ rest) vtime) (fun emptied st' =>
    emptied = bool_decide (nets = []) && match bs with Some _ => true | None => false end /\
    tc_updated (now_times st) vtime tc h (seen_edges seen nets) bs (db st) (db st') /\ tc_frame st st') st.
Proof.
  intros Hwf Ht Hroom Hok Hlq Hsize Hbs. unfold tc_update. wp_step. eapply wp_upd_tc_data; [done|exact Ht|done..|]. intros Hwf0.
  set (t0 := set_err_seq_valid _ _) in *. match goal with |- wp _ _ ?s => set (st0 := s) in * end.
  assert (tcs (db st0) !! tc = Some t0) as Ht0 by apply lookup_insert_eq. assert (heard_of h t t0) as Hh0 by by split_and!.
  wp_step. eapply wp_mono; [by apply (wp_tc_read_edges deny seen tc t0 h nets rest bs st0)|]. cbv beta. intros r st1 (-> & H1 & c & E1). cbv iota.
  destruct (tcs_of_rest (he_tcs _ _ _ _ _ H1) Ht0) as (t1 & Ht1 & Et1). pose proof (heard_of_rest _ _ _ _ Et1 Hh0) as Hh1.
  wp_step. eapply wp_get_tc; [exact Ht1|]. wp_step. apply wp_set_oneshot. intros timer k Htimer.
  assert (now_times st1 = now_times st) as Enow by (by rewrite E1). rewrite Enow in Htimer.
  assert (edge_gc_timer t1 = edge_gc_timer t) as Egc by (change (edge_gc_timer t) with (edge_gc_timer (tc_rest t0)); by rewrite <- Et1).
  wp_step. eapply wp_upd_tc_data; [apply H1|exact Ht1|done..|]. intros Hwf2. simpl in Hwf2.
  match goal with |- wp _ _ ?s => set (st2 := s) end. set (t2 := set_validity_timer timer t1) in *.
  assert (tcs (db st2) !! tc = Some t2) as Ht2 by apply lookup_insert_eq. assert (heard_of h t t2) as Hh2 by done.
  assert (tc_frame st st2) as Hf2 by (unfold st2; rewrite E1; done).
  assert (same_links (db st) (db st0)) as L0 by done. assert (same_links (db st1) (db st2)) as L2 by done.
  assert ((if bool_decide (nets = []) && (th_lower h =? 255) && (th_upper h =? 255)
    then Some (ip_of_bytes (replicate (ipsize ip_version) 0), ip_of_bytes (replicate (ipsize ip_version) 255))
    else if bool_decide (nets = []) then None else bs) = bs) as ->.
  { unfold tc_borders in Hbs. case_bool_decide as En; [|done]. rewrite En in Hbs. cbn [ends foldl] in Hbs. injection Hbs as <-.
    by destruct (th_lower h =? 255), (th_upper h =? 255). }
  wp_step. destruct bs as [[lower upper]|].
  - wp_step. eapply wp_mono; [by apply (wp_delete_revoked tc t2)|]. cbv beta zeta. intros r3 st3 (Hr & _ & E3). wp_step. wp_step.
    split; [done|]. destruct (tcs_of_rest (er_tcs _ _ _ Hr) Ht2) as (t3 & Ht3 & Et3). pose proof (heard_of_rest _ _ _ _ Et3 Hh2) as Hh3. split.
    + eapply (updated_removed _ _ tc h _ _ _ _ _ _ _ t2); [exact L0|exact H1|exact L2|exact Hwf2|exact Hr|exact Ht2| | |].
      * intros e. rewrite elem_of_revoked. unfold in_borders, covered. tauto.
      * intros t' Ht'. assert (t' = t) as -> by congruence. exists t3. split; [done|]. split; [exact Hh3|].
        apply (timers_rest _ _ _ _ t2); [exact Et3|]. by split.
      * intros p Hp. simpl. by rewrite !lookup_insert_ne.
    + etrans; [exact Hf2|]. by rewrite E3.
  - wp_step. eapply wp_get_tc; [exact Ht2|]. wp_step. apply wp_set_oneshot. intros timer2 k2 Htimer2.
    assert (now_times st2 = now_times st) as Enow2 by (unfold st2; by rewrite <- Enow). rewrite Enow2 in Htimer2.
    eapply wp_upd_tc_data; [exact Hwf2|exact Ht2|done..|]. intros Hwf3. simpl in Hwf3. wp_step. split; [done|].
    match goal with |- tc_updated _ _ _ _ _ _ _ (db ?s) /\ _ => set (st3 := s) end. split; [|by etrans].
    eapply (updated_removed _ _ tc h _ None _ _ _ (db st3) _ _ ∅); [exact L0|exact H1|done|exact Hwf3|by apply edges_removed_refl|apply lookup_insert_eq| | |].
    + intros e. split; [set_solver|]. by intros (_ & ? & _).
    + intros t' Ht'. assert (t' = t) as -> by congruence. eexists. split; [apply lookup_insert_eq|]. split; [exact Hh2|by split].
    + intros p Hp. simpl. by rewrite !lookup_insert_ne.
Qed.

End tc_input_proofs.

Section tc_input_spec.
Context {cnf : olsrd_config} {ncf : node_config} {lqh : lq_handler}.

(** ** The message *)

Definition put_tc (type vt : Z) (h : tc_header) (ttl : Z) (nets : list (ip_addr * list Z)) : list Z :=
  [type; vt] ++ pkt_put_u16 [] (th_size h) ++ ip_bytes (ipsize ip_version) (th_originator h) ++ [ttl; th_hops h] ++
  pkt_put_u16 [] (th_seq h) ++ pkt_put_u16 [] (th_ansn h) ++ [th_lower h; th_upper h] ++ put_edges nets.

Record tc_sound (vt : Z) (h : tc_header) (nets : list (ip_addr * list Z)) : Prop := {
  ts_vtime : th_vtime h = me_to_reltime vt;
  ts_size : th_size h = 12 + Z.of_nat (ipsize ip_version) + Z.of_nat (length (put_edges nets));
  ts_fits : is_u16 (th_size h);
  ts_orig : is_ip (ipsize ip_version) (th_originator h);
  ts_seq : is_u16 (th_seq h);
  ts_ansn : is_u16 (th_ansn h);
}.

Lemma read_put_tc type vt h ttl nets rest : tc_sound vt h nets ->
  pkt_get_u8 (put_tc type vt h ttl nets ++ rest) = Some (type, drop 1 (put_tc type vt h ttl nets ++ rest)) /\
  read_tc_header (drop 1 (put_tc type vt h ttl nets ++ rest)) = Some (h, put_edges nets ++ rest).
Proof.
  intros [E1 E2 H1 H2 H3 H4]. split; [done|]. unfold put_tc. rewrite <- !app_assoc. cbn [app drop].
  unfold read_tc_header. cbn [pkt_get_reltime mbind option_bind]. rewrite get_put_u16 by done. cbn [mbind option_bind].
  pose proof (get_put_ipaddress (th_originator h) ([ttl; th_hops h] ++ pkt_put_u16 [] (th_seq h) ++ pkt_put_u16 [] (th_ansn h) ++
    [th_lower h; th_upper h] ++ put_edges nets ++ rest) H2) as E. unfold pkt_put_ipaddress in E. rewrite app_nil_l in E.
  cbn [app] in E. rewrite E. cbn [mbind option_bind pkt_get_u8]. rewrite get_put_u16 by done. cbn [mbind option_bind].
  rewrite get_put_u16 by done. cbn [mbind option_bind pkt_get_u8]. rewrite <- E1. by destruct h.
Qed.

(** ** Which messages are accepted *)

Definition admits (d : lsdb) (h : tc_header) : bool :=
  match kt_find (tc_tree d) (th_originator h) with
  | Some p =>
      match tcs d !! p with
      | Some t => bool_decide (kt_walk (edge_tree t) = []) || negb (fst (tc_check t (th_seq h) (th_ansn h)))
      | None => true
      end
  | None => true
  end.



(** The vertex of the originator is known and has edges. *)
Definition heard_before (d : lsdb) (h : tc_header) (p : positive) (t : tc_entry) : Prop :=
  kt_find (tc_tree d) (th_originator h) = Some p /\ tcs d !! p = Some t /\ exists e y, edges d !! e = Some y /\ edge_tc y = p.

Definition nums_ok (d : lsdb) : Prop := forall p t, tcs d !! p = Some t -> is_u16 (tc_msg_seq t) /\ is_u16 (tc_ansn t).





Lemma tc_check_links t s a : tc_addr (snd (tc_check t s a)) = tc_addr t /\ edge_tree (snd (tc_check t s a)) = edge_tree t /\
  prefix_tree (snd (tc_check t s a)) = prefix_tree t /\ refcount (snd (tc_check t s a)) = refcount t /\
  edge_gc_timer (snd (tc_check t s a)) = edge_gc_timer t.
Proof. unfold tc_check. repeat case_match; done. Qed.

(** Nothing but the numbers that the vertex [tc] has noted may differ. *)
Definition keeps_gc (tc : positive) (d d' : lsdb) : Prop :=
  (forall t, tcs d !! tc = Some t -> exists t', tcs d' !! tc = Some t' /\ tc_addr t' = tc_addr t /\ edge_gc_timer t' = edge_gc_timer t) /\
  forall p, p <> tc -> tcs d' !! p = tcs d !! p.

Lemma keeps_gc_refl tc d : keeps_gc tc d d.
Proof. split; [|done]. intros t Ht. by exists t. Qed.

Lemma wp_tc_admit h st :
  lsdb_wf (db st) -> wp (tc_admit (kt_find (tc_tree (db st)) (th_originator h)) h) (fun r st' =>
    r = admits (db st) h /\ lsdb_wf (db st') /\ same_links (db st) (db st') /\ (forall p, kt_find (tc_tree (db st)) (th_originator h) = Some p -> keeps_gc p (db st) (db st')) /\
    st' = set_db (db st') st /\ (kt_find (tc_tree (db st)) (th_originator h) = None -> st' = st) /\
    forall p t, heard_before (db st) h p t -> db st' = set_tcs (<[p := snd (tc_check t (th_seq h) (th_ansn h))]> (tcs (db st))) (db st)) st.
Proof.
  intros Hwf. unfold tc_admit, admits, heard_before. destruct (kt_find (tc_tree (db st)) (th_originator h)) as [p|] eqn:Ef;
    [|apply wp_ret; split; [done|]; split; [done|]; split; [done|]; split; [done|]; split; [by destruct st|]; split; [done|]; by intros ? ? [? _]].
  apply (tree_find_Some (kt_wf := awf) _ _ _ _ (dw_tcs _ Hwf)) in Ef as (a & _ & t & Ht & _). rewrite Ht.
  wp_step. eapply wp_get_tc; [exact Ht|]. destruct (edge_list _ _ _ Hwf Ht) as [_ Hel]. case_bool_decide as En.
  - apply wp_ret. split; [done|]. split; [done|]. split; [done|]. split; [intros; apply keeps_gc_refl|]. split; [by destruct st|]. split; [done|].
    intros p' t' ([= <-] & _ & e & y & Hy & Ey). exfalso. assert (e ∈ map fst (kt_walk (edge_tree t))) as Hin by (apply Hel; by exists y).
    rewrite En in Hin. by apply not_elem_of_nil in Hin.
  - destruct (tc_check t (th_seq h) (th_ansn h)) as [ig t'] eqn:Ec. pose proof (tc_check_links t (th_seq h) (th_ansn h)) as (L1 & L2 & L3 & L4 & L5).
    rewrite Ec in L1, L2, L3, L4, L5. simpl in L1, L2, L3, L4, L5. wp_step. eapply wp_upd_tc_data; [exact Hwf|exact Ht|done..|]. intros Hwf'. apply wp_ret.
    split; [done|]. split; [done|]. split; [done|]. split; [|split; [done|]; split; [done|]].
    + intros q [= <-]. split; simpl.
      * intros s Hs. rewrite lookup_insert_eq. exists t'. assert (s = t) as -> by congruence. done.
      * intros q Hq. by rewrite lookup_insert_ne.
    + intros p' s ([= <-] & Hs & _). assert (s = t) as -> by congruence. by rewrite Ec.
Qed.


(** ** The vertex of the originator *)

Definition located (tc : positive) (a : ip_addr) (d d' : lsdb) : Prop :=
  kt_find (tc_tree d) a = Some tc /\ d' = d \/ kt_find (tc_tree d) a = None /\ vertex_added tc a d d'.

Lemma updated_from now vt tc h l bs d0 d d' : same_links d0 d -> keeps_gc tc d0 d -> tc_updated now vt tc h l bs d d' -> tc_updated now vt tc h l bs d0 d'.
Proof.
  intros (E1 & E2 & E3) [Hk Ho] [U1 U2 U3 U4 U5 [U6 U7] U8]. split; try done; rewrite <- ?E1, <- ?E2, <- ?E3; try done; [|intros p Hp; by rewrite <- Ho, U8].
  intros t Ht. destruct (Hk _ Ht) as (t1 & Ht1 & <- & Eg). destruct (U2 _ Ht1) as (t' & Ht' & Hh & Hv & Hg). exists t'. split; [done|]. split; [done|].
  split; [done|]. by rewrite Eg in Hg.
Qed.

(** ** Processing the message *)

(** The least validity time in milliseconds: [olsr_cnf->min_tc_vtime * 1000]. *)
Definition tc_min_vtime : option Z := u32_of_float (SFmul 24 128 min_tc_vtime (float_of_u32 1000)).

(** What is assumed of the message, of the node and of the configuration. *)
Record tc_input_ok (vt : Z) (h : tc_header) (nets : list (ip_addr * list Z)) (seen : list Z -> list Z) (bs : option (ip_addr * ip_addr)) (n : node) : Prop := {
  ti_db : lsdb_wf (db (core n));
  ti_links : link_wf (core n);
  ti_main : ipequal ip_version (main_addr (core n)) 0 = false;
  ti_room : db_room (S (length nets)) (db (core n));
  ti_sound : tc_sound vt h nets;
  ti_edges : Forall (edge_ok (deny_entries n) seen) nets;
  ti_borders : tc_borders h nets = Some bs;
  ti_lq : 0 < lq_level;
  ti_nums : nums_ok (db (core n));
  ti_min : is_Some tc_min_vtime;
}.

Definition tc_emptied (nets : list (ip_addr * list Z)) (bs : option (ip_addr * ip_addr)) : bool :=
  bool_decide (nets = []) && match bs with Some _ => true | None => false end.

(** What [olsr_input_tc] does at the end if the message empties the vertex. *)
Definition tc_forget (tc : positive) (orig : ip_addr) : NM unit :=
  do* lift (olsr_cleanup_mid orig) in
  do* olsr_cleanup_hna orig in
  do* modify (fun n => set_dups (olsr_cleanup_duplicates (dups n) orig) n) in
  lift (olsr_delete_tc_entry tc).

Lemma set_core_set s1 s2 n : set_core s1 (set_core s2 n) = set_core s1 n.
Proof. done. Qed.

Lemma located_vertex tc a d d' : lsdb_wf d -> located tc a d d' -> lsdb_wf d' /\ (exists t, tcs d' !! tc = Some t /\ aeq (tc_addr t) a) /\
  (size (edges d') + size (rtps d') <= S (size (edges d) + size (rtps d)))%nat.
Proof.
  intros Hwf [[Hf ->]|[_ Hva]].
  - split; [done|]. split; [|lia]. apply (tree_find_Some (kt_wf := awf) _ _ _ _ (dw_tcs _ Hwf)) in Hf as (b & Ka & t & Ht & Ea).
    exists t. split; [done|]. by rewrite Ea.
  - split; [apply Hva|]. destruct (va_new _ _ _ _ Hva) as (t & p & Et & Hp & Ep & Ea & _). split.
    + exists t. rewrite Et. split; [apply lookup_insert_eq|by rewrite Ea].
    + rewrite Ep, map_size_insert_None by done. destruct (va_rest _ _ _ _ Hva) as (-> & _). lia.
Qed.

Lemma tree_vertex d d' p a : lsdb_wf d -> lsdb_wf d' -> tc_tree d' = tc_tree d -> vertex d p a -> vertex d' p a.
Proof. intros H1 H2 E Hv. apply (dw_tcs _ H2). rewrite E. by apply (dw_tcs _ H1). Qed.

Lemma located_others tc a d d' p b : located tc a d d' -> vertex d p b -> vertex d' p b.
Proof.
  intros [[_ ->]|[_ Hva]] Hv; [done|]. destruct (va_new _ _ _ _ Hva) as (t & q & Et & _). destruct Hv as (s & Hs & Eb).
  exists s. rewrite Et, lookup_insert_ne; [done|]. intros <-. by rewrite (va_fresh _ _ _ _ Hva) in Hs.
Qed.

Lemma wp_input_tc type vt ttl h nets seen bs rest from n (Q : bool -> node -> Prop) :
  tc_input_ok vt h nets seen bs n -> type = TC_MESSAGE \/ type = LQ_TC_MESSAGE -> sender_status (core n) from = SYM_LINK ->
  (admits (db (core n)) h = false -> forall st1, lsdb_wf (db st1) -> same_links (db (core n)) (db st1) -> st1 = set_db (db st1) (core n) ->
    (forall p t, heard_before (db (core n)) h p t -> db st1 = set_tcs (<[p := snd (tc_check t (th_seq h) (th_ansn h))]> (tcs (db (core n)))) (db (core n))) ->
    Q false (set_core st1 n)) ->
  (admits (db (core n)) h = true -> forall tc d st1 mv, located tc (th_originator h) (db (core n)) d -> tc_min_vtime = Some mv ->
    tc_updated (now_times (core n)) (Z.max mv (th_vtime h)) tc h (seen_edges seen nets) bs d (db st1) -> tc_frame (core n) st1 ->
    wp (do* when (tc_emptied nets bs) (tc_forget tc (th_originator h)) in ret true) Q (set_core st1 n)) ->
  wp (olsr_input_tc (put_tc type vt h ttl nets ++ rest) from) Q n.
Proof.
  intros [Hdb Hl Hm Hroom Hs Hok Hb Hlq Hnums [mv Hmv]] Hty Hsym HR HA. destruct (read_put_tc type vt h ttl nets rest Hs) as [E1 E2].
  unfold olsr_input_tc. wp_step. eapply wp_gets_opt; [exact E1|]. cbv beta iota.
  assert (negb (type =? LQ_TC_MESSAGE) && negb (type =? TC_MESSAGE) = false) as -> by by destruct Hty as [-> | ->].
  wp_step. apply wp_lift. apply wp_check_neighbor_link; [done|]. replace (set_core (core n) n) with n by by destruct n. rewrite Hsym.
  change (negb (SYM_LINK =? SYM_LINK)) with false. cbv iota. wp_step. eapply wp_gets_opt; [exact E2|]. cbv beta iota.
  wp_step. apply wp_lift. unfold olsr_lookup_tc_entry. wp_step. wp_step. replace (set_core (core n) n) with n by by destruct n.
  eapply wp_gets_opt; [exact Hmv|]. cbv beta zeta. wp_step. apply wp_lift.
  eapply wp_mono; [by apply wp_tc_admit|]. cbv beta. intros adm st1 (-> & W1 & L1 & K1 & S1 & N1 & X1).
  destruct (admits (db (core n)) h) eqn:Ea; cbn [negb]; [|apply wp_ret; by apply HR]. specialize (HA eq_refl).
  assert ((if th_vtime h <? mv then mv else th_vtime h) = Z.max mv (th_vtime h)) as -> by (case_test; lia). set (vtime := Z.max mv (th_vtime h)) in *.
  assert (forall tc d st2, located tc (th_originator h) (db (core n)) d -> same_links d (db st2) -> keeps_gc tc d (db st2) ->
    lsdb_wf (db st2) -> tc_frame (core n) st2 ->
    wp (let* deny := gets deny_entries in let* emptied := lift (tc_update deny tc h (put_edges nets ++ rest) vtime) in
        do* when emptied (tc_forget tc (th_originator h)) in ret true) Q (set_core st2 n)) as Hrest.
  { intros tc d st2 Hloc Hsl Hkv W2 F2. wp_step. wp_step. wp_step. apply wp_lift.
    destruct (located_vertex _ _ _ _ Hdb Hloc) as (_ & (t & Ht & _) & Hsz). destruct (proj1 Hkv _ Ht) as (t2 & Ht2 & _).
    eapply wp_mono; [apply (wp_tc_update (deny_entries n) seen tc t2 h nets rest bs vtime); try done|].
    - destruct Hsl as (B1 & B2 & _). unfold db_room in *. simpl. rewrite B1, B2. lia.
    - apply Hs.
    - cbv beta. simpl. intros r st3 (-> & U & F3). rewrite set_core_set.
      assert (now_times st2 = now_times (core n)) as En.
      { unfold tc_frame, db_frame, db_strip in F2. destruct (core n), st2. simpl in *. by injection F2 as. }
      rewrite En in U. apply (HA tc d _ mv); [done|exact Hmv| |by etrans]. by eapply updated_from. }
  wp_step. destruct (kt_find (tc_tree (db (core n))) (th_originator h)) as [tc|] eqn:Ef.
  - wp_step. apply (Hrest tc (db (core n))); [by left|done|by apply K1|done|]. by rewrite S1.
  - apply wp_lift. simpl. rewrite (N1 eq_refl) in *.
    eapply wp_mono; [by apply (wp_add_tc_entry (th_originator h) (core n))|]. cbv beta. intros [tc|] st2 H; [|destruct H; congruence].
    destruct H as (_ & Hva & S2). rewrite set_core_set. apply (Hrest tc (db st2)); [right; by split|done|apply keeps_gc_refl|apply Hva|]. by rewrite S2.
Qed.

(** ** Emptying a vertex *)

Lemma hna_wf_core st n : hna_wf n -> hna_wf (set_core st n).
Proof. by intros [? ? ? ? ? ? ?]. Qed.

Lemma hna_wf_dups x n : hna_wf n -> hna_wf (set_dups x n).
Proof. by intros [? ? ? ? ? ? ?]. Qed.

Lemma tc_frame_mid st st' : tc_frame st st' -> mid_same st st'.
Proof.
  unfold tc_frame, db_frame, db_strip. intros E. destruct st, st'. simpl in *. injection E as. subst. by split_and!.
Qed.

Lemma hna_frame_mid n n' : hna_frame n n' -> mid_same (core n) (core n') /\ dups n' = dups n.
Proof.
  unfold hna_frame, hna_strip, db_strip. intros E. destruct n as [c], n' as [c']. simpl in *. injection E as. subst.
  destruct c, c'. simpl in *. subst. by split_and!.
Qed.

(** What is left of the originator [orig] of the vertex [tc], whose state was [n]. *)
Record tc_forgotten (orig : ip_addr) (n n' : node) : Prop := {
  tf_hna : hna_wf n';
  tf_mid : mid_wf (core n');
  tf_db : lsdb_wf (db (core n'));
  tf_vertex tc a : vertex (db (core n')) tc a -> ~ aeq a orig;
  tf_others tc a : vertex (db (core n)) tc a -> ~ aeq a orig -> vertex (db (core n')) tc a;
  tf_announced gw k : announced n' gw k <-> announced n gw k /\ gw <> orig;
  tf_registered a m : registered (core n') a m <-> registered (core n) a m /\ m <> orig;
  tf_dups : dups n' = olsr_cleanup_duplicates (dups n) orig;
}.

Lemma rest2_addr (m m' : gmap positive tc_entry) : tc_rest2 <$> m' = tc_rest2 <$> m -> tc_addr <$> m' = tc_addr <$> m.
Proof.
  intros E. assert (forall m : gmap positive tc_entry, tc_addr <$> m = tc_addr <$> (tc_rest2 <$> m)) as H.
  { intros m0. rewrite <- map_fmap_compose. by apply map_fmap_ext. }
  by rewrite (H m), (H m'), E.
Qed.

Lemma wp_tc_forget tc orig t n :
  hna_wf n -> mid_wf (core n) -> lsdb_wf (db (core n)) -> tcs (db (core n)) !! tc = Some t -> aeq (tc_addr t) orig ->
  wp (tc_forget tc orig) (fun _ n' => tc_forgotten orig n n') n.
Proof.
  intros Hh Hm Hdb Ht Ha. unfold tc_forget. wp_step. apply wp_lift. eapply wp_mono; [by apply wp_cleanup_mid|]. cbv beta.
  intros _ st1 (M1 & D1 & _ & P1 & R1). wp_step. eapply wp_mono; [apply wp_cleanup_hna; [by apply hna_wf_core|done]|]. cbv beta.
  intros _ n2 (H2 & D2 & F2 & P2 & R2). destruct (hna_frame_mid _ _ F2) as [F2m F2d]. simpl in P2, F2m, F2d.
  assert (only_paths (db (core n)) (db (core n2))) as [P3 _] by by etrans. destruct (rest2_lookup P3 Ht) as (t2 & Ht2 & Ea2).
  destruct (mid_same_wf _ _ F2m M1) as [M2 R2m]. wp_step. wp_step. apply wp_lift. simpl.
  eapply wp_mono; [by apply (wp_delete_tc_entry tc t2)|]. cbv beta. intros _ st3 (V & Vf & b & E3).
  assert (mid_same (core n2) st3) as M3 by (by rewrite E3). destruct (mid_same_wf _ _ M3 M2) as [M4 R4]. split.
  - by apply (hna_wf_core st3 (set_dups _ n2)), (hna_wf_dups _ n2).
  - exact M4.
  - apply V.
  - simpl. intros p a Hv Hao. rewrite (tree_find_None (kt_wf := awf) _ _ _ (dw_tcs _ (vr_wf _ _ _ V))) in Vf.
    apply (Vf p a Hv). by rewrite Ea2, Hao, Ha.
  - intros p a (s & Hs & Es) Hao. simpl. destruct (rest2_lookup P3 Hs) as (s2 & Hs2 & Es2).
    assert (p <> tc) as Hp. { intros ->. apply Hao. assert (s = t) as -> by congruence. by rewrite <- Es. }
    assert (tc_addr <$> tcs (db st3) = tc_addr <$> delete tc (tcs (db (core n2)))) as E by apply rest2_addr, V.
    apply (f_equal (lookup p)) in E. rewrite !lookup_fmap, lookup_delete_ne, Hs2 in E by done. simpl in E.
    destruct (tcs (db st3) !! p) as [s3|] eqn:Es3; [|done]. simpl in E. exists s3. split; [done|]. congruence.
  - intros gw k. transitivity (announced n2 gw k); [done|]. apply R2.
  - intros a m. simpl. rewrite R4, R2m. apply R1.
  - simpl. by rewrite F2d.
Qed.

(** ** Messages that are ignored *)

(** Whether all of these messages, given by their sequence numbers, are ignored. *)
Fixpoint ignored_all (t : tc_entry) (l : list (Z * Z)) : bool :=
  match l with
  | [] => true
  | (seq, ansn) :: l => let '(ignore, t') := tc_check t seq ansn in ignore && ignored_all t' l
  end.

Definition stray_left (t : tc_entry) (seqs : list Z) : Z := if err_seq_valid t && negb (bool_decide (err_seq t ∈ seqs)) then 0 else 1.

Lemma ignored_bound l : forall t, is_u16 (ignored t) -> NoDup (map fst l) -> tc_msg_seq t ∉ map fst l -> ignored_all t l = true ->
  Z.of_nat (length l) <= Z.max 0 (32 - ignored t) + stray_left t (map fst l).
Proof.
  induction l as [|[s a] l IH]; intros t Hu Hnd Hn Hi.
  { simpl. unfold stray_left. case_match; lia. }
  cbn [map fst] in *. apply NoDup_cons in Hnd as [Hs Hnd]. apply not_elem_of_cons in Hn as [Hts Hn].
  cbn [ignored_all] in Hi. unfold tc_check in Hi. assert (tc_msg_seq t =? s = false) as Ets by (apply Z.eqb_neq; done). rewrite Ets in Hi.
  assert (forall t', tc_msg_seq t' = tc_msg_seq t -> is_u16 (ignored t') -> ignored_all t' l = true ->
    Z.of_nat (length l) <= Z.max 0 (32 - ignored t') + stray_left t' (map fst l)) as IH'.
  { intros t' E1 E2 E3. apply IH; [done|done|by rewrite E1|done]. }
  clear IH. destruct (_ && _).
  - destruct (ignored t <? 32) eqn:E; [|done]. apply Z.ltb_lt in E. cbn [andb] in Hi.
    assert (u16 (ignored t + 1) = ignored t + 1) as Eu by (apply Z.mod_small; unfold is_u16 in Hu; lia).
    specialize (IH' (set_ignored (u16 (ignored t + 1)) t) eq_refl). simpl in IH'. rewrite Eu in IH'.
    assert (is_u16 (ignored t + 1)) as Hu' by (unfold is_u16 in *; lia). rewrite Eu in Hi. specialize (IH' Hu' Hi).
    assert (stray_left (set_ignored (ignored t + 1) t) (map fst l) <= stray_left t (s :: map fst l)).
    { unfold stray_left. simpl. destruct (err_seq_valid t); [|done]. repeat case_bool_decide; simpl; try lia. set_solver. }
    simpl. lia.
  - destruct (_ || _); [|done]. destruct (err_seq_valid t) eqn:Ev; cbn [negb] in Hi.
    + destruct (err_seq t =? s) eqn:E; [|done]. apply Z.eqb_eq in E. cbn [andb] in Hi. specialize (IH' t eq_refl Hu Hi).
      unfold stray_left in *. rewrite Ev in *. rewrite bool_decide_eq_false_2 in IH' by (by rewrite E).
      rewrite bool_decide_eq_true_2 by (rewrite E; left). simpl in *. lia.
    + cbn [err_seq set_err_seq_valid set_err_seq] in Hi. rewrite Z.eqb_refl in Hi. cbn [andb] in Hi. specialize (IH' (set_err_seq_valid true (set_err_seq s t)) eq_refl Hu Hi).
      unfold stray_left in *. rewrite Ev. cbn [err_seq err_seq_valid set_err_seq_valid set_err_seq ignored] in IH'.
      rewrite bool_decide_eq_false_2 in IH' by done. simpl in *. lia.
Qed.

(** ** The theorems *)


(** An empty TC message with full borders takes its originator out of the network: no
    vertex has its address any more (all others stay), the aliases and the networks
    registered for it, and no others, are forgotten, and so are the messages that were
    recorded from it. *)
Theorem olsr_input_tc_empties type vt ttl h bs rest from n :
  tc_input_ok vt h [] id bs n -> type = TC_MESSAGE \/ type = LQ_TC_MESSAGE -> sender_status (core n) from = SYM_LINK ->
  th_lower h = 255 -> th_upper h = 255 -> hna_wf n -> mid_wf (core n) -> admits (db (core n)) h = true ->
  wp (olsr_input_tc (put_tc type vt h ttl [] ++ rest) from) (fun fwd n' => fwd = true /\ tc_forgotten (th_originator h) n n') n.
Proof.
  intros Hok Hty Hsym El Eu Hh Hm Had. eapply wp_input_tc; [done..|congruence|].
  intros _ tc d st1 mv Hloc _ Hu Hf. pose proof (ti_borders _ _ _ _ _ _ Hok) as Eb. unfold tc_borders in Eb. rewrite El, Eu in Eb. cbn in Eb. injection Eb as <-.
  destruct (located_vertex _ _ _ _ (ti_db _ _ _ _ _ _ Hok) Hloc) as (Hd & (t & Ht & Ea) & _). destruct (tu_vertex _ _ _ _ _ _ _ _ Hu t Ht) as (t1 & Ht1 & (Ea1 & _) & _).
  pose proof (tc_frame_mid _ _ Hf) as Hms. destruct (mid_same_wf _ _ Hms Hm) as [Hm1 Hreg].
  match goal with |- context [tc_emptied ?x ?y] => change (tc_emptied x y) with true end. cbn [when].
  wp_step. eapply wp_mono; [apply (wp_tc_forget tc _ t1 (set_core st1 n)); [by apply hna_wf_core|done|apply Hu|done|by rewrite Ea1]|].
  cbv beta. intros _ n' [F1 F2 F3 F4 F5 F6 F7 F8]. wp_step. split; [done|]. split; try done.
  - intros p a Hv Hao. apply F5; [|done]. simpl. eapply tree_vertex; [apply Hd|apply Hu|apply Hu|]. by eapply located_others.
  - intros a m. rewrite F7. simpl. by rewrite Hreg.
Qed.

(** A node that restarts with arbitrary sequence numbers is heard again: of any 34
    topology messages with different message sequence numbers, none of them the last
    one that was accepted, at least one is not ignored, whatever the vertex recorded. *)
Theorem tc_check_hears_again t l :
  is_u16 (ignored t) -> NoDup (map fst l) -> tc_msg_seq t ∉ map fst l -> (34 <= length l)%nat -> ignored_all t l = false.
Proof.
  intros Hu Hnd Hn Hl. apply not_true_is_false. intros Hi. pose proof (ignored_bound l t Hu Hnd Hn Hi) as H.
  unfold is_u16 in Hu. unfold stray_left in H. destruct (_ && _) in H; lia.
Qed.

(** Whether link quality is configured or not, an edge that is not known yet is read with
    its link quality, while the one of a known edge is read only if link quality is
    configured: without it, the bytes that follow a new neighbour in a plain TC message
    are taken for link quality and lost. *)
Theorem olsr_tc_update_edge_reads validate tc t ansn_ b q v rest st :
  lsdb_wf (db st) -> tcs (db st) !! tc = Some t -> db_room 1 (db st) -> is_ip (ipsize ip_version) b -> lq_reads q v ->
  validate b = true -> 0 <= lq_level ->
  let known := bool_decide (is_Some (kt_find (edge_tree t) b)) in
  wp (olsr_tc_update_edge validate tc ansn_ (ip_bytes (ipsize ip_version) b ++ q ++ rest)) (fun r _ =>
    fst (fst r) = b /\ snd (fst r) = (if known && (lq_level =? 0) then q ++ rest else rest)) st.
Proof.
  intros Hwf Ht Hroom Hb Hq Hval Hlq known. destruct (decide (0 < lq_level)) as [Hl|Hl].
  - assert (lq_level =? 0 = false) as -> by (apply Z.eqb_neq; lia). rewrite andb_false_r.
    eapply wp_mono; [by apply (wp_tc_update_edge validate tc t ansn_ b q v rest)|]. cbv beta. by intros r st' ([c ->] & _).
  - assert (lq_level = 0) as -> by lia. rewrite Z.eqb_refl, andb_true_r. unfold olsr_tc_update_edge.
    pose proof (get_put_ipaddress b (q ++ rest) Hb) as E. unfold pkt_put_ipaddress in E. rewrite app_nil_l in E.
    wp_step. eapply wp_gets_opt; [exact E|]. cbv beta iota. unfold olsr_lookup_tc_edge. wp_step. wp_step. eapply wp_get_tc; [exact Ht|]. wp_step.
    unfold known. destruct (kt_find (edge_tree t) b) as [e|] eqn:Ef.
    + rewrite bool_decide_eq_true_2 by by eexists. apply (tree_find_Some (kt_wf := awf) _ _ _ _ (dw_edges _ Hwf _ _ Ht)) in Ef as (a & Ka & x & Hx & _).
      assert (lq_level >? 0 = false) as -> by (rewrite Z.gtb_ltb; apply Z.ltb_ge; lia).
      wp_step. eapply wp_upd_edge; [exact Hx|]. wp_step. wp_step. wp_step. eapply wp_calc_etx; [simpl; apply lookup_insert_eq|]. by wp_step.
    + rewrite bool_decide_eq_false_2 by (intros [? ?]; done). rewrite Hval. cbn [negb]. wp_step. eapply wp_mono; [apply (wp_add_edge tc t b ansn_ st); try done|].
      { pose proof (degree_size _ _ _ Hwf Ht). unfold db_room in Hroom. lia. }
      cbv beta. intros e st1 [Hadd Est]. destruct (ea_new _ _ _ _ _ _ Hadd) as (x & Hx & _).
      wp_step. eapply wp_deserialize_tc; [exact Hx|exact Hq|]. by wp_step.
Qed.

End tc_input_spec.

(** ** Witnesses *)

Lemma bare_db {cnf : olsrd_config} (P : lsdb -> Prop) c d own os : P d -> P (db (core (bare_node (set_db d c) own os))).
Proof. done. Qed.

Lemma bare_links {cnf : olsrd_config} c d own os : link_wf c -> link_wf (core (bare_node (set_db d c) own os)).
Proof. intros H. by apply (link_wf_ext c). Qed.

Section tc_witnesses.
#[local] Existing Instance quality_cnf.
#[local] Existing Instance sample_lq.

#[local] Instance sample_ncf : node_config := {| min_tc_vtime := S754_zero false; max_jitter := S754_zero false; max_tc_vtime := S754_zero false; lq_fish := 0 |}.

(** This node is 100 and hears 201 over a symmetric link; 300 has edges to 200 and to
    201, which it announced with the number 5. *)
Definition tc_db : olsr_state := sample_db [Vertex 100; Vertex 300; Edge 3 200 5; Edge 3 201 5].
Definition tn1 : node := bare_node (set_db (db tc_db) ql1) [] [].

Definition tc_header_of (vt seq ansn size : Z) : tc_header :=
  {| th_vtime := me_to_reltime vt; th_size := size; th_originator := 300; th_hops := 1; th_seq := seq; th_ansn := ansn;
     th_lower := 255; th_upper := 255 |}.

Lemma tn1_db : lsdb_wf (db (core tn1)).
Proof. unfold tn1. apply (bare_db lsdb_wf), sample_db_wf. vm_compute. reflexivity. Qed.

Lemma tn1_links : link_wf (core tn1).
Proof. apply bare_links, ql1_wf. Qed.

Lemma tn1_nums : nums_ok (db (core tn1)).
Proof.
  intros p t Ht. assert (is_u16 (tc_msg_seq t) /\ is_u16 (tc_ansn t) <->
    (0 <=? tc_msg_seq t) && (tc_msg_seq t <? 65536) && ((0 <=? tc_ansn t) && (tc_ansn t <? 65536)) = true) as -> by (unfold is_u16; lia).
  revert p t Ht. apply heap_forall. vm_compute. reflexivity.
Qed.

Lemma tn1_ok nets h : Forall (fun k => is_ip 4 (fst k) /\ length (snd k) = 1%nat) nets -> (length nets < 1000)%nat ->
  tc_sound 134 h nets -> forall bs, tc_borders h nets = Some bs -> tc_input_ok 134 h nets id bs tn1.
Proof.
  intros Hn Hl Hs bs Hb. split; [exact tn1_db|exact tn1_links|vm_compute; reflexivity| |exact Hs| |exact Hb|reflexivity|exact tn1_nums|eexists; vm_compute; reflexivity].
  - unfold db_room. assert (size (edges (db (core tn1))) + size (rtps (db (core tn1))) < 1000)%nat by (vm_compute; lia). lia.
  - eapply Forall_impl; [exact Hn|]. intros [a q] [H1 H2]. simpl in H1, H2. destruct q as [|x [|y q]]; [discriminate H2| |discriminate H2].
    split; [exact H1|]. split; [intros old rest; reflexivity|reflexivity].
Qed.


Definition th300_empty : tc_header := tc_header_of 134 7 6 16.

Lemma olsr_input_tc_empties_witness :
  wp (olsr_input_tc (put_tc LQ_TC_MESSAGE 134 th300_empty 5 []) 201) (fun fwd n' => fwd = true /\
    (forall tc a, vertex (db (core n')) tc a -> ~ aeq a 300) /\ (exists tc, vertex (db (core n')) tc 100)) tn1.
Proof.
  rewrite <- (app_nil_r (put_tc _ _ _ _ _)).
  eapply wp_mono; [refine (olsr_input_tc_empties LQ_TC_MESSAGE 134 5 th300_empty (Some (0, 4294967295)) [] 201 tn1 _ _ _ _ _ (bare_hna_wf _ _ _) _ _)|].
  - apply tn1_ok; [constructor|simpl; lia| |vm_compute; reflexivity].
    split; vm_compute; try reflexivity; split; discriminate || reflexivity.
  - right. reflexivity.
  - vm_compute. reflexivity.
  - reflexivity.
  - reflexivity.
  - apply no_mid_wf; vm_compute; reflexivity.
  - vm_compute. reflexivity.
  - cbv beta. intros fwd n' [H1 [_ _ _ H2 H3 _ _ _]]. split; [exact H1|]. split; [exact H2|]. exists 2%positive. apply H3.
    + eexists. split; vm_compute; reflexivity.
    + vm_compute. discriminate.
Defined.

Definition stray (n : nat) : list (Z * Z) := map (fun i => (Z.of_nat i, 900)) (seq 1 n).

Lemma tc_check_hears_again_witness :
  let t := set_tc_msg_seq 20 (set_tc_ansn 910 (new_tc_entry 300)) in
  ignored_all t (filter (fun k => k.1 <> 20) (stray 12)) = true /\ ignored_all t (filter (fun k => k.1 <> 20) (stray 60)) = false.
Proof.
  cbv zeta. split; [vm_compute; reflexivity|]. apply tc_check_hears_again.
  - vm_compute. split; [discriminate|reflexivity].
  - apply (bool_decide_eq_true_1 (NoDup _)). vm_compute. reflexivity.
  - apply (bool_decide_eq_true_1 (_ ∉ _)). vm_compute. reflexivity.
  - vm_compute. lia.
Defined.

End tc_witnesses.

Section plain_tc_witness.
#[local] Existing Instance sample_cnf.
#[local] Existing Instance sample_lq.

(** Of the neighbours 10.0.0.1 and 10.0.0.2 of 101 the second one loses its first byte. *)
Lemma olsr_tc_update_edge_reads_witness :
  wp (olsr_tc_update_edge (fun _ => true) 2 6 [10; 0; 0; 1; 10; 0; 0; 2]) (fun r _ => snd (fst r) = [0; 0; 2]) db_sample.
Proof.
  destruct db_sample_101 as (t & Ht & _). change [10; 0; 0; 1; 10; 0; 0; 2] with (ip_bytes (ipsize ip_version) 16777226 ++ [10] ++ [0; 0; 2]).
  assert (db_room 1 (db db_sample)) as H1 by (vm_compute; reflexivity).
  assert (is_ip (ipsize ip_version) 16777226) as H2 by (vm_compute; split; [discriminate|reflexivity]).
  assert (lq_reads [10] [10]) as H3 by (intros old rest; reflexivity).
  assert (0 <= lq_level) as H4 by discriminate.
  pose proof (olsr_tc_update_edge_reads (fun _ => true) 2 t 6 16777226 [10] [10] [0; 0; 2] db_sample db_sample_wf Ht H1 H2 H3 eq_refl H4) as H.
  cbv zeta in H. eapply wp_mono; [exact H|]. cbv beta. intros r st' [_ Hr]. rewrite bool_decide_eq_false_2 in Hr; [exact Hr|].
  intros [e He]. assert (exists t, tcs (db db_sample) !! 2%positive = Some t /\ kt_find (edge_tree t) 16777226 = None) as (t' & Ht' & Hn)
    by (eexists; split; [vm_compute; reflexivity|]; vm_compute; reflexivity). rewrite Ht in Ht'. injection Ht' as <-. pose proof (eq_trans (eq_sym He) Hn) as Hc. discriminate Hc.
Defined.

End plain_tc_witness.
