(* ===== verification/NetSpec.v ===== *)
(** * Output buffers: a queue of bytes per interface

    A buffer represents the bytes that were pushed since the last packet was sent. *)

From S2P Require Import Prelude Timer Avl IpAddr KeyTree DupSet State Packet NeighSpec LinkSpec Node NetOlsr HnaSpec.

Section net_spec.
Context {cnf : olsrd_config}.

(** The buffer is allocated, with room for all bytes that may become pending. *)
Record buf_ok (b : olsr_netbuf) (l : list Z) : Prop := {
  bo_buff : buff b = Some l;
  bo_size : Z.of_nat (length l) = bufsize b;
  bo_max : 0 <= maxsize b /\ 0 <= reserved b /\ maxsize b + reserved b + OLSR_HEADERSIZE <= bufsize b;
  bo_pending : 0 <= pending b /\ pending b + OLSR_HEADERSIZE <= bufsize b;
}.

(** The queue. *)
Definition queued (b : olsr_netbuf) : list Z :=
  match buff b with Some l => take (Z.to_nat (pending b)) (drop 4 l) | None => [] end.

Definition holds (o : out_interface) (q : list Z) : Prop := exists l, buf_ok (netbuf o) l /\ queued (netbuf o) = q.

Lemma holds_length o q : holds o q -> Z.of_nat (length q) = pending (netbuf o).
Proof.
  intros (l & [B S M P] & <-). unfold queued. rewrite B, length_take, length_drop. unfold OLSR_HEADERSIZE in *. lia.
Qed.

(** A new buffer, or one that is used again, is an empty queue. *)
Lemma add_buffer_holds fresh mtu o :
  OLSR_HEADERSIZE <= mtu -> Z.of_nat (length fresh) = mtu ->
  (forall l, buff (netbuf o) = Some l -> Z.of_nat (length l) = bufsize (netbuf o)) -> holds (set_netbuf (add_buffer fresh mtu (netbuf o)) o) [].
Proof.
  intros H1 H2 H3. unfold holds, add_buffer, queued. simpl. unfold OLSR_HEADERSIZE in *.
  destruct (Z.eqb_spec (bufsize (netbuf o)) mtu) as [E|E]; simpl; [destruct (buff (netbuf o)) as [l|]|];
    eexists; (split; [|by rewrite take_0]); split; simpl; try done; unfold OLSR_HEADERSIZE; try lia. by rewrite H3.
Qed.

(** ** Writing into the buffer *)

Lemma write_bytes_some buf pos data :
  0 <= pos -> pos + Z.of_nat (length data) <= Z.of_nat (length buf) ->
  write_bytes buf pos data = Some (take (Z.to_nat pos) buf ++ data ++ drop (Z.to_nat pos + length data) buf).
Proof.
  intros H1 H2. unfold write_bytes. destruct (Z.ltb_spec pos 0); [lia|]. destruct (Z.ltb_spec (Z.of_nat (length buf)) (pos + Z.of_nat (length data))); [lia|done].
Qed.

Lemma length_write buf pos data l : write_bytes buf pos data = Some l -> length l = length buf.
Proof.
  unfold write_bytes. destruct (_ || _) eqn:E; [done|]. intros [= <-]. bool_hyps. rewrite !length_app, length_take, length_drop. lia.
Qed.

Lemma push_queued b l data size (room : olsr_netbuf -> Z) :
  buf_ok b l -> room b + OLSR_HEADERSIZE <= bufsize b -> 0 <= size <= Z.of_nat (length data) ->
  exists r b', buffer_push (room b) data size b = Some (r, b') /\ (exists l', buf_ok b' l') /\
    r = (if pending b + size >? room b then 0 else size) /\ queued b' = queued b ++ take (Z.to_nat r) data /\
    bufsize b' = bufsize b /\ maxsize b' = maxsize b /\ reserved b' = reserved b.
Proof.
  intros [B S M P] Hr Hs. unfold buffer_push. destruct (pending b + size >? room b) eqn:E.
  { exists 0, b. rewrite take_0, app_nil_r. split; [done|]. split; [by exists l|]. done. }
  rewrite Z.gtb_ltb in E. apply Z.ltb_ge in E. destruct (Z.ltb_spec (Z.of_nat (length data)) size); [lia|].
  rewrite B. cbn [mbind option_bind]. assert (length (take (Z.to_nat size) data) = Z.to_nat size) as Hl by (rewrite length_take; lia).
  unfold OLSR_HEADERSIZE in *. rewrite write_bytes_some by (rewrite ?Hl; lia). cbn [mbind option_bind].
  eexists _, _. split; [done|]. rewrite Hl. split.
  - eexists. split; simpl; [done| |done|unfold OLSR_HEADERSIZE; lia]. rewrite !length_app, length_take, length_drop, Hl. lia.
  - split; [done|]. split; [|done]. unfold queued. simpl. rewrite B.
    rewrite drop_app_le by (rewrite length_take; lia). rewrite skipn_firstn_comm.
    replace (Z.to_nat (pending b + 4) - 4)%nat with (Z.to_nat (pending b)) by lia.
    rewrite take_app_ge by (rewrite length_take, length_drop; lia). f_equal.
    rewrite length_take, length_drop. replace (Z.to_nat (pending b + size) - _)%nat with (Z.to_nat size) by lia.
    by rewrite take_app_length' by lia.
Qed.

(** ** The packet *)

Definition packet_header (seqnum : Z) (q : list Z) : list Z := pkt_put_u16 [] (Z.of_nat (length q) + OLSR_HEADERSIZE) ++ pkt_put_u16 [] seqnum.

Lemma packet_bytes_queued seqnum o l q :
  buf_ok (netbuf o) l -> queued (netbuf o) = q ->
  exists l', packet_bytes seqnum (netbuf o) = Some l' /\ length l' = length l /\
    take (Z.to_nat (pending (netbuf o) + OLSR_HEADERSIZE)) l' = packet_header seqnum q ++ q.
Proof.
  intros Hok Hq. assert (holds o q) as Hh by by exists l. pose proof (holds_length _ _ Hh) as Hlen. destruct Hok as [B S M P].
  unfold packet_bytes, packet_header. rewrite B. cbn [mbind option_bind]. unfold OLSR_HEADERSIZE in *.
  assert (forall v, length (pkt_put_u16 [] v) = 2%nat) as H2 by done.
  rewrite write_bytes_some by (rewrite ?H2; lia). cbn [mbind option_bind]. rewrite write_bytes_some by (rewrite ?length_app, ?length_take, ?length_drop, ?H2; lia).
  cbn [mbind option_bind]. eexists. split; [done|]. rewrite !H2. split; [rewrite !length_app, !length_take, !length_drop, !length_app, !length_take, !length_drop, !H2; lia|].
  rewrite Hlen. change (Z.to_nat 0) with 0%nat. change (Z.to_nat 2) with 2%nat. rewrite take_0, app_nil_l. cbn [Nat.add].
  rewrite (drop_app_length' (take 2 l)) by (rewrite length_take; lia).
  unfold queued in Hq. rewrite B in Hq. rewrite <- Hq.
  destruct l as [|x1 [|x2 [|x3 [|x4 l]]]]; cbn [length] in S; try lia. cbn [drop app pkt_put_u16].
  replace (Z.to_nat (pending (netbuf o) + 4)) with (4 + Z.to_nat (pending (netbuf o)))%nat by lia. done.
Qed.

(** ** The operations on the node *)

Lemma wp_get_out i o (Q : out_interface -> node -> Prop) n : outs n !! i = Some o -> Q o n -> wp (get_out i) Q n.
Proof. apply (wp_gets_opt (fun n => outs n !! i)). Qed.

Lemma wp_upd_out i f o (Q : unit -> node -> Prop) n :
  outs n !! i = Some o -> Q tt (set_outs (<[i := f o]> (outs n)) n) -> wp (upd_out i f) Q n.
Proof. intros H HQ. unfold upd_out. wp_step. eapply wp_get_out; [exact H|]. by apply wp_modify. Qed.

(** The same interface, but for what is queued and the packet number. *)
Definition same_limits (o o' : out_interface) : Prop :=
  (exists b s, o' = set_olsr_seqnum s (set_netbuf b o)) /\
  maxsize (netbuf o') = maxsize (netbuf o) /\ reserved (netbuf o') = reserved (netbuf o).

#[export] Instance same_limits_preorder : PreOrder same_limits.
Proof.
  split.
  - intros o. split; [|done]. exists (netbuf o), (olsr_seqnum o). by destruct o.
  - intros o1 o2 o3 [(b & s & E) [A1 A2]] [(b' & s' & E') [B1 B2]]. split; [|split; congruence]. exists b', s'. by rewrite E', E.
Qed.

Lemma wp_outbuffer_push room i data size o q n :
  outs n !! i = Some o -> holds o q -> room (netbuf o) <= maxsize (netbuf o) + reserved (netbuf o) -> 0 <= size <= Z.of_nat (length data) ->
  wp (outbuffer_push room i data size) (fun r n' => exists o', n' = set_outs (<[i := o']> (outs n)) n /\ same_limits o o' /\
    olsr_seqnum o' = olsr_seqnum o /\ r = (if Z.of_nat (length q) + size >? room (netbuf o) then 0 else size) /\
    holds o' (q ++ take (Z.to_nat r) data)) n.
Proof.
  intros Ho Hh Hr Hs. pose proof (holds_length _ _ Hh) as Hlen. destruct Hh as (l & Hok & Hq). pose proof (bo_max _ _ Hok) as Hm.
  unfold outbuffer_push. wp_step. eapply wp_get_out; [exact Ho|].
  assert (room (netbuf o) + OLSR_HEADERSIZE <= bufsize (netbuf o)) as Hroom by lia.
  destruct (push_queued (netbuf o) l data size room Hok Hroom Hs) as (r & b' & E & (l' & Hok') & Er & Eq & Eb & Em & Ee).
  wp_step. eapply wp_gets_opt; [exact E|]. cbv beta iota. wp_step. eapply wp_upd_out; [exact Ho|]. wp_step.
  exists (set_netbuf b' o). split; [done|]. split; [split; [exists b', (olsr_seqnum o); by destruct o|by split]|]. split; [done|]. split; [by rewrite Hlen|]. exists l'. split; [done|]. simpl. by rewrite Eq, Hq.
Qed.

Lemma wp_net_output ptf_list i o q n :
  outs n !! i = Some o -> holds o q ->
  wp (net_output ptf_list i) (fun r n' =>
    if bool_decide (q = []) then r = 0 /\ n' = n
    else r = Z.of_nat (length q) + OLSR_HEADERSIZE /\ exists o', holds o' [] /\ same_limits o o' /\ olsr_seqnum o' = u16 (olsr_seqnum o + 1) /\
      n' = set_lq_tc_pending false (set_sent ((i, fold_left (fun p f => f p) ptf_list (packet_header (olsr_seqnum o) q ++ q)) :: sent n)
             (set_outs (<[i := o']> (outs n)) n))) n.
Proof.
  intros Ho Hh. pose proof (holds_length _ _ Hh) as Hlen. destruct Hh as (l & Hok & Hq). unfold net_output. wp_step. eapply wp_get_out; [exact Ho|].
  destruct (pending (netbuf o) =? 0) eqn:E.
  - apply Z.eqb_eq in E. apply wp_ret. rewrite bool_decide_eq_true_2; [done|]. destruct q; [done|]. simpl in Hlen. lia.
  - apply Z.eqb_neq in E. rewrite bool_decide_eq_false_2 by (intros ->; simpl in Hlen; lia).
    destruct (packet_bytes_queued (olsr_seqnum o) o l q Hok Hq) as (l' & El & Hl' & Hp).
    wp_step. eapply wp_gets_opt; [exact El|]. cbv zeta. wp_step. eapply wp_upd_out; [exact Ho|]. wp_steps. rewrite <- Hlen in *.
    split; [done|]. eexists. split; [|split; [|split; [|rewrite Hp; reflexivity]]]; [|split; [by do 2 eexists|by split]|done].
    destruct Hok as [B S M P]. unfold OLSR_HEADERSIZE in *. exists l'. split; [split; simpl; [done|congruence|done|unfold OLSR_HEADERSIZE; lia]|]. unfold queued. simpl. by rewrite take_0.
Qed.

(** ** The theorems *)

(** A buffer is a queue of bytes that is never written past its end: a push appends the
    data to the queue of its interface, or returns 0 and leaves the queue if the room
    that was not reserved is used up. *)
Theorem net_outbuffer_push_correct i data size o q n :
  outs n !! i = Some o -> holds o q -> 0 <= size <= Z.of_nat (length data) ->
  wp (net_outbuffer_push i data size) (fun r n' => exists o', n' = set_outs (<[i := o']> (outs n)) n /\ same_limits o o' /\
    olsr_seqnum o' = olsr_seqnum o /\ r = (if Z.of_nat (length q) + size >? maxsize (netbuf o) then 0 else size) /\
    holds o' (q ++ take (Z.to_nat r) data)) n.
Proof.
  intros Ho Hh Hs. apply (wp_outbuffer_push maxsize i data size o q n); [done..| |done]. destruct Hh as (l & [_ _ M _] & _). lia.
Qed.

(** C20: Sending empties the queue into one packet, with its length and the sequence number
    of the interface in front, which is counted up modulo 65536; an empty queue is not
    sent. *)
Theorem net_output_correct ptf_list i o q n :
  outs n !! i = Some o -> holds o q ->
  wp (net_output ptf_list i) (fun r n' =>
    if bool_decide (q = []) then r = 0 /\ n' = n
    else r = Z.of_nat (length q) + OLSR_HEADERSIZE /\ exists o', holds o' [] /\ same_limits o o' /\ olsr_seqnum o' = u16 (olsr_seqnum o + 1) /\
      n' = set_lq_tc_pending false (set_sent ((i, fold_left (fun p f => f p) ptf_list (packet_header (olsr_seqnum o) q ++ q)) :: sent n)
             (set_outs (<[i := o']> (outs n)) n))) n.
Proof. apply wp_net_output. Qed.

End net_spec.

(** ** Witnesses *)
Section net_witnesses.
#[local] Existing Instance sample_cnf.

(** An interface that sends packets of at most 12 bytes, 8 without the header. *)
Definition out_eth0 : out_interface :=
  {| out_if := eth0; int_mode := 0; int_mtu := 12; olsr_seqnum := 65535; hello_etime := 2000;
     valtimes := {| vt_hello := 134; vt_tc := 134; vt_mid := 134; vt_hna := 134 |}; fwdtimer := 0; sgw_sgw_zero_bw_timeout := 0;
     netbuf := {| buff := None; bufsize := 0; maxsize := 0; pending := 0; reserved := 0 |}; ttl_index := 0; immediate_send_tc := false |}.
Definition no1 : node := node_run (net_add_buffer (replicate 12 0) 0) (bare_node empty_state [] [out_eth0]).

Lemma no1_holds : exists o, outs no1 !! 0%nat = Some o /\ holds o [] /\ maxsize (netbuf o) = 8 /\ olsr_seqnum o = 65535.
Proof.
  eexists. split; [vm_compute; reflexivity|]. split; [|split; reflexivity].
  apply (add_buffer_holds (replicate 12 0) 12 out_eth0); [discriminate|reflexivity|discriminate].
Qed.

Lemma net_outbuffer_push_correct_witness :
  wp (net_outbuffer_push 0 [1; 2; 3; 4; 5] 5) (fun r n' => r = 5 /\ exists o, outs n' !! 0%nat = Some o /\ holds o [1; 2; 3; 4; 5]) no1.
Proof.
  destruct no1_holds as (o & Ho & Hh & Hm & _). eapply wp_mono; [refine (net_outbuffer_push_correct 0 [1; 2; 3; 4; 5] 5 o [] no1 Ho Hh _)|].
  - simpl. lia.
  - cbv beta. intros r n' (o' & -> & _ & _ & Hr & Hq). rewrite Hm in Hr. cbn in Hr. subst r. split; [reflexivity|]. exists o'. split; [|exact Hq].
    cbn [outs set_outs]. apply list_lookup_insert_eq. eapply lookup_lt_Some. exact Ho.
Defined.

Definition no2 : node := node_run (net_outbuffer_push 0 [1; 2; 3; 4; 5] 5) no1.

Lemma no2_holds : exists o, outs no2 !! 0%nat = Some o /\ holds o [1; 2; 3; 4; 5] /\ olsr_seqnum o = 65535.
Proof.
  apply (node_run_ok _ (fun n' => exists o, outs n' !! 0%nat = Some o /\ holds o [1; 2; 3; 4; 5] /\ olsr_seqnum o = 65535)).
  destruct no1_holds as (o & Ho & Hh & Hm & Hn).
  eapply wp_mono; [refine (wp_outbuffer_push maxsize 0 [1; 2; 3; 4; 5] 5 o [] no1 Ho Hh _ _)|]; [destruct Hh as (l & [_ _ M _] & _); lia|simpl; lia|].
  cbv beta. intros r n' (o' & -> & _ & Hs & Hr & Hq). rewrite Hm in Hr. cbn in Hr. subst r. exists o'. split; [|split; [exact Hq|congruence]].
  cbn [outs set_outs]. apply list_lookup_insert_eq. eapply lookup_lt_Some. exact Ho.
Qed.

(** A function that is applied to all packets adds a byte; the number starts over. *)
Lemma net_output_correct_witness :
  wp (net_output [fun p => p ++ [77]] 0) (fun r n' => r = 9 /\ sent n' = [(0%nat, [0; 9; 255; 255; 1; 2; 3; 4; 5; 77])]) no2.
Proof.
  destruct no2_holds as (o & Ho & Hh & Hn). eapply wp_mono; [refine (net_output_correct [fun p => p ++ [77]] 0 o [1; 2; 3; 4; 5] no2 Ho Hh)|].
  cbv beta. intros r n' H. rewrite bool_decide_eq_false_2 in H by discriminate. destruct H as (Hr & o' & _ & _ & _ & ->). split; [exact Hr|].
  cbn [sent set_lq_tc_pending set_sent]. rewrite Hn. vm_compute. reflexivity.
Defined.

End net_witnesses.
