(* ===== verification/BuildMsg.v ===== *)
(** * build_msg.c: messages are written and queued on an interface

    The message under construction is the header, which is known from the start but
    for its size and number, and the bytes written after it. The code for IPv4 and
    IPv6 differs in sizes and in the few places that are arguments here. The buffer
    is [msg_buffer]; a write past its end is [None], and so is [olsr_exit], after
    which the program does not run on. The parts for Linux (smart gateways) are left out. *)

From S2P Require Import Prelude Timer Mantissa Avl IpAddr State Interfaces Packet MidSet Hello Node NetOlsr Hna TcInput.

Definition MAX_TTL : Z := 255.
Definition MAX_NEIGH : Z := 2.
Definition MAX_LINK : Z := 4.
Definition CREATE_LINK_CODE (status link : Z) : Z := Z.lor link (Z.shiftl status 2).

(** [sizeof(msg_buffer_align)] *)
Definition MSG_BUFFER_SIZE : Z := 1500.

(** [sizeof(union olsr_ip_addr)] *)
Definition IP_ADDR_SIZE : Z := 16.

(** A neighbour of a HELLO message that is built. *)
Record own_neighbor := {
  on_status : Z;
  on_link : Z;
  on_main_address : ip_addr;
  on_address : ip_addr;
}.

Record own_hello := {
  oh_willingness : Z;
  oh_ttl : Z;
  oh_source_addr : ip_addr;
  oh_neighbors : list own_neighbor;
}.

(** A TC message that is built; [tm_neigh] is the list of addresses. *)
Record tc_message := {
  tm_originator : ip_addr;
  tm_hop_count : Z;
  tm_ttl : Z;
  tm_ansn : Z;
  tm_neigh : list ip_addr;
}.

Section build_msg.
Context {cnf : olsrd_config} {ncf : node_config}.
Variable ptf_list : list packet_transform_function.

Definition set_empty_tc_timer (empty_tc_new : Z) : NM unit := modify (set_send_empty_tc empty_tc_new).
Definition get_empty_tc_timer : NM Z := gets send_empty_tc.

(** olsr.c *)
Definition get_msg_seqno : NM Z :=
  let* n := gets message_seqno in do* modify (set_message_seqno (u16 (n + 1))) in ret n.

Definition olsr_exit {A} : NM A := crash.

Definition check_buffspace (msgsize buffsize : Z) : NM unit := if msgsize >? buffsize then olsr_exit else ret tt.

(** [remainsize] is an [uint16_t]. *)
Definition room_left (ifp : nat) : NM Z := let* left_ := net_outbuffer_bytes_left ifp in ret (u16 left_).

(** Sends what is pending unless [needsize] bytes have room, for [checked] of which there must be room then. *)
Definition make_room (ifp : nat) (needsize checked : Z) : NM Z :=
  let* remainsize := room_left ifp in
  let* remainsize := if needsize >? remainsize then let* _ := net_output ptf_list ifp in room_left ifp else ret remainsize in
  do* check_buffspace checked remainsize in ret remainsize.

Definition message_bytes (type vtime : Z) (originator : ip_addr) (ttl hopcnt : Z) (body : list Z) (msgsize seqno : Z) : list Z :=
  [type; vtime] ++ pkt_put_u16 [] msgsize ++ ip_bytes (ipsize ip_version) originator ++ [ttl; hopcnt] ++ pkt_put_u16 [] seqno ++ body.

(** The size and the number are filled in and [curr_size] bytes of [msg_buffer] are pushed. *)
Definition push_message (ifp : nat) (msg : Z -> Z -> list Z) (curr_size : Z) : NM unit :=
  let* seqno := get_msg_seqno in
  let* _ := net_outbuffer_push ifp (msg curr_size seqno) curr_size in
  ret tt.

(** A write of [n] bytes at [offset]. *)
Definition in_msg_buffer (offset n : Z) : NM unit := if offset + n >? MSG_BUFFER_SIZE then crash else ret tt.

Definition ip_len : Z := Z.of_nat (ipsize ip_version).
Definition hdrsize : Z := match ip_version with AF_INET => 12 | AF_INET6 => 24 end.

(** ** HELLO *)

(** A group of neighbours with their link code; the size is written when it is closed. *)
Definition close_group (hinfo : option (Z * list ip_addr)) : list Z :=
  match hinfo with
  | Some (link_code, addrs) =>
      [link_code; 0] ++ pkt_put_u16 [] (4 + ip_len * Z.of_nat (length addrs)) ++ concat (map (ip_bytes (ipsize ip_version)) addrs)
  | None => []
  end.

(** [hb_open] is the group that [hinfo] points to, [None] while [first_entry] is set. *)
Record hello_build := {
  hb_curr_size : Z;
  hb_remainsize : Z;
  hb_closed : list Z;
  hb_open : option (Z * list ip_addr);
}.

Definition hello_msg (message : own_hello) (o : out_interface) (main : ip_addr) (groups : list Z) : Z -> Z -> list Z :=
  message_bytes HELLO_MESSAGE (vt_hello (valtimes o)) main (oh_ttl message) 0
    ([0; 0; reltime_to_me (hello_etime o); oh_willingness message] ++ groups).

Definition push_hello (message : own_hello) (ifp : nat) (groups : list Z) (curr_size : Z) : NM unit :=
  let* o := get_out ifp in
  let* main := gets (fun n => main_addr (core n)) in
  push_message ifp (hello_msg message o main groups) curr_size.

(** One neighbour of the group [link_code]. [copied] is the number of bytes that are copied for its address. *)
Definition hello_add (message : own_hello) (ifp : nat) (copied link_code : Z) (b : hello_build) (address : ip_addr) : NM hello_build :=
  let hdr := hdrsize + 4 in
  let* b :=
    if hb_curr_size b + ip_len + (match hb_open b with None => 4 | Some _ => 0 end) >? hb_remainsize b then
      let* b :=
        if hb_curr_size b >? hdr then
          do* in_msg_buffer (hb_curr_size b) (match hb_open b with None => 4 | Some _ => 0 end) in
          do* push_hello message ifp (hb_closed b ++ close_group (hb_open b)) (hb_curr_size b) in
          ret {| hb_curr_size := hdr; hb_remainsize := hb_remainsize b; hb_closed := []; hb_open := None |}
        else ret b in
      let* _ := net_output ptf_list ifp in
      let* remainsize := room_left ifp in
      do* check_buffspace (hb_curr_size b + ip_len + 4) remainsize in
      ret {| hb_curr_size := hb_curr_size b; hb_remainsize := remainsize; hb_closed := hb_closed b; hb_open := hb_open b |}
    else ret b in
  let '(curr_size, (code, addrs)) :=
    match hb_open b with None => (u16 (hb_curr_size b + 4), (link_code, [])) | Some g => (hb_curr_size b, g) end in
  do* in_msg_buffer curr_size copied in
  ret {| hb_curr_size := u16 (curr_size + ip_len); hb_remainsize := hb_remainsize b; hb_closed := hb_closed b;
         hb_open := Some (code, addrs ++ [address]) |}.

Definition hello_group (message : own_hello) (ifp : nat) (hide : bool) (copied : Z) (b : hello_build) (ij : Z * Z) : NM hello_build :=
  let '(i, j) := ij in
  if hide && (j =? HIDE_LINK) then ret b
  else
    let* b := foldM (filter (fun nb => on_status nb = i /\ on_link nb = j) (oh_neighbors message)) b
      (fun b nb => hello_add message ifp copied (CREATE_LINK_CODE i j) b (on_address nb)) in
    ret {| hb_curr_size := hb_curr_size b; hb_remainsize := hb_remainsize b;
           hb_closed := hb_closed b ++ close_group (hb_open b); hb_open := None |}.

(** All pairs of a neighbour status and a link status. *)
Definition hello_codes : list (Z * Z) :=
  concat (map (fun i => map (fun j => (Z.of_nat i, Z.of_nat j)) (seq 0 (Z.to_nat (MAX_LINK + 1)))) (seq 0 (Z.to_nat (MAX_NEIGH + 1)))).

Definition serialize_hello (message : own_hello) (ifp : nat) (hide : bool) (copied checked : Z) : NM bool :=
  let hdr := hdrsize + 4 in
  let* remainsize := make_room ifp hdr checked in
  let* b := foldM hello_codes {| hb_curr_size := hdr; hb_remainsize := remainsize; hb_closed := []; hb_open := None |}
    (hello_group message ifp hide copied) in
  do* push_hello message ifp (hb_closed b) (hb_curr_size b) in
  ret true.

Definition serialize_hello4 (message : own_hello) (ifp : nat) : NM bool :=
  match ip_version with AF_INET => serialize_hello message ifp true IP_ADDR_SIZE (hdrsize + 4) | AF_INET6 => ret false end.
Definition serialize_hello6 (message : own_hello) (ifp : nat) : NM bool :=
  match ip_version with AF_INET6 => serialize_hello message ifp false IP_ADDR_SIZE (hdrsize + 4 + ip_len + 4) | AF_INET => ret false end.

Definition queue_hello (message : own_hello) (ifp : nat) : NM bool :=
  match ip_version with AF_INET6 => serialize_hello6 message ifp | AF_INET => serialize_hello4 message ifp end.

(** ** Lists of entries: TC, MID and HNA *)

(** [eb_sent] is [partial_sent]. *)
Record entries_build := {
  eb_curr_size : Z;
  eb_remainsize : Z;
  eb_body : list Z;
  eb_sent : bool;
}.

(** One entry; the message has [hdr] bytes before the first one, and [checked] more have to fit when a message has been sent. *)
Definition append_entry (push : list Z -> Z -> NM unit) (ifp : nat) (hdr checked : Z) (b : entries_build) (entry : list Z) : NM entries_build :=
  let size := Z.of_nat (length entry) in
  let* b :=
    if eb_curr_size b + size >? eb_remainsize b then
      let* b :=
        if eb_curr_size b >? hdr then
          do* push (eb_body b) (eb_curr_size b) in
          ret {| eb_curr_size := hdr; eb_remainsize := eb_remainsize b; eb_body := []; eb_sent := true |}
        else ret b in
      let* _ := net_output ptf_list ifp in
      let* remainsize := room_left ifp in
      do* check_buffspace (eb_curr_size b + checked) remainsize in
      ret {| eb_curr_size := eb_curr_size b; eb_remainsize := remainsize; eb_body := eb_body b; eb_sent := eb_sent b |}
    else ret b in
  do* in_msg_buffer (eb_curr_size b) size in
  ret {| eb_curr_size := u16 (eb_curr_size b + size); eb_remainsize := eb_remainsize b; eb_body := eb_body b ++ entry; eb_sent := eb_sent b |}.

Definition no_entries (hdr remainsize : Z) : entries_build :=
  {| eb_curr_size := hdr; eb_remainsize := remainsize; eb_body := []; eb_sent := false |}.

(** *** TC *)

Definition push_tc (message : tc_message) (ifp : nat) (body : list Z) (curr_size : Z) : NM unit :=
  let* o := get_out ifp in
  push_message ifp (message_bytes TC_MESSAGE (vt_tc (valtimes o)) (tm_originator message) (tm_ttl message) (tm_hop_count message)
    (pkt_put_u16 [] (tm_ansn message) ++ [0; 0] ++ body)) curr_size.

(** [found] is set in every round and reset only within one. *)
Definition serialize_tc (message : tc_message) (ifp : nat) : NM bool :=
  let hdr := hdrsize + 4 in
  let* remainsize := make_room ifp hdr hdr in
  let* b := foldM (tm_neigh message) (no_entries hdr remainsize)
    (fun b a => append_entry (push_tc message ifp) ifp hdr ip_len b (ip_bytes (ipsize ip_version) a)) in
  let found := negb (bool_decide (tm_neigh message = [])) in
  if found then do* push_tc message ifp (eb_body b) (eb_curr_size b) in ret true
  else
    let* now := gets (fun n => now_times (core n)) in
    let* timer := gets send_empty_tc in
    if negb (eb_sent b) && negb (olsr_isTimedOut now timer) then
      do* push_tc message ifp (eb_body b) (eb_curr_size b) in ret true
    else ret false.

Definition serialize_tc4 (message : tc_message) (ifp : nat) : NM bool :=
  match ip_version with AF_INET => serialize_tc message ifp | AF_INET6 => ret false end.
Definition serialize_tc6 (message : tc_message) (ifp : nat) : NM bool :=
  match ip_version with AF_INET6 => serialize_tc message ifp | AF_INET => ret false end.
Definition queue_tc (message : tc_message) (ifp : nat) : NM bool :=
  match ip_version with AF_INET6 => serialize_tc6 message ifp | AF_INET => serialize_tc4 message ifp end.

(** *** MID *)

Definition push_mid (ifp : nat) (body : list Z) (curr_size : Z) : NM unit :=
  let* o := get_out ifp in
  let* main := gets (fun n => main_addr (core n)) in
  push_message ifp (message_bytes MID_MESSAGE (vt_mid (valtimes o)) main MAX_TTL 0 body) curr_size.

(** The size needed is counted for two addresses per interface. A message without addresses takes a number, but is not sent. *)
Definition serialize_mid (ifp : nat) (checked : Z) : NM bool :=
  let* ifs := gets (fun n => ifnet (core n)) in
  let* main := gets (fun n => main_addr (core n)) in
  let others := filter (fun a => ipequal ip_version main a = false) (map if_ip_addr ifs) in
  match ifs with
  | [] => ret false
  | i :: rest =>
      if bool_decide (rest = []) && ipequal ip_version main (if_ip_addr i) then ret false
      else
        let* remainsize := make_room ifp (u16 (hdrsize + ip_len * 2 * Z.of_nat (length ifs))) hdrsize in
        let* b := foldM others (no_entries hdrsize remainsize)
          (fun b a => append_entry (push_mid ifp) ifp hdrsize checked b (ip_bytes (ipsize ip_version) a)) in
        do* (if eb_curr_size b >? hdrsize then push_mid ifp (eb_body b) (eb_curr_size b) else let* _ := get_msg_seqno in ret tt) in
        ret true
  end.

Definition serialize_mid4 (ifp : nat) : NM bool :=
  match ip_version with AF_INET => serialize_mid ifp 0 | AF_INET6 => ret false end.
Definition serialize_mid6 (ifp : nat) : NM bool :=
  match ip_version with AF_INET6 => serialize_mid ifp ip_len | AF_INET => ret false end.
Definition queue_mid (ifp : nat) : NM bool :=
  match ip_version with AF_INET6 => serialize_mid6 ifp | AF_INET => serialize_mid4 ifp end.

(** *** HNA *)

Definition push_hna (ifp : nat) (is_zero_bw : bool) (body : list Z) (curr_size : Z) : NM unit :=
  let* o := get_out ifp in
  let* main := gets (fun n => main_addr (core n)) in
  let vtime := if is_zero_bw then reltime_to_me (sgw_sgw_zero_bw_timeout o) else vt_hna (valtimes o) in
  push_message ifp (message_bytes HNA_MESSAGE vtime main MAX_TTL 0 body) curr_size.

Definition hna_pair (net : olsr_ip_prefix) : list Z :=
  ip_bytes (ipsize ip_version) (prefix net) ++ fst (prefix_to_netmask (ipsize ip_version) (prefix_len net)).

Definition appendHNAEntry (ifp : nat) (zero : bool) (b : entries_build) (h : olsr_ip_prefix) : NM entries_build :=
  append_entry (push_hna ifp zero) ifp hdrsize (2 * ip_len) b (hna_pair h).

(** The result is always false. Without networks nothing is sent. *)
Definition serialize_hna (h : list olsr_ip_prefix) (ifp : nat) (is_zero_bw : bool) : NM bool :=
  if bool_decide (h = []) then ret false
  else
    let* remainsize := make_room ifp (u16 (hdrsize + 2 * ip_len * Z.of_nat (length h))) hdrsize in
    let* b := foldM h (no_entries hdrsize remainsize) (appendHNAEntry ifp is_zero_bw) in
    do* push_hna ifp is_zero_bw (eb_body b) (eb_curr_size b) in
    ret false.

Definition serialize_hna4 (h : list olsr_ip_prefix) (ifp : nat) (is_zero_bw : bool) : NM bool :=
  match ip_version with AF_INET => serialize_hna h ifp is_zero_bw | AF_INET6 => ret false end.
Definition serialize_hna6 (h : list olsr_ip_prefix) (ifp : nat) (is_zero_bw : bool) : NM bool :=
  match ip_version with AF_INET6 => serialize_hna h ifp is_zero_bw | AF_INET => ret false end.
Definition queue_hna (ifp : nat) : NM bool :=
  let* h := gets own_hna in
  match ip_version with AF_INET6 => serialize_hna6 h ifp false | AF_INET => serialize_hna4 h ifp false end.

End build_msg.
