(* ===== verification/BuildProofs.v ===== *)
(** * Messages on the way out: lemmas

    What an interface has sent and has still queued is one stream of bytes. Sending
    does not change it, and queueing a message appends the message. *)

From S2P Require Import Prelude Timer Mantissa Avl IpAddr KeyTree DupSet State Interfaces Packet Hello Node NetOlsr NetSpec Hna TcInput BuildMsg.

Section build_proofs.
Context {cnf : olsrd_config} {ncf : node_config}.

(** ** The stream of an interface *)

(** The packets that were sent over the interface, without their headers, the first one first. *)
Definition payloads (i : nat) (n : node) : list Z := concat (map (fun p => drop 4 (snd p)) (filter (fun p => fst p = i) (rev (sent n)))).

Record ready (i : nat) (o : out_interface) (q : list Z) (n : node) : Prop := {
  rd_out : outs n !! i = Some o;
  rd_holds : holds o q;
  rd_room : Z.of_nat (length q) <= maxsize (netbuf o) < 65536;
  rd_seqno : is_u16 (message_seqno n);
}.

(** The node apart from the interface and the number of the next message. *)
Definition out_strip (n : node) : node := set_outs [] (set_sent [] (set_lq_tc_pending false (set_message_seqno 0 n))).

(** From [n] to [n'] the messages [msgs] were written to the interface, and nothing else. *)
Record emitted (i : nat) (msgs : list (list Z)) (o : out_interface) (q : list Z) (n : node) (o' : out_interface) (q' : list Z) (n' : node) : Prop := {
  em_ready : ready i o' q' n';
  em_limits : same_limits o o';
  em_outs : outs n' = <[i := o']> (outs n);
  em_stream : payloads i n' ++ q' = payloads i n ++ q ++ concat msgs;
  em_seqno : message_seqno n' = u16 (message_seqno n + Z.of_nat (length msgs));
  em_rest : out_strip n' = out_strip n;
}.

Lemma u16_small x : is_u16 x -> u16 x = x.
Proof. intros H. apply Z.mod_small. exact H. Qed.

Lemma emitted_refl i o q n : ready i o q n -> emitted i [] o q n o q n.
Proof.
  intros Hr. split; try done.
  - symmetry. apply list_insert_id, Hr.
  - by rewrite app_nil_r.
  - rewrite Z.add_0_r, u16_small; [done|apply Hr].
Qed.

Lemma emitted_trans i a b o q n o1 q1 n1 o2 q2 n2 :
  emitted i a o q n o1 q1 n1 -> emitted i b o1 q1 n1 o2 q2 n2 -> emitted i (a ++ b) o q n o2 q2 n2.
Proof.
  intros [A1 A2 A3 A4 A5 A6] [B1 B2 B3 B4 B5 B6]. split.
  - done.
  - by etrans.
  - by rewrite B3, A3, list_insert_insert_eq.
  - rewrite B4, concat_app, !app_assoc. rewrite A4. by rewrite <- !app_assoc.
  - rewrite B5, A5, length_app. unfold u16. rewrite Nat2Z.inj_add, Zplus_mod_idemp_l. f_equal. lia.
  - congruence.
Qed.

Definition MAX_REMAINING : Z := 1280 - 40 - 8 - 4.

(** The bytes for which there is room. *)
Definition room (o : out_interface) (q : list Z) : Z := Z.min MAX_REMAINING (maxsize (netbuf o) - Z.of_nat (length q)).

Lemma wp_room_left i o q n (Q : Z -> node -> Prop) : ready i o q n -> Q (room o q) n -> wp (room_left i) Q n.
Proof.
  intros Hr HQ. unfold room_left, net_outbuffer_bytes_left. wp_step. wp_step. eapply wp_get_out; [apply Hr|]. cbv zeta. wp_steps.
  rewrite <- (holds_length _ _ (rd_holds _ _ _ _ Hr)). pose proof (rd_room _ _ _ _ Hr) as Hm.
  match goal with |- Q ?x n => replace x with (room o q); [done|] end. unfold room, MAX_REMAINING.
  rewrite Z.gtb_ltb. destruct (Z.ltb_spec (1280 - 40 - 8 - 4) (maxsize (netbuf o) - Z.of_nat (length q))); rewrite u16_small; unfold is_u16; lia.
Qed.

Lemma same_limits_max o o' : same_limits o o' -> maxsize (netbuf o') = maxsize (netbuf o).
Proof. by intros (_ & ? & _). Qed.

Lemma wp_output i o q n : ready i o q n ->
  wp (net_output [] i) (fun _ n' => exists o', emitted i [] o q n o' [] n') n.
Proof.
  intros Hr. pose proof Hr as [R1 R2 R3 R4]. eapply wp_mono; [by apply wp_net_output|]. cbv beta. intros r n' H.
  case_bool_decide as Eq.
  - destruct H as [_ ->]. subst q. exists o. by apply emitted_refl.
  - destruct H as (_ & o' & Hh & Hl & Hs & ->). exists o'. pose proof (same_limits_max _ _ Hl) as Em. split; try done.
    + split; simpl; try done; [apply list_lookup_insert_eq; by eapply lookup_lt_Some|rewrite Em; simpl; lia].
    + unfold payloads. simpl. rewrite filter_app, map_app, concat_app, !app_nil_r. rewrite filter_cons_True by done. simpl. by rewrite app_nil_r.
    + simpl. rewrite Z.add_0_r, u16_small; done.
Qed.

Lemma wp_push_message i msg size o q n :
  ready i o q n -> (forall s, Z.of_nat (length (msg size s)) = size) -> Z.of_nat (length q) + size <= maxsize (netbuf o) ->
  wp (push_message i msg size) (fun _ n' => exists o' q', emitted i [msg size (message_seqno n)] o q n o' q' n' /\ length q' = (length q + Z.to_nat size)%nat) n.
Proof.
  intros Hr Hlen Hroom. pose proof Hr as [R1 R2 R3 R4]. unfold push_message, get_msg_seqno. wp_steps.
  set (s := message_seqno n) in *. set (n1 := set_message_seqno _ n). pose proof (Hlen s) as Hl.
  eapply wp_mono; [apply (wp_outbuffer_push maxsize i (msg size s) size o q n1); [done|done| |lia]|].
  { destruct R2 as (l & [_ _ M _] & _). lia. }
  cbv beta. intros r n' (o' & -> & Hlim & Hsq & Hrr & Hh). wp_step.
  assert (Z.of_nat (length q) + size >? maxsize (netbuf o) = false) as E by (rewrite Z.gtb_ltb; apply Z.ltb_ge; lia). rewrite E in Hrr. subst r.
  assert (take (Z.to_nat size) (msg size s) = msg size s) as Et by (apply take_ge; lia). rewrite Et in Hh.
  exists o', (q ++ msg size s). split; [|rewrite length_app; lia]. pose proof (same_limits_max _ _ Hlim) as Em. split; try done.
  - split; simpl; [apply list_lookup_insert_eq; by eapply lookup_lt_Some|done|rewrite Em, length_app; lia|apply Z.mod_pos_bound; lia].
  - simpl. by rewrite app_nil_r.
Qed.

(** The messages of the parts, numbered from [s]. *)
Definition numbered {P} (mk : P -> Z -> list Z) (s : Z) (parts : list P) : list (list Z) := imap (fun k p => mk p (u16 (s + Z.of_nat k))) parts.

Lemma numbered_snoc {P} (mk : P -> Z -> list Z) s parts p :
  numbered mk s (parts ++ [p]) = numbered mk s parts ++ [mk p (u16 (s + Z.of_nat (length parts)))].
Proof. unfold numbered. rewrite imap_app. simpl. by rewrite Nat.add_0_r. Qed.

Lemma length_numbered {P} (mk : P -> Z -> list Z) s parts : length (numbered mk s parts) = length parts.
Proof. unfold numbered. apply length_imap. Qed.

(** ** Making room *)

Definition full_room (o : out_interface) : Z := room o [].

Lemma full_room_limits o o' : same_limits o o' -> full_room o' = full_room o.
Proof. intros H. unfold full_room, room. by rewrite (same_limits_max _ _ H). Qed.

Lemma room_full o q : room o q <= full_room o.
Proof. unfold full_room, room. simpl. lia. Qed.

Lemma wp_make_room i needsize checked o q n :
  ready i o q n -> checked <= full_room o -> (needsize <= room o q -> checked <= room o q) ->
  wp (make_room [] i needsize checked) (fun r n' => exists o' q', emitted i [] o q n o' q' n' /\ r = room o' q' /\ checked <= r) n.
Proof.
  intros Hr Hc Hn. unfold make_room. wp_step. eapply wp_room_left; [done|]. wp_step.
  assert (forall o' q' n', emitted i [] o q n o' q' n' -> checked <= room o' q' ->
    wp (do* check_buffspace checked (room o' q') in ret (room o' q'))
      (fun r n' => exists o' q', emitted i [] o q n o' q' n' /\ r = room o' q' /\ checked <= r) n') as Hend.
  { intros o' q' n' He Hle. unfold check_buffspace. assert (checked >? room o' q' = false) as -> by (rewrite Z.gtb_ltb; apply Z.ltb_ge; lia).
    wp_steps. by exists o', q'. }
  destruct (needsize >? room o q) eqn:E.
  - wp_step. eapply wp_mono; [by apply wp_output|]. cbv beta. intros _ n' (o' & He).
    eapply wp_room_left; [apply He|]. apply Hend; [done|]. fold (full_room o'). by rewrite (full_room_limits _ _ (em_limits _ _ _ _ _ _ _ _ He)).
  - wp_step. rewrite Z.gtb_ltb in E. apply Z.ltb_ge in E. apply Hend; [by apply emitted_refl|auto].
Qed.

(** ** Lists *)

Lemma wp_foldM_map {S A A' B} (f : A' -> A) l (b : B) (body : B -> A -> M S B) (Q : B -> S -> Prop) st :
  wp (foldM (map f l) b body) Q st -> wp (foldM l b (fun b x => body b (f x))) Q st.
Proof.
  revert b st. induction l as [|x l IH]; intros b st; [done|]. unfold wp, bind. cbn [map foldM]. unfold bind.
  destruct (body b (f x) st) as [[b' st']|]; [|done]. apply IH.
Qed.

(** Parts of a list of encoded entries are encoded parts of the list. *)
Lemma parts_map {A B} (f : A -> B) l ps : concat ps = map f l -> exists ls, ps = map (map f) ls /\ concat ls = l.
Proof.
  revert l. induction ps as [|p ps IH]; intros l E; simpl in E.
  - exists []. split; [done|]. by destruct l.
  - symmetry in E. apply fmap_app_inv in E as (l1 & l2 & -> & E2 & ->). destruct (IH l2 E2) as (ls & -> & E3).
    exists (l1 :: ls). simpl. by rewrite E3.
Qed.

Lemma numbered_map {P P'} (f : P' -> P) (mk : P -> Z -> list Z) s parts : numbered mk s (map f parts) = numbered (fun p => mk (f p)) s parts.
Proof. unfold numbered. change (map f parts) with (f <$> parts). by rewrite imap_fmap. Qed.

Lemma numbered_ext {P} (mk mk' : P -> Z -> list Z) s parts : (forall p s, mk p s = mk' p s) -> numbered mk s parts = numbered mk' s parts.
Proof. intros H. unfold numbered. apply imap_ext. intros k p _. apply H. Qed.

Lemma concat_pos {A} (l : list (list A)) : Forall (fun e => e <> []) l -> l <> [] -> (0 < length (concat l))%nat.
Proof. intros H Hl. destruct H as [|e l He _]; [done|]. simpl. rewrite length_app. destruct e; [done|]. simpl. lia. Qed.

(** ** Lists of entries *)

Section entries.
Context (i : nat) (hdr checked : Z) (mk : list Z -> Z -> list Z) (push : list Z -> Z -> NM unit).
Context (o0 : out_interface) (q0 : list Z) (n0 : node).

(** The message of a part, a list of entries. *)
Definition entries_msg (part : list (list Z)) : Z -> list Z := mk (concat part).
Definition entries_size (part : list (list Z)) : Z := hdr + Z.of_nat (length (concat part)).

Hypothesis push_spec : forall body o q n, ready i o q n -> same_limits o0 o -> out_strip n = out_strip n0 ->
  Z.of_nat (length q) + (hdr + Z.of_nat (length body)) <= maxsize (netbuf o) ->
  wp (push body (hdr + Z.of_nat (length body))) (fun _ n' => exists o' q', emitted i [mk body (message_seqno n)] o q n o' q' n') n.

(** The messages of [sent_] were written; [cur] is in the one under construction. *)
Record building (sent_ : list (list (list Z))) (cur : list (list Z)) (b : entries_build) (n : node) : Prop := {
  bu_emitted : exists o q, emitted i (numbered entries_msg (message_seqno n0) sent_) o0 q0 n0 o q n /\ eb_remainsize b = room o q;
  bu_body : eb_body b = concat cur;
  bu_size : eb_curr_size b = entries_size cur;
  bu_fits : eb_curr_size b <= eb_remainsize b;
  bu_sent : eb_sent b = negb (bool_decide (sent_ = []));
  bu_parts : Forall (fun part => part <> [] /\ entries_size part <= full_room o0) sent_;
}.

Lemma emitted_seqno i' msgs o q n o' q' n' : emitted i' msgs o q n o' q' n' -> message_seqno n' = u16 (message_seqno n + Z.of_nat (length msgs)).
Proof. apply em_seqno. Qed.

Lemma wp_append_entry sent_ cur b entry n :
  building sent_ cur b n -> 0 <= hdr -> entry <> [] -> hdr + Z.of_nat (length entry) <= full_room o0 -> checked <= Z.of_nat (length entry) ->
  wp (append_entry [] push i hdr checked b entry) (fun b' n' => exists sent' cur', building sent' cur' b' n' /\
    concat sent' ++ cur' = concat sent_ ++ cur ++ [entry] /\ cur' <> []) n.
Proof.
  intros [(o & q & He & Erem) B2 B3 B4 B5 B6] Hhdr Hne Hfit Hchk. unfold append_entry.
  assert (full_room o0 <= MAX_REMAINING) as Hfr by (unfold full_room, room; lia).
  assert (forall sent' cur' o' q' n' b1, emitted i (numbered entries_msg (message_seqno n0) sent') o0 q0 n0 o' q' n' ->
    eb_remainsize b1 = room o' q' -> eb_body b1 = concat cur' -> eb_curr_size b1 = entries_size cur' ->
    eb_curr_size b1 + Z.of_nat (length entry) <= eb_remainsize b1 -> eb_sent b1 = negb (bool_decide (sent' = [])) ->
    Forall (fun part => part <> [] /\ entries_size part <= full_room o0) sent' -> concat sent' ++ cur' = concat sent_ ++ cur ->
    wp (do* in_msg_buffer (eb_curr_size b1) (Z.of_nat (length entry)) in
        ret {| eb_curr_size := u16 (eb_curr_size b1 + Z.of_nat (length entry)); eb_remainsize := eb_remainsize b1;
               eb_body := eb_body b1 ++ entry; eb_sent := eb_sent b1 |})
      (fun b' n' => exists sent' cur', building sent' cur' b' n' /\ concat sent' ++ cur' = concat sent_ ++ cur ++ [entry] /\ cur' <> []) n') as Hend.
  { intros sent' cur' o' q' n' b1 H1 H2 H3 H4 H5 H6 H7 H8. pose proof (room_full o' q') as Hrf.
    rewrite (full_room_limits _ _ (em_limits _ _ _ _ _ _ _ _ H1)) in Hrf. unfold in_msg_buffer, MSG_BUFFER_SIZE, MAX_REMAINING in *.
    destruct (_ >? 1500) eqn:E; [rewrite Z.gtb_ltb in E; apply Z.ltb_lt in E; lia|]. wp_steps.
    assert (0 <= entries_size cur') as Hpos by (unfold entries_size; lia).
    exists sent', (cur' ++ [entry]). split; [|split; [by rewrite app_assoc, H8, <- app_assoc|by destruct cur']]. split; simpl.
    - by exists o', q'.
    - by rewrite concat_app, H3; simpl; rewrite app_nil_r.
    - rewrite H4. unfold entries_size in *. rewrite concat_app, length_app. simpl. rewrite app_nil_r, Nat2Z.inj_add, u16_small; unfold is_u16; lia.
    - rewrite u16_small; unfold is_u16; lia.
    - done.
    - done. }
  wp_step. destruct (eb_curr_size b + Z.of_nat (length entry) >? eb_remainsize b) eqn:E.
  - assert (forall sent' cur' o' q' n' b1, emitted i (numbered entries_msg (message_seqno n0) sent') o0 q0 n0 o' q' n' ->
      eb_body b1 = concat cur' -> eb_curr_size b1 = entries_size cur' -> eb_curr_size b1 = hdr -> eb_sent b1 = negb (bool_decide (sent' = [])) ->
      Forall (fun part => part <> [] /\ entries_size part <= full_room o0) sent' -> concat sent' ++ cur' = concat sent_ ++ cur ->
      wp (let* _ := net_output [] i in let* remainsize := room_left i in do* check_buffspace (eb_curr_size b1 + checked) remainsize in
          ret {| eb_curr_size := eb_curr_size b1; eb_remainsize := remainsize; eb_body := eb_body b1; eb_sent := eb_sent b1 |})
        (fun a => wp (do* in_msg_buffer (eb_curr_size a) (Z.of_nat (length entry)) in
          ret {| eb_curr_size := u16 (eb_curr_size a + Z.of_nat (length entry)); eb_remainsize := eb_remainsize a;
                 eb_body := eb_body a ++ entry; eb_sent := eb_sent a |})
          (fun b' n' => exists sent' cur', building sent' cur' b' n' /\ concat sent' ++ cur' = concat sent_ ++ cur ++ [entry] /\ cur' <> [])) n') as Hflush.
    { intros sent' cur' o' q' n' b1 H1 H2 H3 H4 H5 H6 H7. wp_step. eapply wp_mono; [apply wp_output, H1|]. cbv beta. intros _ n2 (o2 & He2).
      pose proof (emitted_trans _ _ _ _ _ _ _ _ _ _ _ _ H1 He2) as Ht. rewrite app_nil_r in Ht.
      wp_step. eapply wp_room_left; [apply He2|]. fold (full_room o2). rewrite (full_room_limits _ _ (em_limits _ _ _ _ _ _ _ _ Ht)).
      unfold check_buffspace. assert (eb_curr_size b1 + checked >? full_room o0 = false) as -> by (rewrite Z.gtb_ltb; apply Z.ltb_ge; lia).
      apply wp_bind, wp_ret, wp_ret.
      eapply (Hend sent' cur' o2 [] n2 {| eb_curr_size := eb_curr_size b1; eb_remainsize := full_room o0; eb_body := eb_body b1; eb_sent := eb_sent b1 |}); simpl; try done; [|lia].
      fold (full_room o2). by rewrite (full_room_limits _ _ (em_limits _ _ _ _ _ _ _ _ Ht)). }
    wp_step. destruct (eb_curr_size b >? hdr) eqn:E2.
    + wp_step. rewrite B2, B3. unfold entries_size at 1. rewrite Z.gtb_ltb in E2. apply Z.ltb_lt in E2. rewrite B3 in E2.
      eapply wp_mono; [apply (push_spec (concat cur) o q); [apply He|apply He|apply He|]|].
      { unfold room in Erem. rewrite B3 in B4. unfold entries_size in B4. lia. }
      cbv beta. intros _ n1 (o1 & q1 & He1). wp_step.
      pose proof (emitted_trans _ _ _ _ _ _ _ _ _ _ _ _ He He1) as Ht. rewrite (emitted_seqno _ _ _ _ _ _ _ _ He), length_numbered in Ht.
      change (mk (concat cur)) with (entries_msg cur) in Ht. rewrite <- numbered_snoc in Ht.
      eapply (Hflush (sent_ ++ [cur]) [] o1 q1 n1 {| eb_curr_size := hdr; eb_remainsize := eb_remainsize b; eb_body := []; eb_sent := true |}); simpl; try done.
      * unfold entries_size. simpl. lia.
      * rewrite bool_decide_eq_false_2; [done|]. by destruct sent_.
      * apply Forall_app. split; [done|]. apply Forall_singleton. split.
        -- intros ->. unfold entries_size in E2. simpl in E2. lia.
        -- pose proof (room_full o q). rewrite (full_room_limits _ _ (em_limits _ _ _ _ _ _ _ _ He)) in H. rewrite B3 in B4. lia.
      * by rewrite concat_app, app_nil_r; simpl; rewrite app_nil_r.
    + rewrite Z.gtb_ltb in E2. apply Z.ltb_ge in E2. wp_step. apply (Hflush sent_ cur o q n b); try done. rewrite B3 in *. unfold entries_size in *. lia.
  - rewrite Z.gtb_ltb in E. apply Z.ltb_ge in E. wp_step. apply (Hend sent_ cur o q n b); done.
Qed.

Lemma wp_append_entries entries n b sent_ cur :
  building sent_ cur b n -> 0 <= hdr ->
  Forall (fun e => e <> [] /\ hdr + Z.of_nat (length e) <= full_room o0 /\ checked <= Z.of_nat (length e)) entries ->
  wp (foldM entries b (append_entry [] push i hdr checked)) (fun b' n' => exists sent' cur', building sent' cur' b' n' /\
    concat sent' ++ cur' = concat sent_ ++ cur ++ entries /\ (cur <> [] \/ entries <> [] -> cur' <> [])) n.
Proof.
  intros Hb Hhdr Hall. revert sent_ cur b n Hb. induction Hall as [|e entries (H1 & H2 & H3) _ IH]; intros sent_ cur b n Hb; cbn [foldM].
  - apply wp_ret. exists sent_, cur. split; [done|]. split; [by rewrite app_nil_r|]. by intros [?|?].
  - wp_step. eapply wp_mono; [by apply (wp_append_entry sent_ cur)|]. cbv beta. intros b1 n1 (s1 & c1 & Hb1 & E1 & Hc1).
    eapply wp_mono; [by apply (IH s1 c1)|]. cbv beta. intros b2 n2 (s2 & c2 & Hb2 & E2 & Hc2). exists s2, c2. split; [done|]. split.
    + rewrite E2, app_assoc, E1, <- !app_assoc. done.
    + intros _. apply Hc2. by left.
Qed.

(** The message under construction is sent too. *)
Lemma wp_push_last sent_ cur b n :
  building sent_ cur b n -> cur <> [] ->
  wp (push (eb_body b) (eb_curr_size b)) (fun _ n' => exists o' q', emitted i (numbered entries_msg (message_seqno n0) (sent_ ++ [cur])) o0 q0 n0 o' q' n' /\
    Forall (fun part => part <> [] /\ entries_size part <= full_room o0) (sent_ ++ [cur])) n.
Proof.
  intros [(o & q & He & Erem) B2 B3 B4 B5 B6] Hne. rewrite B2, B3. unfold entries_size at 1. pose proof B4 as Hle. rewrite B3, Erem in Hle.
  eapply wp_mono; [apply (push_spec (concat cur) o q); [apply He|apply He|apply He|]|].
  { unfold room, entries_size in Hle. lia. }
  cbv beta. intros _ n1 (o1 & q1 & He1). pose proof (emitted_trans _ _ _ _ _ _ _ _ _ _ _ _ He He1) as Ht.
  rewrite (emitted_seqno _ _ _ _ _ _ _ _ He), length_numbered in Ht. change (mk (concat cur)) with (entries_msg cur) in Ht. rewrite <- numbered_snoc in Ht.
  exists o1, q1. split; [done|]. apply Forall_app. split; [done|]. apply Forall_singleton. split; [done|].
  pose proof (room_full o q). rewrite (full_room_limits _ _ (em_limits _ _ _ _ _ _ _ _ He)) in H. lia.
Qed.

Lemma building_init r n o q : emitted i [] o0 q0 n0 o q n -> r = room o q -> hdr <= r -> building [] [] (no_entries hdr r) n.
Proof. intros He -> Hr. split; simpl; try done; [by exists o, q|unfold entries_size; simpl; lia]. Qed.

(** The entries encode a list. *)
Section listed.
Context {A : Type} (f : A -> list Z).

Lemma wp_fold_list l b n :
  building [] [] b n -> 0 <= hdr -> l <> [] ->
  Forall (fun a => f a <> [] /\ hdr + Z.of_nat (length (f a)) <= full_room o0 /\ checked <= Z.of_nat (length (f a))) l ->
  wp (foldM l b (fun b a => append_entry [] push i hdr checked b (f a))) (fun b' n' => exists parts cur,
    building (map (map f) parts) (map f cur) b' n' /\ concat parts ++ cur = l /\ cur <> [] /\ hdr < eb_curr_size b') n.
Proof.
  intros Hb Hhdr Hne Hall. apply wp_foldM_map. eapply wp_mono; [apply (wp_append_entries (map f l) n b [] [] Hb Hhdr); by apply Forall_map|].
  cbv beta. intros b' n' (s' & c' & Hb' & E & Hc). simpl in E.
  assert (c' <> []) as Hcne by (apply Hc; right; by destruct l).
  assert (Forall (fun e => e <> []) (concat s' ++ c')) as Hnn by (rewrite E; apply Forall_map; eapply Forall_impl; [exact Hall|]; by intros a [? _]).
  apply Forall_app in Hnn as [_ Hnn]. pose proof (concat_pos c' Hnn Hcne) as Hpos.
  destruct (parts_map f l (s' ++ [c'])) as (ls & El & Ec); [rewrite concat_app; simpl; by rewrite app_nil_r|].
  symmetry in El. apply fmap_app_inv in El as (parts & [|cur [|? ?]] & Ep & Ec' & ->); try done. injection Ec' as ->.
  exists parts, cur. subst s'. split; [done|]. split; [|split].
  - rewrite <- Ec, concat_app. simpl. by rewrite app_nil_r.
  - intros ->. by apply Hcne.
  - rewrite (bu_size _ _ _ _ Hb'). unfold entries_size. lia.
Qed.

Lemma wp_push_list parts cur b n :
  building (map (map f) parts) (map f cur) b n -> cur <> [] ->
  wp (push (eb_body b) (eb_curr_size b)) (fun _ n' => exists o' q',
    emitted i (numbered (fun part => mk (concat (map f part))) (message_seqno n0) (parts ++ [cur])) o0 q0 n0 o' q' n' /\
    Forall (fun part => part <> [] /\ hdr + Z.of_nat (length (concat (map f part))) <= full_room o0) (parts ++ [cur])) n.
Proof.
  intros Hb Hne. eapply wp_mono; [apply (wp_push_last _ _ _ _ Hb); by destruct cur|]. cbv beta. intros _ n' (o' & q' & He & Hp).
  assert (map (map f) parts ++ [map f cur] = map (map f) (parts ++ [cur])) as E by by rewrite map_app. rewrite E in *.
  rewrite numbered_map in He. exists o', q'. split; [exact He|]. apply Forall_map in Hp. eapply Forall_impl; [exact Hp|]. intros part [H1 H2]. split; [|done].
  intros ->. by apply H1.
Qed.

End listed.

End entries.

Lemma length_message type vt orig ttl hops body size s :
  Z.of_nat (length (message_bytes type vt orig ttl hops body size s)) = hdrsize + Z.of_nat (length body).
Proof.
  unfold message_bytes, hdrsize. rewrite !length_app. unfold ip_bytes. rewrite length_map, length_seq. unfold ipsize. simpl. destruct ip_version; simpl; lia.
Qed.

Lemma length_ips l : Z.of_nat (length (concat (map (ip_bytes (ipsize ip_version)) l))) = ip_len * Z.of_nat (length l).
Proof.
  induction l as [|a l IH]; simpl; [lia|]. rewrite length_app. unfold ip_bytes at 1. rewrite length_map, length_seq. unfold ip_len in *. lia.
Qed.

Lemma strip_core n n' : out_strip n' = out_strip n -> core n' = core n /\ own_hna n' = own_hna n /\ send_empty_tc n' = send_empty_tc n.
Proof. intros E. destruct n, n'. unfold out_strip in E. simpl in *. injection E as. by subst. Qed.

Lemma limits_times o o' : same_limits o o' -> valtimes o' = valtimes o /\ hello_etime o' = hello_etime o /\ sgw_sgw_zero_bw_timeout o' = sgw_sgw_zero_bw_timeout o.
Proof. intros [(b & s & ->) _]. done. Qed.

End build_proofs.
