(* ===== verification/BuildSpec.v ===== *)
(** * Messages on the way out: what is queued can be read back *)

From S2P Require Import Prelude Timer Mantissa Avl IpAddr KeyTree DupSet State Interfaces Packet MidSet Hello HelloRead NeighSpec LinkSpec Node NetOlsr Hna HnaSpec TcInput TcInputSpec.
From S2P Require Import NetSpec BuildMsg BuildProofs.

Section build_spec.
Context {cnf : olsrd_config} {ncf : node_config}.

Lemma ip_bytes_nonempty a : ip_bytes (ipsize ip_version) a <> [].
Proof. intros E. pose proof (length_ip_bytes (ipsize ip_version) a) as H. rewrite E in H. unfold ipsize in H. destruct ip_version; discriminate. Qed.

(** ** MID *)

Definition own_aliases (st : olsr_state) : list ip_addr :=
  filter (fun a => ipequal ip_version (main_addr st) a = false) (map if_ip_addr (ifnet st)).

Definition mid_msg (vt : Z) (main : ip_addr) (part : list ip_addr) (s : Z) : list Z :=
  message_bytes MID_MESSAGE vt main MAX_TTL 0 (concat (map (ip_bytes (ipsize ip_version)) part)) (hdrsize + ip_len * Z.of_nat (length part)) s.

Lemma read_aliases_put part rest acc : Forall (is_ip (ipsize ip_version)) part ->
  read_aliases (length part) (concat (map (ip_bytes (ipsize ip_version)) part) ++ rest) acc = Some (rev part ++ acc).
Proof.
  intros H. revert acc. induction H as [|a part Ha _ IH]; intros acc; [done|]. cbn [length read_aliases map concat].
  rewrite <- app_assoc. pose proof (get_put_ipaddress a (concat (map (ip_bytes (ipsize ip_version)) part) ++ rest) Ha) as E.
  unfold pkt_put_ipaddress in E. rewrite app_nil_l in E. rewrite E. cbn [mbind option_bind]. rewrite IH. simpl. by rewrite <- app_assoc.
Qed.

Lemma mid_msg_reads vt main part s rest :
  is_ip (ipsize ip_version) main -> Forall (is_ip (ipsize ip_version)) part -> is_u16 s -> hdrsize + ip_len * Z.of_nat (length part) < 65536 ->
  mid_chgestruct (mid_msg vt main part s ++ rest) =
    Some (Some {| mid_msg_vtime := me_to_reltime vt; mid_origaddr := main; mid_seqno := s; mid_addr := rev part |}).
Proof.
  intros Hm Hp Hs Hsz. assert (0 < ip_len) as Hip by (unfold ip_len, ipsize; destruct ip_version; lia).
  assert (12 <= hdrsize) as Hh by (unfold hdrsize; destruct ip_version; lia).
  unfold mid_chgestruct, mid_msg, message_bytes. rewrite <- !app_assoc. cbn [app pkt_get_u8 mbind option_bind].
  change (negb (MID_MESSAGE =? MID_MESSAGE)) with false. cbv iota. cbn [pkt_get_reltime mbind option_bind].
  rewrite get_put_u16 by (unfold is_u16; lia). cbn [mbind option_bind].
  match goal with |- context [ip_bytes _ main ++ ?l] => pose proof (get_put_ipaddress main l Hm) as E end.
  unfold pkt_put_ipaddress in E. rewrite app_nil_l in E. rewrite E. cbn [mbind option_bind app].
  match goal with |- context [drop 2 (MAX_TTL :: 0 :: ?l)] => change (drop 2 (MAX_TTL :: 0 :: l)) with l end. rewrite get_put_u16 by done. cbn [mbind option_bind].
  fold ip_len. replace (Z.quot (hdrsize + ip_len * Z.of_nat (length part) - 12) ip_len) with (Z.of_nat (length part)).
  - rewrite Nat2Z.id, read_aliases_put by done. cbn [mbind option_bind]. by rewrite app_nil_r.
  - rewrite Z.quot_div_nonneg by lia. apply (Z.div_unique _ _ _ (hdrsize - 12)); [|lia]. left. unfold hdrsize, ip_len, ipsize. destruct ip_version; simpl; lia.
Qed.

Lemma push_mid_spec i o0 n0 body o q n :
  ready i o q n -> same_limits o0 o -> out_strip n = out_strip n0 ->
  Z.of_nat (length q) + (hdrsize + Z.of_nat (length body)) <= maxsize (netbuf o) ->
  wp (push_mid i body (hdrsize + Z.of_nat (length body))) (fun _ n' => exists o' q',
    emitted i [message_bytes MID_MESSAGE (vt_mid (valtimes o0)) (main_addr (core n0)) MAX_TTL 0 body (hdrsize + Z.of_nat (length body)) (message_seqno n)] o q n o' q' n') n.
Proof.
  intros Hr Hl Hs Hroom. destruct (strip_core _ _ Hs) as (Hc & _). destruct (limits_times _ _ Hl) as (Hv & _).
  unfold push_mid. wp_step. eapply wp_get_out; [apply Hr|]. wp_step. wp_step. rewrite Hc, Hv.
  eapply wp_mono; [apply (wp_push_message i _ _ o q n Hr); [intros s; apply length_message|exact Hroom]|].
  cbv beta. intros _ n' (o' & q' & He & _). by exists o', q'.
Qed.

Lemma wp_queue_mid i o q n :
  ready i o q n -> own_aliases (core n) <> [] -> hdrsize + ip_len <= full_room o ->
  hdrsize + ip_len * 2 * Z.of_nat (length (ifnet (core n))) < 65536 ->
  wp (queue_mid [] i) (fun r n' => r = true /\ exists parts o' q',
    emitted i (numbered (mid_msg (vt_mid (valtimes o)) (main_addr (core n))) (message_seqno n) parts) o q n o' q' n' /\
    concat parts = own_aliases (core n) /\ Forall (fun part => part <> [] /\ hdrsize + ip_len * Z.of_nat (length part) <= full_room o) parts) n.
Proof.
  intros Hr Hne Hroom Hifs.
  assert (queue_mid [] i = serialize_mid [] i (match ip_version with AF_INET => 0 | AF_INET6 => ip_len end)) as -> by (unfold queue_mid, serialize_mid4, serialize_mid6; by destruct ip_version).
  set (checked := match ip_version with AF_INET => 0 | AF_INET6 => ip_len end). unfold serialize_mid. wp_step. wp_step. wp_step. wp_step.
  assert (0 < ip_len) as Hip by (unfold ip_len, ipsize; destruct ip_version; lia).
  assert (0 <= hdrsize) as Hh by (unfold hdrsize; destruct ip_version; lia).
  assert (exists i0 rest, ifnet (core n) = i0 :: rest /\ bool_decide (rest = []) && ipequal ip_version (main_addr (core n)) (if_ip_addr i0) = false)
    as (i0 & rest & Eif & Esolo).
  { unfold own_aliases in Hne. destruct (ifnet (core n)) as [|i0 rest]; [done|]. exists i0, rest. split; [done|].
    case_bool_decide as Er; [|done]. subst rest. cbn [map andb] in *. destruct (ipequal _ _ _) eqn:E; [|done]. exfalso. apply Hne. by rewrite filter_cons_False by (by rewrite E). }
  fold (own_aliases (core n)). set (others := own_aliases (core n)) in *. rewrite Eif, Esolo. wp_step.
  rewrite <- Eif. set (need := u16 _). set (vt := vt_mid (valtimes o)). set (main := main_addr (core n)).
  assert (hdrsize <= need) as Hneed by (unfold need; rewrite u16_small; unfold is_u16; lia).
  set (mk := fun body s => message_bytes MID_MESSAGE vt main MAX_TTL 0 body (hdrsize + Z.of_nat (length body)) s).
  eapply wp_mono; [apply (wp_make_room i need hdrsize o q n Hr); lia|]. cbv beta. intros r n1 (o1 & q1 & He1 & Er & Hle).
  pose proof (building_init i hdrsize mk o q n r n1 o1 q1 He1 Er Hle) as Hb.
  wp_step. eapply wp_mono; [apply (wp_fold_list i hdrsize checked mk (push_mid i) o q n (push_mid_spec i o n) (ip_bytes (ipsize ip_version)) others _ n1 Hb Hh Hne)|].
  { apply Forall_true. intros a. rewrite length_ip_bytes. fold ip_len. unfold checked. split; [apply ip_bytes_nonempty|]. destruct ip_version; lia. }
  cbv beta. intros b n2 (parts & cur & Hb2 & E2 & Hcne & Hgt).
  assert (eb_curr_size b >? hdrsize = true) as -> by (rewrite Z.gtb_ltb; by apply Z.ltb_lt).
  wp_step. eapply wp_mono; [apply (wp_push_list i hdrsize mk (push_mid i) o q n (push_mid_spec i o n) _ parts cur b n2 Hb2 Hcne)|].
  cbv beta. intros _ n3 (o3 & q3 & He3 & Hp3). wp_step. split; [done|]. exists (parts ++ [cur]), o3, q3. split; [|split].
  - erewrite numbered_ext; [exact He3|]. intros p s. unfold mk, mid_msg. by rewrite length_ips.
  - rewrite concat_app. simpl. by rewrite app_nil_r.
  - eapply Forall_impl; [exact Hp3|]. intros p [H1 H2]. by rewrite length_ips in H2.
Qed.




(** ** HNA *)

Definition announced_net (k : olsr_ip_prefix) : ip_addr * list Z := (prefix k, fst (prefix_to_netmask (ipsize ip_version) (prefix_len k))).

Lemma length_netmask len p : length (fst (prefix_to_netmask len p)) = len.
Proof.
  unfold prefix_to_netmask. revert p. induction len as [|len IH]; intros p; [done|]. cbn [netmask_bytes]. destruct (p >? 8).
  - specialize (IH (p - 8)). destruct (netmask_bytes len (p - 8)) as [l ok]. simpl in *. by rewrite IH.
  - simpl. by rewrite repeat_length.
Qed.

Lemma length_pair k : Z.of_nat (length (hna_pair k)) = 2 * ip_len.
Proof. unfold hna_pair. rewrite length_app, length_ip_bytes, length_netmask. unfold ip_len. lia. Qed.

Lemma length_pairs l : Z.of_nat (length (concat (map hna_pair l))) = 2 * ip_len * Z.of_nat (length l).
Proof. induction l as [|k l IH]; simpl; [lia|]. rewrite length_app, Nat2Z.inj_add, length_pair, IH. lia. Qed.

Lemma push_hna_spec i o0 n0 body o q n :
  ready i o q n -> same_limits o0 o -> out_strip n = out_strip n0 ->
  Z.of_nat (length q) + (hdrsize + Z.of_nat (length body)) <= maxsize (netbuf o) ->
  wp (push_hna i false body (hdrsize + Z.of_nat (length body))) (fun _ n' => exists o' q',
    emitted i [message_bytes HNA_MESSAGE (vt_hna (valtimes o0)) (main_addr (core n0)) MAX_TTL 0 body (hdrsize + Z.of_nat (length body)) (message_seqno n)] o q n o' q' n') n.
Proof.
  intros Hr Hl Hs Hroom. destruct (strip_core _ _ Hs) as (Hc & _). destruct (limits_times _ _ Hl) as (Hv & _).
  unfold push_hna. wp_step. eapply wp_get_out; [apply Hr|]. wp_step. wp_step. rewrite Hc, Hv.
  eapply wp_mono; [apply (wp_push_message i _ _ o q n Hr); [intros s; apply length_message|exact Hroom]|].
  cbv beta. intros _ n' (o' & q' & He & _). by exists o', q'.
Qed.

Lemma pairs_networks part : concat (map hna_pair part) = concat (map put_network (map announced_net part)).
Proof. rewrite map_map. done. Qed.

Lemma wp_queue_hna i o q n :
  ready i o q n -> hdrsize + 2 * ip_len <= full_room o -> hdrsize + 2 * ip_len * Z.of_nat (length (own_hna n)) < 65536 ->
  wp (queue_hna [] i) (fun r n' => r = false /\ exists parts o' q',
    emitted i (numbered (fun part s => put_hna (vt_hna (valtimes o)) (main_addr (core n)) MAX_TTL 0 s (map announced_net part)) (message_seqno n) parts) o q n o' q' n' /\
    concat parts = own_hna n /\ Forall (fun part => part <> [] /\ hdrsize + 2 * ip_len * Z.of_nat (length part) <= full_room o) parts) n.
Proof.
  intros Hr Hroom Hlen. unfold queue_hna. wp_step. wp_step.
  assert ((match ip_version with AF_INET6 => serialize_hna6 [] (own_hna n) i false | AF_INET => serialize_hna4 [] (own_hna n) i false end) =
    serialize_hna [] (own_hna n) i false) as -> by (unfold serialize_hna4, serialize_hna6; by destruct ip_version).
  assert (0 < ip_len) as Hip by (unfold ip_len, ipsize; destruct ip_version; lia).
  assert (0 <= hdrsize) as Hh by (unfold hdrsize; destruct ip_version; lia).
  unfold serialize_hna. case_bool_decide as Hne.
  - apply wp_ret. split; [done|]. exists [], o, q. split; [by apply emitted_refl|]. split; [by rewrite Hne|by constructor].
  - set (need := u16 _). set (vt := vt_hna (valtimes o)). set (main := main_addr (core n)).
    assert (hdrsize <= need) as Hneed by (unfold need; rewrite u16_small; unfold is_u16; lia).
    set (mk := fun body s => message_bytes HNA_MESSAGE vt main MAX_TTL 0 body (hdrsize + Z.of_nat (length body)) s).
    wp_step. eapply wp_mono; [apply (wp_make_room i need hdrsize o q n Hr); lia|]. cbv beta. intros r n1 (o1 & q1 & He1 & Er & Hle).
    pose proof (building_init i hdrsize mk o q n r n1 o1 q1 He1 Er Hle) as Hb. wp_step. unfold appendHNAEntry.
    eapply wp_mono; [apply (wp_fold_list i hdrsize (2 * ip_len) mk (push_hna i false) o q n (push_hna_spec i o n) hna_pair (own_hna n) _ n1 Hb Hh Hne)|].
    { apply Forall_true. intros k. rewrite length_pair. split; [|lia]. intros E. pose proof (length_pair k) as Hl. rewrite E in Hl. simpl in Hl. lia. }
    cbv beta. intros b n2 (parts & cur & Hb2 & E2 & Hcne & Hgt).
    wp_step. eapply wp_mono; [apply (wp_push_list i hdrsize mk (push_hna i false) o q n (push_hna_spec i o n) _ parts cur b n2 Hb2 Hcne)|].
    cbv beta. intros _ n3 (o3 & q3 & He3 & Hp3). wp_step. split; [done|]. exists (parts ++ [cur]), o3, q3. split; [|split].
    + erewrite numbered_ext; [exact He3|]. intros p s. unfold mk, put_hna, message_bytes. rewrite length_pairs, <- pairs_networks, length_map.
      rewrite !app_assoc. do 3 f_equal. unfold hdrsize, ip_len, ipsize. destruct ip_version; f_equal; lia.
    + rewrite concat_app. simpl. by rewrite app_nil_r.
    + eapply Forall_impl; [exact Hp3|]. intros p [H1 H2]. by rewrite length_pairs in H2.
Qed.

(** ** TC *)

Definition tc_part_header (message : tc_message) (vt : Z) (part : list ip_addr) (s : Z) : tc_header :=
  {| th_vtime := me_to_reltime vt; th_size := hdrsize + 4 + ip_len * Z.of_nat (length part); th_originator := tm_originator message;
     th_hops := tm_hop_count message; th_seq := s; th_ansn := tm_ansn message; th_lower := 0; th_upper := 0 |}.
Definition plain_edge (a : ip_addr) : ip_addr * list Z := (a, []).
Definition tc_msg (message : tc_message) (vt : Z) (part : list ip_addr) (s : Z) : list Z :=
  put_tc TC_MESSAGE vt (tc_part_header message vt part s) (tm_ttl message) (map plain_edge part).

Lemma edges_ips part : put_edges (map plain_edge part) = concat (map (ip_bytes (ipsize ip_version)) part).
Proof. unfold put_edges. rewrite map_map. f_equal. apply map_ext. intros a. apply app_nil_r. Qed.

(** The receiver sees the message as it was written. *)
Lemma tc_msg_sound message vt part s :
  is_ip (ipsize ip_version) (tm_originator message) -> is_u16 s -> is_u16 (tm_ansn message) -> hdrsize + 4 + ip_len * Z.of_nat (length part) < 65536 ->
  tc_sound vt (tc_part_header message vt part s) (map plain_edge part).
Proof.
  intros Ho Hs Ha Hsz. split; try done.
  - simpl. rewrite edges_ips, length_ips. unfold hdrsize, ip_len, ipsize. destruct ip_version; lia.
  - unfold is_u16. simpl. unfold hdrsize, ip_len in *. destruct ip_version; lia.
Qed.

Lemma push_tc_spec message i o0 n0 body o q n :
  ready i o q n -> same_limits o0 o -> out_strip n = out_strip n0 ->
  Z.of_nat (length q) + (hdrsize + 4 + Z.of_nat (length body)) <= maxsize (netbuf o) ->
  wp (push_tc message i body (hdrsize + 4 + Z.of_nat (length body))) (fun _ n' => exists o' q',
    emitted i [message_bytes TC_MESSAGE (vt_tc (valtimes o0)) (tm_originator message) (tm_ttl message) (tm_hop_count message)
      (pkt_put_u16 [] (tm_ansn message) ++ [0; 0] ++ body) (hdrsize + 4 + Z.of_nat (length body)) (message_seqno n)] o q n o' q' n') n.
Proof.
  intros Hr Hl Hs Hroom. destruct (limits_times _ _ Hl) as (Hv & _). unfold push_tc. wp_step. eapply wp_get_out; [apply Hr|]. rewrite Hv.
  eapply wp_mono; [apply (wp_push_message i _ _ o q n Hr); [intros s; rewrite length_message, length_app; simpl; lia|exact Hroom]|].
  cbv beta. intros _ n' (o' & q' & He & _). by exists o', q'.
Qed.

Lemma wp_queue_tc message i o q n :
  ready i o q n -> hdrsize + 4 + ip_len <= full_room o ->
  wp (queue_tc [] message i) (fun r n' => exists parts o' q',
    r = negb (bool_decide (parts = [])) /\
    emitted i (numbered (tc_msg message (vt_tc (valtimes o))) (message_seqno n) parts) o q n o' q' n' /\
    concat parts = tm_neigh message /\ Forall (fun part => hdrsize + 4 + ip_len * Z.of_nat (length part) <= full_room o) parts /\
    (tm_neigh message = [] -> parts = if olsr_isTimedOut (now_times (core n)) (send_empty_tc n) then [] else [[]])) n.
Proof.
  intros Hr Hroom.
  assert (queue_tc [] message i = serialize_tc [] message i) as -> by (unfold queue_tc, serialize_tc4, serialize_tc6; by destruct ip_version).
  assert (0 < ip_len) as Hip by (unfold ip_len, ipsize; destruct ip_version; lia).
  assert (0 <= hdrsize) as Hh by (unfold hdrsize; destruct ip_version; lia).
  set (hdr := hdrsize + 4). assert (0 <= hdr) as Hh4 by (unfold hdr; lia). unfold serialize_tc. fold hdr. set (vt := vt_tc (valtimes o)).
  set (mk := fun body s => message_bytes TC_MESSAGE vt (tm_originator message) (tm_ttl message) (tm_hop_count message)
    (pkt_put_u16 [] (tm_ansn message) ++ [0; 0] ++ body) (hdr + Z.of_nat (length body)) s).
  assert (forall p s, tc_msg message vt p s = mk (concat (map (ip_bytes (ipsize ip_version)) p)) s) as Hmk.
  { intros p s. unfold tc_msg, put_tc, mk, message_bytes, tc_part_header. cbn [th_size th_originator th_hops th_seq th_ansn th_lower th_upper].
    rewrite edges_ips, length_ips. done. }
  wp_step. eapply wp_mono; [apply (wp_make_room i hdr hdr o q n Hr); lia|]. cbv beta. intros r n1 (o1 & q1 & He1 & Er & Hle).
  pose proof (building_init i hdr mk o q n r n1 o1 q1 He1 Er Hle) as Hb. pose proof (push_tc_spec message i o n) as Hps. wp_step.
  destruct (bool_decide (tm_neigh message = [])) eqn:Ene; [apply bool_decide_eq_true in Ene|apply bool_decide_eq_false in Ene]; cbn [negb].
  - rewrite Ene. cbn [foldM]. wp_step. wp_step. wp_step. wp_step. wp_step. cbn [eb_sent no_entries negb andb].
    destruct (strip_core _ _ (em_rest _ _ _ _ _ _ _ _ He1)) as (-> & _ & ->).
    destruct (olsr_isTimedOut (now_times (core n)) (send_empty_tc n)); cbn [negb].
    + apply wp_ret. exists [], o1, q1. split; [done|]. split; [exact He1|]. split; [done|]. split; [by constructor|done].
    + wp_step. cbn [eb_body eb_curr_size]. pose proof (Hps [] o1 q1 n1 (em_ready _ _ _ _ _ _ _ _ He1) (em_limits _ _ _ _ _ _ _ _ He1) (em_rest _ _ _ _ _ _ _ _ He1)) as Hp.
      rewrite Z.add_0_r in Hp. eapply wp_mono; [apply Hp; unfold room in Er; lia|]. cbv beta. intros _ n2 (o2 & q2 & He2). wp_step.
      exists [[]], o2, q2. split; [done|]. split.
      { pose proof (emitted_trans _ _ _ _ _ _ _ _ _ _ _ _ He1 He2) as Ht. refine (eq_ind _ (fun l => emitted i l o q n o2 q2 n2) Ht _ _). cbn [app].
        unfold numbered. cbn [imap]. rewrite Hmk, (em_seqno _ _ _ _ _ _ _ _ He1). unfold mk. cbn [map concat length].
        assert (hdr + Z.of_nat 0 = hdrsize + 4) as -> by (unfold hdr; lia). done. }
      split; [done|]. split; [|done]. apply Forall_singleton. simpl. unfold hdr in *. pose proof (room_full o1 q1). rewrite (full_room_limits _ _ (em_limits _ _ _ _ _ _ _ _ He1)) in H. lia.
  - eapply wp_mono; [apply (wp_fold_list i hdr ip_len mk (push_tc message i) o q n Hps (ip_bytes (ipsize ip_version)) (tm_neigh message) _ n1 Hb Hh4 Ene)|].
    { apply Forall_true. intros k. rewrite length_ip_bytes. fold ip_len. split; [apply ip_bytes_nonempty|]. unfold hdr. lia. }
    cbv beta. intros b n2 (parts & cur & Hb2 & E2 & Hcne & Hgt).
    wp_step. eapply wp_mono; [apply (wp_push_list i hdr mk (push_tc message i) o q n Hps _ parts cur b n2 Hb2 Hcne)|].
    cbv beta. intros _ n3 (o3 & q3 & He3 & Hp3). wp_step. exists (parts ++ [cur]), o3, q3. split; [|split; [|split; [|split]]].
    + rewrite bool_decide_eq_false_2; [done|]. by destruct parts.
    + erewrite numbered_ext; [exact He3|]. apply Hmk.
    + rewrite concat_app. simpl. by rewrite app_nil_r.
    + eapply Forall_impl; [exact Hp3|]. intros p [H1 H2]. by rewrite length_ips in H2.
    + done.
Qed.

End build_spec.
