(* ===== verification/HelloBuild.v ===== *)
(** * HELLO messages on the way out *)

From S2P Require Import Prelude Timer Mantissa Avl IpAddr KeyTree DupSet State Interfaces Packet MidSet Lq Hello HelloRead NeighSpec LinkSpec Node NetOlsr Hna HnaSpec TcInput TcInputSpec.
From S2P Require Import NetSpec BuildMsg BuildProofs BuildSpec.

Section hello_build.
Context {cnf : olsrd_config} {ncf : node_config} {lqh : lq_handler}.

(** A group: a link code and the addresses. *)
Definition plain_group (g : Z * list ip_addr) : Z * list (ip_addr * list Z) := (fst g, map plain_edge (snd g)).

(** The neighbours of a list of groups, with their codes. *)
Definition flat (groups : list (Z * list ip_addr)) : list (Z * ip_addr) := concat (map (fun g => map (pair (fst g)) (snd g)) groups).

Lemma flat_app g1 g2 : flat (g1 ++ g2) = flat g1 ++ flat g2.
Proof. unfold flat. by rewrite map_app, concat_app. Qed.

Lemma flat_one c l : flat [(c, l)] = map (pair c) l.
Proof. unfold flat. simpl. by rewrite app_nil_r. Qed.

Lemma close_put g : close_group (Some g) = put_hello_group HELLO_MESSAGE (plain_group g).
Proof.
  destruct g as [c l]. unfold close_group, put_hello_group, plain_group, put_hello_body. cbn [fst snd].
  assert (concat (map (put_hello_neighbor HELLO_MESSAGE) (map plain_edge l)) = concat (map (ip_bytes (ipsize ip_version)) l)) as E.
  { rewrite map_map. f_equal. apply map_ext. intros a. unfold put_hello_neighbor, plain_edge, pkt_put_ipaddress. cbn [fst snd]. by rewrite app_nil_r. }
  rewrite E, length_ips. done.
Qed.

Definition groups_bytes (groups : list (Z * list ip_addr)) : list Z := concat (map (fun g => close_group (Some g)) groups).

Lemma groups_bytes_app g1 g2 : groups_bytes (g1 ++ g2) = groups_bytes g1 ++ groups_bytes g2.
Proof. unfold groups_bytes. by rewrite map_app, concat_app. Qed.

Lemma length_close c l : Z.of_nat (length (close_group (Some (c, l)))) = 4 + ip_len * Z.of_nat (length l).
Proof. unfold close_group. rewrite !length_app, !Nat2Z.inj_add, length_ips. simpl. lia. Qed.

Section groups.
Context (i : nat) (message : own_hello) (o0 : out_interface) (q0 : list Z) (n0 : node).
Let hdr : Z := hdrsize + 4.

Definition hello_part_msg (groups : list (Z * list ip_addr)) (s : Z) : list Z :=
  put_hello HELLO_MESSAGE (vt_hello (valtimes o0)) (hdr + Z.of_nat (length (groups_bytes groups))) (main_addr (core n0)) (oh_ttl message) 0 s
    (reltime_to_me (hello_etime o0)) (oh_willingness message) (map plain_group groups).

Lemma hello_part_bytes groups s :
  hello_part_msg groups s = hello_msg message o0 (main_addr (core n0)) (groups_bytes groups) (hdr + Z.of_nat (length (groups_bytes groups))) s.
Proof.
  unfold hello_part_msg, put_hello, hello_msg, message_bytes. rewrite map_map, <- (map_ext _ _ close_put). fold (groups_bytes groups).
  unfold pkt_put_ipaddress. rewrite app_nil_l. done.
Qed.

Lemma push_hello_spec groups o q n :
  ready i o q n -> same_limits o0 o -> out_strip n = out_strip n0 ->
  Z.of_nat (length q) + (hdr + Z.of_nat (length (groups_bytes groups))) <= maxsize (netbuf o) ->
  wp (push_hello message i (groups_bytes groups) (hdr + Z.of_nat (length (groups_bytes groups)))) (fun _ n' => exists o' q',
    emitted i [hello_part_msg groups (message_seqno n)] o q n o' q' n') n.
Proof.
  intros Hr Hl Hs Hroom. destruct (strip_core _ _ Hs) as (Hc & _). destruct (limits_times _ _ Hl) as (Hv & He & _).
  unfold push_hello. wp_step. eapply wp_get_out; [apply Hr|]. wp_step. wp_step. rewrite Hc.
  eapply wp_mono; [apply (wp_push_message i _ _ o q n Hr); [|exact Hroom]|].
  - intros s. unfold hello_msg. rewrite length_message, length_app. simpl. unfold hdr. lia.
  - cbv beta. intros _ n' (o' & q' & H & _). exists o', q'. rewrite hello_part_bytes. unfold hello_msg in *. by rewrite Hv, He in H.
Qed.

Definition open_list (g : option (Z * list ip_addr)) : list (Z * list ip_addr) := match g with Some g => [g] | None => [] end.

(** [parts] were sent, the closed groups [cur] and the open one are in the message under construction. *)
Record hello_building (parts : list (list (Z * list ip_addr))) (cur : list (Z * list ip_addr)) (b : hello_build) (n : node) : Prop := {
  hu_emitted : exists o q, emitted i (numbered hello_part_msg (message_seqno n0) parts) o0 q0 n0 o q n /\ hb_remainsize b = room o q;
  hu_closed : hb_closed b = groups_bytes cur;
  hu_size : hb_curr_size b = hdr + Z.of_nat (length (groups_bytes (cur ++ open_list (hb_open b))));
  hu_fits : hb_curr_size b <= hb_remainsize b;
  hu_parts : Forall (fun part => hdr + Z.of_nat (length (groups_bytes part)) <= full_room o0) parts;
}.

Lemma close_open g : groups_bytes (open_list g) = close_group g.
Proof. destruct g as [g|]; [|done]. unfold groups_bytes. cbn [open_list map concat]. by rewrite app_nil_r. Qed.

(** Writing the address into the message. *)
Lemma hello_write parts cur b n code a (copied : Z) :
  hello_building parts cur b n -> 0 <= copied <= 200 ->
  hb_curr_size b + ip_len + (match hb_open b with None => 4 | Some _ => 0 end) <= hb_remainsize b ->
  let '(curr_size, (c, addrs)) := match hb_open b with None => (u16 (hb_curr_size b + 4), (code, [])) | Some g => (hb_curr_size b, g) end in
  wp (do* in_msg_buffer curr_size copied in
      ret {| hb_curr_size := u16 (curr_size + ip_len); hb_remainsize := hb_remainsize b; hb_closed := hb_closed b; hb_open := Some (c, addrs ++ [a]) |})
    (fun b' n' => n' = n /\ hello_building parts cur b' n /\ hb_open b' = Some (c, addrs ++ [a])) n.
Proof.
  intros [H1 H2 H3 H4 H5] Hcp Hfit. destruct H1 as (o & q & He & Er). pose proof (room_full o q) as Hrf.
  rewrite (full_room_limits _ _ (em_limits _ _ _ _ _ _ _ _ He)) in Hrf.
  assert (full_room o0 <= MAX_REMAINING) as Hfr by (unfold full_room, room; lia). unfold MAX_REMAINING in Hfr.
  assert (0 < ip_len) as Hip by (unfold ip_len, ipsize; destruct ip_version; lia).
  assert (0 <= hdr) as Hh by (unfold hdr, hdrsize; destruct ip_version; lia).
  assert (forall curr c l, 0 <= curr -> curr + ip_len <= hb_remainsize b -> curr + ip_len = hdr + Z.of_nat (length (groups_bytes (cur ++ [(c, l ++ [a])]))) ->
    wp (do* in_msg_buffer curr copied in
      ret {| hb_curr_size := u16 (curr + ip_len); hb_remainsize := hb_remainsize b; hb_closed := hb_closed b; hb_open := Some (c, l ++ [a]) |})
    (fun b' n' => n' = n /\ hello_building parts cur b' n /\ hb_open b' = Some (c, l ++ [a])) n) as Hw.
  { intros curr c l Hc Hle Hsz. unfold in_msg_buffer, MSG_BUFFER_SIZE. assert (curr + copied >? 1500 = false) as -> by (rewrite Z.gtb_ltb; apply Z.ltb_ge; lia).
    apply wp_bind, wp_ret, wp_ret. split; [done|]. split; [|done]. assert (u16 (curr + ip_len) = curr + ip_len) as Eu by (apply u16_small; unfold is_u16; lia).
    split; cbn [hb_remainsize hb_closed hb_curr_size hb_open open_list]; rewrite ?Eu; try done. by exists o, q. }
  rewrite !groups_bytes_app, !length_app, !Nat2Z.inj_add, close_open in *. destruct (hb_open b) as [[c addrs]|] eqn:Eo.
  - apply Hw; [lia|lia|]. rewrite groups_bytes_app, length_app, Nat2Z.inj_add. change [(c, addrs ++ [a])] with (open_list (Some (c, addrs ++ [a]))).
    rewrite close_open, length_close, length_app. rewrite length_close in H3. simpl. lia.
  - simpl in H3. assert (u16 (hb_curr_size b + 4) = hb_curr_size b + 4) as -> by (apply u16_small; unfold is_u16; lia).
    apply Hw; [lia|lia|]. rewrite groups_bytes_app, length_app, Nat2Z.inj_add. change [(code, [] ++ [a])] with (open_list (Some (code, [a]))).
    rewrite close_open, length_close. simpl. lia.
Qed.

Definition so_far (parts : list (list (Z * list ip_addr))) (cur : list (Z * list ip_addr)) (b : hello_build) : list (Z * ip_addr) :=
  flat (concat parts ++ cur ++ open_list (hb_open b)).

Lemma wp_hello_add parts cur b n copied code a :
  hello_building parts cur b n -> 0 <= copied <= 200 -> (forall g, hb_open b = Some g -> fst g = code) -> hdr + 4 + ip_len <= full_room o0 ->
  wp (hello_add [] message i copied code b a) (fun b' n' => exists parts' cur', hello_building parts' cur' b' n' /\
    (forall g, hb_open b' = Some g -> fst g = code) /\ so_far parts' cur' b' = so_far parts cur b ++ [(code, a)]) n.
Proof.
  intros Hb Hcp Hcode Hroom.
  assert (0 <= hdr) as Hh by (unfold hdr, hdrsize; destruct ip_version; lia).
  assert (0 < ip_len) as Hip by (unfold ip_len, ipsize; destruct ip_version; lia).
  assert (forall parts' cur' b1 n1, hello_building parts' cur' b1 n1 -> (forall g, hb_open b1 = Some g -> fst g = code) ->
    hb_curr_size b1 + ip_len + (match hb_open b1 with None => 4 | Some _ => 0 end) <= hb_remainsize b1 -> so_far parts' cur' b1 = so_far parts cur b ->
    wp (let '(curr_size, (c, addrs)) := match hb_open b1 with None => (u16 (hb_curr_size b1 + 4), (code, [])) | Some g => (hb_curr_size b1, g) end in
        do* in_msg_buffer curr_size copied in
        ret {| hb_curr_size := u16 (curr_size + ip_len); hb_remainsize := hb_remainsize b1; hb_closed := hb_closed b1; hb_open := Some (c, addrs ++ [a]) |})
      (fun b' n' => exists parts' cur', hello_building parts' cur' b' n' /\
        (forall g, hb_open b' = Some g -> fst g = code) /\ so_far parts' cur' b' = so_far parts cur b ++ [(code, a)]) n1) as Hend.
  { intros parts' cur' b1 n1 H1 H2 H3 H4. pose proof (hello_write parts' cur' b1 n1 code a copied H1 Hcp H3) as Hw. rewrite <- H4.
    destruct (hb_open b1) as [[c l]|] eqn:Eo.
    - specialize (H2 _ eq_refl). simpl in H2. subst c. eapply wp_mono; [exact Hw|]. cbv beta. intros b' n' (-> & Hb' & Eo'). exists parts', cur'.
      split; [done|]. rewrite Eo'. split; [by intros g [= <-]|]. unfold so_far. rewrite Eo', Eo. cbn [open_list]. rewrite !flat_app, !flat_one, map_app, <- !app_assoc. done.
    - eapply wp_mono; [exact Hw|]. cbv beta. intros b' n' (-> & Hb' & Eo'). exists parts', cur'. split; [done|]. rewrite Eo'. split; [by intros g [= <-]|].
      unfold so_far. rewrite Eo', Eo. cbn [open_list]. rewrite app_nil_r, !flat_app, flat_one, <- !app_assoc. done. }
  unfold hello_add. fold hdr. wp_step.
  destruct (hb_curr_size b + ip_len + _ >? hb_remainsize b) eqn:E.
  - assert (forall parts' cur' o q b1 n1, emitted i (numbered hello_part_msg (message_seqno n0) parts') o0 q0 n0 o q n1 ->
      hb_closed b1 = groups_bytes cur' -> hb_curr_size b1 = hdr + Z.of_nat (length (groups_bytes (cur' ++ open_list (hb_open b1)))) ->
      Forall (fun part => hdr + Z.of_nat (length (groups_bytes part)) <= full_room o0) parts' ->
      (forall g, hb_open b1 = Some g -> fst g = code) -> hb_curr_size b1 = hdr -> so_far parts' cur' b1 = so_far parts cur b ->
      wp (let* _ := net_output [] i in let* remainsize := room_left i in do* check_buffspace (hb_curr_size b1 + ip_len + 4) remainsize in
          ret {| hb_curr_size := hb_curr_size b1; hb_remainsize := remainsize; hb_closed := hb_closed b1; hb_open := hb_open b1 |})
        (fun b1 => wp (let '(curr_size, (c, addrs)) := match hb_open b1 with None => (u16 (hb_curr_size b1 + 4), (code, [])) | Some g => (hb_curr_size b1, g) end in
          do* in_msg_buffer curr_size copied in
          ret {| hb_curr_size := u16 (curr_size + ip_len); hb_remainsize := hb_remainsize b1; hb_closed := hb_closed b1; hb_open := Some (c, addrs ++ [a]) |})
        (fun b' n' => exists parts' cur', hello_building parts' cur' b' n' /\
          (forall g, hb_open b' = Some g -> fst g = code) /\ so_far parts' cur' b' = so_far parts cur b ++ [(code, a)])) n1) as Hflush.
    { intros parts' cur' o q b1 n1 He H2 H3 H5 Hc Hsz Hso. wp_step. eapply wp_mono; [apply wp_output, He|]. cbv beta. intros _ n2 (o2 & He2).
      pose proof (emitted_trans _ _ _ _ _ _ _ _ _ _ _ _ He He2) as Ht. rewrite app_nil_r in Ht.
      wp_step. eapply wp_room_left; [apply He2|]. fold (full_room o2). rewrite (full_room_limits _ _ (em_limits _ _ _ _ _ _ _ _ Ht)).
      unfold check_buffspace. assert (hb_curr_size b1 + ip_len + 4 >? full_room o0 = false) as -> by (rewrite Z.gtb_ltb; apply Z.ltb_ge; lia).
      apply wp_bind, wp_ret, wp_ret.
      apply (Hend parts' cur' {| hb_curr_size := hb_curr_size b1; hb_remainsize := full_room o0; hb_closed := hb_closed b1; hb_open := hb_open b1 |} n2);
        cbn [hb_curr_size hb_remainsize hb_closed hb_open]; [|done| |exact Hso].
      - split; cbn [hb_curr_size hb_remainsize hb_closed hb_open]; try done; [|lia]. exists o2, []. split; [done|].
        fold (full_room o2). by rewrite (full_room_limits _ _ (em_limits _ _ _ _ _ _ _ _ Ht)).
      - destruct (hb_open b1); lia. }
    destruct Hb as [(o & q & He & Er) B2 B3 B4 B5]. wp_step. destruct (hb_curr_size b >? hdr) eqn:E2.
    + pose proof (room_full o q) as Hrf. rewrite (full_room_limits _ _ (em_limits _ _ _ _ _ _ _ _ He)) in Hrf.
      assert (full_room o0 <= MAX_REMAINING) as Hfr by (unfold full_room, room; lia). unfold MAX_REMAINING in Hfr.
      unfold in_msg_buffer at 1. unfold MSG_BUFFER_SIZE. match goal with |- context [?x >? 1500] => assert (x >? 1500 = false) as -> by (rewrite Z.gtb_ltb; apply Z.ltb_ge; destruct (hb_open b); lia) end.
      wp_step. apply wp_ret. wp_step.
      assert (hb_closed b ++ close_group (hb_open b) = groups_bytes (cur ++ open_list (hb_open b))) as -> by (by rewrite groups_bytes_app, close_open, B2).
      rewrite B3. eapply wp_mono; [apply (push_hello_spec (cur ++ open_list (hb_open b)) o q); [apply He|apply He|apply He|]|].
      { unfold room in Er. lia. }
      cbv beta. intros _ n1 (o1 & q1 & He1). apply wp_ret.
      pose proof (emitted_trans _ _ _ _ _ _ _ _ _ _ _ _ He He1) as Ht. rewrite (em_seqno _ _ _ _ _ _ _ _ He), length_numbered in Ht.
      rewrite <- numbered_snoc in Ht.
      apply (Hflush (parts ++ [cur ++ open_list (hb_open b)]) [] o1 q1 {| hb_curr_size := hdr; hb_remainsize := hb_remainsize b; hb_closed := []; hb_open := None |} n1);
        cbn [hb_curr_size hb_closed hb_open open_list]; try done.
      * simpl. lia.
      * apply Forall_app. split; [done|]. apply Forall_singleton. lia.
      * unfold so_far. cbn [hb_open open_list]. rewrite concat_app, !app_nil_r. simpl. by rewrite ?app_nil_r.
    + rewrite Z.gtb_ltb in E2. apply Z.ltb_ge in E2. apply wp_ret. apply (Hflush parts cur o q b n); try done. lia.
  - rewrite Z.gtb_ltb in E. apply Z.ltb_ge in E. apply wp_ret. by apply (Hend parts cur b n).
Qed.

(** The neighbours of one group, in the order of the list. *)
Definition group_members (hide : bool) (ij : Z * Z) : list (Z * ip_addr) :=
  if hide && (snd ij =? HIDE_LINK) then []
  else map (fun nb => (CREATE_LINK_CODE (fst ij) (snd ij), on_address nb))
         (filter (fun nb => on_status nb = fst ij /\ on_link nb = snd ij) (oh_neighbors message)).

Lemma wp_hello_group parts cur b n copied hide ij :
  hello_building parts cur b n -> hb_open b = None -> 0 <= copied <= 200 -> hdr + 4 + ip_len <= full_room o0 ->
  wp (hello_group [] message i hide copied b ij) (fun b' n' => exists parts' cur', hello_building parts' cur' b' n' /\
    hb_open b' = None /\ so_far parts' cur' b' = so_far parts cur b ++ group_members hide ij) n.
Proof.
  intros Hb Ho Hcp Hroom. destruct ij as [gi gj]. unfold hello_group, group_members. cbn [fst snd].
  destruct (hide && (gj =? HIDE_LINK)). { apply wp_ret. exists parts, cur. by rewrite app_nil_r. }
  set (ns := filter _ _). set (code := CREATE_LINK_CODE gi gj). wp_step.
  apply (wp_foldM _ _ _ (fun rest b' n' => exists parts' cur', hello_building parts' cur' b' n' /\ (forall g, hb_open b' = Some g -> fst g = code) /\
    so_far parts' cur' b' ++ map (fun nb => (code, on_address nb)) rest = so_far parts cur b ++ map (fun nb => (code, on_address nb)) ns)).
  - exists parts, cur. split; [done|]. split; [|done]. intros g. by rewrite Ho.
  - intros nb rest b' n' (p' & c' & H1 & H2 & H3). eapply wp_mono; [by apply (wp_hello_add p' c')|]. cbv beta.
    intros b2 n2 (p2 & c2 & K1 & K2 & K3). exists p2, c2. split; [done|]. split; [done|]. rewrite K3, <- app_assoc. exact H3.
  - intros b' n' (p' & c' & [H1 H2 H3 H4 H5] & _ & Hso). rewrite app_nil_r in Hso. apply wp_ret. exists p', (c' ++ open_list (hb_open b')).
    split; [|split; [done|]].
    + split; cbn [hb_remainsize hb_closed hb_curr_size hb_open open_list]; try done; [|by rewrite app_nil_r].
      by rewrite groups_bytes_app, close_open, H2.
    + rewrite <- Hso. unfold so_far. cbn [hb_open open_list]. by rewrite app_nil_r.
Qed.

End groups.

(** What a HELLO message lists, in this order; the link type HIDE is left out for IPv4 only. *)
Definition hello_content (message : own_hello) : list (Z * ip_addr) :=
  concat (map (group_members message (match ip_version with AF_INET => true | AF_INET6 => false end)) hello_codes).

(** The codes are all pairs of a status and a link type, so the groups together are the whole list, without the links that are left out. *)
Definition hello_shown (message : own_hello) : list own_neighbor :=
  filter (fun nb => ip_version = AF_INET6 \/ on_link nb <> HIDE_LINK) (oh_neighbors message).

Lemma hello_codes_all i j : 0 <= i <= 2 -> 0 <= j <= 4 -> (i, j) ∈ hello_codes.
Proof.
  intros Hi Hj. assert (i = 0 \/ i = 1 \/ i = 2) as [->|[->| ->]] by lia; assert (j = 0 \/ j = 1 \/ j = 2 \/ j = 3 \/ j = 4) as [->|[->|[->|[->| ->]]]] by lia;
    vm_compute; repeat constructor.
Qed.

Lemma group_members_shown message ij :
  group_members message (match ip_version with AF_INET => true | AF_INET6 => false end) ij =
  map (fun nb => (CREATE_LINK_CODE (on_status nb) (on_link nb), on_address nb)) (filter (fun nb => on_status nb = fst ij /\ on_link nb = snd ij) (hello_shown message)).
Proof.
  unfold group_members, hello_shown. rewrite list_filter_filter. destruct (_ && _) eqn:E.
  - destruct ip_version eqn:Ev; [|done]. cbn [andb] in E. apply Z.eqb_eq in E. symmetry. erewrite (filter_ext_in _ (fun _ => False)).
    + clear. by induction (oh_neighbors message).
    + intros nb _. split; [|done]. intros [[_ H] [?|?]]; [done|congruence].
  - erewrite (filter_ext_in _ _ (oh_neighbors message)); [apply map_ext_in|].
    + intros nb Hnb. apply list_elem_of_In, list_elem_of_filter in Hnb as [[[-> ->] _] _]. done.
    + intros nb _. split; [|tauto]. intros [H1 H2]. split; [done|]. destruct ip_version; [right|by left]. cbn [andb] in E. apply Z.eqb_neq in E. congruence.
Qed.

Lemma hello_content_perm message : (forall nb, nb ∈ oh_neighbors message -> 0 <= on_status nb <= 2 /\ 0 <= on_link nb <= 4) ->
  hello_content message ≡ₚ map (fun nb => (CREATE_LINK_CODE (on_status nb) (on_link nb), on_address nb)) (hello_shown message).
Proof.
  intros Hr. unfold hello_content. rewrite (map_ext _ _ (group_members_shown message)).
  set (F := fun nb => (CREATE_LINK_CODE _ _, _)). rewrite <- (map_map _ (map F)), <- concat_map. apply Permutation_map.
  apply (groups_perm (fun nb => (on_status nb, on_link nb))).
  - intros [i j] nb. cbn [fst snd]. split; [by intros [-> ->]|by intros [= -> ->]].
  - apply (bool_decide_unpack _). vm_compute. done.
  - intros nb [_ Hnb]%list_elem_of_filter. destruct (Hr nb Hnb). by apply hello_codes_all.
Qed.

(** The code for IPv6 needs room for a group with one address before it starts. *)
Definition hello_checked : Z := match ip_version with AF_INET => hdrsize + 4 | AF_INET6 => hdrsize + 8 + ip_len end.

Lemma queue_hello_eq message i : queue_hello [] message i =
  serialize_hello [] message i (match ip_version with AF_INET => true | AF_INET6 => false end) IP_ADDR_SIZE hello_checked.
Proof. unfold queue_hello, serialize_hello4, serialize_hello6, hello_checked, hdrsize, ip_len. by destruct ip_version. Qed.

Lemma wp_queue_hello message i o q n :
  ready i o q n -> hdrsize + 8 + ip_len <= full_room o -> (hdrsize + 4 <= room o q -> hello_checked <= room o q) ->
  wp (queue_hello [] message i) (fun r n' => r = true /\ exists parts o' q',
    emitted i (numbered (hello_part_msg message o n) (message_seqno n) parts) o q n o' q' n' /\ parts <> [] /\
    flat (concat parts) = hello_content message /\
    Forall (fun part => hdrsize + 4 + Z.of_nat (length (groups_bytes part)) <= full_room o) parts) n.
Proof.
  intros Hr Hroom Hchk. assert (0 < ip_len <= 16) as Hip by (unfold ip_len, ipsize; destruct ip_version; lia).
  assert (0 <= hdrsize) as Hh by (unfold hdrsize; destruct ip_version; lia). rewrite queue_hello_eq. unfold hello_content.
  set (hide := match ip_version with AF_INET => true | AF_INET6 => false end).
  assert (hdrsize + 4 <= hello_checked <= hdrsize + 8 + ip_len) as Hcb by (unfold hello_checked; destruct ip_version; lia).
  unfold serialize_hello. wp_step. eapply wp_mono; [apply (wp_make_room i (hdrsize + 4) hello_checked o q n Hr); [lia|exact Hchk]|].
  cbv beta. intros r n1 (o1 & q1 & He1 & Er & Hle). wp_step.
  apply (wp_foldM _ _ _ (fun rest b' n' => exists parts cur, hello_building i message o q n parts cur b' n' /\ hb_open b' = None /\
    so_far parts cur b' ++ concat (map (group_members message hide) rest) = concat (map (group_members message hide) hello_codes))).
  - exists [], []. split; [|done]. split; cbn [hb_remainsize hb_closed hb_curr_size hb_open open_list]; try done; [by exists o1, q1| |lia].
    unfold groups_bytes. simpl. lia.
  - intros ij rest b' n' (parts & cur & H1 & H2 & H3). eapply wp_mono; [apply (wp_hello_group i message o q n parts cur); [done|done|unfold IP_ADDR_SIZE; lia|lia]|].
    cbv beta. intros b2 n2 (p2 & c2 & K1 & K2 & K3). exists p2, c2. split; [done|]. split; [done|]. rewrite K3, <- app_assoc. exact H3.
  - intros b' n' (parts & cur & [(o2 & q2 & He2 & Er2) B2 B3 B4 B5] & Ho & Hso). rewrite app_nil_r in Hso. rewrite Ho in B3. cbn [open_list] in B3. rewrite app_nil_r in B3.
    wp_step. rewrite B2, B3. rewrite B3, Er2 in B4.
    eapply wp_mono; [apply (push_hello_spec i message o n cur o2 q2); [apply He2|apply He2|apply He2|unfold room in B4; lia]|].
    cbv beta. intros _ n3 (o3 & q3 & He3). wp_step. split; [done|].
    pose proof (emitted_trans _ _ _ _ _ _ _ _ _ _ _ _ He2 He3) as Ht. rewrite (em_seqno _ _ _ _ _ _ _ _ He2), length_numbered in Ht.
    rewrite <- numbered_snoc in Ht. exists (parts ++ [cur]), o3, q3. split; [done|]. split; [by destruct parts|]. split.
    + rewrite <- Hso. unfold so_far. rewrite Ho, concat_app. simpl. by rewrite !app_nil_r.
    + apply Forall_app. split; [done|]. apply Forall_singleton. pose proof (room_full o2 q2) as Hrf.
      rewrite (full_room_limits _ _ (em_limits _ _ _ _ _ _ _ _ He2)) in Hrf. lia.
Qed.

End hello_build.
