(* ===== verification/GenMsg.v ===== *)
(** * packet.c and generate_msg.c: the messages of this node *)

From S2P Require Import Prelude Timer Mantissa Avl IpAddr State MidLookup NeighTable Interfaces Packet LsdbOps Lq RouteTable LinkSet Mpr MprSel MidSet Hello Node NetOlsr Hna TcInput BuildMsg.

Section gen_msg.
Context {cnf : olsrd_config} {ncf : node_config}.
Variable ptf_list : list packet_transform_function.

(** ** HELLO *)

(** A status that is neither SYM nor NOT_SYM leaves the zeroed memory of the entry. *)
Definition own_status (n : neighbor_entry) : Z :=
  if is_mpr n then MPR_NEIGH else if status n =? SYM then SYM_NEIGH else NOT_NEIGH.

(** The links of the interface, the last one first. *)
Definition on_link_neighbors (outif : interface_olsr) : OM (list own_neighbor) :=
  let* links := OLSR_FOR_ALL_LINK_ENTRIES in
  foldM links [] (fun l p =>
    let* lnk := lookup_link_status (Some p) in
    let* x := get_link p in
    if negb (ipequal ip_version (local_iface_addr x) (if_ip_addr outif)) then ret l
    else
      let* n := get_nbr (link_neighbor x) in
      ret ({| on_status := own_status n; on_link := lnk; on_main_address := neighbor_main_addr n; on_address := neighbor_iface_addr x |} :: l)).

(** The neighbours without a link on the interface, in front of [l]. *)
Definition off_link_neighbors (l : list own_neighbor) : OM (list own_neighbor) :=
  let* ps := OLSR_FOR_ALL_NBR_ENTRIES in
  foldM ps l (fun l p =>
    let* n := get_nbr p in
    if existsb (fun t => ipequal ip_version (on_main_address t) (neighbor_main_addr n)) l then ret l
    else ret ({| on_status := own_status n; on_link := UNSPEC_LINK; on_main_address := neighbor_main_addr n; on_address := neighbor_main_addr n |} :: l)).

Definition olsr_build_hello_packet (outif : interface_olsr) (will : Z) : OM own_hello :=
  let* main := gets main_addr in
  let* l := on_link_neighbors outif in
  let* ifs := gets ifnet in
  let* l := (if (2 <=? length ifs)%nat then off_link_neighbors l else ret l) in
  ret {| oh_willingness := will; oh_ttl := 1; oh_source_addr := main; oh_neighbors := l |}.

(** ** TC *)

Definition tc_selected (n : neighbor_entry) : OM bool :=
  if negb (status n =? SYM) then ret false
  else if tc_redundancy =? 2 then ret true
  else
    let* mprs := olsr_lookup_mprs_set (neighbor_main_addr n) in
    let selector := match mprs with Some _ => true | None => false end in
    ret (if tc_redundancy =? 1 then is_mpr n || selector else selector).

Definition tc_addresses : OM (list ip_addr) :=
  let* ps := OLSR_FOR_ALL_NBR_ENTRIES in
  foldM ps [] (fun l p =>
    let* n := get_nbr p in
    let* sel := tc_selected n in
    ret (if sel then neighbor_main_addr n :: l else l)).

(** The conversion of a time in seconds; [None] if it does not fit. *)
Definition empty_tc_time : option Z :=
  u32_of_float (SFmul 24 128 (SFmul 24 128 max_tc_vtime (float_of_u32 3)) (float_of_u32 MSEC_PER_SEC)).

Definition start_empty_tc : NM unit :=
  let* t := gets_opt (fun _ => empty_tc_time) in
  let* now := gets (fun n => now_times (core n)) in
  set_empty_tc_timer (olsr_getTimestamp now t).

Definition olsr_build_tc_packet : NM tc_message :=
  let* ansn := lift get_local_ansn in
  let* main := gets (fun n => main_addr (core n)) in
  let* l := lift tc_addresses in
  do* (if negb (bool_decide (l = [])) then modify (set_sending_tc true)
       else
         let* sending := gets sending_tc in
         when sending (do* start_empty_tc in modify (set_sending_tc false))) in
  ret {| tm_originator := main; tm_hop_count := 0; tm_ttl := MAX_TTL; tm_ansn := ansn; tm_neigh := l |}.

(** ** The timers of an interface (olsr.c, generate_msg.c) *)

(** [None]: the time does not fit. *)
Definition buffer_delay (random : Z) : option Z :=
  u32_of_float (SFdiv 24 128 (SFmul 24 128 (SFmul 24 128 (float_of_u32 random) max_jitter) (float_of_u32 MSEC_PER_SEC)) (float_of_u32 OLSR_RANDOM_MAX)).

Definition set_buffer_timer (ifn : nat) : NM unit :=
  let* k := gets (fun n => random_count (core n)) in
  do* lift (modify (set_random_count (k + 1))) in
  let* t := gets_opt (fun _ => buffer_delay (olsr_random k)) in
  let* now := gets (fun n => now_times (core n)) in
  upd_out ifn (set_fwdtimer (olsr_getTimestamp now t)).

Definition start_buffer_timer (ifn : nat) : NM unit :=
  let* o := get_out ifn in
  let* now := gets (fun n => now_times (core n)) in
  when (olsr_isTimedOut now (fwdtimer o)) (set_buffer_timer ifn).

Definition generate_hello (ifn : nat) : NM unit :=
  let* o := get_out ifn in
  let* will := gets own_willingness in
  let* hellopacket := lift (olsr_build_hello_packet (out_if o) will) in
  let* queued := queue_hello ptf_list hellopacket ifn in
  when queued (let* _ := net_output ptf_list ifn in ret tt).

Definition generate_tc (ifn : nat) : NM unit :=
  let* tcpacket := olsr_build_tc_packet in
  let* queued := queue_tc ptf_list tcpacket ifn in
  when queued (start_buffer_timer ifn).

Definition generate_mid (ifn : nat) : NM unit :=
  let* queued := queue_mid ptf_list ifn in when queued (start_buffer_timer ifn).

Definition generate_hna (ifn : nat) : NM unit :=
  let* queued := queue_hna ptf_list ifn in when queued (start_buffer_timer ifn).

End gen_msg.
