(* ===== verification/GenSpec.v ===== *)
(** * What this node announces *)

From S2P Require Import Prelude Timer Mantissa Avl IpAddr KeyTree DupSet State MidLookup NeighTable NeighProofs Interfaces Packet LsdbOps Lq RouteTable TcSpec LinkSet LinkProofs.
From S2P Require Import Mpr MprSel MidSet Hello HelloRead NeighSpec LinkSpec MidSpec Node NetOlsr Hna HnaProofs HnaSpec TcInput TcInputSpec NetSpec BuildMsg BuildProofs BuildSpec HelloBuild GenMsg.

Section gen_spec.
Context {cnf : olsrd_config} {ncf : node_config} {lqh : lq_handler}.

(** ** What a HELLO message is built from *)

Definition link_listed (st : olsr_state) (outif : interface_olsr) (p : positive) : option own_neighbor :=
  l ← links st !! p;
  n ← nbrs st !! link_neighbor l;
  if ipequal ip_version (local_iface_addr l) (if_ip_addr outif)
  then Some {| on_status := own_status n; on_link := link_status st l; on_main_address := neighbor_main_addr n; on_address := neighbor_iface_addr l |}
  else None.

Definition nbr_listed (st : olsr_state) (listed : list ip_addr) (p : positive) : option own_neighbor :=
  n ← nbrs st !! p;
  if bool_decide (neighbor_main_addr n ∈ listed) then None
  else Some {| on_status := own_status n; on_link := UNSPEC_LINK; on_main_address := neighbor_main_addr n; on_address := neighbor_main_addr n |}.

Definition on_links (st : olsr_state) (outif : interface_olsr) : list own_neighbor := omap (link_listed st outif) (link_entry_head st).
Definition off_links (st : olsr_state) (outif : interface_olsr) : list own_neighbor :=
  omap (nbr_listed st (map on_main_address (on_links st outif))) (all_elems (neighbortable st)).

Lemma omap_same {A B} (f g : A -> option B) (l : list A) : (forall x, f x = g x) -> omap f l = omap g l.
Proof. intros H. induction l as [|x l IH]; [done|]. cbn. rewrite H. by destruct (g x); [f_equal|]. Qed.

Lemma omap_snoc {A B} (f : A -> option B) (l : list A) x : omap f (l ++ [x]) = omap f l ++ match f x with Some y => [y] | None => [] end.
Proof. rewrite omap_app. simpl. by destruct (f x). Qed.

Lemma wp_on_link_neighbors outif st : link_wf st ->
  wp (on_link_neighbors outif) (fun l st' => st' = st /\ l = rev (on_links st outif)) st.
Proof.
  intros Hwf. unfold on_link_neighbors, OLSR_FOR_ALL_LINK_ENTRIES. wp_step. wp_step. unfold on_links.
  apply (wp_foldM _ _ _ (fun rest l st' => st' = st /\ exists done_, link_entry_head st = done_ ++ rest /\ l = rev (omap (link_listed st outif) done_))).
  - split; [done|]. by exists [].
  - intros p rest l st' (-> & dn & E & ->). destruct (proj1 (lw_alloc _ Hwf p)) as [x Hx]; [rewrite E; set_solver|].
    destruct (lw_nbr _ Hwf _ _ Hx) as [n Hn]. unfold lookup_link_status. wp_step. wp_step. eapply wp_get_link; [exact Hx|]. wp_step. wp_step.
    eapply wp_get_link; [exact Hx|]. assert (link_entry_head st = (dn ++ [p]) ++ rest) as E' by by rewrite <- app_assoc.
    destruct (ipequal ip_version (local_iface_addr x) (if_ip_addr outif)) eqn:Ei; cbn [negb].
    + wp_step. eapply wp_get_nbr; [exact Hn|]. wp_step. split; [done|]. exists (dn ++ [p]). split; [done|].
      rewrite omap_snoc. assert (link_listed st outif p = Some {| on_status := own_status n; on_link := link_status st x; on_main_address := neighbor_main_addr n; on_address := neighbor_iface_addr x |}) as ->
        by (unfold link_listed; rewrite Hx; cbn [mbind option_bind]; rewrite Hn; cbn [mbind option_bind]; by rewrite Ei). by rewrite rev_app_distr.
    + wp_step. split; [done|]. exists (dn ++ [p]). split; [done|].
      rewrite omap_snoc. assert (link_listed st outif p = None) as ->
        by (unfold link_listed; rewrite Hx; cbn [mbind option_bind]; rewrite Hn; cbn [mbind option_bind]; by rewrite Ei). by rewrite app_nil_r.
  - intros l st' (-> & dn & E & ->). rewrite app_nil_r in E. by rewrite <- E.
Qed.

Lemma existsb_main l a : existsb (fun t => ipequal ip_version (on_main_address t) a) l = bool_decide (a ∈ map on_main_address l).
Proof.
  apply Bool.eq_iff_eq_true. rewrite existsb_exists, bool_decide_eq_true, list_elem_of_fmap. split.
  - intros (x & Hx & E%ipequal_eq). exists x. split; [done|by apply list_elem_of_In].
  - intros (x & -> & Hx). exists x. split; [by apply list_elem_of_In|apply ipequal_refl].
Qed.

Lemma wp_off_link_neighbors listed st : nbr_wf st ->
  wp (off_link_neighbors listed) (fun l st' => st' = st /\ l = rev (omap (nbr_listed st (map on_main_address listed)) (all_elems (neighbortable st))) ++ listed) st.
Proof.
  intros Hwf. unfold off_link_neighbors, OLSR_FOR_ALL_NBR_ENTRIES. wp_step. wp_step. pose proof (table_nodup _ _ _ (wf_nbrs _ _ Hwf)) as Hnd.
  apply (wp_foldM _ _ _ (fun rest l st' => st' = st /\ exists done_, all_elems (neighbortable st) = done_ ++ rest /\
    l = rev (omap (nbr_listed st (map on_main_address listed)) done_) ++ listed)).
  - split; [done|]. by exists [].
  - intros p rest l st' (-> & dn & E & ->). destruct (proj1 (table_alloc _ _ _ (wf_nbrs _ _ Hwf) p)) as [n Hn]; [rewrite E; set_solver|].
    wp_step. eapply wp_get_nbr; [exact Hn|]. assert (all_elems (neighbortable st) = (dn ++ [p]) ++ rest) as E' by by rewrite <- app_assoc.
    rewrite existsb_main, map_app.
    assert (neighbor_main_addr n ∈ map on_main_address (rev (omap (nbr_listed st (map on_main_address listed)) dn)) ++ map on_main_address listed <->
      neighbor_main_addr n ∈ map on_main_address listed) as Hin.
    { rewrite elem_of_app. split; [|by right]. intros [Hd|?]; [|done]. exfalso. apply list_elem_of_fmap in Hd as (x & Ex & Hx%list_elem_of_In%in_rev%list_elem_of_In).
      apply list_elem_of_omap in Hx as (q & Hq & Eq). unfold nbr_listed in Eq. destruct (nbrs st !! q) as [m|] eqn:Em; [|done]. cbn [mbind option_bind] in Eq.
      case_bool_decide; [done|]. injection Eq as <-. simpl in Ex. assert (p = q) as -> by (by eapply (wf_addr _ _ Hwf)).
      rewrite E in Hnd. apply NoDup_app in Hnd as (_ & Hd & _). apply (Hd q Hq). left. }
    rewrite (bool_decide_ext _ _ Hin). case_bool_decide as Hm.
    + wp_step. split; [done|]. exists (dn ++ [p]). split; [done|]. rewrite omap_snoc. assert (nbr_listed st (map on_main_address listed) p = None) as ->
        by (unfold nbr_listed; rewrite Hn; cbn [mbind option_bind]; by rewrite bool_decide_eq_true_2). by rewrite app_nil_r.
    + wp_step. split; [done|]. exists (dn ++ [p]). split; [done|]. rewrite omap_snoc.
      assert (nbr_listed st (map on_main_address listed) p = Some {| on_status := own_status n; on_link := UNSPEC_LINK; on_main_address := neighbor_main_addr n; on_address := neighbor_main_addr n |}) as ->
        by (unfold nbr_listed; rewrite Hn; cbn [mbind option_bind]; by rewrite bool_decide_eq_false_2). by rewrite rev_app_distr.
  - intros l st' (-> & dn & E & ->). rewrite app_nil_r in E. by rewrite <- E.
Qed.

Definition hello_of (st : olsr_state) (outif : interface_olsr) (will : Z) : own_hello :=
  {| oh_willingness := will; oh_ttl := 1; oh_source_addr := main_addr st;
     oh_neighbors := (if (2 <=? length (ifnet st))%nat then rev (off_links st outif) else []) ++ rev (on_links st outif) |}.

Lemma wp_build_hello outif will st : net_wf st -> wp (olsr_build_hello_packet outif will) (fun m st' => st' = st /\ m = hello_of st outif will) st.
Proof.
  intros [Hn Hl]. unfold olsr_build_hello_packet. wp_step. wp_step. wp_step. eapply wp_mono; [by apply wp_on_link_neighbors|]. cbv beta. intros l st' (-> & ->).
  wp_step. wp_step. wp_step. unfold hello_of. destruct (2 <=? length (ifnet st))%nat.
  - eapply wp_mono; [by apply wp_off_link_neighbors|]. cbv beta. intros l st' (-> & ->). wp_step. split; [done|]. unfold off_links.
    assert (forall st l, omap (nbr_listed st (map on_main_address (rev l))) (all_elems (neighbortable st)) = omap (nbr_listed st (map on_main_address l)) (all_elems (neighbortable st))) as E; [|by rewrite E].
    intros s l. apply omap_same. intros p. unfold nbr_listed. rewrite map_rev.
    destruct (nbrs s !! p) as [n|]; [|done]. cbn [mbind option_bind]. rewrite (bool_decide_ext _ (neighbor_main_addr n ∈ map on_main_address l)); [done|].
    rewrite !list_elem_of_In. symmetry. apply in_rev.
  - wp_step. by wp_step.
Qed.

(** ** What a HELLO message has to say *)

(** The state of a neighbour: a relay, or else symmetric or not. *)
Record neighbour_state (n : neighbor_entry) (s : Z) : Prop := {
  nst_relay : is_mpr n = true -> s = MPR_NEIGH;
  nst_sym : is_mpr n = false -> status n = SYM -> s = SYM_NEIGH;
  nst_not : is_mpr n = false -> status n <> SYM -> s = NOT_NEIGH;
}.

(** Hysteresis holds a link back while it is lost or pending. *)
Definition held_back (st : olsr_state) (l : link_entry) : Prop :=
  use_hysteresis = true /\ (olsr_isTimedOut (now_times st) (L_LOST_LINK_time l) = false \/ L_link_pending l = 1).

(** The state of a link: lost or hidden while it is held back, and otherwise what its timers tell. *)
Record link_state (st : olsr_state) (l : link_entry) (t : Z) : Prop := {
  lst_lost : use_hysteresis = true -> olsr_isTimedOut (now_times st) (L_LOST_LINK_time l) = false -> t = LOST_LINK;
  lst_hide : use_hysteresis = true -> olsr_isTimedOut (now_times st) (L_LOST_LINK_time l) = true -> L_link_pending l = 1 -> t = HIDE_LINK;
  lst_sym : ~ held_back st l -> is_Some (link_sym_timer l) -> t = SYM_LINK;
  lst_asym : ~ held_back st l -> link_sym_timer l = None -> olsr_isTimedOut (now_times st) (ASYM_time l) = false -> t = ASYM_LINK;
  lst_gone : ~ held_back st l -> link_sym_timer l = None -> olsr_isTimedOut (now_times st) (ASYM_time l) = true -> t = LOST_LINK;
}.

Lemma own_status_state n : neighbour_state n (own_status n).
Proof. unfold own_status. destruct (is_mpr n) eqn:E; [|destruct (Z.eqb_spec (status n) SYM)]; split; congruence. Qed.

Lemma own_status_range n : 0 <= own_status n <= 2.
Proof. unfold own_status, MPR_NEIGH, SYM_NEIGH, NOT_NEIGH. destruct (is_mpr n), (status n =? SYM); lia. Qed.

Lemma link_status_range st l : 0 <= link_status st l <= 4.
Proof.
  unfold link_status, UNSPEC_LINK, LOST_LINK, HIDE_LINK, SYM_LINK, ASYM_LINK. repeat case_match; lia.
Qed.

Lemma link_status_state st l p : p ∈ link_entry_head st -> link_state st l (link_status st l).
Proof.
  intros Hp. unfold link_status. destruct (link_entry_head st) as [|q qs]; [by apply not_elem_of_nil in Hp|]. clear Hp.
  destruct (olsr_isTimedOut (now_times st) (L_LOST_LINK_time l)) eqn:E1, (olsr_isTimedOut (now_times st) (ASYM_time l)) eqn:E2,
    use_hysteresis eqn:E3, (Z.eqb_spec (L_link_pending l) 1), (link_sym_timer l) eqn:E4; split; unfold held_back; cbn [negb]; intros; cbn; try congruence;
    try (match goal with H : is_Some (link_sym_timer _) |- _ => destruct H; congruence end);
    match goal with H : ~ (_ /\ _) |- _ => exfalso; apply H; auto end.
Qed.

Lemma link_status_shown st l : use_hysteresis = false -> link_status st l <> HIDE_LINK.
Proof.
  intros Hh. unfold link_status, UNSPEC_LINK, LOST_LINK, HIDE_LINK, SYM_LINK, ASYM_LINK. rewrite Hh. repeat case_match; lia.
Qed.

Lemma link_status_known st l p : p ∈ link_entry_head st -> link_status st l <> UNSPEC_LINK.
Proof.
  intros Hp. unfold link_status, UNSPEC_LINK, LOST_LINK, HIDE_LINK, SYM_LINK, ASYM_LINK.
  destruct (link_entry_head st); [by apply not_elem_of_nil in Hp|]. repeat case_match; lia.
Qed.

(** What is to be said of a link, and of a neighbour without one over the interface. *)
Record link_says (st : olsr_state) (p : positive) (nb : own_neighbor) : Prop := {
  ls_says : exists l n, links st !! p = Some l /\ nbrs st !! link_neighbor l = Some n /\
    neighbour_state n (on_status nb) /\ link_state st l (on_link nb) /\ on_address nb = neighbor_iface_addr l;
}.

Record nbr_says (st : olsr_state) (q : positive) (nb : own_neighbor) : Prop := {
  ns_says : exists n, nbrs st !! q = Some n /\ neighbour_state n (on_status nb) /\ on_link nb = UNSPEC_LINK /\ on_address nb = neighbor_main_addr n;
}.

(** The link [p] is one over the interface, to the neighbour [q]. *)
Definition link_over (st : olsr_state) (outif : interface_olsr) (p q : positive) : Prop :=
  exists l, links st !! p = Some l /\ local_iface_addr l = if_ip_addr outif /\ link_neighbor l = q.

(** [es] tells of every link over the interface once and, if the node has several interfaces, once of every neighbour without such a link. *)
Record hello_lists (st : olsr_state) (outif : interface_olsr) (es : list own_neighbor) : Prop := {
  hl_lists : exists over others ls ns, es ≡ₚ ls ++ ns /\
    NoDup over /\ (forall p, p ∈ over <-> exists q, link_over st outif p q) /\ Forall2 (link_says st) over ls /\
    NoDup others /\ (forall q, q ∈ others <-> (2 <= length (ifnet st))%nat /\ is_Some (nbrs st !! q) /\ forall p, ~ link_over st outif p q) /\
    Forall2 (nbr_says st) others ns;
}.

Lemma omap_listed {A B} (f : A -> option B) (l : list A) : NoDup l ->
  exists dom, NoDup dom /\ (forall x, x ∈ dom <-> x ∈ l /\ is_Some (f x)) /\ Forall2 (fun x y => f x = Some y) dom (omap f l).
Proof.
  intros Hnd. exists (filter (fun x => is_Some (f x)) l). split; [by apply NoDup_filter|]. split; [intros x; rewrite list_elem_of_filter; tauto|].
  clear Hnd. induction l as [|x l IH]; [constructor|]. rewrite filter_cons. cbn [omap list_omap]. destruct (f x) as [y|] eqn:E.
  - rewrite decide_True by done. by constructor.
  - rewrite decide_False by (by intros [? ?]). done.
Qed.

Lemma link_listed_over st outif p nb : link_wf st -> link_listed st outif p = Some nb -> link_says st p nb /\ exists q, link_over st outif p q /\
  exists n, nbrs st !! q = Some n /\ on_main_address nb = neighbor_main_addr n.
Proof.
  intros Hwf. unfold link_listed. destruct (links st !! p) as [l|] eqn:El; [|done]. cbn [mbind option_bind].
  destruct (nbrs st !! link_neighbor l) as [n|] eqn:En; [|done]. cbn [mbind option_bind]. destruct (ipequal _ _ _) eqn:Ei; [|done]. intros [= <-]. split.
  - split. exists l, n. split; [done|]. split; [done|]. cbn [on_status on_link on_address]. split; [apply own_status_state|]. split; [|done].
    apply (link_status_state st l p), (lw_alloc _ Hwf). by rewrite El.
  - exists (link_neighbor l). split; [|by exists n]. exists l. by apply ipequal_eq in Ei.
Qed.

Lemma link_listed_all st outif p q : link_wf st -> link_over st outif p q -> is_Some (link_listed st outif p).
Proof.
  intros Hwf (l & Hl & Ha & _). unfold link_listed. rewrite Hl. cbn [mbind option_bind]. destruct (lw_nbr _ Hwf _ _ Hl) as [n ->]. cbn [mbind option_bind].
  rewrite Ha, ipequal_refl. by eexists.
Qed.

Lemma listed_over st outif q n : net_wf st -> nbrs st !! q = Some n ->
  neighbor_main_addr n ∈ map on_main_address (on_links st outif) <-> exists p, link_over st outif p q.
Proof.
  intros [Hn Hl] Hq. rewrite list_elem_of_fmap. unfold on_links. split.
  - intros (nb & Ea & Hnb). apply list_elem_of_omap in Hnb as (p & _ & Hp). apply link_listed_over in Hp as (_ & q' & Ho & n' & Hn' & Em); [|done].
    exists p. rewrite Em in Ea. by rewrite (wf_addr _ _ Hn q q' n n' Hq Hn' Ea).
  - intros (p & Ho). destruct (link_listed_all st outif p q Hl Ho) as [nb Hnb]. exists nb. split.
    + apply link_listed_over in Hnb as (_ & q' & (l' & Hl' & _ & Eq') & n' & Hn' & Em); [|done]. destruct Ho as (l & Hl0 & _ & Eq). congruence.
    + apply list_elem_of_omap. exists p. split; [|done]. destruct Ho as (l & Hl0 & _). apply (lw_alloc _ Hl). by rewrite Hl0.
Qed.

Lemma hello_of_lists st outif will : net_wf st -> hello_lists st outif (oh_neighbors (hello_of st outif will)).
Proof.
  intros Hwf. pose proof Hwf as [Hn Hl]. destruct (omap_listed (link_listed st outif) (link_entry_head st)) as (over & O1 & O2 & O3); [apply Hl|].
  destruct (omap_listed (nbr_listed st (map on_main_address (on_links st outif))) (all_elems (neighbortable st))) as (others & N1 & N2 & N3); [by eapply table_nodup, (wf_nbrs _ _ Hn)|].
  assert (forall q, is_Some (nbr_listed st (map on_main_address (on_links st outif)) q) <-> is_Some (nbrs st !! q) /\ forall p, ~ link_over st outif p q) as Hothers.
  { intros q. unfold nbr_listed. destruct (nbrs st !! q) as [n|] eqn:Eq; cbn [mbind option_bind]; [|split; [intros [? ?]; done|intros [[? ?] _]; done]].
    pose proof (listed_over st outif q n Hwf Eq) as Hiff. case_bool_decide as Hin; split.
    - intros [? ?]. done.
    - intros [_ H]. apply Hiff in Hin as [p Hp]. by destruct (H p).
    - intros _. split; [done|]. intros p Hp. apply Hin, Hiff. by exists p.
    - intros _. by eexists. }
  split. exists over, (if decide (2 <= length (ifnet st))%nat then others else []), (on_links st outif),
    (if decide (2 <= length (ifnet st))%nat then off_links st outif else []). split; [|split; [done|split; [|split; [|split; [|split]]]]].
  - unfold hello_of. cbn [oh_neighbors]. rewrite <- Permutation_app_comm. f_equiv; [symmetry; apply Permutation_rev|].
    destruct (Nat.leb_spec 2 (length (ifnet st))); [rewrite decide_True by done; symmetry; apply Permutation_rev|rewrite decide_False by lia; done].
  - intros p. rewrite O2. split.
    + intros [_ [nb Hnb]]. apply link_listed_over in Hnb as (_ & q & Hq & _); [|done]. by exists q.
    + intros [q Hq]. split; [|by eapply link_listed_all]. apply (lw_alloc _ Hl). destruct Hq as (l & Hq & _). by rewrite Hq.
  - eapply Forall2_impl; [exact O3|]. intros p nb Hp. by apply (link_listed_over st outif p nb Hl Hp).
  - destruct (decide _); [done|constructor].
  - intros q. destruct (decide _) as [H2|H2].
    + rewrite N2, Hothers. split; [tauto|]. intros (_ & Hq & Hno). split; [|done]. by apply (table_alloc _ _ _ (wf_nbrs _ _ Hn)).
    + split; [by intros ?%not_elem_of_nil|by intros [? _]].
  - destruct (decide _); [|constructor]. eapply Forall2_impl; [exact N3|]. intros q nb. cbv beta. unfold nbr_listed.
    destruct (nbrs st !! q) as [n|] eqn:Eq; [|done]. cbn [mbind option_bind]. case_bool_decide; [done|]. intros [= <-]. split. exists n. split; [done|]. split; [apply own_status_state|done].
Qed.

(** ** What a TC message is built from *)

Definition selected (st : olsr_state) (n : neighbor_entry) : bool :=
  (status n =? SYM) && ((tc_redundancy =? 2) || ((tc_redundancy =? 1) && is_mpr n) || bool_decide (neighbor_main_addr n ∈ selectors st)).

Definition tc_listed (st : olsr_state) (p : positive) : option ip_addr :=
  n ← nbrs st !! p; if selected st n then Some (neighbor_main_addr n) else None.

Definition tc_neighbors (st : olsr_state) : list ip_addr := rev (omap (tc_listed st) (all_elems (neighbortable st))).

Lemma wp_tc_selected n st : wp (tc_selected n) (fun b st' => st' = st /\ b = selected st n) st.
Proof.
  unfold tc_selected, selected. destruct (status n =? SYM); cbn [negb andb]; [|by apply wp_ret].
  destruct (tc_redundancy =? 2); cbn [orb]; [by apply wp_ret|]. unfold olsr_lookup_mprs_set. wp_step. wp_step. wp_step. split; [done|].
  rewrite find_mprs_selector.
  destruct (tc_redundancy =? 1), (is_mpr n); cbn [andb orb]; done.
Qed.

Lemma wp_tc_addresses st : nbr_wf st -> wp tc_addresses (fun l st' => st' = st /\ l = tc_neighbors st) st.
Proof.
  intros Hwf. unfold tc_addresses, OLSR_FOR_ALL_NBR_ENTRIES, tc_neighbors. wp_step. wp_step.
  apply (wp_foldM _ _ _ (fun rest l st' => st' = st /\ exists done_, all_elems (neighbortable st) = done_ ++ rest /\ l = rev (omap (tc_listed st) done_))).
  - split; [done|]. by exists [].
  - intros p rest l st' (-> & dn & E & ->). destruct (proj1 (table_alloc _ _ _ (wf_nbrs _ _ Hwf) p)) as [n Hn]; [rewrite E; set_solver|].
    wp_step. eapply wp_get_nbr; [exact Hn|]. wp_step. eapply wp_mono; [apply wp_tc_selected|]. cbv beta. intros b st' (-> & ->). wp_step.
    split; [done|]. exists (dn ++ [p]). split; [by rewrite <- app_assoc|]. rewrite omap_snoc.
    assert (tc_listed st p = if selected st n then Some (neighbor_main_addr n) else None) as -> by (unfold tc_listed; by rewrite Hn).
    destruct (selected st n); [by rewrite rev_app_distr|by rewrite app_nil_r].
  - intros l st' (-> & dn & E & ->). rewrite app_nil_r in E. by rewrite <- E.
Qed.

Definition tc_of (st : olsr_state) : tc_message :=
  {| tm_originator := main_addr st; tm_hop_count := 0; tm_ttl := MAX_TTL; tm_ansn := ansn st; tm_neigh := tc_neighbors st |}.

(** Announcing again, or still; or nothing any more, which is told for three times the validity time. *)
Definition tc_state (t : Z) (n : node) : node :=
  if negb (bool_decide (tc_neighbors (core n) = [])) then set_sending_tc true n
  else if sending_tc n then set_sending_tc false (set_send_empty_tc (olsr_getTimestamp (now_times (core n)) t) n) else n.

Lemma set_core_self n : set_core (core n) n = n.
Proof. by destruct n. Qed.

Lemma wp_build_tc t n : nbr_wf (core n) -> empty_tc_time = Some t ->
  wp olsr_build_tc_packet (fun m n' => m = tc_of (core n) /\ n' = tc_state t n) n.
Proof.
  intros Hwf Ht. unfold olsr_build_tc_packet, get_local_ansn. wp_step. apply wp_lift. wp_step. rewrite set_core_self. wp_step. wp_step. wp_step.
  apply wp_lift. eapply wp_mono; [by apply wp_tc_addresses|]. cbv beta. intros l st' (-> & ->). rewrite set_core_self. wp_step.
  unfold tc_state. destruct (bool_decide (tc_neighbors (core n) = [])) eqn:E; cbn [negb].
  - wp_step. wp_step. apply wp_when; intros Es; rewrite Es; cbn [Bool.Is_true].
    + unfold start_empty_tc, set_empty_tc_timer. wp_step. wp_step. eapply wp_gets_opt; [exact Ht|]. wp_step. wp_step. wp_step. wp_step. by wp_step.
    + by wp_step.
  - wp_step. by wp_step.
Qed.

End gen_spec.
