(* ===== verification/AnnounceSpec.v ===== *)
(** * Theorems on the messages of this node

    A generator writes to the stream of its interface, the packets sent so far and the
    bytes still queued, messages that the receivers of HelloRead.v, TcInputSpec.v,
    MidSet.v and HnaSpec.v read. *)

From S2P Require Import Prelude Timer Mantissa Avl IpAddr KeyTree DupSet State MidLookup NeighTable NeighProofs Interfaces Packet LsdbOps Lq RouteTable TcSpec LinkSet LinkProofs.
From S2P Require Import Mpr MprSel MidSet Hello HelloRead NeighSpec LinkSpec MidSpec Node NetOlsr Hna HnaProofs HnaSpec TcInput TcInputSpec NetSpec BuildMsg BuildProofs BuildSpec HelloBuild GenMsg GenSpec.

Section announce.
Context {cnf : olsrd_config} {ncf : node_config} {lqh : lq_handler}.

(** The timer of the buffer of interface [i] runs, started now if it did not. *)
Record buffer_timed (i : nat) (n n' : node) : Prop := {
  bt_frame : exists o f k, outs n !! i = Some o /\ n' = set_outs (<[i := set_fwdtimer f o]> (outs n)) (set_core (set_random_count k (core n)) n) /\
    (if olsr_isTimedOut (now_times (core n)) (fwdtimer o)
     then exists t, buffer_delay (olsr_random (random_count (core n))) = Some t /\ f = olsr_getTimestamp (now_times (core n)) t else f = fwdtimer o);
}.

Lemma set_fwdtimer_self o : set_fwdtimer (fwdtimer o) o = o.
Proof. by destruct o. Qed.

Lemma set_random_self st : set_random_count (random_count st) st = st.
Proof. by destruct st. Qed.

Lemma set_outs_self n : set_outs (outs n) n = n.
Proof. by destruct n. Qed.

Lemma wp_start_buffer_timer i o n : outs n !! i = Some o -> is_Some (buffer_delay (olsr_random (random_count (core n)))) ->
  wp (start_buffer_timer i) (fun _ n' => buffer_timed i n n') n.
Proof.
  intros Ho [t Ht]. unfold start_buffer_timer. wp_step. eapply wp_get_out; [exact Ho|]. wp_step. wp_step. apply wp_when; intros E.
  - unfold set_buffer_timer. wp_step. wp_step. wp_step. apply wp_lift. wp_step. wp_step. eapply wp_gets_opt; [exact Ht|]. wp_step. wp_step.
    eapply wp_upd_out; [exact Ho|]. split. exists o, (olsr_getTimestamp (now_times (core n)) t), (random_count (core n) + 1). rewrite E. split; [done|]. split; [done|]. by exists t.
  - split. exists o, (fwdtimer o), (random_count (core n)). rewrite E. split; [done|]. split; [|done].
    rewrite set_fwdtimer_self, set_random_self, set_core_self, list_insert_id by done. by rewrite set_outs_self.
Qed.

Lemma emitted_out i msgs o q n o' q' n' : emitted i msgs o q n o' q' n' -> outs n' !! i = Some o'.
Proof. intros H. apply H. Qed.

(** What the receiver of a HELLO message reads of a listed address: the status of the neighbour, the type of the link, the address. *)
Definition told (entry : Z * ip_addr) : Z * Z * ip_addr := (EXTRACT_STATUS (fst entry), EXTRACT_LINK (fst entry), snd entry).

(** What the message tells of a neighbour: its state, the state of the link and the address. A link that hysteresis keeps pending does not appear in a message of IPv4; the code for IPv6
    lists it, but the type does not fit the two bits it has: it spoils the status, which becomes that of a symmetric neighbour, or 3 for a relay. *)
Definition hello_tells (nb : own_neighbor) : list (Z * Z * ip_addr) :=
  if bool_decide (on_link nb = HIDE_LINK)
  then match ip_version with AF_INET => [] | AF_INET6 => [(if bool_decide (on_status nb = MPR_NEIGH) then 3 else SYM_NEIGH, UNSPEC_LINK, on_address nb)] end
  else [(on_status nb, on_link nb, on_address nb)].

Lemma told_code status link a : 0 <= status <= 2 -> 0 <= link <= 4 -> told (CREATE_LINK_CODE status link, a) =
  if bool_decide (link = HIDE_LINK) then (if bool_decide (status = MPR_NEIGH) then 3 else SYM_NEIGH, UNSPEC_LINK, a) else (status, link, a).
Proof.
  intros Hi Hj. assert (status = 0 \/ status = 1 \/ status = 2) as [->|[->| ->]] by lia;
    assert (link = 0 \/ link = 1 \/ link = 2 \/ link = 3 \/ link = 4) as [->|[->|[->|[->| ->]]]] by lia; reflexivity.
Qed.

Lemma shown_tells l : (forall nb, nb ∈ l -> 0 <= on_status nb <= 2 /\ 0 <= on_link nb <= 4) ->
  map told (map (fun nb => (CREATE_LINK_CODE (on_status nb) (on_link nb), on_address nb)) (filter (fun nb => ip_version = AF_INET6 \/ on_link nb <> HIDE_LINK) l)) =
  concat (map hello_tells l).
Proof.
  induction l as [|nb l IH]; intros Hr; [done|]. destruct (Hr nb (list_elem_of_here _ _)) as [H1 H2]. cbn [map concat]. rewrite <- IH by (intros x Hx; apply Hr; by right).
  rewrite filter_cons. unfold hello_tells. destruct (decide (ip_version = AF_INET6 \/ on_link nb <> HIDE_LINK)) as [D|D].
  - cbn [map]. rewrite told_code by done. case_bool_decide as E; [|done]. destruct D as [->|?]; done.
  - case_bool_decide as E; [|destruct D; by right]. destruct ip_version; [done|destruct D; by left].
Qed.

Lemma hello_of_ranges st outif will nb : nb ∈ oh_neighbors (hello_of st outif will) -> 0 <= on_status nb <= 2 /\ 0 <= on_link nb <= 4.
Proof.
  unfold hello_of. cbn [oh_neighbors]. intros [H|H]%elem_of_app.
  - destruct (2 <=? _)%nat; [|by apply not_elem_of_nil in H]. apply list_elem_of_In, in_rev, list_elem_of_In, list_elem_of_omap in H as (q & _ & E). unfold nbr_listed in E.
    destruct (nbrs st !! q) as [n|]; [|done]. cbn [mbind option_bind] in E. case_bool_decide; [done|]. injection E as <-. split; [apply own_status_range|cbn; unfold UNSPEC_LINK; lia].
  - apply list_elem_of_In, in_rev, list_elem_of_In, list_elem_of_omap in H as (p & _ & E). unfold link_listed in E. destruct (links st !! p) as [l|]; [|done]. cbn [mbind option_bind] in E.
    destruct (nbrs st !! link_neighbor l) as [n|]; [|done]. cbn [mbind option_bind] in E. destruct (ipequal _ _ _); [|done]. injection E as <-.
    split; [apply own_status_range|apply link_status_range].
Qed.

Lemma hello_of_shown st outif will nb : use_hysteresis = false -> nb ∈ oh_neighbors (hello_of st outif will) -> on_link nb <> HIDE_LINK.
Proof.
  intros Hh. unfold hello_of. cbn [oh_neighbors]. intros [H|H]%elem_of_app.
  - destruct (2 <=? _)%nat; [|by apply not_elem_of_nil in H]. apply list_elem_of_In, in_rev, list_elem_of_In, list_elem_of_omap in H as (q & _ & E). unfold nbr_listed in E.
    destruct (nbrs st !! q) as [n|]; [|done]. cbn [mbind option_bind] in E. case_bool_decide; [done|]. injection E as <-. done.
  - apply list_elem_of_In, in_rev, list_elem_of_In, list_elem_of_omap in H as (p & _ & E). unfold link_listed in E. destruct (links st !! p) as [l|]; [|done]. cbn [mbind option_bind] in E.
    destruct (nbrs st !! link_neighbor l) as [n|]; [|done]. cbn [mbind option_bind] in E. destruct (ipequal _ _ _); [|done]. injection E as <-. by apply link_status_shown.
Qed.

Lemma tells_all l : (forall nb, nb ∈ l -> on_link nb <> HIDE_LINK) -> concat (map hello_tells l) = map (fun nb => (on_status nb, on_link nb, on_address nb)) l.
Proof.
  induction l as [|nb l IH]; intros Hl; [done|]. cbn [map concat]. rewrite IH by (intros x Hx; apply Hl; by right).
  unfold hello_tells. rewrite bool_decide_eq_false_2; [done|]. apply Hl. left.
Qed.

(** C13: A HELLO message, sent at once in one or more parts that fit the packets, tells its receivers of every link over the interface exactly once and, with several interfaces,
    exactly once of every neighbour without such a link, and of nothing else: the address with the state of the neighbour and of the link. The exception are links that hysteresis keeps
    pending: with IPv4 they are left out, with IPv6 they are told as those of a symmetric neighbour. A packet must have room for a group of one address; and the room that is left behind what
    is queued must not be one for the header only, for which the code for IPv6 exits ([queue_hello_exits]). *)
Theorem generate_hello_correct i o q n :
  ready i o q n -> net_wf (core n) -> hdrsize + 8 + ip_len <= full_room o -> (hdrsize + 4 <= room o q -> hello_checked <= room o q) ->
  let message := hello_of (core n) (out_if o) (own_willingness n) in
  wp (generate_hello [] i) (fun _ n' => exists parts o' es, hello_lists (core n) (out_if o) es /\
    emitted i (numbered (hello_part_msg message o n) (message_seqno n) parts) o q n o' [] n' /\ parts <> [] /\
    map told (flat (concat parts)) ≡ₚ concat (map hello_tells es) /\
    (use_hysteresis = false -> map told (flat (concat parts)) ≡ₚ map (fun nb => (on_status nb, on_link nb, on_address nb)) es) /\
    Forall (fun part => hdrsize + 4 + Z.of_nat (length (groups_bytes part)) <= full_room o) parts) n.
Proof.
  intros Hr Hwf H1 H2 message. unfold generate_hello. wp_step. eapply wp_get_out; [apply Hr|]. wp_step. wp_step. wp_step. apply wp_lift.
  eapply wp_mono; [by apply wp_build_hello|]. cbv beta. intros m st' (-> & ->). rewrite set_core_self. fold message. wp_step.
  eapply wp_mono; [by apply (wp_queue_hello message i o q n)|]. cbv beta. intros r n' (-> & parts & o' & q' & He & Hne & Hf & Hsz). cbn [when]. wp_step.
  eapply wp_mono; [apply wp_output, He|]. cbv beta. intros _ n2 (o2 & He2). wp_step.
  assert (map told (flat (concat parts)) ≡ₚ concat (map hello_tells (oh_neighbors message))) as Hall.
  { rewrite Hf, <- shown_tells by apply hello_of_ranges. by apply Permutation_map, hello_content_perm, hello_of_ranges. }
  exists parts, o2, (oh_neighbors message). split; [by apply hello_of_lists|]. split; [|split; [done|split; [done|split; [|done]]]].
  - pose proof (emitted_trans _ _ _ _ _ _ _ _ _ _ _ _ He He2) as Ht. by rewrite app_nil_r in Ht.
  - intros Hh. rewrite Hall, tells_all; [done|]. intros nb. by apply hello_of_shown.
Qed.

(** A node with one link, over the interface, and one neighbour. *)
Lemma one_link_lists st outif p q l n es :
  links st !! p = Some l -> local_iface_addr l = if_ip_addr outif -> link_neighbor l = q -> nbrs st !! q = Some n ->
  (forall r k, links st !! r = Some k -> bool_decide (r = p) = true) -> (forall r m, nbrs st !! r = Some m -> bool_decide (r = q) = true) ->
  hello_lists st outif es -> exists nb, es = [nb] /\ neighbour_state n (on_status nb) /\ link_state st l (on_link nb) /\ on_address nb = neighbor_iface_addr l.
Proof.
  intros El Hloc Hln En Hl2 Hn2 [(over & others & ls & ns & Ees & O1 & O2 & O3 & N1 & N2 & N3)].
  assert (forall r m, link_over st outif r m <-> r = p /\ m = q) as Hover.
  { intros r m. unfold link_over. split.
    - intros (k & Hk & _ & <-). pose proof (Hl2 _ _ Hk) as E%bool_decide_eq_true. subst r. rewrite El in Hk. by injection Hk as <-.
    - intros [-> ->]. by exists l. }
  assert (others = []) as ->.
  { destruct others as [|r others]; [done|]. destruct (proj1 (N2 r) (list_elem_of_here _ _)) as (_ & [m Hr] & Hno). pose proof (Hn2 _ _ Hr) as E%bool_decide_eq_true. subst r.
    destruct (Hno p). by apply Hover. }
  apply Forall2_nil_inv_l in N3 as ->. rewrite app_nil_r in Ees.
  assert (over ≡ₚ [p]) as Eo.
  { apply NoDup_Permutation; [done|apply NoDup_singleton|]. intros r. rewrite O2, list_elem_of_singleton. split; [by intros (m & [? _]%Hover)|]. intros ->. exists q. by apply Hover. }
  apply Permutation_singleton_r in Eo as ->. inversion O3 as [|? nb ? ? Hsay Hnil]; subst. apply Forall2_nil_inv_l in Hnil as ->.
  apply Permutation_singleton_r in Ees as ->. exists nb. split; [done|]. destruct Hsay as [(l' & n' & Hl & Hn & Hns & Hls & Hadr)].
  rewrite El in Hl. injection Hl as <-. rewrite En in Hn. by injection Hn as <-.
Qed.

(** C14: A TC message goes out in parts that carry exactly the symmetric neighbours that are to be announced, none of them if the time in which the end of
    the announcements is told has passed. *)
Theorem generate_tc_correct t i o q n :
  ready i o q n -> nbr_wf (core n) -> hdrsize + 4 + ip_len <= full_room o -> empty_tc_time = Some t ->
  is_Some (buffer_delay (olsr_random (random_count (core n)))) ->
  let n0 := tc_state t n in
  wp (generate_tc [] i) (fun _ n' => exists parts o' q' n1,
    emitted i (numbered (tc_msg (tc_of (core n)) (vt_tc (valtimes o))) (message_seqno n) parts) o q n0 o' q' n1 /\
    concat parts = tc_neighbors (core n) /\ Forall (fun part => hdrsize + 4 + ip_len * Z.of_nat (length part) <= full_room o) parts /\
    (tc_neighbors (core n) = [] -> parts = if olsr_isTimedOut (now_times (core n)) (send_empty_tc n0) then [] else [[]]) /\
    if bool_decide (parts = []) then n' = n1 else buffer_timed i n1 n') n.
Proof.
  intros Hr Hwf Hroom Ht Hd n0. unfold generate_tc. wp_step. eapply wp_mono; [by apply wp_build_tc|]. cbv beta. intros m n1 (-> & ->). fold n0.
  assert (core n0 = core n /\ outs n0 = outs n /\ message_seqno n0 = message_seqno n) as (Ec & Eo & Es).
  { unfold n0, tc_state. destruct (negb _); [done|]. by destruct (sending_tc n). }
  assert (ready i o q n0) as Hr0 by (destruct Hr as [R1 R2 R3 R4]; split; congruence).
  wp_step. eapply wp_mono; [by apply (wp_queue_tc (tc_of (core n)) i o q n0)|]. cbv beta.
  intros r n1 (parts & o' & q' & -> & He & Hc & Hf & Hemp). rewrite Ec, Es in *.
  apply wp_when; intros E.
  - assert (core n1 = core n) as Ec1 by (destruct (strip_core _ _ (em_rest _ _ _ _ _ _ _ _ He)); congruence).
    eapply wp_mono; [apply (wp_start_buffer_timer i o' n1); [by eapply emitted_out|by rewrite Ec1]|]. cbv beta. intros _ n' Hb. exists parts, o', q', n1.
    do 4 (split; [done|]). by rewrite (proj1 (negb_true_iff _) E).
  - exists parts, o', q', n1. do 4 (split; [done|]). by rewrite (proj1 (negb_false_iff _) E).
Qed.

(** C15: The MID messages tell every receiver exactly the addresses of this node besides its main address, in the order of
    the interfaces, and reading them gives back the main address and the aliases. *)
Theorem generate_mid_correct i o q n :
  ready i o q n -> own_aliases (core n) <> [] -> hdrsize + ip_len <= full_room o ->
  hdrsize + ip_len * 2 * Z.of_nat (length (ifnet (core n))) < 65536 -> is_Some (buffer_delay (olsr_random (random_count (core n)))) ->
  is_ip (ipsize ip_version) (main_addr (core n)) -> Forall (is_ip (ipsize ip_version)) (own_aliases (core n)) ->
  wp (generate_mid [] i) (fun _ n' => exists parts o' q' n1,
    emitted i (numbered (mid_msg (vt_mid (valtimes o)) (main_addr (core n))) (message_seqno n) parts) o q n o' q' n1 /\ buffer_timed i n1 n' /\
    concat parts = own_aliases (core n) /\
    Forall (fun part => forall s rest, is_u16 s -> mid_chgestruct (mid_msg (vt_mid (valtimes o)) (main_addr (core n)) part s ++ rest) =
      Some (Some {| mid_msg_vtime := me_to_reltime (vt_mid (valtimes o)); mid_origaddr := main_addr (core n); mid_seqno := s; mid_addr := rev part |})) parts) n.
Proof.
  intros Hr Hne Hroom Hlen Hd Hmain Hal. unfold generate_mid. wp_step. eapply wp_mono; [by apply (wp_queue_mid i o q n)|]. cbv beta.
  intros r n1 (-> & parts & o' & q' & He & Hc & Hf). cbn [when].
  assert (core n1 = core n) as Ec1 by (by destruct (strip_core _ _ (em_rest _ _ _ _ _ _ _ _ He))).
  eapply wp_mono; [apply (wp_start_buffer_timer i o' n1); [by eapply emitted_out|by rewrite Ec1]|]. cbv beta. intros _ n' Hb. exists parts, o', q', n1.
  do 3 (split; [done|]). apply Forall_forall. intros part Hp s rest Hs. apply list_elem_of_In in Hp as Hp'. rewrite Forall_forall in Hf.
  destruct (Hf part Hp) as [_ Hsz]. apply mid_msg_reads; try done.
  - rewrite <- Hc in Hal. apply Forall_concat in Hal. rewrite Forall_forall in Hal. by apply Hal.
  - assert (full_room o <= MAX_REMAINING) as Hfr by (unfold full_room, room; lia). unfold MAX_REMAINING in Hfr. lia.
Qed.

(** The HNA messages announce exactly the configured networks, in the form that [olsr_input_hna] reads; the
    timer of the buffer is never started for them. *)
Theorem generate_hna_correct i o q n :
  ready i o q n -> hdrsize + 2 * ip_len <= full_room o -> hdrsize + 2 * ip_len * Z.of_nat (length (own_hna n)) < 65536 ->
  wp (generate_hna [] i) (fun _ n' => exists parts o' q',
    emitted i (numbered (fun part s => put_hna (vt_hna (valtimes o)) (main_addr (core n)) MAX_TTL 0 s (map announced_net part)) (message_seqno n) parts) o q n o' q' n' /\
    concat parts = own_hna n /\ Forall (fun part => part <> [] /\ hdrsize + 2 * ip_len * Z.of_nat (length part) <= full_room o) parts) n.
Proof.
  intros Hr Hroom Hlen. unfold generate_hna. wp_step. eapply wp_mono; [by apply (wp_queue_hna i o q n)|]. cbv beta.
  intros r n1 (-> & H). cbn [when]. by apply wp_ret.
Qed.

(** ** Two faults of the code for IPv6 *)

Lemma room_left_eq i o q n : ready i o q n -> room_left i n = Some (room o q, n).
Proof.
  intros Hr. pose proof (wp_room_left i o q n (fun r n' => r = room o q /\ n' = n) Hr (conj eq_refl eq_refl)) as H.
  unfold wp in H. by destruct (room_left i n) as [[r n']|]; [destruct H as [-> ->]|].
Qed.

(** With IPv6 the program exits when there is room for the start of a HELLO message, but not for a group with an address. *)
Theorem queue_hello_exits message i o q n :
  ip_version = AF_INET6 -> ready i o q n -> hdrsize + 4 <= room o q < hdrsize + 8 + ip_len -> queue_hello [] message i n = None.
Proof.
  intros Hv Hr Hroom. rewrite queue_hello_eq. unfold serialize_hello, make_room. unfold bind at 1. unfold bind at 1. rewrite (room_left_eq i o q n Hr).
  assert (hdrsize + 4 >? room o q = false) as -> by (rewrite Z.gtb_ltb; apply Z.ltb_ge; lia). unfold bind at 1, ret at 1. unfold bind at 1, check_buffspace, hello_checked.
  rewrite Hv. assert (hdrsize + 8 + ip_len >? room o q = true) as -> by (rewrite Z.gtb_ltb; apply Z.ltb_lt; lia). done.
Qed.

Lemma flat_elem groups (x : Z * ip_addr) : x ∈ flat groups -> exists g, g ∈ groups /\ fst g = fst x /\ snd x ∈ snd g.
Proof.
  unfold flat. intros H. apply list_elem_of_In, in_concat in H as (l & Hl & Hx). apply in_map_iff in Hl as (g & <- & Hg). apply in_map_iff in Hx as (a & <- & Ha).
  exists g. split; [by apply list_elem_of_In|]. split; [done|by apply list_elem_of_In].
Qed.

Lemma hidden_content message nb : ip_version = AF_INET6 -> nb ∈ oh_neighbors message -> on_status nb = NOT_NEIGH -> on_link nb = HIDE_LINK ->
  (CREATE_LINK_CODE SYM_NEIGH UNSPEC_LINK, on_address nb) ∈ hello_content message.
Proof.
  intros Hv Hn Hs Hl. unfold hello_content. rewrite Hv. apply list_elem_of_In, in_concat. exists (group_members message false (NOT_NEIGH, HIDE_LINK)). split.
  - apply in_map. vm_compute. do 4 right. by left.
  - unfold group_members. cbn [andb fst snd]. change (CREATE_LINK_CODE SYM_NEIGH UNSPEC_LINK) with (CREATE_LINK_CODE NOT_NEIGH HIDE_LINK).
    apply (in_map (fun nb => (CREATE_LINK_CODE NOT_NEIGH HIDE_LINK, on_address nb))). by apply list_elem_of_In, list_elem_of_filter.
Qed.

(** With IPv6 a neighbour whose link is to be hidden is announced all the same, with the code of a symmetric neighbour. *)
Theorem queue_hello_hidden_symmetric message nb i o q n :
  ip_version = AF_INET6 -> ready i o q n -> hdrsize + 8 + ip_len <= full_room o -> (hdrsize + 4 <= room o q -> hello_checked <= room o q) ->
  nb ∈ oh_neighbors message -> on_status nb = NOT_NEIGH -> on_link nb = HIDE_LINK ->
  wp (queue_hello [] message i) (fun _ n' => exists parts o' q', emitted i (numbered (hello_part_msg message o n) (message_seqno n) parts) o q n o' q' n' /\
    exists part group, part ∈ parts /\ group ∈ part /\ EXTRACT_STATUS (fst group) = SYM_NEIGH /\ on_address nb ∈ snd group) n.
Proof.
  intros Hv Hr H1 H2 Hn Hs Hl. eapply wp_mono; [by apply (wp_queue_hello message i o q n)|]. cbv beta. intros r n' (_ & parts & o' & q' & He & _ & Hf & _).
  exists parts, o', q'. split; [done|]. pose proof (hidden_content message nb Hv Hn Hs Hl) as Hc. rewrite <- Hf in Hc.
  apply flat_elem in Hc as (g & Hg & Ec & Ha). apply list_elem_of_In, in_concat in Hg as (part & Hp & Hgp).
  exists part, g. split; [by apply list_elem_of_In|]. split; [by apply list_elem_of_In|]. split; [by rewrite Ec|done].
Qed.

End announce.

(** ** Witnesses *)

(** The interface of NetSpec.v for packets of [mtu] bytes. *)
Definition out_eth0_mtu (mtu : Z) : out_interface :=
  {| out_if := eth0; int_mode := 0; int_mtu := mtu; olsr_seqnum := 1; hello_etime := 2000;
     valtimes := {| vt_hello := 134; vt_tc := 134; vt_mid := 134; vt_hna := 134 |}; fwdtimer := 0; sgw_sgw_zero_bw_timeout := 0;
     netbuf := {| buff := None; bufsize := 0; maxsize := 0; pending := 0; reserved := 0 |}; ttl_index := 0; immediate_send_tc := false |}.

(** A node that starts to send. *)
Definition sender {cnf : olsrd_config} (mtu : Z) (c : olsr_state) (own : list olsr_ip_prefix) : node :=
  node_run (net_add_buffer (replicate (Z.to_nat mtu) 0) 0) (bare_node c own [out_eth0_mtu mtu]).

Lemma sender_ready {cnf : olsrd_config} mtu c own : 4 <= mtu < 65536 ->
  exists o, ready 0 o [] (sender mtu c own) /\ full_room o = Z.min MAX_REMAINING (mtu - 4) /\ out_if o = eth0 /\ valtimes o = valtimes (out_eth0_mtu mtu) /\
    core (sender mtu c own) = c /\ own_hna (sender mtu c own) = own /\ own_willingness (sender mtu c own) = WILL_DEFAULT /\ message_seqno (sender mtu c own) = 65534 /\
    send_empty_tc (sender mtu c own) = 0 /\ sending_tc (sender mtu c own) = false.
Proof.
  intros Hm. unfold sender. apply (node_run_ok _ (fun n => exists o, ready 0 o [] n /\ full_room o = Z.min MAX_REMAINING (mtu - 4) /\ out_if o = eth0 /\ valtimes o = valtimes (out_eth0_mtu mtu) /\
    core n = c /\ own_hna n = own /\ own_willingness n = WILL_DEFAULT /\ message_seqno n = 65534 /\ send_empty_tc n = 0 /\ sending_tc n = false)).
  unfold net_add_buffer. wp_step. eapply wp_upd_out; [reflexivity|]. wp_step.
  exists (set_netbuf (add_buffer (replicate (Z.to_nat mtu) 0) mtu (netbuf (out_eth0_mtu mtu))) (out_eth0_mtu mtu)).
  split; [|split; [unfold full_room, room; simpl; unfold OLSR_HEADERSIZE; lia|done]].
  split; [done| |simpl; unfold OLSR_HEADERSIZE; lia|vm_compute; split; [discriminate|done]].
  apply (add_buffer_holds (replicate (Z.to_nat mtu) 0) mtu (out_eth0_mtu mtu)); [unfold OLSR_HEADERSIZE; lia|rewrite length_replicate; lia|discriminate].
Qed.

Section announce_witnesses.
#[local] Existing Instance sample_cnf.
#[local] Existing Instance sample_lq.
#[local] Instance announce_ncf : node_config :=
  {| min_tc_vtime := S754_zero false; max_jitter := S754_zero false; max_tc_vtime := S754_zero false; lq_fish := 0 |}.

(** There is one link over eth0, to the only neighbour. *)
Lemma lk1_lists es : hello_lists lk1 eth0 es -> exists nb, es = [nb] /\ on_status nb = SYM_NEIGH /\ on_link nb = SYM_LINK /\ on_address nb = 201.
Proof.
  assert (exists l, links lk1 !! 2%positive = Some l /\ local_iface_addr l = if_ip_addr eth0 /\ link_neighbor l = 2%positive /\ neighbor_iface_addr l = 201 /\
    is_Some (link_sym_timer l)) as (l & El & Hloc & Hln & Ha & Ht)
    by (eexists; do 4 (split; [vm_compute; reflexivity|]); vm_compute; eexists; reflexivity).
  assert (exists n, nbrs lk1 !! 2%positive = Some n /\ is_mpr n = false /\ status n = SYM) as (n & En & Hm & Hs) by (eexists; do 2 (split; [vm_compute; reflexivity|]); vm_compute; reflexivity).
  intros Hes. destruct (one_link_lists lk1 eth0 2 2 l n es El Hloc Hln En) as (nb & E & [_ Hns _] & [_ _ Hls _ _] & Hadr).
  - apply (heap_forall (fun p _ => bool_decide (p = 2%positive))). vm_compute. reflexivity.
  - apply (heap_forall (fun p _ => bool_decide (p = 2%positive))). vm_compute. reflexivity.
  - exact Hes.
  - exists nb. split; [exact E|]. split; [exact (Hns Hm Hs)|]. split; [|rewrite Hadr; exact Ha]. apply Hls; [|exact Ht]. intros [Hh _]. discriminate Hh.
Qed.

(** The links of LinkSpec.v: 200 is heard at its address 201 over eth0. *)
Lemma generate_hello_correct_witness :
  wp (generate_hello [] 0) (fun _ n' => exists parts o o', emitted 0 (numbered (hello_part_msg (hello_of lk1 eth0 WILL_DEFAULT) o (sender 60 lk1 [])) 65534 parts) o [] (sender 60 lk1 []) o' [] n' /\
    map told (flat (concat parts)) = [(SYM_NEIGH, SYM_LINK, 201)]) (sender 60 lk1 []).
Proof.
  destruct (sender_ready 60 lk1 []) as (o & Hr & Hf & Ho & _ & Hc & _ & Hw & Hs & _); [lia|].
  pose proof (generate_hello_correct 0 o [] (sender 60 lk1 []) Hr) as H. cbv zeta in H. rewrite Hc, Hw, Ho, Hs in H.
  eapply wp_mono; [apply H|].
  - exact lk1_wf.
  - rewrite Hf. vm_compute. discriminate.
  - intros _. change (hello_checked <= full_room o). rewrite Hf. vm_compute. discriminate.
  - cbv beta. intros _ n' (parts & o' & es & Hes & He & _ & _ & Hl & _). exists parts, o, o'. split; [exact He|].
    apply lk1_lists in Hes as (nb & -> & Hst & Hlk & Ha). specialize (Hl eq_refl). cbn [map] in Hl. apply Permutation_singleton_r in Hl. by rewrite Hl, Hst, Hlk, Ha.
Defined.

(** All symmetric neighbours are announced. *)
Lemma generate_tc_correct_witness :
  wp (generate_tc [] 0) (fun _ n' => exists parts, concat parts = ([200] : list ip_addr) /\ Forall (fun part => 16 + 4 * Z.of_nat (length part) <= 56) parts) (sender 60 lk1 []).
Proof.
  destruct (sender_ready 60 lk1 []) as (o & Hr & Hf & _ & _ & Hc & _); [lia|].
  pose proof (generate_tc_correct 0 0 o [] (sender 60 lk1 []) Hr) as H. cbv zeta in H. rewrite Hc in H.
  eapply wp_mono; [apply H|].
  - exact (proj1 lk1_wf).
  - rewrite Hf. vm_compute. discriminate.
  - vm_compute. reflexivity.
  - vm_compute. eexists. reflexivity.
  - cbv beta. intros _ n' (parts & o' & q' & n1 & _ & Hl & Hp & _). exists parts. split; [rewrite Hl; vm_compute; reflexivity|].
    rewrite Hf in Hp. exact Hp.
Defined.

Definition three_interfaces : olsr_state :=
  set_ifnet [eth0; wlan0; {| if_ip_addr := 120; int_name := Some "wlan1"%string; int_metric := 2; if_index := 4 |}] empty_state.

(** The main address is that of eth0; each of the aliases needs a message of its own, as the packets are short. *)
Lemma generate_mid_correct_witness :
  wp (generate_mid [] 0) (fun _ n' => exists parts, concat parts = ([110; 120] : list ip_addr) /\ Forall (fun part => exists msg, mid_chgestruct msg =
    Some (Some {| mid_msg_vtime := me_to_reltime 134; mid_origaddr := main_addr three_interfaces; mid_seqno := 65534; mid_addr := rev part |})) parts) (sender 22 three_interfaces []).
Proof.
  destruct (sender_ready 22 three_interfaces []) as (o & Hr & Hf & _ & Hv & Hc & _); [lia|].
  pose proof (generate_mid_correct 0 o [] (sender 22 three_interfaces []) Hr) as H. rewrite Hc, Hv in H.
  eapply wp_mono; [apply H|].
  - vm_compute. discriminate.
  - rewrite Hf. vm_compute. discriminate.
  - vm_compute. reflexivity.
  - vm_compute. eexists. reflexivity.
  - vm_compute. split; [discriminate|reflexivity].
  - change (own_aliases three_interfaces) with [110; 120]. repeat (apply Forall_cons; split; [vm_compute; split; [discriminate|reflexivity]|]). constructor.
  - cbv beta. intros _ n' (parts & o' & q' & n1 & _ & _ & Hl & Hp). exists parts. split; [rewrite Hl; vm_compute; reflexivity|].
    eapply Forall_impl; [exact Hp|]. intros part Hpart. eexists. refine (Hpart 65534 [] _). vm_compute. split; [discriminate|reflexivity].
Defined.

Lemma generate_hna_correct_witness :
  wp (generate_hna [] 0) (fun _ n' => exists parts, concat parts = ([{| prefix := 7; prefix_len := 24 |}; {| prefix := 8; prefix_len := 16 |}] : list olsr_ip_prefix) /\
    Forall (fun part => length part = 1%nat) parts) (sender 30 empty_state [{| prefix := 7; prefix_len := 24 |}; {| prefix := 8; prefix_len := 16 |}]).
Proof.
  set (own := [{| prefix := 7; prefix_len := 24 |}; {| prefix := 8; prefix_len := 16 |}]).
  destruct (sender_ready 30 empty_state own) as (o & Hr & Hf & _ & _ & Hc & Hown & _); [lia|].
  eapply wp_mono; [apply (generate_hna_correct 0 o [] _ Hr)|].
  - rewrite Hf. vm_compute. discriminate.
  - rewrite Hown. vm_compute. reflexivity.
  - cbv beta. intros _ n' (parts & o' & q' & _ & Hl & Hp). rewrite Hown in Hl. exists parts. split; [exact Hl|].
    rewrite Hf in Hp. eapply Forall_impl; [exact Hp|]. intros part [Hne Hlen]. unfold hdrsize, ip_len, ipsize, MAX_REMAINING in Hlen. cbn in Hlen.
    destruct part as [|x [|y part]]; [destruct (Hne eq_refl)|reflexivity|]. cbn [length] in Hlen. lia.
Defined.

End announce_witnesses.

Section ipv6_witnesses.
#[local] Instance ipv6_cnf : olsrd_config :=
  {| ip_version := AF_INET6; mpr_coverage := 1; tc_redundancy := 2; lq_level := 0;
     use_hysteresis := true; lq_nat_thresh := @lq_nat_thresh sample_cnf; olsr_random := fun n => n;
     OLSR_RANDOM_MAX := 2147483647; hscaling := @hscaling sample_cnf; hhigh := @hhigh sample_cnf; hlow := @hlow sample_cnf |}.
#[local] Instance ipv6_ncf : node_config :=
  {| min_tc_vtime := S754_zero false; max_jitter := S754_zero false; max_tc_vtime := S754_zero false; lq_fish := 0 |}.
#[local] Existing Instance sample_lq.

Definition hello6 (l : list own_neighbor) : own_hello := {| oh_willingness := 3; oh_ttl := 1; oh_source_addr := 9; oh_neighbors := l |}.

(** 36 bytes are left: 28 for the message and 8 more. *)
Lemma queue_hello_exits_witness : queue_hello [] (hello6 []) 0 (sender 40 empty_state []) = None.
Proof.
  destruct (sender_ready 40 empty_state []) as (o & Hr & Hf & _); [lia|].
  apply (queue_hello_exits (cnf := ipv6_cnf) (hello6 []) 0 o [] _ eq_refl Hr). change (hdrsize + 4 <= full_room o < hdrsize + 8 + ip_len). rewrite Hf. split; vm_compute; [discriminate|reflexivity].
Defined.

Definition pending_neighbor : own_neighbor := {| on_status := NOT_NEIGH; on_link := HIDE_LINK; on_main_address := 17; on_address := 18 |}.

Lemma queue_hello_hidden_symmetric_witness :
  wp (queue_hello [] (hello6 [pending_neighbor]) 0) (fun _ n' => exists group : Z * list ip_addr, EXTRACT_STATUS (fst group) = SYM_NEIGH /\ 18 ∈ snd group) (sender 100 empty_state []).
Proof.
  destruct (sender_ready 100 empty_state []) as (o & Hr & Hf & _); [lia|].
  eapply wp_mono; [refine (queue_hello_hidden_symmetric (cnf := ipv6_cnf) (hello6 [pending_neighbor]) pending_neighbor 0 o [] _ eq_refl Hr _ _ _ eq_refl eq_refl)|].
  - rewrite Hf. vm_compute. discriminate.
  - intros _. change (hello_checked <= full_room o). rewrite Hf. vm_compute. discriminate.
  - left.
  - cbv beta. intros _ n' (parts & o' & q' & _ & part & g & _ & _ & H1 & H2). exists g. split; [exact H1|exact H2].
Defined.

End ipv6_witnesses.
