(* ===== verification/LqPacket.v ===== *)
(** * lq_packet.c: HELLO and TC messages with link quality

    A message under construction is its header and the bytes that follow. The buffer
    [msg_buffer] has 1500 bytes; a write past its end is [None], and so is a failed
    assertion, whose pointer is used next. *)

From S2P Require Import Prelude Timer Mantissa Avl IpAddr KeyTree State MidLookup NeighTable Interfaces Packet LsdbOps Lq RouteTable LinkSet Mpr MprSel MidSet Hello Node NetOlsr Hna TcInput BuildMsg GenMsg.

(** The header of a message, without its number. *)
Record olsr_common := {
  comm_type : Z;
  comm_vtime : Z;
  comm_orig : ip_addr;
  comm_ttl : Z;
  comm_hops : Z;
}.

Record lq_hello_neighbor := {
  lhn_link_type : Z;
  lhn_neigh_type : Z;
  lhn_addr : ip_addr;
  lhn_linkquality : list Z;
}.

Record lq_hello_message := {
  lh_comm : olsr_common;
  lh_htime : Z;
  lh_will : Z;
  lh_neigh : list lq_hello_neighbor;
}.

(** A neighbour of a TC message, [struct tc_mpr_addr]. *)
Record lq_tc_neighbor := {
  ltn_address : ip_addr;
  ltn_linkquality : list Z;
}.

Record lq_tc_message := {
  lt_comm : olsr_common;
  lt_ansn : Z;
  lt_neigh : list lq_tc_neighbor;
}.

Section lq_packet.
Context {cnf : olsrd_config} {ncf : node_config} {lqh : lq_handler}.
Variable ptf_list : list packet_transform_function.

(** ** What is announced *)

Definition neigh_find (l : list lq_hello_neighbor) (walker : link_entry) : option lq_hello_neighbor :=
  find (fun neigh => ipequal ip_version (lhn_addr neigh) (neighbor_iface_addr walker)) l.

(** The entry that [neigh_find] gives is overwritten. *)
Fixpoint neigh_set (entry : lq_hello_neighbor) (l : list lq_hello_neighbor) : list lq_hello_neighbor :=
  match l with
  | [] => []
  | n :: l => if ipequal ip_version (lhn_addr n) (lhn_addr entry) then entry :: l else n :: neigh_set entry l
  end.

Definition neigh_type (n : neighbor_entry) : Z :=
  if is_mpr n then MPR_NEIGH else if status n =? SYM then SYM_NEIGH else NOT_NEIGH.

Definition lq_hello_link (outif : interface_olsr) (l : list lq_hello_neighbor) (p : positive) : OM (list lq_hello_neighbor) :=
  let* walker := get_link p in
  let neigh := neigh_find l walker in
  let* link_type := if negb (ipequal ip_version (local_iface_addr walker) (if_ip_addr outif)) then ret UNSPEC_LINK
                    else lookup_link_status (Some p) in
  let set := match neigh with None => true | Some n => (lhn_link_type n =? UNSPEC_LINK) && negb (link_type =? UNSPEC_LINK) end in
  if negb set then ret l
  else
    let* nb := get_nbr (link_neighbor walker) in
    let entry := {| lhn_link_type := link_type; lhn_neigh_type := neigh_type nb; lhn_addr := neighbor_iface_addr walker;
                    lhn_linkquality := copy_link_lq_into_neigh (linkquality walker) |} in
    ret (match neigh with None => entry :: l | Some _ => neigh_set entry l end).

Definition create_lq_hello (o : out_interface) (will : Z) : OM lq_hello_message :=
  let* main := gets main_addr in
  let* links := OLSR_FOR_ALL_LINK_ENTRIES in
  let* l := foldM links [] (lq_hello_link (out_if o)) in
  ret {| lh_comm := {| comm_type := LQ_HELLO_MESSAGE; comm_vtime := me_to_reltime (vt_hello (valtimes o)); comm_orig := main;
                       comm_ttl := 1; comm_hops := 0 |};
         lh_htime := hello_etime o; lh_will := will; lh_neigh := l |}.

Definition ttl_list : list Z := [2; 8; 2; 16; 2; 8; 2; MAX_TTL].

(** The fish-eye: the TTL and the next index; a negative index stands for the full range. *)
Definition fish_eye (index : Z) : Z * Z :=
  let index := if Z.of_nat (length ttl_list) <=? index then 0 else index in
  (if 0 <=? index then nth (Z.to_nat index) ttl_list 0 else MAX_TTL, index + 1).

(** Insertion into the sorted list. *)
Fixpoint lq_tc_insert (neigh : lq_tc_neighbor) (l : list lq_tc_neighbor) : list lq_tc_neighbor :=
  match l with
  | [] => [neigh]
  | n :: l => if 0 <? avl_comp_default ip_version (ltn_address n) (ltn_address neigh) then neigh :: n :: l else n :: lq_tc_insert neigh l
  end.

Definition lq_tc_selected (n : neighbor_entry) : OM bool :=
  if negb (status n =? SYM) then ret false
  else
    let* mprs := olsr_lookup_mprs_set (neighbor_main_addr n) in
    let selector := match mprs with Some _ => true | None => false end in
    if (tc_redundancy =? 1) && negb (is_mpr n) && negb selector then ret false
    else if (tc_redundancy =? 0) && negb selector then ret false
    else ret true.

Definition lq_tc_neighbors : OM (list lq_tc_neighbor) :=
  let* ps := OLSR_FOR_ALL_NBR_ENTRIES in
  foldM ps [] (fun l p =>
    let* n := get_nbr p in
    let* sel := lq_tc_selected n in
    if negb sel then ret l
    else
      let* lnk := get_best_link_to_neighbor (neighbor_main_addr n) in
      match lnk with
      | None => ret l
      | Some q =>
          let* lnk := get_link q in
          if LINK_COST_BROKEN <=? linkcost lnk then ret l
          else ret (lq_tc_insert {| ltn_address := neighbor_main_addr n; ltn_linkquality := copy_link_lq_into_tc (linkquality lnk) |} l)
      end).

Definition create_lq_tc (ifn : nat) : NM lq_tc_message :=
  do* modify (set_lq_tc_pending true) in
  let* o := get_out ifn in
  let* main := gets (fun n => main_addr (core n)) in
  let* ttl :=
    if lq_fish >? 0 then
      let '(ttl, index) := fish_eye (ttl_index o) in
      do* upd_out ifn (set_ttl_index index) in ret ttl
    else ret MAX_TTL in
  let* ansn := lift get_local_ansn in
  let* l := lift lq_tc_neighbors in
  ret {| lt_comm := {| comm_type := LQ_TC_MESSAGE; comm_vtime := me_to_reltime (vt_tc (valtimes o)); comm_orig := main;
                       comm_ttl := ttl; comm_hops := 0 |};
         lt_ansn := ansn; lt_neigh := l |}.

(** ** Writing *)

Definition common_size : Z := hdrsize.

(** The header, for a message of [size] bytes; it takes the next number. *)
Definition serialize_common (comm : olsr_common) (size : Z) (body : list Z) : NM (list Z) :=
  let* seqno := get_msg_seqno in
  ret (message_bytes (comm_type comm) (reltime_to_me (comm_vtime comm)) (comm_orig comm) (comm_ttl comm) (comm_hops comm) body (u16 size) seqno).

Definition output_message (ifp : nat) (comm : olsr_common) (body : list Z) (size : Z) : NM unit :=
  let* msg := serialize_common comm size body in
  let* _ := net_outbuffer_push ifp msg (u16 size) in
  ret tt.

(** *** HELLO *)

(** An info header with the entries that follow it. *)
Definition close_info (info_head : option (Z * list Z)) : list Z :=
  match info_head with
  | Some (link_code, body) => [link_code; 0] ++ pkt_put_u16 [] (4 + Z.of_nat (length body)) ++ body
  | None => []
  end.

(** [lb_open] is the group that is being filled, [None] while [is_first] is set; [lb_started] tells whether [info_head] is set. *)
Record lq_hello_build := {
  lb_size : Z;
  lb_rem : Z;
  lb_closed : list Z;
  lb_open : option (Z * list Z);
  lb_started : bool;
}.

Definition lq_hello_off : Z := common_size + 4.

Definition lq_hello_body (m : lq_hello_message) (groups : list Z) : list Z :=
  [0; 0; reltime_to_me (lh_htime m); lh_will m] ++ groups.

Definition room_after (ifp : nat) (off : Z) : NM Z := let* left_ := net_outbuffer_bytes_left ifp in ret (left_ - off).

Definition lq_hello_entry (neigh : lq_hello_neighbor) : list Z :=
  ip_bytes (ipsize ip_version) (lhn_addr neigh) ++ serialize_hello_lq (lhn_linkquality neigh).

Definition lq_hello_add (m : lq_hello_message) (ifp : nat) (link_code : Z) (b : lq_hello_build) (neigh : lq_hello_neighbor) : NM lq_hello_build :=
  let req := ip_len + hello_lqdata_size + (match lb_open b with None => 4 | Some _ => 0 end) in
  let* b :=
    if lb_size b + req >? lb_rem b then
      if negb (lb_started b) then crash
      else
        do* output_message ifp (lh_comm m) (lq_hello_body m (lb_closed b ++ close_info (lb_open b))) (lb_size b + lq_hello_off) in
        let* _ := net_output ptf_list ifp in
        let* rem := room_after ifp lq_hello_off in
        ret {| lb_size := 0; lb_rem := rem; lb_closed := []; lb_open := None; lb_started := true |}
    else ret b in
  let '(size, (code, body)) := match lb_open b with None => (lb_size b + 4, (link_code, [])) | Some g => (lb_size b, g) end in
  let entry := lq_hello_entry neigh in
  let len := Z.of_nat (length entry) in
  do* in_msg_buffer (lq_hello_off + size) len in
  ret {| lb_size := size + len; lb_rem := lb_rem b; lb_closed := lb_closed b; lb_open := Some (code, body ++ entry); lb_started := true |}.

Definition lq_hello_members (m : lq_hello_message) (ij : Z * Z) : list lq_hello_neighbor :=
  filter (fun n => lhn_neigh_type n = fst ij /\ lhn_link_type n = snd ij) (lh_neigh m).

Definition lq_hello_group (m : lq_hello_message) (ifp : nat) (b : lq_hello_build) (ij : Z * Z) : NM lq_hello_build :=
  let* b := foldM (lq_hello_members m ij) b (lq_hello_add m ifp (CREATE_LINK_CODE (fst ij) (snd ij))) in
  ret {| lb_size := lb_size b; lb_rem := lb_rem b; lb_closed := lb_closed b ++ close_info (lb_open b); lb_open := None; lb_started := lb_started b |}.

(** All pairs of a neighbour type and a link type of [LINK_ORDER]. *)
Definition lq_hello_codes : list (Z * Z) :=
  concat (map (fun i => map (fun j => (Z.of_nat i, j)) HELLO_LINK_ORDER_ARRAY) (seq 0 (Z.to_nat (MAX_NEIGH + 1)))).

(** The size of the whole message, if something is pending before it. *)
Definition lq_hello_expected (m : lq_hello_message) (pending : Z) : Z :=
  if 0 <? pending then
    (ip_len + hello_lqdata_size) * Z.of_nat (length (lh_neigh m)) +
    4 * Z.of_nat (length (filter (fun ij => lq_hello_members m ij <> []) lq_hello_codes))
  else 0.

Definition make_room_after (ifp : nat) (off expected_size : Z) : NM Z :=
  let* rem := room_after ifp off in
  if rem <? expected_size then let* _ := net_output ptf_list ifp in room_after ifp off else ret rem.

Definition serialize_lq_hello (m : lq_hello_message) (ifp : nat) : NM unit :=
  let* pending := net_output_pending ifp in
  let* rem := make_room_after ifp lq_hello_off (lq_hello_expected m pending) in
  let* b := foldM lq_hello_codes {| lb_size := 0; lb_rem := rem; lb_closed := []; lb_open := None; lb_started := false |} (lq_hello_group m ifp) in
  output_message ifp (lh_comm m) (lq_hello_body m (lb_closed b)) (lb_size b + lq_hello_off).

Definition olsr_output_lq_hello (ifp : nat) : NM unit :=
  let* o := get_out ifp in
  let* will := gets own_willingness in
  let* lq_hello := lift (create_lq_hello o will) in
  do* serialize_lq_hello lq_hello ifp in
  let* pending := net_output_pending ifp in
  when (negb (pending =? 0))
    (if immediate_send_tc o then start_buffer_timer ifp else let* _ := net_output ptf_list ifp in ret tt).

(** *** TC *)

(** The first bit that differs, counted from the end of the address from 1; the loops are bounded by the address and the byte. *)
Fixpoint border_bit (bitpos : nat) (lower higher : Z) (k : nat) : Z :=
  match k with
  | O => Z.of_nat bitpos
  | S k => let bitmask := u8 (Z.shiftl 254 (Z.of_nat bitpos)) in
           if Z.land lower bitmask =? Z.land higher bitmask then Z.of_nat bitpos else border_bit (S bitpos) lower higher k
  end.

Fixpoint calculate_border_flag (lower higher : list Z) : Z :=
  match lower, higher with
  | l :: lower, h :: higher =>
      if l =? h then calculate_border_flag lower higher
      else u8 (u8 (border_bit 0 l h 8 + 8 * Z.of_nat (length lower)) + 1)
  | _, _ => 0
  end.

(** [tb_last] is [last_ip], the last address written. *)
Record lq_tc_build := {
  tb_size : Z;
  tb_rem : Z;
  tb_body : list Z;
  tb_last : option ip_addr;
  tb_left : Z;
}.

Definition lq_tc_off : Z := common_size + 4.

Definition lq_tc_body (m : lq_tc_message) (lower upper : Z) (edges : list Z) : list Z :=
  pkt_put_u16 [] (lt_ansn m) ++ [lower; upper] ++ edges.

Definition lq_tc_entry (neigh : lq_tc_neighbor) : list Z :=
  ip_bytes (ipsize ip_version) (ltn_address neigh) ++ serialize_tc_lq (ltn_linkquality neigh).

Definition lq_tc_add (m : lq_tc_message) (ifp : nat) (b : lq_tc_build) (neigh : lq_tc_neighbor) : NM lq_tc_build :=
  let* b :=
    if tb_size b + ip_len + tc_lqdata_size >? tb_rem b then
      match tb_last b with
      | None => crash
      | Some last_ip =>
          let upper := calculate_border_flag (ip_bytes (ipsize ip_version) last_ip) (ip_bytes (ipsize ip_version) (ltn_address neigh)) in
          do* output_message ifp (lt_comm m) (lq_tc_body m (tb_left b) upper (tb_body b)) (tb_size b + lq_tc_off) in
          let* _ := net_output ptf_list ifp in
          let* rem := room_after ifp lq_tc_off in
          ret {| tb_size := 0; tb_rem := rem; tb_body := []; tb_last := tb_last b; tb_left := upper |}
      end
    else ret b in
  let entry := lq_tc_entry neigh in
  let len := Z.of_nat (length entry) in
  do* in_msg_buffer (lq_tc_off + tb_size b) len in
  ret {| tb_size := tb_size b + len; tb_rem := tb_rem b; tb_body := tb_body b ++ entry; tb_last := Some (ltn_address neigh); tb_left := tb_left b |}.

Definition lq_tc_expected (m : lq_tc_message) (pending : Z) : Z :=
  if 0 <? pending then (ip_len + tc_lqdata_size) * Z.of_nat (length (lt_neigh m)) else 0.

Definition serialize_lq_tc (m : lq_tc_message) (ifp : nat) : NM unit :=
  let* pending := net_output_pending ifp in
  let* rem := make_room_after ifp lq_tc_off (lq_tc_expected m pending) in
  let* b := foldM (lt_neigh m) {| tb_size := 0; tb_rem := rem; tb_body := []; tb_last := None; tb_left := 255 |} (lq_tc_add m ifp) in
  output_message ifp (lt_comm m) (lq_tc_body m (tb_left b) 255 (tb_body b)) (tb_size b + lq_tc_off).

Definition olsr_output_lq_tc (ifp : nat) : NM unit :=
  let* lq_tc := create_lq_tc ifp in
  let* prev := gets prev_empty in
  do* (if negb (bool_decide (lt_neigh lq_tc = [])) then
         do* modify (set_prev_empty 0) in serialize_lq_tc lq_tc ifp
       else if prev =? 0 then
         do* start_empty_tc in
         do* modify (set_prev_empty 1) in
         serialize_lq_tc lq_tc ifp
       else
         let* now := gets (fun n => now_times (core n)) in
         let* timer := get_empty_tc_timer in
         when (negb (olsr_isTimedOut now timer)) (serialize_lq_tc lq_tc ifp)) in
  let* pending := net_output_pending ifp in
  let* o := get_out ifp in
  when (negb (pending =? 0))
    (if negb (immediate_send_tc o) then start_buffer_timer ifp else let* _ := net_output ptf_list ifp in ret tt).

End lq_packet.
