(* ===== verification/LqParts.v ===== *)
(** * Messages with link quality: their parts

    The borders of the parts of a TC message, and how TC and HELLO messages go out in
    parts. *)

From S2P Require Import Prelude Mantissa Timer Avl IpAddr KeyTree DupSet State NeighSpec Packet LsdbOps Lq TcSet TcSpec LinkSpec Hello HelloRead Node.
From S2P Require Import NetOlsr HnaSpec TcInput TcInputSpec NetSpec BuildMsg BuildProofs LqPacket.

Section border.

(** Two bytes that differ first in bit [r]. *)
Lemma border_bit_spec x y : is_u8 x -> is_u8 y -> x < y ->
  let r := border_bit 0 x y 8 in
  0 <= r <= 7 /\ x / 2 ^ (r + 1) = y / 2 ^ (r + 1) /\ x mod 2 ^ (r + 1) < 2 ^ r <= y mod 2 ^ (r + 1).
Proof.
  unfold is_u8. intros Hx Hy Hlt. cbv zeta.
  assert (negb (x <? y) || (let r := border_bit 0 x y 8 in (0 <=? r) && (r <=? 7) && (x / 2 ^ (r + 1) =? y / 2 ^ (r + 1)) &&
    (x mod 2 ^ (r + 1) <? 2 ^ r) && (2 ^ r <=? y mod 2 ^ (r + 1))) = true) as H.
  { apply (all_from2_spec 0 256 0 256 (fun x y => negb (x <? y) || (let r := border_bit 0 x y 8 in (0 <=? r) && (r <=? 7) && (x / 2 ^ (r + 1) =? y / 2 ^ (r + 1)) &&
    (x mod 2 ^ (r + 1) <? 2 ^ r) && (2 ^ r <=? y mod 2 ^ (r + 1))))); [vm_compute; reflexivity|lia|lia]. }
  cbv zeta in H. apply orb_true_iff in H as [H|H]; [apply negb_true_iff, Z.ltb_ge in H; lia|].
  rewrite !andb_true_iff in H. destruct H as ((((H1 & H2) & H3) & H4) & H5).
  apply Z.leb_le in H1, H2, H5. apply Z.eqb_eq in H3. apply Z.ltb_lt in H4. repeat split; auto; lia.
Qed.

(** The flag splits the two numbers: the bits above agree, the bit itself is set in the higher one only. *)
Definition parted (f a b : Z) : Prop := exists h l m, a = h * 2 ^ f + l /\ b = h * 2 ^ f + m /\ 0 <= l < 2 ^ (f - 1) /\ 2 ^ (f - 1) <= m < 2 ^ f.

Lemma border_flag_spec a b : (length a <= 16)%nat -> length b = length a -> Forall is_u8 a -> Forall is_u8 b -> be_val a < be_val b ->
  1 <= calculate_border_flag a b <= 8 * Z.of_nat (length a) /\ parted (calculate_border_flag a b) (be_val a) (be_val b).
Proof.
  intros Hlen Hl Ha Hb. revert b Hl Hb. induction Ha as [|x a Hx Ha IH]; intros [|y b] Hl Hb Hlt; simpl in Hl; try lia; try (simpl in Hlt; lia).
  apply Forall_cons in Hb as [Hy Hb]. injection Hl as Hl. simpl in Hlen. cbn [calculate_border_flag be_val length] in *.
  pose proof (be_val_bound a Ha) as Ba. pose proof (be_val_bound b Hb) as Bb. rewrite Hl in *. set (k := Z.of_nat (length a)) in *.
  assert (0 < 256 ^ k) as Hp by (apply Z.pow_pos_nonneg; lia). unfold is_u8 in Hx, Hy.
  destruct (Z.eqb_spec x y) as [->|Hne].
  - destruct (IH ltac:(lia) b Hl Hb ltac:(lia)) as [Hf (h & l & m & E1 & E2 & Hlm)]. split; [lia|].
    set (f := calculate_border_flag a b) in *. exists (y * 2 ^ (8 * k - f) + h), l, m.
    assert (256 ^ k = 2 ^ (8 * k - f) * 2 ^ f) as E by (rewrite <- Z.pow_add_r by lia; change 256 with (2 ^ 8); rewrite <- Z.pow_mul_r by lia; f_equal; lia).
    rewrite E1, E2, E. split; [ring|]. split; [ring|exact Hlm].
  - assert (x < y) as Hxy by nia. destruct (border_bit_spec x y Hx Hy Hxy) as (Hr & Hd & Hm). set (r := border_bit 0 x y 8) in *. fold k.
    assert (u8 (r + 8 * k) = r + 8 * k) as -> by (unfold u8; apply Z.mod_small; lia).
    assert (u8 (r + 8 * k + 1) = r + 8 * k + 1) as -> by (unfold u8; apply Z.mod_small; lia). split; [lia|].
    assert (2 ^ (r + 8 * k + 1) = 2 ^ (r + 1) * 256 ^ k) as E1 by (change 256 with (2 ^ 8); rewrite <- Z.pow_mul_r, <- Z.pow_add_r by lia; f_equal; lia).
    assert (2 ^ (r + 8 * k + 1 - 1) = 2 ^ r * 256 ^ k) as E2 by (change 256 with (2 ^ 8); rewrite <- Z.pow_mul_r, <- Z.pow_add_r by lia; f_equal; lia).
    exists (x / 2 ^ (r + 1)), (x mod 2 ^ (r + 1) * 256 ^ k + be_val a), (y mod 2 ^ (r + 1) * 256 ^ k + be_val b). rewrite E1, E2.
    assert (0 < 2 ^ (r + 1)) as Hp2 by (apply Z.pow_pos_nonneg; lia).
    pose proof (Z.div_mod x (2 ^ (r + 1)) ltac:(lia)) as Dx. pose proof (Z.div_mod y (2 ^ (r + 1)) ltac:(lia)) as Dy. rewrite <- Hd in Dy.
    pose proof (Z.mod_pos_bound x (2 ^ (r + 1)) Hp2) as Mx. pose proof (Z.mod_pos_bound y (2 ^ (r + 1)) Hp2) as My.
    set (q := x / 2 ^ (r + 1)) in *. set (u := x mod 2 ^ (r + 1)) in *. set (v := y mod 2 ^ (r + 1)) in *. set (w := 256 ^ k) in *. set (z := 2 ^ (r + 1)) in *.
    split; [rewrite Dx at 1; ring|]. split; [rewrite Dy at 1; ring|]. split; [split|split]; nia.
Qed.

Lemma parted_round f a b : 1 <= f -> parted f a b -> a / 2 ^ f = b / 2 ^ f /\ a < a / 2 ^ f * 2 ^ f + 2 ^ (f - 1) <= b.
Proof.
  intros Hf (h & l & m & -> & -> & Hl & Hm). assert (2 ^ (f - 1) < 2 ^ f) as Hlt by (apply Z.pow_lt_mono_r; lia).
  assert ((h * 2 ^ f + l) / 2 ^ f = h) as -> by (symmetry; apply Z.div_unique with l; lia).
  assert ((h * 2 ^ f + m) / 2 ^ f = h) as -> by (symmetry; apply Z.div_unique with m; lia). lia.
Qed.

Lemma be_val_inj a b : length a = length b -> Forall is_u8 a -> Forall is_u8 b -> be_val a = be_val b -> a = b.
Proof.
  intros Hl Ha. revert b Hl. induction Ha as [|x a Hx Ha IH]; intros [|y b] Hl Hb E; simpl in Hl; try lia; [done|]. apply Forall_cons in Hb as [Hy Hb].
  injection Hl as Hl. simpl in E. pose proof (be_val_bound a Ha) as Ba. pose proof (be_val_bound b Hb) as Bb. rewrite <- Hl in *.
  unfold is_u8 in *. assert (x = y) as -> by nia. f_equal. apply IH; [done..|]. lia.
Qed.

Lemma memcmp_be a b : length a = length b -> Forall is_u8 a -> Forall is_u8 b -> (memcmp a b < 0 <-> be_val a < be_val b) /\ (memcmp a b <= 0 <-> be_val a <= be_val b).
Proof.
  intros Hl Ha. revert b Hl. induction Ha as [|x a Hx Ha IH]; intros [|y b] Hl Hb; simpl in Hl; try lia; [simpl; lia|]. apply Forall_cons in Hb as [Hy Hb].
  injection Hl as Hl. cbn [memcmp be_val]. pose proof (be_val_bound a Ha) as Ba. pose proof (be_val_bound b Hb) as Bb. rewrite <- Hl in *.
  specialize (IH b Hl Hb). unfold is_u8 in *. destruct (Z.eqb_spec x y) as [->|Hne]; [lia|]. split; split; intros H; nia.
Qed.

Lemma u8_lor a b : is_u8 a -> is_u8 b -> is_u8 (Z.lor a b).
Proof.
  unfold is_u8. intros Ha Hb.
  assert ((0 <=? Z.lor a b) && (Z.lor a b <? 256) = true) as H.
  { apply (all_from2_spec 0 256 0 256 (fun a b => (0 <=? Z.lor a b) && (Z.lor a b <? 256))); [vm_compute; reflexivity|lia|lia]. }
  apply andb_true_iff in H as [H1%Z.leb_le H2%Z.ltb_lt]. lia.
Qed.

Lemma u8_land a b : is_u8 a -> is_u8 b -> is_u8 (Z.land a b).
Proof.
  unfold is_u8. intros Ha Hb.
  assert ((0 <=? Z.land a b) && (Z.land a b <? 256) = true) as H.
  { apply (all_from2_spec 0 256 0 256 (fun a b => (0 <=? Z.land a b) && (Z.land a b <? 256))); [vm_compute; reflexivity|lia|lia]. }
  apply andb_true_iff in H as [H1%Z.leb_le H2%Z.ltb_lt]. lia.
Qed.

Lemma tc_border_u8 f fill l l' : is_u8 fill -> Forall is_u8 l -> tc_border f fill l = Some l' -> Forall is_u8 l'.
Proof.
  intros Hf Hl. unfold tc_border. destruct (f =? 255); [intros [= <-]; by apply Forall_replicate|].
  set (k := Z.to_nat (u8 (f - 1) / 8)). destruct (length l <=? k)%nat; [done|]. cbv zeta.
  assert (Forall is_u8 (clear_low_bytes k l)) as Hc.
  { unfold clear_low_bytes. apply Forall_app. split; [by apply Forall_take|]. apply Forall_replicate. unfold is_u8; lia. }
  destruct (clear_low_bytes k l !! _) as [x|] eqn:Hx; [|done]. cbn [mbind option_bind]. intros [= <-]. apply Forall_insert; [done|].
  rewrite Forall_lookup in Hc. apply u8_lor; [apply u8_land|]; [by eapply Hc|unfold u8, is_u8; apply Z.mod_pos_bound; lia..].
Qed.

(** Both receivers get the same border, above the one address and not above the other. *)
Lemma borders_agree a b fill fill' : (length a <= 16)%nat -> length b = length a -> Forall is_u8 a -> Forall is_u8 b -> be_val a < be_val b -> is_u8 fill -> is_u8 fill' ->
  exists l, tc_border (calculate_border_flag a b) fill a = Some l /\ tc_border (calculate_border_flag a b) fill' b = Some l /\
    length l = length a /\ Forall is_u8 l /\ be_val a < be_val l <= be_val b.
Proof.
  intros Hlen Hl Ha Hb Hlt Hfill Hfill'. destruct (border_flag_spec a b Hlen Hl Ha Hb Hlt) as [Hf Hp]. set (f := calculate_border_flag a b) in *.
  destruct (tc_border_some f fill a Hlen Ha Hf) as (l & E1 & L1 & V1). destruct (tc_border_some f fill' b ltac:(lia) Hb ltac:(lia)) as (l' & E2 & L2 & V2).
  destruct (parted_round f _ _ ltac:(lia) Hp) as [Hq Hab]. pose proof (tc_border_u8 _ _ _ _ Hfill Ha E1) as U1. pose proof (tc_border_u8 _ _ _ _ Hfill' Hb E2) as U2.
  exists l. split; [done|]. split; [|split; [done|split; [done|lia]]]. rewrite E2. f_equal.
  apply be_val_inj; [lia|done|done|]. rewrite V1, V2. by rewrite Hq.
Qed.

Lemma ip_bytes_u8 n a : Forall is_u8 (ip_bytes n a).
Proof.
  unfold ip_bytes. apply Forall_fmap, Forall_true. intros i. unfold compose, ip_byte, is_u8. change 255 with (Z.ones 8). rewrite Z.land_ones by lia.
  apply Z.mod_pos_bound. lia.
Qed.

Lemma ip_bytes_of l : Forall is_u8 l -> ip_bytes (length l) (ip_of_bytes l) = l.
Proof.
  induction 1 as [|b l Hb Hl IH]; [done|]. cbn [length]. rewrite ip_bytes_S. change (ip_of_bytes (b :: l)) with (b + 256 * ip_of_bytes l). unfold is_u8 in Hb.
  f_equal.
  - change 255 with (Z.ones 8). rewrite Z.land_ones by lia. change (2 ^ 8) with 256. rewrite Z.mul_comm, Z_mod_plus_full. apply Z.mod_small. lia.
  - rewrite Z.shiftr_div_pow2 by lia. change (2 ^ 8) with 256. rewrite Z.mul_comm, Z.div_add by lia. by rewrite Z.div_small by lia.
Qed.

End border.

Section lq_output.
Context {cnf : olsrd_config} {ncf : node_config} {lqh : lq_handler}.

Lemma output_message_eq i comm body size n :
  output_message i comm body size n =
  push_message i (message_bytes (comm_type comm) (reltime_to_me (comm_vtime comm)) (comm_orig comm) (comm_ttl comm) (comm_hops comm) body) (u16 size) n.
Proof. unfold output_message, push_message, serialize_common, bind. by destruct (get_msg_seqno n) as [[s n1]|]. Qed.

Lemma wp_output_message i comm body size o q n :
  ready i o q n -> size = hdrsize + Z.of_nat (length body) -> size < 65536 -> Z.of_nat (length q) + size <= maxsize (netbuf o) ->
  wp (output_message i comm body size) (fun _ n' => exists o' q', emitted i
    [message_bytes (comm_type comm) (reltime_to_me (comm_vtime comm)) (comm_orig comm) (comm_ttl comm) (comm_hops comm) body size (message_seqno n)] o q n o' q' n') n.
Proof.
  intros Hr Hs Hlt Hroom. assert (0 <= hdrsize) as Hh by (unfold hdrsize; destruct ip_version; lia).
  assert (u16 size = size) as E by (apply u16_small; unfold is_u16; lia). unfold wp. rewrite output_message_eq, E.
  eapply wp_mono; [apply (wp_push_message i _ size o q n Hr); [|exact Hroom]; intros s; by rewrite Hs at 2; rewrite length_message|]. cbv beta. intros _ n' (o' & q' & He & _). by exists o', q'.
Qed.

Lemma wp_room_after i off o q n (Q : Z -> node -> Prop) : ready i o q n -> Q (room o q - off) n -> wp (room_after i off) Q n.
Proof.
  intros Hr HQ. unfold room_after, net_outbuffer_bytes_left. wp_step. wp_step. eapply wp_get_out; [apply Hr|]. cbv zeta. wp_steps.
  rewrite <- (holds_length _ _ (rd_holds _ _ _ _ Hr)).
  match goal with |- Q (?x - off) n => replace x with (room o q); [done|] end. unfold room, MAX_REMAINING.
  rewrite Z.gtb_ltb. destruct (Z.ltb_spec (1280 - 40 - 8 - 4) (maxsize (netbuf o) - Z.of_nat (length q))); lia.
Qed.

Lemma wp_output_pending i o q n (Q : Z -> node -> Prop) : ready i o q n -> Q (Z.of_nat (length q)) n -> wp (net_output_pending i) Q n.
Proof.
  intros Hr HQ. unfold net_output_pending. wp_step. eapply wp_get_out; [apply Hr|]. wp_step.
  rewrite <- (holds_length _ _ (rd_holds _ _ _ _ Hr)), u16_small; [done|]. pose proof (rd_room _ _ _ _ Hr). unfold is_u16. lia.
Qed.

(** The room afterwards: that of an empty buffer, or enough for the whole message. *)
Lemma wp_make_room_after i off expected o q n :
  ready i o q n -> (q = [] -> expected <= full_room o - off) ->
  wp (make_room_after [] i off expected) (fun r n' => exists o' q', emitted i [] o q n o' q' n' /\ r = room o' q' - off /\
    (r = full_room o - off \/ q <> [] /\ expected <= r)) n.
Proof.
  intros Hr Hq. unfold make_room_after. wp_step. eapply wp_room_after; [done|]. destruct (Z.ltb_spec (room o q - off) expected) as [Hlt|Hle].
  - wp_step. eapply wp_mono; [by apply wp_output|]. cbv beta. intros _ n' (o' & He). eapply wp_room_after; [apply He|].
    exists o', []. split; [done|]. fold (full_room o'). rewrite (full_room_limits _ _ (em_limits _ _ _ _ _ _ _ _ He)). split; [done|by left].
  - wp_step. exists o, q. split; [by apply emitted_refl|]. split; [done|]. destruct q as [|x q]; [by left|by right].
Qed.

Lemma max_room o : full_room o <= 1228.
Proof. unfold full_room, room, MAX_REMAINING. lia. Qed.

Lemma room_max o q : room o q <= maxsize (netbuf o) - Z.of_nat (length q).
Proof. unfold room. lia. Qed.

End lq_output.

(** ** The parts of a message *)

Record lq_part := {
  lp_lower : Z;
  lp_neigh : list lq_tc_neighbor;
  lp_upper : Z;
}.

Section lq_tc.
Context {cnf : olsrd_config} {ncf : node_config} {lqh : lq_handler} {lqs : lq_sizes lqh}.

(** The flag between two parts is that of the addresses next to it. *)
Definition joined (x y : lq_part) : Prop :=
  lp_upper x = lp_lower y /\ exists a b, last (lp_neigh x) = Some a /\ head (lp_neigh y) = Some b /\
    lp_upper x = calculate_border_flag (ip_bytes (ipsize ip_version) (ltn_address a)) (ip_bytes (ipsize ip_version) (ltn_address b)).

Definition chain (ps : list lq_part) : Prop := forall k x y, ps !! k = Some x -> ps !! S k = Some y -> joined x y.

Lemma chain_one x : chain [x].
Proof. intros k y z. destruct k; simpl; done. Qed.

Lemma chain_snoc ps x y : chain (ps ++ [x]) -> joined x y -> chain ((ps ++ [x]) ++ [y]).
Proof.
  intros Hc Hj k a b Ha Hb. apply lookup_app_Some in Hb as [Hb|[Hk Hb]].
  - rewrite lookup_app_l in Ha by (apply lookup_lt_Some in Hb; lia). by eapply Hc.
  - apply list_lookup_singleton_Some in Hb as [E <-]. rewrite length_app in Hk, E. simpl in Hk, E.
    assert (k = length ps + 0)%nat as -> by lia. rewrite <- app_assoc, lookup_app_r, Nat.add_0_r, Nat.sub_diag in Ha by lia. by injection Ha as <-.
Qed.

Lemma chain_ext ps x x' : chain (ps ++ [x]) -> lp_lower x' = lp_lower x -> head (lp_neigh x') = head (lp_neigh x) -> chain (ps ++ [x']).
Proof.
  intros Hc El Eh k a b Ha Hb. apply lookup_app_Some in Hb as [Hb|[Hk Hb]].
  - rewrite lookup_app_l in Ha by (apply lookup_lt_Some in Hb; lia). eapply (Hc k a b); by apply lookup_app_l_Some.
  - apply list_lookup_singleton_Some in Hb as [E <-]. assert (a ∈ ps /\ (ps ++ [x]) !! k = Some a) as [_ Ha'].
    { rewrite lookup_app_l in Ha by lia. split; [by eapply list_elem_of_lookup_2|by apply lookup_app_l_Some]. }
    assert ((ps ++ [x]) !! S k = Some x) as Hx by (rewrite lookup_app_r by lia; by rewrite E).
    destruct (Hc k a x Ha' Hx) as (J1 & u & v & J2 & J3 & J4). split; [congruence|]. exists u, v. split; [done|]. split; [congruence|done].
Qed.

Record lq_tc_parts (l : list lq_tc_neighbor) (ps : list lq_part) : Prop := {
  ltp_all : concat (map lp_neigh ps) = l;
  ltp_first : lp_lower <$> head ps = Some 255;
  ltp_last : lp_upper <$> last ps = Some 255;
  ltp_chain : chain ps;
}.

Definition tc_entry_size : Z := ip_len + tc_lqdata_size.

Lemma length_tc_entry x : Z.of_nat (length (lq_tc_entry x)) = tc_entry_size.
Proof. unfold lq_tc_entry, tc_entry_size. rewrite length_app, Nat2Z.inj_add, tc_lqdata_length, length_ip_bytes. done. Qed.

Lemma tc_entry_size_pos : 0 < tc_entry_size.
Proof.
  pose proof (tc_lqdata_length []) as H. unfold tc_entry_size, ip_len, ipsize. destruct ip_version; lia.
Qed.

Lemma length_tc_entries l : Z.of_nat (length (concat (map lq_tc_entry l))) = tc_entry_size * Z.of_nat (length l).
Proof. induction l as [|x l IH]; simpl; [lia|]. rewrite length_app, Nat2Z.inj_add, length_tc_entry, IH. lia. Qed.

Section building.
Context (i : nat) (m : lq_tc_message) (o0 : out_interface) (q0 : list Z) (n0 : node).
Let hdr : Z := lq_tc_off.

Definition lq_tc_part_msg (p : lq_part) (s : Z) : list Z :=
  let c := lt_comm m in
  message_bytes (comm_type c) (reltime_to_me (comm_vtime c)) (comm_orig c) (comm_ttl c) (comm_hops c)
    (lq_tc_body m (lp_lower p) (lp_upper p) (concat (map lq_tc_entry (lp_neigh p)))) (lq_tc_off + tc_entry_size * Z.of_nat (length (lp_neigh p))) s.

Definition part_of (lower : Z) (cur : list lq_tc_neighbor) (upper : Z) : lq_part := {| lp_lower := lower; lp_neigh := cur; lp_upper := upper |}.

(** [done_] were sent, [cur] is in the message under construction. *)
Record lq_tc_building (done_ : list lq_part) (cur : list lq_tc_neighbor) (b : lq_tc_build) (n : node) : Prop := {
  tu_emitted : exists o q, emitted i (numbered lq_tc_part_msg (message_seqno n0) done_) o0 q0 n0 o q n /\ tb_rem b = room o q - hdr;
  tu_body : tb_body b = concat (map lq_tc_entry cur);
  tu_size : tb_size b = tc_entry_size * Z.of_nat (length cur);
  tu_fits : tb_size b <= tb_rem b;
  tu_last : tb_last b = ltn_address <$> last cur;
  tu_empty : cur = [] -> done_ = [];
  tu_first : lp_lower <$> head (done_ ++ [part_of (tb_left b) cur 255]) = Some 255;
  tu_parts : Forall (fun p => lq_tc_off + tc_entry_size * Z.of_nat (length (lp_neigh p)) <= full_room o0) done_;
  tu_chain : forall u, chain (done_ ++ [part_of (tb_left b) cur u]);
}.

Lemma wp_push_part done_ cur b n u o q :
  lq_tc_building done_ cur b n -> emitted i (numbered lq_tc_part_msg (message_seqno n0) done_) o0 q0 n0 o q n -> tb_rem b = room o q - hdr ->
  wp (output_message i (lt_comm m) (lq_tc_body m (tb_left b) u (tb_body b)) (tb_size b + hdr)) (fun _ n' => exists o' q',
    emitted i (numbered lq_tc_part_msg (message_seqno n0) (done_ ++ [part_of (tb_left b) cur u])) o0 q0 n0 o' q' n') n.
Proof.
  intros [_ B1 B2 B3 _ _ _ _ _] He Er. pose proof (room_max o q) as Hm. pose proof (room_full o q) as Hf. pose proof (max_room o) as Hx.
  assert (length (lq_tc_body m (tb_left b) u (tb_body b)) = 4 + length (tb_body b))%nat as Hl by (unfold lq_tc_body; by rewrite !length_app).
  assert (hdr = hdrsize + 4) as Hhd by done.
  eapply wp_mono; [apply (wp_output_message i _ _ _ o q n (em_ready _ _ _ _ _ _ _ _ He))|].
  - rewrite Hl, B1, Nat2Z.inj_add, length_tc_entries, B2. lia.
  - lia.
  - lia.
  - cbv beta. intros _ n' (o' & q' & He'). exists o', q'. pose proof (emitted_trans _ _ _ _ _ _ _ _ _ _ _ _ He He') as Ht.
    rewrite numbered_snoc, <- (length_numbered lq_tc_part_msg (message_seqno n0) done_), <- (em_seqno _ _ _ _ _ _ _ _ He).
    unfold lq_tc_part_msg at 2. cbn [lp_lower lp_neigh lp_upper part_of]. rewrite B1, B2 in Ht.
    by rewrite (Z.add_comm lq_tc_off).
Qed.

Lemma wp_lq_tc_add done_ cur b n x :
  lq_tc_building done_ cur b n -> (cur = [] -> tc_entry_size <= tb_rem b) -> hdr + tc_entry_size <= full_room o0 ->
  wp (lq_tc_add [] m i b x) (fun b' n' => exists done' cur', lq_tc_building done' cur' b' n' /\ cur' <> [] /\
    concat (map lp_neigh done') ++ cur' = (concat (map lp_neigh done_) ++ cur) ++ [x]) n.
Proof.
  intros Hb Hfirst Hroom. pose proof Hb as [(o & q & He & Er) B1 B2 B3 B4 B5 B6 Bp B7]. pose proof tc_entry_size_pos as Hes.
  assert (0 <= hdr) as Hh by (unfold hdr, lq_tc_off, common_size, hdrsize; destruct ip_version; lia).
  assert (forall done' cur' b1 n1, (exists o q, emitted i (numbered lq_tc_part_msg (message_seqno n0) done') o0 q0 n0 o q n1 /\ tb_rem b1 = room o q - hdr) ->
    tb_body b1 = concat (map lq_tc_entry cur') -> tb_size b1 = tc_entry_size * Z.of_nat (length cur') -> tb_size b1 + tc_entry_size <= tb_rem b1 ->
    lp_lower <$> head (done' ++ [part_of (tb_left b1) (cur' ++ [x]) 255]) = Some 255 ->
    (forall u, chain (done' ++ [part_of (tb_left b1) (cur' ++ [x]) u])) ->
    Forall (fun p => lq_tc_off + tc_entry_size * Z.of_nat (length (lp_neigh p)) <= full_room o0) done' ->
    concat (map lp_neigh done') ++ cur' = concat (map lp_neigh done_) ++ cur ->
    wp (do* in_msg_buffer (lq_tc_off + tb_size b1) (Z.of_nat (length (lq_tc_entry x))) in
        ret {| tb_size := tb_size b1 + Z.of_nat (length (lq_tc_entry x)); tb_rem := tb_rem b1; tb_body := tb_body b1 ++ lq_tc_entry x;
               tb_last := Some (ltn_address x); tb_left := tb_left b1 |})
      (fun b' n' => exists done' cur', lq_tc_building done' cur' b' n' /\ cur' <> [] /\
        concat (map lp_neigh done') ++ cur' = (concat (map lp_neigh done_) ++ cur) ++ [x]) n1) as Hend.
  { intros done' cur' b1 n1 (o1 & q1 & He1 & Er1) E1 E2 E3 E4 E5 Ep E6. rewrite length_tc_entry.
    pose proof (room_full o1 q1) as Hf. pose proof (max_room o1) as Hx. unfold in_msg_buffer, MSG_BUFFER_SIZE. fold hdr.
    assert (hdr + tb_size b1 + tc_entry_size >? 1500 = false) as -> by (rewrite Z.gtb_ltb; apply Z.ltb_ge; lia).
    apply wp_bind, wp_ret, wp_ret. exists done', (cur' ++ [x]). split; [|split; [by destruct cur'|by rewrite app_assoc, E6]].
    split; cbn [tb_size tb_rem tb_body tb_last tb_left]; [by exists o1, q1| | | | | |done|done|done].
    - rewrite E1, map_app, concat_app. simpl. by rewrite app_nil_r.
    - rewrite length_app. simpl. lia.
    - lia.
    - by rewrite last_snoc.
    - by destruct cur'. }
  unfold lq_tc_add. wp_step. assert (tb_size b + ip_len + tc_lqdata_size = tb_size b + tc_entry_size) as -> by (unfold tc_entry_size; lia).
  destruct (tb_size b + tc_entry_size >? tb_rem b) eqn:E.
  - rewrite Z.gtb_ltb in E. apply Z.ltb_lt in E. rewrite B4. destruct (last cur) as [y|] eqn:Ey; cbn [fmap option_fmap option_map].
    + set (upper := calculate_border_flag _ _). fold hdr.
      wp_step. eapply wp_mono; [by eapply (wp_push_part done_ cur b n upper)|]. cbv beta. intros _ n1 (o1 & q1 & He1).
      wp_step. eapply wp_mono; [apply wp_output, He1|]. cbv beta. intros _ n2 (o2 & He2).
      pose proof (emitted_trans _ _ _ _ _ _ _ _ _ _ _ _ He1 He2) as Ht. rewrite app_nil_r in Ht.
      wp_step. eapply wp_room_after; [apply He2|]. fold (full_room o2). rewrite (full_room_limits _ _ (em_limits _ _ _ _ _ _ _ _ Ht)).
      apply wp_ret. cbv zeta.
      refine (Hend (done_ ++ [part_of (tb_left b) cur upper]) [] {| tb_size := 0; tb_rem := full_room o0 - hdr; tb_body := []; tb_last := Some (ltn_address y); tb_left := upper |} n2 _ _ _ _ _ _ _ _);
        cbn [tb_size tb_rem tb_body tb_left app].
      * exists o2, []. split; [done|]. fold (full_room o2). by rewrite (full_room_limits _ _ (em_limits _ _ _ _ _ _ _ _ Ht)).
      * done.
      * simpl. lia.
      * lia.
      * rewrite <- app_assoc. destruct done_; [done|exact B6].
      * intros u. apply chain_snoc; [apply B7|]. split; [done|]. by exists y, x.
      * apply Forall_app. split; [done|]. apply Forall_singleton. cbn [lp_neigh part_of]. fold hdr. rewrite <- B2. pose proof (room_full o q) as Hf.
        rewrite (full_room_limits _ _ (em_limits _ _ _ _ _ _ _ _ He)) in Hf. lia.
      * rewrite map_app, concat_app. simpl. by rewrite !app_nil_r.
    + apply last_None in Ey. subst cur. specialize (Hfirst eq_refl). rewrite B2 in E. simpl in E. lia.
  - rewrite Z.gtb_ltb in E. apply Z.ltb_ge in E. apply wp_ret. cbv zeta. apply (Hend done_ cur b n); try done; [by exists o, q| |].
    + destruct done_; [done|exact B6].
    + intros u. destruct cur as [|y cur]; [rewrite (B5 eq_refl); apply chain_one|]. by eapply chain_ext; [apply (B7 u)|..].
Qed.

End building.

Lemma wp_serialize_lq_tc m i o q n :
  ready i o q n -> lq_tc_off + tc_entry_size <= full_room o ->
  wp (serialize_lq_tc [] m i) (fun _ n' => exists ps o' q', emitted i (numbered (lq_tc_part_msg m) (message_seqno n) ps) o q n o' q' n' /\
    lq_tc_parts (lt_neigh m) ps /\ Forall (fun p => lq_tc_off + tc_entry_size * Z.of_nat (length (lp_neigh p)) <= full_room o) ps) n.
Proof.
  intros Hr Hroom. pose proof tc_entry_size_pos as Hes. unfold serialize_lq_tc. wp_step. eapply wp_output_pending; [done|]. wp_step.
  eapply wp_mono; [apply (wp_make_room_after i lq_tc_off _ o q n Hr)|].
  { intros ->. unfold lq_tc_expected. simpl. lia. }
  cbv beta. intros r n1 (o1 & q1 & He1 & Er & Hrm). wp_step.
  assert (0 <= r /\ (lt_neigh m <> [] -> tc_entry_size <= r)) as [Hr0 Hr1].
  { destruct Hrm as [->|[Hq Hle]]; [lia|]. unfold lq_tc_expected in Hle. fold tc_entry_size in Hle.
    assert (0 <? Z.of_nat (length q) = true) as E by (apply Z.ltb_lt; destruct q; [done|simpl; lia]). rewrite E in Hle.
    split; [nia|]. intros Hne. destruct (lt_neigh m); [done|]. simpl length in Hle. nia. }
  apply (wp_foldM _ _ _ (fun (rest : list lq_tc_neighbor) b n' => exists (done_ : list lq_part) (cur : list lq_tc_neighbor), lq_tc_building i m o q n done_ cur b n' /\ concat (map lp_neigh done_) ++ cur ++ rest = lt_neigh m /\ (cur = [] -> rest <> [] -> tc_entry_size <= tb_rem b))).
  - exists [], []. split; [|split; [done|intros _; exact Hr1]].
    split; cbn [tb_size tb_rem tb_body tb_last tb_left]; [by exists o1, q1|done|simpl; lia|done|done|done|done|constructor|intros u; apply chain_one].
  - intros x rest b n' (dn & cur & Hb & Hc & Hf). eapply wp_mono; [apply (wp_lq_tc_add i m o q n dn cur b n' x Hb); [by intros ->; apply Hf|done]|].
    cbv beta. intros b' n2 (dn' & cur' & Hb' & Hne & Hc'). exists dn', cur'. split; [done|]. split; [|by intros ->].
    rewrite app_assoc, Hc', <- Hc, <- !app_assoc. done.
  - intros b n' (dn & cur & Hb & Hc & _). rewrite app_nil_r in Hc. pose proof Hb as [(o2 & q2 & He2 & Er2) B1 B2 B3 B4 B5 B6 Bp B7].
    eapply wp_mono; [by eapply (wp_push_part i m o q n dn cur b n' 255)|]. cbv beta. intros _ n3 (o3 & q3 & He3).
    exists (dn ++ [part_of (tb_left b) cur 255]), o3, q3. split; [done|]. split; [|].
    + split; [|done| |apply B7]; [rewrite map_app, concat_app; simpl; by rewrite app_nil_r|by rewrite last_snoc].
    + apply Forall_app. split; [exact Bp|]. apply Forall_singleton. cbn [lp_neigh part_of]. rewrite <- B2. pose proof (room_full o2 q2) as Hf2.
      rewrite (full_room_limits _ _ (em_limits _ _ _ _ _ _ _ _ He2)) in Hf2. lia.
Qed.

End lq_tc.

Section lq_hello.
Context {cnf : olsrd_config} {ncf : node_config} {lqh : lq_handler} {lqs : lq_sizes lqh}.

Notation group := (Z * list lq_hello_neighbor)%type.

Definition hello_entry_size : Z := ip_len + hello_lqdata_size.

Lemma length_hello_entry x : Z.of_nat (length (lq_hello_entry x)) = hello_entry_size.
Proof. unfold lq_hello_entry, hello_entry_size. rewrite length_app, Nat2Z.inj_add, hello_lqdata_length, length_ip_bytes. done. Qed.

Lemma hello_entry_size_pos : 0 < hello_entry_size.
Proof. pose proof (hello_lqdata_length []) as H. unfold hello_entry_size, ip_len, ipsize. destruct ip_version; lia. Qed.

Definition entries (l : list lq_hello_neighbor) : list Z := concat (map lq_hello_entry l).
Definition info_of (g : group) : Z * list Z := (fst g, entries (snd g)).
Definition info_bytes (groups : list group) : list Z := concat (map (fun g => close_info (Some (info_of g))) groups).
Definition open_of (og : option group) : list group := match og with Some g => [g] | None => [] end.

(** The neighbours of a list of groups, with their codes. *)
Definition spread (groups : list group) : list (Z * lq_hello_neighbor) := concat (map (fun g => map (pair (fst g)) (snd g)) groups).

Lemma entries_snoc l x : entries (l ++ [x]) = entries l ++ lq_hello_entry x.
Proof. unfold entries. rewrite map_app, concat_app. simpl. by rewrite app_nil_r. Qed.

Lemma info_bytes_app g1 g2 : info_bytes (g1 ++ g2) = info_bytes g1 ++ info_bytes g2.
Proof. unfold info_bytes. by rewrite map_app, concat_app. Qed.

Lemma info_bytes_open og : info_bytes (open_of og) = close_info (info_of <$> og).
Proof. destruct og as [g|]; [|done]. unfold info_bytes. cbn [open_of map concat]. by rewrite app_nil_r. Qed.

Lemma length_close_info c l : Z.of_nat (length (close_info (Some (c, l)))) = 4 + Z.of_nat (length l).
Proof. unfold close_info. rewrite !length_app. simpl. lia. Qed.

Lemma spread_app g1 g2 : spread (g1 ++ g2) = spread g1 ++ spread g2.
Proof. unfold spread. by rewrite map_app, concat_app. Qed.

Lemma spread_one g : spread [g] = map (pair (fst g)) (snd g).
Proof. unfold spread. simpl. by rewrite app_nil_r. Qed.

Section building.
Context (i : nat) (m : lq_hello_message) (o0 : out_interface) (q0 : list Z) (n0 : node).
Let hdr : Z := lq_hello_off.

Definition lq_hello_part_msg (groups : list group) (s : Z) : list Z :=
  let c := lh_comm m in
  message_bytes (comm_type c) (reltime_to_me (comm_vtime c)) (comm_orig c) (comm_ttl c) (comm_hops c)
    (lq_hello_body m (info_bytes groups)) (lq_hello_off + Z.of_nat (length (info_bytes groups))) s.

(** [parts] were sent, the closed groups [cur] and the open one are in the message under construction. *)
Record lq_hello_building (parts : list (list group)) (cur : list group) (og : option group) (b : lq_hello_build) (n : node) : Prop := {
  hv_emitted : exists o q, emitted i (numbered lq_hello_part_msg (message_seqno n0) parts) o0 q0 n0 o q n /\ lb_rem b = room o q - hdr;
  hv_closed : lb_closed b = info_bytes cur;
  hv_open : lb_open b = info_of <$> og;
  hv_size : lb_size b = Z.of_nat (length (info_bytes (cur ++ open_of og)));
  hv_fits : lb_size b <= lb_rem b;
  hv_start : lb_started b = false -> parts = [] /\ cur = [] /\ og = None;
  hv_parts : Forall (fun part => hdr + Z.of_nat (length (info_bytes part)) <= full_room o0) parts;
}.

Definition hello_so_far (parts : list (list group)) (cur : list group) (og : option group) : list (Z * lq_hello_neighbor) :=
  spread (concat parts ++ cur ++ open_of og).

Lemma wp_push_hello_part parts cur og b n o q :
  lq_hello_building parts cur og b n -> emitted i (numbered lq_hello_part_msg (message_seqno n0) parts) o0 q0 n0 o q n -> lb_rem b = room o q - hdr ->
  wp (output_message i (lh_comm m) (lq_hello_body m (lb_closed b ++ close_info (lb_open b))) (lb_size b + hdr)) (fun _ n' => exists o' q',
    emitted i (numbered lq_hello_part_msg (message_seqno n0) (parts ++ [cur ++ open_of og])) o0 q0 n0 o' q' n') n.
Proof.
  intros [_ B2 B3 B4 B5 _ _] He Er. pose proof (room_max o q) as Hm. pose proof (room_full o q) as Hf. pose proof (max_room o) as Hx.
  assert (lb_closed b ++ close_info (lb_open b) = info_bytes (cur ++ open_of og)) as -> by (by rewrite info_bytes_app, info_bytes_open, B2, B3).
  assert (length (lq_hello_body m (info_bytes (cur ++ open_of og))) = 4 + length (info_bytes (cur ++ open_of og)))%nat as Hl by (unfold lq_hello_body; by rewrite !length_app).
  assert (hdr = hdrsize + 4) as Hhd by done.
  eapply wp_mono; [apply (wp_output_message i _ _ _ o q n (em_ready _ _ _ _ _ _ _ _ He))|].
  - rewrite Hl, Nat2Z.inj_add, B4. lia.
  - lia.
  - lia.
  - cbv beta. intros _ n' (o' & q' & He'). exists o', q'. pose proof (emitted_trans _ _ _ _ _ _ _ _ _ _ _ _ He He') as Ht.
    rewrite numbered_snoc, <- (length_numbered lq_hello_part_msg (message_seqno n0) parts), <- (em_seqno _ _ _ _ _ _ _ _ He).
    unfold lq_hello_part_msg at 2. rewrite B4 in Ht. by rewrite (Z.add_comm lq_hello_off).
Qed.

Lemma wp_lq_hello_add parts cur og b n code x :
  lq_hello_building parts cur og b n -> (forall g, og = Some g -> fst g = code) -> (lb_started b = false -> hello_entry_size + 4 <= lb_rem b) ->
  hdr + 4 + hello_entry_size <= full_room o0 ->
  wp (lq_hello_add [] m i code b x) (fun b' n' => exists parts' cur' g', lq_hello_building parts' cur' (Some g') b' n' /\ fst g' = code /\
    lb_started b' = true /\ hello_so_far parts' cur' (Some g') = hello_so_far parts cur og ++ [(code, x)]) n.
Proof.
  intros Hb Hcode Hfirst Hroom. pose proof Hb as [(o & q & He & Er) B2 B3 B4 B5 B6 B7]. pose proof hello_entry_size_pos as Hes.
  assert (0 <= hdr) as Hh by (unfold hdr, lq_hello_off, common_size, hdrsize; destruct ip_version; lia).
  assert (forall parts' cur' og' b1 n1, lq_hello_building parts' cur' og' b1 n1 -> (forall g, og' = Some g -> fst g = code) ->
    lb_size b1 + hello_entry_size + (match lb_open b1 with None => 4 | Some _ => 0 end) <= lb_rem b1 -> hello_so_far parts' cur' og' = hello_so_far parts cur og ->
    wp (let '(size, (code, body)) := match lb_open b1 with None => (lb_size b1 + 4, (code, [])) | Some g => (lb_size b1, g) end in
        let entry := lq_hello_entry x in
        let len := Z.of_nat (length entry) in
        do* in_msg_buffer (lq_hello_off + size) len in
        ret {| lb_size := size + len; lb_rem := lb_rem b1; lb_closed := lb_closed b1; lb_open := Some (code, body ++ entry); lb_started := true |})
      (fun b' n' => exists parts' cur' g', lq_hello_building parts' cur' (Some g') b' n' /\ fst g' = code /\
        lb_started b' = true /\ hello_so_far parts' cur' (Some g') = hello_so_far parts cur og ++ [(code, x)]) n1) as Hend.
  { intros parts' cur' og' b1 n1 [(o1 & q1 & He1 & Er1) C2 C3 C4 C5 C6 C7] Hc Hle Hso. pose proof (room_full o1 q1) as Hf. pose proof (max_room o1) as Hx.
    rewrite info_bytes_app, length_app, Nat2Z.inj_add, info_bytes_open in C4.
    set (l := match og' with Some g => snd g | None => [] end).
    assert (exists size, (match lb_open b1 with None => (lb_size b1 + 4, (code, [])) | Some g => (lb_size b1, g) end) = (size, (code, entries l)) /\
      size = Z.of_nat (length (info_bytes cur')) + (4 + Z.of_nat (length (entries l))) /\ size + hello_entry_size <= lb_rem b1) as (size & -> & Hsz & Hfit).
    { rewrite C3 in *. destruct og' as [[c l']|]; [change (info_of <$> Some (c, l')) with (Some (c, entries l')) in *|change (info_of <$> None) with (@None (Z * list Z)) in *].
      - exists (lb_size b1). specialize (Hc _ eq_refl). simpl in Hc. subst c. rewrite length_close_info in C4. split; [done|]. subst l. cbn [snd] in *. lia.
      - exists (lb_size b1 + 4). split; [done|]. subst l. simpl in *. lia. }
    cbv zeta. rewrite length_hello_entry. unfold in_msg_buffer, MSG_BUFFER_SIZE. fold hdr.
    assert (hdr + size + hello_entry_size >? 1500 = false) as -> by (rewrite Z.gtb_ltb; apply Z.ltb_ge; lia).
    apply wp_bind, wp_ret, wp_ret. exists parts', cur', (code, l ++ [x]). split; [|split; [done|split; [done|]]].
    - split; cbn [lb_size lb_rem lb_closed lb_open lb_started]; [by exists o1, q1|done| | |lia|done|done].
      + cbn [fmap option_fmap option_map info_of fst snd]. unfold info_of. cbn [fst snd]. by rewrite entries_snoc.
      + rewrite info_bytes_app, length_app, Nat2Z.inj_add, info_bytes_open. cbn [fmap option_fmap option_map]. unfold info_of. cbn [fst snd].
        rewrite length_close_info, entries_snoc, length_app, Nat2Z.inj_add, length_hello_entry. lia.
    - rewrite <- Hso. unfold hello_so_far. cbn [open_of]. rewrite !spread_app, spread_one, <- !app_assoc. do 2 f_equal. cbn [fst snd]. rewrite map_app. subst l.
      destruct og' as [[c l']|]; cbn [open_of snd]; [|done]. specialize (Hc _ eq_refl). simpl in Hc. subst c. by rewrite spread_one. }
  unfold lq_hello_add. wp_step. fold hello_entry_size. rewrite Z.add_assoc.
  destruct (lb_size b + hello_entry_size + _ >? lb_rem b) eqn:E.
  - destruct (lb_started b) eqn:Es; cbn [negb].
    + fold hdr. wp_step. eapply wp_mono; [by eapply (wp_push_hello_part parts cur og b n)|]. cbv beta. intros _ n1 (o1 & q1 & He1).
      wp_step. eapply wp_mono; [apply wp_output, He1|]. cbv beta. intros _ n2 (o2 & He2).
      pose proof (emitted_trans _ _ _ _ _ _ _ _ _ _ _ _ He1 He2) as Ht. rewrite app_nil_r in Ht.
      wp_step. eapply wp_room_after; [apply He2|]. fold (full_room o2). rewrite (full_room_limits _ _ (em_limits _ _ _ _ _ _ _ _ Ht)). apply wp_ret.
      refine (Hend (parts ++ [cur ++ open_of og]) [] None {| lb_size := 0; lb_rem := full_room o0 - hdr; lb_closed := []; lb_open := None; lb_started := true |} n2 _ _ _ _);
        [|done|cbn [lb_size lb_open lb_rem]; lia|].
      * split; cbn [lb_size lb_rem lb_closed lb_open lb_started]; [|done|done|done|lia|done|].
        -- exists o2, []. split; [done|]. fold (full_room o2). by rewrite (full_room_limits _ _ (em_limits _ _ _ _ _ _ _ _ Ht)).
        -- apply Forall_app. split; [done|]. apply Forall_singleton. rewrite <- B4. pose proof (room_full o q) as Hf.
           rewrite (full_room_limits _ _ (em_limits _ _ _ _ _ _ _ _ He)) in Hf. lia.
      * unfold hello_so_far. cbn [open_of]. rewrite concat_app. simpl. by rewrite !app_nil_r.
    + destruct (B6 eq_refl) as (-> & -> & ->). specialize (Hfirst eq_refl). rewrite B3 in E. cbn [fmap option_fmap option_map] in E.
      rewrite Z.gtb_ltb in E. apply Z.ltb_lt in E. rewrite B4 in E. simpl in E. lia.
  - rewrite Z.gtb_ltb in E. apply Z.ltb_ge in E. apply wp_ret. by apply (Hend parts cur og b n).
Qed.

Lemma wp_lq_hello_group parts cur b n ij :
  lq_hello_building parts cur None b n -> (lb_started b = false -> lq_hello_members m ij <> [] -> hello_entry_size + 4 <= lb_rem b) ->
  hdr + 4 + hello_entry_size <= full_room o0 ->
  wp (lq_hello_group [] m i b ij) (fun b' n' => exists parts' cur', lq_hello_building parts' cur' None b' n' /\
    (lb_started b' = false -> lb_started b = false /\ lb_rem b' = lb_rem b) /\
    hello_so_far parts' cur' None = hello_so_far parts cur None ++ map (pair (CREATE_LINK_CODE (fst ij) (snd ij))) (lq_hello_members m ij)) n.
Proof.
  intros Hb Hfirst Hroom. unfold lq_hello_group. set (code := CREATE_LINK_CODE _ _). set (ns := lq_hello_members m ij) in *. wp_step.
  apply (wp_foldM _ _ _ (fun (rest : list lq_hello_neighbor) b' n' => exists parts' cur' og, lq_hello_building parts' cur' og b' n' /\
    (forall g, og = Some g -> fst g = code) /\ (lb_started b' = false -> lb_started b = false /\ lb_rem b' = lb_rem b /\ rest = ns) /\
    hello_so_far parts' cur' og ++ map (pair code) rest = hello_so_far parts cur None ++ map (pair code) ns)).
  - exists parts, cur, None. by split_and!.
  - intros x rest b' n' (p' & c' & og & H1 & H2 & H3 & H4). eapply wp_mono; [apply (wp_lq_hello_add p' c' og b' n' code x H1 H2); [|done]|].
    { intros Hs. destruct (H3 Hs) as (Hs' & -> & Ens). apply Hfirst; [done|]. by rewrite <- Ens. }
    cbv beta. intros b2 n2 (p2 & c2 & g2 & K1 & K2 & K3 & K4). exists p2, c2, (Some g2). split; [done|]. split; [by intros g [= <-]|].
    split; [by rewrite K3|]. rewrite K4, <- H4, <- app_assoc. done.
  - intros b' n' (p' & c' & og & [H1 H2 H3 H4 H5 H6 H7] & _ & Hst & Hso). rewrite app_nil_r in Hso. apply wp_ret. exists p', (c' ++ open_of og).
    split; [|split].
    + split; cbn [lb_size lb_rem lb_closed lb_open lb_started]; [done| |done| |done| |done].
      * by rewrite info_bytes_app, info_bytes_open, H2, H3.
      * cbn [open_of]. by rewrite app_nil_r.
      * intros Hs. destruct (H6 Hs) as (-> & -> & ->). done.
    + cbn [lb_started lb_rem]. intros Hs. destruct (Hst Hs) as (? & ? & _). done.
    + rewrite <- Hso. unfold hello_so_far. cbn [open_of]. by rewrite app_nil_r.
Qed.

End building.

(** What the message lists, in this order. *)
Definition lq_hello_content (m : lq_hello_message) : list (Z * lq_hello_neighbor) :=
  concat (map (fun ij => map (pair (CREATE_LINK_CODE (fst ij) (snd ij))) (lq_hello_members m ij)) lq_hello_codes).

(** The codes are all pairs of a status and a link type but the hidden one. *)
Lemma lq_hello_codes_all i j : 0 <= i <= 2 -> 0 <= j <= 4 -> j <> HIDE_LINK -> (i, j) ∈ lq_hello_codes.
Proof.
  intros Hi Hj Hne. assert (i = 0 \/ i = 1 \/ i = 2) as [->|[->| ->]] by lia; assert (j = 0 \/ j = 1 \/ j = 2 \/ j = 3 \/ j = 4) as [->|[->|[->|[->| ->]]]] by lia;
    try done; vm_compute; repeat constructor.
Qed.

Lemma lq_hello_members_shown m ij : ij ∈ lq_hello_codes ->
  map (pair (CREATE_LINK_CODE (fst ij) (snd ij))) (lq_hello_members m ij) =
  map (fun e => (CREATE_LINK_CODE (lhn_neigh_type e) (lhn_link_type e), e))
    (filter (fun e => lhn_neigh_type e = fst ij /\ lhn_link_type e = snd ij) (filter (fun e => lhn_link_type e <> HIDE_LINK) (lh_neigh m))).
Proof.
  intros Hij. assert (snd ij <> HIDE_LINK) as Hne.
  { intros E. revert Hij. destruct ij as [i j]. simpl in E. subst j. intros Hij. apply list_elem_of_In in Hij. vm_compute in Hij. decompose [or] Hij; done. }
  unfold lq_hello_members. rewrite list_filter_filter.
  erewrite (filter_ext_in (fun e => lhn_neigh_type e = fst ij /\ lhn_link_type e = snd ij) _ (lh_neigh m)); [apply map_ext_in|].
  - intros e He. apply list_elem_of_In, list_elem_of_filter in He as [[[-> ->] _] _]. done.
  - intros e _. split; [|tauto]. intros [H1 H2]. split; [done|congruence].
Qed.

Lemma lq_hello_content_perm m : (forall e, e ∈ lh_neigh m -> 0 <= lhn_neigh_type e <= 2 /\ 0 <= lhn_link_type e <= 4) ->
  lq_hello_content m ≡ₚ map (fun e => (CREATE_LINK_CODE (lhn_neigh_type e) (lhn_link_type e), e)) (filter (fun e => lhn_link_type e <> HIDE_LINK) (lh_neigh m)).
Proof.
  intros Hr. unfold lq_hello_content. rewrite (map_ext_in _ _ _ (fun ij Hij => lq_hello_members_shown m ij (proj2 (list_elem_of_In _ _) Hij))).
  set (F := fun e => (CREATE_LINK_CODE _ _, _)). rewrite <- (map_map _ (map F)), <- concat_map. apply Permutation_map.
  apply (groups_perm (fun e => (lhn_neigh_type e, lhn_link_type e))).
  - intros [i j] e. cbn [fst snd]. split; [by intros [-> ->]|by intros [= -> ->]].
  - apply (bool_decide_unpack _). vm_compute. done.
  - intros e [Hne He]%list_elem_of_filter. destruct (Hr e He). by apply lq_hello_codes_all.
Qed.

Lemma wp_serialize_lq_hello m i o q n :
  ready i o q n -> lq_hello_off + 4 + hello_entry_size <= full_room o ->
  wp (serialize_lq_hello [] m i) (fun _ n' => exists parts o' q', emitted i (numbered (lq_hello_part_msg m) (message_seqno n) parts) o q n o' q' n' /\
    parts <> [] /\ spread (concat parts) = lq_hello_content m /\ Forall (fun part => lq_hello_off + Z.of_nat (length (info_bytes part)) <= full_room o) parts) n.
Proof.
  intros Hr Hroom. pose proof hello_entry_size_pos as Hes. unfold serialize_lq_hello. wp_step. eapply wp_output_pending; [done|]. wp_step.
  eapply wp_mono; [apply (wp_make_room_after i lq_hello_off _ o q n Hr)|].
  { intros ->. unfold lq_hello_expected. simpl. lia. }
  cbv beta. intros r n1 (o1 & q1 & He1 & Er & Hrm). wp_step.
  assert (0 <= r /\ forall ij, ij ∈ lq_hello_codes -> lq_hello_members m ij <> [] -> hello_entry_size + 4 <= r) as [Hr0 Hr1].
  { destruct Hrm as [->|[Hq Hle]]; [split; [lia|intros; lia]|]. unfold lq_hello_expected in Hle. fold hello_entry_size in Hle.
    assert (0 <? Z.of_nat (length q) = true) as E by (apply Z.ltb_lt; destruct q; [done|simpl; lia]). rewrite E in Hle.
    split; [nia|]. intros ij Hij Hne. assert (ij ∈ filter (fun ij => lq_hello_members m ij <> []) lq_hello_codes) as Hin by (by apply list_elem_of_filter).
    destruct (filter (fun ij => lq_hello_members m ij <> []) lq_hello_codes); [by apply not_elem_of_nil in Hin|]. cbn [length] in Hle.
    destruct (lh_neigh m) as [|y ys] eqn:El; [unfold lq_hello_members in Hne; by rewrite El in Hne|]. cbn [length] in Hle. nia. }
  apply (wp_foldM _ _ _ (fun (rest : list (Z * Z)) b n' => exists parts cur, lq_hello_building i m o q n parts cur None b n' /\ (forall ij, ij ∈ rest -> ij ∈ lq_hello_codes) /\
    (lb_started b = false -> lb_rem b = r) /\
    hello_so_far parts cur None ++ concat (map (fun ij => map (pair (CREATE_LINK_CODE (fst ij) (snd ij))) (lq_hello_members m ij)) rest) = lq_hello_content m)).
  - exists [], []. split; [|split; [done|split; [done|done]]].
    split; cbn [lb_size lb_rem lb_closed lb_open lb_started]; [by exists o1, q1|done|done|done|done|done|constructor].
  - intros ij rest b n' (parts & cur & Hb & Hsub & Hst & Hso). eapply wp_mono; [apply (wp_lq_hello_group i m o q n parts cur b n' ij Hb); [|done]|].
    { intros Hs Hne. rewrite (Hst Hs). apply (Hr1 ij); [|done]. apply Hsub. left. }
    cbv beta. intros b2 n2 (p2 & c2 & K1 & K2 & K3). exists p2, c2. split; [done|]. split; [intros k Hk; apply Hsub; by right|]. split.
    + intros Hs. destruct (K2 Hs) as [Hs' ->]. by apply Hst.
    + rewrite K3, <- Hso, <- app_assoc. done.
  - intros b n' (parts & cur & Hb & _ & _ & Hso). rewrite app_nil_r in Hso. pose proof Hb as [(o2 & q2 & He2 & Er2) B2 B3 B4 B5 B6 B7].
    assert (lb_closed b = lb_closed b ++ close_info (lb_open b)) as -> by (rewrite B3; simpl; by rewrite app_nil_r).
    eapply wp_mono; [by eapply (wp_push_hello_part i m o q n parts cur None b n')|]. cbv beta. intros _ n3 (o3 & q3 & He3).
    exists (parts ++ [cur ++ open_of None]), o3, q3. split; [done|]. split; [by destruct parts|]. split.
    + rewrite <- Hso. unfold hello_so_far. rewrite concat_app. simpl. by rewrite !app_nil_r.
    + apply Forall_app. split; [done|]. apply Forall_singleton. rewrite <- B4. pose proof (room_full o2 q2) as Hf2.
      rewrite (full_room_limits _ _ (em_limits _ _ _ _ _ _ _ _ He2)) in Hf2. lia.
Qed.

End lq_hello.
