(* ===== verification/LqCreate.v ===== *)
(** * What the messages with link quality are built from *)

From S2P Require Import Prelude Timer Mantissa Avl IpAddr KeyTree DupSet State MidLookup NeighTable NeighProofs Interfaces Packet LsdbOps Lq RouteTable TcSpec LinkSet LinkProofs LinkBest.
From S2P Require Import Mpr MprSel MidSet Hello HelloRead NeighSpec LinkSpec Node NetOlsr NetSpec BuildMsg BuildProofs GenMsg GenSpec LqPacket.

Section lq_create.
Context {cnf : olsrd_config} {ncf : node_config} {lqh : lq_handler}.

(** ** HELLO *)

(** The type with which a link is announced over [outif]. *)
Definition shown_type (st : olsr_state) (outif : interface_olsr) (l : link_entry) : Z :=
  if ipequal ip_version (local_iface_addr l) (if_ip_addr outif) then link_status st l else UNSPEC_LINK.

Definition shown_link (st : olsr_state) (outif : interface_olsr) (l : link_entry) (n : neighbor_entry) : lq_hello_neighbor :=
  {| lhn_link_type := shown_type st outif l; lhn_neigh_type := neigh_type n; lhn_addr := neighbor_iface_addr l;
     lhn_linkquality := copy_link_lq_into_neigh (linkquality l) |}.

(** One entry for every interface address of a neighbour, taken from one of the links to it, and
    from a link over [outif] if there is one. *)
Record lists_links (st : olsr_state) (outif : interface_olsr) (ps : list positive) (l : list lq_hello_neighbor) : Prop := {
  ll_once : NoDup (map lhn_addr l);
  ll_from e : e ∈ l -> exists p x n, p ∈ ps /\ links st !! p = Some x /\ nbrs st !! link_neighbor x = Some n /\ e = shown_link st outif x n;
  ll_all p x : p ∈ ps -> links st !! p = Some x -> exists e, e ∈ l /\ lhn_addr e = neighbor_iface_addr x /\
    (shown_type st outif x <> UNSPEC_LINK -> lhn_link_type e <> UNSPEC_LINK);
}.

Lemma neigh_find_None l x : neigh_find l x = None -> neighbor_iface_addr x ∉ map lhn_addr l.
Proof.
  intros H Hin. apply list_elem_of_fmap in Hin as (e & E & He). apply list_elem_of_In in He. pose proof (find_none _ _ H e He) as Hn. cbv beta in Hn.
  by rewrite <- E, ipequal_refl in Hn.
Qed.

Lemma neigh_find_Some l x e : neigh_find l x = Some e -> e ∈ l /\ lhn_addr e = neighbor_iface_addr x.
Proof. intros H. apply find_some in H as [Hin E%ipequal_eq]. split; [by apply list_elem_of_In|done]. Qed.

Lemma neigh_set_addrs e l : map lhn_addr (neigh_set e l) = map lhn_addr l.
Proof.
  induction l as [|n l IH]; [done|]. cbn [neigh_set]. destruct (ipequal _ _ _) eqn:E; [apply ipequal_eq in E; cbn [map]; by rewrite E|cbn [map]; by rewrite IH].
Qed.

Lemma elem_of_neigh_set e l x : NoDup (map lhn_addr l) -> lhn_addr e ∈ map lhn_addr l ->
  x ∈ neigh_set e l <-> x = e \/ x ∈ l /\ lhn_addr x <> lhn_addr e.
Proof.
  induction l as [|n l IH]; cbn [map neigh_set]; intros Hnd Hin; [by apply not_elem_of_nil in Hin|]. apply NoDup_cons in Hnd as [Hn Hnd].
  destruct (ipequal ip_version (lhn_addr n) (lhn_addr e)) eqn:E.
  - apply ipequal_eq in E. rewrite !elem_of_cons. split; intros [->|H]; [by left| | |].
    + right. split; [by right|]. rewrite <- E. intros Ex. apply Hn. rewrite <- Ex. apply list_elem_of_fmap. by exists x.
    + by left.
    + destruct H as [[->|H] Hne]; [done|by right].
  - assert (lhn_addr n <> lhn_addr e) as Hne by (intros Ex; by rewrite Ex, ipequal_refl in E).
    apply elem_of_cons in Hin as [Hin|Hin]; [by rewrite Hin in Hne|]. rewrite !elem_of_cons, (IH Hnd Hin). naive_solver.
Qed.

Lemma wp_shown_type outif p x st : links st !! p = Some x ->
  wp (if negb (ipequal ip_version (local_iface_addr x) (if_ip_addr outif)) then ret UNSPEC_LINK else lookup_link_status (Some p))
    (fun t st' => st' = st /\ t = shown_type st outif x) st.
Proof.
  intros Hx. unfold shown_type. destruct (ipequal _ _ _); cbn [negb]; [|by apply wp_ret]. unfold lookup_link_status. wp_step. eapply wp_get_link; [exact Hx|]. by wp_step.
Qed.

Lemma wp_lq_hello_link outif ps l p st :
  link_wf st -> is_Some (links st !! p) -> lists_links st outif ps l ->
  wp (lq_hello_link outif l p) (fun l' st' => st' = st /\ lists_links st outif (ps ++ [p]) l') st.
Proof.
  intros Hwf [x Hx] [L1 L2 L3]. destruct (lw_nbr _ Hwf _ _ Hx) as [n Hn]. unfold lq_hello_link. wp_step. eapply wp_get_link; [exact Hx|].
  wp_step. eapply wp_mono; [by apply wp_shown_type|]. cbv beta. intros t st' (-> & ->). set (e := shown_link st outif x n).
  assert (forall e, e ∈ l -> exists q y m, q ∈ ps ++ [p] /\ links st !! q = Some y /\ nbrs st !! link_neighbor y = Some m /\ e = shown_link st outif y m) as L2'.
  { intros e' He. destruct (L2 e' He) as (q & y & m & Hq & H). exists q, y, m. split; [apply elem_of_app; by left|done]. }
  destruct (neigh_find l x) as [f|] eqn:Ef.
  - apply neigh_find_Some in Ef as [Hf Eaddr].
    assert (lhn_addr e ∈ map lhn_addr l) as Hein by (apply list_elem_of_fmap; exists f; by rewrite Eaddr).
    destruct ((lhn_link_type f =? UNSPEC_LINK) && negb (shown_type st outif x =? UNSPEC_LINK)) eqn:Eu; cbn [negb].
    + apply andb_true_iff in Eu as [Eu1%Z.eqb_eq Eu2%negb_true_iff%Z.eqb_neq].
      wp_step. eapply wp_get_nbr; [exact Hn|]. wp_step. split; [done|]. fold e. pose proof (fun y => elem_of_neigh_set e l y L1 Hein) as Hset. split.
      * by rewrite neigh_set_addrs.
      * intros e' He. apply Hset in He as [->|[He _]]; [|by apply L2'].
        exists p, x, n. split; [apply elem_of_app; right; by left|done].
      * intros q y Hq Hy. assert (exists e', e' ∈ l /\ lhn_addr e' = neighbor_iface_addr y /\ (shown_type st outif y <> UNSPEC_LINK -> lhn_link_type e' <> UNSPEC_LINK) \/
            y = x) as (e' & [(H1 & H2 & H3)| ->]).
        { apply elem_of_app in Hq as [Hq|Hq%list_elem_of_singleton]; [destruct (L3 q y Hq Hy) as (e' & H); exists e'; by left|exists e; right; congruence]. }
        -- destruct (decide (lhn_addr e' = lhn_addr e)) as [Ea|Ea].
           ++ exists e. split; [apply Hset; by left|]. split; [by rewrite <- Ea|]. intros _. exact Eu2.
           ++ exists e'. split; [apply Hset; by right|done].
        -- exists e. split; [apply Hset; by left|done].
    + wp_step. split; [done|]. split; [done|done|]. intros q y Hq Hy. apply elem_of_app in Hq as [Hq|Hq%list_elem_of_singleton]; [by eapply L3|].
      subst q. rewrite Hx in Hy. injection Hy as <-. exists f. split; [done|]. split; [done|]. intros Hne. apply andb_false_iff in Eu as [Eu%Z.eqb_neq|Eu%negb_false_iff%Z.eqb_eq]; [done|by rewrite Eu in Hne].
  - cbn [negb]. apply neigh_find_None in Ef. wp_step. eapply wp_get_nbr; [exact Hn|]. wp_step. split; [done|]. fold e. split.
    + cbn [map]. apply NoDup_cons. done.
    + intros e' [->|He]%elem_of_cons; [|by apply L2']. exists p, x, n. split; [apply elem_of_app; right; by left|done].
    + intros q y Hq Hy. apply elem_of_app in Hq as [Hq|Hq%list_elem_of_singleton].
      * destruct (L3 q y Hq Hy) as (e' & H1 & H2). exists e'. split; [by right|done].
      * subst q. rewrite Hx in Hy. injection Hy as <-. exists e. split; [by left|done].
Qed.

Definition lq_hello_of (st : olsr_state) (o : out_interface) (will : Z) (l : list lq_hello_neighbor) : lq_hello_message :=
  {| lh_comm := {| comm_type := LQ_HELLO_MESSAGE; comm_vtime := me_to_reltime (vt_hello (valtimes o)); comm_orig := main_addr st; comm_ttl := 1; comm_hops := 0 |};
     lh_htime := hello_etime o; lh_will := will; lh_neigh := l |}.

Lemma wp_create_lq_hello o will st : link_wf st ->
  wp (create_lq_hello o will) (fun m st' => st' = st /\ exists l, m = lq_hello_of st o will l /\ lists_links st (out_if o) (link_entry_head st) l) st.
Proof.
  intros Hwf. unfold create_lq_hello, OLSR_FOR_ALL_LINK_ENTRIES. wp_step. wp_step. wp_step. wp_step. wp_step.
  apply (wp_foldM _ _ _ (fun (rest : list positive) l st' => st' = st /\ exists done_, link_entry_head st = done_ ++ rest /\ lists_links st (out_if o) done_ l)).
  - split; [done|]. exists []. split; [done|]. split; [constructor|by intros e ?%not_elem_of_nil|by intros p x ?%not_elem_of_nil].
  - intros p rest l st' (-> & dn & E & Hl). eapply wp_mono; [apply (wp_lq_hello_link _ dn); [done| |done]|].
    { apply (lw_alloc _ Hwf). rewrite E. apply elem_of_app. right. by left. }
    cbv beta. intros l' st' (-> & Hl'). split; [done|]. exists (dn ++ [p]). split; [by rewrite <- app_assoc|done].
  - intros l st' (-> & dn & E & Hl). rewrite app_nil_r in E. wp_step. split; [done|]. exists l. split; [done|]. by rewrite E.
Qed.

(** What a HELLO message with link quality has to list: each interface address of a neighbour once, with the neighbour's state and the quality of a link to it, and with the state of that
    link, which is one over the interface if there is one, and unspecified otherwise. *)
Record lq_hello_lists (st : olsr_state) (outif : interface_olsr) (l : list lq_hello_neighbor) : Prop := {
  lhl_once : NoDup (map lhn_addr l);
  lhl_all p x : links st !! p = Some x -> exists e, e ∈ l /\ lhn_addr e = neighbor_iface_addr x /\
    (local_iface_addr x = if_ip_addr outif -> lhn_link_type e <> UNSPEC_LINK);
  lhl_from e : e ∈ l -> exists p x n, links st !! p = Some x /\ nbrs st !! link_neighbor x = Some n /\ neighbour_state n (lhn_neigh_type e) /\
    (local_iface_addr x = if_ip_addr outif -> link_state st x (lhn_link_type e)) /\ (local_iface_addr x <> if_ip_addr outif -> lhn_link_type e = UNSPEC_LINK) /\
    lhn_addr e = neighbor_iface_addr x /\ lhn_linkquality e = copy_link_lq_into_neigh (linkquality x);
  lhl_range e : e ∈ l -> 0 <= lhn_neigh_type e <= 2 /\ 0 <= lhn_link_type e <= 4;
  lhl_shown e : use_hysteresis = false -> e ∈ l -> lhn_link_type e <> HIDE_LINK;
}.

Lemma shown_type_over st outif x : local_iface_addr x = if_ip_addr outif -> shown_type st outif x = link_status st x.
Proof. intros E. unfold shown_type. by rewrite E, ipequal_refl. Qed.

Lemma shown_type_other st outif x : local_iface_addr x <> if_ip_addr outif -> shown_type st outif x = UNSPEC_LINK.
Proof. intros E. unfold shown_type. destruct (ipequal _ _ _) eqn:Ei; [by apply ipequal_eq in Ei|done]. Qed.

Lemma shown_type_cases st outif x : shown_type st outif x = link_status st x \/ shown_type st outif x = UNSPEC_LINK.
Proof. unfold shown_type. destruct (ipequal _ _ _); auto. Qed.

Lemma lists_links_hello st outif l : link_wf st -> lists_links st outif (link_entry_head st) l -> lq_hello_lists st outif l.
Proof.
  intros Hwf [L1 L2 L3]. split; [done| | | |].
  - intros p x Hx. assert (p ∈ link_entry_head st) as Hp by (apply (lw_alloc _ Hwf); by rewrite Hx).
    destruct (L3 p x Hp Hx) as (e & He & Ha & Ht). exists e. split; [done|]. split; [done|]. intros Ho. apply Ht. rewrite shown_type_over by done. by eapply link_status_known.
  - intros e He. destruct (L2 e He) as (p & x & n & Hp & Hx & Hn & ->). exists p, x, n. cbn [shown_link lhn_neigh_type lhn_link_type lhn_addr lhn_linkquality].
    split; [done|]. split; [done|]. split; [exact (own_status_state n)|]. split; [|split; [apply shown_type_other|done]].
    intros Ho. rewrite shown_type_over by done. by eapply link_status_state.
  - intros e He. destruct (L2 e He) as (p & x & n & _ & _ & _ & ->). split; [exact (own_status_range n)|]. cbn [shown_link lhn_link_type].
    destruct (shown_type_cases st outif x) as [->| ->]; [apply link_status_range|unfold UNSPEC_LINK; lia].
  - intros e Hh He. destruct (L2 e He) as (p & x & n & _ & _ & _ & ->). cbn [shown_link lhn_link_type].
    destruct (shown_type_cases st outif x) as [->| ->]; [by apply link_status_shown|done].
Qed.

(** ** TC *)

Definition lq_selected (st : olsr_state) (n : neighbor_entry) : bool :=
  let selector := bool_decide (neighbor_main_addr n ∈ selectors st) in
  (status n =? SYM) && negb ((tc_redundancy =? 1) && negb (is_mpr n) && negb selector) && negb ((tc_redundancy =? 0) && negb selector).

(** The neighbour with the quality of the best link to it, unless that is broken. *)
Definition lq_tc_listed (st : olsr_state) (p : positive) : option lq_tc_neighbor :=
  n ← nbrs st !! p;
  if lq_selected st n then
    match find_best_link st (neighbor_main_addr n) with
    | Some (Some q) =>
        x ← links st !! q;
        if LINK_COST_BROKEN <=? linkcost x then None
        else Some {| ltn_address := neighbor_main_addr n; ltn_linkquality := copy_link_lq_into_tc (linkquality x) |}
    | _ => None
    end
  else None.

Definition addr_le (x y : lq_tc_neighbor) : Prop := avl_comp_default ip_version (ltn_address x) (ltn_address y) <= 0.

(** The neighbours of [ps], sorted by their addresses. *)
Record lists_neighbors (st : olsr_state) (ps : list positive) (l : list lq_tc_neighbor) : Prop := {
  ln_all : l ≡ₚ omap (lq_tc_listed st) ps;
  ln_sorted : StronglySorted addr_le l;
}.

Lemma wp_lq_tc_selected n st : wp (lq_tc_selected n) (fun b st' => st' = st /\ b = lq_selected st n) st.
Proof.
  unfold lq_tc_selected, lq_selected. destruct (status n =? SYM); cbn [negb andb]; [|by apply wp_ret].
  unfold olsr_lookup_mprs_set. wp_step. wp_step.
  rewrite find_mprs_selector.
  destruct ((tc_redundancy =? 1) && _ && _); [by apply wp_ret|]. by destruct ((tc_redundancy =? 0) && _); apply wp_ret.
Qed.

Lemma lq_tc_insert_perm e l : lq_tc_insert e l ≡ₚ e :: l.
Proof. induction l as [|n l IH]; [done|]. cbn [lq_tc_insert]. destruct (0 <? _); [done|]. rewrite IH. apply Permutation_swap. Qed.

Lemma addr_le_trans x y z : addr_le x y -> addr_le y z -> addr_le x z.
Proof. unfold addr_le. apply comp_trans. Qed.

Lemma lq_tc_insert_sorted e l : StronglySorted addr_le l -> StronglySorted addr_le (lq_tc_insert e l).
Proof.
  induction 1 as [|n l Hl IH Hn]; cbn [lq_tc_insert]; [by repeat constructor|]. destruct (Z.ltb_spec 0 (avl_comp_default ip_version (ltn_address n) (ltn_address e))) as [Hlt|Hle].
  - assert (addr_le e n) as Hen by (unfold addr_le; pose proof (comp_sym (comp := avl_comp_default ip_version) (ltn_address e) (ltn_address n)); lia).
    constructor; [by constructor|]. constructor; [done|]. eapply Forall_impl; [exact Hn|]. intros y. by apply addr_le_trans.
  - constructor; [done|]. rewrite lq_tc_insert_perm. constructor; [exact Hle|done].
Qed.

Lemma wp_lq_tc_neighbors st : net_wf st -> wp lq_tc_neighbors (fun l st' => st' = st /\ lists_neighbors st (all_elems (neighbortable st)) l) st.
Proof.
  intros Hwf. pose proof Hwf as [Hnw Hlw]. unfold lq_tc_neighbors, OLSR_FOR_ALL_NBR_ENTRIES. wp_step. wp_step.
  apply (wp_foldM _ _ _ (fun (rest : list positive) l st' => st' = st /\ exists done_, all_elems (neighbortable st) = done_ ++ rest /\ lists_neighbors st done_ l)).
  - split; [done|]. exists []. split; [done|]. split; [done|constructor].
  - intros p rest l st' (-> & dn & E & [L1 L2]). destruct (proj1 (table_alloc _ _ _ (wf_nbrs _ _ Hnw) p)) as [n Hn]; [rewrite E; set_solver|].
    assert (forall r, lq_tc_listed st p = r -> wp (ret (match r with Some e => lq_tc_insert e l | None => l end))
      (fun l st' => st' = st /\ exists done_, all_elems (neighbortable st) = done_ ++ rest /\ lists_neighbors st done_ l) st) as Hend.
    { intros r Er. apply wp_ret. split; [done|]. exists (dn ++ [p]). split; [by rewrite <- app_assoc|]. split; rewrite ?omap_snoc, ?Er; destruct r as [e|].
      - by rewrite lq_tc_insert_perm, L1, Permutation_app_comm.
      - by rewrite app_nil_r.
      - by apply lq_tc_insert_sorted.
      - done. }
    unfold lq_tc_listed in Hend. rewrite Hn in Hend. cbn [mbind option_bind] in Hend.
    wp_step. eapply wp_get_nbr; [exact Hn|]. wp_step. eapply wp_mono; [apply wp_lq_tc_selected|]. cbv beta. intros b st' (-> & ->).
    destruct (lq_selected st n); cbn [negb]; [|by apply (Hend None)].
    unfold get_best_link_to_neighbor. destruct (find_best_link_ok st (neighbor_main_addr n) Hwf) as (r & Er & Hr). rewrite Er in Hend.
    wp_step. eapply wp_gets_opt; [exact Er|]. destruct r as [q|]; [|by apply (Hend None)]. destruct (Hr q eq_refl) as (x & Hx & _). rewrite Hx in Hend. cbn [mbind option_bind] in Hend.
    wp_step. eapply wp_get_link; [exact Hx|]. destruct (LINK_COST_BROKEN <=? linkcost x); [by apply (Hend None)|by apply (Hend (Some _))].
  - intros l st' (-> & dn & E & Hl). rewrite app_nil_r in E. by rewrite E.
Qed.

Definition lq_tc_of (st : olsr_state) (o : out_interface) (ttl : Z) (l : list lq_tc_neighbor) : lq_tc_message :=
  {| lt_comm := {| comm_type := TcInput.LQ_TC_MESSAGE; comm_vtime := me_to_reltime (vt_tc (valtimes o)); comm_orig := main_addr st; comm_ttl := ttl; comm_hops := 0 |};
     lt_ansn := ansn st; lt_neigh := l |}.

(** The interface that sends, with the next place in the list of ranges. *)
Definition next_range (o : out_interface) : out_interface := if lq_fish >? 0 then set_ttl_index (snd (fish_eye (ttl_index o))) o else o.
Definition range (o : out_interface) : Z := if lq_fish >? 0 then fst (fish_eye (ttl_index o)) else MAX_TTL.

Lemma wp_create_lq_tc i o n : outs n !! i = Some o -> net_wf (core n) ->
  wp (create_lq_tc i) (fun m n' => n' = set_outs (<[i := next_range o]> (outs n)) (set_lq_tc_pending true n) /\
    exists l, m = lq_tc_of (core n) o (range o) l /\ lists_neighbors (core n) (all_elems (neighbortable (core n))) l) n.
Proof.
  intros Ho Hwf. unfold create_lq_tc. wp_step. wp_step. set (n1 := set_lq_tc_pending true n). assert (outs n1 !! i = Some o) as Ho1 by done.
  wp_step. eapply wp_get_out; [exact Ho1|]. wp_step. wp_step.
  assert (forall n2, n2 = set_outs (<[i := next_range o]> (outs n)) n1 -> core n2 = core n ->
    wp (let* ansn := lift get_local_ansn in let* l := lift lq_tc_neighbors in
        ret {| lt_comm := {| comm_type := TcInput.LQ_TC_MESSAGE; comm_vtime := me_to_reltime (vt_tc (valtimes o)); comm_orig := main_addr (core n1); comm_ttl := range o; comm_hops := 0 |}; lt_ansn := ansn; lt_neigh := l |})
      (fun m n' => n' = set_outs (<[i := next_range o]> (outs n)) (set_lq_tc_pending true n) /\
        exists l, m = lq_tc_of (core n) o (range o) l /\ lists_neighbors (core n) (all_elems (neighbortable (core n))) l) n2) as Hend.
  { intros n2 -> Ec. wp_step. apply wp_lift. unfold get_local_ansn. wp_step. rewrite GenSpec.set_core_self. wp_step. apply wp_lift.
    eapply wp_mono; [apply wp_lq_tc_neighbors; by rewrite Ec|]. cbv beta. intros l st' (-> & Hl). rewrite GenSpec.set_core_self. wp_step. split; [done|]. by exists l. }
  unfold range, next_range in *. wp_step. destruct (lq_fish >? 0).
  - destruct (fish_eye (ttl_index o)) as [ttl k]. cbn [fst snd] in *. wp_step. eapply wp_upd_out; [exact Ho1|]. wp_step. by apply Hend.
  - wp_step. apply Hend; [|done]. rewrite list_insert_id by done. subst n1. by destruct n.
Qed.

End lq_create.
