(* ===== verification/LqPacketSpec.v ===== *)
(** * Theorems on the messages with link quality *)

From S2P Require Import Prelude Timer Mantissa Avl IpAddr KeyTree DupSet State MidLookup NeighTable NeighProofs Interfaces Packet LsdbOps Lq RouteTable TcSet TcSpec LinkSet LinkProofs LinkBest.
From S2P Require Import Mpr MprSel MidSet Hello HelloRead NeighSpec LinkSpec LqMprSpec Node NetOlsr Hna HnaSpec TcInput TcInputSpec NetSpec BuildMsg BuildProofs GenMsg GenSpec AnnounceSpec.
From S2P Require Import LqPacket LqParts LqCreate.

Section lq_spec.
Context {cnf : olsrd_config} {ncf : node_config} {lqh : lq_handler} {lqs : lq_sizes lqh}.

(** What is queued is sent, at once or when the timer of the buffer fires. *)
Definition settled (i : nat) (later : bool) (o : out_interface) (q : list Z) (n n' : node) : Prop :=
  if bool_decide (q = []) then n' = n
  else if later then buffer_timed i n n' else exists o', emitted i [] o q n o' [] n'.

(** What [olsr_output_lq_hello] and [olsr_output_lq_tc] do with what is pending. *)
Definition send_pending (i : nat) (later : bool) : NM unit :=
  if later then start_buffer_timer i else let* _ := net_output [] i in ret tt.

Lemma wp_settle i later o q n : ready i o q n -> is_Some (buffer_delay (olsr_random (random_count (core n)))) ->
  wp (when (negb (Z.of_nat (length q) =? 0)) (send_pending i later)) (fun _ n' => settled i later o q n n') n.
Proof.
  intros Hr Hd. unfold settled. destruct q as [|x q]; [by apply wp_ret|]. rewrite bool_decide_eq_false_2 by done.
  assert (Z.of_nat (length (x :: q)) =? 0 = false) as -> by (apply Z.eqb_neq; simpl; lia). unfold send_pending. cbn [negb when]. destruct later.
  - eapply wp_start_buffer_timer; [apply Hr|done].
  - wp_step. eapply wp_mono; [by apply wp_output|]. cbv beta. intros _ n' H. by wp_step.
Qed.

(** What a receiver is told of an address: the state of the neighbour, that of the link, the address and the quality of the link. *)
Definition lq_told (entry : Z * lq_hello_neighbor) : Z * Z * ip_addr * list Z :=
  (EXTRACT_STATUS (fst entry), EXTRACT_LINK (fst entry), lhn_addr (snd entry), lhn_linkquality (snd entry)).

Definition lq_tells (e : lq_hello_neighbor) : Z * Z * ip_addr * list Z := (lhn_neigh_type e, lhn_link_type e, lhn_addr e, lhn_linkquality e).

Lemma lq_told_code e : 0 <= lhn_neigh_type e <= 2 -> 0 <= lhn_link_type e <= 4 -> lhn_link_type e <> HIDE_LINK ->
  lq_told (CREATE_LINK_CODE (lhn_neigh_type e) (lhn_link_type e), e) = lq_tells e.
Proof.
  intros Hi Hj Hne. pose proof (told_code (lhn_neigh_type e) (lhn_link_type e) (lhn_addr e) Hi Hj) as E. rewrite bool_decide_eq_false_2 in E by done.
  unfold told in E. cbn [fst snd] in E. unfold lq_told, lq_tells. cbn [fst snd]. by injection E as -> ->.
Qed.

Lemma lq_told_content m : (forall e, e ∈ lh_neigh m -> 0 <= lhn_neigh_type e <= 2 /\ 0 <= lhn_link_type e <= 4) ->
  map lq_told (lq_hello_content m) ≡ₚ map lq_tells (filter (fun e => lhn_link_type e <> HIDE_LINK) (lh_neigh m)).
Proof.
  intros Hr. rewrite (lq_hello_content_perm m Hr), map_map. erewrite map_ext_in; [done|]. intros e He. apply list_elem_of_In, list_elem_of_filter in He as [Hne He].
  destruct (Hr e He). by apply lq_told_code.
Qed.

(** C16: A HELLO message with link quality tells its receivers of every interface address of a neighbour exactly once, with the state of the neighbour, the quality of a link to the address
    and the state of the link over the interface if there is one, in parts that fit the packets, and is sent at once or with the next TC message. Links that hysteresis keeps pending
    are left out; the configuration check does not allow hysteresis together with link quality, and without hysteresis there are none. A packet must have room for a group of one address. *)
Theorem olsr_output_lq_hello_correct i o q n :
  ready i o q n -> net_wf (core n) -> lq_hello_off + 4 + hello_entry_size <= full_room o -> is_Some (buffer_delay (olsr_random (random_count (core n)))) ->
  wp (olsr_output_lq_hello [] i) (fun _ n' => exists l parts o' q' n1,
    lq_hello_lists (core n) (out_if o) l /\
    let m := lq_hello_of (core n) o (own_willingness n) l in
    emitted i (numbered (lq_hello_part_msg m) (message_seqno n) parts) o q n o' q' n1 /\ parts <> [] /\
    map lq_told (spread (concat parts)) ≡ₚ map lq_tells (filter (fun e => lhn_link_type e <> HIDE_LINK) l) /\
    (use_hysteresis = false -> map lq_told (spread (concat parts)) ≡ₚ map lq_tells l) /\
    Forall (fun part => lq_hello_off + Z.of_nat (length (info_bytes part)) <= full_room o) parts /\
    settled i (immediate_send_tc o) o' q' n1 n') n.
Proof.
  intros Hr Hwf Hroom Hd. unfold olsr_output_lq_hello. wp_step. eapply wp_get_out; [apply Hr|]. wp_step. wp_step. wp_step. apply wp_lift.
  eapply wp_mono; [apply (wp_create_lq_hello o (own_willingness n)), Hwf|]. cbv beta. intros m st' (-> & l & -> & Hl). rewrite GenSpec.set_core_self. wp_step.
  eapply wp_mono; [by apply (wp_serialize_lq_hello _ i o q n)|]. cbv beta. intros _ n1 (parts & o' & q' & He & Hne & Hs & Hf).
  wp_step. eapply wp_output_pending; [apply He|].
  eapply wp_mono; [apply (wp_settle i (immediate_send_tc o) o' q' n1); [apply He|by destruct (strip_core _ _ (em_rest _ _ _ _ _ _ _ _ He)) as [-> _]]|].
  cbv beta. intros _ n' Hset. apply lists_links_hello in Hl; [|apply Hwf]. pose proof Hl as [_ _ _ Hrange Hshown].
  exists l, parts, o', q', n1. cbv zeta. rewrite Hs. split; [done|]. split; [done|]. split; [done|].
  assert (map lq_told (lq_hello_content (lq_hello_of (core n) o (own_willingness n) l)) ≡ₚ map lq_tells (filter (fun e => lhn_link_type e <> HIDE_LINK) l)) as Ht by by apply lq_told_content.
  split; [done|]. split; [|by split]. intros Hh. rewrite Ht, filter_all; [done|]. intros e. by apply Hshown.
Qed.

(** ** TC *)

Definition lq_edge (e : lq_tc_neighbor) : ip_addr * list Z := (ltn_address e, serialize_tc_lq (ltn_linkquality e)).

Definition lq_tc_header (m : lq_tc_message) (p : lq_part) (s : Z) : tc_header :=
  {| th_vtime := me_to_reltime (reltime_to_me (comm_vtime (lt_comm m))); th_size := lq_tc_off + tc_entry_size * Z.of_nat (length (lp_neigh p));
     th_originator := comm_orig (lt_comm m); th_hops := comm_hops (lt_comm m); th_seq := s; th_ansn := lt_ansn m; th_lower := lp_lower p; th_upper := lp_upper p |}.

(** The part as the receiver of TcInputSpec.v reads it. *)
Definition lq_tc_sent (m : lq_tc_message) (p : lq_part) (s : Z) : list Z :=
  put_tc (comm_type (lt_comm m)) (reltime_to_me (comm_vtime (lt_comm m))) (lq_tc_header m p s) (comm_ttl (lt_comm m)) (map lq_edge (lp_neigh p)).

Lemma put_lq_edges l : put_edges (map lq_edge l) = concat (map lq_tc_entry l).
Proof. unfold put_edges. rewrite map_map. done. Qed.

Lemma lq_tc_part_sent m p s : lq_tc_part_msg m p s = lq_tc_sent m p s.
Proof. unfold lq_tc_part_msg, lq_tc_sent, put_tc, message_bytes, lq_tc_body. cbn [th_size th_originator th_hops th_seq th_ansn th_lower th_upper lq_tc_header]. by rewrite put_lq_edges. Qed.

(** Nothing to announce, and the time in which that is told has passed. *)
Definition lq_tc_silent (l : list lq_tc_neighbor) (n : node) : bool :=
  bool_decide (l = []) && negb (prev_empty n =? 0) && olsr_isTimedOut (now_times (core n)) (send_empty_tc n).

(** The node when the message is written. *)
Definition lq_tc_begin (t : Z) (i : nat) (o : out_interface) (l : list lq_tc_neighbor) (n : node) : node :=
  let n1 := set_outs (<[i := next_range o]> (outs n)) (set_lq_tc_pending true n) in
  if negb (bool_decide (l = [])) then set_prev_empty 0 n1
  else if prev_empty n =? 0 then set_prev_empty 1 (set_send_empty_tc (olsr_getTimestamp (now_times (core n)) t) n1) else n1.

Lemma ready_range i o q n n' : ready i o q n -> outs n' = <[i := next_range o]> (outs n) -> message_seqno n' = message_seqno n -> ready i (next_range o) q n'.
Proof.
  intros [R1 R2 R3 R4] Eo Es. assert (netbuf (next_range o) = netbuf o) as En by (unfold next_range; by destruct (lq_fish >? 0)). split.
  - rewrite Eo. apply list_lookup_insert_eq. by eapply lookup_lt_Some.
  - unfold holds in *. by rewrite En.
  - by rewrite En.
  - by rewrite Es.
Qed.

Lemma room_range o : full_room (next_range o) = full_room o.
Proof. unfold full_room, room, next_range. by destruct (lq_fish >? 0). Qed.

(** The parts [ps] of the message are queued, one after the other. *)
Definition lq_tc_queued (t : Z) (i : nat) (o : out_interface) (q : list Z) (n : node) (l : list lq_tc_neighbor) (ps : list lq_part)
    (o' : out_interface) (q' : list Z) (n' : node) : Prop :=
  emitted i (numbered (lq_tc_sent (lq_tc_of (core n) o (range o) l)) (message_seqno n) ps) (next_range o) q (lq_tc_begin t i o l n) o' q' n' /\
  (if lq_tc_silent l n then ps = [] else lq_tc_parts l ps) /\
  Forall (fun p => lq_tc_off + tc_entry_size * Z.of_nat (length (lp_neigh p)) <= full_room o) ps.

Lemma lq_tc_begin_same t i o l n :
  core (lq_tc_begin t i o l n) = core n /\ outs (lq_tc_begin t i o l n) = <[i := next_range o]> (outs n) /\ message_seqno (lq_tc_begin t i o l n) = message_seqno n.
Proof. unfold lq_tc_begin. destruct (negb _); [done|]. by destruct (prev_empty n =? 0). Qed.

Lemma wp_lq_tc_write t i o q n l n0 : ready i o q n -> lq_tc_off + tc_entry_size <= full_room o -> lq_tc_silent l n = false -> n0 = lq_tc_begin t i o l n ->
  wp (serialize_lq_tc [] (lq_tc_of (core n) o (range o) l) i) (fun _ n' => exists ps o' q', lq_tc_queued t i o q n l ps o' q' n') n0.
Proof.
  intros Hr Hroom Hs ->. unfold lq_tc_queued. rewrite Hs. destruct (lq_tc_begin_same t i o l n) as (_ & Eo & Es). rewrite <- Es, <- (room_range o).
  eapply wp_mono; [apply (wp_serialize_lq_tc _ i (next_range o) q); [by eapply ready_range|by rewrite room_range]|]. cbv beta.
  intros _ n' (ps & o' & q' & He & H). exists ps, o', q'. split; [|done]. erewrite numbered_ext; [exact He|]. intros p s. by rewrite lq_tc_part_sent.
Qed.

Lemma wp_lq_tc_choice t i o q n l n1 : ready i o q n -> lq_tc_off + tc_entry_size <= full_room o -> empty_tc_time = Some t ->
  n1 = set_outs (<[i := next_range o]> (outs n)) (set_lq_tc_pending true n) -> let m := lq_tc_of (core n) o (range o) l in
  wp (if negb (bool_decide (l = [])) then do* modify (set_prev_empty 0) in serialize_lq_tc [] m i
      else if prev_empty n =? 0 then do* start_empty_tc in do* modify (set_prev_empty 1) in serialize_lq_tc [] m i
      else let* now := gets (fun n => now_times (core n)) in let* timer := get_empty_tc_timer in
           when (negb (olsr_isTimedOut now timer)) (serialize_lq_tc [] m i))
    (fun _ n' => exists ps o' q', lq_tc_queued t i o q n l ps o' q' n') n1.
Proof.
  intros Hr Hroom Ht -> m. destruct (bool_decide (l = [])) eqn:El; cbn [negb]; [destruct (prev_empty n =? 0) eqn:Ep|].
  - unfold start_empty_tc, set_empty_tc_timer. wp_step. wp_step. eapply wp_gets_opt; [exact Ht|]. wp_step. wp_step. wp_step. wp_step. wp_step.
    apply wp_lq_tc_write; [done..| |]; unfold lq_tc_silent, lq_tc_begin; rewrite El, Ep; done.
  - unfold get_empty_tc_timer. wp_step. wp_step. wp_step. wp_step.
    change (olsr_isTimedOut _ _) with (olsr_isTimedOut (now_times (core n)) (send_empty_tc n)). destruct (olsr_isTimedOut _ _) eqn:Eto; cbn [negb when].
    + apply wp_ret. exists [], (next_range o), q. unfold lq_tc_queued, lq_tc_silent. rewrite El, Ep, Eto. split_and!; [|done..].
      replace (set_outs _ _) with (lq_tc_begin t i o l n) by (unfold lq_tc_begin; by rewrite El, Ep).
      apply emitted_refl. destruct (lq_tc_begin_same t i o l n) as (_ & Eo & Es). by eapply ready_range.
    + apply wp_lq_tc_write; [done..| |]; unfold lq_tc_silent, lq_tc_begin; rewrite El, Ep, ?Eto; done.
  - wp_step. wp_step. apply wp_lq_tc_write; [done..| |]; unfold lq_tc_silent, lq_tc_begin; by rewrite El.
Qed.

(** C17: A TC message with link quality announces exactly the neighbours to be announced that have a link that works, sorted, in parts that
    the receivers read, whose border flags are those of the addresses next to them; without neighbours it tells so for a while. *)
Theorem olsr_output_lq_tc_correct t i o q n :
  ready i o q n -> net_wf (core n) -> lq_tc_off + tc_entry_size <= full_room o -> empty_tc_time = Some t -> is_Some (buffer_delay (olsr_random (random_count (core n)))) ->
  wp (olsr_output_lq_tc [] i) (fun _ n' => exists l ps o' q' n1,
    lists_neighbors (core n) (all_elems (neighbortable (core n))) l /\
    emitted i (numbered (lq_tc_sent (lq_tc_of (core n) o (range o) l)) (message_seqno n) ps) (next_range o) q (lq_tc_begin t i o l n) o' q' n1 /\
    (if lq_tc_silent l n then ps = [] else lq_tc_parts l ps) /\
    Forall (fun p => lq_tc_off + tc_entry_size * Z.of_nat (length (lp_neigh p)) <= full_room o) ps /\
    settled i (negb (immediate_send_tc o)) o' q' n1 n') n.
Proof.
  intros Hr Hwf Hroom Ht Hd. unfold olsr_output_lq_tc. wp_step. eapply wp_mono; [by apply (wp_create_lq_tc i o); [apply Hr|]|]. cbv beta.
  intros m n1 (-> & l & -> & Hl). wp_step. wp_step. wp_step. eapply wp_mono; [by apply (wp_lq_tc_choice t i o q n l)|]. cbv beta.
  intros _ n2 (ps & o' & q' & He & Hps & Hf). wp_step. eapply wp_output_pending; [apply He|]. wp_step. eapply wp_get_out; [apply He|].
  assert (immediate_send_tc o' = immediate_send_tc o) as ->.
  { destruct (em_limits _ _ _ _ _ _ _ _ He) as [(b & s & ->) _]. unfold next_range. by destruct (lq_fish >? 0). }
  eapply wp_mono; [apply (wp_settle i (negb (immediate_send_tc o)) o' q' n2); [apply He|]|].
  - destruct (strip_core _ _ (em_rest _ _ _ _ _ _ _ _ He)) as [-> _]. by destruct (lq_tc_begin_same t i o l n) as [-> _].
  - cbv beta. intros _ n' Hset. by exists l, ps, o', q', n2.
Qed.

(** ** The borders between the parts of a message *)

Definition addr_lt (x y : lq_tc_neighbor) : Prop := avl_comp_default ip_version (ltn_address x) (ltn_address y) < 0.

Lemma comp6_lt a b : (avl_comp_default AF_INET6 a b < 0 <-> be_val (ip_bytes 16 a) < be_val (ip_bytes 16 b)) /\
  (avl_comp_default AF_INET6 a b <= 0 <-> be_val (ip_bytes 16 a) <= be_val (ip_bytes 16 b)).
Proof. apply (memcmp_be (ip_bytes 16 a) (ip_bytes 16 b)); [by rewrite !length_ip_bytes|apply ip_bytes_u8..]. Qed.

(** A border between two addresses that is the same for both of them. *)
Lemma border_between a b fill fill' : ip_version = AF_INET6 -> is_u8 fill -> is_u8 fill' -> avl_comp_default AF_INET6 a b < 0 ->
  let flag := calculate_border_flag (ip_bytes (ipsize ip_version) a) (ip_bytes (ipsize ip_version) b) in exists border : ip_addr,
  tc_border flag fill (ip_bytes (ipsize ip_version) a) = Some (ip_bytes (ipsize ip_version) border) /\
  tc_border flag fill' (ip_bytes (ipsize ip_version) b) = Some (ip_bytes (ipsize ip_version) border) /\
  avl_comp_default AF_INET6 a border < 0 /\ avl_comp_default AF_INET6 border b <= 0.
Proof.
  intros Hv H1 H2 Hab. rewrite Hv. cbn [ipsize]. destruct (comp6_lt a b) as [Hlt _].
  destruct (borders_agree (ip_bytes 16 a) (ip_bytes 16 b) fill fill') as (l & E1 & E2 & El & Hu & Hr);
    [rewrite !length_ip_bytes; lia|by rewrite !length_ip_bytes|apply ip_bytes_u8..|by apply Hlt|done|done|].
  rewrite length_ip_bytes in El. pose proof (ip_bytes_of l Hu) as Hl. rewrite El in Hl. exists (ip_of_bytes l). rewrite Hl.
  split; [done|]. split; [done|]. split; [apply comp6_lt; rewrite Hl; lia|apply comp6_lt; rewrite Hl; lia].
Qed.

Lemma strongly_sorted_split {A} (R : A -> A -> Prop) l1 l2 x y : StronglySorted R (l1 ++ l2) -> x ∈ l1 -> y ∈ l2 -> R x y.
Proof. intros H Hx Hy. by eapply StronglySorted_app_1_elem_of. Qed.

Lemma elem_of_last {A} (l : list A) x : x ∈ l ++ [x].
Proof. apply elem_of_app. right. by left. Qed.

(** C18: With IPv6, two parts of a TC message with link quality that are next to each other tell the receivers the same border: all addresses of the parts up to it are
    below and none of those after it is, so that a receiver judges each address by one part only. This is a property of IPv6 only, where the order of the addresses is that of their bytes;
    with IPv4 on a host with the low byte first it fails, see [lq_tc_borders_ipv4] below. *)
Theorem lq_tc_borders_agree l ps ps1 x y ps2 :
  ip_version = AF_INET6 -> lq_tc_parts l ps -> StronglySorted addr_lt l -> ps = ps1 ++ x :: y :: ps2 ->
  exists (a b : lq_tc_neighbor) (border : ip_addr), last (lp_neigh x) = Some a /\ head (lp_neigh y) = Some b /\
    tc_border (lp_upper x) 255 (ip_bytes (ipsize ip_version) (ltn_address a)) = Some (ip_bytes (ipsize ip_version) border) /\
    tc_border (lp_lower y) 0 (ip_bytes (ipsize ip_version) (ltn_address b)) = Some (ip_bytes (ipsize ip_version) border) /\
    Forall (fun e => avl_comp_default ip_version (ltn_address e) border < 0) (concat (map lp_neigh (ps1 ++ [x]))) /\
    Forall (fun e => avl_comp_default ip_version border (ltn_address e) <= 0) (concat (map lp_neigh (y :: ps2))).
Proof.
  intros Hv [H1 _ _ Hc] Hs ->. assert (joined x y) as (Eu & a & b & Ha & Hb & Ef).
  { apply (Hc (length ps1)); [by apply list_lookup_middle|]. rewrite (lookup_app_r ps1) by lia. rewrite Nat.sub_succ_l, Nat.sub_diag by lia. reflexivity. }
  assert (exists xs, lp_neigh x = xs ++ [a]) as [xs Exs] by (by apply last_Some).
  assert (exists ys, lp_neigh y = b :: ys) as [ys Eys] by (destruct (lp_neigh y) as [|? ys]; [done|]; injection Hb as ->; by exists ys).
  set (before := concat (map lp_neigh ps1) ++ xs). set (after := ys ++ concat (map lp_neigh ps2)).
  assert (l = (before ++ [a]) ++ b :: after) as El.
  { rewrite <- H1, map_app, concat_app. cbn [map concat]. rewrite Exs, Eys. unfold before, after. by rewrite <- !app_assoc. }
  rewrite El in Hs. assert (addr_lt a b) as Hab by exact (strongly_sorted_split _ _ _ _ _ Hs (elem_of_last _ _) (list_elem_of_here _ _)). unfold addr_lt in *. rewrite Hv in Hab.
  destruct (border_between (ltn_address a) (ltn_address b) 255 0 Hv ltac:(unfold is_u8; lia) ltac:(unfold is_u8; lia) Hab) as (border & E1 & E2 & L1 & L2).
  exists a, b, border. rewrite <- Eu, Ef. do 4 (split; [done|]). rewrite Hv in *. pose proof (comp_trans (comp := avl_comp_default AF_INET6)) as Htr. split.
  - rewrite map_app, concat_app. cbn [map concat]. rewrite app_nil_r, Exs, app_assoc. fold before. apply Forall_app. split; [|by repeat constructor].
    apply Forall_forall. intros e He. rewrite <- app_assoc in Hs. pose proof (strongly_sorted_split _ _ _ e a Hs He (list_elem_of_here _ _)) as Hea. cbv beta in Hea.
    apply comp6_lt in Hea, L1. apply comp6_lt. lia.
  - cbn [map concat]. rewrite Eys. cbn [app]. fold after. constructor; [done|]. apply Forall_forall. intros e He.
    apply Htr with (ltn_address b); [done|].
    change (b :: after) with ([b] ++ after) in Hs. rewrite app_assoc in Hs. pose proof (strongly_sorted_split _ _ _ b e Hs (elem_of_last _ _) He) as Hbe. cbv beta in Hbe. lia.
Qed.

End lq_spec.

(** With IPv4 the addresses are ordered as numbers of the host, but the border is computed from the bytes in the order of the network. On a
    host with the low byte first, 2.0.0.9 is before 1.0.0.10; between two parts that end and start there both receivers get the border 2.0.0.0, which is
    not above 2.0.0.9: the first part does not speak for its own last address. *)
Theorem lq_tc_borders_ipv4 : let a := 2 + 9 * 2 ^ 24 : ip_addr in let b := 1 + 10 * 2 ^ 24 : ip_addr in
  let flag := calculate_border_flag (ip_bytes 4 a) (ip_bytes 4 b) in exists border : ip_addr, ip_bytes 4 border = [2; 0; 0; 0] /\
  avl_comp_default AF_INET a b < 0 /\ tc_border flag 255 (ip_bytes 4 a) = Some (ip_bytes 4 border) /\
  tc_border flag 0 (ip_bytes 4 b) = Some (ip_bytes 4 border) /\ avl_comp_default AF_INET border a < 0.
Proof. exists 2. vm_compute. done. Qed.

(** ** Witnesses *)

Section lq_witnesses.
#[local] Existing Instance sample_cnf.
#[local] Existing Instance sample_lq.
#[local] Existing Instance sample_sizes.
#[local] Instance fish_ncf : node_config :=
  {| min_tc_vtime := S754_zero false; max_jitter := S754_zero false; max_tc_vtime := S754_zero false; lq_fish := 1 |}.

(** The link of LinkSpec.v to 201 over eth0: the address 201 is told, and no other. *)
Lemma olsr_output_lq_hello_correct_witness :
  wp (olsr_output_lq_hello [] 0) (fun _ n' => exists l parts, lq_hello_lists lk1 eth0 l /\ parts <> [] /\
    map lq_told (spread (concat parts)) ≡ₚ map lq_tells l /\ (exists e, e ∈ l /\ lhn_addr e = 201 /\ lhn_link_type e <> UNSPEC_LINK) /\
    Forall (fun part => lq_hello_off + Z.of_nat (length (info_bytes part)) <= 56) parts) (sender 60 lk1 []).
Proof.
  destruct (sender_ready 60 lk1 []) as (o & Hr & Hf & Ho & _ & Hc & _ & Hw & _); [lia|].
  pose proof (olsr_output_lq_hello_correct 0 o [] (sender 60 lk1 []) Hr) as H. rewrite Hc, Hw, Ho, Hf in H.
  eapply wp_mono; [apply H|].
  - exact lk1_wf.
  - vm_compute. discriminate.
  - vm_compute. eexists. reflexivity.
  - cbv beta. intros _ n' (l & parts & o' & q' & n1 & Hl & _ & Hne & _ & Hp & Hz & _). exists l, parts. split; [exact Hl|]. split; [exact Hne|]. split; [exact (Hp eq_refl)|].
    split; [|exact Hz].
    assert (exists x, links lk1 !! 2%positive = Some x /\ neighbor_iface_addr x = 201 /\ local_iface_addr x = if_ip_addr eth0) as (x & Hx & Ha & Hloc)
      by (eexists; do 2 (split; [vm_compute; reflexivity|]); vm_compute; reflexivity).
    destruct (lhl_all _ _ _ Hl 2%positive x Hx) as (e & He & Hea & Ht). exists e. split; [exact He|]. split; [rewrite Hea; exact Ha|exact (Ht Hloc)].
Defined.

End lq_witnesses.

Section lq_tc_witness.
#[local] Existing Instance quality_cnf.
#[local] Existing Instance sample_lq.
#[local] Existing Instance sample_sizes.
#[local] Existing Instance fish_ncf.

(** 200 is announced, for the range that is the first of the list. *)
Lemma olsr_output_lq_tc_correct_witness :
  wp (olsr_output_lq_tc [] 0) (fun _ n' => exists ps o, concat (map lp_neigh ps) = omap (lq_tc_listed qm3) (all_elems (neighbortable qm3)) /\
    map ltn_address (concat (map lp_neigh ps)) = [200] /\ range o = 2) (sender 60 qm3 []).
Proof.
  destruct (sender_ready 60 qm3 []) as (o & Hr & Hf & _ & _ & Hc & _); [lia|].
  assert (range o = 2) as Hrange by (destruct Hr as [Hr _ _ _]; vm_compute in Hr; injection Hr as <-; reflexivity).
  pose proof (olsr_output_lq_tc_correct 0 0 o [] (sender 60 qm3 []) Hr) as H. unfold lq_tc_silent in H. rewrite Hc, Hf in H.
  eapply wp_mono; [apply H|].
  - exact qm3_wf.
  - vm_compute. discriminate.
  - vm_compute. reflexivity.
  - vm_compute. eexists. reflexivity.
  - cbv beta. intros _ n' (l & ps & o' & q' & n1 & [Hl _] & _ & Hps & _). exists ps, o.
    assert (exists x, omap (lq_tc_listed qm3) (all_elems (neighbortable qm3)) = [x] /\ ltn_address x = 200) as (x & Ex & Ea) by (eexists; split; vm_compute; reflexivity).
    rewrite Ex in *. apply Permutation_singleton_r in Hl as ->. cbn [bool_decide andb] in Hps. destruct Hps as [-> _ _ _].
    split; [done|]. split; [cbn [map]; by rewrite Ea|done].
Defined.

End lq_tc_witness.

Section ipv6_witness.
#[local] Existing Instance ipv6_cnf.
#[local] Existing Instance sample_lq.

Definition lq_at (a : ip_addr) : lq_tc_neighbor := {| ltn_address := a; ltn_linkquality := [] |}.
Definition flag_between (a b : ip_addr) : Z := calculate_border_flag (ip_bytes 16 a) (ip_bytes 16 b).

(** The addresses ::, ::0100 and ::0905, in two parts. *)
Definition two_parts : list lq_part :=
  [ {| lp_lower := 255; lp_neigh := [lq_at 0; lq_at (2 ^ 112)]; lp_upper := flag_between (2 ^ 112) (9 * 2 ^ 112 + 5 * 2 ^ 120) |};
    {| lp_lower := flag_between (2 ^ 112) (9 * 2 ^ 112 + 5 * 2 ^ 120); lp_neigh := [lq_at (9 * 2 ^ 112 + 5 * 2 ^ 120)]; lp_upper := 255 |} ].

Lemma lq_tc_borders_agree_witness : exists border : ip_addr, flag_between (2 ^ 112) (9 * 2 ^ 112 + 5 * 2 ^ 120) = 12 /\
  Forall (fun e => avl_comp_default AF_INET6 e border < 0) ([0; 2 ^ 112] : list ip_addr) /\ avl_comp_default AF_INET6 border (9 * 2 ^ 112 + 5 * 2 ^ 120) <= 0.
Proof.
  destruct (lq_tc_borders_agree (concat (map lp_neigh two_parts)) two_parts [] (hd {| lp_lower := 0; lp_neigh := []; lp_upper := 0 |} two_parts)
    {| lp_lower := flag_between (2 ^ 112) (9 * 2 ^ 112 + 5 * 2 ^ 120); lp_neigh := [lq_at (9 * 2 ^ 112 + 5 * 2 ^ 120)]; lp_upper := 255 |} []) as (a & b & border & _ & _ & _ & _ & H1 & H2).
  - reflexivity.
  - split; [reflexivity..|]. intros [|[|k]] x y Hx Hy; [|discriminate Hy..]. injection Hx as <-. injection Hy as <-.
    split; [reflexivity|]. exists (lq_at (2 ^ 112)), (lq_at (9 * 2 ^ 112 + 5 * 2 ^ 120)). split; [reflexivity|]. split; reflexivity.
  - unfold two_parts. cbn [map concat lp_neigh app]. repeat constructor; reflexivity.
  - reflexivity.
  - exists border. split; [vm_compute; reflexivity|]. split.
    + inversion H1 as [|? ? L1 H1']. inversion H1' as [|? ? L2 _]. constructor; [exact L1|]. constructor; [exact L2|constructor].
    + inversion H2 as [|? ? L _]. exact L.
Defined.

End ipv6_witness.
