(* ===== verification/Forward.v ===== *)
(** * olsr.c: forwarding of messages, message numbers, start

    A message is the list of its bytes, up to the end of the buffer it was received in. *)

From S2P Require Import Prelude Timer Mantissa Avl IpAddr KeyTree DupSet State MidLookup NeighTable Interfaces Packet LsdbOps Lq RouteTable TcSet LinkSet Mpr MprSel MidSet Hello Node NetOlsr Hna BuildMsg GenMsg.

Definition IF_MODE_MESH : Z := 0.
Definition IF_MODE_ETHER : Z := 1.
Definition IF_MODE_SILENT : Z := 2.

(** The header of [union olsr_message], in the order of the host. *)
Record olsr_message := {
  m_msgtype : Z;
  m_vtime : Z;
  m_msgsize : Z;
  m_originator : ip_addr;
  m_ttl : Z;
  m_hopcnt : Z;
  m_seqno : Z;
}.

(** What [apm_read] finds out about the power supply. *)
Record olsr_apm_info := {
  ac_line_status : Z;
  battery_percentage : Z;
}.

Definition OLSR_AC_POWERED : Z := 1.

Section forward.
Context {cnf : olsrd_config} {ncf : node_config} {lqh : lq_handler}.
Variable ptf_list : list packet_transform_function.

Definition read_message (m : list Z) : option olsr_message :=
  '(msgtype, p) ← pkt_get_u8 m;
  '(vtime, p) ← pkt_get_u8 p;
  '(msgsize, p) ← pkt_get_u16 p;
  '(originator, p) ← pkt_get_ipaddress p;
  '(ttl, p) ← pkt_get_u8 p;
  '(hopcnt, p) ← pkt_get_u8 p;
  '(seqno, p) ← pkt_get_u16 p;
  Some {| m_msgtype := msgtype; m_vtime := vtime; m_msgsize := msgsize; m_originator := originator; m_ttl := ttl; m_hopcnt := hopcnt; m_seqno := seqno |}.

(** ** Message numbers *)

Definition init_msg_seqno : NM unit :=
  let* k := gets (fun n => random_count (core n)) in
  do* lift (modify (set_random_count (k + 1))) in
  modify (set_message_seqno (Z.land (olsr_random k) 65535)).

(** Whether [seqno] is after the number of the next message. *)
Definition olsr_is_bad_duplicate_msg_seqno (message_seqno seqno : Z) : bool :=
  let diff := seqno - message_seqno in
  let diff := if diff <? -32768 then diff + 65536 else if diff >? 32767 then diff - 65536 else diff in
  diff >? 0.

(** ** Forwarding *)

(** The byte of the TTL; the hop count follows. *)
Definition ttl_byte : nat := 4 + ipsize ip_version.

Definition count_hop (h : olsr_message) (m : list Z) : list Z :=
  <[ttl_byte := u8 (m_ttl h - 1)]> (<[S ttl_byte := u8 (m_hopcnt h + 1)]> m).

Definition is_ttl_1 (h : olsr_message) : bool := (m_ttl h <? 2) || (255 <? m_hopcnt h + m_ttl h).

Definition message_is_duplicate (h : olsr_message) : NM bool :=
  let* now := gets (fun n => now_times (core n)) in
  let* r := gets_opt (fun n => olsr_message_is_duplicate now (dups n) {| msg_originator := m_originator h; msg_seqno := m_seqno h |}) in
  let '(dup, d) := r in
  do* modify (set_dups d) in ret dup.

(** The interfaces over which nothing is sent. *)
Definition skips_interface (ttl_1 : bool) (in_if ifn : nat) (mode : Z) : bool :=
  (mode =? IF_MODE_SILENT) || (bool_decide (ifn = in_if) && (mode =? IF_MODE_ETHER)) || (ttl_1 && negb (mode =? IF_MODE_ETHER)).

Definition forward_over (m : list Z) (msgsize : Z) (ttl_1 : bool) (in_if ifn : nat) : NM unit :=
  let* o := get_out ifn in
  if skips_interface ttl_1 in_if ifn (int_mode o) then ret tt
  else
    let* pending := net_output_pending ifn in
    if negb (pending =? 0) then
      let* pushed := net_outbuffer_push ifn m msgsize in
      when (negb (pushed =? msgsize))
        (let* _ := net_output ptf_list ifn in
         do* set_buffer_timer ifn in
         let* _ := net_outbuffer_push ifn m msgsize in ret tt)
    else
      do* set_buffer_timer ifn in
      let* _ := net_outbuffer_push ifn m msgsize in ret tt.

(** Whether messages that [src] sends are to be relayed. *)
Definition relays_for (src : ip_addr) : OM bool :=
  let* neighbor := olsr_lookup_neighbor_table src in
  match neighbor with
  | None => ret false
  | Some p =>
      let* n := get_nbr p in
      if negb (status n =? SYM) then ret false
      else
        let* mprs := olsr_lookup_mprs_set src in
        ret (match mprs with Some _ => true | None => false end)
  end.

Definition olsr_forward_message (m : list Z) (in_if : nat) (from_addr : ip_addr) : NM Z :=
  let* h := gets_opt (fun _ => read_message m) in
  let* src := lift (mid_lookup_main_addr from_addr) in
  let* relay := lift (relays_for (default from_addr src)) in
  if negb relay then ret 0
  else
    let* dup := message_is_duplicate h in
    if dup then ret 0
    else
      let m := if negb (is_ttl_1 h) then count_hop h m else m in
      let* ifs := gets (fun n => seq 0 (length (outs n))) in
      do* forM_ ifs (forward_over m (m_msgsize h) (is_ttl_1 h) in_if) in
      ret 1.

(** ** Willingness *)

Definition olsr_calculate_willingness (willingness_auto : bool) (apm : option olsr_apm_info) (willingness : Z) : Z :=
  if negb willingness_auto then u8 willingness
  else
    match apm with
    | None => WILL_DEFAULT
    | Some ainfo => if ac_line_status ainfo =? OLSR_AC_POWERED then 6 else u8 (Z.quot (battery_percentage ainfo) 26)
    end.

Definition olsr_update_willingness (willingness_auto : bool) (apm : option olsr_apm_info) : NM unit :=
  modify (fun n => set_own_willingness (olsr_calculate_willingness willingness_auto apm (own_willingness n)) n).

(** ** Start *)

Definition olsr_init_tables : NM unit :=
  do* lift (modify (set_changes_topology false)) in
  do* lift (modify (set_changes_neighborhood false)) in
  do* lift (modify (set_changes_hna false)) in
  do* lift olsr_init_link_set in
  do* modify (set_dups olsr_init_duplicate_set) in
  do* lift olsr_init_neighbor_table in
  do* lift olsr_init_routing_table in
  do* lift olsr_init_two_hop_table in
  do* lift olsr_init_tc in
  do* lift olsr_init_mprs_set in
  let* _ := lift olsr_init_mid_set in
  let* _ := olsr_init_hna_set in
  ret tt.

End forward.
