(* ===== verification/ForwardSpec.v ===== *)
(** * Forwarding: a message goes on to the other nodes

    The stream of an interface, the packets sent and the bytes queued, is that of
    BuildProofs.v. *)

From S2P Require Import Prelude Timer Mantissa Avl IpAddr KeyTree DupSet State MidLookup NeighTable NeighProofs Interfaces NeighSpec Packet LsdbOps Lq RouteTable TcSet LsdbProofs TcSpec LinkSet LinkProofs LinkBest LinkSpec.
From S2P Require Import Mpr MprSel MidSet Hello Node NetOlsr Hna HnaSpec NetSpec BuildMsg BuildProofs GenMsg GenSpec AnnounceSpec Forward.

(** ** Message numbers *)

Section numbers.

Lemma circle_diff m s : is_u16 m -> is_u16 s -> (s - m) mod 65536 = if s <? m then s - m + 65536 else s - m.
Proof.
  unfold is_u16. intros Hm Hs. destruct (Z.ltb_spec s m); [|apply Z.mod_small; lia].
  rewrite <- (Z.mod_small (s - m + 65536) 65536) by lia. by rewrite <- (Z_mod_plus_full (s - m) 1 65536).
Qed.

(** A number is taken for that of another node with the address of this one exactly if it is one of the 32767 numbers from the next one on,
    counted on the circle of the 16-bit numbers, the next one itself left out. *)
Theorem olsr_is_bad_duplicate_msg_seqno_circle m s : is_u16 m -> is_u16 s ->
  olsr_is_bad_duplicate_msg_seqno m s = true <-> exists k, 1 <= k <= 32767 /\ s = u16 (m + k).
Proof.
  intros Hm Hs. transitivity (1 <= (s - m) mod 65536 <= 32767).
  - rewrite circle_diff by done. unfold is_u16, olsr_is_bad_duplicate_msg_seqno in *. rewrite !Z.gtb_ltb, Z.ltb_lt.
    destruct (Z.ltb_spec s m), (Z.ltb_spec (s - m) (-32768)), (Z.ltb_spec 32767 (s - m)); lia.
  - unfold is_u16, u16 in *. split.
    + intros Hk. exists ((s - m) mod 65536). split; [done|]. rewrite Zplus_mod_idemp_r. replace (m + (s - m)) with s by lia. symmetry. by apply Z.mod_small.
    + intros (k & Hk & ->). rewrite Zminus_mod_idemp_l. replace (m + k - m) with k by lia. rewrite Z.mod_small; lia.
Qed.

End numbers.

(** ** The header of a message *)

Section header.
Context {cnf : olsrd_config}.

Lemma read_message_typed m h : read_message m = Some h -> Forall is_u8 m -> is_u16 (m_seqno h) /\ is_u16 (m_msgsize h).
Proof.
  unfold read_message, pkt_get_ipaddress. destruct m as [|x0 [|x1 [|x2 [|x3 m]]]]; try done. simpl. set (k := ipsize ip_version).
  destruct (length m <? k)%nat; [done|]. simpl. destruct (drop k m) as [|ttl [|hop [|a [|b rest]]]] eqn:Ed; try done. simpl. intros [= <-] Hu. simpl.
  apply Forall_cons in Hu as [_ Hu]. apply Forall_cons in Hu as [_ Hu]. apply Forall_cons in Hu as [U2 Hu]. apply Forall_cons in Hu as [U3 Hu].
  apply (Forall_drop _ k) in Hu. rewrite Ed in Hu. do 2 apply Forall_cons in Hu as [_ Hu]. apply Forall_cons in Hu as [Ua Hu]. apply Forall_cons in Hu as [Ub _].
  unfold is_u8, is_u16 in *. lia.
Qed.

(** One hop further. *)
Definition next_hop_header (h : olsr_message) : olsr_message :=
  {| m_msgtype := m_msgtype h; m_vtime := m_vtime h; m_msgsize := m_msgsize h; m_originator := m_originator h;
     m_ttl := m_ttl h - 1; m_hopcnt := m_hopcnt h + 1; m_seqno := m_seqno h |}.

(** The bytes of a message around its TTL and hop count. *)
Lemma read_message_split m h : read_message m = Some h -> exists pre a b rest,
  m = pre ++ m_ttl h :: m_hopcnt h :: a :: b :: rest /\ length pre = ttl_byte /\
  forall ttl hop, read_message (pre ++ ttl :: hop :: a :: b :: rest) = Some
    {| m_msgtype := m_msgtype h; m_vtime := m_vtime h; m_msgsize := m_msgsize h; m_originator := m_originator h; m_ttl := ttl; m_hopcnt := hop; m_seqno := m_seqno h |}.
Proof.
  unfold read_message, pkt_get_ipaddress, ttl_byte. destruct m as [|x0 [|x1 [|x2 [|x3 m]]]]; try done. simpl. set (k := ipsize ip_version).
  destruct (Nat.ltb_spec (length m) k) as [|Hl]; [done|]. simpl.
  destruct (drop k m) as [|ttl [|hop [|a [|b rest]]]] eqn:Ed; try done. simpl. intros [= <-]. simpl.
  exists (x0 :: x1 :: x2 :: x3 :: take k m), a, b, rest. split; [|split].
  - simpl. do 4 f_equal. by rewrite <- Ed, take_drop.
  - simpl. rewrite length_take. lia.
  - intros ttl' hop'. simpl. assert (length (take k m) = k) as Ek by (rewrite length_take; lia).
    destruct (Nat.ltb_spec (length (take k m ++ ttl' :: hop' :: a :: b :: rest)) k) as [Hlt|_]; [rewrite length_app in Hlt; lia|].
    simpl. rewrite (take_app_length' (take k m)), (drop_app_length' (take k m)) by done. done.
Qed.

Lemma count_hop_split h pre ttl hop rest : length pre = ttl_byte ->
  count_hop h (pre ++ ttl :: hop :: rest) = pre ++ u8 (m_ttl h - 1) :: u8 (m_hopcnt h + 1) :: rest.
Proof.
  intros Hl. unfold count_hop. rewrite !insert_app_r_alt by lia. rewrite Hl, Nat.sub_diag. by replace (S ttl_byte - ttl_byte)%nat with 1%nat by lia.
Qed.

(** Counting a hop changes two bytes, and the header as it should. *)
Lemma count_hop_read m h : read_message m = Some h -> Forall is_u8 m -> is_ttl_1 h = false ->
  read_message (count_hop h m) = Some (next_hop_header h) /\ length (count_hop h m) = length m.
Proof.
  intros Hm Hu Ht. destruct (read_message_split m h Hm) as (pre & a & b & rest & E & Hl & Hr). unfold is_ttl_1 in Ht. bool_hyps.
  rewrite E in Hu. apply Forall_app in Hu as [_ Hu]. apply Forall_cons in Hu as [U1 Hu]. apply Forall_cons in Hu as [U2 _]. unfold is_u8 in *.
  assert (count_hop h m = pre ++ (m_ttl h - 1) :: (m_hopcnt h + 1) :: a :: b :: rest) as ->.
  { rewrite E at 1. rewrite count_hop_split by done. unfold u8. by rewrite !Z.mod_small by lia. }
  split; [by rewrite Hr|]. rewrite E. by rewrite !length_app.
Qed.

End header.

(** ** One interface *)

Section forward_over.
Context {cnf : olsrd_config} {ncf : node_config}.

(** The interface apart from its buffer, its packet number and the timer of the buffer. *)
Definition same_interface (o o' : out_interface) : Prop :=
  set_fwdtimer 0 (set_olsr_seqnum 0 (set_netbuf (netbuf o) o')) = set_fwdtimer 0 (set_olsr_seqnum 0 o) /\ maxsize (netbuf o') = maxsize (netbuf o).

#[export] Instance same_interface_preorder : PreOrder same_interface.
Proof.
  split; [by intros o|]. intros [] [] [] [E1 M1] [E2 M2]. unfold same_interface in *. simpl in *. split; [|congruence].
  injection E1 as -> -> -> -> -> -> -> ->. by injection E2 as -> -> -> -> -> -> -> ->.
Qed.

Lemma limits_interface o o' : same_limits o o' -> same_interface o o'.
Proof. intros [(b & s & ->) [M _]]. split; [by destruct o|done]. Qed.

(** The node apart from the interfaces, what was sent, and how many random numbers were drawn. *)
Definition fwd_strip (n : node) : node :=
  set_outs [] (set_sent [] (set_lq_tc_pending false (set_core (set_random_count 0 (core n)) n))).

(** The queue [q] of an interface, for messages whose size is a 16-bit number. *)
Definition queue_ok (o : out_interface) (q : list Z) : Prop := holds o q /\ Z.of_nat (length q) <= maxsize (netbuf o) < 65536.

(** From [n] to [n'] the bytes [data] were handed to the stream of interface [i], and to no other. *)
Record handed (i : nat) (data : list Z) (o : out_interface) (q : list Z) (n : node) (o' : out_interface) (q' : list Z) (n' : node) : Prop := {
  hd_queue : queue_ok o' q';
  hd_same : same_interface o o';
  hd_outs : outs n' = <[i := o']> (outs n);
  hd_stream : payloads i n' ++ q' = payloads i n ++ q ++ data;
  hd_others j : j <> i -> payloads j n' = payloads j n;
  hd_rest : fwd_strip n' = fwd_strip n;
}.

Lemma handed_out i data o q n o' q' n' : handed i data o q n o' q' n' -> outs n !! i = Some o -> outs n' !! i = Some o'.
Proof. intros H Ho. rewrite (hd_outs _ _ _ _ _ _ _ _ H). apply list_lookup_insert_eq. by eapply lookup_lt_Some. Qed.

Lemma handed_trans i a b o q n o1 q1 n1 o2 q2 n2 : handed i a o q n o1 q1 n1 -> handed i b o1 q1 n1 o2 q2 n2 -> handed i (a ++ b) o q n o2 q2 n2.
Proof.
  intros [A1 A2 A3 A4 A5 A6] [B1 B2 B3 B4 B5 B6]. split.
  - done.
  - by etrans.
  - by rewrite B3, A3, list_insert_insert_eq.
  - by rewrite B4, app_assoc, A4, <- !app_assoc.
  - intros j Hj. by rewrite B5, A5.
  - congruence.
Qed.

Lemma handed_refl i o q n : outs n !! i = Some o -> queue_ok o q -> handed i [] o q n o q n.
Proof. intros Ho Hq. split; try done. - symmetry. by apply list_insert_id. - by rewrite app_nil_r. Qed.

Lemma wp_timer_handed i o q n : outs n !! i = Some o -> queue_ok o q -> (forall k, is_Some (buffer_delay (olsr_random k))) ->
  wp (set_buffer_timer i) (fun _ n' => exists o', handed i [] o q n o' q n') n.
Proof.
  intros Ho Hq Hd. unfold set_buffer_timer. wp_step. wp_step. wp_step. apply wp_lift. wp_step. wp_step.
  destruct (Hd (random_count (core n))) as [t Ht]. eapply wp_gets_opt; [exact Ht|]. wp_step. wp_step. eapply wp_upd_out; [exact Ho|].
  exists (set_fwdtimer (olsr_getTimestamp (now_times (core n)) t) o). split; try done. by rewrite app_nil_r.
Qed.

Lemma wp_output_handed i o q n : outs n !! i = Some o -> queue_ok o q ->
  wp (net_output [] i) (fun _ n' => exists o', handed i [] o q n o' [] n') n.
Proof.
  intros Ho [Hh Hm]. eapply wp_mono; [by apply wp_net_output|]. cbv beta. intros r n' H. case_bool_decide as Eq.
  - destruct H as [_ ->]. subst q. exists o. by apply handed_refl.
  - destruct H as (_ & o' & Hh' & Hl & _ & ->). exists o'. apply limits_interface in Hl as Hi. split; try done.
    + split; [done|]. rewrite (proj2 Hi). simpl. lia.
    + unfold payloads. simpl. rewrite filter_app, map_app, concat_app, !app_nil_r. rewrite filter_cons_True by done. simpl. by rewrite app_nil_r.
    + intros j Hj. unfold payloads. simpl. rewrite filter_app, map_app, concat_app. rewrite filter_cons_False by (simpl; congruence). simpl. by rewrite app_nil_r.
Qed.

(** The bytes that a push appends. *)
Definition pushed (o : out_interface) (q data : list Z) (size : Z) : list Z :=
  if Z.of_nat (length q) + size >? maxsize (netbuf o) then [] else take (Z.to_nat size) data.

Lemma wp_push_handed i data size o q n : outs n !! i = Some o -> queue_ok o q -> 0 <= size <= Z.of_nat (length data) ->
  wp (net_outbuffer_push i data size) (fun r n' => r = (if Z.of_nat (length q) + size >? maxsize (netbuf o) then 0 else size) /\
    exists o', handed i (pushed o q data size) o q n o' (q ++ pushed o q data size) n') n.
Proof.
  intros Ho [Hh Hm] Hs. eapply wp_mono; [apply (wp_outbuffer_push maxsize i data size o q n); [done|done| |done]|].
  { destruct Hh as (l & [_ _ M _] & _). lia. }
  cbv beta. intros r n' (o' & -> & Hl & _ & Hr & Hh'). split; [done|]. exists o'. apply limits_interface in Hl as Hi.
  assert (take (Z.to_nat r) data = pushed o q data size) as Ep by (unfold pushed; rewrite Hr; by destruct (_ >? _)).
  rewrite Ep in Hh'. split; try done. split; [done|]. rewrite (proj2 Hi). rewrite length_app. unfold pushed.
  rewrite Z.gtb_ltb. destruct (Z.ltb_spec (maxsize (netbuf o)) (Z.of_nat (length q) + size)); simpl; [lia|]. rewrite length_take. lia.
Qed.

(** What goes out over an interface: the message if it fits, unless the interface is skipped. *)
Definition relayed (m : list Z) (msgsize : Z) (ttl_1 : bool) (in_if i : nat) (o : out_interface) : list Z :=
  if skips_interface ttl_1 in_if i (int_mode o) || (msgsize >? maxsize (netbuf o)) then [] else take (Z.to_nat msgsize) m.

Lemma wp_forward_over m msgsize ttl_1 in_if i o q n :
  outs n !! i = Some o -> queue_ok o q -> 0 <= msgsize <= Z.of_nat (length m) -> (forall k, is_Some (buffer_delay (olsr_random k))) ->
  wp (forward_over [] m msgsize ttl_1 in_if i) (fun _ n' => exists o' q', handed i (relayed m msgsize ttl_1 in_if i o) o q n o' q' n') n.
Proof.
  intros Ho Hq Hs Hd. unfold forward_over, relayed. wp_step. eapply wp_get_out; [exact Ho|].
  destruct (skips_interface _ _ _ _); cbn [orb]; [apply wp_ret; exists o, q; by apply handed_refl|].
  assert (forall o1 n1, handed i [] o q n o1 [] n1 -> wp (do* set_buffer_timer i in let* _ := net_outbuffer_push i m msgsize in ret tt)
    (fun _ n' => exists o' q', handed i (if msgsize >? maxsize (netbuf o) then [] else take (Z.to_nat msgsize) m) o q n o' q' n') n1) as Hend.
  { intros o1 n1 H1. wp_step. eapply wp_mono; [apply (wp_timer_handed i o1 []); [by eapply handed_out|apply H1|done]|]. cbv beta. intros _ n2 (o2 & H2).
    wp_step. pose proof (handed_trans _ _ _ _ _ _ _ _ _ _ _ _ H1 H2) as H12. eapply wp_mono; [apply (wp_push_handed i m msgsize o2 []); [by eapply handed_out|apply H2|done]|].
    cbv beta. intros r n3 (_ & o3 & H3). wp_step. exists o3, (pushed o2 [] m msgsize). pose proof (handed_trans _ _ _ _ _ _ _ _ _ _ _ _ H12 H3) as H.
    unfold pushed in *. simpl in *. by rewrite (proj2 (hd_same _ _ _ _ _ _ _ _ H12)) in *. }
  wp_step. unfold net_output_pending. wp_step. eapply wp_get_out; [exact Ho|]. wp_step.
  assert (u16 (pending (netbuf o)) = Z.of_nat (length q)) as ->.
  { rewrite <- (holds_length _ _ (proj1 Hq)). apply u16_small. destruct Hq. unfold is_u16. lia. }
  destruct q as [|x q]; [apply (Hend o n); by apply handed_refl|]. 
  assert (negb (Z.of_nat (length (x :: q)) =? 0) = true) as -> by (apply negb_true_iff, Z.eqb_neq; simpl; lia). wp_step. eapply wp_mono; [by apply (wp_push_handed i m msgsize o (x :: q))|]. cbv beta. intros r n1 (-> & o1 & H1). unfold pushed in H1.
  destruct (Z.of_nat (length (x :: q)) + msgsize >? maxsize (netbuf o)) eqn:E; rewrite Z.gtb_ltb in E; [apply Z.ltb_lt in E|apply Z.ltb_ge in E].
  - assert (0 < msgsize) as Hp by (destruct Hq; lia). assert (negb (0 =? msgsize) = true) as -> by (apply negb_true_iff, Z.eqb_neq; lia). cbn [when].
    rewrite app_nil_r in H1. wp_step. eapply wp_mono; [apply (wp_output_handed i o1 (x :: q)); [by eapply handed_out|apply H1]|]. cbv beta. intros _ n2 (o2 & H2).
    apply (Hend o2). exact (handed_trans _ _ _ _ _ _ _ _ _ _ _ _ H1 H2).
  - rewrite Z.eqb_refl. apply wp_ret. exists o1, (x :: q ++ take (Z.to_nat msgsize) m).
    assert (msgsize >? maxsize (netbuf o) = false) as -> by (rewrite Z.gtb_ltb; apply Z.ltb_ge; simpl in E; lia). exact H1.
Qed.

End forward_over.

(** ** The theorem *)

Section forward_spec.
Context {cnf : olsrd_config} {ncf : node_config} {lqh : lq_handler}.

(** The node [src] is a symmetric neighbour and chose this node as a relay. *)
Definition relays (st : olsr_state) (src : ip_addr) : Prop :=
  (exists p n, nbrs st !! p = Some n /\ neighbor_main_addr n = main_of st src /\ status n = SYM) /\ src ∈ selectors st.

Lemma wp_relays_for src st : net_wf st -> wp (relays_for src) (fun b st' => st' = st /\ (b = true <-> relays st src)) st.
Proof.
  intros [Hnw _]. unfold relays_for, olsr_lookup_neighbor_table, mid_lookup_main_addr. wp_step. wp_step.
  destruct (find_main_addr_safe st src (wf_mid _ _ Hnw)) as [main Hm]. eapply (wp_gets_opt (fun st => find_main_addr st src)); [exact Hm|].
  assert (default src main = main_of st src) as Em by (unfold main_of; by rewrite Hm).
  eapply wp_lookup_alias; [exact Hnw| |].
  - intros p n Hp Ha. wp_step. eapply wp_get_nbr; [exact Hp|]. destruct (Z.eqb_spec (status n) SYM) as [Es|Es]; cbn [negb].
    + unfold olsr_lookup_mprs_set. wp_step. wp_step. wp_step. split; [done|]. rewrite find_mprs_selector, bool_decide_eq_true. unfold relays. split; [|by intros [_ ?]].
      intros H. split; [|done]. exists p, n. split; [done|]. by rewrite Ha, Em.
    + apply wp_ret. split; [done|]. split; [done|]. intros [(p' & n' & Hp' & Ha' & Hs') _]. rewrite <- Em, <- Ha in Ha'.
      rewrite (wf_addr _ _ Hnw p' p n' n Hp' Hp Ha') in Hp'. congruence.
  - intros Hn. apply wp_ret. split; [done|]. split; [done|]. intros [(p & n & Hp & Ha & _) _]. rewrite <- Em in Ha. by destruct (Hn p n Hp).
Qed.

(** Every interface has a queue for messages. *)
Definition queues (n : node) : Prop := forall i o, outs n !! i = Some o -> exists q, queue_ok o q.

(** The interfaces from [k] on are as they were. *)
Definition forwarded_below (k : nat) (data : nat -> out_interface -> list Z) (n n' : node) : Prop :=
  fwd_strip n' = fwd_strip n /\ length (outs n') = length (outs n) /\
  (forall i o q, (i < k)%nat -> outs n !! i = Some o -> queue_ok o q -> exists o' q', outs n' !! i = Some o' /\ queue_ok o' q' /\ same_interface o o' /\
    payloads i n' ++ q' = payloads i n ++ q ++ data i o) /\
  (forall i, (k <= i)%nat -> outs n' !! i = outs n !! i /\ payloads i n' = payloads i n).

Lemma holds_fun o q q' : holds o q -> holds o q' -> q = q'.
Proof. by intros (l & _ & <-) (l' & _ & <-). Qed.

Lemma wp_forward_all m msgsize ttl_1 in_if n :
  queues n -> 0 <= msgsize <= Z.of_nat (length m) -> (forall k, is_Some (buffer_delay (olsr_random k))) ->
  wp (forM_ (seq 0 (length (outs n))) (forward_over [] m msgsize ttl_1 in_if))
    (fun _ n' => forwarded_below (length (outs n)) (relayed m msgsize ttl_1 in_if) n n') n.
Proof.
  intros Hq Hs Hd.
  apply (wp_forM _ _ (fun (rest : list nat) n' => exists k, rest = seq k (length (outs n) - k) /\ (k <= length (outs n))%nat /\ forwarded_below k (relayed m msgsize ttl_1 in_if) n n')).
  - exists 0%nat. rewrite Nat.sub_0_r. split; [done|]. split; [lia|]. split; [done|]. split; [done|]. split; [lia|done].
  - intros i rest n1 (k & E & Hk & (F1 & F2 & F3 & F4)). destruct (length (outs n) - k)%nat as [|d] eqn:Ed; [done|]. cbn [seq] in E. injection E as -> ->.
    destruct (F4 k ltac:(lia)) as [Fo Fp]. destruct (lookup_lt_is_Some_2 (outs n) k) as [o Ho]; [lia|]. destruct (Hq k o Ho) as [q Hqo].
    eapply wp_mono; [apply (wp_forward_over m msgsize ttl_1 in_if k o q n1); [congruence|done..]|]. cbv beta. intros _ n2 (o' & q' & [A1 A2 A3 A4 A5 A6]).
    exists (S k). split; [f_equal; lia|]. split; [lia|]. split; [congruence|]. split; [by rewrite A3, length_insert|]. split.
    + intros i o1 q1 Hi Ho1 Hq1. destruct (decide (i = k)) as [->|Hne].
      * rewrite Ho in Ho1. injection Ho1 as <-. rewrite (holds_fun o q1 q (proj1 Hq1) (proj1 Hqo)) in *. exists o', q'. rewrite A3, list_lookup_insert_eq by lia. rewrite Fp in A4. done.
      * rewrite A3, list_lookup_insert_ne by done. rewrite A5 by done. apply F3; [lia|done..].
    + intros i Hi. rewrite A3, list_lookup_insert_ne by lia. rewrite A5 by lia. apply F4. lia.
  - intros n1 (k & E & Hk & HF). assert (length (outs n) - k = 0)%nat as E0 by (by destruct (length (outs n) - k)%nat).
    replace (length (outs n)) with k by lia. exact HF.
Qed.

(** What an interface is given: the message with the hop counted, unless its TTL is used up. *)
Definition passed (m : list Z) (h : olsr_message) (in_if : nat) : nat -> out_interface -> list Z :=
  relayed (if is_ttl_1 h then m else count_hop h m) (m_msgsize h) (is_ttl_1 h) in_if.

(** A message may travel another hop: its TTL leaves one, and its counters fit a byte together. *)
Definition may_travel (h : olsr_message) : Prop := 2 <= m_ttl h /\ m_hopcnt h + m_ttl h <= 255.

(** The bytes [m'] are those of [m] one hop further: the TTL, behind the type, the validity time, the size and the originator, is one less, the
    hop count behind it one more, and every other byte is the same. *)
Record one_hop_on (m : list Z) (h : olsr_message) (m' : list Z) : Prop := {
  hop_ttl : m' !! (4 + ipsize ip_version)%nat = Some (m_ttl h - 1);
  hop_count : m' !! (5 + ipsize ip_version)%nat = Some (m_hopcnt h + 1);
  hop_rest : forall k, k <> (4 + ipsize ip_version)%nat -> k <> (5 + ipsize ip_version)%nat -> m' !! k = m !! k;
  hop_header : read_message m' = Some (next_hop_header h);
}.

(** A message from interface [in_if] goes out over interface [i]: never over a silent one, over the interface it came from only if not all the
    nodes there received it (a mesh), and with its TTL used up only over an ethernet, whose nodes count as no hop away. *)
Record goes_over (h : olsr_message) (in_if i : nat) (o : out_interface) : Prop := {
  over_loud : int_mode o <> IF_MODE_SILENT;
  over_back : i = in_if -> int_mode o <> IF_MODE_ETHER;
  over_ttl : may_travel h \/ int_mode o = IF_MODE_ETHER;
}.

(** What an interface gets of the message: its bytes, or nothing. *)
Record gets_message (h : olsr_message) (m' : list Z) (in_if i : nat) (o : out_interface) (data : list Z) : Prop := {
  got_all : goes_over h in_if i o -> m_msgsize h <= maxsize (netbuf o) -> data = take (Z.to_nat (m_msgsize h)) m';
  got_skipped : ~ goes_over h in_if i o -> data = [];
  got_large : maxsize (netbuf o) < m_msgsize h -> data = [];
}.

(** From [n] to [n'] the message [m] from interface [in_if] was passed on: [m'] is what goes on, and the stream of each interface is extended by
    what the interface gets of it. *)
Definition passed_on (m : list Z) (h : olsr_message) (in_if : nat) (n n' : node) : Prop :=
  fwd_strip n' = fwd_strip n /\ length (outs n') = length (outs n) /\
  exists m', (may_travel h -> one_hop_on m h m') /\ (~ may_travel h -> m' = m) /\
  forall i o q, outs n !! i = Some o -> queue_ok o q -> exists o' q' data,
    outs n' !! i = Some o' /\ queue_ok o' q' /\ same_interface o o' /\ gets_message h m' in_if i o data /\ payloads i n' ++ q' = payloads i n ++ q ++ data.

Lemma is_ttl_1_travel h : is_ttl_1 h = false <-> may_travel h.
Proof. unfold is_ttl_1, may_travel. rewrite orb_false_iff, !Z.ltb_ge. lia. Qed.

Lemma skips_interface_over h in_if i o : skips_interface (is_ttl_1 h) in_if i (int_mode o) = false <-> goes_over h in_if i o.
Proof.
  unfold skips_interface. rewrite !orb_false_iff, !andb_false_iff, !negb_false_iff, bool_decide_eq_false, !Z.eqb_neq, Z.eqb_eq, is_ttl_1_travel.
  split; [intros [[H1 H2] H3]|intros [H1 H2 H3]].
  - split; [done| |done]. intros Hi. by destruct H2.
  - split; [|done]. split; [done|]. destruct (decide (i = in_if)); auto.
Qed.

Lemma passed_gets m h in_if i o : gets_message h (if is_ttl_1 h then m else count_hop h m) in_if i o (passed m h in_if i o).
Proof.
  unfold passed, relayed. pose proof (skips_interface_over h in_if i o) as Hs. rewrite Z.gtb_ltb. split.
  - intros Ho Hm. apply Hs in Ho as ->. by assert (maxsize (netbuf o) <? m_msgsize h = false) as -> by (apply Z.ltb_ge; lia).
  - intros Ho. destruct (skips_interface _ _ _ _); [done|]. destruct Ho. by apply Hs.
  - intros Hm. apply Z.ltb_lt in Hm as ->. by rewrite orb_true_r.
Qed.

Lemma count_hop_on m h : read_message m = Some h -> Forall is_u8 m -> may_travel h -> one_hop_on m h (count_hop h m).
Proof.
  intros Hm Hu Ht. apply is_ttl_1_travel in Ht as Ht1. destruct (count_hop_read m h Hm Hu Ht1) as [Hr Hl].
  destruct (read_message_split m h Hm) as (pre & a & b & rest & E & Hp & _). unfold ttl_byte in Hp.
  assert (4 + ipsize ip_version < length m /\ 5 + ipsize ip_version < length m)%nat as [L1 L2] by (rewrite E, length_app; simpl; lia).
  rewrite E in Hu. apply Forall_app in Hu as [_ Hu]. apply Forall_cons in Hu as [U1 Hu]. apply Forall_cons in Hu as [U2 _].
  unfold may_travel, is_u8 in *. unfold count_hop, ttl_byte in *. cbn [Nat.add] in *. split; try done.
  - rewrite list_lookup_insert_eq by (by rewrite length_insert). unfold u8. by rewrite Z.mod_small by lia.
  - rewrite list_lookup_insert_ne, list_lookup_insert_eq by lia. unfold u8. by rewrite Z.mod_small by lia.
  - intros k H1 H2. by rewrite !list_lookup_insert_ne by lia.
Qed.

Lemma forwarded_passed_on m h in_if n n' : read_message m = Some h -> Forall is_u8 m ->
  forwarded_below (length (outs n)) (passed m h in_if) n n' -> passed_on m h in_if n n'.
Proof.
  intros Hm Hu (F1 & F2 & F3 & _). split; [done|]. split; [done|]. exists (if is_ttl_1 h then m else count_hop h m).
  pose proof (is_ttl_1_travel h) as Ht. split; [|split].
  - intros H. apply Ht in H as E. rewrite E. by apply count_hop_on.
  - intros H. destruct (is_ttl_1 h); [done|]. destruct H. by apply Ht.
  - intros i o q Ho Hq. destruct (F3 i o q) as (o' & q' & H1 & H2 & H3 & H4); [by eapply lookup_lt_Some|done..|].
    exists o', q', (passed m h in_if i o). split; [done|]. split; [done|]. split; [done|]. split; [apply passed_gets|done].
Qed.

(** C12: A message is forwarded exactly if the node that sent it is a symmetric neighbour that chose this one as a relay, and the
    duplicate set does not know it. If its TTL is at least 2 and with the hop count at most 255, what goes on is the message with the TTL one less and the
    hop count one more, every other byte as it was; otherwise it is the message as it was, and it goes to ethernet interfaces only. A silent interface never
    gets it, nor does an ethernet it came from; each other interface gets its bytes once, unless it is too large for the packets there. What was queued before stays in front of
    it, and nothing else changes. The message is one of the size its header gives, and each interface has a buffer. *)
Theorem olsr_forward_message_correct m h in_if from n :
  read_message m = Some h -> m_msgsize h <= Z.of_nat (length m) -> Forall is_u8 m -> queues n -> net_wf (core n) -> dup_wf (kt_wf := awf) (dups n) ->
  (forall k, is_Some (buffer_delay (olsr_random k))) ->
  wp (olsr_forward_message [] m in_if from) (fun r n' =>
    (~ relays (core n) (main_of (core n) from) -> r = 0 /\ n' = n) /\
    (relays (core n) (main_of (core n) from) -> exists dup d,
      olsr_message_is_duplicate (now_times (core n)) (dups n) {| msg_originator := m_originator h; msg_seqno := m_seqno h |} = Some (dup, d) /\
      dup_wf (kt_wf := awf) d /\
      if dup then r = 0 /\ n' = set_dups d n
      else r = 1 /\ passed_on m h in_if (set_dups d n) n')) n.
Proof.
  intros Hm Hsz Hu Hq Hnet Hdup Hd. unfold olsr_forward_message, mid_lookup_main_addr. wp_step. eapply wp_gets_opt; [exact Hm|]. wp_step. apply wp_lift.
  destruct (find_main_addr_safe (core n) from (wf_mid _ _ (proj1 Hnet))) as [main Hmain]. eapply (wp_gets_opt (fun st => find_main_addr st from)); [exact Hmain|].
  rewrite set_core_self. assert (default from main = main_of (core n) from) as -> by (unfold main_of; by rewrite Hmain).
  wp_step. apply wp_lift. eapply wp_mono; [by apply wp_relays_for|]. cbv beta. intros b st (-> & Hb). rewrite set_core_self.
  destruct b; cbn [negb]; [|apply wp_ret; split; [done|]; intros H; by apply Hb in H]. assert (relays (core n) (main_of (core n) from)) as Hrel by by apply Hb.
  unfold message_is_duplicate. wp_step. wp_step. wp_step. wp_step.
  destruct (read_message_typed m h Hm Hu) as [Hseq [Hsz0 _]].
  destruct (is_duplicate_step (keq := aeq) (kt_wf := awf) (now_times (core n)) (dups n) {| msg_originator := m_originator h; msg_seqno := m_seqno h |} Hdup Hseq) as (dup & d & Ed & Hd' & _).
  eapply (wp_gets_opt (fun n0 => olsr_message_is_duplicate (now_times (core n)) (dups n0) {| msg_originator := m_originator h; msg_seqno := m_seqno h |})); [exact Ed|].
  cbv beta iota. wp_step. wp_step. wp_step. destruct dup.
  - apply wp_ret. split; [done|]. intros _. by exists true, d.
  - wp_step. wp_step. wp_step.
    eapply wp_mono; [apply (wp_forward_all _ (m_msgsize h) (is_ttl_1 h) in_if (set_dups d n)); [exact Hq| |exact Hd]|].
    + split; [done|]. destruct (is_ttl_1 h); cbn [negb]; [done|]. unfold count_hop. by rewrite !length_insert.
    + cbv beta. intros _ n' HF. wp_step. split; [done|]. intros _. exists false, d. split; [done|]. split; [done|]. split; [done|].
      apply forwarded_passed_on; [done..|]. unfold passed. by destruct (is_ttl_1 h).
Qed.

End forward_spec.

(** ** Witness *)

Section forward_witness.
#[local] Instance relay_cnf : olsrd_config :=
  {| ip_version := AF_INET; mpr_coverage := 1; tc_redundancy := 2; lq_level := 2;
     use_hysteresis := false; lq_nat_thresh := @lq_nat_thresh sample_cnf; olsr_random := fun _ => 0;
     OLSR_RANDOM_MAX := 2147483647; hscaling := @hscaling sample_cnf; hhigh := @hhigh sample_cnf; hlow := @hlow sample_cnf |}.
#[local] Existing Instance sample_lq.
#[local] Existing Instance announce_ncf.

(** 200 is a symmetric neighbour that chose this node. *)
Definition relay1 : olsr_state := run (update_link_entry 100 200 (hello_from_200 100 SYM_LINK) eth0) (set_ifnet [eth0; wlan0] empty_state).
Definition relay_core : olsr_state := run (let* _ := olsr_update_mprs_set 200 1000 in ret tt) relay1.

Lemma relay1_wf : net_wf relay1.
Proof.
  apply hello_wf; [apply bare_wf; repeat constructor; by eexists|vm_compute; left| |vm_compute; split; discriminate || reflexivity|vm_compute; reflexivity].
  apply heap_main_free, heap_forall. vm_compute. reflexivity.
Qed.

Lemma relay_wf : net_wf relay_core.
Proof.
  destruct relay1_wf as [H1 H2]. split.
  - apply (nbr_wf_frame _ relay1 relay_core H1); vm_compute; try reflexivity. auto.
  - apply (link_wf_ext relay1 relay_core H2); vm_compute; reflexivity.
Qed.

(** A message of type 77 with the TTL 5. *)
Definition message_77 : list Z := [77; 0; 0; 12; 9; 0; 0; 0; 5; 0; 0; 1].

Definition header_77 : olsr_message :=
  {| m_msgtype := 77; m_vtime := 0; m_msgsize := 12; m_originator := 9; m_ttl := 5; m_hopcnt := 0; m_seqno := 1 |}.

Lemma message_77_on m' : one_hop_on message_77 header_77 m' -> take 12 m' = [77; 0; 0; 12; 9; 0; 0; 0; 4; 1; 0; 1].
Proof.
  intros [E1 E2 E3 _]. cbn in E1, E2, E3. apply list_eq. intros k. destruct (decide (k < 12)%nat) as [Hk|Hk].
  - rewrite lookup_take_lt by done. do 12 (destruct k as [|k]; [first [exact E1|exact E2|rewrite E3; done]|]). lia.
  - rewrite lookup_take_ge by lia. symmetry. apply lookup_ge_None_2. simpl. lia.
Qed.

Lemma olsr_forward_message_correct_witness :
  wp (olsr_forward_message [] message_77 0 200) (fun r n' => r = 1 /\ exists o' q', outs n' !! 0%nat = Some o' /\ holds o' q' /\
    payloads 0 n' ++ q' = [77; 0; 0; 12; 9; 0; 0; 0; 4; 1; 0; 1]) (sender 60 relay_core []).
Proof.
  destruct (sender_ready 60 relay_core []) as (o & Hr & Hf & Ho & _ & Hc & _); [lia|]. destruct Hr as [R1 R2 R3 R4].
  assert (queue_ok o []) as Hq by by split.
  assert (skips_interface false 0 0 (int_mode o) = false /\ 12 >? maxsize (netbuf o) = false) as [Hsk Hmax] by (vm_compute in R1; injection R1 as <-; split; reflexivity).
  assert (length (outs (sender 60 relay_core [])) = 1%nat) as Hlen by (vm_compute; reflexivity).
  assert (dups (sender 60 relay_core []) = olsr_init_duplicate_set) as Hdups by (vm_compute; reflexivity).
  assert (payloads 0 (sender 60 relay_core []) = []) as Hpay by (vm_compute; reflexivity).
  eapply wp_mono; [apply (olsr_forward_message_correct message_77 header_77 0 200 (sender 60 relay_core []))|].
  - reflexivity.
  - simpl. lia.
  - unfold message_77. repeat constructor; unfold is_u8; lia.
  - intros i o1 H1. destruct i as [|i]; [rewrite R1 in H1; injection H1 as <-; by exists []|]. apply lookup_lt_Some in H1. lia.
  - rewrite Hc. exact relay_wf.
  - rewrite Hdups. apply dup_wf_init.
  - intros k. vm_compute. eexists. reflexivity.
  - cbv beta. intros r n' [_ H]. destruct H as (dup & d & Ed & _ & H).
    + rewrite Hc. split; [|vm_compute; left]. exists 2%positive. eexists. split; [vm_compute; reflexivity|]. split; vm_compute; reflexivity.
    + rewrite Hc, Hdups in Ed. vm_compute in Ed. injection Ed as <- <-. destruct H as (-> & _ & _ & m' & Hon & _ & H). split; [done|].
      destruct (H 0%nat o [] R1 Hq) as (o' & q' & data & H1 & [H2 _] & _ & [Hall _ _] & H3). exists o', q'. split; [done|]. split; [done|].
      rewrite H3. change (payloads 0 (set_dups _ (sender 60 relay_core []))) with (payloads 0 (sender 60 relay_core [])). rewrite Hpay.
      assert (may_travel header_77) as Ht by (unfold may_travel; simpl; lia).
      rewrite Hall; [|apply skips_interface_over; exact Hsk|simpl; rewrite Z.gtb_ltb in Hmax; apply Z.ltb_ge in Hmax; lia].
      exact (message_77_on m' (Hon Ht)).
Defined.

End forward_witness.
