(* ===== verification/Parser.v ===== *)
(** * parser.c: packets that arrive

    The functions that plugins register are arguments: [packetparsers] see every packet,
    [preprocessors] may change or drop it, [collision] handles a second node with the
    address of this one. A packet is the list of the bytes from its start to the end of
    the buffer [inbuf]; what is behind the packet is left from earlier ones. *)

From S2P Require Import Prelude Timer Mantissa Avl IpAddr KeyTree DupSet State MidLookup NeighTable Interfaces Packet LsdbOps Lq Hysteresis RouteTable LinkSet Rib MidSet Hello Changes HelloTap.
From S2P Require Import Node NetOlsr Hna TcInput BuildMsg Forward.

Definition PROMISCUOUS : Z := 4294967295.
Definition MAXMESSAGESIZE : Z := 1500.

(** ** Lists of functions *)

Section functions.
Context {F : Type} `{EqDecision F}.

(** The function added last is called first. *)
Definition olsr_parser_add_function (function : F) (type : Z) (parse_functions : list (F * Z)) : list (F * Z) := (function, type) :: parse_functions.

Fixpoint olsr_parser_remove_function (function : F) (type : Z) (parse_functions : list (F * Z)) : Z * list (F * Z) :=
  match parse_functions with
  | [] => (0, [])
  | entry :: l =>
      if bool_decide (fst entry = function) && (snd entry =? type) then (1, l)
      else let '(r, l) := olsr_parser_remove_function function type l in (r, entry :: l)
  end.

Definition olsr_preprocessor_add_function (function : F) (l : list F) : list F := function :: l.

Fixpoint olsr_preprocessor_remove_function (function : F) (preprocessor_functions : list F) : Z * list F :=
  match preprocessor_functions with
  | [] => (0, [])
  | entry :: l => if bool_decide (entry = function) then (1, l) else let '(r, l) := olsr_preprocessor_remove_function function l in (r, entry :: l)
  end.

Definition olsr_packetparser_add_function (function : F) (l : list F) : list F := function :: l.

Fixpoint olsr_packetparser_remove_function (function : F) (packetparser_functions : list F) : Z * list F :=
  match packetparser_functions with
  | [] => (0, [])
  | entry :: l => if bool_decide (entry = function) then (1, l) else let '(r, l) := olsr_packetparser_remove_function function l in (r, entry :: l)
  end.

End functions.

(** [struct olsr], with its number in the order of the host. *)
Record olsr_packet := {
  olsr_packlen : Z;
  olsr_seqno_ : Z;
  olsr_msg : list Z;
}.

(** What [recvfrom] gives: the bytes, the sender and the family of its address. *)
Record datagram := {
  dg_bytes : list Z;
  dg_from : ip_addr;
  dg_family : ip_family;
}.

Section parser.
Context {cnf : olsrd_config} {ncf : node_config} {lqh : lq_handler} {krn : kernel_routes}.
Variable ptf_list : list packet_transform_function.

(** The result is false if the message is not to be forwarded. *)
Definition parse_function : Type := list Z -> nat -> ip_addr -> NM bool.
Definition packetparser_function : Type := olsr_packet -> nat -> ip_addr -> NM unit.
Definition preprocessor_function : Type := list Z -> nat -> ip_addr -> Z -> NM (option (list Z * Z)).

Variable parse_functions : list (parse_function * Z).
Variable packetparsers : list packetparser_function.
Variable preprocessors : list preprocessor_function.
Variable collision : list (Z -> NM unit).

(** The log lines are left out. *)
Definition olsr_test_originator_collision (msgType seqno : Z) : NM unit :=
  let* message_seqno := gets message_seqno in
  when (olsr_is_bad_duplicate_msg_seqno message_seqno seqno) (forM_ collision (fun originator_collision => originator_collision msgType)).

Definition call_parse_functions (m : list Z) (msgtype : Z) (in_if : nat) (from_addr : ip_addr) : NM bool :=
  foldM parse_functions true (fun forward (entry : parse_function * Z) =>
    if (snd entry =? PROMISCUOUS) || (snd entry =? msgtype) then
      let* r := fst entry m in_if from_addr in ret (if r then forward else false)
    else ret forward).

(** A message whose size was checked. *)
Definition parse_message (m : list Z) (h : olsr_message) (in_if : nat) (from_addr : ip_addr) : NM unit :=
  let* deny := gets deny_entries in
  let validated := olsr_validate_address deny (m_originator h) in
  let* main := gets (fun n => main_addr (core n)) in
  if ipequal ip_version (m_originator h) main || negb validated then
    when validated (olsr_test_originator_collision (m_msgtype h) (m_seqno h))
  else
    let* forward := call_parse_functions m (m_msgtype h) in_if from_addr in
    when forward (let* _ := olsr_forward_message ptf_list m in_if from_addr in ret tt).

Definition min_msgsize : Z := 8 + ip_len.

(** The loop ends at the first message with a bad size. *)
Fixpoint parse_messages (fuel : nat) (m : list Z) (count : Z) (in_if : nat) (from_addr : ip_addr) : NM unit :=
  match fuel with
  | O => crash
  | S fuel =>
      if count =? 0 then ret tt
      else if count <? min_msgsize then ret tt
      else
        let* h := gets_opt (fun _ => read_message m) in
        let msgsize := m_msgsize h in
        if msgsize <? min_msgsize then ret tt
        else if negb (msgsize mod 4 =? 0) then ret tt
        else if msgsize >? count then ret tt
        else
          do* parse_message m h in_if from_addr in
          parse_messages fuel (drop (Z.to_nat msgsize) m) (count - msgsize) in_if from_addr
  end.

Definition read_packet (packet : list Z) : option olsr_packet :=
  '(packlen, p) ← pkt_get_u16 packet;
  '(seqno, m) ← pkt_get_u16 p;
  Some {| olsr_packlen := packlen; olsr_seqno_ := seqno; olsr_msg := m |}.

(** [count] is unsigned: for a packet of less than four bytes it is almost [2 ^ 32]. *)
Definition parse_packet (packet : list Z) (size : Z) (in_if : nat) (from_addr : ip_addr) : NM unit :=
  let count := u32 (size - 4) in
  if count <? 4 then ret tt
  else
    let* olsr := gets_opt (fun _ => read_packet packet) in
    if negb (olsr_packlen olsr =? u16 size) then ret tt
    else
      do* forM_ packetparsers (fun packetparser => packetparser olsr in_if from_addr) in
      do* when use_hysteresis
        (let* o := get_out in_if in lift (update_hysteresis_incoming from_addr (out_if o) (olsr_seqno_ olsr))) in
      parse_messages (S (length (olsr_msg olsr))) (olsr_msg olsr) count in_if from_addr.

(** ** Receiving *)

Fixpoint preprocess (l : list preprocessor_function) (packet : list Z) (in_if : nat) (from_addr : ip_addr) (cc : Z) : NM (option (list Z * Z)) :=
  match l with
  | [] => ret (Some (packet, cc))
  | f :: l =>
      let* r := f packet in_if from_addr cc in
      match r with None => ret None | Some (packet, cc) => preprocess l packet in_if from_addr cc end
  end.

(** The bytes that fit are written over the start of the buffer. *)
Definition receive (inbuf : list Z) (d : datagram) : Z * list Z :=
  let data := take (length inbuf) (dg_bytes d) in
  (Z.of_nat (length data), data ++ drop (length data) inbuf).

(** [fd] is the interface of the socket, if it is still there. At most [fuel], that is 32, packets are
    read at a time; the result is the buffer and the packets that are left in the socket. *)
Fixpoint olsr_input_loop (fuel : nat) (fd : option nat) (inbuf : list Z) (socket : list datagram) : NM (list Z * list datagram) :=
  match fuel, socket with
  | O, _ | _, [] => ret (inbuf, socket)
  | S fuel, d :: socket =>
      let '(cc, inbuf) := receive inbuf d in
      if cc <=? 0 then ret (inbuf, socket)
      else if negb (bool_decide (dg_family d = ip_version)) then ret (inbuf, socket)
      else
        let* ifs := gets (fun n => ifnet (core n)) in
        if if_ifwithaddr ifs (dg_from d) then ret (inbuf, socket)
        else
          match fd with
          | None => ret (inbuf, socket)
          | Some olsr_in_if =>
              let* r := preprocess preprocessors inbuf olsr_in_if (dg_from d) cc in
              match r with
              | None => ret (inbuf, socket)
              | Some (packet, cc) =>
                  do* parse_packet packet cc olsr_in_if (dg_from d) in
                  olsr_input_loop fuel fd inbuf socket
              end
          end
  end.

Definition olsr_input : option nat -> list Z -> list datagram -> NM (list Z * list datagram) := olsr_input_loop 32.

(** The emulator sends the address of the sender before the packet. What the preprocessors leave of
    the packet is not what is parsed. [None] is the end of the program when the emulator is gone,
    or a write past the end of the buffer. *)
Definition olsr_input_hostemu (fd : option nat) (inbuf stream : list Z) : NM (list Z * list Z) :=
  let ipsize := ipsize ip_version in
  let from_bytes := if (length stream <? ipsize)%nat then take ipsize (drop 8 inbuf) else take ipsize stream in
  let from_addr := ip_of_bytes from_bytes in
  let stream := drop ipsize stream in
  let* ifs := gets (fun n => ifnet (core n)) in
  if if_ifwithaddr ifs from_addr then ret (inbuf, stream)
  else
    match stream with
    | [] => crash
    | [_] => ret (inbuf, stream)
    | a :: b :: _ =>
        let pcklen := 256 * a + b in
        let data := take (Z.to_nat pcklen) stream in
        let cc := Z.of_nat (length data) in
        if Z.of_nat (length inbuf) <? cc then crash
        else
          let inbuf := data ++ drop (length data) inbuf in
          let stream := drop (length data) stream in
          if cc <=? 0 then ret (inbuf, stream)
          else if negb (cc =? pcklen) then ret (inbuf, stream)
          else
            match fd with
            | None => ret (inbuf, stream)
            | Some olsr_in_if =>
                let* r := preprocess preprocessors inbuf olsr_in_if from_addr cc in
                match r with
                | None => ret (inbuf, stream)
                | Some (packet, cc) => do* parse_packet inbuf cc olsr_in_if from_addr in ret (inbuf, stream)
                end
            end
    end.

End parser.

(** ** The functions of the daemon *)

Section package_process.
Context {cnf : olsrd_config} {ncf : node_config} {lqh : lq_handler} {krn : kernel_routes}.
Variable pcf_list : list pcf.

Definition validating {A} (f : (ip_addr -> bool) -> OM A) : NM A :=
  let* deny := gets deny_entries in lift (f (olsr_validate_address deny)).

Definition parse_hello : parse_function := fun m in_if from =>
  let* o := get_out in_if in validating (fun validate => olsr_input_hello validate pcf_list m (out_if o) from).
Definition parse_tc : parse_function := fun m _ from => olsr_input_tc m from.
Definition parse_mid : parse_function := fun m _ from => validating (fun validate => olsr_input_mid validate m from).
Definition parse_hna : parse_function := fun m _ from => olsr_input_hna m from.

Definition olsr_init_package_process (parse_functions : list (parse_function * Z)) : list (parse_function * Z) :=
  let l :=
    if lq_level =? 0 then olsr_parser_add_function parse_tc TC_MESSAGE (olsr_parser_add_function parse_hello HELLO_MESSAGE parse_functions)
    else olsr_parser_add_function parse_tc LQ_TC_MESSAGE (olsr_parser_add_function parse_hello LQ_HELLO_MESSAGE parse_functions) in
  olsr_parser_add_function parse_hna HNA_MESSAGE (olsr_parser_add_function parse_mid MID_MESSAGE l).

End package_process.
