(* ===== verification/ParserSpec.v ===== *)
(** * Packets that arrive: how they are taken apart

    The loop of [parse_packet] refines a split of the packet into messages that does not
    mention the loop. *)

From S2P Require Import Prelude Timer Mantissa Avl IpAddr KeyTree DupSet State MidLookup NeighTable Interfaces NeighSpec Packet LsdbOps Lq Hysteresis RouteTable LinkSet Rib TcSpec LinkSpec RibSpec Spf RouteCalc.
From S2P Require Import MidSet Hello Changes HelloTap Node NetOlsr Hna HnaSpec TcInput BuildMsg BuildProofs GenMsg AnnounceSpec Forward ForwardSpec Parser.

Section framing.
Context {cnf : olsrd_config}.

(** ** Messages one after the other *)

(** The bytes of one message. *)
Definition framed (m : list Z) : Prop :=
  exists h, read_message m = Some h /\ m_msgsize h = Z.of_nat (length m) /\ min_msgsize <= m_msgsize h /\ m_msgsize h mod 4 = 0.

(** What is not taken for a message: too few bytes, or a bad size. *)
Definition unframed (l : list Z) : Prop :=
  Z.of_nat (length l) < min_msgsize \/
  exists h, read_message l = Some h /\ (m_msgsize h < min_msgsize \/ m_msgsize h mod 4 <> 0 \/ Z.of_nat (length l) < m_msgsize h).

(** The messages of a packet, and the rest that is ignored. *)
Inductive frames : list Z -> list (list Z) -> list Z -> Prop :=
| frames_end tail : unframed tail -> frames tail [] tail
| frames_message m body ms tail : framed m -> frames body ms tail -> frames (m ++ body) (m :: ms) tail.

Lemma ip_len_pos : 4 <= ip_len.
Proof. unfold ip_len, ipsize. destruct ip_version; lia. Qed.

(** The header is in the first [min_msgsize] bytes. *)
Lemma read_message_app l rest : min_msgsize <= Z.of_nat (length l) -> read_message (l ++ rest) = read_message l /\ is_Some (read_message l).
Proof.
  unfold min_msgsize, ip_len, read_message, pkt_get_ipaddress. destruct l as [|x0 [|x1 [|x2 [|x3 l]]]]; simpl; try lia. set (k := ipsize ip_version). intros Hl.
  destruct (Nat.ltb_spec (length (l ++ rest)) k) as [H|_]; [rewrite length_app in H; lia|]. destruct (Nat.ltb_spec (length l) k) as [H|_]; [lia|]. simpl.
  rewrite take_app_le, drop_app_le by lia. assert (length (drop k l) = length l - k)%nat as Hd by apply length_drop.
  destruct (drop k l) as [|ttl [|hop [|a [|b r]]]]; simpl in *; try lia. split; [done|by eexists].
Qed.

Lemma frames_app body ms tail : frames body ms tail -> body = concat ms ++ tail /\ Forall framed ms /\ unframed tail.
Proof.
  induction 1 as [tail Ht|m body ms tail Hm _ (-> & IH1 & IH2)]; [done|]. split; [simpl; by rewrite app_assoc|]. split; [by constructor|done].
Qed.

Lemma framed_min m : framed m -> min_msgsize <= Z.of_nat (length m).
Proof. intros (h & _ & <- & ? & _). done. Qed.

(** What a message starts with is a message in one way only. *)
Lemma framed_unframed m rest : framed m -> unframed (m ++ rest) -> False.
Proof.
  intros Hm. pose proof (framed_min m Hm) as Hmin. destruct Hm as (h & Hr & Hs & H1 & H2). destruct (read_message_app m rest Hmin) as [E _].
  intros [H|(h' & Hr' & H)]; rewrite ?length_app in H; [lia|]. rewrite E, Hr in Hr'. injection Hr' as <-. lia.
Qed.

Lemma frames_unique body ms tail ms' tail' : frames body ms tail -> frames body ms' tail' -> ms = ms' /\ tail = tail'.
Proof.
  intros H. revert ms' tail'. induction H as [tail Ht|m body ms tail Hm Hf IH]; intros ms' tail' H'.
  - inversion H' as [|m body ms tail2 Hm Hb E]; subst; [done|]. by destruct (framed_unframed m body Hm).
  - inversion H' as [t2 Ht2|m' body' ms2 tail2 Hm' Hb' E]; subst; [by destruct (framed_unframed m body Hm)|].
    assert (m' = m /\ body' = body) as [-> ->].
    { pose proof (framed_min m Hm) as M1. pose proof (framed_min m' Hm') as M2. destruct Hm as (h & Hr & Hs & _), Hm' as (h' & Hr' & Hs' & _).
      destruct (read_message_app m body M1) as [E1 _]. destruct (read_message_app m' body' M2) as [E2 _]. rewrite E, E1, Hr, Hr' in E2. injection E2 as ->.
      apply app_inj_1; [lia|done]. }
    by destruct (IH ms2 tail' Hb') as [-> ->].
Qed.

(** Every sequence of bytes can be taken apart. *)
Lemma frames_exist body : exists ms tail, frames body ms tail.
Proof.
  induction body as [body IH] using (induction_ltof1 _ (@length Z)); unfold ltof in IH.
  destruct (Z_lt_le_dec (Z.of_nat (length body)) min_msgsize) as [Hl|Hl]; [exists [], body; constructor; by left|].
  destruct (read_message_app body [] Hl) as [_ [h Hr]].
  destruct (Z_lt_le_dec (m_msgsize h) min_msgsize) as [H1|H1]; [exists [], body; constructor; right; exists h; auto|].
  destruct (Z.eq_dec (m_msgsize h mod 4) 0) as [H2|H2]; [|exists [], body; constructor; right; exists h; auto].
  destruct (Z_lt_le_dec (Z.of_nat (length body)) (m_msgsize h)) as [H3|H3]; [exists [], body; constructor; right; exists h; auto|].
  set (k := Z.to_nat (m_msgsize h)). assert (length (take k body) = k) as Hk by (rewrite length_take; lia).
  pose proof ip_len_pos as Hip. unfold min_msgsize in *.
  destruct (IH (drop k body)) as (ms & tail & Hf); [rewrite length_drop; lia|]. exists (take k body :: ms), tail.
  rewrite <- (take_drop k body) at 1. constructor; [|done]. exists h. split; [|split; [rewrite Hk; lia|done]].
  destruct (read_message_app (take k body) (drop k body)) as [E _]; [unfold min_msgsize; lia|]. by rewrite <- E, take_drop.
Qed.

End framing.

Section parse_spec.
Context {cnf : olsrd_config} {ncf : node_config} {lqh : lq_handler} {krn : kernel_routes}.
Variable ptf_list : list packet_transform_function.
Variable parse_functions : list (parse_function * Z).
Variable packetparsers : list packetparser_function.
Variable preprocessors : list preprocessor_function.
Variable collision : list (Z -> NM unit).

(** ** The reference *)

(** One message of a packet: the functions see what follows it, too. *)
Definition process_message (m rest : list Z) (in_if : nat) (from : ip_addr) : NM unit :=
  let* h := gets_opt (fun _ => read_message m) in parse_message ptf_list parse_functions collision (m ++ rest) h in_if from.

Fixpoint process_all (ms : list (list Z)) (rest : list Z) (in_if : nat) (from : ip_addr) : NM unit :=
  match ms with
  | [] => ret tt
  | m :: ms => do* process_message m (concat ms ++ rest) in_if from in process_all ms rest in_if from
  end.

(** What happens once for a packet. *)
Definition process_header (olsr : olsr_packet) (in_if : nat) (from : ip_addr) : NM unit :=
  do* forM_ packetparsers (fun packetparser => packetparser olsr in_if from) in
  when use_hysteresis (let* o := get_out in_if in lift (update_hysteresis_incoming from (out_if o) (olsr_seqno_ olsr))).

Notation parse_loop := (parse_messages ptf_list parse_functions collision).

Lemma bind_assoc {A B C} (m : NM A) (f : A -> NM B) (g : B -> NM C) n : bind (bind m f) g n = bind m (fun a => bind (f a) g) n.
Proof. unfold bind. by destruct (m n) as [[a n1]|]. Qed.

Lemma bind_ext {A B} (m : NM A) (f g : A -> NM B) n : (forall a n', f a n' = g a n') -> bind m f n = bind m g n.
Proof. intros H. unfold bind. by destruct (m n) as [[a n1]|]. Qed.

Lemma bind_gets {A B} (f : node -> option A) a (k : A -> NM B) n : f n = Some a -> bind (gets_opt f) k n = k a n.
Proof. intros H. unfold bind, gets_opt. by rewrite H. Qed.

(** The loop over messages that are whole. *)
Lemma parse_messages_run ms : Forall framed ms -> forall fuel rest c in_if from n, 0 <= c ->
  parse_loop (length ms + fuel)%nat (concat ms ++ rest) (Z.of_nat (length (concat ms)) + c) in_if from n =
  bind (process_all ms rest in_if from) (fun _ => parse_loop fuel rest c in_if from) n.
Proof.
  induction 1 as [|m ms Hm Hms IH]; intros fuel rest c in_if from n Hc; [done|].
  pose proof (framed_min m Hm) as Hmin. pose proof ip_len_pos as Hip. assert (0 < min_msgsize) as Hpos by (unfold min_msgsize; lia).
  destruct Hm as (h & Hr & Hs & H1 & H2). cbn [length Nat.add concat process_all parse_messages]. rewrite length_app, Nat2Z.inj_add.
  set (l := Z.of_nat (length (concat ms))). destruct (Z.eqb_spec (Z.of_nat (length m) + l + c) 0); [lia|]. destruct (Z.ltb_spec (Z.of_nat (length m) + l + c) min_msgsize); [lia|].
  rewrite <- app_assoc. destruct (read_message_app m (concat ms ++ rest) Hmin) as [Er _]. rewrite bind_assoc. unfold process_message. rewrite bind_assoc.
  rewrite (bind_gets _ h) by (by rewrite Er). rewrite (bind_gets _ h) by done.
  destruct (Z.ltb_spec (m_msgsize h) min_msgsize); [lia|]. rewrite H2. cbn [Z.eqb negb]. rewrite Z.gtb_ltb.
  destruct (Z.ltb_spec (Z.of_nat (length m) + l + c) (m_msgsize h)); [lia|]. apply bind_ext. intros _ n'.
  rewrite Hs, Nat2Z.id, drop_app_length. replace (Z.of_nat (length m) + l + c - Z.of_nat (length m)) with (l + c) by lia. by apply IH.
Qed.

Lemma parse_messages_stop fuel tail stale in_if from n : unframed tail -> (0 < fuel)%nat ->
  parse_loop fuel (tail ++ stale) (Z.of_nat (length tail)) in_if from n = Some (tt, n).
Proof.
  intros Ht Hf. destruct fuel as [|fuel]; [lia|]. cbn [parse_messages]. destruct (Z.of_nat (length tail) =? 0); [done|].
  destruct (Z.ltb_spec (Z.of_nat (length tail)) min_msgsize) as [|Hl]; [done|]. destruct (read_message_app tail stale Hl) as [Er _].
  unfold bind, gets_opt. rewrite Er. destruct Ht as [H|(h & Hr & H)]; [lia|]. rewrite Hr.
  destruct (Z.ltb_spec (m_msgsize h) min_msgsize); [done|]. destruct (Z.eqb_spec (m_msgsize h mod 4) 0); cbn [negb]; [|done].
  rewrite Z.gtb_ltb. destruct (Z.ltb_spec (Z.of_nat (length tail)) (m_msgsize h)); [done|lia].
Qed.

Lemma parse_messages_overrun fuel c in_if from n : min_msgsize <= c -> (0 < fuel)%nat -> parse_loop fuel [] c in_if from n = None.
Proof.
  intros Hc Hf. destruct fuel as [|fuel]; [lia|]. pose proof ip_len_pos as Hip. unfold min_msgsize in *. cbn [parse_messages]. unfold min_msgsize.
  destruct (Z.eqb_spec c 0); [lia|]. destruct (Z.ltb_spec c (8 + ip_len)); [lia|]. done.
Qed.

Lemma length_concat_framed ms : Forall framed ms -> (length ms <= length (concat ms))%nat.
Proof.
  induction 1 as [|m ms Hm _ IH]; simpl; [lia|]. rewrite length_app. pose proof (framed_min m Hm) as H. pose proof ip_len_pos. unfold min_msgsize in H. lia.
Qed.

(** The packet with its header. *)
Definition packet (size seqno : Z) (body : list Z) : list Z := pkt_put_u16 [] size ++ pkt_put_u16 [] seqno ++ body.

Lemma read_packet_put size seqno body : is_u16 size -> is_u16 seqno ->
  read_packet (packet size seqno body) = Some {| olsr_packlen := size; olsr_seqno_ := seqno; olsr_msg := body |}.
Proof. intros H1 H2. unfold read_packet, packet. rewrite get_put_u16 by done. cbn [mbind option_bind]. by rewrite get_put_u16. Qed.

(** A packet whose length was checked. *)
Lemma parse_packet_eq size seqno body in_if from n : is_u16 size -> is_u16 seqno -> 4 <= u32 (size - 4) ->
  parse_packet ptf_list parse_functions packetparsers collision (packet size seqno body) size in_if from n =
  bind (process_header {| olsr_packlen := size; olsr_seqno_ := seqno; olsr_msg := body |} in_if from)
    (fun _ => parse_loop (S (length body)) body (u32 (size - 4)) in_if from) n.
Proof.
  intros H1 H2 H3. unfold parse_packet, process_header. destruct (Z.ltb_spec (u32 (size - 4)) 4); [lia|].
  unfold bind at 1, gets_opt. rewrite read_packet_put by done. cbn [olsr_packlen olsr_msg]. rewrite u16_small, Z.eqb_refl by done. cbn [negb].
  by rewrite bind_assoc.
Qed.

(** C11: [parse_packet] does to a packet of a size that is right what the reference does: there is one way to take it apart into messages and a
    rest that is none, and the messages are processed one after the other; what is behind the packet in the buffer decides nothing. *)
Theorem parse_packet_reference seqno body stale in_if from :
  4 <= Z.of_nat (length body) -> 4 + Z.of_nat (length body) < 65536 -> is_u16 seqno ->
  exists ms tail, frames body ms tail /\ (forall ms' tail', frames body ms' tail' -> ms' = ms /\ tail' = tail) /\
    forall n, let size := 4 + Z.of_nat (length body) in
      parse_packet ptf_list parse_functions packetparsers collision (packet size seqno (body ++ stale)) size in_if from n =
      (do* process_header {| olsr_packlen := size; olsr_seqno_ := seqno; olsr_msg := body ++ stale |} in_if from in process_all ms (tail ++ stale) in_if from) n.
Proof.
  intros H1 H2 Hs. destruct (frames_exist body) as (ms & tail & Hf). exists ms, tail. split; [done|].
  split; [intros ms' tail' Hf'; by apply (frames_unique body)|]. intros n size.
  assert (u32 (size - 4) = Z.of_nat (length body)) as Eu by (unfold size, u32; rewrite Z.mod_small; lia).
  rewrite parse_packet_eq by (done || rewrite ?Eu; unfold is_u16; lia). rewrite Eu. apply bind_ext. intros _ n'.
  destruct (frames_app body ms tail Hf) as (-> & Hms & Ht). rewrite <- app_assoc.
  replace (Z.of_nat (length (concat ms ++ tail))) with (Z.of_nat (length (concat ms)) + Z.of_nat (length tail)) by (rewrite length_app; lia).
  pose proof (length_concat_framed ms Hms) as Hl. set (f := (S (length (concat ms ++ tail ++ stale)) - length ms)%nat).
  replace (S (length (concat ms ++ tail ++ stale))) with (length ms + f)%nat by (unfold f; rewrite length_app; lia).
  rewrite parse_messages_run by (done || lia). assert (0 < f)%nat as Hfp by (unfold f; rewrite length_app; lia).
  unfold bind. destruct (process_all ms (tail ++ stale) in_if from n') as [[[] n1]|]; [|done]. by apply parse_messages_stop.
Qed.

(** C32: A packet of one, two or three bytes that gives its length is not refused: the number of bytes that are left wraps around, the messages of earlier packets that are still in the
    buffer are processed as messages of this sender, and the loop then reads past the end of the buffer. *)
Theorem parse_packet_short size seqno ms in_if from n :
  1 <= size <= 3 -> is_u16 seqno -> Forall framed ms -> Z.of_nat (length (concat ms)) < 65536 ->
  parse_packet ptf_list parse_functions packetparsers collision (packet size seqno (concat ms)) size in_if from n =
  (do* process_header {| olsr_packlen := size; olsr_seqno_ := seqno; olsr_msg := concat ms |} in_if from in do* process_all ms [] in_if from in crash) n.
Proof.
  intros Hsz Hs Hms Hl. assert (u32 (size - 4) = 4294967296 + size - 4) as Eu.
  { unfold u32. replace (size - 4) with (4294967296 + size - 4 + (-1) * 4294967296) by lia. rewrite Z_mod_plus_full. apply Z.mod_small. lia. }
  rewrite parse_packet_eq by (done || rewrite ?Eu; unfold is_u16; lia). rewrite Eu. apply bind_ext. intros _ n'. pose proof (length_concat_framed ms Hms) as Hc.
  set (f := (S (length (concat ms)) - length ms)%nat). replace (S (length (concat ms))) with (length ms + f)%nat by (unfold f; lia).
  replace (4294967296 + size - 4) with (Z.of_nat (length (concat ms)) + (4294967296 + size - 4 - Z.of_nat (length (concat ms)))) by lia.
  rewrite <- (app_nil_r (concat ms)) at 1. rewrite parse_messages_run by (done || lia).
  unfold bind, crash. destruct (process_all ms [] in_if from n') as [[[] n1]|]; [|done]. apply parse_messages_overrun; [|unfold f; lia].
  unfold min_msgsize, ip_len, ipsize. destruct ip_version; lia.
Qed.

(** ** Receiving *)

Lemma receive_length inbuf d : length (snd (receive inbuf d)) = length inbuf.
Proof. unfold receive. simpl. rewrite length_app, length_drop, length_take. lia. Qed.

Lemma olsr_input_loop_bound fuel fd inbuf socket n r n' :
  olsr_input_loop ptf_list parse_functions packetparsers preprocessors collision fuel fd inbuf socket n = Some (r, n') ->
  length (fst r) = length inbuf /\ exists k, (k <= fuel)%nat /\ snd r = drop k socket.
Proof.
  revert inbuf socket n. induction fuel as [|fuel IH]; intros inbuf socket n; cbn [olsr_input_loop].
  { intros [= <- <-]. split; [done|]. by exists 0%nat. }
  destruct socket as [|d socket]; [intros [= <- <-]; split; [done|]; exists 0%nat; split; [lia|done]|]. pose proof (receive_length inbuf d) as Hl.
  destruct (receive inbuf d) as [cc inbuf1]. cbn [snd] in Hl.
  assert (forall n1, ret (inbuf1, socket) n1 = Some (r, n') -> length (fst r) = length inbuf /\ exists k, (k <= S fuel)%nat /\ snd r = drop k (d :: socket)) as Hone.
  { intros n1 [= <- <-]. split; [done|]. exists 1%nat. split; [lia|done]. }
  destruct (cc <=? 0); [apply Hone|]. destruct (negb _); [apply Hone|]. unfold bind at 1, gets at 1. destruct (if_ifwithaddr _ _); [apply Hone|].
  destruct fd as [i|]; [|apply Hone]. unfold bind at 1. destruct (preprocess _ _ _ _ _ n) as [[[[p c]|] n1]|]; [|apply Hone|done].
  unfold bind. destruct (parse_packet _ _ _ _ _ _ _ _ n1) as [[[] n2]|]; [|done]. intros H. destruct (IH _ _ _ H) as (L & k & Hk & E).
  split; [congruence|]. exists (S k). split; [lia|exact E].
Qed.

(** One call of [olsr_input] takes at most 32 packets from the socket, in their order, and never writes past the end of the buffer. *)
Theorem olsr_input_bounded fd inbuf socket n inbuf' rest n' :
  olsr_input ptf_list parse_functions packetparsers preprocessors collision fd inbuf socket n = Some (inbuf', rest, n') ->
  length inbuf' = length inbuf /\ exists k, (k <= 32)%nat /\ rest = drop k socket.
Proof. apply (olsr_input_loop_bound 32). Qed.

(** The function for the emulator has no such bound: a packet that claims to be larger than the buffer is written past its end. *)
Lemma olsr_input_hostemu_overflow fd inbuf from a b rest n :
  length from = ipsize ip_version -> Z.of_nat (length inbuf) < 256 * a + b <= 2 + Z.of_nat (length rest) ->
  if_ifwithaddr (ifnet (core n)) (ip_of_bytes from) = None ->
  olsr_input_hostemu ptf_list parse_functions packetparsers preprocessors collision fd inbuf (from ++ a :: b :: rest) n = None.
Proof.
  intros Hf Hlen Hif. unfold olsr_input_hostemu. rewrite <- Hf. destruct (Nat.ltb_spec (length (from ++ a :: b :: rest)) (length from)) as [H|_]; [rewrite length_app in H; lia|].
  rewrite (take_app_length' from), (drop_app_length' from) by done. unfold bind at 1, gets at 1. rewrite Hif.
  destruct (Z.ltb_spec (Z.of_nat (length inbuf)) (Z.of_nat (length (take (Z.to_nat (256 * a + b)) (a :: b :: rest))))) as [|H]; [done|].
  rewrite length_take in H. simpl in H. lia.
Qed.

End parse_spec.

(** ** The functions of the daemon *)

Section daemon.
Context {cnf : olsrd_config} {ncf : node_config} {lqh : lq_handler} {krn : kernel_routes}.
Variable pcf_list : list pcf.

(** The function for a type of messages. *)
Definition daemon_function (msgtype : Z) : parse_function :=
  if msgtype =? (if lq_level =? 0 then HELLO_MESSAGE else LQ_HELLO_MESSAGE) then parse_hello pcf_list
  else if msgtype =? (if lq_level =? 0 then TC_MESSAGE else LQ_TC_MESSAGE) then parse_tc
  else if msgtype =? MID_MESSAGE then parse_mid
  else if msgtype =? HNA_MESSAGE then parse_hna
  else fun _ _ _ => ret true.

Lemma hello_not_forwarded m i from n r n' : parse_hello pcf_list m i from n = Some (r, n') -> r = false.
Proof.
  assert (wlp (parse_hello pcf_list m i from) (fun r _ => r = false) n) as H.
  { unfold parse_hello, validating, get_out. apply wlp_bind, wlp_gets_opt. intros o _. apply wlp_bind, wlp_gets. unfold wlp, lift.
    destruct (olsr_input_hello _ _ _ _ _ _) as [[b st]|] eqn:E; [|done]. unfold olsr_input_hello, bind, gets_opt, ret in E.
    destruct (deserialize_hello m) as [[h|]|]; [|congruence|done]. destruct (olsr_hello_tap _ _ _ _ _ _) as [[u st']|]; congruence. }
  unfold wlp in H. intros E. by rewrite E in H.
Qed.

(** With the functions of the daemon a message reaches the one function for its type, whose answer tells whether it is forwarded: HELLO messages never are, messages of
    unknown types always, and messages of the other kind (with link quality or without) are unknown. *)
Theorem call_daemon_functions m msgtype i from n : is_u8 msgtype ->
  call_parse_functions (olsr_init_package_process pcf_list []) m msgtype i from n = daemon_function msgtype m i from n /\
  (msgtype = (if lq_level =? 0 then HELLO_MESSAGE else LQ_HELLO_MESSAGE) -> forall r n', daemon_function msgtype m i from n = Some (r, n') -> r = false) /\
  (msgtype ∉ ([if lq_level =? 0 then HELLO_MESSAGE else LQ_HELLO_MESSAGE; if lq_level =? 0 then TC_MESSAGE else LQ_TC_MESSAGE; MID_MESSAGE; HNA_MESSAGE] : list Z) ->
   daemon_function msgtype m i from n = Some (true, n)).
Proof.
  intros Hu. split; [|split].
  - assert (forall f : parse_function, bind (let* r := f m i from in ret (if r then true else false)) (fun b => ret b) n = f m i from n) as Hone.
    { intros f. unfold bind, ret. by destruct (f m i from n) as [[[|] n']|]. }
    unfold call_parse_functions, olsr_init_package_process, olsr_parser_add_function, daemon_function, is_u8 in *. destruct (lq_level =? 0).
    all: cbn [foldM fst snd].
    all: change (HNA_MESSAGE =? PROMISCUOUS) with false; change (MID_MESSAGE =? PROMISCUOUS) with false; change (TC_MESSAGE =? PROMISCUOUS) with false;
      change (HELLO_MESSAGE =? PROMISCUOUS) with false; change (LQ_TC_MESSAGE =? PROMISCUOUS) with false; change (LQ_HELLO_MESSAGE =? PROMISCUOUS) with false.
    all: unfold HELLO_MESSAGE, LQ_HELLO_MESSAGE, TC_MESSAGE, LQ_TC_MESSAGE, MID_MESSAGE, HNA_MESSAGE in *; cbn [orb].
    + destruct (Z.eqb_spec 4 msgtype) as [<-|H4]; [apply Hone|]. destruct (Z.eqb_spec 3 msgtype) as [<-|H3]; [apply Hone|].
      destruct (Z.eqb_spec 2 msgtype) as [<-|H2]; [apply Hone|]. destruct (Z.eqb_spec 1 msgtype) as [<-|H1]; [apply Hone|].
      rewrite (proj2 (Z.eqb_neq msgtype 1)), (proj2 (Z.eqb_neq msgtype 2)), (proj2 (Z.eqb_neq msgtype 3)), (proj2 (Z.eqb_neq msgtype 4)) by lia. done.
    + destruct (Z.eqb_spec 4 msgtype) as [<-|H4]; [apply Hone|]. destruct (Z.eqb_spec 3 msgtype) as [<-|H3]; [apply Hone|].
      destruct (Z.eqb_spec 202 msgtype) as [<-|H2]; [apply Hone|]. destruct (Z.eqb_spec 201 msgtype) as [<-|H1]; [apply Hone|].
      rewrite (proj2 (Z.eqb_neq msgtype 201)), (proj2 (Z.eqb_neq msgtype 202)), (proj2 (Z.eqb_neq msgtype 3)), (proj2 (Z.eqb_neq msgtype 4)) by lia. done.
  - intros -> r n'. unfold daemon_function. rewrite Z.eqb_refl. apply hello_not_forwarded.
  - intros Hn. rewrite !not_elem_of_cons in Hn. destruct Hn as (H1 & H2 & H3 & H4 & _). unfold daemon_function.
    by rewrite (proj2 (Z.eqb_neq _ _) H1), (proj2 (Z.eqb_neq _ _) H2), (proj2 (Z.eqb_neq _ _) H3), (proj2 (Z.eqb_neq _ _) H4).
Qed.

End daemon.

(** ** Witnesses *)

Section parser_witnesses.
#[local] Existing Instance sample_cnf.
#[local] Existing Instance sample_lq.
#[local] Existing Instance announce_ncf.

Lemma framed_77 : framed message_77.
Proof. eexists. split; [reflexivity|]. split; [reflexivity|]. split; [vm_compute; discriminate|reflexivity]. Qed.

Lemma unframed_short : unframed [1; 2; 3; 4].
Proof. left. vm_compute. reflexivity. Qed.

(** A message, four more bytes, and one byte of an earlier packet. *)
Lemma parse_packet_reference_witness :
  parse_packet [] [] [] [] (packet 20 7 ((message_77 ++ [1; 2; 3; 4]) ++ [99])) 20 0 200 (bare_node lk1 [] []) =
  (do* process_header [] {| olsr_packlen := 20; olsr_seqno_ := 7; olsr_msg := (message_77 ++ [1; 2; 3; 4]) ++ [99] |} 0 200 in
   process_all [] [] [] [message_77] ([1; 2; 3; 4] ++ [99]) 0 200) (bare_node lk1 [] []).
Proof.
  destruct (parse_packet_reference [] [] [] [] 7 (message_77 ++ [1; 2; 3; 4]) [99] 0 200) as (ms & tail & _ & Hu & H).
  - simpl. lia.
  - simpl. lia.
  - unfold is_u16. lia.
  - destruct (Hu [message_77] [1; 2; 3; 4]) as [<- <-]; [|exact (H (bare_node lk1 [] []))]. apply frames_message; [exact framed_77|]. apply frames_end, unframed_short.
Defined.

(** Two bytes, and two messages of an earlier packet. *)
Lemma parse_packet_short_witness : parse_packet [] [] [] [] (packet 2 7 (concat [message_77; message_77])) 2 0 200 (bare_node lk1 [] []) = None.
Proof.
  generalize (bare_node lk1 [] []). intros n. rewrite (parse_packet_short [] [] [] [] 2 7 [message_77; message_77] 0 200 n).
  - unfold bind at 1. destruct (process_header _ _ _ _ n) as [[[] n1]|]; [|reflexivity]. unfold bind at 1. by destruct (process_all _ _ _ _ _ _ _ n1) as [[[] n2]|].
  - lia.
  - unfold is_u16. lia.
  - repeat constructor; exact framed_77.
  - vm_compute. reflexivity.
Defined.

(** 40 packets without messages. *)
Definition empty_packets : list datagram := replicate 40 {| dg_bytes := [0; 4; 0; 1]; dg_from := 200; dg_family := AF_INET |}.

Lemma olsr_input_bounded_witness : exists inbuf' rest n',
  olsr_input [] [] [] [] [] (Some 0%nat) (replicate 8 0) empty_packets (bare_node lk1 [] []) = Some (inbuf', rest, n') /\
  length inbuf' = 8%nat /\ length rest = 8%nat /\ exists k, (k <= 32)%nat /\ rest = drop k empty_packets.
Proof.
  eexists _, _, _. split; [vm_compute; reflexivity|]. split; [reflexivity|]. split; [reflexivity|].
  eapply (olsr_input_bounded [] [] [] [] [] (Some 0%nat) (replicate 8 0) empty_packets (bare_node lk1 [] [])). vm_compute. reflexivity.
Defined.

End parser_witnesses.

Section daemon_witness.
#[local] Existing Instance sample_cnf.
#[local] Existing Instance sample_lq.
#[local] Existing Instance announce_ncf.
#[local] Existing Instance willing_kernel.

(** The type 77 is unknown. *)
Lemma call_daemon_functions_witness : call_parse_functions (olsr_init_package_process [] []) message_77 77 0 200 (bare_node lk1 [] []) = Some (true, bare_node lk1 [] []).
Proof.
  generalize (bare_node lk1 [] []). intros n. destruct (call_daemon_functions [] message_77 77 0 200 n) as (H1 & _ & H2); [unfold is_u8; lia|]. rewrite H1. apply H2.
  rewrite !not_elem_of_cons. vm_compute. split_and!; try discriminate. intros H. inversion H.
Defined.

End daemon_witness.
