(* ===== verification/TimerWheel.v ===== *)
(** * scheduler.c: the timer wheel

    The owners of timers see them as in State.v; here are the timers themselves, which hang
    in the slots of a wheel until the scheduler finds them. [call] runs the function of a
    timer, whatever it is; it works on the same state, to which [client] adds what the
    wheel does not look at. A node that is removed from a list it is not in, or a timer that
    was freed, is [None]. *)

From S2P Require Import Prelude Mantissa Timer Avl IpAddr State MidLookup Interfaces NeighTable NeighSpec.

Definition TIMER_WHEEL_SLOTS : Z := 1024.
Definition TIMER_WHEEL_MASK : Z := TIMER_WHEEL_SLOTS - 1.

(** [wt_cb] stands for [timer_cb] and [timer_cb_context]; the cookie is left out. *)
Record wheel_timer := {
  wt_clock : Z;
  wt_period : Z;
  wt_jitter_pct : Z;
  wt_running : bool;
  wt_removed : bool;
  wt_random : Z;
  wt_cb : positive;
}.

(** [tmp_head] is the temporary list of a walk, [cleanup] the tree of the timers to be freed. *)
Record wheel (C : Type) := Wheel {
  wheel_now : Z;
  timer_last_run : Z;
  wheel_timers : gmap positive wheel_timer;
  timer_wheel : list (list positive);
  tmp_head : list positive;
  cleanup : list positive;
  wheel_random : Z;
  client : C;
}.
Arguments Wheel {_}. Arguments wheel_now {_}. Arguments timer_last_run {_}. Arguments wheel_timers {_}. Arguments timer_wheel {_}.
Arguments tmp_head {_}. Arguments cleanup {_}. Arguments wheel_random {_}. Arguments client {_}.

(** ** Field updates *)

Definition set_wt_clock (x : Z) (t : wheel_timer) : wheel_timer :=
  {| wt_clock := x; wt_period := wt_period t; wt_jitter_pct := wt_jitter_pct t; wt_running := wt_running t; wt_removed := wt_removed t;
     wt_random := wt_random t; wt_cb := wt_cb t |}.
Definition set_wt_interval (period pct : Z) (t : wheel_timer) : wheel_timer :=
  {| wt_clock := wt_clock t; wt_period := period; wt_jitter_pct := pct; wt_running := wt_running t; wt_removed := wt_removed t;
     wt_random := wt_random t; wt_cb := wt_cb t |}.
Definition set_wt_flags (running removed : bool) (t : wheel_timer) : wheel_timer :=
  {| wt_clock := wt_clock t; wt_period := wt_period t; wt_jitter_pct := wt_jitter_pct t; wt_running := running; wt_removed := removed;
     wt_random := wt_random t; wt_cb := wt_cb t |}.
Definition set_wt_random (x : Z) (t : wheel_timer) : wheel_timer :=
  {| wt_clock := wt_clock t; wt_period := wt_period t; wt_jitter_pct := wt_jitter_pct t; wt_running := wt_running t; wt_removed := wt_removed t;
     wt_random := x; wt_cb := wt_cb t |}.

Section fields.
Context {C : Type}.

Definition set_timer_last_run (x : Z) (s : wheel C) : wheel C :=
  Wheel (wheel_now s) x (wheel_timers s) (timer_wheel s) (tmp_head s) (cleanup s) (wheel_random s) (client s).
Definition set_wheel_timers (x : gmap positive wheel_timer) (s : wheel C) : wheel C :=
  Wheel (wheel_now s) (timer_last_run s) x (timer_wheel s) (tmp_head s) (cleanup s) (wheel_random s) (client s).
Definition set_lists (slots : list (list positive)) (tmp : list positive) (s : wheel C) : wheel C :=
  Wheel (wheel_now s) (timer_last_run s) (wheel_timers s) slots tmp (cleanup s) (wheel_random s) (client s).
Definition set_cleanup (x : list positive) (s : wheel C) : wheel C :=
  Wheel (wheel_now s) (timer_last_run s) (wheel_timers s) (timer_wheel s) (tmp_head s) x (wheel_random s) (client s).
Definition set_wheel_random (x : Z) (s : wheel C) : wheel C :=
  Wheel (wheel_now s) (timer_last_run s) (wheel_timers s) (timer_wheel s) (tmp_head s) (cleanup s) x (client s).
Definition set_client (x : C) (s : wheel C) : wheel C :=
  Wheel (wheel_now s) (timer_last_run s) (wheel_timers s) (timer_wheel s) (tmp_head s) (cleanup s) (wheel_random s) x.

End fields.

Section timer_wheel.
Context {cnf : olsrd_config} {C : Type}.
Notation TM := (M (wheel C)).

(** ** Lists and memory *)

Definition slot_of (clock : Z) : nat := Z.to_nat (Z.land clock TIMER_WHEEL_MASK).

Definition get_timer (p : positive) : TM wheel_timer := gets_opt (fun s => wheel_timers s !! p).
Definition upd_timer (p : positive) (f : wheel_timer -> wheel_timer) : TM unit :=
  let* t := get_timer p in modify (fun s => set_wheel_timers (<[p := f t]> (wheel_timers s)) s).

(** The timers that hang in a list. *)
Definition placed (s : wheel C) : list positive := concat (timer_wheel s) ++ tmp_head s.

Definition without (p : positive) (l : list positive) : list positive := filter (fun q => q <> p) l.

(** [list_remove] on the node of a timer: its list need not be known. *)
Definition unlink_timer (p : positive) : TM unit :=
  let* on_list := gets (fun s => bool_decide (p ∈ placed s)) in
  if on_list then modify (fun s => set_lists (map (without p) (timer_wheel s)) (without p (tmp_head s)) s) else crash.

(** [list_add_before(&timer_wheel[slot], ...)] *)
Definition slot_add (slot : nat) (p : positive) : TM unit :=
  modify (fun s => set_lists (alter (fun l => l ++ [p]) slot (timer_wheel s)) (tmp_head s) s).

(** [list_add_after(&tmp_head_node, ...)] *)
Definition tmp_add (p : positive) : TM unit := modify (fun s => set_lists (timer_wheel s) (p :: tmp_head s) s).

(** [list_merge]: the temporary list goes in front of the slot. *)
Definition slot_merge (slot : nat) : TM unit :=
  modify (fun s => set_lists (alter (fun l => tmp_head s ++ l) slot (timer_wheel s)) [] s).

Definition draw_random : TM Z :=
  let* k := gets wheel_random in do* modify (set_wheel_random (k + 1)) in ret (olsr_random k).

Definition jittered (rel_time jitter_pct random : Z) : TM Z :=
  let* now := gets wheel_now in ret (calc_jitter OLSR_RANDOM_MAX now rel_time jitter_pct random).

(** ** Timers *)

Definition wheel_start_timer (rel_time jitter_pct : Z) (periodical : bool) (cb_func : positive) : TM positive :=
  let* random := draw_random in
  let* clock := jittered rel_time jitter_pct random in
  let* p := gets (fun s => alloc (wheel_timers s)) in
  let timer := {| wt_clock := clock; wt_period := if periodical then rel_time else 0; wt_jitter_pct := jitter_pct; wt_running := true;
                  wt_removed := false; wt_random := random; wt_cb := cb_func |} in
  do* modify (fun s => set_wheel_timers (<[p := timer]> (wheel_timers s)) s) in
  do* slot_add (slot_of clock) p in
  ret p.

(** The timer is freed later, by [walk_timers_cleanup]. *)
Definition wheel_stop_timer (timer : option positive) : TM unit :=
  match timer with
  | None => ret tt
  | Some p =>
      let* t := get_timer p in
      when (wt_running t)
        (do* upd_timer p (set_wt_flags false true) in
         modify (fun s => if bool_decide (p ∈ cleanup s) then s else set_cleanup (p :: cleanup s) s))
  end.

Definition wheel_change_timer (timer : option positive) (rel_time jitter_pct : Z) (periodical : bool) : TM unit :=
  match timer with
  | None => ret tt
  | Some p =>
      let* t := get_timer p in
      let* clock := jittered rel_time jitter_pct (wt_random t) in
      do* upd_timer p (fun t => set_wt_clock clock (set_wt_interval (if periodical then rel_time else 0) jitter_pct t)) in
      do* unlink_timer p in
      slot_add (slot_of clock) p
  end.

(** The new value of the pointer of the owner. *)
Definition wheel_set_timer (timer : option positive) (rel_time jitter_pct : Z) (periodical : bool) (cb_func : positive) : TM (option positive) :=
  if rel_time =? 0 then do* wheel_stop_timer timer in ret None
  else
    match timer with
    | None => let* p := wheel_start_timer rel_time jitter_pct periodical cb_func in ret (Some p)
    | Some p => do* wheel_change_timer (Some p) rel_time jitter_pct periodical in ret (Some p)
    end.

Definition olsr_cleanup_timer (p : positive) : TM unit :=
  let* t := get_timer p in
  when (wt_removed t)
    (do* unlink_timer p in
     modify (fun s => set_wheel_timers (delete p (wheel_timers s)) s)).

(** The tree is ordered by the addresses; the order does not matter. *)
Definition walk_timers_cleanup : TM unit :=
  let* l := gets cleanup in
  forM_ l (fun p =>
    do* olsr_cleanup_timer p in
    modify (fun s => set_cleanup (without p (cleanup s)) s)).

(** ** Walking *)

Variable call : positive -> TM unit.

(** A timer that was taken from its slot. *)
Definition visit_timer (p : positive) : TM unit :=
  let* t := get_timer p in
  if wt_removed t then ret tt
  else
    let* now := gets wheel_now in
    when (olsr_isTimedOut now (wt_clock t))
      (do* call (wt_cb t) in
       let* t := get_timer p in
       when (wt_running t)
         (if negb (wt_period t =? 0) then
            let* random := draw_random in
            do* upd_timer p (set_wt_random random) in
            wheel_change_timer (Some p) (wt_period t) (wt_jitter_pct t) true
          else wheel_stop_timer (Some p))).

Fixpoint walk_slot (fuel : nat) (slot : nat) : TM unit :=
  match fuel with
  | O => crash
  | S fuel =>
      let* l := gets_opt (fun s => timer_wheel s !! slot) in
      match l with
      | [] => ret tt
      | p :: _ =>
          do* unlink_timer p in
          do* tmp_add p in
          do* visit_timer p in
          walk_slot fuel slot
      end
  end.

(** At most [slots] slots. *)
Fixpoint walk_slots (fuel slots : nat) : TM unit :=
  match slots with
  | O => ret tt
  | S slots =>
      let* last_run := gets timer_last_run in
      let* now := gets wheel_now in
      if last_run <=? now then
        do* walk_slot fuel (slot_of last_run) in
        do* slot_merge (slot_of last_run) in
        do* modify (set_timer_last_run (u32 (last_run + 1))) in
        walk_slots fuel slots
      else ret tt
  end.

Definition walk_timers (fuel : nat) : TM unit :=
  do* walk_slots fuel (Z.to_nat TIMER_WHEEL_SLOTS) in
  let* now := gets wheel_now in
  modify (set_timer_last_run now).

(** ** Start and end *)

(** The state that [olsr_init_timers] leaves at the time [now]. *)
Definition olsr_init_timers (now : Z) (c : C) : wheel C :=
  Wheel now now ∅ (replicate (Z.to_nat TIMER_WHEEL_SLOTS) []) [] [] 0 c.

Fixpoint flush_slot (fuel slot : nat) : TM unit :=
  match fuel with
  | O => crash
  | S fuel =>
      let* l := gets_opt (fun s => timer_wheel s !! slot) in
      match l with
      | [] => ret tt
      | p :: _ => do* unlink_timer p in do* tmp_add p in do* wheel_stop_timer (Some p) in flush_slot fuel slot
      end
  end.

(** The last slot gets all timers that were stopped; then they are freed. *)
Definition olsr_flush_timers (fuel : nat) : TM unit :=
  do* walk_timers_cleanup in
  do* forM_ (seq 0 (Z.to_nat TIMER_WHEEL_SLOTS)) (flush_slot fuel) in
  do* slot_merge (Z.to_nat TIMER_WHEEL_MASK) in
  walk_timers_cleanup.

End timer_wheel.

(** ** The clock *)

Lemma slot_of_mod c : 0 <= c -> slot_of c = Z.to_nat (c mod 1024).
Proof. intros H. unfold slot_of. change TIMER_WHEEL_MASK with (Z.ones 10). by rewrite Z.land_ones by lia. Qed.

Lemma slot_of_lt c : 0 <= c -> (slot_of c < 1024)%nat.
Proof. intros H. rewrite slot_of_mod by done. pose proof (Z.mod_pos_bound c 1024). lia. Qed.

(** The milliseconds until [c], counted on the circle. *)
Definition ahead (now c : Z) : Z := (c - now) mod 4294967296.

Lemma not_due_ahead now c : is_u32 now -> is_u32 c -> olsr_isTimedOut now c = false -> 0 < ahead now c <= 2147483648.
Proof.
  unfold is_u32, ahead, olsr_isTimedOut. intros Hn Hc. rewrite shl32_1_31. unfold u32. rewrite Z.gtb_ltb. destruct (Z.ltb_spec now c).
  - rewrite (Z.mod_small (c - now)) by lia. rewrite Z.gtb_ltb, Z.ltb_ge. lia.
  - rewrite (Z.mod_small (now - c)) by lia. rewrite Z.leb_gt. intros Hlt. rewrite <- (Z_mod_plus_full (c - now) 1). rewrite Z.mod_small by lia. lia.
Qed.

Lemma ahead_not_due now c : is_u32 now -> is_u32 c -> 1 <= ahead now c < 2147483648 -> olsr_isTimedOut now c = false.
Proof.
  unfold is_u32, ahead, olsr_isTimedOut. intros Hn Hc. rewrite shl32_1_31. unfold u32. rewrite Z.gtb_ltb. destruct (Z.ltb_spec now c).
  - rewrite (Z.mod_small (c - now)) by lia. rewrite Z.gtb_ltb, Z.ltb_ge. lia.
  - rewrite (Z.mod_small (now - c)) by lia. rewrite Z.leb_gt. destruct (Z.eq_dec c now) as [->|]; [rewrite Z.sub_diag; change (0 mod 4294967296) with 0; lia|].
    rewrite <- (Z_mod_plus_full (c - now) 1). rewrite Z.mod_small by lia. lia.
Qed.

(** A timer whose clock was less than half the circle ahead of [last] and that is due at
    [now] has its clock between the two. *)
Lemma due_between last now c : is_u32 last -> is_u32 now -> is_u32 c -> last <= now -> now - last < 2147483648 -> ahead last c < 2147483648 ->
  if olsr_isTimedOut now c then last <= c <= now else 1 <= ahead now c < 2147483648.
Proof.
  unfold is_u32, ahead, olsr_isTimedOut. intros Hl Hn Hc Hln Hd. rewrite shl32_1_31. unfold u32. rewrite !Z.gtb_ltb.
  assert ((c - last) mod 4294967296 = if c <? last then c - last + 4294967296 else c - last) as ->.
  { destruct (Z.ltb_spec c last); [rewrite <- (Z_mod_plus_full (c - last) 1)|]; rewrite Z.mod_small by lia; lia. }
  assert ((c - now) mod 4294967296 = if c <? now then c - now + 4294967296 else c - now) as ->.
  { destruct (Z.ltb_spec c now); [rewrite <- (Z_mod_plus_full (c - now) 1)|]; rewrite Z.mod_small by lia; lia. }
  destruct (Z.ltb_spec c last); destruct (Z.ltb_spec c now); destruct (Z.ltb_spec now c); try lia; rewrite ?Z.gtb_ltb, ?(Z.mod_small (c - now)), ?(Z.mod_small (now - c)) by lia;
    repeat match goal with |- context [2147483648 <? ?d] => destruct (Z.ltb_spec 2147483648 d) | |- context [?d <=? 2147483648] => destruct (Z.leb_spec d 2147483648) end; lia.
Qed.

(** The clock of a timer that is started is ahead. *)
Lemma calc_jitter_ahead rmax now rel pct rnd : is_u32 now -> 1 <= rel < 2147483648 -> 0 <= pct < 256 -> 0 <= rnd <= rmax -> 0 < rmax < 4294967295 ->
  is_u32 (calc_jitter rmax now rel pct rnd) /\ 1 <= ahead now (calc_jitter rmax now rel pct rnd) <= rel.
Proof.
  intros Hn Hr Hp Hrnd Hm. assert (exists d, 1 <= d <= rel /\ calc_jitter rmax now rel pct rnd = olsr_getTimestamp now d) as (d & Hd & ->).
  { destruct (calc_jitter_bounds rmax now rel pct rnd) as (j & E & Hj); [done|unfold is_u32; lia|done..|]. unfold calc_jitter in *.
    destruct ((pct =? 0) || (pct >? 99) || (rel >? shl32 1 24)) eqn:Ec; [exists rel; split; [lia|done]|].
    exists (rel - j). split; [|done]. bool_hyps. split; [|lia]. assert (rel * pct / 100 < rel) by (apply Z.div_lt_upper_bound; nia). lia. }
  unfold olsr_getTimestamp, is_u32, ahead, u32 in *. split; [apply Z.mod_pos_bound; lia|]. rewrite Zminus_mod_idemp_l.
  replace (now + d - now) with d by lia. rewrite Z.mod_small; lia.
Qed.

(** ** Lists *)

Lemma without_concat p ls : concat (map (without p) ls) = without p (concat ls).
Proof. unfold without. induction ls as [|l ls IH]; [done|]. simpl. by rewrite IH, filter_app. Qed.

Lemma elem_of_without p q l : q ∈ without p l <-> q ∈ l /\ q <> p.
Proof. unfold without. rewrite list_elem_of_filter. tauto. Qed.

Lemma concat_alter_perm (f : list positive -> list positive) k ls l extra :
  ls !! k = Some l -> f l ≡ₚ extra ++ l -> concat (alter f k ls) ≡ₚ extra ++ concat ls.
Proof.
  revert k. induction ls as [|l0 ls IH]; intros [|k] Hk Hf; try done; simpl in *.
  - injection Hk as ->. by rewrite Hf, app_assoc.
  - rewrite (IH k Hk Hf). rewrite !app_assoc. by rewrite (Permutation_app_comm l0).
Qed.

(** ** The invariant *)

Section timer_spec.
Context {cnf : olsrd_config} {C : Type}.
Notation TM := (M (wheel C)).
Implicit Types s : wheel C.

(** A timer as it may be. *)
Record timer_ok (t : wheel_timer) : Prop := {
  to_clock : is_u32 (wt_clock t);
  to_period : 0 <= wt_period t < 2147483648;
  to_pct : 0 <= wt_jitter_pct t < 256;
  to_random : 0 <= wt_random t <= OLSR_RANDOM_MAX;
  to_flags : wt_removed t = negb (wt_running t);
}.

(** The wheel, with the timer [hole] in no list. *)
Record wheel_mod (hole : option positive) (s : wheel C) : Prop := {
  wo_now : is_u32 (wheel_now s);
  wo_len : length (timer_wheel s) = 1024%nat;
  wo_nodup : NoDup (placed s);
  wo_alloc p : p ∈ placed s <-> is_Some (wheel_timers s !! p) /\ hole <> Some p;
  wo_slot k l p t : timer_wheel s !! k = Some l -> p ∈ l -> wheel_timers s !! p = Some t -> slot_of (wt_clock t) = k;
  wo_timer p t : wheel_timers s !! p = Some t -> timer_ok t;
  wo_clean_nodup : NoDup (cleanup s);
  wo_cleanup p : p ∈ cleanup s <-> exists t, wheel_timers s !! p = Some t /\ wt_removed t = true;
}.

Definition wheel_ok : wheel C -> Prop := wheel_mod None.

Definition unlinked (p : positive) (s : wheel C) : wheel C := set_lists (map (without p) (timer_wheel s)) (without p (tmp_head s)) s.

Definition linked_to (k : nat) (p : positive) (s : wheel C) : wheel C := set_lists (alter (fun l => l ++ [p]) k (timer_wheel s)) (tmp_head s) s.

Lemma placed_unlinked p s : placed (unlinked p s) = without p (placed s).
Proof. unfold placed, unlinked. simpl. rewrite without_concat. unfold without. by rewrite filter_app. Qed.

Lemma unlinked_ok p s : wheel_ok s -> wheel_mod (Some p) (unlinked p s).
Proof.
  intros [W1 W2 W3 W4 W5 W6 W7 W8]. split; try done.
  - simpl. by rewrite length_map.
  - rewrite placed_unlinked. by apply NoDup_filter.
  - intros q. rewrite placed_unlinked, elem_of_without, W4. simpl. split; [intros [[H _] Hn]; split; [done|congruence]|intros [H Hn]; split; [done|congruence]].
  - intros k l q t Hk Hq. simpl in Hk. rewrite list_lookup_fmap in Hk. destruct (timer_wheel s !! k) as [l0|] eqn:E; [|done]. injection Hk as <-.
    apply elem_of_without in Hq as [Hq _]. by eapply W5.
Qed.

Lemma hole_upd_ok p t t' s : wheel_mod (Some p) s -> wheel_timers s !! p = Some t -> timer_ok t' -> wt_removed t' = wt_removed t ->
  wheel_mod (Some p) (set_wheel_timers (<[p := t']> (wheel_timers s)) s).
Proof.
  intros [W1 W2 W3 W4 W5 W6 W7 W8] Hp Hok Hr. split; try done; simpl.
  - intros q. change (placed _) with (placed s). rewrite W4. split; intros [H Hn]; (split; [|done]); rewrite lookup_insert_ne in * by congruence; done.
  - intros k l q u Hk Hq. rewrite lookup_insert_ne; [by eapply W5|]. intros <-.
    assert (p ∈ placed s) as Hin by (apply elem_of_app; left; apply list_elem_of_In, in_concat; exists l; split; apply list_elem_of_In; [by eapply list_elem_of_lookup_2|done]).
    apply W4 in Hin as [_ Hin]. done.
  - intros q u. rewrite lookup_insert_Some. intros [[_ <-]|[_ Hq]]; [done|by eapply W6].
  - intros q. rewrite W8. split; intros (u & Hq & Hu).
    + destruct (decide (q = p)) as [->|Hn]; [exists t'; rewrite lookup_insert_eq; split; [done|congruence]|exists u; by rewrite lookup_insert_ne].
    + destruct (decide (q = p)) as [->|Hn]; [rewrite lookup_insert_eq in Hq; injection Hq as <-; exists t; split; [done|congruence]|rewrite lookup_insert_ne in Hq by done; by exists u].
Qed.

Lemma lookup_slot s c : wheel_mod None s \/ (exists p, wheel_mod (Some p) s) -> 0 <= c -> exists l, timer_wheel s !! slot_of c = Some l.
Proof.
  intros H Hc. assert (length (timer_wheel s) = 1024%nat) as Hl by (by destruct H as [H|[p H]]; destruct H).
  apply lookup_lt_is_Some_2. rewrite Hl. by apply slot_of_lt.
Qed.

Lemma linked_ok p t s : wheel_mod (Some p) s -> wheel_timers s !! p = Some t -> wheel_ok (linked_to (slot_of (wt_clock t)) p s).
Proof.
  intros Hw Hp. pose proof Hw as [W1 W2 W3 W4 W5 W6 W7 W8]. destruct (lookup_slot s (wt_clock t)) as [l Hl]; [right; by exists p|apply (W6 p t Hp)|].
  assert (placed (linked_to (slot_of (wt_clock t)) p s) ≡ₚ p :: placed s) as Hpl.
  { unfold placed, linked_to. simpl. by rewrite (concat_alter_perm _ _ _ l [p] Hl (Permutation_app_comm l [p])). }
  assert (p ∉ placed s) as Hnp by (rewrite W4; by intros [_ ?]). split; try done.
  - simpl. by rewrite length_alter.
  - rewrite Hpl. by constructor.
  - intros q. rewrite Hpl, elem_of_cons, W4. simpl. split; [intros [->|[H _]]; (split; [|done]); [by eexists|done]|].
    intros [H _]. destruct (decide (q = p)) as [->|Hn]; [by left|right; split; [done|congruence]].
  - intros k l' q u Hk Hq Hu. simpl in Hk, Hu. destruct (decide (k = slot_of (wt_clock t))) as [->|Hn].
    + rewrite list_lookup_alter_eq, Hl in Hk. injection Hk as <-. apply elem_of_app in Hq as [Hq|Hq%list_elem_of_singleton]; [by eapply W5|]. subst q. congruence.
    + rewrite list_lookup_alter_ne in Hk by done. by eapply W5.
Qed.

Lemma tmp_ok p s : wheel_mod (Some p) s -> is_Some (wheel_timers s !! p) -> wheel_ok (set_lists (timer_wheel s) (p :: tmp_head s) s).
Proof.
  intros [W1 W2 W3 W4 W5 W6 W7 W8] Hp. assert (placed (set_lists (timer_wheel s) (p :: tmp_head s) s) ≡ₚ p :: placed s) as Hpl.
  { unfold placed. simpl. by rewrite <- Permutation_middle. }
  assert (p ∉ placed s) as Hnp by (rewrite W4; by intros [_ ?]). split; try done.
  - rewrite Hpl. by constructor.
  - intros q. rewrite Hpl, elem_of_cons, W4. simpl. split; [intros [->|[H _]]; by split|].
    intros [H _]. destruct (decide (q = p)) as [->|Hn]; [by left|right; split; [done|congruence]].
Qed.

Lemma freed_ok p t s : wheel_mod (Some p) s -> wheel_timers s !! p = Some t -> wt_removed t = true ->
  wheel_ok (set_cleanup (without p (cleanup s)) (set_wheel_timers (delete p (wheel_timers s)) s)).
Proof.
  intros [W1 W2 W3 W4 W5 W6 W7 W8] Hp Hr. split; try done; simpl.
  - intros q. change (placed _) with (placed s). rewrite W4. destruct (decide (q = p)) as [->|Hn].
    + rewrite lookup_delete_eq. split; [by intros [_ ?]|by intros [[? ?] _]].
    + rewrite lookup_delete_ne by done. split; intros [H _]; split; try done. congruence.
  - intros k l q u Hk Hq. rewrite lookup_delete_Some. intros [_ Hu]. by eapply W5.
  - intros q u. rewrite lookup_delete_Some. intros [_ Hu]. by eapply W6.
  - by apply NoDup_filter.
  - intros q. rewrite elem_of_without, W8. split.
    + intros [(u & Hu & H) Hn]. exists u. by rewrite lookup_delete_ne.
    + intros (u & Hu & H). apply lookup_delete_Some in Hu as [Hn Hu]. split; [by exists u|done].
Qed.

Lemma fresh_ok t s : wheel_ok s -> timer_ok t -> wt_removed t = false ->
  wheel_mod (Some (alloc (wheel_timers s))) (set_wheel_timers (<[alloc (wheel_timers s) := t]> (wheel_timers s)) s).
Proof.
  intros [W1 W2 W3 W4 W5 W6 W7 W8] Ht Hr. set (p := alloc (wheel_timers s)). pose proof (alloc_fresh (wheel_timers s)) as Hfr. fold p in Hfr.
  assert (p ∉ placed s) as Hnp by (rewrite W4, Hfr; by intros [[? ?] _]). split; try done; simpl.
  - intros q. change (placed _) with (placed s). destruct (decide (q = p)) as [->|Hn].
    + split; [done|]. by intros [_ ?].
    + rewrite lookup_insert_ne by done. rewrite W4. split; intros [H _]; (split; [done|congruence]).
  - intros k l q u Hk Hq. rewrite lookup_insert_ne; [by eapply W5|]. intros <-. apply Hnp. apply elem_of_app; left. apply list_elem_of_In, in_concat. exists l.
    split; apply list_elem_of_In; [by eapply list_elem_of_lookup_2|done].
  - intros q u. rewrite lookup_insert_Some. intros [[_ <-]|[_ Hq]]; [done|by eapply W6].
  - intros q. rewrite W8. split; intros (u & Hq & Hu).
    + exists u. rewrite lookup_insert_ne; [done|congruence].
    + apply lookup_insert_Some in Hq as [[_ <-]|[_ Hq]]; [congruence|by exists u].
Qed.

Lemma stopped_ok h p t s : wheel_mod h s -> wheel_timers s !! p = Some t -> wt_running t = true ->
  wheel_mod h (let s' := set_wheel_timers (<[p := set_wt_flags false true t]> (wheel_timers s)) s in
    if bool_decide (p ∈ cleanup s') then s' else set_cleanup (p :: cleanup s') s').
Proof.
  intros [W1 W2 W3 W4 W5 W6 W7 W8] Hp Hr. cbn [cleanup set_wheel_timers]. pose proof (W6 p t Hp) as [T1 T2 T3 T4 T5]. rewrite Hr in T5.
  assert (p ∉ cleanup s) as Hnc. { rewrite W8. intros (u & Hu & Hur). rewrite Hp in Hu. injection Hu as <-. by rewrite T5 in Hur. }
  rewrite bool_decide_eq_false_2 by done. split; try done; simpl.
  - intros q. change (placed _) with (placed s). rewrite W4. destruct (decide (q = p)) as [->|Hn]; [rewrite lookup_insert_eq, Hp|by rewrite lookup_insert_ne].
    split; intros [_ H]; (split; [by eexists|done]).
  - intros k l q u Hk Hq. rewrite lookup_insert_Some. intros [[<- <-]|[_ Hu]]; [|by eapply W5]. simpl. by eapply W5.
  - intros q u. rewrite lookup_insert_Some. intros [[_ <-]|[_ Hq]]; [done|by eapply W6].
  - by constructor.
  - intros q. rewrite elem_of_cons, W8. destruct (decide (q = p)) as [->|Hn]; [rewrite lookup_insert_eq|rewrite lookup_insert_ne by done].
    + split; [intros _; by eexists|intros _; by left].
    + split; [intros [?|H]; done|intros H; by right].
Qed.

(** ** What callbacks do *)

Definition overdue (s : wheel C) (p : positive) (c : Z) : Prop :=
  exists t, wheel_timers s !! p = Some t /\ wt_running t = true /\ wt_clock t = c /\ olsr_isTimedOut (wheel_now s) c = true.

(** From [s] to [s'] the clocks of running timers moved at most to moments that are ahead. *)
Record advances (s s' : wheel C) : Prop := {
  ad_now : wheel_now s' = wheel_now s;
  ad_last : timer_last_run s' = timer_last_run s;
  ad_alloc p : is_Some (wheel_timers s !! p) -> is_Some (wheel_timers s' !! p);
  ad_clock p t' : wheel_timers s' !! p = Some t' -> wt_running t' = true ->
    (exists t, wheel_timers s !! p = Some t /\ wt_running t = true /\ wt_clock t = wt_clock t') \/ 1 <= ahead (wheel_now s) (wt_clock t') < 2147483648;
}.

(** The temporary list lost timers at most. *)
Definition tmp_shrinks (s s' : wheel C) : Prop :=
  forall p, p ∈ tmp_head s' -> p ∈ tmp_head s /\
    exists t t', wheel_timers s !! p = Some t /\ wheel_timers s' !! p = Some t' /\ wt_clock t' = wt_clock t.

Definition works (s s' : wheel C) : Prop := wheel_ok s' /\ advances s s' /\ tmp_shrinks s s'.

Lemma advances_refl s : advances s s.
Proof. split; try done. intros p t' Ht Hr. left. by exists t'. Qed.

Lemma advances_trans s1 s2 s3 : advances s1 s2 -> advances s2 s3 -> advances s1 s3.
Proof.
  intros [A1 A2 A3 A4] [B1 B2 B3 B4]. split; [congruence|congruence|auto|]. intros p t' Ht Hr. destruct (B4 p t' Ht Hr) as [(t & H1 & H2 & <-)|H]; [by apply A4|].
  right. by rewrite <- A1.
Qed.

Lemma tmp_shrinks_trans s1 s2 s3 : tmp_shrinks s1 s2 -> tmp_shrinks s2 s3 -> tmp_shrinks s1 s3.
Proof.
  intros A B p Hp. destruct (B p Hp) as (Hp2 & t2 & t3 & H2 & H3 & E). destruct (A p Hp2) as (Hp1 & t1 & t2' & H1 & H2' & E'). split; [done|].
  exists t1, t3. split; [done|]. split; [done|congruence].
Qed.

Lemma works_refl s : wheel_ok s -> works s s.
Proof.
  intros Hw. split; [done|]. split; [apply advances_refl|]. intros p Hp. split; [done|].
  assert (p ∈ placed s) as [[t Ht] _]%(wo_alloc _ _ Hw) by (apply elem_of_app; by right). by exists t, t.
Qed.

Lemma works_trans s1 s2 s3 : works s1 s2 -> works s2 s3 -> works s1 s3.
Proof. intros (_ & A & A') (H & B & B'). split; [done|]. split; [by eapply advances_trans|by eapply tmp_shrinks_trans]. Qed.

Lemma overdue_advances s s' p c : wheel_ok s' -> advances s s' -> overdue s' p c -> overdue s p c.
Proof.
  intros Hw [A1 A2 A3 A4] (t & Ht & Hr & <- & Hd). destruct (A4 p t Ht Hr) as [(t0 & H0 & Hr0 & E)|H].
  - exists t0. by rewrite E, <- A1.
  - rewrite (ahead_not_due (wheel_now s') (wt_clock t)) in Hd; [done|apply Hw|by apply (wo_timer _ _ Hw p t Ht)|by rewrite A1].
Qed.

(** ** The operations *)

Lemma wp_get_timer p t Q s : wheel_timers s !! p = Some t -> Q t s -> wp (get_timer p) Q s.
Proof. intros Hp HQ. unfold get_timer. by eapply wp_gets_opt. Qed.

Lemma wp_upd_timer p f t Q s : wheel_timers s !! p = Some t -> Q tt (set_wheel_timers (<[p := f t]> (wheel_timers s)) s) -> wp (upd_timer p f) Q s.
Proof. intros Hp HQ. unfold upd_timer. wp_step. eapply wp_get_timer; [exact Hp|]. by wp_step. Qed.

Lemma wp_unlink_timer p (Q : unit -> wheel C -> Prop) s : p ∈ placed s -> Q tt (unlinked p s) -> wp (unlink_timer p) Q s.
Proof. intros Hp HQ. unfold unlink_timer. wp_step. wp_step. rewrite bool_decide_eq_true_2 by done. by wp_step. Qed.

Lemma elem_of_tmp p s : p ∈ tmp_head s -> p ∈ placed s.
Proof. intros H. apply elem_of_app. by right. Qed.

(** What [olsr_change_timer] makes of the timer. *)
Definition changed (s : wheel C) (rel pct : Z) (periodical : bool) (t : wheel_timer) : wheel_timer :=
  set_wt_clock (calc_jitter OLSR_RANDOM_MAX (wheel_now s) rel pct (wt_random t)) (set_wt_interval (if periodical then rel else 0) pct t).

Definition moved (s : wheel C) (p : positive) (t : wheel_timer) : wheel C :=
  linked_to (slot_of (wt_clock t)) p (unlinked p (set_wheel_timers (<[p := t]> (wheel_timers s)) s)).

Lemma wp_wheel_change_timer p t rel pct b (Q : unit -> wheel C -> Prop) s : wheel_ok s -> wheel_timers s !! p = Some t ->
  Q tt (moved s p (changed s rel pct b t)) -> wp (wheel_change_timer (Some p) rel pct b) Q s.
Proof.
  intros Hw Hp HQ. unfold wheel_change_timer, jittered. wp_step. eapply wp_get_timer; [exact Hp|]. do 5 wp_step. eapply wp_upd_timer; [exact Hp|]. wp_step.
  apply wp_unlink_timer; [|exact HQ]. change (placed _) with (placed s). apply (wo_alloc _ _ Hw). by split; [eexists|].
Qed.

Definition interval_ok (rel pct : Z) : Prop := 1 <= rel < 2147483648 /\ 0 <= pct < 256.

Hypothesis Hgen : forall k, 0 <= olsr_random k <= OLSR_RANDOM_MAX.
Hypothesis Hmax : 0 < OLSR_RANDOM_MAX < 4294967295.

Lemma changed_ahead s rel pct b t : wheel_ok s -> timer_ok t -> interval_ok rel pct ->
  timer_ok (changed s rel pct b t) /\ 1 <= ahead (wheel_now s) (wt_clock (changed s rel pct b t)) < 2147483648.
Proof.
  intros Hw [T1 T2 T3 T4 T5] [Hr Hp]. destruct (calc_jitter_ahead OLSR_RANDOM_MAX (wheel_now s) rel pct (wt_random t)) as [H1 H2]; [apply Hw|done..|].
  split; [|simpl; lia]. split; simpl; try done. destruct b; lia.
Qed.

Lemma moved_works s p t t' : wheel_ok s -> wheel_timers s !! p = Some t -> timer_ok t' -> wt_removed t' = wt_removed t ->
  1 <= ahead (wheel_now s) (wt_clock t') < 2147483648 -> works s (moved s p t').
Proof.
  intros Hw Hp Ht Hr Ha. split; [|split].
  - assert (wheel_mod (Some p) (set_wheel_timers (<[p := t']> (wheel_timers s)) (unlinked p s))) as Hm by (by apply (hole_upd_ok p t t' (unlinked p s)); [apply unlinked_ok|..]).
    apply (linked_ok p t' _ Hm). apply lookup_insert_eq.
  - split; try done; simpl.
    + intros q Hq. destruct (decide (q = p)) as [->|Hn]; [rewrite lookup_insert_eq; by eexists|by rewrite lookup_insert_ne].
    + intros q u. rewrite lookup_insert_Some. intros [[<- <-]|[Hn Hu]] Hru; [by right|left; by exists u].
  - intros q Hq. simpl in Hq. apply elem_of_without in Hq as [Hq Hn]. split; [done|]. pose proof (elem_of_tmp q s Hq) as [[u Hu] _]%(wo_alloc _ _ Hw).
    exists u, u. simpl. by rewrite lookup_insert_ne.
Qed.

Lemma change_works rel pct b p t s : wheel_ok s -> wheel_timers s !! p = Some t -> interval_ok rel pct ->
  wp (wheel_change_timer (Some p) rel pct b) (fun _ s' => s' = moved s p (changed s rel pct b t) /\ works s s') s.
Proof.
  intros Hw Hp Hi. eapply wp_wheel_change_timer; [done|exact Hp|]. split; [done|].
  destruct (changed_ahead s rel pct b t Hw (wo_timer _ _ Hw p t Hp) Hi) as [H1 H2]. by apply (moved_works s p t).
Qed.

Definition stopped (s : wheel C) (p : positive) (t : wheel_timer) : wheel C :=
  let s' := set_wheel_timers (<[p := set_wt_flags false true t]> (wheel_timers s)) s in
  if bool_decide (p ∈ cleanup s') then s' else set_cleanup (p :: cleanup s') s'.

Lemma stop_works p t s : wheel_ok s -> wheel_timers s !! p = Some t ->
  wp (wheel_stop_timer (Some p)) (fun _ s' => s' = (if wt_running t then stopped s p t else s) /\ works s s') s.
Proof.
  intros Hw Hp. unfold wheel_stop_timer. wp_step. eapply wp_get_timer; [exact Hp|]. apply wp_when; intros E; rewrite E.
  - wp_step. eapply wp_upd_timer; [exact Hp|]. wp_step. split; [done|]. split; [by apply (stopped_ok None p t s)|]. cbn [cleanup set_wheel_timers].
    destruct (bool_decide (p ∈ cleanup s)).
    all: split; [split; try done; simpl|].
    1, 4: intros q Hq; destruct (decide (q = p)) as [->|Hn]; [rewrite lookup_insert_eq; by eexists|by rewrite lookup_insert_ne].
    1, 3: intros q u; rewrite lookup_insert_Some; intros [[<- <-]|[Hn Hu]] Hru; [done|left; by exists u].
    all: intros q Hq; split; [done|]; pose proof (elem_of_tmp q s Hq) as [[u Hu] _]%(wo_alloc _ _ Hw); simpl;
      destruct (decide (q = p)) as [->|Hn]; [exists t, (set_wt_flags false true t); by rewrite lookup_insert_eq|exists u, u; by rewrite lookup_insert_ne].
  - split; [done|]. by apply works_refl.
Qed.

Definition fresh_timer (s : wheel C) (rel pct : Z) (periodical : bool) (cb : positive) : wheel_timer :=
  {| wt_clock := calc_jitter OLSR_RANDOM_MAX (wheel_now s) rel pct (olsr_random (wheel_random s)); wt_period := if periodical then rel else 0;
     wt_jitter_pct := pct; wt_running := true; wt_removed := false; wt_random := olsr_random (wheel_random s); wt_cb := cb |}.

Definition started (s : wheel C) (t : wheel_timer) : wheel C :=
  let p := alloc (wheel_timers s) in
  linked_to (slot_of (wt_clock t)) p (set_wheel_timers (<[p := t]> (wheel_timers s)) (set_wheel_random (wheel_random s + 1) s)).

Lemma started_works s t : wheel_ok s -> timer_ok t -> wt_removed t = false -> 1 <= ahead (wheel_now s) (wt_clock t) < 2147483648 -> works s (started s t).
Proof.
  intros Hw Ht Hr Ha. unfold started. set (s1 := set_wheel_random (wheel_random s + 1) s). assert (wheel_ok s1) as Hw1 by (by destruct Hw).
  pose proof (alloc_fresh (wheel_timers s)) as Hfr. set (p := alloc (wheel_timers s)) in *. split; [|split].
  - pose proof (fresh_ok t s1 Hw1 Ht Hr) as Hm. apply (linked_ok p t _ Hm). apply lookup_insert_eq.
  - split; try done; simpl.
    + intros q Hq. destruct (decide (q = p)) as [->|Hn]; [rewrite lookup_insert_eq; by eexists|by rewrite lookup_insert_ne].
    + intros q u. rewrite lookup_insert_Some. intros [[<- <-]|[Hn Hu]] Hru; [by right|left; by exists u].
  - intros q Hq. split; [done|]. pose proof (elem_of_tmp q s Hq) as [[u Hu] _]%(wo_alloc _ _ Hw). exists u, u. simpl. rewrite lookup_insert_ne; [done|]. congruence.
Qed.

Lemma start_works rel pct b cb s : wheel_ok s -> interval_ok rel pct ->
  wp (wheel_start_timer rel pct b cb) (fun p s' => p = alloc (wheel_timers s) /\ s' = started s (fresh_timer s rel pct b cb) /\ works s s') s.
Proof.
  intros Hw [Hr Hp]. unfold wheel_start_timer, draw_random, jittered, slot_add. wp_steps. split; [done|]. split; [done|].
  destruct (calc_jitter_ahead OLSR_RANDOM_MAX (wheel_now s) rel pct (olsr_random (wheel_random s))) as [H1 H2]; [apply Hw|done..|].
  apply (started_works s (fresh_timer s rel pct b cb)); [done| |done|simpl; lia]. split; simpl; try done. destruct b; lia.
Qed.

(** One thing a callback may do: work on its own data, or start, stop or change a timer. *)
Inductive client_step : wheel C -> wheel C -> Prop :=
| step_client c s : client_step s (set_client c s)
| step_start rel pct b cb p s s' : interval_ok rel pct -> wheel_start_timer rel pct b cb s = Some (p, s') -> client_step s s'
| step_stop timer s s' : wheel_stop_timer timer s = Some (tt, s') -> client_step s s'
| step_change timer rel pct b s s' : interval_ok rel pct -> wheel_change_timer timer rel pct b s = Some (tt, s') -> client_step s s'.

Lemma wp_result {A} (m : TM A) Q s a s' : wp m Q s -> m s = Some (a, s') -> Q a s'.
Proof. unfold wp. intros H E. by rewrite E in H. Qed.

Lemma get_timer_some {A} p (k : wheel_timer -> TM A) s r : (let* t := get_timer p in k t) s = Some r -> exists t, wheel_timers s !! p = Some t.
Proof. unfold bind, get_timer, gets_opt. destruct (wheel_timers s !! p) as [t|]; [by exists t|done]. Qed.

Lemma client_step_works s s' : wheel_ok s -> client_step s s' -> works s s'.
Proof.
  intros Hw Hs. destruct Hs as [c s|rel pct b cb p s s' Hi E|[p|] s s' E|[p|] rel pct b s s' Hi E].
  - destruct (works_refl s Hw) as (_ & H2 & H3). split; [by destruct Hw|]. split; [by destruct H2|done].
  - destruct (wp_result _ _ _ _ _ (start_works rel pct b cb s Hw Hi) E) as (_ & _ & H). exact H.
  - destruct (get_timer_some _ _ _ _ E) as [t Ht]. by destruct (wp_result _ _ _ _ _ (stop_works p t s Hw Ht) E).
  - injection E as <-. by apply works_refl.
  - destruct (get_timer_some _ _ _ _ E) as [t Ht]. by destruct (wp_result _ _ _ _ _ (change_works rel pct b p t s Hw Ht Hi) E).
  - injection E as <-. by apply works_refl.
Qed.

Lemma client_steps_works s s' : wheel_ok s -> rtc client_step s s' -> works s s'.
Proof.
  intros Hw Hs. induction Hs as [s|s s1 s2 H1 _ IH]; [by apply works_refl|]. pose proof (client_step_works _ _ Hw H1) as Hk.
  eapply works_trans; [exact Hk|]. apply IH, Hk.
Qed.

Lemma init_ok now c : is_u32 now -> wheel_ok (olsr_init_timers now c).
Proof.
  intros Hn. assert (placed (olsr_init_timers now c) = []) as Hp.
  { unfold placed. cbn [olsr_init_timers timer_wheel tmp_head]. rewrite app_nil_r. induction (Z.to_nat TIMER_WHEEL_SLOTS) as [|k IH]; [done|exact IH]. }
  split; try done.
  - rewrite Hp. constructor.
  - intros p. rewrite Hp. cbn [olsr_init_timers wheel_timers]. rewrite lookup_empty. split; [by intros ?%not_elem_of_nil|by intros [[? ?] _]].
  - constructor.
  - intros p. cbn [olsr_init_timers cleanup wheel_timers]. split; [by intros ?%not_elem_of_nil|by intros (t & ? & _)].
Qed.

(** The clock moves. *)
Definition at_time (now : Z) (s : wheel C) : wheel C :=
  Wheel now (timer_last_run s) (wheel_timers s) (timer_wheel s) (tmp_head s) (cleanup s) (wheel_random s) (client s).

Lemma at_time_ok now s : is_u32 now -> wheel_ok s -> wheel_ok (at_time now s).
Proof. intros Hn Hw. by destruct Hw. Qed.

(** ** One timer of a walk *)

Lemma random_works s p t r : wheel_ok s -> wheel_timers s !! p = Some t -> 0 <= r <= OLSR_RANDOM_MAX ->
  works s (set_wheel_timers (<[p := set_wt_random r t]> (wheel_timers s)) (set_wheel_random (wheel_random s + 1) s)).
Proof.
  intros Hw Hp Hr. pose proof Hw as [W1 W2 W3 W4 W5 W6 W7 W8]. split; [|split].
  - split; try done; simpl.
    + intros q. change (placed _) with (placed s). rewrite W4. destruct (decide (q = p)) as [->|Hn]; [rewrite lookup_insert_eq, Hp|by rewrite lookup_insert_ne].
      split; intros [_ H]; (split; [by eexists|done]).
    + intros k l q u Hk Hq. rewrite lookup_insert_Some. intros [[<- <-]|[_ Hu]]; [exact (W5 k l p t Hk Hq Hp)|by eapply W5].
    + intros q u. rewrite lookup_insert_Some. intros [[_ <-]|[_ Hq]]; [|by eapply W6]. destruct (W6 p t Hp). by split.
    + intros q. rewrite W8. destruct (decide (q = p)) as [->|Hn]; [rewrite lookup_insert_eq, Hp|by rewrite lookup_insert_ne].
      split; intros (u & [= <-] & Hu); [by exists (set_wt_random r t)|by exists t].
  - split; try done; simpl.
    + intros q Hq. destruct (decide (q = p)) as [->|Hn]; [rewrite lookup_insert_eq; by eexists|by rewrite lookup_insert_ne].
    + intros q u. rewrite lookup_insert_Some. intros [[<- <-]|[Hn Hu]] Hru; left; [by exists t|by exists u].
  - intros q Hq. split; [done|]. pose proof (elem_of_tmp q s Hq) as [[u Hu] _]%W4. simpl.
    destruct (decide (q = p)) as [->|Hn]; [exists t, (set_wt_random r t); by rewrite lookup_insert_eq|exists u, u; by rewrite lookup_insert_ne].
Qed.

Variable call : positive -> TM unit.
Variable good : C -> Prop.
Hypothesis Hcall : forall cb s, wheel_ok s -> good (client s) -> wp (call cb) (fun _ s' => rtc client_step s s' /\ good (client s')) s.

Lemma not_running_not_overdue s p t c : wheel_timers s !! p = Some t -> wt_running t = false -> ~ overdue s p c.
Proof. intros Hp Hr (u & Hu & Hur & _). congruence. Qed.

Lemma ahead_not_overdue s p t c : wheel_ok s -> wheel_timers s !! p = Some t -> 1 <= ahead (wheel_now s) (wt_clock t) < 2147483648 -> ~ overdue s p c.
Proof.
  intros Hw Hp Ha (u & Hu & _ & <- & Hd). assert (u = t) as -> by congruence. rewrite ahead_not_due in Hd; [done|apply Hw|by apply (wo_timer _ _ Hw p t Hp)|done].
Qed.

Lemma client_stopped s p t : client (stopped s p t) = client s.
Proof. unfold stopped. by destruct (bool_decide _). Qed.

Lemma stopped_lookup s p t : wheel_timers (stopped s p t) !! p = Some (set_wt_flags false true t).
Proof. unfold stopped. destruct (bool_decide _); apply lookup_insert_eq. Qed.

(** Restarting or stopping a timer that fired. *)
Lemma fired_works s p t : wheel_ok s -> good (client s) -> wheel_timers s !! p = Some t ->
  wp (let* t := get_timer p in
      when (wt_running t)
        (if negb (wt_period t =? 0) then
           let* random := draw_random in
           do* upd_timer p (set_wt_random random) in
           wheel_change_timer (Some p) (wt_period t) (wt_jitter_pct t) true
         else wheel_stop_timer (Some p))) (fun _ s' => works s s' /\ good (client s') /\ forall c, ~ overdue s' p c) s.
Proof.
  intros Hw Hg Hp. pose proof (wo_timer _ _ Hw p t Hp) as [T1 T2 T3 T4 T5]. wp_step. eapply wp_get_timer; [exact Hp|]. apply wp_when; intros Er.
  - destruct (wt_period t =? 0) eqn:E; cbn [negb].
    + eapply wp_mono; [by apply (stop_works p t)|]. cbv beta. intros _ s' [-> Hk]. rewrite Er in *. split; [done|]. split; [by rewrite client_stopped|].
      intros c. by eapply not_running_not_overdue; [apply stopped_lookup|].
    + apply Z.eqb_neq in E. unfold draw_random. do 7 wp_step. eapply wp_upd_timer; [exact Hp|].
      pose proof (random_works s p t (olsr_random (wheel_random s)) Hw Hp (Hgen _)) as Hk. set (s1 := set_wheel_timers _ _) in *.
      assert (wheel_timers s1 !! p = Some (set_wt_random (olsr_random (wheel_random s)) t)) as Hp1 by apply lookup_insert_eq.
      assert (interval_ok (wt_period t) (wt_jitter_pct t)) as Hi by (split; [lia|done]).
      eapply wp_mono; [apply (change_works _ _ true p _ s1 (proj1 Hk) Hp1 Hi)|]. cbv beta. intros _ s' [-> Hk2].
      split; [by eapply works_trans|]. split; [done|]. intros c.
      eapply ahead_not_overdue; [apply Hk2|apply lookup_insert_eq|]. apply (changed_ahead s1 _ _ true _ (proj1 Hk)); [|done]. by apply (wo_timer _ _ (proj1 Hk) p).
  - split; [by apply works_refl|]. split; [done|]. intros c. by eapply not_running_not_overdue.
Qed.

Lemma visit_works s p t : wheel_ok s -> good (client s) -> wheel_timers s !! p = Some t ->
  wp (visit_timer call p) (fun _ s' => works s s' /\ good (client s') /\ (forall c, ~ overdue s' p c) /\ (s' = s \/ exists c, overdue s p c)) s.
Proof.
  intros Hw Hg Hp. pose proof (wo_timer _ _ Hw p t Hp) as [T1 T2 T3 T4 T5]. unfold visit_timer. wp_step. eapply wp_get_timer; [exact Hp|].
  destruct (wt_removed t) eqn:Er.
  - wp_step. split; [by apply works_refl|]. split; [done|]. split; [|by left]. intros c. eapply not_running_not_overdue; [exact Hp|]. by destruct (wt_running t).
  - assert (wt_running t = true) as Hrun by (by destruct (wt_running t)). wp_step. wp_step. apply wp_when; intros E.
    + wp_step. eapply wp_mono; [by apply Hcall|]. cbv beta. intros _ s1 [Hs Hg1]. pose proof (client_steps_works s s1 Hw Hs) as Hk.
      pose proof Hk as (Hw1 & Ha & _). destruct (ad_alloc _ _ Ha p) as [t1 Ht1]; [by eexists|].
      eapply wp_mono; [by apply (fired_works s1 p t1)|]. cbv beta. intros _ s' (Hk1 & Hg' & Ho). split; [by eapply works_trans|]. split; [done|]. split; [done|].
      right. exists (wt_clock t). by exists t.
    + split; [by apply works_refl|]. split; [done|]. split; [|by left]. intros c (u & Hu & _ & <- & Hd). congruence.
Qed.

(** ** One slot of a walk *)

(** Between two timers of the slot [k]: the temporary list has timers of this slot that
    were visited. *)
Record walking (s0 : wheel C) (k : nat) (s : wheel C) : Prop := {
  wk_ok : wheel_ok s;
  wk_good : good (client s);
  wk_adv : advances s0 s;
  wk_tmp p : p ∈ tmp_head s -> (forall c, ~ overdue s p c) /\ forall t, wheel_timers s !! p = Some t -> slot_of (wt_clock t) = k;
}.

Definition dequeued (p : positive) (s : wheel C) : wheel C :=
  set_lists (timer_wheel (unlinked p s)) (p :: tmp_head (unlinked p s)) (unlinked p s).

Lemma dequeued_ok p s : wheel_ok s -> is_Some (wheel_timers s !! p) -> wheel_ok (dequeued p s).
Proof. intros Hw Hp. by apply tmp_ok; [apply unlinked_ok|]. Qed.

Lemma slot_placed s k l p : timer_wheel s !! k = Some l -> p ∈ l -> p ∈ placed s.
Proof.
  intros Hk Hp. apply elem_of_app. left. apply list_elem_of_In, in_concat. exists l. split; apply list_elem_of_In; [by eapply list_elem_of_lookup_2|done].
Qed.

Lemma walking_step s0 k s p l : walking s0 k s -> timer_wheel s !! k = Some (p :: l) ->
  wp (visit_timer call p) (fun _ s' => walking s0 k s' /\ advances s s' /\
    (s' = dequeued p s \/ (exists c, overdue s p c) /\ forall c, ~ overdue s' p c)) (dequeued p s).
Proof.
  intros [Hw Hg Ha Ht] Hk. assert (p ∈ placed s) as Hin by (eapply slot_placed; [exact Hk|by left]).
  pose proof Hin as [[t Hp] _]%(wo_alloc _ _ Hw). assert (wheel_ok (dequeued p s)) as Hw1 by (apply dequeued_ok; [done|by eexists]).
  assert (slot_of (wt_clock t) = k) as Hsl by (eapply (wo_slot _ _ Hw); [exact Hk|by left|done]).
  eapply wp_mono; [by apply (visit_works (dequeued p s) p t)|]. cbv beta. intros _ s' ((Hw' & Ha' & Hs') & Hg' & Ho & Hor).
  assert (advances s s') as Hss by (destruct Ha'; by split). split; [|split; [done|]].
  - split; [done|done|by eapply advances_trans|]. intros q Hq. destruct (Hs' q Hq) as (Hq1 & u & u' & Hu & Hu' & Ec). cbn [dequeued unlinked set_lists tmp_head wheel_timers] in *.
    apply elem_of_cons in Hq1 as [->|[Hq1 Hn]%elem_of_without]; (split; [|intros v Hv; assert (v = u') as -> by congruence; rewrite Ec]).
    + done.
    + by replace u with t by congruence.
    + intros c Hc. apply (proj1 (Ht q Hq1) c). by eapply overdue_advances.
    + by apply (proj2 (Ht q Hq1)).
  - destruct Hor as [->|[c Hc]]; [by left|right]. split; [by exists c|done].
Qed.

Definition due_set (s : wheel C) : gset positive :=
  dom (filter (fun pt => wt_running (pt.2) && olsr_isTimedOut (wheel_now s) (wt_clock (pt.2)) = true) (wheel_timers s)).

Lemma elem_of_due_set s p : p ∈ due_set s <-> exists c, overdue s p c.
Proof.
  unfold due_set. rewrite elem_of_dom. split.
  - intros [t [Ht H]%map_lookup_filter_Some]. simpl in H. bool_hyps. exists (wt_clock t). by exists t.
  - intros (c & t & Ht & Hr & <- & Hd). exists t. apply map_lookup_filter_Some. split; [done|]. simpl. by rewrite Hr, Hd.
Qed.

Lemma due_set_shrinks s s' p : wheel_ok s' -> advances s s' -> (exists c, overdue s p c) -> (forall c, ~ overdue s' p c) -> (size (due_set s') < size (due_set s))%nat.
Proof.
  intros Hw Ha Hp Hn. apply subset_size. split.
  - intros q [c Hc]%elem_of_due_set. apply elem_of_due_set. exists c. by eapply overdue_advances.
  - intros H. pose proof (H p (proj2 (elem_of_due_set s p) Hp)) as [c Hc]%elem_of_due_set. by apply (Hn c).
Qed.

Lemma length_without p l : (length (without p l) <= length l)%nat.
Proof. apply length_filter. Qed.

Lemma walk_slot_S fuel k p l s : timer_wheel s !! k = Some (p :: l) ->
  walk_slot call (S fuel) k s = (do* visit_timer call p in walk_slot call fuel k) (dequeued p s).
Proof.
  intros Hk. cbn [walk_slot]. unfold bind at 1, gets_opt. rewrite Hk. unfold bind at 1. unfold unlink_timer, gets, bind at 1.
  rewrite bool_decide_eq_true_2 by (eapply slot_placed; [exact Hk|by left]). reflexivity.
Qed.

(** The slot is empty after finitely many steps: each takes a timer from it, and only a
    timer that was due, and is not due any more, can put timers back. *)
Lemma walk_slot_ends s0 k d m s l : size (due_set s) = d -> length l = m -> walking s0 k s -> timer_wheel s !! k = Some l ->
  exists n s', (forall fuel, (n <= fuel)%nat -> walk_slot call fuel k s = Some (tt, s')) /\ walking s0 k s' /\ timer_wheel s' !! k = Some [].
Proof.
  revert m s l. induction d as [d IHd] using lt_wf_ind. intros m. induction m as [m IHm] using lt_wf_ind. intros s l Hd Hm Hwk Hk.
  destruct l as [|p l].
  - exists 1%nat, s. split; [|by split]. intros [|fuel] Hf; [lia|]. cbn [walk_slot]. unfold bind, gets_opt. by rewrite Hk.
  - pose proof (walking_step s0 k s p l Hwk Hk) as Hst. apply wp_run in Hst as ([] & s1 & Hrun & Hwk1 & Ha & Hor).
    assert (exists n s', (forall fuel, (n <= fuel)%nat -> walk_slot call fuel k s1 = Some (tt, s')) /\ walking s0 k s' /\ timer_wheel s' !! k = Some []) as (n & s' & Hn & Hrest).
    { destruct Hor as [->|[Hc Ho]].
      - eapply (IHm (length (without p (p :: l)))); [|by rewrite <- Hd|reflexivity|exact Hwk1|].
        + rewrite <- Hm. unfold without. rewrite filter_cons_False by (by intros []). simpl. pose proof (length_without p l). unfold without in *. lia.
        + cbn [dequeued unlinked set_lists timer_wheel]. by rewrite list_lookup_fmap, Hk.
      - destruct (lookup_lt_is_Some_2 (timer_wheel s1) k) as [l1 Hl1].
        { rewrite (wo_len _ _ (wk_ok _ _ _ Hwk1)). rewrite <- (wo_len _ _ (wk_ok _ _ _ Hwk)). by eapply lookup_lt_Some. }
        eapply (IHd (size (due_set s1))); [|reflexivity|reflexivity|exact Hwk1|exact Hl1]. rewrite <- Hd. eapply due_set_shrinks; [apply Hwk1|done|exact Hc|done]. }
    exists (S n), s'. split; [|done]. intros [|fuel] Hf; [lia|]. rewrite (walk_slot_S _ _ p l _ Hk). unfold bind. rewrite Hrun. apply Hn. lia.
Qed.

(** ** The rounds of a walk *)

Definition merged (k : nat) (s : wheel C) : wheel C := set_lists (alter (fun l => tmp_head s ++ l) k (timer_wheel s)) [] s.

Lemma merged_ok s0 k s : walking s0 k s -> timer_wheel s !! k = Some [] -> wheel_ok (merged k s).
Proof.
  intros [Hw _ _ Ht] Hk. pose proof Hw as [W1 W2 W3 W4 W5 W6 W7 W8].
  assert (placed (merged k s) ≡ₚ placed s) as Hp.
  { unfold placed, merged. simpl. rewrite (concat_alter_perm _ _ _ [] (tmp_head s) Hk); [|done]. rewrite app_nil_r. apply Permutation_app_comm. }
  split; try done.
  - simpl. by rewrite length_alter.
  - by rewrite Hp.
  - intros q. rewrite Hp. apply W4.
  - intros k' l q t Hk' Hq Hqt. simpl in Hk', Hqt. destruct (decide (k' = k)) as [->|Hn].
    + rewrite list_lookup_alter_eq, Hk in Hk'. injection Hk' as <-. rewrite app_nil_r in Hq. by apply (Ht q Hq).
    + rewrite list_lookup_alter_ne in Hk' by done. by eapply W5.
Qed.

Lemma slot_visited s0 k s p c : walking s0 k s -> timer_wheel s !! k = Some [] -> overdue s p c -> slot_of c <> k.
Proof.
  intros [Hw _ _ Ht] Hk Ho Hc. pose proof Ho as (t & Hp & _ & <- & _). assert (p ∈ placed s) as Hin by (apply (wo_alloc _ _ Hw); split; [by eexists|done]).
  apply elem_of_app in Hin as [Hin|Hin]; [|by apply (proj1 (Ht p Hin) (wt_clock t))].
  apply list_elem_of_In, in_concat in Hin as (l & Hl%list_elem_of_In & Hpl%list_elem_of_In). apply list_elem_of_lookup_1 in Hl as [k' Hk'].
  rewrite (wo_slot _ _ Hw k' l p t Hk' Hpl Hp) in Hc. subst k'. rewrite Hk in Hk'. injection Hk' as <-. by apply not_elem_of_nil in Hpl.
Qed.

(** After [i] slots. *)
Record rounds (s0 : wheel C) (i : nat) (s : wheel C) : Prop := {
  rd_ok : wheel_ok s;
  rd_good : good (client s);
  rd_tmp : tmp_head s = [];
  rd_adv : advances (set_timer_last_run (u32 (timer_last_run s0 + Z.of_nat i)) s0) s;
  rd_seen j p c : (j < i)%nat -> overdue s p c -> slot_of c <> slot_of (u32 (timer_last_run s0 + Z.of_nat j));
}.

Lemma rounds_step s0 i s : rounds s0 i s ->
  exists n s', (forall fuel, (n <= fuel)%nat ->
      (do* walk_slot call fuel (slot_of (timer_last_run s)) in do* slot_merge (slot_of (timer_last_run s)) in
       modify (set_timer_last_run (u32 (timer_last_run s + 1)))) s = Some (tt, s')) /\ rounds s0 (S i) s'.
Proof.
  intros [Hw Hg Ht Ha Hs]. set (k := slot_of (timer_last_run s)). pose proof (ad_last _ _ Ha) as Hl. simpl in Hl.
  assert (exists l, timer_wheel s !! k = Some l) as [l Hk] by (apply lookup_slot; [by left|rewrite Hl; apply u32_range]).
  assert (walking s k s) as Hwk. { split; [done|done|apply advances_refl|]. rewrite Ht. by intros p ?%not_elem_of_nil. }
  destruct (walk_slot_ends s k _ _ s l eq_refl eq_refl Hwk Hk) as (n & s1 & Hrun & Hwk1 & Hk1).
  exists n, (set_timer_last_run (u32 (timer_last_run s + 1)) (merged k s1)). split; [intros fuel Hf; unfold bind; by rewrite (Hrun fuel Hf)|].
  pose proof (merged_ok _ _ _ Hwk1 Hk1) as Hm. assert (forall p c, overdue s1 p c -> overdue s p c) as Hov by (intros; eapply overdue_advances; [apply Hwk1|apply Hwk1|done]).
  pose proof (advances_trans _ _ _ Ha (wk_adv _ _ _ Hwk1)) as [A1 A2 A3 A4]. split; [by destruct Hm|apply Hwk1|done| |].
  - split; [exact A1| |exact A3|exact A4]. cbn [set_timer_last_run timer_last_run]. rewrite Hl. unfold u32. rewrite Zplus_mod_idemp_l. f_equal. lia.
  - intros j p c Hj Ho. change (overdue s1 p c) in Ho. destruct (decide (j = i)) as [->|Hn].
    + rewrite <- Hl. by eapply slot_visited.
    + apply (Hs j p c); [lia|by apply Hov].
Qed.

Lemma walk_slots_S fuel slots s : timer_last_run s <= wheel_now s ->
  walk_slots call fuel (S slots) s =
  (do* (do* walk_slot call fuel (slot_of (timer_last_run s)) in do* slot_merge (slot_of (timer_last_run s)) in
        modify (set_timer_last_run (u32 (timer_last_run s + 1)))) in walk_slots call fuel slots) s.
Proof.
  intros H. apply Z.leb_le in H. cbn [walk_slots]. unfold bind, gets. rewrite H. destruct (walk_slot call fuel _ s) as [[[] s1]|]; reflexivity.
Qed.

Lemma walk_slots_ends s0 slots i s : rounds s0 i s ->
  exists n s' j, (forall fuel, (n <= fuel)%nat -> walk_slots call fuel slots s = Some (tt, s')) /\ rounds s0 j s' /\
    ((j = i + slots)%nat \/ wheel_now s' < timer_last_run s').
Proof.
  revert i s. induction slots as [|slots IH]; intros i s Hr.
  - exists 0%nat, s, i. split; [done|]. split; [done|]. left. lia.
  - destruct (Z.le_gt_cases (timer_last_run s) (wheel_now s)) as [Hle|Hgt].
    + destruct (rounds_step _ _ _ Hr) as (n1 & s1 & H1 & Hr1). destruct (IH (S i) s1 Hr1) as (n2 & s2 & j & H2 & Hr2 & Hj).
      exists (n1 `max` n2)%nat, s2, j. split; [|split; [done|]].
      * intros fuel Hf. rewrite walk_slots_S by done. unfold bind at 1. rewrite H1 by lia. apply H2. lia.
      * destruct Hj as [->|Hj]; [left; lia|by right].
    + exists 0%nat, s, i. split; [|split; [done|by right]]. intros fuel _. cbn [walk_slots]. unfold bind, gets.
      by rewrite (proj2 (Z.leb_gt _ _) Hgt).
Qed.

(** ** A walk *)

(** The wheel fell behind by less than half the circle, and no running timer is set farther
    ahead than that. *)
Record in_time (s : wheel C) : Prop := {
  it_order : timer_last_run s <= wheel_now s;
  it_behind : wheel_now s - timer_last_run s < 2147483648;
  it_last : is_u32 (timer_last_run s);
  it_clock p t : wheel_timers s !! p = Some t -> wt_running t = true -> ahead (timer_last_run s) (wt_clock t) < 2147483648;
}.

Lemma rounds_start s : wheel_ok s -> good (client s) -> tmp_head s = [] -> in_time s -> rounds s 0 s.
Proof.
  intros Hw Hg Ht [_ _ Hl _]. split; try done; [|lia]. rewrite Z.add_0_r, u32_id by done. destruct (advances_refl s). by split.
Qed.

Lemma slot_of_offset last c : is_u32 last -> last <= c -> is_u32 c -> slot_of (u32 (last + Z.of_nat (Z.to_nat ((c - last) mod 1024)))) = slot_of c.
Proof.
  unfold is_u32. intros Hl Hlc Hc. pose proof (Z.mod_pos_bound (c - last) 1024 ltac:(lia)). rewrite Z2Nat.id by lia.
  pose proof (Z.mod_le (c - last) 1024 ltac:(lia) ltac:(lia)). rewrite u32_id by (unfold is_u32; lia). rewrite !slot_of_mod by lia.
  rewrite Zplus_mod_idemp_r. do 2 f_equal. lia.
Qed.

(** No timer of the rounds that were walked is overdue. *)
Lemma rounds_end s0 i s p c : in_time s0 -> wheel_ok s0 -> rounds s0 i s -> (i = 1024%nat \/ wheel_now s < timer_last_run s) -> ~ overdue s p c.
Proof.
  intros Hi Hw0 Hr Hend Ho. pose proof Hr as [Hw _ _ Ha Hseen]. assert (overdue s0 p c) as (t & Hp & Hrun & <- & Hd) by (apply (overdue_advances (set_timer_last_run (u32 (timer_last_run s0 + Z.of_nat i)) s0) s p c Hw Ha Ho)).
  pose proof (wo_timer _ _ Hw0 p t Hp) as Ht. pose proof (due_between (timer_last_run s0) (wheel_now s0) (wt_clock t) (it_last _ Hi) (wo_now _ _ Hw0) (to_clock _ Ht)
    (it_order _ Hi) (it_behind _ Hi) (it_clock _ Hi p t Hp Hrun)) as Hb. rewrite Hd in Hb.
  set (j := Z.to_nat ((wt_clock t - timer_last_run s0) mod 1024)). pose proof (Z.mod_pos_bound (wt_clock t - timer_last_run s0) 1024 ltac:(lia)).
  pose proof (it_last _ Hi) as Hl. pose proof (to_clock _ Ht) as Hc. pose proof (wo_now _ _ Hw0) as Hn.
  apply (Hseen j p (wt_clock t)); [|done|symmetry; apply slot_of_offset; [done|lia|done]].
  destruct Hend as [->|Hend]; [lia|]. destruct Ha as [A1 A2 _ _]. simpl in A1, A2. rewrite A1, A2 in Hend.
  destruct (Nat.lt_ge_cases j i) as [|Hge]; [done|]. pose proof (Z.mod_le (wt_clock t - timer_last_run s0) 1024 ltac:(lia) ltac:(lia)).
  unfold is_u32 in *. rewrite u32_id in Hend by (unfold is_u32; lia). lia.
Qed.

Lemma rounds_clocks s0 i s p t : in_time s0 -> wheel_ok s0 -> rounds s0 i s -> (forall c, ~ overdue s p c) -> wheel_timers s !! p = Some t -> wt_running t = true ->
  1 <= ahead (wheel_now s) (wt_clock t) < 2147483648.
Proof.
  intros Hi Hw0 [Hw _ _ Ha _] Hno Hp Hr. destruct Ha as [A1 A2 A3 A4]. simpl in A1, A4. rewrite A1. destruct (A4 p t Hp Hr) as [(t0 & H0 & Hr0 & E)|]; [|done].
  pose proof (due_between (timer_last_run s0) (wheel_now s0) (wt_clock t0) (it_last _ Hi) (wo_now _ _ Hw0) (to_clock _ (wo_timer _ _ Hw0 p t0 H0))
    (it_order _ Hi) (it_behind _ Hi) (it_clock _ Hi p t0 H0 Hr0)) as Hb. rewrite E in Hb. destruct (olsr_isTimedOut _ _) eqn:Ed; [|done].
  exfalso. apply (Hno (wt_clock t)). exists t. by rewrite A1.
Qed.

(** C4: a walk ends, whatever the callbacks do to timers, and leaves no running timer that
    is due: every timer that was due fired, was stopped or was set again. All timers hang in
    the slots of their clocks, and the wheel is in time for the next walk. *)
Theorem walk_timers_correct s : wheel_ok s -> good (client s) -> tmp_head s = [] -> in_time s ->
  exists n s', (forall fuel, (n <= fuel)%nat -> walk_timers call fuel s = Some (tt, s')) /\
    wheel_ok s' /\ good (client s') /\ tmp_head s' = [] /\ wheel_now s' = wheel_now s /\ in_time s' /\
    (forall p, is_Some (wheel_timers s !! p) -> is_Some (wheel_timers s' !! p)) /\
    (forall p t, wheel_timers s' !! p = Some t -> wt_running t = true -> olsr_isTimedOut (wheel_now s') (wt_clock t) = false).
Proof.
  intros Hw Hg Ht Hi. destruct (walk_slots_ends s (Z.to_nat TIMER_WHEEL_SLOTS) 0 s (rounds_start s Hw Hg Ht Hi)) as (n & s1 & j & Hrun & Hr & Hj).
  assert (forall p c, ~ overdue s1 p c) as Hno by (intros p c; eapply rounds_end; [done|done|exact Hr|destruct Hj as [->|?]; [by left|by right]]).
  exists n, (set_timer_last_run (wheel_now s1) s1). split; [intros fuel Hf; unfold walk_timers, bind; by rewrite (Hrun fuel Hf)|].
  pose proof Hr as [Hw1 Hg1 Ht1 [A1 A2 A3 A4] _]. split; [by destruct Hw1|]. split; [done|]. split; [done|]. split; [exact A1|]. split; [|split; [exact A3|]].
  - split; simpl; try lia; [apply Hw1|]. intros p t Hp Hrn. pose proof (rounds_clocks s j s1 p t Hi Hw Hr (Hno p) Hp Hrn). lia.
  - intros p t Hp Hrn. simpl in *. apply ahead_not_due; [apply Hw1|by apply (wo_timer _ _ Hw1 p)|]. by eapply rounds_clocks.
Qed.

(** [last_run] is not compared on the circle: when the clock wrapped since the last walk,
    the loop is not entered. *)
(** C35: a walk after the clock wrapped around serves no slot and only sets the time of the
    last walk, so the timers that are due in the slots in between stay overdue until the
    wheel gets there again. *)
Theorem walk_timers_wrap fuel s : wheel_now s < timer_last_run s ->
  walk_timers call fuel s = Some (tt, set_timer_last_run (wheel_now s) s) /\
  forall p c, overdue s p c -> overdue (set_timer_last_run (wheel_now s) s) p c.
Proof.
  intros H. split; [|done]. unfold walk_timers. change (Z.to_nat TIMER_WHEEL_SLOTS) with 1024%nat. cbn [walk_slots]. unfold bind, gets.
  by rewrite (proj2 (Z.leb_gt _ _) H).
Qed.

(** ** Freeing *)

Lemma cleanup_one s0 p l s : wheel_ok s -> cleanup s = p :: l ->
  (forall q t, wheel_timers s !! q = Some t -> wheel_timers s0 !! q = Some t) ->
  (forall q t, wheel_timers s0 !! q = Some t -> wt_running t = true -> wheel_timers s !! q = Some t) ->
  wp (do* olsr_cleanup_timer p in modify (fun s => set_cleanup (without p (cleanup s)) s))
    (fun _ s' => wheel_ok s' /\ cleanup s' = l /\ wheel_now s' = wheel_now s /\ timer_last_run s' = timer_last_run s /\ client s' = client s /\
      (forall q t, wheel_timers s' !! q = Some t -> wheel_timers s0 !! q = Some t) /\
      (forall q t, wheel_timers s0 !! q = Some t -> wt_running t = true -> wheel_timers s' !! q = Some t)) s.
Proof.
  intros Hw Hc H1 H2. pose proof (wo_clean_nodup _ _ Hw) as Hnd. rewrite Hc in Hnd. apply NoDup_cons in Hnd as [Hnp Hnd].
  assert (p ∈ cleanup s) as (t & Hp & Hr)%(wo_cleanup _ _ Hw) by (rewrite Hc; by left). pose proof (to_flags _ (wo_timer _ _ Hw p t Hp)) as Hf.
  wp_step. unfold olsr_cleanup_timer. wp_step. eapply wp_get_timer; [exact Hp|]. apply wp_when; intros E; [|congruence]. wp_step.
  apply wp_unlink_timer; [apply (wo_alloc _ _ Hw); split; [by eexists|done]|]. wp_step. wp_step.
  split; [apply (freed_ok p t (unlinked p s)); [by apply unlinked_ok|done|done]|]. split; [|split; [done|split; [done|split; [done|split]]]].
  - simpl. rewrite Hc. unfold without. rewrite filter_cons_False by (by intros []). apply filter_all. intros q Hq ->. done.
  - intros q u. simpl. rewrite lookup_delete_Some. intros [_ Hq]. by apply H1.
  - intros q u Hq Hru. simpl. rewrite lookup_delete_ne; [by apply H2|]. intros <-. assert (u = t) as -> by (apply H1 in Hp; congruence). rewrite Hr, Hru in Hf. done.
Qed.

(** C34: [walk_timers_cleanup] frees the timers that were stopped and no other, each exactly
    once, and takes them off their lists. *)
Theorem walk_timers_cleanup_correct s : wheel_ok s ->
  wp walk_timers_cleanup (fun _ s' => wheel_ok s' /\ cleanup s' = [] /\ wheel_now s' = wheel_now s /\ timer_last_run s' = timer_last_run s /\ client s' = client s /\
    forall p t, wheel_timers s' !! p = Some t <-> wheel_timers s !! p = Some t /\ wt_running t = true) s.
Proof.
  intros Hw. unfold walk_timers_cleanup. wp_step. wp_step.
  apply (wp_forM _ _ (fun l s' => wheel_ok s' /\ cleanup s' = l /\ wheel_now s' = wheel_now s /\ timer_last_run s' = timer_last_run s /\ client s' = client s /\
      (forall q t, wheel_timers s' !! q = Some t -> wheel_timers s !! q = Some t) /\
      (forall q t, wheel_timers s !! q = Some t -> wt_running t = true -> wheel_timers s' !! q = Some t))).
  - by split_and!.
  - intros p l s1 (Hw1 & Hc & E1 & E2 & E3 & H1 & H2). eapply wp_mono; [by apply (cleanup_one s p l s1)|]. cbv beta. intros _ s2 (? & ? & F1 & F2 & F3 & ? & ?).
    rewrite F1, F2, F3. by split_and!.
  - intros s1 (Hw1 & Hc & E1 & E2 & E3 & H1 & H2). split_and!; try done. intros p t. split.
    + intros Hp. split; [by apply H1|]. destruct (wt_running t) eqn:Er; [done|]. exfalso. apply (not_elem_of_nil p). rewrite <- Hc. apply (wo_cleanup _ _ Hw1).
      exists t. split; [done|]. rewrite (to_flags _ (wo_timer _ _ Hw1 p t Hp)). by rewrite Er.
    + intros [Hp Hr]. by apply H2.
Qed.

(** ** What an owner sees of its timer *)

Definition entry_of (t : wheel_timer) : timer_entry :=
  {| timer_clock := wt_clock t; timer_period := wt_period t; timer_jitter_pct := wt_jitter_pct t; timer_random := wt_random t |}.

(** The pointer of an owner and the clock behind it. *)
Definition handle (s : wheel C) (o : option positive) : option timer_entry :=
  match o with Some p => entry_of <$> wheel_timers s !! p | None => None end.

Definition owned (s : wheel C) (o : option positive) : Prop := forall p, o = Some p -> exists t, wheel_timers s !! p = Some t /\ wt_running t = true.

(** C33: setting a timer of the wheel does to the pointer of its owner, and to the clock
    behind it, what the handles of the protocol tables say, and touches no other timer. *)
Theorem wheel_set_timer_refines s st o rel pct b cb : wheel_ok s -> owned s o -> 0 <= rel < 2147483648 -> 0 <= pct < 256 ->
  now_times st = wheel_now s -> random_count st = wheel_random s ->
  wp (wheel_set_timer o rel pct b cb) (fun o' s' => wheel_ok s' /\ owned s' o' /\
    (exists st', olsr_set_timer (handle s o) rel pct b st = Some (handle s' o', st') /\ now_times st' = wheel_now s' /\ random_count st' = wheel_random s') /\
    forall q, Some q <> o -> is_Some (wheel_timers s !! q) -> wheel_timers s' !! q = wheel_timers s !! q) s.
Proof.
  intros Hw Ho Hrel Hpct Hn Hk. unfold wheel_set_timer, olsr_set_timer. destruct (rel =? 0) eqn:E.
  - wp_step. destruct o as [p|].
    + destruct (Ho p eq_refl) as (t & Hp & Hr). eapply wp_mono; [by apply (stop_works p t)|]. cbv beta. intros _ s' [-> Hwk]. rewrite Hr in *. wp_step.
      split; [apply Hwk|]. split; [by intros q|]. split; [exists st; unfold stopped; by destruct (bool_decide _)|].
      intros q Hq _. unfold stopped. destruct (bool_decide _); simpl; apply lookup_insert_ne; congruence.
    + apply (wp_ret tt). wp_step. split; [done|]. split; [done|]. split; [by exists st|done].
  - apply Z.eqb_neq in E. assert (interval_ok rel pct) as Hi by (split; [lia|done]). destruct o as [p|].
    + destruct (Ho p eq_refl) as (t & Hp & Hr). wp_step. eapply wp_mono; [by apply (change_works rel pct b p t)|]. cbv beta. intros _ s' [-> Hwk]. wp_step.
      split; [apply Hwk|]. split; [|split].
      * intros q [= <-]. eexists. split; [apply lookup_insert_eq|done].
      * exists st. simpl. rewrite Hp, lookup_insert_eq. simpl. split; [|done]. unfold olsr_change_timer, bind, gets, ret. by rewrite Hn.
      * intros q Hq _. apply lookup_insert_ne. congruence.
    + wp_step. eapply wp_mono; [by apply start_works|]. cbv beta. intros p s' (-> & -> & Hwk). wp_step. split; [apply Hwk|]. split; [|split].
      * intros q [= <-]. eexists. split; [apply lookup_insert_eq|done].
      * exists (set_random_count (random_count st + 1) st). simpl. rewrite lookup_insert_eq. simpl. split; [|by rewrite Hk].
        unfold olsr_start_timer, bind, gets, ret, modify. by rewrite Hn, Hk.
      * intros q _ [t Hq]. apply lookup_insert_ne. pose proof (alloc_fresh (wheel_timers s)). congruence.
Qed.

End timer_spec.

(** ** Witnesses *)

Section timer_witnesses.
#[local] Instance still_cnf : olsrd_config :=
  {| ip_version := AF_INET; mpr_coverage := 1; tc_redundancy := 2; lq_level := 2;
     use_hysteresis := false; lq_nat_thresh := S754_zero false; olsr_random := fun _ => 7;
     OLSR_RANDOM_MAX := 2147483647; hscaling := S754_zero false; hhigh := S754_zero false; hlow := S754_zero false |}.

Lemma still_random : forall k, 0 <= olsr_random k <= OLSR_RANDOM_MAX.
Proof. intros k. simpl. lia. Qed.

Lemma still_max : 0 < OLSR_RANDOM_MAX < 4294967295.
Proof. simpl. lia. Qed.

(** The callback counts its calls and starts a timer. *)
Definition count_and_start (cb : positive) : M (wheel nat) unit :=
  do* modify (fun s => set_client (S (client s)) s) in
  let* _ := wheel_start_timer 300 20 false cb in ret tt.

Lemma count_and_start_ok cb (s : wheel nat) : wheel_ok s -> True -> wp (count_and_start cb) (fun _ s' => rtc client_step s s' /\ True) s.
Proof.
  intros Hw _. unfold count_and_start. wp_step. wp_step. set (s1 := set_client (S (client s)) s). assert (wheel_ok s1) as Hw1 by (by destruct Hw).
  assert (interval_ok 300 20) as Hi by (unfold interval_ok; lia). wp_step.
  pose proof (start_works still_random still_max 300 20 false cb s1 Hw1 Hi) as H. apply wp_run in H as (p & s2 & E & _).
  unfold wp. rewrite E. split; [|done]. eapply rtc_l; [apply step_client|]. eapply rtc_l; [|apply rtc_refl]. by eapply (step_start 300 20 false cb p).
Qed.

(** Two timers, started at 4000: one every second, one after 900 milliseconds. *)
Definition sample_timer (period rel : Z) : wheel_timer :=
  {| wt_clock := 4000 + rel; wt_period := period; wt_jitter_pct := 0; wt_running := true; wt_removed := false; wt_random := 7; wt_cb := 1 |}.
Definition two_timers : wheel nat := started (started (olsr_init_timers 4000 0%nat) (sample_timer 1000 1000)) (sample_timer 0 900).

Lemma two_timers_ok : wheel_ok two_timers.
Proof.
  assert (forall s : wheel nat, wheel_ok s -> wheel_now s = 4000 -> forall period rel, 0 <= period <= 1000 -> 1 <= rel <= 1000 -> wheel_ok (started s (sample_timer period rel))) as Hstep.
  { intros s Hw Hn period rel Hp Hr. apply started_works; [done| |done|].
    - split; simpl; unfold is_u32; lia.
    - rewrite Hn. unfold ahead. simpl. rewrite Z.mod_small; lia. }
  apply Hstep; [|done|lia..]. apply Hstep; [|done|lia..]. apply init_ok. unfold is_u32. lia.
Qed.

Lemma two_timers_in_time : in_time (at_time 5500 two_timers).
Proof.
  split; simpl; try (unfold is_u32; lia). intros p t Hp _. apply (heap_forall (fun _ t => bool_decide (ahead 4000 (wt_clock t) < 2147483648))) in Hp; [|vm_compute; reflexivity].
  by apply bool_decide_eq_true in Hp.
Qed.

(** Both are due at 5500. *)
Lemma walk_timers_correct_witness :
  (overdue (at_time 5500 two_timers) 2 5000 /\ overdue (at_time 5500 two_timers) 3 4900) /\
  exists n s', (forall fuel, (n <= fuel)%nat -> walk_timers count_and_start fuel (at_time 5500 two_timers) = Some (tt, s')) /\
    forall p t, wheel_timers s' !! p = Some t -> wt_running t = true -> olsr_isTimedOut (wheel_now s') (wt_clock t) = false.
Proof.
  split; [split; eexists; (split; [vm_compute; reflexivity|split; [reflexivity|split; [reflexivity|vm_compute; reflexivity]]])|].
  assert (wheel_ok (at_time 5500 two_timers)) as Hw by (apply at_time_ok; [unfold is_u32; lia|exact two_timers_ok]).
  destruct (walk_timers_correct still_random still_max count_and_start (fun _ => True) count_and_start_ok (at_time 5500 two_timers) Hw I eq_refl two_timers_in_time)
    as (n & s' & Hrun & _ & _ & _ & _ & _ & _ & H). exists n, s'. exact (conj Hrun H).
Defined.

(** The first timer is due at 5, and the clock wraps before. *)
Definition wrapping : wheel nat :=
  set_timer_last_run 4294967290 (at_time 5 (started (olsr_init_timers 4294967290 0%nat) {| wt_clock := 4294967293; wt_period := 0; wt_jitter_pct := 0;
    wt_running := true; wt_removed := false; wt_random := 7; wt_cb := 1 |})).

Lemma walk_timers_wrap_witness :
  walk_timers count_and_start 9 wrapping = Some (tt, set_timer_last_run 5 wrapping) /\ overdue (set_timer_last_run 5 wrapping) 2 4294967293.
Proof.
  destruct (walk_timers_wrap count_and_start 9 wrapping) as [H1 H2]; [simpl; lia|]. split; [exact H1|]. apply H2.
  eexists. split; [vm_compute; reflexivity|]. split; [reflexivity|]. split; [reflexivity|]. vm_compute. reflexivity.
Defined.

Lemma walk_timers_cleanup_correct_witness :
  wp (do* wheel_stop_timer (Some 2%positive) in walk_timers_cleanup) (fun _ s' => cleanup s' = [] /\ wheel_timers s' !! 2%positive = None) two_timers.
Proof.
  assert (exists t, wheel_timers two_timers !! 2%positive = Some t /\ wt_running t = true) as (t & Ht & Hr) by (eexists; split; [vm_compute; reflexivity|reflexivity]).
  apply wp_bind. eapply wp_mono; [by apply (stop_works 2%positive t two_timers two_timers_ok)|]. cbv beta. intros _ s1 (-> & Hw & _). rewrite Hr in *.
  eapply wp_mono; [apply (walk_timers_cleanup_correct _ Hw)|]. cbv beta. intros _ s2 (_ & Hc & _ & _ & _ & H). split; [exact Hc|].
  destruct (wheel_timers s2 !! 2%positive) as [u|] eqn:E; [|reflexivity]. apply H in E as [E Hu]. rewrite stopped_lookup in E. injection E as <-. discriminate Hu.
Defined.

Lemma wheel_set_timer_refines_witness :
  wp (wheel_set_timer (Some 3%positive) 60 50 false 1) (fun o' s' => handle s' o' = Some {| timer_clock := 4060; timer_period := 0; timer_jitter_pct := 50; timer_random := 7 |}) two_timers.
Proof.
  assert (exists t, wheel_timers two_timers !! 3%positive = Some t /\ wt_running t = true) as Ht by (eexists; split; [vm_compute; reflexivity|reflexivity]).
  eapply wp_mono; [apply (wheel_set_timer_refines still_random still_max two_timers (set_random_count (wheel_random two_timers) (set_now_times 4000 empty_state)) (Some 3%positive) 60 50 false 1 two_timers_ok)|].
  - intros p [= <-]. exact Ht.
  - lia.
  - lia.
  - reflexivity.
  - reflexivity.
  - cbv beta. intros o' s' (_ & _ & (st' & H & _) & _). revert H. generalize (handle s' o'). intros h H. vm_compute in H. injection H as <- _. reflexivity.
Defined.

End timer_witnesses.
