(* ===== verification/CList.v ===== *)
(** * common/list.c, common/list.h: circular doubly linked lists

    A list is a head node and the nodes that are linked from it. The heap maps the address
    of a node to its two pointers; [list_node_init] leaves null pointers. *)

From S2P Require Import Prelude Monad.

Record list_node := ListNode { next : option positive; prev : option positive }.

Notation nodes := (gmap positive list_node).

Section clist.
Notation LM := (M nodes).

(** [node->next], [node->prev] of a pointer that must not be null. *)
Definition deref (p : option positive) : LM positive := gets_opt (fun _ => p).
Definition get_node (p : positive) : LM list_node := gets_opt (fun h => h !! p).
Definition get_next (p : positive) : LM (option positive) := let* n := get_node p in ret (next n).
Definition get_prev (p : positive) : LM (option positive) := let* n := get_node p in ret (prev n).
Definition set_next (p : positive) (x : option positive) : LM unit :=
  let* n := get_node p in modify (fun h => <[p := ListNode x (prev n)]> h).
Definition set_prev (p : positive) (x : option positive) : LM unit :=
  let* n := get_node p in modify (fun h => <[p := ListNode (next n) x]> h).

Definition list_head_init (node : positive) : LM unit :=
  do* set_prev node (Some node) in set_next node (Some node).

Definition list_node_init (node : positive) : LM unit :=
  do* set_prev node None in set_next node None.

Definition list_node_on_list (node : positive) : LM bool :=
  let* n := get_node node in ret (bool_decide (is_Some (prev n)) || bool_decide (is_Some (next n))).

Definition list_is_empty (node : positive) : LM bool :=
  let* n := get_node node in ret (bool_decide (prev n = Some node) && bool_decide (next n = Some node)).

Definition list_add_after (pos_node new_node : positive) : LM unit :=
  let* x := get_next pos_node in
  do* set_next new_node x in
  do* set_prev new_node (Some pos_node) in
  let* x := get_next pos_node in let* x := deref x in
  do* set_prev x (Some new_node) in
  set_next pos_node (Some new_node).

Definition list_add_before (pos_node new_node : positive) : LM unit :=
  let* x := get_prev pos_node in
  do* set_prev new_node x in
  do* set_next new_node (Some pos_node) in
  let* x := get_prev pos_node in let* x := deref x in
  do* set_next x (Some new_node) in
  set_prev pos_node (Some new_node).

Definition list_remove (del_node : positive) : LM unit :=
  let* n := get_next del_node in let* n := deref n in
  let* p := get_prev del_node in
  do* set_prev n p in
  let* p := get_prev del_node in let* p := deref p in
  let* n := get_next del_node in
  do* set_next p n in
  list_node_init del_node.

Definition list_merge (list_head1 list_head2 : positive) : LM unit :=
  let* empty := list_is_empty list_head2 in
  when (negb empty)
    (let* first1 := get_next list_head1 in let* first1 := deref first1 in
     let* last2 := get_prev list_head2 in
     do* set_prev first1 last2 in
     let* last2 := get_prev list_head2 in let* last2 := deref last2 in
     let* first1 := get_next list_head1 in
     do* set_next last2 first1 in
     let* first2 := get_next list_head2 in
     do* set_next list_head1 first2 in
     let* first2 := get_next list_head2 in let* first2 := deref first2 in
     do* set_prev first2 (Some list_head1) in
     do* set_prev list_head2 (Some list_head2) in
     set_next list_head2 (Some list_head2)).

(** ** Rings *)

Definition nx (h : nodes) (p : positive) : option positive := h !! p ≫= next.
Definition pv (h : nodes) (p : positive) : option positive := h !! p ≫= prev.

(** Each node points to the next and back. *)
Fixpoint chain (h : nodes) (c : list positive) : Prop :=
  match c with
  | x :: (y :: _) as r => (nx h x = Some y /\ pv h y = Some x) /\ chain h r
  | _ => True
  end.

(** The list of [head] has the nodes [l]. *)
Definition ring (h : nodes) (head : positive) (l : list positive) : Prop :=
  NoDup (head :: l) /\ chain h (head :: l ++ [head]).

(** Everything but these nodes is as before. *)
Definition untouched (c : list positive) (h h' : nodes) : Prop := forall p, p ∉ c -> h' !! p = h !! p.

Lemma chain_app h a x b : chain h (a ++ x :: b) <-> chain h (a ++ [x]) /\ chain h (x :: b).
Proof.
  induction a as [|y a IH]; [simpl; tauto|]. destruct a as [|z a]; simpl in *; [tauto|]. rewrite IH. tauto.
Qed.

Lemma chain_infix h a b c : chain h (a ++ b ++ c) -> chain h b.
Proof.
  intros H. assert (chain h (b ++ c)) as Hb.
  { induction a as [|x a IH]; [done|]. apply IH. simpl in H. destruct (a ++ b ++ c); [done|]. apply H. }
  clear H. revert Hb. induction b as [|x [|y b] IH]; [done..|]. simpl. intros [H Hb]. split; [done|]. by apply IH.
Qed.

(** The first node's [prev] and the last node's [next] are not part of a chain. *)
Lemma chain_frame h h' c : chain h c -> (forall x, x ∈ removelast c -> nx h' x = nx h x) ->
  (forall x, x ∈ tail c -> pv h' x = pv h x) -> chain h' c.
Proof.
  induction c as [|x [|y r] IH]; [done..|]. intros [[H1 H2] Hc] Hn Hp. split.
  - rewrite (Hn x) by by left. by rewrite (Hp y) by by left.
  - apply (IH Hc).
    + intros z Hz. apply Hn. by right.
    + intros z Hz. apply Hp. by right.
Qed.

Lemma nx_set_next h p n x q : h !! p = Some n -> nx (<[p := ListNode x (prev n)]> h) q = if decide (q = p) then x else nx h q.
Proof. intros Hp. unfold nx. destruct (decide (q = p)) as [->|Hn]; [by rewrite lookup_insert_eq|by rewrite lookup_insert_ne]. Qed.

Lemma pv_set_next h p n x q : h !! p = Some n -> pv (<[p := ListNode x (prev n)]> h) q = pv h q.
Proof. intros Hp. unfold pv. destruct (decide (q = p)) as [->|Hn]; [by rewrite lookup_insert_eq, Hp|by rewrite lookup_insert_ne]. Qed.

Lemma nx_set_prev h p n x q : h !! p = Some n -> nx (<[p := ListNode (next n) x]> h) q = nx h q.
Proof. intros Hp. unfold nx. destruct (decide (q = p)) as [->|Hn]; [by rewrite lookup_insert_eq, Hp|by rewrite lookup_insert_ne]. Qed.

Lemma pv_set_prev h p n x q : h !! p = Some n -> pv (<[p := ListNode (next n) x]> h) q = if decide (q = p) then x else pv h q.
Proof. intros Hp. unfold pv. destruct (decide (q = p)) as [->|Hn]; [by rewrite lookup_insert_eq|by rewrite lookup_insert_ne]. Qed.

(** One store: what it changes. *)
Definition stored (p : positive) (fn fp : option (option positive)) (h h' : nodes) : Prop :=
  (forall q, nx h' q = if decide (q = p) then default (nx h q) fn else nx h q) /\
  (forall q, pv h' q = if decide (q = p) then default (pv h q) fp else pv h q) /\
  (forall q, is_Some (h' !! q) <-> is_Some (h !! q)) /\ untouched [p] h h'.

Lemma is_Some_insert (h : nodes) p n q : is_Some (h !! p) -> is_Some (<[p := n]> h !! q) <-> is_Some (h !! q).
Proof. intros Hp. destruct (decide (q = p)) as [->|Hn]; [rewrite lookup_insert_eq|by rewrite lookup_insert_ne]. split; [done|by eexists]. Qed.

Lemma wp_set_next p x (Q : unit -> nodes -> Prop) h : is_Some (h !! p) -> (forall h', stored p (Some x) None h h' -> Q tt h') -> wp (set_next p x) Q h.
Proof.
  intros [n Hp] HQ. unfold set_next, get_node. wp_step. eapply wp_gets_opt; [exact Hp|]. wp_step. apply HQ. split; [|split; [|split]].
  - intros q. by apply nx_set_next.
  - intros q. rewrite (pv_set_next h p n x q Hp). simpl. by destruct (decide (q = p)).
  - intros q. apply is_Some_insert. by eexists.
  - intros q Hq. apply lookup_insert_ne. intros <-. apply Hq. by left.
Qed.

Lemma wp_set_prev p x (Q : unit -> nodes -> Prop) h : is_Some (h !! p) -> (forall h', stored p None (Some x) h h' -> Q tt h') -> wp (set_prev p x) Q h.
Proof.
  intros [n Hp] HQ. unfold set_prev, get_node. wp_step. eapply wp_gets_opt; [exact Hp|]. wp_step. apply HQ. split; [|split; [|split]].
  - intros q. rewrite (nx_set_prev h p n x q Hp). simpl. by destruct (decide (q = p)).
  - intros q. by apply pv_set_prev.
  - intros q. apply is_Some_insert. by eexists.
  - intros q Hq. apply lookup_insert_ne. intros <-. apply Hq. by left.
Qed.

Lemma wp_get_next p (Q : option positive -> nodes -> Prop) h : is_Some (h !! p) -> Q (nx h p) h -> wp (get_next p) Q h.
Proof. intros [n Hp] HQ. unfold get_next, get_node. wp_step. eapply wp_gets_opt; [exact Hp|]. wp_step. unfold nx in HQ. by rewrite Hp in HQ. Qed.

Lemma wp_get_prev p (Q : option positive -> nodes -> Prop) h : is_Some (h !! p) -> Q (pv h p) h -> wp (get_prev p) Q h.
Proof. intros [n Hp] HQ. unfold get_prev, get_node. wp_step. eapply wp_gets_opt; [exact Hp|]. wp_step. unfold pv in HQ. by rewrite Hp in HQ. Qed.

Lemma wp_deref p x (Q : positive -> nodes -> Prop) h : p = Some x -> Q x h -> wp (deref p) Q h.
Proof. intros -> HQ. by eapply wp_gets_opt. Qed.

(** ** Taking a ring apart *)

(** A place in a ring: between [a], the last of [head] and [l1], and [b], the first of [l2]
    and [head]. *)
Record place (head : positive) (l1 l2 : list positive) (a b : positive) (A B : list positive) : Prop := {
  pl_before : head :: l1 = A ++ [a];
  pl_after : l2 ++ [head] = b :: B;
}.

Lemma place_exists head l1 l2 : exists a b A B, place head l1 l2 a b A B.
Proof.
  destruct (exists_last (l := head :: l1)) as (A & a & E); [done|]. destruct (l2 ++ [head]) as [|b B] eqn:E2; [by destruct l2|]. exists a, b, A, B. by split.
Qed.

Lemma place_nodup head l1 mid l2 a b A B : place head l1 l2 a b A B -> NoDup (head :: l1 ++ mid ++ l2) ->
  NoDup (A ++ [a]) /\ NoDup (b :: B) /\ (forall x, x ∈ tail (A ++ [a]) -> x <> b) /\ (forall x, x ∈ removelast (b :: B) -> x <> a) /\
  a ∉ mid /\ b ∉ mid.
Proof.
  intros [P1 P2] Hnd. assert (a ∈ head :: l1) as Ha by (rewrite P1; set_solver). assert (b ∈ l2 ++ [head]) as Hb by (rewrite P2; set_solver).
  pose proof Hnd as Hnd0. rewrite app_comm_cons in Hnd0. apply NoDup_app in Hnd0 as (N1 & D1 & N2). apply NoDup_app in N2 as (N2 & D2 & N3).
  apply NoDup_cons in Hnd as [Hh Hnd]. apply NoDup_app in Hnd as (M1 & M2 & _).
  split_and!.
  - by rewrite <- P1.
  - rewrite <- P2. apply NoDup_app. split_and!; [done| |apply NoDup_singleton]. intros x Hx ->%list_elem_of_singleton. apply Hh. set_solver.
  - intros x Hx ->. rewrite <- P1 in Hx. simpl in Hx. apply (M2 b Hx). apply elem_of_app in Hb as [Hb| ->%list_elem_of_singleton]; [set_solver|]. exfalso. apply Hh. set_solver.
  - intros x Hx ->. rewrite <- P2, removelast_last in Hx. apply (D1 a Ha). set_solver.
  - intros Hm. apply (D1 a Ha). set_solver.
  - intros Hm. apply elem_of_app in Hb as [Hb| ->%list_elem_of_singleton]; [by apply (D2 b)|]. apply Hh. set_solver.
Qed.

(** The two sides of a place stay chains when only [a->next], [b->prev] and the middle
    change. *)
Lemma place_chains h h' head l1 mid l2 a b A B : place head l1 l2 a b A B -> ring h head (l1 ++ mid ++ l2) ->
  (forall x, x ∈ head :: l1 ++ l2 -> x <> a -> nx h' x = nx h x) -> (forall x, x ∈ head :: l1 ++ l2 -> x <> b -> pv h' x = pv h x) ->
  chain h' (A ++ [a]) /\ chain h' (b :: B).
Proof.
  intros Hpl [Hnd Hc] Hn Hp. pose proof Hpl as [P1 P2]. destruct (place_nodup _ _ _ _ _ _ _ _ Hpl Hnd) as (N1 & N2 & D1 & D2 & _).
  assert (head :: (l1 ++ mid ++ l2) ++ [head] = (A ++ [a]) ++ mid ++ b :: B) as E by (rewrite <- P1, <- P2; simpl; by rewrite <- !app_assoc). rewrite E in Hc.
  assert (forall x, x ∈ A ++ [a] -> x ∈ head :: l1 ++ l2) as S1 by (rewrite <- P1; set_solver). assert (forall x, x ∈ b :: B -> x ∈ head :: l1 ++ l2) as S2 by (rewrite <- P2; set_solver).
  split.
  - apply (chain_frame h); [by apply (chain_infix h [] (A ++ [a]) (mid ++ b :: B))| |].
    + intros x Hx. rewrite removelast_last in Hx. apply Hn; [apply S1; set_solver|]. intros ->. apply NoDup_app in N1 as (_ & N1 & _). by apply (N1 a Hx), list_elem_of_singleton.
    + intros x Hx. apply Hp; [|by apply D1]. apply S1. destruct (A ++ [a]); [done|]. by right.
  - apply (chain_frame h).
    + apply (chain_infix h ((A ++ [a]) ++ mid) (b :: B) []). rewrite app_nil_r, <- app_assoc. exact Hc.
    + intros x Hx. apply Hn; [|by apply D2]. apply S2. rewrite <- P2 in *. rewrite removelast_last in Hx. set_solver.
    + intros x Hx. simpl in Hx. apply Hp; [apply S2; by right|]. intros ->. by apply NoDup_cons in N2 as [N2 _].
Qed.

Lemma chain_nodes h x y r c : chain h (c ++ x :: y :: r) -> nx h x = Some y /\ pv h y = Some x.
Proof. intros H. apply (chain_infix h c [x; y] r) in H. by destruct H as [H _]. Qed.

Lemma nx_alloc h p x : nx h p = Some x -> is_Some (h !! p).
Proof. unfold nx. destruct (h !! p); [by eexists|done]. Qed.

Lemma pv_alloc h p x : pv h p = Some x -> is_Some (h !! p).
Proof. unfold pv. destruct (h !! p); [by eexists|done]. Qed.

Lemma join_chains h head l1 mid l2 a b A B : place head l1 l2 a b A B -> chain h (A ++ [a]) -> chain h (b :: B) -> chain h (a :: mid ++ [b]) ->
  chain h (head :: (l1 ++ mid ++ l2) ++ [head]).
Proof.
  intros [P1 P2] H1 H2 H3. assert (head :: (l1 ++ mid ++ l2) ++ [head] = A ++ a :: mid ++ b :: B) as ->.
  { rewrite <- P2, <- !app_assoc. change (head :: l1 ++ ?x) with ((head :: l1) ++ x). by rewrite P1, <- app_assoc. }
  apply chain_app. split; [done|]. apply (chain_app h (a :: mid) b B). by split.
Qed.

Lemma ring_place h head l1 mid l2 a b A B : place head l1 l2 a b A B -> ring h head (l1 ++ mid ++ l2) -> chain h (a :: mid ++ [b]).
Proof.
  intros [P1 P2] [_ Hc]. apply (chain_infix h A _ B). replace (A ++ (a :: mid ++ [b]) ++ B) with (head :: (l1 ++ mid ++ l2) ++ [head]); [done|].
  rewrite <- !app_assoc. rewrite P2. change (head :: l1 ++ ?x) with ((head :: l1) ++ x). rewrite P1. rewrite <- !app_assoc. simpl. by rewrite <- app_assoc.
Qed.

(** A store, seen at one place. *)
Lemma stored_nx p fn fp h h' q : stored p fn fp h h' -> nx h' q = if decide (q = p) then default (nx h q) fn else nx h q.
Proof. by intros [H _]. Qed.
Lemma stored_pv p fn fp h h' q : stored p fn fp h h' -> pv h' q = if decide (q = p) then default (pv h q) fp else pv h q.
Proof. by intros (_ & H & _). Qed.
Lemma stored_alloc p fn fp h h' q : stored p fn fp h h' -> is_Some (h' !! q) <-> is_Some (h !! q).
Proof. intros (_ & _ & H & _). apply H. Qed.
Lemma stored_other p fn fp h h' q : stored p fn fp h h' -> q <> p -> h' !! q = h !! q.
Proof. intros (_ & _ & _ & H) Hn. apply H. by intros ?%list_elem_of_singleton. Qed.

(** Reads after a sequence of stores. *)
Ltac read_stores := repeat match goal with
  | H : stored _ _ _ _ ?h' |- context [nx ?h' ?q] => rewrite !(stored_nx _ _ _ _ _ q H)
  | H : stored _ _ _ _ ?h' |- context [pv ?h' ?q] => rewrite !(stored_pv _ _ _ _ _ q H)
  | H : stored _ _ _ _ ?h' |- is_Some (?h' !! ?q) => rewrite (stored_alloc _ _ _ _ _ q H)
  end; cbn [default]; rewrite ?decide_False by congruence.

Ltac keep_stores := repeat match goal with
  | H : stored _ _ _ _ ?h' |- ?h' !! ?q = _ => rewrite (stored_other _ _ _ _ _ q H); [|intros ->; set_solver]
  end.

Ltac list_step := first [wp_step | apply wp_get_next; [by read_stores|] | apply wp_get_prev; [by read_stores|]
  | eapply wp_deref; [read_stores; eassumption|] | apply wp_set_next; [by read_stores|]; intros ? ? | apply wp_set_prev; [by read_stores|]; intros ? ?].

(** C36: [list_remove] on a node of a list takes it, and nothing else, out of the list,
    whatever the position of the node; the node is unlinked afterwards and other lists are as
    before. *)
Theorem list_remove_correct h head l1 p l2 : ring h head (l1 ++ p :: l2) ->
  wp (list_remove p) (fun _ h' => ring h' head (l1 ++ l2) /\ nx h' p = None /\ pv h' p = None /\ untouched (head :: l1 ++ p :: l2) h h') h.
Proof.
  intros Hr. destruct (place_exists head l1 l2) as (a & b & A & B & Hpl). pose proof (ring_place h head l1 [p] l2 a b A B Hpl Hr) as [[E1 E2] [[E3 E4] _]].
  pose proof Hr as [Hnd _]. destruct (place_nodup head l1 [p] l2 a b A B Hpl Hnd) as (_ & _ & _ & _ & Ha & Hb). rewrite !list_elem_of_singleton in *.
  pose proof Hpl as [P1 P2]. assert (a ∈ head :: l1 ++ p :: l2) as Ia by (assert (a ∈ head :: l1) by (rewrite P1; set_solver); set_solver).
  assert (b ∈ head :: l1 ++ p :: l2) as Ib by (assert (b ∈ l2 ++ [head]) by (rewrite P2; set_solver); set_solver).
  assert (is_Some (h !! p)) as Sp by by eapply nx_alloc. assert (is_Some (h !! a)) as Sa by by eapply nx_alloc. assert (is_Some (h !! b)) as Sb by by eapply pv_alloc.
  unfold list_remove, list_node_init. repeat list_step. match goal with |- context [ring ?x head] => rename x into h4 end.
  assert (forall q, nx h4 q = if decide (q = p) then None else if decide (q = a) then Some b else nx h q) as Hnx.
  { intros q. read_stores. by repeat case_decide. }
  assert (forall q, pv h4 q = if decide (q = p) then None else if decide (q = b) then Some a else pv h q) as Hpv.
  { intros q. read_stores. by repeat case_decide. }
  assert (forall x, x ∈ head :: l1 ++ l2 -> x <> p) as Hnp.
  { intros x Hx ->. rewrite app_comm_cons in Hnd. rewrite <- Permutation_middle in Hnd. by apply NoDup_cons in Hnd as [Hnd _]. }
  destruct (place_chains h h4 head l1 [p] l2 a b A B Hpl Hr) as [C1 C2].
  { intros x Hx Hn. rewrite Hnx, !decide_False; [done|done|by apply Hnp]. }
  { intros x Hx Hn. rewrite Hpv, !decide_False; [done|done|by apply Hnp]. }
  split; [split|split; [|split]].
  - rewrite app_comm_cons in Hnd. rewrite <- Permutation_middle in Hnd. by apply NoDup_cons in Hnd as [_ Hnd].
  - apply (join_chains h4 head l1 [] l2 a b A B Hpl C1 C2). split; [|done]. rewrite Hnx, Hpv. split; repeat case_decide; congruence.
  - by rewrite Hnx, decide_True.
  - by rewrite Hpv, decide_True.
  - intros q Hq. by keep_stores.
Qed.

(** ** Adding a node *)

Lemma inserted_ring h h' head l1 l2 a b A B p : place head l1 l2 a b A B -> ring h head (l1 ++ l2) -> p ∉ head :: l1 ++ l2 ->
  (forall q, nx h' q = if decide (q = a) then Some p else if decide (q = p) then Some b else nx h q) ->
  (forall q, pv h' q = if decide (q = b) then Some p else if decide (q = p) then Some a else pv h q) -> ring h' head (l1 ++ p :: l2).
Proof.
  intros Hpl Hr Hp Hnx Hpv. pose proof Hr as [Hnd _]. pose proof Hpl as [P1 P2].
  assert (a <> p) as Na. { intros ->. apply Hp. assert (p ∈ head :: l1) by (rewrite P1; set_solver). set_solver. }
  assert (b <> p) as Nb. { intros ->. apply Hp. assert (p ∈ l2 ++ [head]) by (rewrite P2; set_solver). set_solver. }
  destruct (place_chains h h' head l1 [] l2 a b A B Hpl Hr) as [C1 C2].
  { intros x Hx Hn. rewrite Hnx, !decide_False; [done|intros ->; by apply Hp|done]. }
  { intros x Hx Hn. rewrite Hpv, !decide_False; [done|intros ->; by apply Hp|done]. }
  split.
  - rewrite app_comm_cons, <- Permutation_middle. by constructor.
  - apply (join_chains h' head l1 [p] l2 a b A B Hpl C1 C2). simpl. rewrite !Hnx, !Hpv.
    split; [|split; [|done]]; split; repeat case_decide; congruence.
Qed.

Lemma place_in head l1 l2 a b A B : place head l1 l2 a b A B -> a ∈ head :: l1 ++ l2 /\ b ∈ head :: l1 ++ l2.
Proof.
  intros [P1 P2]. assert (a ∈ head :: l1) by (rewrite P1; set_solver). assert (b ∈ l2 ++ [head]) by (rewrite P2; set_solver). set_solver.
Qed.

(** [list_add_after] and [list_add_before] put a node that is not on the list behind, or
    in front of, any node of it, and change no other list. *)
Theorem list_add_correct h head l1 l2 a b A B p : ring h head (l1 ++ l2) -> place head l1 l2 a b A B -> p ∉ head :: l1 ++ l2 -> is_Some (h !! p) ->
  wp (list_add_after a p) (fun _ h' => ring h' head (l1 ++ p :: l2) /\ untouched (p :: head :: l1 ++ l2) h h') h /\
  wp (list_add_before b p) (fun _ h' => ring h' head (l1 ++ p :: l2) /\ untouched (p :: head :: l1 ++ l2) h h') h.
Proof.
  intros Hr Hpl Hp Sp. pose proof (ring_place h head l1 [] l2 a b A B Hpl Hr) as [[E1 E2] _]. destruct (place_in _ _ _ _ _ _ _ Hpl) as [Ia Ib].
  assert (a <> p) as Na by congruence. assert (b <> p) as Nb by congruence.
  assert (is_Some (h !! a)) as Sa by by eapply nx_alloc. assert (is_Some (h !! b)) as Sb by by eapply pv_alloc. split.
  all: [> unfold list_add_after | unfold list_add_before]; repeat list_step; (split; [|intros q Hq; by keep_stores]);
    (eapply inserted_ring; [exact Hpl|exact Hr|exact Hp|..]); intros q; read_stores; by repeat case_decide.
Qed.

(** ** Empty lists, and two lists that become one *)

Lemma list_head_init_correct h head : is_Some (h !! head) -> wp (list_head_init head) (fun _ h' => ring h' head [] /\ untouched [head] h h') h.
Proof.
  intros Hs. unfold list_head_init. repeat list_step. split; [|intros q Hq; by keep_stores].
  split; [apply NoDup_singleton|]. split; [|done]. read_stores. split; by repeat case_decide.
Qed.

Lemma list_is_empty_correct h head l : ring h head l -> wp (list_is_empty head) (fun r h' => r = bool_decide (l = []) /\ h' = h) h.
Proof.
  intros [Hnd Hc]. assert (exists n, h !! head = Some n) as [n Hn].
  { destruct l as [|x l]; destruct Hc as [[Hc _] _]; by apply nx_alloc in Hc. }
  unfold list_is_empty, get_node. wp_step. eapply wp_gets_opt; [exact Hn|]. wp_step. split; [|done].
  destruct l as [|x l]; destruct Hc as [[H1 H2] _]; unfold nx, pv in *; rewrite Hn in *; simpl in *.
  - by rewrite H1, H2, bool_decide_eq_true_2.
  - rewrite (bool_decide_eq_false_2 (next n = Some head)), andb_false_r; [done|].
    rewrite H1. intros [= ->]. apply NoDup_cons in Hnd as [Hnd _]. set_solver.
Qed.

Lemma merged_ring h hz h1 l1 f r s e b B h2 : place h1 [] l1 h1 b [] B -> ring h h1 l1 -> ring h h2 (f :: r) -> f :: r = s ++ [e] -> (h1 :: l1) ## (h2 :: f :: r) ->
  (forall q, nx hz q = if decide (q = h2) then Some h2 else if decide (q = h1) then Some f else if decide (q = e) then Some b else nx h q) ->
  (forall q, pv hz q = if decide (q = h2) then Some h2 else if decide (q = f) then Some h1 else if decide (q = b) then Some e else pv h q) ->
  ring hz h1 ((f :: r) ++ l1).
Proof.
  intros Hpl Hr1 [N2 C2] Es Hd Hnx Hpv. pose proof Hpl as [_ P2]. pose proof Hr1 as [N1 _].
  assert (b ∈ h1 :: l1) as Ib by (assert (b ∈ l1 ++ [h1]) by (rewrite P2; set_solver); set_solver).
  assert (e ∈ f :: r) as Ie by (rewrite Es; set_solver). apply NoDup_cons in N2 as [M1 M2].
  assert (forall x y, x ∈ h1 :: l1 -> y ∈ h2 :: f :: r -> x <> y) as Hne by (intros x y Hx Hy ->; by apply (Hd y)).
  destruct (place_chains h hz h1 [] [] l1 h1 b [] B Hpl Hr1) as [_ K2].
  { intros x Hx Hn. rewrite Hnx, !decide_False; [done|by apply Hne; [|by right]|done|by apply Hne; [|by left]]. }
  { intros x Hx Hn. rewrite Hpv, !decide_False; [done|done|apply Hne; [done|by right; left]|by apply Hne; [|by left]]. }
  split.
  - apply NoDup_cons in N1 as [N1 N1']. constructor; [set_solver|]. apply NoDup_app. split; [done|]. split; [set_solver|done].
  - apply (join_chains hz h1 [] (f :: r) l1 h1 b [] B Hpl I K2). rewrite Es, <- app_assoc, app_comm_cons. apply (chain_app hz (h1 :: s) e [b]).
    assert (chain hz (s ++ [e])) as Ks.
    { rewrite <- Es. apply (chain_frame h); [apply (chain_infix h [h2] (f :: r) [h2]), C2| |].
      - intros x Hx. rewrite Es, removelast_last in Hx. assert (x ∈ f :: r) as Hx' by (rewrite Es; set_solver).
        rewrite Es in M2. apply NoDup_app in M2 as (_ & M2 & _). assert (x <> e) by (intros ->; by apply (M2 e Hx), list_elem_of_singleton).
        assert (x <> h2 /\ x <> h1) as [? ?] by (split; intros ->; set_solver). rewrite Hnx. by repeat case_decide.
      - simpl. intros x Hx. apply NoDup_cons in M2 as [M2 _]. assert (x <> h2 /\ x <> f /\ x <> b) as (? & ? & ?) by (split_and!; intros ->; set_solver).
        rewrite Hpv. by repeat case_decide. }
    assert (h2 <> e /\ h2 <> f /\ h2 <> b /\ h2 <> h1 /\ e <> h1 /\ f <> b) as (D1 & D2 & D3 & D4 & D5 & D7) by (split_and!; intros ->; set_solver).
    assert (nx hz h1 = Some f /\ pv hz f = Some h1) as Hl by (rewrite Hnx, Hpv; split; repeat case_decide; congruence).
    assert (nx hz e = Some b /\ pv hz b = Some e) as Hl2 by (rewrite Hnx, Hpv; split; repeat case_decide; congruence).
    split; [|split; [exact Hl2|done]]. destruct s as [|x s]; simpl in *; injection Es as Ef Er; subst x || subst f; by split.
Qed.

(** [list_merge] puts the nodes of the second list in front of those of the first and
    leaves the second list empty. *)
Theorem list_merge_correct h h1 l1 h2 l2 : ring h h1 l1 -> ring h h2 l2 -> (h1 :: l1) ## (h2 :: l2) ->
  wp (list_merge h1 h2) (fun _ h' => ring h' h1 (l2 ++ l1) /\ ring h' h2 [] /\ untouched ((h1 :: l1) ++ h2 :: l2) h h') h.
Proof.
  intros Hr1 Hr2 Hd. unfold list_merge. wp_step. eapply wp_mono; [by apply (list_is_empty_correct h h2 l2)|]. cbv beta. intros r h' (-> & ->).
  apply wp_when; intros E; destruct l2 as [|f r]; try done. clear E.
  destruct (place_exists h1 [] l1) as (a & b & A & B & Hpl). pose proof Hpl as [P1 P2]. destruct A as [|? [|]]; try done. injection P1 as <-.
  destruct (exists_last (l := f :: r)) as (s & e & Es); [done|].
  pose proof (ring_place h h1 [] [] l1 h1 b [] B Hpl Hr1) as [[E1 E2] _]. pose proof Hr2 as [N2 C2]. pose proof Hr1 as [N1 _].
  assert (nx h h2 = Some f /\ pv h f = Some h2) as [F1 F2] by apply C2.
  assert (nx h e = Some h2 /\ pv h h2 = Some e) as [F3 F4]. { apply (chain_nodes h e h2 [] (h2 :: s)). rewrite Es, <- app_assoc in C2. exact C2. }
  assert (b ∈ h1 :: l1) as Ib by (assert (b ∈ l1 ++ [h1]) by (rewrite P2; set_solver); set_solver).
  assert (e ∈ f :: r) as Ie by (rewrite Es; set_solver). pose proof N2 as [M1 M2]%NoDup_cons.
  assert (h2 <> e /\ h2 <> f /\ h2 <> b /\ h2 <> h1 /\ e <> h1 /\ e <> b /\ f <> b /\ f <> h1) as (D1 & D2 & D3 & D4 & D5 & D6 & D7 & D8) by (split_and!; intros ->; set_solver).
  assert (is_Some (h !! h1) /\ is_Some (h !! h2) /\ is_Some (h !! e)) as (S1 & S2 & S3) by (split_and!; by eapply nx_alloc).
  assert (is_Some (h !! b) /\ is_Some (h !! f)) as (S4 & S5) by (split; by eapply pv_alloc).
  repeat list_step. match goal with |- context [ring ?x h1] => rename x into hz end.
  assert (forall q, nx hz q = if decide (q = h2) then Some h2 else if decide (q = h1) then Some f else if decide (q = e) then Some b else nx h q) as Hnx.
  { intros q. read_stores. repeat case_decide; done || congruence. }
  assert (forall q, pv hz q = if decide (q = h2) then Some h2 else if decide (q = f) then Some h1 else if decide (q = b) then Some e else pv h q) as Hpv.
  { intros q. read_stores. repeat case_decide; done || congruence. }
  split; [|split; [|intros q Hq; by keep_stores]].
  - by apply (merged_ring h hz h1 l1 f r s e b B h2).
  - split; [apply NoDup_singleton|]. split; [|done]. rewrite Hnx, Hpv. by split; repeat case_decide.
Qed.

End clist.

(** ** Witnesses *)

(** The list of the node 1 has the nodes 2 and 3, that of 5 has the node 6; 4 is on no list. *)
Definition two_lists : gmap positive list_node :=
  list_to_map [(1, ListNode (Some 2) (Some 3)); (2, ListNode (Some 3) (Some 1)); (3, ListNode (Some 1) (Some 2)); (4, ListNode None None);
    (5, ListNode (Some 6) (Some 6)); (6, ListNode (Some 5) (Some 5))]%positive.

Lemma two_lists_rings : ring two_lists 1 [2; 3]%positive /\ ring two_lists 5 [6]%positive.
Proof. split; (split; [apply (bool_decide_unpack _); vm_compute; exact I|vm_compute; tauto]). Qed.

Lemma list_remove_correct_witness : wp (list_remove 2) (fun _ h => ring h 1 [3]%positive /\ nx h 2 = None /\ pv h 2 = None) two_lists.
Proof.
  eapply wp_mono; [exact (list_remove_correct two_lists 1 [] 2 [3]%positive (proj1 two_lists_rings))|]. cbv beta. intros _ h (H1 & H2 & H3 & _). exact (conj H1 (conj H2 H3)).
Defined.

Lemma list_add_correct_witness :
  wp (list_add_after 2 4) (fun _ h => ring h 1 [2; 4; 3]%positive) two_lists /\ wp (list_add_before 3 4) (fun _ h => ring h 1 [2; 4; 3]%positive) two_lists.
Proof.
  destruct (list_add_correct two_lists 1 [2]%positive [3]%positive 2 3 [1]%positive [1]%positive 4) as [H1 H2].
  - exact (proj1 two_lists_rings).
  - split; reflexivity.
  - apply (bool_decide_unpack _). vm_compute. exact I.
  - by eexists.
  - split; [eapply wp_mono; [exact H1|]|eapply wp_mono; [exact H2|]]; cbv beta; intros _ h [H _]; exact H.
Defined.

Lemma list_merge_correct_witness : wp (list_merge 1 5) (fun _ h => ring h 1 [6; 2; 3]%positive /\ ring h 5 []) two_lists.
Proof.
  eapply wp_mono; [apply (list_merge_correct two_lists 1 [2; 3]%positive 5 [6]%positive (proj1 two_lists_rings) (proj2 two_lists_rings))|].
  - intros x H1 H2. rewrite !elem_of_cons in H1, H2. set_solver.
  - cbv beta. intros _ h (H1 & H2 & _). exact (conj H1 H2).
Defined.
